(* ===== verification/_CoqProject ===== *)
-Q . S2P
Prelude.v
Byteorder.v
BufSimple.v
Utils.v
Slist.v
Queue.v
MemPool.v
MeshDefs.v
Rpl.v
Bridge.v
CryptoIf.v
Psa.v
CryptoPsa.v
Crypto.v
Subnet.v
KeySlots.v
SubnetTable.v
NetIv.v
Net.v
NetPdu.v
NetFlow.v
NetSample.v
Va.v
AppKeys.v
AppOps.v
AppTable.v
NodeKeys.v
Transport.v
TransRx.v
TransTx.v
TransInv.v
TransSample.v
Cycles.v
Access.v
AccessFrame.v
AccessExt.v
AccessRecv.v
CompData.v
CompPages.v
AccessStore.v
AccessSample.v
OpAgg.v
OpAggSpec.v
OpAggSample.v
CfgSrv.v
CfgSrvInv.v
CfgSrvSafe.v
CfgSrvSample.v
Lpn.v
LpnSub.v
LpnKeeps.v
LpnRun.v
LpnAwake.v
LpnSample.v
BtBuf.v
BtBufRefs.v
BtBufOps.v
BtBufChain.v
BtBufBytes.v
BtBufGrow.v
BtBufRun.v
BtBufSample.v
