(* ===== verification/Prelude.v ===== *)
(** OpenBlue: a verification development of the base library and of the Bluetooth
    Mesh node.

    The repository is a port of a Bluetooth stack: a host, audio and classic profiles,
    services, and a Mesh node, over a base library ([src/base], [src/include/utils])
    and an OS layer.  The development models the base library and, of the Mesh node
    ([src/bluetooth/mesh]), everything a network PDU passes through: keys and
    cryptography, the subnets and their credentials, the IV Index and the sequence
    number, the replay list, the bridging table, the network layer that joins them, the
    transport layer over it and the access layer that hands messages to the models.

    * How the program is modelled

    A C integer is a [Z], reduced modulo its width where the program converts or stores
    it ([u8] ... [u64]); a byte array is a [list Z] of bytes, and a buffer over an array
    a store with offsets, whose accesses out of bounds, like a failed assertion, are
    [None] in the base library and [Crash] in the mesh files.  Static state is a record
    that the operations of a file take and return; where errors and crashes pass
    through many calls, the operations are in the monad [M] of [CryptoIf.v], whose
    outcome is [Ok], [Err] with an errno value, or [Crash].  What a component calls and
    does not own is a parameter or a log: calls into other modules that change nothing
    here are entries of a list, in their order.  A build option ([IS_ENABLED],
    [#if]) is a boolean or a number the definitions take, so the theorems hold for every
    build, with the exceptions they name.  Errno values are those of POSIX.

    * The files

    - [Prelude.v]: integers, lists, options, automation; this header.
    - [Byteorder.v]: [base/byteorder.h].
    - [BufSimple.v]: [base/bt_buf_simple.c], with the inline helpers of [base/bt_buf.h].
    - [BtBuf.v]: [base/bt_buf.c], the buffers of [base/bt_buf.h] with reference counts and
      fragments, over [BufSimple.v], [Slist.v] and [Queue.v].  [BtBufRefs.v]: the invariant of
      the counts, and giving buffers out and back; [BtBufOps.v]: the bytes of a buffer, and
      copies; [BtBufChain.v]: linking and unlinking; [BtBufBytes.v]: reading a chain;
      [BtBufGrow.v]: skipping and appending; [BtBufRun.v]: clients; [BtBufSample.v]: a run,
      and what goes wrong outside the conditions that clients have to see to.
    - [Utils.v]: [base/utils.c] and [bt_hex] of [common/bt_str.c].
    - [Slist.v]: [include/utils/bt_slist.h], on a heap of next pointers.
    - [Queue.v]: [base/queue/bt_queue.c]; what other threads do during a wait is an
      argument.
    - [MemPool.v]: [base/bt_mem_pool.c], with several threads as a step relation.
    - [MeshDefs.v]: address classes and the context of a received PDU.
    - [Rpl.v]: [mesh/rpl.c].
    - [Bridge.v]: [mesh/brg_cfg.c].
    - [CryptoIf.v]: the interface of the crypto backend ([mesh/crypto.h]) as a class of
      operations, [MeshCrypto], with its promises, [MeshCryptoLaws].
    - [Psa.v]: the PSA Crypto API, which is not in the repository, as a class of
      operations with the documented behaviour the code relies on; and a small concrete
      instance, which shows that the laws can hold and on which witnesses are evaluated.
    - [CryptoPsa.v]: [mesh/crypto_psa.c] over [Psa.v]; it keeps the promises of
      [CryptoIf.v].
    - [Crypto.v]: [mesh/crypto.c] over the interface alone.
    - [Subnet.v], [SubnetTable.v]: [mesh/subnet.c], with the identity switches of
      [mesh/proxy_srv.c]; then the subnets as a table of NetKeys, over [KeySlots.v], which
      has what arrays of slots over a key store have in common.
    - [NetIv.v]: the IV Update procedure, the sequence number and their storage, of
      [mesh/net.c] and [mesh/settings.c].
    - [Net.v]: the PDU path of [mesh/net.c]: caches, encoding, sending, decoding,
      reception, relay, bridging, loopback.
    - [NetPdu.v], [NetFlow.v]: what a node accepts, and what passes from node to node.
    - [NetSample.v]: concrete nodes, on which those theorems are evaluated.
    - [Va.v]: [mesh/va.c], the label UUIDs of virtual addresses.
    - [AppKeys.v], [AppOps.v]: [mesh/app_keys.c]: the lookups of the transport layer, then
      the operations on the keys; [AppTable.v]: the application keys as a table;
      [NodeKeys.v]: subnets and application keys over one key store.
    - [Transport.v]: [mesh/transport.c]: sending, acknowledgements, retransmission,
      reassembly, decryption, control messages, over [Net.v] and [AppKeys.v].
    - [TransRx.v]: parsing and reassembly; [TransTx.v]: segmentation, and a message from
      one node to another; [TransInv.v]: the invariant of the segment pool;
      [TransSample.v]: all of them on concrete nodes.
    - [Access.v]: [mesh/access.c] and [bt_mesh_model_msg_init]: composition, models,
      dispatch, sending, publishing, storage, over [Transport.v]; a handler of a model is
      a parameter that may change the whole state.  [Cycles.v]: circles of an injective
      map; [AccessFrame.v]: what receiving and sending leave alone; [AccessExt.v]: the lists
      of models that extend one another; [AccessRecv.v]: who gets a message; [AccessStore.v]: the stored records of the models.
    - [CompData.v]: the pages of composition data and metadata of [mesh/access.c], and the
      functions of [mesh/cfg_cli.c] that take them apart; [CompPages.v]: what is read is
      what was written.
    - [AccessSample.v]: a node with models.
    - [OpAgg.v]: the Opcodes Aggregator ([mesh/op_agg.c], [mesh/op_agg_srv.c],
      [mesh/op_agg_cli.c], [mesh/msg.c]) over [Access.v]; [OpAggSpec.v]: an exchange
      between its client and its server; [OpAggSample.v]: one such exchange.
    - [CfgSrv.v]: the Configuration Server ([mesh/cfg_srv.c]), as far as it configures
      models, over [Access.v] and [Va.v]; [CfgSrvInv.v]: its invariant, and a logic of
      triples for it; [CfgSrvSafe.v]: every message, and runs; [CfgSrvSample.v]: a run.
    - [Lpn.v]: the Low Power node ([mesh/lpn.c]) over [Transport.v]; [LpnSub.v]: the
      subscription list of its Friend ([mesh/friend.c]), and the invariant of the two;
      [LpnKeeps.v]: every operation keeps it; [LpnRun.v]: runs in which messages get lost;
      [LpnAwake.v]: what the node waits for; [LpnSample.v]: a friendship.

    A definition has the name of the C function, macro or structure it models; the
    helpers that stand for a loop or a branch of one say so.  The network layer calls the
    models of the other parts, as the program does: [Net.bt_mesh_net_recv] runs
    [bt_mesh_net_cred_find] of [Subnet.v] with [net_decrypt] as its callback, the toolbox
    of [Crypto.v] over a backend, [bt_mesh_rpl_check] of [Rpl.v], the table of
    [Bridge.v], and [next_seq] is [bt_mesh_next_seq] of [NetIv.v].

    * What the theorems show

    - The base library: [byteorder_codecs] for the codecs of every width;
      [bt_buf_simple_refines_deque] makes a buffer a bounded deque of bytes, faults
      included; [slist_refines_list] and [bt_queue_refines_list] make the pointer lists
      and the queue mathematical lists, [bt_queue_get_blocking] says what a blocking
      get returns; [bt_mem_pool_safe] is the invariant of the pools under every
      interleaving, and [bt_mem_pool_wait_never_served] shows that a waiting allocation
      keeps the lock its release needs; whatever the clients of pools of buffers do within
      [client_may], no reference is lost, no buffer is free while somebody has it, no
      operation fails, and chains of fragments are the bytes they hold ([buf_refs_exact]);
      CRC, hexadecimal and UTF-8 routines meet their
      specifications.
    - Replay: over every history of receptions, IV Index updates and storage jobs the
      PDUs accepted from a source increase strictly ([rpl_replay_protection]); the two
      builds of the reset agree ([rpl_reset_deferred_equiv]).
    - Bridging table: [brg_cfg_refines_rows] and [brg_cfg_store_load].
    - Keys and cryptography: key slots are a finite map ([bt_mesh_key_slots_refine]); sealing and opening are inverse, nonces of
      different uses differ ([mesh_nonces_unique]), the derivations are those of the
      Mesh specification.
    - Subnets: every sequence of operations answers as an abstract table of NetKeys, and
      ends ([subnet_table_refines]); the storage follows it
      ([subnet_storage_follows]) and a restart restores it ([subnet_restart]).
    - Application keys: any interleaving of the operations of [subnet.c] and of
      [app_keys.c] answers as two abstract tables, neither component touching the keys of
      the other ([node_keys_refine]); a restart restores both ([node_keys_restart]).
    - Label UUIDs: a finite map from labels to slots and reference counts
      ([va_refines_labels]), which a restart restores ([va_restart]).
    - IV Index: no nonce is ever used twice, restarts included
      ([net_nonces_never_reused]); states last for their 96 hours
      ([iv_state_lasts]); [restart_restores] says what a restart restores.
    - Network layer: what a node sends, each node with the keys reads
      ([net_encode_decode]), also behind a relay ([net_relay_read]); no PDU is accepted
      twice within the window of the cache ([net_accepts_once]); the answer of
      [bt_mesh_net_decode] to every input ([bt_mesh_net_decode_spec]), of the send and
      relay functions ([net_send_spec], [net_relay_spec]), and the caches as windows
      ([net_caches_refine]).
    - Transport layer: what the sender writes as a segment the receiver parses
      ([seg_build_parse]); segments in any order and with repetitions are reassembled and
      passed on, once ([sar_reassembles], [sar_once]); a message one node segments and
      encrypts another delivers ([trans_end_to_end]); no sequence of operations loses a
      block of the segment pool or frees one twice ([segs_accounted]).
    - Access layer: the handlers that are called for a message, and with what, also when
      they change the keys and subscriptions of the models after them
      ([model_recv_dispatches]); whatever models extend one another, their lists stay
      circles, and an address found from a model is one of a related model; all are found
      but in the one case in which the program takes a list apart ([extensions_share],
      [extend_again_splits]); a restart restores the keys,
      subscriptions and publications of the models ([access_restart]).
    - Composition data: a page read from any offset is the rest of the page
      ([comp_page_read]); a client gets from page 0 what the node has
      ([comp_page_0_roundtrip]).
    - Opcodes Aggregator: the messages a client collects reach the handlers of the
      server's models, in their order, and each answer its request, as long as the models
      that get the answers do not use the client meanwhile ([op_agg_exchange]).
    - Configuration Server: in no run of its messages, of key deletions and resets does a
      model use a label that is not counted for it, or publish with a key that is not bound
      to it, or that the node never had ([cfg_models_sound]); deleting a key leaves it bound
      ([deleted_key_stays]).  The counts are bounds from above: there are references
      that nobody gives back ([unpublish_leaks_label]).
    - Low Power node: in runs with messages and confirmations lost or repeated, the groups
      that the node counts as known are in the list of its Friend, if groups are not added
      while messages about them are under way ([lpn_friend_knows]); and the node waits for
      nothing only after a step at which it had nothing to do ([lpn_awake]).  The examples of
      [LpnSample.v] are runs that these theorems leave out, in which the program goes wrong.

    * Bounds and fuel

    Loops over arrays and lists recurse on them.  Fuel appears in six places.  The
    walks of pointer lists ([find_from], [len_from], [remove_loop], [member_loop]) take
    one more than the number of cells of the heap, which is enough for every list the
    heap can hold, as the refinement theorems show: they have no case for running out.
    [create_loop] of the memory pools takes one more than the number of blocks.  The
    loops of [utils.c] take the length of the string, or one step per digit.
    [bt_mesh_net_local] empties a queue that may grow while it runs: whether it comes to an
    end is up to the layers above, and no amount is enough for models that answer their own
    messages.  The walks over fragments of a buffer take one more than the number of
    buffers, and appending two more than the number of bytes, which is enough as long as no
    chain is a circle, as [buf_refs_exact] shows.  The walks over the lists of
    extended models take one more than the number of models, which is enough as long as
    these lists are circles: [extensions_share] shows that they are.  The loop of [bt_queue_get]
    recurses on the list of what the environment does during its waits.

    * Not modelled

    - Of the buffers: pools with data from a heap or of variable size, which are not
      compiled; the debug variants.  The callback [destroy] of a pool is a parameter, and what
      a wait for a buffer returns an argument.
    - Of the parts above: the storage of the node address and device key in [net.c]; the
      handlers of [settings.c] for other records; the beacon timers of a subnet; the
      macros that only rename, print or iterate.
    - Of the transport layer: [bt_mesh_trans_init] only sets up work items.  A message is
      decrypted in place by the program; here the attempts read a buffer of their own,
      into which the segments are assembled before each attempt, as the program does.
      A timer is an optional delay; when it fires is up to the theorem or the caller.
    - Of the access layer: the delayable messages, which are an entry of a log; the storage
      of composition data, metadata and the data of models.
    - Of the Configuration Server: the handlers for keys, composition data, features,
      heartbeat, friendship and the reset of the node.
    - Of the Low Power node: builds with more than 32 groups, debug output.  The timer is an
      optional delay, and a message given to the advertiser ends with an operation of its own.
    - Of the Mesh node: the other models over the access layer, the Friend but for its
      subscription list, beacons, proxy, provisioning, the configuration database, firmware and blob transfer, the
      advertisers.  Where the parts above call them they are a
      parameter or an entry of a log.
    - The host, audio, classic profiles, services, shells, samples, drivers, the OS layer
      and the platform ports: they are separate components, mostly drivers of a
      controller or of an operating system that is not in the repository.

    * Next

    The queue of the Friend, and a Low Power node that reads from it; the other models over
    the access layer; the end of retransmission in the transport layer. *)

From Stdlib Require Export ZArith Lia.
From stdpp Require Export base tactics option numbers list.

#[export] Set Default Goal Selector "!".

Declare Scope ob_scope.
Delimit Scope ob_scope with ob.
Open Scope Z_scope.

(** * Machine integers

    Every C integer is a [Z]; a conversion to an unsigned type of [w] bits is
    reduction modulo [2 ^ w], written where the C program converts. *)

Definition wrap (w x : Z) : Z := x mod 2 ^ w.

Definition u8 (x : Z) : Z := x mod 256.
Definition u16 (x : Z) : Z := x mod 65536.
Definition u32 (x : Z) : Z := x mod 4294967296.
Definition u64 (x : Z) : Z := x mod 18446744073709551616.

Definition UINT8_MAX : Z := 255.
Definition UINT16_MAX : Z := 65535.

(** [BIT_MASK(n)], [BIT(n)] and the C conversion of a condition to 0 or 1. *)
Definition BIT_MASK (n : Z) : Z := Z.ones n.
Definition BIT (n : Z) : Z := Z.shiftl 1 n.

(** * Record update

    [r <| field := v |>] and [r <| field ::= f |>], for a record with an instance of
    [Eta] that rebuilds it from its fields. *)

Class Eta (R : Type) := eta_of : R -> R.
Class Setter {R E : Type} (proj : R -> E) := setter : (E -> E) -> R -> R.
Arguments setter {R E} proj {Setter} f r.

Ltac solve_setter :=
  match goal with
  | |- @Setter ?R ?E ?proj =>
      let inst := constr:(_ : Eta R) in
      let rebuilt := eval hnf in inst in
      match eval pattern proj in rebuilt with
      | ?upd _ => let u := eval cbv beta in (fun f : E -> E => upd (fun r => f (proj r))) in exact u
      end
  end.
#[export] Hint Extern 1 (Setter _) => solve_setter : typeclass_instances.

Notation "r <| proj := v |>" := (setter proj (fun _ => v) r)
  (at level 12, left associativity, format "r  <| proj  :=  v |>").
Notation "r <| proj ::= f |>" := (setter proj f r)
  (at level 12, left associativity, format "r  <| proj  ::=  f |>").

(** * Errno values (POSIX, as the Linux headers define them) *)

Definition ENOENT : Z := 2.
Definition EIO : Z := 5.
Definition ENXIO : Z := 6.
Definition EAGAIN : Z := 11.
Definition ENOMEM : Z := 12.
Definition EACCES : Z := 13.
Definition EBUSY : Z := 16.
Definition EINVAL : Z := 22.
Definition EMSGSIZE : Z := 90.
Definition EBADMSG : Z := 74.
Definition ENOTSUP : Z := 95.
Definition ENOBUFS : Z := 105.
Definition ETIMEDOUT : Z := 110.
Definition EALREADY : Z := 114.
Definition ECANCELED : Z := 125.

(** * Automation *)

Create HintDb ob discriminated.

(** Case analysis on the first [if] or [match] on a boolean comparison, with
    the comparison turned into a proposition for [lia]. *)
Ltac bool_to_prop :=
  repeat match goal with
  | H : (_ =? _)%Z = true |- _ => apply Z.eqb_eq in H
  | H : (_ =? _)%Z = false |- _ => apply Z.eqb_neq in H
  | H : (_ <? _)%Z = true |- _ => apply Z.ltb_lt in H
  | H : (_ <? _)%Z = false |- _ => apply Z.ltb_ge in H
  | H : (_ <=? _)%Z = true |- _ => apply Z.leb_le in H
  | H : (_ <=? _)%Z = false |- _ => apply Z.leb_gt in H
  | H : (_ && _)%bool = true |- _ => apply andb_true_iff in H as [? ?]
  | H : (_ || _)%bool = false |- _ => apply orb_false_iff in H as [? ?]
  | H : negb _ = true |- _ => apply negb_true_iff in H
  | H : negb _ = false |- _ => apply negb_false_iff in H
  end.

Ltac case_if :=
  match goal with
  | |- context [if ?b then _ else _] => destruct b eqn:?
  end.

Ltac case_if_in H :=
  match type of H with
  | context [if ?b then _ else _] => destruct b eqn:?
  end.

Ltac inv H := inversion H; subst; clear H.

(** Unfolds the fixed-width conversions. *)
Ltac unfold_widths := unfold u8, u16, u32, u64, wrap in *.

(** * Wrap-around lemmas *)

Lemma u8_range x : 0 <= u8 x < 256.
Proof. apply Z.mod_pos_bound; lia. Qed.
Lemma u16_range x : 0 <= u16 x < 65536.
Proof. apply Z.mod_pos_bound; lia. Qed.
Lemma u32_range x : 0 <= u32 x < 4294967296.
Proof. apply Z.mod_pos_bound; lia. Qed.
Lemma u64_range x : 0 <= u64 x < 18446744073709551616.
Proof. apply Z.mod_pos_bound; lia. Qed.

Lemma u8_id x : 0 <= x < 256 -> u8 x = x.
Proof. apply Z.mod_small. Qed.
Lemma u16_id x : 0 <= x < 65536 -> u16 x = x.
Proof. apply Z.mod_small. Qed.
Lemma u32_id x : 0 <= x < 4294967296 -> u32 x = x.
Proof. apply Z.mod_small. Qed.
Lemma u64_id x : 0 <= x < 18446744073709551616 -> u64 x = x.
Proof. apply Z.mod_small. Qed.

#[export] Hint Resolve u8_range u16_range u32_range u64_range : ob.

(** * Bytes and byte memory *)

(** A byte of C memory: an [uint8_t]. *)
Definition is_byte (x : Z) : Prop := 0 <= x < 256.

Lemma is_byte_u8 x : is_byte (u8 x).
Proof. apply u8_range. Qed.
#[export] Hint Resolve is_byte_u8 : ob.

Lemma bytes_cons b l : Forall is_byte (b :: l) <-> is_byte b /\ Forall is_byte l.
Proof. split; [inversion 1; auto | intros []; auto]. Qed.

Lemma lxor_byte a b : is_byte a -> is_byte b -> is_byte (Z.lxor a b).
Proof.
  intros Ha Hb. rewrite <-(u8_id a), <-(u8_id b) by done. unfold u8, is_byte.
  change 256 with (2 ^ 8). rewrite <-!Z.land_ones by lia.
  assert (Z.lxor (Z.land a (Z.ones 8)) (Z.land b (Z.ones 8))
          = Z.land (Z.lxor a b) (Z.ones 8)) as ->.
  { apply Z.bits_inj'. intros n Hn. rewrite Z.lxor_spec, !Z.land_spec, Z.lxor_spec.
    by destruct (Z.testbit a n), (Z.testbit b n), (Z.testbit (Z.ones 8) n). }
  rewrite Z.land_ones by lia. apply Z.mod_pos_bound. lia.
Qed.

Lemma lxor_twice a b : Z.lxor (Z.lxor a b) b = a.
Proof. by rewrite Z.lxor_assoc, Z.lxor_nilpotent, Z.lxor_0_r. Qed.
#[export] Hint Resolve lxor_byte : ob.

Lemma zip_lxor_twice a t :
  (length a <= length t)%nat -> zip_with Z.lxor (zip_with Z.lxor a t) t = a.
Proof.
  revert t. induction a as [|x a IH]; intros [|y t] Hl; simpl in *; [done..|lia|].
  rewrite lxor_twice, IH by lia. done.
Qed.

(** Length of a list as a C size. *)
Notation zlen l := (Z.of_nat (length l)).

(** [n] bytes of [m] from offset [off]. *)
Definition slice (m : list Z) (off n : Z) : list Z :=
  take (Z.to_nat n) (drop (Z.to_nat off) m).

(** Reading and writing a block of an object of [length m] bytes: [None] when
    the access leaves the object (undefined behaviour in C). *)
Definition mem_read (m : list Z) (off n : Z) : option (list Z) :=
  if (0 <=? off) && (0 <=? n) && (off + n <=? zlen m)
  then Some (slice m off n) else None.

Definition mem_write (m : list Z) (off : Z) (bs : list Z) : option (list Z) :=
  if (0 <=? off) && (off + zlen bs <=? zlen m)
  then Some (take (Z.to_nat off) m ++ bs ++ drop (Z.to_nat off + length bs) m)
  else None.

Lemma slice_length m off n :
  0 <= off -> 0 <= n -> off + n <= zlen m -> zlen (slice m off n) = n.
Proof. intros. unfold slice. rewrite length_take, length_drop. lia. Qed.

Lemma mem_read_some m off n :
  0 <= off -> 0 <= n -> off + n <= zlen m ->
  mem_read m off n = Some (slice m off n).
Proof.
  intros. unfold mem_read.
  repeat (rewrite (proj2 (Z.leb_le _ _)) by lia). done.
Qed.

Lemma mem_write_some m off bs :
  0 <= off -> off + zlen bs <= zlen m ->
  mem_write m off bs =
    Some (take (Z.to_nat off) m ++ bs ++ drop (Z.to_nat off + length bs) m).
Proof.
  intros. unfold mem_write.
  repeat (rewrite (proj2 (Z.leb_le _ _)) by lia). done.
Qed.

Lemma mem_write_length m off bs m' :
  mem_write m off bs = Some m' -> length m' = length m.
Proof.
  unfold mem_write. intros H. case_if_in H; simplify_eq. bool_to_prop.
  rewrite !length_app, length_take, length_drop. lia.
Qed.

Lemma mem_write_bytes m off bs m' :
  Forall is_byte m -> Forall is_byte bs ->
  mem_write m off bs = Some m' -> Forall is_byte m'.
Proof.
  intros Hm Hb. unfold mem_write. intros H. case_if_in H; simplify_eq.
  rewrite !Forall_app. split_and!; auto using Forall_take, Forall_drop.
Qed.

(** What a read sees after a write: the written bytes, or the old ones when
    the two ranges are disjoint. *)
Lemma slice_write_same m off bs m' :
  mem_write m off bs = Some m' -> slice m' off (zlen bs) = bs.
Proof.
  unfold mem_write. intros H. case_if_in H; simplify_eq. bool_to_prop.
  unfold slice. rewrite Nat2Z.id.
  rewrite drop_app_length' by (rewrite length_take; lia).
  by rewrite take_app_length.
Qed.

Lemma slice_write_before m off bs m' o n :
  0 <= o -> 0 <= n -> o + n <= off ->
  mem_write m off bs = Some m' -> slice m' o n = slice m o n.
Proof.
  intros ??? Hw. unfold mem_write in Hw. case_if_in Hw; simplify_eq.
  bool_to_prop. unfold slice.
  rewrite drop_app_le by (rewrite length_take; lia).
  rewrite take_app_le by (rewrite length_drop, length_take; lia).
  rewrite !take_drop_commute, take_take. do 2 f_equal. lia.
Qed.

Lemma slice_write_after m off bs m' o n :
  off + zlen bs <= o ->
  mem_write m off bs = Some m' -> slice m' o n = slice m o n.
Proof.
  intros ? Hw. unfold mem_write in Hw. case_if_in Hw; simplify_eq.
  bool_to_prop. unfold slice. f_equal.
  rewrite drop_app_ge by (rewrite length_take; lia).
  rewrite drop_app_ge by (rewrite length_take; lia).
  rewrite drop_drop. f_equal. rewrite length_take. lia.
Qed.

(** Writing back what was there before a write restores the object. *)
Lemma mem_write_back m off bs m' :
  mem_write m off bs = Some m' -> mem_write m' off (slice m off (zlen bs)) = Some m.
Proof.
  intros Hw. pose proof (mem_write_length _ _ _ _ Hw) as Hl.
  unfold mem_write in Hw. case_if_in Hw; simplify_eq. bool_to_prop.
  assert (zlen (slice m off (zlen bs)) = zlen bs) as Hs by (apply slice_length; lia).
  rewrite mem_write_some by lia. f_equal. apply Nat2Z.inj in Hs. rewrite Hs.
  rewrite take_app_le by (rewrite length_take; lia).
  rewrite take_take, Nat.min_id.
  rewrite drop_app_ge by (rewrite length_take; lia).
  rewrite drop_app_length' by (rewrite length_take; lia).
  unfold slice. rewrite Nat2Z.id, <-drop_drop, take_drop. apply take_drop.
Qed.

Lemma slice_app_split m off a b :
  0 <= off -> 0 <= a -> 0 <= b ->
  slice m off (a + b) = slice m off a ++ slice m (off + a) b.
Proof.
  intros. unfold slice. rewrite !Z2Nat.inj_add by lia.
  rewrite <-drop_drop. rewrite <-take_take_drop. done.
Qed.

Lemma slice_bytes m off n : Forall is_byte m -> Forall is_byte (slice m off n).
Proof. intros. unfold slice. auto using Forall_take, Forall_drop. Qed.

#[export] Hint Resolve slice_bytes : ob.

(** * Counting loops

    [for_to n i body s] runs [for (j = i; j < i + n; j++) body]. *)
Fixpoint for_to {S} (n i : nat) (body : nat -> S -> S) (s : S) : S :=
  match n with
  | O => s
  | Datatypes.S n' => for_to n' (Datatypes.S i) body (body i s)
  end.

(** The loop rule: an invariant indexed by the counter. *)
Lemma for_to_inv {S} (P : nat -> S -> Prop) n body i s :
  P i s ->
  (forall j s, (i <= j < i + n)%nat -> P j s -> P (Datatypes.S j) (body j s)) ->
  P (i + n)%nat (for_to n i body s).
Proof.
  revert i s. induction n as [|n IH]; intros i s H0 Hs; simpl.
  - by rewrite Nat.add_0_r.
  - rewrite <-Nat.add_succ_comm. apply IH; [apply Hs; [lia|done]|].
    intros j s' ? ?. apply Hs; [lia|done].
Qed.

Lemma for_to_last {S} n i (body : nat -> S -> S) s :
  for_to (Datatypes.S n) i body s = body (i + n)%nat (for_to n i body s).
Proof.
  revert i s. induction n as [|n IH]; intros i s; simpl in *.
  - by rewrite Nat.add_0_r.
  - rewrite IH. f_equal. lia.
Qed.

(** [memset(&a[start], 0, sizeof(a[0]) * n)] on an array with zero element [z]. *)
Definition fill {A} (z : A) (start n : nat) (l : list A) : list A :=
  take start l ++ replicate n z ++ drop (start + n) l.

Lemma fill_length {A} (z : A) start n l :
  (start + n <= length l)%nat -> length (fill z start n l) = length l.
Proof.
  intros. unfold fill.
  rewrite !length_app, length_take, length_replicate, length_drop. lia.
Qed.

Lemma for_to_app {S} a b i (body : nat -> S -> S) s :
  for_to (a + b) i body s = for_to b (i + a) body (for_to a i body s).
Proof.
  revert i s. induction a as [|a IH]; intros i s; simpl.
  - by rewrite Nat.add_0_r.
  - rewrite IH. f_equal. lia.
Qed.

Lemma for_to_id {S} n i (body : nat -> S -> S) s :
  (forall j, (i <= j < i + n)%nat -> body j s = s) -> for_to n i body s = s.
Proof.
  revert i. induction n as [|n IH]; intros i Hb; simpl; [done|].
  rewrite Hb by lia. apply IH. intros j ?. apply Hb. lia.
Qed.

Lemma fill_0 {A} (z : A) start l : fill z start 0 l = l.
Proof. unfold fill. rewrite Nat.add_0_r. simpl. apply take_drop. Qed.

(** Facts about every byte, or every number below a small bound, by evaluation. *)
Lemma forall_below (n : nat) (P : Z -> bool) :
  forallb P (map Z.of_nat (seq 0 n)) = true -> forall b, 0 <= b < Z.of_nat n -> P b = true.
Proof.
  intros H b Hb. rewrite forallb_forall in H. apply H.
  apply in_map_iff. exists (Z.to_nat b). split; [lia|]. apply in_seq. lia.
Qed.

Lemma forall_byte (P : Z -> bool) :
  forallb P (map Z.of_nat (seq 0 256)) = true -> forall b, is_byte b -> P b = true.
Proof. intros H b Hb. by apply (forall_below 256). Qed.

(** Proves a decidable fact about a byte in the context. *)
Ltac by_bytes b H :=
  revert H; generalize b; refine (forall_byte _ _); vm_compute; reflexivity.

(** * Compaction loops

    A loop that moves the entries it keeps towards the front has the array in
    the shape [K ++ G ++ drop j l0]: the kept entries, [shift] discarded ones,
    and what is still to visit. *)

Definition compacting {A} (l0 K : list A) (j shift : nat) (l : list A) : Prop :=
  exists G, l = K ++ G ++ drop j l0 /\ length G = shift /\ (length K + shift = j)%nat.

Lemma compacting_start {A} (l0 : list A) : compacting l0 [] 0 0 l0.
Proof. by exists []. Qed.

Lemma compacting_lookup {A} (l0 : list A) K j shift l k :
  compacting l0 K j shift l -> (j <= k)%nat -> l !! k = l0 !! k.
Proof.
  intros (G & -> & HG & HK) Hk.
  rewrite app_assoc, lookup_app_r by (rewrite length_app; lia).
  rewrite lookup_drop, length_app. f_equal. lia.
Qed.

Lemma compacting_length {A} (l0 : list A) K j shift l :
  compacting l0 K j shift l -> (j <= length l0)%nat -> length l = length l0.
Proof.
  intros (G & -> & HG & HK) Hj. rewrite !length_app, length_drop. lia.
Qed.

Lemma compacting_drop {A} (l0 : list A) K j shift l x :
  (j < length l0)%nat -> compacting l0 K j shift l -> compacting l0 K (S j) (S shift) (<[j := x]> l).
Proof.
  intros Hj (G & -> & HG & HK). exists (G ++ [x]).
  destruct (lookup_lt_is_Some_2 l0 j Hj) as [e He].
  rewrite (drop_S _ _ _ He).
  rewrite app_assoc, insert_app_r_alt by (rewrite length_app; lia).
  rewrite length_app, length_app. replace (j - _)%nat with O by lia.
  simpl. split_and!; [by rewrite <-!app_assoc|lia|lia].
Qed.

Lemma compacting_skip {A} (l0 : list A) K j shift l :
  (j < length l0)%nat -> compacting l0 K j shift l -> compacting l0 K (S j) (S shift) l.
Proof.
  intros Hj Hc. destruct (lookup_lt_is_Some_2 l0 j Hj) as [e He].
  rewrite <-(list_insert_id l j e).
  - by apply compacting_drop.
  - rewrite <-He. eapply compacting_lookup; eauto.
Qed.

Lemma compacting_keep {A} (l0 : list A) K j shift l x y :
  (j < length l0)%nat -> compacting l0 K j shift l ->
  compacting l0 (K ++ [x]) (S j) shift (<[(j - shift)%nat := x]> (<[j := y]> l)).
Proof.
  intros Hj (G & -> & HG & HK).
  destruct (lookup_lt_is_Some_2 l0 j Hj) as [e He].
  rewrite (drop_S _ _ _ He).
  rewrite app_assoc, (insert_app_r_alt (K ++ G)) by (rewrite length_app; lia).
  rewrite length_app. replace (j - (length K + length G))%nat with O by lia. simpl.
  rewrite <-app_assoc, insert_app_r_alt by lia. replace (j - shift - length K)%nat with O by lia.
  destruct G as [|g G]; simpl in *.
  - exists []. subst shift. rewrite <-app_assoc, length_app. simpl. split_and!; [done|done|lia].
  - exists (G ++ [y]). rewrite <-!app_assoc, !length_app. simpl. split_and!; [done|lia|lia].
Qed.

Lemma compacting_keep' {A} (l0 : list A) K j shift l x :
  (j < length l0)%nat -> compacting l0 K j shift l ->
  compacting l0 (K ++ [x]) (S j) shift (<[(j - shift)%nat := x]> l).
Proof.
  intros Hj Hc. destruct (lookup_lt_is_Some_2 l0 j Hj) as [e He].
  rewrite <-(list_insert_id l j e).
  - by apply compacting_keep.
  - rewrite <-He. eapply compacting_lookup; eauto.
Qed.

(** The final [memset] of the [shift] entries that were moved away. *)
Lemma compacting_fill {A} (z : A) l0 K j shift l :
  compacting l0 K j shift l ->
  fill z (j - shift) shift l = K ++ replicate shift z ++ drop j l0.
Proof.
  intros (G & -> & HG & HK). unfold fill. replace (j - shift)%nat with (length K) by lia.
  rewrite take_app_length. do 2 f_equal.
  rewrite app_assoc, drop_app_length' by (rewrite length_app; lia). done.
Qed.
