(* ===== verification/Byteorder.v ===== *)
(** Byte order: [base/byteorder.h].  The [sys_put_*] and [sys_get_*] routines,
    composed from the narrower ones as the header composes them, and the class
    [Codec] that states what a fixed-width encoding promises to its users. *)

From S2P Require Import Prelude.

(** * The routines *)

Definition sys_put_be16 (val : Z) : list Z := [u8 (Z.shiftr val 8); u8 val].
Definition sys_put_le16 (val : Z) : list Z := [u8 val; u8 (Z.shiftr val 8)].

(** The argument of a nested call is converted to the parameter's type. *)
Definition sys_put_be24 (val : Z) : list Z :=
  u8 (Z.shiftr val 16) :: sys_put_be16 (u16 val).
Definition sys_put_be32 (val : Z) : list Z :=
  sys_put_be16 (u16 (Z.shiftr val 16)) ++ sys_put_be16 (u16 val).
Definition sys_put_be40 (val : Z) : list Z :=
  u8 (Z.shiftr val 32) :: sys_put_be32 (u32 val).
Definition sys_put_be48 (val : Z) : list Z :=
  sys_put_be16 (u16 (Z.shiftr val 32)) ++ sys_put_be32 (u32 val).
Definition sys_put_be64 (val : Z) : list Z :=
  sys_put_be32 (u32 (Z.shiftr val 32)) ++ sys_put_be32 (u32 val).

Definition sys_put_le24 (val : Z) : list Z :=
  sys_put_le16 (u16 val) ++ [u8 (Z.shiftr val 16)].
Definition sys_put_le32 (val : Z) : list Z :=
  sys_put_le16 (u16 val) ++ sys_put_le16 (u16 (Z.shiftr val 16)).
Definition sys_put_le40 (val : Z) : list Z :=
  sys_put_le32 (u32 val) ++ [u8 (Z.shiftr val 32)].
Definition sys_put_le48 (val : Z) : list Z :=
  sys_put_le32 (u32 val) ++ sys_put_le16 (u16 (Z.shiftr val 32)).
Definition sys_put_le64 (val : Z) : list Z :=
  sys_put_le32 (u32 val) ++ sys_put_le32 (u32 (Z.shiftr val 32)).

(** [src] is the memory at the argument, of the length the C parameter
    declares; [&src[i]] is [drop i src]. *)
Definition sys_get_be16 (src : list Z) : Z :=
  u16 (Z.lor (Z.shiftl (src !!! 0%nat) 8) (src !!! 1%nat)).
Definition sys_get_be24 (src : list Z) : Z :=
  u32 (Z.lor (Z.shiftl (src !!! 0%nat) 16) (sys_get_be16 (drop 1 src))).
Definition sys_get_be32 (src : list Z) : Z :=
  u32 (Z.lor (Z.shiftl (sys_get_be16 src) 16) (sys_get_be16 (drop 2 src))).
Definition sys_get_be40 (src : list Z) : Z :=
  u64 (Z.lor (Z.shiftl (sys_get_be32 src) 8) (src !!! 4%nat)).
Definition sys_get_be48 (src : list Z) : Z :=
  u64 (Z.lor (Z.shiftl (sys_get_be32 src) 16) (sys_get_be16 (drop 4 src))).
Definition sys_get_be64 (src : list Z) : Z :=
  u64 (Z.lor (Z.shiftl (sys_get_be32 src) 32) (sys_get_be32 (drop 4 src))).

Definition sys_get_le16 (src : list Z) : Z :=
  u16 (Z.lor (Z.shiftl (src !!! 1%nat) 8) (src !!! 0%nat)).
Definition sys_get_le24 (src : list Z) : Z :=
  u32 (Z.lor (Z.shiftl (src !!! 2%nat) 16) (sys_get_le16 src)).
Definition sys_get_le32 (src : list Z) : Z :=
  u32 (Z.lor (Z.shiftl (sys_get_le16 (drop 2 src)) 16) (sys_get_le16 src)).
Definition sys_get_le40 (src : list Z) : Z :=
  u64 (Z.lor (Z.shiftl (sys_get_le32 (drop 1 src)) 8) (src !!! 0%nat)).
Definition sys_get_le48 (src : list Z) : Z :=
  u64 (Z.lor (Z.shiftl (sys_get_le32 (drop 2 src)) 16) (sys_get_le16 src)).
Definition sys_get_le64 (src : list Z) : Z :=
  u64 (Z.lor (Z.shiftl (sys_get_le32 (drop 4 src)) 32) (sys_get_le32 src)).

(** [sys_memcpy_swap] and [sys_mem_swap]: byte reversal, the second in place
    by exchanging the two ends. *)
Fixpoint memcpy_swap_loop (src : list Z) (length : nat) : list Z :=
  match length with
  | O => []
  | S k => (src !!! k) :: memcpy_swap_loop src k
  end.
Definition sys_memcpy_swap (src : list Z) : list Z :=
  memcpy_swap_loop src (length src).

Fixpoint mem_swap_loop (buf : list Z) (i n : nat) : list Z :=
  match n with
  | O => buf
  | S k =>
      let j := (length buf - 1 - i)%nat in
      let tmp := buf !!! i in
      mem_swap_loop (<[j := tmp]> (<[i := buf !!! j]> buf)) (S i) k
  end.
Definition sys_mem_swap (buf : list Z) : list Z :=
  mem_swap_loop buf 0 (length buf / 2)%nat.

(** * The reference: positional notation in base 256 *)

Fixpoint le_bytes (n : nat) (v : Z) : list Z :=
  match n with
  | O => []
  | S k => u8 v :: le_bytes k (Z.shiftr v 8)
  end.

Fixpoint le_val (bs : list Z) : Z :=
  match bs with
  | [] => 0
  | b :: t => b + 256 * le_val t
  end.

(** The two byte orders. *)
Variant endian := LE | BE.

Definition enc (e : endian) (n : nat) (v : Z) : list Z :=
  match e with LE => le_bytes n v | BE => rev (le_bytes n v) end.
Definition dec (e : endian) (bs : list Z) : Z :=
  match e with LE => le_val bs | BE => le_val (rev bs) end.

(** What a fixed-width encoding of [n] bytes promises to its users: it writes
    and reads the positional notation of order [e]. *)
Class Codec (e : endian) (n : nat) (put : Z -> list Z) (get : list Z -> Z) : Prop := {
  codec_put v : put v = enc e n v;
  codec_get bs : length bs = n -> Forall is_byte bs -> get bs = dec e bs
}.

Lemma le_bytes_length n v : length (le_bytes n v) = n.
Proof. revert v. induction n; intros; simpl; auto. Qed.

Lemma le_bytes_bytes n v : Forall is_byte (le_bytes n v).
Proof. revert v. induction n; intros; simpl; auto with ob. Qed.

Lemma le_val_bytes n v : le_val (le_bytes n v) = v mod 256 ^ Z.of_nat n.
Proof.
  revert v. induction n as [|n IH]; intros v.
  - simpl. by rewrite Z.mod_1_r.
  - cbn [le_bytes le_val]. rewrite IH, Nat2Z.inj_succ, Z.pow_succ_r by lia.
    rewrite Z.shiftr_div_pow2 by lia. change (2 ^ 8) with 256. unfold u8.
    rewrite Z.rem_mul_r by lia. done.
Qed.

Lemma le_bytes_val bs :
  Forall is_byte bs -> le_bytes (length bs) (le_val bs) = bs.
Proof.
  induction 1 as [|b t Hb Ht IH]; [done|]. cbn [length le_bytes le_val].
  unfold is_byte in Hb.
  rewrite Z.shiftr_div_pow2 by lia. change (2 ^ 8) with 256.
  replace ((b + 256 * le_val t) / 256) with (le_val t)
    by (apply Z.div_unique with b; lia).
  rewrite IH. f_equal. unfold u8. symmetry.
  apply Z.mod_unique with (le_val t); lia.
Qed.

Lemma le_val_range bs : Forall is_byte bs -> 0 <= le_val bs < 256 ^ zlen bs.
Proof.
  induction 1 as [|b t Hb Ht IH]; [simpl; lia|]. cbn [length le_val].
  rewrite Nat2Z.inj_succ, Z.pow_succ_r by lia. unfold is_byte in Hb. lia.
Qed.

Lemma le_bytes_mod n v : le_bytes n (v mod 256 ^ Z.of_nat n) = le_bytes n v.
Proof.
  rewrite <-le_val_bytes.
  rewrite <-(le_bytes_length n v) at 1.
  by rewrite le_bytes_val by apply le_bytes_bytes.
Qed.

Lemma enc_length e n v : length (enc e n v) = n.
Proof. destruct e; simpl; rewrite ?length_rev; apply le_bytes_length. Qed.

Lemma enc_bytes e n v : Forall is_byte (enc e n v).
Proof. destruct e; simpl; [|apply List.Forall_rev]; apply le_bytes_bytes. Qed.

Lemma enc_mod e n v : enc e n (v mod 256 ^ Z.of_nat n) = enc e n v.
Proof. destruct e; simpl; by rewrite le_bytes_mod. Qed.

(** Truncation to a wider C type does not reach the encoded bytes. *)
Lemma enc_wider e n m v :
  (n <= m)%nat -> enc e n (v mod 256 ^ Z.of_nat m) = enc e n v.
Proof.
  intros H. rewrite <-(enc_mod e n v), <-(enc_mod e n (v mod _)). f_equal.
  rewrite <-Znumtheory.Zmod_div_mod; [done|lia..|].
  exists (256 ^ (Z.of_nat m - Z.of_nat n)). rewrite <-Z.pow_add_r by lia. f_equal. lia.
Qed.

Lemma enc_u16 e n v : (n <= 2)%nat -> enc e n (u16 v) = enc e n v.
Proof. exact (enc_wider e n 2 v). Qed.
Lemma enc_u32 e n v : (n <= 4)%nat -> enc e n (u32 v) = enc e n v.
Proof. exact (enc_wider e n 4 v). Qed.
Lemma enc_u64 e n v : (n <= 8)%nat -> enc e n (u64 v) = enc e n v.
Proof. exact (enc_wider e n 8 v). Qed.

Lemma dec_enc e n v : dec e (enc e n v) = v mod 256 ^ Z.of_nat n.
Proof. destruct e; simpl; rewrite ?rev_involutive; apply le_val_bytes. Qed.

Lemma enc_dec e bs : Forall is_byte bs -> enc e (length bs) (dec e bs) = bs.
Proof.
  intros H. destruct e; simpl; [by apply le_bytes_val|].
  rewrite <-length_rev, le_bytes_val by (by apply List.Forall_rev).
  apply rev_involutive.
Qed.

Lemma dec_range e bs : Forall is_byte bs -> 0 <= dec e bs < 256 ^ zlen bs.
Proof.
  intros H. destruct e; simpl; [by apply le_val_range|].
  rewrite <-length_rev. apply le_val_range. by apply List.Forall_rev.
Qed.

#[export] Hint Resolve enc_bytes : ob.

(** What follows for any codec: its length and the two round trips. *)
Section Codec.
Context {e n put get} {C : Codec e n put get}.

Lemma codec_length v : length (put v) = n.
Proof. rewrite codec_put. apply enc_length. Qed.

Lemma codec_bytes v : Forall is_byte (put v).
Proof. rewrite codec_put. apply enc_bytes. Qed.

Lemma codec_get_put v : get (put v) = v mod 256 ^ Z.of_nat n.
Proof.
  rewrite codec_get by auto using codec_length, codec_bytes.
  rewrite codec_put. apply dec_enc.
Qed.

Lemma codec_put_get bs :
  length bs = n -> Forall is_byte bs -> put (get bs) = bs.
Proof. intros <- Hb. rewrite codec_get, codec_put by done. by apply enc_dec. Qed.
End Codec.

(** * Truncations inside the composed routines *)

Lemma shr_add v a b : 0 <= a -> 0 <= b -> Z.shiftr (Z.shiftr v a) b = Z.shiftr v (a + b).
Proof. intros. by rewrite Z.shiftr_shiftr by lia. Qed.

Ltac div_mod_solve :=
  unfold u8, u16, u32, u64; rewrite ?Z.shiftr_div_pow2 by lia;
  cbn [Z.pow Z.pow_pos Pos.iter Z.mul Pos.mul Pos.add];
  Z.to_euclidean_division_equations; lia.

Lemma u8_u16 v : u8 (u16 v) = u8 v.
Proof. div_mod_solve. Qed.
Lemma u8_u32 v : u8 (u32 v) = u8 v.
Proof. div_mod_solve. Qed.
Lemma u16_u32 v : u16 (u32 v) = u16 v.
Proof. div_mod_solve. Qed.
Lemma u8_shr_u16 v : u8 (Z.shiftr (u16 v) 8) = u8 (Z.shiftr v 8).
Proof. div_mod_solve. Qed.
Lemma u16_shr_u32 v : u16 (Z.shiftr (u32 v) 16) = u16 (Z.shiftr v 16).
Proof. div_mod_solve. Qed.
Lemma u8_shr8_u32 v : u8 (Z.shiftr (u32 v) 8) = u8 (Z.shiftr v 8).
Proof. div_mod_solve. Qed.
Lemma u8_shr16_u32 v : u8 (Z.shiftr (u32 v) 16) = u8 (Z.shiftr v 16).
Proof. div_mod_solve. Qed.
Lemma u8_shr24_u32 v : u8 (Z.shiftr (u32 v) 24) = u8 (Z.shiftr v 24).
Proof. div_mod_solve. Qed.

(** Pushes every truncation to the outside and merges the shifts. *)
Ltac trunc_simpl :=
  repeat first
    [ rewrite u8_u16 | rewrite u8_u32 | rewrite u16_u32 | rewrite u8_shr_u16
    | rewrite u16_shr_u32 | rewrite u8_shr8_u32 | rewrite u8_shr16_u32
    | rewrite u8_shr24_u32 | rewrite shr_add by lia; simpl Z.add ].

Lemma testbit_small b k n : 0 <= b < 2 ^ k -> k <= n -> Z.testbit b n = false.
Proof.
  intros [Hb0 Hb] Hn. destruct (Z.eq_dec b 0) as [->|]; [apply Z.bits_0|].
  apply Z.bits_above_log2; [done|]. apply Z.lt_le_trans with k; [|done].
  apply Z.log2_lt_pow2; lia.
Qed.

(** [(a << k) | b] is [a * 2^k + b] when [b] fits in the low bits. *)
Lemma lor_shl_add a b k :
  0 <= k -> 0 <= b < 2 ^ k -> Z.lor (Z.shiftl a k) b = a * 2 ^ k + b.
Proof.
  intros Hk Hb. rewrite <-Z.shiftl_mul_pow2 by lia.
  pose proof (Z.add_lor_land (Z.shiftl a k) b) as E.
  assert (Z.land (Z.shiftl a k) b = 0) as E0; [|lia].
  apply Z.bits_inj'. intros n Hn. rewrite Z.land_spec, Z.bits_0.
  destruct (Z.ltb_spec n k).
  - by rewrite Z.shiftl_spec_low.
  - rewrite (testbit_small b k n), andb_false_r by lia. done.
Qed.

(** * The routines are the reference *)

Ltac put_solve :=
  intros v;
  unfold sys_put_be64, sys_put_be48, sys_put_be40, sys_put_be32, sys_put_be24,
    sys_put_be16, sys_put_le64, sys_put_le48, sys_put_le40, sys_put_le32,
    sys_put_le24, sys_put_le16, enc;
  cbn [le_bytes app rev]; trunc_simpl; reflexivity.

(** The narrow getters on explicit bytes, reused by the wide ones. *)
Ltac get_step :=
  cbn [drop lookup_total list_lookup_total];
  rewrite lor_shl_add by (simpl Z.pow; lia); simpl Z.pow;
  unfold u16, u32, u64; rewrite Z.mod_small by lia.

Lemma get_be16_val a b t :
  is_byte a -> is_byte b -> sys_get_be16 (a :: b :: t) = a * 256 + b.
Proof. unfold is_byte, sys_get_be16. intros. get_step. lia. Qed.

Lemma get_le16_val a b t :
  is_byte a -> is_byte b -> sys_get_le16 (a :: b :: t) = b * 256 + a.
Proof. unfold is_byte, sys_get_le16. intros. get_step. lia. Qed.

Lemma get_be32_val a b c d t :
  is_byte a -> is_byte b -> is_byte c -> is_byte d ->
  sys_get_be32 (a :: b :: c :: d :: t) = (a * 256 + b) * 65536 + c * 256 + d.
Proof.
  intros. unfold sys_get_be32. cbn [drop].
  rewrite !get_be16_val by done. unfold is_byte in *. get_step. lia.
Qed.

Lemma get_le32_val a b c d t :
  is_byte a -> is_byte b -> is_byte c -> is_byte d ->
  sys_get_le32 (a :: b :: c :: d :: t) = (d * 256 + c) * 65536 + b * 256 + a.
Proof.
  intros. unfold sys_get_le32. cbn [drop].
  rewrite !get_le16_val by done. unfold is_byte in *. get_step. lia.
Qed.

Ltac get_solve :=
  let bs := fresh "bs" in
  let Hl := fresh "Hl" in
  let Hb := fresh "Hb" in
  intros bs Hl Hb;
  repeat (destruct bs as [|? bs]; try discriminate Hl);
  rewrite ?bytes_cons in Hb; destruct_and?;
  try unfold sys_get_be64, sys_get_be48, sys_get_be40, sys_get_be24,
    sys_get_le64, sys_get_le48, sys_get_le40, sys_get_le24;
  try progress cbn [drop dec rev app];
  rewrite ?get_be32_val, ?get_le32_val, ?get_be16_val, ?get_le16_val by done;
  unfold is_byte in *; try get_step; try progress cbn [le_val]; lia.

#[export] Instance codec_le16 : Codec LE 2 sys_put_le16 sys_get_le16.
Proof. split; [put_solve|get_solve]. Qed.
#[export] Instance codec_be16 : Codec BE 2 sys_put_be16 sys_get_be16.
Proof. split; [put_solve|get_solve]. Qed.
#[export] Instance codec_le24 : Codec LE 3 sys_put_le24 sys_get_le24.
Proof. split; [put_solve|get_solve]. Qed.
#[export] Instance codec_be24 : Codec BE 3 sys_put_be24 sys_get_be24.
Proof. split; [put_solve|get_solve]. Qed.
#[export] Instance codec_le32 : Codec LE 4 sys_put_le32 sys_get_le32.
Proof. split; [put_solve|get_solve]. Qed.
#[export] Instance codec_be32 : Codec BE 4 sys_put_be32 sys_get_be32.
Proof. split; [put_solve|get_solve]. Qed.
#[export] Instance codec_le40 : Codec LE 5 sys_put_le40 sys_get_le40.
Proof. split; [put_solve|get_solve]. Qed.
#[export] Instance codec_be40 : Codec BE 5 sys_put_be40 sys_get_be40.
Proof. split; [put_solve|get_solve]. Qed.
#[export] Instance codec_le48 : Codec LE 6 sys_put_le48 sys_get_le48.
Proof. split; [put_solve|get_solve]. Qed.
#[export] Instance codec_be48 : Codec BE 6 sys_put_be48 sys_get_be48.
Proof. split; [put_solve|get_solve]. Qed.
#[export] Instance codec_le64 : Codec LE 8 sys_put_le64 sys_get_le64.
Proof. split; [put_solve|get_solve]. Qed.
#[export] Instance codec_be64 : Codec BE 8 sys_put_be64 sys_get_be64.
Proof. split; [put_solve|get_solve]. Qed.

(** * In-place reversal *)

Lemma memcpy_swap_loop_rev src k :
  (k <= length src)%nat -> memcpy_swap_loop src k = rev (take k src).
Proof.
  induction k as [|k IH]; intros Hk; [done|]. cbn [memcpy_swap_loop].
  rewrite IH by lia.
  rewrite (take_S_r _ _ (src !!! k)), rev_app_distr; [done|].
  apply list_lookup_lookup_total_lt. lia.
Qed.

Lemma mem_swap_loop_length buf i n : length (mem_swap_loop buf i n) = length buf.
Proof.
  revert buf i. induction n as [|n IH]; intros; [done|].
  cbn [mem_swap_loop]. by rewrite IH, !length_insert.
Qed.

(** After [n] exchanges from index [i] the positions [i .. i+n) and their
    mirror images hold each other's bytes, and the others are untouched. *)
Lemma mem_swap_loop_lookup buf i n k :
  (2 * (i + n) <= length buf)%nat -> (k < length buf)%nat ->
  mem_swap_loop buf i n !!! k =
    (if decide ((i <= k < i + n) \/ (i <= length buf - 1 - k < i + n))%nat
     then buf !!! (length buf - 1 - k)%nat else buf !!! k).
Proof.
  revert buf i. induction n as [|n IH]; intros buf i Hn Hk.
  - cbn [mem_swap_loop]. case_decide; [lia|done].
  - cbn [mem_swap_loop]. rewrite IH by (rewrite !length_insert; lia).
    rewrite !length_insert.
    assert (Hj : forall (m : nat) (x y : Z), (m < length buf)%nat ->
      <[(length buf - 1 - i)%nat := x]> (<[i := y]> buf) !!! m =
        if decide (m = (length buf - 1 - i)%nat) then x
        else if decide (m = i) then y else buf !!! m).
    { intros m x y Hm. repeat case_decide; subst.
      - rewrite list_lookup_total_insert_eq; [done|rewrite length_insert; lia].
      - rewrite list_lookup_total_insert_ne by lia.
        by rewrite list_lookup_total_insert_eq.
      - by rewrite !list_lookup_total_insert_ne by lia. }
    rewrite !Hj by lia.
    repeat case_decide; subst; try lia; try done; f_equal; lia.
Qed.

Lemma sys_mem_swap_reverse buf : sys_mem_swap buf = reverse buf.
Proof.
  pose proof (Nat.div_mod_eq (length buf) 2).
  pose proof (Nat.mod_upper_bound (length buf) 2 ltac:(lia)).
  apply list_eq_same_length with (n := length buf); unfold sys_mem_swap.
  - by rewrite length_reverse.
  - by rewrite mem_swap_loop_length.
  - intros k x y Hk Hx Hy.
    rewrite reverse_lookup in Hy by done.
    apply list_lookup_total_correct in Hx, Hy. subst.
    rewrite mem_swap_loop_lookup by lia.
    case_decide; [f_equal; lia|]. f_equal; lia.
Qed.

(** Every [sys_put_*] writes the positional notation of its byte order and
    every [sys_get_*] reads it back, so each pair is a codec of its width; and
    [sys_mem_swap] reverses its buffer in place. *)
Theorem byteorder_codecs :
  Codec LE 2 sys_put_le16 sys_get_le16 /\ Codec BE 2 sys_put_be16 sys_get_be16 /\
  Codec LE 3 sys_put_le24 sys_get_le24 /\ Codec BE 3 sys_put_be24 sys_get_be24 /\
  Codec LE 4 sys_put_le32 sys_get_le32 /\ Codec BE 4 sys_put_be32 sys_get_be32 /\
  Codec LE 5 sys_put_le40 sys_get_le40 /\ Codec BE 5 sys_put_be40 sys_get_be40 /\
  Codec LE 6 sys_put_le48 sys_get_le48 /\ Codec BE 6 sys_put_be48 sys_get_be48 /\
  Codec LE 8 sys_put_le64 sys_get_le64 /\ Codec BE 8 sys_put_be64 sys_get_be64 /\
  (forall buf, sys_mem_swap buf = reverse buf) /\
  (forall src, sys_memcpy_swap src = reverse src).
Proof.
  split_and!; try apply _; [apply sys_mem_swap_reverse|].
  intros src. unfold sys_memcpy_swap.
  by rewrite memcpy_swap_loop_rev, take_ge, rev_alt by done.
Qed.
