(* ===== verification/BufSimple.v ===== *)
(** The simple network buffer: [base/bt_buf_simple.c] and its inline helpers in
    [base/bt_buf.h].

    A buffer is a window [data .. data + len) of a backing store.  Pointers
    into the store are offsets from [__buf].  An operation returns [None] when
    [__ASSERT_NO_MSG] aborts or when it would touch memory outside the store. *)

From S2P Require Import Prelude Byteorder.

(** * State *)

Record bt_buf_simple := mk_buf {
  b_store : list Z;  (** the bytes behind [__buf] *)
  b_data : Z;        (** [data - __buf] *)
  b_len : Z;         (** [len], uint16_t *)
  b_size : Z         (** [size], uint16_t *)
}.

Definition set_store (m : list Z) (b : bt_buf_simple) : bt_buf_simple :=
  mk_buf m (b_data b) (b_len b) (b_size b).
Definition set_data (d : Z) (b : bt_buf_simple) : bt_buf_simple :=
  mk_buf (b_store b) d (b_len b) (b_size b).
Definition set_len (n : Z) (b : bt_buf_simple) : bt_buf_simple :=
  mk_buf (b_store b) (b_data b) n (b_size b).

(** [__ASSERT_NO_MSG] *)
Definition assert (c : bool) : option unit := if c then Some () else None.

(** * Operations *)

Definition bt_buf_simple_init_with_data (m : list Z) (size : Z) : bt_buf_simple :=
  mk_buf m 0 (u16 size) (u16 size).

Definition bt_buf_simple_init (reserve_head : Z) (b : bt_buf_simple) : bt_buf_simple :=
  mk_buf (b_store b) reserve_head 0 (b_size b).

Definition bt_buf_simple_reset (b : bt_buf_simple) : bt_buf_simple :=
  mk_buf (b_store b) 0 0 (b_size b).

Definition bt_buf_simple_reserve (b : bt_buf_simple) (reserve : Z) : option bt_buf_simple :=
  assert (b_len b =? 0) ;; Some (set_data reserve b).

Definition bt_buf_simple_clone (b : bt_buf_simple) : bt_buf_simple := b.

Definition bt_buf_simple_headroom (b : bt_buf_simple) : Z := u64 (b_data b).
Definition bt_buf_simple_tailroom (b : bt_buf_simple) : Z :=
  u64 (b_size b - bt_buf_simple_headroom b - b_len b).
Definition bt_buf_simple_max_len (b : bt_buf_simple) : Z :=
  u16 (b_size b - bt_buf_simple_headroom b).
Definition bt_buf_simple_tail (b : bt_buf_simple) : Z := b_data b + b_len b.

(** [bt_buf_simple_save] and [bt_buf_simple_restore]. *)
Record bt_buf_simple_state := mk_state { st_offset : Z; st_len : Z }.
Definition bt_buf_simple_save (b : bt_buf_simple) : bt_buf_simple_state :=
  mk_state (u16 (bt_buf_simple_headroom b)) (b_len b).
Definition bt_buf_simple_restore (b : bt_buf_simple) (s : bt_buf_simple_state)
  : bt_buf_simple :=
  mk_buf (b_store b) (st_offset s) (st_len s) (b_size b).

(** ** Adding at the tail *)

Definition bt_buf_simple_add (b : bt_buf_simple) (n : Z) : option (bt_buf_simple * Z) :=
  let tail := bt_buf_simple_tail b in
  assert (n <=? bt_buf_simple_tailroom b) ;;
  Some (set_len (u16 (b_len b + n)) b, tail).

(** [memcpy(ptr, mem, n)] into the store. *)
Definition store_at (b : bt_buf_simple) (ptr : Z) (bs : list Z) : option bt_buf_simple :=
  m ← mem_write (b_store b) ptr bs; Some (set_store m b).

Definition bt_buf_simple_add_mem (b : bt_buf_simple) (bs : list Z)
  : option bt_buf_simple :=
  '(b, p) ← bt_buf_simple_add b (zlen bs); store_at b p bs.

Definition bt_buf_simple_add_u8 (b : bt_buf_simple) (val : Z) : option bt_buf_simple :=
  '(b, p) ← bt_buf_simple_add b 1; store_at b p [u8 val].

(** [sys_put_*(val, bt_buf_simple_add(buf, n))] *)
Definition add_put (n : Z) (put : Z -> list Z) (b : bt_buf_simple) (val : Z)
  : option bt_buf_simple :=
  '(b, p) ← bt_buf_simple_add b n; store_at b p (put val).

Definition bt_buf_simple_add_le16 b (val : Z) := add_put 2 sys_put_le16 b (u16 val).
Definition bt_buf_simple_add_be16 b (val : Z) := add_put 2 sys_put_be16 b (u16 val).
Definition bt_buf_simple_add_le24 b (val : Z) := add_put 3 sys_put_le24 b (u32 val).
Definition bt_buf_simple_add_be24 b (val : Z) := add_put 3 sys_put_be24 b (u32 val).
Definition bt_buf_simple_add_le32 b (val : Z) := add_put 4 sys_put_le32 b (u32 val).
Definition bt_buf_simple_add_be32 b (val : Z) := add_put 4 sys_put_be32 b (u32 val).
Definition bt_buf_simple_add_le40 b (val : Z) := add_put 5 sys_put_le40 b (u64 val).
Definition bt_buf_simple_add_be40 b (val : Z) := add_put 5 sys_put_be40 b (u64 val).
Definition bt_buf_simple_add_le48 b (val : Z) := add_put 6 sys_put_le48 b (u64 val).
Definition bt_buf_simple_add_be48 b (val : Z) := add_put 6 sys_put_be48 b (u64 val).
Definition bt_buf_simple_add_le64 b (val : Z) := add_put 8 sys_put_le64 b (u64 val).
Definition bt_buf_simple_add_be64 b (val : Z) := add_put 8 sys_put_be64 b (u64 val).

(** ** Removing from the tail *)

Definition bt_buf_simple_remove_mem (b : bt_buf_simple) (n : Z)
  : option (bt_buf_simple * Z) :=
  assert (n <=? b_len b) ;;
  let b := set_len (u16 (b_len b - n)) b in
  Some (b, b_data b + b_len b).

Definition bt_buf_simple_remove_u8 (b : bt_buf_simple) : option (Z * bt_buf_simple) :=
  '(b, p) ← bt_buf_simple_remove_mem b 1;
  bs ← mem_read (b_store b) p 1; Some (bs !!! 0%nat, b).

Definition remove_get (n : Z) (get : list Z -> Z) (b : bt_buf_simple)
  : option (Z * bt_buf_simple) :=
  '(b, p) ← bt_buf_simple_remove_mem b n;
  bs ← mem_read (b_store b) p n; Some (get bs, b).

Definition bt_buf_simple_remove_le16 := remove_get 2 sys_get_le16.
Definition bt_buf_simple_remove_be16 := remove_get 2 sys_get_be16.
Definition bt_buf_simple_remove_le24 := remove_get 3 sys_get_le24.
Definition bt_buf_simple_remove_be24 := remove_get 3 sys_get_be24.
Definition bt_buf_simple_remove_le32 := remove_get 4 sys_get_le32.
Definition bt_buf_simple_remove_be32 := remove_get 4 sys_get_be32.
Definition bt_buf_simple_remove_le40 := remove_get 5 sys_get_le40.
Definition bt_buf_simple_remove_be40 := remove_get 5 sys_get_be40.
Definition bt_buf_simple_remove_le48 := remove_get 6 sys_get_le48.
Definition bt_buf_simple_remove_be48 := remove_get 6 sys_get_be48.
Definition bt_buf_simple_remove_le64 := remove_get 8 sys_get_le64.
Definition bt_buf_simple_remove_be64 := remove_get 8 sys_get_be64.

(** ** Pushing at the head *)

Definition bt_buf_simple_push (b : bt_buf_simple) (n : Z) : option (bt_buf_simple * Z) :=
  assert (n <=? bt_buf_simple_headroom b) ;;
  let b := set_len (u16 (b_len b + n)) (set_data (b_data b - n) b) in
  Some (b, b_data b).

Definition bt_buf_simple_push_mem (b : bt_buf_simple) (bs : list Z)
  : option bt_buf_simple :=
  '(b, p) ← bt_buf_simple_push b (zlen bs); store_at b p bs.

Definition bt_buf_simple_push_u8 (b : bt_buf_simple) (val : Z) : option bt_buf_simple :=
  '(b, p) ← bt_buf_simple_push b 1; store_at b p [u8 val].

Definition push_put (n : Z) (put : Z -> list Z) (b : bt_buf_simple) (val : Z)
  : option bt_buf_simple :=
  '(b, p) ← bt_buf_simple_push b n; store_at b p (put val).

Definition bt_buf_simple_push_le16 b (val : Z) := push_put 2 sys_put_le16 b (u16 val).
Definition bt_buf_simple_push_be16 b (val : Z) := push_put 2 sys_put_be16 b (u16 val).
Definition bt_buf_simple_push_le24 b (val : Z) := push_put 3 sys_put_le24 b (u32 val).
Definition bt_buf_simple_push_be24 b (val : Z) := push_put 3 sys_put_be24 b (u32 val).
Definition bt_buf_simple_push_le32 b (val : Z) := push_put 4 sys_put_le32 b (u32 val).
Definition bt_buf_simple_push_be32 b (val : Z) := push_put 4 sys_put_be32 b (u32 val).
Definition bt_buf_simple_push_le40 b (val : Z) := push_put 5 sys_put_le40 b (u64 val).
Definition bt_buf_simple_push_be40 b (val : Z) := push_put 5 sys_put_be40 b (u64 val).
Definition bt_buf_simple_push_le48 b (val : Z) := push_put 6 sys_put_le48 b (u64 val).
Definition bt_buf_simple_push_be48 b (val : Z) := push_put 6 sys_put_be48 b (u64 val).
Definition bt_buf_simple_push_le64 b (val : Z) := push_put 8 sys_put_le64 b (u64 val).
Definition bt_buf_simple_push_be64 b (val : Z) := push_put 8 sys_put_be64 b (u64 val).

(** ** Pulling from the head *)

Definition bt_buf_simple_pull (b : bt_buf_simple) (n : Z) : option (bt_buf_simple * Z) :=
  assert (n <=? b_len b) ;;
  let b := set_data (b_data b + n) (set_len (u16 (b_len b - n)) b) in
  Some (b, b_data b).

Definition bt_buf_simple_pull_mem (b : bt_buf_simple) (n : Z)
  : option (bt_buf_simple * Z) :=
  let data := b_data b in
  assert (n <=? b_len b) ;;
  Some (set_data (b_data b + n) (set_len (u16 (b_len b - n)) b), data).

(** The scalar pulls read the bytes first and check the length after. *)
Definition bt_buf_simple_pull_u8 (b : bt_buf_simple) : option (Z * bt_buf_simple) :=
  bs ← mem_read (b_store b) (b_data b) 1;
  '(b, _) ← bt_buf_simple_pull b 1; Some (bs !!! 0%nat, b).

Definition pull_get (n : Z) (get : list Z -> Z) (b : bt_buf_simple)
  : option (Z * bt_buf_simple) :=
  bs ← mem_read (b_store b) (b_data b) n;
  '(b, _) ← bt_buf_simple_pull b n; Some (get bs, b).

Definition bt_buf_simple_pull_le16 := pull_get 2 sys_get_le16.
Definition bt_buf_simple_pull_be16 := pull_get 2 sys_get_be16.
Definition bt_buf_simple_pull_le24 := pull_get 3 sys_get_le24.
Definition bt_buf_simple_pull_be24 := pull_get 3 sys_get_be24.
Definition bt_buf_simple_pull_le32 := pull_get 4 sys_get_le32.
Definition bt_buf_simple_pull_be32 := pull_get 4 sys_get_be32.
Definition bt_buf_simple_pull_le40 := pull_get 5 sys_get_le40.
Definition bt_buf_simple_pull_be40 := pull_get 5 sys_get_be40.
Definition bt_buf_simple_pull_le48 := pull_get 6 sys_get_le48.
Definition bt_buf_simple_pull_be48 := pull_get 6 sys_get_be48.
Definition bt_buf_simple_pull_le64 := pull_get 8 sys_get_le64.
Definition bt_buf_simple_pull_be64 := pull_get 8 sys_get_be64.

(** * Well-formed buffers and what they hold *)

Definition content (b : bt_buf_simple) : list Z := slice (b_store b) (b_data b) (b_len b).

Record wf (b : bt_buf_simple) : Prop := {
  wf_data : 0 <= b_data b;
  wf_len : 0 <= b_len b;
  wf_fits : b_data b + b_len b <= b_size b;
  wf_store : b_size b <= zlen (b_store b);
  wf_size : b_size b <= UINT16_MAX;
  wf_bytes : Forall is_byte (b_store b)
}.

(** The abstract buffer: free bytes before the window, the window, free bytes
    behind it. *)
Record view := mk_view { v_head : Z; v_bytes : list Z; v_room : Z }.

Definition view_of (b : bt_buf_simple) : view :=
  mk_view (b_data b) (content b) (b_size b - b_data b - b_len b).

Definition view_add (bs : list Z) (v : view) : option view :=
  if zlen bs <=? v_room v
  then Some (mk_view (v_head v) (v_bytes v ++ bs) (v_room v - zlen bs)) else None.
Definition view_push (bs : list Z) (v : view) : option view :=
  if zlen bs <=? v_head v
  then Some (mk_view (v_head v - zlen bs) (bs ++ v_bytes v) (v_room v)) else None.
Definition view_pull (n : Z) (v : view) : option (list Z * view) :=
  if n <=? zlen (v_bytes v)
  then Some (take (Z.to_nat n) (v_bytes v),
             mk_view (v_head v + n) (drop (Z.to_nat n) (v_bytes v)) (v_room v))
  else None.
Definition view_remove (n : Z) (v : view) : option (list Z * view) :=
  let k := Z.to_nat (zlen (v_bytes v) - n) in
  if n <=? zlen (v_bytes v)
  then Some (drop k (v_bytes v), mk_view (v_head v) (take k (v_bytes v)) (v_room v + n))
  else None.

Lemma content_length b : wf b -> zlen (content b) = b_len b.
Proof. intros []. unfold content. apply slice_length; lia. Qed.

Lemma content_bytes b : wf b -> Forall is_byte (content b).
Proof. intros []. unfold content. auto with ob. Qed.

Lemma headroom_wf b : wf b -> bt_buf_simple_headroom b = b_data b.
Proof.
  intros []. unfold bt_buf_simple_headroom, UINT16_MAX in *. apply u64_id. lia.
Qed.

Lemma tailroom_wf b : wf b -> bt_buf_simple_tailroom b = b_size b - b_data b - b_len b.
Proof.
  intros Hb. unfold bt_buf_simple_tailroom. rewrite headroom_wf by done.
  destruct Hb. unfold UINT16_MAX in *. apply u64_id. lia.
Qed.

Lemma max_len_wf b : wf b -> bt_buf_simple_max_len b = b_size b - b_data b.
Proof.
  intros Hb. unfold bt_buf_simple_max_len. rewrite headroom_wf by done.
  destruct Hb. unfold UINT16_MAX in *. apply u16_id. lia.
Qed.

(** The result of an operation on the concrete and the abstract buffer: both
    refuse, or both succeed with the same answer and related states. *)
Definition refines {A} (r : option (A * bt_buf_simple)) (s : option (A * view)) : Prop :=
  match r, s with
  | Some (a, b), Some (a', v) => a = a' /\ wf b /\ view_of b = v
  | None, None => True
  | _, _ => False
  end.

(** A state-only operation seen as one with a trivial answer. *)
Definition quiet {S} (r : option S) : option (unit * S) := (fun s => ((), s)) <$> r.

Lemma store_at_window b off bs b' :
  wf b -> Forall is_byte bs -> store_at b off bs = Some b' ->
  wf b' /\ b_data b' = b_data b /\ b_len b' = b_len b /\ b_size b' = b_size b.
Proof.
  intros Hb Hbs. unfold store_at. intros H.
  destruct (mem_write _ _ _) as [m|] eqn:E; simplify_option_eq.
  destruct Hb. split_and!; try done.
  split; simpl; auto.
  - by rewrite (mem_write_length _ _ _ _ E).
  - eauto using mem_write_bytes.
Qed.

Lemma store_at_some b off bs :
  0 <= off -> off + zlen bs <= zlen (b_store b) -> exists b', store_at b off bs = Some b'.
Proof. intros. unfold store_at. rewrite mem_write_some by lia. simpl. eauto. Qed.

(** Adding [bs] at the tail, whatever routine formats the bytes. *)
Lemma add_refines b bs :
  wf b -> Forall is_byte bs ->
  refines (quiet ('(b, p) ← bt_buf_simple_add b (zlen bs); store_at b p bs))
          (quiet (view_add bs (view_of b))).
Proof.
  intros Hb Hbs. unfold bt_buf_simple_add, assert, view_add. simpl.
  rewrite tailroom_wf by done. case_if; [|done]. bool_to_prop. simpl.
  pose proof (content_length b Hb) as Hc. destruct Hb.
  unfold bt_buf_simple_tail, UINT16_MAX in *. rewrite u16_id by lia.
  destruct (store_at_some (set_len (b_len b + zlen bs) b) (b_data b + b_len b) bs)
    as [b' E]; [lia|simpl; lia|].
  rewrite E. simpl.
  destruct (store_at_window (set_len (b_len b + zlen bs) b) (b_data b + b_len b) bs b')
    as (Hw & Hd & Hl & Hs); [split; simpl; unfold UINT16_MAX; auto; lia|done..|].
  simpl in Hd, Hl, Hs. split; [done|]. split; [done|].
  unfold view_of, content. rewrite Hd, Hl, Hs. f_equal; [|lia].
  unfold store_at in E. simpl in E.
  destruct (mem_write _ _ _) as [m|] eqn:Em; simplify_option_eq.
  rewrite slice_app_split by lia. f_equal.
  - eapply slice_write_before; [..|exact Em]; lia.
  - eapply slice_write_same, Em.
Qed.

Lemma push_refines b bs :
  wf b -> Forall is_byte bs ->
  refines (quiet ('(b, p) ← bt_buf_simple_push b (zlen bs); store_at b p bs))
          (quiet (view_push bs (view_of b))).
Proof.
  intros Hb Hbs. unfold bt_buf_simple_push, assert, view_push. simpl.
  rewrite headroom_wf by done. case_if; [|done]. bool_to_prop. simpl.
  destruct Hb. unfold UINT16_MAX in *. rewrite u16_id by lia.
  set (b1 := set_len _ _).
  destruct (store_at_some b1 (b_data b - zlen bs) bs) as [b' E]; [lia|simpl; lia|].
  rewrite E. simpl.
  destruct (store_at_window b1 (b_data b - zlen bs) bs b')
    as (Hw & Hd & Hl & Hs); [split; simpl; unfold UINT16_MAX; auto; lia|done..|].
  simpl in Hd, Hl, Hs. split; [done|]. split; [done|].
  unfold view_of, content. rewrite Hd, Hl, Hs. f_equal; [|lia].
  unfold store_at in E. simpl in E.
  destruct (mem_write _ _ _) as [m|] eqn:Em; simplify_option_eq.
  rewrite Z.add_comm, slice_app_split by lia. f_equal.
  - eapply slice_write_same, Em.
  - replace (b_data b - zlen bs + zlen bs) with (b_data b) by lia.
    eapply slice_write_after; [|exact Em]. lia.
Qed.

(** Moving the head over [n] bytes. *)
Lemma slice_take m off a b :
  0 <= a <= b -> slice m off a = take (Z.to_nat a) (slice m off b).
Proof. intros. unfold slice. rewrite take_take. f_equal. lia. Qed.

Lemma slice_drop m off a b :
  0 <= off -> 0 <= a <= b -> slice m (off + a) (b - a) = drop (Z.to_nat a) (slice m off b).
Proof.
  intros. unfold slice. rewrite Z2Nat.inj_add by lia.
  rewrite skipn_firstn_comm, drop_drop. f_equal. lia.
Qed.

Lemma pull_window b n :
  wf b -> 0 <= n <= b_len b ->
  let b' := set_data (b_data b + n) (set_len (u16 (b_len b - n)) b) in
  wf b' /\ view_of b' = mk_view (b_data b + n) (drop (Z.to_nat n) (content b))
                          (b_size b - b_data b - b_len b).
Proof.
  intros [] Hn. unfold UINT16_MAX in *. rewrite u16_id by lia.
  split; [split; simpl; unfold UINT16_MAX; auto; lia|].
  unfold view_of, content. simpl. f_equal; [by apply slice_drop|lia].
Qed.

Lemma remove_window b n :
  wf b -> 0 <= n <= b_len b ->
  let b' := set_len (u16 (b_len b - n)) b in
  wf b' /\ view_of b' = mk_view (b_data b) (take (Z.to_nat (b_len b - n)) (content b))
                          (b_size b - b_data b - b_len b + n).
Proof.
  intros [] Hn. unfold UINT16_MAX in *. rewrite u16_id by lia.
  split; [split; simpl; unfold UINT16_MAX; auto; lia|].
  unfold view_of, content. simpl. f_equal; [apply slice_take; lia|lia].
Qed.

(** * The whole interface against a bounded byte deque *)

Variant width := W16 | W24 | W32 | W40 | W48 | W64.

Definition width_bytes (w : width) : nat :=
  match w with W16 => 2 | W24 => 3 | W32 => 4 | W40 => 5 | W48 => 6 | W64 => 8 end.

Inductive buf_op :=
  | OReset
  | OAddMem (bs : list Z) | OAddU8 (v : Z) | OAdd (e : endian) (w : width) (v : Z)
  | OPushMem (bs : list Z) | OPushU8 (v : Z) | OPush (e : endian) (w : width) (v : Z)
  | OPullMem (n : Z) | OPullU8 | OPull (e : endian) (w : width)
  | ORemoveMem (n : Z) | ORemoveU8 | ORemove (e : endian) (w : width).

(** What the caller sees: nothing, the bytes at the returned pointer, or the
    returned integer. *)
Inductive buf_out := ONone | OBytes (bs : list Z) | OVal (v : Z).

Definition add_int (e : endian) (w : width) : bt_buf_simple -> Z -> option bt_buf_simple :=
  match e, w with
  | LE, W16 => bt_buf_simple_add_le16 | BE, W16 => bt_buf_simple_add_be16
  | LE, W24 => bt_buf_simple_add_le24 | BE, W24 => bt_buf_simple_add_be24
  | LE, W32 => bt_buf_simple_add_le32 | BE, W32 => bt_buf_simple_add_be32
  | LE, W40 => bt_buf_simple_add_le40 | BE, W40 => bt_buf_simple_add_be40
  | LE, W48 => bt_buf_simple_add_le48 | BE, W48 => bt_buf_simple_add_be48
  | LE, W64 => bt_buf_simple_add_le64 | BE, W64 => bt_buf_simple_add_be64
  end.
Definition push_int (e : endian) (w : width) : bt_buf_simple -> Z -> option bt_buf_simple :=
  match e, w with
  | LE, W16 => bt_buf_simple_push_le16 | BE, W16 => bt_buf_simple_push_be16
  | LE, W24 => bt_buf_simple_push_le24 | BE, W24 => bt_buf_simple_push_be24
  | LE, W32 => bt_buf_simple_push_le32 | BE, W32 => bt_buf_simple_push_be32
  | LE, W40 => bt_buf_simple_push_le40 | BE, W40 => bt_buf_simple_push_be40
  | LE, W48 => bt_buf_simple_push_le48 | BE, W48 => bt_buf_simple_push_be48
  | LE, W64 => bt_buf_simple_push_le64 | BE, W64 => bt_buf_simple_push_be64
  end.
Definition pull_int (e : endian) (w : width) : bt_buf_simple -> option (Z * bt_buf_simple) :=
  match e, w with
  | LE, W16 => bt_buf_simple_pull_le16 | BE, W16 => bt_buf_simple_pull_be16
  | LE, W24 => bt_buf_simple_pull_le24 | BE, W24 => bt_buf_simple_pull_be24
  | LE, W32 => bt_buf_simple_pull_le32 | BE, W32 => bt_buf_simple_pull_be32
  | LE, W40 => bt_buf_simple_pull_le40 | BE, W40 => bt_buf_simple_pull_be40
  | LE, W48 => bt_buf_simple_pull_le48 | BE, W48 => bt_buf_simple_pull_be48
  | LE, W64 => bt_buf_simple_pull_le64 | BE, W64 => bt_buf_simple_pull_be64
  end.
Definition remove_int (e : endian) (w : width)
  : bt_buf_simple -> option (Z * bt_buf_simple) :=
  match e, w with
  | LE, W16 => bt_buf_simple_remove_le16 | BE, W16 => bt_buf_simple_remove_be16
  | LE, W24 => bt_buf_simple_remove_le24 | BE, W24 => bt_buf_simple_remove_be24
  | LE, W32 => bt_buf_simple_remove_le32 | BE, W32 => bt_buf_simple_remove_be32
  | LE, W40 => bt_buf_simple_remove_le40 | BE, W40 => bt_buf_simple_remove_be40
  | LE, W48 => bt_buf_simple_remove_le48 | BE, W48 => bt_buf_simple_remove_be48
  | LE, W64 => bt_buf_simple_remove_le64 | BE, W64 => bt_buf_simple_remove_be64
  end.

Definition silent {S} (r : option S) : option (buf_out * S) := s ← r; Some (ONone, s).
Definition value {S} (r : option (Z * S)) : option (buf_out * S) :=
  '(v, s) ← r; Some (OVal v, s).
Definition block (n : Z) (r : option (bt_buf_simple * Z)) : option (buf_out * bt_buf_simple) :=
  '(b, p) ← r; Some (OBytes (slice (b_store b) p n), b).

Definition run_op (o : buf_op) (b : bt_buf_simple) : option (buf_out * bt_buf_simple) :=
  match o with
  | OReset => Some (ONone, bt_buf_simple_reset b)
  | OAddMem bs => silent (bt_buf_simple_add_mem b bs)
  | OAddU8 v => silent (bt_buf_simple_add_u8 b v)
  | OAdd e w v => silent (add_int e w b v)
  | OPushMem bs => silent (bt_buf_simple_push_mem b bs)
  | OPushU8 v => silent (bt_buf_simple_push_u8 b v)
  | OPush e w v => silent (push_int e w b v)
  | OPullMem n => block n (bt_buf_simple_pull_mem b n)
  | OPullU8 => value (bt_buf_simple_pull_u8 b)
  | OPull e w => value (pull_int e w b)
  | ORemoveMem n => block n (bt_buf_simple_remove_mem b n)
  | ORemoveU8 => value (bt_buf_simple_remove_u8 b)
  | ORemove e w => value (remove_int e w b)
  end.

Definition view_block (r : option (list Z * view)) : option (buf_out * view) :=
  '(bs, v) ← r; Some (OBytes bs, v).
Definition view_value (e : endian) (r : option (list Z * view)) : option (buf_out * view) :=
  '(bs, v) ← r; Some (OVal (dec e bs), v).

Definition view_op (o : buf_op) (v : view) : option (buf_out * view) :=
  match o with
  | OReset => Some (ONone, mk_view 0 [] (v_head v + zlen (v_bytes v) + v_room v))
  | OAddMem bs => silent (view_add bs v)
  | OAddU8 x => silent (view_add [u8 x] v)
  | OAdd e w x => silent (view_add (enc e (width_bytes w) x) v)
  | OPushMem bs => silent (view_push bs v)
  | OPushU8 x => silent (view_push [u8 x] v)
  | OPush e w x => silent (view_push (enc e (width_bytes w) x) v)
  | OPullMem n => view_block (view_pull n v)
  | OPullU8 => view_value LE (view_pull 1 v)
  | OPull e w => view_value e (view_pull (Z.of_nat (width_bytes w)) v)
  | ORemoveMem n => view_block (view_remove n v)
  | ORemoveU8 => view_value LE (view_remove 1 v)
  | ORemove e w => view_value e (view_remove (Z.of_nat (width_bytes w)) v)
  end.

(** The C types of the arguments: bytes are bytes, sizes are not negative. *)
Definition op_typed (o : buf_op) : Prop :=
  match o with
  | OAddMem bs | OPushMem bs => Forall is_byte bs
  | OPullMem n | ORemoveMem n => 0 <= n
  | _ => True
  end.

Section Run.
Context {S : Type} (step : buf_op -> S -> option (buf_out * S)).

Fixpoint run_ops (os : list buf_op) (s : S) : option (list buf_out * S) :=
  match os with
  | [] => Some ([], s)
  | o :: os =>
      '(r, s) ← step o s; '(rs, s) ← run_ops os s; Some (r :: rs, s)
  end.
End Run.

(** ** Each operation refines its abstract counterpart *)

Lemma refines_silent r s : refines (quiet r) (quiet s) -> refines (silent r) (silent s).
Proof. destruct r, s; simpl; try done. intros (_ & ? & ?). done. Qed.

Lemma add_mem_refines b bs :
  wf b -> Forall is_byte bs ->
  refines (quiet (bt_buf_simple_add_mem b bs)) (quiet (view_add bs (view_of b))).
Proof. apply add_refines. Qed.

Lemma add_int_refines e w b v :
  wf b ->
  refines (quiet (add_int e w b v))
          (quiet (view_add (enc e (width_bytes w) v) (view_of b))).
Proof.
  intros Hb.
  assert (H : forall k put (C : exists get, Codec e (width_bytes w) put get),
    k = Z.of_nat (width_bytes w) ->
    forall x, enc e (width_bytes w) x = enc e (width_bytes w) v ->
    refines (quiet (add_put k put b x))
            (quiet (view_add (enc e (width_bytes w) v) (view_of b)))).
  { intros k put [get C] -> x Hx. unfold add_put.
    replace (put x) with (enc e (width_bytes w) v) by (rewrite (codec_put (Codec := C)); done).
    rewrite <-(enc_length e (width_bytes w) v) at 1.
    apply add_refines; auto with ob. }
  destruct e, w; cbn [add_int];
  unfold
    bt_buf_simple_add_le16, bt_buf_simple_add_be16, bt_buf_simple_add_le24,
    bt_buf_simple_add_be24, bt_buf_simple_add_le32, bt_buf_simple_add_be32,
    bt_buf_simple_add_le40, bt_buf_simple_add_be40, bt_buf_simple_add_le48,
    bt_buf_simple_add_be48, bt_buf_simple_add_le64, bt_buf_simple_add_be64;
    (apply H; [eexists; apply _|done|cbn [width_bytes];
      first [ apply enc_u16; lia | apply enc_u32; lia | apply enc_u64; lia ] ]).
Qed.

Lemma push_int_refines e w b v :
  wf b ->
  refines (quiet (push_int e w b v))
          (quiet (view_push (enc e (width_bytes w) v) (view_of b))).
Proof.
  intros Hb.
  assert (H : forall k put (C : exists get, Codec e (width_bytes w) put get),
    k = Z.of_nat (width_bytes w) ->
    forall x, enc e (width_bytes w) x = enc e (width_bytes w) v ->
    refines (quiet (push_put k put b x))
            (quiet (view_push (enc e (width_bytes w) v) (view_of b)))).
  { intros k put [get C] -> x Hx. unfold push_put.
    replace (put x) with (enc e (width_bytes w) v)
      by (rewrite (codec_put (Codec := C)); done).
    rewrite <-(enc_length e (width_bytes w) v) at 1.
    apply push_refines; auto with ob. }
  destruct e, w; cbn [push_int];
  unfold
    bt_buf_simple_push_le16, bt_buf_simple_push_be16, bt_buf_simple_push_le24,
    bt_buf_simple_push_be24, bt_buf_simple_push_le32, bt_buf_simple_push_be32,
    bt_buf_simple_push_le40, bt_buf_simple_push_be40, bt_buf_simple_push_le48,
    bt_buf_simple_push_be48, bt_buf_simple_push_le64, bt_buf_simple_push_be64;
    (apply H; [eexists; apply _|done|cbn [width_bytes];
      first [ apply enc_u16; lia | apply enc_u32; lia | apply enc_u64; lia ] ]).
Qed.

(** Reading from the head: the bytes are read before the length is checked. *)
Lemma pull_mem_refines b n :
  wf b -> 0 <= n ->
  refines (block n (bt_buf_simple_pull_mem b n)) (view_block (view_pull n (view_of b))).
Proof.
  intros Hb Hn. unfold bt_buf_simple_pull_mem, assert, view_pull, block, view_block.
  simpl. rewrite content_length by done. case_if; [|done]. bool_to_prop. simpl.
  destruct (pull_window b n Hb) as [Hw Hv]; [lia|].
  split; [|done]. f_equal. apply slice_take. lia.
Qed.

Lemma pull_get_refines e n put get b :
  Codec e n put get -> wf b ->
  refines (value (pull_get (Z.of_nat n) get b))
          (view_value e (view_pull (Z.of_nat n) (view_of b))).
Proof.
  intros C Hb. unfold pull_get, bt_buf_simple_pull, assert, view_pull, value, view_value.
  simpl. rewrite content_length by done. unfold mem_read.
  repeat (case_if; simpl; try done); bool_to_prop;
    [|destruct Hb; repeat match goal with H : andb _ _ = false |- _ =>
        apply andb_false_iff in H as [H|H] end; bool_to_prop; lia].
  destruct (pull_window b (Z.of_nat n) Hb) as [Hw Hv]; [lia|].
  split; [|done]. f_equal. rewrite codec_get.
  - f_equal. apply slice_take. lia.
  - apply Nat2Z.inj. apply slice_length; lia.
  - destruct Hb. auto with ob.
Qed.

Lemma remove_mem_refines b n :
  wf b -> 0 <= n ->
  refines (block n (bt_buf_simple_remove_mem b n))
          (view_block (view_remove n (view_of b))).
Proof.
  intros Hb Hn. unfold bt_buf_simple_remove_mem, assert, view_remove, block, view_block.
  simpl. rewrite content_length by done. case_if; [|done]. bool_to_prop. simpl.
  destruct (remove_window b n Hb) as [Hw Hv]; [lia|].
  split; [|done]. f_equal. destruct Hb. unfold UINT16_MAX in *.
  rewrite u16_id by lia. unfold content.
  rewrite <-slice_drop by lia. f_equal. lia.
Qed.

Lemma remove_get_refines e n put get b :
  Codec e n put get -> wf b ->
  refines (value (remove_get (Z.of_nat n) get b))
          (view_value e (view_remove (Z.of_nat n) (view_of b))).
Proof.
  intros C Hb. pose proof (remove_mem_refines b (Z.of_nat n) Hb ltac:(lia)) as R.
  unfold remove_get, bt_buf_simple_remove_mem, assert, view_remove, value, view_value,
    block, view_block in *.
  simpl in *. rewrite content_length in * by done. case_if; [|done]. bool_to_prop.
  simpl in *. destruct R as ([= Hout] & Hw & Hv). destruct Hb.
  unfold UINT16_MAX in *. rewrite u16_id in * by lia.
  rewrite mem_read_some by lia. simpl. split; [|done]. f_equal.
  rewrite codec_get; [by rewrite Hout| |auto with ob].
  apply Nat2Z.inj. apply slice_length; lia.
Qed.

(** A single byte is a one-byte codec. *)
#[export] Instance codec_u8 : Codec LE 1 (fun v => [u8 v]) (fun bs => bs !!! 0%nat).
Proof. split; [done|]. intros [|x [|]] Hl _; try discriminate Hl. simpl. lia. Qed.

Lemma pull_int_refines e w b :
  wf b ->
  refines (value (pull_int e w b))
          (view_value e (view_pull (Z.of_nat (width_bytes w)) (view_of b))).
Proof.
  intros Hb.
  assert (H : forall k get (C : exists put, Codec e (width_bytes w) put get),
    k = Z.of_nat (width_bytes w) ->
    refines (value (pull_get k get b))
            (view_value e (view_pull (Z.of_nat (width_bytes w)) (view_of b)))).
  { intros k get [put C] ->. by eapply pull_get_refines. }
  destruct e, w; cbn [pull_int];
  unfold
    bt_buf_simple_pull_le16, bt_buf_simple_pull_be16, bt_buf_simple_pull_le24,
    bt_buf_simple_pull_be24, bt_buf_simple_pull_le32, bt_buf_simple_pull_be32,
    bt_buf_simple_pull_le40, bt_buf_simple_pull_be40, bt_buf_simple_pull_le48,
    bt_buf_simple_pull_be48, bt_buf_simple_pull_le64, bt_buf_simple_pull_be64;
    (apply H; [eexists; apply _|done]).
Qed.

Lemma remove_int_refines e w b :
  wf b ->
  refines (value (remove_int e w b))
          (view_value e (view_remove (Z.of_nat (width_bytes w)) (view_of b))).
Proof.
  intros Hb.
  assert (H : forall k get (C : exists put, Codec e (width_bytes w) put get),
    k = Z.of_nat (width_bytes w) ->
    refines (value (remove_get k get b))
            (view_value e (view_remove (Z.of_nat (width_bytes w)) (view_of b)))).
  { intros k get [put C] ->. by eapply remove_get_refines. }
  destruct e, w; cbn [remove_int];
  unfold
    bt_buf_simple_remove_le16, bt_buf_simple_remove_be16,
    bt_buf_simple_remove_le24, bt_buf_simple_remove_be24,
    bt_buf_simple_remove_le32, bt_buf_simple_remove_be32,
    bt_buf_simple_remove_le40, bt_buf_simple_remove_be40,
    bt_buf_simple_remove_le48, bt_buf_simple_remove_be48,
    bt_buf_simple_remove_le64, bt_buf_simple_remove_be64;
    (apply H; [eexists; apply _|done]).
Qed.

Lemma reset_refines b :
  wf b -> refines (run_op OReset b) (view_op OReset (view_of b)).
Proof.
  intros Hb. simpl. rewrite content_length by done. destruct Hb. split; [done|].
  split; [split; simpl; auto; lia|].
  unfold view_of, content, slice. simpl. f_equal. lia.
Qed.

Lemma run_op_refines o b :
  wf b -> op_typed o -> refines (run_op o b) (view_op o (view_of b)).
Proof.
  intros Hb Ho. destruct o; simpl in Ho |- *.
  - by apply reset_refines.
  - apply refines_silent, add_mem_refines; done.
  - apply refines_silent, add_refines; [done|]. rewrite bytes_cons. auto with ob.
  - by apply refines_silent, add_int_refines.
  - apply refines_silent, push_refines; done.
  - apply refines_silent, push_refines; [done|]. rewrite bytes_cons. auto with ob.
  - by apply refines_silent, push_int_refines.
  - by apply pull_mem_refines.
  - exact (pull_get_refines LE 1 _ _ b codec_u8 Hb).
  - by apply pull_int_refines.
  - by apply remove_mem_refines.
  - exact (remove_get_refines LE 1 _ _ b codec_u8 Hb).
  - by apply remove_int_refines.
Qed.

(** * Properties *)

(** C21: over any sequence of typed operations the C buffer and the bounded
    byte deque agree: they give the same answers and reach related states, or
    both refuse (the C program aborts exactly when the deque has too little
    room, headroom or data), and no operation touches memory outside the store. *)
Theorem bt_buf_simple_refines_deque (ops : list buf_op) (b : bt_buf_simple) :
  wf b -> Forall op_typed ops ->
  match run_ops run_op ops b, run_ops view_op ops (view_of b) with
  | Some (rs, b'), Some (rs', v) => rs = rs' /\ wf b' /\ view_of b' = v
  | None, None => True
  | _, _ => False
  end.
Proof.
  revert b. induction ops as [|o os IH]; intros b Hb Ho; [done|].
  inv Ho. simpl. pose proof (run_op_refines o b Hb ltac:(done)) as R.
  destruct (run_op o b) as [[r b1]|], (view_op o (view_of b)) as [[r' v1]|];
    simpl in *; try done.
  destruct R as (-> & Hw & <-). specialize (IH b1 Hw ltac:(done)).
  destruct (run_ops run_op os b1) as [[rs b2]|],
    (run_ops view_op os (view_of b1)) as [[rs' v2]|]; simpl in *; try done.
  destruct IH as (-> & ? & ?). done.
Qed.

Definition sample_buf : bt_buf_simple := mk_buf (replicate 12 0) 4 0 12.

Lemma bt_buf_simple_refines_deque_witness :
  run_ops run_op [OAdd LE W16 513; OPush BE W24 66051; OPull BE W24; ORemoveU8] sample_buf
    = Some ([ONone; ONone; OVal 66051; OVal 2],
            mk_buf [0; 1; 2; 3; 1; 2; 0; 0; 0; 0; 0; 0] 4 1 12) /\
  match run_ops run_op [OAdd LE W16 513; OPush BE W24 66051; OPull BE W24; ORemoveU8] sample_buf,
        run_ops view_op [OAdd LE W16 513; OPush BE W24 66051; OPull BE W24; ORemoveU8]
          (view_of sample_buf) with
  | Some (rs, b'), Some (rs', v) => rs = rs' /\ wf b' /\ view_of b' = v
  | None, None => True
  | _, _ => False
  end.
Proof.
  split; [vm_compute; reflexivity|]. apply bt_buf_simple_refines_deque.
  - split; simpl; unfold UINT16_MAX; try lia. repeat constructor; lia.
  - repeat constructor.
Defined.

(** What was appended as an integer of any width and byte order comes back
    when it is removed from the tail, and what was pushed comes back when it is
    pulled from the head; the buffer's view is the one before. *)
Theorem bt_buf_simple_int_roundtrip (e : endian) (w : width) (v : Z) (b : bt_buf_simple) :
  wf b -> 0 <= v < 256 ^ Z.of_nat (width_bytes w) ->
  (Z.of_nat (width_bytes w) <= bt_buf_simple_tailroom b ->
   exists b1 b2, add_int e w b v = Some b1 /\ remove_int e w b1 = Some (v, b2) /\
     wf b2 /\ view_of b2 = view_of b) /\
  (Z.of_nat (width_bytes w) <= bt_buf_simple_headroom b ->
   exists b1 b2, push_int e w b v = Some b1 /\ pull_int e w b1 = Some (v, b2) /\
     wf b2 /\ view_of b2 = view_of b).
Proof.
  intros Hb Hv. pose proof (content_length b Hb) as Hc.
  assert (Hl : zlen (enc e (width_bytes w) v) = Z.of_nat (width_bytes w))
    by (f_equal; apply enc_length).
  assert (Hd : dec e (enc e (width_bytes w) v) = v)
    by (rewrite dec_enc; by apply Z.mod_small).
  split; intros Hroom.
  - rewrite tailroom_wf in Hroom by done.
    pose proof (add_int_refines e w b v Hb) as R. unfold view_add in R. simpl in R.
    rewrite Hl in R. destruct (add_int e w b v) as [b1|]; simpl in R;
      rewrite (proj2 (Z.leb_le _ _)) in R by lia; [|done].
    destruct R as (_ & Hw1 & Hv1). exists b1.
    pose proof (remove_int_refines e w b1 Hw1) as R. rewrite Hv1 in R.
    unfold view_remove in R. simpl in R. rewrite length_app, Nat2Z.inj_add, Hl in R.
    rewrite (proj2 (Z.leb_le _ _)) in R by lia.
    replace (Z.to_nat _) with (length (content b)) in R by lia.
    simpl in R. rewrite drop_app_length, take_app_length, Hd in R.
    destruct (remove_int e w b1) as [[x b2]|]; [|done]. simpl in R.
    destruct R as ([= ->] & Hw2 & Hv2). eexists. split_and!; try done.
    rewrite Hv2. unfold view_of. f_equal. lia.
  - rewrite headroom_wf in Hroom by done.
    pose proof (push_int_refines e w b v Hb) as R. unfold view_push in R. simpl in R.
    rewrite Hl in R. destruct (push_int e w b v) as [b1|]; simpl in R;
      rewrite (proj2 (Z.leb_le _ _)) in R by lia; [|done].
    destruct R as (_ & Hw1 & Hv1). exists b1.
    pose proof (pull_int_refines e w b1 Hw1) as R. rewrite Hv1 in R.
    unfold view_pull in R. simpl in R. rewrite length_app, Nat2Z.inj_add, Hl in R.
    rewrite (proj2 (Z.leb_le _ _)) in R by lia. rewrite Nat2Z.id in R. simpl in R.
    rewrite take_app_length', drop_app_length', Hd in R by (symmetry; apply enc_length).
    destruct (pull_int e w b1) as [[x b2]|]; [|done]. simpl in R.
    destruct R as ([= ->] & Hw2 & Hv2). eexists. split_and!; try done.
    rewrite Hv2. unfold view_of. f_equal. lia.
Qed.

Lemma bt_buf_simple_int_roundtrip_witness :
  bt_buf_simple_tailroom sample_buf = 8 /\ bt_buf_simple_headroom sample_buf = 4 /\
  exists b1 b2, add_int BE W40 sample_buf 513 = Some b1 /\
    remove_int BE W40 b1 = Some (513, b2) /\ wf b2 /\ view_of b2 = view_of sample_buf.
Proof.
  split; [reflexivity|]. split; [reflexivity|].
  apply (bt_buf_simple_int_roundtrip BE W40 513 sample_buf).
  - split; simpl; unfold UINT16_MAX; try lia. repeat constructor; lia.
  - simpl. lia.
  - vm_compute. discriminate.
Defined.
