(* ===== verification/Utils.v ===== *)
(** Miscellaneous helpers: [base/utils.c] and [bt_hex] of [common/bt_str.c].

    A C string is the list of its bytes before the terminator. *)

From S2P Require Import Prelude.

(** * Hexadecimal *)

Definition hexval (c : Z) : Z :=
  if (48 <=? c) && (c <=? 57) then c - 48
  else if (97 <=? c) && (c <=? 102) then 10 + (c - 97)
  else if (65 <=? c) && (c <=? 70) then 10 + (c - 65)
  else -1.

(** The result value, and [*x] when it is written. *)
Definition char2hex (c : Z) : Z * option Z :=
  if (48 <=? c) && (c <=? 57) then (0, Some (u8 (c - 48)))
  else if (97 <=? c) && (c <=? 102) then (0, Some (u8 (c - 97 + 10)))
  else if (65 <=? c) && (c <=? 70) then (0, Some (u8 (c - 65 + 10)))
  else (- EINVAL, None).

Definition hex2char (x : Z) : Z * option Z :=
  if x <=? 9 then (0, Some (x + 48))
  else if x <=? 15 then (0, Some (x - 10 + 97))
  else (- EINVAL, None).

(** The characters written through [hex2char] for one nibble. *)
Definition hex_out (x : Z) : list Z := match (hex2char x).2 with Some c => [c] | None => [] end.

(** The count returned, and the string left in [hex] when it fits. *)
Definition bin2hex (buf : list Z) (hexlen : Z) : Z * option (list Z) :=
  if hexlen <? zlen buf * 2 + 1 then (0, None)
  else (2 * zlen buf,
        Some (concat (map (fun b => hex_out (Z.shiftr b 4) ++ hex_out (Z.land b 0xf)) buf))).

(** Loop state: the bytes written and the pending high nibble, or -1. *)
Fixpoint hex2bin_loop (hex : list Z) (out_size : Z) (out : list Z) (nibble : Z) : list Z :=
  match hex with
  | [] => out
  | c :: hex =>
      if zlen out <? out_size then
        let v := hexval c in
        if v <? 0 then hex2bin_loop hex out_size out nibble
        else if nibble <? 0 then hex2bin_loop hex out_size out v
        else hex2bin_loop hex out_size (out ++ [u8 (Z.lor (Z.shiftl nibble 4) v)]) (-1)
      else out
  end.

(** The bytes written (their number is the result). *)
Definition hex2bin (hex : list Z) (out_size : Z) : list Z :=
  if out_size =? 0 then [] else hex2bin_loop hex out_size [] (-1).

(** [bt_hex]: at most 64 bytes, into a static string. *)
Definition hex_digits : list Z :=
  [48; 49; 50; 51; 52; 53; 54; 55; 56; 57; 97; 98; 99; 100; 101; 102].
Definition bt_hex (buf : list Z) (len : Z) : list Z :=
  let len := Z.min len ((129 - 1) / 2) in
  concat (map (fun b => [nth (Z.to_nat (Z.shiftr b 4)) hex_digits 0;
                         nth (Z.to_nat (Z.land b 0xf)) hex_digits 0])
            (take (Z.to_nat len) buf)).

(** * Checksums *)

Definition crc16_bit (poly crc : Z) : Z :=
  if Z.land crc 1 =? 1 then Z.lxor (Z.shiftr crc 1) poly else Z.shiftr crc 1.

Definition crc16_reflect (poly seed : Z) (src : list Z) : Z :=
  fold_left (fun crc b => Nat.iter 8 (crc16_bit poly) (Z.lxor crc b)) src seed.

Definition crc_table : list Z :=
  [0x00000000; 0x1db71064; 0x3b6e20c8; 0x26d930ac; 0x76dc4190; 0x6b6b51f4;
   0x4db26158; 0x5005713c; 0xedb88320; 0xf00f9344; 0xd6d6a3e8; 0xcb61b38c;
   0x9b64c2b0; 0x86d3d2d4; 0xa00ae278; 0xbdbdf21c].

Definition table_at (i : Z) : Z := nth (Z.to_nat i) crc_table 0.

(** [~crc] on 32 bits. *)
Definition not32 (x : Z) : Z := Z.lxor x 0xffffffff.

Definition crc32_byte (crc byte : Z) : Z :=
  let crc := Z.lxor (Z.shiftr crc 4) (table_at (Z.land (Z.lxor crc byte) 0x0f)) in
  Z.lxor (Z.shiftr crc 4) (table_at (Z.land (Z.lxor crc (Z.shiftr byte 4)) 0x0f)).

Definition crc32_ieee_update (crc : Z) (data : list Z) : Z :=
  not32 (fold_left crc32_byte data (not32 crc)).

Definition crc32_ieee (data : list Z) : Z := crc32_ieee_update 0 data.

(** * Decimal *)

(** The loop of [u8_to_dec]: written characters, room left, [divisor]. *)
Fixpoint dec_loop (fuel : nat) (out : list Z) (buflen divisor value num_digits : Z)
  : list Z * Z * Z :=
  match fuel with
  | O => (out, buflen, num_digits)
  | S fuel =>
      if (0 <? buflen) && (0 <? divisor) then
        let digit := value / divisor in
        let wr := negb (digit =? 0) || (divisor =? 1) || negb (num_digits =? 0) in
        let out' := if wr then out ++ [digit + 48] else out in
        let buflen' := if wr then buflen - 1 else buflen in
        let num' := if wr then u8 (num_digits + 1) else num_digits in
        dec_loop fuel out' buflen' (divisor / 10) (u8 (value - digit * divisor)) num'
      else (out, buflen, num_digits)
  end.

(** The digits written, whether the terminator was, and the count; the divisor
    runs through 100, 10, 1, 0. *)
Definition u8_to_dec (buflen value : Z) : list Z * bool * Z :=
  let '(out, room, n) := dec_loop 4 [] buflen 100 value 0 in (out, negb (room =? 0), n).

(** * UTF-8 *)

Definition ASCII_CHAR : Z := 0x7F.
Definition SEQUENCE_FIRST_MASK : Z := 0xC0.
Definition SEQUENCE_LEN_2_BYTE : Z := 0xC0.
Definition SEQUENCE_LEN_3_BYTE : Z := 0xE0.
Definition SEQUENCE_LEN_4_BYTE : Z := 0xF0.
Definition MSB_SET : Z := 0x80.

Definition has (b mask : Z) : bool := Z.land b mask =? mask.

(** The backward walk to the starting byte: index and [bytes_truncated]. *)
Fixpoint trunc_back (s : list Z) (last : nat) (truncated : Z) : nat * Z :=
  match last with
  | O => (O, truncated)
  | S p => if has (nth last s 0) SEQUENCE_FIRST_MASK then (last, truncated)
           else trunc_back s p (u8 (truncated + 1))
  end.

Definition utf8_trunc (s : list Z) : list Z :=
  match s with
  | [] => s
  | _ =>
      let last := (length s - 1)%nat in
      if Z.land (nth last s 0) ASCII_CHAR =? nth last s 0 then s
      else
        let '(p, t) := trunc_back s last 0 in
        let bytes_truncated := u8 (t + 1) in
        let seq_start_byte := nth p s 0 in
        if has seq_start_byte SEQUENCE_LEN_4_BYTE then
          if bytes_truncated =? 4 then s else take p s
        else if has seq_start_byte SEQUENCE_LEN_3_BYTE then
          if bytes_truncated =? 3 then s else take p s
        else if has seq_start_byte SEQUENCE_LEN_2_BYTE then
          if bytes_truncated =? 2 then s else take p s
        else take p s
  end.

(** The string left in [dst], of [n] bytes; [None] when [n] is 0 and [dst] is
    not written. *)
Definition utf8_lcpy (src : list Z) (n : Z) : option (list Z) :=
  if 0 <? n then
    let dst := take (Z.to_nat (n - 1)) src in
    Some (if negb (n =? 1) then utf8_trunc dst else dst)
  else None.

(** A byte of the string or its terminator. *)
Definition at_ (s : list Z) (i : nat) : Z := nth i s 0.
Definition cont_bad (b : Z) : bool := negb (Z.land b SEQUENCE_FIRST_MASK =? MSB_SET).

Fixpoint count_loop (fuel : nat) (p : list Z) (count : Z) : option Z :=
  match fuel with
  | O => None
  | S fuel =>
      let b := at_ p 0 in
      if b =? 0 then Some count
      else if Z.land b MSB_SET =? 0 then count_loop fuel (drop 1 p) (count + 1)
      else if Z.land b SEQUENCE_LEN_3_BYTE =? SEQUENCE_FIRST_MASK then
        if cont_bad (at_ p 1) then Some (- EINVAL)
        else count_loop fuel (drop 2 p) (count + 1)
      else if Z.land b SEQUENCE_LEN_4_BYTE =? SEQUENCE_LEN_3_BYTE then
        if cont_bad (at_ p 1) || cont_bad (at_ p 2) then Some (- EINVAL)
        else count_loop fuel (drop 3 p) (count + 1)
      else if Z.land b 0xF8 =? SEQUENCE_LEN_4_BYTE then
        if cont_bad (at_ p 1) || cont_bad (at_ p 2) || cont_bad (at_ p 3) then Some (- EINVAL)
        else count_loop fuel (drop 4 p) (count + 1)
      else Some (- EINVAL)
  end.

Definition utf8_count_chars (s : list Z) : option Z := count_loop (S (length s)) s 0.

(** * Hexadecimal round trips *)

Definition is_hex (c : Z) : bool := 0 <=? hexval c.

(** The two characters of a byte, and what they decode to. *)
Definition hex_pair (b : Z) : list Z := hex_out (Z.shiftr b 4) ++ hex_out (Z.land b 0xf).

Definition pair_ok (b : Z) : bool :=
  match hex_pair b with
  | [c1; c2] =>
      (hexval c1 =? Z.shiftr b 4) && (hexval c2 =? Z.land b 0xf) &&
      (0 <=? Z.shiftr b 4) && (0 <=? Z.land b 0xf) &&
      (u8 (Z.lor (Z.shiftl (Z.shiftr b 4) 4) (Z.land b 0xf)) =? b) &&
      (c1 =? nth (Z.to_nat (Z.shiftr b 4)) hex_digits 0) &&
      (c2 =? nth (Z.to_nat (Z.land b 0xf)) hex_digits 0)
  | _ => false
  end.

Lemma hex_pair_spec b :
  is_byte b -> exists c1 c2, hex_pair b = [c1; c2] /\ hexval c1 = Z.shiftr b 4 /\
    hexval c2 = Z.land b 0xf /\ 0 <= Z.shiftr b 4 /\ 0 <= Z.land b 0xf /\
    u8 (Z.lor (Z.shiftl (Z.shiftr b 4) 4) (Z.land b 0xf)) = b /\
    hex_pair b = [nth (Z.to_nat (Z.shiftr b 4)) hex_digits 0;
                  nth (Z.to_nat (Z.land b 0xf)) hex_digits 0].
Proof.
  intros Hb.
  pose proof (forall_byte pair_ok ltac:(vm_compute; reflexivity) b Hb) as H. unfold pair_ok in H.
  destruct (hex_pair b) as [|c1 [|c2 [|]]]; try done. bool_to_prop.
  exists c1, c2. split_and!; try done. by subst.
Qed.

Lemma hex2bin_loop_pairs buf rest out_size out :
  Forall is_byte buf -> zlen out + zlen buf <= out_size ->
  hex2bin_loop (concat (map hex_pair buf) ++ rest) out_size out (-1) =
  hex2bin_loop rest out_size (out ++ buf) (-1).
Proof.
  revert out. induction buf as [|b buf IH]; intros out Hb Hlen; [by rewrite app_nil_r|].
  apply bytes_cons in Hb as [Hb Hbs]. simpl concat.
  destruct (hex_pair_spec b Hb) as (c1 & c2 & -> & H1 & H2 & Hp1 & Hp2 & Hdec & _).
  simpl in *. rewrite (proj2 (Z.ltb_lt _ _)) by lia.
  rewrite H1, H2, (proj2 (Z.ltb_ge (Z.shiftr b 4) 0)), (proj2 (Z.ltb_ge (Z.land b 15) 0)) by done.
  rewrite Hdec, IH by (done || (rewrite length_app; simpl; lia)).
  by rewrite <-app_assoc.
Qed.

Lemma hex2bin_loop_filter hex out_size out nibble :
  hex2bin_loop (filter is_hex hex) out_size out nibble = hex2bin_loop hex out_size out nibble.
Proof.
  revert out nibble. induction hex as [|c hex IH]; intros out nibble; [done|].
  rewrite list.filter_cons. destruct (is_hex c) eqn:Hc.
  - rewrite decide_True by done. simpl. by rewrite !IH.
  - rewrite decide_False by (simpl; tauto).
    rewrite IH. unfold is_hex in Hc. bool_to_prop. simpl hex2bin_loop at 2.
    rewrite (proj2 (Z.ltb_lt (hexval c) 0)) by done.
    destruct (zlen out <? out_size) eqn:Hr; [done|].
    destruct hex; simpl; by rewrite ?Hr.
Qed.

Lemma hex_pairs_length buf :
  Forall is_byte buf -> zlen (concat (map hex_pair buf)) = 2 * zlen buf.
Proof.
  induction 1 as [|b buf Hb _ IH]; [done|]. simpl. rewrite length_app.
  destruct (hex_pair_spec b Hb) as (c1 & c2 & -> & _). simpl in *. lia.
Qed.

(** Hexadecimal round trip.  [bin2hex] refuses a string area without room
    for two characters a byte and the terminator; otherwise it writes two
    characters a byte, [bt_hex] prints the same ones, and [hex2bin] reads the
    bytes back, whatever separators are put between or around the characters. *)
Theorem hex_roundtrip buf hexlen out_size sep :
  Forall is_byte buf -> zlen buf <= out_size ->
  (bin2hex buf hexlen = (0, None) <-> hexlen < 2 * zlen buf + 1) /\
  (2 * zlen buf + 1 <= hexlen ->
   exists hex, bin2hex buf hexlen = (2 * zlen buf, Some hex) /\ zlen hex = 2 * zlen buf /\
     hex2bin hex out_size = buf /\
     (filter is_hex sep = hex -> hex2bin sep out_size = buf) /\
     (zlen buf <= 64 -> bt_hex buf (zlen buf) = hex)).
Proof.
  intros Hb Hsz. unfold bin2hex. split.
  - destruct (hexlen <? zlen buf * 2 + 1) eqn:Hh; bool_to_prop; split; (done || lia).
  - intros Hlen. rewrite (proj2 (Z.ltb_ge _ _)) by lia.
    change (fun b => hex_out (Z.shiftr b 4) ++ hex_out (Z.land b 15)) with hex_pair.
    assert (hex2bin (concat (map hex_pair buf)) out_size = buf) as Hrt.
    { unfold hex2bin. destruct (out_size =? 0) eqn:H0; bool_to_prop.
      - symmetry. apply nil_length_inv. lia.
      - rewrite <-(app_nil_r (concat _)), hex2bin_loop_pairs by done. done. }
    eexists. split_and!; [done|by apply hex_pairs_length|done| |].
    + intros Hf. rewrite <-Hrt, <-Hf. unfold hex2bin. by rewrite hex2bin_loop_filter.
    + intros H64. unfold bt_hex. change ((129 - 1) / 2) with 64.
      rewrite Z.min_l, Nat2Z.id, firstn_all by lia. f_equal. apply map_ext_in. intros b Hin.
      assert (is_byte b) as Hbb by (by eapply list.Forall_forall; [|apply list_elem_of_In]).
      by destruct (hex_pair_spec b Hbb) as (c1 & c2 & _ & _ & _ & _ & _ & _ & ->).
Qed.

Lemma hex_roundtrip_witness :
  hex2bin [97; 98; 58; 48; 49; 32; 102; 102] 3 = [0xab; 0x01; 0xff].
Proof.
  destruct (hex_roundtrip [0xab; 0x01; 0xff] 7 3 [97; 98; 58; 48; 49; 32; 102; 102])
    as [_ H]; [by repeat constructor|done|].
  destruct H as (hex & Hb & _ & _ & Hs & _); [done|].
  vm_compute in Hb. injection Hb as <-. apply Hs. reflexivity.
Defined.

(** * The table-driven CRC-32 against the bit-serial definition *)

Definition POLY32 : Z := 0xedb88320.

(** The reflected CRC of the standard: eight shift steps a byte, the step being
    the one of [crc16_reflect]. *)
Definition crc32_ref_byte (crc byte : Z) : Z :=
  Nat.iter 8 (crc16_bit POLY32) (Z.lxor crc byte).

Lemma land_1_odd c : (Z.land c 1 =? 1) = Z.odd c.
Proof.
  change 1 with (Z.ones 1) at 1. rewrite Z.land_ones by lia. change (2 ^ 1) with 2.
  rewrite Zmod_odd. by destruct (Z.odd c).
Qed.

Lemma bit_lxor p a b : crc16_bit p (Z.lxor a b) = Z.lxor (crc16_bit p a) (crc16_bit p b).
Proof.
  unfold crc16_bit. rewrite !land_1_odd.
  assert (Z.odd (Z.lxor a b) = xorb (Z.odd a) (Z.odd b)) as ->
    by (rewrite <-!Z.bit0_odd; apply Z.lxor_spec).
  rewrite Z.shiftr_lxor.
  destruct (Z.odd a), (Z.odd b); simpl.
  - rewrite (Z.lxor_assoc _ p), (Z.lxor_comm p), <-(Z.lxor_assoc (Z.shiftr a 1)).
    by rewrite !Z.lxor_assoc, Z.lxor_nilpotent, Z.lxor_0_r.
  - by rewrite !Z.lxor_assoc, (Z.lxor_comm p).
  - by rewrite Z.lxor_assoc.
  - done.
Qed.

Lemma bit_shiftl p h k : 0 <= k -> crc16_bit p (Z.shiftl h (k + 1)) = Z.shiftl h k.
Proof.
  intros Hk. unfold crc16_bit. rewrite land_1_odd, <-Z.bit0_odd, Z.shiftl_spec_low by lia.
  rewrite Z.shiftr_shiftl_l by lia. f_equal. lia.
Qed.

(** Four steps are one table look-up. *)
Lemma four_bits c :
  0 <= c ->
  Nat.iter 4 (crc16_bit POLY32) c = Z.lxor (Z.shiftr c 4) (table_at (Z.land c 0xf)).
Proof.
  intros Hc.
  assert (c = Z.lxor (Z.shiftl (Z.shiftr c 4) 4) (Z.land c 0xf)) as Hsplit.
  { apply Z.bits_inj'. intros n Hn. rewrite Z.lxor_spec, Z.land_spec.
    change 0xf with (Z.ones 4). rewrite Z.testbit_ones_nonneg by lia.
    destruct (n <? 4) eqn:H4; bool_to_prop.
    - rewrite Z.shiftl_spec_low by lia. by rewrite andb_true_r.
    - rewrite Z.shiftl_spec, Z.shiftr_spec by lia. rewrite Z.sub_add.
      by rewrite andb_false_r, xorb_false_r. }
  assert (0 <= Z.land c 0xf < 16) as Hlo.
  { change 0xf with (Z.ones 4). rewrite Z.land_ones by lia. apply Z.mod_pos_bound. lia. }
  rewrite Hsplit at 1. simpl Nat.iter. rewrite !bit_lxor.
  rewrite (bit_shiftl _ _ 3), (bit_shiftl _ _ 2), (bit_shiftl _ _ 1), (bit_shiftl _ _ 0) by lia.
  rewrite Z.shiftl_0_r. f_equal. apply Z.eqb_eq. revert Hlo. generalize (Z.land c 0xf).
  apply (forall_below 16 (fun x => Nat.iter 4 (crc16_bit POLY32) x =? table_at x)).
  vm_compute. reflexivity.
Qed.

Lemma table_nonneg i : 0 <= table_at i.
Proof.
  unfold table_at. destruct (nth_in_or_default (Z.to_nat i) crc_table 0) as [H| ->]; [|lia].
  repeat (destruct H as [<-|H]; [lia|]). destruct H.
Qed.

Lemma crc32_byte_nonneg c b : 0 <= c -> 0 <= crc32_byte c b.
Proof.
  intros. unfold crc32_byte. rewrite !Z.lxor_nonneg, !Z.shiftr_nonneg, !Z.lxor_nonneg,
    !Z.shiftr_nonneg. pose proof table_nonneg. split; intros; auto.
  split; auto.
Qed.

Lemma crc32_byte_ref c b : 0 <= c -> is_byte b -> crc32_byte c b = crc32_ref_byte c b.
Proof.
  intros Hc [Hb0 Hb]. unfold crc32_ref_byte, crc32_byte.
  change (Nat.iter 8 (crc16_bit POLY32) (Z.lxor c b))
    with (Nat.iter 4 (crc16_bit POLY32) (Nat.iter 4 (crc16_bit POLY32) (Z.lxor c b))).
  rewrite (four_bits (Z.lxor c b)) by (apply Z.lxor_nonneg; lia).
  set (t := table_at (Z.land (Z.lxor c b) 15)).
  assert (Z.lxor (Z.shiftr (Z.lxor c b) 4) t = Z.lxor (Z.lxor (Z.shiftr c 4) t) (Z.shiftr b 4)) as ->.
  { by rewrite Z.shiftr_lxor, !Z.lxor_assoc, (Z.lxor_comm _ t). }
  set (c1 := Z.lxor (Z.shiftr c 4) t).
  assert (0 <= c1) by (apply Z.lxor_nonneg; rewrite Z.shiftr_nonneg; pose proof (table_nonneg
    (Z.land (Z.lxor c b) 15)); split; intros; unfold t; lia).
  assert (0 <= Z.shiftr b 4) by (apply Z.shiftr_nonneg; lia).
  rewrite four_bits by (apply Z.lxor_nonneg; lia). f_equal.
  rewrite Z.shiftr_lxor. rewrite (Z.shiftr_shiftr b) by lia. change (4 + 4) with 8.
  assert (Z.shiftr b 8 = 0) as ->; [|by rewrite Z.lxor_0_r].
  rewrite Z.shiftr_div_pow2 by lia. apply Z.div_small. simpl. lia.
Qed.

Lemma not32_involutive x : not32 (not32 x) = x.
Proof. unfold not32. by rewrite Z.lxor_assoc, Z.lxor_nilpotent, Z.lxor_0_r. Qed.

(** The nibble-table CRC-32 computes the bit-serial reflected CRC with
    polynomial 0xedb88320 and the two complements, and may be fed in pieces. *)
Theorem crc32_table_correct crc data more :
  0 <= crc -> Forall is_byte data ->
  crc32_ieee_update crc data = not32 (fold_left crc32_ref_byte data (not32 crc)) /\
  crc32_ieee_update crc (data ++ more) = crc32_ieee_update (crc32_ieee_update crc data) more.
Proof.
  intros Hc Hd. unfold crc32_ieee_update. split.
  - f_equal. assert (0 <= not32 crc) as Hn by (apply Z.lxor_nonneg; lia).
    revert Hn. generalize (not32 crc). induction Hd as [|b data Hb _ IH]; intros c Hn; simpl; [done|].
    rewrite <-crc32_byte_ref by done. apply IH. by apply crc32_byte_nonneg.
  - by rewrite not32_involutive, fold_left_app.
Qed.

(** The check value of the standard, CRC-32 of "123456789". *)
Lemma crc32_table_correct_witness :
  crc32_ieee [49; 50; 51; 52; 53; 54; 55; 56; 57] = 0xcbf43926 /\
  not32 (fold_left crc32_ref_byte [49; 50; 51; 52; 53; 54; 55; 56; 57] (not32 0)) = 0xcbf43926.
Proof.
  split; [reflexivity|].
  rewrite <-(proj1 (crc32_table_correct 0 [49; 50; 51; 52; 53; 54; 55; 56; 57] []
    ltac:(lia) ltac:(by repeat constructor))). reflexivity.
Defined.

(** * Decimal digits *)

Definition dec_digits (v : Z) : list Z :=
  if v <? 10 then [v]
  else if v <? 100 then [v / 10; v mod 10]
  else [v / 100; v / 10 mod 10; v mod 10].

(** With room for one more character than the turns left, the room is never
    what stops the loop. *)
Lemma dec_loop_room fuel out r1 r2 d v n :
  Z.of_nat fuel <= r1 -> Z.of_nat fuel <= r2 ->
  let '(o1, q1, n1) := dec_loop fuel out r1 d v n in
  dec_loop fuel out r2 d v n = (o1, q1 + (r2 - r1), n1).
Proof.
  revert out r1 r2 d v n. induction fuel as [|fuel IH]; intros out r1 r2 d v n H1 H2.
  - simpl. do 2 f_equal. lia.
  - cbn [dec_loop]. rewrite (proj2 (Z.ltb_lt 0 r1)), (proj2 (Z.ltb_lt 0 r2)) by lia.
    destruct (true && (0 <? d)); [|do 2 f_equal; lia]. cbv zeta.
    destruct (negb (v / d =? 0) || (d =? 1) || negb (n =? 0)).
    + specialize (IH (out ++ [v / d + 48]) (r1 - 1) (r2 - 1) (d / 10) (u8 (v - v / d * d))
        (u8 (n + 1)) ltac:(lia) ltac:(lia)).
      destruct (dec_loop fuel _ (r1 - 1) _ _ _) as [[o1 q1] n1]. rewrite IH. do 2 f_equal. lia.
    + specialize (IH out r1 r2 (d / 10) (u8 (v - v / d * d)) n ltac:(lia) ltac:(lia)).
      destruct (dec_loop fuel _ r1 _ _ _) as [[o1 q1] n1]. by rewrite IH.
Qed.

Definition dec_small_ok (buflen v : Z) : bool :=
  let ds := map (fun d => d + 48) (dec_digits v) in
  bool_decide (u8_to_dec buflen v =
    (take (Z.to_nat buflen) ds, zlen ds <? buflen, Z.min (zlen ds) buflen)).

(** [u8_to_dec] writes the decimal digits of the value, most significant
    first and without leading zeros, cut at the room there is; it terminates
    the string exactly when a byte is left, and returns the number of digits
    written. *)
Theorem u8_to_dec_spec buflen v :
  0 <= buflen < 256 -> is_byte v ->
  let ds := map (fun d => d + 48) (dec_digits v) in
  u8_to_dec buflen v =
    (take (Z.to_nat buflen) ds, zlen ds <? buflen, Z.min (zlen ds) buflen) /\
  fold_left (fun a c => 10 * a + (c - 48)) ds 0 = v.
Proof.
  intros Hb Hv ds. split.
  - assert (forall b, 0 <= b <= 4 -> dec_small_ok b v = true) as Hsmall.
    { intros b Hb4. assert (b = 0 \/ b = 1 \/ b = 2 \/ b = 3 \/ b = 4) as Hc by lia.
      destruct Hc as [->|[->|[->|[->| ->]]]];
        [by_bytes v Hv|by_bytes v Hv|by_bytes v Hv|by_bytes v Hv|by_bytes v Hv]. }
    destruct (decide (buflen <= 4)) as [Hle|Hgt].
    { specialize (Hsmall buflen ltac:(lia)). by apply bool_decide_eq_true in Hsmall. }
    specialize (Hsmall 4 ltac:(lia)). apply bool_decide_eq_true in Hsmall.
    fold ds in Hsmall. unfold u8_to_dec in *.
    pose proof (dec_loop_room 4 [] 4 buflen 100 v 0 ltac:(lia) ltac:(lia)) as Hroom.
    destruct (dec_loop 4 [] 4 100 v 0) as [[o1 q1] n1] eqn:He. rewrite Hroom.
    assert (length ds <= 3)%nat as Hl.
    { unfold ds. rewrite length_map. unfold dec_digits. repeat case_if; simpl; lia. }
    assert (q1 = 4 - zlen ds /\ o1 = ds /\ n1 = zlen ds) as (-> & -> & ->).
    { rewrite take_ge in Hsmall by lia. rewrite Z.min_l in Hsmall by lia. simplify_eq.
      split_and!; [|done|done]. revert He. revert Hv. clear. intros Hv He.
      assert (bool_decide ((dec_loop 4 [] 4 100 v 0).1.2 =
                4 - zlen (map (fun d => d + 48) (dec_digits v))) = true) as H by by_bytes v Hv.
      apply bool_decide_eq_true in H. rewrite He in H. done. }
    rewrite take_ge by lia. rewrite Z.min_l by lia. do 2 f_equal.
    destruct (zlen ds <? buflen) eqn:Hz; bool_to_prop; [|lia].
    by rewrite (proj2 (Z.eqb_neq _ _)) by lia.
  - unfold ds. apply Z.eqb_eq. by_bytes v Hv.
Qed.

Lemma u8_to_dec_spec_witness : u8_to_dec 3 207 = ([50; 48; 55], false, 3).
Proof. apply (u8_to_dec_spec 3 207); [lia|split; lia]. Defined.

(** * UTF-8 *)

Definition cont_byte (b : Z) : Prop := 0x80 <= b < 0xC0.

(** A character: a starting byte that announces its length, and the
    continuation bytes. *)
Inductive utf8_char : list Z -> Prop :=
  | utf8_1 b : 0 < b < 0x80 -> utf8_char [b]
  | utf8_2 b c : 0xC0 <= b < 0xE0 -> cont_byte c -> utf8_char [b; c]
  | utf8_3 b c d : 0xE0 <= b < 0xF0 -> cont_byte c -> cont_byte d -> utf8_char [b; c; d]
  | utf8_4 b c d e : 0xF0 <= b < 0xF8 -> cont_byte c -> cont_byte d -> cont_byte e ->
      utf8_char [b; c; d; e].

(** What the masks test, on bytes. *)
Definition masks_ok (b : Z) : bool :=
  bool_decide ((Z.land b ASCII_CHAR =? b) = (b <? 0x80)) &&
  bool_decide (has b SEQUENCE_FIRST_MASK = (0xC0 <=? b)) &&
  bool_decide (has b SEQUENCE_LEN_3_BYTE = (0xE0 <=? b)) &&
  bool_decide (has b SEQUENCE_LEN_4_BYTE = (0xF0 <=? b)) &&
  bool_decide ((Z.land b MSB_SET =? 0) = (b <? 0x80)) &&
  bool_decide ((Z.land b SEQUENCE_LEN_3_BYTE =? SEQUENCE_FIRST_MASK) = (0xC0 <=? b) && (b <? 0xE0)) &&
  bool_decide ((Z.land b SEQUENCE_LEN_4_BYTE =? SEQUENCE_LEN_3_BYTE) = (0xE0 <=? b) && (b <? 0xF0)) &&
  bool_decide ((Z.land b 0xF8 =? SEQUENCE_LEN_4_BYTE) = (0xF0 <=? b) && (b <? 0xF8)) &&
  bool_decide (cont_bad b = negb ((0x80 <=? b) && (b <? 0xC0))).

Lemma masks b : is_byte b ->
  (Z.land b ASCII_CHAR =? b) = (b <? 0x80) /\
  has b SEQUENCE_FIRST_MASK = (0xC0 <=? b) /\
  has b SEQUENCE_LEN_3_BYTE = (0xE0 <=? b) /\
  has b SEQUENCE_LEN_4_BYTE = (0xF0 <=? b) /\
  (Z.land b MSB_SET =? 0) = (b <? 0x80) /\
  (Z.land b SEQUENCE_LEN_3_BYTE =? SEQUENCE_FIRST_MASK) = (0xC0 <=? b) && (b <? 0xE0) /\
  (Z.land b SEQUENCE_LEN_4_BYTE =? SEQUENCE_LEN_3_BYTE) = (0xE0 <=? b) && (b <? 0xF0) /\
  (Z.land b 0xF8 =? SEQUENCE_LEN_4_BYTE) = (0xF0 <=? b) && (b <? 0xF8) /\
  cont_bad b = negb ((0x80 <=? b) && (b <? 0xC0)).
Proof.
  intros Hb. assert (masks_ok b = true) as H by by_bytes b Hb.
  unfold masks_ok in H. rewrite !andb_true_iff, !bool_decide_eq_true in H. tauto.
Qed.

(** Decides comparisons with constants from the ranges in the context. *)
Ltac decide_cmp :=
  repeat match goal with
  | |- context [?a <=? ?b] =>
      first [rewrite (proj2 (Z.leb_le a b)) by lia | rewrite (proj2 (Z.leb_gt a b)) by lia]
  | |- context [?a <? ?b] =>
      first [rewrite (proj2 (Z.ltb_lt a b)) by lia | rewrite (proj2 (Z.ltb_ge a b)) by lia]
  | |- context [?a =? ?b] =>
      first [rewrite (proj2 (Z.eqb_eq a b)) by lia | rewrite (proj2 (Z.eqb_neq a b)) by lia]
  end.

(** Rewrites the mask tests on one byte. *)
Ltac use_masks b :=
  let H := fresh in
  assert (is_byte b) as H by (unfold is_byte; lia);
  let H1 := fresh in pose proof (masks b H) as H1;
  destruct H1 as (?E1 & ?E2 & ?E3 & ?E4 & ?E5 & ?E6 & ?E7 & ?E8 & ?E9);
  rewrite ?E1, ?E2, ?E3, ?E4, ?E5, ?E6, ?E7, ?E8, ?E9;
  clear E1 E2 E3 E4 E5 E6 E7 E8 E9 H.

(** The walk back over continuation bytes. *)
Lemma trunc_back_spec s p k t :
  (forall i, (1 <= i <= k)%nat -> cont_byte (nth (p + i) s 0)) ->
  0xC0 <= nth p s 0 < 0x100 -> 0 <= t -> t + Z.of_nat k < 256 ->
  trunc_back s (p + k) t = (p, t + Z.of_nat k).
Proof.
  intros Hc Hp. revert t. induction k as [|k IH]; intros t Ht Hk.
  - rewrite Nat.add_0_r, Z.add_0_r. destruct p; [done|]. simpl trunc_back.
    set (b := nth (S p) s 0) in *. by use_masks b; decide_cmp.
  - rewrite Nat.add_succ_r. cbn [trunc_back].
    pose proof (Hc (S k) ltac:(lia)) as Hb. rewrite Nat.add_succ_r in Hb. unfold cont_byte in Hb.
    set (b := nth (S (p + k)) s 0) in *. use_masks b. decide_cmp.
    rewrite u8_id by lia. rewrite IH; [f_equal; lia| |lia|lia].
    intros i Hi. apply Hc. lia.
Qed.

(** The length a starting byte announces. *)
Definition announced (b : Z) : Z := if 0xF0 <=? b then 4 else if 0xE0 <=? b then 3 else 2.

(** The last character of a string, whole or cut short. *)
Lemma utf8_trunc_lead a b conts :
  Forall cont_byte conts -> 0xC0 <= b < 0xF8 -> (length conts <= 3)%nat ->
  utf8_trunc (a ++ b :: conts) =
    if 1 + zlen conts =? announced b then a ++ b :: conts else a.
Proof.
  intros Hc Hb Hl. set (s := a ++ b :: conts).
  assert (length s - 1 = length a + length conts)%nat as Hlast
    by (unfold s; rewrite length_app; simpl; lia).
  assert (nth (length a) s 0 = b) as Hn0.
  { unfold s. rewrite app_nth2 by lia. by rewrite Nat.sub_diag. }
  assert (forall i, (1 <= i <= length conts)%nat -> cont_byte (nth (length a + i) s 0)) as Hni.
  { intros i Hi. unfold s. rewrite app_nth2 by lia.
    replace (length a + i - length a)%nat with (S (i - 1)) by lia. simpl.
    eapply list.Forall_forall; [exact Hc|]. apply list_elem_of_In, nth_In. lia. }
  assert (utf8_trunc s =
    if Z.land (nth (length s - 1) s 0) ASCII_CHAR =? nth (length s - 1) s 0 then s
    else let '(p, t) := trunc_back s (length s - 1) 0 in
         if has (nth p s 0) SEQUENCE_LEN_4_BYTE then
           if u8 (t + 1) =? 4 then s else take p s
         else if has (nth p s 0) SEQUENCE_LEN_3_BYTE then
           if u8 (t + 1) =? 3 then s else take p s
         else if has (nth p s 0) SEQUENCE_LEN_2_BYTE then
           if u8 (t + 1) =? 2 then s else take p s
         else take p s) as ->.
  { unfold utf8_trunc. assert (s <> []) by (unfold s; by destruct a). by destruct s. }
  rewrite Hlast.
  assert (0x80 <= nth (length a + length conts) s 0 < 0x100) as Hrange.
  { destruct conts as [|c cs] eqn:Hcs; [simpl; rewrite Nat.add_0_r, Hn0; lia|].
    pose proof (Hni (length (c :: cs)) ltac:(simpl; lia)) as H. unfold cont_byte in H. lia. }
  set (e := nth (length a + length conts) s 0) in *. use_masks e. decide_cmp.
  rewrite trunc_back_spec by (done || lia). rewrite Hn0.
  change SEQUENCE_LEN_2_BYTE with SEQUENCE_FIRST_MASK. use_masks b.
  rewrite u8_id by lia. assert (take (length a) s = a) as -> by apply take_app_length.
  rewrite (proj2 (Z.leb_le 192 b)) by lia. unfold announced.
  replace (0 + zlen conts + 1) with (1 + zlen conts) by lia.
  repeat case_if; done.
Qed.

Lemma utf8_trunc_ascii a b : 0 < b < 0x80 -> utf8_trunc (a ++ [b]) = a ++ [b].
Proof.
  intros Hb. set (s := a ++ [b]).
  assert (nth (length s - 1) s 0 = b) as Hn.
  { unfold s. rewrite length_app. simpl. rewrite app_nth2 by lia.
    by replace (length a + 1 - 1 - length a)%nat with O by lia. }
  assert (utf8_trunc s = if Z.land (nth (length s - 1) s 0) ASCII_CHAR =? nth (length s - 1) s 0
    then s else utf8_trunc s) as ->.
  { unfold utf8_trunc. assert (s <> []) by (unfold s; by destruct a).
    destruct s; [done|]. by destruct (Z.land _ _ =? _). }
  rewrite Hn. use_masks b. by decide_cmp.
Qed.

(** Lists of continuation bytes from the context. *)
Ltac conts := repeat first [apply Forall_nil_2 | apply Forall_cons_2; [assumption|]].

(** A whole character at the end stays, and a cut one is dropped. *)
Lemma utf8_trunc_whole a c : utf8_char c -> utf8_trunc (a ++ c) = a ++ c.
Proof.
  intros Hc. inversion Hc; subst;
    [by apply utf8_trunc_ascii|rewrite utf8_trunc_lead; [|conts|lia|simpl; lia];
     unfold announced; simpl; by decide_cmp..].
Qed.

Lemma utf8_trunc_cut a c k :
  utf8_char c -> (0 < k < length c)%nat -> utf8_trunc (a ++ take k c) = a.
Proof.
  intros Hc Hk. inversion Hc; subst; simpl in Hk; try lia;
    repeat (destruct k as [|k]; try lia); simpl;
    (rewrite utf8_trunc_lead; [|conts|lia|simpl; lia];
     unfold announced; simpl; by decide_cmp).
Qed.

Lemma utf8_char_nonempty c : utf8_char c -> (0 < length c <= 4)%nat.
Proof. inversion 1; simpl; lia. Qed.

(** Cutting a text leaves whole characters and a part of the next one. *)
Lemma cut_chars chars n :
  Forall utf8_char chars ->
  exists k, (k <= length chars)%nat /\
    ((k = length chars /\ take n (concat chars) = concat chars) \/
     exists c j, chars !! k = Some c /\ (j < length c)%nat /\
       take n (concat chars) = concat (take k chars) ++ take j c /\
       (n < length (concat (take (S k) chars)))%nat).
Proof.
  intros Hc. revert n. induction Hc as [|c chars Hch _ IH]; intros n.
  - exists O. split; [done|]. left. split; [done|]. by destruct n.
  - destruct (decide (n < length c)%nat) as [Hlt|Hge].
    + exists O. split; [simpl; lia|]. right. exists c, n. split_and!; [done|done| |].
      * simpl. rewrite take_app_le by lia. done.
      * simpl. rewrite app_nil_r. done.
    + destruct (IH (n - length c)%nat) as (k & Hk & Hcase). exists (S k). split; [simpl; lia|].
      simpl. rewrite take_app_ge by lia. destruct Hcase as [[-> Heq]|(c' & j & H1 & H2 & H3 & H4)].
      * left. by rewrite Heq.
      * right. exists c', j. split_and!; [done|done| |].
        -- by rewrite H3, app_assoc.
        -- rewrite length_app. simpl in H4. lia.
Qed.

(** Copying UTF-8.  From a well-formed text, [utf8_lcpy] leaves in a buffer
    of [n] bytes the longest sequence of whole characters that fits with the
    terminator: it never overflows, never splits a character, and never drops
    one that fits. *)
Theorem utf8_lcpy_spec chars n :
  Forall utf8_char chars -> 0 < n ->
  exists k, utf8_lcpy (concat chars) n = Some (concat (take k chars)) /\
    zlen (concat (take k chars)) <= n - 1 /\
    (k = length chars \/ n - 1 < zlen (concat (take (S k) chars))).
Proof.
  intros Hc Hn. unfold utf8_lcpy. rewrite (proj2 (Z.ltb_lt 0 n)) by lia.
  destruct (cut_chars chars (Z.to_nat (n - 1)) Hc) as (k & Hk & Hcut). exists k.
  assert (zlen (take (Z.to_nat (n - 1)) (concat chars)) <= n - 1) as Hlen
    by (rewrite length_take; lia).
  destruct Hcut as [[-> Heq]|(c & j & Hck & Hj & Heq & Hmax)]; rewrite Heq in *.
  - rewrite firstn_all. split_and!; [|done|by left]. f_equal.
    destruct (negb (n =? 1)); [|done].
    destruct chars as [|c chars] using rev_ind; [done|].
    rewrite concat_app. simpl. rewrite app_nil_r. apply utf8_trunc_whole.
    apply Forall_app in Hc as [_ Hc]. by inversion Hc.
  - assert (utf8_char c) as Hcc by (eapply Forall_lookup_1; eauto).
    rewrite length_app in Hlen. split_and!; [|lia|right; lia]. f_equal.
    assert (n = 1 -> concat (take k chars) ++ take j c = concat (take k chars)) as Hn1.
    { intros ->. rewrite take_0 in Heq. destruct (concat (take k chars)); [|done].
      by rewrite <-Heq. }
    destruct (n =? 1) eqn:H1; bool_to_prop; simpl; [auto|].
    destruct j as [|j].
    + simpl. rewrite app_nil_r.
      destruct (take k chars) as [|c' cs] eqn:Hcs using rev_ind; [done|].
      rewrite concat_app. simpl. rewrite app_nil_r. apply utf8_trunc_whole.
      apply (Forall_take _ k) in Hc. rewrite Hcs in Hc. apply Forall_app in Hc as [_ Hc].
      by inversion Hc.
    + apply utf8_trunc_cut; [done|lia].
Qed.

(** Counting UTF-8 characters: on a well-formed text the count is the number
    of its characters; the scan never reads past the terminator. *)
Theorem utf8_count_chars_spec chars :
  Forall utf8_char chars -> utf8_count_chars (concat chars) = Some (zlen chars).
Proof.
  intros Hc. unfold utf8_count_chars.
  assert (forall fuel n, (length (concat chars) < fuel)%nat ->
    count_loop fuel (concat chars) n = Some (n + zlen chars)) as H
    by (induction Hc as [|c chars Hch _ IH]; intros [|fuel] n Hf; try (simpl in Hf; lia);
        [simpl; f_equal; lia|];
        cbn [count_loop]; unfold at_;
        inversion Hch; subst; simpl in Hf |- *;
        repeat match goal with H : cont_byte _ |- _ => unfold cont_byte in H end;
        repeat match goal with b : Z |- context [cont_bad ?b] => use_masks b end;
        match goal with |- context [Z.land ?b MSB_SET] => use_masks b end;
        decide_cmp; simpl; rewrite IH by lia; f_equal; lia).
  by rewrite H by lia.
Qed.

(** "h\u00e9\u20ac" in six bytes. *)
Definition sample_text : list (list Z) := [[104]; [0xC3; 0xA9]; [0xE2; 0x82; 0xAC]].

Lemma sample_text_chars : Forall utf8_char sample_text.
Proof.
  repeat constructor; unfold cont_byte; lia.
Qed.

Lemma utf8_lcpy_spec_witness :
  exists k, utf8_lcpy (concat sample_text) 6 = Some (concat (take k sample_text)) /\
    zlen (concat (take k sample_text)) <= 5.
Proof.
  destruct (utf8_lcpy_spec sample_text 6 sample_text_chars) as (k & H1 & H2 & _); [lia|].
  exists k. exact (conj H1 H2).
Defined.

Lemma utf8_count_chars_spec_witness : utf8_count_chars [104; 0xC3; 0xA9; 0xE2; 0x82; 0xAC] = Some 3.
Proof. exact (utf8_count_chars_spec sample_text sample_text_chars). Defined.
