(* ===== verification/Slist.v ===== *)
(** Singly linked lists: [include/utils/bt_slist.h].

    A node is an address of the heap, whose cell holds the [next] pointer; a
    null pointer is [None].  An operation returns [None] when it would access a
    cell the heap does not have, or, for the walks, when the list is cyclic. *)

From stdpp Require Import gmap.
From S2P Require Import Prelude.

Notation ptr := (option Z).
Notation heap := (gmap Z ptr).

Record bt_slist := mk_slist { head : ptr; tail : ptr }.

#[export] Instance bt_slist_eq_dec : EqDecision bt_slist.
Proof. solve_decision. Defined.

(** [node->next] and the assignment to it. *)
Definition next (h : heap) (n : Z) : option ptr := h !! n.
Definition set_next (h : heap) (n : Z) (p : ptr) : option heap :=
  match h !! n with Some _ => Some (<[n := p]> h) | None => None end.

(** * Operations *)

Definition bt_slist_init : bt_slist := mk_slist None None.
Definition bt_slist_is_empty (l : bt_slist) : bool := bool_decide (head l = None).

Definition bt_slist_prepend (h : heap) (l : bt_slist) (node : Z) : option (heap * bt_slist) :=
  h ← set_next h node (head l);
  Some (h, mk_slist (Some node) (match tail l with None => Some node | t => t end)).

Definition bt_slist_append (h : heap) (l : bt_slist) (node : Z) : option (heap * bt_slist) :=
  h ← set_next h node None;
  match tail l with
  | Some t => h ← set_next h t (Some node); Some (h, mk_slist (head l) (Some node))
  | None => Some (h, mk_slist (Some node) (Some node))
  end.

Definition bt_slist_insert (h : heap) (l : bt_slist) (prev : ptr) (node : Z)
  : option (heap * bt_slist) :=
  match prev with
  | None => bt_slist_prepend h l node
  | Some p =>
      pn ← next h p;
      h ← set_next h node pn;
      h ← set_next h p (Some node);
      Some (h, mk_slist (head l) (if bool_decide (tail l = Some p) then Some node else tail l))
  end.

Definition bt_slist_peek_head (l : bt_slist) : ptr := head l.
Definition bt_slist_peek_tail (l : bt_slist) : ptr := tail l.
Definition bt_slist_peek_next (h : heap) (node : ptr) : option ptr :=
  match node with Some n => next h n | None => Some None end.

Definition bt_slist_get (h : heap) (l : bt_slist) : option (ptr * heap * bt_slist) :=
  match head l with
  | None => Some (None, h, l)
  | Some n =>
      nx ← next h n;
      h ← set_next h n None;
      Some (Some n, h, mk_slist nx (match nx with None => None | _ => tail l end))
  end.
Definition bt_slist_get_not_empty := bt_slist_get.

Definition bt_slist_remove (h : heap) (l : bt_slist) (prev : ptr) (node : Z)
  : option (heap * bt_slist) :=
  '(h, l) ←
    match prev with
    | None =>
        if bool_decide (head l = Some node) then
          nx ← next h node;
          Some (h, mk_slist nx (match nx with None => None | _ => tail l end))
        else Some (h, l)
    | Some p =>
        pn ← next h p;
        if bool_decide (pn = Some node) then
          nx ← next h node;
          h ← set_next h p nx;
          Some (h, match nx with None => mk_slist (head l) (Some p) | _ => l end)
        else Some (h, l)
    end;
  h ← set_next h node None;
  Some (h, l).

(** The walk of [bt_slist_find]: [Some (found, prev)]. *)
Fixpoint find_from (fuel : nat) (h : heap) (node : Z) (prev cur : ptr) : option (bool * ptr) :=
  match fuel with
  | O => None
  | S fuel =>
      match cur with
      | None => Some (false, None)
      | Some c =>
          if c =? node then Some (true, prev)
          else nx ← next h c; find_from fuel h node cur nx
      end
  end.

(** A list without a cycle has at most as many nodes as the heap has cells. *)
Definition walk_fuel (h : heap) : nat := S (size h).
#[global] Arguments walk_fuel : simpl never.

Definition bt_slist_find (h : heap) (l : bt_slist) (node : Z) : option (bool * ptr) :=
  find_from (walk_fuel h) h node None (head l).

Definition bt_slist_find_and_remove (h : heap) (l : bt_slist) (node : Z)
  : option (bool * heap * bt_slist) :=
  '(found, prev) ← bt_slist_find h l node;
  if (found : bool) then '(h, l) ← bt_slist_remove h l prev node; Some (true, h, l)
  else Some (false, h, l).

Fixpoint len_from (fuel : nat) (h : heap) (len : Z) (cur : ptr) : option Z :=
  match fuel with
  | O => None
  | S fuel =>
      match cur with
      | None => Some len
      | Some c => nx ← next h c; len_from fuel h (len + 1) nx
      end
  end.
Definition bt_slist_len (h : heap) (l : bt_slist) : option Z :=
  len_from (walk_fuel h) h 0 (head l).

(** * Representation *)

(** [ns] are the nodes on the way from [p] to [q]. *)
Fixpoint seg (h : heap) (ns : list Z) (p q : ptr) : Prop :=
  match ns with
  | [] => p = q
  | n :: ns => p = Some n /\ exists r, h !! n = Some r /\ seg h ns r q
  end.

Definition slist_rep (h : heap) (l : bt_slist) (ns : list Z) : Prop :=
  seg h ns (head l) None /\ tail l = list.last ns /\ NoDup ns.

(** Cells outside [ns] are untouched. *)
Definition same_outside (ns : list Z) (h h' : heap) : Prop :=
  forall m, m ∉ ns -> h' !! m = h !! m.

Lemma seg_app h xs ys p q :
  seg h (xs ++ ys) p q <-> exists r, seg h xs p r /\ seg h ys r q.
Proof.
  revert p. induction xs as [|x xs IH]; intros p; simpl; [naive_solver|].
  split.
  - intros (-> & r & Hr & (r' & H1 & H2)%IH). eauto 10.
  - intros (r' & (-> & r & Hr & H1) & H2). split; [done|]. exists r.
    split; [done|]. apply IH. eauto.
Qed.

Lemma seg_dom h ns p q n : seg h ns p q -> n ∈ ns -> is_Some (h !! n).
Proof.
  revert p. induction ns as [|m ns IH]; intros p Hc Hn; [by apply not_elem_of_nil in Hn|].
  destruct Hc as [_ (r & Hr & Hc)]. apply elem_of_cons in Hn as [->|Hn]; eauto.
Qed.

Lemma seg_frame h h' ns p q :
  (forall n, n ∈ ns -> h' !! n = h !! n) -> seg h ns p q -> seg h' ns p q.
Proof.
  revert p. induction ns as [|m ns IH]; intros p He Hc; [done|].
  destruct Hc as [-> (r & Hr & Hc)]. split; [done|]. exists r. split.
  - rewrite He; [done|]. by apply elem_of_cons; left.
  - apply IH; [|done]. intros n Hn. apply He. by apply elem_of_cons; right.
Qed.

Lemma seg_insert_ne h ns p q n r : n ∉ ns -> seg h ns p q -> seg (<[n := r]> h) ns p q.
Proof.
  intros Hn. apply seg_frame. intros m Hm. rewrite lookup_insert_ne; [done|].
  intros ->. done.
Qed.

(** Drops updates of cells outside the segment. *)
Ltac seg_skip := repeat (apply seg_insert_ne; [done || set_solver|]).

(** Redirecting the last node of a segment. *)
Lemma seg_set_last h xs x p q r :
  NoDup (xs ++ [x]) -> seg h (xs ++ [x]) p q -> seg (<[x := r]> h) (xs ++ [x]) p r.
Proof.
  intros Hnd Hs. apply NoDup_app in Hnd as (_ & Hx & _).
  apply seg_app in Hs as (p' & Hxs & (-> & q' & Hq & _)).
  apply seg_app. exists (Some x). split.
  - apply seg_insert_ne; [|done]. intros Hin. apply (Hx x Hin). by apply list_elem_of_singleton.
  - simpl. split; [done|]. exists r. by rewrite lookup_insert_eq.
Qed.

Lemma size_ge_seg h ns p q : NoDup ns -> seg h ns p q -> (length ns <= size h)%nat.
Proof.
  intros Hnd Hc. rewrite <-(size_list_to_set (C := gset Z) ns) by done.
  rewrite <-size_dom. apply subseteq_size. intros n Hn.
  apply elem_of_list_to_set in Hn. apply elem_of_dom. by eapply seg_dom.
Qed.

Lemma set_next_some h n p : is_Some (h !! n) -> set_next h n p = Some (<[n := p]> h).
Proof. intros [r Hr]. unfold set_next. by rewrite Hr. Qed.

Lemma same_outside_insert n r ns h h' :
  n ∈ ns -> same_outside ns h h' -> same_outside ns h (<[n := r]> h').
Proof.
  intros Hn Hs m Hm. rewrite lookup_insert_ne by (intros ->; done). by apply Hs.
Qed.
Lemma same_outside_refl ns h : same_outside ns h h.
Proof. done. Qed.
#[export] Hint Resolve same_outside_refl same_outside_insert : ob.

Lemma last_snoc_inv {A} (l : list A) x : list.last l = Some x -> exists l', l = l' ++ [x].
Proof. apply last_Some. Qed.

Lemma slist_init_rep h : slist_rep h bt_slist_init [].
Proof. split_and!; [done|done|constructor]. Qed.

Lemma slist_rep_dom h l ns n : slist_rep h l ns -> n ∈ ns -> is_Some (h !! n).
Proof. intros (Hs & _). by apply (seg_dom _ _ _ _ _ Hs). Qed.

Lemma slist_rep_head h l ns : slist_rep h l ns -> head l = List.hd_error ns.
Proof. intros (Hs & _). destruct ns; simpl in *; [done|]. by destruct Hs. Qed.

(** * Functional behaviour *)

Lemma last_none {A} (l : list A) : list.last l = None -> l = [].
Proof. by apply last_None. Qed.

Lemma prepend_spec h l ns n :
  slist_rep h l ns -> n ∉ ns -> is_Some (h !! n) ->
  bt_slist_prepend h l n =
    Some (<[n := head l]> h, mk_slist (Some n) (list.last (n :: ns))) /\
  slist_rep (<[n := head l]> h) (mk_slist (Some n) (list.last (n :: ns))) (n :: ns).
Proof.
  intros (Hs & Ht & Hnd) Hn Hd. unfold bt_slist_prepend. rewrite set_next_some by done. simpl.
  split.
  - rewrite Ht, last_cons. by destruct (list.last ns).
  - split_and!; [|done|by constructor]. simpl. split; [done|]. exists (head l).
    rewrite lookup_insert_eq. split; [done|]. by apply seg_insert_ne.
Qed.

Lemma append_spec h l ns n :
  slist_rep h l ns -> n ∉ ns -> is_Some (h !! n) ->
  exists h', bt_slist_append h l n =
    Some (h', mk_slist (List.hd_error (ns ++ [n])) (Some n)) /\
  slist_rep h' (mk_slist (List.hd_error (ns ++ [n])) (Some n)) (ns ++ [n]) /\
  same_outside (n :: ns) h h' /\ dom h' = dom h.
Proof.
  intros Hrep Hn Hd. pose proof (slist_rep_head _ _ _ Hrep) as Hh.
  destruct Hrep as (Hs & Ht & Hnd). unfold bt_slist_append.
  rewrite set_next_some by done. simpl. rewrite Ht.
  assert (NoDup (ns ++ [n])) as Hnd'.
  { apply NoDup_app. split_and!; [done| |apply NoDup_singleton].
    intros x Hx ->%list_elem_of_singleton. done. }
  destruct (list.last ns) as [t|] eqn:Hl.
  - apply last_Some in Hl as [xs ->].
    assert (t <> n) by (intros ->; apply Hn, elem_of_app; right; by apply list_elem_of_singleton).
    assert (is_Some (h !! t)) as Hdt by (eapply seg_dom; [done|set_solver]).
    rewrite set_next_some by (by rewrite lookup_insert_ne). simpl.
    eexists. split; [|split_and!].
    + do 2 f_equal. f_equal. rewrite Hh. by destruct xs.
    + split_and!; [|by rewrite last_snoc|done]. apply seg_app. exists (Some n). split.
      * rewrite Hh in Hs. replace (List.hd_error ((xs ++ [t]) ++ [n])) with (List.hd_error (xs ++ [t]))
          by (by destruct xs).
        eapply seg_set_last; [done|]. apply seg_insert_ne; [done|exact Hs].
      * simpl. split; [done|]. exists None. by rewrite lookup_insert_ne, lookup_insert_eq.
    + apply same_outside_insert; [set_solver|]. apply same_outside_insert; [set_solver|done].
    + rewrite !dom_insert_L. apply elem_of_dom in Hd, Hdt. set_solver.
  - apply last_None in Hl as ->. simpl. eexists. split; [done|]. split_and!.
    + split_and!; [|done|done]. simpl. split; [done|]. exists None. by rewrite lookup_insert_eq.
    + apply same_outside_insert; [set_solver|done].
    + rewrite dom_insert_L. apply elem_of_dom in Hd. set_solver.
Qed.

Lemma insert_spec h l xs p ys n :
  slist_rep h l (xs ++ p :: ys) -> n ∉ xs ++ p :: ys -> is_Some (h !! n) ->
  exists h' l', bt_slist_insert h l (Some p) n = Some (h', l') /\
    slist_rep h' l' (xs ++ p :: n :: ys) /\
    same_outside (n :: xs ++ p :: ys) h h' /\ dom h' = dom h.
Proof.
  intros (Hs & Ht & Hnd) Hn Hd. unfold bt_slist_insert, next.
  apply seg_app in Hs as (r & H1 & (-> & q & Hq & H2)).
  assert (p <> n) by (intros ->; set_solver).
  assert (n ∉ xs /\ n ∉ ys) as [Hnx Hny] by set_solver.
  apply NoDup_app in Hnd as (Hx & Hxy & Hy). apply NoDup_cons in Hy as [Hpy Hy].
  assert (p ∉ xs) as Hpx by (intros Hp; apply (Hxy p Hp); set_solver).
  rewrite Hq. simpl. rewrite set_next_some by done. simpl.
  rewrite set_next_some by (by rewrite lookup_insert_ne). simpl.
  eexists _, _. split; [done|]. split_and!.
  - split_and!; simpl.
    + apply seg_app. exists (Some p). split; [by seg_skip|]. simpl.
      split; [done|]. exists (Some n). rewrite lookup_insert_eq. split_and!; [done|done|].
      exists q. rewrite lookup_insert_ne, lookup_insert_eq by done. split; [done|].
      by seg_skip.
    + rewrite Ht. rewrite !last_app_cons, !last_cons.
      destruct (list.last ys) as [y|] eqn:Hly; [|by rewrite bool_decide_true].
      rewrite bool_decide_false; [done|]. intros [= ->]. apply last_Some in Hly as [ys' ->].
      apply Hpy. set_solver.
    + apply NoDup_app. split_and!; [done|set_solver|].
      apply NoDup_cons. split; [set_solver|]. by apply NoDup_cons.
  - apply same_outside_insert; [set_solver|]. apply same_outside_insert; [set_solver|done].
  - rewrite !dom_insert_L. apply elem_of_dom in Hd. apply elem_of_dom_2 in Hq. set_solver.
Qed.

Lemma get_spec h l ns :
  slist_rep h l ns ->
  exists h' l', bt_slist_get h l = Some (List.hd_error ns, h', l') /\
    slist_rep h' l' (List.tl ns) /\ same_outside ns h h' /\ dom h' = dom h /\
    (forall n, List.hd_error ns = Some n -> h' !! n = Some None).
Proof.
  intros Hrep. pose proof (slist_rep_head _ _ _ Hrep) as Hh.
  unfold bt_slist_get, next. rewrite Hh. destruct ns as [|n ns]; simpl.
  - eexists _, _. split; [done|]. done.
  - destruct Hrep as (Hs & Ht & Hnd). destruct Hs as (_ & q & Hq & Hs).
    rewrite Hq. simpl. rewrite set_next_some by done. simpl.
    apply NoDup_cons in Hnd as [Hn Hnd].
    eexists _, _. split; [done|]. split_and!.
    + split_and!; simpl; [by apply seg_insert_ne| |done].
      rewrite Ht, last_cons. destruct ns as [|m ns]; simpl in Hs; [by subst|].
      destruct Hs as [-> _]. rewrite last_cons. by destruct (list.last ns).
    + apply same_outside_insert; [set_solver|done].
    + rewrite dom_insert_L. apply elem_of_dom_2 in Hq. set_solver.
    + intros m [= <-]. by rewrite lookup_insert_eq.
Qed.

Lemma remove_spec h l xs n ys :
  slist_rep h l (xs ++ n :: ys) ->
  exists h' l', bt_slist_remove h l (list.last xs) n = Some (h', l') /\
    slist_rep h' l' (xs ++ ys) /\ same_outside (xs ++ n :: ys) h h' /\ dom h' = dom h /\
    h' !! n = Some None.
Proof.
  intros (Hs & Ht & Hnd). unfold bt_slist_remove, next.
  pose proof Hnd as (Hx & Hxy & Hy)%NoDup_app. apply NoDup_cons in Hy as [Hny Hy].
  assert (n ∉ xs) as Hnx by (intros Hp; apply (Hxy n Hp); set_solver).
  assert (NoDup (xs ++ ys)) as Hnd' by (apply NoDup_app; set_solver).
  destruct (list.last xs) as [p|] eqn:Hl.
  - apply last_Some in Hl as [xs' ->]. rewrite <-app_assoc in Hs. simpl in Hs.
    apply seg_app in Hs as (r & H1 & (-> & q & Hq & (-> & q' & Hq' & H2))).
    assert (p <> n) by set_solver.
    apply NoDup_app in Hx as (_ & Hpx & _). specialize (Hxy p ltac:(set_solver)).
    assert (p ∉ xs') by (intros Hp; apply (Hpx p Hp); set_solver).
    rewrite Hq. simpl. rewrite bool_decide_true by done. rewrite Hq'. simpl.
    rewrite set_next_some by done. simpl. rewrite set_next_some by (by rewrite lookup_insert_ne).
    simpl. eexists _, _. split; [done|]. split_and!.
    + split_and!; [| |done].
      * replace (head (match q' with Some _ => l | None => mk_slist (head l) (Some p) end))
          with (head l) by (by destruct q').
        rewrite <-app_assoc. apply seg_app. exists (Some p). split; [by seg_skip|]. simpl.
        split; [done|]. exists q'. rewrite lookup_insert_ne, lookup_insert_eq by done.
        split; [done|]. by seg_skip.
      * destruct ys as [|y ys]; simpl in H2.
        { subst q'. simpl. by rewrite app_nil_r, last_snoc. }
        destruct H2 as [-> _]. rewrite Ht, !last_app_cons. by rewrite last_cons_cons.
    + do 2 (apply same_outside_insert; [set_solver|]). done.
    + rewrite !dom_insert_L. apply elem_of_dom_2 in Hq, Hq'. set_solver.
    + by rewrite lookup_insert_eq.
  - apply last_None in Hl as ->. destruct Hs as (Hh & q & Hq & Hs). simpl in *.
    rewrite bool_decide_true by done. rewrite Hq. simpl. rewrite set_next_some by done. simpl.
    eexists _, _. split; [done|]. split_and!.
    + split_and!; simpl; [by seg_skip| |done].
      destruct ys as [|y ys]; simpl in Hs; [by subst|]. destruct Hs as [-> _].
      by rewrite Ht, last_cons_cons.
    + apply same_outside_insert; [set_solver|done].
    + rewrite dom_insert_L. apply elem_of_dom_2 in Hq. set_solver.
    + by rewrite lookup_insert_eq.
Qed.

(** The walk finds a node with the one before it. *)
Lemma find_from_found h xs n ys prev cur fuel :
  seg h (xs ++ n :: ys) cur None -> n ∉ xs -> (length xs < fuel)%nat ->
  find_from fuel h n prev cur =
    Some (true, match list.last xs with Some p => Some p | None => prev end).
Proof.
  revert prev cur fuel. induction xs as [|x xs IH]; intros prev cur [|fuel] Hs Hn Hf;
    simpl in *; [lia| |lia|].
  - destruct Hs as [-> _]. by rewrite Z.eqb_refl.
  - destruct Hs as (-> & q & Hq & Hs). rewrite (proj2 (Z.eqb_neq _ _)) by set_solver.
    unfold next. rewrite Hq. simpl. rewrite IH; [|done|set_solver|lia].
    rewrite last_cons. by destruct (list.last xs).
Qed.

Lemma find_from_missing h ns n prev cur fuel :
  seg h ns cur None -> n ∉ ns -> (length ns < fuel)%nat ->
  find_from fuel h n prev cur = Some (false, None).
Proof.
  revert prev cur fuel. induction ns as [|x ns IH]; intros prev cur [|fuel] Hs Hn Hf;
    simpl in *; [lia|by subst|lia|].
  destruct Hs as (-> & q & Hq & Hs). rewrite (proj2 (Z.eqb_neq _ _)) by set_solver.
  unfold next. rewrite Hq. simpl. apply IH; [done|set_solver|lia].
Qed.

Lemma len_from_spec h ns k cur fuel :
  seg h ns cur None -> (length ns < fuel)%nat -> len_from fuel h k cur = Some (k + zlen ns).
Proof.
  revert k cur fuel. induction ns as [|x ns IH]; intros k cur [|fuel] Hs Hf;
    simpl in *; [lia|subst; f_equal; lia|lia|].
  destruct Hs as (-> & q & Hq & Hs). unfold next. rewrite Hq. simpl.
  rewrite IH by (done || lia). f_equal. lia.
Qed.

Lemma walk_fuel_enough h l ns : slist_rep h l ns -> (length ns < walk_fuel h)%nat.
Proof. intros (Hs & _ & Hnd). unfold walk_fuel. pose proof (size_ge_seg _ _ _ _ Hnd Hs). lia. Qed.

Lemma find_spec_in h l xs n ys :
  slist_rep h l (xs ++ n :: ys) -> bt_slist_find h l n = Some (true, list.last xs).
Proof.
  intros Hrep. pose proof (walk_fuel_enough _ _ _ Hrep) as Hf. rewrite length_app in Hf.
  simpl in Hf. destruct Hrep as (Hs & _ & Hnd). unfold bt_slist_find.
  erewrite find_from_found; [|exact Hs| |lia].
  - by destruct (list.last xs).
  - apply NoDup_app in Hnd as (_ & Hd & _). intros Hin. apply (Hd n Hin). set_solver.
Qed.

Lemma find_spec_out h l ns n :
  slist_rep h l ns -> n ∉ ns -> bt_slist_find h l n = Some (false, None).
Proof.
  intros Hrep Hn. pose proof (walk_fuel_enough _ _ _ Hrep). destruct Hrep as (Hs & _).
  by eapply find_from_missing.
Qed.

Lemma len_spec h l ns : slist_rep h l ns -> bt_slist_len h l = Some (zlen ns).
Proof.
  intros Hrep. pose proof (walk_fuel_enough _ _ _ Hrep). destruct Hrep as (Hs & _).
  unfold bt_slist_len. by erewrite len_from_spec.
Qed.

(** * Refinement of lists

    A program of list operations behaves on the heap like the same program on a
    mathematical list of node addresses. *)

Inductive slist_op :=
  | OpPrepend (n : Z) | OpAppend (n : Z) | OpInsert (prev : ptr) (n : Z)
  | OpGet | OpFindRemove (n : Z) | OpFind (n : Z) | OpLen | OpIsEmpty | OpPeek.

Inductive slist_ans :=
  | AUnit | APtr (p : ptr) | ABool (b : bool) | AFound (b : bool) (prev : ptr) | ANum (n : Z)
  | AEnds (h t : ptr).

Definition run_slist_op (op : slist_op) (h : heap) (l : bt_slist)
  : option (slist_ans * heap * bt_slist) :=
  match op with
  | OpPrepend n => '(h, l) ← bt_slist_prepend h l n; Some (AUnit, h, l)
  | OpAppend n => '(h, l) ← bt_slist_append h l n; Some (AUnit, h, l)
  | OpInsert p n => '(h, l) ← bt_slist_insert h l p n; Some (AUnit, h, l)
  | OpGet => '(p, h, l) ← bt_slist_get h l; Some (APtr p, h, l)
  | OpFindRemove n => '(b, h, l) ← bt_slist_find_and_remove h l n; Some (ABool b, h, l)
  | OpFind n => '(b, p) ← bt_slist_find h l n; Some (AFound b p, h, l)
  | OpLen => k ← bt_slist_len h l; Some (ANum k, h, l)
  | OpIsEmpty => Some (ABool (bt_slist_is_empty l), h, l)
  | OpPeek => Some (AEnds (bt_slist_peek_head l) (bt_slist_peek_tail l), h, l)
  end.

(** The same operations on a list of addresses. *)
Fixpoint insert_after (p n : Z) (ns : list Z) : list Z :=
  match ns with
  | [] => []
  | x :: ns => if x =? p then x :: n :: ns else x :: insert_after p n ns
  end.
Fixpoint remove_one (n : Z) (ns : list Z) : list Z :=
  match ns with
  | [] => []
  | x :: ns => if x =? n then ns else x :: remove_one n ns
  end.
(** Whether [n] occurs and the address before it. *)
Fixpoint before (n : Z) (prev : ptr) (ns : list Z) : bool * ptr :=
  match ns with
  | [] => (false, None)
  | x :: ns => if x =? n then (true, prev) else before n (Some x) ns
  end.

Definition list_op (op : slist_op) (ns : list Z) : slist_ans * list Z :=
  match op with
  | OpPrepend n | OpInsert None n => (AUnit, n :: ns)
  | OpAppend n => (AUnit, ns ++ [n])
  | OpInsert (Some p) n => (AUnit, insert_after p n ns)
  | OpGet => (APtr (List.hd_error ns), List.tl ns)
  | OpFindRemove n => (ABool (bool_decide (n ∈ ns)), remove_one n ns)
  | OpFind n => let '(b, p) := before n None ns in (AFound b p, ns)
  | OpLen => (ANum (zlen ns), ns)
  | OpIsEmpty => (ABool (bool_decide (ns = [])), ns)
  | OpPeek => (AEnds (List.hd_error ns) (list.last ns), ns)
  end.

(** A node that is added exists and is in no list; a node inserted after is in
    the list. *)
Definition op_pre (d : gset Z) (op : slist_op) (ns : list Z) : Prop :=
  match op with
  | OpPrepend n | OpAppend n | OpInsert None n => n ∉ ns /\ n ∈ d
  | OpInsert (Some p) n => n ∉ ns /\ n ∈ d /\ p ∈ ns
  | _ => True
  end.

Lemma insert_after_split xs p ys n :
  p ∉ xs -> insert_after p n (xs ++ p :: ys) = xs ++ p :: n :: ys.
Proof.
  intros Hp. induction xs as [|x xs IH]; simpl; [by rewrite Z.eqb_refl|].
  rewrite (proj2 (Z.eqb_neq _ _)) by set_solver. rewrite IH; [done|set_solver].
Qed.
Lemma remove_one_split xs n ys : n ∉ xs -> remove_one n (xs ++ n :: ys) = xs ++ ys.
Proof.
  intros Hp. induction xs as [|x xs IH]; simpl; [by rewrite Z.eqb_refl|].
  rewrite (proj2 (Z.eqb_neq _ _)) by set_solver. rewrite IH; [done|set_solver].
Qed.
Lemma remove_one_out n ns : n ∉ ns -> remove_one n ns = ns.
Proof.
  intros Hp. induction ns as [|x ns IH]; simpl; [done|].
  rewrite (proj2 (Z.eqb_neq _ _)) by set_solver. rewrite IH; [done|set_solver].
Qed.
Lemma before_split n prev xs ys :
  n ∉ xs -> before n prev (xs ++ n :: ys) =
            (true, match list.last xs with Some p => Some p | None => prev end).
Proof.
  revert prev. induction xs as [|x xs IH]; intros prev Hp; simpl; [by rewrite Z.eqb_refl|].
  rewrite (proj2 (Z.eqb_neq _ _)) by set_solver. rewrite IH by set_solver.
  rewrite last_cons. by destruct (list.last xs).
Qed.
Lemma before_out n prev ns : n ∉ ns -> before n prev ns = (false, None).
Proof.
  revert prev. induction ns as [|x ns IH]; intros prev Hp; simpl; [done|].
  rewrite (proj2 (Z.eqb_neq _ _)) by set_solver. apply IH. set_solver.
Qed.

(** A member splits the list at its only occurrence. *)
Lemma member_split (n : Z) ns :
  n ∈ ns -> exists xs ys, ns = xs ++ n :: ys /\ n ∉ xs.
Proof. intros Hn. apply list_elem_of_split_l in Hn as (xs & ys & -> & ?). eauto. Qed.

Lemma slist_op_refines op h l ns :
  slist_rep h l ns -> op_pre (dom h) op ns ->
  exists h' l', run_slist_op op h l = Some ((list_op op ns).1, h', l') /\
    slist_rep h' l' (list_op op ns).2 /\ dom h' = dom h.
Proof.
  intros Hrep Hpre.
  pose proof (fun n => slist_rep_dom h l ns n Hrep) as Hdom.
  destruct op as [n|n|[p|] n| |n|n| | |];
    cbn [run_slist_op list_op op_pre fst snd] in *; rewrite ?elem_of_dom in Hpre.
  - destruct Hpre as [Hn Hd].
    destruct (prepend_spec h l ns n Hrep Hn Hd) as [-> Hr]. simpl.
    eexists _, _. split_and!; [done|done|]. rewrite dom_insert_L.
    apply elem_of_dom in Hd. set_solver.
  - destruct Hpre as [Hn Hd].
    destruct (append_spec h l ns n Hrep Hn Hd) as (h' & -> & Hr & _ & Hdm). simpl. eauto 10.
  - destruct Hpre as (Hn & Hd & Hp). apply member_split in Hp as (xs & ys & -> & Hx).
    destruct (insert_spec h l xs p ys n Hrep Hn Hd) as (h' & l' & -> & Hr & _ & Hdm). simpl.
    rewrite insert_after_split by done. eauto 10.
  - destruct Hpre as [Hn Hd]. unfold bt_slist_insert.
    destruct (prepend_spec h l ns n Hrep Hn Hd) as [-> Hr]. simpl.
    eexists _, _. split_and!; [done|done|]. rewrite dom_insert_L.
    apply elem_of_dom in Hd. set_solver.
  - destruct (get_spec h l ns Hrep) as (h' & l' & -> & Hr & _ & Hdm & _). simpl. eauto 10.
  - unfold bt_slist_find_and_remove. destruct (decide (n ∈ ns)) as [Hin|Hout].
    + rewrite bool_decide_true by done. apply member_split in Hin as (xs & ys & -> & Hx).
      rewrite (find_spec_in h l xs n ys Hrep). simpl.
      destruct (remove_spec h l xs n ys Hrep) as (h' & l' & -> & Hr & _ & Hdm & _). simpl.
      rewrite remove_one_split by done. eauto 10.
    + rewrite bool_decide_false by done. rewrite (find_spec_out h l ns n Hrep Hout). simpl.
      rewrite remove_one_out by done. eauto 10.
  - destruct (decide (n ∈ ns)) as [Hin|Hout].
    + apply member_split in Hin as (xs & ys & -> & Hx).
      rewrite (find_spec_in h l xs n ys Hrep). simpl. rewrite before_split by done.
      destruct (list.last xs) eqn:Hl; simpl; eauto 10.
    + rewrite (find_spec_out h l ns n Hrep Hout). simpl. rewrite before_out by done. eauto 10.
  - rewrite (len_spec h l ns Hrep). simpl. eauto 10.
  - eexists _, _. split_and!; [|done|done]. do 3 f_equal.
    unfold bt_slist_is_empty. rewrite (slist_rep_head _ _ _ Hrep).
    by destruct ns.
  - eexists _, _. split_and!; [|done|done].
    unfold bt_slist_peek_head, bt_slist_peek_tail.
    rewrite (slist_rep_head _ _ _ Hrep). destruct Hrep as (_ & -> & _). done.
Qed.

(** A program of operations, with the answers it produces. *)
Fixpoint run_slist (ops : list slist_op) (h : heap) (l : bt_slist)
  : option (list slist_ans * heap * bt_slist) :=
  match ops with
  | [] => Some ([], h, l)
  | op :: ops =>
      '(a, h, l) ← run_slist_op op h l;
      '(r, h, l) ← run_slist ops h l;
      Some (a :: r, h, l)
  end.

Fixpoint run_list (ops : list slist_op) (ns : list Z) : list slist_ans * list Z :=
  match ops with
  | [] => ([], ns)
  | op :: ops =>
      let '(a, ns) := list_op op ns in
      let '(r, ns) := run_list ops ns in (a :: r, ns)
  end.

Fixpoint ops_pre (d : gset Z) (ops : list slist_op) (ns : list Z) : Prop :=
  match ops with
  | [] => True
  | op :: ops => op_pre d op ns /\ ops_pre d ops (list_op op ns).2
  end.

#[export] Instance op_pre_dec d op ns : Decision (op_pre d op ns).
Proof. destruct op as [| |[]| | | | | |]; simpl; apply _. Defined.
#[export] Instance ops_pre_dec d ops : forall ns, Decision (ops_pre d ops ns).
Proof. induction ops as [|op ops IH]; intros ns; simpl; apply _. Defined.

Lemma slist_refines_list_core ops h l ns :
  slist_rep h l ns -> ops_pre (dom h) ops ns ->
  exists h' l', run_slist ops h l = Some ((run_list ops ns).1, h', l') /\
    slist_rep h' l' (run_list ops ns).2 /\ dom h' = dom h.
Proof.
  revert h l ns. induction ops as [|op ops IH]; intros h l ns Hrep Hpre; simpl in *.
  - eauto 10.
  - destruct Hpre as [Hp Hpre].
    destruct (slist_op_refines op h l ns Hrep Hp) as (h1 & l1 & Hrun & Hr1 & Hd1).
    rewrite <-Hd1 in Hpre. destruct (IH h1 l1 _ Hr1 Hpre) as (h2 & l2 & Hrun2 & Hr2 & Hd2).
    rewrite Hrun. simpl. destruct (list_op op ns) as [a ns1]. simpl in *.
    rewrite Hrun2. simpl. destruct (run_list ops ns1) as [r ns2]. simpl in *.
    eexists _, _. split_and!; [done|done|congruence].
Qed.

(** C33: The pointer list refines mathematical lists.  Every program of prepend,
    append, insert, get, find, find-and-remove, length, emptiness and peek
    operations that only adds existing nodes that are not in the list already
    runs to completion on the heap, without leaving it and with the walks
    terminating, gives the answers of the same program on a list of addresses,
    and ends in a heap that represents the resulting list, head and tail
    pointers included. *)
Theorem slist_refines_list ops h l ns :
  slist_rep h l ns -> ops_pre (dom h) ops ns ->
  exists h' l', run_slist ops h l = Some ((run_list ops ns).1, h', l') /\
    slist_rep h' l' (run_list ops ns).2 /\ dom h' = dom h.
Proof. apply slist_refines_list_core. Qed.

Definition three_nodes : heap := {[ 16 := None; 32 := None; 48 := Some 7 ]}.
Definition sample_ops : list slist_op :=
  [OpAppend 32; OpPrepend 16; OpInsert (Some 16) 48; OpFind 32; OpLen; OpFindRemove 48;
   OpGet; OpGet; OpIsEmpty].

Lemma slist_refines_list_witness :
  exists h l, run_slist sample_ops three_nodes bt_slist_init =
    Some ([AUnit; AUnit; AUnit; AFound true (Some 48); ANum 3; ABool true;
           APtr (Some 16); APtr (Some 32); ABool true], h, l) /\ slist_rep h l [].
Proof.
  destruct (slist_refines_list sample_ops three_nodes bt_slist_init []) as (h & l & H1 & H2 & _).
  - split_and!; [done|done|constructor].
  - apply (bool_decide_unpack _). vm_compute. exact I.
  - exists h, l. exact (conj H1 H2).
Defined.
