(* ===== verification/Queue.v ===== *)
(** The blocking queue: [base/queue/bt_queue.c].

    A queue is a pointer list with a lock and a condition variable.  Operations
    other than [bt_queue_get] hold the lock throughout and are atomic; a null
    queue pointer is [None].  A thread that waits in [bt_queue_get] releases the
    lock: each [os_cond_wait] consumes an element of [env], the list operations
    other threads performed meanwhile (none for [bt_queue_cancel_wait], which
    only signals) and the value the wait returned.  A wait with no element left
    has not returned yet. *)

From stdpp Require Import gmap.
From S2P Require Import Prelude Slist.

Record bt_queue := mk_queue { q_list : bt_slist; q_signals : Z }.

Definition EINTR : Z := 4.
Definition OS_TIMEOUT_NO_WAIT : Z := 0.
Definition OS_TIMEOUT_FOREVER : Z := -1.

Definition signal (q : bt_queue) : bt_queue := mk_queue (q_list q) (q_signals q + 1).
Definition with_list (l : bt_slist) (q : bt_queue) : bt_queue := mk_queue l (q_signals q).

(** * Operations *)

Definition bt_queue_init (queue : option bt_queue) : option bt_queue :=
  match queue with None => None | Some _ => Some (mk_queue bt_slist_init 0) end.

Definition bt_queue_append (h : heap) (queue : option bt_queue) (data : ptr)
  : option (heap * option bt_queue) :=
  match queue, data with
  | Some q, Some n =>
      '(h, l) ← bt_slist_append h (q_list q) n; Some (h, Some (signal (with_list l q)))
  | _, _ => Some (h, queue)
  end.

Definition bt_queue_cancel_wait (queue : option bt_queue) : option bt_queue :=
  match queue with Some q => Some (signal q) | None => None end.

Definition bt_queue_prepend (h : heap) (queue : option bt_queue) (data : ptr)
  : option (heap * option bt_queue) :=
  match queue, data with
  | Some q, Some n =>
      '(h, l) ← bt_slist_prepend h (q_list q) n; Some (h, Some (signal (with_list l q)))
  | _, _ => Some (h, queue)
  end.

Definition pop_head_unlocked (h : heap) (q : bt_queue) : option (ptr * heap * bt_queue) :=
  '(p, h, l) ← bt_slist_get h (q_list q); Some (p, h, with_list l q).

(** What happens while the lock is released, and what [os_cond_wait] returns. *)
Definition wait_outcome : Type := list slist_op * Z.

Inductive get_result :=
  | Returned (ret : ptr) (h : heap) (queue : option bt_queue) (env : list wait_outcome)
  | Waiting (h : heap) (q : bt_queue).

(** The [while] of [bt_queue_get]; both the timed and the untimed loop leave on
    a value that is neither 0 nor [-EINTR]. *)
Fixpoint wait_loop (env : list wait_outcome) (h : heap) (q : bt_queue)
  : option (heap * bt_queue * option (list wait_outcome)) :=
  if negb (bt_slist_is_empty (q_list q)) then Some (h, q, Some env)
  else
    match env with
    | [] => Some (h, q, None)
    | (others, rc) :: env =>
        '(_, h, l) ← run_slist others h (q_list q);
        let q := with_list l q in
        if negb (rc =? 0) && negb (rc =? - EINTR) then Some (h, q, Some env)
        else wait_loop env h q
    end.

Definition bt_queue_get (h : heap) (queue : option bt_queue) (timeout : Z)
    (env : list wait_outcome) : option get_result :=
  match queue with
  | None => Some (Returned None h None env)
  | Some q =>
      '(ret, h, q) ← pop_head_unlocked h q;
      match ret with
      | Some n => Some (Returned (Some n) h (Some q) env)
      | None =>
          if timeout =? OS_TIMEOUT_NO_WAIT then Some (Returned None h (Some q) env)
          else
            '(h, q, rest) ← wait_loop env h q;
            match rest with
            | None => Some (Waiting h q)
            | Some env =>
                '(ret, h, q) ← pop_head_unlocked h q;
                Some (Returned ret h (Some q) env)
            end
      end
  end.

Definition bt_queue_peek_head (queue : option bt_queue) : ptr :=
  match queue with Some q => bt_slist_peek_head (q_list q) | None => None end.
Definition bt_queue_peek_tail (queue : option bt_queue) : ptr :=
  match queue with Some q => bt_slist_peek_tail (q_list q) | None => None end.

(** The loop of [bt_queue_remove], with the prefetched successor. *)
Fixpoint remove_loop (fuel : nat) (h : heap) (l : bt_slist) (data : Z) (prev cur nxt : ptr)
  : option (bool * heap * bt_slist) :=
  match fuel with
  | O => None
  | S fuel =>
      match cur with
      | None => Some (false, h, l)
      | Some c =>
          if c =? data then '(h, l) ← bt_slist_remove h l prev c; Some (true, h, l)
          else nn ← bt_slist_peek_next h nxt; remove_loop fuel h l data cur nxt nn
      end
  end.

Definition bt_queue_remove (h : heap) (queue : option bt_queue) (data : ptr)
  : option (bool * heap * option bt_queue) :=
  match queue, data with
  | Some q, Some n =>
      let cur := head (q_list q) in
      nxt ← bt_slist_peek_next h cur;
      '(b, h, l) ← remove_loop (walk_fuel h) h (q_list q) n None cur nxt;
      Some (b, h, Some (with_list l q))
  | _, _ => Some (false, h, queue)
  end.

(** The search of [bt_queue_unique_append]; a null [data] matches no node. *)
Fixpoint member_loop (fuel : nat) (h : heap) (data : ptr) (cur : ptr) : option bool :=
  match fuel with
  | O => None
  | S fuel =>
      match cur with
      | None => Some false
      | Some c =>
          if bool_decide (cur = data) then Some true
          else nx ← next h c; member_loop fuel h data nx
      end
  end.

Definition bt_queue_unique_append (h : heap) (queue : option bt_queue) (data : ptr)
  : option (bool * heap * option bt_queue) :=
  match queue with
  | None => Some (false, h, None)
  | Some q =>
      found ← member_loop (walk_fuel h) h data (head (q_list q));
      match (found : bool), data with
      | false, Some n =>
          '(h, l) ← bt_slist_append h (q_list q) n;
          Some (true, h, Some (signal (with_list l q)))
      | _, _ => Some (false, h, queue)
      end
  end.

Definition bt_queue_is_empty (queue : option bt_queue) : bool :=
  match queue with Some q => bt_slist_is_empty (q_list q) | None => true end.

(** * Lemmas on the two walks *)

Lemma remove_loop_spec h l ns data prev cur nxt fuel :
  seg h ns cur None -> bt_slist_peek_next h cur = Some nxt -> (length ns < fuel)%nat ->
  remove_loop fuel h l data prev cur nxt =
    ('(found, p) ← find_from fuel h data prev cur;
     if (found : bool) then '(h, l) ← bt_slist_remove h l p data; Some (true, h, l)
     else Some (false, h, l)).
Proof.
  revert prev cur nxt fuel.
  induction ns as [|n ns IH]; intros prev cur nxt [|fuel] Hs Hn Hf; simpl in Hf; try lia; simpl in Hs.
  - by subst.
  - destruct Hs as (-> & r & Hr & Hs). simpl in *. unfold next in *. rewrite Hr in Hn.
    simplify_eq. destruct (n =? data) eqn:He; [by bool_to_prop; subst|]. rewrite Hr. simpl.
    assert (is_Some (bt_slist_peek_next h nxt)) as [nn Hnn].
    { destruct ns; simpl in Hs; [by subst|]. destruct Hs as (-> & r' & Hr' & _).
      simpl. unfold next. eauto. }
    rewrite Hnn. simpl. apply IH; [done|done|lia].
Qed.

Lemma remove_loop_find h l ns data nxt :
  slist_rep h l ns -> bt_slist_peek_next h (head l) = Some nxt ->
  remove_loop (walk_fuel h) h l data None (head l) nxt = bt_slist_find_and_remove h l data.
Proof.
  intros Hrep Hn. erewrite remove_loop_spec; [done|apply Hrep|done|by eapply walk_fuel_enough].
Qed.

Lemma member_loop_spec h ns data cur fuel :
  seg h ns cur None -> (length ns < fuel)%nat ->
  member_loop fuel h data cur =
    Some (match data with Some n => bool_decide (n ∈ ns) | None => false end).
Proof.
  revert cur fuel. induction ns as [|m ns IH]; intros cur [|fuel] Hs Hf; simpl in *; try lia.
  - subst. by destruct data.
  - destruct Hs as (-> & r & Hr & Hs). unfold next. rewrite Hr. simpl.
    case_bool_decide as He.
    + subst. simpl. by rewrite bool_decide_true by (apply elem_of_cons; by left).
    + rewrite (IH r fuel) by (done || lia). f_equal. destruct data as [n|]; [|done].
      apply bool_decide_ext. rewrite elem_of_cons. naive_solver.
Qed.

Lemma remove_head_next h l ns :
  slist_rep h l ns -> is_Some (bt_slist_peek_next h (head l)).
Proof.
  intros (Hs & _). destruct ns; simpl in Hs; [rewrite Hs; simpl; eauto|].
  destruct Hs as (-> & r & Hr & _). simpl. unfold next. eauto.
Qed.

(** * Refinement: the atomic operations *)

Inductive queue_op :=
  | QAppend (data : ptr) | QPrepend (data : ptr) | QUnique (data : ptr) | QRemove (data : ptr)
  | QPoll | QPeek | QCancel.

Definition run_queue_op (op : queue_op) (h : heap) (q : bt_queue)
  : option (slist_ans * heap * option bt_queue) :=
  match op with
  | QAppend d => '(h, q) ← bt_queue_append h (Some q) d; Some (AUnit, h, q)
  | QPrepend d => '(h, q) ← bt_queue_prepend h (Some q) d; Some (AUnit, h, q)
  | QUnique d => '(b, h, q) ← bt_queue_unique_append h (Some q) d; Some (ABool b, h, q)
  | QRemove d => '(b, h, q) ← bt_queue_remove h (Some q) d; Some (ABool b, h, q)
  | QPoll =>
      r ← bt_queue_get h (Some q) OS_TIMEOUT_NO_WAIT [];
      match r with Returned p h q _ => Some (APtr p, h, q) | Waiting _ _ => None end
  | QPeek => Some (AEnds (bt_queue_peek_head (Some q)) (bt_queue_peek_tail (Some q)), h, Some q)
  | QCancel => Some (AUnit, h, bt_queue_cancel_wait (Some q))
  end.

(** The queue as a list of addresses. *)
Definition view_queue_op (op : queue_op) (ns : list Z) : slist_ans * list Z :=
  match op with
  | QAppend (Some n) => (AUnit, ns ++ [n])
  | QPrepend (Some n) => (AUnit, n :: ns)
  | QUnique (Some n) => if bool_decide (n ∈ ns) then (ABool false, ns) else (ABool true, ns ++ [n])
  | QUnique None | QRemove None => (ABool false, ns)
  | QRemove (Some n) => (ABool (bool_decide (n ∈ ns)), remove_one n ns)
  | QPoll => (APtr (List.hd_error ns), List.tl ns)
  | QPeek => (AEnds (List.hd_error ns) (list.last ns), ns)
  | QAppend None | QPrepend None | QCancel => (AUnit, ns)
  end.

(** Only [bt_queue_unique_append] tolerates a node that is already queued. *)
Definition queue_pre (d : gset Z) (op : queue_op) (ns : list Z) : Prop :=
  match op with
  | QAppend (Some n) | QPrepend (Some n) => n ∉ ns /\ n ∈ d
  | QUnique (Some n) => n ∈ d
  | _ => True
  end.

Definition queue_rep (h : heap) (q : bt_queue) (ns : list Z) : Prop := slist_rep h (q_list q) ns.

Lemma poll_spec h q ns :
  queue_rep h q ns ->
  exists h' q', pop_head_unlocked h q = Some (List.hd_error ns, h', q') /\
    queue_rep h' q' (List.tl ns) /\ dom h' = dom h.
Proof.
  intros Hrep. unfold pop_head_unlocked.
  destruct (get_spec _ _ _ Hrep) as (h' & l' & -> & Hr & _ & Hd & _). simpl. eauto 10.
Qed.

Lemma queue_op_refines op h q ns :
  queue_rep h q ns -> queue_pre (dom h) op ns ->
  exists h' q', run_queue_op op h q = Some ((view_queue_op op ns).1, h', Some q') /\
    queue_rep h' q' (view_queue_op op ns).2 /\ dom h' = dom h.
Proof.
  intros Hrep Hpre. unfold queue_rep in *.
  destruct op as [[n|]|[n|]|[n|]|[n|]| | |]; cbn [queue_pre run_queue_op view_queue_op] in *;
    rewrite ?elem_of_dom in Hpre; try by eauto 10.
  - destruct Hpre as [Hn Hd]. unfold bt_queue_append.
    destruct (append_spec _ _ _ n Hrep Hn Hd) as (h' & -> & Hr & _ & Hdm). simpl. eauto 10.
  - destruct Hpre as [Hn Hd]. unfold bt_queue_prepend.
    destruct (prepend_spec _ _ _ n Hrep Hn Hd) as [-> Hr]. simpl.
    eexists _, _. split_and!; [done|done|]. rewrite dom_insert_L.
    apply elem_of_dom in Hd. set_solver.
  - unfold bt_queue_unique_append.
    rewrite (member_loop_spec h ns) by (apply Hrep || by eapply walk_fuel_enough). simpl.
    case_bool_decide as Hn; [eauto 10|].
    destruct (append_spec _ _ _ n Hrep Hn Hpre) as (h' & -> & Hr & _ & Hdm). simpl. eauto 10.
  - unfold bt_queue_unique_append.
    rewrite (member_loop_spec h ns) by (apply Hrep || by eapply walk_fuel_enough). simpl. eauto 10.
  - unfold bt_queue_remove. destruct (remove_head_next _ _ _ Hrep) as [nx Hnx].
    rewrite Hnx. cbn [mbind option_bind]. rewrite (remove_loop_find h _ ns) by done.
    destruct (slist_op_refines (OpFindRemove n) _ _ _ Hrep I) as (h' & l' & Hrun & Hr & Hdm).
    cbn [run_slist_op list_op fst snd] in Hrun, Hr.
    destruct (bt_slist_find_and_remove h (q_list q) n) as [[[b h1] l1]|]; simplify_eq/=. eauto 10.
  - unfold bt_queue_get.
    destruct (poll_spec h q ns Hrep) as (h' & q' & -> & Hr & Hdm). simpl.
    destruct ns; simpl in *; eauto 10.
  - eexists _, _. split_and!; [|done|done]. simpl. do 3 f_equal.
    unfold bt_slist_peek_head, bt_slist_peek_tail.
    rewrite (slist_rep_head _ _ _ Hrep). by destruct Hrep as (_ & -> & _).
Qed.

Fixpoint run_queue (ops : list queue_op) (h : heap) (q : bt_queue)
  : option (list slist_ans * heap * bt_queue) :=
  match ops with
  | [] => Some ([], h, q)
  | op :: ops =>
      '(a, h, q) ← run_queue_op op h q;
      q ← q; '(r, h, q) ← run_queue ops h q; Some (a :: r, h, q)
  end.
Fixpoint run_view (ops : list queue_op) (ns : list Z) : list slist_ans * list Z :=
  match ops with
  | [] => ([], ns)
  | op :: ops =>
      let '(a, ns) := view_queue_op op ns in
      let '(r, ns) := run_view ops ns in (a :: r, ns)
  end.
Fixpoint queue_ops_pre (d : gset Z) (ops : list queue_op) (ns : list Z) : Prop :=
  match ops with
  | [] => True
  | op :: ops => queue_pre d op ns /\ queue_ops_pre d ops (view_queue_op op ns).2
  end.

#[export] Instance queue_pre_dec d op ns : Decision (queue_pre d op ns).
Proof. destruct op as [[]|[]|[]|[]| | |]; simpl; apply _. Defined.
#[export] Instance queue_ops_pre_dec d ops : forall ns, Decision (queue_ops_pre d ops ns).
Proof. induction ops as [|op ops IH]; intros ns; simpl; apply _. Defined.

(** C34: The queue is a double-ended list with removal.  Every interleaving of
    append, prepend, unique append, remove, poll, peek and cancel operations,
    null data included, runs to completion and answers as the same operations on
    a list of addresses; a node that is already queued is refused by unique
    append and must not be appended otherwise. *)
Theorem bt_queue_refines_list ops h q ns :
  queue_rep h q ns -> queue_ops_pre (dom h) ops ns ->
  exists h' q', run_queue ops h q = Some ((run_view ops ns).1, h', q') /\
    queue_rep h' q' (run_view ops ns).2 /\ dom h' = dom h.
Proof.
  revert h q ns. induction ops as [|op ops IH]; intros h q ns Hrep Hpre; simpl in *.
  - eauto 10.
  - destruct Hpre as [Hp Hpre].
    destruct (queue_op_refines op h q ns Hrep Hp) as (h1 & q1 & Hrun & Hr1 & Hd1).
    rewrite <-Hd1 in Hpre. destruct (IH h1 q1 _ Hr1 Hpre) as (h2 & q2 & Hrun2 & Hr2 & Hd2).
    rewrite Hrun. simpl. destruct (view_queue_op op ns) as [a ns1]. simpl in *.
    rewrite Hrun2. simpl. destruct (run_view ops ns1) as [r ns2]. simpl in *.
    eexists _, _. split_and!; [done|done|congruence].
Qed.

Definition empty_queue : bt_queue := mk_queue bt_slist_init 0.

Lemma bt_queue_refines_list_witness :
  exists h q, run_queue [QAppend (Some 16); QUnique (Some 32); QUnique (Some 16); QPrepend (Some 48);
                         QRemove (Some 32); QPoll; QPoll; QPoll] three_nodes empty_queue =
    Some ([AUnit; ABool true; ABool false; AUnit; ABool true; APtr (Some 48); APtr (Some 16);
           APtr None], h, q) /\ queue_rep h q [].
Proof.
  destruct (bt_queue_refines_list
    [QAppend (Some 16); QUnique (Some 32); QUnique (Some 16); QPrepend (Some 48);
     QRemove (Some 32); QPoll; QPoll; QPoll] three_nodes empty_queue []) as (h & q & H1 & H2 & _).
  - apply slist_init_rep.
  - apply (bool_decide_unpack _). vm_compute. exact I.
  - exists h, q. exact (conj H1 H2).
Defined.

(** * Waiting *)

(** The list after what other threads did in a series of waits. *)
Definition after_waits (env : list wait_outcome) (ns : list Z) : list Z :=
  foldl (fun ns w => (run_list w.1 ns).2) ns env.

Fixpoint waits_pre (d : gset Z) (env : list wait_outcome) (ns : list Z) : Prop :=
  match env with
  | [] => True
  | (others, _) :: env => ops_pre d others ns /\ waits_pre d env (run_list others ns).2
  end.

Definition wait_failed (w : wait_outcome) : bool := negb (w.2 =? 0) && negb (w.2 =? - EINTR).

Lemma wait_loop_spec env h q ns :
  queue_rep h q ns -> waits_pre (dom h) env ns ->
  exists h' q' rest, wait_loop env h q = Some (h', q', rest) /\
    match rest with
    | Some rest => exists pre, env = pre ++ rest /\ queue_rep h' q' (after_waits pre ns) /\
        (after_waits pre ns = [] -> exists pre' w, pre = pre' ++ [w] /\ wait_failed w = true)
    | None => queue_rep h' q' [] /\ after_waits env ns = [] /\
              Forall (fun w => wait_failed w = false) env
    end.
Proof.
  revert h q ns. induction env as [|[others rc] env IH]; intros h q ns Hrep Hpre; simpl;
    unfold bt_slist_is_empty; rewrite (slist_rep_head _ _ _ Hrep);
    (destruct ns as [|n ns]; simpl;
      [|eexists _, _, _; split; [done|]; exists []; split_and!; [done|done|done]]).
  - eexists _, _, _. split; [done|]. split_and!; [done|done|constructor].
  - destruct Hpre as [Hp Hpre].
    destruct (slist_refines_list_core others h (q_list q) [] Hrep Hp) as (h1 & l1 & -> & Hr1 & Hd1).
    simpl. set (q1 := with_list l1 q). assert (queue_rep h1 q1 (run_list others []).2) by done.
    destruct (negb (rc =? 0) && negb (rc =? - EINTR)) eqn:Hrc.
    + eexists _, _, _. split; [done|]. exists [(others, rc)]. split_and!; [done|done|].
      intros _. exists [], (others, rc). done.
    + rewrite <-Hd1 in Hpre. destruct (IH h1 q1 _ H Hpre) as (h2 & q2 & rest & -> & Hrest).
      eexists _, _, _. split; [done|]. destruct rest as [rest|].
      * destruct Hrest as (pre & -> & Hr2 & Hlast). exists ((others, rc) :: pre).
        split_and!; [done|done|]. intros He. destruct (Hlast He) as (pre' & w & -> & Hw).
        exists ((others, rc) :: pre'), w. done.
      * destruct Hrest as (Hr2 & Ha & Hall). split_and!; [done|done|]. by constructor.
Qed.

(** The blocking get.  Whatever other threads do to the queue while the
    caller waits: the call returns the oldest element of the list as it stands
    after the waits it went through, and leaves the rest in order; it returns
    NULL only if that list is empty and the last wait failed (a timeout or an
    error); and it is still waiting only if every wait so far returned normally
    and the list is empty. *)
Theorem bt_queue_get_blocking h q ns timeout env :
  queue_rep h q ns -> waits_pre (dom h) env ns -> timeout <> OS_TIMEOUT_NO_WAIT ->
  exists r, bt_queue_get h (Some q) timeout env = Some r /\
    match r with
    | Returned ret h' q' rest => exists pre q1,
        env = pre ++ rest /\ ret = List.hd_error (after_waits pre ns) /\
        q' = Some q1 /\ queue_rep h' q1 (List.tl (after_waits pre ns)) /\
        (ret = None -> exists pre' w, pre = pre' ++ [w] /\ wait_failed w = true)
    | Waiting h' q' => queue_rep h' q' [] /\ after_waits env ns = [] /\
        Forall (fun w => wait_failed w = false) env
    end.
Proof.
  intros Hrep Hpre Ht. unfold bt_queue_get.
  destruct (poll_spec h q ns Hrep) as (h1 & q1 & -> & Hr1 & Hd1). cbn [mbind option_bind].
  destruct ns as [|n ns]; simpl List.hd_error in *; simpl List.tl in *.
  - rewrite (proj2 (Z.eqb_neq _ _)) by done. rewrite <-Hd1 in Hpre.
    destruct (wait_loop_spec env h1 q1 [] Hr1 Hpre) as (h2 & q2 & [rest|] & -> & Hrest);
      cbn [mbind option_bind]; [|by eauto].
    destruct Hrest as (pre & -> & Hr2 & Hlast).
    destruct (poll_spec h2 q2 _ Hr2) as (h3 & q3 & -> & Hr3 & _). cbn [mbind option_bind].
    eexists. split; [done|]. exists pre, q3. split_and!; [done|done|done|done|].
    intros Hnone. apply Hlast. by destruct (after_waits pre []).
  - eexists. split; [done|]. exists [], q1. done.
Qed.

Definition sample_waits : list wait_outcome :=
  [([], 0); ([OpAppend 16; OpGet], 0); ([OpAppend 32; OpAppend 48], - EINTR); ([], 0)].

#[export] Instance waits_pre_dec d env : forall ns, Decision (waits_pre d env ns).
Proof. induction env as [|[o rc] env IH]; intros ns; simpl; apply _. Defined.

Lemma bt_queue_get_blocking_witness :
  exists h q, bt_queue_get three_nodes (Some empty_queue) OS_TIMEOUT_FOREVER sample_waits =
    Some (Returned (Some 32) h (Some q) [([], 0)]).
Proof.
  destruct (bt_queue_get_blocking three_nodes empty_queue [] OS_TIMEOUT_FOREVER sample_waits)
    as (r & H & _).
  - apply slist_init_rep.
  - apply (bool_decide_unpack _). vm_compute. exact I.
  - discriminate.
  - rewrite H. revert H. vm_compute. intros [= <-]. eauto.
Defined.

(** [bt_queue_cancel_wait] signals the condition variable, but the waiting
    thread re-checks the list, finds it empty and waits again: any number of
    cancellations leaves it blocked. *)
Theorem bt_queue_cancel_wait_ignored k h timeout :
  timeout <> OS_TIMEOUT_NO_WAIT ->
  bt_queue_get h (Some empty_queue) timeout (replicate k ([], 0)) = Some (Waiting h empty_queue).
Proof.
  intros Ht. unfold bt_queue_get, pop_head_unlocked, empty_queue. simpl.
  rewrite (proj2 (Z.eqb_neq _ _)) by done.
  assert (forall q, q_list q = bt_slist_init ->
    wait_loop (replicate k ([], 0)) h q = Some (h, q, None)) as ->; [|done|done].
  induction k as [|k IH]; intros q Hq; simpl; rewrite Hq; simpl; [done|].
  rewrite IH by done. destruct q. simpl in *. by subst.
Qed.
