(* ===== verification/MemPool.v ===== *)
(** Fixed-block memory pools: [base/bt_mem_pool.c].

    The free blocks form a list through their first words, the cells of
    [Slist.heap].  All pools share one lock, which [bt_mem_pool_alloc] keeps
    while it waits on the pool's semaphore; the machine at the end interleaves
    the calls of several threads with that lock. *)

From stdpp Require Import gmap.
From S2P Require Import Prelude Slist Queue.

Record bt_mem_pool := mk_pool {
  mp_buffer : Z;
  mp_free_list : ptr;
  mp_block_size : Z;
  mp_num_blocks : Z;   (** uint32_t *)
  mp_num_used : Z;     (** uint32_t *)
  mp_wait : Z          (** count of the semaphore, at most 1 *)
}.

Definition set_free (f : ptr) (used : Z) (p : bt_mem_pool) : bt_mem_pool :=
  mk_pool (mp_buffer p) f (mp_block_size p) (mp_num_blocks p) used (mp_wait p).
Definition set_wait (n : Z) (p : bt_mem_pool) : bt_mem_pool :=
  mk_pool (mp_buffer p) (mp_free_list p) (mp_block_size p) (mp_num_blocks p) (mp_num_used p) n.

Definition WB_UP (x : Z) : Z := (x + 7) / 8 * 8.

(** * Operations *)

(** The [while (p >= mpool->buffer)] loop, which threads the blocks from the
    last to the first. *)
Fixpoint create_loop (fuel : nat) (h : heap) (buffer block_size p : Z) (free_list : ptr)
  : option (heap * ptr) :=
  match fuel with
  | O => None
  | S fuel =>
      if buffer <=? p then
        h ← set_next h p free_list;
        create_loop fuel h buffer block_size (p - block_size) (Some p)
      else Some (h, free_list)
  end.

Definition create_mem_pool_list (h : heap) (mpool : bt_mem_pool)
  : option (Z * heap * bt_mem_pool) :=
  let mpool := set_wait 0 mpool in
  if negb (Z.land (Z.lor (mp_block_size mpool) (mp_buffer mpool)) 7 =? 0)
  then Some (- EINVAL, h, mpool)
  else
    let p := mp_buffer mpool + mp_block_size mpool * u32 (mp_num_blocks mpool - 1) in
    '(h, f) ← create_loop (S (Z.to_nat (mp_num_blocks mpool))) h (mp_buffer mpool)
                (mp_block_size mpool) p None;
    Some (0, h, set_free f (mp_num_used mpool) mpool).

Definition bt_mem_pool_init (h : heap) (mpool : bt_mem_pool) (buffer block_size num_blocks : Z)
  : option (Z * heap * bt_mem_pool) :=
  create_mem_pool_list h
    (mk_pool buffer (mp_free_list mpool) (WB_UP block_size) (u32 num_blocks) (mp_num_used mpool)
       (mp_wait mpool)).

Inductive alloc_outcome :=
  | AllocDone (rc : Z) (mem : ptr) (p : bt_mem_pool)
  | AllocAbort                       (** the assertion fails *)
  | AllocWaits.                      (** in [os_sem_take], the lock held *)

(** Hands out the head of the free list, whose first word is the next head. *)
Definition take_block (h : heap) (mpool : bt_mem_pool) (b : Z) : option alloc_outcome :=
  nx ← next h b;
  Some (AllocDone 0 (Some b) (set_free nx (u32 (mp_num_used mpool + 1)) mpool)).

(** What follows the return of [os_sem_take]. *)
Definition alloc_after_take (h : heap) (mpool : bt_mem_pool) (result : Z)
  : option alloc_outcome :=
  if negb (result =? 0) then Some (AllocDone result None mpool)
  else match mp_free_list mpool with
       | None => Some AllocAbort
       | Some b => take_block h mpool b
       end.

(** A positive semaphore count is taken at once; otherwise the caller waits. *)
Definition bt_mem_pool_alloc (h : heap) (mpool : bt_mem_pool) (timeout : Z)
  : option alloc_outcome :=
  match mp_free_list mpool with
  | Some b => take_block h mpool b
  | None =>
      if timeout =? OS_TIMEOUT_NO_WAIT then Some (AllocDone (- ENOMEM) None mpool)
      else if 0 <? mp_wait mpool
      then alloc_after_take h (set_wait (mp_wait mpool - 1) mpool) 0
      else Some AllocWaits
  end.

(** [os_sem_give] saturates at the limit 1. *)
Definition bt_mem_pool_free (h : heap) (mpool : bt_mem_pool) (mem : Z)
  : option (heap * bt_mem_pool) :=
  h ← set_next h mem (mp_free_list mpool);
  Some (h, set_wait (Z.min 1 (mp_wait mpool + 1))
             (set_free (Some mem) (u32 (mp_num_used mpool - 1)) mpool)).

(** * Building the free list *)

(** Addresses of the blocks from index [i] to the end. *)
Fixpoint blocks_from (buffer block_size : Z) (i : Z) (n : nat) : list Z :=
  match n with
  | O => []
  | S n => buffer + block_size * i :: blocks_from buffer block_size (i + 1) n
  end.

Lemma blocks_from_snoc buffer bs i n :
  blocks_from buffer bs i (S n) = blocks_from buffer bs i n ++ [buffer + bs * (i + Z.of_nat n)].
Proof.
  revert i. induction n as [|n IH]; intros i.
  - simpl. f_equal. f_equal. f_equal. lia.
  - change (blocks_from buffer bs i (S (S n)))
      with (buffer + bs * i :: blocks_from buffer bs (i + 1) (S n)).
    rewrite IH. simpl. do 2 f_equal. f_equal. f_equal. f_equal. lia.
Qed.

Lemma elem_of_blocks buffer bs i n b :
  b ∈ blocks_from buffer bs i n <-> exists k, i <= k < i + Z.of_nat n /\ b = buffer + bs * k.
Proof.
  revert i. induction n as [|n IH]; intros i; simpl.
  - rewrite elem_of_nil. split; [done|]. intros (k & ? & _). lia.
  - rewrite elem_of_cons, IH. split.
    + intros [->|(k & ? & ->)]; [exists i|exists k]; split; (done || lia).
    + intros (k & ? & ->). destruct (decide (k = i)) as [->|]; [by left|].
      right. exists k. split; [lia|done].
Qed.

Lemma blocks_nodup buffer bs i n : 0 < bs -> NoDup (blocks_from buffer bs i n).
Proof.
  intros Hbs. revert i. induction n as [|n IH]; intros i; simpl; [constructor|].
  constructor; [|apply IH]. rewrite elem_of_blocks. intros (k & ? & ?). nia.
Qed.

Lemma blocks_length buffer bs i n : length (blocks_from buffer bs i n) = n.
Proof. revert i. induction n as [|n IH]; intros i; simpl; [done|]. by rewrite IH. Qed.

(** Threading the blocks [0 .. n) in front of a list that starts at [f]. *)
Lemma create_loop_spec n fuel h buffer bs f ns :
  0 < bs -> (n < fuel)%nat ->
  (forall b, b ∈ blocks_from buffer bs 0 n -> is_Some (h !! b)) ->
  (forall b, b ∈ blocks_from buffer bs 0 n -> b ∉ ns) ->
  seg h ns f None ->
  exists h' f', create_loop fuel h buffer bs (buffer + bs * (Z.of_nat n - 1)) f = Some (h', f') /\
    seg h' (blocks_from buffer bs 0 n ++ ns) f' None /\ dom h' = dom h.
Proof.
  intros Hbs. revert fuel h f ns. induction n as [|n IH]; intros fuel h f ns Hf Hdom Hni Hseg;
    (destruct fuel as [|fuel]; [lia|]); simpl create_loop.
  - rewrite (proj2 (Z.leb_gt _ _)) by nia. eauto.
  - rewrite (proj2 (Z.leb_le _ _)) by nia.
    set (p := buffer + bs * (Z.of_nat (S n) - 1)).
    assert (blocks_from buffer bs 0 (S n) = blocks_from buffer bs 0 n ++ [p]) as Hb.
    { rewrite blocks_from_snoc. unfold p. do 2 f_equal. lia. }
    rewrite Hb in *. setoid_rewrite elem_of_app in Hdom. setoid_rewrite elem_of_app in Hni.
    setoid_rewrite list_elem_of_singleton in Hdom. setoid_rewrite list_elem_of_singleton in Hni.
    rewrite set_next_some by (apply Hdom; by right). simpl.
    replace (p - bs) with (buffer + bs * (Z.of_nat n - 1)) by (unfold p; lia).
    pose proof (blocks_nodup buffer bs 0 (S n) Hbs) as Hnd. rewrite Hb in Hnd.
    apply NoDup_app in Hnd as (_ & Hnp & _).
    destruct (IH fuel (<[p := f]> h) (Some p) (p :: ns)) as (h' & f' & Hrun & Hs & Hd).
    + lia.
    + intros b Hin. destruct (decide (b = p)) as [->|?]; [rewrite lookup_insert_eq; eauto|].
      rewrite lookup_insert_ne by done. apply Hdom. by left.
    + intros b Hin [->|Hin']%elem_of_cons.
      * apply (Hnp p Hin). by apply list_elem_of_singleton.
      * apply (Hni b); [by left|done].
    + simpl. split; [done|]. exists f. rewrite lookup_insert_eq. split; [done|].
      apply seg_insert_ne; [|done]. apply Hni. by right.
    + exists h', f'. split_and!; [done| |].
      * by rewrite <-app_assoc.
      * rewrite Hd, dom_insert_L. assert (is_Some (h !! p)) as Hp by (apply Hdom; by right).
        apply elem_of_dom in Hp. set_solver.
Qed.

(** * Several threads on one pool *)

(** [ms_lock] is the thread that waits in [os_sem_take], with its timeout: the
    only point at which the lock is held between two steps.  [ms_used] is
    history: the blocks handed out and not returned. *)
Record mp_state := mk_ms {
  ms_heap : heap;
  ms_pool : bt_mem_pool;
  ms_lock : option (nat * Z);
  ms_used : gset Z
}.

Inductive mp_event :=
  | EvAlloc (t : nat) (timeout : Z)
  | EvFree (b : Z)
  | EvTakeReturns (rc : Z)          (** of the waiting thread *)
  | EvWrite (b : Z) (v : ptr).      (** a thread writes into a block it owns *)

Inductive mp_answer := GotBlock (b : Z) | Failed (rc : Z) | Waits | Abort | NoAnswer.

Definition finish (s : mp_state) (o : alloc_outcome) (who : nat * Z) : mp_answer * mp_state :=
  match o with
  | AllocDone rc (Some b) p =>
      (GotBlock b, mk_ms (ms_heap s) p None ({[b]} ∪ ms_used s))
  | AllocDone rc None p => (Failed rc, mk_ms (ms_heap s) p None (ms_used s))
  | AllocAbort => (Abort, s)
  | AllocWaits => (Waits, mk_ms (ms_heap s) (ms_pool s) (Some who) (ms_used s))
  end.

(** When the environment can take a step: the lock is free for a call, a block
    is returned or written by its owner only, a waiting [os_sem_take] returns 0
    only if the count is positive, and an error otherwise. *)
Definition mp_enabled (s : mp_state) (ev : mp_event) : Prop :=
  match ev with
  | EvAlloc _ _ => ms_lock s = None
  | EvFree b => ms_lock s = None /\ b ∈ ms_used s
  | EvTakeReturns rc =>
      match ms_lock s with
      | Some (_, timeout) =>
          (rc = 0 -> 0 < mp_wait (ms_pool s)) /\ (timeout = OS_TIMEOUT_FOREVER -> rc <> - ETIMEDOUT)
      | None => False
      end
  | EvWrite b _ => b ∈ ms_used s
  end.

Definition mp_step (s : mp_state) (ev : mp_event) : option (mp_answer * mp_state) :=
  match ev with
  | EvAlloc t timeout =>
      o ← bt_mem_pool_alloc (ms_heap s) (ms_pool s) timeout;
      Some (finish s o (t, timeout))
  | EvFree b =>
      '(h, p) ← bt_mem_pool_free (ms_heap s) (ms_pool s) b;
      Some (NoAnswer, mk_ms h p None (ms_used s ∖ {[b]}))
  | EvTakeReturns rc =>
      let p := if rc =? 0 then set_wait (mp_wait (ms_pool s) - 1) (ms_pool s) else ms_pool s in
      o ← alloc_after_take (ms_heap s) p rc;
      Some (finish s o (O, 0))
  | EvWrite b v =>
      h ← set_next (ms_heap s) b v;
      Some (NoAnswer, mk_ms h (ms_pool s) (ms_lock s) (ms_used s))
  end.

Definition all_blocks (p : bt_mem_pool) : gset Z :=
  list_to_set (blocks_from (mp_buffer p) (mp_block_size p) 0 (Z.to_nat (mp_num_blocks p))).

Record mp_inv (s : mp_state) : Prop := {
  mi_free : exists ns, seg (ms_heap s) ns (mp_free_list (ms_pool s)) None /\ NoDup ns /\
              list_to_set ns = all_blocks (ms_pool s) ∖ ms_used s;
  mi_used : ms_used s ⊆ all_blocks (ms_pool s);
  mi_dom : all_blocks (ms_pool s) ⊆ dom (ms_heap s);
  mi_count : mp_num_used (ms_pool s) = Z.of_nat (size (ms_used s));
  mi_size : 0 < mp_block_size (ms_pool s) /\ 0 <= mp_num_blocks (ms_pool s) < 2 ^ 32;
  mi_sem : 0 <= mp_wait (ms_pool s) <= 1
}.

Lemma size_all_blocks p :
  0 < mp_block_size p -> size (all_blocks p) = Z.to_nat (mp_num_blocks p).
Proof.
  intros. unfold all_blocks. rewrite size_list_to_set by by apply blocks_nodup.
  apply blocks_length.
Qed.

Lemma num_used_bound s : mp_inv s -> Z.of_nat (size (ms_used s)) <= mp_num_blocks (ms_pool s).
Proof.
  intros [_ Hu _ _ [Hb ?] _]. apply subseteq_size in Hu. rewrite size_all_blocks in Hu by done. lia.
Qed.

(** Taking the head of the free list. *)
Lemma take_block_spec s b w :
  mp_inv s -> mp_free_list (ms_pool s) = Some b -> 0 <= w <= 1 ->
  exists p, take_block (ms_heap s) (set_wait w (ms_pool s)) b = Some (AllocDone 0 (Some b) p) /\
    all_blocks p = all_blocks (ms_pool s) /\ b ∈ all_blocks p ∖ ms_used s /\
    mp_inv (mk_ms (ms_heap s) p None ({[b]} ∪ ms_used s)).
Proof.
  intros Hinv Hf Hw. pose proof (num_used_bound s Hinv) as Hbound.
  destruct Hinv as [(ns & Hs & Hnd & Hset) Hu Hd Hc Hsz Hsem].
  rewrite Hf in Hs. destruct ns as [|m ns]; simpl in Hs; [done|].
  destruct Hs as ([= <-] & nx & Hnx & Hs). apply NoDup_cons in Hnd as [Hb Hnd].
  assert (b ∈ all_blocks (ms_pool s) ∖ ms_used s) as Hin by (rewrite <-Hset; set_solver).
  apply elem_of_difference in Hin as [Hba Hbu].
  assert (size ({[b]} ∪ ms_used s) = S (size (ms_used s))) as Hsize.
  { rewrite size_union by set_solver. rewrite size_singleton. lia. }
  assert (S (size (ms_used s)) <= Z.to_nat (mp_num_blocks (ms_pool s)))%nat as Hle.
  { rewrite <-Hsize, <-size_all_blocks by apply Hsz. apply subseteq_size. set_solver. }
  unfold take_block, next. rewrite Hnx. simpl. eexists. split; [done|].
  split_and!; [done|set_solver|]. split; simpl.
  - exists ns. split_and!; [done|done|]. fold (all_blocks (ms_pool s)).
    change (all_blocks (set_free _ _ _)) with (all_blocks (ms_pool s)).
    assert (list_to_set ns = list_to_set (b :: ns) ∖ {[b]} :> gset Z) as -> by (simpl; set_solver).
    rewrite Hset. set_solver.
  - change (all_blocks (set_free _ _ _)) with (all_blocks (ms_pool s)). set_solver.
  - done.
  - rewrite Hsize, Hc. rewrite u32_id by lia. lia.
  - done.
  - done.
Qed.

Lemma mp_inv_unlock s s' : mp_inv s ->
  ms_heap s' = ms_heap s -> ms_pool s' = ms_pool s -> ms_used s' = ms_used s -> mp_inv s'.
Proof. intros [] H1 H2 H3. split; rewrite ?H1, ?H2, ?H3; done. Qed.

Lemma mp_inv_wait s w : mp_inv s -> 0 <= w <= 1 ->
  mp_inv (mk_ms (ms_heap s) (set_wait w (ms_pool s)) None (ms_used s)).
Proof. intros [] ?. by split. Qed.

Lemma no_free_all_used s :
  mp_inv s -> mp_free_list (ms_pool s) = None -> ms_used s = all_blocks (ms_pool s).
Proof.
  intros [(ns & Hs & _ & Hset) Hu _ _ _ _] Hf. rewrite Hf in Hs.
  destruct ns; [|by destruct Hs]. simpl in Hset. apply set_eq. intros x.
  split; [by apply Hu|]. intros Hx. destruct (decide (x ∈ ms_used s)) as [|Hn]; [done|].
  assert (x ∈ (∅ : gset Z)) as H; [|by apply elem_of_empty in H].
  rewrite Hset. by apply elem_of_difference.
Qed.

(** Returning a block. *)
Lemma free_spec s b :
  mp_inv s -> b ∈ ms_used s ->
  exists h p, bt_mem_pool_free (ms_heap s) (ms_pool s) b = Some (h, p) /\
    all_blocks p = all_blocks (ms_pool s) /\ mp_free_list p = Some b /\
    mp_inv (mk_ms h p None (ms_used s ∖ {[b]})).
Proof.
  intros Hinv Hb. pose proof (num_used_bound s Hinv) as Hbound.
  destruct Hinv as [(ns & Hs & Hnd & Hset) Hu Hd Hc Hsz Hsem].
  assert (b ∈ dom (ms_heap s)) as Hdom by set_solver.
  assert (b ∉ ns) as Hni.
  { intros Hin. assert (b ∈ (list_to_set ns : gset Z)) as H by (by apply elem_of_list_to_set).
    rewrite Hset in H. set_solver. }
  assert (size (ms_used s) = S (size (ms_used s ∖ {[b]}))) as Hsize.
  { rewrite size_difference by set_solver. rewrite size_singleton.
    assert (size (ms_used s) <> O); [|lia]. intros H0%size_empty_inv. set_solver. }
  unfold bt_mem_pool_free. rewrite set_next_some by (by apply elem_of_dom). simpl.
  eexists _, _. split_and!; [done|done|done|]. split; simpl.
  - exists (b :: ns). split_and!.
    + simpl. split; [done|]. eexists. rewrite lookup_insert_eq. split; [done|].
      by apply seg_insert_ne.
    + by constructor.
    + simpl. rewrite Hset. change (all_blocks (set_wait _ _)) with (all_blocks (ms_pool s)).
      apply set_eq. intros x. rewrite elem_of_union, elem_of_singleton, !elem_of_difference.
      rewrite elem_of_singleton. destruct (decide (x = b)) as [->|]; set_solver.
  - change (all_blocks (set_wait _ _)) with (all_blocks (ms_pool s)). set_solver.
  - change (all_blocks (set_wait _ _)) with (all_blocks (ms_pool s)).
    rewrite dom_insert_L. set_solver.
  - rewrite Hc, Hsize. rewrite u32_id by lia. lia.
  - done.
  - lia.
Qed.

(** What a caller may rely on for the answer of a step. *)
Definition answer_ok (s : mp_state) (a : mp_answer) (s' : mp_state) : Prop :=
  match a with
  | GotBlock b => b ∈ all_blocks (ms_pool s) /\ b ∉ ms_used s /\ ms_used s' = {[b]} ∪ ms_used s
  | Failed rc =>
      ms_used s' = ms_used s /\
      (rc = - ENOMEM -> ms_lock s = None -> ms_used s = all_blocks (ms_pool s))
  | Waits | Abort => ms_used s' = ms_used s /\ ms_used s = all_blocks (ms_pool s)
  | NoAnswer => True
  end.

Lemma finish_take s w who :
  mp_inv s -> 0 <= w <= 1 ->
  exists o, (match mp_free_list (ms_pool s) with
             | None => Some AllocAbort
             | Some b => take_block (ms_heap s) (set_wait w (ms_pool s)) b
             end) = Some o /\
    let '(a, s') := finish s o who in
    answer_ok s a s' /\ mp_inv s' /\ all_blocks (ms_pool s') = all_blocks (ms_pool s).
Proof.
  intros Hinv Hw. destruct (mp_free_list (ms_pool s)) as [b|] eqn:Hf.
  - destruct (take_block_spec s b w Hinv Hf Hw) as (p & -> & Hall & Hb & Hinv').
    eexists. split; [done|]. simpl. rewrite Hall in Hb. apply elem_of_difference in Hb as [? ?].
    done.
  - eexists. split; [done|]. simpl. by rewrite (no_free_all_used s).
Qed.

Lemma mp_step_spec s ev :
  mp_inv s -> mp_enabled s ev ->
  exists a s', mp_step s ev = Some (a, s') /\ answer_ok s a s' /\ mp_inv s' /\
    all_blocks (ms_pool s') = all_blocks (ms_pool s).
Proof.
  intros Hinv Hen. pose proof (mi_sem s Hinv) as Hsem.
  destruct ev as [t timeout|b|rc|b v]; simpl in *.
  - unfold bt_mem_pool_alloc. destruct (mp_free_list (ms_pool s)) as [b|] eqn:Hf.
    + destruct (take_block_spec s b (mp_wait (ms_pool s)) Hinv Hf Hsem)
        as (p & Htake & Hall & Hb & Hinv').
      assert (set_wait (mp_wait (ms_pool s)) (ms_pool s) = ms_pool s) as Heq
        by (by destruct (ms_pool s)).
      rewrite Heq in Htake. rewrite Htake. simpl. rewrite Hall in Hb.
      apply elem_of_difference in Hb as [? ?]. eexists _, _. split; [done|]. done.
    + pose proof (no_free_all_used s Hinv Hf) as Hfull.
      destruct (timeout =? OS_TIMEOUT_NO_WAIT).
      { simpl. eexists _, _. split; [done|]. split_and!; [done|by eapply mp_inv_unlock|done]. }
      destruct (0 <? mp_wait (ms_pool s)) eqn:Hp; bool_to_prop.
      * unfold alloc_after_take. simpl. rewrite Hf. simpl. eexists _, _. split; [done|]. done.
      * simpl. eexists _, _. split; [done|]. split_and!; [done|by eapply mp_inv_unlock|done].
  - destruct Hen as [_ Hb]. destruct (free_spec s b Hinv Hb) as (h & p & -> & Hall & _ & Hinv').
    simpl. eexists _, _. split; [done|]. done.
  - destruct (ms_lock s) as [[t timeout]|] eqn:Hl; [|done]. destruct Hen as [Hpos _].
    unfold alloc_after_take. destruct (rc =? 0) eqn:Hrc; bool_to_prop; simpl.
    + specialize (Hpos Hrc).
      destruct (finish_take s (mp_wait (ms_pool s) - 1) (O, 0) Hinv) as (o & Ho & Hfin); [lia|].
      rewrite Ho. simpl. destruct (finish s o (O, 0)) as [a s']. eauto 10.
    + eexists _, _. split; [done|]. simpl. split_and!; [done| |by eapply mp_inv_unlock|done].
      congruence.
  - assert (is_Some (ms_heap s !! b)) as Hd.
    { apply elem_of_dom, (mi_dom s Hinv), (mi_used s Hinv), Hen. }
    rewrite set_next_some by done. simpl. eexists _, _. split; [done|]. split_and!; [done| |done].
    destruct Hinv as [(ns & Hs & Hnd & Hset) Hu Hdom Hc Hsz Hsm]. split; simpl; try done.
    + exists ns. split_and!; [|done|done]. apply seg_insert_ne; [|done]. intros Hin.
      assert (b ∈ (list_to_set ns : gset Z)) as H by (by apply elem_of_list_to_set).
      rewrite Hset in H. set_solver.
    + rewrite dom_insert_L. set_solver.
Qed.

(** ** Initialisation *)

Lemma WB_UP_aligned x : WB_UP x = 8 * ((x + 7) / 8).
Proof. unfold WB_UP. lia. Qed.

Lemma land_aligned a b : Z.land (Z.lor (8 * a) (8 * b)) 7 = 0.
Proof.
  replace 7 with (Z.ones 3) by done.
  rewrite !(Z.mul_comm 8), <-!(Z.shiftl_mul_pow2 _ 3) by lia.
  rewrite <-Z.shiftl_lor, Z.land_ones by lia. rewrite Z.shiftl_mul_pow2 by lia.
  apply Z.mod_mul. lia.
Qed.

Lemma init_spec h p0 buffer size n :
  0 < size -> 1 <= n < 2 ^ 32 -> buffer mod 8 = 0 -> mp_num_used p0 = 0 ->
  (forall b, b ∈ blocks_from buffer (WB_UP size) 0 (Z.to_nat n) -> is_Some (h !! b)) ->
  exists h' p, bt_mem_pool_init h p0 buffer size n = Some (0, h', p) /\
    mp_inv (mk_ms h' p None ∅) /\
    all_blocks p = list_to_set (blocks_from buffer (WB_UP size) 0 (Z.to_nat n)).
Proof.
  intros Hsz Hn Hal Hu0 Hdom. unfold bt_mem_pool_init, create_mem_pool_list. simpl.
  assert (0 < WB_UP size) as Hbs by (rewrite WB_UP_aligned; pose proof (Z.div_str_pos (size + 7) 8); lia).
  assert (Z.land (Z.lor (WB_UP size) buffer) 7 =? 0 = true) as ->.
  { apply Z.eqb_eq. rewrite WB_UP_aligned.
    replace buffer with (8 * (buffer / 8)) by (pose proof (Z.div_mod buffer 8); lia).
    apply land_aligned. }
  simpl. rewrite (u32_id n) by lia. rewrite u32_id by lia.
  destruct (create_loop_spec (Z.to_nat n) (S (Z.to_nat n)) h buffer (WB_UP size) None [])
    as (h' & f & Hrun & Hs & Hd); [done|lia|done|set_solver|done|].
  replace (Z.of_nat (Z.to_nat n) - 1) with (n - 1) in Hrun by lia.
  cbn [create_loop] in *. rewrite Hrun. simpl.
  eexists _, _. split; [done|]. rewrite app_nil_r in Hs. split; [|done].
  split; simpl.
  - eexists. split_and!; [exact Hs|by apply blocks_nodup|]. unfold all_blocks. simpl. set_solver.
  - set_solver.
  - intros b Hb%elem_of_list_to_set. rewrite Hd. by apply elem_of_dom, Hdom.
  - rewrite Hu0. done.
  - lia.
  - lia.
Qed.

(** States of a pool between its initialisation and an abort. *)
Inductive mp_reach : mp_state -> Prop :=
  | reach_init h p0 buffer size n h' p :
      0 < size -> 1 <= n < 2 ^ 32 -> buffer mod 8 = 0 -> mp_num_used p0 = 0 ->
      (forall b, b ∈ blocks_from buffer (WB_UP size) 0 (Z.to_nat n) -> is_Some (h !! b)) ->
      bt_mem_pool_init h p0 buffer size n = Some (0, h', p) ->
      mp_reach (mk_ms h' p None ∅)
  | reach_step s ev a s' :
      mp_reach s -> mp_enabled s ev -> mp_step s ev = Some (a, s') -> a <> Abort -> mp_reach s'.

Lemma mp_reach_inv s : mp_reach s -> mp_inv s.
Proof.
  induction 1 as [h p0 buffer size n h' p H1 H2 H3 H4 H5 Hinit|s ev a s' _ IH Hen Hst _].
  - destruct (init_spec h p0 buffer size n H1 H2 H3 H4 H5) as (h'' & p' & Heq & Hinv & _).
    rewrite Hinit in Heq. by simplify_eq.
  - destruct (mp_step_spec s ev IH Hen) as (a' & s'' & Heq & _ & Hinv & _).
    rewrite Hst in Heq. by simplify_eq.
Qed.

(** C23: The allocator is safe for every interleaving of its callers, who may
    overwrite the blocks they own.  From any reachable state every enabled step
    stays within the pool's memory; a block handed out is a block of the pool
    that nobody owns, and becomes owned; -ENOMEM and waiting mean that every
    block is owned; the free list holds exactly the blocks nobody owns, each
    once, and the use count is the number of owned blocks. *)
Theorem bt_mem_pool_safe s ev :
  mp_reach s -> mp_enabled s ev ->
  exists a s', mp_step s ev = Some (a, s') /\ answer_ok s a s' /\ mp_inv s' /\
    all_blocks (ms_pool s') = all_blocks (ms_pool s).
Proof. intros Hr. by apply mp_step_spec, mp_reach_inv. Qed.

(** ** Waiting under the lock *)

(** A wait that starts is never served.  The waiting thread keeps the lock
    that [bt_mem_pool_free] needs, so as long as it waits the semaphore stays at
    0 and its [os_sem_take] cannot succeed: a waiting allocation with an
    infinite timeout can only end by an error of the semaphore, and stays the
    holder of the lock of every pool until then, whatever the other threads try
    to do. *)
Theorem bt_mem_pool_wait_never_served s t timeout s' :
  mp_wait (ms_pool s) = 0 -> ms_lock s = Some (t, timeout) ->
  rtc (fun s1 s2 => exists ev a, mp_enabled s1 ev /\ mp_step s1 ev = Some (a, s2) /\
                     forall rc, ev <> EvTakeReturns rc) s s' ->
  ms_lock s' = Some (t, timeout) /\ mp_free_list (ms_pool s') = mp_free_list (ms_pool s) /\
  ~ mp_enabled s' (EvTakeReturns 0) /\
  (forall t' to, ~ mp_enabled s' (EvAlloc t' to)) /\ (forall b, ~ mp_enabled s' (EvFree b)).
Proof.
  intros Hw Hl Hrun.
  assert (ms_lock s' = Some (t, timeout) /\ ms_pool s' = ms_pool s) as [Hl' Hp'].
  { induction Hrun as [s|s s1 s' (ev & a & Hen & Hst & Hne) Hrun IH]; [done|].
    destruct ev as [t1 to|b|rc|b v]; simpl in Hen; [congruence|destruct Hen; congruence| |].
    - by destruct (Hne rc).
    - simpl in Hst. destruct (set_next (ms_heap s) b v); simplify_eq/=. by apply IH. }
  split_and!; [done|by rewrite Hp'| | |]; simpl; rewrite Hl', ?Hp', ?Hw; naive_solver lia.
Qed.

Definition one_block : heap := {[ 64 := None ]}.
Definition pool0 : bt_mem_pool := mk_pool 0 None 0 0 0 0.

(** Runs a sequence of steps. *)
Fixpoint mp_run (s : mp_state) (evs : list mp_event) : option (list mp_answer * mp_state) :=
  match evs with
  | [] => Some ([], s)
  | ev :: evs => '(a, s) ← mp_step s ev; '(r, s) ← mp_run s evs; Some (a :: r, s)
  end.

Definition pool1 : mp_state :=
  match bt_mem_pool_init one_block pool0 64 20 1 with
  | Some (_, h, p) => mk_ms h p None ∅
  | None => mk_ms ∅ pool0 None ∅
  end.

Lemma pool1_reach : mp_reach pool1.
Proof.
  apply (reach_init one_block pool0 64 20 1); [lia|lia|done|done| |by vm_compute].
  intros b Hb. apply elem_of_blocks in Hb as (k & Hk & ->).
  assert (k = 0) as -> by lia. vm_compute. eauto.
Qed.

Lemma bt_mem_pool_safe_witness :
  exists s', mp_step pool1 (EvAlloc 0 0) = Some (GotBlock 64, s') /\ mp_inv s'.
Proof.
  destruct (bt_mem_pool_safe pool1 (EvAlloc 0 0) pool1_reach eq_refl) as (a & s' & H & _ & Hi & _).
  exists s'. split; [|exact Hi]. rewrite H. revert H. vm_compute. congruence.
Defined.

Definition pool1_waiting : mp_state :=
  match mp_run pool1 [EvAlloc 0 0; EvAlloc 1 OS_TIMEOUT_FOREVER] with
  | Some (_, s) => s | None => pool1 end.

Lemma bt_mem_pool_wait_never_served_witness :
  ms_lock pool1_waiting = Some (1%nat, OS_TIMEOUT_FOREVER) /\
  ~ mp_enabled pool1_waiting (EvFree 64).
Proof.
  pose proof (bt_mem_pool_wait_never_served pool1_waiting 1 OS_TIMEOUT_FOREVER pool1_waiting
    eq_refl eq_refl (rtc_refl _ _)) as (H1 & _ & _ & _ & H2). exact (conj H1 (H2 64)).
Defined.

(** [bt_mem_pool_free] gives the semaphore even when nobody waits.  The count
    outlives the block it announced, and a later allocation that would have to
    wait takes it, finds no block and fails its assertion. *)
Lemma bt_mem_pool_stale_semaphore :
  exists s, mp_run pool1 [EvAlloc 0 0; EvFree 64; EvAlloc 0 0; EvAlloc 1 100] =
    Some ([GotBlock 64; NoAnswer; GotBlock 64; Abort], s).
Proof. vm_compute. eauto. Qed.
