(* ===== verification/MeshDefs.v ===== *)
(** Data shared by the mesh components: address classes
    ([include/bluetooth/mesh/access.h]), and the decoding context of a received
    PDU ([struct bt_mesh_net_rx] of [mesh/net.h], [struct bt_mesh_msg_ctx] of
    [include/bluetooth/mesh/msg.h]). *)

From S2P Require Import Prelude.

(** * Addresses *)

Definition BT_MESH_ADDR_UNASSIGNED : Z := 0x0000.
Definition BT_MESH_ADDR_ALL_NODES : Z := 0xffff.
Definition BT_MESH_ADDR_RELAYS : Z := 0xfffe.
Definition BT_MESH_ADDR_FRIENDS : Z := 0xfffd.
Definition BT_MESH_ADDR_PROXIES : Z := 0xfffc.

Definition BT_MESH_ADDR_IS_UNICAST (addr : Z) : bool :=
  negb (addr =? 0) && (addr <? 0x8000).
Definition BT_MESH_ADDR_IS_GROUP (addr : Z) : bool :=
  (0xc000 <=? addr) && (addr <? 0xff00).
Definition BT_MESH_ADDR_IS_FIXED_GROUP (addr : Z) : bool :=
  (0xff00 <=? addr) && (addr <? 0xffff).
Definition BT_MESH_ADDR_IS_VIRTUAL (addr : Z) : bool :=
  (0x8000 <=? addr) && (addr <? 0xc000).
Definition BT_MESH_ADDR_IS_RFU (addr : Z) : bool :=
  (0xff00 <=? addr) && (addr <=? 0xfff8).

(** * Keys *)

Definition BT_MESH_KEY_UNUSED : Z := 0xffff.
Definition BT_MESH_KEY_ANY : Z := 0xffff.
Definition BT_MESH_KEY_DEV : Z := 0xfffe.
Definition BT_MESH_KEY_DEV_LOCAL : Z := BT_MESH_KEY_DEV.
Definition BT_MESH_KEY_DEV_REMOTE : Z := 0xfffd.
Definition BT_MESH_KEY_DEV_ANY : Z := 0xfffc.

Definition BT_MESH_TTL_DEFAULT : Z := 0xff.
Definition BT_MESH_TTL_MAX : Z := 0x7f.

(** * Status codes of the foundation models *)

Definition STATUS_SUCCESS : Z := 0x00.
Definition STATUS_INVALID_ADDRESS : Z := 0x01.
Definition STATUS_INVALID_APPKEY : Z := 0x03.
Definition STATUS_INVALID_NETKEY : Z := 0x04.
Definition STATUS_INSUFF_RESOURCES : Z := 0x05.
Definition STATUS_IDX_ALREADY_STORED : Z := 0x06.
Definition STATUS_STORAGE_FAIL : Z := 0x09.
Definition STATUS_CANNOT_UPDATE : Z := 0x0b.
Definition STATUS_CANNOT_REMOVE : Z := 0x0c.
Definition STATUS_CANNOT_SET : Z := 0x0f.
Definition STATUS_UNSPECIFIED : Z := 0x10.
Definition STATUS_INVALID_BINDING : Z := 0x11.

(** * Received PDUs *)

Inductive bt_mesh_net_if :=
  | BT_MESH_NET_IF_ADV
  | BT_MESH_NET_IF_LOCAL
  | BT_MESH_NET_IF_PROXY
  | BT_MESH_NET_IF_PROXY_CFG.

#[export] Instance bt_mesh_net_if_eq_dec : EqDecision bt_mesh_net_if.
Proof. solve_decision. Defined.

(** The fields of [bt_mesh_net_rx] and its [ctx] that the modelled code reads.
    [rx_sub] is the index of the subnet slot. *)
Record bt_mesh_net_rx := mk_rx {
  rx_sub : Z;
  rx_addr : Z;        (** [ctx.addr] *)
  rx_recv_dst : Z;    (** [ctx.recv_dst] *)
  rx_recv_ttl : Z;    (** [ctx.recv_ttl] *)
  rx_net_idx : Z;     (** [ctx.net_idx] *)
  rx_seq : Z;
  rx_old_iv : bool;
  rx_new_key : bool;
  rx_friend_cred : bool;
  rx_ctl : bool;
  rx_net_if : bt_mesh_net_if;
  rx_local_match : bool;
  rx_friend_match : bool;
  rx_send_ttl : Z;    (** [ctx.send_ttl] *)
  rx_app_idx : Z      (** [ctx.app_idx] *)
}.

(** The fixed groups, the dynamic groups, the virtual and the unicast addresses
    are disjoint and cover everything but the unassigned and the all-nodes
    address. *)
Definition addr_classes (a : Z) : list bool :=
  [a =? BT_MESH_ADDR_UNASSIGNED; BT_MESH_ADDR_IS_UNICAST a;
   BT_MESH_ADDR_IS_VIRTUAL a; BT_MESH_ADDR_IS_GROUP a;
   BT_MESH_ADDR_IS_FIXED_GROUP a; a =? BT_MESH_ADDR_ALL_NODES].

Lemma unicast_range a :
  0 <= a -> BT_MESH_ADDR_IS_UNICAST a = true -> 0 < a < 0x8000.
Proof. unfold BT_MESH_ADDR_IS_UNICAST. intros ? H. bool_to_prop. lia. Qed.
