(* ===== verification/Rpl.v ===== *)
(** The replay protection list: [mesh/rpl.c].

    [replay_list] is an array of [CONFIG_BT_MESH_CRPL] slots; the [store] bitmap
    and the flags [PENDING_CLEAR], [PENDING_RESET] are shared with the deferred
    settings job.  Persistent storage is a service: the operations sent to it
    are kept, in order, in [rs_log], and [apply_op] gives their effect on a
    key-value store in which they succeed. *)

From Stdlib Require Import Sorted.
From stdpp Require Import gmap.
From S2P Require Import Prelude MeshDefs.

(** * State *)

Record bt_mesh_rpl := mk_rpl {
  rpl_src : Z;      (** 15 bits *)
  rpl_old_iv : bool;
  rpl_seq : Z;      (** 24 bits *)
  rpl_seg : Z       (** 24 bits *)
}.

Definition rpl_zero : bt_mesh_rpl := mk_rpl 0 false 0 0.
#[export] Instance rpl_inhabited : Inhabited bt_mesh_rpl := populate rpl_zero.

Inductive storage_op :=
  | SDelete (src : Z)
  | SSave (src seq : Z) (old_iv : bool).

Record rpl_state := mk_rs {
  replay_list : list bt_mesh_rpl;
  rs_store : list bool;
  rs_clear : bool;      (** [PENDING_CLEAR] *)
  rs_reset : bool;      (** [PENDING_RESET] *)
  rs_sched : bool;      (** [BT_MESH_SETTINGS_RPL_PENDING] is scheduled *)
  rs_log : list storage_op
}.

Definition rpl_init (crpl : nat) : rpl_state :=
  mk_rs (replicate crpl rpl_zero) (replicate crpl false) false false false [].

Definition set_list l s := mk_rs l (rs_store s) (rs_clear s) (rs_reset s) (rs_sched s) (rs_log s).
Definition set_bits b s := mk_rs (replay_list s) b (rs_clear s) (rs_reset s) (rs_sched s) (rs_log s).
Definition set_clear c s := mk_rs (replay_list s) (rs_store s) c (rs_reset s) (rs_sched s) (rs_log s).
Definition set_reset r s := mk_rs (replay_list s) (rs_store s) (rs_clear s) r (rs_sched s) (rs_log s).
Definition set_sched b s := mk_rs (replay_list s) (rs_store s) (rs_clear s) (rs_reset s) b (rs_log s).
Definition emit o s :=
  mk_rs (replay_list s) (rs_store s) (rs_clear s) (rs_reset s) (rs_sched s) (rs_log s ++ [o]).

Definition slot (s : rpl_state) (i : nat) : bt_mesh_rpl := replay_list s !!! i.
Definition set_slot (i : nat) (e : bt_mesh_rpl) (s : rpl_state) : rpl_state :=
  set_list (<[i := e]> (replay_list s)) s.
Definition store_bit (s : rpl_state) (i : nat) : bool :=
  default false (rs_store s !! i).
Definition set_store_bit (i : nat) (b : bool) (s : rpl_state) : rpl_state :=
  set_bits (<[i := b]> (rs_store s)) s.

(** The fields a 15-bit and a 24-bit bit field keep. *)
Definition u15 (x : Z) : Z := x mod 32768.
Definition u24 (x : Z) : Z := x mod 16777216.

(** * Operations *)

Section Config.
(** [CONFIG_BT_SETTINGS], and the settings timeout being defined and [>= 0]. *)
Context (SETTINGS STORE_TIMEOUT : bool).

Definition clear_rpl (i : nat) (s : rpl_state) : rpl_state :=
  if rpl_src (slot s i) =? 0 then s
  else emit (SDelete (rpl_src (slot s i))) (set_store_bit i false s).

Definition schedule_rpl_store (i : nat) (force : bool) (s : rpl_state) : rpl_state :=
  let s := set_store_bit i true s in
  if force || STORE_TIMEOUT then set_sched true s else s.

Definition bt_mesh_rpl_update (i : nat) (rx : bt_mesh_net_rx) (s : rpl_state)
  : rpl_state :=
  let rpl := slot s i in
  let seg := if rpl_old_iv rpl && negb (rx_old_iv rx) then 0 else rpl_seg rpl in
  let s := set_slot i (mk_rpl (u15 (rx_addr rx)) (rx_old_iv rx) (u24 (rx_seq rx)) seg) s in
  if SETTINGS then schedule_rpl_store i false s else s.

(** The scan of [bt_mesh_rpl_check]: a slot to use, or a replay (the list being
    full counts as one). *)
Fixpoint rpl_scan (s : rpl_state) (rx : bt_mesh_net_rx) (l : list bt_mesh_rpl) (i : nat)
  : option nat :=
  match l with
  | [] => None
  | rpl :: l' =>
      if rpl_src rpl =? 0 then Some i
      else if rpl_src rpl =? rx_addr rx then
        if negb (rpl_old_iv rpl) && rs_reset s && negb (store_bit s i) then Some i
        else if rx_old_iv rx && negb (rpl_old_iv rpl) then None
        else if (negb (rx_old_iv rx) && rpl_old_iv rpl) || (rpl_seq rpl <? rx_seq rx)
        then Some i
        else None
      else rpl_scan s rx l' (S i)
  end.

(** The answer [true] means replay.  With [want_match] the slot is returned
    through [match]; without, the slot is updated at once. *)
Definition bt_mesh_rpl_check (rx : bt_mesh_net_rx) (want_match bridge : bool)
    (s : rpl_state) : bool * option nat * rpl_state :=
  if bool_decide (rx_net_if rx = BT_MESH_NET_IF_LOCAL) then (false, None, s)
  else if negb (rx_local_match rx) && negb bridge then (false, None, s)
  else match rpl_scan s rx (replay_list s) 0 with
       | None => (true, None, s)
       | Some i => if want_match then (false, Some i, s)
                   else (false, None, bt_mesh_rpl_update i rx s)
       end.

Definition bt_mesh_rpl_clear (s : rpl_state) : rpl_state :=
  if negb SETTINGS then set_list (replicate (length (replay_list s)) rpl_zero) s
  else set_sched true (set_clear true s).

Definition reset_settings_body (i : nat) (s : rpl_state) : rpl_state :=
  let rpl := slot s i in
  if rpl_src rpl =? 0 then s
  else set_slot i (mk_rpl (rpl_src rpl) (negb (rpl_old_iv rpl)) (rpl_seq rpl) (rpl_seg rpl))
         (set_store_bit i (negb (rpl_old_iv rpl)) s).

(** Loop state of the compacting branch: list, [shift], [last]. *)
Definition reset_compact_body (i : nat) (c : list bt_mesh_rpl * nat * nat)
  : list bt_mesh_rpl * nat * nat :=
  let '(l, shift, last) := c in
  let rpl := l !!! i in
  if rpl_src rpl =? 0 then (l, shift, last)
  else if rpl_old_iv rpl then (<[i := rpl_zero]> l, S shift, i)
  else
    let rpl := mk_rpl (rpl_src rpl) true (rpl_seq rpl) (rpl_seg rpl) in
    let l := <[i := rpl]> l in
    (if (0 <? shift)%nat then <[(i - shift)%nat := rpl]> l else l, shift, i).

Definition bt_mesh_rpl_reset (s : rpl_state) : rpl_state :=
  let n := length (replay_list s) in
  if SETTINGS then
    let s := for_to n 0 reset_settings_body s in
    if (n =? 0)%nat then s else set_sched true (set_reset true s)
  else
    let '(l, shift, last) := for_to n 0 reset_compact_body (replay_list s, O, O) in
    set_list (fill rpl_zero (last + 1 - shift) shift l) s.

(** [bt_mesh_rpl_find] and [bt_mesh_rpl_alloc]. *)
Fixpoint find_src (src : Z) (l : list bt_mesh_rpl) (i : nat) : option nat :=
  match l with
  | [] => None
  | e :: l' => if rpl_src e =? src then Some i else find_src src l' (S i)
  end.
Definition bt_mesh_rpl_find (src : Z) (s : rpl_state) : option nat :=
  find_src src (replay_list s) 0.
Definition bt_mesh_rpl_alloc (src : Z) (s : rpl_state) : option nat * rpl_state :=
  match find_src 0 (replay_list s) 0 with
  | Some i =>
      let e := slot s i in
      (Some i, set_slot i (mk_rpl (u15 src) (rpl_old_iv e) (rpl_seq e) (rpl_seg e)) s)
  | None => (None, s)
  end.

(** [rpl_set]: [name] parsed as the source address, [None] for a null name;
    [val] is what [bt_mesh_settings_set] delivers: a value or an error. *)
Definition rpl_set (name : option Z) (len_rd : Z) (val : Z * bool + Z) (s : rpl_state)
  : Z * rpl_state :=
  match name with
  | None => (- ENOENT, s)
  | Some name =>
      let src := u16 name in
      let entry := bt_mesh_rpl_find src s in
      if len_rd =? 0 then
        (0, match entry with Some i => set_slot i rpl_zero s | None => s end)
      else
        let '(entry, s) :=
          match entry with Some i => (Some i, s) | None => bt_mesh_rpl_alloc src s end in
        match entry with
        | None => (- ENOMEM, s)
        | Some i =>
            match val with
            | inr err => (err, s)
            | inl (seq, old_iv) =>
                let e := slot s i in
                (0, set_slot i (mk_rpl (rpl_src e) old_iv seq (rpl_seg e)) s)
            end
        end
  end.

Definition store_rpl (i : nat) (s : rpl_state) : rpl_state :=
  let e := slot s i in
  if rpl_src e =? 0 then s else emit (SSave (rpl_src e) (rpl_seq e) (rpl_old_iv e)) s.

(** One turn of the loop of [bt_mesh_rpl_pending_store]; [brk] records the
    [break] after the entry of a unicast [addr]. *)
Definition pending_body (addr : Z) (clr rst : bool) (i : nat)
    (c : rpl_state * nat * nat * bool) : rpl_state * nat * nat * bool :=
  let '(s, shift, last, brk) := c in
  if brk then c
  else if negb (addr =? BT_MESH_ADDR_ALL_NODES) && negb (addr =? rpl_src (slot s i)) then c
  else
    let '(s, shift) :=
      if clr then (clear_rpl i s, S shift)
      else if store_bit s i then
        let s := set_store_bit i false s in
        let s := if (0 <? shift)%nat then set_slot (i - shift) (slot s i) s else s in
        (store_rpl (i - shift) s, shift)
      else if rst then
        let s := clear_rpl i s in
        if store_bit s i then
          (set_store_bit (i - shift) true
             (set_slot (i - shift) (slot s i) (set_store_bit i false s)), shift)
        else (s, S shift)
      else (s, shift) in
    (s, shift, i, negb (addr =? BT_MESH_ADDR_ALL_NODES)).

Definition bt_mesh_rpl_pending_store (addr : Z) (s : rpl_state) : rpl_state :=
  if negb SETTINGS ||
     (negb (BT_MESH_ADDR_IS_UNICAST addr) && negb (addr =? BT_MESH_ADDR_ALL_NODES))
  then s
  else
    let s := if addr =? BT_MESH_ADDR_ALL_NODES then set_sched false s else s in
    let clr := rs_clear s in
    let s := set_clear false s in
    let rst := rs_reset s in
    let '(s, shift, last, _) :=
      for_to (length (replay_list s)) 0 (pending_body addr clr rst) (s, O, O, false) in
    let s := set_reset false s in
    if addr =? BT_MESH_ADDR_ALL_NODES
    then set_list (fill rpl_zero (last + 1 - shift) shift (replay_list s)) s
    else s.

Definition bt_mesh_rpl_pending_store_all_nodes (s : rpl_state) : rpl_state :=
  bt_mesh_rpl_pending_store BT_MESH_ADDR_ALL_NODES s.
End Config.

(** * Well-formed lists: used slots form a prefix, one slot per source *)

Definition gap_free (l : list bt_mesh_rpl) : Prop :=
  forall i j a b, l !! i = Some a -> l !! j = Some b -> (i <= j)%nat ->
                  rpl_src a = 0 -> rpl_src b = 0.
Definition uniq_src (l : list bt_mesh_rpl) : Prop :=
  forall i j a b, l !! i = Some a -> l !! j = Some b ->
                  rpl_src a = rpl_src b -> rpl_src a <> 0 -> i = j.
Definition list_wf (l : list bt_mesh_rpl) : Prop := gap_free l /\ uniq_src l.

Lemma list_wf_init n : list_wf (replicate n rpl_zero).
Proof.
  split.
  - intros i j a b _ Hb _ _. apply lookup_replicate in Hb as [-> _]. done.
  - intros i j a b Ha _ _ Hne. apply lookup_replicate in Ha as [-> _]. done.
Qed.

(** Well-formedness only looks at the sources. *)
Lemma list_wf_srcs l l' :
  rpl_src <$> l = rpl_src <$> l' -> list_wf l -> list_wf l'.
Proof.
  intros Heq [Hg Hu].
  assert (forall i a', l' !! i = Some a' ->
          exists a, l !! i = Some a /\ rpl_src a = rpl_src a') as Hlk.
  { intros i a' Ha. assert ((rpl_src <$> l) !! i = Some (rpl_src a')) as Hs
      by (rewrite Heq, list_lookup_fmap, Ha; done).
    rewrite list_lookup_fmap in Hs. destruct (l !! i) as [a|]; simpl in Hs; [|done].
    exists a. split; [done|congruence]. }
  split.
  - intros i j a b Ha Hb Hij H0.
    destruct (Hlk _ _ Ha) as (a0 & ? & E1). destruct (Hlk _ _ Hb) as (b0 & ? & E2).
    rewrite <-E2. eapply (Hg i j a0); eauto; congruence.
  - intros i j a b Ha Hb Hs Hne.
    destruct (Hlk _ _ Ha) as (a0 & ? & E1). destruct (Hlk _ _ Hb) as (b0 & ? & E2).
    eapply (Hu i j a0 b0); eauto; congruence.
Qed.

Lemma gap_free_split l :
  gap_free l ->
  exists P Z, l = P ++ Z /\ Forall (fun e => rpl_src e <> 0) P /\
              Forall (fun e => rpl_src e = 0) Z.
Proof.
  induction l as [|e l IH]; intros Hg.
  - exists [], []. done.
  - destruct (decide (rpl_src e = 0)) as [He|He].
    + exists [], (e :: l). split_and!; [done|done|].
      apply Forall_lookup. intros j b Hb. apply (Hg O j e b); auto; lia.
    + destruct IH as (P & Zs & -> & HP & HZ).
      { intros i j a b Ha Hb Hij. apply (Hg (S i) (S j)); auto; lia. }
      exists (e :: P), Zs. split_and!; auto.
Qed.

(** A list of distinct used entries followed by empty ones is well formed. *)
Lemma list_wf_app P Zs :
  Forall (fun e => rpl_src e <> 0) P -> NoDup (rpl_src <$> P) ->
  Forall (fun e => rpl_src e = 0) Zs -> list_wf (P ++ Zs).
Proof.
  intros HP Hnd HZ. split.
  - intros i j a b Ha Hb Hij H0. apply lookup_app_Some in Ha as [Ha|[Hi Ha]].
    + eapply Forall_lookup_1 in HP; eauto. done.
    + apply lookup_app_Some in Hb as [Hb|[_ Hb]].
      * apply lookup_lt_Some in Hb. lia.
      * by eapply Forall_lookup_1 in HZ.
  - intros i j a b Ha Hb Hs Hne. apply lookup_app_Some in Ha as [Ha|[Hi Ha]].
    + apply lookup_app_Some in Hb as [Hb|[_ Hb]].
      * apply (NoDup_lookup (rpl_src <$> P) i j (rpl_src a)); [done| |];
          rewrite list_lookup_fmap, ?Ha, ?Hb; simpl; congruence.
      * eapply Forall_lookup_1 in HZ; [|exact Hb]. congruence.
    + eapply Forall_lookup_1 in HZ; eauto. done.
Qed.

Lemma list_wf_nodup P Zs :
  Forall (fun e => rpl_src e <> 0) P -> list_wf (P ++ Zs) -> NoDup (rpl_src <$> P).
Proof.
  intros HP [_ Hu]. apply NoDup_alt. intros i j x Hi Hj.
  rewrite list_lookup_fmap in Hi, Hj.
  destruct (P !! i) as [a|] eqn:Ha; [|done]. destruct (P !! j) as [b|] eqn:Hb; [|done].
  simplify_eq/=. eapply (Hu i j a b); eauto using lookup_app_l_Some.
  by eapply Forall_lookup_1 in HP.
Qed.

(** * Well-formed states *)

Record rs_wf (s : rpl_state) : Prop := {
  wf_list : list_wf (replay_list s);
  wf_clean : forall i e, replay_list s !! i = Some e -> rpl_src e = 0 -> e = rpl_zero;
  wf_len : length (rs_store s) = length (replay_list s);
  wf_bits : forall i e, replay_list s !! i = Some e -> rpl_src e = 0 ->
                        rs_store s !! i = Some false
}.

Lemma rs_wf_init n : rs_wf (rpl_init n).
Proof.
  split; simpl.
  - apply list_wf_init.
  - intros i e He _. by apply lookup_replicate in He as [-> _].
  - by rewrite !length_replicate.
  - intros i e He _. apply lookup_replicate in He as [_ ?].
    by rewrite lookup_replicate_2 by done.
Qed.

(** [K] followed by zeroed slots up to [n]. *)
Definition padded (n : nat) (K : list bt_mesh_rpl) : list bt_mesh_rpl :=
  K ++ replicate (n - length K) rpl_zero.

Lemma rs_wf_padded s :
  rs_wf s ->
  exists P, replay_list s = padded (length (replay_list s)) P /\
            Forall (fun e => rpl_src e <> 0) P /\ NoDup (rpl_src <$> P).
Proof.
  intros [Hl Hc _ _]. destruct (gap_free_split _ (proj1 Hl)) as (P & Zs & Heq & HP & HZ).
  exists P. split_and!; [|done|].
  - rewrite Heq at 1. unfold padded. f_equal.
    rewrite Heq, length_app. replace (length P + length Zs - length P)%nat with (length Zs) by lia.
    symmetry. apply replicate_as_Forall. split; [done|]. apply Forall_lookup. intros i e He.
    symmetry. apply (Hc (length P + i)%nat).
    + rewrite Heq, lookup_app_r by lia. rewrite <-He. f_equal. lia.
    + by eapply Forall_lookup_1 in HZ.
  - eapply list_wf_nodup; [done|]. by rewrite <-Heq.
Qed.

Lemma padded_length n K : (length K <= n)%nat -> length (padded n K) = n.
Proof. intros. unfold padded. rewrite length_app, length_replicate. lia. Qed.

(** Used entries and their store bits, in slot order. *)
Definition entries (s : rpl_state) : list (bt_mesh_rpl * bool) :=
  filter (fun p => rpl_src p.1 <> 0) (zip (replay_list s) (rs_store s)).

Definition mark_old (e : bt_mesh_rpl) : bt_mesh_rpl :=
  mk_rpl (rpl_src e) true (rpl_seq e) (rpl_seg e).
Definition toggle_old (e : bt_mesh_rpl) : bt_mesh_rpl :=
  if rpl_src e =? 0 then e
  else mk_rpl (rpl_src e) (negb (rpl_old_iv e)) (rpl_seq e) (rpl_seg e).

(** The entries that survive an IV Index advance: those of the current index,
    now the old one. *)
Definition survivors (l : list bt_mesh_rpl) : list bt_mesh_rpl :=
  mark_old <$> filter (fun e => rpl_src e <> 0 /\ rpl_old_iv e = false) l.

Lemma survivors_length l : (length (survivors l) <= length l)%nat.
Proof. unfold survivors. rewrite length_fmap. apply list.length_filter. Qed.

Lemma survivors_app l1 l2 : survivors (l1 ++ l2) = survivors l1 ++ survivors l2.
Proof. unfold survivors. by rewrite list.filter_app, fmap_app. Qed.

Lemma survivors_take_S l j e :
  l !! j = Some e ->
  survivors (take (S j) l) =
    survivors (take j l) ++
      (if (rpl_src e =? 0) || rpl_old_iv e then [] else [mark_old e]).
Proof.
  intros He. rewrite (take_S_r _ _ _ He), survivors_app. f_equal.
  unfold survivors. rewrite list.filter_cons. simpl.
  destruct (rpl_src e =? 0) eqn:H0; destruct (rpl_old_iv e) eqn:H1; simpl; bool_to_prop;
    case_decide; naive_solver.
Qed.

(** ** Without settings: compaction at once *)

Lemma rpl_lookup_total (l : list bt_mesh_rpl) i e : l !! i = Some e -> l !!! i = e.
Proof. apply list_lookup_total_correct. Qed.

Lemma for_to_compact_prefix P Zs :
  Forall (fun e => rpl_src e <> 0) P ->
  let l0 := P ++ Zs in
  let '(l, shift, last) := for_to (length P) 0 reset_compact_body (l0, O, O) in
  compacting l0 (survivors P) (length P) shift l /\ (last = length P - 1)%nat.
Proof.
  intros HP l0.
  pose (I := fun j (c : list bt_mesh_rpl * nat * nat) =>
    (j <= length P)%nat -> compacting l0 (survivors (take j P)) j c.1.2 c.1.1 /\ (c.2 = j - 1)%nat).
  assert (I (0 + length P)%nat (for_to (length P) 0 reset_compact_body (l0, O, O))) as HI.
  { apply for_to_inv; unfold I.
    - intros _. rewrite take_0. split; [apply compacting_start|done].
    - intros j [[l shift] last] Hj IH Hj'. destruct IH as [Hc _]; [lia|]. simpl in Hc.
      destruct (lookup_lt_is_Some_2 P j) as [e He]; [lia|].
      assert (l0 !! j = Some e) as He0 by (by apply lookup_app_l_Some).
      assert (j < length l0)%nat as Hlt by (by eapply lookup_lt_Some).
      assert (l !! j = Some e) as Hel by (rewrite <-He0; eapply compacting_lookup; eauto).
      assert (rpl_src e <> 0) as Hne by (by eapply Forall_lookup_1 in HP).
      rewrite (survivors_take_S _ _ _ He). unfold reset_compact_body.
      rewrite (rpl_lookup_total _ _ _ Hel).
      rewrite (proj2 (Z.eqb_neq _ _)) by done. simpl.
      destruct (rpl_old_iv e) eqn:Hold; simpl.
      + rewrite app_nil_r. split; [by apply compacting_drop|lia].
      + split; [|lia].
        destruct (0 <? shift)%nat eqn:Hs; [by apply compacting_keep|].
        apply Nat.ltb_ge in Hs.
        replace (<[j:=mark_old e]> l) with
          (<[(j - shift)%nat := mark_old e]> (<[j := mark_old e]> l))
          by (replace (j - shift)%nat with j by lia; apply list_insert_insert_eq).
        by apply compacting_keep. }
  simpl in HI. unfold I in HI. rewrite firstn_all in HI.
  destruct (for_to _ _ _ _) as [[l shift] last]. apply HI. lia.
Qed.

Lemma survivors_padded n P : survivors (padded n P) = survivors P.
Proof.
  unfold padded. rewrite survivors_app. unfold survivors at 2.
  assert (filter (fun e => rpl_src e <> 0 /\ rpl_old_iv e = false)
            (replicate (n - length P) rpl_zero) = []) as ->; [|by rewrite app_nil_r].
  induction (n - length P)%nat as [|k IH]; [done|]. simpl.
  rewrite list.filter_cons_False; [done|]. simpl. lia.
Qed.

Lemma padded_app n (P K : list bt_mesh_rpl) :
  (length K <= length P <= n)%nat ->
  K ++ replicate (length P - length K) rpl_zero ++ replicate (n - length P) rpl_zero = padded n K.
Proof. intros. unfold padded. rewrite <-replicate_add. do 2 f_equal. lia. Qed.

(** What the compacting reset does: the survivors, in order, then zeroed slots. *)
Lemma bt_mesh_rpl_reset_compact s :
  rs_wf s ->
  bt_mesh_rpl_reset false s =
    set_list (padded (length (replay_list s)) (survivors (replay_list s))) s.
Proof.
  intros Hwf. destruct (rs_wf_padded s Hwf) as (P & Heq & HP & _).
  set (n := length (replay_list s)) in *.
  assert (length P <= n)%nat as HPn.
  { unfold n. rewrite Heq. unfold padded. rewrite length_app. lia. }
  unfold bt_mesh_rpl_reset. fold n. rewrite Heq, survivors_padded.
  replace n with (length P + (n - length P))%nat at 1 by lia.
  rewrite for_to_app. simpl.
  pose proof (for_to_compact_prefix P (replicate (n - length P) rpl_zero) HP) as Hpre.
  fold (padded n P) in Hpre. simpl in Hpre.
  destruct (for_to _ _ _ (padded n P, O, O)) as [[l shift] last] eqn:Hloop.
  destruct Hpre as [Hc Hlast].
  assert (length (survivors P) + shift = length P)%nat as Hsh
    by (destruct Hc as (G & _ & _ & ?); done).
  rewrite for_to_id.
  - f_equal. destruct (decide (length P = 0)%nat) as [H0|H0].
    + destruct P; [|done]. simpl in *. assert (shift = O) as -> by lia.
      rewrite fill_0. destruct Hc as (G & -> & HG & _). apply nil_length_inv in HG as ->. done.
    + replace (last + 1 - shift)%nat with (length P - shift)%nat by lia.
      rewrite (compacting_fill rpl_zero _ _ _ _ _ Hc). unfold padded at 1. rewrite drop_app_length.
      replace shift with (length P - length (survivors P))%nat by lia.
      apply padded_app. lia.
  - intros j Hj. unfold reset_compact_body.
    assert (l !! j = Some rpl_zero) as Hz.
    { rewrite (compacting_lookup _ _ _ _ _ j Hc) by lia. unfold padded.
      rewrite lookup_app_r by lia. apply lookup_replicate_2. lia. }
    by rewrite (rpl_lookup_total _ _ _ Hz).
Qed.

(** ** With settings: flags first, compaction in the deferred job *)

(** The store bit an entry gets in the first phase. *)
Definition keep_bit (e : bt_mesh_rpl) (b : bool) : bool :=
  if rpl_src e =? 0 then b else negb (rpl_old_iv e).

Lemma reset_settings_loop s :
  length (rs_store s) = length (replay_list s) ->
  for_to (length (replay_list s)) 0 reset_settings_body s =
    set_bits (zip_with keep_bit (replay_list s) (rs_store s))
      (set_list (toggle_old <$> replay_list s) s).
Proof.
  intros Hlen. set (l0 := replay_list s) in *. set (b0 := rs_store s) in *.
  pose (I := fun j (t : rpl_state) => (j <= length l0)%nat ->
    t = set_bits (zip_with keep_bit (take j l0) (take j b0) ++ drop j b0)
          (set_list ((toggle_old <$> take j l0) ++ drop j l0) s)).
  assert (I (0 + length l0)%nat (for_to (length l0) 0 reset_settings_body s)) as HI.
  { apply for_to_inv; unfold I.
    - intros _. by destruct s.
    - intros j t Hj IH _. rewrite IH by lia. clear IH.
      destruct (lookup_lt_is_Some_2 l0 j) as [e He]; [lia|].
      destruct (lookup_lt_is_Some_2 b0 j) as [b Hb]; [lia|].
      rewrite (take_S_r _ _ _ He), (take_S_r _ _ _ Hb), fmap_app.
      rewrite zip_with_app by (rewrite !length_take; lia).
      rewrite (drop_S l0 _ _ He), (drop_S b0 _ _ Hb).
      set (A := toggle_old <$> take j l0).
      set (B := zip_with keep_bit (take j l0) (take j b0)).
      assert (length A = j) as HA by (unfold A; rewrite length_fmap, length_take; lia).
      assert (length B = j) as HB by (unfold B; rewrite length_zip_with, !length_take; lia).
      unfold reset_settings_body, slot, set_slot, set_store_bit, set_bits, set_list. simpl.
      rewrite (list_lookup_total_middle A) by done.
      rewrite <-!app_assoc. simpl. unfold toggle_old at 1, keep_bit at 1.
      destruct (rpl_src e =? 0); [done|].
      rewrite !insert_app_r_alt by lia. rewrite HA, HB, Nat.sub_diag. done. }
  simpl in HI. unfold I in HI. rewrite HI by done.
  rewrite !firstn_all, drop_all, app_nil_r.
  replace (length l0) with (length b0) by done.
  rewrite firstn_all, drop_all, app_nil_r. done.
Qed.

Lemma bt_mesh_rpl_reset_deferred s :
  length (rs_store s) = length (replay_list s) -> replay_list s <> [] ->
  bt_mesh_rpl_reset true s =
    set_sched true (set_reset true
      (set_bits (zip_with keep_bit (replay_list s) (rs_store s))
        (set_list (toggle_old <$> replay_list s) s))).
Proof.
  intros Hlen Hne. unfold bt_mesh_rpl_reset. rewrite reset_settings_loop by done.
  rewrite (proj2 (Nat.eqb_neq _ _)); [done|]. by destruct (replay_list s).
Qed.

(** What the deferred job does with one slot and its store bit. *)
Definition kept_of (rst : bool) (p : bt_mesh_rpl * bool) : list bt_mesh_rpl :=
  if p.2 then [p.1] else if rst then [] else [p.1].
Definition ops_of (rst : bool) (p : bt_mesh_rpl * bool) : list storage_op :=
  if rpl_src p.1 =? 0 then []
  else if p.2 then [SSave (rpl_src p.1) (rpl_seq p.1) (rpl_old_iv p.1)]
  else if rst then [SDelete (rpl_src p.1)] else [].
Definition kept (s : rpl_state) : list bt_mesh_rpl :=
  concat (kept_of (rs_reset s) <$> zip (replay_list s) (rs_store s)).
Definition pending_ops (s : rpl_state) : list storage_op :=
  concat (ops_of (rs_reset s) <$> zip (replay_list s) (rs_store s)).

Lemma zip_take_S {A B} (l : list A) (k : list B) j a b :
  l !! j = Some a -> k !! j = Some b ->
  zip (take (S j) l) (take (S j) k) = zip (take j l) (take j k) ++ [(a, b)].
Proof.
  intros Ha Hb. rewrite (take_S_r _ _ _ Ha), (take_S_r _ _ _ Hb).
  apply lookup_lt_Some in Ha, Hb.
  by rewrite zip_with_app by (rewrite !length_take; lia).
Qed.

Lemma concat_snoc {A B} (f : A -> list B) l x :
  concat (f <$> (l ++ [x])) = concat (f <$> l) ++ f x.
Proof. rewrite fmap_app, concat_app. simpl. by rewrite app_nil_r. Qed.

(** Clearing the bits one by one. *)
Lemma clear_nth j (l : list bool) b :
  l !! j = Some b ->
  <[j := false]> (replicate j false ++ drop j l) = replicate (S j) false ++ drop (S j) l.
Proof.
  intros Hb. rewrite (drop_S _ _ _ Hb), insert_app_r_alt by (rewrite length_replicate; lia).
  rewrite length_replicate, Nat.sub_diag, replicate_S_end, <-app_assoc. done.
Qed.
Lemma skip_nth j (l : list bool) :
  l !! j = Some false ->
  replicate j false ++ drop j l = replicate (S j) false ++ drop (S j) l.
Proof.
  intros Hb. by rewrite (drop_S _ _ _ Hb), replicate_S_end, <-app_assoc.
Qed.

Section PendingAll.
Context (s : rpl_state) (Hwf : rs_wf s) (rst : bool).
Let l0 := replay_list s.
Let b0 := rs_store s.
Let pairs j := zip (take j l0) (take j b0).

(** The loop invariant. *)
Definition pending_inv (j : nat) (c : rpl_state * nat * nat * bool) : Prop :=
  let '(t, shift, last, brk) := c in
  brk = false /\ (last = j - 1)%nat /\ (rst = false -> shift = O) /\
  compacting l0 (concat (kept_of rst <$> pairs j)) j shift (replay_list t) /\
  t = mk_rs (replay_list t) (replicate j false ++ drop j b0) (rs_clear s) (rs_reset s)
        (rs_sched s) (rs_log s ++ concat (ops_of rst <$> pairs j)).

Lemma pending_inv_step j c :
  (j < length l0)%nat -> pending_inv j c ->
  pending_inv (S j) (pending_body BT_MESH_ADDR_ALL_NODES false rst j c).
Proof.
  intros Hj. destruct c as [[[t shift] last] brk].
  intros (-> & Hlast & Hsh & Hc & Ht).
  destruct (lookup_lt_is_Some_2 l0 j Hj) as [e He].
  destruct (lookup_lt_is_Some_2 b0 j) as [b Hb]; [unfold b0; rewrite (wf_len s Hwf); done|].
  assert (slot t j = e) as Hslot.
  { apply rpl_lookup_total. rewrite <-He. eapply compacting_lookup; eauto. }
  assert (store_bit t j = b) as Hbit.
  { unfold store_bit. rewrite Ht. simpl. rewrite (drop_S _ _ _ Hb).
    rewrite list_lookup_middle; [done|]. by rewrite length_replicate. }
  pose proof (clear_nth j b0 b Hb) as Hbits.
  assert (b = false -> replicate j false ++ drop j b0 = replicate (S j) false ++ drop (S j) b0)
    as Hbits' by (intros ->; by apply skip_nth).
  assert (b = true -> rpl_src e <> 0) as Hused.
  { intros -> H0. pose proof (wf_bits s Hwf j e He H0) as Hf. unfold b0 in Hb. congruence. }
  unfold pending_body, pending_inv. set (R := replicate (S j) false ++ drop (S j) b0) in *.
  rewrite Z.eqb_refl. simpl. rewrite Hbit.
  unfold pairs. rewrite (zip_take_S _ _ _ _ _ He Hb), !concat_snoc. fold (pairs j).
  assert (compacting l0 (concat (kept_of rst <$> pairs j) ++ [e]) (S j) shift
            (<[(j - shift)%nat := e]> (replay_list t))) as Hkeep by (by apply compacting_keep').
  destruct b; simpl.
  - (* stored *)
    specialize (Hused eq_refl). unfold store_rpl, slot, set_slot, set_store_bit. simpl.
    assert (e = (<[(j - shift)%nat := e]> (replay_list t)) !!! (j - shift)%nat) as Heq.
    { rewrite list_lookup_total_insert_eq; [done|].
      rewrite (compacting_length _ _ _ _ _ Hc) by lia. lia. }
    assert ((if (0 <? shift)%nat then <[(j - shift)%nat := e]> (replay_list t) else replay_list t)
            = <[(j - shift)%nat := e]> (replay_list t)) as Hif.
    { destruct (0 <? shift)%nat eqn:Hz; [done|]. apply Nat.ltb_ge in Hz.
      replace (j - shift)%nat with j by lia. symmetry. apply list_insert_id.
      rewrite <-He. eapply compacting_lookup; eauto. }
    replace (if (0 <? shift)%nat
      then set_list (<[(j - shift)%nat:=replay_list (set_bits (<[j:=false]> (rs_store t)) t) !!! j]>
             (replay_list (set_bits (<[j:=false]> (rs_store t)) t)))
             (set_bits (<[j:=false]> (rs_store t)) t)
      else set_bits (<[j:=false]> (rs_store t)) t)
      with (set_list (<[(j - shift)%nat := e]> (replay_list t)) (set_bits (<[j:=false]> (rs_store t)) t)).
    2:{ rewrite <-Hif. unfold slot in Hslot. simpl. rewrite Hslot.
        destruct (0 <? shift)%nat; [done|]. by destruct t. }
    simpl. rewrite <-Heq. unfold ops_of. simpl. rewrite (proj2 (Z.eqb_neq _ _)) by done.
    split_and!; [done|lia|done|done|].
    rewrite Ht. simpl. unfold set_bits. simpl. by rewrite Hbits, app_assoc.
  - destruct rst eqn:Hr; simpl.
    + (* not stored, reset pending: removed *)
      assert (clear_rpl j t = mk_rs (replay_list t) R
                (rs_clear s) (rs_reset s) (rs_sched s)
                (rs_log s ++ concat (ops_of true <$> pairs j) ++ ops_of true (e, false))) as Hclr.
      { unfold clear_rpl. rewrite Hslot. unfold ops_of at 2. simpl.
        destruct (rpl_src e =? 0) eqn:H0.
        - rewrite app_nil_r, <-Hbits' by done. done.
        - unfold emit, set_store_bit. rewrite Ht. simpl. by rewrite Hbits, app_assoc. }
      rewrite Hclr. unfold store_bit. simpl rs_store.
      unfold R at 1. rewrite lookup_app_l by (rewrite length_replicate; lia).
      rewrite lookup_replicate_2 by lia. simpl.
      split_and!; [done|lia|done| |done].
      rewrite app_nil_r. by apply compacting_skip.
    + rewrite (Hsh eq_refl) in *. rewrite Nat.sub_0_r in Hkeep.
      rewrite list_insert_id in Hkeep by (rewrite <-He; eapply compacting_lookup; eauto).
      split_and!; [done|lia|done|done|].
      unfold ops_of at 2. simpl. rewrite Hbits' in Ht by done.
      destruct (rpl_src e =? 0); by rewrite app_nil_r.
Qed.
End PendingAll.

(** The deferred job on all nodes, without a pending clear. *)
Lemma bt_mesh_rpl_pending_all_spec s :
  rs_wf s -> rs_clear s = false ->
  bt_mesh_rpl_pending_store_all_nodes true s =
    mk_rs (padded (length (replay_list s)) (kept s))
      (replicate (length (replay_list s)) false) false false false
      (rs_log s ++ pending_ops s) /\
  (length (kept s) <= length (replay_list s))%nat.
Proof.
  intros Hwf Hclr. unfold bt_mesh_rpl_pending_store_all_nodes, bt_mesh_rpl_pending_store.
  rewrite Z.eqb_refl. simpl. rewrite Hclr.
  set (s1 := set_clear false (set_sched false s)).
  assert (rs_wf s1) as Hwf1 by (destruct Hwf; by split).
  pose proof (for_to_inv (pending_inv s1 (rs_reset s)) (length (replay_list s))
    (pending_body BT_MESH_ADDR_ALL_NODES false (rs_reset s)) 0 (s1, O, O, false)) as HI.
  simpl in HI.
  destruct (for_to _ _ _ _) as [[[t shift] last] brk].
  destruct HI as (-> & Hlast & Hsh & Hc & Ht).
  - simpl. split_and!; [done|done|done|apply compacting_start|].
    rewrite app_nil_r. by destruct s.
  - intros j c Hj. apply (pending_inv_step s1 Hwf1). simpl. lia.
  - pose proof (wf_len s Hwf) as Hlen. simpl in Hc, Ht.
    rewrite firstn_all, (take_ge (rs_store s)) in Hc by lia.
    rewrite firstn_all, (take_ge (rs_store s)), drop_ge, app_nil_r in Ht by lia.
    fold (kept s) in Hc. fold (pending_ops s) in Ht.
    assert (length (kept s) + shift = length (replay_list s))%nat as Hk
      by (destruct Hc as (G & _ & _ & ?); done).
    split; [|lia]. simpl. rewrite Ht. unfold set_list, set_reset. simpl. f_equal.
    destruct (replay_list s) as [|e l] eqn:Hl; simpl in *.
    + assert (kept s = []) as Hk0 by (apply nil_length_inv; lia).
      assert (shift = O) as -> by lia. rewrite fill_0.
      destruct Hc as (G & Hc & HG & _). apply nil_length_inv in HG as ->.
      rewrite Hc, Hk0. done.
    + replace (last + 1 - shift)%nat with (S (length l) - shift)%nat by lia.
      rewrite (compacting_fill rpl_zero _ _ _ _ _ Hc). simpl. rewrite drop_all, app_nil_r.
      unfold padded. do 2 f_equal. lia.
Qed.

(** * Preservation of well-formedness *)

Lemma uniq_src_cons e l : uniq_src (e :: l) -> uniq_src l.
Proof.
  intros Hu i j a b Ha Hb Hs Hne. assert (S i = S j) as Heq by (by apply (Hu (S i) (S j) a b)).
  lia.
Qed.

Lemma sublist_nodup K l :
  sublist K l -> uniq_src l -> Forall (fun e => rpl_src e <> 0) K -> NoDup (rpl_src <$> K).
Proof.
  induction 1 as [|e K l Hs IH|e K l Hs IH]; intros Hu HK; simpl.
  - constructor.
  - inv HK. constructor; [|by apply IH; [eapply uniq_src_cons|]].
    intros Hin. apply list_elem_of_fmap in Hin as (e' & He' & Hin).
    eapply elem_of_sublist in Hin; [|done]. apply list_elem_of_lookup in Hin as [i Hi].
    assert (O = S i); [|lia]. by apply (Hu O (S i) e e').
  - apply IH; [by eapply uniq_src_cons|done].
Qed.

Lemma list_wf_padded n K :
  Forall (fun e => rpl_src e <> 0) K -> NoDup (rpl_src <$> K) -> list_wf (padded n K).
Proof.
  intros. apply list_wf_app; [done|done|]. apply Forall_replicate. done.
Qed.

Lemma padded_clean n K i e :
  Forall (fun e => rpl_src e <> 0) K -> padded n K !! i = Some e -> rpl_src e = 0 -> e = rpl_zero.
Proof.
  intros HK He H0. apply lookup_app_Some in He as [He|[_ He]].
  - by eapply Forall_lookup_1 in HK.
  - by apply lookup_replicate in He as [-> _].
Qed.

Lemma survivors_used l : Forall (fun e => rpl_src e <> 0) (survivors l).
Proof.
  apply list.Forall_forall. intros e He. apply list_elem_of_fmap in He as (e' & -> & He').
  apply list_elem_of_filter in He'. simpl. tauto.
Qed.

Lemma survivors_nodup l : uniq_src l -> NoDup (rpl_src <$> survivors l).
Proof.
  intros Hu. unfold survivors. rewrite <-list_fmap_compose.
  apply (sublist_nodup (filter _ l) l); [apply sublist_filter|done|].
  apply list.Forall_forall. intros e He. apply list_elem_of_filter in He. tauto.
Qed.

Lemma kept_used s :
  rs_wf s -> rs_reset s = true -> Forall (fun e => rpl_src e <> 0) (kept s).
Proof.
  intros Hwf Hr. apply list.Forall_forall. intros e He. unfold kept in He. rewrite Hr in He.
  apply list_elem_of_In, in_concat in He as (q & Hq & He).
  apply list_elem_of_In, list_elem_of_fmap in Hq as ([e' b] & -> & Hin).
  unfold kept_of in He. simpl in He. destruct b; [|done]. destruct He as [->|[]].
  apply list_elem_of_lookup in Hin as [i Hi].
  apply lookup_zip_Some in Hi as [H1 H2]. intros H0.
  rewrite (wf_bits s Hwf i e H1 H0) in H2. done.
Qed.

Lemma kept_sublist s : sublist (kept s) (replay_list s).
Proof.
  unfold kept. generalize (rs_store s) as bs. induction (replay_list s) as [|e l IH]; intros bs.
  - done.
  - destruct bs as [|b bs]; simpl; [apply sublist_nil_l|].
    unfold kept_of at 1. simpl. destruct b; simpl; [by apply sublist_skip|].
    destruct (rs_reset s); simpl; [by apply sublist_cons|by apply sublist_skip].
Qed.

Lemma kept_all s :
  length (rs_store s) = length (replay_list s) -> rs_reset s = false -> kept s = replay_list s.
Proof.
  intros Hlen Hr. unfold kept. rewrite Hr. revert Hlen. generalize (rs_store s) as bs.
  induction (replay_list s) as [|e l IH]; intros [|b bs] Hlen; simplify_eq/=; [done|].
  unfold kept_of at 1. simpl. rewrite IH by done. by destruct b.
Qed.

Lemma rs_wf_sched b s : rs_wf s -> rs_wf (set_sched b s).
Proof. intros []. by split. Qed.
Lemma rs_wf_reset b s : rs_wf s -> rs_wf (set_reset b s).
Proof. intros []. by split. Qed.
Lemma rs_wf_clear b s : rs_wf s -> rs_wf (set_clear b s).
Proof. intros []. by split. Qed.

Lemma reset_deferred_wf s : rs_wf s -> rs_wf (bt_mesh_rpl_reset true s).
Proof.
  intros Hwf. destruct (decide (replay_list s = [])) as [Hn|Hn].
  { unfold bt_mesh_rpl_reset. by rewrite Hn. }
  rewrite bt_mesh_rpl_reset_deferred by (done || apply Hwf).
  apply rs_wf_sched, rs_wf_reset. split; simpl.
  - eapply list_wf_srcs; [|apply Hwf]. rewrite <-list_fmap_compose. apply list_fmap_ext.
    intros i e _. unfold compose, toggle_old. by destruct (_ =? _).
  - intros i e He H0. rewrite list_lookup_fmap in He.
    destruct (replay_list s !! i) as [e'|] eqn:He'; [|done]. simpl in He. simplify_eq.
    unfold toggle_old in *. destruct (rpl_src e' =? 0) eqn:Hz; [by eapply (wf_clean s)|].
    simpl in H0. bool_to_prop. lia.
  - rewrite length_zip_with, length_fmap, (wf_len s Hwf). lia.
  - intros i e He H0. rewrite list_lookup_fmap in He.
    destruct (replay_list s !! i) as [e'|] eqn:He'; [|done]. simpl in He. simplify_eq.
    unfold toggle_old in *. destruct (rpl_src e' =? 0) eqn:Hz; [|simpl in H0; bool_to_prop; lia].
    rewrite lookup_zip_with, He'. simpl. rewrite (wf_bits s Hwf i e' He' H0). simpl.
    unfold keep_bit. by rewrite Hz.
Qed.

Lemma reset_compact_wf s :
  rs_wf s -> Forall (fun b => b = false) (rs_store s) ->
  rs_wf (bt_mesh_rpl_reset false s).
Proof.
  intros Hwf Hb. rewrite bt_mesh_rpl_reset_compact by done.
  pose proof (survivors_length (replay_list s)).
  pose proof (survivors_used (replay_list s)).
  split; simpl.
  - apply list_wf_padded; [done|]. apply survivors_nodup, Hwf.
  - intros i e. by apply padded_clean.
  - rewrite padded_length by lia. apply Hwf.
  - intros i e He _. apply lookup_lt_Some in He.
    rewrite padded_length, <-(wf_len s Hwf) in He by lia.
    destruct (lookup_lt_is_Some_2 _ _ He) as [b Hlk].
    rewrite Hlk. f_equal. by eapply Forall_lookup_1 in Hb.
Qed.

Lemma pending_all_wf s :
  rs_wf s -> rs_clear s = false -> rs_wf (bt_mesh_rpl_pending_store_all_nodes true s).
Proof.
  intros Hwf Hc. destruct (bt_mesh_rpl_pending_all_spec s Hwf Hc) as [-> Hlen].
  assert (list_wf (padded (length (replay_list s)) (kept s)) /\
          forall i e, padded (length (replay_list s)) (kept s) !! i = Some e ->
                      rpl_src e = 0 -> e = rpl_zero) as [Hl Hcl].
  { destruct (rs_reset s) eqn:Hr.
    - pose proof (kept_used s Hwf Hr). split; [|intros i e; by apply padded_clean].
      apply list_wf_padded; [done|]. eapply sublist_nodup; [apply kept_sublist|apply Hwf|done].
    - rewrite kept_all by (done || apply Hwf). unfold padded.
      rewrite Nat.sub_diag. simpl. rewrite app_nil_r. split; [apply Hwf|apply (wf_clean s Hwf)]. }
  split; simpl; [done|done| |].
  - rewrite padded_length by lia. apply length_replicate.
  - intros i e He _. apply lookup_lt_Some in He. rewrite padded_length in He by lia.
    by apply lookup_replicate_2.
Qed.

(** ** The equivalence of the two implementations of the reset *)

Lemma kept_after_reset l bs :
  length bs = length l ->
  (forall i e, l !! i = Some e -> rpl_src e = 0 -> bs !! i = Some false) ->
  concat (kept_of true <$> zip (toggle_old <$> l) (zip_with keep_bit l bs)) = survivors l.
Proof.
  revert bs. induction l as [|e l IH]; intros [|b bs] Hlen Hb; simplify_eq/=; [done|].
  rewrite IH; [|done|intros i; apply (Hb (S i))].
  specialize (Hb O e eq_refl). unfold kept_of, keep_bit, toggle_old, survivors. simpl.
  destruct (rpl_src e =? 0) eqn:H0; bool_to_prop.
  - specialize (Hb H0). simpl in Hb. simplify_eq/=.
    rewrite list.filter_cons_False by tauto. done.
  - destruct (rpl_old_iv e) eqn:Ho; simpl.
    + rewrite list.filter_cons_False by (rewrite Ho; naive_solver). done.
    + rewrite list.filter_cons_True by done. done.
Qed.

(** What the deferred job tells the storage after a reset. *)
Definition reset_ops (e : bt_mesh_rpl) : list storage_op :=
  if rpl_src e =? 0 then []
  else if rpl_old_iv e then [SDelete (rpl_src e)]
  else [SSave (rpl_src e) (rpl_seq e) true].

Lemma ops_after_reset l bs :
  length bs = length l ->
  concat (ops_of true <$> zip (toggle_old <$> l) (zip_with keep_bit l bs)) =
  concat (reset_ops <$> l).
Proof.
  revert bs. induction l as [|e l IH]; intros [|b bs] Hlen; simplify_eq/=; [done|].
  rewrite IH by done. f_equal. unfold ops_of, toggle_old, keep_bit, reset_ops. simpl.
  destruct (rpl_src e =? 0) eqn:H0; simpl; [by rewrite H0|].
  rewrite H0. by destruct (rpl_old_iv e).
Qed.

(** C40: With settings enabled the reset only flips the IV flags and leaves the
    removal to the deferred job; once that job has run, the list is exactly the
    one the immediate (settings-less) implementation computes: the entries of
    the current IV index, marked old, compacted to the front in their order,
    followed by zeroed slots.  The storage is told to delete the removed entries
    and to save the kept ones. *)
Theorem rpl_reset_deferred_equiv s :
  rs_wf s -> rs_clear s = false ->
  let t := bt_mesh_rpl_pending_store_all_nodes true (bt_mesh_rpl_reset true s) in
  replay_list t = replay_list (bt_mesh_rpl_reset false s) /\
  replay_list t = padded (length (replay_list s)) (survivors (replay_list s)) /\
  rs_log t = rs_log s ++ concat (reset_ops <$> replay_list s) /\ rs_wf t.
Proof.
  intros Hwf Hc t. subst t.
  rewrite bt_mesh_rpl_reset_compact by done.
  destruct (decide (replay_list s = [])) as [Hn|Hn].
  { assert (bt_mesh_rpl_reset true s = s) as ->
      by (unfold bt_mesh_rpl_reset; by rewrite Hn).
    destruct (bt_mesh_rpl_pending_all_spec s Hwf Hc) as [Heq Hk].
    split_and!; [| | |by apply pending_all_wf]; rewrite Heq; simpl;
      unfold pending_ops, kept; by rewrite Hn. }
  assert (rs_wf (bt_mesh_rpl_reset true s)) as Hwf' by by apply reset_deferred_wf.
  rewrite (bt_mesh_rpl_reset_deferred s (wf_len s Hwf) Hn) in *.
  split_and!; [| | |by apply pending_all_wf];
    destruct (bt_mesh_rpl_pending_all_spec _ Hwf' Hc) as [-> _];
    unfold kept, pending_ops; simpl.
  1,2: rewrite length_fmap, kept_after_reset; [done|apply Hwf|apply Hwf].
  by rewrite ops_after_reset by apply Hwf.
Qed.

Definition sample_state : rpl_state :=
  mk_rs [mk_rpl 3 true 9 0; mk_rpl 5 false 7 2; rpl_zero] [false; true; false] false false false [].

Lemma sample_state_wf : rs_wf sample_state.
Proof.
  split; simpl.
  - apply (list_wf_app [mk_rpl 3 true 9 0; mk_rpl 5 false 7 2] [rpl_zero]).
    + repeat constructor; done.
    + simpl. apply NoDup_cons_2; [set_solver|]. apply NoDup_cons_2; [set_solver|constructor].
    + by repeat constructor.
  - by intros [|[|[|]]] e [= <-].
  - done.
  - by intros [|[|[|]]] e [= <-].
Qed.

Lemma rpl_reset_deferred_equiv_witness :
  replay_list (bt_mesh_rpl_pending_store_all_nodes true (bt_mesh_rpl_reset true sample_state))
  = [mk_rpl 5 true 7 2; rpl_zero; rpl_zero].
Proof.
  exact (proj1 (proj2 (rpl_reset_deferred_equiv sample_state sample_state_wf eq_refl))).
Defined.

(** ** The deferred job on one source *)

(** The list is left alone, store bits are only cleared. *)
Definition bits_cleared (s t : rpl_state) : Prop :=
  replay_list t = replay_list s /\ rs_clear t = rs_clear s /\
  length (rs_store t) = length (rs_store s) /\
  forall k, rs_store t !! k = rs_store s !! k \/ rs_store t !! k = Some false.

Lemma bits_cleared_refl s : bits_cleared s s.
Proof. split_and!; auto. Qed.

Lemma bits_cleared_set s t i : bits_cleared s t -> bits_cleared s (set_store_bit i false t).
Proof.
  intros (Hl & Hc & Hn & Hk). split_and!; [done|done|by simpl; rewrite length_insert|].
  intros k. simpl. destruct (decide (k = i)) as [->|Hki].
  - destruct (lt_dec i (length (rs_store t))).
    + right. by apply list_lookup_insert_eq.
    + rewrite list_insert_ge by lia. apply Hk.
  - rewrite list_lookup_insert_ne by done. apply Hk.
Qed.

Lemma bits_cleared_emit s t o : bits_cleared s t -> bits_cleared s (emit o t).
Proof. by destruct t. Qed.

Lemma bits_cleared_wf s t : rs_wf s -> bits_cleared s t -> rs_wf t.
Proof.
  intros Hwf (Hl & _ & Hn & Hk). split; rewrite ?Hl; try apply Hwf.
  - rewrite Hn. apply Hwf.
  - intros i e He H0. destruct (Hk i) as [->|]; [by eapply wf_bits|done].
Qed.

Lemma pending_store_unicast s addr :
  addr <> BT_MESH_ADDR_ALL_NODES -> rs_clear s = false ->
  exists t, bits_cleared s t /\
    (bt_mesh_rpl_pending_store true addr s = s \/
     bt_mesh_rpl_pending_store true addr s = set_reset false t).
Proof.
  intros Ha Hclr. unfold bt_mesh_rpl_pending_store. simpl.
  rewrite (proj2 (Z.eqb_neq _ _) Ha). simpl. rewrite andb_true_r, Hclr.
  destruct (BT_MESH_ADDR_IS_UNICAST addr) eqn:Hu; simpl;
    [|exists s; split; [apply bits_cleared_refl|by left]].
  set (s1 := set_clear false s).
  pose (I := fun (_ : nat) (c : rpl_state * nat * nat * bool) =>
    bits_cleared s c.1.1.1 /\ (c.2 = false -> c.1.1.2 = O)).
  pose proof (for_to_inv I (length (replay_list s))
    (pending_body addr false (rs_reset s)) 0 (s1, O, O, false)) as HI.
  destruct (for_to _ _ _ _) as [[[t shift] last] brk] eqn:Hloop.
  exists t. split; [|by right]. apply HI.
  - split; [|done]. split_and!; auto.
  - intros j [[[u sh] la] bk] Hj [Hb Hs]. simpl in Hb, Hs. unfold pending_body.
    destruct bk; [done|]. rewrite (proj2 (Z.eqb_neq _ _) Ha), (Hs eq_refl). simpl.
    destruct (addr =? rpl_src (slot u j)) eqn:Hsrc; simpl; [|by split].
    rewrite Nat.sub_0_r. destruct (store_bit u j); simpl.
    + split; [|done]. unfold store_rpl. simpl. case_if; simpl;
        [|apply bits_cleared_emit]; by apply bits_cleared_set.
    + destruct (rs_reset s); simpl; [|by split].
      assert (bits_cleared s (clear_rpl j u)) as Hcl.
      { unfold clear_rpl. case_if; [done|]. by apply bits_cleared_emit, bits_cleared_set. }
      destruct (store_bit (clear_rpl j u) j) eqn:Hbit; [|by split].
      exfalso. unfold clear_rpl in Hbit. case_if_in Hbit.
      { bool_to_prop. unfold BT_MESH_ADDR_IS_UNICAST in Hu. bool_to_prop. lia. }
      unfold store_bit in Hbit. simpl in Hbit.
      rewrite list_lookup_insert in Hbit. case_decide; [done|].
      rewrite lookup_ge_None_2 in Hbit by lia. done.
Qed.

(** * Replay protection over a history of events *)

(** A received PDU is checked and, unless it is a replay, recorded: at once
    when no match pointer is given, through the returned slot otherwise.  This
    is how the network layer, the transport layer and the proxy use the list. *)
Definition rpl_receive (SETTINGS TIMEOUT : bool) (rx : bt_mesh_net_rx)
    (want_match bridge : bool) (s : rpl_state) : bool * rpl_state :=
  match bt_mesh_rpl_check SETTINGS TIMEOUT rx want_match bridge s with
  | (true, _, s) => (false, s)
  | (false, Some i, s) => (true, bt_mesh_rpl_update SETTINGS TIMEOUT i rx s)
  | (false, None, s) => (true, s)
  end.

Inductive rpl_event :=
  | EReceive (rx : bt_mesh_net_rx) (want_match bridge : bool)
  | EIvAdvance            (** the IV index moves on, [bt_mesh_rpl_reset] *)
  | EPendingStore (addr : Z).

(** PDUs the list is consulted for, with fields in the range the network layer
    decodes. *)
Definition event_ok (ev : rpl_event) : Prop :=
  match ev with
  | EReceive rx _ bridge =>
      rx_net_if rx <> BT_MESH_NET_IF_LOCAL /\ rx_local_match rx || bridge = true /\
      0 < rx_addr rx < 0x8000 /\ 0 <= rx_seq rx < 2 ^ 24
  | _ => True
  end.

(** State, IV index, and the accepted PDUs, latest first, as
    (source, IV index the PDU was secured with, sequence number). *)
Definition history : Type := rpl_state * Z * list (Z * Z * Z).

Definition rpl_step (SETTINGS TIMEOUT : bool) (h : history) (ev : rpl_event) : history :=
  let '(s, iv, acc) := h in
  match ev with
  | EReceive rx wm bridge =>
      let '(ok, s) := rpl_receive SETTINGS TIMEOUT rx wm bridge s in
      (s, iv, if ok then (rx_addr rx, iv - Z.b2z (rx_old_iv rx), rx_seq rx) :: acc else acc)
  | EIvAdvance => (bt_mesh_rpl_reset SETTINGS s, iv + 1, acc)
  | EPendingStore addr => (bt_mesh_rpl_pending_store SETTINGS addr s, iv, acc)
  end.

Definition rpl_run SETTINGS TIMEOUT (h : history) (evs : list rpl_event) : history :=
  foldl (rpl_step SETTINGS TIMEOUT) h evs.

(** Freshness order of PDUs: IV index first, then sequence number. *)
Definition iv_seq_lt (a b : Z * Z) : Prop := a.1 < b.1 \/ a.1 = b.1 /\ a.2 < b.2.
Definition iv_seq_le (a b : Z * Z) : Prop := a.1 < b.1 \/ a.1 = b.1 /\ a.2 <= b.2.

(** An entry the pending reset will remove, and that can be reused until then. *)
Definition dead (s : rpl_state) (i : nat) (e : bt_mesh_rpl) : Prop :=
  rpl_old_iv e = false /\ rs_reset s = true /\ rs_store s !! i = Some false.

(** An accepted PDU is remembered: too old to be accepted again, or covered by
    a live entry. *)
Definition covered (s : rpl_state) (iv : Z) (p : Z * Z * Z) : Prop :=
  let '(src, v, q) := p in
  v + 1 < iv \/
  exists i e, replay_list s !! i = Some e /\ rpl_src e = src /\ src <> 0 /\ ~ dead s i e /\
              iv_seq_le (v, q) (iv - Z.b2z (rpl_old_iv e), rpl_seq e).

Record trace_inv (SETTINGS : bool) (s : rpl_state) (iv : Z) (acc : list (Z * Z * Z)) : Prop := {
  ti_wf : rs_wf s;
  ti_clear : rs_clear s = false;
  ti_nosettings : SETTINGS = false ->
    rs_reset s = false /\ Forall (fun b => b = false) (rs_store s);
  ti_old : rs_reset s = true -> forall i e, replay_list s !! i = Some e ->
    rpl_src e <> 0 -> rpl_old_iv e = true -> rs_store s !! i = Some true;
  ti_acc : Forall (covered s iv) acc
}.

(** ** Scanning *)

Lemma rpl_scan_spec s rx l k i :
  rpl_scan s rx l k = Some i ->
  exists e, (k <= i)%nat /\ l !! (i - k)%nat = Some e /\
    (forall j e', (j < i - k)%nat -> l !! j = Some e' ->
       rpl_src e' <> 0 /\ rpl_src e' <> rx_addr rx) /\
    (rpl_src e = 0 \/
     rpl_src e = rx_addr rx /\
     (rpl_old_iv e = false /\ rs_reset s = true /\ store_bit s i = false \/
      iv_seq_lt (- Z.b2z (rpl_old_iv e), rpl_seq e) (- Z.b2z (rx_old_iv rx), rx_seq rx))).
Proof.
  revert k. induction l as [|e l IH]; intros k H; [done|]. simpl in H.
  destruct (rpl_src e =? 0) eqn:H0; [|destruct (rpl_src e =? rx_addr rx) eqn:H1].
  - simplify_eq. exists e. rewrite Nat.sub_diag. bool_to_prop.
    split_and!; [lia|done|intros; lia|by left].
  - exists e. bool_to_prop.
    assert (k = i /\ (rpl_old_iv e = false /\ rs_reset s = true /\ store_bit s i = false \/
      iv_seq_lt (- Z.b2z (rpl_old_iv e), rpl_seq e) (- Z.b2z (rx_old_iv rx), rx_seq rx)))
      as [-> Hacc].
    { unfold iv_seq_lt. simpl.
      destruct (rpl_old_iv e), (rx_old_iv rx), (rs_reset s), (store_bit s k) eqn:Hb; simpl in *;
        repeat (case_if_in H; bool_to_prop); simplify_eq/=;
        (split; [done|]); first [left; split_and!; by auto | right; lia]. }
    rewrite Nat.sub_diag. split_and!; [lia|done|intros; lia|by right].
  - apply IH in H as (e' & Hk & Hlk & Hbefore & He'). bool_to_prop.
    exists e'. replace (i - k)%nat with (S (i - S k)) by lia.
    split_and!; [lia|done| |done].
    intros [|j] e'' Hj Hl''; simpl in Hl''; [by simplify_eq|].
    apply (Hbefore j e''); [lia|done].
Qed.

(** ** Recording a PDU in the slot the scan found *)

Section Update.
Context (SETTINGS TIMEOUT : bool) (s : rpl_state) (rx : bt_mesh_net_rx) (i : nat) (e : bt_mesh_rpl).
Context (Hwf : rs_wf s) (Haddr : 0 < rx_addr rx < 0x8000) (Hseq : 0 <= rx_seq rx < 2 ^ 24).
Context (He : replay_list s !! i = Some e)
  (Hbefore : forall j e', (j < i)%nat -> replay_list s !! j = Some e' ->
     rpl_src e' <> 0 /\ rpl_src e' <> rx_addr rx)
  (Hsrc : rpl_src e = 0 \/ rpl_src e = rx_addr rx).

Definition updated : bt_mesh_rpl :=
  mk_rpl (rx_addr rx) (rx_old_iv rx) (rx_seq rx)
    (if rpl_old_iv e && negb (rx_old_iv rx) then 0 else rpl_seg e).

Lemma update_list :
  replay_list (bt_mesh_rpl_update SETTINGS TIMEOUT i rx s) = <[i := updated]> (replay_list s).
Proof.
  unfold bt_mesh_rpl_update. assert (slot s i = e) as -> by (by apply rpl_lookup_total).
  assert (u15 (rx_addr rx) = rx_addr rx) as -> by (apply Z.mod_small; lia).
  assert (u24 (rx_seq rx) = rx_seq rx) as -> by (apply Z.mod_small; lia).
  unfold schedule_rpl_store. by destruct SETTINGS, TIMEOUT.
Qed.

Lemma update_rest :
  rs_store (bt_mesh_rpl_update SETTINGS TIMEOUT i rx s) =
    (if SETTINGS then <[i := true]> (rs_store s) else rs_store s) /\
  rs_reset (bt_mesh_rpl_update SETTINGS TIMEOUT i rx s) = rs_reset s /\
  rs_clear (bt_mesh_rpl_update SETTINGS TIMEOUT i rx s) = rs_clear s /\
  rs_log (bt_mesh_rpl_update SETTINGS TIMEOUT i rx s) = rs_log s.
Proof. unfold bt_mesh_rpl_update, schedule_rpl_store. by destruct SETTINGS, TIMEOUT. Qed.

(** No other slot has the source of the PDU. *)
Lemma update_only j b :
  replay_list s !! j = Some b -> rpl_src b = rx_addr rx -> j = i.
Proof using Hwf Haddr He Hbefore Hsrc.
  intros Hb Hs. destruct (lt_eq_lt_dec j i) as [[Hlt|]|Hgt]; [|done|].
  - destruct (Hbefore j b Hlt Hb) as [_ ?]. done.
  - destruct (wf_list s Hwf) as [Hg Hu]. destruct Hsrc as [H0|H0].
    + assert (rpl_src b = 0) by (apply (Hg i j e b); auto; lia). lia.
    + apply (Hu j i b e); [done|done|congruence|lia].
Qed.

Lemma insert_cases j b :
  <[i := updated]> (replay_list s) !! j = Some b ->
  (j = i /\ b = updated) \/ (j <> i /\ replay_list s !! j = Some b).
Proof using.
  intros H. destruct (decide (j = i)) as [->|Hne].
  - apply list_lookup_insert_Some in H as [(_ & -> & _)|[? _]]; [by left|done].
  - rewrite list_lookup_insert_ne in H by done. by right.
Qed.

Lemma update_wf : rs_wf (bt_mesh_rpl_update SETTINGS TIMEOUT i rx s).
Proof using Hwf Haddr Hseq He Hbefore Hsrc.
  destruct update_rest as (Hst & _). destruct (wf_list s Hwf) as [Hg Hu].
  split; rewrite ?update_list.
  - split.
    + intros i0 j0 a b Ha Hb Hij H0.
      apply insert_cases in Ha as [[-> ->]|[Hi Ha]]; [simpl in H0; lia|].
      apply insert_cases in Hb as [[-> ->]|[Hj Hb]]; [|by apply (Hg i0 j0 a b)].
      destruct (Hbefore i0 a) as [? _]; [lia|done|done].
    + intros i0 j0 a b Ha Hb Hs Hne.
      apply insert_cases in Ha as [[-> ->]|[Hi Ha]];
        apply insert_cases in Hb as [[-> ->]|[Hj Hb]]; [done| | |by apply (Hu i0 j0 a b)].
      * symmetry. by apply (update_only j0 b).
      * by apply (update_only i0 a).
  - intros j a Ha H0. apply insert_cases in Ha as [[_ ->]|[_ Ha]]; [simpl in H0; lia|].
    by apply (wf_clean s Hwf j).
  - rewrite Hst, length_insert, <-(wf_len s Hwf). destruct SETTINGS; [|done]. apply length_insert.
  - intros j a Ha H0. apply insert_cases in Ha as [[_ ->]|[Hj Ha]]; [simpl in H0; lia|].
    rewrite Hst. destruct SETTINGS; [rewrite list_lookup_insert_ne by done|];
      by apply (wf_bits s Hwf j a).
Qed.
End Update.

Section Trace.
Context (SETTINGS TIMEOUT : bool).

Lemma rpl_receive_eq rx wm bridge s :
  event_ok (EReceive rx wm bridge) ->
  rpl_receive SETTINGS TIMEOUT rx wm bridge s =
    match rpl_scan s rx (replay_list s) 0 with
    | Some i => (true, bt_mesh_rpl_update SETTINGS TIMEOUT i rx s)
    | None => (false, s)
    end.
Proof.
  intros (Hif & Hm & _). unfold rpl_receive, bt_mesh_rpl_check.
  rewrite bool_decide_false by done.
  assert (negb (rx_local_match rx) && negb bridge = false) as ->
    by (destruct (rx_local_match rx), bridge; done).
  destruct (rpl_scan _ _ _ _); [by destruct wm|done].
Qed.

(** An accepted PDU is strictly fresher than every one accepted before from
    the same source. *)
Lemma receive_fresh rx s iv acc i :
  trace_inv SETTINGS s iv acc -> rpl_scan s rx (replay_list s) 0 = Some i ->
  0 < rx_addr rx < 0x8000 -> 0 <= rx_seq rx < 2 ^ 24 ->
  Forall (fun p => p.1.1 = rx_addr rx ->
    iv_seq_lt (p.1.2, p.2) (iv - Z.b2z (rx_old_iv rx), rx_seq rx)) acc.
Proof.
  intros [Hwf _ _ _ Hacc] Hscan Haddr Hseq.
  apply rpl_scan_spec in Hscan as (e & _ & He & Hbefore & He').
  rewrite Nat.sub_0_r in He, Hbefore.
  eapply list.Forall_impl; [exact Hacc|]. intros [[src v] q] Hcov Hs. simpl in *. subst src.
  destruct Hcov as [Hold|(j & b & Hb & Hs & Hne & Hlive & Hle)].
  { left. simpl. destruct (rx_old_iv rx); simpl; lia. }
  assert (j = i) as ->.
  { eapply (update_only s rx i e); eauto. destruct He' as [|[? _]]; auto. }
  rewrite He in Hb. simplify_eq. destruct He' as [?|[_ Hfresh]]; [lia|].
  destruct Hfresh as [(Ho & Hr & Hbit)|Hlt].
  - exfalso. apply Hlive. split_and!; [done|done|]. unfold store_bit in Hbit.
    destruct (rs_store s !! i) eqn:Hst; simpl in Hbit; [by rewrite Hbit|].
    apply lookup_ge_None in Hst. apply lookup_lt_Some in He. pose proof (wf_len s Hwf). lia.
  - unfold iv_seq_le, iv_seq_lt in *. simpl in *. lia.
Qed.

Lemma receive_inv rx s iv acc i :
  trace_inv SETTINGS s iv acc -> rpl_scan s rx (replay_list s) 0 = Some i ->
  0 < rx_addr rx < 0x8000 -> 0 <= rx_seq rx < 2 ^ 24 ->
  trace_inv SETTINGS (bt_mesh_rpl_update SETTINGS TIMEOUT i rx s) iv
    ((rx_addr rx, iv - Z.b2z (rx_old_iv rx), rx_seq rx) :: acc).
Proof.
  intros Hinv Hscan Haddr Hseq. pose proof (receive_fresh rx s iv acc i Hinv Hscan Haddr Hseq) as Hfresh.
  destruct Hinv as [Hwf Hc Hns Hold Hacc].
  apply rpl_scan_spec in Hscan as (e & _ & He & Hbefore & He').
  rewrite Nat.sub_0_r in He, Hbefore.
  assert (rpl_src e = 0 \/ rpl_src e = rx_addr rx) as Hsrc by (destruct He' as [|[? _]]; auto).
  destruct (update_rest SETTINGS TIMEOUT s rx i) as (Hst & Hr & Hcl & _).
  pose proof (update_list SETTINGS TIMEOUT s rx i e Haddr Hseq He) as Hlist.
  assert (Hnew : replay_list (bt_mesh_rpl_update SETTINGS TIMEOUT i rx s) !! i
                 = Some (updated rx e)).
  { rewrite Hlist. apply list_lookup_insert_eq. by eapply lookup_lt_Some. }
  assert (Hlive : ~ dead (bt_mesh_rpl_update SETTINGS TIMEOUT i rx s) i (updated rx e)).
  { intros (_ & Hr' & Hs'). rewrite Hr in Hr'. rewrite Hst in Hs'.
    destruct SETTINGS; [|by destruct (Hns eq_refl); congruence].
    rewrite list_lookup_insert_eq in Hs'; [done|]. rewrite (wf_len s Hwf).
    by eapply lookup_lt_Some. }
  split.
  - by eapply update_wf.
  - by rewrite Hcl.
  - intros Hs. rewrite Hr, Hst. destruct SETTINGS; [done|]. by apply Hns.
  - rewrite Hr, Hst, Hlist. intros Hrs j b Hb Hne Ho.
    destruct SETTINGS; [|by destruct (Hns eq_refl); congruence].
    apply insert_cases in Hb as [[-> ->]|[Hj Hb]].
    + apply list_lookup_insert_eq. rewrite (wf_len s Hwf). by eapply lookup_lt_Some.
    + rewrite list_lookup_insert_ne by done. by eapply Hold.
  - constructor.
    + right. exists i, (updated rx e). split_and!; [done|done|lia|done|].
      right. simpl. lia.
    + apply list.Forall_forall. intros [[src v] q] Hin.
      pose proof (proj1 (list.Forall_forall _ _) Hacc _ Hin) as Hcov.
      pose proof (proj1 (list.Forall_forall _ _) Hfresh _ Hin) as Hf. simpl in Hf.
      destruct Hcov as [|(j & b & Hb & Hs & Hne & Hl & Hle)]; [by left|]. right.
      destruct (decide (j = i)) as [->|Hj].
      * exists i, (updated rx e). rewrite He in Hb. simplify_eq.
        destruct Hsrc as [?|Hsrc]; [lia|]. rewrite Hsrc in Hf.
        split_and!; [done|simpl; lia|lia|done|]. specialize (Hf eq_refl).
        unfold iv_seq_lt, iv_seq_le in *. simpl in *. lia.
      * exists j, b. rewrite Hlist, list_lookup_insert_ne by done.
        split_and!; [done|done|done| |done]. intros (Ho & Hr' & Hs'). apply Hl.
        rewrite Hr in Hr'. rewrite Hst in Hs'. destruct SETTINGS; [|by split_and!].
        rewrite list_lookup_insert_ne in Hs' by done. by split_and!.
Qed.
End Trace.

(** ** The other events keep accepted PDUs covered *)

(** An entry that is still in the list, under any slot, covers what it did. *)
Lemma covered_by s iv src v q e :
  e ∈ replay_list s -> rpl_src e = src -> src <> 0 -> rs_reset s = false \/ rpl_old_iv e = true ->
  iv_seq_le (v, q) (iv - Z.b2z (rpl_old_iv e), rpl_seq e) -> covered s iv (src, v, q).
Proof.
  intros Hin Hs Hne Hr Hle. apply list_elem_of_lookup in Hin as [i Hi].
  right. exists i, e. split_and!; auto. intros (Ho & Hr' & _). destruct Hr; congruence.
Qed.

Lemma reset_covered SETTINGS s iv acc :
  trace_inv SETTINGS s iv acc ->
  Forall (covered (bt_mesh_rpl_reset SETTINGS s) (iv + 1)) acc.
Proof.
  intros [Hwf _ Hns _ Hacc]. eapply list.Forall_impl; [exact Hacc|]. intros [[src v] q] Hcov.
  destruct Hcov as [|(i & e & Hi & Hs & Hne & _ & Hle)]; [left; lia|].
  unfold iv_seq_le in Hle. simpl in Hle.
  destruct (rpl_old_iv e) eqn:Ho; simpl in Hle; [left; lia|].
  apply (covered_by _ _ _ _ _ (mark_old e)); [|done|done|by right|].
  - destruct SETTINGS.
    + rewrite bt_mesh_rpl_reset_deferred by (apply Hwf || by intros Hn; rewrite Hn in Hi).
      simpl. apply list_elem_of_lookup. exists i. rewrite list_lookup_fmap, Hi. simpl.
      unfold toggle_old. rewrite (proj2 (Z.eqb_neq _ _)) by congruence. by rewrite Ho.
    + rewrite bt_mesh_rpl_reset_compact by done. simpl. apply elem_of_app. left.
      apply list_elem_of_fmap. exists e. split; [done|]. apply list_elem_of_filter.
      split; [split; congruence|]. apply list_elem_of_lookup. eauto.
  - unfold iv_seq_le. simpl. lia.
Qed.

Lemma reset_inv SETTINGS s iv acc :
  trace_inv SETTINGS s iv acc -> trace_inv SETTINGS (bt_mesh_rpl_reset SETTINGS s) (iv + 1) acc.
Proof.
  intros Hinv. pose proof (reset_covered _ _ _ _ Hinv) as Hcov.
  destruct Hinv as [Hwf Hc Hns Hold _]. destruct SETTINGS.
  - assert (rs_wf (bt_mesh_rpl_reset true s)) as Hwf' by by apply reset_deferred_wf.
    destruct (decide (replay_list s = [])) as [Hn|Hn].
    { assert (bt_mesh_rpl_reset true s = s) as Heq
        by (unfold bt_mesh_rpl_reset; by rewrite Hn).
      rewrite Heq in *. by split. }
    split; [done| |done| |done].
    + by rewrite bt_mesh_rpl_reset_deferred by (done || apply Hwf).
    + rewrite bt_mesh_rpl_reset_deferred by (done || apply Hwf). simpl.
      intros _ i e He Hne Ho. rewrite list_lookup_fmap in He.
      destruct (replay_list s !! i) as [e'|] eqn:He'; simplify_eq/=.
      assert (is_Some (rs_store s !! i)) as [b Hb].
      { apply lookup_lt_is_Some. rewrite (wf_len s Hwf). by eapply lookup_lt_Some. }
      rewrite lookup_zip_with, He', Hb. simpl. f_equal.
      unfold toggle_old, keep_bit in *. by destruct (rpl_src e' =? 0) eqn:Hz; bool_to_prop.
  - destruct (Hns eq_refl) as [Hr Hb].
    assert (rs_wf (bt_mesh_rpl_reset false s)) as Hwf' by by apply reset_compact_wf.
    rewrite bt_mesh_rpl_reset_compact in * by done.
    split; simpl; [done|done|done|congruence|done].
Qed.

Lemma pending_kept s i e :
  rs_wf s -> replay_list s !! i = Some e -> ~ dead s i e ->
  (rs_reset s = true -> rpl_old_iv e = true -> rs_store s !! i = Some true) ->
  e ∈ kept s.
Proof.
  intros Hwf Hi Hl Hold. assert (is_Some (rs_store s !! i)) as [b Hb].
  { apply lookup_lt_is_Some. rewrite (wf_len s Hwf). by eapply lookup_lt_Some. }
  unfold kept. apply list_elem_of_In, in_concat.
  exists (kept_of (rs_reset s) (e, b)). split.
  - apply list_elem_of_In, list_elem_of_fmap. exists (e, b). split; [done|].
    apply list_elem_of_lookup. exists i. apply lookup_zip_Some. done.
  - unfold kept_of. simpl. destruct b; [by left|]. destruct (rs_reset s) eqn:Hr; [|by left].
    exfalso. destruct (rpl_old_iv e) eqn:Ho; [|by apply Hl].
    rewrite (Hold eq_refl eq_refl) in Hb. done.
Qed.

Lemma pending_inv_trace SETTINGS addr s iv acc :
  trace_inv SETTINGS s iv acc ->
  trace_inv SETTINGS (bt_mesh_rpl_pending_store SETTINGS addr s) iv acc.
Proof.
  intros [Hwf Hc Hns Hold Hacc]. destruct SETTINGS; [|by split].
  destruct (decide (addr = BT_MESH_ADDR_ALL_NODES)) as [->|Ha].
  - fold (bt_mesh_rpl_pending_store_all_nodes true s).
    assert (rs_wf (bt_mesh_rpl_pending_store_all_nodes true s)) as Hwf' by by apply pending_all_wf.
    destruct (bt_mesh_rpl_pending_all_spec s Hwf Hc) as [Heq _]. rewrite Heq in *.
    split; simpl; [done|done|done|done|].
    eapply list.Forall_impl; [exact Hacc|]. intros [[src v] q] [|(i & e & Hi & Hs & Hne & Hl & Hle)].
    { by left. }
    apply (covered_by _ _ _ _ _ e); [|done|done|by left|done].
    simpl. apply elem_of_app. left. apply (pending_kept s i e); auto.
    intros Hr Ho. apply (Hold Hr i e); auto. congruence.
  - destruct (pending_store_unicast s addr Ha Hc) as (t & Ht & [->| ->]); [by split|].
    pose proof Ht as (Hl & Hc' & _).
    split; simpl; [|congruence|done|done|].
    { apply rs_wf_reset. by eapply bits_cleared_wf. }
    eapply list.Forall_impl; [exact Hacc|].
    intros [[src v] q] [|(i & e & Hi & Hs & Hne & _ & Hle)]; [by left|].
    apply (covered_by _ _ _ _ _ e); [|done|done|by left|done].
    simpl. rewrite Hl. apply list_elem_of_lookup. eauto.
Qed.

(** Every step keeps the invariant and the order of the accepted PDUs. *)
Definition newest_first (p q : Z * Z * Z) : Prop :=
  p.1.1 = q.1.1 -> iv_seq_lt (q.1.2, q.2) (p.1.2, p.2).

Lemma rpl_step_inv SETTINGS TIMEOUT ev s iv acc s' iv' acc' :
  event_ok ev -> rpl_step SETTINGS TIMEOUT (s, iv, acc) ev = (s', iv', acc') ->
  trace_inv SETTINGS s iv acc -> StronglySorted newest_first acc ->
  trace_inv SETTINGS s' iv' acc' /\ StronglySorted newest_first acc'.
Proof.
  intros Hok Hstep Hinv Hsort. destruct ev as [rx wm bridge| |addr]; simpl in Hstep.
  - rewrite rpl_receive_eq in Hstep by done. destruct Hok as (_ & _ & Ha & Hq).
    destruct (rpl_scan _ _ _ _) as [i|] eqn:Hscan; simplify_eq; [|done]. split.
    + by apply receive_inv.
    + constructor; [done|]. eapply list.Forall_impl; [by eapply receive_fresh|].
      intros p Hp Hs. simpl in *. by apply Hp.
  - simplify_eq. split; [by apply reset_inv|done].
  - simplify_eq. split; [by apply pending_inv_trace|done].
Qed.

Lemma trace_inv_init SETTINGS crpl iv : trace_inv SETTINGS (rpl_init crpl) iv [].
Proof.
  split; [apply rs_wf_init|done| |done|done].
  intros _. split; [done|]. simpl. by apply Forall_replicate.
Qed.

(** C1: Replay protection.  Whatever PDUs arrive, with IV index advances and
    deferred stores of one or all nodes in between and with either setting of
    the build options, the PDUs accepted from one source are strictly
    increasing in (IV index, sequence number): no PDU is accepted twice, nor
    after a newer one. *)
Theorem rpl_replay_protection SETTINGS TIMEOUT crpl iv evs s iv' acc :
  Forall event_ok evs ->
  rpl_run SETTINGS TIMEOUT (rpl_init crpl, iv, []) evs = (s, iv', acc) ->
  StronglySorted newest_first acc /\ rs_wf s.
Proof.
  intros Hok Hrun.
  assert (forall h, trace_inv SETTINGS h.1.1 h.1.2 h.2 -> StronglySorted newest_first h.2 ->
    rpl_run SETTINGS TIMEOUT h evs = (s, iv', acc) ->
    trace_inv SETTINGS s iv' acc /\ StronglySorted newest_first acc) as H.
  { clear Hrun. induction Hok as [|ev evs Hev _ IH]; intros [[s0 iv0] acc0] Hi Hs Hr;
      cbn [fst snd] in *.
    - unfold rpl_run in Hr. simpl in Hr. by simplify_eq.
    - destruct (rpl_step SETTINGS TIMEOUT (s0, iv0, acc0) ev) as [[s1 iv1] acc1] eqn:Hst.
      destruct (rpl_step_inv _ _ _ _ _ _ _ _ _ Hev Hst Hi Hs).
      apply (IH (s1, iv1, acc1)); [done|done|]. unfold rpl_run in *. cbn [foldl] in Hr.
      by rewrite Hst in Hr. }
  destruct (H (rpl_init crpl, iv, []) (trace_inv_init SETTINGS crpl iv) (SSorted_nil _) Hrun)
    as [[Hwf _ _ _ _] ?].
  done.
Qed.

Definition sample_rx (addr seq : Z) (old_iv : bool) : bt_mesh_net_rx :=
  mk_rx 0 addr 1 5 0 seq old_iv false false false BT_MESH_NET_IF_ADV true false 0 0.

Definition sample_events : list rpl_event :=
  [EReceive (sample_rx 7 10 false) true false; EReceive (sample_rx 7 10 false) true false;
   EIvAdvance; EReceive (sample_rx 7 11 true) false false; EIvAdvance;
   EReceive (sample_rx 7 3 true) true false; EPendingStore BT_MESH_ADDR_ALL_NODES;
   EReceive (sample_rx 7 3 true) true false].

Lemma sample_events_ok : Forall event_ok sample_events.
Proof. repeat constructor; done. Qed.

Example sample_run :
  (rpl_run true true (rpl_init 2, 4, []) sample_events).2 = [(7, 5, 3); (7, 4, 11); (7, 4, 10)].
Proof. reflexivity. Qed.

Lemma rpl_replay_protection_witness :
  StronglySorted newest_first (rpl_run true true (rpl_init 2, 4, []) sample_events).2.
Proof.
  refine (proj1 (rpl_replay_protection true true 2 4 sample_events
    (rpl_run true true (rpl_init 2, 4, []) sample_events).1.1
    (rpl_run true true (rpl_init 2, 4, []) sample_events).1.2 _ sample_events_ok _)).
  vm_compute. reflexivity.
Defined.

(** * What the check answers *)

(** The answer of the check.  On a settled list (no reset pending) a PDU is
    a replay exactly when its source has an entry that is at least as fresh, or
    has none and no slot is free; the list is changed only when the PDU is
    accepted and no match pointer is given. *)
Theorem bt_mesh_rpl_check_spec SETTINGS TIMEOUT rx wm bridge s replay m s' :
  rs_wf s -> rs_reset s = false -> event_ok (EReceive rx wm bridge) ->
  bt_mesh_rpl_check SETTINGS TIMEOUT rx wm bridge s = (replay, m, s') ->
  (replay = true <->
    (exists e, e ∈ replay_list s /\ rpl_src e = rx_addr rx /\
       iv_seq_le (- Z.b2z (rx_old_iv rx), rx_seq rx) (- Z.b2z (rpl_old_iv e), rpl_seq e)) \/
    (forall e, e ∈ replay_list s -> rpl_src e <> 0 /\ rpl_src e <> rx_addr rx)) /\
  (replay = true \/ wm = true -> s' = s) /\
  (replay = false -> wm = true -> is_Some m).
Proof.
  intros Hwf Hr (Hif & Hm & Ha & Hq). unfold bt_mesh_rpl_check.
  rewrite bool_decide_false by done.
  assert (negb (rx_local_match rx) && negb bridge = false) as ->
    by (destruct (rx_local_match rx), bridge; done).
  destruct (rpl_scan s rx (replay_list s) 0) as [i|] eqn:Hscan.
  - intros Heq. assert (replay = false) as -> by (destruct wm; by simplify_eq).
    split_and!; [|by intros [| ->]; simplify_eq|intros _ ->; simplify_eq; eauto].
    split; [done|]. apply rpl_scan_spec in Hscan as (e & _ & He & Hbefore & Hsrc).
    rewrite Nat.sub_0_r in He, Hbefore.
    intros [(b & Hb & Hs & Hle)|Hfull].
    + apply list_elem_of_lookup in Hb as [j Hj].
      assert (j = i) as -> by (eapply (update_only s rx i e); eauto; destruct Hsrc as [|[? _]]; auto).
      simplify_eq. destruct Hsrc as [?|[_ [(_ & ? & _)|Hlt]]]; [lia|congruence|].
      unfold iv_seq_le, iv_seq_lt in *. simpl in *. lia.
    + destruct (Hfull e); [apply list_elem_of_lookup; eauto|]. destruct Hsrc as [|[? _]]; done.
  - intros ?. simplify_eq. split_and!; [|done|done]. split; [intros _|done].
    revert Hscan. generalize O. clear Hwf. induction (replay_list s') as [|e l IH]; intros k Hscan.
    { right. intros e He. by apply not_elem_of_nil in He. }
    simpl in Hscan. destruct (rpl_src e =? 0) eqn:H0; [done|].
    destruct (rpl_src e =? rx_addr rx) eqn:H1; bool_to_prop.
    + left. exists e. rewrite elem_of_cons. split_and!; [by left|done|].
      rewrite Hr, andb_false_r in Hscan. simpl in Hscan. unfold iv_seq_le. simpl.
      destruct (rpl_old_iv e), (rx_old_iv rx); simpl in *; try case_if_in Hscan; bool_to_prop;
        simplify_eq/=; lia.
    + destruct (IH _ Hscan) as [(b & Hb & Hrest)|Hall].
      * left. exists b. rewrite elem_of_cons. auto.
      * right. intros b [->|Hb]%elem_of_cons; auto.
Qed.

Lemma bt_mesh_rpl_check_spec_witness :
  (true = true <->
    (exists e, e ∈ replay_list sample_state /\ rpl_src e = 5 /\
       iv_seq_le (0, 7) (- Z.b2z (rpl_old_iv e), rpl_seq e)) \/
    (forall e, e ∈ replay_list sample_state -> rpl_src e <> 0 /\ rpl_src e <> 5)).
Proof.
  refine (proj1 (bt_mesh_rpl_check_spec true true (sample_rx 5 7 false) true false sample_state
    true None sample_state sample_state_wf eq_refl _ eq_refl)).
  repeat split; done.
Defined.

(** * A store request for one node drops the flags of all *)

(** After [bt_mesh_rpl_clear] the list is to be emptied by the deferred job.
    A [bt_mesh_rpl_pending_store] for one node consumes the flag without
    clearing the list, so the job that follows leaves every entry in place. *)
Lemma rpl_clear_lost_by_unicast_store :
  let s := bt_mesh_rpl_clear true sample_state in
  let t := bt_mesh_rpl_pending_store_all_nodes true (bt_mesh_rpl_pending_store true 5 s) in
  replay_list t = replay_list sample_state /\
  replay_list (bt_mesh_rpl_pending_store_all_nodes true s) = replicate 3 rpl_zero.
Proof. vm_compute. done. Qed.

(** Likewise for a pending reset: the entry of the discarded IV index stays, and
    a fresh PDU of its source is then taken for a replay. *)
Lemma rpl_reset_lost_by_unicast_store :
  let s := bt_mesh_rpl_reset true sample_state in
  let rx := sample_rx 3 1 true in
  (bt_mesh_rpl_check true true rx true false
     (bt_mesh_rpl_pending_store_all_nodes true (bt_mesh_rpl_pending_store true 5 s))).1.1 = true /\
  (bt_mesh_rpl_check true true rx true false
     (bt_mesh_rpl_pending_store_all_nodes true s)).1.1 = false.
Proof. vm_compute. done. Qed.
