(* ===== verification/Bridge.v ===== *)
(** The subnet bridge table: [mesh/brg_cfg.c].

    [brg_tbl] is an array of [CONFIG_BT_MESH_BRG_TABLE_ITEMS_MAX] rows of which
    the first [bt_mesh_brg_cfg_row_cnt] are in use.  Which NetKey indexes name a
    subnet ([bt_mesh_subnet_get]) is a parameter, supplied by [Subnet].  The
    operations sent to persistent storage are kept in [brg_log]; [storage_rc]
    is what the storage answers. *)

From S2P Require Import Prelude MeshDefs.

(** * State *)

Record bt_mesh_brg_cfg_row := mk_row {
  row_direction : Z;  (** 8 bits; 0 no entry, 1 one way, 2 two ways *)
  row_net_idx1 : Z;   (** 12 bits *)
  row_net_idx2 : Z;
  row_addr1 : Z;
  row_addr2 : Z
}.

#[export] Instance row_eq_dec : EqDecision bt_mesh_brg_cfg_row.
Proof. solve_decision. Defined.

Definition zero_row : bt_mesh_brg_cfg_row := mk_row 0 0 0 0 0.
#[export] Instance row_inhabited : Inhabited bt_mesh_brg_cfg_row := populate zero_row.

Definition BT_MESH_BRG_CFG_KEY_INDEX_MAX : Z := 0x0FFF.
Definition BT_MESH_BRG_CFG_DIR_ONEWAY : Z := 1.
Definition BT_MESH_BRG_CFG_DIR_TWOWAY : Z := 2.

Inductive brg_storage_op :=
  | SaveEnable (on : bool) | DeleteEnable
  | SaveTable (rows : list bt_mesh_brg_cfg_row) | DeleteTable.

Record brg_state := mk_brg {
  brg_tbl : list bt_mesh_brg_cfg_row;
  bt_mesh_brg_cfg_row_cnt : nat;
  brg_enabled : bool;
  state_updated : bool;      (** flag [STATE_UPDATED] *)
  table_updated : bool;      (** flag [TABLE_UPDATED] *)
  brg_sched : bool;          (** [BT_MESH_SETTINGS_BRG_PENDING] scheduled *)
  brg_log : list brg_storage_op
}.

Definition brg_init (max : nat) : brg_state :=
  mk_brg (replicate max zero_row) 0 false false false false [].

Definition set_tbl (t : list bt_mesh_brg_cfg_row) (n : nat) (s : brg_state) : brg_state :=
  mk_brg t n (brg_enabled s) (state_updated s) (table_updated s) (brg_sched s) (brg_log s).
Definition set_enabled (b : bool) (s : brg_state) : brg_state :=
  mk_brg (brg_tbl s) (bt_mesh_brg_cfg_row_cnt s) b (state_updated s) (table_updated s)
    (brg_sched s) (brg_log s).
Definition set_flags (su tu sched : bool) (s : brg_state) : brg_state :=
  mk_brg (brg_tbl s) (bt_mesh_brg_cfg_row_cnt s) (brg_enabled s) su tu sched (brg_log s).
Definition brg_emit (o : brg_storage_op) (s : brg_state) : brg_state :=
  mk_brg (brg_tbl s) (bt_mesh_brg_cfg_row_cnt s) (brg_enabled s) (state_updated s)
    (table_updated s) (brg_sched s) (brg_log s ++ [o]).

(** The rows in use. *)
Definition rows (s : brg_state) : list bt_mesh_brg_cfg_row :=
  take (bt_mesh_brg_cfg_row_cnt s) (brg_tbl s).

(** * Operations *)

Section Config.
Context (SETTINGS : bool) (storage_rc : brg_storage_op -> Z).
(** [bt_mesh_subnet_get(net_idx) != NULL]. *)
Context (subnet_exists : Z -> bool).

(** Marks the table for storing, as three of the operations end. *)
Definition mark_table (s : brg_state) : brg_state :=
  if SETTINGS then set_flags (state_updated s) true true s else s.

Definition compact_body (k : nat) (c : list bt_mesh_brg_cfg_row * nat)
  : list bt_mesh_brg_cfg_row * nat :=
  let '(t, j) := c in
  if negb (row_direction (t !!! k) =? 0) then (<[j := t !!! k]> t, S j) else (t, j).

Definition brg_tbl_compact (j : nat) (s : brg_state) : brg_state :=
  let cnt := bt_mesh_brg_cfg_row_cnt s in
  let '(t, j) := for_to (cnt - j) j compact_body (brg_tbl s, j) in
  set_tbl (fill zero_row j (cnt - j) t) j s.

(** [brg_en_set]: [val] is what [bt_mesh_settings_set] delivers. *)
Definition brg_en_set (len_rd : Z) (val : bool + Z) (s : brg_state) : Z * brg_state :=
  if len_rd =? 0 then (0, set_enabled false s)
  else match val with
       | inr err => (err, s)
       | inl b => (0, set_enabled b s)
       end.

(** [brg_tbl_set]: [read_cb] returns [len] after writing [data] over the first
    rows; a row takes 8 bytes. *)
Definition brg_tbl_set (len_rd len : Z) (data : list bt_mesh_brg_cfg_row) (s : brg_state)
  : Z * brg_state :=
  let max := zlen (brg_tbl s) in
  if len_rd =? 0 then (0, set_tbl (replicate (length (brg_tbl s)) zero_row) 0 s)
  else if negb (len_rd mod 8 =? 0) then (- EINVAL, s)
  else if max * 8 <? len_rd then (- ENOMEM, s)
  else
    let s := set_tbl (data ++ drop (length data) (brg_tbl s)) (bt_mesh_brg_cfg_row_cnt s) s in
    if (len <? 0) || negb (Z.rem len 8 =? 0) then (if len <? 0 then len else - EINVAL, s)
    else (0, set_tbl (brg_tbl s) (Z.to_nat (len / 8)) s).

Definition bt_mesh_brg_cfg_enable_get (s : brg_state) : bool := brg_enabled s.

Definition bt_mesh_brg_cfg_enable_set (enable : bool) (s : brg_state) : Z * brg_state :=
  if Bool.eqb (brg_enabled s) enable then (0, s)
  else
    let s := set_enabled enable s in
    (0, if SETTINGS then set_flags true (table_updated s) true s else s).

Definition bt_mesh_brg_cfg_pending_store (s : brg_state) : brg_state :=
  let s :=
    if state_updated s then
      brg_emit (if brg_enabled s then SaveEnable true else DeleteEnable)
        (set_flags false (table_updated s) (brg_sched s) s)
    else s in
  if table_updated s then
    brg_emit (if (bt_mesh_brg_cfg_row_cnt s =? 0)%nat then DeleteTable else SaveTable (rows s))
      (set_flags (state_updated s) false (brg_sched s) s)
  else s.

(** The marking loops: the table with the matching rows' direction cleared, and
    [first_removed]. *)
Definition mark_body (p : bt_mesh_brg_cfg_row -> bool) (i : nat)
    (c : list bt_mesh_brg_cfg_row * option nat) : list bt_mesh_brg_cfg_row * option nat :=
  let '(t, first_removed) := c in
  let r := t !!! i in
  if p r then
    (<[i := mk_row 0 (row_net_idx1 r) (row_net_idx2 r) (row_addr1 r) (row_addr2 r)]> t,
     match first_removed with None => Some i | Some f => Some f end)
  else (t, first_removed).

Definition remove_rows (p : bt_mesh_brg_cfg_row -> bool) (s : brg_state) : brg_state :=
  let '(t, first_removed) :=
    for_to (bt_mesh_brg_cfg_row_cnt s) 0 (mark_body p) (brg_tbl s, None) in
  let s := set_tbl t (bt_mesh_brg_cfg_row_cnt s) s in
  match first_removed with
  | None => s
  | Some j => mark_table (brg_tbl_compact j s)
  end.

Definition brg_tbl_netkey_removed_evt (net_idx : Z) (deleted : bool) (s : brg_state) : brg_state :=
  if negb deleted then s
  else remove_rows (fun r => (row_net_idx1 r =? net_idx) || (row_net_idx2 r =? net_idx)) s.

Definition bt_mesh_brg_cfg_tbl_reset (s : brg_state) : Z * brg_state :=
  let s := set_flags false false (brg_sched s)
             (set_tbl (replicate (length (brg_tbl s)) zero_row) 0 (set_enabled false s)) in
  if negb SETTINGS then (0, s)
  else
    let err := storage_rc DeleteEnable in
    let s := brg_emit DeleteEnable s in
    if negb (err =? 0) then (err, s) else (storage_rc DeleteTable, brg_emit DeleteTable s).

Definition bt_mesh_brg_cfg_tbl_get (s : brg_state) : Z * list bt_mesh_brg_cfg_row :=
  (Z.of_nat (bt_mesh_brg_cfg_row_cnt s), brg_tbl s).

Definition netkey_check (net_idx1 net_idx2 : Z) : bool :=
  subnet_exists net_idx1 && subnet_exists net_idx2.

Definition same_row (net_idx1 net_idx2 addr1 addr2 : Z) (r : bt_mesh_brg_cfg_row) : bool :=
  (row_net_idx1 r =? net_idx1) && (row_net_idx2 r =? net_idx2) &&
  (row_addr1 r =? addr1) && (row_addr2 r =? addr2).

(** The first row in use that satisfies [p]. *)
Fixpoint find_row (p : bt_mesh_brg_cfg_row -> bool) (l : list bt_mesh_brg_cfg_row) (i : nat)
  : option nat :=
  match l with
  | [] => None
  | r :: l => if p r then Some i else find_row p l (S i)
  end.

(** The result and [*status]; an empty status is one that was not written. *)
Definition bt_mesh_brg_cfg_tbl_add (direction net_idx1 net_idx2 addr1 addr2 : Z) (s : brg_state)
  : Z * option Z * brg_state :=
  if negb (BT_MESH_ADDR_IS_UNICAST addr1) || (net_idx1 =? net_idx2) || (addr1 =? addr2) ||
     (BT_MESH_BRG_CFG_KEY_INDEX_MAX <? net_idx1) || (BT_MESH_BRG_CFG_KEY_INDEX_MAX <? net_idx2)
  then (- EINVAL, None, s)
  else if negb (direction =? BT_MESH_BRG_CFG_DIR_ONEWAY) &&
          negb (direction =? BT_MESH_BRG_CFG_DIR_TWOWAY)
  then (- EINVAL, None, s)
  else if ((direction =? BT_MESH_BRG_CFG_DIR_ONEWAY) &&
           ((addr2 =? BT_MESH_ADDR_UNASSIGNED) || (addr2 =? BT_MESH_ADDR_ALL_NODES))) ||
          ((direction =? BT_MESH_BRG_CFG_DIR_TWOWAY) && negb (BT_MESH_ADDR_IS_UNICAST addr2))
  then (- EINVAL, None, s)
  else if negb (netkey_check net_idx1 net_idx2) then (0, Some STATUS_INVALID_NETKEY, s)
  else
    let cnt := bt_mesh_brg_cfg_row_cnt s in
    match find_row (same_row net_idx1 net_idx2 addr1 addr2) (rows s) 0 with
    | Some i =>
        let r := brg_tbl s !!! i in
        let r := mk_row direction (row_net_idx1 r) (row_net_idx2 r) (row_addr1 r) (row_addr2 r) in
        (0, Some STATUS_SUCCESS, mark_table (set_tbl (<[i := r]> (brg_tbl s)) cnt s))
    | None =>
        if (length (brg_tbl s) <=? cnt)%nat then (0, Some STATUS_INSUFF_RESOURCES, s)
        else
          (0, Some STATUS_SUCCESS,
           mark_table
             (set_tbl (<[cnt := mk_row direction net_idx1 net_idx2 addr1 addr2]> (brg_tbl s))
                (S cnt) s))
    end.

(** The NetKey indexes the callback is given, in order. *)
Definition row_match (src dst net_idx : Z) (r : bt_mesh_brg_cfg_row) : list Z :=
  if ((row_direction r =? BT_MESH_BRG_CFG_DIR_ONEWAY) ||
      (row_direction r =? BT_MESH_BRG_CFG_DIR_TWOWAY)) &&
     (row_net_idx1 r =? net_idx) && (row_addr1 r =? src) && (row_addr2 r =? dst)
  then [row_net_idx2 r]
  else if (row_direction r =? BT_MESH_BRG_CFG_DIR_TWOWAY) &&
          (row_net_idx2 r =? net_idx) && (row_addr2 r =? src) && (row_addr1 r =? dst)
  then [row_net_idx1 r]
  else [].

Definition bt_mesh_brg_cfg_tbl_foreach_subnet (src dst net_idx : Z) (s : brg_state) : list Z :=
  concat (map (row_match src dst net_idx) (rows s)).

(** Which rows a removal concerns: an unassigned address is a wildcard. *)
Definition removed_row (net_idx1 net_idx2 addr1 addr2 : Z) (r : bt_mesh_brg_cfg_row) : bool :=
  if negb ((row_net_idx1 r =? net_idx1) && (row_net_idx2 r =? net_idx2)) then false
  else ((row_addr1 r =? addr1) && (row_addr2 r =? addr2)) ||
       ((addr2 =? BT_MESH_ADDR_UNASSIGNED) && (row_addr1 r =? addr1)) ||
       ((addr1 =? BT_MESH_ADDR_UNASSIGNED) && (row_addr2 r =? addr2)).

Definition bt_mesh_brg_cfg_tbl_remove (net_idx1 net_idx2 addr1 addr2 : Z) (s : brg_state)
  : Z * option Z * brg_state :=
  if (negb (BT_MESH_ADDR_IS_UNICAST addr1) && negb (addr1 =? BT_MESH_ADDR_UNASSIGNED)) ||
     (BT_MESH_ADDR_IS_UNICAST addr1 && (addr1 =? addr2)) || (addr2 =? BT_MESH_ADDR_ALL_NODES)
  then (- EINVAL, None, s)
  else if (net_idx1 =? net_idx2) || (BT_MESH_BRG_CFG_KEY_INDEX_MAX <? net_idx1) ||
          (BT_MESH_BRG_CFG_KEY_INDEX_MAX <? net_idx2)
  then (- EINVAL, None, s)
  else if negb (netkey_check net_idx1 net_idx2) then (0, Some STATUS_INVALID_NETKEY, s)
  else if (bt_mesh_brg_cfg_row_cnt s =? 0)%nat then (0, Some STATUS_SUCCESS, s)
  else (0, Some STATUS_SUCCESS, remove_rows (removed_row net_idx1 net_idx2 addr1 addr2) s).
End Config.

(** * Well-formed tables *)

Definition row_key (r : bt_mesh_brg_cfg_row) : Z * Z * Z * Z :=
  (row_net_idx1 r, row_net_idx2 r, row_addr1 r, row_addr2 r).

(** What [bt_mesh_brg_cfg_tbl_add] admits. *)
Definition row_okb (r : bt_mesh_brg_cfg_row) : bool :=
  BT_MESH_ADDR_IS_UNICAST (row_addr1 r) && negb (row_net_idx1 r =? row_net_idx2 r) &&
  negb (row_addr1 r =? row_addr2 r) &&
  negb (BT_MESH_BRG_CFG_KEY_INDEX_MAX <? row_net_idx1 r) &&
  negb (BT_MESH_BRG_CFG_KEY_INDEX_MAX <? row_net_idx2 r) &&
  ((row_direction r =? BT_MESH_BRG_CFG_DIR_ONEWAY) &&
     negb (row_addr2 r =? BT_MESH_ADDR_UNASSIGNED) && negb (row_addr2 r =? BT_MESH_ADDR_ALL_NODES) ||
   (row_direction r =? BT_MESH_BRG_CFG_DIR_TWOWAY) && BT_MESH_ADDR_IS_UNICAST (row_addr2 r)).
Definition row_ok (r : bt_mesh_brg_cfg_row) : Prop := row_okb r = true.

(** [l] is what the table holds: the used rows are [l], the others are zero. *)
Definition brg_rep (max : nat) (s : brg_state) (l : list bt_mesh_brg_cfg_row) : Prop :=
  bt_mesh_brg_cfg_row_cnt s = length l /\ (length l <= max)%nat /\
  brg_tbl s = l ++ replicate (max - length l) zero_row.

Definition table_ok (l : list bt_mesh_brg_cfg_row) : Prop :=
  Forall row_ok l /\ NoDup (row_key <$> l).

Lemma row_ok_used r : row_ok r -> row_direction r <> 0.
Proof.
  unfold row_ok, row_okb, BT_MESH_BRG_CFG_DIR_ONEWAY, BT_MESH_BRG_CFG_DIR_TWOWAY.
  intros H H0. rewrite H0 in H. simpl in H. by rewrite andb_false_r in H.
Qed.

Lemma brg_rep_rows max s l : brg_rep max s l -> rows s = l.
Proof. intros (Hc & _ & Ht). unfold rows. by rewrite Ht, Hc, take_app_length. Qed.

Lemma brg_rep_length max s l : brg_rep max s l -> length (brg_tbl s) = max.
Proof. intros (_ & Hm & ->). rewrite length_app, length_replicate. lia. Qed.

Lemma brg_rep_init max : brg_rep max (brg_init max) [].
Proof. split_and!; simpl; [done|lia|by rewrite Nat.sub_0_r]. Qed.

Lemma brg_rep_lookup max s l i r : brg_rep max s l -> l !! i = Some r -> brg_tbl s !!! i = r.
Proof.
  intros (_ & _ & ->) Hi. apply list_lookup_total_correct. by apply lookup_app_l_Some.
Qed.

(** * Marking and compacting *)

Definition mark (p : bt_mesh_brg_cfg_row -> bool) (r : bt_mesh_brg_cfg_row) : bt_mesh_brg_cfg_row :=
  if p r then mk_row 0 (row_net_idx1 r) (row_net_idx2 r) (row_addr1 r) (row_addr2 r) else r.

Lemma find_row_snoc p l r i :
  find_row p (l ++ [r]) i =
    match find_row p l i with
    | Some f => Some f
    | None => if p r then Some (i + length l)%nat else None
    end.
Proof.
  revert i. induction l as [|x l IH]; intros i; simpl.
  - by rewrite Nat.add_0_r.
  - destruct (p x); [done|]. rewrite IH. destruct (find_row p l (S i)); [done|].
    by rewrite <-Nat.add_succ_comm.
Qed.

Lemma mark_loop p l rest :
  for_to (length l) 0 (mark_body p) (l ++ rest, None) = (map (mark p) l ++ rest, find_row p l 0).
Proof.
  set (I := fun j c => (j <= length l)%nat ->
    c = (map (mark p) (take j l) ++ drop j l ++ rest, find_row p (take j l) 0)).
  assert (I (0 + length l)%nat (for_to (length l) 0 (mark_body p) (l ++ rest, None))) as HI.
  { apply for_to_inv; unfold I; [done|]. intros j c Hj IH _. rewrite IH by lia. clear IH.
    destruct (lookup_lt_is_Some_2 l j) as [r Hr]; [lia|].
    rewrite (take_S_r _ _ _ Hr), map_app, find_row_snoc, length_take.
    rewrite (drop_S _ _ _ Hr). replace (0 + (j `min` length l))%nat with j by lia. simpl.
    assert (length (map (mark p) (take j l)) = j) as HA by (rewrite length_map, length_take; lia).
    revert HA. generalize (map (mark p) (take j l)) as A. intros A HA.
    unfold mark_body. rewrite (list_lookup_total_middle A _ r) by done. unfold mark.
    rewrite <-app_assoc. destruct (p r); simpl.
    - by rewrite insert_app_r_alt, HA, Nat.sub_diag by lia.
    - by destruct (find_row p (take j l) 0). }
  unfold I in HI. rewrite HI by lia. simpl. by rewrite firstn_all, drop_all.
Qed.

Definition used_rows (l : list bt_mesh_brg_cfg_row) : list bt_mesh_brg_cfg_row :=
  filter (fun r => row_direction r <> 0) l.

Lemma compact_loop T j cnt :
  (j <= cnt <= length T)%nat ->
  let K := take j T ++ used_rows (take (cnt - j) (drop j T)) in
  exists t, for_to (cnt - j) j compact_body (T, j) = (t, length K) /\
    compacting T K cnt (cnt - length K) t.
Proof.
  intros Hj K.
  set (Kat := fun i => take j T ++ used_rows (take (i - j) (drop j T))).
  set (I := fun (i : nat) (c : list bt_mesh_brg_cfg_row * nat) => (i <= cnt)%nat ->
    c.2 = length (Kat i) /\ compacting T (Kat i) i (i - c.2) c.1 /\ (c.2 <= i)%nat).
  assert (I (j + (cnt - j))%nat (for_to (cnt - j) j compact_body (T, j))) as HI.
  { apply for_to_inv; unfold I.
    - intros _. unfold Kat. rewrite Nat.sub_diag. simpl. rewrite app_nil_r, length_take.
      rewrite Nat.min_l, Nat.sub_diag by lia. split_and!; [done| |done].
      exists []. simpl. rewrite take_drop, length_take. split_and!; [done|done|lia].
    - intros i [t d] Hi IH _. destruct IH as (Hd & Hc & Hle); [lia|]. simpl in *.
      destruct (lookup_lt_is_Some_2 T i) as [r Hr]; [lia|].
      assert (t !!! i = r) as Hti.
      { apply list_lookup_total_correct. rewrite <-Hr. eapply compacting_lookup; eauto. }
      assert (Kat (S i) = Kat i ++ (if row_direction r =? 0 then [] else [r])) as HK.
      { unfold Kat. rewrite Nat.sub_succ_l by lia.
        rewrite (take_S_r _ _ r) by (rewrite lookup_drop, <-Hr; f_equal; lia).
        unfold used_rows. rewrite list.filter_app, app_assoc. f_equal.
        destruct (row_direction r =? 0) eqn:H0; bool_to_prop.
        - by rewrite filter_cons_False by tauto.
        - by rewrite filter_cons_True by done. }
      rewrite Hti, HK. destruct (row_direction r =? 0); simpl.
      + rewrite app_nil_r. split_and!; [done| |lia]. rewrite Nat.sub_succ_l by lia.
        apply compacting_skip; [lia|done].
      + rewrite length_app. simpl. split_and!; [lia| |lia].
        replace (S i - S d)%nat with (i - d)%nat by lia.
        replace (<[d := r]> t) with (<[(i - (i - d))%nat := r]> t) by (f_equal; lia).
        apply compacting_keep'; [lia|done]. }
  replace (j + (cnt - j))%nat with cnt in HI by lia. unfold I in HI.
  destruct (for_to _ _ _ _) as [t d]. destruct HI as (Hd & Hc & _); [lia|].
  simpl in *. subst d. exists t. done.
Qed.

Definition kept_rows (p : bt_mesh_brg_cfg_row -> bool) (l : list bt_mesh_brg_cfg_row) :=
  filter (fun r => p r = false) l.

Lemma used_rows_mark p l :
  Forall (fun r => row_direction r <> 0) l -> used_rows (map (mark p) l) = kept_rows p l.
Proof.
  intros Hl. unfold used_rows, kept_rows.
  induction Hl as [|r l Hr _ IH]; [done|]. simpl map. rewrite !list.filter_cons, IH.
  unfold mark. destruct (p r); simpl; repeat case_decide; done.
Qed.

Lemma map_mark_id p l : Forall (fun r => p r = false) l -> map (mark p) l = l.
Proof. induction 1 as [|r l Hr _ IH]; simpl; [done|]. unfold mark at 1. by rewrite Hr, IH. Qed.

Lemma kept_rows_id p l : Forall (fun r => p r = false) l -> kept_rows p l = l.
Proof.
  unfold kept_rows. induction 1 as [|r l Hr _ IH]; [done|].
  by rewrite filter_cons_True, IH by done.
Qed.

Lemma find_row_none p l i : find_row p l i = None -> Forall (fun r => p r = false) l.
Proof.
  revert i. induction l as [|r l IH]; intros i H; simpl in H; [constructor|].
  destruct (p r) eqn:Hp; [done|]. constructor; eauto.
Qed.

Lemma find_row_some p l i j :
  find_row p l i = Some j ->
  exists k r, j = (i + k)%nat /\ l !! k = Some r /\ p r = true /\
    Forall (fun r => p r = false) (take k l).
Proof.
  revert i. induction l as [|r l IH]; intros i H; simpl in H; [done|].
  destruct (p r) eqn:Hp.
  - simplify_eq. exists O, r. split_and!; [lia|done|done|constructor].
  - destruct (IH _ H) as (k & r' & -> & Hk & Hpr & Hall). exists (S k), r'.
    split_and!; [lia|done|done|]. simpl. by constructor.
Qed.

Lemma mark_table_rep SETTINGS max s l :
  brg_rep max s l -> brg_rep max (mark_table SETTINGS s) l.
Proof. unfold mark_table. by destruct SETTINGS. Qed.

(** Removal keeps the rows that do not match, in order; the storage is asked to
    save the table exactly when a row went. *)
Lemma remove_rows_rep SETTINGS max p s l :
  brg_rep max s l -> Forall (fun r => row_direction r <> 0) l ->
  brg_rep max (remove_rows SETTINGS p s) (kept_rows p l) /\
  brg_enabled (remove_rows SETTINGS p s) = brg_enabled s /\
  brg_log (remove_rows SETTINGS p s) = brg_log s /\
  table_updated (remove_rows SETTINGS p s) =
    table_updated s || (SETTINGS && bool_decide (kept_rows p l <> l)).
Proof.
  intros Hrep Hl. pose proof Hrep as (Hcnt & Hmax & Htbl). unfold remove_rows.
  rewrite Hcnt, Htbl, mark_loop. destruct (find_row p l 0) as [j|] eqn:Hf.
  - apply find_row_some in Hf as (k & r & -> & Hk & Hp & Hbefore). rewrite Nat.add_0_l.
    pose proof (lookup_lt_Some _ _ _ Hk) as Hkl.
    set (T := map (mark p) l ++ replicate (max - length l) zero_row).
    assert (length T = max) as HT by (unfold T; rewrite length_app, length_map, length_replicate; lia).
    assert (take k T ++ used_rows (take (length l - k) (drop k T)) = kept_rows p l) as HK.
    { unfold T. rewrite take_app_le, drop_app_le by (rewrite length_map; lia).
      rewrite take_app_length' by (rewrite length_drop, length_map; lia).
      rewrite firstn_map, skipn_map, (map_mark_id p (take k l)) by done.
      rewrite used_rows_mark by by apply Forall_drop.
      rewrite <-(kept_rows_id p (take k l)) at 1 by done.
      unfold kept_rows. by rewrite <-list.filter_app, take_drop. }
    destruct (compact_loop T k (length l)) as (t & Hrun & Hc); [lia|].
    rewrite HK in Hrun, Hc. unfold brg_tbl_compact. simpl. rewrite Hrun.
    assert (length (kept_rows p l) <= length l)%nat as Hlen by apply list.length_filter.
    assert (kept_rows p l <> l) as Hne.
    { intros Heq. assert (r ∈ kept_rows p l) as Hin
        by (rewrite Heq; apply list_elem_of_lookup; eauto).
      apply list_elem_of_filter in Hin as [? _]. congruence. }
    rewrite (bool_decide_true _ Hne), andb_true_r. split_and!.
    + apply mark_table_rep. unfold set_tbl. split_and!; simpl; [done|lia|].
      pose proof (compacting_fill zero_row _ _ _ _ _ Hc) as Hfill.
      replace (length l - (length l - length (kept_rows p l)))%nat
        with (length (kept_rows p l)) in Hfill by lia.
      rewrite Hfill. f_equal. unfold T. rewrite drop_app_length' by (by rewrite length_map).
      rewrite <-replicate_add. f_equal. lia.
    + unfold mark_table. by destruct SETTINGS.
    + unfold mark_table. by destruct SETTINGS.
    + unfold mark_table. destruct SETTINGS; simpl; [by rewrite orb_true_r|by rewrite orb_false_r].
  - apply find_row_none in Hf. rewrite map_mark_id, kept_rows_id by done.
    rewrite bool_decide_false by tauto. rewrite andb_false_r, orb_false_r.
    by split_and!.
Qed.

(** * Refinement: the table as a list of rows *)

Section Refine.
Context (SETTINGS : bool) (storage_rc : brg_storage_op -> Z) (subnet_exists : Z -> bool).
Context (max : nat).

Inductive brg_op :=
  | BAdd (direction net_idx1 net_idx2 addr1 addr2 : Z)
  | BRemove (net_idx1 net_idx2 addr1 addr2 : Z)
  | BKeyEvent (net_idx : Z) (deleted : bool)
  | BForeach (src dst net_idx : Z)
  | BReset
  | BPendingStore
  | BEnable (on : bool).

Inductive brg_ans :=
  | BStatus (rc : Z) (status : option Z) | BTargets (net_idxs : list Z) | BNone.

Definition run_brg_op (op : brg_op) (s : brg_state) : brg_ans * brg_state :=
  match op with
  | BAdd d n1 n2 a1 a2 =>
      let '(rc, st, s) := bt_mesh_brg_cfg_tbl_add SETTINGS subnet_exists d n1 n2 a1 a2 s in
      (BStatus rc st, s)
  | BRemove n1 n2 a1 a2 =>
      let '(rc, st, s) := bt_mesh_brg_cfg_tbl_remove SETTINGS subnet_exists n1 n2 a1 a2 s in
      (BStatus rc st, s)
  | BKeyEvent n del => (BNone, brg_tbl_netkey_removed_evt SETTINGS n del s)
  | BForeach src dst n => (BTargets (bt_mesh_brg_cfg_tbl_foreach_subnet src dst n s), s)
  | BReset =>
      let '(rc, s) := bt_mesh_brg_cfg_tbl_reset SETTINGS storage_rc s in (BStatus rc None, s)
  | BPendingStore => (BNone, bt_mesh_brg_cfg_pending_store s)
  | BEnable b => let '(rc, s) := bt_mesh_brg_cfg_enable_set SETTINGS b s in (BStatus rc None, s)
  end.

(** The same operations on a list of rows.  Adding replaces the direction of the
    row with the same key, or appends while there is room. *)
Definition set_direction (key : Z * Z * Z * Z) (d : Z) (l : list bt_mesh_brg_cfg_row) :=
  (fun r => if bool_decide (row_key r = key)
            then mk_row d (row_net_idx1 r) (row_net_idx2 r) (row_addr1 r) (row_addr2 r)
            else r) <$> l.

Definition add_row (d n1 n2 a1 a2 : Z) (l : list bt_mesh_brg_cfg_row)
  : Z * list bt_mesh_brg_cfg_row :=
  if bool_decide ((n1, n2, a1, a2) ∈ (row_key <$> l))
  then (STATUS_SUCCESS, set_direction (n1, n2, a1, a2) d l)
  else if (length l <? max)%nat then (STATUS_SUCCESS, l ++ [mk_row d n1 n2 a1 a2])
  else (STATUS_INSUFF_RESOURCES, l).

(** Arguments the removal accepts. *)
Definition remove_args_ok (n1 n2 a1 a2 : Z) : bool :=
  (BT_MESH_ADDR_IS_UNICAST a1 || (a1 =? BT_MESH_ADDR_UNASSIGNED)) &&
  negb (BT_MESH_ADDR_IS_UNICAST a1 && (a1 =? a2)) && negb (a2 =? BT_MESH_ADDR_ALL_NODES) &&
  negb (n1 =? n2) && negb (BT_MESH_BRG_CFG_KEY_INDEX_MAX <? n1) &&
  negb (BT_MESH_BRG_CFG_KEY_INDEX_MAX <? n2).

Definition view_brg_op (op : brg_op) (l : list bt_mesh_brg_cfg_row)
  : brg_ans * list bt_mesh_brg_cfg_row :=
  match op with
  | BAdd d n1 n2 a1 a2 =>
      if row_okb (mk_row d n1 n2 a1 a2) then
        if netkey_check subnet_exists n1 n2 then
          let '(st, l) := add_row d n1 n2 a1 a2 l in (BStatus 0 (Some st), l)
        else (BStatus 0 (Some STATUS_INVALID_NETKEY), l)
      else (BStatus (- EINVAL) None, l)
  | BRemove n1 n2 a1 a2 =>
      if remove_args_ok n1 n2 a1 a2 then
        if netkey_check subnet_exists n1 n2
        then (BStatus 0 (Some STATUS_SUCCESS), kept_rows (removed_row n1 n2 a1 a2) l)
        else (BStatus 0 (Some STATUS_INVALID_NETKEY), l)
      else (BStatus (- EINVAL) None, l)
  | BKeyEvent n del =>
      (BNone, if del then kept_rows (fun r => (row_net_idx1 r =? n) || (row_net_idx2 r =? n)) l
              else l)
  | BForeach src dst n => (BTargets (concat (map (row_match src dst n) l)), l)
  | BReset =>
      (BStatus (if SETTINGS then
                  if storage_rc DeleteEnable =? 0 then storage_rc DeleteTable
                  else storage_rc DeleteEnable
                else 0) None, [])
  | BPendingStore => (BNone, l)
  | BEnable _ => (BStatus 0 None, l)
  end.

Lemma kept_rows_ok p l : table_ok l -> table_ok (kept_rows p l).
Proof.
  intros [Hok Hnd]. split.
  - apply list.Forall_forall. intros r [_ Hr]%list_elem_of_filter.
    by eapply list.Forall_forall in Hok.
  - eapply sublist_NoDup; [exact Hnd|]. apply fmap_sublist, sublist_filter.
Qed.

Lemma table_ok_used l : table_ok l -> Forall (fun r => row_direction r <> 0) l.
Proof. intros [Hok _]. eapply list.Forall_impl; [exact Hok|]. apply row_ok_used. Qed.

Lemma same_row_key n1 n2 a1 a2 r : same_row n1 n2 a1 a2 r = true <-> row_key r = (n1, n2, a1, a2).
Proof.
  unfold same_row, row_key. rewrite !andb_true_iff, !Z.eqb_eq. split; [naive_solver|].
  intros [= -> -> -> ->]. done.
Qed.

(** The row found by its key is the only one with it. *)
Lemma set_direction_insert l k r d :
  NoDup (row_key <$> l) -> l !! k = Some r ->
  set_direction (row_key r) d l =
    <[k := mk_row d (row_net_idx1 r) (row_net_idx2 r) (row_addr1 r) (row_addr2 r)]> l.
Proof.
  intros Hnd Hk. apply list_eq. intros i. unfold set_direction. rewrite list_lookup_fmap.
  destruct (decide (i = k)) as [->|Hi].
  - rewrite Hk, list_lookup_insert_eq by (by eapply lookup_lt_Some). simpl.
    by rewrite bool_decide_true.
  - rewrite list_lookup_insert_ne by done. destruct (l !! i) as [r'|] eqn:Hr'; [|done]. simpl.
    rewrite bool_decide_false; [done|]. intros Heq. apply Hi.
    apply (NoDup_lookup (row_key <$> l) i k (row_key r)); [done| |];
      rewrite list_lookup_fmap, ?Hr', ?Hk; simpl; congruence.
Qed.

Lemma set_direction_ok d n1 n2 a1 a2 l :
  row_ok (mk_row d n1 n2 a1 a2) -> table_ok l -> table_ok (set_direction (n1, n2, a1, a2) d l).
Proof.
  intros Hr [Hok Hnd]. split.
  - apply Forall_fmap. eapply list.Forall_impl; [exact Hok|]. intros r Hrr. simpl.
    case_bool_decide as Hk; [|done]. unfold row_key in Hk. by simplify_eq.
  - assert (row_key <$> set_direction (n1, n2, a1, a2) d l = row_key <$> l) as ->; [|done].
    unfold set_direction. rewrite <-list_fmap_compose. apply list_fmap_ext. intros i r _.
    unfold compose. by case_bool_decide.
Qed.

Lemma add_row_ok d n1 n2 a1 a2 l :
  row_ok (mk_row d n1 n2 a1 a2) -> table_ok l -> table_ok (add_row d n1 n2 a1 a2 l).2.
Proof.
  intros Hr Ht. unfold add_row. case_bool_decide as Hin; simpl; [by apply set_direction_ok|].
  destruct (length l <? max)%nat; [|done]. destruct Ht as [Hok Hnd]. split; simpl.
  - apply Forall_app. split; [done|]. by constructor.
  - rewrite fmap_app. apply NoDup_app. split_and!; [done| |apply NoDup_singleton].
    intros k Hk ->%list_elem_of_singleton. done.
Qed.

(** The table part of [bt_mesh_brg_cfg_tbl_add], once the arguments passed. *)
Lemma add_rep d n1 n2 a1 a2 s l :
  brg_rep max s l -> table_ok l ->
  exists s', (match find_row (same_row n1 n2 a1 a2) (rows s) 0 with
    | Some i =>
        let r := brg_tbl s !!! i in
        let r := mk_row d (row_net_idx1 r) (row_net_idx2 r) (row_addr1 r) (row_addr2 r) in
        (0, Some STATUS_SUCCESS,
         mark_table SETTINGS (set_tbl (<[i := r]> (brg_tbl s)) (bt_mesh_brg_cfg_row_cnt s) s))
    | None =>
        if (length (brg_tbl s) <=? bt_mesh_brg_cfg_row_cnt s)%nat
        then (0, Some STATUS_INSUFF_RESOURCES, s)
        else
          (0, Some STATUS_SUCCESS,
           mark_table SETTINGS
             (set_tbl (<[bt_mesh_brg_cfg_row_cnt s := mk_row d n1 n2 a1 a2]> (brg_tbl s))
                (S (bt_mesh_brg_cfg_row_cnt s)) s))
    end) = (0, Some (add_row d n1 n2 a1 a2 l).1, s') /\
    brg_rep max s' (add_row d n1 n2 a1 a2 l).2.
Proof.
  intros Hrep [_ Hnd]. rewrite (brg_rep_rows _ _ _ Hrep), (brg_rep_length _ _ _ Hrep).
  pose proof Hrep as (Hcnt & Hmax & Htbl). unfold add_row.
  destruct (find_row (same_row n1 n2 a1 a2) l 0) as [i|] eqn:Hf.
  - apply find_row_some in Hf as (k & r & -> & Hk & Hp & _). rewrite Nat.add_0_l.
    apply same_row_key in Hp. rewrite bool_decide_true.
    2:{ apply list_elem_of_fmap. exists r. split; [done|]. apply list_elem_of_lookup. eauto. }
    eexists. split; [done|]. simpl. apply mark_table_rep.
    rewrite (brg_rep_lookup _ _ _ _ _ Hrep Hk), <-Hp, (set_direction_insert l k r) by done.
    unfold set_tbl. split_and!; simpl; rewrite ?length_insert; [done|done|].
    rewrite Htbl. apply insert_app_l. by eapply lookup_lt_Some.
  - apply find_row_none in Hf. rewrite bool_decide_false.
    2:{ intros (r & Hr & Hin)%list_elem_of_fmap. eapply list.Forall_forall in Hf; [|exact Hin].
        simpl in Hf. apply not_true_iff_false in Hf. apply Hf. by apply same_row_key. }
    rewrite Hcnt. destruct (max <=? length l)%nat eqn:Hfull.
    + apply Nat.leb_le in Hfull. rewrite (proj2 (Nat.ltb_ge _ _)) by done. by eexists.
    + apply Nat.leb_gt in Hfull. rewrite (proj2 (Nat.ltb_lt _ _)) by done.
      eexists. split; [done|]. simpl. apply mark_table_rep. unfold set_tbl.
      split_and!; simpl; rewrite ?length_app; simpl; [lia|lia|].
      rewrite Htbl, insert_app_r_alt by lia. rewrite Nat.sub_diag.
      replace (max - length l)%nat with (S (max - (length l + 1)))%nat by lia. simpl.
      by rewrite <-app_assoc.
Qed.

(** The argument checks of the two operations. *)
Lemma add_guard d n1 n2 a1 a2 :
  (negb (BT_MESH_ADDR_IS_UNICAST a1) || (n1 =? n2) || (a1 =? a2) ||
     (BT_MESH_BRG_CFG_KEY_INDEX_MAX <? n1) || (BT_MESH_BRG_CFG_KEY_INDEX_MAX <? n2)) ||
  (negb (d =? BT_MESH_BRG_CFG_DIR_ONEWAY) && negb (d =? BT_MESH_BRG_CFG_DIR_TWOWAY)) ||
  (((d =? BT_MESH_BRG_CFG_DIR_ONEWAY) &&
     ((a2 =? BT_MESH_ADDR_UNASSIGNED) || (a2 =? BT_MESH_ADDR_ALL_NODES))) ||
   ((d =? BT_MESH_BRG_CFG_DIR_TWOWAY) && negb (BT_MESH_ADDR_IS_UNICAST a2))) =
  negb (row_okb (mk_row d n1 n2 a1 a2)).
Proof.
  unfold row_okb. simpl.
  assert ((d =? BT_MESH_BRG_CFG_DIR_ONEWAY) && (d =? BT_MESH_BRG_CFG_DIR_TWOWAY) = false) as Hd.
  { unfold BT_MESH_BRG_CFG_DIR_ONEWAY, BT_MESH_BRG_CFG_DIR_TWOWAY.
    destruct (d =? 1) eqn:H1, (d =? 2) eqn:H2; bool_to_prop; (done || lia). }
  destruct (BT_MESH_ADDR_IS_UNICAST a1), (n1 =? n2), (a1 =? a2),
    (BT_MESH_BRG_CFG_KEY_INDEX_MAX <? n1), (BT_MESH_BRG_CFG_KEY_INDEX_MAX <? n2); simpl;
    rewrite ?orb_true_r; try done.
  destruct (d =? BT_MESH_BRG_CFG_DIR_ONEWAY), (d =? BT_MESH_BRG_CFG_DIR_TWOWAY),
    (a2 =? BT_MESH_ADDR_UNASSIGNED), (a2 =? BT_MESH_ADDR_ALL_NODES),
    (BT_MESH_ADDR_IS_UNICAST a2); done.
Qed.

Lemma remove_guard n1 n2 a1 a2 :
  ((negb (BT_MESH_ADDR_IS_UNICAST a1) && negb (a1 =? BT_MESH_ADDR_UNASSIGNED)) ||
     (BT_MESH_ADDR_IS_UNICAST a1 && (a1 =? a2)) || (a2 =? BT_MESH_ADDR_ALL_NODES)) ||
  ((n1 =? n2) || (BT_MESH_BRG_CFG_KEY_INDEX_MAX <? n1) || (BT_MESH_BRG_CFG_KEY_INDEX_MAX <? n2)) =
  negb (remove_args_ok n1 n2 a1 a2).
Proof.
  unfold remove_args_ok.
  destruct (BT_MESH_ADDR_IS_UNICAST a1), (a1 =? BT_MESH_ADDR_UNASSIGNED), (a1 =? a2),
    (a2 =? BT_MESH_ADDR_ALL_NODES), (n1 =? n2), (BT_MESH_BRG_CFG_KEY_INDEX_MAX <? n1),
    (BT_MESH_BRG_CFG_KEY_INDEX_MAX <? n2); done.
Qed.

(** Nested early returns with one answer are one disjunction. *)
Lemma if_or {A} (a b : bool) (x y : A) : (if a then x else if b then x else y) = if a || b then x else y.
Proof. by destruct a. Qed.

Lemma brg_op_refines op s l :
  brg_rep max s l -> table_ok l ->
  exists s', run_brg_op op s = ((view_brg_op op l).1, s') /\
    brg_rep max s' (view_brg_op op l).2 /\ table_ok (view_brg_op op l).2.
Proof.
  intros Hrep Hok. pose proof (table_ok_used l Hok) as Hused.
  destruct op as [d n1 n2 a1 a2|n1 n2 a1 a2|n del|src dst n| | |b];
    cbn [run_brg_op view_brg_op].
  - unfold bt_mesh_brg_cfg_tbl_add. rewrite !if_or, add_guard.
    destruct (row_okb (mk_row d n1 n2 a1 a2)) eqn:Hr; cbn [negb]; [|by eauto].
    destruct (netkey_check subnet_exists n1 n2); cbn [negb]; [|by eauto].
    cbv zeta.
    destruct (add_rep d n1 n2 a1 a2 s l Hrep Hok) as (s' & Heq & Hrep').
    cbv zeta in Heq. rewrite Heq. pose proof (add_row_ok d n1 n2 a1 a2 l Hr Hok).
    destruct (add_row d n1 n2 a1 a2 l) as [st l']. eauto.
  - unfold bt_mesh_brg_cfg_tbl_remove. rewrite if_or, remove_guard.
    destruct (remove_args_ok n1 n2 a1 a2); simpl; [|by eauto].
    destruct (netkey_check subnet_exists n1 n2); simpl; [|by eauto].
    destruct (bt_mesh_brg_cfg_row_cnt s =? 0)%nat eqn:Hz.
    + apply Nat.eqb_eq in Hz. pose proof Hrep as (Hcnt & _). rewrite Hz in Hcnt.
      symmetry in Hcnt. apply nil_length_inv in Hcnt as ->. by eauto.
    + eexists. split; [done|]. split; [by apply remove_rows_rep|by apply kept_rows_ok].
  - unfold brg_tbl_netkey_removed_evt. destruct del; simpl; [|by eauto].
    eexists. split; [done|]. split; [by apply remove_rows_rep|by apply kept_rows_ok].
  - unfold bt_mesh_brg_cfg_tbl_foreach_subnet. rewrite (brg_rep_rows _ _ _ Hrep). by eauto.
  - unfold bt_mesh_brg_cfg_tbl_reset. rewrite (brg_rep_length _ _ _ Hrep).
    assert (table_ok []) by (split; constructor).
    assert (forall e sc lg, brg_rep max (mk_brg (replicate max zero_row) 0 e false false sc lg) [])
      by (intros; split_and!; simpl; [done|lia|by rewrite Nat.sub_0_r]).
    destruct SETTINGS; simpl; [|by eauto].
    destruct (storage_rc DeleteEnable =? 0) eqn:Hz; simpl; [|by eauto]. by eauto.
  - eexists. split; [done|]. split; [|done]. unfold bt_mesh_brg_cfg_pending_store.
    by destruct (state_updated s), (table_updated s).
  - unfold bt_mesh_brg_cfg_enable_set. destruct (Bool.eqb _ _); [by eauto|].
    destruct SETTINGS; by eauto.
Qed.

Fixpoint run_brg (ops : list brg_op) (s : brg_state) : list brg_ans * brg_state :=
  match ops with
  | [] => ([], s)
  | op :: ops => let '(a, s) := run_brg_op op s in let '(r, s) := run_brg ops s in (a :: r, s)
  end.
Fixpoint view_brg (ops : list brg_op) (l : list bt_mesh_brg_cfg_row)
  : list brg_ans * list bt_mesh_brg_cfg_row :=
  match ops with
  | [] => ([], l)
  | op :: ops => let '(a, l) := view_brg_op op l in let '(r, l) := view_brg ops l in (a :: r, l)
  end.

Lemma run_brg_refines ops s l :
  brg_rep max s l -> table_ok l ->
  exists s', run_brg ops s = ((view_brg ops l).1, s') /\
    brg_rep max s' (view_brg ops l).2 /\ table_ok (view_brg ops l).2.
Proof.
  revert s l. induction ops as [|op ops IH]; intros s l Hrep Hok; simpl; [by eauto|].
  destruct (brg_op_refines op s l Hrep Hok) as (s1 & -> & Hrep1 & Hok1).
  destruct (view_brg_op op l) as [a l1]. simpl in *.
  destruct (IH s1 l1 Hrep1 Hok1) as (s2 & -> & Hrep2 & Hok2).
  destruct (view_brg ops l1) as [r l2]. eauto.
Qed.
End Refine.

(** C36: The bridging table refines a list of rows.  From an empty table of any
    size, every sequence of additions, removals (with wildcards), subnet
    deletions, look-ups, resets and deferred stores answers as the same
    operations on a list of rows, in which additions replace the direction of
    the row with the same key or append, and removals filter; the rows are
    always valid, no two have the same key, and the unused rows are zero. *)
Theorem brg_cfg_refines_rows SETTINGS storage_rc subnet_exists max ops :
  exists s', run_brg SETTINGS storage_rc subnet_exists ops (brg_init max) =
      ((view_brg SETTINGS storage_rc subnet_exists max ops []).1, s') /\
    brg_rep max s' (view_brg SETTINGS storage_rc subnet_exists max ops []).2 /\
    table_ok (view_brg SETTINGS storage_rc subnet_exists max ops []).2.
Proof.
  apply run_brg_refines; [apply brg_rep_init|]. split; [constructor|constructor].
Qed.

Example sample_brg :
  run_brg true (fun _ => 0) (fun n => n <? 4)
    [BAdd 2 1 2 5 9; BAdd 1 1 3 5 0xc000; BAdd 1 1 2 5 9; BForeach 5 9 1; BForeach 9 5 2;
     BAdd 2 1 7 5 9; BAdd 2 1 1 5 9; BRemove 1 3 5 0; BAdd 2 2 3 6 9; BAdd 1 3 2 6 9;
     BKeyEvent 2 true; BForeach 5 9 1] (brg_init 2) =
  ([BStatus 0 (Some 0); BStatus 0 (Some 0); BStatus 0 (Some 0); BTargets [2]; BTargets [];
    BStatus 0 (Some STATUS_INVALID_NETKEY); BStatus (- EINVAL) None; BStatus 0 (Some 0);
    BStatus 0 (Some 0); BStatus 0 (Some STATUS_INSUFF_RESOURCES); BNone; BTargets []],
   mk_brg [zero_row; zero_row] 0 false false true true []).
Proof. reflexivity. Qed.

(** * What the table bridges, and storage *)

(** Bridging.  A PDU from [src] to [dst] on subnet [n] is bridged to subnet
    [m] exactly if a row bridges it from its first to its second subnet, or a
    two-way row from its second to its first. *)
Theorem brg_cfg_foreach_spec max s l src dst n m :
  brg_rep max s l -> table_ok l ->
  (m ∈ bt_mesh_brg_cfg_tbl_foreach_subnet src dst n s <->
   exists r, r ∈ l /\
     (row_key r = (n, m, src, dst) \/
      row_direction r = BT_MESH_BRG_CFG_DIR_TWOWAY /\ row_key r = (m, n, dst, src))).
Proof.
  intros Hrep [Hok _]. unfold bt_mesh_brg_cfg_tbl_foreach_subnet.
  rewrite (brg_rep_rows _ _ _ Hrep), list_elem_of_In, in_concat.
  assert (forall r, r ∈ l -> (In m (row_match src dst n r) <->
     (row_key r = (n, m, src, dst) \/
      row_direction r = BT_MESH_BRG_CFG_DIR_TWOWAY /\ row_key r = (m, n, dst, src)))) as Hrow.
  { intros r Hr. eapply list.Forall_forall in Hok; [|exact Hr].
    unfold row_ok, row_okb in Hok. unfold row_match, row_key. bool_to_prop.
    assert (row_direction r = BT_MESH_BRG_CFG_DIR_ONEWAY \/
            row_direction r = BT_MESH_BRG_CFG_DIR_TWOWAY) as Hd.
    { apply orb_true_iff in H0 as [H0|H0]; bool_to_prop; auto. }
    destruct (row_net_idx1 r =? n) eqn:E1, (row_addr1 r =? src) eqn:E2,
      (row_addr2 r =? dst) eqn:E3, (row_net_idx2 r =? n) eqn:E4, (row_addr2 r =? src) eqn:E5,
      (row_addr1 r =? dst) eqn:E6; bool_to_prop; destruct Hd as [Hd|Hd]; rewrite Hd; simpl;
      split; intros Hx; naive_solver. }
  split.
  - intros (q & (r & <- & Hr)%in_map_iff & Hm). exists r.
    apply list_elem_of_In in Hr. split; [done|]. by apply Hrow.
  - intros (r & Hr & Hm). exists (row_match src dst n r). split.
    + apply in_map_iff. exists r. split; [done|]. by apply list_elem_of_In.
    + by apply Hrow.
Qed.

Lemma brg_cfg_foreach_spec_witness :
  3 ∈ bt_mesh_brg_cfg_tbl_foreach_subnet 9 5 4
        (mk_brg [mk_row 2 3 4 5 9; zero_row] 1 true false false false []).
Proof.
  apply (brg_cfg_foreach_spec 2 _ [mk_row 2 3 4 5 9] 9 5 4 3).
  - split_and!; [done|simpl; lia|done].
  - split; [repeat constructor|apply NoDup_singleton].
  - exists (mk_row 2 3 4 5 9). split; [by apply list_elem_of_singleton|by right].
Defined.

(** What the storage holds for the table after a series of operations. *)
Fixpoint stored_table (log : list brg_storage_op) (v : list bt_mesh_brg_cfg_row)
  : list bt_mesh_brg_cfg_row :=
  match log with
  | [] => v
  | SaveTable t :: log => stored_table log t
  | DeleteTable :: log => stored_table log []
  | _ :: log => stored_table log v
  end.

(** Persistence round trip.  Once the deferred store of a changed table has
    run, the value it leaves in the storage, loaded by the settings handler into
    a table of the same size with any contents, gives the same rows back. *)
Theorem brg_cfg_store_load max s l s0 :
  brg_rep max s l -> table_updated s = true -> length (brg_tbl s0) = max ->
  let saved := stored_table (brg_log (bt_mesh_brg_cfg_pending_store s)) [] in
  let '(rc, s1) := brg_tbl_set (8 * zlen saved) (8 * zlen saved) saved s0 in
  saved = l /\ rc = 0 /\ rows s1 = l.
Proof.
  intros Hrep Htu Hlen saved.
  assert (saved = l) as Hsaved.
  { unfold saved, bt_mesh_brg_cfg_pending_store.
    assert (forall log op v, stored_table (log ++ [op]) v =
              match op with SaveTable t => t | DeleteTable => [] | _ => stored_table log v end) as Hs.
    { induction log as [|[] log IH]; intros op v; simpl; [by destruct op|apply IH..]. }
    destruct Hrep as (Hc & Hm & Ht).
    destruct (state_updated s); simpl; rewrite Htu; simpl; rewrite Hs, Hc;
      (destruct l as [|r l]; simpl; [done|]; unfold rows; simpl; by rewrite Hc, Ht, take_app_length). }
  rewrite Hsaved. destruct Hrep as (_ & Hm & _). unfold brg_tbl_set. rewrite Hlen.
  destruct (8 * zlen l =? 0) eqn:H0; bool_to_prop.
  { assert (l = []) as -> by (apply nil_length_inv; lia). done. }
  rewrite Z.mul_comm, Z.mod_mul by lia. simpl.
  rewrite (proj2 (Z.ltb_ge (Z.of_nat max * 8) _)) by lia.
  rewrite (proj2 (Z.ltb_ge (zlen l * 8) 0)) by lia. rewrite Z.rem_mul by lia. simpl.
  split_and!; [done|done|]. unfold rows. simpl.
  rewrite Z.div_mul, Nat2Z.id by lia. apply take_app_length.
Qed.

Lemma brg_cfg_store_load_witness :
  let s := mk_brg [mk_row 2 3 4 5 9; zero_row] 1 true false true false [] in
  stored_table (brg_log (bt_mesh_brg_cfg_pending_store s)) [] = [mk_row 2 3 4 5 9].
Proof.
  intros s. apply (brg_cfg_store_load 2 s [mk_row 2 3 4 5 9] (brg_init 2)); [|done|done].
  split_and!; [done|simpl; lia|done].
Defined.
