(* ===== verification/CryptoIf.v ===== *)
(** The interface of the mesh crypto backend ([bluetooth/mesh/crypto.h],
    [bluetooth/mesh/keys.h]): what the mesh toolbox of [crypto.c] and the key
    management of [subnet.c] call, and the laws they may rely on.
    [CryptoPsa.v] implements it over the PSA API. *)

From stdpp Require Export gmap.
From S2P Require Export Prelude.

(** [struct bt_mesh_key] holds a PSA key identifier. *)
Notation bt_mesh_key := Z (only parsing).

(** [enum bt_mesh_key_type] *)
Inductive bt_mesh_key_type :=
| BT_MESH_KEY_TYPE_ECB
| BT_MESH_KEY_TYPE_CCM
| BT_MESH_KEY_TYPE_CMAC
| BT_MESH_KEY_TYPE_NET
| BT_MESH_KEY_TYPE_APP
| BT_MESH_KEY_TYPE_DEV.

#[export] Instance bt_mesh_key_type_eq_dec : EqDecision bt_mesh_key_type.
Proof. solve_decision. Defined.

(** * Calls on a backend

    A call on a backend with state [W] returns 0 and its outputs, or an errno
    value and nothing the caller looks at; [Crash] is an aborting assertion or
    an access outside an object. *)

Inductive outcome (A : Type) :=
| Ok (a : A)
| Err (e : Z)
| Crash.
Arguments Ok {A} a.
Arguments Err {A} e.
Arguments Crash {A}.

Definition M (W A : Type) : Type := W -> outcome A * W.

#[export] Instance M_ret W : MRet (M W) := fun A a w => (Ok a, w).
#[export] Instance M_bind W : MBind (M W) := fun A B f m w =>
  match m w with
  | (Ok a, w') => f a w'
  | (Err e, w') => (Err e, w')
  | (Crash, w') => (Crash, w')
  end.

Definition fail {W A} (e : Z) : M W A := fun w => (Err e, w).

(** A checked access: [None] is outside the object. *)
Definition checked {W A} (o : option A) : M W A := fun w =>
  (match o with Some a => Ok a | None => Crash end, w).

(** Inspecting the return value instead of passing an error on. *)
Definition attempt {W A} (m : M W A) : M W (A + Z) := fun w =>
  match m w with
  | (Ok a, w') => (Ok (inl a), w')
  | (Err e, w') => (Ok (inr e), w')
  | (Crash, w') => (Crash, w')
  end.

Lemma bind_inv {W A B} (m : M W A) (f : A -> M W B) w r w' :
  (m ≫= f) w = (Ok r, w') -> exists a w1, m w = (Ok a, w1) /\ f a w1 = (Ok r, w').
Proof.
  unfold mbind, M_bind. destruct (m w) as [[a|e|] w1]; [eauto|done..].
Qed.

Lemma bind_ok {W A B} (m : M W A) (f : A -> M W B) w a w1 :
  m w = (Ok a, w1) -> (m ≫= f) w = f a w1.
Proof. unfold mbind, M_bind. by intros ->. Qed.

(** Total correctness: the call returns, with [Q]. *)
Definition wp {W A} (m : M W A) (s : W) (Q : A -> W -> Prop) : Prop := exists a s', m s = (Ok a, s') /\ Q a s'.

Lemma wp_bind {W A B} (m : M W A) (f : A -> M W B) s Q : wp m s (fun a s1 => wp (f a) s1 Q) -> wp (m ≫= f) s Q.
Proof. intros (a & s1 & E & b & s2 & E2 & HQ). exists b, s2. by rewrite (bind_ok _ _ _ _ _ E). Qed.

Lemma wp_ret {W A} (a : A) s (Q : A -> W -> Prop) : Q a s -> wp (mret a) s Q.
Proof. intros. by exists a, s. Qed.

Lemma wp_mono {W A} (m : M W A) s (Q Q' : A -> W -> Prop) :
  wp m s Q -> (forall a s', Q a s' -> Q' a s') -> wp m s Q'.
Proof. intros (a & s' & E & HQ) Hm. exists a, s'. auto. Qed.

(** [memcmp(a, b, n)] on equally long byte strings: the sign of the first
    difference. *)
Fixpoint memcmp (a b : list Z) : Z :=
  match a, b with
  | x :: a', y :: b' => if x =? y then memcmp a' b' else x - y
  | _, _ => 0
  end.

Lemma memcmp_eq a b : length a = length b -> (memcmp a b = 0 <-> a = b).
Proof.
  revert b. induction a as [|x a IH]; intros [|y b] H; simpl in *; try done.
  case_if; bool_to_prop.
  - subst. rewrite IH by lia. split; congruence.
  - split; [lia|congruence].
Qed.

(** * The operations *)

Class MeshCrypto (W : Type) := {
  mc_encrypt : bt_mesh_key -> list Z -> M W (list Z);
  mc_ccm_encrypt : bt_mesh_key -> list Z -> list Z -> list Z -> Z -> M W (list Z);
  mc_ccm_decrypt : bt_mesh_key -> list Z -> list Z -> Z -> list Z -> Z -> M W (list Z);
  mc_aes_cmac_mesh_key : bt_mesh_key -> list (list Z) -> M W (list Z);
  mc_aes_cmac_raw_key : list Z -> list (list Z) -> M W (list Z);
  mc_sha256_hmac_raw_key : list Z -> list (list Z) -> M W (list Z);
  mc_key_import : bt_mesh_key_type -> list Z -> M W bt_mesh_key;
  mc_key_export : bt_mesh_key -> M W (list Z);
  mc_key_assign : bt_mesh_key -> M W bt_mesh_key;
  mc_key_destroy : bt_mesh_key -> M W unit
}.

(** [bt_mesh_key_compare]: 0 if the keys are equal; an errno value or a
    difference otherwise. *)
Definition mc_key_compare {W} `{MeshCrypto W} (raw_key : list Z) (key : bt_mesh_key) : M W Z :=
  r ← attempt (mc_key_export key);
  match r with
  | inr err => mret err
  | inl out => mret (memcmp out raw_key)
  end.

(** * The laws

    A key store maps identifiers to a type and the raw key.  A backend is
    [ready] while it has the resources it needs; then calls with proper
    arguments succeed.  Every call leaves the store as described whether or
    not it succeeds, and its error codes are negative. *)

Notation key_store := (gmap Z (bt_mesh_key_type * list Z)) (only parsing).

(** What a call that computes [v] in state [w] does: a ready backend answers
    [v], leaves the key store as it was and stays ready; one that is not may
    give a negative error, and may leave keys behind but never lose one. *)
Definition computes {W A} (keys : W -> key_store) (ready : W -> Prop)
    (m : M W A) (w : W) (v : A) : Prop :=
  exists w', keys w ⊆ keys w' /\ (ready w -> keys w' = keys w /\ ready w') /\
    (m w = (Ok v, w') \/ exists e, m w = (Err e, w') /\ e < 0 /\ ~ ready w).

(** What the store remembers of a key's type: device keys are stored and used
    like application keys. *)
Definition key_kind (t : bt_mesh_key_type) : bt_mesh_key_type :=
  match t with BT_MESH_KEY_TYPE_DEV => BT_MESH_KEY_TYPE_APP | _ => t end.

(** The types that keep their raw key exportable (and, with settings, survive
    a restart), and those that seal messages. *)
Definition exportable (t : bt_mesh_key_type) : bool :=
  match t with
  | BT_MESH_KEY_TYPE_NET | BT_MESH_KEY_TYPE_APP | BT_MESH_KEY_TYPE_DEV => true
  | _ => false
  end.
Definition sealing (t : bt_mesh_key_type) : bool :=
  match t with
  | BT_MESH_KEY_TYPE_CCM | BT_MESH_KEY_TYPE_APP | BT_MESH_KEY_TYPE_DEV => true
  | _ => false
  end.

Class MeshCryptoLaws (W : Type) `{MeshCrypto W} := {
  mc_keys : W -> key_store;
  mc_ready : W -> Prop;
  (** the algorithms, on raw keys *)
  mc_aes : list Z -> list Z -> list Z;
  mc_cmac : list Z -> list Z -> list Z;
  mc_hmac : list Z -> list Z -> list Z;
  mc_seal : list Z -> list Z -> list Z -> list Z -> Z -> list Z;
  mc_open : list Z -> list Z -> list Z -> list Z -> Z -> option (list Z);
  mc_aes_length : forall k x, length (mc_aes k x) = 16%nat;
  mc_cmac_length : forall k x, length (mc_cmac k x) = 16%nat;
  mc_hmac_length : forall k x, length (mc_hmac k x) = 32%nat;
  mc_aes_bytes : forall k x, Forall is_byte (mc_aes k x);
  mc_cmac_bytes : forall k x, Forall is_byte (mc_cmac k x);
  mc_hmac_bytes : forall k x, Forall is_byte (mc_hmac k x);
  mc_seal_length : forall k n a x mic, 0 <= mic <= 16 ->
    zlen (mc_seal k n a x mic) = zlen x + mic;
  mc_seal_bytes : forall k n a x mic, Forall is_byte x ->
    Forall is_byte (mc_seal k n a x mic);
  mc_open_seal : forall k n a x mic, 0 <= mic <= 16 -> Forall is_byte x ->
    mc_open k n a (mc_seal k n a x mic) mic = Some x;
  mc_open_ok : forall k n a c mic x, mc_open k n a c mic = Some x -> 0 <= mic <= zlen c ->
    zlen x = zlen c - mic /\ Forall is_byte x;
  (** the calls *)
  mc_encrypt_spec : forall w k raw x,
    mc_keys w !! k = Some (BT_MESH_KEY_TYPE_ECB, raw) -> length x = 16%nat ->
    computes mc_keys mc_ready (mc_encrypt k x) w (mc_aes raw x);
  mc_ccm_encrypt_spec : forall w k t raw n x a mic,
    mc_keys w !! k = Some (t, raw) -> sealing t = true ->
    length n = 13%nat -> mic = 4 \/ mic = 8 ->
    computes mc_keys mc_ready (mc_ccm_encrypt k n x a mic) w (mc_seal raw n a x mic);
  mc_ccm_decrypt_spec : forall w k t raw n c len a mic x,
    mc_keys w !! k = Some (t, raw) -> sealing t = true ->
    length n = 13%nat -> mic = 4 \/ mic = 8 -> zlen c = len + mic ->
    mc_open raw n a c mic = Some x -> zlen x = len ->
    computes mc_keys mc_ready (mc_ccm_decrypt k n c len a mic) w x;
  mc_ccm_decrypt_bad : forall w k t raw n c len a mic,
    mc_keys w !! k = Some (t, raw) -> sealing t = true ->
    length n = 13%nat -> mic = 4 \/ mic = 8 -> zlen c = len + mic ->
    mc_open raw n a c mic = None ->
    exists e w', mc_ccm_decrypt k n c len a mic w = (Err e, w') /\ e < 0 /\
      mc_keys w' = mc_keys w /\ (mc_ready w -> mc_ready w');
  mc_cmac_mesh_spec : forall w k raw sg,
    mc_keys w !! k = Some (BT_MESH_KEY_TYPE_CMAC, raw) ->
    computes mc_keys mc_ready (mc_aes_cmac_mesh_key k sg) w (mc_cmac raw (concat sg));
  mc_cmac_raw_spec : forall w raw sg, length raw = 16%nat ->
    computes mc_keys mc_ready (mc_aes_cmac_raw_key raw sg) w (mc_cmac raw (concat sg));
  mc_hmac_raw_spec : forall w raw sg, length raw = 32%nat ->
    computes mc_keys mc_ready (mc_sha256_hmac_raw_key raw sg) w (mc_hmac raw (concat sg));
  mc_import_spec : forall w t raw, length raw = 16%nat -> exportable t = false ->
    exists w', (mc_ready w -> mc_ready w') /\
      ((exists k, mc_key_import t raw w = (Ok k, w') /\ mc_keys w !! k = None /\
          mc_keys w' = <[k := (t, raw)]> (mc_keys w)) \/
       (exists e, mc_key_import t raw w = (Err e, w') /\ e < 0 /\ ~ mc_ready w /\
          mc_keys w' = mc_keys w));
  mc_export_spec : forall w k t raw,
    mc_keys w !! k = Some (t, raw) -> exportable t = true -> length raw = 16%nat ->
    computes mc_keys mc_ready (mc_key_export k) w raw;
  (** key 0 is no key *)
  mc_export_null : forall w, mc_ready w ->
    exists e w', mc_key_export 0 w = (Err e, w') /\ e < 0 /\ mc_keys w' = mc_keys w /\ mc_ready w';
  mc_assign_spec : forall w k, mc_ready w -> is_Some (mc_keys w !! k) ->
    exists w', mc_key_assign k w = (Ok k, w') /\ mc_keys w' = mc_keys w /\ mc_ready w';
  (** what a destruction returns depends on the kind of the key, and the callers
      do not look at it; key 0 is no key *)
  mc_destroy_spec : forall w k, mc_ready w -> is_Some (mc_keys w !! k) \/ k = 0 ->
    exists r w', attempt (mc_key_destroy k) w = (Ok r, w') /\ mc_ready w' /\
      mc_keys w' = (if k =? 0 then mc_keys w else delete k (mc_keys w))
}.

(** What a backend promises once the node has loaded the keys that survived a
    restart: importing a key that may survive the next one.  It may also be
    refused because the identifiers for such keys are taken. *)
Class MeshImportLaws (W : Type) `{MeshCryptoLaws W} := {
  mc_import_exportable_spec : forall w t raw, length raw = 16%nat -> exportable t = true ->
    mc_ready w -> exists w', mc_ready w' /\
      ((exists k, mc_key_import t raw w = (Ok k, w') /\ mc_keys w !! k = None /\
          mc_keys w' = <[k := (key_kind t, raw)]> (mc_keys w)) \/
       (exists e, mc_key_import t raw w = (Err e, w') /\ e < 0 /\ mc_keys w' = mc_keys w))
}.
