(* ===== verification/Psa.v ===== *)
(** The PSA Crypto API, which the mesh crypto backend calls and which is not
    part of the repository: its functions as a class of operations over a state,
    the documented behaviour as laws, and a small implementation that satisfies
    them (for the concrete runs of the theorems that assume the laws). *)

From S2P Require Import Prelude CryptoIf.

(** * Attributes *)

Inductive psa_algorithm :=
| PSA_ALG_NONE
| PSA_ALG_ECB_NO_PADDING
| PSA_ALG_CMAC
| PSA_ALG_HMAC_SHA_256
| PSA_ALG_ECDH
| PSA_ALG_CCM_WITH_SHORTENED_TAG (n : Z)
| PSA_ALG_CCM_WITH_AT_LEAST_THIS_LENGTH_TAG (n : Z).

Inductive psa_usage :=
| PSA_KEY_USAGE_EXPORT
| PSA_KEY_USAGE_ENCRYPT
| PSA_KEY_USAGE_DECRYPT
| PSA_KEY_USAGE_SIGN_MESSAGE
| PSA_KEY_USAGE_DERIVE.

Inductive psa_lifetime := PSA_KEY_LIFETIME_VOLATILE | PSA_KEY_LIFETIME_PERSISTENT.

Inductive psa_key_type :=
| PSA_KEY_TYPE_AES
| PSA_KEY_TYPE_HMAC
| PSA_KEY_TYPE_ECC_KEY_PAIR_SECP_R1.

#[export] Instance psa_algorithm_eq_dec : EqDecision psa_algorithm.
Proof. solve_decision. Defined.
#[export] Instance psa_usage_eq_dec : EqDecision psa_usage.
Proof. solve_decision. Defined.
#[export] Instance psa_lifetime_eq_dec : EqDecision psa_lifetime.
Proof. solve_decision. Defined.
#[export] Instance psa_key_type_eq_dec : EqDecision psa_key_type.
Proof. solve_decision. Defined.

(** [psa_key_attributes_t]; identifier 0 is [PSA_KEY_ID_NULL]. *)
Record psa_key_attributes := mk_attributes {
  at_lifetime : psa_lifetime;
  at_id : Z;
  at_usage : list psa_usage;
  at_alg : psa_algorithm;
  at_type : psa_key_type;
  at_bits : Z
}.

Definition PSA_KEY_ID_NULL : Z := 0.
Definition PSA_KEY_ID_VENDOR_MIN : Z := 0x40000000.

Definition PSA_SUCCESS : Z := 0.
Definition PSA_ERROR_GENERIC_ERROR : Z := -132.
Definition PSA_ERROR_ALREADY_EXISTS : Z := -139.
Definition PSA_ERROR_INVALID_HANDLE : Z := -136.
Definition PSA_ERROR_INVALID_SIGNATURE : Z := -149.

(** The policy check: the usage is allowed and so is the algorithm. *)
Definition alg_permitted (policy alg : psa_algorithm) : bool :=
  match policy, alg with
  | PSA_ALG_CCM_WITH_AT_LEAST_THIS_LENGTH_TAG n, PSA_ALG_CCM_WITH_SHORTENED_TAG m => n <=? m
  | _, _ => bool_decide (policy = alg)
  end.

Definition permits (a : psa_key_attributes) (u : psa_usage) (alg : psa_algorithm) : bool :=
  bool_decide (u ∈ at_usage a) && alg_permitted (at_alg a) alg.

(** * The functions

    Each returns a status, its output ([output_length] is the length of the
    list) and the next state of the implementation. *)

Class Psa (S : Type) := {
  psa_mac_operation : Type;
  psa_crypto_init : S -> Z * S;
  psa_cipher_encrypt : Z -> psa_algorithm -> list Z -> Z -> S -> (Z * list Z) * S;
  psa_aead_encrypt : Z -> psa_algorithm -> list Z -> list Z -> list Z -> Z -> S ->
    (Z * list Z) * S;
  psa_aead_decrypt : Z -> psa_algorithm -> list Z -> list Z -> list Z -> Z -> S ->
    (Z * list Z) * S;
  psa_mac_sign_setup : Z -> psa_algorithm -> S -> (Z * psa_mac_operation) * S;
  psa_mac_update : psa_mac_operation -> list Z -> S -> (Z * psa_mac_operation) * S;
  psa_mac_abort : psa_mac_operation -> S -> Z * S;
  psa_mac_sign_finish : psa_mac_operation -> Z -> S -> (Z * list Z) * S;
  psa_import_key : psa_key_attributes -> list Z -> S -> (Z * Z) * S;
  psa_export_key : Z -> Z -> S -> (Z * list Z) * S;
  psa_destroy_key : Z -> S -> Z * S;
  psa_generate_key : psa_key_attributes -> S -> (Z * Z) * S;
  psa_export_public_key : Z -> Z -> S -> (Z * list Z) * S;
  psa_raw_key_agreement : psa_algorithm -> Z -> list Z -> Z -> S -> (Z * list Z) * S;
  psa_generate_random : Z -> S -> (Z * list Z) * S
}.

(** * The documented behaviour

    [psa_keys] is the key store; [psa_ready] holds while the implementation has
    the resources it needs.  A call that fails leaves the store alone. *)

Notation psa_store := (gmap Z (psa_key_attributes * list Z)) (only parsing).

Definition psa_computes {S A} (keys : S -> psa_store) (ready : S -> Prop)
    (f : S -> (Z * A) * S) (s : S) (P : A -> Prop) : Prop :=
  exists st v s', f s = ((st, v), s') /\ keys s' = keys s /\ (ready s -> ready s') /\
    ((st = PSA_SUCCESS /\ P v) \/ (st <> PSA_SUCCESS /\ ~ ready s)).

Class PsaLaws (S : Type) `{Psa S} := {
  psa_keys : S -> psa_store;
  psa_ready : S -> Prop;
  psa_aes : list Z -> list Z -> list Z;
  psa_mac : psa_algorithm -> list Z -> list Z -> list Z;
  psa_seal : list Z -> list Z -> list Z -> list Z -> Z -> list Z;
  psa_open : list Z -> list Z -> list Z -> list Z -> Z -> option (list Z);
  psa_aes_ok : forall k x, length (psa_aes k x) = 16%nat /\ Forall is_byte (psa_aes k x);
  psa_mac_ok : forall alg k x, Forall is_byte (psa_mac alg k x) /\
    length (psa_mac alg k x) = (if decide (alg = PSA_ALG_HMAC_SHA_256) then 32 else 16)%nat;
  psa_seal_length : forall k n a x mic, 0 <= mic <= 16 ->
    zlen (psa_seal k n a x mic) = zlen x + mic;
  psa_seal_bytes : forall k n a x mic, Forall is_byte x ->
    Forall is_byte (psa_seal k n a x mic);
  psa_open_seal : forall k n a x mic, 0 <= mic <= 16 -> Forall is_byte x ->
    psa_open k n a (psa_seal k n a x mic) mic = Some x;
  psa_open_ok : forall k n a c mic x, psa_open k n a c mic = Some x -> 0 <= mic <= zlen c ->
    zlen x = zlen c - mic /\ Forall is_byte x;
  psa_cipher_spec : forall s k a raw x size,
    psa_keys s !! k = Some (a, raw) ->
    permits a PSA_KEY_USAGE_ENCRYPT PSA_ALG_ECB_NO_PADDING = true ->
    length x = 16%nat -> 16 <= size ->
    psa_computes psa_keys psa_ready
      (psa_cipher_encrypt k PSA_ALG_ECB_NO_PADDING x size) s (eq (psa_aes raw x));
  psa_aead_encrypt_spec : forall s k a raw n ad x mic size,
    psa_keys s !! k = Some (a, raw) ->
    permits a PSA_KEY_USAGE_ENCRYPT (PSA_ALG_CCM_WITH_SHORTENED_TAG mic) = true ->
    length n = 13%nat -> 0 <= mic <= 16 -> zlen x + mic <= size ->
    psa_computes psa_keys psa_ready
      (psa_aead_encrypt k (PSA_ALG_CCM_WITH_SHORTENED_TAG mic) n ad x size) s
      (eq (psa_seal raw n ad x mic));
  psa_aead_decrypt_spec : forall s k a raw n ad c mic size,
    psa_keys s !! k = Some (a, raw) ->
    permits a PSA_KEY_USAGE_DECRYPT (PSA_ALG_CCM_WITH_SHORTENED_TAG mic) = true ->
    length n = 13%nat -> 0 <= mic <= 16 -> zlen c - mic <= size ->
    match psa_open raw n ad c mic with
    | Some x => psa_computes psa_keys psa_ready
        (psa_aead_decrypt k (PSA_ALG_CCM_WITH_SHORTENED_TAG mic) n ad c size) s (eq x)
    | None => exists st v s',
        psa_aead_decrypt k (PSA_ALG_CCM_WITH_SHORTENED_TAG mic) n ad c size s
          = ((st, v), s') /\ st <> PSA_SUCCESS /\
        psa_keys s' = psa_keys s /\ (psa_ready s -> psa_ready s')
    end;
  (** an active MAC operation: its algorithm, key and the message so far *)
  psa_mac_active : psa_mac_operation -> psa_algorithm -> list Z -> list Z -> Prop;
  psa_mac_setup_spec : forall s k a raw alg,
    psa_keys s !! k = Some (a, raw) -> permits a PSA_KEY_USAGE_SIGN_MESSAGE alg = true ->
    psa_computes psa_keys psa_ready (psa_mac_sign_setup k alg) s
      (fun op => psa_mac_active op alg raw []);
  psa_mac_update_spec : forall s op alg raw m d,
    psa_mac_active op alg raw m ->
    psa_computes psa_keys psa_ready (psa_mac_update op d) s
      (fun op' => psa_mac_active op' alg raw (m ++ d));
  psa_mac_finish_spec : forall s op alg raw m size,
    psa_mac_active op alg raw m -> zlen (psa_mac alg raw m) <= size ->
    psa_computes psa_keys psa_ready (psa_mac_sign_finish op size) s (eq (psa_mac alg raw m));
  psa_mac_abort_spec : forall s op st s', psa_mac_abort op s = (st, s') ->
    psa_keys s' = psa_keys s /\ (psa_ready s -> psa_ready s');
  (** a volatile key gets a fresh identifier of the implementation's range *)
  psa_import_volatile : forall s a raw,
    at_lifetime a = PSA_KEY_LIFETIME_VOLATILE -> zlen raw * 8 = at_bits a ->
    exists st k s', psa_import_key a raw s = ((st, k), s') /\ (psa_ready s -> psa_ready s') /\
      ((st = PSA_SUCCESS /\ psa_keys s !! k = None /\ PSA_KEY_ID_VENDOR_MIN <= k /\
          psa_keys s' = <[k := (a, raw)]> (psa_keys s)) \/
       (st <> PSA_SUCCESS /\ st <> PSA_ERROR_ALREADY_EXISTS /\ k = PSA_KEY_ID_NULL /\
          ~ psa_ready s /\ psa_keys s' = psa_keys s));
  (** a persistent key gets the identifier its attributes ask for *)
  psa_import_persistent : forall s a raw,
    at_lifetime a = PSA_KEY_LIFETIME_PERSISTENT -> zlen raw * 8 = at_bits a ->
    0 < at_id a < PSA_KEY_ID_VENDOR_MIN ->
    exists st k s', psa_import_key a raw s = ((st, k), s') /\ (psa_ready s -> psa_ready s') /\
      ((st = PSA_SUCCESS /\ k = at_id a /\ psa_keys s !! k = None /\
          psa_keys s' = <[k := (a, raw)]> (psa_keys s)) \/
       (st = PSA_ERROR_ALREADY_EXISTS /\ is_Some (psa_keys s !! at_id a) /\
          psa_keys s' = psa_keys s) \/
       (st <> PSA_SUCCESS /\ st <> PSA_ERROR_ALREADY_EXISTS /\ ~ psa_ready s /\
          psa_keys s' = psa_keys s));
  psa_export_spec : forall s k a raw size,
    psa_keys s !! k = Some (a, raw) -> PSA_KEY_USAGE_EXPORT ∈ at_usage a -> zlen raw <= size ->
    psa_computes psa_keys psa_ready (psa_export_key k size) s (eq raw);
  (** there is no key to export under the null identifier *)
  psa_export_null : forall s size st v s', psa_export_key PSA_KEY_ID_NULL size s = ((st, v), s') ->
    st <> PSA_SUCCESS /\ psa_keys s' = psa_keys s /\ (psa_ready s -> psa_ready s');
  (** destroying no key does nothing *)
  psa_destroy_null : forall s st s', psa_destroy_key PSA_KEY_ID_NULL s = (st, s') ->
    psa_keys s' = psa_keys s /\ (psa_ready s -> psa_ready s');
  psa_destroy_spec : forall s k st s', k <> PSA_KEY_ID_NULL -> psa_destroy_key k s = (st, s') ->
    (psa_ready s -> psa_ready s') /\
    (psa_keys s' = delete k (psa_keys s) \/
     (st <> PSA_SUCCESS /\ psa_keys s' = psa_keys s /\
        (psa_keys s !! k = None \/ ~ psa_ready s)));
  psa_destroy_status : forall s k, k <> PSA_KEY_ID_NULL -> psa_ready s -> is_Some (psa_keys s !! k) ->
    (psa_destroy_key k s).1 = PSA_SUCCESS
}.

(** * A small implementation

    The state is the key store; the algorithms are toys with the lengths of the
    real ones.  It never runs out of resources, and does not do elliptic
    curves or random numbers. *)

Module Sample.

Notation state := psa_store (only parsing).

(** An identifier above all those in use. *)
Definition fresh_id (s : state) : Z :=
  1 + map_fold (fun k _ x => Z.max k x) PSA_KEY_ID_VENDOR_MIN s.

Definition mix (h b : Z) : Z := u8 (h * 31 + b + 7).

Definition toy_mac (n : nat) (k m : list Z) : list Z :=
  map (fun i => fold_left mix m (u8 (nth i k 0 + Z.of_nat i))) (seq 0 n).

Definition mac_of (alg : psa_algorithm) (k m : list Z) : list Z :=
  toy_mac (if decide (alg = PSA_ALG_HMAC_SHA_256) then 32 else 16)%nat k m.

Definition toy_aes (k x : list Z) : list Z :=
  map (fun i => u8 (nth i k 0 + 5 * nth i x 0 + Z.of_nat i)) (seq 0 16).

(** The key stream byte of position [i]. *)
Definition stream (k n : list Z) (i : nat) : Z := fold_left mix (n ++ k) (u8 (Z.of_nat i)).

Definition xor_stream (k n x : list Z) : list Z :=
  imap (fun i b => u8 (Z.lxor b (stream k n i))) x.

Definition tag (k n a x : list Z) (mic : Z) : list Z :=
  take (Z.to_nat mic) (toy_mac 16 k (n ++ a ++ x)).

Definition seal (k n a x : list Z) (mic : Z) : list Z :=
  xor_stream k n x ++ tag k n a x mic.

Definition open (k n a c : list Z) (mic : Z) : option (list Z) :=
  let len := Z.to_nat (zlen c - mic) in
  let x := xor_stream k n (take len c) in
  if bool_decide (drop len c = tag k n a x mic) then Some x else None.

(** A keyed operation: the key must exist and its policy permit the use. *)
Definition with_key {A} (z : A) (s : state) (k : Z) (u : psa_usage) (alg : psa_algorithm)
    (f : list Z -> Z * A) : (Z * A) * state :=
  (match s !! k with
   | Some (a, raw) => if permits a u alg then f raw else (PSA_ERROR_GENERIC_ERROR, z)
   | None => (PSA_ERROR_INVALID_HANDLE, z)
   end, s).

Definition mac_op : Type := psa_algorithm * list Z * list Z.

Definition import (a : psa_key_attributes) (raw : list Z) (s : state) : (Z * Z) * state :=
  match at_lifetime a with
  | PSA_KEY_LIFETIME_VOLATILE =>
      let k := fresh_id s in ((PSA_SUCCESS, k), <[k := (a, raw)]> s)
  | PSA_KEY_LIFETIME_PERSISTENT =>
      match s !! at_id a with
      | Some _ => ((PSA_ERROR_ALREADY_EXISTS, PSA_KEY_ID_NULL), s)
      | None => ((PSA_SUCCESS, at_id a), <[at_id a := (a, raw)]> s)
      end
  end.

Definition unsupported {A} (z : A) (s : state) : (Z * A) * state :=
  ((PSA_ERROR_GENERIC_ERROR, z), s).

#[export] Instance sample_psa : Psa state := {
  psa_mac_operation := mac_op;
  psa_crypto_init := fun s => (PSA_SUCCESS, s);
  psa_cipher_encrypt := fun k alg x size s =>
    with_key [] s k PSA_KEY_USAGE_ENCRYPT alg (fun raw => (PSA_SUCCESS, toy_aes raw x));
  psa_aead_encrypt := fun k alg n ad x size s =>
    with_key [] s k PSA_KEY_USAGE_ENCRYPT alg (fun raw =>
      match alg with
      | PSA_ALG_CCM_WITH_SHORTENED_TAG mic => (PSA_SUCCESS, seal raw n ad x mic)
      | _ => (PSA_ERROR_GENERIC_ERROR, [])
      end);
  psa_aead_decrypt := fun k alg n ad c size s =>
    with_key [] s k PSA_KEY_USAGE_DECRYPT alg (fun raw =>
      match alg with
      | PSA_ALG_CCM_WITH_SHORTENED_TAG mic =>
          match open raw n ad c mic with
          | Some x => (PSA_SUCCESS, x)
          | None => (PSA_ERROR_INVALID_SIGNATURE, [])
          end
      | _ => (PSA_ERROR_GENERIC_ERROR, [])
      end);
  psa_mac_sign_setup := fun k alg s =>
    with_key (PSA_ALG_NONE, [], []) s k PSA_KEY_USAGE_SIGN_MESSAGE alg (fun raw =>
      (PSA_SUCCESS, (alg, raw, [])));
  psa_mac_update := fun '(alg, raw, m) d s => ((PSA_SUCCESS, (alg, raw, m ++ d)), s);
  psa_mac_abort := fun _ s => (PSA_SUCCESS, s);
  psa_mac_sign_finish := fun '(alg, raw, m) size s => ((PSA_SUCCESS, mac_of alg raw m), s);
  psa_import_key := import;
  psa_export_key := fun k size s =>
    (if k =? PSA_KEY_ID_NULL then (PSA_ERROR_INVALID_HANDLE, []) else
     match s !! k with
     | Some (a, raw) => if bool_decide (PSA_KEY_USAGE_EXPORT ∈ at_usage a)
                        then (PSA_SUCCESS, raw) else (PSA_ERROR_GENERIC_ERROR, [])
     | None => (PSA_ERROR_INVALID_HANDLE, [])
     end, s);
  psa_destroy_key := fun k s =>
    if k =? PSA_KEY_ID_NULL then (PSA_SUCCESS, s) else
    match s !! k with
    | Some _ => (PSA_SUCCESS, delete k s)
    | None => (PSA_ERROR_INVALID_HANDLE, s)
    end;
  psa_generate_key := fun _ => unsupported PSA_KEY_ID_NULL;
  psa_export_public_key := fun _ _ => unsupported [];
  psa_raw_key_agreement := fun _ _ _ _ => unsupported [];
  psa_generate_random := fun _ => unsupported []
}.

(** ** The laws hold *)

Lemma mix_byte m h : is_byte h -> is_byte (fold_left mix m h).
Proof. revert h. induction m; simpl; intros h Hh; [done|]. apply IHm, is_byte_u8. Qed.

Lemma toy_mac_ok n k m : length (toy_mac n k m) = n /\ Forall is_byte (toy_mac n k m).
Proof.
  unfold toy_mac. split; [by rewrite length_map, length_seq|].
  apply list.Forall_forall. intros x (i & -> & _)%list_elem_of_fmap.
  apply mix_byte, is_byte_u8.
Qed.

Lemma xor_stream_length k n x : length (xor_stream k n x) = length x.
Proof. apply length_imap. Qed.

Lemma xor_stream_bytes k n x : Forall is_byte (xor_stream k n x).
Proof.
  apply Forall_lookup. intros i b Hb. unfold xor_stream in Hb.
  rewrite list_lookup_imap in Hb. destruct (x !! i); simplify_eq/=. apply is_byte_u8.
Qed.

Lemma xor_byte_twice a b : is_byte a -> is_byte b ->
  u8 (Z.lxor (u8 (Z.lxor a b)) b) = a.
Proof.
  intros Ha Hb. rewrite (u8_id (Z.lxor a b)) by by apply lxor_byte.
  rewrite lxor_twice. by apply u8_id.
Qed.

Lemma xor_stream_twice k n x : Forall is_byte x -> xor_stream k n (xor_stream k n x) = x.
Proof.
  intros Hx. apply list_eq. intros i. unfold xor_stream.
  rewrite !list_lookup_imap. destruct (x !! i) as [b|] eqn:E; simpl; [|done].
  f_equal. apply xor_byte_twice.
  - rewrite Forall_lookup in Hx. eauto.
  - apply mix_byte, is_byte_u8.
Qed.

Lemma tag_length k n a x mic : 0 <= mic <= 16 -> zlen (tag k n a x mic) = mic.
Proof. intros. unfold tag. rewrite length_take, (proj1 (toy_mac_ok _ _ _)). lia. Qed.

Lemma open_seal k n a x mic :
  0 <= mic <= 16 -> Forall is_byte x -> open k n a (seal k n a x mic) mic = Some x.
Proof.
  intros Hm Hx. unfold open, seal.
  assert (Z.to_nat (zlen (xor_stream k n x ++ tag k n a x mic) - mic)
          = length (xor_stream k n x)) as ->.
  { rewrite length_app. pose proof (tag_length k n a x mic Hm). lia. }
  rewrite drop_app_length, take_app_length, xor_stream_twice by done.
  by rewrite bool_decide_eq_true_2.
Qed.

Lemma fresh_id_spec (s : state) :
  s !! fresh_id s = None /\ PSA_KEY_ID_VENDOR_MIN <= fresh_id s.
Proof.
  assert (PSA_KEY_ID_VENDOR_MIN <= fresh_id s - 1 /\
          forall k, is_Some (s !! k) -> k <= fresh_id s - 1) as [H1 H2].
  { unfold fresh_id. rewrite Z.add_simpl_l.
    apply (map_fold_weak_ind (fun r m => PSA_KEY_ID_VENDOR_MIN <= r /\
             forall k, is_Some (m !! k) -> k <= r)).
    - split; [done|]. intros k. rewrite lookup_empty. by intros [].
    - intros i x m r Hi [Hr Hk]. split; [lia|]. intros k.
      destruct (decide (i = k)) as [->|]; [lia|].
      rewrite lookup_insert_ne by done. intros ?%Hk. lia. }
  split; [|lia]. destruct (s !! fresh_id s) eqn:E; [|done].
  specialize (H2 (fresh_id s)). rewrite E in H2. specialize (H2 ltac:(eauto)). lia.
Qed.

(** The keys there are; there is none under the null identifier. *)
Definition visible (s : state) : state := delete PSA_KEY_ID_NULL s.

Lemma visible_some (s : state) k x : visible s !! k = Some x -> k <> PSA_KEY_ID_NULL /\ s !! k = Some x.
Proof. unfold visible. rewrite lookup_delete_Some. intros []. done. Qed.

Lemma with_key_computes {A} (z : A) s k a raw u alg f v :
  visible s !! k = Some (a, raw) -> permits a u alg = true -> f raw = (PSA_SUCCESS, v) ->
  psa_computes visible (fun _ => True) (fun s => with_key z s k u alg f) s (eq v).
Proof.
  intros [_ Hk]%visible_some Hp Hf. unfold psa_computes, with_key. cbv beta. rewrite Hk, Hp, Hf.
  exists PSA_SUCCESS, v, s. split_and!; try done. left. done.
Qed.

#[export] Instance sample_laws : PsaLaws state.
Proof.
  refine {| psa_keys := visible; psa_ready := fun _ => True; psa_aes := toy_aes;
    psa_mac := mac_of; psa_seal := seal; psa_open := open;
    psa_mac_active := fun '(alg, raw, m) alg' raw' m' =>
      alg = alg' /\ raw = raw' /\ m = m' |};
    cbv beta; unfold psa_cipher_encrypt, psa_aead_encrypt, psa_aead_decrypt, psa_mac_sign_setup,
      psa_mac_update, psa_mac_abort, psa_mac_sign_finish, psa_import_key, psa_export_key,
      psa_destroy_key, sample_psa.
  - intros k x. unfold toy_aes. split; [by rewrite length_map, length_seq|].
    apply list.Forall_forall. intros y (i & -> & _)%list_elem_of_fmap. apply is_byte_u8.
  - intros alg k x. split; apply toy_mac_ok.
  - intros. unfold seal. rewrite length_app, xor_stream_length, Nat2Z.inj_add.
    by rewrite tag_length.
  - intros. apply Forall_app. split; [apply xor_stream_bytes|]. apply Forall_take, toy_mac_ok.
  - intros. by apply open_seal.
  - intros k n a c mic x Ho Hm. unfold open in Ho. case_bool_decide; [|done]. injection Ho as <-.
    split; [|apply xor_stream_bytes]. rewrite xor_stream_length, length_take. lia.
  - intros. by eapply with_key_computes.
  - intros. by eapply with_key_computes.
  - intros s k a raw n ad c mic size Hv Hp _ _ _. pose proof (visible_some _ _ _ Hv) as [_ Hk].
    destruct (open raw n ad c mic) as [x|] eqn:E.
    + eapply with_key_computes; [done..|]. cbn. by rewrite E.
    + unfold with_key. rewrite Hk, Hp, E. by eexists _, _, s.
  - intros s k a raw alg [_ Hk]%visible_some Hp.
    unfold psa_computes, with_key. cbv beta. rewrite Hk, Hp. eexists _, _, s. split_and!; try done. by left.
  - intros s [[alg raw] m] ??? d (-> & -> & ->). eexists _, _, s. split_and!; try done. by left.
  - intros s [[alg raw] m] ??? size (-> & -> & ->) _. eexists _, _, s. split_and!; try done. by left.
  - by intros s op st s' [= <- <-].
  - intros s a raw Hl _. unfold import. rewrite Hl. eexists _, _, _. split_and!; try done.
    left. destruct (fresh_id_spec s) as [Hn Hmin]. assert (fresh_id s <> PSA_KEY_ID_NULL) by (unfold PSA_KEY_ID_NULL, PSA_KEY_ID_VENDOR_MIN in *; lia).
    unfold visible. by rewrite lookup_delete_ne, delete_insert_ne.
  - intros s a raw Hl _ Ha. assert (at_id a <> PSA_KEY_ID_NULL) by (unfold PSA_KEY_ID_NULL; lia).
    unfold import. rewrite Hl. destruct (s !! at_id a) as [x|] eqn:E.
    + eexists _, _, s. split_and!; try done. right. left. unfold visible. rewrite lookup_delete_ne by done. eauto.
    + eexists _, _, _. split_and!; try done. left. unfold visible. by rewrite lookup_delete_ne, delete_insert_ne.
  - intros s k a raw size [Hn Hk]%visible_some Hu _. unfold psa_computes. cbv beta.
    rewrite (proj2 (Z.eqb_neq _ _) Hn), Hk, bool_decide_eq_true_2 by done.
    eexists _, _, s. split_and!; try done. by left.
  - by intros s size st v s' [= <- _ <-].
  - by intros s st s' [= <- <-].
  - intros s k st s' Hk Hd. split; [done|]. rewrite (proj2 (Z.eqb_neq _ _) Hk) in Hd. destruct (s !! k) as [x|] eqn:E; simplify_eq; [left; apply delete_delete|].
    right. unfold visible. rewrite lookup_delete_ne by done. auto.
  - intros s k Hk _ [x [_ Hx]%visible_some]. by rewrite (proj2 (Z.eqb_neq _ _) Hk), Hx.
Defined.

End Sample.

#[export] Existing Instances Sample.sample_psa Sample.sample_laws.
