(* ===== verification/CryptoPsa.v ===== *)
(** The mesh crypto backend over the PSA API: [bluetooth/mesh/crypto_psa.c].

    It keeps the bitmap [pst_keys] of the persistent key identifiers in use and
    the key pair for provisioning.  The definitions follow the C functions call
    by call; the instance at the end shows that they keep the promises of
    [CryptoIf.v] over every PSA implementation that keeps its own. *)

From S2P Require Import Prelude CryptoIf Psa.

Definition ERANGE : Z := 34.
Definition PUB_KEY_SIZE : Z := 64.
Definition PRIV_KEY_SIZE : Z := 32.
Definition DH_KEY_SIZE : Z := 32.

(** * State *)

(** [dh_pair] *)
Record dh_pair := mk_dh_pair {
  is_ready : bool;
  priv_key_id : Z;
  public_key_be : list Z
}.

(** The module's static data over a PSA state; [pst_keys] is the set of the
    bits that are 1. *)
Record crypto_state (S : Type) := mk_crypto_state {
  psa : S;
  pst_keys : gset Z;
  dh : dh_pair
}.
Arguments mk_crypto_state {S} _ _ _.
Arguments psa {S} _.
Arguments pst_keys {S} _.
Arguments dh {S} _.

Section Backend.

Context {S : Type} `{Psa S}.

(** [IS_ENABLED(CONFIG_BT_SETTINGS)], [BT_MESH_PSA_KEY_ID_MIN] and
    [BT_MESH_PSA_KEY_ID_RANGE_SIZE]. *)
Context (SETTINGS : bool) (KEY_ID_MIN KEY_ID_RANGE_SIZE : Z).

Notation W := (crypto_state S).

Definition set_psa (s : S) (w : W) : W := mk_crypto_state s (pst_keys w) (dh w).
Definition set_pst_keys (k : gset Z) (w : W) : W := mk_crypto_state (psa w) k (dh w).
Definition set_dh (d : dh_pair) (w : W) : W := mk_crypto_state (psa w) (pst_keys w) d.

(** A call of the PSA API. *)
Definition call {A} (f : S -> A * S) : M W A := fun w =>
  let '(a, s) := f (psa w) in (Ok a, set_psa s w).

Definition get : M W W := fun w => (Ok w, w).
Definition put (w : W) : M W unit := fun _ => (Ok (), w).

(** [status != PSA_SUCCESS] *)
Definition failed (status : Z) : bool := negb (status =? PSA_SUCCESS).

Definition bt_mesh_crypto_init : M W unit :=
  status ← call psa_crypto_init;
  if failed status then fail (- EIO) else mret ().

(** * Ciphers *)

Definition bt_mesh_encrypt (key : bt_mesh_key) (plaintext : list Z) : M W (list Z) :=
  '(status, enc_data) ← call (psa_cipher_encrypt key PSA_ALG_ECB_NO_PADDING plaintext 16);
  if failed status || negb (zlen enc_data =? 16) then fail (- EIO) else mret enc_data.

Definition bt_mesh_ccm_encrypt (key : bt_mesh_key) (nonce plaintext aad : list Z)
    (mic_size : Z) : M W (list Z) :=
  let alg := PSA_ALG_CCM_WITH_SHORTENED_TAG mic_size in
  '(status, enc_data) ← call (psa_aead_encrypt key alg nonce aad plaintext
                                (zlen plaintext + mic_size));
  if failed status || negb (zlen enc_data =? zlen plaintext + mic_size)
  then fail (- EIO) else mret enc_data.

(** [enc_data] are the [len + mic_size] bytes the function reads. *)
Definition bt_mesh_ccm_decrypt (key : bt_mesh_key) (nonce enc_data : list Z) (len : Z)
    (aad : list Z) (mic_size : Z) : M W (list Z) :=
  let alg := PSA_ALG_CCM_WITH_SHORTENED_TAG mic_size in
  '(status, plaintext) ← call (psa_aead_decrypt key alg nonce aad enc_data len);
  if failed status || negb (zlen plaintext =? len) then fail (- EIO) else mret plaintext.

(** * Persistent key identifiers *)

Definition in_range (key_id : Z) : bool :=
  (KEY_ID_MIN <=? key_id) && (key_id <=? KEY_ID_MIN + KEY_ID_RANGE_SIZE - 1).

(** [for (int i = 0; i < BT_MESH_PSA_KEY_ID_RANGE_SIZE; i++)], [n] steps left. *)
Fixpoint alloc_loop (n : nat) (i : Z) : M W Z :=
  match n with
  | O => mret PSA_KEY_ID_NULL
  | Datatypes.S n' =>
      w ← get;
      if bool_decide (i ∈ pst_keys w) then alloc_loop n' (i + 1)
      else _ ← put (set_pst_keys ({[i]} ∪ pst_keys w) w); mret (KEY_ID_MIN + i)
  end.

Definition keyid_alloc : M W Z := alloc_loop (Z.to_nat KEY_ID_RANGE_SIZE) 0.

Definition keyid_free (key_id : Z) : M W unit :=
  if in_range key_id then
    w ← get; put (set_pst_keys (pst_keys w ∖ {[key_id - KEY_ID_MIN]}) w)
  else fail (- EIO).

Definition keyid_assign (key_id : Z) : M W unit :=
  if in_range key_id then
    w ← get; put (set_pst_keys ({[key_id - KEY_ID_MIN]} ∪ pst_keys w) w)
  else mret ().

(** * Keys *)

Definition usage_of (type : bt_mesh_key_type) : list psa_usage :=
  match type with
  | BT_MESH_KEY_TYPE_ECB | BT_MESH_KEY_TYPE_CCM =>
      [PSA_KEY_USAGE_ENCRYPT; PSA_KEY_USAGE_DECRYPT]
  | BT_MESH_KEY_TYPE_CMAC => [PSA_KEY_USAGE_SIGN_MESSAGE]
  | BT_MESH_KEY_TYPE_NET => [PSA_KEY_USAGE_EXPORT]
  | BT_MESH_KEY_TYPE_APP | BT_MESH_KEY_TYPE_DEV =>
      [PSA_KEY_USAGE_ENCRYPT; PSA_KEY_USAGE_DECRYPT; PSA_KEY_USAGE_EXPORT]
  end.

Definition alg_of (type : bt_mesh_key_type) : psa_algorithm :=
  match type with
  | BT_MESH_KEY_TYPE_ECB => PSA_ALG_ECB_NO_PADDING
  | BT_MESH_KEY_TYPE_CMAC => PSA_ALG_CMAC
  | BT_MESH_KEY_TYPE_NET => PSA_ALG_NONE
  | BT_MESH_KEY_TYPE_CCM | BT_MESH_KEY_TYPE_APP | BT_MESH_KEY_TYPE_DEV =>
      PSA_ALG_CCM_WITH_AT_LEAST_THIS_LENGTH_TAG 4
  end.

Definition attributes_of (type : bt_mesh_key_type) (lifetime : psa_lifetime) (id : Z)
  : psa_key_attributes :=
  mk_attributes lifetime id (usage_of type) (alg_of type) PSA_KEY_TYPE_AES 128.

(** From [psa_import_key] on: the retry, the release of the identifier. *)
Definition import_with (attributes : psa_key_attributes) (key_id : Z) (in_ : list Z)
  : M W bt_mesh_key :=
  '(status, out) ← call (psa_import_key attributes in_);
  '(status, out) ←
    (if status =? PSA_ERROR_ALREADY_EXISTS then
       _ ← call (psa_destroy_key key_id);
       call (psa_import_key attributes in_)
     else mret (status, out));
  if failed status then
    _ ← (if negb (key_id =? PSA_KEY_ID_NULL) then attempt (keyid_free key_id)
         else mret (inl ()));
    fail (- EIO)
  else mret out.

Definition bt_mesh_key_import (type : bt_mesh_key_type) (in_ : list Z) : M W bt_mesh_key :=
  if exportable type && SETTINGS then
    key_id ← keyid_alloc;
    if key_id =? PSA_KEY_ID_NULL then fail (- ENOMEM)
    else import_with (attributes_of type PSA_KEY_LIFETIME_PERSISTENT key_id) key_id in_
  else
    import_with (attributes_of type PSA_KEY_LIFETIME_VOLATILE PSA_KEY_ID_NULL)
      PSA_KEY_ID_NULL in_.

Definition bt_mesh_key_export (key : bt_mesh_key) : M W (list Z) :=
  '(status, out) ← call (psa_export_key key 16);
  if failed status then fail (- EIO)
  else if negb (zlen out =? 16) then fail (- EIO)
  else mret out.

(** Returns the copied key. *)
Definition bt_mesh_key_assign (src : bt_mesh_key) : M W bt_mesh_key :=
  _ ← (if SETTINGS then keyid_assign src else mret ()); mret src.

Definition bt_mesh_key_destroy (key : bt_mesh_key) : M W unit :=
  status ← call (psa_destroy_key key);
  if failed status then fail (- EIO)
  else if SETTINGS then keyid_free key else mret ().

(** 0 if the keys are equal; an errno value or a difference otherwise. *)
Definition bt_mesh_key_compare (raw_key : list Z) (key : bt_mesh_key) : M W Z :=
  r ← attempt (bt_mesh_key_export key);
  match r with
  | inr err => mret err
  | inl out => mret (memcmp out raw_key)
  end.

(** * Message authentication codes *)

(** [for (; sg_len; sg_len--, sg++)]: [psa_mac_update] of each piece. *)
Fixpoint update_loop (op : psa_mac_operation) (sg : list (list Z))
  : M W (option psa_mac_operation) :=
  match sg with
  | [] => mret (Some op)
  | d :: sg' =>
      '(status, op) ← call (psa_mac_update op d);
      if failed status then _ ← call (psa_mac_abort op); mret None
      else update_loop op sg'
  end.

(** [psa_mac_sign_setup], the pieces, [psa_mac_sign_finish]. *)
Definition mac_sign (key_id : Z) (alg : psa_algorithm) (sg : list (list Z)) (size : Z)
  : M W (list Z) :=
  '(status, op) ← call (psa_mac_sign_setup key_id alg);
  if failed status then fail (- EIO) else
  r ← update_loop op sg;
  match r with
  | None => fail (- EIO)
  | Some op =>
      '(status, mac) ← call (psa_mac_sign_finish op size);
      if failed status then fail (- EIO)
      else if negb (zlen mac =? size) then fail (- ERANGE)
      else mret mac
  end.

Definition bt_mesh_aes_cmac_mesh_key (key : bt_mesh_key) (sg : list (list Z))
  : M W (list Z) := mac_sign key PSA_ALG_CMAC sg 16.

(** The result of [r] after [psa_destroy_key]. *)
Definition return_ {A} (r : A + Z) : M W A :=
  match r with inl a => mret a | inr e => fail e end.

Definition bt_mesh_aes_cmac_raw_key (key : list Z) (sg : list (list Z)) : M W (list Z) :=
  key_id ← bt_mesh_key_import BT_MESH_KEY_TYPE_CMAC key;
  r ← attempt (bt_mesh_aes_cmac_mesh_key key_id sg);
  _ ← call (psa_destroy_key key_id);
  return_ r.

Definition hmac_attributes : psa_key_attributes :=
  mk_attributes PSA_KEY_LIFETIME_VOLATILE PSA_KEY_ID_NULL [PSA_KEY_USAGE_SIGN_MESSAGE]
    PSA_ALG_HMAC_SHA_256 PSA_KEY_TYPE_HMAC 256.

(** The label [end:] destroys whatever [psa_import_key] left in [key_id]. *)
Definition bt_mesh_sha256_hmac_raw_key (key : list Z) (sg : list (list Z)) : M W (list Z) :=
  '(status, key_id) ← call (psa_import_key hmac_attributes key);
  r ← (if failed status then mret (inr (- EIO))
       else attempt (mac_sign key_id PSA_ALG_HMAC_SHA_256 sg 32));
  _ ← call (psa_destroy_key key_id);
  return_ r.

(** * Diffie-Hellman and random numbers *)

Definition ecdh_attributes : psa_key_attributes :=
  mk_attributes PSA_KEY_LIFETIME_VOLATILE PSA_KEY_ID_NULL [PSA_KEY_USAGE_DERIVE]
    PSA_ALG_ECDH PSA_KEY_TYPE_ECC_KEY_PAIR_SECP_R1 256.

Definition update_dh (f : dh_pair -> dh_pair) : M W unit := w ← get; put (set_dh (f (dh w)) w).

Definition bt_mesh_pub_key_gen : M W unit :=
  w ← get;
  _ ← call (psa_destroy_key (priv_key_id (dh w)));
  _ ← update_dh (fun d => mk_dh_pair false (priv_key_id d) (public_key_be d));
  '(status, id) ← call (psa_generate_key ecdh_attributes);
  _ ← update_dh (fun d => mk_dh_pair (is_ready d) id (public_key_be d));
  if failed status then fail (- EIO) else
  '(status, pub) ← call (psa_export_public_key id (PUB_KEY_SIZE + 1));
  _ ← update_dh (fun d => mk_dh_pair (is_ready d) (priv_key_id d) pub);
  if failed status then fail (- EIO)
  else if negb (zlen pub =? PUB_KEY_SIZE + 1) then fail (- ERANGE)
  else update_dh (fun d => mk_dh_pair true (priv_key_id d) (public_key_be d)).

Definition bt_mesh_pub_key_get : M W (option (list Z)) :=
  w ← get;
  mret (if is_ready (dh w) then Some (drop 1 (public_key_be (dh w))) else None).

(** The key agreement with the private key chosen. *)
Definition agree (id : Z) (pub_key : list Z) : M W (list Z) :=
  '(status, dhkey) ← call (psa_raw_key_agreement PSA_ALG_ECDH id (4 :: pub_key) DH_KEY_SIZE);
  if failed status then fail (- EIO)
  else if negb (zlen dhkey =? DH_KEY_SIZE) then fail (- ERANGE)
  else mret dhkey.

Definition bt_mesh_dhkey_gen (pub_key : list Z) (priv_key : option (list Z)) : M W (list Z) :=
  match priv_key with
  | Some raw =>
      '(status, id) ← call (psa_import_key ecdh_attributes raw);
      r ← (if failed status then mret (inr (- EIO)) else attempt (agree id pub_key));
      _ ← call (psa_destroy_key id);
      return_ r
  | None => w ← get; agree (priv_key_id (dh w)) pub_key
  end.

Definition bt_rand (len : Z) : M W (list Z) :=
  if len =? 0 then fail (- EINVAL) else
  '(status, buf) ← call (psa_generate_random len);
  if status =? PSA_SUCCESS then mret buf else fail (- EIO).

End Backend.

#[export] Instance psa_crypto {S} `{Psa S} (SETTINGS : bool) (MIN SIZE : Z)
  : MeshCrypto (crypto_state S) := {
  mc_encrypt := bt_mesh_encrypt;
  mc_ccm_encrypt := bt_mesh_ccm_encrypt;
  mc_ccm_decrypt := bt_mesh_ccm_decrypt;
  mc_aes_cmac_mesh_key := bt_mesh_aes_cmac_mesh_key;
  mc_aes_cmac_raw_key := bt_mesh_aes_cmac_raw_key SETTINGS MIN SIZE;
  mc_sha256_hmac_raw_key := bt_mesh_sha256_hmac_raw_key;
  mc_key_import := bt_mesh_key_import SETTINGS MIN SIZE;
  mc_key_export := bt_mesh_key_export;
  mc_key_assign := bt_mesh_key_assign SETTINGS MIN SIZE;
  mc_key_destroy := bt_mesh_key_destroy SETTINGS MIN SIZE
}.

(** Goes over a step of the program whose result is known. *)
Ltac step E := erewrite bind_ok by exact E; cbv beta iota.

(** * The key store the mesh code sees *)

Definition kind_of (e : psa_key_attributes * list Z) : option (bt_mesh_key_type * list Z) :=
  let '(a, raw) := e in
  (fun t => (t, raw)) <$>
    List.find (fun t => bool_decide (at_usage a = usage_of t) && bool_decide (at_alg a = alg_of t)
                   && bool_decide (at_type a = PSA_KEY_TYPE_AES))
      [BT_MESH_KEY_TYPE_ECB; BT_MESH_KEY_TYPE_CCM; BT_MESH_KEY_TYPE_CMAC;
       BT_MESH_KEY_TYPE_NET; BT_MESH_KEY_TYPE_APP].

Lemma kind_of_attributes t l id raw : kind_of (attributes_of t l id, raw) = Some (key_kind t, raw).
Proof. by destruct t. Qed.

Lemma kind_of_inv a raw t raw' :
  kind_of (a, raw) = Some (t, raw') ->
  raw' = raw /\ at_usage a = usage_of t /\ at_alg a = alg_of t.
Proof.
  unfold kind_of. intros (t' & Hf & [= -> ->])%fmap_Some.
  apply find_some in Hf as [_ Hf]. bool_to_prop.
  repeat match goal with H : bool_decide _ = true |- _ => apply bool_decide_eq_true in H end.
  done.
Qed.

Section Laws.

Context {S : Type} `{PsaLaws S}.
Context (SETTINGS : bool) (MIN SIZE : Z).

Notation W := (crypto_state S).

Definition store (w : W) : psa_store := psa_keys (psa w).
Definition ready (w : W) : Prop := psa_ready (psa w).
Definition mesh_keys (w : W) : key_store := omap kind_of (store w).

Lemma mesh_keys_inv w k t raw :
  mesh_keys w !! k = Some (t, raw) ->
  exists a, store w !! k = Some (a, raw) /\ at_usage a = usage_of t /\ at_alg a = alg_of t.
Proof.
  unfold mesh_keys. rewrite lookup_omap. intros ([a raw'] & Hk & Hf)%bind_Some.
  apply kind_of_inv in Hf as (-> & ? & ?). eauto.
Qed.

Lemma mesh_keys_eq w w' : store w' = store w -> mesh_keys w' = mesh_keys w.
Proof. unfold mesh_keys. by intros ->. Qed.

Lemma mesh_keys_same w w' : store w' = store w -> mesh_keys w ⊆ mesh_keys w'.
Proof. intros E. by rewrite (mesh_keys_eq _ _ E). Qed.

Hint Resolve mesh_keys_eq mesh_keys_same : core.

Lemma call_eq {A} (f : S -> A * S) (w : W) a s :
  f (psa w) = (a, s) -> call f w = (Ok a, set_psa s w).
Proof. unfold call. by intros ->. Qed.

(** A call that is specified by [psa_computes]. *)
Lemma call_spec {A} (f : S -> (Z * A) * S) (w : W) (P : A -> Prop) :
  psa_computes psa_keys psa_ready f (psa w) P ->
  exists st v s', call f w = (Ok (st, v), set_psa s' w) /\
    psa_keys s' = store w /\ (ready w -> psa_ready s') /\
    ((failed st = false /\ P v) \/ (failed st = true /\ ~ ready w)).
Proof.
  intros (st & v & s' & Hf & Hk & Hr & Hc). exists st, v, s'. split_and!; try done.
  - by apply call_eq.
  - unfold failed, PSA_SUCCESS in *. destruct Hc as [[-> ?]|[? ?]]; [left; done|].
    right. split; [|done]. apply negb_true_iff, Z.eqb_neq. done.
Qed.

(** A call that computes [v] and, on a ready implementation, changes neither
    the key store nor the bitmap; otherwise it may fail and leave keys behind. *)
Definition runs {A} (m : M W A) (w : W) (v : A) : Prop :=
  exists w', mesh_keys w ⊆ mesh_keys w' /\
    (ready w -> store w' = store w /\ pst_keys w' = pst_keys w /\ ready w') /\
    (m w = (Ok v, w') \/ exists e, m w = (Err e, w') /\ e < 0 /\ ~ ready w).

(** Such a call, followed by the check of the status and the length. *)
Lemma call_computes (f : S -> (Z * list Z) * S) (w : W) v n :
  psa_computes psa_keys psa_ready f (psa w) (eq v) -> zlen v = n ->
  runs
    ('(st, out) ← call f; if failed st || negb (zlen out =? n) then fail (- EIO) else mret out) w v.
Proof.
  intros Hf Hn.
  destruct (call_spec f w (eq v) Hf) as (st & out & s' & E & Hk & Hr & [[Hs <-]|[Hs Hn']]).
  all: exists (set_psa s' w); split_and!; [by apply mesh_keys_same|intros Hw; split_and!; [done|done|by apply Hr]|];
    step E; rewrite Hs; simpl.
  - left. by rewrite (proj2 (Z.eqb_eq _ _) Hn).
  - right. exists (- EIO). done.
Qed.

Lemma encrypt_spec (w : W) k raw x :
  mesh_keys w !! k = Some (BT_MESH_KEY_TYPE_ECB, raw) -> length x = 16%nat ->
  runs (bt_mesh_encrypt k x) w (psa_aes raw x).
Proof.
  intros (a & Hk & Hu & Ha)%mesh_keys_inv Hx. apply call_computes.
  - eapply psa_cipher_spec; [done| |done|lia]. unfold permits. by rewrite Hu, Ha.
  - by rewrite (proj1 (psa_aes_ok _ _)).
Qed.

(** The policy of a sealing key admits the tags the mesh uses. *)
Lemma sealing_permits a t u mic :
  at_usage a = usage_of t -> at_alg a = alg_of t -> sealing t = true ->
  u = PSA_KEY_USAGE_ENCRYPT \/ u = PSA_KEY_USAGE_DECRYPT -> mic = 4 \/ mic = 8 ->
  permits a u (PSA_ALG_CCM_WITH_SHORTENED_TAG mic) = true.
Proof.
  intros Hu Ha Ht Hus Hm. unfold permits. rewrite Hu, Ha.
  destruct t; try done; destruct Hus as [-> | ->], Hm as [-> | ->]; reflexivity.
Qed.

Lemma ccm_encrypt_spec (w : W) k t raw n x a mic :
  mesh_keys w !! k = Some (t, raw) -> sealing t = true ->
  length n = 13%nat -> mic = 4 \/ mic = 8 ->
  runs (bt_mesh_ccm_encrypt k n x a mic) w (psa_seal raw n a x mic).
Proof.
  intros (at_ & Hk & Hu & Ha)%mesh_keys_inv Ht Hn Hm. apply call_computes.
  - eapply psa_aead_encrypt_spec; [done| |done|lia|lia]. eapply sealing_permits; eauto.
  - apply psa_seal_length. lia.
Qed.

Lemma ccm_decrypt_spec (w : W) k t raw n c len a mic x :
  mesh_keys w !! k = Some (t, raw) -> sealing t = true ->
  length n = 13%nat -> mic = 4 \/ mic = 8 -> zlen c = len + mic ->
  psa_open raw n a c mic = Some x -> zlen x = len ->
  runs (bt_mesh_ccm_decrypt k n c len a mic) w x.
Proof.
  intros (at_ & Hk & Hu & Ha)%mesh_keys_inv Ht Hn Hm Hc Ho Hx. apply call_computes; [|done].
  assert (permits at_ PSA_KEY_USAGE_DECRYPT (PSA_ALG_CCM_WITH_SHORTENED_TAG mic) = true) as Hp
    by (eapply sealing_permits; eauto).
  pose proof (psa_aead_decrypt_spec (psa w) k at_ raw n a c mic len Hk Hp Hn
    ltac:(lia) ltac:(lia)) as Hd.
  by rewrite Ho in Hd.
Qed.

Lemma ccm_decrypt_bad (w : W) k t raw n c len a mic :
  mesh_keys w !! k = Some (t, raw) -> sealing t = true ->
  length n = 13%nat -> mic = 4 \/ mic = 8 -> zlen c = len + mic ->
  psa_open raw n a c mic = None ->
  exists e w', bt_mesh_ccm_decrypt k n c len a mic w = (Err e, w') /\ e < 0 /\
    store w' = store w /\ pst_keys w' = pst_keys w /\ (ready w -> ready w').
Proof.
  intros (at_ & Hk & Hu & Ha)%mesh_keys_inv Ht Hn Hm Hc Ho.
  assert (permits at_ PSA_KEY_USAGE_DECRYPT (PSA_ALG_CCM_WITH_SHORTENED_TAG mic) = true) as Hp
    by (eapply sealing_permits; eauto).
  pose proof (psa_aead_decrypt_spec (psa w) k at_ raw n a c mic len Hk Hp Hn
    ltac:(lia) ltac:(lia)) as Hd.
  rewrite Ho in Hd. destruct Hd as (st & v & s' & E & Hs & Hk' & Hr).
  exists (- EIO), (set_psa s' w). split_and!; [|done|done|done|done].
  unfold bt_mesh_ccm_decrypt. erewrite bind_ok by by apply call_eq.
  unfold failed. by rewrite (proj2 (Z.eqb_neq _ _) Hs).
Qed.

(** ** Message authentication codes *)

(** A step that leaves the key store, the bitmap and the key pair alone. *)
Definition quiet (w w' : W) : Prop :=
  store w' = store w /\ pst_keys w' = pst_keys w /\ dh w' = dh w /\ (ready w -> ready w').

Lemma quiet_set_psa s' (w w' : W) :
  quiet w w' -> psa_keys s' = store w' -> (ready w' -> psa_ready s') -> quiet w (set_psa s' w').
Proof.
  intros (Hs & Hp & Hd & Hr) Hk Hr'. unfold quiet, store, ready in *. simpl.
  split_and!; [congruence|done|done|auto].
Qed.

Lemma quiet_refl (w : W) : quiet w w.
Proof. done. Qed.

Lemma quiet_trans (w w1 w2 : W) : quiet w w1 -> quiet w1 w2 -> quiet w w2.
Proof.
  intros (? & ? & ? & ?) (? & ? & ? & ?).
  split_and!; try congruence. auto.
Qed.

Hint Resolve quiet_set_psa quiet_refl : core.

(** The result [m] of a computation of [v] that is [quiet]. *)
Definition quietly {A} (m : M W A) (w : W) (v : A) : Prop :=
  exists w', quiet w w' /\
    (m w = (Ok v, w') \/ exists e, m w = (Err e, w') /\ e < 0 /\ ~ ready w).

Lemma quietly_runs {A} (m : M W A) w v : quietly m w v -> runs m w v.
Proof.
  intros (w' & (Hs & Hp & _ & Hr) & Hm). exists w'. split_and!; [by apply mesh_keys_same| |done].
  intros Hw. split_and!; [done|done|by apply Hr].
Qed.

Lemma update_loop_spec alg raw sg : forall op m (w : W),
  psa_mac_active op alg raw m ->
  exists w', quiet w w' /\
    ((exists op', update_loop op sg w = (Ok (Some op'), w') /\
        psa_mac_active op' alg raw (m ++ concat sg)) \/
     (update_loop op sg w = (Ok None, w') /\ ~ ready w)).
Proof.
  induction sg as [|d sg IH]; intros op m w Hop.
  { exists w. split; [done|]. left. exists op. simpl. by rewrite app_nil_r. }
  cbn [update_loop].
  destruct (call_spec (psa_mac_update op d) w _ (psa_mac_update_spec _ op alg raw m d Hop))
    as (st & op' & s' & E & Hk & Hr & [[Hs Hop']|[Hs Hn]]); step E; rewrite Hs; clear E.
  - destruct (IH op' (m ++ d) (set_psa s' w) Hop') as (w' & Hq & Hc).
    exists w'. split; [by eapply quiet_trans, Hq; eauto|]. cbn [concat].
    destruct Hc as [(op2 & E & Ha)|[E Hn]]; [left; exists op2; by rewrite app_assoc|].
    right. split; [done|]. intros Hw. by apply Hn, Hr.
  - destruct (psa_mac_abort op' s') as [st2 s2] eqn:Ea.
    destruct (psa_mac_abort_spec _ _ _ _ Ea) as [Hk2 Hr2].
    exists (set_psa s2 (set_psa s' w)). split.
    + apply quiet_set_psa; [eauto|done|done].
    + right. split; [|done]. step (call_eq _ (set_psa s' w) _ _ Ea). done.
Qed.

(** The end of [mac_sign], with the operation set up. *)
Lemma mac_finish_quiet op alg raw m (w : W) size :
  psa_mac_active op alg raw m -> zlen (psa_mac alg raw m) = size ->
  quietly ('(status, mac) ← call (psa_mac_sign_finish op size);
           if failed status then fail (- EIO)
           else if negb (zlen mac =? size) then fail (- ERANGE) else mret mac) w (psa_mac alg raw m).
Proof.
  intros Hop Hz. edestruct (call_spec (psa_mac_sign_finish op size) w (eq (psa_mac alg raw m)))
    as (st & mac & s' & E & Hk & Hr & [[Hs <-]|[Hs Hn]]).
  - eapply psa_mac_finish_spec; [done|lia].
  - exists (set_psa s' w). split; [eauto|]. left. step E. rewrite Hs.
    by rewrite (proj2 (Z.eqb_eq _ _) Hz).
  - exists (set_psa s' w). split; [eauto|]. right. exists (- EIO). step E. by rewrite Hs.
Qed.

Lemma mac_sign_spec k a raw alg sg size (w : W) :
  store w !! k = Some (a, raw) -> permits a PSA_KEY_USAGE_SIGN_MESSAGE alg = true ->
  zlen (psa_mac alg raw (concat sg)) = size ->
  quietly (mac_sign k alg sg size) w (psa_mac alg raw (concat sg)).
Proof.
  intros Hk Hp Hz. unfold mac_sign, quietly.
  edestruct (call_spec (psa_mac_sign_setup k alg) w (fun op => psa_mac_active op alg raw []))
    as (st & op & s' & E & Hk' & Hr & [[Hs Hop]|[Hs Hn]]);
    [by eapply psa_mac_setup_spec| |]; step E; rewrite Hs.
  2: { exists (set_psa s' w). split; [eauto|]. right. by exists (- EIO). }
  destruct (update_loop_spec alg raw sg op [] (set_psa s' w) Hop)
    as (w2 & Hq & [(op2 & E2 & Hop2)|[E2 Hn]]); step E2.
  - destruct (mac_finish_quiet op2 alg raw _ w2 size Hop2 Hz) as (w3 & Hq3 & Hm).
    exists w3. split.
    + eapply quiet_trans, Hq3. eapply quiet_trans, Hq. eauto.
    + destruct Hm as [Hm|(e & Hm & He & Hn)]; [by left|]. right. exists e.
      split_and!; [done|done|]. intros Hw. apply Hn, Hq, Hr, Hw.
  - exists w2. split; [eapply quiet_trans, Hq; eauto|]. right. exists (- EIO).
    split_and!; [done|done|]. intros Hw. by apply Hn, Hr.
Qed.

(** ** Keys *)

Lemma destroy_store k (w : W) st s' :
  k <> PSA_KEY_ID_NULL -> psa_destroy_key k (psa w) = (st, s') ->
  (ready w -> psa_ready s') /\
  (psa_keys s' = delete k (store w) \/
   failed st = true /\ psa_keys s' = store w /\ (store w !! k = None \/ ~ ready w)).
Proof.
  intros Hne Hd.
  destruct (psa_destroy_spec _ _ _ _ Hne Hd) as [Hr [Hk|(Hs & Hk & Hc)]]; (split; [done|]);
    [by left|].
  right. unfold failed. by rewrite (proj2 (Z.eqb_neq _ _) Hs).
Qed.

(** Importing a key that lives until it is destroyed, from [import_with] on. *)
Lemma import_volatile_spec a raw (w : W) :
  at_lifetime a = PSA_KEY_LIFETIME_VOLATILE -> zlen raw * 8 = at_bits a ->
  exists s', (ready w -> psa_ready s') /\
    ((exists k, import_with MIN SIZE a PSA_KEY_ID_NULL raw w = (Ok k, set_psa s' w) /\
        psa_import_key a raw (psa w) = ((PSA_SUCCESS, k), s') /\
        store w !! k = None /\ PSA_KEY_ID_VENDOR_MIN <= k /\
        psa_keys s' = <[k := (a, raw)]> (store w)) \/
     (import_with MIN SIZE a PSA_KEY_ID_NULL raw w = (Err (- EIO), set_psa s' w) /\
        (exists st, psa_import_key a raw (psa w) = ((st, PSA_KEY_ID_NULL), s') /\
           failed st = true) /\
        ~ ready w /\ psa_keys s' = store w)).
Proof.
  intros Hl Hz.
  destruct (psa_import_volatile (psa w) a raw Hl Hz) as (st & k & s' & E & Hr & Hc).
  exists s'. split; [done|]. unfold import_with. step (call_eq _ w _ _ E).
  destruct Hc as [(-> & Hk & Hv & Hs)|(Hst & Hne & -> & Hn & Hs)].
  - left. exists k. done.
  - right. rewrite (proj2 (Z.eqb_neq _ _) Hne). unfold mbind at 1, M_bind at 1.
    assert (failed st = true) as Hf
      by (unfold failed; by rewrite (proj2 (Z.eqb_neq _ _) Hst)).
    cbn [mret M_ret]. rewrite Hf. split_and!; [done|eauto|done|done].
Qed.

(** What a volatile key leaves behind when it is destroyed after its use. *)
Lemma destroy_fresh k e (w w1 w2 : W) st s' :
  PSA_KEY_ID_VENDOR_MIN <= k ->
  store w !! k = None -> store w1 = <[k := e]> (store w) -> quiet w1 w2 ->
  (ready w -> ready w1) ->
  psa_destroy_key k (psa w2) = (st, s') ->
  (ready w -> psa_ready s' /\ psa_keys s' = store w) /\
  (psa_keys s' = store w \/ (~ ready w1 /\ psa_keys s' = store w1)).
Proof.
  intros Hv Hk Hw1 (Hs & _ & _ & Hq) Hw Hd.
  destruct (destroy_store k w2 st s') as [Hr Hc];
    [unfold PSA_KEY_ID_VENDOR_MIN, PSA_KEY_ID_NULL in *; lia|done|].
  rewrite Hs, Hw1 in Hc. rewrite delete_insert_id in Hc by done.
  rewrite lookup_insert_eq in Hc.
  destruct Hc as [Hc|(_ & Hc & [?|Hn])]; [|done|].
  - split; [|by left]. intros Hr0. split; [by apply Hr, Hq, Hw|done].
  - assert (~ ready w1) as Hn1 by (intros ?; by apply Hn, Hq).
    split; [intros Hr0; by destruct Hn1; apply Hw|]. right. by rewrite Hw1.
Qed.

Lemma mesh_keys_insert k t l id raw (w w' : W) :
  store w' = <[k := (attributes_of t l id, raw)]> (store w) ->
  mesh_keys w' = <[k := (key_kind t, raw)]> (mesh_keys w).
Proof. unfold mesh_keys. intros ->. by rewrite omap_insert, kind_of_attributes. Qed.

Lemma mesh_keys_None (w : W) k : store w !! k = None -> mesh_keys w !! k = None.
Proof. unfold mesh_keys. rewrite lookup_omap. by intros ->. Qed.

Lemma import_spec (w : W) t raw :
  length raw = 16%nat -> exportable t && SETTINGS = false ->
  exists w', (ready w -> ready w') /\ pst_keys w' = pst_keys w /\
    ((exists k a, bt_mesh_key_import SETTINGS MIN SIZE t raw w = (Ok k, w') /\
        store w !! k = None /\ PSA_KEY_ID_VENDOR_MIN <= k /\
        store w' = <[k := (a, raw)]> (store w) /\
        mesh_keys w' = <[k := (key_kind t, raw)]> (mesh_keys w)) \/
     (exists e, bt_mesh_key_import SETTINGS MIN SIZE t raw w = (Err e, w') /\ e < 0 /\
        ~ ready w /\ store w' = store w)).
Proof.
  intros Hl Ht. unfold bt_mesh_key_import. rewrite Ht.
  destruct (import_volatile_spec (attributes_of t PSA_KEY_LIFETIME_VOLATILE PSA_KEY_ID_NULL)
    raw w) as (s' & Hr & [(k & E & _ & Hk & Hv & Hs)|(E & _ & Hn & Hs)]); [done|simpl; lia| |].
  all: exists (set_psa s' w); split; [done|]; split; [done|].
  - left. eexists k, _. split_and!; [done|done|done|done|]. by eapply mesh_keys_insert.
  - right. exists (- EIO). done.
Qed.

(** ** The raw-key codes *)

Lemma mesh_keys_leak k e (w w' : W) :
  store w !! k = None -> store w' = <[k := e]> (store w) -> mesh_keys w ⊆ mesh_keys w'.
Proof.
  intros Hk Hs. unfold mesh_keys. rewrite Hs, omap_insert.
  assert (omap kind_of (store w) !! k = None) as Hn by by apply mesh_keys_None.
  destruct (kind_of e); [by apply insert_subseteq|]. by rewrite delete_id.
Qed.

(** A key that has been imported is used by [m] and destroyed. *)
Lemma use_and_destroy {A} k e (w w1 : W) (m : M W A) v :
  PSA_KEY_ID_VENDOR_MIN <= k ->
  store w !! k = None -> store w1 = <[k := e]> (store w) -> (ready w -> ready w1) ->
  quietly m w1 v ->
  let use := r ← attempt m; _ ← call (psa_destroy_key k); return_ r in
  exists w', mesh_keys w ⊆ mesh_keys w' /\
    (ready w -> store w' = store w /\ pst_keys w' = pst_keys w1 /\ ready w') /\
    (use w1 = (Ok v, w') \/ exists e, use w1 = (Err e, w') /\ e < 0 /\ ~ ready w).
Proof.
  intros Hv Hk Hw1 Hr (w2 & Hq & Hm) use.
  destruct (psa_destroy_key k (psa w2)) as [st s'] eqn:Hd.
  destruct (destroy_fresh k e w w1 w2 st s' Hv Hk Hw1 Hq Hr Hd) as [Hgood Hbad].
  exists (set_psa s' w2). split_and!.
  - destruct Hbad as [Hs|[_ Hs]]; [by apply mesh_keys_same|].
    eapply mesh_keys_leak; [done|]. unfold store at 1. simpl. by rewrite Hs.
  - intros Hw. destruct (Hgood Hw). destruct Hq as (_ & Hp & _). done.
  - unfold use, attempt. destruct Hm as [Hm|(e' & Hm & He & Hn)]; [left|right; exists e'];
      unfold mbind, M_bind; rewrite Hm, (call_eq _ _ _ _ Hd); [done|].
    split_and!; [done|done|auto].
Qed.

Lemma cmac_raw_spec (w : W) raw sg :
  length raw = 16%nat ->
  runs (bt_mesh_aes_cmac_raw_key SETTINGS MIN SIZE raw sg) w
    (psa_mac PSA_ALG_CMAC raw (concat sg)).
Proof.
  intros Hl. unfold runs, bt_mesh_aes_cmac_raw_key, bt_mesh_key_import.
  cbn [exportable andb].
  destruct (import_volatile_spec (attributes_of BT_MESH_KEY_TYPE_CMAC PSA_KEY_LIFETIME_VOLATILE
    PSA_KEY_ID_NULL) raw w) as (s' & Hr & [(k & E & _ & Hk & Hv & Hs)|(E & _ & Hn & Hs)]);
    [done|simpl; lia| |].
  - step E. apply (use_and_destroy k _ w (set_psa s' w) _ _ Hv Hk Hs Hr).
    eapply mac_sign_spec.
    + unfold store. simpl. rewrite Hs. apply lookup_insert_eq.
    + done.
    + by rewrite (proj2 (psa_mac_ok _ _ _)).
  - exists (set_psa s' w). split_and!; [by apply mesh_keys_same| |].
    + done.
    + right. exists (- EIO). unfold mbind at 1, M_bind at 1. by rewrite E.
Qed.

Lemma hmac_raw_spec (w : W) raw sg :
  length raw = 32%nat ->
  runs (bt_mesh_sha256_hmac_raw_key raw sg) w
    (psa_mac PSA_ALG_HMAC_SHA_256 raw (concat sg)).
Proof.
  intros Hl. unfold runs, bt_mesh_sha256_hmac_raw_key.
  destruct (psa_import_volatile (psa w) hmac_attributes raw)
    as (st & k & s' & E & Hr & Hc); [done|simpl; lia|].
  step (call_eq _ w _ _ E).
  destruct Hc as [(-> & Hk & Hv & Hs)|(Hst & _ & -> & Hn & Hs)].
  - apply (use_and_destroy k _ w (set_psa s' w) _ _ Hv Hk Hs Hr).
    eapply mac_sign_spec.
    + unfold store. simpl. rewrite Hs. apply lookup_insert_eq.
    + done.
    + by rewrite (proj2 (psa_mac_ok _ _ _)).
  - unfold failed. rewrite (proj2 (Z.eqb_neq _ _) Hst). cbn [negb].
    destruct (psa_destroy_key PSA_KEY_ID_NULL s') as [st2 s2] eqn:Hd.
    destruct (psa_destroy_null _ _ _ Hd) as [Hk2 Hr2].
    exists (set_psa s2 (set_psa s' w)). split_and!.
    + apply mesh_keys_same. unfold store. simpl. congruence.
    + done.
    + right. exists (- EIO). split_and!; [|done|done].
      erewrite bind_ok by done. by erewrite bind_ok by by apply call_eq.
Qed.

Lemma cmac_mesh_spec (w : W) k raw sg :
  mesh_keys w !! k = Some (BT_MESH_KEY_TYPE_CMAC, raw) ->
  runs (bt_mesh_aes_cmac_mesh_key k sg) w
    (psa_mac PSA_ALG_CMAC raw (concat sg)).
Proof.
  intros (a & Hk & Hu & Ha)%mesh_keys_inv. apply quietly_runs.
  eapply mac_sign_spec; [done| |].
  - unfold permits. by rewrite Hu, Ha.
  - by rewrite (proj2 (psa_mac_ok _ _ _)).
Qed.

End Laws.

(** * Persistent keys *)

Section Persistent.

Context {S : Type} `{PsaLaws S}.
Context (MIN SIZE : Z) (Hmin : 0 < MIN) (Hsize : 0 <= SIZE)
  (Hmax : MIN + SIZE <= PSA_KEY_ID_VENDOR_MIN).

Notation W := (crypto_state S).

(** The scan of the bitmap finds the first clear bit. *)
Lemma alloc_loop_spec n : forall i (w : W),
  (alloc_loop MIN n i w = (Ok PSA_KEY_ID_NULL, w) /\
     forall j, i <= j < i + Z.of_nat n -> j ∈ pst_keys w) \/
  (exists j, i <= j < i + Z.of_nat n /\ j ∉ pst_keys w /\
     (forall k, i <= k < j -> k ∈ pst_keys w) /\
     alloc_loop MIN n i w = (Ok (MIN + j), set_pst_keys ({[j]} ∪ pst_keys w) w)).
Proof.
  induction n as [|n IH]; intros i w.
  { left. split; [done|lia]. }
  cbn [alloc_loop]. erewrite bind_ok by done.
  case_bool_decide as Hi.
  - destruct (IH (i + 1) w) as [[E Ha]|(j & Hj & Hn & Hb & E)]; [left|right].
    + split; [done|]. intros j Hj. destruct (decide (j = i)) as [->|]; [done|].
      apply Ha. lia.
    + exists j. split_and!; [lia|lia|done| |done]. intros k Hk.
      destruct (decide (k = i)) as [->|]; [done|]. apply Hb. lia.
  - right. exists i. split_and!; [lia|lia|done|lia|done].
Qed.

(** An import under the identifier [k], whose bit [k - MIN] was just set:
    a ready backend stores the key, in place of one that was left there. *)
Lemma import_persistent_spec t raw k (w : W) :
  0 < k < PSA_KEY_ID_VENDOR_MIN -> length raw = 16%nat -> ready w ->
  exists s', import_with MIN SIZE (attributes_of t PSA_KEY_LIFETIME_PERSISTENT k) k raw w
      = (Ok k, set_psa s' w) /\ psa_ready s' /\
    psa_keys s' = <[k := (attributes_of t PSA_KEY_LIFETIME_PERSISTENT k, raw)]> (store w).
Proof.
  intros Hk Hl Hw. set (a := attributes_of _ _ _).
  assert (forall s, psa_ready s -> psa_keys s !! k = None -> exists s',
    psa_import_key a raw s = ((PSA_SUCCESS, k), s') /\ psa_ready s' /\
    psa_keys s' = <[k := (a, raw)]> (psa_keys s)) as Hfresh.
  { intros s Hs Hn. destruct (psa_import_persistent s a raw) as (st & k' & s' & E & Hr & Hc);
      [done|simpl; lia|done|].
    destruct Hc as [(-> & -> & _ & Hc)|[(_ & [x Hx] & _)|(_ & _ & Hn' & _)]];
      [eauto| |done]. simpl in Hx. congruence. }
  unfold import_with.
  destruct (psa_import_persistent (psa w) a raw) as (st & k' & s' & E & Hr & Hc);
    [done|simpl; lia|done|].
  step (call_eq _ w _ _ E).
  destruct Hc as [(-> & -> & _ & Hc)|[(-> & Hx & Hc)|(_ & _ & Hn' & _)]]; [| |done].
  - exists s'. split_and!; [done|auto|done].
  - rewrite Z.eqb_refl. simpl in Hx.
    destruct (psa_destroy_key k s') as [st2 s2] eqn:Hd.
    assert (k <> PSA_KEY_ID_NULL) as Hne by (unfold PSA_KEY_ID_NULL; lia).
    destruct (psa_destroy_spec s' k st2 s2 Hne Hd) as [Hr2 Hc2].
    assert (psa_keys s2 = delete k (store w)) as Hs2.
    { rewrite Hc in Hc2. destruct Hc2 as [?|(_ & _ & [Hn|Hn])]; [done| |].
      - rewrite Hn in Hx. by destruct Hx.
      - by destruct Hn; auto. }
    destruct (Hfresh s2) as (s3 & E3 & Hr3 & Hs3); [auto|rewrite Hs2; apply lookup_delete_eq|].
    exists s3. split_and!; [|done|by rewrite Hs3, Hs2, insert_delete_eq].
    unfold mbind, M_bind.
    rewrite (call_eq _ (set_psa s' w) _ _ Hd), (call_eq _ (set_psa s2 _) _ _ E3). done.
Qed.

(** ** The slots

    What the persistent keys are to the mesh code: a map from the identifiers
    of the range to the keys, in which an import takes the first free one. *)

Notation slots := key_store.

Definition ids : list Z := map (fun i => MIN + i) (seqZ 0 SIZE).
Definition first_free (m : slots) : option Z :=
  List.find (fun k => bool_decide (m !! k = None)) ids.

Inductive key_op :=
| KImport (t : bt_mesh_key_type) (raw : list Z)
| KExport (k : Z)
| KCompare (raw : list Z) (k : Z)
| KAssign (k : Z)
| KDestroy (k : Z).

(** Answers: an identifier or number, or bytes. *)
Inductive key_ans := Num (z : Z) | Bytes (l : list Z) | Done.

Definition do_key (op : key_op) : M W key_ans :=
  match op with
  | KImport t raw => k ← bt_mesh_key_import true MIN SIZE t raw; mret (Num k)
  | KExport k => l ← bt_mesh_key_export k; mret (Bytes l)
  | KCompare raw k => r ← bt_mesh_key_compare raw k; mret (Num r)
  | KAssign k => k' ← bt_mesh_key_assign true MIN SIZE k; mret (Num k')
  | KDestroy k => _ ← bt_mesh_key_destroy true MIN SIZE k; mret Done
  end.

Definition spec_key (op : key_op) (m : slots) : outcome key_ans * slots :=
  match op with
  | KImport t raw =>
      match first_free m with
      | Some k => (Ok (Num k), <[k := (t, raw)]> m)
      | None => (Err (- ENOMEM), m)
      end
  | KExport k => (match m !! k with Some (_, raw) => Ok (Bytes raw) | None => Crash end, m)
  | KCompare raw k =>
      (match m !! k with Some (_, raw') => Ok (Num (memcmp raw' raw)) | None => Crash end, m)
  | KAssign k => (Ok (Num k), m)
  | KDestroy k => (Ok Done, delete k m)
  end.

(** Exportable keys of 16 bytes are imported; the other calls get live keys. *)
Definition key_op_ok (m : slots) (op : key_op) : Prop :=
  match op with
  | KImport t raw => exportable t = true /\ length raw = 16%nat
  | KExport k | KCompare _ k | KAssign k | KDestroy k => is_Some (m !! k)
  end.

Definition entry (k : Z) (e : bt_mesh_key_type * list Z) : psa_key_attributes * list Z :=
  (attributes_of e.1 PSA_KEY_LIFETIME_PERSISTENT k, e.2).

Record slots_rep (w : W) (m : slots) : Prop := {
  sr_ready : ready w;
  sr_bits : forall j, j ∈ pst_keys w <-> is_Some (m !! (MIN + j));
  sr_range : forall k, is_Some (m !! k) -> MIN <= k < MIN + SIZE;
  sr_store : forall k, MIN <= k < MIN + SIZE -> store w !! k = entry k <$> m !! k;
  sr_keys : forall k t raw, m !! k = Some (t, raw) -> exportable t = true /\ length raw = 16%nat
}.

Lemma first_free_spec m :
  match first_free m with
  | Some k => exists j, k = MIN + j /\ 0 <= j < SIZE /\ m !! (MIN + j) = None /\
      forall i, 0 <= i < j -> is_Some (m !! (MIN + i))
  | None => forall j, 0 <= j < SIZE -> is_Some (m !! (MIN + j))
  end.
Proof.
  unfold first_free, ids.
  assert (forall n i, match List.find (fun k => bool_decide (m !! k = None))
      (map (fun i => MIN + i) (seqZ i (Z.of_nat n))) with
    | Some k => exists j, k = MIN + j /\ i <= j < i + Z.of_nat n /\ m !! (MIN + j) = None /\
        forall i', i <= i' < j -> is_Some (m !! (MIN + i'))
    | None => forall j, i <= j < i + Z.of_nat n -> is_Some (m !! (MIN + j))
    end) as Hg.
  { induction n as [|n IH]; intros i; [simpl; lia|].
    rewrite seqZ_cons by lia. cbn [map List.find]. case_bool_decide as E.
    - exists i. split_and!; [done|lia|lia|done|lia].
    - assert (is_Some (m !! (MIN + i))) as Hi by by apply not_eq_None_Some.
      replace (Z.pred (Z.of_nat (Datatypes.S n))) with (Z.of_nat n) by lia.
      specialize (IH (Z.succ i)). destruct (List.find _ _) as [k|].
      + destruct IH as (j & -> & Hj & Hn & Hb). exists j. split_and!; [done|lia|lia|done|].
        intros i' Hi'. destruct (decide (i' = i)) as [->|]; [done|]. apply Hb. lia.
      + intros j Hj. destruct (decide (j = i)) as [->|]; [done|]. apply IH. lia. }
  specialize (Hg (Z.to_nat SIZE) 0). rewrite Z2Nat.id in Hg by done. rewrite Z.add_0_l in Hg. done.
Qed.

Lemma import_refines (w : W) m t raw :
  slots_rep w m -> exportable t = true -> length raw = 16%nat ->
  exists w', do_key (KImport t raw) w = ((spec_key (KImport t raw) m).1, w') /\
    slots_rep w' (spec_key (KImport t raw) m).2.
Proof.
  intros [Hr Hb Hrg Hst Hk] Ht Hl.
  unfold do_key, spec_key, bt_mesh_key_import, keyid_alloc. rewrite Ht. cbn [andb].
  pose proof (first_free_spec m) as Hff.
  destruct (alloc_loop_spec (Z.to_nat SIZE) 0 w) as [[E Ha]|(j & Hj & Hn & Hlow & E)].
  - exists w. assert (first_free m = None) as ->.
    { destruct (first_free m) as [k|]; [|done]. destruct Hff as (j & -> & Hj & Hn & _).
      specialize (Ha j ltac:(lia)). apply Hb in Ha. rewrite Hn in Ha. by destruct Ha. }
    unfold mbind at 1 2, M_bind at 1 2. rewrite E. done.
  - assert (first_free m = Some (MIN + j)) as ->.
    { rewrite Hb in Hn. destruct (first_free m) as [k|].
      - destruct Hff as (j' & -> & Hj' & Hn' & Hb'). do 2 f_equal.
        destruct (Z.lt_trichotomy j j') as [?|[?|?]]; [|done|].
        + destruct Hn. apply Hb'. lia.
        + assert (is_Some (m !! (MIN + j'))) as Hx by (apply Hb, Hlow; lia).
          rewrite Hn' in Hx. by destruct Hx.
      - destruct Hn. apply Hff. lia. }
    destruct (import_persistent_spec t raw (MIN + j) (set_pst_keys ({[j]} ∪ pst_keys w) w))
      as (s' & Ei & Hr' & Hs'); [lia|done|done|].
    eexists. split.
    + unfold mbind at 1 2, M_bind at 1 2. rewrite E.
      rewrite (proj2 (Z.eqb_neq _ _)) by (unfold PSA_KEY_ID_NULL; lia).
      rewrite Ei. done.
    + constructor; simpl; [done| | | |].
      * intros i. rewrite elem_of_union, elem_of_singleton, Hb.
        destruct (decide (i = j)) as [->|Hij]; [rewrite lookup_insert_eq; naive_solver|].
        rewrite lookup_insert_ne by lia. naive_solver.
      * intros k. destruct (decide (k = MIN + j)) as [->|]; [lia|].
        rewrite lookup_insert_ne by done. apply Hrg.
      * intros k Hkr. unfold store in *. simpl. rewrite Hs'. unfold store. simpl.
        destruct (decide (k = MIN + j)) as [->|]; [by rewrite !lookup_insert_eq|].
        rewrite !lookup_insert_ne by done. by apply Hst.
      * intros k t' raw'. destruct (decide (k = MIN + j)) as [->|].
        -- rewrite lookup_insert_eq. by intros [= <- <-].
        -- rewrite lookup_insert_ne by done. apply Hk.
Qed.

(** A live key is in the key store. *)
Lemma live_key (w : W) m k :
  slots_rep w m -> is_Some (m !! k) ->
  exists t raw, m !! k = Some (t, raw) /\ exportable t = true /\ length raw = 16%nat /\
    MIN <= k < MIN + SIZE /\ in_range MIN SIZE k = true /\
    store w !! k = Some (attributes_of t PSA_KEY_LIFETIME_PERSISTENT k, raw).
Proof.
  intros [Hr Hb Hrg Hst Hk] [[t raw] Hm]. exists t, raw.
  assert (MIN <= k < MIN + SIZE) as Hi by (apply Hrg; eauto).
  destruct (Hk _ _ _ Hm). split_and!; try done; try lia.
  - unfold in_range. apply andb_true_iff. rewrite !Z.leb_le. lia.
  - rewrite Hst by done. by rewrite Hm.
Qed.

Lemma slots_rep_frame (w : W) m s' :
  slots_rep w m -> psa_keys s' = store w -> psa_ready s' -> slots_rep (set_psa s' w) m.
Proof.
  intros [Hr Hb Hrg Hst Hk] Hs Hr'. constructor; try done.
  intros k Hkr. rewrite <-Hst by done. unfold store in *. simpl. by rewrite Hs.
Qed.

Lemma export_refines (w : W) m k t raw :
  slots_rep w m -> m !! k = Some (t, raw) ->
  exists w', bt_mesh_key_export k w = (Ok raw, w') /\ slots_rep w' m.
Proof.
  intros Hrep Hm. destruct (live_key w m k Hrep) as (t' & raw' & Hm' & Ht & Hl & Hk & Hin & Hs);
    [eauto|]. rewrite Hm in Hm'. simplify_eq.
  destruct (call_spec (psa_export_key k 16) w (eq raw')) as (st & v & s' & E & Hks & Hr & Hc).
  { eapply psa_export_spec; [done| |lia]. destruct t'; try done; simpl; set_solver. }
  pose proof (sr_ready _ _ Hrep) as Hready. destruct Hc as [[Hst <-]|[_ Hn]]; [|done].
  exists (set_psa s' w). split; [|apply slots_rep_frame; auto].
  unfold bt_mesh_key_export. step E. rewrite Hst, Hl. done.
Qed.

Lemma destroy_refines (w : W) m k :
  slots_rep w m -> is_Some (m !! k) ->
  exists w', bt_mesh_key_destroy true MIN SIZE k w = (Ok (), w') /\ slots_rep w' (delete k m).
Proof.
  intros Hrep Hm. destruct (live_key w m k Hrep Hm) as (t & raw & Hm' & Ht & Hl & Hk & Hin & Hs).
  destruct Hrep as [Hr Hb Hrg Hst Hkeys].
  destruct (psa_destroy_key k (psa w)) as [st s'] eqn:Hd.
  assert (k <> PSA_KEY_ID_NULL) as Hne by (unfold PSA_KEY_ID_NULL; lia).
  assert (st = PSA_SUCCESS) as ->.
  { change st with (st, s').1. rewrite <-Hd. apply psa_destroy_status; [done|done|].
    change (is_Some (store w !! k)). rewrite Hs. eauto. }
  destruct (psa_destroy_spec _ _ _ _ Hne Hd) as [Hr' [Hk'|(? & _)]]; [|done].
  eexists. split.
  { unfold bt_mesh_key_destroy. step (call_eq _ w _ _ Hd). cbn [failed PSA_SUCCESS Z.eqb negb].
    unfold keyid_free. rewrite Hin. reflexivity. }
  constructor; simpl.
  - by apply Hr'.
  - intros j. rewrite elem_of_difference, elem_of_singleton, Hb.
    destruct (decide (k = MIN + j)) as [->|Hj].
    + rewrite lookup_delete_eq. rewrite Z.add_simpl_l. split; [naive_solver|by intros []].
    + rewrite lookup_delete_ne by done. split; [naive_solver|]. intros ?. split; [done|lia].
  - intros k'. destruct (decide (k = k')) as [->|]; [rewrite lookup_delete_eq; by intros []|].
    rewrite lookup_delete_ne by done. apply Hrg.
  - intros k' Hk''. unfold store in *. simpl. rewrite Hk'.
    destruct (decide (k = k')) as [->|]; [by rewrite !lookup_delete_eq|].
    rewrite !lookup_delete_ne by done. by apply Hst.
  - intros k' t' raw'. destruct (decide (k = k')) as [->|]; [by rewrite lookup_delete_eq|].
    rewrite lookup_delete_ne by done. apply Hkeys.
Qed.

Lemma assign_refines (w : W) m k :
  slots_rep w m -> is_Some (m !! k) ->
  exists w', bt_mesh_key_assign true MIN SIZE k w = (Ok k, w') /\ slots_rep w' m.
Proof.
  intros Hrep Hm. destruct (live_key w m k Hrep Hm) as (t & raw & Hm' & Ht & Hl & Hk & Hin & Hs).
  destruct Hrep as [Hr Hb Hrg Hst Hkeys].
  unfold bt_mesh_key_assign, keyid_assign. rewrite Hin.
  eexists. split; [reflexivity|]. constructor; try done.
  intros j. simpl. rewrite elem_of_union, elem_of_singleton, Hb.
  split; [|tauto]. intros [->|?]; [|done]. replace (MIN + (k - MIN)) with k by lia. done.
Qed.

Lemma do_key_refines op (w : W) m :
  slots_rep w m -> key_op_ok m op ->
  exists w', do_key op w = ((spec_key op m).1, w') /\ slots_rep w' (spec_key op m).2.
Proof.
  intros Hrep Hok. destruct op as [t raw|k|raw k|k|k]; simpl in Hok.
  - destruct Hok. by apply import_refines.
  - destruct Hok as [[t raw] Hm]. destruct (export_refines w m k t raw Hrep Hm) as (w' & E & Hr).
    exists w'. split; [|done]. simpl. rewrite Hm. by step E.
  - destruct Hok as [[t raw'] Hm]. destruct (export_refines w m k t raw' Hrep Hm) as (w' & E & Hr).
    exists w'. split; [|done]. simpl. rewrite Hm. unfold bt_mesh_key_compare.
    unfold mbind, M_bind, attempt. by rewrite E.
  - destruct (assign_refines w m k Hrep Hok) as (w' & E & Hr). exists w'. split; [|done].
    simpl. by step E.
  - destruct (destroy_refines w m k Hrep Hok) as (w' & E & Hr). exists w'. split; [|done].
    simpl. by step E.
Qed.

(** ** Runs *)

Fixpoint run_keys (ops : list key_op) (w : W) : list (outcome key_ans) * W :=
  match ops with
  | [] => ([], w)
  | op :: ops => let '(r, w) := do_key op w in
                 let '(rs, w) := run_keys ops w in (r :: rs, w)
  end.

Fixpoint spec_keys (ops : list key_op) (m : slots) : list (outcome key_ans) * slots :=
  match ops with
  | [] => ([], m)
  | op :: ops => let '(r, m) := spec_key op m in
                 let '(rs, m) := spec_keys ops m in (r :: rs, m)
  end.

(** Every call of the sequence has proper arguments where it is made. *)
Fixpoint keys_ok (ops : list key_op) (m : slots) : Prop :=
  match ops with
  | [] => True
  | op :: ops => key_op_ok m op /\ keys_ok ops (spec_key op m).2
  end.

(** C20: With settings enabled, the persistent keys behave as a map from the
    identifiers of the range to raw keys.  For every sequence of imports,
    exports, comparisons, assignments and destructions: an import takes the
    first identifier without a key and -ENOMEM means that all have one, exports
    and comparisons see the key last imported, and the bitmap, the PSA store
    and the map stay in step. *)
Theorem bt_mesh_key_slots_refine ops (w : W) m :
  slots_rep w m -> keys_ok ops m ->
  exists w', run_keys ops w = ((spec_keys ops m).1, w') /\ slots_rep w' (spec_keys ops m).2.
Proof.
  revert w m. induction ops as [|op ops IH]; intros w m Hrep Hok.
  { by exists w. }
  destruct Hok as [Hop Hok]. destruct (do_key_refines op w m Hrep Hop) as (w1 & E & Hrep1).
  simpl. rewrite E. destruct (spec_key op m) as [r m1] eqn:Em. simpl in *.
  destruct (IH w1 m1 Hrep1 Hok) as (w' & E' & Hrep'). exists w'.
  rewrite E'. by destruct (spec_keys ops m1).
Qed.

(** After a restart the bitmap is empty while the PSA store still holds the
    keys.  Importing a key under an identifier the store has taken destroys the
    stale key and stores the new one: with any free bit, the import succeeds,
    and the key that is exported is the one imported. *)
Theorem bt_mesh_key_import_recovers t raw (w : W) j :
  exportable t = true -> length raw = 16%nat -> ready w -> 0 <= j < SIZE -> j ∉ pst_keys w ->
  exists k w1 w2, bt_mesh_key_import true MIN SIZE t raw w = (Ok k, w1) /\
    MIN <= k <= MIN + j /\
    store w1 = <[k := (attributes_of t PSA_KEY_LIFETIME_PERSISTENT k, raw)]> (store w) /\
    pst_keys w1 = {[k - MIN]} ∪ pst_keys w /\ k - MIN ∉ pst_keys w /\
    bt_mesh_key_export k w1 = (Ok raw, w2) /\ store w2 = store w1.
Proof.
  intros Ht Hl Hr Hj Hn. unfold bt_mesh_key_import, keyid_alloc. rewrite Ht. cbn [andb].
  destruct (alloc_loop_spec (Z.to_nat SIZE) 0 w) as [[_ Ha]|(i & Hi & Hni & Hlow & E)].
  { destruct Hn. apply Ha. lia. }
  assert (i <= j) as Hij.
  { destruct (Z.le_gt_cases i j); [done|]. destruct Hn. apply Hlow. lia. }
  destruct (import_persistent_spec t raw (MIN + i) (set_pst_keys ({[i]} ∪ pst_keys w) w))
    as (s' & Ei & Hr' & Hs'); [lia|done|done|].
  set (w1 := set_psa s' (set_pst_keys ({[i]} ∪ pst_keys w) w)) in *.
  destruct (call_spec (psa_export_key (MIN + i) 16) w1 (eq raw)) as (st & v & s2 & E2 & Hks & _ & Hc).
  { eapply psa_export_spec; [simpl; rewrite Hs'; apply lookup_insert_eq| |lia].
    destruct t; try done; simpl; set_solver. }
  destruct Hc as [[Hst <-]|[_ []]]; [|done].
  exists (MIN + i), w1, (set_psa s2 w1). rewrite Z.add_simpl_l. split_and!; try done; try lia.
  - step E. rewrite (proj2 (Z.eqb_neq _ _)) by (unfold PSA_KEY_ID_NULL; lia). done.
  - unfold bt_mesh_key_export. step E2. by rewrite Hst, Hl.
Qed.

End Persistent.

(** * The backend keeps the promises of the interface

    It is ready while the PSA implementation is and no persistent key of the
    range is in the store without its bit. *)

Section Promises.

Context {S : Type} `{PsaLaws S}.
(** Whether the node has loaded the keys that survived the last restart. *)
Context (LOADED : bool).
Context (SETTINGS : bool) (MIN SIZE : Z) (Hmin : 0 < MIN)
  (Hmax : MIN + SIZE <= PSA_KEY_ID_VENDOR_MIN).

Notation W := (crypto_state S).

(** The identifiers of the stored keys are reserved, once they are loaded. *)
Definition synced (w : W) : Prop :=
  LOADED = true -> SETTINGS = true -> forall j, 0 <= j < SIZE -> is_Some (store w !! (MIN + j)) -> j ∈ pst_keys w.

Definition mesh_ready (w : W) : Prop := ready w /\ synced w.

Lemma synced_same (w w' : W) :
  store w' = store w -> pst_keys w' = pst_keys w -> synced w -> synced w'.
Proof. intros Hs Hp Hw ?????. rewrite Hp. apply Hw; [done|done|done|]. by rewrite <-Hs. Qed.

Lemma runs_computes {A} (m : M W A) w v : runs m w v -> computes mesh_keys mesh_ready m w v.
Proof.
  intros (w' & Hk & Hr & Hm). exists w'. split_and!; [done| |].
  - intros [Hw Hy]. destruct (Hr Hw) as (Hs & Hp & Hr').
    split; [by apply mesh_keys_eq|]. split; [done|by eapply synced_same].
  - destruct Hm as [?|(e & E & He & Hn)]; [by left|right].
    exists e. split_and!; [done|done|]. by intros [].
Qed.

(** A volatile identifier is not in the range. *)
Lemma synced_insert k e (w w' : W) :
  PSA_KEY_ID_VENDOR_MIN <= k -> store w' = <[k := e]> (store w) -> pst_keys w' = pst_keys w ->
  synced w -> synced w'.
Proof.
  intros Hk Hs Hp Hw Hld Hset j Hj. rewrite Hs, Hp, lookup_insert_ne by lia. by apply Hw.
Qed.

Lemma import_volatile_promise (w : W) t raw :
  length raw = 16%nat -> exportable t && SETTINGS = false ->
  exists w', (mesh_ready w -> mesh_ready w') /\
    ((exists k, bt_mesh_key_import SETTINGS MIN SIZE t raw w = (Ok k, w') /\
        mesh_keys w !! k = None /\ mesh_keys w' = <[k := (key_kind t, raw)]> (mesh_keys w)) \/
     (exists e, bt_mesh_key_import SETTINGS MIN SIZE t raw w = (Err e, w') /\ e < 0 /\
        ~ mesh_ready w /\ mesh_keys w' = mesh_keys w)).
Proof.
  intros Hl Ht. destruct (import_spec SETTINGS MIN SIZE w t raw Hl Ht) as (w' & Hr & Hp &
    [(k & a & E & Hk & Hv & Hs & Hm)|(e & E & He & Hn & Hs)]); exists w'; split.
  - intros [Hw Hy]. split; [by apply Hr|by eapply synced_insert].
  - left. exists k. split_and!; [done|by apply mesh_keys_None|done].
  - intros [Hw Hy]. done.
  - right. exists e. split_and!; [done|done|by intros []|by apply mesh_keys_eq].
Qed.

Lemma import_exportable_promise (Hld : LOADED = true) (w : W) t raw :
  length raw = 16%nat -> exportable t = true -> mesh_ready w ->
  exists w', mesh_ready w' /\
    ((exists k, bt_mesh_key_import SETTINGS MIN SIZE t raw w = (Ok k, w') /\
        mesh_keys w !! k = None /\ mesh_keys w' = <[k := (key_kind t, raw)]> (mesh_keys w)) \/
     (exists e, bt_mesh_key_import SETTINGS MIN SIZE t raw w = (Err e, w') /\ e < 0 /\
        mesh_keys w' = mesh_keys w)).
Proof.
  intros Hl Ht [Hw Hy]. destruct (decide (SETTINGS = true)) as [Hset|Hset].
  2: { apply not_true_is_false in Hset.
    destruct (import_volatile_promise w t raw Hl) as (w' & Hr & Hc); [by rewrite Hset, andb_false_r|].
    exists w'. split; [by apply Hr|]. destruct Hc as [?|(e & ? & ? & [] & _)]; [by left|done]. }
  unfold bt_mesh_key_import, keyid_alloc. rewrite Ht. replace SETTINGS with true. cbn [andb].
  destruct (alloc_loop_spec MIN (Z.to_nat SIZE) 0 w) as [[E _]|(j & Hj & Hn & _ & E)].
  { exists w. split; [done|]. right. exists (- ENOMEM). split_and!; [|done|done].
    erewrite bind_ok by exact E. done. }
  destruct (import_persistent_spec MIN SIZE t raw (MIN + j) (set_pst_keys ({[j]} ∪ pst_keys w) w))
    as (s' & Ei & Hr' & Hs'); [lia|done|done|].
  assert (store w !! (MIN + j) = None) as Hnone.
  { destruct (store w !! (MIN + j)) eqn:Es; [|done]. destruct Hn. apply Hy; [done|done|lia|]. by rewrite Es. }
  eexists. split; [split|left; exists (MIN + j); split_and!].
  3: { erewrite bind_ok by exact E. rewrite (proj2 (Z.eqb_neq _ _)) by (unfold PSA_KEY_ID_NULL; lia).
       exact Ei. }
  - exact Hr'.
  - intros _ _ i Hi. unfold store. simpl. rewrite Hs'. intros Hx. apply elem_of_union.
    destruct (decide (i = j)) as [->|]; [left; by apply elem_of_singleton|right].
    rewrite lookup_insert_ne in Hx by lia. by apply Hy.
  - by apply mesh_keys_None.
  - by eapply mesh_keys_insert.
Qed.

Lemma export_promise (w : W) k t raw :
  mesh_keys w !! k = Some (t, raw) -> exportable t = true -> length raw = 16%nat ->
  computes mesh_keys mesh_ready (bt_mesh_key_export k) w raw.
Proof.
  intros (a & Hk & Hu & Ha)%mesh_keys_inv Ht Hl. apply runs_computes.
  destruct (call_spec (psa_export_key k 16) w (eq raw)) as (st & v & s' & E & Hks & Hr & Hc).
  { eapply psa_export_spec; [done| |lia]. rewrite Hu. destruct t; try done; simpl; set_solver. }
  exists (set_psa s' w). split_and!; [by apply mesh_keys_same|intros Hw; split_and!; [done|done|by apply Hr]|].
  unfold bt_mesh_key_export. step E. destruct Hc as [[Hst <-]|[Hst Hn]]; rewrite Hst.
  - rewrite Hl. by left.
  - right. by exists (- EIO).
Qed.

Lemma export_null_promise (w : W) : mesh_ready w ->
  exists e w', bt_mesh_key_export 0 w = (Err e, w') /\ e < 0 /\ mesh_keys w' = mesh_keys w /\ mesh_ready w'.
Proof.
  intros [Hw Hy]. destruct (psa_export_key 0 16 (psa w)) as [[st v] s'] eqn:E.
  destruct (psa_export_null _ _ _ _ _ E) as (Hst & Hs & Hr).
  exists (- EIO), (set_psa s' w). unfold bt_mesh_key_export, mbind, M_bind. rewrite (call_eq _ w _ _ E).
  unfold failed. rewrite (proj2 (Z.eqb_neq _ _) Hst). split_and!; [done|done|by apply mesh_keys_eq|].
  split; [by apply Hr|by eapply (synced_same w)].
Qed.

Lemma assign_promise (w : W) k :
  mesh_ready w ->
  exists w', bt_mesh_key_assign SETTINGS MIN SIZE k w = (Ok k, w') /\
    mesh_keys w' = mesh_keys w /\ mesh_ready w'.
Proof.
  intros [Hw Hy]. unfold bt_mesh_key_assign, keyid_assign.
  destruct SETTINGS eqn:Hset; [|by exists w]. destruct (in_range MIN SIZE k) eqn:Hin.
  - eexists. split; [reflexivity|]. split; [done|]. split; [done|].
    intros Hld _ j Hj Hs. simpl. apply elem_of_union_r. by apply Hy.
  - by exists w.
Qed.

Lemma destroy_promise (w : W) k :
  mesh_ready w -> is_Some (mesh_keys w !! k) \/ k = 0 ->
  exists r w', attempt (bt_mesh_key_destroy SETTINGS MIN SIZE k) w = (Ok r, w') /\ mesh_ready w' /\
    mesh_keys w' = (if k =? 0 then mesh_keys w else delete k (mesh_keys w)).
Proof.
  intros [Hw Hy] Hk. unfold bt_mesh_key_destroy, attempt.
  destruct (psa_destroy_key k (psa w)) as [st s'] eqn:Hd.
  unfold mbind, M_bind. rewrite (call_eq _ w _ _ Hd). unfold keyid_free.
  destruct (Z.eqb_spec k 0) as [->|Hne].
  - destruct (psa_destroy_null _ _ _ Hd) as [Hs Hr].
    assert (in_range MIN SIZE 0 = false) as -> by (unfold in_range; apply andb_false_iff; left; lia).
    assert (mesh_ready (set_psa s' w)) as Hrdy by (split; [by apply Hr|by eapply (synced_same w)]).
    assert (mesh_keys (set_psa s' w) = mesh_keys w) by by apply mesh_keys_eq.
    destruct (failed st), SETTINGS; by eexists _, _.
  - assert (st = PSA_SUCCESS /\ psa_keys s' = delete k (store w) /\ psa_ready s') as (-> & Hs & Hr).
    { destruct Hk as [Hk|?]; [|done].
      assert (is_Some (store w !! k)) as Hin.
      { destruct (mesh_keys w !! k) as [[t raw]|] eqn:E; [|by destruct Hk].
        apply mesh_keys_inv in E as (a & -> & _). eauto. }
      destruct (psa_destroy_spec _ _ _ _ Hne Hd) as [Hr Hc].
      pose proof (psa_destroy_status _ _ Hne Hw Hin) as Hst. rewrite Hd in Hst. simpl in Hst.
      destruct Hc as [?|(? & _)]; [|done]. split_and!; [done|done|by apply Hr]. }
    cbn [failed PSA_SUCCESS Z.eqb negb].
    assert (forall p, synced (set_pst_keys p (set_psa s' w)) -> mesh_ready (set_pst_keys p (set_psa s' w)) /\
      mesh_keys (set_pst_keys p (set_psa s' w)) = delete k (mesh_keys w)) as Hfin.
    { intros p Hp. split; [by split|]. unfold mesh_keys, store. simpl. rewrite Hs. apply omap_delete. }
    assert (synced (set_psa s' w)) as Hsame.
    { intros Hld Hset j Hj. unfold store. simpl. rewrite Hs.
      rewrite lookup_delete_is_Some. intros [_ Hx]. by apply Hy. }
    destruct (Hfin (pst_keys w) Hsame) as [H1 H2].
    destruct SETTINGS eqn:Hset; [|by eexists _, _]. destruct (in_range MIN SIZE k) eqn:Hin; [|by eexists _, _].
    eexists _, _. split; [reflexivity|]. apply Hfin.
    intros Hld _ j Hj. unfold store. simpl. rewrite Hs, lookup_delete_is_Some. intros [Hjk Hx].
    apply elem_of_difference. split; [by apply Hy|]. rewrite elem_of_singleton. lia.
Qed.

Lemma decrypt_bad_promise (w : W) k t raw n c len a mic :
  mesh_keys w !! k = Some (t, raw) -> sealing t = true ->
  length n = 13%nat -> mic = 4 \/ mic = 8 -> zlen c = len + mic ->
  psa_open raw n a c mic = None ->
  exists e w', bt_mesh_ccm_decrypt k n c len a mic w = (Err e, w') /\ e < 0 /\
    mesh_keys w' = mesh_keys w /\ (mesh_ready w -> mesh_ready w').
Proof.
  intros Hk Ht Hn Hm Hc Ho.
  destruct (ccm_decrypt_bad w k t raw n c len a mic Hk Ht Hn Hm Hc Ho)
    as (e & w' & E & He & Hs & Hp & Hr).
  exists e, w'. split_and!; [done|done|by apply mesh_keys_eq|].
  intros [Hw Hy]. split; [by apply Hr|by eapply synced_same].
Qed.

Lemma import_volatile_law (w : W) t raw :
  length raw = 16%nat -> exportable t = false ->
  exists w', (mesh_ready w -> mesh_ready w') /\
    ((exists k, bt_mesh_key_import SETTINGS MIN SIZE t raw w = (Ok k, w') /\
        mesh_keys w !! k = None /\ mesh_keys w' = <[k := (t, raw)]> (mesh_keys w)) \/
     (exists e, bt_mesh_key_import SETTINGS MIN SIZE t raw w = (Err e, w') /\ e < 0 /\
        ~ mesh_ready w /\ mesh_keys w' = mesh_keys w)).
Proof.
  intros Hl Ht. replace (t, raw) with (key_kind t, raw) by by destruct t.
  apply import_volatile_promise; [done|by rewrite Ht].
Qed.

End Promises.

#[export] Instance psa_crypto_laws {S} `{PsaLaws S} (LOADED SETTINGS : bool) (MIN SIZE : Z)
    (Hmin : 0 < MIN) (Hmax : MIN + SIZE <= PSA_KEY_ID_VENDOR_MIN)
  : @MeshCryptoLaws (crypto_state S) (psa_crypto SETTINGS MIN SIZE) := {
  mc_keys := mesh_keys;
  mc_ready := mesh_ready LOADED SETTINGS MIN SIZE;
  mc_aes := psa_aes;
  mc_cmac := psa_mac PSA_ALG_CMAC;
  mc_hmac := psa_mac PSA_ALG_HMAC_SHA_256;
  mc_seal := psa_seal;
  mc_open := psa_open;
  mc_aes_length := fun k x => proj1 (psa_aes_ok k x);
  mc_aes_bytes := fun k x => proj2 (psa_aes_ok k x);
  mc_cmac_length := fun k x => proj2 (psa_mac_ok PSA_ALG_CMAC k x);
  mc_cmac_bytes := fun k x => proj1 (psa_mac_ok PSA_ALG_CMAC k x);
  mc_hmac_length := fun k x => proj2 (psa_mac_ok PSA_ALG_HMAC_SHA_256 k x);
  mc_hmac_bytes := fun k x => proj1 (psa_mac_ok PSA_ALG_HMAC_SHA_256 k x);
  mc_seal_length := psa_seal_length;
  mc_seal_bytes := psa_seal_bytes;
  mc_open_seal := psa_open_seal;
  mc_open_ok := psa_open_ok;
  mc_encrypt_spec := fun w k raw x Hk Hx => runs_computes _ _ _ _ _ _ _ (encrypt_spec w k raw x Hk Hx);
  mc_ccm_encrypt_spec := fun w k t raw n x a mic Hk Ht Hn Hm =>
    runs_computes _ _ _ _ _ _ _ (ccm_encrypt_spec w k t raw n x a mic Hk Ht Hn Hm);
  mc_ccm_decrypt_spec := fun w k t raw n c len a mic x Hk Ht Hn Hm Hc Ho Hx =>
    runs_computes _ _ _ _ _ _ _ (ccm_decrypt_spec w k t raw n c len a mic x Hk Ht Hn Hm Hc Ho Hx);
  mc_ccm_decrypt_bad := decrypt_bad_promise LOADED SETTINGS MIN SIZE;
  mc_cmac_mesh_spec := fun w k raw sg Hk => runs_computes _ _ _ _ _ _ _ (cmac_mesh_spec w k raw sg Hk);
  mc_cmac_raw_spec := fun w raw sg Hl =>
    runs_computes _ _ _ _ _ _ _ (cmac_raw_spec SETTINGS MIN SIZE w raw sg Hl);
  mc_hmac_raw_spec := fun w raw sg Hl => runs_computes _ _ _ _ _ _ _ (hmac_raw_spec w raw sg Hl);
  mc_import_spec := import_volatile_law LOADED SETTINGS MIN SIZE Hmax;
  mc_export_spec := export_promise LOADED SETTINGS MIN SIZE Hmin Hmax;
  mc_export_null := export_null_promise LOADED SETTINGS MIN SIZE;
  mc_assign_spec := fun w k Hw _ => assign_promise LOADED SETTINGS MIN SIZE w k Hw;
  mc_destroy_spec := destroy_promise LOADED SETTINGS MIN SIZE Hmin
}.

(** The node that has loaded its keys. *)
#[export] Instance psa_import_laws {S} `{PsaLaws S} (SETTINGS : bool) (MIN SIZE : Z)
    (Hmin : 0 < MIN) (Hmax : MIN + SIZE <= PSA_KEY_ID_VENDOR_MIN)
  : @MeshImportLaws (crypto_state S) (psa_crypto SETTINGS MIN SIZE)
      (psa_crypto_laws true SETTINGS MIN SIZE Hmin Hmax) := {
  mc_import_exportable_spec := import_exportable_promise true SETTINGS MIN SIZE Hmin Hmax eq_refl
}.

(** Every stored key has been loaded: what was ready before is ready to import. *)
Lemma loaded_ready {S} `{PsaLaws S} (SETTINGS : bool) (MIN SIZE : Z) (w : crypto_state S) :
  mesh_ready false SETTINGS MIN SIZE w ->
  (forall j, 0 <= j < SIZE -> is_Some (store w !! (MIN + j)) -> j ∈ pst_keys w) ->
  mesh_ready true SETTINGS MIN SIZE w.
Proof. intros [Hw _] Hs. split; [done|]. by intros _ _. Qed.

(** * Concrete runs, over the sample PSA implementation *)

Definition no_dh : dh_pair := mk_dh_pair false PSA_KEY_ID_NULL [].
Definition crypto_boot : crypto_state psa_store := mk_crypto_state ∅ ∅ no_dh.
Definition key16 (b : Z) : list Z := replicate 16 b.

(** Three imports into a range of two identifiers, with a destruction. *)
Definition key_script : list key_op :=
  [KImport BT_MESH_KEY_TYPE_NET (key16 1); KImport BT_MESH_KEY_TYPE_APP (key16 2);
   KImport BT_MESH_KEY_TYPE_DEV (key16 3); KDestroy 100;
   KImport BT_MESH_KEY_TYPE_DEV (key16 3); KExport 100; KCompare (key16 2) 101].

Lemma slots_boot : slots_rep 100 2 crypto_boot ∅.
Proof.
  constructor.
  - exact I.
  - intros j. rewrite lookup_empty. simpl. split; [set_solver|by intros []].
  - intros k. rewrite lookup_empty. by intros [].
  - intros k _. by rewrite lookup_empty.
  - intros k t raw. by rewrite lookup_empty.
Qed.

Lemma bt_mesh_key_slots_refine_witness :
  (spec_keys 100 2 key_script ∅).1 =
    [Ok (Num 100); Ok (Num 101); Err (- ENOMEM); Ok Done; Ok (Num 100);
     Ok (Bytes (key16 3)); Ok (Num 0)] /\
  exists w', run_keys 100 2 key_script crypto_boot = ((spec_keys 100 2 key_script ∅).1, w') /\
    slots_rep 100 2 w' (spec_keys 100 2 key_script ∅).2.
Proof.
  split; [vm_compute; reflexivity|].
  apply (bt_mesh_key_slots_refine 100 2).
  - lia.
  - lia.
  - unfold PSA_KEY_ID_VENDOR_MIN. lia.
  - apply slots_boot.
  - vm_compute. repeat split; eauto.
Defined.

(** A store that kept key 100 over a restart. *)
Definition crypto_restart : crypto_state psa_store :=
  mk_crypto_state {[100 := (attributes_of BT_MESH_KEY_TYPE_NET PSA_KEY_LIFETIME_PERSISTENT 100,
                            key16 9)]} ∅ no_dh.

Lemma bt_mesh_key_import_recovers_witness :
  exists k w1 w2, bt_mesh_key_import true 100 2 BT_MESH_KEY_TYPE_NET (key16 5) crypto_restart
      = (Ok k, w1) /\
    100 <= k <= 100 + 0 /\
    store w1 = <[k := (attributes_of BT_MESH_KEY_TYPE_NET PSA_KEY_LIFETIME_PERSISTENT k,
                      key16 5)]> (store crypto_restart) /\
    pst_keys w1 = {[k - 100]} ∪ pst_keys crypto_restart /\ k - 100 ∉ pst_keys crypto_restart /\
    bt_mesh_key_export k w1 = (Ok (key16 5), w2) /\ store w2 = store w1.
Proof.
  apply (bt_mesh_key_import_recovers 100 2).
  - lia.
  - lia.
  - unfold PSA_KEY_ID_VENDOR_MIN. lia.
  - reflexivity.
  - reflexivity.
  - exact I.
  - lia.
  - simpl. set_solver.
Defined.
