(* ===== verification/Crypto.v ===== *)
(** The mesh security toolbox: [bluetooth/mesh/crypto.c] and the inline helpers
    of [crypto.h].

    Key derivation, nonces, sealing and obfuscation of network and transport
    PDUs, beacons, provisioning data and the PB-ADV frame check sequence, over
    the crypto backend of [CryptoIf.v].  Byte arrays are lists; the routines
    that work on a buffer work on the store of [BufSimple.v], and an access
    outside it is [Crash].  An output is only modelled where the function
    succeeds, as the contents of the C output buffers are not determined when
    it fails. *)

From Stdlib Require Import Ascii String.
From S2P Require Import Prelude Byteorder BufSimple MeshDefs CryptoIf.

(** The characters of a C string literal. *)
Definition str (s : string) : list Z := map (fun c => Z.of_N (N_of_ascii c)) (list_ascii_of_string s).

(** [enum bt_mesh_nonce_type] *)
Inductive bt_mesh_nonce_type :=
| BT_MESH_NONCE_NETWORK
| BT_MESH_NONCE_PROXY
| BT_MESH_NONCE_SOLICITATION.

Definition NET_MIC_LEN (pdu : list Z) : Z :=
  if negb (Z.land (pdu !!! 1%nat) 0x80 =? 0) then 8 else 4.
Definition APP_MIC_LEN (aszmic : Z) : Z := if negb (aszmic =? 0) then 8 else 4.

(** * Nonces *)

Definition create_proxy_nonce (pdu : list Z) (iv_index : Z) : list Z :=
  [0x03; 0; pdu !!! 2%nat; pdu !!! 3%nat; pdu !!! 4%nat; pdu !!! 5%nat; pdu !!! 6%nat; 0; 0]
    ++ sys_put_be32 iv_index.

Definition create_proxy_sol_nonce (pdu : list Z) : list Z :=
  [0x04; 0; pdu !!! 2%nat; pdu !!! 3%nat; pdu !!! 4%nat; pdu !!! 5%nat; pdu !!! 6%nat; 0; 0; 0; 0; 0; 0].

Definition create_net_nonce (pdu : list Z) (iv_index : Z) : list Z :=
  [0x00; pdu !!! 1%nat; pdu !!! 2%nat; pdu !!! 3%nat; pdu !!! 4%nat; pdu !!! 5%nat; pdu !!! 6%nat; 0; 0]
    ++ sys_put_be32 iv_index.

(** [struct bt_mesh_app_crypto_ctx]; [ad] is the 16-byte label or NULL. *)
Record bt_mesh_app_crypto_ctx := mk_app_ctx {
  ac_dev_key : bool;
  ac_aszmic : Z;
  ac_src : Z;
  ac_dst : Z;
  ac_seq_num : Z;
  ac_iv_index : Z;
  ac_ad : option (list Z)
}.

Definition create_app_nonce (ctx : bt_mesh_app_crypto_ctx) : list Z :=
  [if ac_dev_key ctx then 0x02 else 0x01]
    ++ sys_put_be32 (u32 (Z.lor (ac_seq_num ctx) (Z.shiftl (ac_aszmic ctx) 31)))
    ++ sys_put_be16 (ac_src ctx) ++ sys_put_be16 (ac_dst ctx)
    ++ sys_put_be32 (ac_iv_index ctx).

(** * The frame check sequence: reversed, 8-bit, poly=0x07 *)

Definition crc_table : list Z :=
  [0x00; 0x91; 0xe3; 0x72; 0x07; 0x96; 0xe4; 0x75; 0x0e; 0x9f; 0xed; 0x7c;
   0x09; 0x98; 0xea; 0x7b; 0x1c; 0x8d; 0xff; 0x6e; 0x1b; 0x8a; 0xf8; 0x69;
   0x12; 0x83; 0xf1; 0x60; 0x15; 0x84; 0xf6; 0x67; 0x38; 0xa9; 0xdb; 0x4a;
   0x3f; 0xae; 0xdc; 0x4d; 0x36; 0xa7; 0xd5; 0x44; 0x31; 0xa0; 0xd2; 0x43;
   0x24; 0xb5; 0xc7; 0x56; 0x23; 0xb2; 0xc0; 0x51; 0x2a; 0xbb; 0xc9; 0x58;
   0x2d; 0xbc; 0xce; 0x5f; 0x70; 0xe1; 0x93; 0x02; 0x77; 0xe6; 0x94; 0x05;
   0x7e; 0xef; 0x9d; 0x0c; 0x79; 0xe8; 0x9a; 0x0b; 0x6c; 0xfd; 0x8f; 0x1e;
   0x6b; 0xfa; 0x88; 0x19; 0x62; 0xf3; 0x81; 0x10; 0x65; 0xf4; 0x86; 0x17;
   0x48; 0xd9; 0xab; 0x3a; 0x4f; 0xde; 0xac; 0x3d; 0x46; 0xd7; 0xa5; 0x34;
   0x41; 0xd0; 0xa2; 0x33; 0x54; 0xc5; 0xb7; 0x26; 0x53; 0xc2; 0xb0; 0x21;
   0x5a; 0xcb; 0xb9; 0x28; 0x5d; 0xcc; 0xbe; 0x2f; 0xe0; 0x71; 0x03; 0x92;
   0xe7; 0x76; 0x04; 0x95; 0xee; 0x7f; 0x0d; 0x9c; 0xe9; 0x78; 0x0a; 0x9b;
   0xfc; 0x6d; 0x1f; 0x8e; 0xfb; 0x6a; 0x18; 0x89; 0xf2; 0x63; 0x11; 0x80;
   0xf5; 0x64; 0x16; 0x87; 0xd8; 0x49; 0x3b; 0xaa; 0xdf; 0x4e; 0x3c; 0xad;
   0xd6; 0x47; 0x35; 0xa4; 0xd1; 0x40; 0x32; 0xa3; 0xc4; 0x55; 0x27; 0xb6;
   0xc3; 0x52; 0x20; 0xb1; 0xca; 0x5b; 0x29; 0xb8; 0xcd; 0x5c; 0x2e; 0xbf;
   0x90; 0x01; 0x73; 0xe2; 0x97; 0x06; 0x74; 0xe5; 0x9e; 0x0f; 0x7d; 0xec;
   0x99; 0x08; 0x7a; 0xeb; 0x8c; 0x1d; 0x6f; 0xfe; 0x8b; 0x1a; 0x68; 0xf9;
   0x82; 0x13; 0x61; 0xf0; 0x85; 0x14; 0x66; 0xf7; 0xa8; 0x39; 0x4b; 0xda;
   0xaf; 0x3e; 0x4c; 0xdd; 0xa6; 0x37; 0x45; 0xd4; 0xa1; 0x30; 0x42; 0xd3;
   0xb4; 0x25; 0x57; 0xc6; 0xb3; 0x22; 0x50; 0xc1; 0xba; 0x2b; 0x59; 0xc8;
   0xbd; 0x2c; 0x5e; 0xcf].

Definition crc_at (i : Z) : Z := crc_table !!! Z.to_nat i.

(** [while (data_len--) fcs = crc_table[fcs ^ *data++];] *)
Definition fcs_loop (fcs : Z) (data : list Z) : Z :=
  fold_left (fun fcs b => crc_at (Z.lxor fcs b)) data fcs.

(** [data_len] is a [uint8_t]. *)
Definition bt_mesh_fcs_calc (data : list Z) (data_len : Z) : Z :=
  u8 (0xff - fcs_loop 0xff (take (Z.to_nat (u8 data_len)) data)).

Definition bt_mesh_fcs_check (buf : bt_buf_simple) (received_fcs : Z) : bool :=
  let fcs := fcs_loop 0xff (slice (b_store buf) (b_data buf) (b_len buf)) in
  crc_at (Z.lxor fcs received_fcs) =? 0xcf.

Section Toolbox.

Context {W : Type} `{MeshCrypto W}.

(** * Salts and key derivation *)

Definition bt_mesh_aes_cmac_one_raw_key (key m : list Z) : M W (list Z) :=
  mc_aes_cmac_raw_key key [m].
Definition bt_mesh_aes_cmac_one_mesh_key (key : bt_mesh_key) (m : list Z) : M W (list Z) :=
  mc_aes_cmac_mesh_key key [m].
Definition bt_mesh_sha256_hmac_one_raw_key (key m : list Z) : M W (list Z) :=
  mc_sha256_hmac_raw_key key [m].

Definition bt_mesh_s1 (m : list Z) : M W (list Z) :=
  bt_mesh_aes_cmac_one_raw_key (replicate 16 0) m.
Definition bt_mesh_s1_str (m : string) : M W (list Z) := bt_mesh_s1 (str m).
Definition bt_mesh_s2 (m : list Z) : M W (list Z) :=
  bt_mesh_sha256_hmac_one_raw_key (replicate 32 0) m.

(** The test is [err < 0] here and [err] elsewhere; the backend's error codes
    are negative. *)
Definition bt_mesh_k1 (ikm salt info : list Z) : M W (list Z) :=
  okm ← bt_mesh_aes_cmac_one_raw_key salt ikm;
  bt_mesh_aes_cmac_one_raw_key okm info.

(** Returns the NID, EncryptionKey and PrivacyKey. *)
Definition bt_mesh_k2 (n p : list Z) : M W (Z * bt_mesh_key * bt_mesh_key) :=
  salt ← bt_mesh_s1_str "smk2";
  t ← bt_mesh_aes_cmac_one_raw_key salt n;
  out ← mc_aes_cmac_raw_key t [[]; p; [1]];
  let net_id := Z.land (out !!! 15%nat) 0x7f in
  out ← mc_aes_cmac_raw_key t [out; p; [2]];
  enc_key ← mc_key_import BT_MESH_KEY_TYPE_CCM out;
  out ← mc_aes_cmac_raw_key t [out; p; [3]];
  priv_key ← mc_key_import BT_MESH_KEY_TYPE_ECB out;
  mret (net_id, enc_key, priv_key).

Definition bt_mesh_k3 (n : list Z) : M W (list Z) :=
  tmp ← bt_mesh_s1_str "smk3";
  t ← bt_mesh_aes_cmac_one_raw_key tmp n;
  tmp ← bt_mesh_aes_cmac_one_raw_key t (str "id64" ++ [1]);
  mret (drop 8 tmp).

Definition bt_mesh_k4 (n : list Z) : M W Z :=
  tmp ← bt_mesh_s1_str "smk4";
  t ← bt_mesh_aes_cmac_one_raw_key tmp n;
  tmp ← bt_mesh_aes_cmac_one_raw_key t (str "id6" ++ [1]);
  mret (Z.land (tmp !!! 15%nat) (BIT_MASK 6)).
Definition bt_mesh_app_id := bt_mesh_k4.

Definition bt_mesh_k5 (n salt p : list Z) : M W (list Z) :=
  t ← bt_mesh_sha256_hmac_one_raw_key salt n;
  bt_mesh_sha256_hmac_one_raw_key t p.

Definition bt_mesh_id128 (n : list Z) (s : string) (type : bt_mesh_key_type) : M W bt_mesh_key :=
  salt ← bt_mesh_s1_str s;
  k1_out ← bt_mesh_k1 n salt (str "id128" ++ [1]);
  mc_key_import type k1_out.

Definition bt_mesh_identity_key (net_key : list Z) := bt_mesh_id128 net_key "nkik" BT_MESH_KEY_TYPE_ECB.
Definition bt_mesh_beacon_key (net_key : list Z) := bt_mesh_id128 net_key "nkbk" BT_MESH_KEY_TYPE_CMAC.
Definition bt_mesh_private_beacon_key (net_key : list Z) :=
  bt_mesh_id128 net_key "nkpk" BT_MESH_KEY_TYPE_ECB.

Definition bt_mesh_prov_nonce (dhkey prov_salt : list Z) : M W (list Z) :=
  tmp ← bt_mesh_k1 dhkey prov_salt (str "prsn");
  mret (drop 3 tmp).

Definition bt_mesh_session_key (dhkey prov_salt : list Z) : M W bt_mesh_key :=
  raw_key ← bt_mesh_k1 dhkey prov_salt (str "prsk");
  mc_key_import BT_MESH_KEY_TYPE_CCM raw_key.

Definition bt_mesh_dev_key (dhkey prov_salt : list Z) : M W (list Z) :=
  bt_mesh_k1 dhkey prov_salt (str "prdk").

Definition bt_mesh_virtual_addr (virtual_label : list Z) : M W Z :=
  salt ← bt_mesh_s1_str "vtad";
  tmp ← bt_mesh_aes_cmac_one_raw_key salt virtual_label;
  mret (Z.lor (Z.land (sys_get_be16 (drop 14 tmp)) 0x3fff) 0x8000).

(** * Network PDUs *)

(** [for (i = 0; i < n; i++) a[i] ^= b[i];] *)
Definition xor_first (n : nat) (a b : list Z) : list Z :=
  zip_with Z.lxor (take n a) b ++ drop n a.

(** [pdu] is an offset into the object [m]. *)
Definition bt_mesh_net_obfuscate (m : list Z) (pdu iv_index : Z) (privacy_key : bt_mesh_key)
  : M W (list Z) :=
  rand ← checked (mem_read m (pdu + 7) 7);
  let priv_rand := replicate 5 0 ++ sys_put_be32 iv_index ++ rand in
  tmp ← mc_encrypt privacy_key priv_rand;
  hdr ← checked (mem_read m (pdu + 1) 6);
  checked (mem_write m (pdu + 1) (xor_first 6 hdr tmp)).

(** [IS_ENABLED] of the options the two directions test. *)
Context (PROXY OD_PRIV_PROXY_SRV SOLICITATION : bool).

Definition is_proxy (type : bt_mesh_nonce_type) : bool :=
  match type with BT_MESH_NONCE_PROXY => true | _ => false end.
Definition is_solicitation (type : bt_mesh_nonce_type) : bool :=
  match type with BT_MESH_NONCE_SOLICITATION => true | _ => false end.

(** The nonce for a PDU; [sol] is the option the direction tests. *)
Definition nonce_for (sol : bool) (type : bt_mesh_nonce_type) (pdu : list Z) (iv_index : Z)
  : list Z :=
  if PROXY && is_proxy type then create_proxy_nonce pdu iv_index
  else if sol && is_solicitation type then create_proxy_sol_nonce pdu
  else create_net_nonce pdu iv_index.

Definition bt_mesh_net_encrypt (key : bt_mesh_key) (buf : bt_buf_simple) (iv_index : Z)
    (type : bt_mesh_nonce_type) : M W bt_buf_simple :=
  pdu ← checked (mem_read (b_store buf) (b_data buf) 7);
  let mic_len := NET_MIC_LEN pdu in
  let nonce := nonce_for OD_PRIV_PROXY_SRV type pdu iv_index in
  plain ← checked (mem_read (b_store buf) (b_data buf + 7) (b_len buf - 7));
  enc ← mc_ccm_encrypt key nonce plain [] mic_len;
  buf ← checked (store_at buf (b_data buf + 7) enc);
  '(buf, _) ← checked (bt_buf_simple_add buf mic_len);
  mret buf.

(** Returns [err] with the buffer, whose length is cut before the tag is
    checked. *)
Definition bt_mesh_net_decrypt (key : bt_mesh_key) (buf : bt_buf_simple) (iv_index : Z)
    (type : bt_mesh_nonce_type) : M W (Z * bt_buf_simple) :=
  pdu ← checked (mem_read (b_store buf) (b_data buf) 7);
  let mic_len := NET_MIC_LEN pdu in
  let nonce := nonce_for SOLICITATION type pdu iv_index in
  let buf := set_len (u16 (b_len buf - mic_len)) buf in
  let len := b_len buf - 7 in
  enc ← checked (mem_read (b_store buf) (b_data buf + 7) (len + mic_len));
  r ← attempt (mc_ccm_decrypt key nonce enc len [] mic_len);
  match r with
  | inr err => mret (err, buf)
  | inl plain => buf ← checked (store_at buf (b_data buf + 7) plain); mret (0, buf)
  end.

(** * Transport PDUs *)

Definition aad (ctx : bt_mesh_app_crypto_ctx) : list Z :=
  match ac_ad ctx with Some ad => take 16 ad | None => [] end.

Definition bt_mesh_app_encrypt (key : bt_mesh_key) (ctx : bt_mesh_app_crypto_ctx)
    (buf : bt_buf_simple) : M W bt_buf_simple :=
  let nonce := create_app_nonce ctx in
  plain ← checked (mem_read (b_store buf) (b_data buf) (b_len buf));
  enc ← mc_ccm_encrypt key nonce plain (aad ctx) (APP_MIC_LEN (ac_aszmic ctx));
  buf ← checked (store_at buf (b_data buf) enc);
  '(buf, _) ← checked (bt_buf_simple_add buf (APP_MIC_LEN (ac_aszmic ctx)));
  mret buf.

(** The tag lies behind the [buf->len] bytes; [out] is another buffer. *)
Definition bt_mesh_app_decrypt (key : bt_mesh_key) (ctx : bt_mesh_app_crypto_ctx)
    (buf out : bt_buf_simple) : M W bt_buf_simple :=
  let nonce := create_app_nonce ctx in
  let mic_len := APP_MIC_LEN (ac_aszmic ctx) in
  enc ← checked (mem_read (b_store buf) (b_data buf) (b_len buf + mic_len));
  plain ← mc_ccm_decrypt key nonce enc (b_len buf) (aad ctx) mic_len;
  out ← checked (store_at out (b_data out) plain);
  '(out, _) ← checked (bt_buf_simple_add out (b_len buf));
  mret out.

(** * Provisioning *)

Definition BT_MESH_PROV_AUTH_CMAC_AES128_AES_CCM : Z := 0.
Definition BT_MESH_PROV_AUTH_HMAC_SHA256_AES_CCM : Z := 1.

(** [IS_ENABLED(CONFIG_BT_MESH_ECDH_P256_HMAC_SHA256_AES_CCM)] and
    [IS_ENABLED(CONFIG_BT_MESH_ECDH_P256_CMAC_AES128_AES_CCM)]. *)
Context (HMAC_ENABLED CMAC_ENABLED : bool).

Definition use_hmac (algorithm : Z) : bool :=
  (algorithm =? BT_MESH_PROV_AUTH_HMAC_SHA256_AES_CCM) && HMAC_ENABLED.
Definition use_cmac (algorithm : Z) : bool :=
  (algorithm =? BT_MESH_PROV_AUTH_CMAC_AES128_AES_CCM) && CMAC_ENABLED.

Definition bt_mesh_prov_salt (algorithm : Z) (conf_salt prov_rand dev_rand : list Z)
  : M W (list Z) :=
  let size := if negb (algorithm =? 0) then 32%nat else 16%nat in
  mc_aes_cmac_raw_key (replicate 16 0) [take size conf_salt; take size prov_rand; take size dev_rand].

Definition bt_mesh_prov_conf_salt (algorithm : Z) (conf_inputs : list Z) : M W (list Z) :=
  if use_hmac algorithm then bt_mesh_s2 (take 145 conf_inputs)
  else if use_cmac algorithm then bt_mesh_s1 (take 145 conf_inputs)
  else fail (- EINVAL).

Definition bt_mesh_prov_conf_key (algorithm : Z) (k_input conf_salt : list Z) : M W (list Z) :=
  if use_hmac algorithm then bt_mesh_k5 (take 64 k_input) conf_salt (str "prck256")
  else if use_cmac algorithm then bt_mesh_k1 (take 32 k_input) conf_salt (str "prck")
  else fail (- EINVAL).

Definition bt_mesh_prov_conf (algorithm : Z) (conf_key prov_rand auth : list Z) : M W (list Z) :=
  if use_hmac algorithm then bt_mesh_sha256_hmac_one_raw_key conf_key (take 32 prov_rand)
  else if use_cmac algorithm then mc_aes_cmac_raw_key conf_key [take 16 prov_rand; take 16 auth]
  else fail (- EINVAL).

Definition bt_mesh_prov_decrypt (key : bt_mesh_key) (nonce data : list Z) : M W (list Z) :=
  mc_ccm_decrypt key nonce data 25 [] 8.

Definition bt_mesh_prov_encrypt (key : bt_mesh_key) (nonce data : list Z) : M W (list Z) :=
  mc_ccm_encrypt key nonce data [] 8.

(** * Beacons *)

Definition bt_mesh_beacon_auth (beacon_key : bt_mesh_key) (flags : Z) (net_id : list Z)
    (iv_index : Z) : M W (list Z) :=
  let msg := [flags] ++ take 8 net_id ++ sys_put_be32 iv_index in
  tmp ← bt_mesh_aes_cmac_one_mesh_key beacon_key msg;
  mret (take 8 tmp).

Definition private_beacon_obf (pbk : bt_mesh_key) (data random : list Z) : M W (list Z) :=
  let salt := [0x01] ++ random ++ sys_put_be16 0x0001 in
  salt ← mc_encrypt pbk salt;
  mret (zip_with Z.lxor (take 5 data) salt).

Definition private_beacon_auth (pbk : bt_mesh_key) (beacon_data random : list Z)
  : M W (list Z) :=
  let salt := [0x19] ++ random ++ sys_put_be16 0x0005 in
  tmp ← mc_encrypt pbk salt;
  let tmp := xor_first 5 tmp beacon_data in
  tmp ← mc_encrypt pbk tmp;
  let salt := [0x01] ++ random ++ sys_put_be16 0x0000 in
  let auth := take 8 tmp in
  tmp ← mc_encrypt pbk salt;
  mret (zip_with Z.lxor auth tmp).

Definition bt_mesh_beacon_decrypt (pbk : bt_mesh_key) (random data expected_auth : list Z)
  : M W (list Z) :=
  out ← private_beacon_obf pbk data random;
  auth ← private_beacon_auth pbk out random;
  if negb (memcmp auth (take 8 expected_auth) =? 0) then fail (- EBADMSG) else mret out.

(** Returns the obfuscated data and the authentication value. *)
Definition bt_mesh_beacon_encrypt (pbk : bt_mesh_key) (flags iv_index : Z) (random : list Z)
  : M W (list Z * list Z) :=
  let data := [flags] ++ sys_put_be32 iv_index in
  auth ← private_beacon_auth pbk data random;
  data ← private_beacon_obf pbk data random;
  mret (data, auth).

End Toolbox.

(** * Big-endian values *)

Lemma le_val_app a b : le_val (a ++ b) = le_val a + 256 ^ zlen a * le_val b.
Proof.
  induction a as [|x a IH]; [simpl; lia|]. cbn [app le_val length].
  rewrite IH, Nat2Z.inj_succ, Z.pow_succ_r by lia. lia.
Qed.

Lemma dec_be_app a b : dec BE (a ++ b) = dec BE a * 256 ^ zlen b + dec BE b.
Proof. simpl. rewrite rev_app_distr, le_val_app, length_rev. lia. Qed.

Lemma dec_be_one x : dec BE [x] = x.
Proof. simpl. lia. Qed.

(** The value modulo [256^k] is that of the last [k] bytes. *)
Lemma dec_be_mod bs k :
  Forall is_byte bs -> (k <= length bs)%nat ->
  dec BE bs mod 256 ^ Z.of_nat k = dec BE (drop (length bs - k) bs).
Proof.
  intros Hb Hk. rewrite <-(take_drop (length bs - k) bs) at 1. rewrite dec_be_app.
  set (d := drop _ bs). assert (zlen d = Z.of_nat k) as Hd by (unfold d; rewrite length_drop; lia).
  rewrite Hd, Z.add_comm, Z.mod_add by lia.
  apply Z.mod_small. rewrite <-Hd. apply dec_range. by apply Forall_drop.
Qed.

Lemma last_byte (bs : list Z) i :
  length bs = S i -> exists a, bs = a ++ [bs !!! i].
Proof.
  intros Hl. exists (take i bs).
  destruct (lookup_lt_is_Some_2 bs i ltac:(lia)) as [x Hx].
  rewrite (list_lookup_total_correct _ _ _ Hx).
  rewrite <-(take_drop i bs) at 1. f_equal. rewrite (drop_S _ _ _ Hx).
  f_equal. apply drop_ge. lia.
Qed.

Lemma mod_high a lo P Q :
  0 < P -> 0 < Q -> 0 <= lo < P -> (a * P + lo) mod (P * Q) = (a mod Q) * P + lo.
Proof.
  intros. symmetry. pose proof (Z.mod_pos_bound a Q ltac:(lia)).
  apply Z.mod_unique with (a / Q).
  - left. nia.
  - rewrite (Z.div_mod a Q) at 1 by lia. lia.
Qed.

(** The low bits of the last byte are those of the value. *)
Lemma dec_be_low_bits (bs : list Z) i k :
  length bs = S i -> 0 <= k <= 8 ->
  dec BE bs mod 2 ^ k = Z.land (bs !!! i) (BIT_MASK k).
Proof.
  intros Hl Hk. unfold BIT_MASK. rewrite Z.land_ones by lia.
  destruct (last_byte bs i Hl) as [a Ha]. rewrite Ha at 1. rewrite dec_be_app, dec_be_one.
  cbn [length]. replace (256 ^ Z.of_nat 1) with (2 ^ (8 - k) * 2 ^ k)
    by (rewrite <-Z.pow_add_r by lia; by replace (8 - k + k) with 8 by lia).
  rewrite Z.mul_assoc, Z.add_comm. apply Z.mod_add. lia.
Qed.

Lemma be32_length v : length (sys_put_be32 v) = 4%nat.
Proof. done. Qed.

(** * Runs on a ready backend *)

Section Correct.

Context {W : Type} `{MeshCryptoLaws W}.

(** The call succeeds with [v], and leaves the keys and the backend as they
    were. *)
Definition yields {A} (m : M W A) (w : W) (v : A) : Prop :=
  exists w', m w = (Ok v, w') /\ mc_keys w' = mc_keys w /\ mc_ready w'.

Lemma computes_yields {A} (m : M W A) w v :
  computes mc_keys mc_ready m w v -> mc_ready w -> yields m w v.
Proof.
  intros (w' & _ & Hr & [E|(e & _ & _ & Hn)]) Hw; [|done].
  exists w'. destruct (Hr Hw). done.
Qed.

Lemma yields_ret {A} (v : A) w : mc_ready w -> yields (mret v) w v.
Proof. intros. by exists w. Qed.

Lemma yields_bind {A B} (m : M W A) (f : A -> M W B) w a v :
  yields m w a ->
  (forall w', mc_keys w' = mc_keys w -> mc_ready w' -> yields (f a) w' v) ->
  yields (m ≫= f) w v.
Proof.
  intros (w1 & E & Hk & Hr) Hf. destruct (Hf w1 Hk Hr) as (w2 & E2 & Hk2 & Hr2).
  exists w2. rewrite (bind_ok _ _ _ _ _ E). split_and!; [done|congruence|done].
Qed.

Lemma yields_checked {A} (o : option A) a w : o = Some a -> mc_ready w -> yields (checked o) w a.
Proof. intros ->. by exists w. Qed.

Lemma yields_attempt {A} (m : M W A) w a : yields m w a -> yields (attempt m) w (inl a).
Proof. intros (w' & E & ?). exists w'. unfold attempt. by rewrite E. Qed.

Lemma yields_cmac w key m :
  length key = 16%nat -> mc_ready w ->
  yields (bt_mesh_aes_cmac_one_raw_key key m) w (mc_cmac key m).
Proof.
  intros Hl Hw. apply computes_yields; [|done].
  pose proof (mc_cmac_raw_spec w key [m] Hl) as Hc. cbn [concat] in Hc.
  by rewrite app_nil_r in Hc.
Qed.

Lemma yields_cmac_sg w key sg :
  length key = 16%nat -> mc_ready w ->
  yields (mc_aes_cmac_raw_key key sg) w (mc_cmac key (concat sg)).
Proof. intros Hl Hw. apply computes_yields; [|done]. by apply mc_cmac_raw_spec. Qed.

Lemma yields_hmac w key m :
  length key = 32%nat -> mc_ready w ->
  yields (bt_mesh_sha256_hmac_one_raw_key key m) w (mc_hmac key m).
Proof.
  intros Hl Hw. apply computes_yields; [|done].
  pose proof (mc_hmac_raw_spec w key [m] Hl) as Hc. cbn [concat] in Hc.
  by rewrite app_nil_r in Hc.
Qed.

Lemma yields_encrypt w k raw x :
  mc_keys w !! k = Some (BT_MESH_KEY_TYPE_ECB, raw) -> length x = 16%nat -> mc_ready w ->
  yields (mc_encrypt k x) w (mc_aes raw x).
Proof. intros. apply computes_yields; [|done]. by apply mc_encrypt_spec. Qed.

(** Importing a derived key, after which more follows. *)
Lemma import_then {B} t raw (f : bt_mesh_key -> M W B) w (P : B -> W -> Prop) :
  length raw = 16%nat -> exportable t = false -> mc_ready w ->
  (forall k w', mc_keys w !! k = None -> mc_keys w' = <[k := (t, raw)]> (mc_keys w) ->
     mc_ready w' -> exists v w2, f k w' = (Ok v, w2) /\ P v w2) ->
  exists v w2, (mc_key_import t raw ≫= f) w = (Ok v, w2) /\ P v w2.
Proof.
  intros Hl Ht Hw Hf. destruct (mc_import_spec w t raw Hl Ht)
    as (w' & Hr & [(k & E & Hn & Hk)|(e & _ & _ & Hn & _)]); [|done].
  destruct (Hf k w' Hn Hk (Hr Hw)) as (v & w2 & E2 & HP). exists v, w2.
  by rewrite (bind_ok _ _ _ _ _ E).
Qed.

(** [yields_bind] with a computation that need not leave the keys alone. *)
Lemma yields_then {A B} (m : M W A) (f : A -> M W B) w a (P : B -> W -> Prop) :
  yields m w a ->
  (forall w', mc_keys w' = mc_keys w -> mc_ready w' ->
     exists v w2, f a w' = (Ok v, w2) /\ P v w2) ->
  exists v w2, (m ≫= f) w = (Ok v, w2) /\ P v w2.
Proof.
  intros (w1 & E & Hk & Hr) Hf. destruct (Hf w1 Hk Hr) as (v & w2 & E2 & HP).
  exists v, w2. by rewrite (bind_ok _ _ _ _ _ E).
Qed.

(** * Key derivation *)

(** The functions of the Mesh Protocol specification, on values where it takes
    remainders. *)
Definition S1 (m : list Z) : list Z := mc_cmac (replicate 16 0) m.
Definition K1 (n salt p : list Z) : list Z := mc_cmac (mc_cmac salt n) p.
Definition K2_T (n : list Z) : list Z := mc_cmac (S1 (str "smk2")) n.
Definition K2_T1 (n p : list Z) : list Z := mc_cmac (K2_T n) (p ++ [1]).
Definition K2_T2 (n p : list Z) : list Z := mc_cmac (K2_T n) (K2_T1 n p ++ p ++ [2]).
Definition K2_T3 (n p : list Z) : list Z := mc_cmac (K2_T n) (K2_T2 n p ++ p ++ [3]).
Definition K2 (n p : list Z) : Z := dec BE (K2_T1 n p ++ K2_T2 n p ++ K2_T3 n p) mod 2 ^ 263.
Definition K3 (n : list Z) : Z :=
  dec BE (mc_cmac (mc_cmac (S1 (str "smk3")) n) (str "id64" ++ [1])) mod 2 ^ 64.
Definition K4 (n : list Z) : Z :=
  dec BE (mc_cmac (mc_cmac (S1 (str "smk4")) n) (str "id6" ++ [1])) mod 2 ^ 6.
Definition virtual_hash (label : list Z) : Z :=
  dec BE (mc_cmac (S1 (str "vtad")) label) mod 2 ^ 14.

Hint Resolve yields_cmac yields_cmac_sg yields_hmac yields_ret mc_cmac_length mc_hmac_length : yields.
Hint Extern 1 (length (replicate _ _) = _) => reflexivity : yields.

Lemma s1_yields w m : mc_ready w -> yields (bt_mesh_s1 m) w (S1 m).
Proof. intros. unfold bt_mesh_s1. auto with yields. Qed.

Lemma k1_yields w ikm salt info :
  length salt = 16%nat -> mc_ready w -> yields (bt_mesh_k1 ikm salt info) w (K1 ikm salt info).
Proof.
  intros. unfold bt_mesh_k1. eapply yields_bind; [by auto with yields|]. auto with yields.
Qed.

Lemma k5_yields w n salt p :
  length salt = 32%nat -> mc_ready w -> yields (bt_mesh_k5 n salt p) w (mc_hmac (mc_hmac salt n) p).
Proof.
  intros. unfold bt_mesh_k5. eapply yields_bind; [by auto with yields|]. auto with yields.
Qed.

Lemma S1_length m : length (S1 m) = 16%nat.
Proof. apply mc_cmac_length. Qed.

Hint Resolve S1_length s1_yields k1_yields k5_yields : yields.

(** What [bt_mesh_k2] leaves in the key store. *)
Record k2_post (n p : list Z) (w : W) (r : Z * bt_mesh_key * bt_mesh_key) (w' : W) : Prop := {
  k2_value : K2 n p = r.1.1 * 2 ^ 256 + dec BE (K2_T2 n p ++ K2_T3 n p);
  k2_nid : 0 <= r.1.1 < 128;
  k2_enc : mc_keys w' !! r.1.2 = Some (BT_MESH_KEY_TYPE_CCM, K2_T2 n p);
  k2_priv : mc_keys w' !! r.2 = Some (BT_MESH_KEY_TYPE_ECB, K2_T3 n p);
  k2_fresh : mc_keys w !! r.1.2 = None /\ mc_keys w !! r.2 = None /\ r.1.2 <> r.2;
  k2_kept : forall k, is_Some (mc_keys w !! k) -> mc_keys w' !! k = mc_keys w !! k;
  k2_ready : mc_ready w'
}.

(** The NID is what the remainder keeps of the first block. *)
Lemma K2_nid n p :
  K2 n p = Z.land (K2_T1 n p !!! 15%nat) 0x7f * 2 ^ 256 + dec BE (K2_T2 n p ++ K2_T3 n p).
Proof.
  unfold K2. set (lo := K2_T2 n p ++ K2_T3 n p).
  assert (zlen lo = 32) as Hlo by (unfold lo, K2_T2, K2_T3; rewrite length_app, !mc_cmac_length; lia).
  assert (0 <= dec BE lo < 2 ^ 256) as Hr.
  { replace (2 ^ 256) with (256 ^ zlen lo) by by rewrite Hlo. apply dec_range.
    apply Forall_app. split; apply mc_cmac_bytes. }
  rewrite dec_be_app, Hlo. change (256 ^ 32) with (2 ^ 256).
  change 0x7f with (BIT_MASK 7).
  rewrite <-(dec_be_low_bits _ 15 7) by (unfold K2_T1; rewrite ?mc_cmac_length; lia).
  change (2 ^ 263) with (2 ^ 256 * 2 ^ 7). by apply mod_high.
Qed.

Lemma k2_spec w n p :
  mc_ready w -> exists r w', bt_mesh_k2 n p w = (Ok r, w') /\ k2_post n p w r w'.
Proof.
  intros Hw. unfold bt_mesh_k2.
  eapply yields_then; [by apply s1_yields|]. intros w1 Hk1 Hr1.
  eapply yields_then; [by apply yields_cmac; auto with yields|]. intros w2 Hk2 Hr2.
  eapply yields_then; [by apply yields_cmac_sg; auto with yields|]. intros w3 Hk3 Hr3.
  cbn [concat app].
  eapply yields_then; [by apply yields_cmac_sg; auto with yields|]. intros w4 Hk4 Hr4.
  cbn [concat]. rewrite app_nil_r.
  change (mc_cmac (mc_cmac _ n) (_ ++ p ++ [2])) with (K2_T2 n p).
  apply import_then; [apply mc_cmac_length|done|done|]. intros enc w5 Hn5 Hk5 Hr5.
  eapply yields_then; [by apply yields_cmac_sg; auto with yields|]. intros w6 Hk6 Hr6.
  cbn [concat]. rewrite app_nil_r.
  change (mc_cmac (mc_cmac _ n) (_ ++ p ++ [3])) with (K2_T3 n p).
  apply import_then; [apply mc_cmac_length|done|done|]. intros priv w7 Hn7 Hk7 Hr7.
  eexists _, w7. split; [reflexivity|].
  assert (mc_keys w4 = mc_keys w) as Hw4 by congruence.
  rewrite Hw4 in Hk5, Hn5. rewrite Hk6, Hk5 in Hn7. rewrite Hk6, Hk5 in Hk7.
  assert (enc <> priv) as Hne by (intros ->; by rewrite lookup_insert_eq in Hn7).
  rewrite lookup_insert_ne in Hn7 by done.
  constructor; simpl; rewrite ?Hk7; try done.
  - apply K2_nid.
  - change 0x7f with (Z.ones 7). rewrite Z.land_ones by lia. apply Z.mod_pos_bound. lia.
  - rewrite lookup_insert_ne by done. apply lookup_insert_eq.
  - apply lookup_insert_eq.
  - intros k [x Hx]. rewrite !lookup_insert_ne by congruence. done.
Qed.

Lemma k3_yields w n :
  mc_ready w -> exists out, yields (bt_mesh_k3 n) w out /\ dec BE out = K3 n /\ length out = 8%nat.
Proof.
  intros Hw. eexists. split; [|split].
  - unfold bt_mesh_k3. eapply yields_bind; [by apply s1_yields|]. intros w1 _ Hr1.
    eapply yields_bind; [by apply yields_cmac; auto with yields|]. intros w2 _ Hr2.
    eapply yields_bind; [by apply yields_cmac; auto with yields|]. intros w3 _ Hr3.
    by apply yields_ret.
  - unfold K3. change (2 ^ 64) with (256 ^ Z.of_nat 8).
    rewrite dec_be_mod by (rewrite ?mc_cmac_length; (apply mc_cmac_bytes || lia)).
    by rewrite mc_cmac_length.
  - by rewrite length_drop, mc_cmac_length.
Qed.

Lemma k4_yields w n : mc_ready w -> yields (bt_mesh_k4 n) w (K4 n).
Proof.
  intros Hw. unfold bt_mesh_k4. eapply yields_bind; [by apply s1_yields|]. intros w1 _ Hr1.
  eapply yields_bind; [by apply yields_cmac; auto with yields|]. intros w2 _ Hr2.
  eapply yields_bind; [by apply yields_cmac; auto with yields|]. intros w3 _ Hr3.
  unfold K4. rewrite (dec_be_low_bits _ 15 6) by (rewrite ?mc_cmac_length; lia).
  by apply yields_ret.
Qed.

Lemma import_ready w t raw :
  length raw = 16%nat -> exportable t = false -> mc_ready w ->
  exists k w', mc_key_import t raw w = (Ok k, w') /\
    (mc_keys w !! k = None /\ mc_keys w' = <[k := (t, raw)]> (mc_keys w) /\ mc_ready w').
Proof.
  intros Hl Ht Hw. destruct (mc_import_spec w t raw Hl Ht)
    as (w' & Hr & [(k & E & Hn & Hk)|(e & _ & _ & Hn & _)]); [|done].
  exists k, w'. auto.
Qed.

Lemma id128_spec w n s t :
  mc_ready w -> exportable t = false ->
  exists k w', bt_mesh_id128 n s t w = (Ok k, w') /\
    (mc_keys w !! k = None /\
     mc_keys w' = <[k := (t, K1 n (S1 (str s)) (str "id128" ++ [1]))]> (mc_keys w) /\ mc_ready w').
Proof.
  intros Hw Ht. unfold bt_mesh_id128.
  eapply yields_then; [by apply s1_yields|]. intros w1 Hk1 Hr1.
  eapply yields_then; [by apply k1_yields; auto with yields|]. intros w2 Hk2 Hr2.
  rewrite <-Hk1, <-Hk2. apply import_ready; [apply mc_cmac_length|done|done].
Qed.

Lemma virtual_addr_yields w label :
  mc_ready w -> yields (bt_mesh_virtual_addr label) w (0x8000 + virtual_hash label).
Proof.
  intros Hw. unfold bt_mesh_virtual_addr.
  eapply yields_bind; [by apply s1_yields|]. intros w1 _ Hr1.
  eapply yields_bind; [by apply yields_cmac; auto with yields|]. intros w2 _ Hr2.
  set (tmp := mc_cmac (S1 (str "vtad")) label).
  assert (Z.lor (Z.land (sys_get_be16 (drop 14 tmp)) 0x3fff) 0x8000
          = 0x8000 + virtual_hash label) as ->; [|by apply yields_ret].
  assert (length tmp = 16%nat) as Hl by apply mc_cmac_length.
  assert (Forall is_byte tmp) as Hb by apply mc_cmac_bytes.
  rewrite codec_get by (rewrite ?length_drop, ?Hl; auto using Forall_drop).
  replace (drop 14 tmp) with (drop (length tmp - 2) tmp) by by rewrite Hl.
  rewrite <-dec_be_mod by (done || lia).
  change 0x3fff with (Z.ones 14). rewrite Z.land_ones by lia. unfold virtual_hash.
  fold tmp. change (256 ^ Z.of_nat 2) with (2 ^ 14 * 2 ^ 2).
  rewrite <-Znumtheory.Zmod_div_mod by (lia || by exists 4).
  set (h := dec BE tmp mod 2 ^ 14).
  change 0x8000 with (Z.shiftl 2 14) at 1. rewrite Z.lor_comm.
  rewrite lor_shl_add; [lia|lia|]. apply Z.mod_pos_bound. lia.
Qed.

(** The mesh key derivation functions compute what the specification
    defines, remainders included: on a ready backend [bt_mesh_k1] is k1,
    [bt_mesh_k2] splits k2 = (T1 || T2 || T3) mod 2^263 into a 7-bit NID, an
    encryption key and a privacy key and imports the two keys under fresh
    identifiers, [bt_mesh_k3] is k3 mod 2^64, [bt_mesh_k4] is k4 mod 2^6,
    [bt_mesh_id128] imports the derived key, and a virtual address is 0x8000
    plus the hash of its label mod 2^14; no other key is touched. *)
Theorem bt_mesh_key_derivation_spec w n p salt info label s t :
  mc_ready w -> length salt = 16%nat -> exportable t = false ->
  yields (bt_mesh_k1 n salt info) w (K1 n salt info) /\
  (exists r w', bt_mesh_k2 n p w = (Ok r, w') /\ k2_post n p w r w') /\
  (exists out, yields (bt_mesh_k3 n) w out /\ dec BE out = K3 n /\ length out = 8%nat) /\
  yields (bt_mesh_k4 n) w (K4 n) /\
  (exists k w', bt_mesh_id128 n s t w = (Ok k, w') /\
    (mc_keys w !! k = None /\
     mc_keys w' = <[k := (t, K1 n (S1 (str s)) (str "id128" ++ [1]))]> (mc_keys w) /\
     mc_ready w')) /\
  yields (bt_mesh_virtual_addr label) w (0x8000 + virtual_hash label).
Proof.
  intros Hw Hs Ht. split_and!; [by apply k1_yields|by apply k2_spec|by apply k3_yields
    |by apply k4_yields|by apply id128_spec|by apply virtual_addr_yields].
Qed.

(** * Obfuscation *)

Lemma xor_first_ok n a t :
  length a = n -> (n <= length t)%nat ->
  xor_first n a t = zip_with Z.lxor a t /\ length (xor_first n a t) = n.
Proof.
  intros Ha Ht. unfold xor_first. rewrite take_ge, drop_ge, app_nil_r by lia.
  split; [done|]. rewrite length_zip_with. lia.
Qed.

(** What [bt_mesh_net_obfuscate] xors into the header. *)
Definition pecb (raw : list Z) (iv_index : Z) (m : list Z) (pdu : Z) : list Z :=
  mc_aes raw (replicate 5 0 ++ sys_put_be32 iv_index ++ slice m (pdu + 7) 7).

Definition obfuscated (raw : list Z) (iv_index : Z) (m : list Z) (pdu : Z) : list Z :=
  xor_first 6 (slice m (pdu + 1) 6) (pecb raw iv_index m pdu).

Lemma pecb_length raw iv m pdu : length (pecb raw iv m pdu) = 16%nat.
Proof. apply mc_aes_length. Qed.

Lemma obfuscated_zip raw iv m pdu :
  0 <= pdu -> pdu + 14 <= zlen m ->
  obfuscated raw iv m pdu = zip_with Z.lxor (slice m (pdu + 1) 6) (pecb raw iv m pdu) /\
  zlen (obfuscated raw iv m pdu) = 6.
Proof.
  intros Hp Hm. destruct (xor_first_ok 6 (slice m (pdu + 1) 6) (pecb raw iv m pdu)) as [Hx Hl].
  - apply Nat2Z.inj. rewrite slice_length; lia.
  - rewrite pecb_length. lia.
  - unfold obfuscated. split; [done|lia].
Qed.

Lemma obfuscate_yields w k raw m pdu iv :
  mc_keys w !! k = Some (BT_MESH_KEY_TYPE_ECB, raw) -> mc_ready w ->
  0 <= pdu -> pdu + 14 <= zlen m ->
  exists m', mem_write m (pdu + 1) (obfuscated raw iv m pdu) = Some m' /\
    yields (bt_mesh_net_obfuscate m pdu iv k) w m'.
Proof.
  intros Hk Hw Hp Hm.
  destruct (obfuscated_zip raw iv m pdu Hp Hm) as [_ Ho].
  eexists. split; [apply mem_write_some; lia|].
  unfold bt_mesh_net_obfuscate.
  eapply yields_bind; [apply yields_checked; [apply mem_read_some; lia|done]|].
  intros w1 Hk1 Hr1. eapply yields_bind.
  { apply yields_encrypt; [by rewrite Hk1| |done].
    rewrite !length_app, be32_length. cbn [length replicate].
    assert (zlen (slice m (pdu + 7) 7) = 7) by (apply slice_length; lia). lia. }
  intros w2 _ Hr2.
  eapply yields_bind; [apply yields_checked; [apply mem_read_some; lia|done]|].
  intros w3 _ Hr3. apply yields_checked; [|done]. by apply mem_write_some; lia.
Qed.

(** Obfuscation is an involution on the six header bytes of a PDU.  It
    changes nothing else, and applying it again with the same IV index and
    privacy key - which is what a receiver does - restores the PDU. *)
Theorem bt_mesh_net_obfuscate_involutive w k raw m pdu iv :
  mc_keys w !! k = Some (BT_MESH_KEY_TYPE_ECB, raw) -> mc_ready w ->
  0 <= pdu -> pdu + 14 <= zlen m ->
  exists m', yields (bt_mesh_net_obfuscate m pdu iv k) w m' /\
    (forall o n, 0 <= o -> 0 <= n -> o + n <= pdu + 1 -> slice m' o n = slice m o n) /\
    (forall o n, pdu + 7 <= o -> slice m' o n = slice m o n) /\
    yields (bt_mesh_net_obfuscate m' pdu iv k) w m.
Proof.
  intros Hk Hw Hp Hm. destruct (obfuscate_yields w k raw m pdu iv Hk Hw Hp Hm) as (m' & E & Hy).
  exists m'. pose proof (mem_write_length _ _ _ _ E) as Hl.
  destruct (obfuscated_zip raw iv m pdu Hp Hm) as [Hx Ho].
  split_and!; [done| | |].
  - intros. eapply slice_write_before; [..|exact E]; lia.
  - intros. eapply slice_write_after; [|exact E]; lia.
  - destruct (obfuscate_yields w k raw m' pdu iv Hk Hw Hp ltac:(lia)) as (m2 & E2 & Hy2).
    assert (m2 = m) as <-; [|done].
    pose proof (mem_write_back _ _ _ _ E) as Hb. rewrite Ho in Hb.
    assert (obfuscated raw iv m' pdu = slice m (pdu + 1) 6) as Hob; [|congruence].
    assert (slice m' (pdu + 1) 6 = obfuscated raw iv m pdu) as Hs
      by (rewrite <-Ho at 1; by eapply slice_write_same).
    assert (pecb raw iv m' pdu = pecb raw iv m pdu) as Hpe
      by (unfold pecb; do 3 f_equal; eapply slice_write_after; [|exact E]; lia).
    destruct (obfuscated_zip raw iv m' pdu Hp ltac:(lia)) as [-> _]. rewrite Hs, Hpe, Hx.
    apply zip_lxor_twice. rewrite pecb_length.
    assert (zlen (slice m (pdu + 1) 6) = 6) by (apply slice_length; lia). lia.
Qed.

(** * Sealing of network PDUs *)

Section Network.

Context (PROXY OD_PRIV_PROXY_SRV SOLICITATION : bool).

Notation net_encrypt := (bt_mesh_net_encrypt PROXY OD_PRIV_PROXY_SRV).
Notation net_decrypt := (bt_mesh_net_decrypt PROXY SOLICITATION).

Lemma nonce_for_length sol type pdu iv : length (nonce_for PROXY sol type pdu iv) = 13%nat.
Proof. unfold nonce_for. by destruct PROXY, sol, type. Qed.

Lemma net_mic pdu : NET_MIC_LEN pdu = 4 \/ NET_MIC_LEN pdu = 8.
Proof. unfold NET_MIC_LEN. case_if; auto. Qed.

(** A buffer of which [n] more bytes at [off] are overwritten and added. *)
Lemma add_after_store buf off bs n :
  wf buf -> Forall is_byte bs -> 0 <= off -> off + zlen bs <= b_size buf -> 0 <= n ->
  b_data buf + b_len buf + n <= b_size buf ->
  exists m', mem_write (b_store buf) off bs = Some m' /\
    store_at buf off bs = Some (set_store m' buf) /\
    bt_buf_simple_add (set_store m' buf) n
      = Some (mk_buf m' (b_data buf) (b_len buf + n) (b_size buf), b_data buf + b_len buf) /\
    wf (mk_buf m' (b_data buf) (b_len buf + n) (b_size buf)).
Proof.
  intros Hb Hbs Ho Hs Hn Hroom.
  eexists. split; [apply mem_write_some; pose proof (wf_store _ Hb); lia|].
  assert (forall m', mem_write (b_store buf) off bs = Some m' ->
    store_at buf off bs = Some (set_store m' buf)) as Hst
    by (intros m' E; unfold store_at; by rewrite E).
  set (m' := _ ++ _).
  assert (mem_write (b_store buf) off bs = Some m') as E
    by (apply mem_write_some; pose proof (wf_store _ Hb); lia).
  specialize (Hst m' E). split; [done|].
  destruct (store_at_window _ _ _ _ Hb Hbs Hst) as (Hw & _).
  unfold bt_buf_simple_add. rewrite tailroom_wf by done. simpl.
  destruct Hw as [H1 H2 H3 H4 H5 H6]. simpl in *. unfold UINT16_MAX in *.
  rewrite (proj2 (Z.leb_le _ _)) by lia. simpl. rewrite u16_id by lia.
  split; [done|]. split; simpl; unfold UINT16_MAX; try lia. done.
Qed.

(** The ciphertext of the PDU in [buf]. *)
Definition net_sealed (raw : list Z) (buf : bt_buf_simple) (iv : Z) (type : bt_mesh_nonce_type)
  : list Z :=
  let pdu := slice (b_store buf) (b_data buf) 7 in
  mc_seal raw (nonce_for PROXY OD_PRIV_PROXY_SRV type pdu iv) []
    (slice (b_store buf) (b_data buf + 7) (b_len buf - 7)) (NET_MIC_LEN pdu).

Definition net_pdu_mic (buf : bt_buf_simple) : Z :=
  NET_MIC_LEN (slice (b_store buf) (b_data buf) 7).

Lemma net_pdu_mic_range buf : 0 <= net_pdu_mic buf <= 16.
Proof. unfold net_pdu_mic. destruct (net_mic (slice (b_store buf) (b_data buf) 7)); lia. Qed.

Lemma net_sealed_length raw buf iv type :
  wf buf -> 7 <= b_len buf -> zlen (net_sealed raw buf iv type) = b_len buf - 7 + net_pdu_mic buf.
Proof.
  intros [] Hl. unfold net_sealed, net_pdu_mic.
  destruct (net_mic (slice (b_store buf) (b_data buf) 7)) as [E|E]; rewrite E, mc_seal_length,
    slice_length; lia.
Qed.

Lemma net_encrypt_yields w k t raw buf iv type :
  mc_keys w !! k = Some (t, raw) -> sealing t = true -> mc_ready w ->
  wf buf -> 7 <= b_len buf -> b_data buf + b_len buf + net_pdu_mic buf <= b_size buf ->
  exists m', mem_write (b_store buf) (b_data buf + 7) (net_sealed raw buf iv type) = Some m' /\
    let buf' := mk_buf m' (b_data buf) (b_len buf + net_pdu_mic buf) (b_size buf) in
    wf buf' /\ yields (net_encrypt k buf iv type) w buf'.
Proof.
  intros Hk Ht Hw Hb Hl Hroom. pose proof (net_sealed_length raw buf iv type Hb Hl) as Hc.
  pose proof (net_pdu_mic_range buf) as Hm.
  destruct (add_after_store buf (b_data buf + 7) (net_sealed raw buf iv type) (net_pdu_mic buf))
    as (m' & Em & Es & Ea & Hb'); [done| |destruct Hb; lia|lia|lia|lia|].
  { apply mc_seal_bytes, slice_bytes, Hb. }
  exists m'. split; [done|]. split; [done|].
  unfold bt_mesh_net_encrypt. destruct Hb.
  eapply yields_bind; [apply yields_checked; [apply mem_read_some; lia|done]|]. intros w1 Hk1 Hr1.
  eapply yields_bind; [apply yields_checked; [apply mem_read_some; lia|done]|]. intros w2 Hk2 Hr2.
  eapply yields_bind.
  { apply computes_yields; [|done]. eapply mc_ccm_encrypt_spec;
      [by rewrite Hk2, Hk1|done|apply nonce_for_length|apply net_mic]. }
  intros w3 _ Hr3. fold (net_sealed raw buf iv type).
  eapply yields_bind; [by apply yields_checked|]. intros w4 _ Hr4.
  eapply yields_bind; [by apply yields_checked|]. intros w5 _ Hr5. by apply yields_ret.
Qed.

(** What the receiver opens. *)
Definition net_opened (raw : list Z) (buf : bt_buf_simple) (iv : Z) (type : bt_mesh_nonce_type)
  : option (list Z) :=
  let pdu := slice (b_store buf) (b_data buf) 7 in
  mc_open raw (nonce_for PROXY SOLICITATION type pdu iv) []
    (slice (b_store buf) (b_data buf + 7) (b_len buf - 7)) (NET_MIC_LEN pdu).

Lemma net_decrypt_yields w k t raw buf iv type plain :
  mc_keys w !! k = Some (t, raw) -> sealing t = true -> mc_ready w ->
  wf buf -> 7 + net_pdu_mic buf <= b_len buf -> net_opened raw buf iv type = Some plain ->
  zlen plain = b_len buf - 7 - net_pdu_mic buf ->
  exists m', mem_write (b_store buf) (b_data buf + 7) plain = Some m' /\
    yields (net_decrypt k buf iv type) w
      (0, mk_buf m' (b_data buf) (b_len buf - net_pdu_mic buf) (b_size buf)).
Proof.
  intros Hk Ht Hw Hb Hl Ho Hp. destruct Hb. unfold UINT16_MAX in *.
  pose proof (net_pdu_mic_range buf) as Hm.
  eexists. split; [apply mem_write_some; lia|].
  unfold bt_mesh_net_decrypt.
  eapply yields_bind; [apply yields_checked; [apply mem_read_some; lia|done]|]. intros w1 Hk1 Hr1.
  fold (net_pdu_mic buf). rewrite u16_id by lia. simpl.
  eapply yields_bind; [apply yields_checked; [apply mem_read_some; lia|done]|]. intros w2 Hk2 Hr2.
  replace (b_len buf - net_pdu_mic buf - 7 + net_pdu_mic buf) with (b_len buf - 7) by lia.
  eapply yields_bind.
  { apply yields_attempt, computes_yields; [|done].
    eapply (mc_ccm_decrypt_spec w2 k t raw _ _ _ _ _ plain);
      [by rewrite Hk2, Hk1|done|apply nonce_for_length|apply net_mic| |done|lia].
    rewrite slice_length; lia. }
  intros w3 _ Hr3. cbv beta iota.
  eapply yields_bind; [|intros w4 _ Hr4; by apply yields_ret].
  apply yields_checked; [|done]. unfold store_at. simpl. by rewrite mem_write_some by lia.
Qed.

(** C39: A sealed network PDU opens.  [bt_mesh_net_encrypt] encrypts the bytes
    behind the seven of the header in place and appends the tag (4 bytes, or 8
    for a control PDU); [bt_mesh_net_decrypt] with the same key, IV index and
    nonce type gives the PDU back, provided both directions use a solicitation
    nonce or the type is another. *)
Theorem bt_mesh_net_seal_roundtrip w k t raw buf iv type :
  mc_keys w !! k = Some (t, raw) -> sealing t = true -> mc_ready w ->
  wf buf -> 7 <= b_len buf -> b_data buf + b_len buf + net_pdu_mic buf <= b_size buf ->
  (is_solicitation type = true -> OD_PRIV_PROXY_SRV = SOLICITATION) ->
  exists buf' buf'', wf buf' /\
    yields (net_encrypt k buf iv type) w buf' /\
    content buf' = take 7 (content buf) ++ net_sealed raw buf iv type /\
    yields (net_decrypt k buf' iv type) w (0, buf'') /\
    content buf'' = content buf.
Proof.
  intros Hk Ht Hw Hb Hl Hroom Hsol.
  destruct (net_encrypt_yields w k t raw buf iv type) as (m' & Em & Hb' & Hy); try done.
  set (buf' := mk_buf _ _ _ _) in *.
  pose proof (net_sealed_length raw buf iv type Hb Hl) as Hc.
  destruct Hb as [Hd0 Hl0 Hfit Hst Hsz Hby].
  pose proof (net_pdu_mic_range buf) as Hm.
  assert (slice m' (b_data buf) 7 = slice (b_store buf) (b_data buf) 7) as Hh
    by (eapply slice_write_before; [..|exact Em]; lia).
  assert (slice m' (b_data buf + 7) (b_len buf' - 7) = net_sealed raw buf iv type) as Hs.
  { replace (b_len buf' - 7) with (zlen (net_sealed raw buf iv type)) by (simpl; lia).
    by eapply slice_write_same. }
  set (plain := slice (b_store buf) (b_data buf + 7) (b_len buf - 7)).
  assert (zlen plain = b_len buf - 7) as Hpl by (apply slice_length; lia).
  destruct (net_decrypt_yields w k t raw buf' iv type plain) as (m'' & Em2 & Hy2); try done.
  - unfold net_pdu_mic at 1. simpl. rewrite Hh. fold (net_pdu_mic buf). lia.
  - unfold net_opened. simpl b_store. simpl b_data. rewrite Hh, Hs. unfold net_sealed.
    assert (nonce_for PROXY SOLICITATION type (slice (b_store buf) (b_data buf) 7) iv
            = nonce_for PROXY OD_PRIV_PROXY_SRV type (slice (b_store buf) (b_data buf) 7) iv) as ->.
    { unfold nonce_for. destruct type; try by destruct PROXY, SOLICITATION, OD_PRIV_PROXY_SRV.
      by rewrite Hsol. }
    apply mc_open_seal; [exact Hm|by apply slice_bytes].
  - unfold net_pdu_mic. simpl. rewrite Hh. fold (net_pdu_mic buf). lia.
  - eexists buf', _. split_and!; [done|done| |exact Hy2|].
    + unfold content, buf'. simpl. replace (b_len buf + net_pdu_mic buf)
        with (7 + (b_len buf' - 7)) by (simpl; lia).
      rewrite slice_app_split by (simpl; lia). rewrite Hs, Hh. f_equal.
      change 7%nat with (Z.to_nat 7). apply slice_take. lia.
    + unfold content. simpl.
      assert (net_pdu_mic buf' = net_pdu_mic buf) as -> by (unfold net_pdu_mic; simpl; by rewrite Hh).
      replace (b_len buf + net_pdu_mic buf - net_pdu_mic buf) with (7 + (b_len buf - 7)) by lia.
      replace (b_len buf) with (7 + (b_len buf - 7)) at 2 by lia.
      rewrite !slice_app_split by lia. f_equal.
      * rewrite <-Hh. eapply slice_write_before; [..|exact Em2]; simpl; lia.
      * rewrite <-Hpl at 1. by eapply slice_write_same.
Qed.

Lemma net_decrypt_cases w k t raw buf iv type :
  mc_keys w !! k = Some (t, raw) -> sealing t = true -> mc_ready w ->
  wf buf -> 7 + net_pdu_mic buf <= b_len buf ->
  let len := b_len buf - net_pdu_mic buf in
  match net_opened raw buf iv type with
  | Some plain => exists buf', yields (net_decrypt k buf iv type) w (0, buf') /\
      wf buf' /\ b_data buf' = b_data buf /\ b_len buf' = len /\ b_size buf' = b_size buf /\
      content buf' = take 7 (content buf) ++ plain
  | None => exists e w', net_decrypt k buf iv type w = (Ok (e, set_len len buf), w') /\ e < 0 /\
      mc_keys w' = mc_keys w /\ mc_ready w'
  end.
Proof.
  intros Hk Ht Hw Hb Hl len. pose proof (net_pdu_mic_range buf) as Hm0.
  destruct (net_opened raw buf iv type) as [plain|] eqn:Ho.
  - assert (zlen plain = b_len buf - 7 - net_pdu_mic buf /\ Forall is_byte plain) as [Hlen Hpb].
    { destruct Hb. fold (net_pdu_mic buf) in Ho.
      assert (zlen (slice (b_store buf) (b_data buf + 7) (b_len buf - 7)) = b_len buf - 7) as Hs
        by (apply slice_length; lia).
      destruct (mc_open_ok _ _ _ _ _ _ Ho) as [Hz ?]; [fold (net_pdu_mic buf); lia|].
      split; [|done]. rewrite Hz, Hs. done. }
    destruct (net_decrypt_yields w k t raw buf iv type plain) as (m' & Em & Hy); auto.
    eexists. split; [exact Hy|]. split.
    { destruct Hb. split; simpl; unfold UINT16_MAX in *; try lia.
      - pose proof (mem_write_length _ _ _ _ Em). lia.
      - eapply mem_write_bytes; [|exact Hpb|exact Em]. done. }
    split_and!; try done. unfold content. simpl. destruct Hb.
    replace (b_len buf - net_pdu_mic buf) with (7 + zlen plain) by lia.
    rewrite slice_app_split by lia. f_equal.
    + transitivity (slice (b_store buf) (b_data buf) 7).
      * eapply slice_write_before; [..|exact Em]; lia.
      * change 7%nat with (Z.to_nat 7). apply slice_take. lia.
    + by eapply slice_write_same.
  - destruct Hb. unfold UINT16_MAX in *.
    pose proof (net_pdu_mic_range buf) as Hm.
    unfold bt_mesh_net_decrypt.
    rewrite mem_read_some by lia. unfold mbind at 1, M_bind at 1, checked at 1.
    fold (net_pdu_mic buf). rewrite u16_id by lia. simpl b_len. simpl b_store. simpl b_data.
    replace (b_len buf - net_pdu_mic buf - 7 + net_pdu_mic buf) with (b_len buf - 7) by lia.
    rewrite mem_read_some by lia. unfold mbind at 1, M_bind at 1, checked at 1.
    destruct (mc_ccm_decrypt_bad w k t raw
      (nonce_for PROXY SOLICITATION type (slice (b_store buf) (b_data buf) 7) iv)
      (slice (b_store buf) (b_data buf + 7) (b_len buf - 7)) (b_len buf - net_pdu_mic buf - 7) []
      (net_pdu_mic buf)) as (e & w' & E & He & Hk' & Hr');
      [done|done|apply nonce_for_length|apply net_mic|rewrite slice_length; lia|done|].
    exists e, w'. split_and!; [|done|done|auto].
    unfold mbind, M_bind, attempt. by rewrite E.
Qed.

(** What the receiver makes of any PDU: one that opens is decrypted in
    place and cut by its tag, one that does not is refused with a negative
    error, its length cut all the same and its bytes untouched. *)
Theorem bt_mesh_net_decrypt_spec w k t raw buf iv type :
  mc_keys w !! k = Some (t, raw) -> sealing t = true -> mc_ready w ->
  wf buf -> 7 + net_pdu_mic buf <= b_len buf ->
  let len := b_len buf - net_pdu_mic buf in
  match net_opened raw buf iv type with
  | Some plain => exists buf', yields (net_decrypt k buf iv type) w (0, buf') /\
      b_len buf' = len /\
      content buf' = take 7 (content buf) ++ plain
  | None => exists e w', net_decrypt k buf iv type w = (Ok (e, set_len len buf), w') /\ e < 0 /\
      mc_keys w' = mc_keys w /\ mc_ready w'
  end.
Proof.
  intros Hk Ht Hw Hb Hl len. pose proof (net_decrypt_cases w k t raw buf iv type Hk Ht Hw Hb Hl) as Hc.
  destruct (net_opened raw buf iv type) as [plain|]; [|done].
  destruct Hc as (buf' & ? & _ & _ & ? & _ & ?). by exists buf'.
Qed.

End Network.

(** * Sealing of transport PDUs *)

Definition app_mic (ctx : bt_mesh_app_crypto_ctx) : Z := APP_MIC_LEN (ac_aszmic ctx).

Lemma app_mic_or ctx : app_mic ctx = 4 \/ app_mic ctx = 8.
Proof. unfold app_mic, APP_MIC_LEN. case_if; auto. Qed.

Lemma app_nonce_length ctx : length (create_app_nonce ctx) = 13%nat.
Proof. done. Qed.

Definition app_sealed (raw : list Z) (ctx : bt_mesh_app_crypto_ctx) (plain : list Z) : list Z :=
  mc_seal raw (create_app_nonce ctx) (aad ctx) plain (app_mic ctx).

Lemma app_encrypt_yields w k t raw ctx buf :
  mc_keys w !! k = Some (t, raw) -> sealing t = true -> mc_ready w ->
  wf buf -> b_data buf + b_len buf + app_mic ctx <= b_size buf ->
  exists m', mem_write (b_store buf) (b_data buf) (app_sealed raw ctx (content buf)) = Some m' /\
    let buf' := mk_buf m' (b_data buf) (b_len buf + app_mic ctx) (b_size buf) in
    wf buf' /\ yields (bt_mesh_app_encrypt k ctx buf) w buf'.
Proof.
  intros Hk Ht Hw Hb Hroom.
  assert (0 <= app_mic ctx <= 16) as Hm by (destruct (app_mic_or ctx); lia).
  assert (zlen (app_sealed raw ctx (content buf)) = b_len buf + app_mic ctx) as Hc
    by (unfold app_sealed; rewrite mc_seal_length, content_length by done; done).
  destruct (add_after_store buf (b_data buf) (app_sealed raw ctx (content buf)) (app_mic ctx))
    as (m' & Em & Es & Ea & Hb'); [done| |destruct Hb; lia|lia|lia|lia|].
  { by apply mc_seal_bytes, content_bytes. }
  exists m'. split; [done|]. split; [done|].
  unfold bt_mesh_app_encrypt. fold (app_mic ctx). destruct Hb.
  eapply yields_bind; [apply yields_checked; [apply mem_read_some; lia|done]|]. intros w1 Hk1 Hr1.
  eapply yields_bind.
  { apply computes_yields; [|done]. eapply mc_ccm_encrypt_spec;
      [by rewrite Hk1|done|apply app_nonce_length|apply app_mic_or]. }
  intros w2 _ Hr2. fold (content buf) (app_sealed raw ctx (content buf)).
  eapply yields_bind; [by apply yields_checked|]. intros w3 _ Hr3.
  eapply yields_bind; [by apply yields_checked|]. intros w4 _ Hr4. by apply yields_ret.
Qed.

Lemma app_decrypt_yields w k t raw ctx buf out x :
  mc_keys w !! k = Some (t, raw) -> sealing t = true -> mc_ready w ->
  mem_read (b_store buf) (b_data buf) (b_len buf + app_mic ctx) =
    Some (slice (b_store buf) (b_data buf) (b_len buf + app_mic ctx)) ->
  zlen (slice (b_store buf) (b_data buf) (b_len buf + app_mic ctx)) = b_len buf + app_mic ctx ->
  mc_open raw (create_app_nonce ctx) (aad ctx) (slice (b_store buf) (b_data buf) (b_len buf + app_mic ctx))
    (app_mic ctx) = Some x -> zlen x = b_len buf -> Forall is_byte x ->
  wf out -> b_len out = 0 -> b_data out + b_len buf <= b_size out ->
  exists out', yields (bt_mesh_app_decrypt k ctx buf out) w out' /\ wf out' /\ content out' = x.
Proof.
  intros Hk Ht Hw Hread Hlen Hopen Hx Hxb Hout Hol Hor.
  destruct (add_after_store out (b_data out) x (b_len buf))
    as (mo & Emo & Eso & Eao & Hbo); [done|done|destruct Hout; lia|lia|lia|lia|].
  exists (mk_buf mo (b_data out) (b_len out + b_len buf) (b_size out)). split_and!; [|done|].
  - unfold bt_mesh_app_decrypt. fold (app_mic ctx).
    eapply yields_bind; [by apply yields_checked|]. intros w1 Hk1 Hr1. eapply yields_bind.
    { apply computes_yields; [|done].
      eapply (mc_ccm_decrypt_spec w1 k t raw _ _ _ _ _ x);
        [by rewrite Hk1|done|apply app_nonce_length|apply app_mic_or|done|done|done]. }
    intros w2 _ Hr2.
    eapply yields_bind; [by apply yields_checked|]. intros w3 _ Hr3.
    eapply yields_bind; [by apply yields_checked|]. intros w4 _ Hr4. by apply yields_ret.
  - unfold content at 1. simpl. rewrite Hol, Z.add_0_l, <-Hx. by eapply slice_write_same.
Qed.

(** A sealed transport PDU opens.  [bt_mesh_app_encrypt] seals the payload in
    place and appends the tag; the receiver, whose buffer length stops before
    the tag, gets the payload in the other buffer from [bt_mesh_app_decrypt]
    with the same key and context (label, sequence number, addresses and IV
    index). *)
Theorem bt_mesh_app_seal_roundtrip w k t raw ctx buf out :
  mc_keys w !! k = Some (t, raw) -> sealing t = true -> mc_ready w ->
  wf buf -> b_data buf + b_len buf + app_mic ctx <= b_size buf ->
  wf out -> b_len out = 0 -> b_data out + b_len buf <= b_size out ->
  exists buf' out', wf buf' /\
    yields (bt_mesh_app_encrypt k ctx buf) w buf' /\
    content buf' = app_sealed raw ctx (content buf) /\
    yields (bt_mesh_app_decrypt k ctx (set_len (b_len buf) buf') out) w out' /\
    wf out' /\ content out' = content buf.
Proof.
  intros Hk Ht Hw Hb Hroom Hout Hol Hor.
  destruct (app_encrypt_yields w k t raw ctx buf) as (m' & Em & Hb' & Hy); try done.
  assert (0 <= app_mic ctx <= 16) as Hm by (destruct (app_mic_or ctx); lia).
  pose proof (content_length buf Hb) as Hcl. pose proof (content_bytes buf Hb) as Hcb.
  set (ct := app_sealed raw ctx (content buf)) in *.
  assert (zlen ct = b_len buf + app_mic ctx) as Hc
    by (unfold ct, app_sealed; rewrite mc_seal_length; lia).
  assert (slice m' (b_data buf) (b_len buf + app_mic ctx) = ct) as Hs
    by (rewrite <-Hc; by eapply slice_write_same).
  set (buf' := mk_buf m' _ _ _) in *.
  destruct (app_decrypt_yields w k t raw ctx (set_len (b_len buf) buf') out (content buf)) as (out' & Hd & Hwo & Hco);
    try done; cbn [set_len b_store b_data b_len buf']; rewrite ?Hs; try done.
  { destruct Hb, Hb'. simpl in *. rewrite mem_read_some, Hs by lia. done. }
  { by apply mc_open_seal. }
  exists buf', out'. by split_and!.
Qed.

(** * Beacons *)

(** The authentication value of a private beacon: the first eight bytes of the
    CCM tag computation, on raw keys. *)
Definition beacon_tag (raw data random : list Z) : list Z :=
  let t0 := mc_aes raw ([0x19] ++ random ++ sys_put_be16 0x0005) in
  let t1 := mc_aes raw (xor_first 5 t0 data) in
  zip_with Z.lxor (take 8 t1) (mc_aes raw ([0x01] ++ random ++ sys_put_be16 0x0000)).

Definition beacon_mask (raw random : list Z) : list Z :=
  mc_aes raw ([0x01] ++ random ++ sys_put_be16 0x0001).

Lemma block_length x random v :
  length random = 13%nat -> length ([x] ++ random ++ sys_put_be16 v) = 16%nat.
Proof. intros Hr. rewrite !length_app, Hr. done. Qed.

Lemma beacon_obf_yields w k raw data random :
  mc_keys w !! k = Some (BT_MESH_KEY_TYPE_ECB, raw) -> mc_ready w -> length random = 13%nat ->
  yields (private_beacon_obf k data random) w (zip_with Z.lxor (take 5 data) (beacon_mask raw random)).
Proof.
  intros Hk Hw Hr. unfold private_beacon_obf.
  eapply yields_bind; [apply yields_encrypt; [done|by apply block_length|done]|].
  intros w1 _ Hr1. by apply yields_ret.
Qed.

Lemma beacon_auth_yields w k raw data random :
  mc_keys w !! k = Some (BT_MESH_KEY_TYPE_ECB, raw) -> mc_ready w -> length random = 13%nat ->
  length data = 5%nat ->
  yields (private_beacon_auth k data random) w (beacon_tag raw data random).
Proof.
  intros Hk Hw Hr Hd. unfold private_beacon_auth.
  eapply yields_bind; [apply yields_encrypt; [done|by apply block_length|done]|].
  intros w1 Hk1 Hr1. eapply yields_bind.
  { apply yields_encrypt; [by rewrite Hk1| |done]. unfold xor_first.
    rewrite length_app, length_zip_with, length_take, length_drop, mc_aes_length. lia. }
  intros w2 Hk2 Hr2.
  eapply yields_bind; [apply yields_encrypt; [by rewrite Hk2, Hk1|by apply block_length|done]|].
  intros w3 _ Hr3. by apply yields_ret.
Qed.

Lemma beacon_tag_length raw data random : length (beacon_tag raw data random) = 8%nat.
Proof.
  unfold beacon_tag. rewrite length_zip_with, length_take, !mc_aes_length. done.
Qed.

(** Deobfuscating and obfuscating are the same. *)
Lemma beacon_mask_twice raw random data :
  length data = 5%nat ->
  zip_with Z.lxor (zip_with Z.lxor data (beacon_mask raw random)) (beacon_mask raw random) = data.
Proof. intros Hd. apply zip_lxor_twice. unfold beacon_mask. rewrite mc_aes_length. lia. Qed.

Lemma beacon_decrypt_cases w k raw random data auth :
  mc_keys w !! k = Some (BT_MESH_KEY_TYPE_ECB, raw) -> mc_ready w -> length random = 13%nat ->
  length data = 5%nat -> length auth = 8%nat ->
  let out := zip_with Z.lxor data (beacon_mask raw random) in
  if decide (auth = beacon_tag raw out random)
  then yields (bt_mesh_beacon_decrypt k random data auth) w out
  else exists w', bt_mesh_beacon_decrypt k random data auth w = (Err (- EBADMSG), w').
Proof.
  intros Hk Hw Hr Hd Ha out.
  assert (length out = 5%nat) as Ho
    by (unfold out, beacon_mask; rewrite length_zip_with, mc_aes_length; lia).
  pose proof (beacon_obf_yields w k raw data random Hk Hw Hr) as H1.
  rewrite take_ge in H1 by lia. fold out in H1. destruct H1 as (w1 & E1 & Hk1 & Hr1).
  rewrite <-Hk1 in Hk.
  destruct (beacon_auth_yields w1 k raw out random Hk Hr1 Hr Ho) as (w2 & E2 & Hk2 & Hr2).
  pose proof (memcmp_eq (beacon_tag raw out random) auth) as Hm.
  rewrite beacon_tag_length, Ha in Hm. specialize (Hm eq_refl).
  unfold bt_mesh_beacon_decrypt. rewrite (take_ge auth) by lia.
  case_decide as Hc.
  - exists w2. erewrite bind_ok by exact E1. erewrite bind_ok by exact E2.
    rewrite (proj2 Hm) by done. split_and!; [done|congruence|done].
  - exists w2. erewrite bind_ok by exact E1. erewrite bind_ok by exact E2.
    rewrite (proj2 (Z.eqb_neq _ _)); [done|]. rewrite Hm. congruence.
Qed.

(** Private beacons.  What [bt_mesh_beacon_encrypt] makes of the flags and
    the IV index, [bt_mesh_beacon_decrypt] with the same key and random accepts
    and turns back into them; and of all beacons with that random it accepts
    exactly those whose authentication value is the tag of the data they hide,
    answering -EBADMSG to the others. *)
Theorem bt_mesh_private_beacon_spec w k raw random flags iv :
  mc_keys w !! k = Some (BT_MESH_KEY_TYPE_ECB, raw) -> mc_ready w -> length random = 13%nat ->
  (exists data auth, length data = 5%nat /\ length auth = 8%nat /\
     yields (bt_mesh_beacon_encrypt k flags iv random) w (data, auth) /\
     yields (bt_mesh_beacon_decrypt k random data auth) w (flags :: sys_put_be32 iv)) /\
  (forall data auth, length data = 5%nat -> length auth = 8%nat ->
     let out := zip_with Z.lxor data (beacon_mask raw random) in
     if decide (auth = beacon_tag raw out random)
     then yields (bt_mesh_beacon_decrypt k random data auth) w out
     else exists w', bt_mesh_beacon_decrypt k random data auth w = (Err (- EBADMSG), w')).
Proof.
  intros Hk Hw Hr. split; [|intros; by apply beacon_decrypt_cases].
  set (plain := flags :: sys_put_be32 iv). assert (length plain = 5%nat) as Hp by done.
  exists (zip_with Z.lxor plain (beacon_mask raw random)), (beacon_tag raw plain random).
  assert (length (zip_with Z.lxor plain (beacon_mask raw random)) = 5%nat) as Hl
    by (unfold beacon_mask; rewrite length_zip_with, mc_aes_length; lia).
  split_and!; [done|apply beacon_tag_length| |].
  - unfold bt_mesh_beacon_encrypt. change ([flags] ++ _) with plain.
    eapply yields_bind; [by apply beacon_auth_yields|]. intros w1 Hk1 Hr1.
    eapply yields_bind; [apply beacon_obf_yields; [by rewrite Hk1|done|done]|].
    intros w2 _ Hr2. rewrite take_ge by lia. by apply yields_ret.
  - pose proof (beacon_decrypt_cases w k raw random (zip_with Z.lxor plain (beacon_mask raw random))
      (beacon_tag raw plain random) Hk Hw Hr Hl (beacon_tag_length _ _ _)) as Hc.
    cbv zeta in Hc. rewrite beacon_mask_twice in Hc by done. by rewrite decide_True in Hc.
Qed.

End Correct.

(** * Nonces *)

(** What a nonce is made for. *)
Inductive nonce_use :=
| ForNet (pdu : list Z) (iv : Z)
| ForProxy (pdu : list Z) (iv : Z)
| ForSolicitation (pdu : list Z)
| ForApp (ctx : bt_mesh_app_crypto_ctx).

Definition nonce_of (u : nonce_use) : list Z :=
  match u with
  | ForNet pdu iv => create_net_nonce pdu iv
  | ForProxy pdu iv => create_proxy_nonce pdu iv
  | ForSolicitation pdu => create_proxy_sol_nonce pdu
  | ForApp ctx => create_app_nonce ctx
  end.

(** The fields fit their C types; the sequence number is a 24-bit one. *)
Definition nonce_use_ok (u : nonce_use) : Prop :=
  match u with
  | ForNet pdu iv | ForProxy pdu iv => (7 <= length pdu)%nat /\ 0 <= iv < 2 ^ 32
  | ForSolicitation pdu => (7 <= length pdu)%nat
  | ForApp c => 0 <= ac_seq_num c < 2 ^ 24 /\ 0 <= ac_aszmic c < 2 /\
      0 <= ac_src c < 2 ^ 16 /\ 0 <= ac_dst c < 2 ^ 16 /\ 0 <= ac_iv_index c < 2 ^ 32
  end.

(** Two uses of one nonce: the same layer, TTL byte, sequence number, addresses
    and IV index as far as the layer has them. *)
Definition same_use (u u' : nonce_use) : Prop :=
  match u, u' with
  | ForNet p iv, ForNet p' iv' => slice p 1 6 = slice p' 1 6 /\ iv = iv'
  | ForProxy p iv, ForProxy p' iv' => slice p 2 5 = slice p' 2 5 /\ iv = iv'
  | ForSolicitation p, ForSolicitation p' => slice p 2 5 = slice p' 2 5
  | ForApp c, ForApp c' => ac_dev_key c = ac_dev_key c' /\ ac_aszmic c = ac_aszmic c' /\
      ac_seq_num c = ac_seq_num c' /\ ac_src c = ac_src c' /\ ac_dst c = ac_dst c' /\
      ac_iv_index c = ac_iv_index c'
  | _, _ => False
  end.

Lemma be32_inj a b : 0 <= a < 2 ^ 32 -> 0 <= b < 2 ^ 32 -> sys_put_be32 a = sys_put_be32 b -> a = b.
Proof.
  intros Ha Hb E. apply (f_equal sys_get_be32) in E. rewrite !codec_get_put in E.
  change (256 ^ Z.of_nat 4) with (2 ^ 32) in E. by rewrite !Z.mod_small in E.
Qed.

Lemma be16_inj a b : 0 <= a < 2 ^ 16 -> 0 <= b < 2 ^ 16 -> sys_put_be16 a = sys_put_be16 b -> a = b.
Proof.
  intros Ha Hb E. apply (f_equal sys_get_be16) in E. rewrite !codec_get_put in E.
  change (256 ^ Z.of_nat 2) with (2 ^ 16) in E. by rewrite !Z.mod_small in E.
Qed.

(** The word with the sequence number and the size bit. *)
Lemma seq_word c :
  0 <= ac_seq_num c < 2 ^ 24 -> 0 <= ac_aszmic c < 2 ->
  u32 (Z.lor (ac_seq_num c) (Z.shiftl (ac_aszmic c) 31)) = ac_aszmic c * 2 ^ 31 + ac_seq_num c.
Proof.
  intros Hs Ha. rewrite Z.lor_comm, lor_shl_add by lia. apply u32_id. lia.
Qed.

(** A PDU of at least seven bytes. *)
Lemma pdu_bytes (p : list Z) : (7 <= length p)%nat ->
  exists a b c d e f g t, p = a :: b :: c :: d :: e :: f :: g :: t.
Proof.
  intros Hl. do 7 (destruct p as [|? p]; [simpl in Hl; lia|]). by eexists _, _, _, _, _, _, _, p.
Qed.

Lemma app_nonce_inj c c' :
  nonce_use_ok (ForApp c) -> nonce_use_ok (ForApp c') ->
  create_app_nonce c = create_app_nonce c' -> same_use (ForApp c) (ForApp c').
Proof.
  intros (Hs & Ha & Hsr & Hd & Hi) (Hs' & Ha' & Hsr' & Hd' & Hi') E.
  unfold create_app_nonce in E. rewrite !seq_word in E by done.
  apply app_inj_1 in E as [E1 E]; [|done].
  apply app_inj_1 in E as [E2 E]; [|done].
  apply app_inj_1 in E as [E3 E]; [|done].
  apply app_inj_1 in E as [E4 E5]; [|done].
  apply be32_inj in E2; [|lia|lia]. apply be16_inj in E3; [|done|done].
  apply be16_inj in E4; [|done|done]. apply be32_inj in E5; [|done|done].
  simpl. split_and!; try done; try lia.
  by destruct (ac_dev_key c), (ac_dev_key c').
Qed.

(** C37: Nonces do not repeat across uses.  Two network, proxy, solicitation or
    application nonces are equal only if they are made for the same layer, the
    same source and sequence number (and TTL or destination and tag size where
    the layer has them) and the same IV index. *)
Theorem mesh_nonces_unique u u' :
  nonce_use_ok u -> nonce_use_ok u' -> nonce_of u = nonce_of u' -> same_use u u'.
Proof.
  destruct u as [p iv|p iv|p|c], u' as [p' iv'|p' iv'|p'|c']; intros Hu Hu' E;
    try (exfalso; unfold nonce_of, create_app_nonce in E;
         try destruct (ac_dev_key c); try destruct (ac_dev_key c'); discriminate).
  - destruct Hu as [Hp Hi], Hu' as [Hp' Hi'].
    apply pdu_bytes in Hp as (?&?&?&?&?&?&?&?& ->), Hp' as (?&?&?&?&?&?&?&?& ->).
    apply app_inj_1 in E as [E1 E2]; [|done]. apply be32_inj in E2; [|done|done].
    cbn in E1. simplify_eq. done.
  - destruct Hu as [Hp Hi], Hu' as [Hp' Hi'].
    apply pdu_bytes in Hp as (?&?&?&?&?&?&?&?& ->), Hp' as (?&?&?&?&?&?&?&?& ->).
    apply app_inj_1 in E as [E1 E2]; [|done]. apply be32_inj in E2; [|done|done].
    cbn in E1. simplify_eq. done.
  - apply pdu_bytes in Hu as (?&?&?&?&?&?&?&?& ->), Hu' as (?&?&?&?&?&?&?&?& ->).
    cbn in E. simplify_eq. done.
  - by apply app_nonce_inj.
Qed.

(** The solicitation client option without the server option selects
    [CONFIG_BT_MESH_SOLICITATION] only: [bt_mesh_net_encrypt] then seals a
    Solicitation PDU under a network nonce, [bt_mesh_net_decrypt] opens it under
    the solicitation nonce. *)
Lemma solicitation_client_nonce PROXY pdu iv :
  nonce_for PROXY false BT_MESH_NONCE_SOLICITATION pdu iv = create_net_nonce pdu iv /\
  nonce_for PROXY true BT_MESH_NONCE_SOLICITATION pdu iv = create_proxy_sol_nonce pdu /\
  create_net_nonce pdu iv <> create_proxy_sol_nonce pdu.
Proof. unfold nonce_for. rewrite andb_false_r. by destruct PROXY. Qed.

(** * The frame check sequence *)

(** One bit of the reflected CRC with polynomial 0x07, and a byte of it. *)
Definition crc8_bit (c : Z) : Z :=
  if Z.testbit c 0 then Z.lxor (Z.shiftr c 1) 0xe0 else Z.shiftr c 1.
Definition crc8_byte (c b : Z) : Z := Nat.iter 8 crc8_bit (Z.lxor c b).

Definition crc_entry_ok (i : Z) : bool :=
  (crc_at i =? Nat.iter 8 crc8_bit i) && (0 <=? crc_at i) && (crc_at i <? 256)
    && (Bool.eqb (crc_at i =? 0xcf) (i =? 0xff)).

Lemma crc_entry i : is_byte i ->
  crc_at i = Nat.iter 8 crc8_bit i /\ is_byte (crc_at i) /\ (crc_at i = 0xcf <-> i = 0xff).
Proof.
  intros Hi. assert (crc_entry_ok i = true) as H by by_bytes i Hi.
  unfold crc_entry_ok in H. bool_to_prop. split_and!; [done|unfold is_byte; lia|].
  match goal with E : Bool.eqb _ _ = true |- _ => apply Bool.eqb_prop in E; rename E into Heq end.
  rewrite <-!Z.eqb_eq. by rewrite Heq.
Qed.

Lemma fcs_loop_spec data : forall c,
  is_byte c -> Forall is_byte data ->
  fcs_loop c data = fold_left crc8_byte data c /\ is_byte (fcs_loop c data).
Proof.
  induction data as [|b data IH]; intros c Hc Hd; [done|].
  apply bytes_cons in Hd as [Hb Hd]. unfold fcs_loop. cbn [fold_left].
  destruct (crc_entry (Z.lxor c b)) as (E & Hbyte & _); [by apply lxor_byte|].
  unfold crc8_byte at 2. rewrite <-E. by apply IH.
Qed.

Definition xor_ff_ok (b : Z) : bool := Z.lxor 0xff b =? 0xff - b.

(** The frame check sequence.  The table routine computes the bit-serial CRC
    of the specification (polynomial 0x07 reflected, initial value 0xff,
    complemented), and the receiver's check against the constant 0xcf accepts
    exactly the sequence [bt_mesh_fcs_calc] gives for the data it received
    (which has at most 255 bytes, the range of [data_len]). *)
Theorem bt_mesh_fcs_spec buf fcs :
  wf buf -> b_len buf < 256 -> is_byte fcs ->
  bt_mesh_fcs_calc (content buf) (b_len buf) = 0xff - fold_left crc8_byte (content buf) 0xff /\
  (bt_mesh_fcs_check buf fcs = true <-> fcs = bt_mesh_fcs_calc (content buf) (b_len buf)).
Proof.
  intros Hb Hlen Hf. pose proof (content_bytes buf Hb) as Hc. pose proof (content_length buf Hb) as Hcl.
  destruct (fcs_loop_spec (content buf) 0xff) as [E Hbyte]; [unfold is_byte; lia|done|].
  unfold bt_mesh_fcs_calc. rewrite (u8_id (b_len buf)) by (destruct Hb; lia).
  rewrite take_ge by lia. rewrite u8_id by (unfold is_byte in *; lia). split; [by rewrite E|].
  unfold bt_mesh_fcs_check. fold (content buf). set (c := fcs_loop 0xff (content buf)) in *.
  rewrite Z.eqb_eq. destruct (crc_entry (Z.lxor c fcs)) as (_ & _ & ->); [by apply lxor_byte|].
  assert (xor_ff_ok c = true) as Hx by by_bytes c Hbyte.
  apply Z.eqb_eq in Hx. rewrite <-Hx. split.
  - intros <-. rewrite Z.lxor_comm, <-Z.lxor_assoc, Z.lxor_nilpotent. done.
  - intros ->. by rewrite (Z.lxor_comm 0xff), <-Z.lxor_assoc, Z.lxor_nilpotent.
Qed.

(** * Concrete runs, over the sample PSA implementation *)

From S2P Require Import Psa CryptoPsa.

Definition sample_key (t : bt_mesh_key_type) (b : Z) : psa_key_attributes * list Z :=
  (attributes_of t PSA_KEY_LIFETIME_VOLATILE PSA_KEY_ID_NULL, key16 b).

(** A sealing key 1, a privacy key 2. *)
Definition sample_world : crypto_state psa_store :=
  mk_crypto_state (<[1 := sample_key BT_MESH_KEY_TYPE_CCM 7]>
    {[2 := sample_key BT_MESH_KEY_TYPE_ECB 9]}) ∅ no_dh.

#[local] Instance sample_crypto : MeshCrypto (crypto_state psa_store) := psa_crypto true 100 2.
#[local] Instance sample_promises : MeshCryptoLaws (crypto_state psa_store) :=
  psa_crypto_laws true true 100 2 eq_refl ltac:(discriminate).

Lemma sample_ready : mc_ready sample_world.
Proof.
  split; [exact I|]. intros _ _ j Hj. unfold store. simpl.
  intros [x [_ Hx]%Sample.visible_some]. by rewrite lookup_insert_ne, lookup_singleton_ne in Hx by lia.
Qed.

(** A network PDU of 18 bytes with room for its tag. *)
Definition sample_buf : bt_buf_simple :=
  mk_buf (map Z.of_nat (seq 0 29)) 0 18 29.

Lemma sample_buf_wf : wf sample_buf.
Proof. split; simpl; try (unfold UINT16_MAX; lia). repeat constructor; unfold is_byte; lia. Qed.

Definition sample_out : bt_buf_simple := mk_buf (replicate 20 0) 0 0 20.

Lemma sample_out_wf : wf sample_out.
Proof. split; simpl; try (unfold UINT16_MAX; lia). repeat constructor; unfold is_byte; lia. Qed.

Lemma bt_mesh_key_derivation_spec_witness :
  yields (bt_mesh_k1 [1; 2] (key16 3) [4]) sample_world (K1 [1; 2] (key16 3) [4]) /\
  yields (bt_mesh_k4 [1; 2]) sample_world (K4 [1; 2]).
Proof.
  destruct (bt_mesh_key_derivation_spec sample_world [1; 2] [0] (key16 3) [4] []
    "nkik" BT_MESH_KEY_TYPE_ECB) as (H1 & _ & _ & H4 & _);
    [apply sample_ready|reflexivity|reflexivity|exact (conj H1 H4)].
Defined.

Lemma bt_mesh_net_obfuscate_involutive_witness :
  exists m', yields (bt_mesh_net_obfuscate (b_store sample_buf) 0 5 2) sample_world m' /\
    (forall o n, 0 <= o -> 0 <= n -> o + n <= 0 + 1 -> slice m' o n = slice (b_store sample_buf) o n) /\
    (forall o n, 0 + 7 <= o -> slice m' o n = slice (b_store sample_buf) o n) /\
    yields (bt_mesh_net_obfuscate m' 0 5 2) sample_world (b_store sample_buf).
Proof.
  apply (bt_mesh_net_obfuscate_involutive sample_world 2 (key16 9));
    [vm_compute; reflexivity|apply sample_ready|lia|simpl; lia].
Defined.

Lemma bt_mesh_net_seal_roundtrip_witness :
  exists buf' buf'', wf buf' /\
    yields (bt_mesh_net_encrypt true true 1 sample_buf 5 BT_MESH_NONCE_NETWORK) sample_world buf' /\
    content buf' = take 7 (content sample_buf) ++
      net_sealed true true (key16 7) sample_buf 5 BT_MESH_NONCE_NETWORK /\
    yields (bt_mesh_net_decrypt true true 1 buf' 5 BT_MESH_NONCE_NETWORK) sample_world (0, buf'') /\
    content buf'' = content sample_buf.
Proof.
  apply (bt_mesh_net_seal_roundtrip true true true sample_world 1 BT_MESH_KEY_TYPE_CCM (key16 7));
    [vm_compute; reflexivity|reflexivity|apply sample_ready|apply sample_buf_wf|simpl; lia
    |vm_compute; discriminate|discriminate].
Defined.

(** The unencrypted sample does not open: its tag is wrong. *)
Lemma bt_mesh_net_decrypt_spec_witness :
  exists e w', bt_mesh_net_decrypt true true 1 sample_buf 5 BT_MESH_NONCE_NETWORK sample_world
      = (Ok (e, set_len (b_len sample_buf - net_pdu_mic sample_buf) sample_buf), w') /\ e < 0 /\
    mc_keys w' = mc_keys sample_world /\ mc_ready w'.
Proof.
  assert (net_opened true true (key16 7) sample_buf 5 BT_MESH_NONCE_NETWORK = None) as Ho
    by (vm_compute; reflexivity).
  pose proof (bt_mesh_net_decrypt_spec true true sample_world 1 BT_MESH_KEY_TYPE_CCM (key16 7)
    sample_buf 5 BT_MESH_NONCE_NETWORK) as Hd.
  rewrite Ho in Hd. apply Hd; [vm_compute; reflexivity|reflexivity|apply sample_ready|apply sample_buf_wf
    |vm_compute; discriminate].
Defined.

Definition sample_ctx : bt_mesh_app_crypto_ctx := mk_app_ctx false 0 0x1201 0xc000 77 5 None.

Lemma bt_mesh_app_seal_roundtrip_witness :
  exists buf' out', wf buf' /\
    yields (bt_mesh_app_encrypt 1 sample_ctx sample_buf) sample_world buf' /\
    content buf' = app_sealed (key16 7) sample_ctx (content sample_buf) /\
    yields (bt_mesh_app_decrypt 1 sample_ctx (set_len 18 buf') sample_out) sample_world out' /\
    wf out' /\ content out' = content sample_buf.
Proof.
  apply (bt_mesh_app_seal_roundtrip sample_world 1 BT_MESH_KEY_TYPE_CCM (key16 7) sample_ctx
    sample_buf sample_out); [vm_compute; reflexivity|reflexivity|apply sample_ready|apply sample_buf_wf
    |vm_compute; discriminate|apply sample_out_wf|reflexivity|vm_compute; discriminate].
Defined.

Lemma bt_mesh_private_beacon_spec_witness :
  exists data auth, length data = 5%nat /\ length auth = 8%nat /\
    yields (bt_mesh_beacon_encrypt 2 1 0x12345678 (replicate 13 4)) sample_world (data, auth) /\
    yields (bt_mesh_beacon_decrypt 2 (replicate 13 4) data auth) sample_world
      (1 :: sys_put_be32 0x12345678).
Proof.
  apply (bt_mesh_private_beacon_spec sample_world 2 (key16 9));
    [vm_compute; reflexivity|apply sample_ready|reflexivity].
Defined.

Lemma mesh_nonces_unique_witness :
  same_use (ForApp sample_ctx) (ForApp (mk_app_ctx false 0 0x1201 0xc000 77 5 (Some (key16 1)))).
Proof. apply mesh_nonces_unique; [simpl; lia|simpl; lia|reflexivity]. Defined.

Lemma bt_mesh_fcs_spec_witness :
  bt_mesh_fcs_check sample_buf 0x5f = true <-> 0x5f = bt_mesh_fcs_calc (content sample_buf) 18.
Proof.
  apply (bt_mesh_fcs_spec sample_buf 0x5f); [apply sample_buf_wf|reflexivity|unfold is_byte; lia].
Defined.
