(* ===== verification/Subnet.v ===== *)
(** The subnets of a node: [mesh/subnet.c], with the node identity switches of
    [mesh/proxy_srv.c] that change a subnet.

    The state is the array [subnets] (a pointer into it is an index), the queue
    [net_key_updates] of the key records that the storage does not have yet, and
    the crypto backend.  What the module does to the outside - the storage, the
    scheduler, the other mesh modules - is recorded in order in [ext]. *)

From S2P Require Import Prelude Byteorder MeshDefs CryptoIf Crypto.

(** * Data *)

Definition BT_MESH_KR_NORMAL : Z := 0x00.
Definition BT_MESH_KR_PHASE_1 : Z := 0x01.
Definition BT_MESH_KR_PHASE_2 : Z := 0x02.
Definition BT_MESH_KR_PHASE_3 : Z := 0x03.

Definition BT_MESH_NET_FLAG_KR : Z := BIT 0.
Definition BT_MESH_NET_FLAG_IVU : Z := BIT 1.

Definition BT_MESH_FEATURE_DISABLED : Z := 0.
Definition BT_MESH_FEATURE_ENABLED : Z := 1.
Definition BT_MESH_FEATURE_NOT_SUPPORTED : Z := 2.
Definition BT_MESH_NODE_IDENTITY_STOPPED : Z := BT_MESH_FEATURE_DISABLED.
Definition BT_MESH_NODE_IDENTITY_RUNNING : Z := BT_MESH_FEATURE_ENABLED.
Definition BT_MESH_NODE_IDENTITY_NOT_SUPPORTED : Z := BT_MESH_FEATURE_NOT_SUPPORTED.

Definition STATUS_FEAT_NOT_SUPP : Z := 0x0a.

(** [struct bt_mesh_net_cred] *)
Record bt_mesh_net_cred := mk_cred {
  nid : Z;
  enc : bt_mesh_key;
  privacy : bt_mesh_key
}.

(** [struct bt_mesh_subnet_keys] *)
Record bt_mesh_subnet_keys := mk_subnet_keys {
  valid : bool;
  net : bt_mesh_key;
  msg : bt_mesh_net_cred;
  net_id : list Z;
  identity : bt_mesh_key;
  beacon : bt_mesh_key;
  priv_beacon : bt_mesh_key
}.

(** [struct bt_mesh_subnet], without the beacon timers and counters. *)
Record bt_mesh_subnet := mk_subnet {
  net_idx : Z;
  kr_phase : Z;
  node_id : Z;
  priv_node_id : bool;  (** [priv_beacon_ctx.node_id] *)
  keys0 : bt_mesh_subnet_keys;
  keys1 : bt_mesh_subnet_keys
}.

Definition zero_cred : bt_mesh_net_cred := mk_cred 0 0 0.
Definition zero_keys : bt_mesh_subnet_keys := mk_subnet_keys false 0 zero_cred [] 0 0 0.
Definition free_subnet : bt_mesh_subnet := mk_subnet BT_MESH_KEY_UNUSED 0 0 false zero_keys zero_keys.
#[export] Instance subnet_inhabited : Inhabited bt_mesh_subnet := populate free_subnet.

(** [struct net_key_update] *)
Record net_key_update := mk_update { up_key_idx : Z; up_valid : bool; up_clear : bool }.
#[export] Instance update_inhabited : Inhabited net_key_update := populate (mk_update 0 false false).

(** [enum bt_mesh_key_evt] *)
Inductive bt_mesh_key_evt :=
| BT_MESH_KEY_ADDED
| BT_MESH_KEY_DELETED
| BT_MESH_KEY_UPDATED
| BT_MESH_KEY_SWAPPED
| BT_MESH_KEY_REVOKED.

(** [struct net_key_val] *)
Record net_key_val := mk_net_key_val { kv_kr_phase : Z; kv_val0 : bt_mesh_key; kv_val1 : bt_mesh_key }.

(** The calls out of the module. *)
Inductive ext_op :=
| SaveNetKey (idx : Z) (v : net_key_val)  (** [bt_storage_save_one("bt/mesh/NetKey/%x")] *)
| DeleteNetKey (idx : Z)                  (** [bt_storage_delete] *)
| ScheduleNetKeys                         (** [bt_mesh_settings_store_schedule] *)
| SubnetEvt (idx : Z) (evt : bt_mesh_key_evt)  (** the handlers called by [subnet_evt] *)
| LoopbackClear (idx : Z)                 (** [bt_mesh_net_loopback_clear] *)
| BeaconUpdate (idx : Z)                  (** [bt_mesh_beacon_update] *)
| GattUpdate.                             (** [bt_mesh_adv_gatt_update] *)

Record subnet_state (W : Type) := mk_state {
  crypto : W;
  subnets : list bt_mesh_subnet;
  net_key_updates : list net_key_update;
  ext : list ext_op
}.
Arguments mk_state {W} _ _ _ _.
Arguments crypto {W} _.
Arguments subnets {W} _.
Arguments net_key_updates {W} _.
Arguments ext {W} _.

(** * Steps *)

Section Operations.

Context {W : Type} `{MeshCrypto W}.
(** [IS_ENABLED] of the options the module tests; [V1d1] is
    [CONFIG_BT_MESH_V1d1], which no Kconfig file defines. *)
Context (SETTINGS GATT_PROXY PRIV_BEACONS V1d1 : bool).

Notation st := (subnet_state W).

Definition modify (f : st -> st) : M st unit := fun s => (Ok (), f s).
Definition gets {A} (f : st -> A) : M st A := fun s => (Ok (f s), s).

Definition set_crypto (w : W) (s : st) : st := mk_state w (subnets s) (net_key_updates s) (ext s).
Definition set_subnets (l : list bt_mesh_subnet) (s : st) : st :=
  mk_state (crypto s) l (net_key_updates s) (ext s).
Definition set_updates (l : list net_key_update) (s : st) : st :=
  mk_state (crypto s) (subnets s) l (ext s).
Definition emit_op (e : ext_op) (s : st) : st :=
  mk_state (crypto s) (subnets s) (net_key_updates s) (ext s ++ [e]).

Definition emit (e : ext_op) : M st unit := modify (emit_op e).

(** A call of the crypto toolbox. *)
Definition crypto_call {A} (m : M W A) : M st A := fun s =>
  let '(r, w) := m (crypto s) in (r, set_crypto w s).

Definition sub_at (i : nat) (s : st) : bt_mesh_subnet := subnets s !!! i.
Definition set_sub (i : nat) (f : bt_mesh_subnet -> bt_mesh_subnet) : M st unit :=
  modify (fun s => set_subnets (<[i := f (sub_at i s)]> (subnets s)) s).

Definition with_phase (p : Z) (sub : bt_mesh_subnet) : bt_mesh_subnet :=
  mk_subnet (net_idx sub) p (node_id sub) (priv_node_id sub) (keys0 sub) (keys1 sub).
Definition with_keys0 (k : bt_mesh_subnet_keys) (sub : bt_mesh_subnet) : bt_mesh_subnet :=
  mk_subnet (net_idx sub) (kr_phase sub) (node_id sub) (priv_node_id sub) k (keys1 sub).
Definition with_keys1 (k : bt_mesh_subnet_keys) (sub : bt_mesh_subnet) : bt_mesh_subnet :=
  mk_subnet (net_idx sub) (kr_phase sub) (node_id sub) (priv_node_id sub) (keys0 sub) k.
Definition with_identity (n : Z) (priv : bool) (sub : bt_mesh_subnet) : bt_mesh_subnet :=
  mk_subnet (net_idx sub) (kr_phase sub) n priv (keys0 sub) (keys1 sub).
Definition with_idx (idx phase nid : Z) (sub : bt_mesh_subnet) : bt_mesh_subnet :=
  mk_subnet idx phase nid (priv_node_id sub) (keys0 sub) (keys1 sub).

Definition invalidate (k : bt_mesh_subnet_keys) : bt_mesh_subnet_keys :=
  mk_subnet_keys false (net k) (msg k) (net_id k) (identity k) (beacon k) (priv_beacon k).

(** [STRUCT_SECTION_FOREACH(bt_mesh_subnet_cb, cb)] calls the registered
    handlers (see the finding on that macro). *)
Definition subnet_evt (sub : bt_mesh_subnet) (evt : bt_mesh_key_evt) : M st unit :=
  emit (SubnetEvt (net_idx sub) evt).

(** ** Look-ups *)

(** [for (i = 0; i < ARRAY_SIZE(subnets); i++) if (p) return i] *)
Fixpoint find_sub (p : bt_mesh_subnet -> bool) (l : list bt_mesh_subnet) (i : nat) : option nat :=
  match l with
  | [] => None
  | sub :: l => if p sub then Some i else find_sub p l (S i)
  end.

Definition bt_mesh_subnet_get (idx : Z) (s : st) : option nat :=
  find_sub (fun sub => net_idx sub =? idx) (subnets s) 0.

Definition bt_mesh_subnet_exists (idx : Z) (s : st) : bool :=
  match bt_mesh_subnet_get idx s with Some _ => true | None => false end.

(** The scan of [subnet_alloc]: [sub] is the first free slot seen. *)
Fixpoint alloc_scan (idx : Z) (l : list bt_mesh_subnet) (i : nat) (sub : option nat) : option nat :=
  match l with
  | [] => sub
  | x :: l =>
      if net_idx x =? idx then Some i
      else alloc_scan idx l (S i)
             (match sub with
              | None => if net_idx x =? BT_MESH_KEY_UNUSED then Some i else None
              | Some j => Some j
              end)
  end.

Definition subnet_alloc (idx : Z) (s : st) : option nat := alloc_scan idx (subnets s) 0 None.

Definition used (sub : bt_mesh_subnet) : bool := negb (net_idx sub =? BT_MESH_KEY_UNUSED).

(** [cb] NULL is [None]. *)
Definition bt_mesh_subnet_find (cb : option (bt_mesh_subnet -> bool)) (s : st) : option nat :=
  find_sub (fun sub => used sub && match cb with None => true | Some f => f sub end) (subnets s) 0.

(** The subnets the callback is called on, in order, and the count. *)
Definition bt_mesh_subnet_foreach (s : st) : list bt_mesh_subnet * Z :=
  let l := List.filter used (subnets s) in (l, zlen l).

(** [sub] has been advanced; [n] steps are left. *)
Fixpoint next_loop (l : list bt_mesh_subnet) (n : nat) (sub : nat) : option nat :=
  match n with
  | O => None
  | S n =>
      let sub := if (sub =? length l)%nat then O else sub in
      if used (l !!! sub) then Some sub else next_loop l n (S sub)
  end.

Definition bt_mesh_subnet_next (sub : option nat) (s : st) : option nat :=
  next_loop (subnets s) (length (subnets s)) (match sub with Some i => S i | None => O end).

(** [bt_mesh_subnets_get]: the loop with the entries to skip, the room left and
    the indexes written. *)
Fixpoint get_loop (l : list bt_mesh_subnet) (skip max : Z) (out : list Z) : Z * list Z :=
  match l with
  | [] => (zlen out, out)
  | sub :: l =>
      if negb (used sub) then get_loop l skip max out
      else if negb (skip =? 0) then get_loop l (skip - 1) max out
      else if max <=? zlen out then (- ENOMEM, out)
      else get_loop l skip max (out ++ [net_idx sub])
  end.

Definition bt_mesh_subnets_get (max skip : Z) (s : st) : Z * list Z :=
  get_loop (subnets s) skip max [].

Definition bt_mesh_net_flags (ivu_in_progress : bool) (sub : option bt_mesh_subnet) : Z :=
  let flags := match sub with
               | Some sub => if kr_phase sub =? BT_MESH_KR_PHASE_2 then BT_MESH_NET_FLAG_KR else 0
               | None => 0
               end in
  if ivu_in_progress then Z.lor flags BT_MESH_NET_FLAG_IVU else flags.

(** ** Storage *)

Definition clear_net_key (idx : Z) : M st unit := emit (DeleteNetKey idx).

Definition store_subnet (idx : Z) : M st unit :=
  s ← gets id;
  match bt_mesh_subnet_get idx s with
  | None => mret ()
  | Some i =>
      let sub := sub_at i s in
      emit (SaveNetKey idx (mk_net_key_val (kr_phase sub mod 128) (net (keys0 sub)) (net (keys1 sub))))
  end.

(** The match and the free slot the loop ends with: the last ones. *)
Definition update_find_body (key_idx : Z) (l : list net_key_update) (i : nat)
    (c : option nat * option nat) : option nat * option nat :=
  let update := l !!! i in
  if negb (up_valid update) then (c.1, Some i)
  else if up_key_idx update =? key_idx then (Some i, c.2) else c.

Definition net_key_update_find (key_idx : Z) (l : list net_key_update) : option nat * option nat :=
  for_to (length l) 0 (update_find_body key_idx l) (None, None).

Definition set_update (i : nat) (u : net_key_update) : M st unit :=
  modify (fun s => set_updates (<[i := u]> (net_key_updates s)) s).

(** [key_idx] has 12 bits. *)
Definition update_subnet_settings (idx : Z) (store : bool) : M st unit :=
  l ← gets net_key_updates;
  match net_key_update_find idx l with
  | (Some i, _) =>
      _ ← set_update i (mk_update (up_key_idx (l !!! i)) (up_valid (l !!! i)) (negb store));
      emit ScheduleNetKeys
  | (None, None) => if store then store_subnet idx else clear_net_key idx
  | (None, Some i) =>
      _ ← set_update i (mk_update (idx mod 4096) true (negb store));
      emit ScheduleNetKeys
  end.

Definition bt_mesh_subnet_store (idx : Z) : M st unit := update_subnet_settings idx true.

(** One entry of the queue, in the storage job. *)
Definition pending_one (i : nat) : M st unit :=
  l ← gets net_key_updates;
  let update := l !!! i in
  if negb (up_valid update) then mret () else
  _ ← set_update i (mk_update (up_key_idx update) false (up_clear update));
  if up_clear update then clear_net_key (up_key_idx update) else store_subnet (up_key_idx update).

Fixpoint pending_loop (n i : nat) : M st unit :=
  match n with
  | O => mret ()
  | S n => _ ← pending_one i; pending_loop n (S i)
  end.

Definition bt_mesh_subnet_pending_store : M st unit :=
  l ← gets net_key_updates; pending_loop (length l) 0.

(** ** Keys *)

Definition try_set {A} (m : M W A) (keys : bt_mesh_subnet_keys)
    (set : A -> bt_mesh_subnet_keys -> bt_mesh_subnet_keys)
    (next : bt_mesh_subnet_keys -> M W (bt_mesh_subnet_keys * Z)) : M W (bt_mesh_subnet_keys * Z) :=
  r ← attempt m;
  match r with
  | inr err => mret (keys, err)
  | inl a => next (set a keys)
  end.

Definition msg_cred_create (p key : list Z) : M W bt_mesh_net_cred :=
  '(n, e, v) ← bt_mesh_k2 key p; mret (mk_cred n e v).

Definition set_msg (c : bt_mesh_net_cred) (k : bt_mesh_subnet_keys) : bt_mesh_subnet_keys :=
  mk_subnet_keys (valid k) (net k) c (net_id k) (identity k) (beacon k) (priv_beacon k).
Definition set_net (n : bt_mesh_key) (k : bt_mesh_subnet_keys) : bt_mesh_subnet_keys :=
  mk_subnet_keys (valid k) n (msg k) (net_id k) (identity k) (beacon k) (priv_beacon k).
Definition set_net_id (n : list Z) (k : bt_mesh_subnet_keys) : bt_mesh_subnet_keys :=
  mk_subnet_keys (valid k) (net k) (msg k) n (identity k) (beacon k) (priv_beacon k).
Definition set_identity (n : bt_mesh_key) (k : bt_mesh_subnet_keys) : bt_mesh_subnet_keys :=
  mk_subnet_keys (valid k) (net k) (msg k) (net_id k) n (beacon k) (priv_beacon k).
Definition set_beacon (n : bt_mesh_key) (k : bt_mesh_subnet_keys) : bt_mesh_subnet_keys :=
  mk_subnet_keys (valid k) (net k) (msg k) (net_id k) (identity k) n (priv_beacon k).
Definition set_priv_beacon (n : bt_mesh_key) (k : bt_mesh_subnet_keys) : bt_mesh_subnet_keys :=
  mk_subnet_keys (valid k) (net k) (msg k) (net_id k) (identity k) (beacon k) n.
Definition set_valid (k : bt_mesh_subnet_keys) : bt_mesh_subnet_keys :=
  mk_subnet_keys true (net k) (msg k) (net_id k) (identity k) (beacon k) (priv_beacon k).

(** The keys as far as they were written, with the error or 0: first what
    follows the import of the NetKey. *)
Definition net_keys_derive (keys : bt_mesh_subnet_keys) (key : list Z)
  : M W (bt_mesh_subnet_keys * Z) :=
  try_set (bt_mesh_k3 key) keys set_net_id (fun keys =>
  (if GATT_PROXY then try_set (bt_mesh_identity_key key) keys set_identity
   else fun next => next keys) (fun keys =>
  try_set (bt_mesh_beacon_key key) keys set_beacon (fun keys =>
  (if PRIV_BEACONS then try_set (bt_mesh_private_beacon_key key) keys set_priv_beacon
   else fun next => next keys) (fun keys =>
  mret (set_valid keys, 0))))).

Definition net_keys_create (keys : bt_mesh_subnet_keys) (import : bool) (key : list Z)
  : M W (bt_mesh_subnet_keys * Z) :=
  try_set (msg_cred_create [0] key) keys set_msg (fun keys =>
  (if import then try_set (mc_key_import BT_MESH_KEY_TYPE_NET key) keys set_net
   else fun next => next keys) (fun keys =>
  net_keys_derive keys key)).

(** A call whose result is not looked at. *)
Definition ignore {A} (m : M W A) : M W unit := _ ← attempt m; mret ().

Definition subnet_keys_destroy (key : bt_mesh_subnet_keys) : M W unit :=
  _ ← ignore (mc_key_destroy (net key));
  _ ← ignore (mc_key_destroy (enc (msg key)));
  _ ← ignore (mc_key_destroy (privacy (msg key)));
  _ ← ignore (mc_key_destroy (beacon key));
  _ ← (if GATT_PROXY then ignore (mc_key_destroy (identity key)) else mret ());
  if V1d1 then ignore (mc_key_destroy (priv_beacon key)) else mret ().

(** ** Key refresh *)

Definition store_if_enabled (i : nat) : M st unit :=
  if SETTINGS then s ← gets id; bt_mesh_subnet_store (net_idx (sub_at i s)) else mret ().

(** The end of the procedure: the new keys replace the old ones. *)
Definition revoke (i : nat) : M st unit :=
  _ ← set_sub i (with_phase BT_MESH_KR_NORMAL);
  s ← gets id;
  _ ← crypto_call (subnet_keys_destroy (keys0 (sub_at i s)));
  _ ← set_sub i (fun sub => with_keys0 (keys1 sub) sub);
  _ ← set_sub i (fun sub => with_keys1 (invalidate (keys1 sub)) sub);
  s ← gets id;
  subnet_evt (sub_at i s) BT_MESH_KEY_REVOKED.

Definition key_refresh (i : nat) (new_phase : Z) : M st unit :=
  s ← gets id;
  if new_phase =? BT_MESH_KR_PHASE_1 then
    _ ← set_sub i (with_phase new_phase);
    _ ← subnet_evt (sub_at i s) BT_MESH_KEY_UPDATED;
    store_if_enabled i
  else if new_phase =? BT_MESH_KR_PHASE_2 then
    _ ← set_sub i (with_phase new_phase);
    _ ← subnet_evt (sub_at i s) BT_MESH_KEY_SWAPPED;
    store_if_enabled i
  else if (new_phase =? BT_MESH_KR_PHASE_3) && (kr_phase (sub_at i s) =? BT_MESH_KR_NORMAL) then mret ()
  else if (new_phase =? BT_MESH_KR_PHASE_3) || (new_phase =? BT_MESH_KR_NORMAL) then
    _ ← revoke i; store_if_enabled i
  else store_if_enabled i.

Definition bt_mesh_kr_update (i : nat) (kr_flag new_key : bool) : M st unit :=
  if negb new_key then mret () else
  s ← gets id;
  let phase := kr_phase (sub_at i s) in
  if phase =? BT_MESH_KR_PHASE_1 then
    key_refresh i (if kr_flag then BT_MESH_KR_PHASE_2 else BT_MESH_KR_PHASE_3)
  else if (phase =? BT_MESH_KR_PHASE_2) && negb kr_flag then key_refresh i BT_MESH_KR_PHASE_3
  else mret ().

(** ** Adding, updating and deleting subnets *)

Definition initial_node_id : Z :=
  if GATT_PROXY then BT_MESH_NODE_IDENTITY_STOPPED else BT_MESH_NODE_IDENTITY_NOT_SUPPORTED.

Definition bt_mesh_subnet_add (idx : Z) (key : list Z) : M st Z :=
  s ← gets id;
  match subnet_alloc idx s with
  | None => mret STATUS_INSUFF_RESOURCES
  | Some i =>
      let sub := sub_at i s in
      if net_idx sub =? idx then
        c ← crypto_call (mc_key_compare key (net (keys0 sub)));
        mret (if negb (c =? 0) then STATUS_IDX_ALREADY_STORED else STATUS_SUCCESS)
      else
        '(keys, err) ← crypto_call (net_keys_create (keys0 sub) true key);
        _ ← set_sub i (with_keys0 keys);
        if negb (err =? 0) then mret STATUS_UNSPECIFIED else
        _ ← set_sub i (with_idx idx BT_MESH_KR_NORMAL initial_node_id);
        s ← gets id;
        _ ← subnet_evt (sub_at i s) BT_MESH_KEY_ADDED;
        _ ← store_if_enabled i;
        mret STATUS_SUCCESS
  end.

(** What the phase and the keys say before a new key is made: a status to
    return, or [None] to go on. *)
Definition update_check (sub : bt_mesh_subnet) (key : list Z) : M st (option Z) :=
  if kr_phase sub =? BT_MESH_KR_NORMAL then
    c ← crypto_call (mc_key_compare key (net (keys0 sub)));
    mret (if c =? 0 then Some STATUS_IDX_ALREADY_STORED else None)
  else if kr_phase sub =? BT_MESH_KR_PHASE_1 then
    c ← crypto_call (mc_key_compare key (net (keys1 sub)));
    mret (Some (if c =? 0 then STATUS_SUCCESS else STATUS_CANNOT_UPDATE))
  else if (kr_phase sub =? BT_MESH_KR_PHASE_2) || (kr_phase sub =? BT_MESH_KR_PHASE_3) then
    mret (Some STATUS_CANNOT_UPDATE)
  else mret None.

Definition bt_mesh_subnet_update (idx : Z) (key : list Z) : M st Z :=
  s ← gets id;
  match bt_mesh_subnet_get idx s with
  | None => mret STATUS_INVALID_NETKEY
  | Some i =>
      let sub := sub_at i s in
      c ← update_check sub key;
      match c with
      | Some status => mret status
      | None =>
          '(keys, err) ← crypto_call (net_keys_create (keys1 sub) true key);
          _ ← set_sub i (with_keys1 keys);
          if negb (err =? 0) then mret STATUS_CANNOT_UPDATE else
          _ ← key_refresh i BT_MESH_KR_PHASE_1;
          mret STATUS_SUCCESS
      end
  end.

Definition subnet_del (i : nat) : M st unit :=
  s ← gets id;
  let sub := sub_at i s in
  _ ← (if SETTINGS then update_subnet_settings (net_idx sub) false else mret ());
  _ ← (if valid (keys0 sub) then crypto_call (subnet_keys_destroy (keys0 sub)) else mret ());
  _ ← (if valid (keys1 sub) then crypto_call (subnet_keys_destroy (keys1 sub)) else mret ());
  _ ← emit (LoopbackClear (net_idx sub));
  _ ← subnet_evt sub BT_MESH_KEY_DELETED;
  set_sub i (fun _ => free_subnet).

Definition bt_mesh_subnet_del (idx : Z) : M st Z :=
  s ← gets id;
  match bt_mesh_subnet_get idx s with
  | None => mret STATUS_INVALID_NETKEY
  | Some i => _ ← subnet_del i; mret STATUS_SUCCESS
  end.

Fixpoint reset_loop (n i : nat) : M st unit :=
  match n with
  | O => mret ()
  | S n =>
      s ← gets id;
      _ ← (if used (sub_at i s) then subnet_del i else mret ());
      reset_loop n (S i)
  end.

Definition bt_mesh_net_keys_reset : M st unit :=
  s ← gets id; reset_loop (length (subnets s)) 0.

(** ** Key refresh phase *)

(** [valid_transitions], from the normal phase, phase 1 and phase 2. *)
Definition valid_transitions : list Z :=
  [BIT BT_MESH_KR_PHASE_3; Z.lor (BIT BT_MESH_KR_PHASE_2) (BIT BT_MESH_KR_PHASE_3);
   BIT BT_MESH_KR_PHASE_3].

(** The status and [*phase]. *)
Definition bt_mesh_subnet_kr_phase_set (idx phase : Z) : M st (Z * Z) :=
  s ← gets id;
  match bt_mesh_subnet_get idx s with
  | None => mret (STATUS_INVALID_NETKEY, 0)
  | Some i =>
      let cur := kr_phase (sub_at i s) in
      if phase =? cur then mret (STATUS_SUCCESS, phase)
      else if (cur <? zlen valid_transitions) &&
              negb (Z.land (valid_transitions !!! Z.to_nat cur) (BIT phase) =? 0) then
        _ ← key_refresh i phase;
        s ← gets id;
        mret (STATUS_SUCCESS, kr_phase (sub_at i s))
      else mret (STATUS_CANNOT_UPDATE, cur)
  end.

Definition bt_mesh_subnet_kr_phase_get (idx : Z) (s : st) : Z * Z :=
  match bt_mesh_subnet_get idx s with
  | None => (STATUS_INVALID_NETKEY, BT_MESH_KR_NORMAL)
  | Some i => (STATUS_SUCCESS, kr_phase (sub_at i s))
  end.

(** ** Friendship credentials *)

Definition bt_mesh_friend_cred_create (lpn_addr frnd_addr lpn_counter frnd_counter : Z)
    (key : bt_mesh_key) : M st bt_mesh_net_cred :=
  let p := [0x01] ++ sys_put_be16 lpn_addr ++ sys_put_be16 frnd_addr
             ++ sys_put_be16 lpn_counter ++ sys_put_be16 frnd_counter in
  raw_key ← crypto_call (mc_key_export key);
  crypto_call (msg_cred_create p raw_key).

Definition bt_mesh_friend_cred_destroy (cred : bt_mesh_net_cred) : M st unit :=
  _ ← crypto_call (ignore (mc_key_destroy (enc cred)));
  crypto_call (ignore (mc_key_destroy (privacy cred))).

(** ** Node identity *)

(** [node_id_start] and [private_node_id_start] through [identity_enabled]; the
    time stamp is not modelled. *)
Definition bt_mesh_proxy_identity_start (i : nat) (private : bool) : M st unit :=
  set_sub i (fun sub => with_identity BT_MESH_NODE_IDENTITY_RUNNING
                          (if PRIV_BEACONS then private else priv_node_id sub) sub).

Definition bt_mesh_proxy_identity_stop (i : nat) : M st unit :=
  set_sub i (fun sub => with_identity BT_MESH_NODE_IDENTITY_STOPPED (priv_node_id sub) sub).

(** Stops the private node identities, in [bt_mesh_subnet_node_id_set]. *)
Fixpoint stop_private_loop (n i : nat) : M st unit :=
  match n with
  | O => mret ()
  | S n =>
      s ← gets id;
      let sub := sub_at i s in
      _ ← (if used sub && (node_id sub =? BT_MESH_FEATURE_ENABLED) && priv_node_id sub
           then bt_mesh_proxy_identity_stop i else mret ());
      stop_private_loop n (S i)
  end.

Definition bt_mesh_subnet_node_id_set (idx node_id : Z) : M st Z :=
  if node_id =? BT_MESH_FEATURE_NOT_SUPPORTED then mret STATUS_CANNOT_SET else
  s ← gets id;
  match bt_mesh_subnet_get idx s with
  | None => mret STATUS_INVALID_NETKEY
  | Some i =>
      if negb GATT_PROXY then mret STATUS_FEAT_NOT_SUPP else
      _ ← (if PRIV_BEACONS then stop_private_loop (length (subnets s)) 0 else mret ());
      _ ← (if negb (node_id =? 0) then bt_mesh_proxy_identity_start i false
           else bt_mesh_proxy_identity_stop i);
      _ ← emit GattUpdate;
      mret STATUS_SUCCESS
  end.

(** The status and [*node_id]: [node_id &= !priv_beacon_ctx.node_id]. *)
Definition bt_mesh_subnet_node_id_get (idx : Z) (s : st) : Z * Z :=
  match bt_mesh_subnet_get idx s with
  | None => (STATUS_INVALID_NETKEY, 0)
  | Some i =>
      let sub := sub_at i s in
      (STATUS_SUCCESS,
       if PRIV_BEACONS then Z.land (node_id sub) (Z.b2z (negb (priv_node_id sub))) else node_id sub)
  end.

(** A subnet that advertises with its public node identity. *)
Definition public_node_id (sub : bt_mesh_subnet) : bool :=
  used sub && (node_id sub =? BT_MESH_FEATURE_ENABLED) && negb (priv_node_id sub).

Definition bt_mesh_subnet_priv_node_id_set (idx priv_node_id : Z) : M st Z :=
  if priv_node_id =? BT_MESH_FEATURE_NOT_SUPPORTED then mret STATUS_CANNOT_SET else
  s ← gets id;
  match bt_mesh_subnet_get idx s with
  | None => mret STATUS_INVALID_NETKEY
  | Some i =>
      if negb GATT_PROXY || negb PRIV_BEACONS then mret STATUS_FEAT_NOT_SUPP
      else if existsb public_node_id (subnets s) then mret STATUS_CANNOT_SET
      else
        _ ← (if negb (priv_node_id =? 0) then bt_mesh_proxy_identity_start i true
             else bt_mesh_proxy_identity_stop i);
        _ ← emit GattUpdate;
        mret STATUS_SUCCESS
  end.

Definition bt_mesh_subnet_priv_node_id_get (idx : Z) (s : st) : Z * Z :=
  match bt_mesh_subnet_get idx s with
  | None => (STATUS_INVALID_NETKEY, 0)
  | Some i =>
      let sub := sub_at i s in
      (STATUS_SUCCESS,
       if GATT_PROXY && PRIV_BEACONS then
         if (node_id sub =? BT_MESH_FEATURE_ENABLED) && priv_node_id sub then node_id sub
         else BT_MESH_FEATURE_DISABLED
       else BT_MESH_FEATURE_NOT_SUPPORTED)
  end.

(** [enum bt_mesh_subnets_node_id_state] *)
Inductive bt_mesh_subnets_node_id_state :=
| BT_MESH_SUBNETS_NODE_ID_STATE_NONE
| BT_MESH_SUBNETS_NODE_ID_STATE_ENABLED
| BT_MESH_SUBNETS_NODE_ID_STATE_ENABLED_PRIVATE.

Definition bt_mesh_subnets_node_id_state_get (s : st) : bt_mesh_subnets_node_id_state :=
  match List.find (fun sub => negb (node_id sub =? 0)) (subnets s) with
  | None => BT_MESH_SUBNETS_NODE_ID_STATE_NONE
  | Some sub =>
      if PRIV_BEACONS && priv_node_id sub then BT_MESH_SUBNETS_NODE_ID_STATE_ENABLED_PRIVATE
      else BT_MESH_SUBNETS_NODE_ID_STATE_ENABLED
  end.

(** ** Loading from the storage *)

Definition keys_of (j : bool) (sub : bt_mesh_subnet) : bt_mesh_subnet_keys :=
  if j then keys1 sub else keys0 sub.
Definition with_keys (j : bool) (k : bt_mesh_subnet_keys) (sub : bt_mesh_subnet) : bt_mesh_subnet :=
  if j then with_keys1 k sub else with_keys0 k sub.

(** Returns 0 or the error, as the caller tests it. *)
Definition subnet_key_set (i : nat) (key_idx : bool) (key : bt_mesh_key) : M st Z :=
  r ← attempt (crypto_call (mc_key_export key));
  match r with
  | inr err => mret err
  | inl raw_key =>
      k ← crypto_call (mc_key_assign key);
      _ ← set_sub i (fun sub => with_keys key_idx (set_net k (keys_of key_idx sub)) sub);
      s ← gets id;
      '(keys, err) ← crypto_call (net_keys_create (keys_of key_idx (sub_at i s)) false raw_key);
      _ ← set_sub i (with_keys key_idx keys);
      mret err
  end.

(** [if (key != NULL) err = subnet_key_set(...)] *)
Definition key_set_opt (i : nat) (key_idx : bool) (key : option bt_mesh_key) : M st Z :=
  match key with Some k => subnet_key_set i key_idx k | None => mret 0 end.

Definition bt_mesh_subnet_set (idx phase : Z) (old_key new_key : option bt_mesh_key) : M st Z :=
  s ← gets id;
  match subnet_alloc idx s with
  | None => mret (- ENOMEM)
  | Some i =>
      if net_idx (sub_at i s) =? idx then mret (- EALREADY) else
      err ← key_set_opt i false old_key;
      if negb (err =? 0) then mret err else
      err ← key_set_opt i true new_key;
      if negb (err =? 0) then mret err else
      _ ← set_sub i (with_idx idx phase initial_node_id);
      _ ← emit (BeaconUpdate idx);
      mret 0
  end.

(** [name] is the number the settings path ends with ([strtol]), [val] what
    [bt_mesh_settings_set] delivers. *)
Definition net_key_set (name : option Z) (val : net_key_val + Z) : M st Z :=
  match name with
  | None => mret (- ENOENT)
  | Some n =>
      match val with
      | inr err => mret err
      | inl key =>
          bt_mesh_subnet_set (u16 n) (kv_kr_phase key) (Some (kv_val0 key))
            (if negb (kv_kr_phase key =? BT_MESH_KR_NORMAL) then Some (kv_val1 key) else None)
      end
  end.

(** ** Finding the credentials of a received PDU *)

Section Find.

(** The callback, which tries to decrypt and may change what it is given ([C]). *)
Context {C : Type} (cb : bt_mesh_net_cred -> C -> bool * C).

(** What a match leaves in [rx]: the slot of the subnet, [new_key],
    [friend_cred] and [ctx.net_idx]. *)
Record rx_match := mk_match {
  m_sub : nat;
  m_new_key : bool;
  m_friend_cred : bool;
  m_net_idx : Z
}.

(** [for (j = 0; j < 2; j++)] over the credentials of slot [i]. *)
Definition try_keys (i : nat) (sub : bt_mesh_subnet) (c0 c1 : bt_mesh_net_cred) (friend_cred : bool)
    (c : C) : option rx_match * C :=
  let try1 c :=
    if negb (valid (keys1 sub)) then (None, c)
    else let '(ok, c) := cb c1 c in
         ((if ok then Some (mk_match i true friend_cred (net_idx sub)) else None), c) in
  if negb (valid (keys0 sub)) then try1 c
  else let '(ok, c) := cb c0 c in
       if ok then (Some (mk_match i false friend_cred (net_idx sub)), c) else try1 c.

(** A friendship: the slot of its subnet, if any, and its two credentials. *)
Definition friend_slot : Type := option nat * (bt_mesh_net_cred * bt_mesh_net_cred).

Fixpoint try_friends (subs : list bt_mesh_subnet) (l : list friend_slot) (c : C)
  : option rx_match * C :=
  match l with
  | [] => (None, c)
  | (None, _) :: l => try_friends subs l c
  | (Some i, (c0, c1)) :: l =>
      match try_keys i (subs !!! i) c0 c1 true c with
      | (Some m, c) => (Some m, c)
      | (None, c) => try_friends subs l c
      end
  end.

Fixpoint try_subnets (l : list bt_mesh_subnet) (i : nat) (c : C) : option rx_match * C :=
  match l with
  | [] => (None, c)
  | sub :: l =>
      if negb (used sub) then try_subnets l (S i) c
      else match try_keys i sub (msg (keys0 sub)) (msg (keys1 sub)) false c with
           | (Some m, c) => (Some m, c)
           | (None, c) => try_subnets l (S i) c
           end
  end.

(** [lpn] is the friendship of a low power node that waits for an update;
    [friends] is empty when the node is not a friend. *)
Definition bt_mesh_net_cred_find (lpn : option (nat * (bt_mesh_net_cred * bt_mesh_net_cred)))
    (friends : list friend_slot) (s : st) (c : C) : option rx_match * C :=
  match lpn with
  | Some (i, (c0, c1)) => try_keys i (sub_at i s) c0 c1 true c
  | None =>
      match try_friends (subnets s) friends c with
      | (Some m, c) => (Some m, c)
      | (None, c) => try_subnets (subnets s) 0 c
      end
  end.

End Find.

End Operations.

(** * Slots *)

Lemma find_sub_spec p l : forall i,
  match find_sub p l i with
  | Some j => exists k sub, j = (i + k)%nat /\ l !! k = Some sub /\ p sub = true /\
      forall k' sub', (k' < k)%nat -> l !! k' = Some sub' -> p sub' = false
  | None => forall k sub, l !! k = Some sub -> p sub = false
  end.
Proof.
  induction l as [|x l IH]; intros i; simpl; [done|].
  destruct (p x) eqn:Hx.
  - exists O, x. split_and!; [lia|done|done|lia].
  - specialize (IH (S i)). destruct (find_sub p l (S i)) as [j|].
    + destruct IH as (k & sub & -> & Hk & Hp & Hlow). exists (S k), sub.
      split_and!; [lia|done|done|]. intros [|k'] sub' Hk' Hs; simpl in *; [by simplify_eq|].
      apply (Hlow k'); [lia|done].
    + intros [|k] sub Hs; simpl in *; [by simplify_eq|]. by apply (IH k).
Qed.

(** No two used slots have the same index. *)
Definition idx_unique (l : list bt_mesh_subnet) : Prop :=
  forall i j a b, l !! i = Some a -> l !! j = Some b -> used a = true ->
    net_idx a = net_idx b -> i = j.

(** The slot of a NetKey index. *)
Lemma subnet_get_slot {W} (s : subnet_state W) k :
  k <> BT_MESH_KEY_UNUSED -> idx_unique (subnets s) ->
  match bt_mesh_subnet_get k s with
  | Some i => exists sub, subnets s !! i = Some sub /\ sub_at i s = sub /\ net_idx sub = k /\ used sub = true
  | None => forall i sub, subnets s !! i = Some sub -> net_idx sub <> k
  end.
Proof.
  intros Hk Hu. unfold bt_mesh_subnet_get.
  pose proof (find_sub_spec (fun sub => net_idx sub =? k) (subnets s) 0) as H.
  destruct (find_sub _ _ _) as [i|].
  - destruct H as (i' & sub & -> & Hi & Hp & _). apply Z.eqb_eq in Hp. exists sub.
    split_and!; [done| |done|].
    + unfold sub_at. by apply list_lookup_total_correct.
    + unfold used. rewrite Hp. apply negb_true_iff. by apply Z.eqb_neq.
  - intros i sub Hi. specialize (H i sub Hi). by apply Z.eqb_neq in H.
Qed.

(** The slot [i] is the one the look-up of its index finds. *)
Lemma subnet_get_at {W} (s : subnet_state W) i sub :
  idx_unique (subnets s) -> subnets s !! i = Some sub -> used sub = true ->
  bt_mesh_subnet_get (net_idx sub) s = Some i.
Proof.
  intros Hu Hi Hused.
  assert (net_idx sub <> BT_MESH_KEY_UNUSED) as Hne
    by (unfold used in Hused; by apply negb_true_iff, Z.eqb_neq in Hused).
  pose proof (subnet_get_slot s (net_idx sub) Hne Hu) as H.
  destruct (bt_mesh_subnet_get (net_idx sub) s) as [j|].
  - destruct H as (b & Hj & _ & Hb & Hbu). f_equal. by eapply (Hu j i b sub).
  - by destruct (H i sub Hi).
Qed.

(** The scan for a slot: the slot of the index, else the first free one. *)
Lemma alloc_scan_spec idx l : forall i acc,
  match alloc_scan idx l i acc with
  | Some j =>
      (exists k sub, j = (i + k)%nat /\ l !! k = Some sub /\ net_idx sub = idx) \/
      ((forall k sub, l !! k = Some sub -> net_idx sub <> idx) /\
       (acc = Some j \/ acc = None /\ exists k sub, j = (i + k)%nat /\ l !! k = Some sub /\
          used sub = false))
  | None => acc = None /\ forall k sub, l !! k = Some sub -> net_idx sub <> idx /\ used sub = true
  end.
Proof.
  induction l as [|x l IH]; intros i acc; simpl.
  { destruct acc; [by right; split; [|left]|done]. }
  destruct (Z.eqb_spec (net_idx x) idx) as [Hx|Hx].
  { left. exists O, x. split_and!; [lia|done|done]. }
  specialize (IH (S i) (match acc with None => if net_idx x =? BT_MESH_KEY_UNUSED then Some i else None
                                     | Some j => Some j end)).
  assert (used x = negb (net_idx x =? BT_MESH_KEY_UNUSED)) as Hux by done.
  destruct (alloc_scan _ l (S i) _) as [j|].
  - destruct IH as [(k & sub & -> & Hk & Hs)|[Hnone Hacc]].
    { left. exists (S k), sub. split_and!; [lia|done|done]. }
    right. split.
    { intros [|k] sub Hk; simpl in *; [by simplify_eq|by apply (Hnone k)]. }
    destruct acc as [a|]; [destruct Hacc as [?|[? _]]; [by left|done]|right; split; [done|]].
    destruct (net_idx x =? BT_MESH_KEY_UNUSED).
    + destruct Hacc as [[= ->]|[? _]]; [|done]. exists O, x. split_and!; [lia|done|done].
    + destruct Hacc as [?|(_ & k & sub & -> & Hk & Hf)]; [done|].
      exists (S k), sub. split_and!; [lia|done|done].
  - destruct IH as [Hacc Hall].
    destruct acc as [a|]; [done|]. split; [done|].
    destruct (net_idx x =? BT_MESH_KEY_UNUSED); [done|].
    intros [|k] sub Hk; simpl in *; [by simplify_eq|by apply (Hall k)].
Qed.

(** * The storage follows the subnets *)

(** What the loader makes of a stored record: it ignores the second key unless
    a key refresh is under way. *)
Definition effective (v : net_key_val) : Z * bt_mesh_key * option bt_mesh_key :=
  (kv_kr_phase v, kv_val0 v,
   if negb (kv_kr_phase v =? BT_MESH_KR_NORMAL) then Some (kv_val1 v) else None).

Definition sub_val (sub : bt_mesh_subnet) : net_key_val :=
  mk_net_key_val (kr_phase sub mod 128) (net (keys0 sub)) (net (keys1 sub)).

(** The storage after the calls [l]. *)
Definition apply_ext (d : gmap Z net_key_val) (e : ext_op) : gmap Z net_key_val :=
  match e with
  | SaveNetKey k v => <[k := v]> d
  | DeleteNetKey k => delete k d
  | _ => d
  end.
Definition storage (d : gmap Z net_key_val) (l : list ext_op) : gmap Z net_key_val :=
  fold_left apply_ext l d.

Section Storage.

Context {W : Type}.
Notation st := (subnet_state W).

(** What should be in the storage for index [k]. *)
Definition disk (s : st) (k : Z) : option (Z * bt_mesh_key * option bt_mesh_key) :=
  (fun i => effective (sub_val (sub_at i s))) <$> bt_mesh_subnet_get k s.

Definition is_key_idx (k : Z) : Prop := 0 <= k <= 0xfff.

Definition queued (l : list net_key_update) (k : Z) (c : bool) : Prop :=
  exists i u, l !! i = Some u /\ up_valid u = true /\ up_key_idx u = k /\ up_clear u = c.

Definition queue_unique (l : list net_key_update) : Prop :=
  forall i j u v, l !! i = Some u -> l !! j = Some v -> up_valid u = true -> up_valid v = true ->
    up_key_idx u = up_key_idx v -> i = j.

(** The queue and the storage together hold [v] for index [k]: a queued record
    says whether it is to be cleared, else it is in the storage. *)
Definition recorded (d : gmap Z net_key_val) (s : st) (k : Z)
    (v : option (Z * bt_mesh_key * option bt_mesh_key)) : Prop :=
  (forall c, queued (net_key_updates s) k c -> (c = true <-> v = None)) /\
  ((forall c, ~ queued (net_key_updates s) k c) -> effective <$> storage d (ext s) !! k = v).

Record queue_ok (l : list net_key_update) : Prop := {
  qo_unique : queue_unique l;
  qo_range : forall k c, queued l k c -> is_key_idx k
}.

Record slots_ok (l : list bt_mesh_subnet) : Prop := {
  so_unique : idx_unique l;
  so_range : forall i sub, l !! i = Some sub -> used sub = true -> is_key_idx (net_idx sub);
  so_phase : forall i sub, l !! i = Some sub -> used sub = true -> 0 <= kr_phase sub <= 2
}.

(** Every subnet, and the absence of the others, is recorded. *)
Record coherent (d : gmap Z net_key_val) (s : st) : Prop := {
  co_slots : slots_ok (subnets s);
  co_queue : queue_ok (net_key_updates s);
  co_recorded : forall k, is_key_idx k -> recorded d s k (disk s k)
}.

Lemma update_find_spec k l :
  let r := net_key_update_find k l in
  match r.1 with
  | Some i => exists u, l !! i = Some u /\ up_valid u = true /\ up_key_idx u = k
  | None => forall c, ~ queued l k c
  end /\
  match r.2 with
  | Some i => exists u, l !! i = Some u /\ up_valid u = false
  | None => forall i u, l !! i = Some u -> up_valid u = true
  end.
Proof.
  set (I := fun (j : nat) (r : option nat * option nat) =>
    match r.1 with
    | Some i => exists u, l !! i = Some u /\ up_valid u = true /\ up_key_idx u = k
    | None => forall i u, (i < j)%nat -> l !! i = Some u -> up_valid u = true -> up_key_idx u <> k
    end /\
    match r.2 with
    | Some i => exists u, l !! i = Some u /\ up_valid u = false
    | None => forall i u, (i < j)%nat -> l !! i = Some u -> up_valid u = true
    end).
  assert (I (0 + length l)%nat (net_key_update_find k l)) as HI.
  { unfold net_key_update_find. apply (for_to_inv I); [split; simpl; intros; lia|].
    intros j [m f] Hj [Hm Hf]. simpl in Hm, Hf. unfold update_find_body.
    destruct (lookup_lt_is_Some_2 l j) as [u Hu]; [lia|].
    rewrite (list_lookup_total_correct _ _ _ Hu). unfold I.
    assert (forall (P : net_key_update -> Prop), P u ->
      (forall i v, (i < j)%nat -> l !! i = Some v -> P v) ->
      forall i v, (i < S j)%nat -> l !! i = Some v -> P v) as Hext.
    { intros P HPu HP i v Hi Hv. destruct (decide (i = j)) as [->|]; [by simplify_eq|].
      apply (HP i); [lia|done]. }
    destruct (up_valid u) eqn:Hvu; cbn [negb fst snd].
    - destruct (Z.eqb_spec (up_key_idx u) k) as [Hk|Hk]; cbn [fst snd]; split.
      + eauto.
      + destruct f; [done|]. by apply (Hext (fun v => up_valid v = true)).
      + destruct m; [done|]. by apply (Hext (fun v => up_valid v = true -> up_key_idx v <> k)).
      + destruct f; [done|]. by apply (Hext (fun v => up_valid v = true)).
    - split; [|eauto]. destruct m; [done|].
      apply (Hext (fun v => up_valid v = true -> up_key_idx v <> k)); [by rewrite Hvu|done]. }
  destruct HI as [Hm Hf]. intros r. fold r in Hm, Hf. split.
  - destruct r.1; [done|]. intros c (i & u & Hu & Hv & Hk & _).
    apply (Hm i u); [|done..]. simpl. by apply lookup_lt_Some in Hu.
  - destruct r.2; [done|]. intros i u Hu. apply (Hf i u); [|done].
    simpl. by apply lookup_lt_Some in Hu.
Qed.

(** Entering [(k, c)] in the queue: over the entry of [k], or in a free slot
    when [k] has none. *)
Lemma queue_insert l i u0 k c :
  queue_unique l -> l !! i = Some u0 ->
  (up_valid u0 = true /\ up_key_idx u0 = k) \/ (up_valid u0 = false /\ forall c, ~ queued l k c) ->
  let l' := <[i := mk_update k true c]> l in
  queue_unique l' /\ forall k' c', queued l' k' c' <-> (if decide (k' = k) then c' = c else queued l k' c').
Proof.
  intros Hu Hi Hc l'.
  assert (l' !! i = Some (mk_update k true c)) as Hi'
    by (apply list_lookup_insert_eq; by apply lookup_lt_Some in Hi).
  assert (forall j v, j <> i -> l' !! j = Some v <-> l !! j = Some v) as Hother
    by (intros j v Hj; unfold l'; by rewrite list_lookup_insert_ne by done).
  assert (forall j v, j <> i -> l !! j = Some v -> up_valid v = true -> up_key_idx v <> k) as Hno.
  { intros j v Hj Hv Hval Hk. destruct Hc as [[Hv0 Hk0]|[_ Hn]].
    - apply Hj. by eapply (Hu j i v u0); try done; congruence.
    - apply (Hn (up_clear v)). by exists j, v. }
  split.
  - intros a b x y Ha Hb Hx Hy Hk. destruct (decide (a = i)) as [->|Hai], (decide (b = i)) as [->|Hbi].
    + done.
    + rewrite Hi' in Ha. injection Ha as <-. apply Hother in Hb; [|done].
      by destruct (Hno b y Hbi Hb Hy).
    + rewrite Hi' in Hb. injection Hb as <-. apply Hother in Ha; [|done].
      by destruct (Hno a x Hai Ha Hx).
    + apply Hother in Ha; [|done]. apply Hother in Hb; [|done]. by eapply (Hu a b x y).
  - intros k' c'. destruct (decide (k' = k)) as [->|Hne]; split.
    + intros (j & v & Hj & Hv & Hk & <-). destruct (decide (j = i)) as [->|Hji].
      * rewrite Hi' in Hj. by injection Hj as <-.
      * apply Hother in Hj; [|done]. by destruct (Hno j v Hji Hj Hv).
    + intros ->. by exists i, (mk_update k true c).
    + intros (j & v & Hj & Hv & Hk & Hcl). destruct (decide (j = i)) as [->|Hji].
      * rewrite Hi' in Hj. injection Hj as <-. by destruct Hne.
      * apply Hother in Hj; [|done]. by exists j, v.
    + intros (j & v & Hj & Hv & Hk & Hcl). destruct (decide (j = i)) as [->|Hji].
      * rewrite Hi in Hj. injection Hj as <-. destruct Hc as [[_ Hk0]|[Hv0 _]]; congruence.
      * exists j, v. by rewrite Hother.
Qed.

Lemma key_idx_used k : is_key_idx k -> k <> BT_MESH_KEY_UNUSED.
Proof. unfold is_key_idx, BT_MESH_KEY_UNUSED. lia. Qed.

Lemma storage_snoc d l e : storage d (l ++ [e]) = apply_ext (storage d l) e.
Proof. unfold storage. by rewrite fold_left_app. Qed.

(** Recording a change of subnet [k]: queued, or written when the queue is
    full.  [store] says that the subnet is there. *)
Lemma update_settings_spec k store (s s' : st) r d :
  is_key_idx k -> queue_ok (net_key_updates s) -> (store = true -> disk s k <> None) ->
  update_subnet_settings k store s = (r, s') ->
  r = Ok () /\ subnets s' = subnets s /\ crypto s' = crypto s /\ queue_ok (net_key_updates s') /\
  (forall k' v, k' <> k -> recorded d s k' v -> recorded d s' k' v) /\
  recorded d s' k (if store then disk s k else None).
Proof.
  intros Hk [Hq Hqr] Hst. unfold update_subnet_settings, mbind, M_bind, gets. cbn [id].
  pose proof (update_find_spec k (net_key_updates s)) as [Hm Hf].
  destruct (net_key_update_find k (net_key_updates s)) as [m f]. cbn [fst snd] in Hm, Hf.
  assert (forall i u c, net_key_updates s !! i = Some u ->
    (up_valid u = true /\ up_key_idx u = k) \/
      (up_valid u = false /\ forall c, ~ queued (net_key_updates s) k c) ->
    let s1 := emit_op ScheduleNetKeys
                (set_updates (<[i := mk_update k true c]> (net_key_updates s)) s) in
    (c = true <-> (if store then disk s k else None) = None) ->
    queue_ok (net_key_updates s1) /\
    (forall k' v, k' <> k -> recorded d s k' v -> recorded d s1 k' v) /\
    recorded d s1 k (if store then disk s k else None)) as Hqueue.
  { intros i u c Hi Hc s1 Hcl.
    destruct (queue_insert _ _ _ k c Hq Hi Hc) as [Hq' Hqd]. split_and!.
    - split; [done|]. intros k' c' Hin. apply Hqd in Hin. destruct (decide (k' = k)) as [->|];
        [done|by eapply Hqr].
    - intros k' v Hne [H1 H2]. unfold recorded, s1. simpl. rewrite storage_snoc. simpl.
      split; [intros c' Hin|intros Hn].
      + apply Hqd in Hin. rewrite decide_False in Hin by done. by apply H1.
      + apply H2. intros c' Hin. apply (Hn c'), Hqd. by rewrite decide_False.
    - unfold recorded, s1. simpl. split.
      + intros c' Hin. apply Hqd in Hin. rewrite decide_True in Hin by done. by subst.
      + intros Hn. destruct (Hn c). apply Hqd. by rewrite decide_True. }
  assert (negb store = true <-> (if store then disk s k else None) = None) as Hflag.
  { destruct store; [|done]. split; [done|]. intros Hd. by destruct Hst. }
  destruct m as [i|]; [|destruct f as [i|]].
  - destruct Hm as (u & Hi & Hv & Hu). rewrite (list_lookup_total_correct _ _ _ Hi), Hv, Hu.
    intros [= <- <-]. destruct (Hqueue i u (negb store) Hi) as (H1 & H2 & H3);
      [auto|done|by split_and!].
  - destruct Hf as (u & Hi & Hv). intros [= <- <-].
    rewrite Z.mod_small by (unfold is_key_idx in Hk; lia).
    destruct (Hqueue i u (negb store) Hi) as (H1 & H2 & H3);
      [auto|done|by split_and!].
  - destruct store.
    + unfold store_subnet, mbind, M_bind, gets. cbn [id]. specialize (Hst eq_refl).
      unfold disk in *. destruct (bt_mesh_subnet_get k s) as [i|]; [|done].
      intros [= <- <-]. split_and!; try done.
      * intros k' v Hne [H1 H2]. unfold recorded. simpl. rewrite storage_snoc. simpl.
        split; [done|]. intros Hn. rewrite lookup_insert_ne by done. by apply H2.
      * unfold recorded. simpl. rewrite storage_snoc. simpl. rewrite lookup_insert_eq.
        split; [|done]. intros c Hin. by destruct (Hm c).
    + intros [= <- <-]. split_and!; try done.
      * intros k' v Hne [H1 H2]. unfold recorded. simpl. rewrite storage_snoc. simpl.
        split; [done|]. intros Hn. rewrite lookup_delete_ne by done. by apply H2.
      * unfold recorded. simpl. rewrite storage_snoc. simpl. rewrite lookup_delete_eq.
        split; [|done]. intros c Hin. by destruct (Hm c).
Qed.

End Storage.

(** ** Slots and records *)

Section Slots.

Context {W : Type}.
Notation st := (subnet_state W).

Lemma disk_Some (s : st) k v :
  idx_unique (subnets s) -> k <> BT_MESH_KEY_UNUSED ->
  disk s k = Some v <->
  exists i sub, subnets s !! i = Some sub /\ net_idx sub = k /\ v = effective (sub_val sub).
Proof.
  intros Hu Hk. unfold disk. pose proof (subnet_get_slot s k Hk Hu) as H.
  destruct (bt_mesh_subnet_get k s) as [i|] eqn:Hg; simpl; split.
  - destruct H as (sub & Hi & Hs & Hkk & _). intros [= <-]. exists i, sub. by rewrite Hs.
  - destruct H as (sub & Hi & Hs & Hkk & Hus). intros (j & sub' & Hj & Hk' & ->).
    assert (i = j) as <- by (eapply (Hu i j sub sub'); congruence). rewrite Hs. congruence.
  - done.
  - intros (j & sub & Hj & Hk' & _). by destruct (H j sub Hj).
Qed.

(** Slot [i] belongs to subnet [k]. *)
Definition at_slot (i : nat) (k : Z) (s : st) : Prop :=
  exists sub, subnets s !! i = Some sub /\ net_idx sub = k.

(** Coherent but for subnet [k], which is in slot [i]. *)
Record open_at (d : gmap Z net_key_val) (i : nat) (k : Z) (s : st) : Prop := {
  oa_slots : slots_ok (subnets s);
  oa_queue : queue_ok (net_key_updates s);
  oa_recorded : forall k', is_key_idx k' -> k' <> k -> recorded d s k' (disk s k');
  oa_key : is_key_idx k;
  oa_slot : at_slot i k s
}.

Lemma coherent_open d s i sub :
  coherent d s -> subnets s !! i = Some sub -> used sub = true -> open_at d i (net_idx sub) s.
Proof.
  intros [Hs Hq Hr] Hi Hu. split; [done|done|auto|by eapply so_range|by exists sub].
Qed.

(** States that differ in what the records do not see. *)
Lemma recorded_frame d (s s' : st) k v :
  net_key_updates s' = net_key_updates s -> storage d (ext s') = storage d (ext s) ->
  recorded d s k v -> recorded d s' k v.
Proof. unfold recorded. by intros -> ->. Qed.

Lemma disk_frame (s s' : st) k : subnets s' = subnets s -> disk s' k = disk s k.
Proof. unfold disk, bt_mesh_subnet_get, sub_at. by intros ->. Qed.

Lemma open_frame d i k (s s' : st) :
  subnets s' = subnets s -> net_key_updates s' = net_key_updates s ->
  storage d (ext s') = storage d (ext s) -> open_at d i k s -> open_at d i k s'.
Proof.
  intros Hs Hu Hx [H1 H2 H3 H4 (sub & H5 & H6)].
  split; rewrite ?Hs, ?Hu; [done|done| |done|exists sub; by rewrite Hs].
  intros k' Hk' Hne. rewrite (disk_frame _ _ _ Hs). by eapply recorded_frame, H3.
Qed.

Lemma coherent_frame d (s s' : st) :
  subnets s' = subnets s -> net_key_updates s' = net_key_updates s ->
  storage d (ext s') = storage d (ext s) -> coherent d s -> coherent d s'.
Proof.
  intros Hs Hu Hx [H1 H2 H3]. split; rewrite ?Hs, ?Hu; [done|done|].
  intros k Hk. rewrite (disk_frame _ _ _ Hs). by eapply recorded_frame, H3.
Qed.

(** A slot is replaced by one of the same index, or a free slot gets a new one. *)
Lemma slots_ok_insert l i old new :
  slots_ok l -> l !! i = Some old ->
  net_idx new = net_idx old \/
    (is_key_idx (net_idx new) /\ forall j sub, l !! j = Some sub -> net_idx sub <> net_idx new) \/
    used new = false ->
  (used new = true -> 0 <= kr_phase new <= 2) ->
  slots_ok (<[i := new]> l).
Proof.
  intros [Hu Hr Hp] Hi Hn Hpn.
  assert (<[i := new]> l !! i = Some new) as Hi'
    by (apply list_lookup_insert_eq; by apply lookup_lt_Some in Hi).
  assert (forall j, j <> i -> <[i := new]> l !! j = l !! j) as Ho
    by (intros; by rewrite list_lookup_insert_ne).
  split.
  - intros a b x y Ha Hb Hx Hxy.
    destruct (decide (a = i)) as [->|Hai], (decide (b = i)) as [->|Hbi]; [done| | |].
    + rewrite Hi' in Ha. injection Ha as <-. rewrite Ho in Hb by done.
      destruct Hn as [Hn|[[_ Hn]|Hn]]; [|by destruct (Hn b y)|congruence].
      eapply (Hu i b old y); try done; [|congruence]. unfold used in *. by rewrite <-Hn.
    + rewrite Hi' in Hb. injection Hb as <-. rewrite Ho in Ha by done.
      destruct Hn as [Hn|[[_ Hn]|Hn]]; [|by destruct (Hn a x)|].
      * eapply (Hu a i x old); try done. congruence.
      * unfold used in *. rewrite Hxy in Hx. congruence.
    + rewrite Ho in Ha, Hb by done. by eapply (Hu a b x y).
  - intros j sub Hj Hus. destruct (decide (j = i)) as [->|Hji].
    + rewrite Hi' in Hj. injection Hj as <-.
      destruct Hn as [Hn|[[? _]|Hn]]; [|done|congruence].
      rewrite Hn. apply (Hr i old Hi). unfold used in *. by rewrite <-Hn.
    + rewrite Ho in Hj by done. by apply (Hr j sub).
  - intros j sub Hj Hus. destruct (decide (j = i)) as [->|Hji].
    + rewrite Hi' in Hj. injection Hj as <-. by apply Hpn.
    + rewrite Ho in Hj by done. by apply (Hp j sub).
Qed.

(** What the other subnets have in the storage is not affected. *)
Lemma disk_insert (s s' : st) i old new k :
  slots_ok (subnets s) -> subnets s !! i = Some old -> subnets s' = <[i := new]> (subnets s) ->
  slots_ok (subnets s') -> is_key_idx k -> net_idx old <> k -> net_idx new <> k ->
  disk s' k = disk s k.
Proof.
  intros Hs Hi Hs' Hok Hk Ho Hn. pose proof (key_idx_used k Hk) as Hku.
  apply option_eq. intros v. rewrite !disk_Some by (done || by apply so_unique). rewrite Hs'.
  split; intros (j & sub & Hj & Hsk & ->); destruct (decide (j = i)) as [->|Hji].
  - rewrite list_lookup_insert_eq in Hj by (by apply lookup_lt_Some in Hi). congruence.
  - rewrite list_lookup_insert_ne in Hj by done. by exists j, sub.
  - congruence.
  - exists j, sub. by rewrite list_lookup_insert_ne.
Qed.

Lemma disk_at (s : st) i sub :
  slots_ok (subnets s) -> subnets s !! i = Some sub -> is_key_idx (net_idx sub) ->
  disk s (net_idx sub) = Some (effective (sub_val sub)).
Proof.
  intros [Hu _ _] Hi Hk. apply disk_Some; [done|by apply key_idx_used|]. by exists i, sub.
Qed.

Lemma sub_at_eq (s : st) i sub : subnets s !! i = Some sub -> sub_at i s = sub.
Proof. apply list_lookup_total_correct. Qed.

(** Changing slot [i] and keeping its index. *)
Definition keeps_slot (f : bt_mesh_subnet -> bt_mesh_subnet) : Prop :=
  forall sub, net_idx (f sub) = net_idx sub /\ (0 <= kr_phase sub <= 2 -> 0 <= kr_phase (f sub) <= 2).

Lemma open_set_sub d i k (s : st) f :
  keeps_slot f -> open_at d i k s ->
  open_at d i k (set_subnets (<[i := f (sub_at i s)]> (subnets s)) s).
Proof.
  intros Hf [H1 H2 H3 H4 (sub & Hi & Hk)]. rewrite (sub_at_eq _ _ _ Hi).
  assert (slots_ok (<[i := f sub]> (subnets s))) as Hok
    by (eapply slots_ok_insert; [done|done|left; apply Hf|]; intros _; apply Hf;
        eapply (so_phase _ H1); [done|]; rewrite <-Hk in H4; apply negb_true_iff, Z.eqb_neq;
        by apply key_idx_used).
  split; simpl; try done.
  - intros k' Hk' Hne. erewrite (disk_insert s _ i sub (f sub)); try done;
      [by apply H3|congruence|rewrite (proj1 (Hf _)); congruence].
  - exists (f sub). simpl. split; [|by rewrite (proj1 (Hf _))].
    apply list_lookup_insert_eq. by apply lookup_lt_Some in Hi.
Qed.

(** Closing: the record of subnet [k] is brought up to date. *)
Lemma open_close d i k (s s' : st) r :
  open_at d i k s -> update_subnet_settings k true s = (r, s') -> coherent d s' /\ r = Ok ().
Proof.
  intros [H1 H2 H3 H4 (sub & Hi & Hk)] E.
  assert (disk s k = Some (effective (sub_val sub))) as Hd
    by (rewrite <-Hk; eapply disk_at; [done|done|by rewrite Hk]).
  destruct (update_settings_spec k true s s' r d H4 H2) as (-> & Hs & _ & Hq & Ho & Hr);
    [congruence|done|].
  split; [|done]. split; rewrite ?Hs; [done|done|]. intros k' Hk'.
  rewrite (disk_frame _ _ _ Hs). destruct (decide (k' = k)) as [->|Hne]; [done|].
  apply Ho; [done|by apply H3].
Qed.

End Slots.

(** ** Every operation keeps the records coherent *)

Section Coherence.

Context {W : Type} `{MeshCrypto W}.
Context (GATT_PROXY PRIV_BEACONS V1d1 : bool).
Notation st := (subnet_state W).

(** What a run that ends well guarantees. *)
Definition hoare {A} (P : st -> Prop) (m : M st A) (Q : A -> st -> Prop) : Prop :=
  forall s r s', P s -> m s = (Ok r, s') -> Q r s'.

Lemma hoare_bind {A B} P (R : A -> st -> Prop) (Q : B -> st -> Prop) m f :
  hoare P m R -> (forall a, hoare (R a) (f a) Q) -> hoare P (m ≫= f) Q.
Proof. intros Hm Hf s r s' HP (a & s1 & E1 & E2)%bind_inv. eapply Hf; [|done]. by eapply Hm. Qed.

Lemma hoare_ret {A} (P : st -> Prop) (Q : A -> st -> Prop) a :
  (forall s, P s -> Q a s) -> hoare P (mret a) Q.
Proof. intros HQ s r s' HP [= <- <-]. by apply HQ. Qed.

Lemma hoare_gets {A B} (P : st -> Prop) (Q : B -> st -> Prop) (f : st -> A) k :
  (forall s0, hoare (fun s => P s /\ s = s0) (k (f s0)) Q) -> hoare P (gets f ≫= k) Q.
Proof. intros Hk s r s' HP E. eapply (Hk s); [by split|exact E]. Qed.

Lemma hoare_get {B} (P : st -> Prop) (Q : B -> st -> Prop) k :
  (forall s0, hoare (fun s => P s /\ s = s0) (k s0) Q) -> hoare P (gets id ≫= k) Q.
Proof. apply (hoare_gets P Q id k). Qed.

(** Forgetting the state that was read. *)
Lemma hoare_drop {A} (P : st -> Prop) (Q : A -> st -> Prop) m s0 :
  hoare P m Q -> hoare (fun s => P s /\ s = s0) m Q.
Proof. intros Hm s r s' [Hs _]. by apply Hm. Qed.

Lemma hoare_modify (P Q : st -> Prop) f :
  (forall s, P s -> Q (f s)) -> hoare P (modify f) (fun _ => Q).
Proof. intros HQ s r s' HP [= <- <-]. by apply HQ. Qed.

Lemma hoare_crypto {A} (P : st -> Prop) (m : M W A) :
  (forall s w, P s -> P (set_crypto w s)) -> hoare P (crypto_call m) (fun _ => P).
Proof.
  intros HP s r s' Hs. unfold crypto_call. destruct (m (crypto s)) as [r' w].
  intros [= -> <-]. by apply HP.
Qed.

Lemma hoare_weaken {A} (P P' : st -> Prop) (Q : A -> st -> Prop) m :
  hoare P' m Q -> (forall s, P s -> P' s) -> hoare P m Q.
Proof. intros Hm HP s r s' Hs. eapply Hm, HP, Hs. Qed.

Lemma hoare_post {A} (P : st -> Prop) (Q Q' : A -> st -> Prop) m :
  hoare P m Q' -> (forall a s, Q' a s -> Q a s) -> hoare P m Q.
Proof. intros Hm HQ s r s' Hs E. eapply HQ, Hm; done. Qed.

(** Calls that leave slots, queue and storage alone keep [P]. *)
Definition stable (P : st -> Prop) : Prop := forall s s',
  subnets s' = subnets s -> net_key_updates s' = net_key_updates s ->
  (forall d, storage d (ext s') = storage d (ext s)) -> P s -> P s'.

Lemma hoare_crypto_stable {A} P (m : M W A) : stable P -> hoare P (crypto_call m) (fun _ => P).
Proof. intros HP. apply hoare_crypto. intros s w. by apply HP. Qed.

Definition silent (e : ext_op) : bool :=
  match e with SaveNetKey _ _ | DeleteNetKey _ => false | _ => true end.

Lemma hoare_emit P e : stable P -> silent e = true -> hoare P (emit e) (fun _ => P).
Proof.
  intros HP He. apply hoare_modify. intros s. apply HP; [done|done|]. intros d. simpl.
  rewrite storage_snoc. by destruct e.
Qed.

Context (d : gmap Z net_key_val).

Lemma stable_open i k : stable (open_at d i k).
Proof. intros s s' ? ? ?. by apply open_frame. Qed.

Lemma stable_coherent : stable (coherent d).
Proof. intros s s' ? ? ?. by apply coherent_frame. Qed.

Hint Resolve stable_open stable_coherent : hoare.

(** Coherent, with subnet [k] in slot [i]. *)
Definition held (i : nat) (k : Z) (s : st) : Prop :=
  coherent d s /\ at_slot i k s /\ is_key_idx k.

Lemma held_open i k s : held i k s -> open_at d i k s.
Proof.
  intros ([H1 H2 H3] & Hs & Hk). split; [done|done|auto|done|done].
Qed.

Lemma stable_held i k : stable (held i k).
Proof.
  intros s s' Hs Hu Hx (Hc & Hat & Hk). split_and!; [by eapply stable_coherent| |done].
  unfold at_slot in *. by rewrite Hs.
Qed.
Hint Resolve stable_held : hoare.

Lemma held_get s k i :
  coherent d s -> is_key_idx k -> bt_mesh_subnet_get k s = Some i -> held i k s.
Proof.
  intros Hc Hk Hg. split_and!; [done| |done].
  pose proof (subnet_get_slot s k (key_idx_used k Hk) (so_unique _ (co_slots _ _ Hc))) as Hs.
  rewrite Hg in Hs. destruct Hs as (sub & Hi & _ & Hn & _). by exists sub.
Qed.

Lemma open_store i k : hoare (open_at d i k) (store_if_enabled true i) (fun _ => coherent d).
Proof.
  unfold store_if_enabled. apply hoare_get. intros s0 s r s' [Ho ->] E.
  destruct (oa_slot _ _ _ _ Ho) as (sub & Hi & Hk).
  unfold bt_mesh_subnet_store in E. rewrite (sub_at_eq _ _ _ Hi), Hk in E.
  by eapply open_close.
Qed.

Lemma open_set i k f :
  keeps_slot f ->
  hoare (open_at d i k) (set_sub i f) (fun _ => open_at d i k).
Proof. intros Hf. apply hoare_modify. intros s. by apply open_set_sub. Qed.

Lemma open_revoke i k : hoare (open_at d i k) (revoke GATT_PROXY V1d1 i) (fun _ => open_at d i k).
Proof.
  unfold revoke. eapply hoare_bind; [apply open_set; split; [done|simpl; unfold BT_MESH_KR_NORMAL; lia]|]. intros ?.
  apply hoare_get. intros s0.
  apply hoare_drop.
  eapply hoare_bind; [apply hoare_crypto_stable; auto with hoare|]. intros ?.
  eapply hoare_bind; [by apply open_set|]. intros ?.
  eapply hoare_bind; [by apply open_set|]. intros ?.
  apply hoare_get. intros s1. apply hoare_drop.
  apply hoare_emit; auto with hoare.
Qed.

Lemma held_key_refresh i k phase :
  hoare (held i k) (key_refresh true GATT_PROXY V1d1 i phase) (fun _ => coherent d).
Proof.
  unfold key_refresh. apply hoare_get. intros s0.
  assert (0 <= phase <= 2 -> forall ev, hoare (fun s => held i k s /\ s = s0)
    (_ ← set_sub i (with_phase phase);
     _ ← subnet_evt (sub_at i s0) ev; store_if_enabled true i) (fun _ => coherent d)) as Hset.
  { intros Hph ev. eapply hoare_weaken; [|intros s [Hs _]; exact (held_open _ _ _ Hs)].
    eapply hoare_bind; [by apply open_set; split|]. intros ?.
    eapply hoare_bind; [apply hoare_emit; auto with hoare|]. intros ?. apply open_store. }
  destruct (Z.eqb_spec phase BT_MESH_KR_PHASE_1) as [->|]; [by apply Hset|].
  destruct (Z.eqb_spec phase BT_MESH_KR_PHASE_2) as [->|]; [by apply Hset|].
  destruct (_ && _); [apply hoare_ret; by intros s [[]]|].
  apply hoare_drop. eapply hoare_weaken; [|exact (held_open i k)].
  destruct (_ || _); [|apply open_store].
  eapply hoare_bind; [apply open_revoke|]. intros ?. apply open_store.
Qed.

Lemma held_kr_update i k kr_flag new_key :
  hoare (held i k) (bt_mesh_kr_update true GATT_PROXY V1d1 i kr_flag new_key) (fun _ => coherent d).
Proof.
  unfold bt_mesh_kr_update. destruct (negb new_key); [apply hoare_ret; by intros s []|].
  apply hoare_get. intros s0. apply hoare_drop.
  destruct (_ =? BT_MESH_KR_PHASE_1); [apply held_key_refresh|].
  destruct (_ && _); [apply held_key_refresh|]. apply hoare_ret. by intros s [].
Qed.

(** A slot whose record does not change: a free one, or one of the same
    effective value. *)
Lemma coherent_set_sub i (s : st) old new :
  coherent d s -> subnets s !! i = Some old ->
  (used old = false /\ used new = false) \/
    (net_idx new = net_idx old /\ kr_phase new = kr_phase old /\
       effective (sub_val new) = effective (sub_val old)) ->
  coherent d (set_subnets (<[i := new]> (subnets s)) s).
Proof.
  intros [H1 H2 H3] Hi Hn.
  assert (slots_ok (<[i := new]> (subnets s))) as Hok
    by (eapply slots_ok_insert; [done|done|destruct Hn as [[_ ?]|[? _]]; auto|];
        intros Hu; destruct Hn as [[_ ?]|(Hid & -> & _)]; [congruence|];
        eapply (so_phase _ H1); [done|]; unfold used in *; by rewrite <-Hid).
  split; [done|done|]. intros k Hk. pose proof (key_idx_used k Hk) as Hku.
  assert (disk (set_subnets (<[i := new]> (subnets s)) s) k = disk s k) as ->; [|by apply H3].
  destruct (decide (net_idx old = k)) as [Ho|Ho].
  - destruct Hn as [[Hu _]|(Hid & _ & He)].
    { unfold used in Hu. apply negb_false_iff, Z.eqb_eq in Hu. congruence. }
    rewrite <-Ho, (disk_at s i old) by (try done; by rewrite Ho).
    rewrite <-Hid, <-He. apply (disk_at _ i); [done| |by rewrite Hid, Ho].
    simpl. apply list_lookup_insert_eq. by apply lookup_lt_Some in Hi.
  - eapply disk_insert; try done. destruct Hn as [[_ Hu]|[Hid _]]; [|congruence].
    intros Hn. unfold used in Hu. apply negb_false_iff, Z.eqb_eq in Hu. congruence.
Qed.

(** A free slot is given to a subnet that has none. *)
Lemma coherent_claim i k (s : st) old f :
  coherent d s -> subnets s !! i = Some old -> used old = false -> is_key_idx k ->
  net_idx (f old) = k -> 0 <= kr_phase (f old) <= 2 -> (forall j sub, subnets s !! j = Some sub -> net_idx sub <> k) ->
  open_at d i k (set_subnets (<[i := f (sub_at i s)]> (subnets s)) s).
Proof.
  intros [H1 H2 H3] Hi Hu Hk Hf Hp Hno. rewrite (sub_at_eq _ _ _ Hi).
  assert (slots_ok (<[i := f old]> (subnets s))) as Hok.
  { eapply slots_ok_insert; [done|done| |done]. right. left. rewrite Hf. auto. }
  split; simpl; try done.
  - intros k' Hk' Hne. erewrite (disk_insert s _ i old (f old)); try done;
      [by apply H3| |congruence].
    intros Ho. unfold used in Hu. apply negb_false_iff, Z.eqb_eq in Hu.
    by destruct (key_idx_used k' Hk'); congruence.
  - exists (f old). simpl. split; [|done].
    apply list_lookup_insert_eq. by apply lookup_lt_Some in Hi.
Qed.

Lemma coherent_add k key :
  is_key_idx k ->
  hoare (coherent d) (bt_mesh_subnet_add true GATT_PROXY PRIV_BEACONS k key) (fun _ => coherent d).
Proof.
  intros Hk. unfold bt_mesh_subnet_add. apply hoare_get. intros s0.
  unfold subnet_alloc. pose proof (alloc_scan_spec k (subnets s0) 0 None) as Ha.
  destruct (alloc_scan k (subnets s0) 0 None) as [i|]; [|apply hoare_drop, hoare_ret; done].
  destruct (Z.eqb_spec (net_idx (sub_at i s0)) k) as [E|E].
  { apply hoare_drop. eapply hoare_bind; [apply hoare_crypto_stable; auto with hoare|].
    intros ?. by apply hoare_ret. }
  set (free := fun s : st => coherent d s /\
    (exists old, subnets s !! i = Some old /\ used old = false) /\
    forall j sub, subnets s !! j = Some sub -> net_idx sub <> k).
  apply (hoare_weaken _ free).
  2: { intros s [Hc ->]. split; [done|].
    destruct Ha as [(n & sub & -> & Hi & Hs)|[Hno [?|(_ & n & sub & -> & Hi & Hf)]]]; [|done|].
    - destruct E. change (0 + n)%nat with n. by rewrite (sub_at_eq _ _ _ Hi).
    - change (0 + n)%nat with n. by split; [exists sub|]. }
  eapply hoare_bind; [apply hoare_crypto_stable|].
  { intros s s' Hs Hu Hx (Hc & Hf & Hn). unfold free. rewrite Hs.
    split; [by eapply stable_coherent|done]. }
  intros [keys err]. eapply (hoare_bind _ (fun _ => free)).
  { apply hoare_modify. intros s (Hc & (old & Hi & Hf) & Hn). rewrite (sub_at_eq _ _ _ Hi).
    split; [|split].
    - eapply coherent_set_sub; [done|done|]. by left.
    - exists (with_keys0 keys old). split; [|done]. simpl.
      apply list_lookup_insert_eq. by apply lookup_lt_Some in Hi.
    - intros j sub. simpl. destruct (decide (j = i)) as [->|Hj].
      + rewrite list_lookup_insert_eq by (by apply lookup_lt_Some in Hi).
        intros [= <-]. exact (Hn i old Hi).
      + rewrite list_lookup_insert_ne by done. by apply Hn. }
  intros ?. destruct (negb (err =? 0)); [apply hoare_ret; by intros s []|].
  eapply (hoare_bind _ (fun _ => open_at d i k)).
  { apply hoare_modify. intros s (Hc & (old & Hi & Hf) & Hn). eapply coherent_claim; try done. }
  intros ?. apply hoare_get. intros s1. apply hoare_drop.
  eapply hoare_bind; [apply hoare_emit; auto with hoare|]. intros ?.
  eapply hoare_bind; [apply open_store|]. intros ?. by apply hoare_ret.
Qed.

(** A slot that is held keeps what is stable, and a change that does not show in
    the record. *)
Lemma held_set_same i k f :
  (forall sub, net_idx (f sub) = net_idx sub /\ kr_phase (f sub) = kr_phase sub) ->
  (forall s, held i k s -> effective (sub_val (f (sub_at i s))) = effective (sub_val (sub_at i s))) ->
  hoare (held i k) (set_sub i f) (fun _ => held i k).
Proof.
  intros Hf He. apply hoare_modify. intros s Hh. pose proof (He s Hh) as Heff.
  destruct Hh as (Hc & (sub & Hi & Hs) & Hk). rewrite (sub_at_eq _ _ _ Hi) in *.
  destruct (Hf sub) as [Hf1 Hf2]. split_and!; [|exists (f sub); split; [|congruence]|done].
  - eapply coherent_set_sub; [done|done|]. by right.
  - simpl. apply list_lookup_insert_eq. by apply lookup_lt_Some in Hi.
Qed.

(** Looking a subnet up and going on with its slot. *)
Lemma hoare_lookup {B} k (none : M st B) (some : st -> nat -> M st B) (Q : B -> st -> Prop) :
  is_key_idx k -> hoare (coherent d) none Q ->
  (forall s0 i, hoare (fun s => held i k s /\ s = s0) (some s0 i) Q) ->
  hoare (coherent d)
    (s ← gets id; match bt_mesh_subnet_get k s with None => none | Some i => some s i end) Q.
Proof.
  intros Hk Hn Hs. apply hoare_get. intros s0.
  destruct (bt_mesh_subnet_get k s0) as [i|] eqn:Hg; [|by apply hoare_drop].
  eapply hoare_weaken; [apply Hs|]. intros s [Hc ->]. split; [|done]. by apply held_get.
Qed.

Lemma coherent_update k key :
  is_key_idx k ->
  hoare (coherent d) (bt_mesh_subnet_update true GATT_PROXY PRIV_BEACONS V1d1 k key)
    (fun _ => coherent d).
Proof.
  intros Hk. unfold bt_mesh_subnet_update. apply hoare_lookup; [done|by apply hoare_ret|].
  intros s0 i.
  (* only a subnet in the normal phase goes on *)
  eapply (hoare_bind _ (fun c s => held i k s /\
    (c = None -> forall sub, subnets s !! i = Some sub -> kr_phase sub = BT_MESH_KR_NORMAL))).
  { intros s r s' [Hh ->] E. unfold update_check in E.
    assert (forall key' knet (P : Z -> option Z), (x ← crypto_call (mc_key_compare key' knet);
      mret (P x)) s0 = (Ok r, s') -> held i k s' /\ subnets s' = subnets s0) as Hcmp.
    { intros key' knet P Hx. apply bind_inv in Hx as (x & s1 & Hc & [= _ <-]). split.
      - eapply (hoare_crypto_stable (held i k)); [auto with hoare|exact Hh|exact Hc].
      - unfold crypto_call in Hc. destruct (mc_key_compare key' knet (crypto s0)). by injection Hc as _ <-. }
    destruct (Z.eqb_spec (kr_phase (sub_at i s0)) BT_MESH_KR_NORMAL) as [E0|E0].
    { destruct (Hcmp _ _ _ E) as [Hh' Hs]. split; [done|]. intros _ sub Hi.
      rewrite Hs in Hi. by rewrite <-(sub_at_eq _ _ _ Hi). }
    destruct Hh as (Hc & (sub & Hi & Hs) & _).
    assert (0 <= kr_phase (sub_at i s0) <= 2) as Hph.
    { rewrite (sub_at_eq _ _ _ Hi). eapply (so_phase _ (co_slots _ _ Hc)); [done|].
      unfold used. rewrite Hs. by apply negb_true_iff, Z.eqb_neq, key_idx_used. }
    destruct (Z.eqb_spec (kr_phase (sub_at i s0)) BT_MESH_KR_PHASE_1) as [E1|E1].
    { destruct (Hcmp _ _ (fun c => Some (if c =? 0 then STATUS_SUCCESS else STATUS_CANNOT_UPDATE)) E)
        as [Hh' _]. split; [done|]. intros ->.
      apply bind_inv in E as (? & ? & _ & E). discriminate. }
    destruct (Z.eqb_spec (kr_phase (sub_at i s0)) BT_MESH_KR_PHASE_2) as [E2|E2].
    { injection E as <- <-. split; [split_and!; [done|by exists sub|done]|done]. }
    unfold BT_MESH_KR_NORMAL, BT_MESH_KR_PHASE_1, BT_MESH_KR_PHASE_2 in *. lia. }
  intros [status|].
  { apply hoare_ret. by intros s [[] _]. }
  eapply (hoare_bind _ (fun _ s => held i k s /\
    forall sub, subnets s !! i = Some sub -> kr_phase sub = BT_MESH_KR_NORMAL)).
  { eapply hoare_weaken; [apply hoare_crypto|].
    - intros s w [Hh Hp]. split; [by apply (stable_held i k s)|exact Hp].
    - intros s [Hh Hp]. split; [done|by apply Hp]. }
  intros [keys err]. eapply (hoare_bind _ (fun _ => held i k)).
  { intros s r s' [Hh Hp] E.
    assert (hoare (fun s1 => held i k s1 /\ s1 = s) (set_sub i (with_keys1 keys)) (fun _ => held i k))
      as Hset; [|by eapply Hset].
    intros s1 r1 s1' [Hh1 ->] E1. injection E1 as _ <-.
    destruct Hh1 as (Hc & (sub & Hi & Hs) & _). rewrite (sub_at_eq _ _ _ Hi).
    split_and!; [|exists (with_keys1 keys sub); split; [|done]|done].
    - eapply coherent_set_sub; [done|done|]. right. split_and!; [done|done|].
      unfold effective, sub_val. simpl. by rewrite (Hp sub Hi).
    - simpl. apply list_lookup_insert_eq. by apply lookup_lt_Some in Hi. }
  intros ?. destruct (negb (err =? 0)); [apply hoare_ret; by intros s []|].
  eapply hoare_bind; [apply held_key_refresh|]. intros ?. by apply hoare_ret.
Qed.

(** ** Deletion *)

(** Subnet [k] in slot [i] is recorded as deleted; the others are coherent. *)
Record closing (i : nat) (k : Z) (s : st) : Prop := {
  cl_slots : slots_ok (subnets s);
  cl_queue : queue_ok (net_key_updates s);
  cl_recorded : forall k', is_key_idx k' -> k' <> k -> recorded d s k' (disk s k');
  cl_key : is_key_idx k;
  cl_slot : at_slot i k s;
  cl_gone : recorded d s k None
}.

Lemma stable_closing i k : stable (closing i k).
Proof.
  intros s s' Hs Hu Hx [H1 H2 H3 H4 H5 H6]. split; rewrite ?Hs, ?Hu; try done.
  - intros k' Hk' Hne. rewrite (disk_frame _ _ _ Hs). by eapply recorded_frame, H3.
  - unfold at_slot in *. by rewrite Hs.
  - by eapply recorded_frame.
Qed.
Hint Resolve stable_closing : hoare.

Lemma held_begin_close i k :
  hoare (held i k) (update_subnet_settings k false) (fun _ => closing i k).
Proof.
  intros s r s' ([H1 H2 H3] & Hat & Hk) E.
  destruct (update_settings_spec k false s s' (Ok r) d Hk H2) as (_ & Hs & _ & Hq & Ho & Hr); [done|done|].
  split; rewrite ?Hs; try done.
  - intros k' Hk' Hne. rewrite (disk_frame _ _ _ Hs). apply Ho; [done|by apply H3].
  - unfold at_slot in *. by rewrite Hs.
Qed.

Lemma closing_free i k : hoare (closing i k) (set_sub i (fun _ => free_subnet)) (fun _ => coherent d).
Proof.
  apply hoare_modify. intros s [H1 H2 H3 H4 (sub & Hi & Hk) H6].
  assert (slots_ok (<[i := free_subnet]> (subnets s))) as Hok
    by (eapply slots_ok_insert; [done|done|by right; right|done]).
  split; simpl; [done|done|]. intros k' Hk'. destruct (decide (k' = k)) as [->|Hne].
  - assert (disk (set_subnets (<[i := free_subnet]> (subnets s)) s) k = None) as ->; [|done].
    destruct (disk _ k) as [v|] eqn:Hv; [|done].
    apply disk_Some in Hv as (j & sub' & Hj & Hs' & _); [|by apply so_unique|by apply key_idx_used].
    simpl in Hj. destruct (decide (j = i)) as [->|Hji].
    + rewrite list_lookup_insert_eq in Hj by (by apply lookup_lt_Some in Hi). injection Hj as <-.
      by destruct (key_idx_used k H4).
    + rewrite list_lookup_insert_ne in Hj by done. destruct Hji.
      eapply (so_unique _ H1 j i sub' sub); try done; [|congruence].
      unfold used. rewrite Hs'. by apply negb_true_iff, Z.eqb_neq, key_idx_used.
  - erewrite (disk_insert s _ i sub free_subnet); try done; [by apply H3|congruence|].
    intros Hf. by destruct (key_idx_used k' Hk').
Qed.

Lemma held_del i k :
  hoare (held i k) (subnet_del true GATT_PROXY V1d1 i) (fun _ => coherent d).
Proof.
  unfold subnet_del. apply hoare_get. intros s0.
  intros s r s' [Hh ->] E. pose proof Hh as (_ & (sub & Hi & Hs) & _).
  rewrite (sub_at_eq _ _ _ Hi), Hs in E.
  eapply (hoare_bind (held i k) (fun _ => closing i k) (fun _ => coherent d));
    [apply held_begin_close| |exact Hh|exact E].
  intros ?. eapply (hoare_bind _ (fun _ => closing i k)).
  { destruct (valid (keys0 sub)); [apply hoare_crypto_stable; auto with hoare|by apply hoare_ret]. }
  intros ?. eapply (hoare_bind _ (fun _ => closing i k)).
  { destruct (valid (keys1 sub)); [apply hoare_crypto_stable; auto with hoare|by apply hoare_ret]. }
  intros ?. eapply hoare_bind; [apply hoare_emit; auto with hoare|].
  intros ?. eapply hoare_bind; [apply hoare_emit; auto with hoare|].
  intros ?. apply closing_free.
Qed.

Lemma coherent_del k :
  is_key_idx k ->
  hoare (coherent d) (bt_mesh_subnet_del true GATT_PROXY V1d1 k) (fun _ => coherent d).
Proof.
  intros Hk. unfold bt_mesh_subnet_del. apply hoare_lookup; [done|by apply hoare_ret|].
  intros s0 i. apply hoare_drop. eapply hoare_bind; [apply held_del|]. intros ?. by apply hoare_ret.
Qed.

Lemma coherent_reset_loop n : forall i,
  hoare (coherent d) (reset_loop true GATT_PROXY V1d1 n i) (fun _ => coherent d).
Proof.
  induction n as [|n IH]; intros i; cbn [reset_loop]; [by apply hoare_ret|].
  apply hoare_get. intros s0. eapply (hoare_bind _ (fun _ => coherent d)); [|intros ?; apply IH].
  destruct (used (sub_at i s0)) eqn:Hu; [|apply hoare_drop; by apply hoare_ret].
  intros s r s' [Hc ->] E.
  destruct (subnets s0 !! i) as [sub|] eqn:Hi.
  - rewrite (sub_at_eq _ _ _ Hi) in Hu. eapply (held_del i (net_idx sub)); [|exact E].
    split_and!; [done|by exists sub|by eapply (so_range _ (co_slots _ _ Hc))].
  - unfold sub_at in Hu. rewrite list_lookup_total_alt, Hi in Hu. done.
Qed.

(** ** The storage job *)

(** What dropping the valid entry [i] does to the queue. *)
Lemma queue_drop l i u :
  queue_ok l -> l !! i = Some u -> up_valid u = true ->
  let l' := <[i := mk_update (up_key_idx u) false (up_clear u)]> l in
  queue_ok l' /\ forall k c, queued l' k c <-> queued l k c /\ k <> up_key_idx u.
Proof.
  intros [Hq Hr] Hi Hv l'.
  assert (forall j v, l' !! j = Some v -> up_valid v = true -> j <> i /\ l !! j = Some v) as Hold.
  { intros j v Hj Hvv. destruct (decide (j = i)) as [->|Hji].
    - unfold l' in Hj. rewrite list_lookup_insert_eq in Hj by (by apply lookup_lt_Some in Hi).
      by injection Hj as <-.
    - unfold l' in Hj. by rewrite list_lookup_insert_ne in Hj. }
  assert (forall k c, queued l' k c <-> queued l k c /\ k <> up_key_idx u) as Hqd.
  { intros k c. split.
    - intros (j & v & Hj & Hvv & <- & <-). destruct (Hold j v Hj Hvv) as [Hji Hj'].
      split; [by exists j, v|]. intros Hk. by destruct Hji; eapply (Hq j i v u).
    - intros [(j & v & Hj & Hvv & <- & <-) Hk]. exists j, v. split_and!; try done.
      unfold l'. rewrite list_lookup_insert_ne; [done|]. intros <-. congruence. }
  split; [|done]. split.
  - intros a b x y Ha Hb Hx Hy Hk. destruct (Hold a x Ha Hx), (Hold b y Hb Hy).
    by eapply (Hq a b x y).
  - intros k c Hin. apply Hqd in Hin as [Hin _]. by eapply Hr.
Qed.

Lemma store_subnet_eq k i (s : st) :
  bt_mesh_subnet_get k s = Some i ->
  store_subnet k s = (Ok (), emit_op (SaveNetKey k (sub_val (sub_at i s))) s).
Proof. intros Hg. unfold store_subnet, mbind, M_bind, gets. simpl. by rewrite Hg. Qed.

Lemma pending_one_spec i (s : st) :
  coherent d s ->
  exists s', pending_one i s = (Ok (), s') /\ coherent d s' /\ subnets s' = subnets s /\
    length (net_key_updates s') = length (net_key_updates s) /\
    (forall u, net_key_updates s' !! i = Some u -> up_valid u = false) /\
    (forall j, j <> i -> net_key_updates s' !! j = net_key_updates s !! j).
Proof.
  intros Hc. unfold pending_one, mbind, M_bind, gets.
  destruct (net_key_updates s !! i) as [u|] eqn:Hi.
  2: { rewrite list_lookup_total_alt, Hi. simpl. exists s. split_and!; try done.
       intros u Hu. congruence. }
  rewrite (list_lookup_total_correct _ _ _ Hi).
  destruct (up_valid u) eqn:Hv; cbn [negb].
  2: { exists s. split_and!; try done. intros u' Hu'. congruence. }
  destruct Hc as [H1 H2 H3]. destruct (queue_drop _ _ _ H2 Hi Hv) as [Hq Hqd].
  set (k := up_key_idx u) in *. set (l' := <[i := _]> _) in *.
  assert (queued (net_key_updates s) k (up_clear u)) as Hin by by exists i, u.
  assert (is_key_idx k) as Hk by by apply (qo_range _ H2 k (up_clear u)).
  assert (forall k', k' <> k -> recorded d s k' (disk s k') ->
    forall e, (forall m : gmap Z net_key_val, apply_ext m e !! k' = m !! k') ->
    recorded d (emit_op e (set_updates l' s)) k' (disk s k')) as Hother.
  { intros k' Hne [Ha Hb] e He. split; simpl.
    - intros c Hcq. apply Hqd in Hcq as [Hcq _]. by apply Ha.
    - intros Hn. rewrite storage_snoc, He. apply Hb. intros c Hcq. by apply (Hn c), Hqd. }
  assert (forall k', k' <> k -> disk (set_updates l' s) k' = disk s k') as Hd by done.
  destruct (H3 k Hk) as [Hflag _]. specialize (Hflag _ Hin).
  assert (forall e, storage d (ext s ++ [e]) = apply_ext (storage d (ext s)) e) as Hsn
    by (intros; apply storage_snoc).
  assert (l' !! i = Some (mk_update k false (up_clear u))) as Hli
    by (apply list_lookup_insert_eq; by apply lookup_lt_Some in Hi).
  assert (forall v, l' !! i = Some v -> up_valid v = false) as Hlv by (intros v; rewrite Hli; by intros [= <-]).
  assert (forall j, j <> i -> l' !! j = net_key_updates s !! j) as Hlo
    by (intros; unfold l'; by rewrite list_lookup_insert_ne).
  assert (forall c, ~ queued l' k c) as Hnq by (intros c Hcq; by apply Hqd in Hcq as [_ ?]).
  destruct (up_clear u) eqn:Hcl; unfold clear_net_key, set_update, emit, modify.
  - eexists. split; [reflexivity|]. split_and!; try done; [|by simpl; unfold l'; rewrite length_insert].
    split; simpl; [done|done|]. intros k' Hk'. change (disk _ k') with (disk s k').
    destruct (decide (k' = k)) as [->|Hne].
    + rewrite (proj1 Hflag) by done. split; simpl; [intros c Hcq; by destruct (Hnq c)|].
      intros _. rewrite Hsn. simpl. by rewrite lookup_delete_eq.
    + apply Hother; [done|by apply H3|]. intros m. simpl. by rewrite lookup_delete_ne.
  - assert (disk s k <> None) as Hds by (intros E; by apply Hflag in E).
    unfold disk in Hds at 1. destruct (bt_mesh_subnet_get k s) as [j|] eqn:Hg; [|done].
    eexists. split; [apply (store_subnet_eq _ j (set_updates l' s)); exact Hg|]. split_and!; try done; [|by simpl; unfold l'; rewrite length_insert].
    split; simpl; [done|done|]. intros k' Hk'. change (disk _ k') with (disk s k').
    destruct (decide (k' = k)) as [->|Hne].
    + split; simpl; [intros c Hcq; by destruct (Hnq c)|].
      intros _. rewrite Hsn. simpl. rewrite lookup_insert_eq. unfold disk. by rewrite Hg.
    + apply Hother; [done|by apply H3|]. intros m. simpl. by rewrite lookup_insert_ne.
Qed.

Lemma pending_loop_spec n : forall i (s : st),
  coherent d s -> (forall j u, (j < i)%nat -> net_key_updates s !! j = Some u -> up_valid u = false) ->
  exists s', pending_loop n i s = (Ok (), s') /\ coherent d s' /\ subnets s' = subnets s /\
    length (net_key_updates s') = length (net_key_updates s) /\
    (forall j u, (j < i + n)%nat -> net_key_updates s' !! j = Some u -> up_valid u = false).
Proof.
  induction n as [|n IH]; intros i s Hc Hlow.
  { exists s. split_and!; try done. by rewrite Nat.add_0_r. }
  destruct (pending_one_spec i s Hc) as (s1 & E & Hc1 & Hs1 & Hl1 & Hi1 & Ho1).
  destruct (IH (S i) s1 Hc1) as (s2 & E2 & Hc2 & Hs2 & Hl2 & Hv2).
  { intros j u Hj Hu. destruct (decide (j = i)) as [->|Hji]; [by apply Hi1|].
    rewrite Ho1 in Hu by done. apply (Hlow j u); [lia|done]. }
  exists s2. split_and!; [|done|congruence|congruence|].
  - cbn [pending_loop]. by rewrite (bind_ok _ _ _ _ _ E).
  - intros j u Hj. apply Hv2. lia.
Qed.

(** After the storage job the storage holds exactly the subnets. *)
Definition stored_exactly (s : st) : Prop :=
  forall k, is_key_idx k -> effective <$> storage d (ext s) !! k = disk s k.

Lemma pending_store_spec (s : st) :
  coherent d s ->
  exists s', bt_mesh_subnet_pending_store s = (Ok (), s') /\ coherent d s' /\
    subnets s' = subnets s /\ stored_exactly s'.
Proof.
  intros Hc. destruct (pending_loop_spec (length (net_key_updates s)) 0 s Hc)
    as (s' & E & Hc' & Hs & Hl & Hv); [lia|].
  exists s'. split_and!; [exact E|done|done|]. intros k Hk.
  destruct (co_recorded _ _ Hc' k Hk) as [_ Hr]. apply Hr.
  intros c (j & u & Hj & Hval & _). rewrite (Hv j u) in Hval; [done| |done].
  apply lookup_lt_Some in Hj. lia.
Qed.

(** ** Runs *)

Lemma coherent_phase_set k phase :
  is_key_idx k ->
  hoare (coherent d) (bt_mesh_subnet_kr_phase_set true GATT_PROXY V1d1 k phase) (fun _ => coherent d).
Proof.
  intros Hk. unfold bt_mesh_subnet_kr_phase_set. apply hoare_lookup; [done|by apply hoare_ret|].
  intros s0 i. apply hoare_drop.
  destruct (phase =? _); [apply hoare_ret; by intros s []|].
  destruct (_ && _); [|apply hoare_ret; by intros s []].
  eapply hoare_bind; [apply held_key_refresh|]. intros ?.
  apply hoare_get. intros s1. apply hoare_drop. by apply hoare_ret.
Qed.

Lemma coherent_kr k kr_flag new_key :
  is_key_idx k ->
  hoare (coherent d)
    (s ← gets id; match bt_mesh_subnet_get k s with
                  | None => mret ()
                  | Some i => bt_mesh_kr_update true GATT_PROXY V1d1 i kr_flag new_key
                  end) (fun _ => coherent d).
Proof.
  intros Hk. apply hoare_lookup; [done|by apply hoare_ret|]. intros s0 i. apply hoare_drop, held_kr_update.
Qed.

(** Changing the node identity of any slot. *)
Lemma coherent_identity i n priv :
  hoare (coherent d) (set_sub i (fun sub => with_identity n (priv sub) sub)) (fun _ => coherent d).
Proof.
  apply hoare_modify. intros s Hc. destruct (subnets s !! i) as [sub|] eqn:Hi.
  - rewrite (sub_at_eq _ _ _ Hi). eapply coherent_set_sub; [done|done|]. by right.
  - rewrite list_insert_ge by (by apply lookup_ge_None). by eapply coherent_frame, Hc.
Qed.

Lemma coherent_stop_loop n : forall i, hoare (coherent d) (stop_private_loop n i) (fun _ => coherent d).
Proof.
  induction n as [|n IH]; intros i; cbn [stop_private_loop]; [by apply hoare_ret|].
  apply hoare_get. intros s0. apply hoare_drop. eapply hoare_bind; [|intros ?; apply IH].
  destruct (_ && _ && _); [apply coherent_identity|by apply hoare_ret].
Qed.

Lemma coherent_start_stop i (b private : bool) :
  hoare (coherent d) (if b then bt_mesh_proxy_identity_start PRIV_BEACONS i private
                      else bt_mesh_proxy_identity_stop i) (fun _ => coherent d).
Proof. destruct b; apply coherent_identity. Qed.

Lemma coherent_node_id k n :
  is_key_idx k ->
  hoare (coherent d) (bt_mesh_subnet_node_id_set GATT_PROXY PRIV_BEACONS k n) (fun _ => coherent d).
Proof.
  intros Hk. unfold bt_mesh_subnet_node_id_set. destruct (n =? _); [by apply hoare_ret|].
  apply hoare_lookup; [done|by apply hoare_ret|]. intros s0 i. apply hoare_drop.
  eapply hoare_weaken; [|intros s [Hc _]; exact Hc].
  destruct (negb GATT_PROXY); [by apply hoare_ret|].
  eapply (hoare_bind _ (fun _ => coherent d)).
  { destruct PRIV_BEACONS; [apply coherent_stop_loop|by apply hoare_ret]. }
  intros ?. eapply hoare_bind; [apply coherent_start_stop|].
  intros ?. eapply hoare_bind; [apply hoare_emit; auto with hoare|]. intros ?. by apply hoare_ret.
Qed.

Lemma coherent_priv_node_id k n :
  is_key_idx k ->
  hoare (coherent d) (bt_mesh_subnet_priv_node_id_set GATT_PROXY PRIV_BEACONS k n) (fun _ => coherent d).
Proof.
  intros Hk. unfold bt_mesh_subnet_priv_node_id_set. destruct (n =? _); [by apply hoare_ret|].
  apply hoare_lookup; [done|by apply hoare_ret|]. intros s0 i. apply hoare_drop.
  eapply hoare_weaken; [|intros s [Hc _]; exact Hc].
  destruct (_ || _); [by apply hoare_ret|]. destruct (existsb _ _); [by apply hoare_ret|].
  eapply hoare_bind; [apply coherent_start_stop|].
  intros ?. eapply hoare_bind; [apply hoare_emit; auto with hoare|]. intros ?. by apply hoare_ret.
Qed.

(** What may happen to the subnets of a running node. *)
Inductive subnet_op :=
| OpAdd (idx : Z) (key : list Z)
| OpUpdate (idx : Z) (key : list Z)
| OpDel (idx : Z)
| OpPhase (idx phase : Z)
| OpBeacon (idx : Z) (kr_flag new_key : bool)  (** a beacon, on [bt_mesh_kr_update] *)
| OpNodeId (idx node_id : Z)
| OpPrivNodeId (idx node_id : Z)
| OpReset
| OpStore.                                     (** the storage job *)

(** The status where there is one. *)
Definition do_subnet (op : subnet_op) : M st Z :=
  match op with
  | OpAdd k key => bt_mesh_subnet_add true GATT_PROXY PRIV_BEACONS k key
  | OpUpdate k key => bt_mesh_subnet_update true GATT_PROXY PRIV_BEACONS V1d1 k key
  | OpDel k => bt_mesh_subnet_del true GATT_PROXY V1d1 k
  | OpPhase k phase => r ← bt_mesh_subnet_kr_phase_set true GATT_PROXY V1d1 k phase; mret r.1
  | OpBeacon k kr_flag new_key =>
      _ ← (s ← gets id; match bt_mesh_subnet_get k s with
                        | None => mret ()
                        | Some i => bt_mesh_kr_update true GATT_PROXY V1d1 i kr_flag new_key
                        end);
      mret 0
  | OpNodeId k n => bt_mesh_subnet_node_id_set GATT_PROXY PRIV_BEACONS k n
  | OpPrivNodeId k n => bt_mesh_subnet_priv_node_id_set GATT_PROXY PRIV_BEACONS k n
  | OpReset => _ ← bt_mesh_net_keys_reset true GATT_PROXY V1d1; mret 0
  | OpStore => _ ← bt_mesh_subnet_pending_store; mret 0
  end.

(** NetKey indexes are 12-bit numbers. *)
Definition subnet_op_ok (op : subnet_op) : Prop :=
  match op with
  | OpAdd k _ | OpUpdate k _ | OpDel k | OpPhase k _ | OpBeacon k _ _ | OpNodeId k _
  | OpPrivNodeId k _ => is_key_idx k
  | OpReset | OpStore => True
  end.

Fixpoint run_subnet (ops : list subnet_op) : M st (list Z) :=
  match ops with
  | [] => mret []
  | op :: ops => r ← do_subnet op; rs ← run_subnet ops; mret (r :: rs)
  end.

Lemma coherent_op op :
  subnet_op_ok op -> hoare (coherent d) (do_subnet op) (fun _ => coherent d).
Proof.
  destruct op; simpl; intros Hk.
  - by apply coherent_add.
  - by apply coherent_update.
  - by apply coherent_del.
  - eapply hoare_bind; [by apply coherent_phase_set|]. intros ?. by apply hoare_ret.
  - eapply hoare_bind; [by apply coherent_kr|]. intros ?. by apply hoare_ret.
  - by apply coherent_node_id.
  - by apply coherent_priv_node_id.
  - eapply (hoare_bind _ (fun _ => coherent d)); [|intros ?; by apply hoare_ret]. unfold bt_mesh_net_keys_reset.
    apply hoare_get. intros s0. apply hoare_drop, coherent_reset_loop.
  - eapply (hoare_bind _ (fun _ => coherent d)); [|intros ?; by apply hoare_ret].
    intros s r s' Hc E. destruct (pending_store_spec s Hc) as (s2 & E2 & Hc2 & _).
    rewrite E in E2. injection E2 as _ <-. exact Hc2.
Qed.

Lemma coherent_run ops :
  Forall subnet_op_ok ops -> hoare (coherent d) (run_subnet ops) (fun _ => coherent d).
Proof.
  induction 1 as [|op ops Hop _ IH]; [by apply hoare_ret|]. cbn [run_subnet].
  eapply hoare_bind; [by apply coherent_op|]. intros ?.
  eapply hoare_bind; [apply IH|]. intros ?. by apply hoare_ret.
Qed.

(** C18: The storage follows the subnets.  Whatever sequence of additions, key
    updates, deletions, phase changes, beacons, identity changes and resets a
    node goes through, with the storage job run at any points and the queue of
    pending records of any size: running the job leaves in the storage, for
    every NetKey index, exactly the record that the loader turns back into the
    subnet's phase and keys, and none for an index without a subnet. *)
Theorem subnet_storage_follows ops s rs s' :
  coherent d s -> Forall subnet_op_ok ops -> run_subnet ops s = (Ok rs, s') ->
  exists s2, bt_mesh_subnet_pending_store s' = (Ok (), s2) /\
    subnets s2 = subnets s' /\ stored_exactly s2.
Proof.
  intros Hc Hops E. pose proof (coherent_run ops Hops s rs s' Hc E) as Hc'.
  destruct (pending_store_spec s' Hc') as (s2 & E2 & _ & Hs & Hx). by exists s2.
Qed.

End Coherence.
