(* ===== verification/KeySlots.v ===== *)
(** Arrays of slots over a key store: what the tables of NetKeys ([SubnetTable.v]) and
    of application keys ([AppTable.v]) have in common.

    A slot in use has an index and owns keys of the store under identifiers that no
    other slot has; the array with the store behind it represents a finite map from
    indexes to what the slots hold.  The keys [F] belong to other components, and are
    neither owned by a slot nor touched. *)

From S2P Require Import Prelude MeshDefs CryptoIf Subnet.

Section KeySlots.

Context {W : Type} `{MeshCryptoLaws W} {A E : Type}.
(** The index of a slot, the keys it owns, what it holds, and what a free one is. *)
Context (idx : A -> Z) (ids : A -> list Z) (slot_ok : W -> A -> E -> Prop) (free_ok : A -> Prop).
Context (F : gmap Z (bt_mesh_key_type * list Z)).

Definition in_use (a : A) : bool := negb (idx a =? BT_MESH_KEY_UNUSED).

(** A slot depends on the store only through the keys it owns. *)
Class SlotLaws : Prop := {
  free_ids : forall a, in_use a = false -> free_ok a -> ids a = [];
  slot_ids : forall w a e id, slot_ok w a e -> id ∈ ids a -> is_Some (mc_keys w !! id);
  slot_same : forall w w' a e, in_use a = true -> slot_ok w a e ->
    (forall id, id ∈ ids a -> is_Some (mc_keys w !! id) -> mc_keys w' !! id = mc_keys w !! id) -> slot_ok w' a e
}.
Context `{!SlotLaws}.

Record key_slots (w : W) (l : list A) (m : gmap Z E) : Prop := {
  kl_ready : mc_ready w;
  kl_unique : forall i j a b, l !! i = Some a -> l !! j = Some b -> in_use a = true -> idx a = idx b -> i = j;
  kl_range : forall i a, l !! i = Some a -> in_use a = true -> is_key_idx (idx a);
  kl_free : forall i a, l !! i = Some a -> in_use a = false -> free_ok a;
  kl_entry : forall i a, l !! i = Some a -> in_use a = true -> exists e, m !! idx a = Some e /\ slot_ok w a e;
  kl_slot : forall k e, m !! k = Some e -> is_key_idx k /\ exists i a, l !! i = Some a /\ idx a = k;
  kl_nodup : forall i a, l !! i = Some a -> NoDup (ids a);
  kl_apart : forall i j a b id, l !! i = Some a -> l !! j = Some b -> id ∈ ids a -> id ∈ ids b -> i = j;
  kl_foreign : forall id v, F !! id = Some v -> mc_keys w !! id = Some v /\
    forall i a, l !! i = Some a -> id ∉ ids a
}.

(** Some slot owns [id], or another component does. *)
Definition owned (l : list A) (id : Z) : Prop := (exists i a, l !! i = Some a /\ id ∈ ids a) \/ is_Some (F !! id).

Lemma in_use_idx a : is_key_idx (idx a) -> in_use a = true.
Proof. intros Hk. unfold in_use. by apply negb_true_iff, Z.eqb_neq, key_idx_used. Qed.
Lemma not_in_use a : in_use a = false -> idx a = BT_MESH_KEY_UNUSED.
Proof. unfold in_use. intros Hu. by apply negb_false_iff, Z.eqb_eq in Hu. Qed.

Lemma fresh_not_owned w l m id : key_slots w l m -> mc_keys w !! id = None -> ~ owned l id.
Proof.
  intros Hr Hn [(i & a & Hi & Hin)|[v Hv]]; [|by destruct (kl_foreign _ _ _ Hr id v Hv); congruence].
  destruct (in_use a) eqn:Hu.
  - destruct (kl_entry _ _ _ Hr i a Hi Hu) as (e & _ & He). destruct (slot_ids _ _ _ _ He Hin). congruence.
  - rewrite free_ids in Hin; [by apply elem_of_nil in Hin|done|by eapply kl_free].
Qed.

(** Slot [i] gets the entry [oe], or is given up. *)
Lemma key_slots_replace w l m w' i old new (oe : option E) :
  key_slots w l m -> l !! i = Some old -> mc_ready w' ->
  (forall id, id ∉ ids old -> is_Some (mc_keys w !! id) -> mc_keys w' !! id = mc_keys w !! id) ->
  match oe with
  | Some e => is_key_idx (idx new) /\ (idx new = idx old \/ in_use old = false /\ m !! idx new = None) /\
      slot_ok w' new e /\ NoDup (ids new) /\ forall id, id ∈ ids new -> id ∈ ids old \/ ~ owned l id
  | None => in_use new = false /\ free_ok new
  end ->
  key_slots w' (<[i := new]> l) (match oe with Some e => <[idx new := e]> m | None => delete (idx old) m end).
Proof.
  intros Hr Hi Hw Hk Hoe. set (m' := match oe with Some e => _ | None => _ end).
  assert (<[i := new]> l !! i = Some new) as Hi' by (apply list_lookup_insert_eq; by apply lookup_lt_Some in Hi).
  assert (forall j, j <> i -> <[i := new]> l !! j = l !! j) as Ho by (intros; by rewrite list_lookup_insert_ne).
  assert (forall j a, j <> i -> l !! j = Some a -> in_use a = true -> idx a <> idx old /\ idx a <> idx new) as Hne.
  { intros j a Hj Ha Hu.
    assert (idx a <> idx old) as Hno by (intros Eq; destruct Hj; by eapply (kl_unique _ _ _ Hr j i a old)).
    split; [done|]. destruct oe as [e|].
    - destruct Hoe as (_ & [->|[_ Hnone]] & _); [done|].
      destruct (kl_entry _ _ _ Hr j a Ha Hu) as (e' & He' & _). congruence.
    - destruct Hoe as [Hu' _]. apply not_in_use in Hu'. rewrite Hu'. intros Eq.
      unfold in_use in Hu. by rewrite Eq in Hu. }
  assert (forall id, id ∈ ids new -> id ∈ ids old \/ ~ owned l id) as Hids.
  { destruct oe as [e|]; [apply Hoe|]. intros id. rewrite free_ids by apply Hoe. by intros ?%elem_of_nil. }
  assert (forall j a id, j <> i -> l !! j = Some a -> id ∈ ids a -> id ∈ ids new -> False) as Hap.
  { intros j a id Hj Ha Hid Hin. destruct (Hids id Hin) as [Hold|Hl].
    - destruct Hj. by eapply (kl_apart _ _ _ Hr j i a old id).
    - apply Hl. left. by exists j, a. }
  assert (in_use new = true -> oe <> None) as Hsome by (intros Hu ->; destruct Hoe; congruence).
  split; [done| | | | | | | |].
  - intros j1 j2 a b Ha Hb Hu Hab. destruct (decide (j1 = i)) as [->|Hd1], (decide (j2 = i)) as [->|Hd2]; [done| | |].
    + rewrite Hi' in Ha. injection Ha as <-. rewrite Ho in Hb by done. exfalso.
      destruct (Hne j2 b Hd2 Hb); [unfold in_use in *; by rewrite <-Hab|congruence].
    + rewrite Hi' in Hb. injection Hb as <-. rewrite Ho in Ha by done. by destruct (Hne j1 a Hd1 Ha Hu).
    + rewrite Ho in Ha, Hb by done. by eapply (kl_unique _ _ _ Hr j1 j2 a b).
  - intros j a Ha Hu. destruct (decide (j = i)) as [->|Hji]; [|rewrite Ho in Ha by done; by eapply kl_range].
    rewrite Hi' in Ha. injection Ha as <-. destruct oe; [apply Hoe|by destruct (Hsome Hu)].
  - intros j a Ha Hu. destruct (decide (j = i)) as [->|Hji]; [|rewrite Ho in Ha by done; by eapply kl_free].
    rewrite Hi' in Ha. injection Ha as <-. destruct oe; [|apply Hoe].
    destruct Hoe as [Hx%in_use_idx _]. congruence.
  - intros j a Ha Hu. destruct (decide (j = i)) as [->|Hji].
    + rewrite Hi' in Ha. injection Ha as <-. destruct oe as [e|]; [|by destruct (Hsome Hu)].
      exists e. split; [apply lookup_insert_eq|apply Hoe].
    + rewrite Ho in Ha by done. destruct (kl_entry _ _ _ Hr j a Ha Hu) as (e' & He' & Hok).
      exists e'. destruct (Hne j a Hji Ha Hu) as [Hn1 Hn2]. split.
      * unfold m'. destruct oe; [by rewrite lookup_insert_ne|by rewrite lookup_delete_ne].
      * eapply slot_same; [done|exact Hok|]. intros id Hid. apply Hk. intros Hin.
        destruct Hji. by eapply (kl_apart _ _ _ Hr j i a old id).
  - intros k e. unfold m'.
    assert (forall e, m !! k = Some e -> idx old <> k ->
      is_key_idx k /\ exists j a, <[i := new]> l !! j = Some a /\ idx a = k) as Hkeep.
    { intros e1 He1 Hn. destruct (kl_slot _ _ _ Hr k e1 He1) as (Hx & j & a & Hj & Hsk).
      split; [done|]. exists j, a. split; [|done]. rewrite Ho; [done|]. intros ->. congruence. }
    destruct oe as [e0|].
    + rewrite lookup_insert_Some. intros [[<- <-]|[Hn He]].
      * split; [apply Hoe|]. by exists i, new.
      * apply (Hkeep e He). intros Hko. destruct Hoe as (_ & [Hnn|[Hu _]] & _); [congruence|].
        destruct (kl_slot _ _ _ Hr k e He) as (Hx & _). subst k. apply in_use_idx in Hx. congruence.
    + rewrite lookup_delete_Some. intros [Hn He]. by apply (Hkeep e).
  - intros j a Ha. destruct (decide (j = i)) as [->|Hji]; [|rewrite Ho in Ha by done; by eapply kl_nodup].
    rewrite Hi' in Ha. injection Ha as <-. destruct oe as [e|]; [apply Hoe|]. rewrite free_ids by apply Hoe. constructor.
  - intros j1 j2 a b id Ha Hb Hida Hidb. destruct (decide (j1 = i)) as [->|Hd1], (decide (j2 = i)) as [->|Hd2]; [done| | |].
    + rewrite Hi' in Ha. injection Ha as <-. rewrite Ho in Hb by done. by destruct (Hap j2 b id).
    + rewrite Hi' in Hb. injection Hb as <-. rewrite Ho in Ha by done. by destruct (Hap j1 a id).
    + rewrite Ho in Ha, Hb by done. by eapply (kl_apart _ _ _ Hr j1 j2 a b id).
  - intros id v Hv. destruct (kl_foreign _ _ _ Hr id v Hv) as [Hs Hno].
    split; [rewrite Hk; [done|by apply (Hno i)|by eexists]|]. intros j a Ha Hid.
    destruct (decide (j = i)) as [->|Hji]; [|rewrite Ho in Ha by done; by apply (Hno j a)].
    rewrite Hi' in Ha. injection Ha as <-. destruct (Hids id Hid) as [Hold|Hl]; [by apply (Hno i old)|].
    apply Hl. right. by exists v.
Qed.

(** The backend has moved, and kept every key. *)
Lemma key_slots_grow w l m w' : key_slots w l m -> mc_keys w ⊆ mc_keys w' -> mc_ready w' -> key_slots w' l m.
Proof.
  intros [] Hk Hr. split; try done.
  - intros i a Hi Hu. destruct (kl_entry0 i a Hi Hu) as (e & He & Hok). exists e. split; [done|].
    eapply slot_same; [done|exact Hok|]. intros id _ [v Hv]. rewrite Hv. by eapply lookup_weaken.
  - intros id v Hv. destruct (kl_foreign0 id v Hv) as [Hx Hno]. split; [by eapply lookup_weaken|done].
Qed.

(** The slot of an index. *)
Lemma kl_slot_of w l m k : key_slots w l m ->
  match m !! k with
  | Some e => is_key_idx k /\ exists i a, l !! i = Some a /\ idx a = k /\ in_use a = true /\ slot_ok w a e
  | None => forall i a, l !! i = Some a -> in_use a = true -> idx a <> k
  end.
Proof.
  intros Hr. destruct (m !! k) as [e|] eqn:He.
  - destruct (kl_slot _ _ _ Hr k e He) as (Hk & i & a & Hi & Ha). split; [done|].
    assert (in_use a = true) as Hu by (apply in_use_idx; by rewrite Ha). exists i, a. split_and!; try done.
    destruct (kl_entry _ _ _ Hr i a Hi Hu) as (e' & He' & Hok). by replace e with e' by congruence.
  - intros i a Hi Hu Ha. destruct (kl_entry _ _ _ Hr i a Hi Hu) as (e & He' & _). congruence.
Qed.

(** The indexes in use. *)
Definition idx_in_use (l : list A) : list Z := idx <$> List.filter in_use l.

Lemma idx_in_use_elem l k : k ∈ idx_in_use l <-> exists i a, l !! i = Some a /\ in_use a = true /\ idx a = k.
Proof.
  unfold idx_in_use. rewrite list_elem_of_fmap. split.
  - intros (a & -> & Hin%list_elem_of_In%filter_In). destruct Hin as [Hin Hu].
    apply list_elem_of_In, list_elem_of_lookup in Hin as [i Hi]. by exists i, a.
  - intros (i & a & Hi & Hu & <-). exists a. split; [done|].
    apply list_elem_of_In, filter_In. split; [|done]. apply list_elem_of_In, list_elem_of_lookup. by exists i.
Qed.

Lemma idx_in_use_nodup l :
  (forall i j a b, l !! i = Some a -> l !! j = Some b -> in_use a = true -> idx a = idx b -> i = j) -> NoDup (idx_in_use l).
Proof.
  induction l as [|x l IH]; intros Hu; [constructor|].
  assert (NoDup (idx_in_use l)) as Hl.
  { apply IH. intros i j a b Ha Hb Hx Hab. enough (S i = S j) by lia. by eapply (Hu (S i) (S j) a b). }
  unfold idx_in_use. simpl. destruct (in_use x) eqn:Hx; [|done].
  constructor; [|done]. intros (i & a & Hi & _ & Eq)%idx_in_use_elem.
  assert (O = S i); [|done]. eapply (Hu O (S i) x a); try done.
Qed.

Lemma key_slots_size w l m : key_slots w l m -> size m = length (List.filter in_use l).
Proof.
  intros Hr. rewrite <-size_dom, <-(length_fmap idx). change (idx <$> _) with (idx_in_use l).
  rewrite <-(size_list_to_set (C := gset Z)) by (apply idx_in_use_nodup, Hr).
  f_equal. apply set_eq. intros k. rewrite elem_of_dom, elem_of_list_to_set, idx_in_use_elem. split.
  - intros [e He]. destruct (kl_slot _ _ _ Hr k e He) as (Hk & i & a & Hi & <-).
    exists i, a. split_and!; [done|by apply in_use_idx|done].
  - intros (i & a & Hi & Hu & <-). by destruct (kl_entry _ _ _ Hr i a Hi Hu) as (e & -> & _).
Qed.

Lemma filter_full {B} (p : B -> bool) l :
  length (List.filter p l) = length l <-> forall i x, l !! i = Some x -> p x = true.
Proof.
  induction l as [|x l IH]; simpl; [by split|].
  pose proof (filter_length_le p l) as Hle. destruct (p x) eqn:Hp; simpl.
  - rewrite Nat.succ_inj_wd, IH. split; [|intros Hl i y Hi; by apply (Hl (S i))].
    intros Hl [|i] y Hy; simpl in *; [congruence|by apply (Hl i)].
  - split; [lia|]. intros Hl. specialize (Hl O x eq_refl). congruence.
Qed.

Lemma key_slots_full w l m : key_slots w l m -> size m = length l <-> forall i a, l !! i = Some a -> in_use a = true.
Proof. intros Hr. rewrite (key_slots_size _ _ _ Hr). apply filter_full. Qed.

(** A node that starts. *)
Lemma key_slots_boot w n free : in_use free = false -> free_ok free -> mc_ready w -> F ⊆ mc_keys w ->
  key_slots w (replicate n free) ∅.
Proof.
  intros Hu Hf Hw HF.
  assert (forall i a, replicate n free !! i = Some a -> a = free) as Hfree by (by intros i a [-> _]%lookup_replicate_1).
  assert (ids free = []) as Hids by by apply free_ids.
  split; [done| | | | | | | |].
  - intros i j a b ->%Hfree. congruence.
  - intros i a ->%Hfree. congruence.
  - by intros i a ->%Hfree.
  - intros i a ->%Hfree. congruence.
  - intros k e He. by rewrite lookup_empty in He.
  - intros i a ->%Hfree. rewrite Hids. constructor.
  - intros i j a b id ->%Hfree. rewrite Hids. by intros _ ?%elem_of_nil.
  - intros id v Hv. split; [by eapply lookup_weaken|]. intros i a ->%Hfree. rewrite Hids. apply not_elem_of_nil.
Qed.

End KeySlots.

Arguments kl_ready {W _ _ A E idx ids slot_ok free_ok F w l m} _.
Arguments kl_unique {W _ _ A E idx ids slot_ok free_ok F w l m} _.
Arguments kl_range {W _ _ A E idx ids slot_ok free_ok F w l m} _.
Arguments kl_free {W _ _ A E idx ids slot_ok free_ok F w l m} _.
Arguments kl_entry {W _ _ A E idx ids slot_ok free_ok F w l m} _.
Arguments kl_slot {W _ _ A E idx ids slot_ok free_ok F w l m} _.
Arguments kl_nodup {W _ _ A E idx ids slot_ok free_ok F w l m} _.
Arguments kl_apart {W _ _ A E idx ids slot_ok free_ok F w l m} _.
Arguments kl_foreign {W _ _ A E idx ids slot_ok free_ok F w l m} _.

(** * Two arrays over one store

    Each holds the keys of the other to be foreign.  When the first has changed, as its
    own lemmas say, the second holds the keys that the first has now to be foreign. *)

Section TwoArrays.

Context {W : Type} `{MeshCryptoLaws W}.

(** The keys that the slots own, as they are in the store. *)
Definition owned_keys {A} (ids : A -> list Z) (w : W) (l : list A) : gmap Z (bt_mesh_key_type * list Z) :=
  filter (fun p => p.1 ∈ concat (ids <$> l)) (mc_keys w).

Lemma owned_keys_lookup {A} (ids : A -> list Z) w l id v :
  owned_keys ids w l !! id = Some v <-> mc_keys w !! id = Some v /\ exists i a, l !! i = Some a /\ id ∈ ids a.
Proof.
  unfold owned_keys. rewrite map_lookup_filter_Some. cbn. apply and_iff_compat_l. rewrite list_elem_of_In, in_concat. split.
  - intros (x & Hx & Hid). apply list_elem_of_In, list_elem_of_fmap in Hx as (a & -> & Ha).
    apply list_elem_of_lookup in Ha as [i Hi]. exists i, a. split; [done|]. by apply list_elem_of_In.
  - intros (i & a & Hi & Hid). exists (ids a). split; [|by apply list_elem_of_In].
    apply list_elem_of_In, list_elem_of_fmap. exists a. split; [done|]. by eapply list_elem_of_lookup_2.
Qed.

Context {A1 E1 : Type} (idx1 : A1 -> Z) (ids1 : A1 -> list Z) (ok1 : W -> A1 -> E1 -> Prop) (free1 : A1 -> Prop).
Context {A2 E2 : Type} (idx2 : A2 -> Z) (ids2 : A2 -> list Z) (ok2 : W -> A2 -> E2 -> Prop) (free2 : A2 -> Prop).
Context `{!SlotLaws idx2 ids2 ok2 free2}.

Lemma owned_in_store G w l m i a id : key_slots idx2 ids2 ok2 free2 G w l m -> l !! i = Some a -> id ∈ ids2 a ->
  is_Some (mc_keys w !! id).
Proof.
  intros Hr Hi Hid. destruct (in_use idx2 a) eqn:Hu.
  - destruct (kl_entry Hr i a Hi Hu) as (e & _ & He). by eapply (slot_ids idx2 ids2 ok2 free2).
  - rewrite (free_ids idx2 ids2 ok2 free2) in Hid; [by apply elem_of_nil in Hid|done|by apply (kl_free Hr i)].
Qed.

Lemma key_slots_other w w' l1 m1 G l2 m2 :
  key_slots idx1 ids1 ok1 free1 (owned_keys ids2 w l2) w' l1 m1 -> key_slots idx2 ids2 ok2 free2 G w l2 m2 ->
  key_slots idx2 ids2 ok2 free2 (owned_keys ids1 w' l1) w' l2 m2 /\ owned_keys ids2 w' l2 = owned_keys ids2 w l2.
Proof.
  intros Hr1 Hr2.
  assert (forall i a id, l2 !! i = Some a -> id ∈ ids2 a -> exists v, owned_keys ids2 w l2 !! id = Some v /\ mc_keys w !! id = Some v) as Hown.
  { intros i a id Hi Hid. destruct (owned_in_store G w l2 m2 i a id Hr2 Hi Hid) as [v Hv].
    exists v. split; [|done]. apply owned_keys_lookup. split; [done|]. by exists i, a. }
  assert (forall i a id, l2 !! i = Some a -> id ∈ ids2 a -> mc_keys w' !! id = mc_keys w !! id) as Hsame.
  { intros i a id Hi Hid. destruct (Hown i a id Hi Hid) as (v & Hv & ->). by apply (kl_foreign Hr1 id v). }
  split.
  - split; try apply Hr2; [apply (kl_ready Hr1)| |].
    + intros i a Hi Hu. destruct (kl_entry Hr2 i a Hi Hu) as (e & He & Hok). exists e. split; [done|].
      eapply (slot_same idx2 ids2 ok2 free2); [done|exact Hok|]. intros id Hid _. by eapply Hsame.
    + intros id v [Hv (j & b & Hj & Hidb)]%owned_keys_lookup. split; [done|]. intros i a Hi Hid.
      destruct (Hown i a id Hi Hid) as (v' & Hv' & _). destruct (kl_foreign Hr1 id v' Hv') as [_ Hno]. by apply (Hno j b).
  - apply map_eq. intros id. apply option_eq. intros v. rewrite !owned_keys_lookup. split.
    + intros [Hv (i & a & Hi & Hid)]. split; [by rewrite <-(Hsame i a id)|by exists i, a].
    + intros [Hv (i & a & Hi & Hid)]. split; [by rewrite (Hsame i a id)|by exists i, a].
Qed.

End TwoArrays.
