(* ===== verification/SubnetTable.v ===== *)
(** The subnets as a table of keys: what [mesh/subnet.c] does to the NetKeys.

    Over the operations of [Subnet.v] and any crypto backend that keeps its
    promises, the slots and the key store behind them implement a finite map from
    NetKey indexes to the phase of the key refresh procedure, the key in use
    and, during the procedure, the new key. *)

From Stdlib Require Import String.
From S2P Require Import Prelude Byteorder MeshDefs CryptoIf Crypto Subnet KeySlots.

Section Table.

Context {W : Type} `{MeshCryptoLaws W}.
Context (SETTINGS GATT_PROXY PRIV_BEACONS V1d1 : bool).
(** The private beacon keys exist if they are destroyed. *)
Context (Hconfig : V1d1 = true -> PRIV_BEACONS = true).
(** For what imports NetKeys. *)
Context `{!MeshImportLaws W}.
(** The keys that other components have in the store. *)
Context (F : gmap Z (bt_mesh_key_type * list Z)).
Notation st := (subnet_state W).

(** * Key sets *)

(** The identifiers of a key set. *)
Definition ids (k : bt_mesh_subnet_keys) : list Z :=
  [net k; enc (msg k); privacy (msg k); beacon k]
    ++ (if GATT_PROXY then [identity k] else []) ++ (if PRIV_BEACONS then [priv_beacon k] else []).

Definition derived (raw : list Z) (s : string) : list Z :=
  K1 raw (S1 (str s)) (str "id128" ++ [1]).

(** What the key store should hold under them: the NetKey and what the
    specification derives from it. *)
Definition vals (raw : list Z) : list (bt_mesh_key_type * list Z) :=
  [(BT_MESH_KEY_TYPE_NET, raw); (BT_MESH_KEY_TYPE_CCM, K2_T2 raw [0]);
   (BT_MESH_KEY_TYPE_ECB, K2_T3 raw [0]); (BT_MESH_KEY_TYPE_CMAC, derived raw "nkbk")]
    ++ (if GATT_PROXY then [(BT_MESH_KEY_TYPE_ECB, derived raw "nkik")] else [])
    ++ (if PRIV_BEACONS then [(BT_MESH_KEY_TYPE_ECB, derived raw "nkpk")] else []).

Definition in_store (w : W) (id : Z) (v : bt_mesh_key_type * list Z) : Prop :=
  mc_keys w !! id = Some v.

(** A valid key set made from the NetKey [raw]. *)
Record keys_ok (w : W) (k : bt_mesh_subnet_keys) (raw : list Z) : Prop := {
  ko_valid : valid k = true;
  ko_length : List.length raw = 16%nat;
  ko_store : Forall2 (in_store w) (ids k) (vals raw);
  ko_nid : K2 raw [0] = nid (msg k) * 2 ^ 256 + dec BE (K2_T2 raw [0] ++ K2_T3 raw [0]);
  ko_net_id : dec BE (net_id k) = K3 raw
}.

Lemma keys_ok_same w w' k raw :
  keys_ok w k raw -> (forall id, id ∈ ids k -> is_Some (mc_keys w !! id) -> mc_keys w' !! id = mc_keys w !! id) ->
  keys_ok w' k raw.
Proof.
  intros [H1 H2 H3 H4 H5] Hs. split; try done.
  assert (forall l v, (forall id, id ∈ l -> id ∈ ids k) ->
    Forall2 (in_store w) l v -> Forall2 (in_store w') l v) as Hall.
  { intros l v Hl. induction 1 as [|id x l v Hx _ IH]; constructor.
    - unfold in_store in *. rewrite Hs; [done|apply Hl; left|by rewrite Hx].
    - apply IH. intros i Hi. apply Hl. by right. }
  by apply Hall.
Qed.

Lemma keys_ok_some w k raw id : keys_ok w k raw -> id ∈ ids k -> is_Some (mc_keys w !! id).
Proof.
  intros Hk Hid. destruct Hk as [_ _ Hs _ _]. apply list_elem_of_lookup in Hid as [i Hi].
  destruct (Forall2_lookup_l _ _ _ _ _ Hs Hi) as (v & _ & Hv). unfold in_store in Hv. by rewrite Hv.
Qed.

Lemma keys_ok_net w k raw : keys_ok w k raw -> mc_keys w !! net k = Some (BT_MESH_KEY_TYPE_NET, raw).
Proof. intros [_ _ Hs _ _]. by apply Forall2_cons in Hs as [? _]. Qed.

(** ** Creation *)

(** Progress of a computation that may add keys. *)
Definition grows (w w' : W) : Prop := mc_keys w ⊆ mc_keys w' /\ mc_ready w'.

Lemma grows_trans w w1 w2 : grows w w1 -> grows w1 w2 -> grows w w2.
Proof. intros [H1 _] [H2 H3]. split; [by etrans|done]. Qed.

Lemma grows_lookup w w' id v : grows w w' -> mc_keys w !! id = Some v -> mc_keys w' !! id = Some v.
Proof. intros [Hs _] Hk. by eapply lookup_weaken. Qed.

Lemma grows_fresh w w' id : grows w w' -> mc_keys w' !! id = None -> mc_keys w !! id = None.
Proof. intros [Hs _] Hk. by eapply lookup_weaken_None. Qed.

(** The backend refuses to import the NetKey, in [w] or after the keys derived
    from it were imported. *)
Definition refused (w : W) (key : list Z) : Prop :=
  exists w1 e w2, grows w w1 /\ mc_key_import BT_MESH_KEY_TYPE_NET key w1 = (Err e, w2).

(** A derived key is imported under a fresh identifier. *)
Lemma create_derived w raw s t :
  mc_ready w -> exportable t = false ->
  exists id w', bt_mesh_id128 raw s t w = (Ok id, w') /\ grows w w' /\ mc_keys w !! id = None /\
    mc_keys w' !! id = Some (t, derived raw s).
Proof.
  intros Hw Ht. destruct (id128_spec w raw s t Hw Ht) as (id & w' & E & Hn & Hk & Hr).
  exists id, w'. split_and!; [done| |done|by rewrite Hk, lookup_insert_eq].
  split; [|done]. rewrite Hk. by apply insert_subseteq.
Qed.

(** The identifiers made so far, each fresh when it was made. *)
Record made (w0 w : W) (l : list (Z * (bt_mesh_key_type * list Z))) : Prop := {
  md_grows : grows w0 w;
  md_nodup : NoDup l.*1;
  md_fresh : Forall (fun p => mc_keys w0 !! p.1 = None) l;
  md_store : Forall (fun p => mc_keys w !! p.1 = Some p.2) l
}.

Lemma made_step w0 w w' l id v :
  made w0 w l -> grows w w' -> mc_keys w !! id = None -> mc_keys w' !! id = Some v ->
  made w0 w' (l ++ [(id, v)]).
Proof.
  intros [H1 H2 H3 H4] Hg Hn Hs. split.
  - by eapply grows_trans.
  - rewrite fmap_app. apply NoDup_app. split_and!; [done| |apply NoDup_singleton].
    intros i Hi Hin. apply list_elem_of_singleton in Hin as ->.
    apply list_elem_of_fmap in Hi as ([i v'] & Hiv & Hin). simpl in Hiv. subst.
    rewrite list.Forall_forall in H4. specialize (H4 _ Hin). simpl in H4. congruence.
  - apply Forall_app. split; [done|]. constructor; [|constructor]. by eapply grows_fresh.
  - apply Forall_app. split; [|by constructor; [|constructor]].
    eapply list.Forall_impl; [exact H4|]. intros p. by apply grows_lookup.
Qed.

(** Nothing imported: only the state may move on. *)
Lemma made_more w0 w w' l : made w0 w l -> grows w w' -> made w0 w' l.
Proof.
  intros [H1 H2 H3 H4] Hg. split; [by eapply grows_trans|done|done|].
  eapply list.Forall_impl; [exact H4|]. intros p. by apply grows_lookup.
Qed.

(** The imported keys in another order. *)
Lemma made_ids w0 w l xs ys :
  made w0 w l -> Permutation l (zip xs ys) -> length xs = length ys ->
  Forall2 (in_store w) xs ys /\ NoDup xs /\ forall id, id ∈ xs -> mc_keys w0 !! id = None.
Proof.
  intros [H1 H2 H3 H4] Hp Hl. rewrite Hp in H2, H3, H4.
  rewrite fst_zip in H2 by lia. split_and!; [|done|].
  - apply Forall2_same_length_lookup_2; [done|]. intros i x y Hx Hy.
    rewrite list.Forall_forall in H4. apply (H4 (x, y)).
    apply list_elem_of_lookup. exists i. by rewrite lookup_zip_with, Hx, Hy.
  - intros id Hid. apply list_elem_of_lookup in Hid as [i Hi].
    destruct (lookup_lt_is_Some_2 ys i) as [y Hy]; [rewrite <-Hl; by eapply lookup_lt_Some|].
    rewrite list.Forall_forall in H3. apply (H3 (id, y)).
    apply list_elem_of_lookup. exists i. by rewrite lookup_zip_with, Hi, Hy.
Qed.

Lemma try_set_ok {A} (m : M W A) keys set next w a w' :
  m w = (Ok a, w') -> try_set m keys set next w = next (set a keys) w'.
Proof. intros E. unfold try_set, mbind, M_bind, attempt. by rewrite E. Qed.

Lemma try_set_err {A} (m : M W A) keys set next w e w' :
  m w = (Err e, w') -> try_set m keys set next w = (Ok (keys, e), w').
Proof. intros E. unfold try_set, mbind, M_bind, attempt. by rewrite E. Qed.

Lemma cred_create w raw :
  mc_ready w ->
  exists c w', msg_cred_create [0] raw w = (Ok c, w') /\
    made w w' [(enc c, (BT_MESH_KEY_TYPE_CCM, K2_T2 raw [0])); (privacy c, (BT_MESH_KEY_TYPE_ECB, K2_T3 raw [0]))] /\
    K2 raw [0] = nid c * 2 ^ 256 + dec BE (K2_T2 raw [0] ++ K2_T3 raw [0]).
Proof.
  intros Hw. destruct (k2_spec w raw [0] Hw) as ([[n e] v] & w' & E & [H1 H2 H3 H4 H5 H6 H7]).
  simpl in *. destruct H5 as (Hfe & Hfv & Hne).
  exists (mk_cred n e v), w'. split; [unfold msg_cred_create; by rewrite (bind_ok _ _ _ _ _ E)|].
  split; [|done]. split; simpl.
  - split; [|done]. apply map_subseteq_spec. intros i x Hx. rewrite H6; [done|by rewrite Hx].
  - apply NoDup_cons. split; [by intros ->%list_elem_of_singleton|apply NoDup_singleton].
  - by repeat constructor.
  - by repeat constructor.
Qed.

(** What is derived after the import, in the order of the code. *)
Definition more_keys (k : bt_mesh_subnet_keys) (raw : list Z) : list (Z * (bt_mesh_key_type * list Z)) :=
  (if GATT_PROXY then [(identity k, (BT_MESH_KEY_TYPE_ECB, derived raw "nkik"))] else [])
    ++ [(beacon k, (BT_MESH_KEY_TYPE_CMAC, derived raw "nkbk"))]
    ++ (if PRIV_BEACONS then [(priv_beacon k, (BT_MESH_KEY_TYPE_ECB, derived raw "nkpk"))] else []).

(** An optional derived key. *)
Lemma derive_step (b : bool) m set w0 w l raw s t keys next (P : bt_mesh_subnet_keys * Z -> W -> Prop) :
  m = bt_mesh_id128 raw s t -> exportable t = false ->
  made w0 w l -> mc_ready w ->
  (forall id w', made w0 w' (l ++ if b then [(id, (t, derived raw s))] else []) -> mc_ready w' ->
     exists r w2, next (if b then set id keys else keys) w' = (Ok r, w2) /\ P r w2) ->
  exists r w2, (if b then try_set m keys set else fun next => next keys) next w = (Ok r, w2) /\ P r w2.
Proof.
  intros -> Ht Hm Hw Hn. destruct b.
  - destruct (create_derived w raw s t Hw Ht) as (id & w' & E & Hg & Hf & Hs).
    destruct (Hn id w') as (r & w2 & E2 & HP); [by eapply made_step|apply Hg|].
    exists r, w2. by rewrite (try_set_ok _ _ _ _ _ _ _ E).
  - apply (Hn 0 w); [by rewrite app_nil_r|done].
Qed.

Lemma derive_spec w0 w l keys raw :
  made w0 w l -> mc_ready w ->
  exists r w', net_keys_derive GATT_PROXY PRIV_BEACONS keys raw w = (Ok r, w') /\
    (r.2 = 0 /\ net r.1 = net keys /\ msg r.1 = msg keys /\ valid r.1 = true /\
     dec BE (net_id r.1) = K3 raw /\ made w0 w' (l ++ more_keys r.1 raw) /\ mc_ready w').
Proof.
  intros Hm Hw. unfold net_keys_derive.
  destruct (k3_yields w raw Hw) as (out & (w1 & E & Hk & Hr) & H3 & _).
  rewrite (try_set_ok _ _ _ _ _ _ _ E).
  assert (made w0 w1 l) as Hm1 by (eapply made_more; [exact Hm|by split; [rewrite Hk|]]).
  eapply (derive_step GATT_PROXY _ _ w0 w1 l raw "nkik" BT_MESH_KEY_TYPE_ECB); try done.
  intros i2 w2 Hm2 Hr2.
  eapply (derive_step true _ _ w0 w2 _ raw "nkbk" BT_MESH_KEY_TYPE_CMAC); try done.
  intros i3 w3 Hm3 Hr3.
  eapply (derive_step PRIV_BEACONS _ _ w0 w3 _ raw "nkpk" BT_MESH_KEY_TYPE_ECB); try done.
  intros i4 w4 Hm4 Hr4. eexists _, w4. split; [reflexivity|].
  unfold more_keys. rewrite !(assoc_L (++)).
  by destruct GATT_PROXY, PRIV_BEACONS.
Qed.

(** All the keys of a set made so. *)
Lemma derived_ok w0 w l k raw :
  length raw = 16%nat -> made w0 w (l ++ more_keys k raw) -> mc_ready w ->
  Permutation l [(net k, (BT_MESH_KEY_TYPE_NET, raw)); (enc (msg k), (BT_MESH_KEY_TYPE_CCM, K2_T2 raw [0]));
     (privacy (msg k), (BT_MESH_KEY_TYPE_ECB, K2_T3 raw [0]))] ->
  valid k = true -> dec BE (net_id k) = K3 raw ->
  K2 raw [0] = nid (msg k) * 2 ^ 256 + dec BE (K2_T2 raw [0] ++ K2_T3 raw [0]) ->
  keys_ok w k raw /\ NoDup (ids k) /\ forall id, id ∈ ids k -> mc_keys w0 !! id = None.
Proof.
  intros Hl Hm Hr Hp Hv Hi Hn.
  destruct (made_ids w0 w _ (ids k) (vals raw) Hm) as (Hs & Hd & Hf).
  - rewrite Hp. unfold more_keys, ids, vals. destruct GATT_PROXY, PRIV_BEACONS; simpl;
      do 3 apply perm_skip; done || by apply perm_swap.
  - unfold ids, vals. by destruct GATT_PROXY, PRIV_BEACONS.
  - by split.
Qed.

Lemma create_spec w keys key :
  mc_ready w -> length key = 16%nat ->
  exists r w', net_keys_create GATT_PROXY PRIV_BEACONS keys true key w = (Ok r, w') /\
    (grows w w' /\
     ((r.2 = 0 /\ keys_ok w' r.1 key /\ NoDup (ids r.1) /\
       forall id, id ∈ ids r.1 -> mc_keys w !! id = None) \/
      (r.2 < 0 /\ valid r.1 = valid keys /\ refused w key))).
Proof.
  intros Hw Hl. unfold net_keys_create.
  destruct (cred_create w key Hw) as (c & w1 & E & Hm & Hn). rewrite (try_set_ok _ _ _ _ _ _ _ E).
  destruct (md_grows _ _ _ Hm) as [Hsub Hr].
  destruct (mc_import_exportable_spec w1 BT_MESH_KEY_TYPE_NET key Hl eq_refl Hr)
    as (w2 & Hr2 & [(k & E2 & Hf & Hk)|(e & E2 & He & Hk)]).
  - rewrite (try_set_ok _ _ _ _ _ _ _ E2).
    assert (made w w2 ([(enc c, (BT_MESH_KEY_TYPE_CCM, K2_T2 key [0]));
      (privacy c, (BT_MESH_KEY_TYPE_ECB, K2_T3 key [0]))] ++ [(k, (BT_MESH_KEY_TYPE_NET, key))])) as Hm2.
    { eapply made_step; [exact Hm| |exact Hf|by rewrite Hk, lookup_insert_eq].
      split; [rewrite Hk; by apply insert_subseteq|done]. }
    destruct (derive_spec w w2 _ (set_net k (set_msg c keys)) key Hm2 Hr2)
      as (r & w3 & E3 & Hz & Hnet & Hmsg & Hv & Hi & Hm3 & Hr3).
    exists r, w3. split; [done|]. split; [apply (md_grows _ _ _ Hm3)|]. left. split; [done|].
    eapply derived_ok; try done; rewrite ?Hnet, ?Hmsg; [|done].
    apply (Permutation_app_comm [_; _] [_]).
  - rewrite (try_set_err _ _ _ _ _ _ _ E2). eexists _, w2. split; [reflexivity|].
    split; [split; [by rewrite Hk|done]|]. right. split_and!; [done|done|].
    exists w1, e, w2. split; [by split|done].
Qed.

(** A key set for a NetKey that the store already holds. *)
Lemma create_stored_spec w keys key :
  mc_ready w -> length key = 16%nat -> mc_keys w !! net keys = Some (BT_MESH_KEY_TYPE_NET, key) ->
  exists r w', net_keys_create GATT_PROXY PRIV_BEACONS keys false key w = (Ok r, w') /\
    (grows w w' /\ r.2 = 0 /\ keys_ok w' r.1 key /\ NoDup (ids r.1) /\ net r.1 = net keys /\
     forall id, id ∈ ids r.1 -> id = net keys \/ mc_keys w !! id = None).
Proof.
  intros Hw Hl Hs. unfold net_keys_create.
  destruct (cred_create w key Hw) as (c & w1 & E & Hm & Hn). rewrite (try_set_ok _ _ _ _ _ _ _ E).
  destruct (derive_spec w w1 _ (set_msg c keys) key Hm (proj2 (md_grows _ _ _ Hm)))
    as (r & w3 & E3 & Hz & Hnet & Hmsg & Hv & Hi & Hm3 & Hr3).
  exists r, w3. split; [done|]. pose proof (md_grows _ _ _ Hm3) as Hg. split; [done|]. split; [done|].
  destruct (made_ids w w3 _ (tail (ids r.1)) (tail (vals key)) Hm3) as (Ht & Hd & Hf).
  { simpl. rewrite Hmsg. simpl. do 2 apply perm_skip. unfold more_keys.
    destruct GATT_PROXY, PRIV_BEACONS; simpl; done || by apply perm_swap. }
  { unfold ids, vals. by destruct GATT_PROXY, PRIV_BEACONS. }
  change (ids r.1) with (net r.1 :: tail (ids r.1)). simpl in Hnet. rewrite !Hnet.
  split_and!; [|constructor; [|done]|done|].
  - split; try done; [|by rewrite Hmsg].
    change (ids r.1) with (net r.1 :: tail (ids r.1)). constructor; [|done].
    unfold in_store. rewrite Hnet. by eapply grows_lookup.
  - intros Hin. apply Hf in Hin. congruence.
  - intros id [->|Hin]%elem_of_cons; [by left|right; by apply Hf].
Qed.

(** ** Comparison *)

Lemma compare_spec w k raw key :
  mc_ready w -> length key = 16%nat -> keys_ok w k raw ->
  exists c w', mc_key_compare key (net k) w = (Ok c, w') /\
    ((c = 0 <-> key = raw) /\ mc_keys w' = mc_keys w /\ mc_ready w').
Proof.
  intros Hw Hl Hk. pose proof (keys_ok_net _ _ _ Hk) as Hs.
  pose proof (mc_export_spec w (net k) BT_MESH_KEY_TYPE_NET raw Hs eq_refl (ko_length _ _ _ Hk)) as Hx.
  destruct (yields_attempt _ _ _ (computes_yields _ _ _ Hx Hw)) as (w' & E & Hks & Hr).
  exists (memcmp raw key), w'. unfold mc_key_compare. rewrite (bind_ok _ _ _ _ _ E).
  split; [done|]. split; [|done]. rewrite memcmp_eq by (by rewrite Hl, (ko_length _ _ _ Hk)).
  split; congruence.
Qed.

(** ** Destruction *)

(** The keys [subnet_keys_destroy] gives back, in its order. *)
Definition destroyed (k : bt_mesh_subnet_keys) : list Z :=
  [net k; enc (msg k); privacy (msg k); beacon k]
    ++ (if GATT_PROXY then [identity k] else []) ++ (if V1d1 then [priv_beacon k] else []).

(** The key store without them; 0 is no key. *)
Definition without (l : list Z) (m : gmap Z (bt_mesh_key_type * list Z)) :=
  foldl (fun m id => if id =? 0 then m else delete id m) m l.

Lemma without_lookup l m id :
  without l m !! id = if bool_decide (id ∈ l /\ id <> 0) then None else m !! id.
Proof.
  unfold without. revert m. induction l as [|x l IH]; intros m; cbn [foldl].
  { rewrite bool_decide_eq_false_2; [done|]. by intros [?%elem_of_nil _]. }
  rewrite IH. destruct (bool_decide_reflect (id ∈ l /\ id <> 0)) as [[Hi Hz]|Hn].
  { rewrite bool_decide_eq_true_2; [done|]. by split; [right|]. }
  destruct (Z.eqb_spec x 0) as [Hx|Hx].
  - rewrite bool_decide_eq_false_2; [done|]. intros [[->|Hi]%elem_of_cons Hz]; [done|by apply Hn].
  - destruct (decide (id = x)) as [->|Hne].
    + rewrite lookup_delete_eq, bool_decide_eq_true_2; [done|]. by split; [left|].
    + rewrite lookup_delete_ne by done. rewrite bool_decide_eq_false_2; [done|].
      intros [[?|Hi]%elem_of_cons Hz]; [done|by apply Hn].
Qed.

Lemma destroy_step w id :
  mc_ready w -> is_Some (mc_keys w !! id) ->
  exists w', ignore (mc_key_destroy id) w = (Ok (), w') /\ mc_ready w' /\
    mc_keys w' = without [id] (mc_keys w).
Proof.
  intros Hw Hs. destruct (mc_destroy_spec w id Hw (or_introl Hs)) as (r & w' & E & Hr & Hk).
  exists w'. unfold ignore. by rewrite (bind_ok _ _ _ _ _ E).
Qed.

(** One call, with those that follow it. *)
Lemma destroy_then {B} w id l (f : unit -> M W B) (P : B -> W -> Prop) :
  mc_ready w -> NoDup (id :: l) -> Forall (fun id => is_Some (mc_keys w !! id)) (id :: l) ->
  (forall w', mc_ready w' -> mc_keys w' = without [id] (mc_keys w) -> NoDup l ->
     Forall (fun id => is_Some (mc_keys w' !! id)) l -> exists r w2, f () w' = (Ok r, w2) /\ P r w2) ->
  exists r w2, (ignore (mc_key_destroy id) ≫= f) w = (Ok r, w2) /\ P r w2.
Proof.
  intros Hw [Hn Hd]%NoDup_cons [Hs Hl]%Forall_cons Hf.
  destruct (destroy_step w id Hw Hs) as (w' & E & Hr & Hk).
  rewrite (bind_ok _ _ _ _ _ E). apply Hf; [done..|].
  rewrite list.Forall_forall in *. intros x Hx. rewrite Hk, without_lookup.
  rewrite bool_decide_eq_false_2; [by apply Hl|]. by intros [->%list_elem_of_singleton _].
Qed.

Lemma destroyed_sublist k : sublist (destroyed k) (ids k).
Proof.
  unfold destroyed, ids. do 4 apply sublist_skip. apply sublist_app; [done|].
  destruct V1d1; [by rewrite Hconfig|apply sublist_nil_l].
Qed.

(** Keys outside the set are kept. *)
Lemma destroyed_other w w' k id :
  mc_keys w' = without (destroyed k) (mc_keys w) -> id ∉ ids k -> mc_keys w' !! id = mc_keys w !! id.
Proof.
  intros -> Hn. rewrite without_lookup, bool_decide_eq_false_2; [done|].
  intros [Hi _]. apply Hn. eapply elem_of_sublist; [exact Hi|apply destroyed_sublist].
Qed.

(** The keys that only some configurations have. *)
Lemma destroy_opt (b : bool) w id l :
  mc_ready w -> NoDup ((if b then [id] else []) ++ l) ->
  Forall (fun id => is_Some (mc_keys w !! id)) ((if b then [id] else []) ++ l) ->
  exists w', (if b then ignore (mc_key_destroy id) else mret ()) w = (Ok (), w') /\ mc_ready w' /\
    mc_keys w' = without (if b then [id] else []) (mc_keys w) /\
    Forall (fun id => is_Some (mc_keys w' !! id)) l.
Proof.
  destruct b; simpl; intros Hw Hd Hs; [|by exists w].
  apply NoDup_cons in Hd as [Hn _]. apply Forall_cons in Hs as [Hs Hl].
  destruct (destroy_step w id Hw Hs) as (w' & E & Hr & Hk). exists w'. split_and!; try done.
  rewrite list.Forall_forall in *. intros x Hx. rewrite Hk, without_lookup.
  rewrite bool_decide_eq_false_2; [by apply Hl|]. by intros [->%list_elem_of_singleton _].
Qed.

Lemma keys_destroy_spec w k :
  mc_ready w -> NoDup (ids k) -> Forall (fun id => is_Some (mc_keys w !! id)) (ids k) ->
  exists r w', subnet_keys_destroy GATT_PROXY V1d1 k w = (Ok r, w') /\
    (mc_ready w' /\ mc_keys w' = without (destroyed k) (mc_keys w)).
Proof.
  intros Hw Hd Hs. unfold subnet_keys_destroy, destroyed.
  pose proof (destroyed_sublist k) as Hsub.
  assert (NoDup (destroyed k)) as Hd' by (by eapply sublist_NoDup).
  assert (Forall (fun id => is_Some (mc_keys w !! id)) (destroyed k)) as Hs'
    by (rewrite list.Forall_forall in *; eauto using elem_of_sublist).
  clear Hd Hs Hsub. unfold destroyed in *.
  do 4 (eapply destroy_then; [eassumption|exact Hd'|exact Hs'|]; clear Hd' Hs'; intros ? ? ? Hd' Hs').
  revert Hd' Hs'. set (rest := (if GATT_PROXY then _ else _) ++ _). intros Hd' Hs'.
  change (without ([net k; enc (msg k); privacy (msg k); beacon k] ++ rest) (mc_keys w)) with
    (without rest (without [beacon k] (without [privacy (msg k)]
      (without [enc (msg k)] (without [net k] (mc_keys w)))))).
  repeat match goal with E : mc_keys ?a = without _ _ |- _ => rewrite <-E; clear E end.
  unfold rest in *. clear rest.
  edestruct (destroy_opt GATT_PROXY) as (w4 & E & Hr & Hk & Hl); [eassumption|exact Hd'|exact Hs'|].
  rewrite (bind_ok _ _ _ _ _ E). rewrite <-app_nil_r in Hl.
  edestruct (destroy_opt V1d1 w4 (priv_beacon k) []) as (w5 & E5 & Hr5 & Hk5 & _);
    [done|rewrite app_nil_r; by apply NoDup_app in Hd' as (_ & _ & ?)|exact Hl|].
  exists (), w5. split_and!; [done|done|]. rewrite Hk5, Hk. unfold without. by rewrite foldl_app.
Qed.

(** * The table *)

(** The phase, the key in use and, during a key refresh, the new key. *)
Definition entry : Type := Z * list Z * option (list Z).

Definition slot_ok (w : W) (sub : bt_mesh_subnet) (e : entry) : Prop :=
  let '(p, r0, r1) := e in
  kr_phase sub = p /\ keys_ok w (keys0 sub) r0 /\
  match r1 with
  | None => p = BT_MESH_KR_NORMAL /\ valid (keys1 sub) = false
  | Some r => p <> BT_MESH_KR_NORMAL /\ keys_ok w (keys1 sub) r
  end.

(** The identifiers a subnet owns. *)
Definition sub_ids (sub : bt_mesh_subnet) : list Z :=
  if used sub then ids (keys0 sub) ++ (if valid (keys1 sub) then ids (keys1 sub) else []) else [].

Lemma slot_ok_some w sub e id :
  slot_ok w sub e -> id ∈ sub_ids sub -> is_Some (mc_keys w !! id).
Proof.
  destruct e as [[p r0] r1]. intros (_ & Hk0 & Hk1). unfold sub_ids.
  destruct (used sub); [|by intros ?%elem_of_nil]. intros [Hi|Hi]%elem_of_app; [by eapply keys_ok_some|].
  destruct r1 as [r|].
  - destruct Hk1 as [_ Hk1]. rewrite (ko_valid _ _ _ Hk1) in Hi. by eapply keys_ok_some.
  - destruct Hk1 as [_ Hv]. rewrite Hv in Hi. by apply elem_of_nil in Hi.
Qed.

Lemma slot_ok_same w w' sub e :
  used sub = true -> slot_ok w sub e ->
  (forall id, id ∈ sub_ids sub -> is_Some (mc_keys w !! id) -> mc_keys w' !! id = mc_keys w !! id) ->
  slot_ok w' sub e.
Proof.
  destruct e as [[p r0] r1]. intros Hu (Hp & Hk0 & Hk1) Hs. unfold sub_ids in Hs. rewrite Hu in Hs.
  split_and!; [done| |].
  - eapply keys_ok_same; [exact Hk0|]. intros id Hi. apply Hs, elem_of_app. by left.
  - destruct r1 as [r|]; [|done]. destruct Hk1 as [Hn Hk1]. split; [done|].
    eapply keys_ok_same; [exact Hk1|]. intros id Hi. apply Hs, elem_of_app. right.
    by rewrite (ko_valid _ _ _ Hk1).
Qed.

Lemma sub_ids_used sub id : id ∈ sub_ids sub -> used sub = true.
Proof. unfold sub_ids. destruct (used sub); [done|by intros ?%elem_of_nil]. Qed.

(** A free slot has no new keys. *)
Definition idle (sub : bt_mesh_subnet) : Prop := valid (keys1 sub) = false.

#[export] Instance subnet_slot_laws : SlotLaws net_idx sub_ids slot_ok idle.
Proof.
  split; [|exact slot_ok_some|exact slot_ok_same].
  intros sub Hu _. unfold sub_ids. change (used sub) with (in_use net_idx sub). by rewrite Hu.
Qed.

(** The state [s] implements the table [m]. *)
Record rep (s : st) (m : gmap Z entry) : Prop := {
  rp_keys : key_slots net_idx sub_ids slot_ok idle F (crypto s) (subnets s) m;
  rp_phase : forall i sub, subnets s !! i = Some sub -> used sub = true -> 0 <= kr_phase sub <= 2
}.

(** Some subnet owns [id], or another component does. *)
Definition live (s : st) (id : Z) : Prop := owned sub_ids F (subnets s) id.

Lemma rp_ready s m : rep s m -> mc_ready (crypto s).
Proof. intros [Hr _]. exact (kl_ready Hr). Qed.
Lemma rp_slots s m : rep s m -> slots_ok (subnets s).
Proof. intros [Hr Hp]. split; [exact (kl_unique Hr)|exact (kl_range Hr)|exact Hp]. Qed.
Lemma rp_free s m : rep s m -> forall i sub, subnets s !! i = Some sub -> used sub = false -> valid (keys1 sub) = false.
Proof. intros [Hr _]. exact (kl_free Hr). Qed.
Lemma rp_entry s m : rep s m -> forall i sub, subnets s !! i = Some sub -> used sub = true ->
  exists e, m !! net_idx sub = Some e /\ slot_ok (crypto s) sub e.
Proof. intros [Hr _]. exact (kl_entry Hr). Qed.
Lemma rp_slot s m : rep s m -> forall k e, m !! k = Some e ->
  is_key_idx k /\ exists i sub, subnets s !! i = Some sub /\ net_idx sub = k.
Proof. intros [Hr _]. exact (kl_slot Hr). Qed.
Lemma rp_nodup s m : rep s m -> forall i sub, subnets s !! i = Some sub -> NoDup (sub_ids sub).
Proof. intros [Hr _]. exact (kl_nodup Hr). Qed.
Lemma rp_apart s m : rep s m -> forall i j a b id, subnets s !! i = Some a -> subnets s !! j = Some b ->
  id ∈ sub_ids a -> id ∈ sub_ids b -> i = j.
Proof. intros [Hr _]. exact (kl_apart Hr). Qed.
Lemma rp_foreign s m : rep s m -> forall id v, F !! id = Some v -> mc_keys (crypto s) !! id = Some v /\
  forall i sub, subnets s !! i = Some sub -> id ∉ sub_ids sub.
Proof. intros [Hr _]. exact (kl_foreign Hr). Qed.

Lemma fresh_not_live s m id : rep s m -> mc_keys (crypto s) !! id = None -> ~ live s id.
Proof. intros [Hr _] Hn. exact (fresh_not_owned _ _ _ _ _ _ _ _ _ Hr Hn). Qed.

Lemma unused_idx sub : used sub = false -> net_idx sub = BT_MESH_KEY_UNUSED.
Proof. apply (not_in_use net_idx). Qed.

Lemma key_idx_is_used sub : is_key_idx (net_idx sub) -> used sub = true.
Proof. apply (in_use_idx net_idx). Qed.

(** Slot [i] gets the entry [oe], or is given up. *)
Lemma rep_replace s s' m i old new (oe : option entry) :
  rep s m -> subnets s !! i = Some old -> subnets s' = <[i := new]> (subnets s) ->
  mc_ready (crypto s') ->
  (forall id, id ∉ sub_ids old -> is_Some (mc_keys (crypto s) !! id) ->
     mc_keys (crypto s') !! id = mc_keys (crypto s) !! id) ->
  match oe with
  | Some e => is_key_idx (net_idx new) /\ 0 <= kr_phase new <= 2 /\
      (net_idx new = net_idx old \/ used old = false /\ m !! net_idx new = None) /\
      slot_ok (crypto s') new e /\ NoDup (sub_ids new) /\
      forall id, id ∈ sub_ids new -> id ∈ sub_ids old \/ ~ live s id
  | None => used new = false /\ valid (keys1 new) = false
  end ->
  rep s' (match oe with Some e => <[net_idx new := e]> m | None => delete (net_idx old) m end).
Proof.
  intros [Hr Hp] Hi Hs' Hw Hk Hoe. split; rewrite Hs'.
  - apply (key_slots_replace _ _ _ _ _ _ _ _ _ i old new oe Hr Hi Hw Hk). destruct oe; [|exact Hoe].
    destruct Hoe as (? & _ & ?). by split.
  - intros j sub Hj Hu. destruct (decide (j = i)) as [->|Hji].
    + rewrite list_lookup_insert_eq in Hj by (by eapply lookup_lt_Some). injection Hj as <-.
      destruct oe; [apply Hoe|destruct Hoe; congruence].
    + rewrite list_lookup_insert_ne in Hj by done. by apply (Hp j).
Qed.

(** ** Looking up *)

Lemma rep_frame s s' m : rep s m -> crypto s' = crypto s -> subnets s' = subnets s -> rep s' m.
Proof. intros [] Hc Hs. by split; rewrite ?Hc, ?Hs. Qed.

(** What the table says of an index is in the slot of the index. *)
Definition in_slot (s : st) (i : nat) (k : Z) (e : entry) : Prop :=
  exists sub, subnets s !! i = Some sub /\ net_idx sub = k /\ used sub = true /\
    slot_ok (crypto s) sub e.

Lemma get_rep s m k :
  rep s m -> is_key_idx k ->
  match m !! k with
  | Some e => exists i, bt_mesh_subnet_get k s = Some i /\ in_slot s i k e
  | None => bt_mesh_subnet_get k s = None
  end.
Proof.
  intros Hr Hk. pose proof (key_idx_used k Hk) as Hku.
  pose proof (subnet_get_slot s k Hku (so_unique _ (rp_slots _ _ Hr))) as Hg.
  destruct (bt_mesh_subnet_get k s) as [i|].
  - destruct Hg as (sub & Hi & _ & Hn & Hu).
    destruct (rp_entry _ _ Hr i sub Hi Hu) as (e & He & Hok). rewrite <-Hn, He.
    exists i. split; [done|]. by exists sub.
  - destruct (m !! k) as [e|] eqn:He; [|done].
    destruct (rp_slot _ _ Hr k e He) as (_ & i & sub & Hi & Hn). by destruct (Hg i sub Hi).
Qed.

Lemma rep_size s m : rep s m -> size m = length (List.filter used (subnets s)).
Proof. intros [Hr _]. exact (key_slots_size _ _ _ _ _ _ _ _ Hr). Qed.

(** The scan for a slot. *)
Lemma alloc_rep s m k :
  rep s m -> is_key_idx k ->
  match m !! k with
  | Some e => exists i, subnet_alloc k s = Some i /\ in_slot s i k e
  | None =>
      if decide (size m = length (subnets s)) then subnet_alloc k s = None
      else exists i sub, subnet_alloc k s = Some i /\ subnets s !! i = Some sub /\ used sub = false
  end.
Proof.
  intros Hr Hk. unfold subnet_alloc.
  pose proof (alloc_scan_spec k (subnets s) 0 None) as Ha.
  rewrite (rep_size _ _ Hr).
  destruct (alloc_scan k (subnets s) 0 None) as [j|].
  - destruct Ha as [(i & sub & -> & Hi & Hn)|[Hno [?|(_ & i & sub & -> & Hi & Hu)]]]; [|done|].
    + assert (used sub = true) as Hu by (apply key_idx_is_used; by rewrite Hn).
      destruct (rp_entry _ _ Hr i sub Hi Hu) as (e & He & Hok). rewrite <-Hn, He.
      exists i. split; [done|]. by exists sub.
    + destruct (m !! k) as [e|] eqn:He.
      { destruct (rp_slot _ _ Hr k e He) as (_ & i' & sub' & Hi' & Hn'). by destruct (Hno i' sub' Hi'). }
      destruct (decide _) as [E|_]; [|by exists i, sub].
      apply (proj1 (filter_full used (subnets s))) with (i := i) (x := sub) in E; [congruence|done].
  - destruct Ha as [_ Hall]. destruct (m !! k) as [e|] eqn:He.
    { destruct (rp_slot _ _ Hr k e He) as (_ & i' & sub' & Hi' & Hn'). by destruct (Hall i' sub' Hi'). }
    destruct (decide _) as [_|Hn]; [done|]. destruct Hn. apply filter_full.
    intros i sub Hi. by apply (Hall i sub).
Qed.

(** ** Total correctness *)

Lemma wp_get {B} (k : st -> M st B) s Q : wp (k s) s Q -> wp (gets id ≫= k) s Q.
Proof. done. Qed.

(** The slots are [l] but for [sub] in slot [i], the backend is in state [w]. *)
Definition on (i : nat) (l : list bt_mesh_subnet) (sub : bt_mesh_subnet) (w : W) (s : st) : Prop :=
  subnets s = <[i := sub]> l /\ crypto s = w /\ (i < length l)%nat.

Lemma on_start s i sub : subnets s !! i = Some sub -> on i (subnets s) sub (crypto s) s.
Proof. intros Hi. split_and!; [by rewrite list_insert_id|done|by eapply lookup_lt_Some]. Qed.

Lemma on_at i l sub w s : on i l sub w s -> sub_at i s = sub.
Proof. intros (Hs & _ & Hi). unfold sub_at. rewrite Hs. by apply list_lookup_total_insert_eq. Qed.

Lemma wp_set i l sub w s f (Q : unit -> st -> Prop) :
  on i l sub w s -> (forall s', on i l (f sub) w s' -> Q () s') -> wp (set_sub i f) s Q.
Proof.
  intros Hon HQ. eexists (), _. split; [reflexivity|]. apply HQ.
  rewrite (on_at _ _ _ _ _ Hon). destruct Hon as (Hs & Hc & Hi).
  split_and!; [|done|done]. simpl. by rewrite Hs, list_insert_insert_eq.
Qed.

Lemma wp_emit i l sub w s e (Q : unit -> st -> Prop) :
  on i l sub w s -> (forall s', on i l sub w s' -> Q () s') -> wp (emit e) s Q.
Proof. intros Hon HQ. eexists (), _. split; [reflexivity|]. by apply HQ. Qed.

Lemma wp_crypto {A} i l sub w s (m : M W A) a w' (Q : A -> st -> Prop) :
  on i l sub w s -> m w = (Ok a, w') -> (forall s', on i l sub w' s' -> Q a s') ->
  wp (crypto_call m) s Q.
Proof.
  intros (Hs & Hc & Hi) E HQ. eexists a, _. split; [|by apply (HQ (set_crypto w' s))].
  unfold crypto_call. by rewrite Hc, E.
Qed.

Lemma wp_settings i l sub w s idx store (Q : unit -> st -> Prop) :
  on i l sub w s -> (forall s', on i l sub w s' -> Q () s') -> wp (update_subnet_settings idx store) s Q.
Proof.
  intros Hon HQ. unfold wp, update_subnet_settings, mbind, M_bind, gets.
  destruct (net_key_update_find idx (net_key_updates s)) as [[j|] [j'|]];
    try (eexists (), _; split; [reflexivity|]; by apply HQ).
  destruct store; [|eexists (), _; split; [reflexivity|]; by apply HQ].
  unfold store_subnet, mbind, M_bind, gets. cbn [id].
  destruct (bt_mesh_subnet_get idx s); eexists (), _; (split; [reflexivity|]); by apply HQ.
Qed.

Lemma wp_store i l sub w s j (Q : unit -> st -> Prop) :
  on i l sub w s -> (forall s', on i l sub w s' -> Q () s') -> wp (store_if_enabled SETTINGS j) s Q.
Proof.
  intros Hon HQ. unfold store_if_enabled. destruct SETTINGS; [|apply wp_ret; by apply HQ].
  apply wp_get. by eapply wp_settings.
Qed.

(** ** Key refresh *)

Definition revoked (sub : bt_mesh_subnet) : bt_mesh_subnet :=
  mk_subnet (net_idx sub) BT_MESH_KR_NORMAL (node_id sub) (priv_node_id sub) (keys1 sub)
    (invalidate (keys1 sub)).

Lemma wp_revoke i l sub w s (Q : unit -> st -> Prop) :
  on i l sub w s -> mc_ready w -> NoDup (ids (keys0 sub)) ->
  Forall (fun id => is_Some (mc_keys w !! id)) (ids (keys0 sub)) ->
  (forall w' s', mc_ready w' -> mc_keys w' = without (destroyed (keys0 sub)) (mc_keys w) ->
     on i l (revoked sub) w' s' -> Q () s') ->
  wp (revoke GATT_PROXY V1d1 i) s Q.
Proof.
  intros Hon Hw Hd Hs HQ. unfold revoke.
  destruct (keys_destroy_spec w (keys0 sub) Hw Hd Hs) as (r & w' & E & Hr & Hk).
  apply wp_bind. eapply wp_set; [exact Hon|]. clear Hon. intros s1 Hon.
  apply wp_get. rewrite (on_at _ _ _ _ _ Hon).
  apply wp_bind. eapply wp_crypto; [exact Hon|exact E|]. clear Hon. intros s2 Hon.
  apply wp_bind. eapply wp_set; [exact Hon|]. clear Hon. intros s3 Hon.
  apply wp_bind. eapply wp_set; [exact Hon|]. clear Hon. intros s4 Hon.
  apply wp_get. eapply wp_emit; [exact Hon|]. intros s5 Hon5. by eapply HQ.
Qed.

Lemma wp_refresh i l sub w s p (Q : unit -> st -> Prop) :
  on i l sub w s -> p = BT_MESH_KR_PHASE_1 \/ p = BT_MESH_KR_PHASE_2 ->
  (forall s', on i l (with_phase p sub) w s' -> Q () s') ->
  wp (key_refresh SETTINGS GATT_PROXY V1d1 i p) s Q.
Proof.
  intros Hon Hp HQ. unfold key_refresh. apply wp_get.
  destruct Hp as [->| ->]; simpl;
    (apply wp_bind; eapply wp_set; [exact Hon|]; clear Hon; intros s1 Hon;
     apply wp_bind; eapply wp_emit; [exact Hon|]; clear Hon; intros s2 Hon;
     eapply wp_store; [exact Hon|]; apply HQ).
Qed.

Lemma wp_refresh_end i l sub w s (Q : unit -> st -> Prop) :
  on i l sub w s -> kr_phase sub <> BT_MESH_KR_NORMAL -> mc_ready w -> NoDup (ids (keys0 sub)) ->
  Forall (fun id => is_Some (mc_keys w !! id)) (ids (keys0 sub)) ->
  (forall w' s', mc_ready w' -> mc_keys w' = without (destroyed (keys0 sub)) (mc_keys w) ->
     on i l (revoked sub) w' s' -> Q () s') ->
  wp (key_refresh SETTINGS GATT_PROXY V1d1 i BT_MESH_KR_PHASE_3) s Q.
Proof.
  intros Hon Hp Hw Hd Hs HQ. unfold key_refresh. apply wp_get. rewrite (on_at _ _ _ _ _ Hon). simpl.
  rewrite (proj2 (Z.eqb_neq _ _) Hp).
  apply wp_bind. eapply wp_revoke; [exact Hon|done..|]. intros w' s' Hr Hk Hon'.
  eapply wp_store; [exact Hon'|]. intros s2. by apply HQ.
Qed.

(** The identifiers of a slot that holds an entry. *)
Lemma sub_ids_entry s m i sub p r0 r1 :
  rep s m -> subnets s !! i = Some sub -> used sub = true -> slot_ok (crypto s) sub (p, r0, r1) ->
  sub_ids sub = ids (keys0 sub) ++ (if r1 then ids (keys1 sub) else []) /\ NoDup (sub_ids sub) /\
  Forall (fun id => is_Some (mc_keys (crypto s) !! id)) (sub_ids sub).
Proof.
  intros Hr Hi Hu Hok. pose proof Hok as (_ & _ & Hk1). split_and!.
  - unfold sub_ids. rewrite Hu. destruct r1; destruct Hk1 as [_ Hv]; [by rewrite (ko_valid _ _ _ Hv)|by rewrite Hv].
  - by eapply rp_nodup.
  - apply list.Forall_forall. intros id Hid. by eapply slot_ok_some.
Qed.

(** A change of phase, and of the keys within the slot. *)
Lemma rep_phase s s' m i sub p r0 r p' :
  rep s m -> subnets s !! i = Some sub -> is_key_idx (net_idx sub) ->
  slot_ok (crypto s) sub (p, r0, Some r) -> p' = BT_MESH_KR_PHASE_1 \/ p' = BT_MESH_KR_PHASE_2 ->
  on i (subnets s) (with_phase p' sub) (crypto s) s' ->
  rep s' (<[net_idx sub := (p', r0, Some r)]> m).
Proof.
  intros Hr Hi Hk (_ & Hk0 & _ & Hk1) Hp (Hs & Hc & Hl).
  pose proof (rep_replace s s' m i sub (with_phase p' sub) (Some (p', r0, Some r)) Hr Hi Hs) as Hrep.
  simpl in Hrep. apply Hrep; rewrite Hc; [apply Hr|done|]. split_and!; try done; auto.
  all: try by destruct Hp as [->| ->].
  exact (rp_nodup _ _ Hr i sub Hi).
Qed.

(** The end of the procedure. *)
Lemma rep_revoked s s' m i sub p r0 r w' :
  rep s m -> subnets s !! i = Some sub -> is_key_idx (net_idx sub) ->
  slot_ok (crypto s) sub (p, r0, Some r) -> mc_ready w' ->
  mc_keys w' = without (destroyed (keys0 sub)) (mc_keys (crypto s)) ->
  on i (subnets s) (revoked sub) w' s' ->
  rep s' (<[net_idx sub := (BT_MESH_KR_NORMAL, r, None)]> m).
Proof.
  intros Hr Hi Hk Hok Hw Hkeys (Hs & Hc & Hl). pose proof (key_idx_is_used _ Hk) as Hu.
  destruct (sub_ids_entry s m i sub p r0 (Some r) Hr Hi Hu Hok) as (Hids & Hd & Hsome).
  destruct Hok as (_ & Hk0 & _ & Hk1). rewrite Hids in Hd. apply NoDup_app in Hd as (Hd0 & Hdis & Hd1).
  assert (sub_ids (revoked sub) = ids (keys1 sub)) as Hids'
    by (unfold sub_ids; change (used (revoked sub)) with (used sub); rewrite Hu; apply app_nil_r).
  pose proof (rep_replace s s' m i sub (revoked sub) (Some (BT_MESH_KR_NORMAL, r, None)) Hr Hi Hs) as Hrep.
  simpl in Hrep. apply Hrep; rewrite Hc; [done| |].
  - intros id Hn _. eapply destroyed_other; [exact Hkeys|]. intros Hin. apply Hn. rewrite Hids.
    apply elem_of_app. by left.
  - rewrite Hids'. split_and!; try done; auto.
    + eapply keys_ok_same; [exact Hk1|]. intros id Hin _. eapply destroyed_other; [exact Hkeys|].
      intros Hin0. by eapply Hdis.
    + intros id Hin. left. rewrite Hids. apply elem_of_app. by right.
Qed.

(** * The specification

    [cap] is the number of slots.  [env] is what the table does not decide: for a
    new key, whether the backend refuses to import it; for the private node
    identity, whether a subnet advertises with its public one. *)

Definition add_table (cap : nat) (env : bool) (k : Z) (key : list Z) (m : gmap Z entry)
  : Z * gmap Z entry :=
  match m !! k with
  | Some (_, r0, _) => ((if decide (key = r0) then STATUS_SUCCESS else STATUS_IDX_ALREADY_STORED), m)
  | None =>
      if decide (size m = cap) then (STATUS_INSUFF_RESOURCES, m)
      else if env then (STATUS_UNSPECIFIED, m)
      else (STATUS_SUCCESS, <[k := (BT_MESH_KR_NORMAL, key, None)]> m)
  end.

Definition update_table (env : bool) (k : Z) (key : list Z) (m : gmap Z entry) : Z * gmap Z entry :=
  match m !! k with
  | None => (STATUS_INVALID_NETKEY, m)
  | Some (_, r0, None) =>
      if decide (key = r0) then (STATUS_IDX_ALREADY_STORED, m)
      else if env then (STATUS_CANNOT_UPDATE, m)
      else (STATUS_SUCCESS, <[k := (BT_MESH_KR_PHASE_1, r0, Some key)]> m)
  | Some (p, _, Some r1) =>
      ((if decide (p = BT_MESH_KR_PHASE_1 /\ key = r1) then STATUS_SUCCESS else STATUS_CANNOT_UPDATE), m)
  end.

Definition del_table (k : Z) (m : gmap Z entry) : Z * gmap Z entry :=
  match m !! k with
  | None => (STATUS_INVALID_NETKEY, m)
  | Some _ => (STATUS_SUCCESS, delete k m)
  end.

(** The end of a key refresh: the new key replaces the old one. *)
Definition finish_table (k : Z) (r : list Z) (m : gmap Z entry) : gmap Z entry :=
  <[k := (BT_MESH_KR_NORMAL, r, None)]> m.

Definition phase_table (k phase : Z) (m : gmap Z entry) : Z * gmap Z entry :=
  match m !! k with
  | None => (STATUS_INVALID_NETKEY, m)
  | Some (_, _, None) =>
      ((if decide (phase = BT_MESH_KR_NORMAL \/ phase = BT_MESH_KR_PHASE_3)
        then STATUS_SUCCESS else STATUS_CANNOT_UPDATE), m)
  | Some (p, r0, Some r) =>
      if phase =? p then (STATUS_SUCCESS, m)
      else if phase =? BT_MESH_KR_PHASE_3 then (STATUS_SUCCESS, finish_table k r m)
      else if (p =? BT_MESH_KR_PHASE_1) && (phase =? BT_MESH_KR_PHASE_2)
      then (STATUS_SUCCESS, <[k := (BT_MESH_KR_PHASE_2, r0, Some r)]> m)
      else (STATUS_CANNOT_UPDATE, m)
  end.

(** A Secure Network beacon, with its key refresh flag and whether it was
    authenticated with the new key. *)
Definition beacon_table (k : Z) (kr_flag new_key : bool) (m : gmap Z entry) : gmap Z entry :=
  match m !! k with
  | Some (_, r0, Some r) =>
      if negb new_key then m
      else if kr_flag then <[k := (BT_MESH_KR_PHASE_2, r0, Some r)]> m
      else finish_table k r m
  | _ => m
  end.

Definition identity_table (priv : bool) (env : bool) (k n : Z) (m : gmap Z entry) : Z :=
  if n =? BT_MESH_FEATURE_NOT_SUPPORTED then STATUS_CANNOT_SET
  else match m !! k with
       | None => STATUS_INVALID_NETKEY
       | Some _ =>
           if negb GATT_PROXY || (priv && negb PRIV_BEACONS) then STATUS_FEAT_NOT_SUPP
           else if priv && env then STATUS_CANNOT_SET
           else STATUS_SUCCESS
       end.

Definition table_op (cap : nat) (env : bool) (op : subnet_op) (m : gmap Z entry) : Z * gmap Z entry :=
  match op with
  | OpAdd k key => add_table cap env k key m
  | OpUpdate k key => update_table env k key m
  | OpDel k => del_table k m
  | OpPhase k phase => phase_table k phase m
  | OpBeacon k kr_flag new_key => (0, beacon_table k kr_flag new_key m)
  | OpNodeId k n => (identity_table false env k n m, m)
  | OpPrivNodeId k n => (identity_table true env k n m, m)
  | OpReset => (0, ∅)
  | OpStore => (0, m)
  end.

(** When [env] may be true. *)
Definition env_ok (op : subnet_op) (s : st) (env : bool) : Prop :=
  env = true ->
  match op with
  | OpAdd _ key | OpUpdate _ key => refused (crypto s) key
  | _ => existsb public_node_id (subnets s) = true
  end.

(** ** The operations implement it *)

Definition table (cap : nat) (s : st) (m : gmap Z entry) : Prop :=
  rep s m /\ length (subnets s) = cap.

(** Answers [r.1] and ends with the table [r.2]. *)
Definition answers (cap : nat) (r : Z * gmap Z entry) (a : Z) (s : st) : Prop :=
  a = r.1 /\ table cap s r.2.

Lemma on_length i l sub w s : on i l sub w s -> length (subnets s) = length l.
Proof. intros (-> & _). apply length_insert. Qed.

(** Only the backend and the queue have moved. *)
Lemma rep_same_keys s s' m :
  rep s m -> subnets s' = subnets s -> mc_keys (crypto s) ⊆ mc_keys (crypto s') -> mc_ready (crypto s') ->
  rep s' m.
Proof.
  intros [Hkl Hp] Hs Hk Hr. split; rewrite ?Hs; [|done]. exact (key_slots_grow _ _ _ _ _ _ _ _ _ Hkl Hk Hr).
Qed.

(** A free slot, or the new keys of a slot in the normal phase, may hold anything
    that is not valid. *)
Lemma rep_idle s s' m i old new :
  rep s m -> subnets s !! i = Some old -> subnets s' = <[i := new]> (subnets s) ->
  mc_keys (crypto s) ⊆ mc_keys (crypto s') -> mc_ready (crypto s') ->
  net_idx new = net_idx old -> kr_phase new = kr_phase old -> valid (keys1 new) = valid (keys1 old) ->
  (used old = true -> keys0 new = keys0 old) -> (valid (keys1 old) = true -> keys1 new = keys1 old) ->
  rep s' m.
Proof.
  intros Hr Hi Hs' Hk Hw Hn Hp Hv H0' H1'.
  assert (forall id, id ∉ sub_ids old -> is_Some (mc_keys (crypto s) !! id) ->
    mc_keys (crypto s') !! id = mc_keys (crypto s) !! id) as Hsame
    by (intros id _ [v Hx]; rewrite Hx; by eapply lookup_weaken).
  assert (used new = used old) as Hun by (unfold used; by rewrite Hn).
  destruct (used old) eqn:Hu.
  - destruct (rp_entry _ _ Hr i old Hi Hu) as ([[p r0] r1] & He & Hok).
    assert (sub_ids new = sub_ids old) as Hids.
    { unfold sub_ids. rewrite Hun, Hu, Hv, H0' by done.
      destruct (valid (keys1 old)); [by rewrite H1'|done]. }
    pose proof (rep_replace s s' m i old new (Some (p, r0, r1)) Hr Hi Hs' Hw Hsame) as Hrep.
    simpl in Hrep. rewrite Hn, (insert_id m _ _ He) in Hrep. apply Hrep. rewrite Hids, Hp. split_and!.
    + by eapply (so_range _ (rp_slots _ _ Hr)).
    + by eapply (so_phase _ (rp_slots _ _ Hr)).
    + by eapply (so_phase _ (rp_slots _ _ Hr)).
    + by left.
    + apply Hok.
    + rewrite H0' by done. eapply keys_ok_same; [apply Hok|]. intros id _ [v Hx]. rewrite Hx.
      by eapply lookup_weaken.
    + destruct Hok as (_ & _ & Hk1). destruct r1 as [r|]; [|by rewrite Hv].
      destruct Hk1 as [Hn0 Hk1]. split; [done|]. rewrite H1' by apply (ko_valid _ _ _ Hk1).
      eapply keys_ok_same; [exact Hk1|]. intros id _ [v Hx]. rewrite Hx. by eapply lookup_weaken.
    + by eapply rp_nodup.
    + auto.
  - pose proof (rep_replace s s' m i old new None Hr Hi Hs' Hw Hsame) as Hrep. simpl in Hrep.
    rewrite delete_id in Hrep; [|rewrite (unused_idx _ Hu); apply eq_None_not_Some; intros [e He];
      destruct (rp_slot _ _ Hr _ _ He) as [Hx _]; by apply (key_idx_used _ Hx)].
    apply Hrep. split; [done|]. rewrite Hv. by eapply rp_free.
Qed.

Lemma add_answers cap s m k key :
  table cap s m -> is_key_idx k -> length key = 16%nat ->
  exists env, env_ok (OpAdd k key) s env /\
    wp (bt_mesh_subnet_add SETTINGS GATT_PROXY PRIV_BEACONS k key) s
       (answers cap (table_op cap env (OpAdd k key) m)).
Proof.
  intros [Hr Hcap] Hk Hl. unfold bt_mesh_subnet_add. cbn [table_op]. unfold add_table.
  pose proof (alloc_rep s m k Hr Hk) as Ha. destruct (m !! k) as [[[p r0] r1]|] eqn:He.
  - destruct Ha as (i & Hal & sub & Hi & Hn & Hu & Hok). exists false. split; [done|].
    apply wp_get. rewrite Hal, (sub_at_eq _ _ _ Hi), Hn, Z.eqb_refl.
    destruct Hok as (_ & Hk0 & _).
    destruct (compare_spec _ _ _ key (rp_ready _ _ Hr) Hl Hk0) as (c & w' & E & Hc & Hks & Hw').
    apply wp_bind. eapply wp_crypto; [by apply on_start|exact E|]. intros s1 (Hs1 & Hc1 & _).
    apply wp_ret. rewrite list_insert_id in Hs1 by done. split; [|split; [|by rewrite Hs1]].
    + simpl. destruct (Z.eqb_spec c 0), (decide _); simpl; tauto.
    + eapply rep_same_keys; [exact Hr|done|by rewrite Hc1, Hks|by rewrite Hc1].
  - rewrite Hcap in Ha. destruct (decide (size m = cap)) as [Hfull|Hfull].
    { exists false. split; [done|]. apply wp_get. rewrite Ha. by apply wp_ret. }
    destruct Ha as (i & sub & Hal & Hi & Hu).
    destruct (create_spec (crypto s) (keys0 sub) key (rp_ready _ _ Hr) Hl)
      as ([keys err] & w' & E & Hg & Hcase). simpl in Hcase.
    assert (wp
      (c ← crypto_call (net_keys_create GATT_PROXY PRIV_BEACONS (keys0 sub) true key);
       let '(keys, err) := c in
       _ ← set_sub i (with_keys0 keys);
       if negb (err =? 0) then mret STATUS_UNSPECIFIED else
       _ ← set_sub i (with_idx k BT_MESH_KR_NORMAL (initial_node_id GATT_PROXY));
       s ← gets id;
       _ ← subnet_evt (sub_at i s) BT_MESH_KEY_ADDED;
       _ ← store_if_enabled SETTINGS i;
       mret STATUS_SUCCESS) s (answers cap
         (if negb (err =? 0) then (STATUS_UNSPECIFIED, m)
          else (STATUS_SUCCESS, <[k:=(BT_MESH_KR_NORMAL, key, None)]> m)))) as Hmain.
    { apply wp_bind. eapply wp_crypto; [by apply on_start|exact E|]. intros s1 Hon.
      apply wp_bind. eapply wp_set; [exact Hon|]. clear s1 Hon. intros s1 Hon.
      destruct Hcase as [(-> & Hks & Hd & Hf)|(Herr & Hv & Href)]; simpl.
      - apply wp_bind. eapply wp_set; [exact Hon|]. clear s1 Hon. intros s1 Hon.
        apply wp_get. apply wp_bind. eapply wp_emit; [exact Hon|]. clear s1 Hon. intros s1 Hon.
        apply wp_bind. eapply wp_store; [exact Hon|]. clear s1 Hon. intros s1 Hon.
        apply wp_ret. split; [done|]. split; [|by rewrite (on_length _ _ _ _ _ Hon)].
        destruct Hon as (Hs1 & Hc1 & _).
        set (new := with_idx _ _ _ _) in Hs1.
        pose proof (rep_replace s s1 m i sub new (Some (BT_MESH_KR_NORMAL, key, None)) Hr Hi Hs1) as Hrep.
        simpl in Hrep. apply Hrep; rewrite Hc1; [apply Hg| |].
        + intros id _ [v Hx]. rewrite Hx. by eapply grows_lookup.
        + pose proof (rp_free _ _ Hr i sub Hi Hu) as Hv1.
          assert (sub_ids new = ids keys) as Hids.
          { unfold sub_ids. rewrite (key_idx_is_used new) by done.
            change (keys1 new) with (keys1 sub). rewrite Hv1. exact (app_nil_r (ids keys)). }
          rewrite Hids. split_and!; try done; [by right|].
          intros id Hid. right. eapply fresh_not_live; [done|]. by apply Hf.
      - destruct (Z.eqb_spec err 0) as [?|_]; [lia|]. simpl. apply wp_ret. split; [done|].
        split; [|by rewrite (on_length _ _ _ _ _ Hon)]. destruct Hon as (Hs1 & Hc1 & _).
        eapply (rep_idle s s1 m i sub); try done; rewrite ?Hc1; try apply Hg. congruence. }
    exists (negb (err =? 0)). split.
    { intros Hx. destruct Hcase as [(-> & _)|(_ & _ & Href)]; done. }
    apply wp_get. rewrite Hal, (sub_at_eq _ _ _ Hi), (unused_idx _ Hu).
    destruct (Z.eqb_spec BT_MESH_KEY_UNUSED k) as [<-|_]; [by apply key_idx_used in Hk|]. exact Hmain.
Qed.

(** After a comparison nothing has changed. *)
Lemma compare_keeps s m i sub w' s1 :
  rep s m -> subnets s !! i = Some sub -> mc_keys w' = mc_keys (crypto s) -> mc_ready w' ->
  on i (subnets s) sub w' s1 -> rep s1 m /\ subnets s1 = subnets s /\ mc_keys (crypto s1) = mc_keys (crypto s).
Proof.
  intros Hr Hi Hk Hw (Hs & Hc & _). rewrite list_insert_id in Hs by done. subst w'. split_and!; [|done|done].
  eapply rep_same_keys; [exact Hr|done|by rewrite Hk|done].
Qed.

Lemma refused_same w w' key : mc_keys w' = mc_keys w -> refused w' key -> refused w key.
Proof. intros Hk (w1 & e & w2 & [Hs Hr] & E). exists w1, e, w2. split; [split; [by rewrite <-Hk|done]|done]. Qed.

(** A new key for a subnet in the normal phase. *)
Lemma update_new cap s m i k key r0 :
  table cap s m -> is_key_idx k -> length key = 16%nat -> in_slot s i k (BT_MESH_KR_NORMAL, r0, None) ->
  exists env, (env = true -> refused (crypto s) key) /\
    wp ('(keys, err) ← crypto_call (net_keys_create GATT_PROXY PRIV_BEACONS (keys1 (sub_at i s)) true key);
        _ ← set_sub i (with_keys1 keys);
        if negb (err =? 0) then mret STATUS_CANNOT_UPDATE else
        _ ← key_refresh SETTINGS GATT_PROXY V1d1 i BT_MESH_KR_PHASE_1;
        mret STATUS_SUCCESS) s
      (answers cap (if env then (STATUS_CANNOT_UPDATE, m)
                    else (STATUS_SUCCESS, <[k := (BT_MESH_KR_PHASE_1, r0, Some key)]> m))).
Proof.
  intros [Hr Hcap] Hk Hl (sub & Hi & Hn & Hu & Hok). rewrite (sub_at_eq _ _ _ Hi).
  destruct (sub_ids_entry s m i sub _ _ _ Hr Hi Hu Hok) as (Hids & Hd0 & Hsome).
  destruct Hok as (Hp & Hk0 & _ & Hv1).
  destruct (create_spec (crypto s) (keys1 sub) key (rp_ready _ _ Hr) Hl)
    as ([keys err] & w' & E & Hg & Hcase). simpl in Hcase.
  exists (negb (err =? 0)). split.
  { intros Hx. destruct Hcase as [(-> & _)|(_ & _ & Href)]; done. }
  apply wp_bind. eapply wp_crypto; [by apply on_start|exact E|]. intros s1 Hon.
  apply wp_bind. eapply wp_set; [exact Hon|]. clear s1 Hon. intros s1 Hon.
  destruct Hcase as [(-> & Hks & Hd & Hf)|(Herr & Hv & Href)]; simpl.
  - apply wp_bind. eapply wp_refresh; [exact Hon|by left|]. clear s1 Hon. intros s1 Hon.
    apply wp_ret. split; [done|]. split; [|by rewrite (on_length _ _ _ _ _ Hon)].
    destruct Hon as (Hs1 & Hc1 & _). set (new := with_phase _ _) in Hs1.
    pose proof (rep_replace s s1 m i sub new (Some (BT_MESH_KR_PHASE_1, r0, Some key)) Hr Hi Hs1) as Hrep.
    simpl in Hrep. rewrite Hn in Hrep.
    assert (sub_ids new = sub_ids sub ++ ids keys) as Hids'.
    { rewrite Hids. unfold sub_ids. change (used new) with (used sub). rewrite Hu.
      change (keys1 new) with keys. change (keys0 new) with (keys0 sub).
      by rewrite (ko_valid _ _ _ Hks), app_nil_r. }
    apply Hrep; rewrite Hc1; [apply Hg| |].
    + intros id _ [v Hx]. rewrite Hx. by eapply grows_lookup.
    + rewrite Hids'. split_and!; try done; [by left| |apply NoDup_app; split_and!; [done| |done]|].
      * eapply keys_ok_same; [exact Hk0|]. intros id _ [v Hx]. rewrite Hx. by eapply grows_lookup.
      * intros id Hold Hnew. apply Hf in Hnew. rewrite list.Forall_forall in Hsome.
        destruct (Hsome id Hold). congruence.
      * intros id [Hin|Hin]%elem_of_app; [by left|right]. eapply fresh_not_live; [done|]. by apply Hf.
  - destruct (Z.eqb_spec err 0) as [?|_]; [lia|]. simpl. apply wp_ret. split; [done|].
    split; [|by rewrite (on_length _ _ _ _ _ Hon)]. destruct Hon as (Hs1 & Hc1 & _).
    eapply (rep_idle s s1 m i sub); try done; rewrite ?Hc1; try apply Hg. congruence.
Qed.

Lemma update_answers cap s m k key :
  table cap s m -> is_key_idx k -> length key = 16%nat ->
  exists env, env_ok (OpUpdate k key) s env /\
    wp (bt_mesh_subnet_update SETTINGS GATT_PROXY PRIV_BEACONS V1d1 k key) s
       (answers cap (table_op cap env (OpUpdate k key) m)).
Proof.
  intros [Hr Hcap] Hk Hl. unfold bt_mesh_subnet_update. cbn [table_op]. unfold update_table.
  pose proof (get_rep s m k Hr Hk) as Hg. destruct (m !! k) as [[[p r0] r1]|] eqn:He.
  2: { exists false. split; [done|]. apply wp_get. rewrite Hg. by apply wp_ret. }
  destruct Hg as (i & Hget & Hin). pose proof Hin as (sub & Hi & Hn & Hu & Hok).
  pose proof (so_phase _ (rp_slots _ _ Hr) i sub Hi Hu) as Hph.
  destruct Hok as (Hp & Hk0 & Hk1). rewrite <-Hp in *.
  destruct r1 as [r1|].
  - destruct Hk1 as [Hp1 Hk1]. exists false. split; [done|]. apply wp_get. rewrite Hget, (sub_at_eq _ _ _ Hi).
    destruct (Z.eqb_spec (kr_phase sub) BT_MESH_KR_NORMAL) as [?|_]; [done|].
    apply wp_bind. unfold update_check.
    destruct (Z.eqb_spec (kr_phase sub) BT_MESH_KR_NORMAL) as [?|_]; [done|].
    destruct (Z.eqb_spec (kr_phase sub) BT_MESH_KR_PHASE_1) as [E1|E1].
    + destruct (compare_spec _ _ _ key (rp_ready _ _ Hr) Hl Hk1) as (c & w' & E & Hc & Hks & Hw').
      apply wp_bind. eapply wp_crypto; [by apply on_start|exact E|]. intros s1 Hon.
      destruct (compare_keeps s m i sub w' s1 Hr Hi Hks Hw' Hon) as (Hr1 & Hs1 & _).
      do 2 apply wp_ret. split; [|split; [done|by rewrite Hs1]].
      simpl. destruct (Z.eqb_spec c 0), (decide _); simpl; tauto.
    + rewrite decide_False by tauto.
      destruct (Z.eqb_spec (kr_phase sub) BT_MESH_KR_PHASE_2) as [E2|E2];
        [by do 2 apply wp_ret|].
      unfold BT_MESH_KR_NORMAL, BT_MESH_KR_PHASE_1, BT_MESH_KR_PHASE_2 in *. lia.
  - destruct Hk1 as [Hz Hv1].
    destruct (compare_spec _ _ _ key (rp_ready _ _ Hr) Hl Hk0) as (c & w' & E & Hc & Hks & Hw').
    destruct (decide (key = r0)) as [Heq|Hneq].
    + exists false. split; [done|]. apply wp_get. rewrite Hget, (sub_at_eq _ _ _ Hi).
      apply wp_bind. unfold update_check. rewrite Hz. simpl.
      apply wp_bind. eapply wp_crypto; [by apply on_start|exact E|]. intros s1 Hon.
      destruct (compare_keeps s m i sub w' s1 Hr Hi Hks Hw' Hon) as (Hr1 & Hs1 & _).
      rewrite (proj2 Hc Heq). simpl. do 2 apply wp_ret. split; [done|]. split; [done|by rewrite Hs1].
    + set (s1 := set_crypto w' s).
      assert (on i (subnets s) sub w' s1) as Hon.
      { destruct (on_start s i sub Hi) as (H1 & _ & H3). by split_and!. }
      destruct (compare_keeps s m i sub w' s1 Hr Hi Hks Hw' Hon) as (Hr1 & Hs1 & Hks1).
      destruct (update_new cap s1 m i k key r0) as (env & Henv & Hwp);
        [split; [done|by rewrite Hs1]|done|done| |].
      { exists sub. rewrite Hs1. split_and!; try done. split_and!; try done.
        eapply keys_ok_same; [exact Hk0|]. intros id _ _. by rewrite Hks1. }
      exists env. split; [intros Hx; eapply refused_same; [exact Hks1|by apply Henv]|].
      apply wp_get. rewrite Hget, (sub_at_eq _ _ _ Hi).
      apply wp_bind. unfold update_check. rewrite Hz. simpl.
      apply wp_bind. exists c, s1. split; [unfold crypto_call, s1; by rewrite E|].
      destruct (Z.eqb_spec c 0) as [Hcz|_]; [by apply Hc in Hcz|].
      apply wp_ret. by rewrite (sub_at_eq s1 i sub) in Hwp.
Qed.

(** ** Deletion *)

(** The keys a subnet gives back. *)
Definition sub_destroyed (sub : bt_mesh_subnet) : list Z :=
  destroyed (keys0 sub) ++ (if valid (keys1 sub) then destroyed (keys1 sub) else []).

Lemma without_app l l' m : without (l ++ l') m = without l' (without l m).
Proof. unfold without. by rewrite foldl_app. Qed.

Lemma wp_del s m i sub (Q : unit -> st -> Prop) :
  rep s m -> subnets s !! i = Some sub -> used sub = true ->
  (forall w' s', mc_ready w' -> mc_keys w' = without (sub_destroyed sub) (mc_keys (crypto s)) ->
     on i (subnets s) free_subnet w' s' -> Q () s') ->
  wp (subnet_del SETTINGS GATT_PROXY V1d1 i) s Q.
Proof.
  intros Hr Hi Hu HQ. destruct (rp_entry _ _ Hr i sub Hi Hu) as ([[p r0] r1] & He & Hok).
  destruct (sub_ids_entry s m i sub _ _ _ Hr Hi Hu Hok) as (Hids & Hd & Hsome).
  destruct Hok as (_ & Hk0 & Hk1). rewrite Hids in Hd, Hsome.
  apply NoDup_app in Hd as (Hd0 & Hdis & Hd1). apply Forall_app in Hsome as [Hs0 Hs1].
  unfold subnet_del. apply wp_get. rewrite (sub_at_eq _ _ _ Hi).
  assert (on i (subnets s) sub (crypto s) s) as Hon by by apply on_start.
  apply wp_bind. assert (forall Q' : unit -> st -> Prop,
    (forall s', on i (subnets s) sub (crypto s) s' -> Q' () s') ->
    wp (if SETTINGS then update_subnet_settings (net_idx sub) false else mret ()) s Q') as Hset.
  { intros Q' HQ'. destruct SETTINGS; [by eapply wp_settings|apply wp_ret; by apply HQ']. }
  apply Hset. clear Hset Hon. intros s1 Hon. rewrite (ko_valid _ _ _ Hk0).
  destruct (keys_destroy_spec (crypto s) (keys0 sub) (rp_ready _ _ Hr) Hd0 Hs0) as ([] & w1 & E & Hr1 & Hks1).
  apply wp_bind. eapply wp_crypto; [exact Hon|exact E|]. clear s1 Hon. intros s1 Hon.
  apply wp_bind.
  assert (forall Q' : unit -> st -> Prop,
    (forall w' s', mc_ready w' -> mc_keys w' = without (sub_destroyed sub) (mc_keys (crypto s)) ->
       on i (subnets s) sub w' s' -> Q' () s') ->
    wp (if valid (keys1 sub) then crypto_call (subnet_keys_destroy GATT_PROXY V1d1 (keys1 sub)) else mret ())
      s1 Q') as Hdel.
  { intros Q' HQ'. unfold sub_destroyed in HQ'. destruct r1 as [r|].
    - destruct Hk1 as [_ Hk1]. rewrite (ko_valid _ _ _ Hk1) in *.
      destruct (keys_destroy_spec w1 (keys1 sub) Hr1 Hd1) as ([] & w2 & E2 & Hr2 & Hks2).
      { rewrite list.Forall_forall in *. intros id Hid. erewrite (destroyed_other (crypto s) w1 (keys0 sub)); try done.
        - by apply Hs1.
        - intros Hin. by eapply Hdis. }
      eapply wp_crypto; [exact Hon|exact E2|]. intros s2. apply HQ'; [done|].
      by rewrite Hks2, Hks1, without_app.
    - destruct Hk1 as [_ Hv]. rewrite Hv in *. apply wp_ret. eapply HQ'; [exact Hr1| |exact Hon].
      by rewrite app_nil_r. }
  apply Hdel. clear s1 Hon Hdel. intros w2 s1 Hr2 Hks2 Hon.
  apply wp_bind. eapply wp_emit; [exact Hon|]. clear s1 Hon. intros s1 Hon.
  apply wp_bind. eapply wp_emit; [exact Hon|]. clear s1 Hon. intros s1 Hon.
  eapply wp_set; [exact Hon|]. intros s2. by apply HQ.
Qed.

Lemma rep_deleted s s' m i sub w' :
  rep s m -> subnets s !! i = Some sub -> used sub = true -> mc_ready w' ->
  mc_keys w' = without (sub_destroyed sub) (mc_keys (crypto s)) ->
  on i (subnets s) free_subnet w' s' -> rep s' (delete (net_idx sub) m).
Proof.
  intros Hr Hi Hu Hw Hk (Hs & Hc & _).
  pose proof (rep_replace s s' m i sub free_subnet None Hr Hi Hs) as Hrep. simpl in Hrep.
  apply Hrep; [by rewrite Hc| |done]. intros id Hn _.
  rewrite Hc, Hk, without_lookup, bool_decide_eq_false_2; [done|]. intros [Hin _]. apply Hn.
  unfold sub_ids, sub_destroyed in *. rewrite Hu. apply elem_of_app in Hin as [Hin|Hin]; apply elem_of_app.
  - left. eapply elem_of_sublist; [exact Hin|apply destroyed_sublist].
  - right. destruct (valid (keys1 sub)); [|done]. eapply elem_of_sublist; [exact Hin|apply destroyed_sublist].
Qed.

Lemma del_answers cap s m k :
  table cap s m -> is_key_idx k ->
  wp (bt_mesh_subnet_del SETTINGS GATT_PROXY V1d1 k) s (answers cap (del_table k m)).
Proof.
  intros [Hr Hcap] Hk. unfold bt_mesh_subnet_del, del_table. apply wp_get.
  pose proof (get_rep s m k Hr Hk) as Hg. destruct (m !! k) as [e|].
  2: { rewrite Hg. by apply wp_ret. }
  destruct Hg as (i & -> & sub & Hi & <- & Hu & Hok).
  apply wp_bind. eapply wp_del; [done..|]. intros w' s' Hw' Hk' Hon.
  apply wp_ret. split; [done|]. split; [by eapply rep_deleted|by rewrite (on_length _ _ _ _ _ Hon)].
Qed.

Lemma reset_loop_spec n : forall i cap s m,
  table cap s m -> (i + n = cap)%nat -> (forall j sub, (j < i)%nat -> subnets s !! j = Some sub -> used sub = false) ->
  wp (reset_loop SETTINGS GATT_PROXY V1d1 n i) s (fun _ s' => table cap s' ∅).
Proof.
  induction n as [|n IH]; intros i cap s m [Hr Hcap] Hn Hlow; cbn [reset_loop].
  - apply wp_ret. assert (m = ∅) as ->; [|by split]. apply map_eq. intros k. rewrite lookup_empty.
    apply eq_None_not_Some. intros [e He]. destruct (rp_slot _ _ Hr k e He) as (Hk & j & sub & Hj & <-).
    apply key_idx_is_used in Hk. rewrite (Hlow j sub) in Hk; [done| |done].
    apply lookup_lt_Some in Hj. lia.
  - apply wp_get. destruct (lookup_lt_is_Some_2 (subnets s) i) as [sub Hi]; [lia|].
    rewrite (sub_at_eq _ _ _ Hi). apply wp_bind. destruct (used sub) eqn:Hu.
    + eapply wp_del; [done..|]. intros w' s' Hw' Hk' Hon.
      eapply (IH (Datatypes.S i) cap s'); [split; [by eapply rep_deleted|by rewrite (on_length _ _ _ _ _ Hon)]|lia|].
      intros j sub' Hj Hsub. destruct Hon as (Hs' & _). rewrite Hs' in Hsub.
      destruct (decide (j = i)) as [->|Hji].
      * rewrite list_lookup_insert_eq in Hsub by (by apply lookup_lt_Some in Hi). by injection Hsub as <-.
      * rewrite list_lookup_insert_ne in Hsub by done. apply (Hlow j); [lia|done].
    + apply wp_ret. apply (IH (Datatypes.S i) cap s m); [done|lia|]. intros j sub' Hj Hsub.
      destruct (decide (j = i)) as [->|Hji]; [congruence|]. apply (Hlow j); [lia|done].
Qed.

(** ** Phases *)

Lemma transition_spec cur phase :
  0 <= cur <= 2 -> 0 <= phase < 31 ->
  (cur <? zlen valid_transitions) &&
    negb (Z.land (valid_transitions !!! Z.to_nat cur) (BIT phase) =? 0) =
  (phase =? BT_MESH_KR_PHASE_3) || ((cur =? BT_MESH_KR_PHASE_1) && (phase =? BT_MESH_KR_PHASE_2)).
Proof.
  intros Hc Hp. apply eqb_prop. revert phase Hp. apply (forall_below 31).
  assert (cur = 0 \/ cur = 1 \/ cur = 2) as [->|[->| ->]] by lia; vm_compute; reflexivity.
Qed.

Lemma phase_answers cap s m k phase :
  table cap s m -> is_key_idx k -> 0 <= phase < 31 ->
  wp (r ← bt_mesh_subnet_kr_phase_set SETTINGS GATT_PROXY V1d1 k phase; mret r.1) s
     (answers cap (phase_table k phase m)).
Proof.
  intros [Hr Hcap] Hk Hph. unfold bt_mesh_subnet_kr_phase_set, phase_table. apply wp_bind, wp_get.
  pose proof (get_rep s m k Hr Hk) as Hg. destruct (m !! k) as [[[p r0] r1]|].
  2: { rewrite Hg. by do 2 apply wp_ret. }
  destruct Hg as (i & -> & sub & Hi & <- & Hu & Hok). rewrite (sub_at_eq _ _ _ Hi).
  pose proof (so_phase _ (rp_slots _ _ Hr) i sub Hi Hu) as Hp. rewrite (transition_spec _ _ Hp Hph).
  destruct (sub_ids_entry s m i sub _ _ _ Hr Hi Hu Hok) as (Hids & Hd & Hsome).
  pose proof Hok as (Hpp & Hk0 & Hk1). rewrite <-Hpp in *.
  destruct r1 as [r|].
  - destruct Hk1 as [Hn0 Hk1]. destruct (Z.eqb_spec phase (kr_phase sub)) as [->|Hne].
    { by do 2 apply wp_ret. }
    rewrite Hids in Hd, Hsome. apply NoDup_app in Hd as (Hd0 & _ & _). apply Forall_app in Hsome as [Hs0 _].
    destruct (Z.eqb_spec phase BT_MESH_KR_PHASE_3) as [->|H3]; cbn [orb].
    { apply wp_bind. eapply wp_refresh_end; [by apply on_start|done|apply Hr|done|done|].
      intros w' s' Hw' Hk' Hon. apply wp_get, wp_ret, wp_ret. split; [done|].
      split; [by eapply rep_revoked|by rewrite (on_length _ _ _ _ _ Hon)]. }
    destruct (_ && _) eqn:Hb; [|by do 2 apply wp_ret].
    apply andb_prop in Hb as [_ ->%Z.eqb_eq]. apply wp_bind. eapply wp_refresh; [by apply on_start|by right|].
    intros s' Hon. apply wp_get, wp_ret, wp_ret. split; [done|].
    split; [|by rewrite (on_length _ _ _ _ _ Hon)]. eapply rep_phase; try done. by right.
  - destruct Hk1 as [Hz Hv]. rewrite Hz. destruct (Z.eqb_spec phase BT_MESH_KR_NORMAL) as [->|H0'].
    { by do 2 apply wp_ret. }
    destruct (Z.eqb_spec phase BT_MESH_KR_PHASE_3) as [->|H3]; cbn [orb andb].
    + apply wp_bind. unfold key_refresh. apply wp_get. rewrite (sub_at_eq _ _ _ Hi), Hz. simpl.
      apply wp_ret, wp_get, wp_ret, wp_ret. by split.
    + rewrite decide_False by tauto. by do 2 apply wp_ret.
Qed.

Lemma beacon_answers cap s m k kr_flag new_key :
  table cap s m -> is_key_idx k ->
  wp (s ← gets id; match bt_mesh_subnet_get k s with
                   | None => mret ()
                   | Some i => bt_mesh_kr_update SETTINGS GATT_PROXY V1d1 i kr_flag new_key
                   end) s
     (fun _ s' => table cap s' (beacon_table k kr_flag new_key m)).
Proof.
  intros [Hr Hcap] Hk. unfold beacon_table. apply wp_get.
  pose proof (get_rep s m k Hr Hk) as Hg. destruct (m !! k) as [[[p r0] r1]|] eqn:He.
  2: { rewrite Hg. by apply wp_ret. }
  destruct Hg as (i & -> & sub & Hi & <- & Hu & Hok).
  pose proof (so_phase _ (rp_slots _ _ Hr) i sub Hi Hu) as Hp.
  destruct (sub_ids_entry s m i sub _ _ _ Hr Hi Hu Hok) as (Hids & Hd & Hsome).
  unfold bt_mesh_kr_update. destruct new_key; cbn [negb].
  2: { destruct r1; by apply wp_ret. }
  apply wp_get. rewrite (sub_at_eq _ _ _ Hi). pose proof Hok as (<- & Hk0 & Hk1).
  destruct r1 as [r|].
  - destruct Hk1 as [Hn0 Hk1].
    rewrite Hids in Hd, Hsome. apply NoDup_app in Hd as (Hd0 & _ & _). apply Forall_app in Hsome as [Hs0 _].
    assert (wp (key_refresh SETTINGS GATT_PROXY V1d1 i BT_MESH_KR_PHASE_3) s
      (fun _ s' => table cap s' (finish_table (net_idx sub) r m))) as Hend.
    { eapply wp_refresh_end; [by apply on_start|done|apply Hr|done|done|].
      intros w' s' Hw' Hk' Hon. split; [by eapply rep_revoked|by rewrite (on_length _ _ _ _ _ Hon)]. }
    assert (kr_phase sub = BT_MESH_KR_PHASE_1 \/ kr_phase sub = BT_MESH_KR_PHASE_2) as [E1|E2]
      by (unfold BT_MESH_KR_NORMAL, BT_MESH_KR_PHASE_1, BT_MESH_KR_PHASE_2 in *; lia).
    + rewrite E1. cbn [Z.eqb]. destruct kr_flag; [|exact Hend].
      eapply wp_refresh; [by apply on_start|by right|]. intros s' Hon.
      split; [|by rewrite (on_length _ _ _ _ _ Hon)]. eapply rep_phase; try done. by right.
    + rewrite E2. destruct kr_flag; [|exact Hend]. apply wp_ret. split; [|done].
      rewrite insert_id; [done|]. rewrite <-E2. exact He.
  - destruct Hk1 as [Hz _]. rewrite Hz. by apply wp_ret.
Qed.

(** ** Node identities *)

Lemma rep_identity cap s m i n priv :
  table cap s m ->
  table cap (set_subnets (<[i := with_identity n (priv (sub_at i s)) (sub_at i s)]> (subnets s)) s) m.
Proof.
  intros [Hr Hcap]. destruct (subnets s !! i) as [sub|] eqn:Hi.
  - rewrite (sub_at_eq _ _ _ Hi). split; [|by simpl; rewrite length_insert].
    by eapply (rep_idle s _ m i sub); try apply Hr.
  - rewrite list_insert_ge by (by apply lookup_ge_None). split; [by eapply rep_frame|done].
Qed.

Lemma stop_loop_table cap m n : forall i s,
  table cap s m -> wp (stop_private_loop n i) s (fun _ s' => table cap s' m).
Proof.
  induction n as [|n IH]; intros i s Ht; cbn [stop_private_loop]; [by apply wp_ret|].
  apply wp_get, wp_bind. destruct (_ && _ && _); [|apply wp_ret; by apply IH].
  eexists (), _. split; [reflexivity|]. by apply IH, (rep_identity cap s m i _ priv_node_id).
Qed.

Lemma start_stop_table cap s m i (b private : bool) (f : unit -> M st Z) Q :
  table cap s m -> (forall s', table cap s' m -> wp (f ()) s' Q) ->
  wp ((if b then bt_mesh_proxy_identity_start PRIV_BEACONS i private
       else bt_mesh_proxy_identity_stop i) ≫= f) s Q.
Proof.
  intros Ht Hf. apply wp_bind. destruct b; (eexists (), _; split; [reflexivity|]); apply Hf.
  - by apply (rep_identity cap s m i _ (fun sub => if PRIV_BEACONS then private else priv_node_id sub)).
  - by apply (rep_identity cap s m i _ priv_node_id).
Qed.

(** The end of both switches. *)
Lemma gatt_update_answers cap s m a :
  table cap s m -> wp (_ ← emit GattUpdate; mret a) s (answers cap (a, m)).
Proof.
  intros [Hr Hcap]. apply wp_bind. eexists (), _. split; [reflexivity|]. apply wp_ret.
  split; [done|]. split; [by eapply rep_frame|done].
Qed.

Lemma node_id_answers cap s m k n :
  table cap s m -> is_key_idx k ->
  wp (bt_mesh_subnet_node_id_set GATT_PROXY PRIV_BEACONS k n) s
     (answers cap (identity_table false false k n m, m)).
Proof.
  intros Ht Hk. unfold bt_mesh_subnet_node_id_set, identity_table.
  destruct (n =? _); [by apply wp_ret|]. apply wp_get.
  pose proof (get_rep s m k (proj1 Ht) Hk) as Hg. destruct (m !! k) as [e|].
  2: { rewrite Hg. by apply wp_ret. }
  destruct Hg as (i & -> & _). destruct GATT_PROXY; cbn [negb orb andb]; [|by apply wp_ret].
  apply wp_bind. assert (wp (if PRIV_BEACONS then stop_private_loop (length (subnets s)) 0 else mret ()) s
    (fun _ s' => table cap s' m)) as Hst
    by (destruct PRIV_BEACONS; [by apply stop_loop_table|by apply wp_ret]).
  eapply wp_mono; [exact Hst|]. intros ? s1 Ht1. eapply start_stop_table; [exact Ht1|]. intros s2 Ht2.
  by apply gatt_update_answers.
Qed.

Lemma priv_node_id_answers cap s m k n :
  table cap s m -> is_key_idx k ->
  wp (bt_mesh_subnet_priv_node_id_set GATT_PROXY PRIV_BEACONS k n) s
     (answers cap (identity_table true (existsb public_node_id (subnets s)) k n m, m)).
Proof.
  intros Ht Hk. unfold bt_mesh_subnet_priv_node_id_set, identity_table.
  destruct (n =? _); [by apply wp_ret|]. apply wp_get.
  pose proof (get_rep s m k (proj1 Ht) Hk) as Hg. destruct (m !! k) as [e|].
  2: { rewrite Hg. by apply wp_ret. }
  destruct Hg as (i & -> & _). cbn [andb].
  destruct (negb GATT_PROXY || negb PRIV_BEACONS); [by apply wp_ret|].
  destruct (existsb _ _); [by apply wp_ret|].
  eapply start_stop_table; [exact Ht|]. intros s2 Ht2.
  by apply gatt_update_answers.
Qed.

(** ** The storage job *)

Definition same_keys (s s' : st) : Prop := subnets s' = subnets s /\ crypto s' = crypto s.

Lemma pending_one_same i s : wp (pending_one i) s (fun _ s' => same_keys s s').
Proof.
  unfold wp, pending_one, mbind, M_bind, gets.
  destruct (negb _); [by exists (), s|]. unfold set_update, modify.
  destruct (up_clear _); [by eexists (), _|]. unfold store_subnet, mbind, M_bind, gets. cbn [id].
  destruct (bt_mesh_subnet_get _ _); by eexists (), _.
Qed.

Lemma pending_loop_same n : forall i s, wp (pending_loop n i) s (fun _ s' => same_keys s s').
Proof.
  induction n as [|n IH]; intros i s; cbn [pending_loop]; [by apply wp_ret|].
  apply wp_bind. eapply wp_mono; [apply pending_one_same|]. intros ? s1 [H1 H2].
  eapply wp_mono; [apply IH|]. intros ? s2 [H3 H4]. split; congruence.
Qed.

Lemma store_answers cap s m :
  table cap s m -> wp bt_mesh_subnet_pending_store s (fun _ s' => table cap s' m).
Proof.
  intros [Hr Hcap]. eapply wp_mono; [apply (pending_loop_same (length (net_key_updates s)) 0 s)|].
  intros ? s' [Hs Hc]. split; [by eapply rep_frame|by rewrite Hs].
Qed.

(** The private beacon key of a set, and that no destruction reaches it unless
    [CONFIG_BT_MESH_V1d1] is there. *)
Lemma priv_beacon_stored w k raw :
  PRIV_BEACONS = true -> keys_ok w k raw ->
  in_store w (priv_beacon k) (BT_MESH_KEY_TYPE_ECB, derived raw "nkpk").
Proof.
  intros HP [_ _ Hs _ _]. unfold ids, vals in Hs. rewrite HP, !(assoc_L (++)) in Hs.
  apply Forall2_app_inv in Hs as [_ Hs]; [by apply Forall2_cons in Hs as [? _]|].
  by destruct GATT_PROXY.
Qed.

Lemma priv_beacon_kept sub :
  V1d1 = false -> PRIV_BEACONS = true -> used sub = true ->
  NoDup (sub_ids sub) -> priv_beacon (keys0 sub) ∉ sub_destroyed sub.
Proof.
  intros HV HP Hu Hd Hin. unfold sub_ids in Hd. rewrite Hu in Hd.
  apply NoDup_app in Hd as (Hd0 & Hdis & _).
  assert (ids (keys0 sub) = destroyed (keys0 sub) ++ [priv_beacon (keys0 sub)]) as Hids.
  { unfold ids, destroyed. by rewrite HV, HP, app_nil_r, (assoc_L (++)). }
  unfold sub_destroyed in Hin. apply elem_of_app in Hin as [Hin|Hin].
  - rewrite Hids in Hd0. apply NoDup_app in Hd0 as (_ & Hd0 & _).
    apply (Hd0 _ Hin). by left.
  - apply (Hdis (priv_beacon (keys0 sub))).
    + rewrite Hids. apply elem_of_app. right. by left.
    + destruct (valid (keys1 sub)); [|done]. eapply elem_of_sublist; [exact Hin|apply destroyed_sublist].
Qed.

(** ** Loading *)

Lemma wp_key_set i l sub w s j v raw (Q : Z -> st -> Prop) :
  on i l sub w s -> mc_ready w -> mc_keys w !! v = Some (BT_MESH_KEY_TYPE_NET, raw) -> length raw = 16%nat ->
  (forall keys w' s', grows w w' -> keys_ok w' keys raw -> NoDup (ids keys) ->
     (forall id, id ∈ ids keys -> id = v \/ mc_keys w !! id = None) ->
     on i l (with_keys j keys sub) w' s' -> Q 0 s') ->
  wp (subnet_key_set GATT_PROXY PRIV_BEACONS i j v) s Q.
Proof.
  intros Hon Hw Hv Hl HQ. unfold subnet_key_set.
  pose proof (mc_export_spec w v BT_MESH_KEY_TYPE_NET raw Hv eq_refl Hl) as Hx.
  destruct (computes_yields _ _ _ Hx Hw) as (w1 & E & Hk1 & Hr1).
  assert (exists s1, attempt (crypto_call (mc_key_export v)) s = (Ok (inl raw), s1) /\ on i l sub w1 s1)
    as (s1 & E1 & Hon1).
  { exists (set_crypto w1 s). destruct Hon as (Hs & Hc & Hi). split; [|by split_and!].
    unfold attempt, crypto_call. by rewrite Hc, E. }
  apply wp_bind. exists (inl raw), s1. split; [exact E1|]. clear s Hon E1.
  destruct (mc_assign_spec w1 v Hr1) as (w2 & E2 & Hk2 & Hr2); [by rewrite Hk1, Hv|].
  apply wp_bind. eapply wp_crypto; [exact Hon1|exact E2|]. clear s1 Hon1. intros s1 Hon.
  apply wp_bind. eapply wp_set; [exact Hon|]. clear s1 Hon. intros s1 Hon. apply wp_get.
  rewrite (on_at _ _ _ _ _ Hon).
  assert (keys_of j (with_keys j (set_net v (keys_of j sub)) sub) = set_net v (keys_of j sub)) as ->
    by by destruct j.
  destruct (create_stored_spec w2 (set_net v (keys_of j sub)) raw Hr2 Hl)
    as ([keys err] & w3 & E3 & Hg & Hz & Hok & Hd & Hnet & Hf); [by rewrite Hk2, Hk1|].
  simpl in Hz. subst err.
  apply wp_bind. eapply wp_crypto; [exact Hon|exact E3|]. clear s1 Hon. intros s1 Hon.
  apply wp_bind. eapply wp_set; [exact Hon|]. clear s1 Hon. intros s1 Hon. apply wp_ret.
  apply (HQ keys w3); try done.
  - destruct Hg as [Hs3 Hr3]. split; [by rewrite <-Hk1, <-Hk2|done].
  - intros id Hid. rewrite <-Hk1, <-Hk2. by apply Hf.
  - by destruct j.
Qed.

(** A NetKey in the store that no subnet owns. *)
Definition loadable (s : st) (v : Z) (raw : list Z) : Prop :=
  mc_keys (crypto s) !! v = Some (BT_MESH_KEY_TYPE_NET, raw) /\ length raw = 16%nat /\ ~ live s v.

(** What is loaded: the second key is there during a key refresh. *)
Definition load_ok (s : st) (phase v0 : Z) (v1 : option Z) (e : entry) : Prop :=
  e.1.1 = phase /\ 0 <= phase <= 2 /\ loadable s v0 e.1.2 /\
  match v1, e.2 with
  | None, None => phase = BT_MESH_KR_NORMAL
  | Some v1, Some r1 => phase <> BT_MESH_KR_NORMAL /\ loadable s v1 r1 /\ v0 <> v1
  | _, _ => False
  end.

Lemma grown_other w w' id : grows w w' -> is_Some (mc_keys w !! id) -> mc_keys w' !! id = mc_keys w !! id.
Proof. intros Hg [v Hv]. rewrite Hv. by eapply grows_lookup. Qed.

(** What becomes owned: the loaded keys and fresh ones. *)
Definition newly_live (s : st) (v0 : Z) (v1 : option Z) (s' : st) : Prop :=
  forall id, live s' id -> live s id \/ id = v0 \/ v1 = Some id \/ mc_keys (crypto s) !! id = None.

Lemma load_spec cap s m idx phase v0 v1 e :
  table cap s m -> is_key_idx idx -> m !! idx = None -> size m <> cap -> load_ok s phase v0 v1 e ->
  wp (bt_mesh_subnet_set GATT_PROXY PRIV_BEACONS idx phase (Some v0) v1) s
     (fun a s' => answers cap (0, <[idx := e]> m) a s' /\ newly_live s v0 v1 s' /\
        grows (crypto s) (crypto s')).
Proof.
  intros [Hr Hcap] Hk Hnone Hsize Hload. destruct e as [[p r0] r1].
  destruct Hload as (Hp & Hph & (Hs0 & Hl0 & Hlive0) & Hload). simpl in Hp, Hs0, Hl0, Hload. subst p.
  pose proof (alloc_rep s m idx Hr Hk) as Ha. rewrite Hnone, Hcap, decide_False in Ha by done.
  destruct Ha as (i & sub & Hal & Hi & Hu). pose proof (rp_free _ _ Hr i sub Hi Hu) as Hv1.
  unfold bt_mesh_subnet_set. apply wp_get. rewrite Hal, (sub_at_eq _ _ _ Hi), (unused_idx _ Hu).
  destruct (Z.eqb_spec BT_MESH_KEY_UNUSED idx) as [<-|_]; [by apply key_idx_used in Hk|].
  apply wp_bind. eapply wp_key_set; [by apply on_start|apply Hr|done|done|].
  intros k0 w1 s1 Hg1 Hok0 Hd0 Hf0 Hon. change (with_keys false k0 sub) with (with_keys0 k0 sub) in Hon.
  cbn [Z.eqb negb].
  assert (forall k w' s', on i (subnets s) (with_idx idx phase (initial_node_id GATT_PROXY) (mk_subnet (net_idx sub)
      (kr_phase sub) (node_id sub) (priv_node_id sub) k0 k)) w' s' -> grows (crypto s) w' ->
    keys_ok w' k0 r0 ->
    match r1 with
    | None => valid k = false
    | Some r => keys_ok w' k r /\ NoDup (ids k) /\ (forall id, id ∈ ids k -> id ∉ ids k0 /\ ~ live s id /\
        (v1 = Some id \/ mc_keys (crypto s) !! id = None))
    end -> answers cap (0, <[idx := (phase, r0, r1)]> m) 0 s' /\ newly_live s v0 v1 s' /\
      grows (crypto s) (crypto s')) as Hend.
  { intros k w' s' Hon' Hg Hk0 Hk1. pose proof (on_length _ _ _ _ _ Hon') as Hlen.
    destruct Hon' as (Hs' & Hc' & _). set (new := with_idx _ _ _ _) in Hs'.
    assert (sub_ids new = ids k0 ++ (if r1 then ids k else [])) as Hids.
    { unfold sub_ids. rewrite (key_idx_is_used new) by done. change (keys1 new) with k.
      change (keys0 new) with k0. destruct r1; [|by rewrite Hk1]. by rewrite (ko_valid _ _ _ (proj1 Hk1)). }
    split; [|split; [|by rewrite Hc']].
    2: { intros id [(j & sub' & Hj & Hid)|?]; [|by left; right]. rewrite Hs' in Hj. destruct (decide (j = i)) as [->|Hji].
      - rewrite list_lookup_insert_eq in Hj by (by apply lookup_lt_Some in Hi). injection Hj as <-.
        rewrite Hids in Hid. apply elem_of_app in Hid as [Hid|Hid]; [destruct (Hf0 id Hid); auto|].
        destruct r1; [|by apply elem_of_nil in Hid]. destruct Hk1 as (_ & _ & Hk1).
        destruct (Hk1 id Hid) as (_ & _ & [?|?]); auto.
      - rewrite list_lookup_insert_ne in Hj by done. left. left. by exists j, sub'. }
    split; [done|]. split; [|by rewrite Hlen].
    pose proof (rep_replace s s' m i sub new (Some (phase, r0, r1)) Hr Hi Hs') as Hrep. simpl in Hrep.
    apply Hrep; rewrite Hc'; [apply Hg|intros id _; by apply grown_other|]. clear Hrep.
    rewrite Hids. split_and!; try done; try lia.
    - by right.
    - destruct r1, v1; try done; [split; [apply Hload|apply Hk1]].
    - destruct r1; [|by rewrite app_nil_r]. apply NoDup_app. split_and!; [done| |apply Hk1].
      intros id Hin Hin1. by apply Hk1 in Hin1 as [? _].
    - intros id Hin. right. apply elem_of_app in Hin as [Hin|Hin].
      + destruct (Hf0 id Hin) as [->|Hn]; [done|by eapply fresh_not_live].
      + destruct r1; [by apply Hk1|by apply elem_of_nil in Hin]. }
  destruct v1 as [v1|], r1 as [r1|]; try done; cbn [key_set_opt].
  - destruct Hload as (Hn0 & (Hs1 & Hl1 & Hlive1) & Hne).
    apply wp_bind. eapply wp_key_set; [exact Hon|apply Hg1|by eapply grows_lookup|done|].
    intros k1 w2 s2 Hg2 Hok1 Hd1 Hf1 Hon2. change (with_keys true k1 _) with (with_keys1 k1 (with_keys0 k0 sub)) in Hon2.
    cbn [Z.eqb negb]. apply wp_bind. eapply wp_set; [exact Hon2|]. intros s3 Hon3.
    apply wp_bind. eapply wp_emit; [exact Hon3|]. intros s4 Hon4. apply wp_ret.
    eapply (Hend k1 w2); [exact Hon4|by eapply grows_trans| |].
    + eapply keys_ok_same; [exact Hok0|]. intros id _. by apply grown_other.
    + split_and!; [done|done|]. intros id Hin. destruct (Hf1 id Hin) as [->|Hn].
      * split_and!; [|done|by left]. intros Hin0. destruct (Hf0 v1 Hin0); congruence.
      * assert (mc_keys (crypto s) !! id = None) as Hn' by by eapply grows_fresh.
        split_and!; [|by eapply fresh_not_live|by right]. intros Hin0. destruct (keys_ok_some _ _ _ _ Hok0 Hin0). congruence.
  - apply wp_bind, wp_ret. cbn [Z.eqb negb].
    apply wp_bind. eapply wp_set; [exact Hon|]. intros s3 Hon3.
    apply wp_bind. eapply wp_emit; [exact Hon3|]. intros s4 Hon4. apply wp_ret.
    by eapply (Hend (keys1 sub) w1).
Qed.

End Table.

(** * Runs *)

Section Runs.

Context {W : Type} `{MeshCryptoLaws W}.
Context (GATT_PROXY PRIV_BEACONS V1d1 : bool).
Context (Hconfig : V1d1 = true -> PRIV_BEACONS = true).
Context `{!MeshImportLaws W}.
Context (F : gmap Z (bt_mesh_key_type * list Z)).
Notation st := (subnet_state W).
Notation table := (table GATT_PROXY PRIV_BEACONS F).
Notation table_op := (table_op GATT_PROXY PRIV_BEACONS).

(** NetKey indexes have 12 bits, keys 16 bytes, and [BIT(phase)] is defined. *)
Definition table_op_ok (op : subnet_op) : Prop :=
  match op with
  | OpAdd k key | OpUpdate k key => is_key_idx k /\ length key = 16%nat
  | OpPhase k phase => is_key_idx k /\ 0 <= phase < 31
  | OpDel k | OpBeacon k _ _ | OpNodeId k _ | OpPrivNodeId k _ => is_key_idx k
  | OpReset | OpStore => True
  end.

Lemma op_answers cap s m op :
  table cap s m -> table_op_ok op ->
  exists env, env_ok op s env /\
    wp (do_subnet GATT_PROXY PRIV_BEACONS V1d1 op) s
       (answers GATT_PROXY PRIV_BEACONS F cap (table_op cap env op m)).
Proof.
  intros Ht Hop. destruct op as [k key|k key|k|k phase|k f n|k n|k n| |]; cbn [do_subnet].
  - destruct Hop. by eapply add_answers.
  - destruct Hop. by eapply update_answers.
  - exists false. split; [done|]. by eapply del_answers.
  - exists false. split; [done|]. destruct Hop. by eapply phase_answers.
  - exists false. split; [done|]. apply wp_bind.
    eapply wp_mono; [by eapply beacon_answers|]. intros ? s' Ht'. by apply wp_ret.
  - exists false. split; [done|]. by eapply node_id_answers.
  - exists (existsb public_node_id (subnets s)). split; [by intros Hx|]. by eapply priv_node_id_answers.
  - exists false. split; [done|]. apply wp_bind.
    apply (wp_mono _ _ (fun _ s' => table cap s' ∅)); [|intros ? s' Ht'; by apply wp_ret].
    unfold bt_mesh_net_keys_reset. apply wp_get. eapply reset_loop_spec; [done|exact Ht|apply Ht|lia].
  - exists false. split; [done|]. apply wp_bind.
    eapply wp_mono; [by eapply store_answers|]. intros ? s' Ht'. by apply wp_ret.
Qed.

(** A run against the specification: [run_table s ops m rs s' m'] follows the
    states of the code for what the environment may decide. *)
Inductive run_table (cap : nat) : st -> list subnet_op -> gmap Z entry -> list Z -> st -> gmap Z entry -> Prop :=
| run_nil s m : run_table cap s [] m [] s m
| run_cons s op ops m env a s1 rs s' m' :
    env_ok op s env ->
    do_subnet GATT_PROXY PRIV_BEACONS V1d1 op s = (Ok a, s1) ->
    a = (table_op cap env op m).1 ->
    run_table cap s1 ops (table_op cap env op m).2 rs s' m' ->
    run_table cap s (op :: ops) m (a :: rs) s' m'.

Lemma run_answers cap s m ops :
  table cap s m -> Forall table_op_ok ops ->
  exists rs s' m', run_subnet GATT_PROXY PRIV_BEACONS V1d1 ops s = (Ok rs, s') /\
    run_table cap s ops m rs s' m' /\ table cap s' m'.
Proof.
  intros Ht Hops. revert s m Ht. induction Hops as [|op ops Hop _ IH]; intros s m Ht.
  { exists [], s, m. split_and!; [done|constructor|done]. }
  destruct (op_answers cap s m op Ht Hop) as (env & Henv & a & s1 & E & Ha & Ht1).
  destruct (IH s1 _ Ht1) as (rs & s' & m' & E2 & Hrun & Ht').
  exists (a :: rs), s', m'. split_and!; [|by econstructor|done].
  cbn [run_subnet]. rewrite (bind_ok _ _ _ _ _ E). by rewrite (bind_ok _ _ _ _ _ E2).
Qed.

(** C14: The subnets are a table of keys.  From a state that implements a table -
    every subnet's NetKey and all the keys derived from it are in the key
    store, under identifiers nobody shares - any sequence of additions, updates,
    deletions, phase changes, beacons, identity changes, resets and storage jobs
    runs to its end without a crash, answers each call with the status that the
    specification gives for the table, and ends in a state that implements the
    table the specification ends with, with the keys [F] of other components in the
    key store untouched.  The backend may refuse a new key, and then nothing changes. *)
Theorem subnet_table_refines cap s m ops :
  table cap s m -> Forall table_op_ok ops ->
  exists rs s' m', run_subnet GATT_PROXY PRIV_BEACONS V1d1 ops s = (Ok rs, s') /\
    run_table cap s ops m rs s' m' /\ table cap s' m'.
Proof. apply run_answers. Qed.

(** Whether deleting the subnet removes a key of it. *)
Definition released (sub : bt_mesh_subnet) (id : Z) : bool :=
  bool_decide (id ∈ sub_destroyed GATT_PROXY V1d1 sub).

(** What deleting a subnet does to the key store.  Every key of the subnet is
    destroyed and every other key is kept, except that the private beacon keys
    are only destroyed under [CONFIG_BT_MESH_V1d1]: without it, a subnet with
    private beacons leaves its PrivateBeaconKey in the key store. *)
Theorem subnet_del_key_store cap s m k p r0 r1 :
  table cap s m -> is_key_idx k -> m !! k = Some (p, r0, r1) ->
  exists i sub s', subnets s !! i = Some sub /\ net_idx sub = k /\
    bt_mesh_subnet_del true GATT_PROXY V1d1 k s = (Ok STATUS_SUCCESS, s') /\
    table cap s' (delete k m) /\
    (forall id, id <> 0 -> mc_keys (crypto s') !! id =
       if released sub id then None else mc_keys (crypto s) !! id) /\
    (forall id, V1d1 = PRIV_BEACONS -> released sub id = bool_decide (id ∈ sub_ids GATT_PROXY PRIV_BEACONS sub)) /\
    (V1d1 = false -> PRIV_BEACONS = true ->
       mc_keys (crypto s') !! priv_beacon (keys0 sub) = Some (BT_MESH_KEY_TYPE_ECB, derived r0 "nkpk")).
Proof.
  intros Ht Hk He. pose proof (get_rep _ _ _ s m k (proj1 Ht) Hk) as Hg.
  change (m !! k = Some ((p, r0, r1) : entry)) in He. rewrite He in Hg.
  destruct Hg as (i & Hget & sub & Hi & <- & Hu & Hok).
  destruct (wp_del true GATT_PROXY PRIV_BEACONS V1d1 Hconfig F s m i sub
    (fun _ s' => table cap s' (delete (net_idx sub) m) /\
       mc_keys (crypto s') = without (sub_destroyed GATT_PROXY V1d1 sub) (mc_keys (crypto s))))
    as ([] & s' & E & Ht' & Hks); [apply Ht|done|done| |].
  { intros w' s' Hw' Hk' Hon. split; [|destruct Hon as (_ & -> & _); done].
    split; [eapply (rep_deleted GATT_PROXY PRIV_BEACONS V1d1 Hconfig F s s' m i sub); try done; apply Ht|].
    rewrite (on_length _ _ _ _ _ Hon). apply Ht. }
  exists i, sub, s'. split_and!; try done.
  - unfold bt_mesh_subnet_del. unfold mbind at 1, M_bind at 1, gets at 1. cbn [id].
    rewrite Hget. by rewrite (bind_ok _ _ _ _ _ E).
  - intros id Hid. rewrite Hks, without_lookup. unfold released.
    destruct (bool_decide_reflect (id ∈ sub_destroyed GATT_PROXY V1d1 sub)) as [Hin|Hn].
    + by rewrite bool_decide_eq_true_2.
    + rewrite bool_decide_eq_false_2; [done|]. by intros [? _].
  - intros id HV. unfold released. replace (sub_destroyed GATT_PROXY V1d1 sub)
      with (sub_ids GATT_PROXY PRIV_BEACONS sub); [done|].
    unfold sub_destroyed, sub_ids, destroyed. by rewrite Hu, HV.
  - intros HV HP. rewrite Hks, without_lookup.
    destruct Hok as (_ & Hk0 & Hk1).
    assert (in_store (crypto s) (priv_beacon (keys0 sub)) (BT_MESH_KEY_TYPE_ECB, derived r0 "nkpk")) as Hin
      by (by apply (priv_beacon_stored GATT_PROXY PRIV_BEACONS)).
    rewrite bool_decide_eq_false_2; [exact Hin|]. intros [Hd _].
    by apply (priv_beacon_kept GATT_PROXY PRIV_BEACONS V1d1 Hconfig sub HV HP Hu (rp_nodup _ _ _ _ _ (proj1 Ht) i sub Hi)).
Qed.

(** A node that starts has an empty table. *)
Lemma table_boot n w q x :
  mc_ready w -> F ⊆ mc_keys w -> table n (mk_state w (replicate n free_subnet) q x) ∅.
Proof.
  intros Hw HF. split; [split; simpl|apply length_replicate].
  - exact (key_slots_boot _ _ _ _ F w n free_subnet eq_refl eq_refl Hw HF).
  - intros i sub [-> _]%lookup_replicate_1 Hu. done.
Qed.

End Runs.

(** * Restart *)

Section Restart.

Context {W : Type} `{MeshCryptoLaws W}.
Context (GATT_PROXY PRIV_BEACONS : bool).
Context (F : gmap Z (bt_mesh_key_type * list Z)).
Notation st := (subnet_state W).
Notation table := (table GATT_PROXY PRIV_BEACONS F).
Notation load_ok := (load_ok GATT_PROXY PRIV_BEACONS F).

(** The settings call the handler for every stored record and go on if it fails. *)
Fixpoint load_all (l : list (Z * net_key_val)) : M st unit :=
  match l with
  | [] => mret ()
  | (idx, val) :: l => _ ← net_key_set GATT_PROXY PRIV_BEACONS (Some idx) (inl val); load_all l
  end.

(** The keys a record refers to. *)
Definition record_ids (val : net_key_val) : list Z :=
  kv_val0 val :: (if kv_kr_phase val =? BT_MESH_KR_NORMAL then [] else [kv_val1 val]).

Definition load_record (s : st) (val : net_key_val) (e : entry) : Prop :=
  load_ok s (effective val).1.1 (effective val).1.2 (effective val).2 e.

Lemma loadable_step s s1 v0 v1 v raw :
  newly_live GATT_PROXY PRIV_BEACONS F s v0 v1 s1 -> grows (crypto s) (crypto s1) -> v <> v0 -> v1 <> Some v ->
  loadable GATT_PROXY PRIV_BEACONS F s v raw -> loadable GATT_PROXY PRIV_BEACONS F s1 v raw.
Proof.
  intros Hnl Hg Hn0 Hn1 (Hs & Hl & Hlive). split; [by eapply grows_lookup|]. split; [done|].
  intros Hx. destruct (Hnl v Hx) as [?|[?|[?|?]]]; congruence.
Qed.

(** A record that shares no key with the one just loaded. *)
Lemma load_record_step s s1 val0 val e :
  newly_live GATT_PROXY PRIV_BEACONS F s (effective val0).1.2 (effective val0).2 s1 ->
  grows (crypto s) (crypto s1) -> (forall id, id ∈ record_ids val0 -> id ∉ record_ids val) ->
  load_record s val e -> load_record s1 val e.
Proof.
  intros Hnl Hg Hdis (H1 & H2 & H3 & H4).
  assert (forall v raw, v ∈ record_ids val -> loadable GATT_PROXY PRIV_BEACONS F s v raw ->
    loadable GATT_PROXY PRIV_BEACONS F s1 v raw) as Hstep.
  { intros v raw Hv. eapply loadable_step; [done|done| |].
    - intros ->. eapply Hdis; [|exact Hv]. by left.
    - intros Hx. eapply Hdis; [|exact Hv]. unfold effective, record_ids in *. simpl in Hx.
      destruct (kv_kr_phase val0 =? BT_MESH_KR_NORMAL); [done|]. injection Hx as ->. right. by left. }
  split; [done|]. split; [done|]. split; [apply Hstep; [by left|done]|].
  unfold effective in *. simpl in *. destruct (kv_kr_phase val =? BT_MESH_KR_NORMAL) eqn:E; simpl in *; [done|].
  destruct (snd e); [|done]. destruct H4 as (? & Hv1 & ?). split_and!; try done. apply Hstep; [|done].
  unfold record_ids. rewrite E. right. by left.
Qed.

(** One record, in the form the settings deliver it. *)
Lemma load_one cap s m idx val e :
  table cap s m -> is_key_idx idx -> m !! idx = None -> size m <> cap -> load_record s val e ->
  wp (net_key_set GATT_PROXY PRIV_BEACONS (Some idx) (inl val)) s
    (fun a s' => a = 0 /\ table cap s' (<[idx := e]> m) /\
       newly_live GATT_PROXY PRIV_BEACONS F s (effective val).1.2 (effective val).2 s' /\
       grows (crypto s) (crypto s')).
Proof.
  intros Ht Hk Hn Hs Hl. unfold net_key_set.
  replace (u16 idx) with idx by (unfold u16; rewrite Z.mod_small; [done|]; unfold is_key_idx in Hk; lia).
  eapply wp_mono; [by eapply (load_spec GATT_PROXY PRIV_BEACONS false)|].
  intros a s' ([-> Ht'] & Hnl & Hg). by split_and!.
Qed.

Lemma load_all_spec cap (M : gmap Z entry) l : forall s m,
  table cap s m -> (size m + length l <= cap)%nat -> NoDup l.*1 ->
  (forall k v, (k, v) ∈ l -> is_key_idx k /\ m !! k = None /\ exists e, M !! k = Some e /\ load_record s v e) ->
  (forall k1 k2 v1 v2 id, (k1, v1) ∈ l -> (k2, v2) ∈ l -> id ∈ record_ids v1 -> id ∈ record_ids v2 -> k1 = k2) ->
  wp (load_all l) s (fun _ s' => exists m', table cap s' m' /\
    forall k, m' !! k = if decide (k ∈ l.*1) then M !! k else m !! k).
Proof.
  induction l as [|[k v] l IH]; intros s m Ht Hsz Hd Hl Hap; cbn [load_all].
  { apply wp_ret. exists m. split; [done|]. intros k. rewrite decide_False; [done|]. by intros ?%elem_of_nil. }
  destruct (Hl k v) as (Hk & Hn & e & He & Hload); [by left|].
  apply NoDup_cons in Hd as [Hnk Hd]. simpl in Hsz.
  apply wp_bind. eapply wp_mono; [by eapply load_one; [..|exact Hload]; try done; lia|].
  intros a s1 (_ & Ht1 & Hnl & Hg).
  eapply wp_mono; [apply (IH s1 (<[k := e]> m) Ht1)|].
  - rewrite map_size_insert_None by done. lia.
  - done.
  - intros k' v' Hin. destruct (Hl k' v') as (Hk' & Hn' & e' & He' & Hload'); [by right|].
    assert (k <> k') as Hne by (intros ->; apply Hnk, list_elem_of_fmap; by exists (k', v')).
    split_and!; [done|by rewrite lookup_insert_ne|]. exists e'. split; [done|].
    eapply load_record_step; [exact Hnl|exact Hg| |done].
    intros id Hi Hi'. apply Hne. eapply Hap; [by left|by right; exact Hin|done|done].
  - intros k1 k2 v1 v2 id H1 H2. apply Hap; by right.
  - intros ? s2 (m' & Ht' & Hm'). exists m'. split; [done|]. intros k'. rewrite Hm'. simpl.
    destruct (decide (k' ∈ l.*1)) as [Hin|Hnin]; [rewrite decide_True; [done|by right]|].
    destruct (decide (k' = k)) as [->|Hne].
    + rewrite decide_True by by left. by rewrite lookup_insert_eq, He.
    + rewrite lookup_insert_ne by done. rewrite decide_False; [done|].
      by intros [?|?]%elem_of_cons.
Qed.

(** The record the storage has for a subnet. *)
Lemma stored_record cap s m (D : gmap Z net_key_val) k val :
  table cap s m -> (forall k, is_Some (D !! k) -> is_key_idx k) ->
  (forall k, is_key_idx k -> effective <$> D !! k = disk s k) -> D !! k = Some val ->
  exists i sub e, subnets s !! i = Some sub /\ net_idx sub = k /\ used sub = true /\
    m !! k = Some e /\ slot_ok GATT_PROXY PRIV_BEACONS (crypto s) sub e /\
    effective val = (e.1.1, net (keys0 sub), (fun _ => net (keys1 sub)) <$> e.2) /\
    0 <= e.1.1 <= 2 /\ (e.2 = None -> e.1.1 = BT_MESH_KR_NORMAL).
Proof.
  intros [Hr _] HD Hdisk Hval. assert (is_key_idx k) as Hk by (apply HD; by rewrite Hval).
  pose proof (Hdisk k Hk) as Hd. rewrite Hval in Hd. simpl in Hd. symmetry in Hd.
  apply disk_Some in Hd as (i & sub & Hi & Hn & He); [|eapply so_unique, rp_slots, Hr|by apply key_idx_used].
  assert (used sub = true) as Hu by (apply key_idx_is_used; by rewrite Hn).
  destruct (rp_entry _ _ _ _ _ Hr i sub Hi Hu) as ([[p r0] r1] & Hm & Hok).
  pose proof (so_phase _ (rp_slots _ _ _ _ _ Hr) i sub Hi Hu) as Hph.
  exists i, sub, (p, r0, r1). rewrite Hn in Hm. pose proof Hok as (Hp & _ & Hk1). simpl.
  split_and!; try done; try lia; [apply Hok| |destruct r1; [done|by intros _; destruct Hk1]].
  rewrite He. unfold effective, sub_val. simpl. rewrite Z.mod_small by lia. rewrite Hp.
  destruct r1; destruct Hk1 as [Hx _]; simpl; [by rewrite (proj2 (Z.eqb_neq _ _) Hx)|by rewrite Hx].
Qed.

Lemma record_ids_sub cap s m (D : gmap Z net_key_val) k val i sub id :
  table cap s m -> (forall k, is_Some (D !! k) -> is_key_idx k) ->
  (forall k, is_key_idx k -> effective <$> D !! k = disk s k) -> D !! k = Some val ->
  subnets s !! i = Some sub -> net_idx sub = k -> id ∈ record_ids val -> id ∈ sub_ids GATT_PROXY PRIV_BEACONS sub.
Proof.
  intros Ht HD Hdisk Hval Hi Hn Hid.
  destruct (stored_record cap s m D k val Ht HD Hdisk Hval)
    as (j & sub' & [[p r0] r1] & Hj & Hn' & Hu & _ & (Hp & Hk0 & Hk1) & He & _ & _).
  assert (j = i) as -> by (eapply (so_unique _ (rp_slots _ _ _ _ _ (proj1 Ht)) j i sub' sub); congruence).
  replace sub' with sub in * by congruence. unfold sub_ids. rewrite Hu.
  unfold effective in He. unfold record_ids in Hid. simpl in He.
  destruct (kv_kr_phase val =? BT_MESH_KR_NORMAL); simpl in He, Hid.
  - apply list_elem_of_singleton in Hid as ->. apply elem_of_app. left.
    injection He as _ -> _. by left.
  - destruct r1 as [r1|]; [|done]. injection He as _ Hv0 Hv1. rewrite (ko_valid _ _ _ _ _ (proj2 Hk1)).
    apply elem_of_app. apply elem_of_cons in Hid as [->| ->%list_elem_of_singleton].
    + left. rewrite Hv0. by left.
    + right. rewrite Hv1. by left.
Qed.

(** The table after a restart. *)
Lemma restart_subnets cap s m (D : gmap Z net_key_val) w0 q x l :
  table cap s m ->
  (forall k, is_Some (D !! k) -> is_key_idx k) ->
  (forall k, is_key_idx k -> effective <$> D !! k = disk s k) ->
  mc_ready w0 -> F ⊆ mc_keys w0 ->
  (forall id raw, mc_keys (crypto s) !! id = Some (BT_MESH_KEY_TYPE_NET, raw) ->
     mc_keys w0 !! id = Some (BT_MESH_KEY_TYPE_NET, raw)) ->
  l ≡ₚ map_to_list D ->
  exists s', load_all l (mk_state w0 (replicate cap free_subnet) q x) = (Ok (), s') /\ table cap s' m.
Proof.
  intros Ht HD Hdisk Hw0 HF Hkept Hl.
  assert (forall k v, (k, v) ∈ l <-> D !! k = Some v) as Hin
    by (intros k v; rewrite Hl; apply elem_of_map_to_list).
  assert (NoDup l.*1) as Hnd by (rewrite Hl; apply NoDup_fst_map_to_list).
  set (s0 := mk_state w0 _ _ _).
  destruct (load_all_spec cap m l s0 ∅) as ([] & s' & E & m' & Ht' & Hm').
  - by apply table_boot.
  - rewrite map_size_empty, Hl, length_map_to_list. simpl.
    transitivity (size m); [|destruct Ht as [Hr <-]; rewrite (rep_size _ _ _ _ _ Hr); apply filter_length_le].
    rewrite <-!size_dom. apply subseteq_size. intros k [v Hv]%elem_of_dom.
    destruct (stored_record cap s m D k v Ht HD Hdisk Hv) as (_ & _ & e & _ & _ & _ & Hm & _).
    apply elem_of_dom. by rewrite Hm.
  - done.
  - intros k v Hkv%Hin. split; [apply HD; by rewrite Hkv|]. split; [apply lookup_empty|].
    destruct (stored_record cap s m D k v Ht HD Hdisk Hkv)
      as (i & sub & [[p r0] r1] & Hi & Hn & Hu & Hm & (Hp & Hk0 & Hk1) & He & Hph & Hz).
    exists (p, r0, r1). split; [done|]. unfold load_record. rewrite He. simpl in *.
    assert (forall k raw, keys_ok GATT_PROXY PRIV_BEACONS (crypto s) k raw ->
      net k ∈ sub_ids GATT_PROXY PRIV_BEACONS sub -> loadable GATT_PROXY PRIV_BEACONS F s0 (net k) raw) as Hloadable.
    { intros kk raw Hkk Hown. split; [by eapply Hkept, keys_ok_net|]. split; [by eapply ko_length|].
      intros [(j & sub' & Hj & Hid)|[v' Hv']]; [apply lookup_replicate_1 in Hj as [-> _]; by apply elem_of_nil in Hid|].
      destruct (rp_foreign _ _ _ _ _ (proj1 Ht) _ _ Hv') as [_ Hno]. by apply (Hno i sub Hi). }
    assert (net (keys0 sub) ∈ sub_ids GATT_PROXY PRIV_BEACONS sub) as Hown0.
    { unfold sub_ids. rewrite Hu. apply elem_of_app. left. by left. }
    split; [done|]. split; [done|]. split; [exact (Hloadable _ _ Hk0 Hown0)|].
    destruct r1 as [r1|]; simpl; [|by apply Hz]. destruct Hk1 as [Hnz Hk1].
    split; [done|]. split.
    { apply (Hloadable _ _ Hk1). unfold sub_ids. rewrite Hu, (ko_valid _ _ _ _ _ Hk1). apply elem_of_app. right. by left. }
    pose proof (rp_nodup _ _ _ _ _ (proj1 Ht) i sub Hi) as Hd. unfold sub_ids in Hd. rewrite Hu in Hd.
    rewrite (ko_valid _ _ _ _ _ Hk1) in Hd. apply NoDup_app in Hd as (_ & Hdis & _).
    intros Hx. apply (Hdis (net (keys0 sub))); [by left|]. rewrite Hx. by left.
  - intros k1 k2 v1 v2 id H1%Hin H2%Hin Hid1 Hid2.
    destruct (stored_record cap s m D k1 v1 Ht HD Hdisk H1) as (i1 & sub1 & _ & Hi1 & Hn1 & _).
    destruct (stored_record cap s m D k2 v2 Ht HD Hdisk H2) as (i2 & sub2 & _ & Hi2 & Hn2 & _).
    assert (i1 = i2) as <-; [|congruence].
    eapply (rp_apart _ _ _ _ _ (proj1 Ht) i1 i2 sub1 sub2 id); [done|done| |].
    + exact (record_ids_sub cap s m D k1 v1 i1 sub1 id Ht HD Hdisk H1 Hi1 Hn1 Hid1).
    + exact (record_ids_sub cap s m D k2 v2 i2 sub2 id Ht HD Hdisk H2 Hi2 Hn2 Hid2).
  - exists s'. split; [done|]. replace m with m'; [done|]. apply map_eq. intros k. rewrite Hm'.
    destruct (decide (k ∈ l.*1)) as [_|Hn]; [done|]. rewrite lookup_empty. symmetry.
    apply eq_None_not_Some. intros [e He].
    destruct (rp_slot _ _ _ _ _ (proj1 Ht) k e He) as (Hk & i & sub & Hi & Hn').
    apply Hn, list_elem_of_fmap. pose proof (Hdisk k Hk) as Hd.
    rewrite <-Hn', (disk_at s i sub) in Hd; [|exact (rp_slots _ _ _ _ _ (proj1 Ht))|done|by rewrite Hn'].
    destruct (D !! net_idx sub) as [v|] eqn:Hv; [|done]. exists (k, v). split; [done|].
    apply Hin. by rewrite <-Hn'.
Qed.

(** C28: A restart restores the subnets.  Take any state that implements a table,
    whose storage holds what the storage job leaves there.  Restart the node: the
    slots are empty, the backend has kept the NetKeys and perhaps nothing else.
    Loading the stored records, in any order, ends with the same table: the
    phases, the keys in use and the new keys, with all the keys derived from
    them imported again. *)
Theorem subnet_restart cap s m (D : gmap Z net_key_val) w0 q x l :
  table cap s m ->
  (forall k, is_Some (D !! k) -> is_key_idx k) ->
  (forall k, is_key_idx k -> effective <$> D !! k = disk s k) ->
  mc_ready w0 -> F ⊆ mc_keys w0 ->
  (forall id raw, mc_keys (crypto s) !! id = Some (BT_MESH_KEY_TYPE_NET, raw) ->
     mc_keys w0 !! id = Some (BT_MESH_KEY_TYPE_NET, raw)) ->
  l ≡ₚ map_to_list D ->
  exists s', load_all l (mk_state w0 (replicate cap free_subnet) q x) = (Ok (), s') /\ table cap s' m.
Proof. apply restart_subnets. Qed.

End Restart.

(** An empty storage and queue agree with it. *)
Lemma coherent_boot {W} n k (w : W) :
  coherent ∅ (mk_state w (replicate n free_subnet) (replicate k (mk_update 0 false false)) []).
Proof.
  assert (forall i sub, replicate n free_subnet !! i = Some sub -> sub = free_subnet) as Hfree
    by (intros i sub [-> _]%lookup_replicate_1; done).
  assert (forall i u, replicate k (mk_update 0 false false) !! i = Some u -> up_valid u = false) as Hq
    by (intros i u [-> _]%lookup_replicate_1; done).
  split; simpl.
  - split; [intros i j a b Ha%Hfree Hb%Hfree Hu|intros i sub Hi%Hfree Hu..]; by subst.
  - split; [intros i j u v Hi%Hq|intros j c (i & u & Hi%Hq & Hv & _)]; congruence.
  - intros j Hj. assert (disk (mk_state w (replicate n free_subnet)
      (replicate k (mk_update 0 false false)) []) j = None) as ->.
    { unfold disk, bt_mesh_subnet_get. simpl.
      pose proof (find_sub_spec (fun sub => net_idx sub =? j) (replicate n free_subnet) 0) as Hf.
      destruct (find_sub _ _ _); [|done]. destruct Hf as (i & sub & _ & ->%Hfree & Hx & _).
      apply Z.eqb_eq in Hx. by apply key_idx_used in Hj. }
    split; simpl; [|done]. intros c (i & u & Hi%Hq & Hv & _). congruence.
Qed.

(** * Concrete runs, over the sample PSA implementation *)

From S2P Require Import Psa CryptoPsa.

#[local] Instance table_crypto : MeshCrypto (crypto_state psa_store) := psa_crypto true 100 4.
#[local] Instance table_promises : MeshCryptoLaws (crypto_state psa_store) :=
  psa_crypto_laws true true 100 4 eq_refl ltac:(discriminate).
#[local] Instance table_imports : @MeshImportLaws _ table_crypto table_promises :=
  psa_import_laws true 100 4 eq_refl _.

(** The store of a node that starts again: key 100 has survived. *)
Definition kept_world : crypto_state psa_store :=
  mk_crypto_state {[100 := (attributes_of BT_MESH_KEY_TYPE_NET (PSA_KEY_LIFETIME_PERSISTENT) 100, key16 7)]}
    {[0]} no_dh.

Lemma boot_ready : mc_ready crypto_boot.
Proof. split; [exact I|]. intros _ _ j Hj. unfold store. simpl. unfold Sample.visible. rewrite delete_empty, lookup_empty. by intros []. Qed.

Lemma kept_ready : mc_ready kept_world.
Proof.
  split; [exact I|]. intros _ _ j Hj [x Hx]. unfold store in Hx. simpl in Hx.
  apply Sample.visible_some in Hx as [_ Hx].
  apply lookup_singleton_Some in Hx as [Hx _]. assert (j = 0) as -> by lia.
  simpl. set_solver.
Qed.

Definition boot_node (w : crypto_state psa_store) : subnet_state (crypto_state psa_store) :=
  mk_state w (replicate 2 free_subnet) (replicate 1 (mk_update 0 false false)) [].

(** Two subnets, a key refresh that ends, a third that does not fit. *)
Definition sample_ops : list subnet_op :=
  [OpAdd 5 (key16 1); OpAdd 6 (key16 2); OpAdd 7 (key16 3); OpUpdate 5 (key16 4); OpPhase 5 2;
   OpStore; OpBeacon 5 false true; OpDel 6].

Lemma sample_ops_ok : Forall table_op_ok sample_ops.
Proof. repeat constructor; simpl; lia. Qed.

(** The key that has survived belongs to another component. *)
Definition kept_keys : gmap Z (bt_mesh_key_type * list Z) := mc_keys kept_world.

Lemma subnet_table_refines_witness :
  exists rs s' m', run_subnet true true false sample_ops (boot_node kept_world) = (Ok rs, s') /\
    run_table true true false 2 (boot_node kept_world) sample_ops ∅ rs s' m' /\
    table true true kept_keys 2 s' m'.
Proof.
  apply (subnet_table_refines true true false); [discriminate|apply _| |exact sample_ops_ok].
  apply table_boot; [apply kept_ready|reflexivity].
Defined.

Lemma subnet_storage_follows_witness :
  exists rs s' s2, run_subnet true true false sample_ops (boot_node crypto_boot) = (Ok rs, s') /\
    bt_mesh_subnet_pending_store s' = (Ok (), s2) /\ subnets s2 = subnets s' /\
    forall k, is_key_idx k -> effective <$> storage ∅ (ext s2) !! k = disk s2 k.
Proof.
  destruct (run_answers true true false ltac:(discriminate) ∅ 2 (boot_node crypto_boot) ∅ sample_ops)
    as (rs & s' & m' & E & _); [apply table_boot; [apply boot_ready|apply map_empty_subseteq]|exact sample_ops_ok|].
  destruct (subnet_storage_follows true true false ∅ sample_ops (boot_node crypto_boot) rs s')
    as (s2 & E2 & Hs & Hx); [apply coherent_boot|repeat constructor; simpl; lia|exact E|].
  exists rs, s', s2. exact (conj E (conj E2 (conj Hs Hx))).
Defined.

Lemma kept_loadable : loadable true true ∅ (boot_node kept_world) 100 (key16 7).
Proof.
  split; [vm_compute; reflexivity|]. split; [reflexivity|].
  intros [(i & sub & Hi & Hid)|[v Hv]]; [|by rewrite lookup_empty in Hv].
  apply lookup_replicate_1 in Hi as [-> _]. by apply elem_of_nil in Hid.
Qed.

Lemma kept_load_ok : load_ok true true ∅ (boot_node kept_world) 0 100 None (0, key16 7, None).
Proof. split; [done|]. split; [lia|]. split; [exact kept_loadable|done]. Qed.

(** The key store after the deletion of that subnet: the beacon key is left. *)
Lemma subnet_del_key_store_witness :
  exists s sub s', bt_mesh_subnet_del true true false 5 s = (Ok STATUS_SUCCESS, s') /\
    table true true ∅ 2 s' (delete 5 (<[5 := (0, key16 7, None)]> ∅)) /\
    mc_keys (crypto s') !! priv_beacon (keys0 sub) = Some (BT_MESH_KEY_TYPE_ECB, derived (key16 7) "nkpk").
Proof.
  destruct (load_spec true true false ltac:(discriminate) ∅ 2 (boot_node kept_world) ∅ 5 0 100 None
    (0, key16 7, None)) as (a & s & _ & [_ Ht] & _);
    [apply table_boot; [apply kept_ready|apply map_empty_subseteq]|unfold is_key_idx; lia|reflexivity|discriminate|exact kept_load_ok|].
  destruct (subnet_del_key_store true true false ltac:(discriminate) ∅ 2 s _ 5 0 (key16 7) None Ht)
    as (i & sub & s' & _ & _ & E & Ht' & _ & _ & Hleak); [unfold is_key_idx; lia|apply lookup_insert_eq|].
  exists s, sub, s'. exact (conj E (conj Ht' (Hleak eq_refl eq_refl))).
Defined.

(** A restart of that node: nothing is reserved, the derived keys are gone. *)
#[local] Instance boot_promises : @MeshCryptoLaws (crypto_state psa_store) table_crypto :=
  psa_crypto_laws false true 100 4 eq_refl ltac:(discriminate).

Definition restart_world : crypto_state psa_store := set_pst_keys ∅ kept_world.

Lemma restart_ready w : @mc_ready _ table_crypto boot_promises w.
Proof. by split; [exact I|]. Qed.

Definition stored_val : net_key_val := mk_net_key_val 0 100 0.

Definition running_node : subnet_state (crypto_state psa_store) :=
  (net_key_set true true (Some 5) (inl stored_val) (boot_node restart_world)).2.

Lemma running_table :
  @table _ _ boot_promises true true ∅ 2 running_node (<[5 := (0, key16 7, None)]> ∅).
Proof.
  destruct (@load_one _ _ boot_promises true true ∅ 2 (boot_node restart_world) ∅ 5 stored_val (0, key16 7, None))
    as (a & s' & E & _ & Ht & _).
  - apply table_boot; [apply restart_ready|apply map_empty_subseteq].
  - unfold is_key_idx. lia.
  - reflexivity.
  - discriminate.
  - split; [done|]. split; [simpl; lia|]. split; [|done].
    split; [vm_compute; reflexivity|]. split; [reflexivity|].
    intros [(i & sub & Hi & Hid)|[v Hv]]; [|by rewrite lookup_empty in Hv].
    apply lookup_replicate_1 in Hi as [-> _]. by apply elem_of_nil in Hid.
  - unfold running_node. by rewrite E.
Qed.

(** The only NetKey in its key store is the one that was kept. *)
Lemma running_kept id raw :
  @mc_keys _ _ boot_promises (crypto running_node) !! id = Some (BT_MESH_KEY_TYPE_NET, raw) ->
  @mc_keys _ _ boot_promises restart_world !! id = Some (BT_MESH_KEY_TYPE_NET, raw).
Proof.
  assert (Forall (fun p : Z * (bt_mesh_key_type * list Z) =>
      p.2.1 = BT_MESH_KEY_TYPE_NET -> @mc_keys _ _ boot_promises restart_world !! p.1 = Some p.2)
    (map_to_list (@mc_keys _ _ boot_promises (crypto running_node)))) as Hall
    by (vm_compute; repeat constructor; discriminate).
  rewrite list.Forall_forall in Hall. intros Hk.
  apply (Hall (id, (BT_MESH_KEY_TYPE_NET, raw))); [|done]. by apply elem_of_map_to_list.
Qed.

Lemma subnet_restart_witness :
  exists s', load_all true true [(5, stored_val)]
      (mk_state restart_world (replicate 2 free_subnet) [] []) = (Ok (), s') /\
    @table _ _ boot_promises true true ∅ 2 s' (<[5 := (0, key16 7, None)]> ∅).
Proof.
  apply (@subnet_restart _ _ boot_promises true true ∅ 2 running_node _ {[5 := stored_val]}).
  - exact running_table.
  - intros k [v Hv]. apply lookup_singleton_Some in Hv as [<- _]. unfold is_key_idx. lia.
  - intros k Hk. destruct (decide (k = 5)) as [->|Hne]; [vm_compute; reflexivity|].
    rewrite lookup_singleton_ne by done. simpl. symmetry.
    destruct (disk running_node k) as [v|] eqn:E; [|done]. exfalso.
    apply disk_Some in E as (i & sub & Hi & Hs & _);
      [|apply so_unique, (rp_slots _ _ _ _ _ (proj1 running_table))|by apply key_idx_used].
    destruct (rp_entry _ _ _ _ _ (proj1 running_table) i sub Hi) as (e & He & _);
      [apply key_idx_is_used; by rewrite Hs|].
    rewrite Hs, lookup_insert_ne, lookup_empty in He by done. done.
  - apply restart_ready.
  - apply map_empty_subseteq.
  - exact running_kept.
  - by rewrite map_to_list_singleton.
Defined.
