(* ===== verification/NetIv.v ===== *)
(** The IV Index and the sequence number of a node: the IV Update procedure of
    [mesh/net.c], with the part of [mesh/settings.c] that stores them.

    The state is the part of [bt_mesh] that the procedure works on, the pending
    flags of the storage job and what the storage holds.  Calls into other
    modules are recorded in [calls].  What the code asks other modules -
    whether a segmented transfer is under way, whether the primary subnet is
    there, the proxy states - is an argument. *)

From stdpp Require Import functions.
From S2P Require Import Prelude Byteorder MeshDefs CryptoIf Crypto.

(** * Data *)

Definition BT_MESH_IVU_MIN_HOURS : Z := 96.

Definition BT_MESH_IV_UPDATE (flags : Z) : bool := negb (Z.land (Z.shiftr flags 1) 0x01 =? 0).
Definition BT_MESH_KEY_REFRESH (flags : Z) : bool := negb (Z.land flags 0x01 =? 0).

(** [enum bt_mesh_settings_flag], the ones of the network layer. *)
Inductive bt_mesh_settings_flag :=
| BT_MESH_SETTINGS_NET_PENDING
| BT_MESH_SETTINGS_IV_PENDING
| BT_MESH_SETTINGS_SEQ_PENDING
| BT_MESH_SETTINGS_CFG_PENDING.

#[export] Instance settings_flag_eq_dec : EqDecision bt_mesh_settings_flag.
Proof. solve_decision. Defined.

(** [struct iv_val]: 32 bits, 1 bit and 7 bits. *)
Record iv_val := mk_iv_val { v_iv_index : Z; v_iv_update : bool; v_iv_duration : Z }.

(** The calls into other modules. *)
Inductive net_call :=
| RplClear            (** [bt_mesh_rpl_clear] *)
| RplReset            (** [bt_mesh_rpl_reset] *)
| TimerReschedule     (** [ivu_timer], in [BT_MESH_IVU_TIMEOUT] *)
| FriendSecUpdate     (** [bt_mesh_friend_sec_update(BT_MESH_KEY_ANY)] *)
| BeaconUpdateAll     (** [bt_mesh_subnet_foreach(bt_mesh_beacon_update)] *)
| BeaconCacheClearAll (** [bt_mesh_subnet_foreach(bt_mesh_beacon_cache_clear)] *)
| ProxyBeaconSend     (** [bt_mesh_proxy_beacon_send(NULL)] *)
| CdbIvUpdate (iv_index : Z) (iv_update : bool)
| IvuInitiator        (** [bt_mesh_beacon_ivu_initiator(true)] *)
| SubnetStore (idx : Z)
| ModelSettingsCommit (** [bt_mesh_model_settings_commit] *)
| MeshStart.          (** [bt_mesh_start] *)

(** The part of [struct bt_mesh_net] the procedure works on, [ivi_was_recovered],
    the pending flags of the storage job, and the stored records. *)
Record net_iv := mk_iv {
  iv_index : Z;       (** 32 bits *)
  seq : Z;            (** 32 bits *)
  ivu_duration : Z;   (** 8 bits *)
  in_progress : bool; (** [BT_MESH_IVU_IN_PROGRESS] *)
  ivu_pending : bool; (** [BT_MESH_IVU_PENDING] *)
  ivu_test : bool;    (** [BT_MESH_IVU_TEST] *)
  provisioned : bool; (** [BT_MESH_VALID] *)
  ivi_was_recovered : bool;
  pending_flags : bt_mesh_settings_flag -> bool;
  disk_iv : option iv_val;
  disk_seq : option (list Z);
  calls : list net_call
}.

(** Field updates. *)
Definition set_iv_index (x : Z) (s : net_iv) : net_iv :=
  mk_iv x (seq s) (ivu_duration s) (in_progress s) (ivu_pending s) (ivu_test s) (provisioned s)
    (ivi_was_recovered s) (pending_flags s) (disk_iv s) (disk_seq s) (calls s).
Definition set_seq (x : Z) (s : net_iv) : net_iv :=
  mk_iv (iv_index s) x (ivu_duration s) (in_progress s) (ivu_pending s) (ivu_test s) (provisioned s)
    (ivi_was_recovered s) (pending_flags s) (disk_iv s) (disk_seq s) (calls s).
Definition set_duration (x : Z) (s : net_iv) : net_iv :=
  mk_iv (iv_index s) (seq s) x (in_progress s) (ivu_pending s) (ivu_test s) (provisioned s)
    (ivi_was_recovered s) (pending_flags s) (disk_iv s) (disk_seq s) (calls s).
Definition set_in_progress (x : bool) (s : net_iv) : net_iv :=
  mk_iv (iv_index s) (seq s) (ivu_duration s) x (ivu_pending s) (ivu_test s) (provisioned s)
    (ivi_was_recovered s) (pending_flags s) (disk_iv s) (disk_seq s) (calls s).
Definition set_ivu_pending (x : bool) (s : net_iv) : net_iv :=
  mk_iv (iv_index s) (seq s) (ivu_duration s) (in_progress s) x (ivu_test s) (provisioned s)
    (ivi_was_recovered s) (pending_flags s) (disk_iv s) (disk_seq s) (calls s).
Definition set_test (x : bool) (s : net_iv) : net_iv :=
  mk_iv (iv_index s) (seq s) (ivu_duration s) (in_progress s) (ivu_pending s) x (provisioned s)
    (ivi_was_recovered s) (pending_flags s) (disk_iv s) (disk_seq s) (calls s).
Definition set_provisioned (x : bool) (s : net_iv) : net_iv :=
  mk_iv (iv_index s) (seq s) (ivu_duration s) (in_progress s) (ivu_pending s) (ivu_test s)
    x (ivi_was_recovered s) (pending_flags s) (disk_iv s) (disk_seq s) (calls s).
Definition set_recovered (x : bool) (s : net_iv) : net_iv :=
  mk_iv (iv_index s) (seq s) (ivu_duration s) (in_progress s) (ivu_pending s) (ivu_test s)
    (provisioned s) x (pending_flags s) (disk_iv s) (disk_seq s) (calls s).
Definition set_flag (f : bt_mesh_settings_flag) (x : bool) (s : net_iv) : net_iv :=
  mk_iv (iv_index s) (seq s) (ivu_duration s) (in_progress s) (ivu_pending s) (ivu_test s)
    (provisioned s) (ivi_was_recovered s) (<[f := x]> (pending_flags s)) (disk_iv s) (disk_seq s) (calls s).
Definition set_disk_iv (x : option iv_val) (s : net_iv) : net_iv :=
  mk_iv (iv_index s) (seq s) (ivu_duration s) (in_progress s) (ivu_pending s) (ivu_test s)
    (provisioned s) (ivi_was_recovered s) (pending_flags s) x (disk_seq s) (calls s).
Definition set_disk_seq (x : option (list Z)) (s : net_iv) : net_iv :=
  mk_iv (iv_index s) (seq s) (ivu_duration s) (in_progress s) (ivu_pending s) (ivu_test s)
    (provisioned s) (ivi_was_recovered s) (pending_flags s) (disk_iv s) x (calls s).
Definition call (c : net_call) (s : net_iv) : net_iv :=
  mk_iv (iv_index s) (seq s) (ivu_duration s) (in_progress s) (ivu_pending s) (ivu_test s)
    (provisioned s) (ivi_was_recovered s) (pending_flags s) (disk_iv s) (disk_seq s) (calls s ++ [c]).

(** * Steps *)

Section Operations.

(** [IS_ENABLED] of the options; [SEQ_LIMIT], [RATE] and [DIVIDER] are
    [CONFIG_BT_MESH_IV_UPDATE_SEQ_LIMIT], [CONFIG_BT_MESH_SEQ_STORE_RATE] and
    [CONFIG_BT_MESH_IVU_DIVIDER]. *)
Context (SETTINGS UPDATE_TEST FRIEND GATT_PROXY CDB : bool).
Context (SEQ_LIMIT RATE DIVIDER : Z).

(** What the other modules answer: [bt_mesh_tx_in_progress], whether the primary
    subnet exists, whether a proxy state is enabled. *)
Record net_env := mk_env { tx_in_progress : bool; has_primary : bool; proxy_enabled : bool }.
Context (e : net_env).

Definition BT_MESH_IVU_HOURS : Z := BT_MESH_IVU_MIN_HOURS / DIVIDER.

Definition BT_MESH_NET_IVI_TX (s : net_iv) : Z := u32 (iv_index s - Z.b2z (in_progress s)).
Definition BT_MESH_NET_IVI_RX (s : net_iv) (old_iv : bool) : Z := u32 (iv_index s - Z.b2z old_iv).

Definition bt_mesh_settings_store_schedule (flag : bt_mesh_settings_flag) : net_iv -> net_iv :=
  set_flag flag true.

Definition store_iv (only_duration : bool) (s : net_iv) : net_iv :=
  let s := bt_mesh_settings_store_schedule BT_MESH_SETTINGS_IV_PENDING s in
  if negb only_duration then bt_mesh_settings_store_schedule BT_MESH_SETTINGS_SEQ_PENDING s else s.

Definition bt_mesh_net_seq_store (force : bool) (s : net_iv) : net_iv :=
  if negb force && (1 <? RATE) && negb (seq s mod RATE =? 0) then s
  else bt_mesh_settings_store_schedule BT_MESH_SETTINGS_SEQ_PENDING s.

(** From [do_update] on. *)
Definition do_update (index : Z) (iv_update : bool) (s : net_iv) : net_iv :=
  let s := set_in_progress iv_update s in
  let s := set_duration 0 s in
  let s := call TimerReschedule s in
  let s := if FRIEND then call FriendSecUpdate s else s in
  let s := call BeaconUpdateAll s in
  let s := if GATT_PROXY && proxy_enabled e then call ProxyBeaconSend s else s in
  let s := if CDB then call (CdbIvUpdate index iv_update) s else s in
  if SETTINGS then store_iv false s else s.

Definition bt_mesh_net_iv_update (index : Z) (iv_update : bool) (s : net_iv) : bool * net_iv :=
  if (index <? iv_index s) || (u32 (iv_index s + 42) <? index) then (false, s)
  else if (index =? iv_index s) && iv_update then (false, s)
  else if (u32 (iv_index s + 1) <? index) ||
          ((index =? u32 (iv_index s + 1)) && (in_progress s || negb iv_update)) then
    if ivi_was_recovered s && (ivu_duration s <? 2 * BT_MESH_IVU_MIN_HOURS) then (false, s)
    else
      let s := set_recovered true s in
      let s := call RplClear s in
      let s := set_iv_index index s in
      let s := set_seq 0 s in
      (true, do_update index iv_update s)
  else if Bool.eqb (in_progress s) iv_update then (false, s)
  else if negb (UPDATE_TEST && ivu_test s) && (ivu_duration s <? BT_MESH_IVU_MIN_HOURS) then (false, s)
  else if negb iv_update && tx_in_progress e then (false, set_ivu_pending true s)
  else
    let s := if iv_update then
               let s := set_iv_index index s in
               let s := call RplReset s in
               set_recovered false s
             else set_seq 0 s in
    (true, do_update index iv_update s).

Definition bt_mesh_next_seq (s : net_iv) : Z * net_iv :=
  let q := seq s in
  let s := set_seq (u32 (seq s + 1)) s in
  let s := if SETTINGS then bt_mesh_net_seq_store false s else s in
  let s := if negb (in_progress s) && (SEQ_LIMIT <? seq s) && has_primary e then
             let s := call IvuInitiator s in
             (bt_mesh_net_iv_update (u32 (iv_index s + 1)) true s).2
           else s in
  (q, s).

(** The test interface. *)
Definition bt_mesh_iv_update_test (enable : bool) (s : net_iv) : net_iv :=
  set_duration 0 (set_test enable s).

Definition bt_mesh_iv_update (s : net_iv) : bool * net_iv :=
  if negb (provisioned s) then (false, s)
  else
    let s := if in_progress s then (bt_mesh_net_iv_update (iv_index s) false s).2
             else (bt_mesh_net_iv_update (u32 (iv_index s + 1)) true s).2 in
    (in_progress s, s).

(** The timer. *)
Definition ivu_refresh (s : net_iv) : net_iv :=
  if negb (provisioned s) then s
  else
    let s := set_duration (Z.min UINT8_MAX (ivu_duration s + BT_MESH_IVU_HOURS)) s in
    let s :=
      if ivu_duration s <? BT_MESH_IVU_MIN_HOURS then
        if SETTINGS then store_iv true s else s
      else
        let s := if ivu_duration s mod BT_MESH_IVU_MIN_HOURS =? 0 then call BeaconCacheClearAll s else s in
        if in_progress s then
          let s := call IvuInitiator s in
          (bt_mesh_net_iv_update (iv_index s) false s).2
        else if SETTINGS then store_iv true s else s in
    call TimerReschedule s.

(** [transport.c], at the end of a segmented transfer: the deferred update. *)
Definition proceed_pending (s : net_iv) : net_iv :=
  if ivu_pending s then (bt_mesh_net_iv_update (iv_index s) false (set_ivu_pending false s)).2 else s.

(** ** Storage *)

Definition clear_iv : net_iv -> net_iv := set_disk_iv None.

Definition store_pending_iv (s : net_iv) : net_iv :=
  set_disk_iv (Some (mk_iv_val (iv_index s) (in_progress s) (ivu_duration s mod 128))) s.

Definition bt_mesh_net_pending_iv_store (s : net_iv) : net_iv :=
  if provisioned s then store_pending_iv s else clear_iv s.

Definition bt_mesh_net_pending_seq_store (s : net_iv) : net_iv :=
  if provisioned s then set_disk_seq (Some (sys_put_le24 (seq s))) s else set_disk_seq None s.

(** One entry of the handler table. *)
Definition handle_flag (f : bt_mesh_settings_flag) (handler : net_iv -> net_iv) (s : net_iv) : net_iv :=
  if pending_flags s f then handler (set_flag f false s) else s.

(** The storage job, for the IV Index and the sequence number. *)
Definition store_pending (s : net_iv) : net_iv :=
  handle_flag BT_MESH_SETTINGS_SEQ_PENDING bt_mesh_net_pending_seq_store
    (handle_flag BT_MESH_SETTINGS_IV_PENDING bt_mesh_net_pending_iv_store s).

(** The settings handlers; [None] is a deleted record. *)
Definition iv_set (v : option iv_val) (s : net_iv) : net_iv :=
  match v with
  | None => set_in_progress false (set_iv_index 0 s)
  | Some v => set_duration (v_iv_duration v) (set_in_progress (v_iv_update v) (set_iv_index (v_iv_index v) s))
  end.

Definition seq_set (v : option (list Z)) (s : net_iv) : net_iv :=
  match v with
  | None => set_seq 0 s
  | Some val =>
      let q := sys_get_le24 val in
      if 0 <? RATE then set_seq (u32 (u32 (q + (RATE - q mod RATE)) - 1)) s else set_seq q s
  end.

(** Which timer [bt_mesh_net_settings_commit] starts. *)
Definition bt_mesh_net_settings_commit (s : net_iv) : net_iv :=
  if ivu_duration s <? BT_MESH_IVU_MIN_HOURS then call TimerReschedule s else s.

(** What [bt_mesh_net_create] does after the subnet is made. *)
Definition net_create_iv (idx flags index : Z) (s : net_iv) : net_iv :=
  let s := set_iv_index index s in
  let s := set_in_progress (BT_MESH_IV_UPDATE flags) s in
  let s := set_duration (if BT_MESH_IV_UPDATE flags then BT_MESH_IVU_MIN_HOURS else 0) s in
  if SETTINGS then store_iv false (call (SubnetStore idx) s) else s.

(** The end of a load of the settings: what has to be there is that the mesh is
    initialised, Bluetooth enabled and a subnet known. *)
Definition mesh_commit (init enable has_subnet : bool) (s : net_iv) : net_iv :=
  if negb init then s
  else if negb enable then s
  else if negb has_subnet then s
  else
    let s := bt_mesh_net_settings_commit s in
    let s := call ModelSettingsCommit s in
    let s := set_provisioned true s in
    call MeshStart s.

(** A restart of a provisioned node: memory is cleared, the records are loaded, the
    settings are committed. *)
Definition restart (s : net_iv) : net_iv :=
  let boot := mk_iv 0 0 0 false false false false false (fun _ => false) (disk_iv s) (disk_seq s) [] in
  mesh_commit true true true (seq_set (disk_seq s) (iv_set (disk_iv s) boot)).

(** What [net_header_encode] and [net_encrypt] take for one PDU: the IV Index
    and the 24 bits of the sequence number that go into it. *)
Definition net_tx_nonce (s : net_iv) : (Z * Z) * net_iv :=
  let '(q, s) := bt_mesh_next_seq s in ((BT_MESH_NET_IVI_TX s, q mod 2 ^ 24), s).

End Operations.

(** * The IV Update procedure *)

Section Procedure.

Context (SETTINGS UPDATE_TEST FRIEND GATT_PROXY CDB : bool).
Notation iv_update := (bt_mesh_net_iv_update SETTINGS UPDATE_TEST FRIEND GATT_PROXY CDB).

(** What becomes of a received IV Index and update flag. *)
Inductive iv_verdict := Ignored | Deferred | Started | Finished | Recovered.

(** The transitions that end the current state must leave it for 96 hours. *)
Definition early (s : net_iv) : bool :=
  negb (UPDATE_TEST && ivu_test s) && (ivu_duration s <? BT_MESH_IVU_MIN_HOURS).

(** The procedure as the specification has it, on numbers. *)
Definition judge (e : net_env) (index : Z) (iv_update : bool) (s : net_iv) : iv_verdict :=
  let c := iv_index s in
  if (index <? c) || (c + 42 <? index) || (2 ^ 32 <=? c + 42) then Ignored
  else if index =? c then
    if iv_update || negb (in_progress s) || early s then Ignored
    else if tx_in_progress e then Deferred else Finished
  else if (index =? c + 1) && iv_update && negb (in_progress s) then
    if early s then Ignored else Started
  else if ivi_was_recovered s && (ivu_duration s <? 2 * BT_MESH_IVU_MIN_HOURS) then Ignored
  else Recovered.

Definition accepted (v : iv_verdict) : bool :=
  match v with Started | Finished | Recovered => true | _ => false end.

(** The IV Index of transmissions. *)
Definition tx_iv (s : net_iv) : Z := iv_index s - Z.b2z (in_progress s).

(** The state a verdict leads to. *)
Record judged (v : iv_verdict) (index : Z) (iv_update : bool) (s s' : net_iv) : Prop := {
  jd_ignored : v = Ignored -> s' = s;
  jd_deferred : v = Deferred -> s' = set_ivu_pending true s;
  jd_accepted : accepted v = true ->
    iv_index s' = index /\ in_progress s' = iv_update /\ ivu_duration s' = 0 /\
    ivu_pending s' = ivu_pending s /\ ivu_test s' = ivu_test s /\ provisioned s' = provisioned s /\
    disk_iv s' = disk_iv s /\ disk_seq s' = disk_seq s /\
    (SETTINGS = true -> pending_flags s' BT_MESH_SETTINGS_IV_PENDING = true /\
       pending_flags s' BT_MESH_SETTINGS_SEQ_PENDING = true);
  jd_started : v = Started -> seq s' = seq s /\ tx_iv s' = tx_iv s /\ ivi_was_recovered s' = false;
  jd_finished : v = Finished -> seq s' = 0 /\ tx_iv s' = tx_iv s + 1 /\
    ivi_was_recovered s' = ivi_was_recovered s;
  jd_recovered : v = Recovered -> seq s' = 0 /\ tx_iv s < tx_iv s' /\ ivi_was_recovered s' = true
}.

Lemma do_update_fields e index f s :
  let s' := do_update SETTINGS FRIEND GATT_PROXY CDB e index f s in
  iv_index s' = iv_index s /\ seq s' = seq s /\ in_progress s' = f /\ ivu_duration s' = 0 /\
  ivu_pending s' = ivu_pending s /\ ivu_test s' = ivu_test s /\ provisioned s' = provisioned s /\
  ivi_was_recovered s' = ivi_was_recovered s /\
  disk_iv s' = disk_iv s /\ disk_seq s' = disk_seq s /\
  (SETTINGS = true -> pending_flags s' BT_MESH_SETTINGS_IV_PENDING = true /\
     pending_flags s' BT_MESH_SETTINGS_SEQ_PENDING = true).
Proof.
  unfold do_update. destruct SETTINGS, FRIEND, CDB, (GATT_PROXY && proxy_enabled e); simpl;
    split_and!; done.
Qed.

(** The code decides as the specification. *)
Lemma iv_update_judged e index f s :
  0 <= iv_index s < 2 ^ 32 -> 0 <= index < 2 ^ 32 ->
  let r := iv_update e index f s in
  r.1 = accepted (judge e index f s) /\ judged (judge e index f s) index f s r.2.
Proof.
  intros Hc Hi. unfold bt_mesh_net_iv_update, judge. fold (early s).
  assert (u32 (iv_index s + 42) = if 2 ^ 32 <=? iv_index s + 42 then iv_index s + 42 - 2 ^ 32 else iv_index s + 42) as ->.
  { unfold u32. destruct (Z.leb_spec (2 ^ 32) (iv_index s + 42)); [|apply Z.mod_small; lia].
    symmetry. apply (Z.mod_unique _ _ 1); lia. }
  assert (judged Ignored index f s s) as Hign by (split; done).
  destruct (Z.ltb_spec index (iv_index s)) as [H1|H1]; [by split|]. cbn [orb].
  destruct (Z.leb_spec (2 ^ 32) (iv_index s + 42)) as [H2|H2].
  { rewrite orb_true_r. destruct (Z.ltb_spec (iv_index s + 42 - 2 ^ 32) index); [by split|lia]. }
  rewrite orb_false_r. destruct (Z.ltb_spec (iv_index s + 42) index) as [H3|H3]; [by split|].
  rewrite (u32_id (iv_index s + 1)) by lia.
  assert (forall s0 v, accepted v = true -> iv_index s0 = index ->
    ivu_pending s0 = ivu_pending s -> ivu_test s0 = ivu_test s -> provisioned s0 = provisioned s ->
    disk_iv s0 = disk_iv s -> disk_seq s0 = disk_seq s ->
    (v = Started -> seq s0 = seq s /\ index - Z.b2z f = tx_iv s /\ ivi_was_recovered s0 = false) ->
    (v = Finished -> seq s0 = 0 /\ index - Z.b2z f = tx_iv s + 1 /\ ivi_was_recovered s0 = ivi_was_recovered s) ->
    (v = Recovered -> seq s0 = 0 /\ tx_iv s < index - Z.b2z f /\ ivi_was_recovered s0 = true) ->
    judged v index f s (do_update SETTINGS FRIEND GATT_PROXY CDB e index f s0)) as Hdo.
  { intros s0 v Hv E1 E2 E3 E4 E5 E6 Hst Hfi Hre.
    destruct (do_update_fields e index f s0) as (F1 & F2 & F3 & F4 & F5 & F6 & F7 & F8 & F9 & F10 & F11).
    split; unfold tx_iv; rewrite ?F1, ?F2, ?F3, ?F4, ?F5, ?F6, ?F7, ?F8, ?F9, ?F10, ?E1, ?E2, ?E3, ?E4, ?E5, ?E6;
      [by intros ->|by intros ->|intros _; by split_and!|exact Hst|exact Hfi|exact Hre]. }
  destruct (Z.eqb_spec index (iv_index s)) as [H4|H4]; cbn [andb].
  - destruct f; cbn [orb]; [by split|].
    destruct (Z.ltb_spec (iv_index s + 1) index) as [?|_]; [lia|].
    destruct (Z.eqb_spec index (iv_index s + 1)) as [?|_]; [lia|]. cbn [orb andb].
    destruct (in_progress s) eqn:Hip; cbn [Bool.eqb negb orb]; [|by split].
    destruct (early s) eqn:He; [by split|]. cbn [orb].
    destruct (tx_in_progress e); cbn [andb]; [by split|].
    split; [done|]. apply Hdo; simpl; try done. intros _. unfold tx_iv. rewrite Hip. simpl. split_and!; [done|lia|done].
  - destruct (Z.ltb_spec (iv_index s + 1) index) as [H5|H5]; cbn [orb].
    + destruct (Z.eqb_spec index (iv_index s + 1)) as [?|_]; [lia|]. cbn [andb].
      destruct (_ && _); [by split|]. split; [done|]. apply Hdo; simpl; try done.
      intros _. unfold tx_iv. split_and!; [done| |done]. destruct f, (in_progress s); simpl; lia.
    + destruct (Z.eqb_spec index (iv_index s + 1)) as [H6|?]; [|lia]. cbn [andb].
      destruct (in_progress s) eqn:Hip, f; cbn [orb negb andb Bool.eqb]; try (
        destruct (_ && _); [by split|]; split; [done|]; apply Hdo; simpl; try done;
        intros _; unfold tx_iv; rewrite Hip; simpl; split_and!; [done|lia|done]).
      destruct (early s) eqn:He; [by split|].
      split; [done|]. apply Hdo; simpl; try done. intros _. unfold tx_iv. rewrite Hip. simpl. split_and!; [done|lia|done].
Qed.

End Procedure.

(** * Runs *)

Section Runs.

Context (SETTINGS UPDATE_TEST FRIEND GATT_PROXY CDB : bool).
Context (SEQ_LIMIT RATE DIVIDER : Z) (Hrate : 0 <= RATE <= 1000000) (Hdiv : 2 <= DIVIDER <= 96).
Notation iv_update := (bt_mesh_net_iv_update SETTINGS UPDATE_TEST FRIEND GATT_PROXY CDB).
Notation next_seq := (bt_mesh_next_seq SETTINGS UPDATE_TEST FRIEND GATT_PROXY CDB SEQ_LIMIT RATE).

(** What happens to a provisioned node, each with what the other modules answer
    at the time. *)
Inductive net_event :=
| EvSend (e : net_env)                               (** a network PDU is made *)
| EvBeacon (e : net_env) (index : Z) (update : bool) (** an authentic beacon or friend update *)
| EvTimer (e : net_env)                              (** [ivu_refresh] *)
| EvTransferDone (e : net_env)                       (** a segmented transfer ends *)
| EvTest (enable : bool)
| EvForce (e : net_env)                              (** [bt_mesh_iv_update] *)
| EvStore                                            (** the storage job *)
| EvRestart.

Definition do_event (ev : net_event) (s : net_iv) : list (Z * Z) * net_iv :=
  match ev with
  | EvSend e =>
      let '(n, s) := net_tx_nonce SETTINGS UPDATE_TEST FRIEND GATT_PROXY CDB SEQ_LIMIT RATE e s in ([n], s)
  | EvBeacon e index update => ([], (iv_update e index update s).2)
  | EvTimer e => ([], ivu_refresh SETTINGS UPDATE_TEST FRIEND GATT_PROXY CDB DIVIDER e s)
  | EvTransferDone e => ([], proceed_pending SETTINGS UPDATE_TEST FRIEND GATT_PROXY CDB e s)
  | EvTest enable => ([], bt_mesh_iv_update_test enable s)
  | EvForce e => ([], (bt_mesh_iv_update SETTINGS UPDATE_TEST FRIEND GATT_PROXY CDB e s).2)
  | EvStore => ([], store_pending s)
  | EvRestart => ([], restart RATE s)
  end.

(** A restart when the storage job has nothing left to do for the two records. *)
Definition event_ok (ev : net_event) (s : net_iv) : Prop :=
  match ev with
  | EvBeacon _ index _ => 0 <= index < 2 ^ 32
  | EvRestart => SETTINGS = true /\ pending_flags s BT_MESH_SETTINGS_IV_PENDING = false /\
      pending_flags s BT_MESH_SETTINGS_SEQ_PENDING = false
  | _ => True
  end.

(** The PDUs of a run, and its last state. *)
Fixpoint run_net (evs : list net_event) (s : net_iv) : list (Z * Z) * net_iv :=
  match evs with
  | [] => ([], s)
  | ev :: evs =>
      let '(n, s) := do_event ev s in
      let '(ns, s) := run_net evs s in (n ++ ns, s)
  end.

(** Every event is possible, and the sequence number has 24 bits throughout. *)
Fixpoint run_ok (evs : list net_event) (s : net_iv) : Prop :=
  seq s < 2 ^ 24 /\
  match evs with
  | [] => True
  | ev :: evs => event_ok ev s /\ run_ok evs (do_event ev s).2
  end.

(** The sequence number a restart resumes with. *)
Definition resume (q : Z) : Z := if 0 <? RATE then q + (RATE - q mod RATE) - 1 else q.

Record net_inv (s : net_iv) : Prop := {
  ni_index : 0 <= iv_index s < 2 ^ 32;
  ni_seq : 0 <= seq s < 2 ^ 32;
  ni_progress : in_progress s = true -> 1 <= iv_index s;
  ni_duration : 0 <= ivu_duration s < 256;
  ni_provisioned : provisioned s = true;
  ni_disk_iv : SETTINGS = true -> pending_flags s BT_MESH_SETTINGS_IV_PENDING = false ->
    exists d, disk_iv s = Some (mk_iv_val (iv_index s) (in_progress s) d) /\ 0 <= d < 128;
  ni_disk_seq : SETTINGS = true -> pending_flags s BT_MESH_SETTINGS_SEQ_PENDING = false ->
    exists q, disk_seq s = Some (sys_put_le24 q) /\ 0 <= q < 2 ^ 24 /\ seq s <= resume q
}.

(** Nonces never go back: the pair of transmission IV Index and sequence number
    grows lexicographically. *)
Definition behind (n n' : Z * Z) : Prop := n.1 < n'.1 \/ (n.1 = n'.1 /\ n.2 <= n'.2).
Definition before (n n' : Z * Z) : Prop := n.1 < n'.1 \/ (n.1 = n'.1 /\ n.2 < n'.2).
Definition position (s : net_iv) : Z * Z := (tx_iv s, seq s).

Lemma behind_refl n : behind n n.
Proof. right. split; [done|lia]. Qed.
Lemma behind_trans n1 n2 n3 : behind n1 n2 -> behind n2 n3 -> behind n1 n3.
Proof. unfold behind. lia. Qed.
Lemma before_behind n1 n2 n3 : before n1 n2 -> behind n2 n3 -> before n1 n3.
Proof. unfold behind, before. lia. Qed.
Lemma before_weaken n1 n2 : before n1 n2 -> behind n1 n2.
Proof. unfold behind, before. lia. Qed.

(** An update keeps the invariant and moves forward. *)
Lemma inv_update e index f s :
  net_inv s -> 0 <= index < 2 ^ 32 ->
  net_inv (iv_update e index f s).2 /\ behind (position s) (position (iv_update e index f s).2).
Proof.
  intros Hinv Hi. pose proof Hinv as [H1 H2 H3 H4 H5 H6 H7].
  destruct (iv_update_judged SETTINGS UPDATE_TEST FRIEND GATT_PROXY CDB e index f s H1 Hi) as [_ Hj].
  assert (accepted (judge UPDATE_TEST e index f s) = true -> f = true -> 1 <= index) as Hpos.
  { unfold judge. intros Hacc ->. destruct (Z.ltb_spec index (iv_index s)); [done|]. cbn [orb] in Hacc.
    destruct (_ || _) in Hacc; [done|]. destruct (Z.eqb_spec index (iv_index s)) as [->|]; [done|lia]. }
  destruct (iv_update e index f s) as [b s']. simpl in *. revert Hj Hpos.
  generalize (judge UPDATE_TEST e index f s) as v. intros v Hj Hpos.
  assert (v = Recovered \/ v = Finished \/ v = Started \/ v = Deferred \/ v = Ignored) as Hv
    by (destruct v; tauto).
  destruct Hj as [J1 J2 J3 J4 J5 J6].
  assert (accepted v = true -> 0 <= seq s' < 2 ^ 32 -> net_inv s') as Hnew.
  { intros Hacc Hq. destruct (J3 Hacc) as (E1 & E2 & E3 & E4 & E5 & E6 & E7 & E8 & E9).
    split; rewrite ?E1, ?E2, ?E3, ?E6; try done; try lia; [by apply Hpos|..];
      intros Hset; destruct (E9 Hset); congruence. }
  unfold position, behind; simpl.
  destruct Hv as [->|[->|[->|[->| ->]]]].
  - destruct (J6 eq_refl) as (Q & T & _). split; [apply Hnew; [done|rewrite Q; lia]|lia].
  - destruct (J5 eq_refl) as (Q & T & _). split; [apply Hnew; [done|rewrite Q; lia]|lia].
  - destruct (J4 eq_refl) as (Q & T & _). split; [apply Hnew; [done|rewrite Q; lia]|lia].
  - rewrite (J2 eq_refl). split; [by split|]. unfold tx_iv. simpl. lia.
  - rewrite (J1 eq_refl). split; [done|lia].
Qed.

(** What only touches other fields. *)
Lemma inv_frame s s' :
  net_inv s -> iv_index s' = iv_index s -> seq s' = seq s -> in_progress s' = in_progress s ->
  0 <= ivu_duration s' < 256 -> provisioned s' = provisioned s ->
  disk_iv s' = disk_iv s -> disk_seq s' = disk_seq s ->
  (forall f, pending_flags s' f = false -> pending_flags s f = false) -> net_inv s'.
Proof.
  intros [H1 H2 H3 H4 H5 H6 H7] E1 E2 E3 E4 E5 E6 E7 E8.
  split; rewrite ?E1, ?E2, ?E3, ?E5, ?E6, ?E7; auto.
Qed.

Lemma flag_insert (m : bt_mesh_settings_flag -> bool) f g :
  (<[f := true]> m) g = false -> m g = false.
Proof. destruct (decide (f = g)) as [->|Hn]; [by rewrite fn_lookup_insert|by rewrite fn_lookup_insert_ne]. Qed.

Lemma resume_step q n :
  0 <= q -> n <= resume q -> 1 < RATE -> (n + 1) mod RATE <> 0 -> 0 <= n -> n + 1 <= resume q.
Proof.
  unfold resume. intros Hq Hn Hr Hm Hn0. destruct (Z.ltb_spec 0 RATE) as [_|]; [|lia].
  pose proof (Z.div_mod q RATE ltac:(lia)) as Hdm. pose proof (Z.mod_pos_bound q RATE ltac:(lia)) as Hb.
  destruct (Z.eq_dec n (q + (RATE - q mod RATE) - 1)) as [->|]; [|lia].
  exfalso. apply Hm. replace (q + (RATE - q mod RATE) - 1 + 1) with ((q / RATE + 1) * RATE) by lia.
  apply Z_mod_mult.
Qed.

(** The state once a sequence number is taken. *)
Definition taken (s : net_iv) : net_iv :=
  if SETTINGS then bt_mesh_net_seq_store RATE false (set_seq (seq s + 1) s) else set_seq (seq s + 1) s.

Lemma inv_taken s :
  net_inv s -> seq s < 2 ^ 24 -> net_inv (taken s) /\ position (taken s) = (tx_iv s, seq s + 1).
Proof.
  intros Hinv Hq. pose proof Hinv as [H1 H2 H3 H4 H5 H6 H7].
  unfold taken, bt_mesh_net_seq_store. destruct SETTINGS eqn:Hset.
  - destruct (_ && _) eqn:Hb; (split; [|done]).
    + apply andb_prop in Hb as [[_ Hr%Z.ltb_lt]%andb_prop Hm%negb_true_iff%Z.eqb_neq].
      split; simpl; try done; try lia; [by intros _; apply H6|]. intros _ Hp.
      destruct (H7 eq_refl Hp) as (q & E & Hqr & Hle). exists q. split_and!; try done; try lia.
      apply resume_step; try done; try lia.
    + split; simpl; try done; try lia.
      intros _ Hp%flag_insert. by apply H6.
  - split; [|done]. split; simpl; try done; try lia; by rewrite Hset.
Qed.

(** Taking a sequence number: the nonce is the position, the position moves on. *)
Lemma inv_next_seq e s :
  net_inv s -> seq s < 2 ^ 24 ->
  (next_seq e s).1 = seq s /\ net_inv (next_seq e s).2 /\ tx_iv (next_seq e s).2 = tx_iv s /\
  before (position s) (position (next_seq e s).2).
Proof.
  intros Hinv Hq. unfold bt_mesh_next_seq. rewrite (u32_id (seq s + 1)) by (pose proof (ni_seq _ Hinv); lia).
  destruct (inv_taken s Hinv Hq) as [Hs2 Hp2]. fold (taken s).
  set (s2 := taken s) in *.
  assert (before (position s) (position s2)) as Hb2 by (rewrite Hp2; right; simpl; lia).
  destruct (_ && _) eqn:Hb; simpl; [|injection Hp2 as ? ?; by split_and!].
  apply andb_prop in Hb as [[Hip%negb_true_iff _]%andb_prop _].
  set (s3 := call IvuInitiator s2).
  assert (net_inv s3) as Hs3 by (eapply inv_frame; [exact Hs2|..]; try done; apply Hs2).
  destruct (inv_update e (u32 (iv_index s2 + 1)) true s3 Hs3) as [Hinv' Hbeh]; [apply u32_range|].
  assert (position s3 = position s2) as Hps by done.
  split_and!; [done|done| |by eapply before_behind; [exact Hb2|rewrite <-Hps]].
  destruct (iv_update_judged SETTINGS UPDATE_TEST FRIEND GATT_PROXY CDB e (u32 (iv_index s2 + 1)) true s3)
    as [_ Hj]; [apply Hs3|apply u32_range|].
  assert (tx_iv s3 = tx_iv s) as Htx by (unfold position in Hp2; by injection Hp2).
  assert (judge UPDATE_TEST e (u32 (iv_index s2 + 1)) true s3 = Started \/
    judge UPDATE_TEST e (u32 (iv_index s2 + 1)) true s3 = Ignored) as Hv.
  { unfold judge. change (iv_index s3) with (iv_index s2). change (in_progress s3) with (in_progress s2).
    rewrite Hip. destruct (_ || _) eqn:Hc; [by right|].
    rewrite !orb_false_iff in Hc. destruct Hc as [[_ _] Hc%Z.leb_gt].
    rewrite u32_id by (pose proof (ni_index _ Hs2); lia).
    destruct (Z.eqb_spec (iv_index s2 + 1) (iv_index s2)) as [?|_]; [lia|]. rewrite Z.eqb_refl. simpl.
    destruct (early _ _); tauto. }
  destruct Hj as [J1 _ _ J4 _ _]. destruct Hv as [Hv|Hv]; rewrite Hv in *.
  - rewrite <-Htx. by apply J4.
  - by rewrite (J1 eq_refl).
Qed.

(** ** Every event keeps the invariant and moves forward *)

Definition steps (s s' : net_iv) : Prop := net_inv s' /\ behind (position s) (position s').

Lemma steps_refl s : net_inv s -> steps s s.
Proof. intros. split; [done|apply behind_refl]. Qed.

Lemma steps_trans s1 s2 s3 : steps s1 s2 -> (net_inv s2 -> steps s2 s3) -> steps s1 s3.
Proof. intros [H1 H2] Hs. destruct (Hs H1) as [H3 H4]. split; [done|by eapply behind_trans]. Qed.

Lemma steps_update e index f s : net_inv s -> 0 <= index < 2 ^ 32 -> steps s (iv_update e index f s).2.
Proof. apply inv_update. Qed.

Lemma steps_frame s s' :
  net_inv s -> iv_index s' = iv_index s -> seq s' = seq s -> in_progress s' = in_progress s ->
  0 <= ivu_duration s' < 256 -> provisioned s' = provisioned s ->
  disk_iv s' = disk_iv s -> disk_seq s' = disk_seq s ->
  (forall f, pending_flags s' f = false -> pending_flags s f = false) -> steps s s'.
Proof.
  intros Hs E1 E2 E3 E4 E5 E6 E7 E8. split; [by eapply inv_frame|].
  unfold position, tx_iv. rewrite E1, E2, E3. apply behind_refl.
Qed.

Lemma steps_schedule f s : net_inv s -> steps s (set_flag f true s).
Proof. intros Hs. eapply steps_frame; try done; [apply Hs|]. simpl. intros g. apply flag_insert. Qed.

Lemma steps_call c s : net_inv s -> steps s (call c s).
Proof. intros Hs. by eapply steps_frame; try apply Hs. Qed.

Lemma steps_duration d s : net_inv s -> 0 <= d < 256 -> steps s (set_duration d s).
Proof. intros Hs Hd. by eapply steps_frame; try apply Hs. Qed.

Lemma steps_timer e s :
  net_inv s -> steps s (ivu_refresh SETTINGS UPDATE_TEST FRIEND GATT_PROXY CDB DIVIDER e s).
Proof.
  intros Hs. unfold ivu_refresh. rewrite (ni_provisioned _ Hs). cbn [negb].
  assert (0 <= BT_MESH_IVU_HOURS DIVIDER <= 96) as Hh.
  { unfold BT_MESH_IVU_HOURS, BT_MESH_IVU_MIN_HOURS. split; [apply Z.div_pos; lia|].
    apply Z.div_le_upper_bound; lia. }
  set (s1 := set_duration _ s).
  assert (steps s s1) as Hs1
    by (apply steps_duration; [done|]; unfold UINT8_MAX; pose proof (ni_duration _ Hs); lia).
  eapply steps_trans; [|by apply steps_call]. eapply steps_trans; [exact Hs1|]. intros Hi1.
  destruct (ivu_duration s1 <? BT_MESH_IVU_MIN_HOURS).
  { destruct SETTINGS; [by apply steps_schedule|by apply steps_refl]. }
  set (s2 := if _ =? 0 then _ else _).
  assert (steps s1 s2) as Hs2 by (unfold s2; destruct (_ =? 0); [by apply steps_call|by apply steps_refl]).
  eapply steps_trans; [exact Hs2|]. intros Hi2. destruct (in_progress s2).
  - eapply (steps_trans _ (call IvuInitiator s2)); [by apply steps_call|]. intros Hi3.
    apply steps_update; [done|]. apply (ni_index _ Hi2).
  - destruct SETTINGS; [by apply steps_schedule|by apply steps_refl].
Qed.

Lemma steps_force e s :
  net_inv s -> steps s (bt_mesh_iv_update SETTINGS UPDATE_TEST FRIEND GATT_PROXY CDB e s).2.
Proof.
  intros Hs. unfold bt_mesh_iv_update. rewrite (ni_provisioned _ Hs). cbn [negb snd].
  destruct (in_progress s); apply steps_update; try done; [apply Hs|apply u32_range].
Qed.

Lemma steps_store s : net_inv s -> seq s < 2 ^ 24 -> steps s (store_pending s).
Proof.
  intros Hs Hq. unfold store_pending.
  eapply (steps_trans _ (handle_flag BT_MESH_SETTINGS_IV_PENDING bt_mesh_net_pending_iv_store s)).
  - unfold handle_flag. destruct (pending_flags s BT_MESH_SETTINGS_IV_PENDING) eqn:Hp; [|by apply steps_refl].
    unfold bt_mesh_net_pending_iv_store. simpl. rewrite (ni_provisioned _ Hs).
    destruct Hs as [H1 H2 H3 H4 H5 H6 H7]. split; [|apply behind_refl]. split; simpl; try done.
    intros _ _. exists (ivu_duration s mod 128). split; [done|]. apply Z.mod_pos_bound. lia.
  - intros Hs1. set (s1 := handle_flag BT_MESH_SETTINGS_IV_PENDING _ s) in *.
    assert (seq s1 = seq s) as Hq1
      by (unfold s1, handle_flag, bt_mesh_net_pending_iv_store; destruct (pending_flags s _); [simpl; by destruct (provisioned s)|done]).
    unfold handle_flag. destruct (pending_flags s1 BT_MESH_SETTINGS_SEQ_PENDING) eqn:Hp; [|by apply steps_refl].
    unfold bt_mesh_net_pending_seq_store. simpl. rewrite (ni_provisioned _ Hs1).
    destruct Hs1 as [H1 H2 H3 H4 H5 H6 H7]. split; [|apply behind_refl]. split; simpl; try done.
    intros _ _. exists (seq s1). split_and!; try done; try lia.
    unfold resume. destruct (Z.ltb_spec 0 RATE) as [Hr|]; [|lia].
    pose proof (Z.mod_pos_bound (seq s1) RATE Hr). lia.
Qed.

Lemma resume_range q : 0 <= q < 2 ^ 24 -> 0 <= resume q < 2 ^ 32.
Proof.
  intros Hq. unfold resume. destruct (Z.ltb_spec 0 RATE) as [Hr|]; [|lia].
  pose proof (Z.mod_pos_bound q RATE Hr). lia.
Qed.

(** A restart depends on the records alone. *)
Lemma restart_shape s i p d q :
  disk_iv s = Some (mk_iv_val i p d) -> disk_seq s = Some (sys_put_le24 q) -> 0 <= q < 2 ^ 24 ->
  restart RATE s = mk_iv i (resume q) d p false false true false
    (fun _ => false) (disk_iv s) (disk_seq s) ((if d <? BT_MESH_IVU_MIN_HOURS then [TimerReschedule] else []) ++ [ModelSettingsCommit; MeshStart]).
Proof.
  intros Ed Eq Hq. pose proof (resume_range q Hq) as Hres.
  unfold restart, mesh_commit, seq_set. rewrite Ed, Eq. simpl.
  rewrite (codec_get_put (e := LE) (n := 3)). rewrite Z.mod_small by lia.
  unfold resume in *. destruct (0 <? RATE) eqn:Hr.
  - apply Z.ltb_lt in Hr. pose proof (Z.mod_pos_bound q RATE Hr).
    rewrite (u32_id (q + (RATE - q mod RATE))), u32_id by lia.
    unfold bt_mesh_net_settings_commit. simpl. by destruct (d <? BT_MESH_IVU_MIN_HOURS).
  - unfold bt_mesh_net_settings_commit. simpl. by destruct (d <? BT_MESH_IVU_MIN_HOURS).
Qed.

(** A restart with nothing left to store resumes at or after the position. *)
Lemma steps_restart s : net_inv s -> event_ok EvRestart s -> steps s (restart RATE s).
Proof.
  intros Hs (Hset & Hp1 & Hp2).
  destruct (ni_disk_iv _ Hs Hset Hp1) as (d & Ed & Hd).
  destruct (ni_disk_seq _ Hs Hset Hp2) as (q & Eq & Hq & Hle).
  pose proof (resume_range q Hq) as Hres. rewrite (restart_shape s _ _ _ _ Ed Eq Hq).
  split; [|right; unfold position, tx_iv; simpl; lia].
  destruct Hs as [H1 H2 H3 H4 H5 H6 H7]. split; simpl; try done; try lia.
  - intros _ _. by exists d.
  - intros _ _. exists q. split_and!; try done; lia.
Qed.

Lemma event_steps ev s :
  net_inv s -> seq s < 2 ^ 24 -> event_ok ev s ->
  net_inv (do_event ev s).2 /\
  (((do_event ev s).1 = [] /\ behind (position s) (position (do_event ev s).2)) \/
   ((do_event ev s).1 = [position s] /\ before (position s) (position (do_event ev s).2))).
Proof.
  intros Hs Hq Hok.
  assert (forall s', steps s s' -> net_inv s' /\ (([] : list (Z * Z)) = [] /\ behind (position s) (position s') \/
    ([] : list (Z * Z)) = [position s] /\ before (position s) (position s'))) as Hquiet
    by (intros s' [? ?]; split; [done|by left]).
  destruct ev as [e|e index f|e|e|en|e| |]; cbn [do_event]; try apply Hquiet.
  - destruct (inv_next_seq e s Hs Hq) as (E1 & Hinv & Ht & Hb). unfold net_tx_nonce.
    destruct (next_seq e s) as [q s'] eqn:E. simpl in *. split; [done|]. right. split; [|done].
    subst q. unfold BT_MESH_NET_IVI_TX. fold (tx_iv s'). rewrite Ht.
    assert (0 <= tx_iv s < 2 ^ 32) as Htr.
    { unfold tx_iv. pose proof (ni_index _ Hs). pose proof (ni_progress _ Hs).
      destruct (in_progress s); simpl; lia. }
    rewrite u32_id by lia. rewrite Z.mod_small by (pose proof (ni_seq _ Hs); lia). done.
  - by apply steps_update.
  - by apply steps_timer.
  - unfold proceed_pending. destruct (ivu_pending s); [|by apply steps_refl].
    eapply (steps_trans _ (set_ivu_pending false s)); [by eapply steps_frame; try apply Hs|].
    intros Hs1. apply steps_update; [done|apply Hs].
  - unfold bt_mesh_iv_update_test.
    eapply (steps_trans _ (set_test en s)); [by eapply steps_frame; try apply Hs|].
    intros Hs1. by apply steps_duration.
  - by apply steps_force.
  - by apply steps_store.
  - by apply steps_restart.
Qed.

(** A later PDU of the run has a later nonce. *)
Definition ordered (l : list (Z * Z)) : Prop :=
  forall i j n n', (i < j)%nat -> l !! i = Some n -> l !! j = Some n' -> before n n'.

Lemma ordered_cons n l : Forall (before n) l -> ordered l -> ordered (n :: l).
Proof.
  intros Hf Ho [|i] [|j] a b Hij Ha Hb; simpl in *; try lia; [|by eapply (Ho i j); [lia|..]].
  injection Ha as <-. rewrite list.Forall_forall in Hf. by eapply Hf, list_elem_of_lookup_2.
Qed.

Lemma run_sorted evs : forall s,
  net_inv s -> run_ok evs s ->
  Forall (behind (position s)) (run_net evs s).1 /\ ordered (run_net evs s).1.
Proof.
  induction evs as [|ev evs IH]; intros s Hs Hok; cbn [run_net]; [by split; [constructor|intros ? ? ? ? _ ?]|].
  destruct Hok as (Hq & Hev & Hok). destruct (event_steps ev s Hs Hq Hev) as (Hs' & Hc).
  destruct (do_event ev s) as [n s1]. simpl in *. destruct (IH s1 Hs' Hok) as [Hf Hsort].
  destruct (run_net evs s1) as [ns s2]. simpl in *. destruct Hc as [[-> Hb]|[-> Hb]]; simpl.
  - split; [|done]. eapply list.Forall_impl; [exact Hf|]. intros n'. by apply behind_trans.
  - split; [constructor; [apply behind_refl|]|apply ordered_cons; [|done]];
      (eapply list.Forall_impl; [exact Hf|]); intros n' Hn.
    + eapply behind_trans; [by apply before_weaken|done].
    + by eapply before_behind.
Qed.

(** The bounds of what goes into a PDU. *)
Lemma run_bounds evs : forall s,
  net_inv s -> run_ok evs s ->
  Forall (fun n => 0 <= n.1 < 2 ^ 32 /\ 0 <= n.2 < 2 ^ 24) (run_net evs s).1.
Proof.
  induction evs as [|ev evs IH]; intros s Hs Hok; cbn [run_net]; [by constructor|].
  destruct Hok as (Hq & Hev & Hok). destruct (event_steps ev s Hs Hq Hev) as (Hs' & Hc).
  destruct (do_event ev s) as [n s1]. simpl in *. pose proof (IH s1 Hs' Hok) as Hf.
  destruct (run_net evs s1) as [ns s2]. simpl in *. destruct Hc as [[-> Hb]|[-> Hb]]; simpl; [done|].
  constructor; [|done]. unfold position, tx_iv. simpl. pose proof (ni_index _ Hs). pose proof (ni_seq _ Hs).
  pose proof (ni_progress _ Hs). destruct (in_progress s); simpl; lia.
Qed.

(** The first bytes of the PDU that is made with a nonce: [hdr] is the byte of CTL
    and TTL, and the source. *)
Definition net_pdu (hdr : Z * Z) (n : Z * Z) : list Z :=
  [0; hdr.1] ++ sys_put_be24 n.2 ++ sys_put_be16 hdr.2.

Lemma net_nonce_inj h h' n n' :
  0 <= n.1 < 2 ^ 32 -> 0 <= n'.1 < 2 ^ 32 -> 0 <= n.2 < 2 ^ 24 -> 0 <= n'.2 < 2 ^ 24 ->
  create_net_nonce (net_pdu h n) n.1 = create_net_nonce (net_pdu h' n') n'.1 -> n = n'.
Proof.
  intros H1 H2 H3 H4 E. unfold create_net_nonce in E. apply app_inj_1 in E as [E1 E2]; [|done].
  assert (n.1 = n'.1) as Hn1.
  { rewrite <-(Z.mod_small n.1 (256 ^ Z.of_nat 4)), <-(Z.mod_small n'.1 (256 ^ Z.of_nat 4)) by lia.
    rewrite <-!(codec_get_put (e := BE) (put := sys_put_be32) (get := sys_get_be32)). by rewrite E2. }
  assert (n.2 = n'.2) as Hn2.
  { rewrite <-(Z.mod_small n.2 (256 ^ Z.of_nat 3)), <-(Z.mod_small n'.2 (256 ^ Z.of_nat 3)) by lia.
    rewrite <-!(codec_get_put (e := BE) (put := sys_put_be24) (get := sys_get_be24)).
    unfold net_pdu in E1. unfold sys_get_be24, sys_get_be16. cbn in E1. cbn.
    injection E1 as _ E5 E6 E7 _ _. cbn in E5, E6, E7. by rewrite E5, E6, E7. }
  destruct n, n'. simpl in *. by subst.
Qed.

(** C2: Nonces are not reused.  Whatever a provisioned node lives through - PDUs
    sent, IV Index updates and recoveries from beacons with any contents, the
    procedure's timer, deferred updates, the test interface, runs of the storage
    job and restarts that happen when that job has nothing left to store for
    the IV Index and the sequence number - no two network PDUs it makes are
    sealed under the same nonce, as long as the sequence number stays within
    the 24 bits a PDU has for it. *)
Theorem net_nonces_never_reused evs s hdr :
  net_inv s -> run_ok evs s ->
  NoDup (imap (fun i n => create_net_nonce (net_pdu (hdr i) n) n.1) (run_net evs s).1).
Proof.
  intros Hs Hok. destruct (run_sorted evs s Hs Hok) as [_ Hsort]. pose proof (run_bounds evs s Hs Hok) as Hb.
  revert Hsort Hb. generalize (run_net evs s).1 as l. intros l Hsort Hb.
  apply NoDup_alt. intros i j x Hi Hj. rewrite list_lookup_imap in Hi, Hj.
  destruct (l !! i) as [n|] eqn:Ei; [|done]. destruct (l !! j) as [n'|] eqn:Ej; [|done].
  assert (create_net_nonce (net_pdu (hdr i) n) n.1 = create_net_nonce (net_pdu (hdr j) n') n'.1) as Hx.
  { cbn [fmap option_fmap option_map] in Hi, Hj. congruence. }
  clear Hi Hj.
  rewrite list.Forall_forall in Hb.
  destruct (Hb n) as [B1 B2]; [by eapply list_elem_of_lookup_2|].
  destruct (Hb n') as [B3 B4]; [by eapply list_elem_of_lookup_2|].
  apply net_nonce_inj in Hx; try done. subst n'.
  destruct (Nat.lt_trichotomy i j) as [Hlt|[?|Hlt]]; [exfalso|done|exfalso].
  - pose proof (Hsort i j n n Hlt Ei Ej) as Hy. unfold before in Hy. lia.
  - pose proof (Hsort j i n n Hlt Ej Ei) as Hy. unfold before in Hy. lia.
Qed.

(** ** The 96 hours of a state *)

(** The stored duration is not ahead. *)
Definition disk_behind (s : net_iv) : Prop :=
  SETTINGS = true -> pending_flags s BT_MESH_SETTINGS_IV_PENDING = false ->
  forall v, disk_iv s = Some v -> v_iv_duration v <= ivu_duration s.

(** At most [n] hours have passed: the duration has not grown by more, and the
    test mode was not entered. *)
Definition aged (n : Z) (s s' : net_iv) : Prop :=
  disk_behind s' /\ ivu_duration s' <= ivu_duration s + n /\ (ivu_test s' = true -> ivu_test s = true).

Lemma aged_refl s : disk_behind s -> aged 0 s s.
Proof. intros. split_and!; [done|lia|done]. Qed.

Lemma aged_trans n1 n2 s1 s2 s3 : aged n1 s1 s2 -> aged n2 s2 s3 -> aged (n1 + n2) s1 s3.
Proof. intros (H1 & H2 & H3) (H4 & H5 & H6). split_and!; [done|lia|auto]. Qed.

Lemma aged_flag n f s s' : aged n s s' -> aged n s (set_flag f true s').
Proof.
  intros (H1 & H2 & H3). split_and!; [|done|done]. intros Hset Hp. apply H1; [done|].
  exact (flag_insert _ _ _ Hp).
Qed.

Lemma aged_update n e index f s s' :
  net_inv s' -> 0 <= index < 2 ^ 32 -> 0 <= ivu_duration s + n -> aged n s s' ->
  aged n s (iv_update e index f s').2.
Proof.
  intros Hs' Hi Hn Ha.
  destruct (iv_update_judged SETTINGS UPDATE_TEST FRIEND GATT_PROXY CDB e index f s' (ni_index _ Hs') Hi) as [_ Hj].
  revert Hj. generalize (judge UPDATE_TEST e index f s') as v. intros v [J1 J2 J3 _ _ _].
  assert (accepted v = true \/ v = Deferred \/ v = Ignored) as [Hv|[Hv|Hv]] by (destruct v; simpl; tauto).
  - destruct (J3 Hv) as (_ & _ & E3 & _ & E5 & _ & _ & _ & E9). destruct Ha as (_ & _ & H3).
    split_and!; [|by rewrite E3|by rewrite E5]. intros Hset. destruct (E9 Hset) as [-> _]. done.
  - by rewrite (J2 Hv).
  - by rewrite (J1 Hv).
Qed.

(** Events but the test switch. *)
Definition no_test (ev : net_event) : Prop := match ev with EvTest _ => False | _ => True end.

Definition event_hours (ev : net_event) : Z :=
  match ev with EvTimer _ => BT_MESH_IVU_HOURS DIVIDER | _ => 0 end.

Lemma hours_range : 0 <= BT_MESH_IVU_HOURS DIVIDER <= 96.
Proof.
  unfold BT_MESH_IVU_HOURS, BT_MESH_IVU_MIN_HOURS. split; [apply Z.div_pos; lia|].
  apply Z.div_le_upper_bound; lia.
Qed.

Lemma aged_timer e s :
  net_inv s -> disk_behind s ->
  aged (BT_MESH_IVU_HOURS DIVIDER) s (ivu_refresh SETTINGS UPDATE_TEST FRIEND GATT_PROXY CDB DIVIDER e s).
Proof.
  intros Hs Hd. pose proof hours_range as Hh. unfold ivu_refresh. rewrite (ni_provisioned _ Hs). cbn [negb].
  set (s1 := set_duration _ s).
  assert (net_inv s1) as Hs1
    by (apply steps_duration; [done|]; unfold UINT8_MAX; pose proof (ni_duration _ Hs); lia).
  assert (ivu_duration s <= ivu_duration s1 <= ivu_duration s + BT_MESH_IVU_HOURS DIVIDER) as Hdur
    by (unfold s1, UINT8_MAX; simpl; pose proof (ni_duration _ Hs); lia).
  assert (aged (BT_MESH_IVU_HOURS DIVIDER) s s1) as Ha1.
  { split_and!; [|lia|done]. intros Hset Hp v Hv. specialize (Hd Hset Hp v Hv). lia. }
  enough (forall s2, aged (BT_MESH_IVU_HOURS DIVIDER) s s2 ->
    aged (BT_MESH_IVU_HOURS DIVIDER) s (call TimerReschedule s2)) as Hcall.
  { apply Hcall. destruct (ivu_duration s1 <? BT_MESH_IVU_MIN_HOURS).
    { destruct SETTINGS; [by apply aged_flag|done]. }
    set (s2 := if _ =? 0 then _ else _).
    assert (net_inv s2 /\ aged (BT_MESH_IVU_HOURS DIVIDER) s s2 /\ iv_index s2 = iv_index s1) as (Hs2 & Ha2 & Ei).
    { unfold s2. destruct (_ =? 0); [|done]. split_and!; [by apply steps_call|exact Ha1|done]. }
    destruct (in_progress s2).
    - apply aged_update; [by apply steps_call|simpl; rewrite Ei; apply Hs1| |exact Ha2].
      pose proof (ni_duration _ Hs). lia.
    - destruct SETTINGS; [by apply aged_flag|done]. }
  by intros s2.
Qed.

Lemma aged_send e s :
  net_inv s -> seq s < 2 ^ 24 -> disk_behind s -> aged 0 s (next_seq e s).2.
Proof.
  intros Hs Hq Hd. pose proof (ni_duration _ Hs) as Hdur. unfold bt_mesh_next_seq.
  rewrite (u32_id (seq s + 1)) by (pose proof (ni_seq _ Hs); lia). fold (taken s).
  assert (aged 0 s (taken s)) as Ha.
  { assert (aged 0 s (set_seq (seq s + 1) s)) as Ha by (split_and!; [exact Hd|simpl; lia|done]).
    unfold taken, bt_mesh_net_seq_store. destruct SETTINGS; [|done].
    destruct (_ && _); [done|by apply aged_flag]. }
  destruct (_ && _); simpl; [|done].
  apply aged_update; [apply steps_call, inv_taken; done|apply u32_range|lia|exact Ha].
Qed.

Lemma aged_store s : net_inv s -> disk_behind s -> aged 0 s (store_pending s).
Proof.
  intros Hs Hd. unfold store_pending, handle_flag at 2.
  set (s1 := if pending_flags s BT_MESH_SETTINGS_IV_PENDING then _ else _).
  assert (aged 0 s s1) as (H1 & H2 & H3).
  { unfold s1. destruct (pending_flags s _); [|by apply aged_refl].
    unfold bt_mesh_net_pending_iv_store. simpl. rewrite (ni_provisioned _ Hs).
    split_and!; simpl; [|lia|done]. intros _ _ v [= <-]. simpl.
    apply Z.mod_le; [apply Hs|lia]. }
  unfold handle_flag. destruct (pending_flags s1 BT_MESH_SETTINGS_SEQ_PENDING); [|done].
  unfold bt_mesh_net_pending_seq_store.
  destruct (provisioned _); (split_and!; [|done|done]); intros Hset Hp; apply H1; done.
Qed.

Lemma aged_restart s : net_inv s -> event_ok EvRestart s -> disk_behind s -> aged 0 s (restart RATE s).
Proof.
  intros Hs (Hset & Hp1 & Hp2) Hd.
  destruct (ni_disk_iv _ Hs Hset Hp1) as (d & Ed & Hr). pose proof (Hd Hset Hp1 _ Ed) as Hle. simpl in Hle.
  destruct (ni_disk_seq _ Hs Hset Hp2) as (q & Eq & _).
  unfold restart, mesh_commit, bt_mesh_net_settings_commit, seq_set. rewrite Ed, Eq. simpl.
  destruct (0 <? RATE); simpl; destruct (d <? BT_MESH_IVU_MIN_HOURS); simpl;
    (split_and!; [intros _ _ v Hv; simpl in *; by simplify_eq|simpl; lia|done]).
Qed.

Lemma aged_event ev s :
  net_inv s -> seq s < 2 ^ 24 -> event_ok ev s -> no_test ev -> disk_behind s ->
  aged (event_hours ev) s (do_event ev s).2.
Proof.
  intros Hs Hq Hok Hnt Hd. pose proof (ni_duration _ Hs) as Hdur.
  destruct ev as [e|e index f|e|e|en|e| |]; cbn [do_event event_hours snd].
  - unfold net_tx_nonce. pose proof (aged_send e s Hs Hq Hd). by destruct (next_seq e s).
  - apply aged_update; try done; [lia|by apply aged_refl].
  - by apply aged_timer.
  - unfold proceed_pending. destruct (ivu_pending s); [|by apply aged_refl].
    apply aged_update; [by eapply (steps_frame s); try apply Hs|apply Hs|lia|].
    split_and!; [exact Hd|simpl; lia|done].
  - done.
  - unfold bt_mesh_iv_update. rewrite (ni_provisioned _ Hs). cbn [negb snd].
    destruct (in_progress s); (apply aged_update; [done|apply Hs || apply u32_range|lia|by apply aged_refl]).
  - by apply aged_store.
  - by apply aged_restart.
Qed.

(** The hours the timer has counted in a run. *)
Definition run_hours (evs : list net_event) : Z := foldr (fun ev n => event_hours ev + n) 0 evs.

Lemma aged_run evs : forall s,
  net_inv s -> run_ok evs s -> Forall no_test evs -> disk_behind s ->
  aged (run_hours evs) s (run_net evs s).2 /\ net_inv (run_net evs s).2.
Proof.
  induction evs as [|ev evs IH]; intros s Hs Hok Hnt Hd; cbn [run_net].
  - split; [by apply aged_refl|done].
  - destruct Hok as (Hq & Hev & Hok). apply Forall_cons in Hnt as [Hn Hnt].
    destruct (event_steps ev s Hs Hq Hev) as (Hs' & _).
    pose proof (aged_event ev s Hs Hq Hev Hn Hd) as Ha.
    destruct (do_event ev s) as [n s1]. simpl in *.
    destruct (IH s1 Hs' Hok Hnt (proj1 Ha)) as [IH1 IH2].
    destruct (run_net evs s1) as [ns s2]. simpl in *. split; [by eapply aged_trans|done].
Qed.

(** An update by one step: the end of the procedure that is in progress, or the
    start of one. *)
Definition next_step (index : Z) (f : bool) (s : net_iv) : Prop :=
  index = iv_index s \/ (index = iv_index s + 1 /\ f = true /\ in_progress s = false).

(** C19: A state of the IV Update procedure lasts for 96 hours, whatever happens to
    the node (beacons of any contents, PDUs sent, deferred updates, storage and
    restarts).  From an accepted change of state on, the code accepts the next step
    of the procedure only after its timer has counted 96 hours, outside the test
    mode; and while the node remembers that it recovered the IV Index, it accepts
    another recovery only after 192 hours. *)
Theorem iv_state_lasts e0 i0 f0 s evs e i f :
  net_inv s -> 0 <= i0 < 2 ^ 32 -> 0 <= i < 2 ^ 32 -> ivu_test s = false ->
  (iv_update e0 i0 f0 s).1 = true ->
  let s1 := (iv_update e0 i0 f0 s).2 in
  run_ok evs s1 -> Forall no_test evs ->
  let s2 := (run_net evs s1).2 in
  (iv_update e i f s2).1 = true ->
  (next_step i f s2 -> 96 <= run_hours evs) /\
  (~ next_step i f s2 -> ivi_was_recovered s2 = true -> 192 <= run_hours evs).
Proof.
  intros Hs Hi0 Hi Ht Hacc s1 Hok Hnt s2 Hacc2.
  destruct (iv_update_judged SETTINGS UPDATE_TEST FRIEND GATT_PROXY CDB e0 i0 f0 s (ni_index _ Hs) Hi0) as [E0 Hj].
  rewrite Hacc in E0. destruct Hj as [_ _ J3 _ _ _].
  destruct (J3 (eq_sym E0)) as (_ & _ & D1 & _ & T1 & _ & _ & _ & P1). fold s1 in D1, T1, P1.
  assert (net_inv s1) as Hs1 by (by apply inv_update).
  assert (disk_behind s1) as Hd1 by (intros Hset Hp; destruct (P1 Hset); congruence).
  destruct (aged_run evs s1 Hs1 Hok Hnt Hd1) as [(_ & Hdur & Htest) Hs2]. fold s2 in Hdur, Htest, Hs2.
  assert (ivu_test s2 = false) as T2.
  { destruct (ivu_test s2) eqn:E; [|done]. rewrite T1, Ht in Htest. by specialize (Htest eq_refl). }
  destruct (iv_update_judged SETTINGS UPDATE_TEST FRIEND GATT_PROXY CDB e i f s2 (ni_index _ Hs2) Hi) as [E2 _].
  rewrite Hacc2 in E2. unfold judge, early in E2. rewrite T2, andb_false_r in E2. cbn [negb andb] in E2.
  unfold BT_MESH_IVU_MIN_HOURS in E2. unfold next_step.
  destruct (_ || _) in E2; [done|]. destruct (Z.eqb_spec i (iv_index s2)) as [->|Hn].
  - split; [intros _|tauto]. destruct (_ || _) eqn:Hb in E2; [done|].
    rewrite !orb_false_iff in Hb. destruct Hb as [_ Hb%Z.ltb_ge]. lia.
  - destruct (_ && _) eqn:Hst in E2.
    + apply andb_prop in Hst as [[->%Z.eqb_eq ->]%andb_prop ->%negb_true_iff].
      split; [intros _|tauto]. destruct (Z.ltb_spec (ivu_duration s2) 96); [done|lia].
    + split; [intros [?|(-> & -> & Hp)]; [done|by rewrite Z.eqb_refl, Hp in Hst]|].
      intros _ Hrec. rewrite Hrec in E2. cbn [andb] in E2.
      destruct (Z.ltb_spec (ivu_duration s2) (2 * 96)); [done|lia].
Qed.

(** The storage job with both records due. *)
Lemma store_both s :
  provisioned s = true -> pending_flags s BT_MESH_SETTINGS_IV_PENDING = true ->
  pending_flags s BT_MESH_SETTINGS_SEQ_PENDING = true ->
  disk_iv (store_pending s) = Some (mk_iv_val (iv_index s) (in_progress s) (ivu_duration s mod 128)) /\
  disk_seq (store_pending s) = Some (sys_put_le24 (seq s)).
Proof.
  intros Hp Hiv Hseq. unfold store_pending, handle_flag. rewrite Hiv.
  unfold bt_mesh_net_pending_iv_store, bt_mesh_net_pending_seq_store. cbn [provisioned set_flag]. rewrite Hp.
  cbn [pending_flags set_flag store_pending_iv set_disk_iv]. rewrite fn_lookup_insert_ne by done.
  rewrite Hseq. cbn. by rewrite Hp.
Qed.

(** What a restart brings back.  When both records are due and the storage job
    runs, a restart restores the IV Index and the phase of the procedure; it resumes
    with a sequence number that no PDU has used, at most a store interval ahead; and
    of the hours counted it keeps the seven bits that the record has for them, so a
    state that was old enough for the next step may have to wait again. *)
Theorem restart_restores s :
  provisioned s = true -> 0 <= seq s < 2 ^ 24 ->
  pending_flags s BT_MESH_SETTINGS_IV_PENDING = true -> pending_flags s BT_MESH_SETTINGS_SEQ_PENDING = true ->
  let s' := restart RATE (store_pending s) in
  iv_index s' = iv_index s /\ in_progress s' = in_progress s /\
  ivu_duration s' = ivu_duration s mod 128 /\
  seq s <= seq s' <= seq s + Z.max 0 (RATE - 1) /\
  (forall e, 128 <= ivu_duration s < 128 + 96 -> in_progress s = true ->
     0 <= iv_index s < 2 ^ 32 -> (iv_update e (iv_index s) false s').1 = false).
Proof.
  intros Hp Hq Hiv Hseq s'. destruct (store_both s Hp Hiv Hseq) as [Ed Eq].
  subst s'. rewrite (restart_shape _ _ _ _ _ Ed Eq Hq). simpl. split_and!; try done.
  - unfold resume. destruct (Z.ltb_spec 0 RATE) as [Hr|]; [|lia].
    pose proof (Z.mod_pos_bound (seq s) RATE Hr). lia.
  - unfold resume. destruct (Z.ltb_spec 0 RATE) as [Hr|]; [|lia].
    pose proof (Z.mod_pos_bound (seq s) RATE Hr). lia.
  - intros e Hd Hip Hi. set (s' := mk_iv _ _ _ _ _ _ _ _ _ _ _ _).
    destruct (iv_update_judged SETTINGS UPDATE_TEST FRIEND GATT_PROXY CDB e (iv_index s) false s' Hi Hi) as [-> _].
    unfold judge, early. simpl. rewrite Hip, andb_false_r, Z.eqb_refl. cbn [negb orb andb].
    destruct (_ || _); [done|].
    assert (ivu_duration s mod 128 = ivu_duration s - 128) as ->
      by (symmetry; apply (Z.mod_unique _ _ 1); lia).
    destruct (Z.ltb_spec (ivu_duration s - 128) BT_MESH_IVU_MIN_HOURS) as [|Hge]; [done|].
    unfold BT_MESH_IVU_MIN_HOURS in Hge. lia.
Qed.

End Runs.

(** * Witnesses *)

(** A provisioned node with IV Index 5 whose records are not written yet. *)
Definition fresh_node : net_iv :=
  mk_iv 5 254 0 false false false true false (fun _ => true) None None [].
Definition calm : net_env := mk_env false true false.

(** The life of a node: PDUs, a jump of the IV Index, restarts, the timer. *)
Definition life : list net_event :=
  [EvSend calm; EvStore; EvRestart; EvSend calm; EvSend calm; EvBeacon calm 7 true; EvSend calm;
   EvStore; EvSend calm; EvRestart; EvTimer calm; EvSend calm].

Lemma fresh_node_inv SETTINGS RATE : net_inv SETTINGS RATE fresh_node.
Proof. split; simpl; try done; lia. Qed.

Lemma net_nonces_never_reused_witness :
  NoDup (imap (fun i n => create_net_nonce (net_pdu (0x05, 0x0102) n) n.1)
    (run_net true false false false false 1000 16 8 life fresh_node).1).
Proof.
  apply (net_nonces_never_reused true false false false false 1000 16 8); [lia|lia|apply fresh_node_inv|].
  vm_compute. repeat split; congruence.
Defined.

(** Seven half days, a restart, a beacon that comes too early, and half a day. *)
Definition four_days : list net_event :=
  repeat (EvTimer calm) 7 ++ [EvStore; EvRestart; EvBeacon calm 6 true] ++ [EvTimer calm].

Lemma iv_state_lasts_witness : 96 <= run_hours 8 four_days.
Proof.
  eapply (iv_state_lasts true false false false false 1000 16 8 ltac:(lia) ltac:(lia)
    calm 5 false (set_in_progress true (set_duration 100 fresh_node)) four_days calm 6 true).
  - split; simpl; try done; lia.
  - lia.
  - lia.
  - done.
  - by vm_compute.
  - vm_compute. repeat split; congruence.
  - repeat constructor.
  - by vm_compute.
  - right. by vm_compute.
Defined.

Lemma restart_restores_witness :
  (bt_mesh_net_iv_update true false false false false calm 5 false
    (restart 16 (store_pending (set_in_progress true (set_duration 130 fresh_node))))).1 = false /\
  (bt_mesh_net_iv_update true false false false false calm 5 false
    (set_in_progress true (set_duration 130 fresh_node))).1 = true.
Proof.
  split; [|by vm_compute].
  apply (restart_restores true false false false false 16 ltac:(lia)
    (set_in_progress true (set_duration 130 fresh_node))); simpl; try done; lia.
Defined.
