(* ===== verification/Net.v ===== *)
(** The network layer ([mesh/net.c]): the two caches of received PDUs, sealing and
    opening of network PDUs, loopback, relaying and bridging.

    One state holds what the functions share: the subnets with the crypto backend
    ([Subnet.v]), the IV Index and sequence number ([NetIv.v]), the replay list
    ([Rpl.v]), the bridging table ([Bridge.v]) and the caches.  The transport layer
    is an argument ([trans_recv]); what other modules answer is in [node_env]; what
    goes out is a log.  Buffers are those of [BufSimple.v], crypto calls those of
    [Crypto.v].  [Crash] is an access outside an object or a failed assertion. *)

From S2P Require Import Prelude Byteorder BufSimple MeshDefs Rpl Bridge CryptoIf Crypto Subnet NetIv.

(** * Data *)

Definition BT_MESH_NET_HDR_LEN : Z := 9.
Definition BT_MESH_NET_MIN_PDU_LEN : Z := BT_MESH_NET_HDR_LEN + 1 + 8.
Definition BT_MESH_NET_MAX_PDU_LEN : Z := BT_MESH_NET_HDR_LEN + 16 + 4.
Definition LOOPBACK_MAX_PDU_LEN : Z := BT_MESH_NET_HDR_LEN + 16.
Definition FEATURE_DISABLED : Z := 0.
Definition FEATURE_ENABLED : Z := 1.
Definition BT_MESH_BRG_CFG_NETIDX_NOMATCH : Z := 0xFFFF.

(** The header macros, on the first nine bytes of a PDU. *)
Definition IVI (pdu : list Z) : Z := Z.shiftr (pdu !!! 0%nat) 7.
Definition NID (pdu : list Z) : Z := Z.land (pdu !!! 0%nat) 0x7f.
Definition CTL (pdu : list Z) : Z := Z.shiftr (pdu !!! 1%nat) 7.
Definition TTL (pdu : list Z) : Z := Z.land (pdu !!! 1%nat) 0x7f.
Definition SEQ (pdu : list Z) : Z := sys_get_be24 (take 3 (drop 2 pdu)).
Definition SRC (pdu : list Z) : Z := sys_get_be16 (take 2 (drop 5 pdu)).
Definition DST (pdu : list Z) : Z := sys_get_be16 (take 2 (drop 7 pdu)).

(** [struct bt_mesh_net_tx] with its [ctx]; [tx_sub] is the slot of the subnet. *)
Record bt_mesh_net_tx := mk_tx {
  tx_sub : nat;
  tx_src : Z;
  tx_dst : Z;         (** [ctx->addr] *)
  tx_send_ttl : Z;    (** [ctx->send_ttl] *)
  tx_app_idx : Z;     (** [ctx->app_idx] *)
  tx_friend_cred : bool
}.

(** [struct loopback_buf]; its length is that of the data. *)
Record loopback_buf := mk_loop { lb_sub : nat; lb_data : list Z }.

(** What goes out: PDUs with where they go, and the calls that change nothing here. *)
Inductive net_out :=
| StatRx (net_if : bt_mesh_net_if)      (** [bt_mesh_stat_rx] *)
| ProxyAddrAdd (addr : Z)               (** [bt_mesh_proxy_addr_add] *)
| ProxyRelay (pdu : list Z) (dst : Z)   (** [bt_mesh_proxy_relay] *)
| ProxyCliRelay (pdu : list Z)          (** [bt_mesh_proxy_cli_relay] *)
| AdvSend (xmit : Z) (pdu : list Z)     (** [bt_mesh_adv_send]; [xmit] of the advertiser *)
| SendCbFinalize                        (** [send_cb_finalize] *)
| LocalWorkSubmit.                      (** [bt_work_submit(&bt_mesh.local_work)] *)

(** [IS_ENABLED] of the options. *)
Record net_cfg := mk_cfg {
  c_settings : bool;
  c_rpl_timeout : bool;         (** the settings timeout of the replay list *)
  c_iv_update_test : bool;
  c_friend : bool;
  c_gatt_proxy : bool;
  c_proxy : bool;
  c_proxy_client : bool;
  c_od_priv_proxy_srv : bool;
  c_solicitation : bool;
  c_cdb : bool;
  c_statistic : bool;
  c_brg_cfg_srv : bool;
  c_seq_limit : Z;
  c_seq_store_rate : Z
}.

Record net_node (W : Type) := mk_node {
  n_sub : subnet_state W;
  n_iv : net_iv;
  n_rpl : rpl_state;
  n_brg : brg_state;
  dup_cache : list Z;
  dup_cache_next : nat;
  msg_cache : list (Z * Z);     (** [src], 15 bits, and [seq], 17 bits *)
  msg_cache_next : nat;
  local_queue : list loopback_buf;
  loopback_free : nat;          (** free blocks of [loopback_buf_pool] *)
  n_out : list net_out
}.
Arguments mk_node {W}.
Arguments n_sub {W}.
Arguments n_iv {W}.
Arguments n_rpl {W}.
Arguments n_brg {W}.
Arguments dup_cache {W}.
Arguments dup_cache_next {W}.
Arguments msg_cache {W}.
Arguments msg_cache_next {W}.
Arguments local_queue {W}.
Arguments loopback_free {W}.
Arguments n_out {W}.

(** What the other modules answer. *)
Record node_env := mk_node_env {
  fixed_group_match : Z -> bool;            (** [bt_mesh_fixed_group_match] *)
  has_addr : Z -> bool;                     (** [bt_mesh_has_addr] *)
  relay_get : Z;                            (** [bt_mesh_relay_get] *)
  gatt_proxy_get : Z;                       (** [bt_mesh_gatt_proxy_get] *)
  priv_gatt_proxy_get : Z;                  (** [bt_mesh_priv_gatt_proxy_get] *)
  relay_retransmit_get : Z;                 (** [bt_mesh_relay_retransmit_get] *)
  net_transmit_get : Z;                     (** [bt_mesh_net_transmit_get] *)
  lpn_cred : option (bt_mesh_net_cred * bt_mesh_net_cred);
                                            (** [lpn.cred], when there is a friendship *)
  lpn_waiting : option (nat * (bt_mesh_net_cred * bt_mesh_net_cred));
                                            (** the subnet and credentials, while waiting *)
  frnd : list friend_slot;                  (** the friendships of a friend *)
  adv_create : nat -> option bt_buf_simple; (** [bt_mesh_adv_create], at a point of the log *)
  iv_env : net_env
}.

(** * Operations *)

Section Operations.

Context {W : Type} `{MeshCrypto W}.
Context (cfg : net_cfg) (env : node_env).
Notation st := (net_node W).

Definition modify (f : st -> st) : M st unit := fun s => (Ok (), f s).

Definition set_n_sub (x : subnet_state W) (s : st) : st :=
  mk_node x (n_iv s) (n_rpl s) (n_brg s) (dup_cache s) (dup_cache_next s) (msg_cache s)
    (msg_cache_next s) (local_queue s) (loopback_free s) (n_out s).
Definition set_n_iv (x : net_iv) (s : st) : st :=
  mk_node (n_sub s) x (n_rpl s) (n_brg s) (dup_cache s) (dup_cache_next s) (msg_cache s)
    (msg_cache_next s) (local_queue s) (loopback_free s) (n_out s).
Definition set_n_rpl (x : rpl_state) (s : st) : st :=
  mk_node (n_sub s) (n_iv s) x (n_brg s) (dup_cache s) (dup_cache_next s) (msg_cache s)
    (msg_cache_next s) (local_queue s) (loopback_free s) (n_out s).
Definition set_dup (l : list Z) (next : nat) (s : st) : st :=
  mk_node (n_sub s) (n_iv s) (n_rpl s) (n_brg s) l next (msg_cache s)
    (msg_cache_next s) (local_queue s) (loopback_free s) (n_out s).
Definition set_msg (l : list (Z * Z)) (next : nat) (s : st) : st :=
  mk_node (n_sub s) (n_iv s) (n_rpl s) (n_brg s) (dup_cache s) (dup_cache_next s) l
    next (local_queue s) (loopback_free s) (n_out s).
Definition set_local (l : list loopback_buf) (free : nat) (s : st) : st :=
  mk_node (n_sub s) (n_iv s) (n_rpl s) (n_brg s) (dup_cache s) (dup_cache_next s) (msg_cache s)
    (msg_cache_next s) l free (n_out s).
Definition out_op (o : net_out) (s : st) : st :=
  mk_node (n_sub s) (n_iv s) (n_rpl s) (n_brg s) (dup_cache s) (dup_cache_next s) (msg_cache s)
    (msg_cache_next s) (local_queue s) (loopback_free s) (n_out s ++ [o]).
Definition get : M st st := fun s => (Ok s, s).
Definition out (o : net_out) : M st unit := modify (out_op o).

(** A call of the subnets, of the crypto toolbox. *)
Definition in_sub {A} (m : M (subnet_state W) A) : M st A := fun s =>
  let '(r, x) := m (n_sub s) in (r, set_n_sub x s).
Definition in_crypto {A} (m : M W A) : M st A := in_sub (crypto_call m).

(** Bytes of a buffer: the header of the PDU in it, and all of it. *)
Definition header (b : bt_buf_simple) : M st (list Z) :=
  checked (mem_read (b_store b) (b_data b) BT_MESH_NET_HDR_LEN).
Definition bytes_of (b : bt_buf_simple) : M st (list Z) :=
  checked (mem_read (b_store b) (b_data b) (b_len b)).

(** ** The caches of received PDUs *)

(** [for (i = hi; i > lo;) if (p(cache[--i])) return true], with [n = hi - lo]. *)
Fixpoint scan_down {A} (p : A -> bool) (l : list A) (lo n : nat) : option bool :=
  match n with
  | O => Some false
  | S n => x ← l !! (lo + n)%nat; if p x then Some true else scan_down p l lo n
  end.

(** The two loops: below [next], then from the end down to it. *)
Definition cache_scan {A} (p : A -> bool) (l : list A) (next : nat) : option bool :=
  scan_down p l 0 next ≫= fun b : bool => if b then Some true else scan_down p l next (length l - next).

(** [next %= ARRAY_SIZE(cache); cache[next++] = x] *)
Definition cache_put {A} (x : A) (l : list A) (next : nat) : list A * nat :=
  let next := (next mod length l)%nat in (<[next := x]> l, S next).

Definition check_dup (data : bt_buf_simple) : M st bool :=
  let tail := bt_buf_simple_tail data in
  a ← checked (mem_read (b_store data) (tail - 4) 4);
  b ← checked (mem_read (b_store data) (tail - 8) 4);
  let val := Z.lxor (sys_get_be32 a) (sys_get_be32 b) in
  s ← get;
  dup ← checked (cache_scan (fun x => x =? val) (dup_cache s) (dup_cache_next s));
  if (dup : bool) then mret true
  else
    let '(l, next) := cache_put val (dup_cache s) (dup_cache_next s) in
    _ ← modify (set_dup l next);
    mret false.

Definition msg_cache_match (pdu : bt_buf_simple) : M st bool :=
  p ← header pdu;
  s ← get;
  checked (cache_scan (fun x => (x.1 =? SRC p) && (x.2 =? Z.land (SEQ p) (BIT_MASK 17)))
             (msg_cache s) (msg_cache_next s)).

(** The bit fields keep 15 and 17 bits. *)
Definition msg_cache_add (rx : bt_mesh_net_rx) : M st unit :=
  s ← get;
  let '(l, next) := cache_put (rx_addr rx mod 2 ^ 15, rx_seq rx mod 2 ^ 17)
                      (msg_cache s) (msg_cache_next s) in
  modify (set_msg l next).

(** ** Joining a network *)

Definition bt_mesh_net_create (PRIV_BEACONS : bool) (idx flags : Z) (key : bt_mesh_key) (iv_index : Z)
  : M st Z :=
  err ← in_sub (if BT_MESH_KEY_REFRESH flags
                then bt_mesh_subnet_set (c_gatt_proxy cfg) PRIV_BEACONS idx BT_MESH_KR_PHASE_2 None (Some key)
                else bt_mesh_subnet_set (c_gatt_proxy cfg) PRIV_BEACONS idx BT_MESH_KR_NORMAL (Some key) None);
  if negb (err =? 0) then mret err
  else
    _ ← modify (fun s => set_msg (replicate (length (msg_cache s)) (0, 0)) 0 s);
    _ ← modify (fun s => set_n_iv (net_create_iv (c_settings cfg) idx flags iv_index (n_iv s)) s);
    mret 0.

(** ** Sending *)

Definition SUBNET_KEY_TX_IDX (sub : bt_mesh_subnet) : bool := kr_phase sub =? BT_MESH_KR_PHASE_2.

(** [keys[SUBNET_KEY_TX_IDX(sub)].msg] *)
Definition tx_cred (sub : bt_mesh_subnet) : bt_mesh_net_cred :=
  msg (if SUBNET_KEY_TX_IDX sub then keys1 sub else keys0 sub).

Definition set_friend_cred (b : bool) (tx : bt_mesh_net_tx) : bt_mesh_net_tx :=
  mk_tx (tx_sub tx) (tx_src tx) (tx_dst tx) (tx_send_ttl tx) (tx_app_idx tx) b.

Definition net_tx_cred_get (tx : bt_mesh_net_tx) : M st (bt_mesh_net_cred * bt_mesh_net_tx) :=
  s ← get;
  let sub := sub_at (tx_sub tx) (n_sub s) in
  mret match lpn_cred env, tx_friend_cred tx with
       | Some (c0, c1), true => (if SUBNET_KEY_TX_IDX sub then c1 else c0, tx)
       | _, _ => (tx_cred sub, set_friend_cred false tx)
       end.

Definition next_seq : M st Z := fun s =>
  let '(q, x) := bt_mesh_next_seq (c_settings cfg) (c_iv_update_test cfg) (c_friend cfg)
                   (c_gatt_proxy cfg) (c_cdb cfg) (c_seq_limit cfg) (c_seq_store_rate cfg)
                   (iv_env env) (n_iv s) in
  (Ok q, set_n_iv x s).

Definition net_header_encode (tx : bt_mesh_net_tx) (nid : Z) (buf : bt_buf_simple) : M st bt_buf_simple :=
  let ctl := tx_app_idx tx =? BT_MESH_KEY_UNUSED in
  if ctl && (bt_buf_simple_tailroom buf <? 8) then fail (- EINVAL)
  else if bt_buf_simple_tailroom buf <? 4 then fail (- EINVAL)
  else
    buf ← checked (bt_buf_simple_push_be16 buf (tx_dst tx));
    buf ← checked (bt_buf_simple_push_be16 buf (tx_src tx));
    q ← next_seq;
    buf ← checked (bt_buf_simple_push_be24 buf q);
    buf ← checked (bt_buf_simple_push_u8 buf
            (if ctl then Z.lor (tx_send_ttl tx) 0x80 else tx_send_ttl tx));
    s ← get;
    checked (bt_buf_simple_push_u8 buf
      (Z.lor nid (Z.shiftl (Z.land (BT_MESH_NET_IVI_TX (n_iv s)) 1) 7))).

Definition net_encrypt (buf : bt_buf_simple) (cred : bt_mesh_net_cred) (iv_index : Z)
    (proxy : bt_mesh_nonce_type) : M st bt_buf_simple :=
  buf ← in_crypto (bt_mesh_net_encrypt (c_proxy cfg) (c_od_priv_proxy_srv cfg) (enc cred) buf iv_index proxy);
  m ← in_crypto (bt_mesh_net_obfuscate (b_store buf) (b_data buf) iv_index (privacy cred));
  mret (set_store m buf).

Definition bt_mesh_net_encode (tx : bt_mesh_net_tx) (buf : bt_buf_simple) (type : bt_mesh_nonce_type)
  : M st bt_buf_simple :=
  '(cred, tx) ← net_tx_cred_get tx;
  buf ← net_header_encode tx (nid cred) buf;
  s ← get;
  net_encrypt buf cred (BT_MESH_NET_IVI_TX (n_iv s)) type.

(** [memcpy] into a block of [LOOPBACK_MAX_PDU_LEN] bytes. *)
Definition net_loopback (tx : bt_mesh_net_tx) (data : list Z) : M st unit :=
  s ← get;
  match loopback_free s with
  | O => fail (- ENOMEM)
  | S free =>
      if LOOPBACK_MAX_PDU_LEN <? zlen data then checked None
      else
        _ ← modify (set_local (local_queue s ++ [mk_loop (tx_sub tx) data]) free);
        out LocalWorkSubmit
  end.

(** What is sent after the loopback; [xmit] is that of the advertiser. *)
Definition net_send_out (xmit : Z) (tx : bt_mesh_net_tx) (cred : bt_mesh_net_cred) (buf : bt_buf_simple)
  : M st unit :=
  if tx_send_ttl tx =? 1 then fail (- EINVAL)
  else
    s ← get;
    buf ← net_encrypt buf cred (BT_MESH_NET_IVI_TX (n_iv s)) BT_MESH_NONCE_NETWORK;
    pdu ← bytes_of buf;
    _ ← (if c_gatt_proxy cfg then out (ProxyRelay pdu (tx_dst tx)) else mret ());
    _ ← (if c_proxy_client cfg then out (ProxyCliRelay pdu) else mret ());
    out (AdvSend xmit pdu).

(** The advertiser is released on every way out; its callback is
    only called here when the message stays in the node. *)
Definition bt_mesh_net_send (tx : bt_mesh_net_tx) (xmit : Z) (buf : bt_buf_simple) : M st unit :=
  '(cred, tx) ← net_tx_cred_get tx;
  buf ← net_header_encode tx (nid cred) buf;
  if fixed_group_match env (tx_dst tx) || has_addr env (tx_dst tx) then
    data ← bytes_of buf;
    r ← attempt (net_loopback tx data);
    if BT_MESH_ADDR_IS_UNICAST (tx_dst tx) || (tx_send_ttl tx =? 1) then
      match r with
      | inl _ => out SendCbFinalize
      | inr err => fail err
      end
    else net_send_out xmit tx cred buf
  else net_send_out xmit tx cred buf.

(** The queue without the PDUs of a subnet; [KEY_ANY] empties it. *)
Definition bt_mesh_net_loopback_clear (idx : Z) (s : st) : st :=
  let drop_it b := (idx =? BT_MESH_KEY_ANY) || (idx =? net_idx (sub_at (lb_sub b) (n_sub s))) in
  set_local (List.filter (fun b => negb (drop_it b)) (local_queue s))
    (loopback_free s + length (List.filter drop_it (local_queue s))) s.

(** ** Receiving *)

(** Updates of the decoding context. *)
Definition rx_set_net_if (x : bt_mesh_net_if) (rx : bt_mesh_net_rx) : bt_mesh_net_rx :=
  mk_rx (rx_sub rx) (rx_addr rx) (rx_recv_dst rx) (rx_recv_ttl rx) (rx_net_idx rx) (rx_seq rx) (rx_old_iv rx)
    (rx_new_key rx) (rx_friend_cred rx) (rx_ctl rx) x (rx_local_match rx) (rx_friend_match rx)
    (rx_send_ttl rx) (rx_app_idx rx).
Definition rx_set_old_iv (x : bool) (rx : bt_mesh_net_rx) : bt_mesh_net_rx :=
  mk_rx (rx_sub rx) (rx_addr rx) (rx_recv_dst rx) (rx_recv_ttl rx) (rx_net_idx rx) (rx_seq rx) x
    (rx_new_key rx) (rx_friend_cred rx) (rx_ctl rx) (rx_net_if rx) (rx_local_match rx) (rx_friend_match rx)
    (rx_send_ttl rx) (rx_app_idx rx).
Definition rx_set_addr (x : Z) (rx : bt_mesh_net_rx) : bt_mesh_net_rx :=
  mk_rx (rx_sub rx) x (rx_recv_dst rx) (rx_recv_ttl rx) (rx_net_idx rx) (rx_seq rx) (rx_old_iv rx)
    (rx_new_key rx) (rx_friend_cred rx) (rx_ctl rx) (rx_net_if rx) (rx_local_match rx) (rx_friend_match rx)
    (rx_send_ttl rx) (rx_app_idx rx).
Definition rx_set_local_match (x : bool) (rx : bt_mesh_net_rx) : bt_mesh_net_rx :=
  mk_rx (rx_sub rx) (rx_addr rx) (rx_recv_dst rx) (rx_recv_ttl rx) (rx_net_idx rx) (rx_seq rx) (rx_old_iv rx)
    (rx_new_key rx) (rx_friend_cred rx) (rx_ctl rx) (rx_net_if rx) x (rx_friend_match rx)
    (rx_send_ttl rx) (rx_app_idx rx).
Definition rx_set_sub (sub : nat) (idx : Z) (rx : bt_mesh_net_rx) : bt_mesh_net_rx :=
  mk_rx (Z.of_nat sub) (rx_addr rx) (rx_recv_dst rx) (rx_recv_ttl rx) idx (rx_seq rx) (rx_old_iv rx)
    (rx_new_key rx) (rx_friend_cred rx) (rx_ctl rx) (rx_net_if rx) (rx_local_match rx) (rx_friend_match rx)
    (rx_send_ttl rx) (rx_app_idx rx).
(** What [bt_mesh_net_cred_find] sets. *)
Definition rx_set_match (m : rx_match) (rx : bt_mesh_net_rx) : bt_mesh_net_rx :=
  mk_rx (Z.of_nat (m_sub m)) (rx_addr rx) (rx_recv_dst rx) (rx_recv_ttl rx) (m_net_idx m) (rx_seq rx)
    (rx_old_iv rx) (m_new_key m) (m_friend_cred m) (rx_ctl rx) (rx_net_if rx) (rx_local_match rx)
    (rx_friend_match rx) (rx_send_ttl rx) (rx_app_idx rx).
(** What [bt_mesh_net_decode] sets from the header. *)
Definition rx_set_header (p : list Z) (rx : bt_mesh_net_rx) : bt_mesh_net_rx :=
  mk_rx (rx_sub rx) (rx_addr rx) (DST p) (TTL p) (rx_net_idx rx) (SEQ p) (rx_old_iv rx)
    (rx_new_key rx) (rx_friend_cred rx) (negb (CTL p =? 0)) (rx_net_if rx) (rx_local_match rx) (rx_friend_match rx)
    (if TTL p =? 0 then 0 else BT_MESH_TTL_DEFAULT) BT_MESH_KEY_UNUSED.

(** The old IV Index was used: its lowest bit differs. *)
Definition old_iv_of (p : list Z) (s : st) : bool := negb (IVI p =? Z.land (iv_index (n_iv s)) 0x01).

(** Returns whether the PDU opens, with what is left in [rx] and [out]. *)
Definition net_decrypt (inb : bt_buf_simple) (cred : bt_mesh_net_cred) (rx : bt_mesh_net_rx)
    (outb : bt_buf_simple) : M st (bool * (bt_mesh_net_rx * bt_buf_simple)) :=
  let proxy := if bool_decide (rx_net_if rx = BT_MESH_NET_IF_PROXY_CFG) then BT_MESH_NONCE_PROXY
               else BT_MESH_NONCE_NETWORK in
  p ← header inb;
  if negb (NID p =? nid cred) then mret (false, (rx, outb))
  else
    s ← get;
    let rx := rx_set_old_iv (old_iv_of p s) rx in
    data ← bytes_of inb;
    outb ← checked (bt_buf_simple_add_mem (bt_buf_simple_reset outb) data);
    let iv := BT_MESH_NET_IVI_RX (n_iv s) (rx_old_iv rx) in
    r ← attempt (in_crypto (bt_mesh_net_obfuscate (b_store outb) (b_data outb) iv (privacy cred)));
    match r with
    | inr _ => mret (false, (rx, outb))
    | inl m =>
        let outb := set_store m outb in
        p ← header outb;
        let rx := rx_set_addr (SRC p) rx in
        if negb (BT_MESH_ADDR_IS_UNICAST (rx_addr rx)) then mret (false, (rx, outb))
        else if has_addr env (rx_addr rx) then mret (false, (rx, outb))
        else
          dup ← (if bool_decide (rx_net_if rx = BT_MESH_NET_IF_ADV) then msg_cache_match outb else mret false);
          if (dup : bool) then mret (false, (rx, outb))
          else
            '(err, outb) ← in_crypto (bt_mesh_net_decrypt (c_proxy cfg) (c_solicitation cfg) (enc cred) outb iv proxy);
            mret (err =? 0, (rx, outb))
    end.

(** [net_decrypt] as the callback of the credential search: a crash ends the
    search and is kept. *)
Definition find_cb (inb : bt_buf_simple) (cred : bt_mesh_net_cred)
    (c : option (bt_mesh_net_rx * bt_buf_simple) * st) : bool * (option (bt_mesh_net_rx * bt_buf_simple) * st) :=
  match c with
  | (None, s) => (true, (None, s))
  | (Some (rx, outb), s) =>
      match net_decrypt inb cred rx outb s with
      | (Ok (b, c'), s') => (b, (Some c', s'))
      | (_, s') => (true, (None, s'))
      end
  end.

Definition cred_find (inb : bt_buf_simple) (rx : bt_mesh_net_rx) (outb : bt_buf_simple)
  : M st (option rx_match * (bt_mesh_net_rx * bt_buf_simple)) := fun s =>
  match bt_mesh_net_cred_find (find_cb inb) (lpn_waiting env) (frnd env) (n_sub s) (Some (rx, outb), s) with
  | (m, (Some c, s')) => (Ok (m, c), s')
  | (_, (None, s')) => (Crash, s')
  end.

Definition bt_mesh_net_decode (inb : bt_buf_simple) (net_if : bt_mesh_net_if) (rx : bt_mesh_net_rx)
    (outb : bt_buf_simple) : M st (bt_mesh_net_rx * bt_buf_simple) :=
  if b_len inb <? BT_MESH_NET_MIN_PDU_LEN then fail (- EINVAL)
  else if BT_MESH_NET_MAX_PDU_LEN <? b_len inb then fail (- EINVAL)
  else
    dup ← (if bool_decide (net_if = BT_MESH_NET_IF_ADV) then check_dup inb else mret false);
    if (dup : bool) then fail (- EINVAL)
    else
      '(m, (rx, outb)) ← cred_find inb (rx_set_net_if net_if rx) outb;
      match m with
      | None => fail (- ENOENT)
      | Some m =>
          p ← header outb;
          let rx := rx_set_header p (rx_set_match m rx) in
          if negb (bool_decide (net_if = BT_MESH_NET_IF_PROXY_CFG)) && (rx_recv_dst rx =? BT_MESH_ADDR_UNASSIGNED)
          then fail (- EBADMSG)
          else _ ← msg_cache_add rx; mret (rx, outb)
      end.

Definition bt_mesh_net_header_parse (buf : bt_buf_simple) (rx : bt_mesh_net_rx) : M st bt_mesh_net_rx :=
  p ← header buf;
  s ← get;
  mret (mk_rx (rx_sub rx) (SRC p) (DST p) (TTL p) (rx_net_idx rx) (SEQ p) (old_iv_of p s)
    (rx_new_key rx) (rx_friend_cred rx) (negb (CTL p =? 0)) (rx_net_if rx) (rx_local_match rx) (rx_friend_match rx)
    (rx_send_ttl rx) (rx_app_idx rx)).

(** ** Relaying and bridging *)

Definition proxy_enabled_here : bool :=
  (gatt_proxy_get env =? FEATURE_ENABLED) || (priv_gatt_proxy_get env =? FEATURE_ENABLED).

Definition relay_to_adv (net_if : bt_mesh_net_if) : bool :=
  match net_if with
  | BT_MESH_NET_IF_ADV => relay_get env =? FEATURE_ENABLED
  | BT_MESH_NET_IF_PROXY => proxy_enabled_here
  | _ => false
  end.

(** Returns [sbuf], whose TTL is rewritten. *)
Definition bt_mesh_net_relay (sbuf : bt_buf_simple) (rx : bt_mesh_net_rx) (bridge : bool) : M st bt_buf_simple :=
  let flooded := bool_decide (rx_net_if rx = BT_MESH_NET_IF_ADV) && negb (rx_friend_cred rx) && negb bridge in
  if rx_recv_ttl rx <=? 1 then mret sbuf
  else if flooded && negb (relay_get env =? FEATURE_ENABLED) && negb proxy_enabled_here then mret sbuf
  else
    let transmit := if flooded then relay_retransmit_get env else net_transmit_get env in
    s ← get;
    match adv_create env (length (n_out s)) with
    | None => mret sbuf
    | Some adv =>
        b1 ← checked (mem_read (b_store sbuf) (b_data sbuf + 1) 1);
        sbuf ← checked (store_at sbuf (b_data sbuf + 1)
                 [Z.lor (Z.land (b1 !!! 0%nat) 0x80) (u8 (rx_recv_ttl rx - 1))]);
        data ← bytes_of sbuf;
        adv ← checked (bt_buf_simple_add_mem adv data);
        let cred := tx_cred (sub_at (Z.to_nat (rx_sub rx)) (n_sub s)) in
        adv ← (if rx_friend_cred rx || bridge then
                 b0 ← checked (mem_read (b_store adv) (b_data adv) 1);
                 checked (store_at adv (b_data adv) [Z.lor (Z.land (b0 !!! 0%nat) 0x80) (nid cred)])
               else mret adv);
        r ← attempt (net_encrypt adv cred (BT_MESH_NET_IVI_RX (n_iv s) (rx_old_iv rx)) BT_MESH_NONCE_NETWORK);
        match r with
        | inr _ => mret sbuf
        | inl adv =>
            pdu ← bytes_of adv;
            _ ← (if c_gatt_proxy cfg && (rx_friend_cred rx || proxy_enabled_here)
                 then out (ProxyRelay pdu (rx_recv_dst rx)) else mret ());
            _ ← (if relay_to_adv (rx_net_if rx) || rx_friend_cred rx || bridge
                 then out (AdvSend transmit pdu) else mret ());
            mret sbuf
        end
    end.

Definition bt_mesh_sbr_check_cb (state : bt_buf_simple_state) (new_net_idx : Z)
    (c : bt_buf_simple * bt_mesh_net_rx) : M st (bt_buf_simple * bt_mesh_net_rx) :=
  let '(sbuf, rx) := c in
  if new_net_idx <? BT_MESH_BRG_CFG_NETIDX_NOMATCH then
    s ← get;
    match bt_mesh_subnet_find (Some (fun sub => net_idx sub =? new_net_idx)) (n_sub s) with
    | None => mret (sbuf, rx)
    | Some i =>
        let rx := rx_set_sub i new_net_idx rx in
        sbuf ← bt_mesh_net_relay (bt_buf_simple_restore sbuf state) rx true;
        mret (sbuf, rx)
    end
  else mret (sbuf, rx).

Fixpoint sbr_loop (state : bt_buf_simple_state) (l : list Z) (c : bt_buf_simple * bt_mesh_net_rx) : M st unit :=
  match l with
  | [] => mret ()
  | idx :: l => c ← bt_mesh_sbr_check_cb state idx c; sbr_loop state l c
  end.

(** From the check that bridging is enabled on. *)
Definition net_bridge (state : bt_buf_simple_state) (buf : bt_buf_simple) (rx : bt_mesh_net_rx) : M st unit :=
  s ← get;
  if negb (bt_mesh_brg_cfg_enable_get (n_brg s)) then mret ()
  else
    let '(replay, _, rpl) := bt_mesh_rpl_check (c_settings cfg) (c_rpl_timeout cfg) rx false true (n_rpl s) in
    _ ← modify (set_n_rpl rpl);
    if replay then mret ()
    else sbr_loop state
           (bt_mesh_brg_cfg_tbl_foreach_subnet (rx_addr rx) (rx_recv_dst rx) (rx_net_idx rx) (n_brg s)) (buf, rx).

(** The transport layer: takes the buffer and the context, returns its status, the
    buffer and the context with [friend_match] set. *)
Context (trans_recv : bt_buf_simple -> bt_mesh_net_rx -> M st (Z * bt_buf_simple * bt_mesh_net_rx)).

(** The entries the transport layer wants to see again: [cache[--next] = ...]. *)
Definition net_forget : M st unit :=
  s ← get;
  match msg_cache_next s with
  | O => checked None
  | S i =>
      x ← checked (msg_cache s !! i);
      _ ← modify (set_msg (<[i := (BT_MESH_ADDR_UNASSIGNED, x.2)]> (msg_cache s)) i);
      match dup_cache_next s with
      | O => checked None
      | S j => _ ← checked (dup_cache s !! j); modify (set_dup (<[j := 0]> (dup_cache s)) j)
      end
  end.

Definition empty_rx : bt_mesh_net_rx :=
  mk_rx 0 0 0 0 0 0 false false false false BT_MESH_NET_IF_ADV false false 0 0.

(** From the call of the transport layer on. *)
Definition net_deliver (state : bt_buf_simple_state) (buf : bt_buf_simple) (rx : bt_mesh_net_rx) : M st unit :=
  '(err, buf, rx) ← trans_recv buf rx;
  if err =? - EAGAIN then net_forget
  else if err =? - EBADMSG then mret ()
  else
    buf ← (if negb (BT_MESH_ADDR_IS_UNICAST (rx_recv_dst rx)) || (negb (rx_local_match rx) && negb (rx_friend_match rx))
           then bt_mesh_net_relay (bt_buf_simple_restore buf state) rx false
           else mret buf);
    if c_brg_cfg_srv cfg then net_bridge state buf rx else mret ().

Definition bt_mesh_net_recv (data : bt_buf_simple) (net_if : bt_mesh_net_if) : M st unit :=
  s ← get;
  if negb (provisioned (n_iv s)) then mret ()
  else
    let buf := mk_buf (replicate (Z.to_nat BT_MESH_NET_MAX_PDU_LEN) 0) 0 0 BT_MESH_NET_MAX_PDU_LEN in
    r ← attempt (bt_mesh_net_decode data net_if empty_rx buf);
    match r with
    | inr _ => mret ()
    | inl (rx, buf) =>
        _ ← (if c_statistic cfg then out (StatRx net_if) else mret ());
        let state := bt_buf_simple_save buf in
        let rx := rx_set_local_match (fixed_group_match env (rx_recv_dst rx) || has_addr env (rx_recv_dst rx)) rx in
        if c_gatt_proxy cfg && bool_decide (net_if = BT_MESH_NET_IF_PROXY) then
          _ ← out (ProxyAddrAdd (rx_addr rx));
          if (gatt_proxy_get env =? FEATURE_DISABLED) && (priv_gatt_proxy_get env =? FEATURE_DISABLED) &&
             negb (rx_local_match rx)
          then mret ()
          else net_deliver state buf rx
        else net_deliver state buf rx
    end.

(** The context of a looped-back PDU. *)
Definition local_rx (s : st) (b : loopback_buf) : bt_mesh_net_rx :=
  let sub := sub_at (lb_sub b) (n_sub s) in
  let p := lb_data b in
  mk_rx (Z.of_nat (lb_sub b)) (SRC p) (DST p) (TTL p) (net_idx sub) (SEQ p) (old_iv_of p s)
    (SUBNET_KEY_TX_IDX sub) false (negb (CTL p =? 0)) BT_MESH_NET_IF_LOCAL true false 1 BT_MESH_KEY_UNUSED.

(** The work item: takes PDUs from the queue until it is empty.  What the transport
    layer does may queue more, so the loop has fuel; [None] when it runs out. *)
Fixpoint bt_mesh_net_local (fuel : nat) : M st (option unit) := fun s =>
  match fuel with
  | O => (Ok None, s)
  | S fuel =>
      match local_queue s with
      | [] => (Ok (Some ()), s)
      | b :: q =>
          (_ ← modify (set_local q (loopback_free s));
           _ ← trans_recv (bt_buf_simple_init_with_data (lb_data b) (zlen (lb_data b))) (local_rx s b);
           _ ← modify (fun s => set_local (local_queue s) (S (loopback_free s)) s);
           bt_mesh_net_local fuel) s
      end
  end.

End Operations.

(** * The caches as lists *)

(** What a cache holds, the most recent first. *)
Definition window {A} (l : list A) (next : nat) : list A := reverse (take next l) ++ reverse (drop next l).

Definition cache_ok {A} (l : list A) (next : nat) : Prop := (next <= length l)%nat /\ (0 < length l)%nat.

(** Remembering [x] in place of the oldest entry; forgetting the newest. *)
Definition remember {A} (x : A) (w : list A) : list A := x :: take (length w - 1) w.

Lemma window_length {A} (l : list A) next : length (window l next) = length l.
Proof. unfold window. rewrite length_app, !length_reverse, length_take, length_drop. lia. Qed.

Lemma existsb_app_rev {A} (p : A -> bool) x l : existsb p (reverse (l ++ [x])) = p x || existsb p (reverse l).
Proof. by rewrite reverse_app. Qed.

Lemma scan_down_spec {A} (p : A -> bool) (l : list A) lo n :
  (lo + n <= length l)%nat -> scan_down p l lo n = Some (existsb p (reverse (take n (drop lo l)))).
Proof.
  induction n as [|n IH]; intros Hn; cbn [scan_down]; [by rewrite take_0|].
  destruct (lookup_lt_is_Some_2 l (lo + n)) as [x Hx]; [lia|]. rewrite Hx. simpl.
  rewrite (take_S_r _ _ x) by (by rewrite lookup_drop). rewrite existsb_app_rev.
  destruct (p x); [done|]. apply IH. lia.
Qed.

Lemma cache_scan_spec {A} (p : A -> bool) (l : list A) next :
  cache_ok l next -> cache_scan p l next = Some (existsb p (window l next)).
Proof.
  intros [Hn _]. unfold cache_scan, window. rewrite (scan_down_spec p l 0 next) by lia. rewrite drop_0. simpl.
  rewrite existsb_app. destruct (existsb p (reverse (take next l))); simpl; [done|].
  rewrite scan_down_spec by lia. rewrite (take_ge (drop next l)); [done|]. rewrite length_drop. lia.
Qed.

Lemma take_snoc {A} (l : list A) x n : n = length l -> take n (l ++ [x]) = l.
Proof. intros ->. apply take_app_length. Qed.

Lemma cache_put_spec {A} (x : A) (l : list A) next :
  cache_ok l next ->
  let r := cache_put x l next in
  cache_ok r.1 r.2 /\ length r.1 = length l /\ window r.1 r.2 = remember x (window l next).
Proof.
  intros [Hn Hl]. unfold cache_put, cache_ok, remember. cbn [fst snd]. rewrite length_insert, window_length.
  assert (next = length l \/ (next < length l)%nat) as [->|Hlt] by lia.
  - rewrite Nat.Div0.mod_same. split_and!; [lia|lia|done|]. destruct l as [|y t]; [simpl in Hl; lia|].
    unfold window. rewrite firstn_all, drop_all, app_nil_r, reverse_cons. simpl.
    rewrite ?drop_0, ?take_0. rewrite take_snoc; [done|]. rewrite length_reverse. lia.
  - rewrite Nat.mod_small by done. split_and!; [lia|lia|done|]. unfold window.
    destruct (lookup_lt_is_Some_2 l next Hlt) as [y Hy].
    rewrite (take_S_r _ _ x) by (rewrite list_lookup_insert_eq; [done|lia]).
    rewrite take_insert_ge, drop_insert_lt by lia. rewrite reverse_snoc. simpl. f_equal.
    rewrite (drop_S l y next Hy), reverse_cons, app_assoc. rewrite take_snoc; [done|].
    rewrite length_app, !length_reverse, length_take, length_drop. lia.
Qed.

Lemma cache_back_spec {A} (x : A) (l : list A) i :
  cache_ok l (S i) -> cache_ok (<[i := x]> l) i /\ window (<[i := x]> l) i = tail (window l (S i)) ++ [x].
Proof.
  intros [Hn Hl]. unfold cache_ok. rewrite length_insert. split; [lia|]. unfold window.
  destruct (lookup_lt_is_Some_2 l i) as [y Hy]; [lia|].
  rewrite (take_S_r l i y Hy), reverse_snoc, take_insert_ge by lia. simpl.
  rewrite <-app_assoc. f_equal. rewrite (drop_S (<[i:=x]> l) x i) by (rewrite list_lookup_insert_eq; [done|lia]).
  rewrite drop_insert_lt by lia. by rewrite reverse_cons.
Qed.

Lemma existsb_elem {A} `{EqDecision A} (p : A -> bool) x l :
  (forall y, p y = true <-> y = x) -> existsb p l = bool_decide (x ∈ l).
Proof.
  intros Hp. case_bool_decide as Hx.
  - apply existsb_exists. exists x. split; [by apply list_elem_of_In|by apply Hp].
  - apply not_true_iff_false. intros (y & Hy & E)%existsb_exists. apply Hp in E as ->.
    by apply Hx, list_elem_of_In.
Qed.

Section Caches.

Context {W : Type} `{MeshCrypto W}.
Implicit Types s : net_node W.

Definition caches_ok s : Prop :=
  cache_ok (dup_cache s) (dup_cache_next s) /\ cache_ok (msg_cache s) (msg_cache_next s).
Definition dup_window s : list Z := window (dup_cache s) (dup_cache_next s).
Definition msg_window s : list (Z * Z) := window (msg_cache s) (msg_cache_next s).

(** The key of a PDU in either cache: its last two words, its source and the low
    bits of its sequence number. *)
Definition dup_key (pdu : list Z) : Z :=
  let n := length pdu in
  Z.lxor (sys_get_be32 (drop (n - 4) pdu)) (sys_get_be32 (take 4 (drop (n - 8) pdu))).
Definition msg_key (pdu : list Z) : Z * Z := (SRC pdu, SEQ pdu mod 2 ^ 17).

Lemma read_content (b : bt_buf_simple) off n :
  wf b -> 0 <= off -> 0 <= n -> off + n <= b_len b ->
  mem_read (b_store b) (b_data b + off) n = Some (take (Z.to_nat n) (drop (Z.to_nat off) (content b))).
Proof.
  intros [] Ho Hn Hl. rewrite mem_read_some by lia. unfold content, slice. f_equal.
  rewrite skipn_firstn_comm, take_take, drop_drop, <-Z2Nat.inj_add by lia.
  rewrite (Z.add_comm (b_data b)). f_equal. lia.
Qed.

Lemma header_run (b : bt_buf_simple) s :
  wf b -> 9 <= b_len b -> header b s = (Ok (take 9 (content b)), s).
Proof.
  intros Hb Hl. unfold header, BT_MESH_NET_HDR_LEN. pose proof (read_content b 0 9 Hb) as Hr.
  rewrite Z.add_0_r in Hr. by rewrite Hr by lia.
Qed.

Lemma bytes_of_run (b : bt_buf_simple) s : wf b -> bytes_of b s = (Ok (content b), s).
Proof. intros []. unfold bytes_of, content. by rewrite mem_read_some by lia. Qed.

(** The header macros look at the first nine bytes. *)
Lemma header_take (p : list Z) :
  SEQ (take 9 p) = SEQ p /\ SRC (take 9 p) = SRC p /\ DST (take 9 p) = DST p.
Proof.
  unfold SEQ, SRC, DST. rewrite !take_drop_commute, !take_take. done.
Qed.

Lemma check_dup_run data s :
  caches_ok s -> wf data -> 8 <= b_len data ->
  let val := dup_key (content data) in
  check_dup data s =
    if bool_decide (val ∈ dup_window s) then (Ok true, s)
    else (Ok false, set_dup (cache_put val (dup_cache s) (dup_cache_next s)).1
                      (cache_put val (dup_cache s) (dup_cache_next s)).2 s).
Proof.
  intros [Hd _] Hb Hl val. pose proof (content_length data Hb) as Hc.
  unfold check_dup, bt_buf_simple_tail.
  replace (b_data data + b_len data - 4) with (b_data data + (b_len data - 4)) by lia.
  replace (b_data data + b_len data - 8) with (b_data data + (b_len data - 8)) by lia.
  rewrite !read_content by (done || lia).
  unfold mbind at 1 2, M_bind at 1 2, checked at 1 2. cbn [get mbind M_bind].
  change (Z.to_nat 4) with 4%nat.
  replace (Z.to_nat (b_len data - 4)) with (length (content data) - 4)%nat by lia.
  replace (Z.to_nat (b_len data - 8)) with (length (content data) - 8)%nat by lia.
  rewrite (take_ge (drop (length (content data) - 4) _)) by (rewrite length_drop; lia).
  fold (dup_key (content data)). fold val.
  unfold mbind, M_bind, get, checked. rewrite cache_scan_spec by done. fold (dup_window s).
  rewrite (existsb_elem _ val) by (intros y; apply Z.eqb_eq).
  case_bool_decide; [done|]. by destruct (cache_put _ _ _).
Qed.

Lemma msg_cache_match_run pdu s :
  caches_ok s -> wf pdu -> 9 <= b_len pdu ->
  msg_cache_match pdu s = (Ok (bool_decide (msg_key (content pdu) ∈ msg_window s)), s).
Proof.
  intros [_ Hm] Hb Hl. unfold msg_cache_match, mbind, M_bind. rewrite header_run by done.
  unfold get, checked. rewrite cache_scan_spec by done. fold (msg_window s).
  rewrite (existsb_elem _ (msg_key (content pdu))); [done|].
  destruct (header_take (content pdu)) as (-> & -> & _). unfold msg_key, BIT_MASK.
  rewrite Z.land_ones by lia. intros [x y]. simpl. rewrite andb_true_iff, !Z.eqb_eq. naive_solver.
Qed.

Lemma msg_cache_add_run rx s :
  msg_cache_add rx s =
    (Ok (), set_msg (cache_put (rx_addr rx mod 2 ^ 15, rx_seq rx mod 2 ^ 17) (msg_cache s) (msg_cache_next s)).1
              (cache_put (rx_addr rx mod 2 ^ 15, rx_seq rx mod 2 ^ 17) (msg_cache s) (msg_cache_next s)).2 s).
Proof. unfold msg_cache_add, mbind, M_bind, get, modify. by destruct (cache_put _ _ _). Qed.

(** C35: The caches of received PDUs, two rings that are scanned backwards and
    overwritten in a circle, behave as lists of the most recent entries.  A PDU is
    found exactly when its key is among them; otherwise the key takes the place of
    the oldest one.  What the transport layer rejects for now is taken out of both -
    but when nothing is below the index of the first cache, which a PDU from a proxy
    connection may find, the code writes before the array. *)
Theorem net_caches_refine data rx s :
  caches_ok s -> wf data -> 9 <= b_len data ->
  let val := dup_key (content data) in
  (exists s', check_dup data s = (Ok (bool_decide (val ∈ dup_window s)), s') /\ caches_ok s' /\
     msg_window s' = msg_window s /\
     dup_window s' = if bool_decide (val ∈ dup_window s) then dup_window s else remember val (dup_window s)) /\
  msg_cache_match data s = (Ok (bool_decide (msg_key (content data) ∈ msg_window s)), s) /\
  (exists s', msg_cache_add rx s = (Ok (), s') /\ caches_ok s' /\ dup_window s' = dup_window s /\
     msg_window s' = remember (rx_addr rx mod 2 ^ 15, rx_seq rx mod 2 ^ 17) (msg_window s)) /\
  ((0 < msg_cache_next s)%nat -> (0 < dup_cache_next s)%nat ->
     exists s' q, net_forget s = (Ok (), s') /\ caches_ok s' /\
       msg_window s' = tail (msg_window s) ++ [(BT_MESH_ADDR_UNASSIGNED, q)] /\
       dup_window s' = tail (dup_window s) ++ [0]) /\
  (dup_cache_next s = 0%nat -> (net_forget s).1 = Crash).
Proof.
  intros Hok Hb Hl val. pose proof Hok as [Hd Hm]. split_and!.
  - rewrite check_dup_run by (done || lia). fold val.
    destruct (cache_put_spec val _ _ Hd) as (H1 & _ & H3).
    case_bool_decide; (eexists; split; [done|]); split_and!; done.
  - by apply msg_cache_match_run.
  - rewrite msg_cache_add_run. eexists. split; [done|].
    destruct (cache_put_spec (rx_addr rx mod 2 ^ 15, rx_seq rx mod 2 ^ 17) _ _ Hm) as (H1 & _ & H3).
    by split_and!.
  - intros Hmn Hdn. unfold net_forget, mbind, M_bind, get, checked, modify.
    unfold caches_ok, msg_window, dup_window in *.
    destruct (msg_cache_next s) as [|i]; [lia|]. destruct (dup_cache_next s) as [|j]; [lia|].
    destruct (lookup_lt_is_Some_2 (msg_cache s) i) as [x ->]; [destruct Hm; lia|].
    destruct (lookup_lt_is_Some_2 (dup_cache s) j) as [y ->]; [destruct Hd; lia|].
    destruct (cache_back_spec (BT_MESH_ADDR_UNASSIGNED, x.2) _ _ Hm) as [M1 M2].
    destruct (cache_back_spec 0 _ _ Hd) as [D1 D2]. eexists _, x.2. by split_and!.
  - intros Hz. unfold net_forget, mbind, M_bind, get, checked, modify.
    destruct (msg_cache_next s) as [|i]; [done|]. destruct (msg_cache s !! i); [|done]. by rewrite Hz.
Qed.

End Caches.
