(* ===== verification/NetPdu.v ===== *)
(** The network layer over a crypto backend that keeps its promises: which PDUs
    [bt_mesh_net_decode] accepts, that it accepts none twice, what a node reads of
    the PDUs another one sends, and what is relayed. *)

From S2P Require Import Prelude Byteorder BufSimple MeshDefs Rpl Bridge CryptoIf Crypto Subnet NetIv Net.

(** * The search for credentials as a list *)

Section Search.

Context {C : Type} (cb : bt_mesh_net_cred -> C -> bool * C).

(** The credentials of a slot, with what a match leaves. *)
Definition slot_creds (i : nat) (sub : bt_mesh_subnet) (c0 c1 : bt_mesh_net_cred) (fc : bool)
  : list (rx_match * bt_mesh_net_cred) :=
  (if valid (keys0 sub) then [(mk_match i false fc (net_idx sub), c0)] else []) ++
  (if valid (keys1 sub) then [(mk_match i true fc (net_idx sub), c1)] else []).

Fixpoint friend_creds (subs : list bt_mesh_subnet) (l : list friend_slot) : list (rx_match * bt_mesh_net_cred) :=
  match l with
  | [] => []
  | (None, _) :: l => friend_creds subs l
  | (Some i, (c0, c1)) :: l => slot_creds i (subs !!! i) c0 c1 true ++ friend_creds subs l
  end.

Fixpoint subnet_creds (l : list bt_mesh_subnet) (i : nat) : list (rx_match * bt_mesh_net_cred) :=
  match l with
  | [] => []
  | sub :: l =>
      (if used sub then slot_creds i sub (msg (keys0 sub)) (msg (keys1 sub)) false else []) ++ subnet_creds l (S i)
  end.

(** The credentials in the order they are tried. *)
Definition creds {W} (lpn : option (nat * (bt_mesh_net_cred * bt_mesh_net_cred))) (friends : list friend_slot)
    (s : subnet_state W) : list (rx_match * bt_mesh_net_cred) :=
  match lpn with
  | Some (i, (c0, c1)) => slot_creds i (sub_at i s) c0 c1 true
  | None => friend_creds (subnets s) friends ++ subnet_creds (subnets s) 0
  end.

Fixpoint first_cred (l : list (rx_match * bt_mesh_net_cred)) (c : C) : option rx_match * C :=
  match l with
  | [] => (None, c)
  | (m, cred) :: l => let '(ok, c) := cb cred c in if ok then (Some m, c) else first_cred l c
  end.

Lemma first_cred_app l l' c :
  first_cred (l ++ l') c =
    match first_cred l c with (Some m, c) => (Some m, c) | (None, c) => first_cred l' c end.
Proof.
  revert c. induction l as [|[m cred] l IH]; intros c; simpl; [done|].
  destruct (cb cred c) as [[] c']; [done|apply IH].
Qed.

Lemma try_keys_list i sub c0 c1 fc c : try_keys cb i sub c0 c1 fc c = first_cred (slot_creds i sub c0 c1 fc) c.
Proof.
  unfold try_keys, slot_creds. destruct (valid (keys0 sub)), (valid (keys1 sub)); simpl; try done.
  - destruct (cb c0 c) as [[] c']; [done|]. by destruct (cb c1 c') as [[] ?].
  - by destruct (cb c1 c) as [[] ?].
Qed.

Lemma cred_find_list {W} lpn friends (s : subnet_state W) c :
  bt_mesh_net_cred_find cb lpn friends s c = first_cred (creds lpn friends s) c.
Proof.
  unfold bt_mesh_net_cred_find, creds. destruct lpn as [[i [c0 c1]]|]; [apply try_keys_list|].
  rewrite first_cred_app.
  assert (try_friends cb (subnets s) friends c = first_cred (friend_creds (subnets s) friends) c) as ->.
  { revert c. induction friends as [|[[i|] [c0 c1]] l IH]; intros c; simpl; [done| |apply IH].
    rewrite first_cred_app, try_keys_list. destruct (first_cred _ c) as [[m|] c']; [done|apply IH]. }
  destruct (first_cred _ c) as [[m|] c']; [done|]. clear c. rename c' into c.
  generalize O as i. revert c. induction (subnets s) as [|sub l IH]; intros c i; simpl; [done|].
  rewrite first_cred_app. destruct (used sub); simpl; [|apply IH].
  rewrite try_keys_list. destruct (first_cred _ c) as [[m|] c']; [done|apply IH].
Qed.

(** What holds of the callback's state throughout, and after a match. *)
Lemma first_cred_inv (I Q : C -> Prop) l :
  (forall cred c b c', I c -> cb cred c = (b, c') -> I c' /\ (b = true -> Q c')) ->
  forall c m c', I c -> first_cred l c = (m, c') -> I c' /\ (is_Some m -> Q c').
Proof.
  intros Hcb. induction l as [|[m0 cred] l IH]; intros c m c' Hc; simpl.
  - intros [= <- <-]. split; [done|by intros []].
  - destruct (cb cred c) as [[] c1] eqn:E; destruct (Hcb _ _ _ _ Hc E) as [HI HQ].
    + intros [= <- <-]. split; [done|intros _; by apply HQ].
    + by apply IH.
Qed.

End Search.

(** * No message twice *)

Section Once.

Context {W : Type} `{MeshCrypto W}.
Context (cfg : net_cfg) (env : node_env).
Notation st := (net_node W).

(** Calls that change nothing but the state of the backend. *)
Definition frame (s s' : st) : Prop := exists w, s' = set_n_sub (set_crypto w (n_sub s)) s.
Definition framed {A} (m : M st A) : Prop := forall s r s', m s = (r, s') -> frame s s'.

Lemma frame_refl s : frame s s.
Proof. exists (crypto (n_sub s)). by destruct s as [[]]. Qed.
Lemma frame_trans s1 s2 s3 : frame s1 s2 -> frame s2 s3 -> frame s1 s3.
Proof. intros [w1 ->] [w2 ->]. by exists w2. Qed.

Lemma frame_caches s s' :
  frame s s' -> (caches_ok s -> caches_ok s') /\ msg_window s' = msg_window s /\ dup_window s' = dup_window s.
Proof. by intros [w ->]. Qed.

Lemma framed_ret {A} (a : A) : framed (mret a).
Proof. intros s r s' [= <- <-]. apply frame_refl. Qed.
Lemma framed_checked {A} (o : option A) : framed (checked o).
Proof. intros s r s' [= <- <-]. apply frame_refl. Qed.
Lemma framed_get : framed get.
Proof. intros s r s' [= <- <-]. apply frame_refl. Qed.
Lemma framed_crypto {A} (m : M W A) : framed (in_crypto m).
Proof.
  intros s r s'. unfold in_crypto, in_sub, crypto_call. destruct (m (crypto (n_sub s))) as [x w].
  intros [= <- <-]. by exists w.
Qed.
Lemma framed_attempt {A} (m : M st A) : framed m -> framed (attempt m).
Proof.
  intros Hm s r s'. unfold attempt. destruct (m s) as [[] s1] eqn:E; intros [= <- <-]; by eapply Hm.
Qed.
Lemma framed_bind {A B} (m : M st A) (f : A -> M st B) :
  framed m -> (forall a, framed (f a)) -> framed (m ≫= f).
Proof.
  intros Hm Hf s r s'. unfold mbind, M_bind. destruct (m s) as [[a|e|] s1] eqn:E; intros E2;
    [|simplify_eq; by eapply Hm..]. eapply frame_trans; [by eapply Hm|by eapply Hf].
Qed.

#[local] Hint Resolve framed_ret framed_checked framed_get framed_crypto framed_attempt : framed.
Ltac framed := repeat (first [progress eauto with framed | apply framed_bind; [|intros ?] | case_match]).

Lemma net_decrypt_framed inb cred rx outb : framed (net_decrypt cfg env inb cred rx outb).
Proof. unfold net_decrypt, header, bytes_of, msg_cache_match, header. framed. Qed.

(** Decryption leaves the first seven bytes. *)
Lemma net_decrypt_header key buf iv type w err buf' w' :
  bt_mesh_net_decrypt (c_proxy cfg) (c_solicitation cfg) key buf iv type w = (Ok (err, buf'), w') ->
  b_data buf' = b_data buf /\ slice (b_store buf') (b_data buf) 7 = slice (b_store buf) (b_data buf) 7.
Proof.
  unfold bt_mesh_net_decrypt. intros (p & w1 & E1 & E)%bind_inv.
  unfold checked, mem_read in E1. destruct (_ && _) eqn:Hb in E1; [|done]. bool_to_prop.
  apply bind_inv in E as (d & w2 & E2 & E). apply bind_inv in E as (r & w3 & E3 & E).
  destruct r as [plain|e]; [|by injection E as <- <- <-].
  apply bind_inv in E as (b & w4 & E4 & E). injection E as <- <- <-.
  unfold checked in E4. destruct (store_at _ _ _) as [b'|] eqn:Es; [|done]. injection E4 as <- <-.
  unfold store_at in Es. simpl in Es. destruct (mem_write _ _ _) as [m'|] eqn:Em; [|done]. injection Es as <-.
  split; [done|]. simpl. eapply slice_write_before; [..|exact Em]; lia.
Qed.

(** What an opened PDU from the advertising bearer went through. *)
Definition fresh (s : st) (rx : bt_mesh_net_rx) (outb : bt_buf_simple) : Prop :=
  rx_net_if rx = BT_MESH_NET_IF_ADV -> forall h, mem_read (b_store outb) (b_data outb) 9 = Some h ->
  BT_MESH_ADDR_IS_UNICAST (rx_addr rx) = true /\ (rx_addr rx, SEQ h mod 2 ^ 17) ∉ msg_window s.

Lemma seq_prefix (h h' : list Z) : take 7 h = take 7 h' -> SEQ h = SEQ h'.
Proof.
  intros E. unfold SEQ. f_equal. rewrite !take_drop_commute.
  assert (forall l : list Z, take (2 + 3) l = take 5 (take 7 l)) as Ht by (intros l; by rewrite take_take).
  by rewrite (Ht h), (Ht h'), E.
Qed.

Lemma net_decrypt_fresh inb cred rx outb s b rx' outb' s' :
  caches_ok s ->
  net_decrypt cfg env inb cred rx outb s = (Ok (b, (rx', outb')), s') ->
  rx_net_if rx' = rx_net_if rx /\ (b = true -> fresh s rx' outb').
Proof.
  intros Hok. unfold net_decrypt. intros (p & s1 & E1 & E)%bind_inv.
  unfold header, checked in E1. injection E1 as _ <-.
  destruct (negb _) in E; [by injection E as <- <- <- <-|].
  apply bind_inv in E as (x & s1 & E1 & E). injection E1 as <- <-.
  set (rx1 := rx_set_old_iv _ rx) in E. assert (rx_net_if rx1 = rx_net_if rx) as <- by done. clearbody rx1.
  apply bind_inv in E as (data & s1 & E1 & E). unfold bytes_of, checked in E1. injection E1 as _ <-.
  apply bind_inv in E as (o1 & s1 & E1 & E). unfold checked in E1. injection E1 as _ <-.
  apply bind_inv in E as (r & s1 & E1 & E). apply framed_attempt in E1; [|apply framed_crypto].
  destruct r as [m|e]; [|by injection E as <- <- <- <-].
  apply bind_inv in E as (h & s2 & E2 & E). unfold header, checked in E2. injection E2 as E2 <-.
  destruct (mem_read _ _ _) as [h'|] eqn:Eh in E2; [|done]. injection E2 as <-.
  destruct (BT_MESH_ADDR_IS_UNICAST _) eqn:Hu in E; [|by injection E as <- <- <- <-]. cbn [negb] in E.
  destruct (has_addr _ _) in E; [by injection E as <- <- <- <-|].
  apply bind_inv in E as (dup & s2 & E2 & E).
  destruct dup; [by injection E as <- <- <- <-|].
  apply bind_inv in E as ([err o2] & s3 & E3 & E). injection E as <- <- <- <-.
  split; [done|]. intros _ Hif h2 Eh2. split; [done|]. simpl in Hif, Hu |- *.
  rewrite bool_decide_eq_true_2 in E2 by done.
  destruct (frame_caches _ _ E1) as (Hok1 & Hw & _). rewrite <-Hw.
  unfold msg_cache_match, header in E2. simpl in E2. apply bind_inv in E2 as (h3 & s4 & E4 & E2).
  unfold checked in E4. simpl in Eh. rewrite Eh in E4. injection E4 as <- <-.
  apply bind_inv in E2 as (s5 & s6 & E4 & E2). injection E4 as <- <-. unfold checked in E2.
  rewrite cache_scan_spec in E2 by (apply Hok1, Hok). fold (msg_window s1) in E2. injection E2 as E2 <-.
  assert (SEQ h2 = SEQ h') as ->.
  { unfold in_crypto, in_sub, crypto_call in E3.
    destruct (bt_mesh_net_decrypt _ _ _ _ _ _ _) as [r3 w3] eqn:Ed in E3. injection E3 as -> _.
    apply net_decrypt_header in Ed as [Hd Hs]. simpl in Hd, Hs. rewrite Hd in Eh2.
    apply seq_prefix. unfold mem_read in Eh, Eh2. case_if_in Eh; [|done]. case_if_in Eh2; [|done].
    injection Eh as <-. injection Eh2 as <-. unfold slice in *. rewrite !take_take.
    by change (Z.to_nat 7) with 7%nat in Hs. }
  intros Hin. apply list_elem_of_In in Hin. apply not_true_iff_false in E2. apply E2.
  apply existsb_exists. eexists. split; [exact Hin|]. simpl. rewrite Z.eqb_refl.
  unfold BIT_MASK. rewrite Z.land_ones by lia. by rewrite Z.eqb_refl.
Qed.

Lemma cred_find_framed inb rx outb : framed (cred_find cfg env inb rx outb).
Proof.
  intros s r s'. unfold cred_find. rewrite cred_find_list.
  destruct (first_cred _ _ _) as [m [c s1]] eqn:E.
  apply (first_cred_inv (find_cb cfg env inb) (fun c => frame s c.2) (fun _ => True)) in E as [Hf _].
  - destruct c; by intros [= <- <-].
  - intros cred [[[rx0 out0]|] s0] b c' Hf0; simpl; [|by intros [= <- <-]].
    destruct (net_decrypt cfg env inb cred rx0 out0 s0) as [[[b1 c1]|e|] s2] eqn:En; intros [= <- <-];
      (split; [eapply frame_trans; [exact Hf0|by eapply net_decrypt_framed]|done]).
  - apply frame_refl.
Qed.

Lemma cred_find_fresh inb rx outb s m rx' outb' s' :
  caches_ok s -> cred_find cfg env inb rx outb s = (Ok (m, (rx', outb')), s') ->
  frame s s' /\ rx_net_if rx' = rx_net_if rx /\ (is_Some m -> fresh s rx' outb').
Proof.
  intros Hok. unfold cred_find. rewrite cred_find_list.
  set (I := fun c : option (bt_mesh_net_rx * bt_buf_simple) * st => frame s c.2 /\
    forall x, c.1 = Some x -> rx_net_if x.1 = rx_net_if rx).
  set (Q := fun c : option (bt_mesh_net_rx * bt_buf_simple) * st => forall x, c.1 = Some x -> fresh s x.1 x.2).
  destruct (first_cred _ _ _) as [m' [c s1]] eqn:E.
  apply (first_cred_inv (find_cb cfg env inb) I Q) in E as [[Hf HI] HQ].
  - destruct c as [[rx1 out1]|]; [|done]. intros [= -> -> -> ->]. split_and!; [done|by apply (HI (rx', outb'))|].
    intros Hm. by apply (HQ Hm (rx', outb')).
  - intros cred [[[rx0 out0]|] s0] b c' [Hf0 HI0]; simpl; [|intros [= <- <-]; by repeat split].
    destruct (net_decrypt cfg env inb cred rx0 out0 s0) as [[[b1 [rx1 out1]]|e|] s2] eqn:En; intros [= <- <-];
      (assert (frame s s2) by (eapply frame_trans; [exact Hf0|by eapply net_decrypt_framed]));
      [|by repeat split..].
    destruct (frame_caches _ _ Hf0) as (Hok0 & Hw & _).
    destruct (net_decrypt_fresh _ _ _ _ _ _ _ _ _ (Hok0 Hok) En) as [Hif Hfr]. split.
    + split; [done|]. intros x [= <-]. simpl. rewrite Hif. by apply (HI0 (rx0, out0)).
    + intros Hb x [= <-]. intros Ha h Eh. rewrite <-Hw. by apply Hfr.
  - split; [apply frame_refl|]. by intros x [= <-].
Qed.
Definition quiet_msg (s s' : st) : Prop := caches_ok s' /\ msg_window s' = msg_window s.

Lemma quiet_frame s s' : caches_ok s -> frame s s' -> quiet_msg s s'.
Proof. intros Hok Hf. destruct (frame_caches _ _ Hf) as (H1 & H2 & _). split; auto. Qed.

Lemma net_quiet_trans s1 s2 s3 : quiet_msg s1 s2 -> quiet_msg s2 s3 -> quiet_msg s1 s3.
Proof. intros [_ E] [Hok E2]. split; [done|congruence]. Qed.

Lemma check_dup_msg data s r s' : caches_ok s -> check_dup data s = (r, s') -> quiet_msg s s'.
Proof.
  intros Hok. unfold check_dup, mbind, M_bind, checked, get, modify, mret, M_ret.
  destruct (mem_read _ _ _) as [a|]; [|by intros [= <- <-]].
  destruct (mem_read _ _ _) as [b|]; [|by intros [= <- <-]].
  destruct (cache_scan _ _ _) as [[]|]; [by intros [= <- <-]| |by intros [= <- <-]].
  set (v := Z.lxor _ _). destruct Hok as [Hd Hm]. destruct (cache_put_spec v _ _ Hd) as (H1 & _ & _).
  destruct (cache_put v _ _) as [l n]. by intros [= <- <-].
Qed.

(** The key under which an accepted PDU is remembered. *)
Definition rx_key (rx : bt_mesh_net_rx) : Z * Z := (rx_addr rx mod 2 ^ 15, rx_seq rx mod 2 ^ 17).

Lemma decode_window inb net_if rx outb s r s' :
  caches_ok s -> bt_mesh_net_decode cfg env inb net_if rx outb s = (r, s') ->
  match r with
  | Ok (rx', _) => caches_ok s' /\ msg_window s' = remember (rx_key rx') (msg_window s) /\
      (net_if = BT_MESH_NET_IF_ADV -> 0 <= rx_addr rx' -> rx_key rx' ∉ msg_window s)
  | _ => quiet_msg s s'
  end.
Proof.
  intros Hok. unfold bt_mesh_net_decode.
  destruct (_ <? _); [by intros [= <- <-]|]. destruct (_ <? _); [by intros [= <- <-]|].
  set (first := if bool_decide (net_if = BT_MESH_NET_IF_ADV) then check_dup inb else mret false : M st bool).
  assert (forall r1 s1, first s = (r1, s1) -> quiet_msg s s1) as Hfirst.
  { unfold first. intros r1 s1. case_bool_decide; [by apply check_dup_msg|]. by intros [= <- <-]. }
  unfold mbind at 1, M_bind at 1.
  destruct (first s) as [[[]|e|] s1] eqn:E1; specialize (Hfirst _ _ eq_refl); try by intros [= <- <-].
  pose proof Hfirst as [Hok1 Hw1]. unfold mbind at 1, M_bind at 1.
  destruct (cred_find cfg env inb (rx_set_net_if net_if rx) outb s1) as [r2 s2] eqn:E2.
  pose proof (cred_find_framed _ _ _ _ _ _ E2) as Hf2. pose proof (quiet_frame _ _ Hok1 Hf2) as Hq2.
  assert (quiet_msg s s2) as Hq by (by eapply net_quiet_trans). pose proof Hq as [Hok2 Hw2].
  destruct r2 as [[m [rx2 out2]]|e|]; try by intros [= <- <-].
  apply cred_find_fresh in E2 as (_ & Hif & Hfr); [|done].
  destruct m as [m|]; [|by intros [= <- <-]].
  unfold mbind at 1, M_bind at 1, header, checked.
  destruct (mem_read _ _ _) as [h|] eqn:Eh; [|by intros [= <- <-]].
  destruct (_ && _); [by intros [= <- <-]|].
  set (rx3 := rx_set_header h (rx_set_match m rx2)).
  unfold mbind at 1, M_bind at 1. rewrite msg_cache_add_run. intros [= <- <-].
  destruct (cache_put_spec (rx_key rx3) _ _ (proj2 Hok2)) as (H1 & _ & H3).
  split_and!; [split; [apply Hok2|exact H1]|rewrite <-Hw2; exact H3|].
  intros ->. destruct (Hfr (ltac:(eauto)) Hif h Eh) as [Hu Hn]. intros Ha. rewrite <-Hw1.
  unfold rx_key. cbn [rx3 rx_addr rx_seq rx_set_header rx_set_match] in *.
  apply unicast_range in Hu; [|exact Ha]. by rewrite (Z.mod_small (rx_addr rx2)) by lia.
Qed.

(** PDUs that arrive one after the other, each with the interface it comes from;
    the contexts of those that are accepted. *)
Definition rx_buf : bt_buf_simple :=
  mk_buf (replicate (Z.to_nat BT_MESH_NET_MAX_PDU_LEN) 0) 0 0 BT_MESH_NET_MAX_PDU_LEN.

Fixpoint receive (l : list (bt_mesh_net_if * bt_buf_simple)) (s : st) : list (bt_mesh_net_if * bt_mesh_net_rx) * st :=
  match l with
  | [] => ([], s)
  | (net_if, inb) :: l =>
      let '(r, s) := bt_mesh_net_decode cfg env inb net_if empty_rx rx_buf s in
      let '(acc, s) := receive l s in
      (match r with Ok (rx, _) => [(net_if, rx)] | _ => [] end ++ acc, s)
  end.

Lemma take_cons_window {A} (x : A) l w n :
  n = length w -> take n (l ++ remember x w) = take n ((l ++ [x]) ++ w).
Proof.
  intros ->. rewrite <-app_assoc. simpl. unfold remember.
  rewrite !take_app. f_equal. destruct (length w - length l)%nat as [|k] eqn:E; [done|]. simpl. f_equal.
  rewrite take_take. f_equal. lia.
Qed.

Lemma net_receive_fresh l : forall s,
  caches_ok s ->
  forall j net_if rx, (receive l s).1 !! j = Some (net_if, rx) -> net_if = BT_MESH_NET_IF_ADV -> 0 <= rx_addr rx ->
  rx_key rx ∉ take (length (msg_window s))
    (reverse (take j ((fun x => rx_key x.2) <$> (receive l s).1)) ++ msg_window s).
Proof.
  induction l as [|[net_if0 inb] l IH]; intros s Hok j net_if rx; [by destruct j|]. cbn [receive].
  destruct (bt_mesh_net_decode _ _ _ _ _ _ _) as [r s1] eqn:E. apply decode_window in E; [|done].
  destruct (receive l s1) as [acc s2] eqn:E2. simpl.
  destruct r as [[rx0 out0]|e|]; simpl.
  - destruct E as (Hok1 & Hw1 & Hn). destruct j as [|j]; simpl.
    + intros [= <- <-] Ha Hr. rewrite take_ge by lia. by apply Hn.
    + intros Hj Ha Hr. specialize (IH s1 Hok1 j net_if rx). rewrite E2 in IH.
      specialize (IH Hj Ha Hr). rewrite Hw1 in IH. rewrite reverse_cons.
      rewrite <-take_cons_window by done.
      assert (length (remember (rx_key rx0) (msg_window s)) = length (msg_window s)) as <-; [|exact IH].
      destruct Hok as [_ [_ Hl]]. pose proof (window_length (msg_cache s) (msg_cache_next s)) as Hwl.
      fold (msg_window s) in Hwl. unfold remember. simpl. rewrite length_take. lia.
  - destruct E as [Hok1 Hw1]. specialize (IH s1 Hok1 j net_if rx). by rewrite E2, Hw1 in IH.
  - destruct E as [Hok1 Hw1]. specialize (IH s1 Hok1 j net_if rx). by rewrite E2, Hw1 in IH.
Qed.

(** C3: No message is delivered twice.  Whatever the crypto backend and the credentials
    are, of the PDUs that [bt_mesh_net_decode] accepts one after the other, on any
    interfaces, one from the advertising bearer never has the source and the low
    seventeen bits of the sequence number of one of the [CONFIG_BT_MESH_MSG_CACHE_SIZE]
    PDUs accepted before it. *)
Theorem net_accepts_once l s i j net_if rx net_if' rx' :
  caches_ok s -> let acc := (receive l s).1 in
  acc !! i = Some (net_if, rx) -> acc !! j = Some (net_if', rx') ->
  (i < j <= i + length (msg_cache s))%nat -> net_if' = BT_MESH_NET_IF_ADV -> 0 <= rx_addr rx' ->
  rx_addr rx = rx_addr rx' -> rx_seq rx mod 2 ^ 17 <> rx_seq rx' mod 2 ^ 17.
Proof.
  intros Hok acc Hi Hj Hij Ha Hr Eaddr Eseq.
  apply (net_receive_fresh l s Hok j net_if' rx' Hj Ha Hr). fold acc.
  assert (length (msg_window s) = length (msg_cache s)) as -> by apply window_length.
  assert (rx_key rx = rx_key rx') as <- by (unfold rx_key; by rewrite Eaddr, Eseq).
  set (keys := (fun x => rx_key x.2) <$> acc).
  assert (keys !! i = Some (rx_key rx)) as Hk by (unfold keys; by rewrite list_lookup_fmap, Hi).
  apply lookup_lt_Some in Hj as Hlt. assert (length keys = length acc) as Hlen by apply length_fmap.
  apply (list_elem_of_lookup_2 _ (j - 1 - i)). rewrite lookup_take_lt by lia.
  rewrite lookup_app_l by (rewrite length_reverse, length_take; lia).
  rewrite reverse_lookup by (rewrite length_take; lia). rewrite length_take, lookup_take_lt by lia.
  rewrite <-Hk. f_equal. lia.
Qed.

End Once.

(** * Sealed PDUs *)

Section Sealed.

Context {W : Type} `{MeshCryptoLaws W}.
Context (cfg : net_cfg) (env : node_env).
Notation st := (net_node W).

Definition world (s : st) : W := crypto (n_sub s).

(** The raw keys of credentials. *)
Record raw_cred := mk_raw { raw_enc : list Z; raw_priv : list Z }.

Definition cred_keys (w : W) (c : bt_mesh_net_cred) (r : raw_cred) : Prop :=
  (exists t, mc_keys w !! enc c = Some (t, raw_enc r) /\ sealing t = true) /\
  mc_keys w !! privacy c = Some (BT_MESH_KEY_TYPE_ECB, raw_priv r).

(** Calls that leave everything but the inside of a ready backend alone. *)
Definition calm (s s' : st) : Prop :=
  exists w, s' = set_n_sub (set_crypto w (n_sub s)) s /\ mc_keys w = mc_keys (world s) /\ mc_ready w.
Definition runs {A} (m : M st A) (s : st) (v : A) : Prop := exists s', m s = (Ok v, s') /\ calm s s'.

Lemma calm_refl s : mc_ready (world s) -> calm s s.
Proof. intros Hr. exists (world s). split; [|done]. by destruct s as [[]]. Qed.

Lemma calm_keys s s' : calm s s' -> mc_keys (world s') = mc_keys (world s) /\ mc_ready (world s').
Proof. by intros (w & -> & ? & ?). Qed.

Lemma calm_trans s1 s2 s3 : calm s1 s2 -> calm s2 s3 -> calm s1 s3.
Proof.
  intros (w1 & -> & E1 & R1) (w2 & -> & E2 & R2). exists w2. split_and!; [done| |done].
  by rewrite E2.
Qed.

Lemma calm_frame s s' : calm s s' -> frame s s'.
Proof. intros (w & -> & _). by exists w. Qed.

Lemma runs_ret {A} (v : A) s : mc_ready (world s) -> runs (mret v) s v.
Proof. intros Hr. exists s. split; [done|by apply calm_refl]. Qed.

Lemma runs_checked {A} (o : option A) v s : o = Some v -> mc_ready (world s) -> runs (checked o) s v.
Proof. intros -> Hr. exists s. split; [done|by apply calm_refl]. Qed.

Lemma runs_get s : mc_ready (world s) -> runs get s s.
Proof. intros Hr. exists s. split; [done|by apply calm_refl]. Qed.

Lemma runs_bind {A B} (m : M st A) (f : A -> M st B) s a v :
  runs m s a -> (forall s', calm s s' -> runs (f a) s' v) -> runs (m ≫= f) s v.
Proof.
  intros (s1 & E & Hc) Hf. destruct (Hf s1 Hc) as (s2 & E2 & Hc2). exists s2.
  rewrite (bind_ok _ _ _ _ _ E). split; [done|by eapply calm_trans].
Qed.

(** The same, up to a point of the computation. *)
Definition reaches {A} (m g : M st A) (s : st) : Prop := exists s', calm s s' /\ m s = g s'.

Lemma reaches_bind {A B} (m : M st A) (f g : _ -> M st B) s a :
  runs m s a -> (forall s', calm s s' -> reaches (f a) (g a) s') -> reaches (m ≫= f) (g a) s.
Proof.
  intros (s1 & E & Hc) Hf. destruct (Hf s1 Hc) as (s2 & Hc2 & E2). exists s2.
  rewrite (bind_ok _ _ _ _ _ E). split; [by eapply calm_trans|done].
Qed.

Lemma reaches_refl {A} (m : M st A) s : mc_ready (world s) -> reaches m m s.
Proof. intros Hr. exists s. split; [by apply calm_refl|done]. Qed.

Lemma runs_crypto {A} (m : M W A) s v : yields m (world s) v -> runs (in_crypto m) s v.
Proof.
  intros (w & E & Hk & Hr). unfold runs, in_crypto, in_sub, crypto_call. fold (world s). rewrite E.
  eexists. split; [done|]. by exists w.
Qed.

Lemma runs_attempt {A} (m : M st A) s v : runs m s v -> runs (attempt m) s (inl v).
Proof. intros (s' & E & Hc). exists s'. unfold attempt. by rewrite E. Qed.

(** ** Bytes of a buffer *)

Lemma slice_content b off n :
  wf b -> 0 <= off -> 0 <= n -> off + n <= b_len b ->
  slice (b_store b) (b_data b + off) n = take (Z.to_nat n) (drop (Z.to_nat off) (content b)).
Proof.
  intros Hb ???. pose proof (read_content b off n Hb) as Hr. rewrite mem_read_some in Hr by (destruct Hb; lia).
  specialize (Hr ltac:(done) ltac:(done) ltac:(done)). by injection Hr.
Qed.

Lemma content_write b off bs m' :
  wf b -> Forall is_byte bs -> 0 <= off -> off + zlen bs <= b_len b ->
  mem_write (b_store b) (b_data b + off) bs = Some m' ->
  wf (set_store m' b) /\
  content (set_store m' b) = take (Z.to_nat off) (content b) ++ bs ++ drop (Z.to_nat off + length bs) (content b).
Proof.
  intros Hb Hbs Ho Hl Hm.
  destruct (store_at_window b (b_data b + off) bs (set_store m' b)) as (Hw & _); [done|done|by unfold store_at; rewrite Hm|].
  split; [done|]. unfold content at 1. simpl. pose proof Hb as [Hd Hn Hf Hs _ _].
  replace (b_len b) with (off + (zlen bs + (b_len b - off - zlen bs))) by lia.
  rewrite slice_app_split by lia. rewrite (slice_app_split _ (b_data b + off)) by lia. f_equal; [|f_equal].
  - rewrite (slice_write_before (b_store b) (b_data b + off) bs m' (b_data b) off) by (lia || exact Hm).
    pose proof (slice_content b 0 off Hb) as Hc. rewrite Z.add_0_r in Hc. rewrite Hc by lia. done.
  - by eapply slice_write_same.
  - rewrite (slice_write_after (b_store b) (b_data b + off) bs m') by (lia || exact Hm).
    rewrite <-Z.add_assoc, slice_content by (done || lia). rewrite take_ge; [f_equal; lia|].
    rewrite length_drop. pose proof (content_length b Hb). lia.
Qed.

(** ** The cipher, on byte strings *)

Definition mask (rp : list Z) (iv : Z) (p : list Z) : list Z :=
  mc_aes rp (replicate 5 0 ++ sys_put_be32 iv ++ take 7 (drop 7 p)).

(** The six bytes behind the first are hidden. *)
Definition obf (rp : list Z) (iv : Z) (p : list Z) : list Z :=
  take 1 p ++ zip_with Z.lxor (take 6 (drop 1 p)) (mask rp iv p) ++ drop 7 p.

Lemma obf_parts rp iv p :
  (14 <= length p)%nat ->
  length (obf rp iv p) = length p /\ take 1 (obf rp iv p) = take 1 p /\ drop 7 (obf rp iv p) = drop 7 p /\
  take 6 (drop 1 (obf rp iv p)) = zip_with Z.lxor (take 6 (drop 1 p)) (mask rp iv p).
Proof.
  intros Hl. unfold obf. set (z := zip_with _ _ _).
  assert (length z = 6)%nat as Hz
    by (unfold z; rewrite length_zip_with, length_take, length_drop; unfold mask; rewrite mc_aes_length; lia).
  assert (length (take 1 p) = 1)%nat as H1 by (rewrite length_take; lia).
  split_and!.
  - rewrite !length_app, length_drop. lia.
  - by rewrite take_app_length'.
  - rewrite app_assoc, drop_app_length'; [done|]. rewrite length_app. lia.
  - rewrite drop_app_length' by done. by rewrite take_app_length'.
Qed.

Lemma obf_twice rp iv p : (14 <= length p)%nat -> obf rp iv (obf rp iv p) = p.
Proof.
  intros Hl. destruct (obf_parts rp iv p Hl) as (_ & H1 & H2 & H3).
  unfold obf at 1. unfold mask. rewrite H1, H2, H3. fold (mask rp iv p).
  rewrite zip_lxor_twice by (unfold mask; rewrite mc_aes_length, length_take; lia).
  transitivity (take 1 p ++ drop 1 p); [|apply take_drop]. f_equal.
  rewrite <-(take_drop 6 (drop 1 p)) at 2. by rewrite drop_drop.
Qed.

Lemma obf_bytes rp iv p : Forall is_byte p -> Forall is_byte (obf rp iv p).
Proof.
  intros Hp. unfold obf. rewrite !Forall_app. split_and!; [by apply Forall_take| |by apply Forall_drop].
  assert (Forall is_byte (take 6 (drop 1 p))) as Ha by (by apply Forall_take, Forall_drop).
  assert (Forall is_byte (mask rp iv p)) as Hb by apply mc_aes_bytes. revert Hb.
  generalize (mask rp iv p). induction Ha as [|x l Hx Hl IH]; intros [|y m] Hb; simpl; try constructor;
    apply Forall_cons in Hb as [??]; auto with ob.
Qed.

Lemma obfuscate_run b rp iv :
  wf b -> 14 <= b_len b ->
  exists m', (forall w k, mc_keys w !! k = Some (BT_MESH_KEY_TYPE_ECB, rp) -> mc_ready w ->
      yields (bt_mesh_net_obfuscate (b_store b) (b_data b) iv k) w m') /\
    wf (set_store m' b) /\ content (set_store m' b) = obf rp iv (content b).
Proof.
  intros Hb Hl. pose proof (content_length b Hb) as Hc. pose proof (content_bytes b Hb) as Hby.
  destruct (obfuscated_zip rp iv (b_store b) (b_data b)) as [Hz Hzl]; [apply Hb|destruct Hb; lia|].
  assert (obfuscated rp iv (b_store b) (b_data b) =
    zip_with Z.lxor (take 6 (drop 1 (content b))) (mask rp iv (content b))) as Eo.
  { rewrite Hz. unfold pecb, mask. rewrite !slice_content by (done || lia). done. }
  eassert (mem_write (b_store b) (b_data b + 1) (obfuscated rp iv (b_store b) (b_data b)) = Some _) as Em
    by (apply mem_write_some; destruct Hb; lia).
  eexists. split_and!.
  - intros w k Hk Hr. destruct (obfuscate_yields w k rp (b_store b) (b_data b) iv) as (m' & Em' & Hy);
      [done|done|apply Hb|destruct Hb; lia|]. rewrite Em in Em'. by injection Em' as <-.
  - eapply content_write; [done| |..|exact Em]; [|lia|lia].
    rewrite Eo. destruct (obf_parts rp iv (content b)) as (_ & _ & _ & <-); [lia|].
    by apply Forall_take, Forall_drop, obf_bytes.
  - edestruct (content_write b 1 (obfuscated rp iv (b_store b) (b_data b))) as [_ Hcw]; [exact Hb| |lia|lia|exact Em|].
    + rewrite Eo. destruct (obf_parts rp iv (content b)) as (_ & _ & _ & <-); [lia|].
      by apply Forall_take, Forall_drop, obf_bytes.
    + rewrite Hcw, Eo. unfold obf. f_equal. f_equal. f_equal. rewrite <-Eo. lia.
Qed.

(** A PDU in the clear and as it is sent. *)
Definition seal (re : list Z) (nonce : list Z) (p : list Z) : list Z :=
  take 7 p ++ mc_seal re nonce [] (drop 7 p) (NET_MIC_LEN (take 7 p)).
Definition sealed (r : raw_cred) (iv : Z) (p : list Z) : list Z :=
  obf (raw_priv r) iv (seal (raw_enc r) (create_net_nonce (take 7 p) iv) p).

Definition mic_len (p : list Z) : Z := NET_MIC_LEN (take 7 p).

Lemma mic_len_or p : mic_len p = 4 \/ mic_len p = 8.
Proof. apply net_mic. Qed.

Lemma seal_length re nonce p : (7 <= length p)%nat -> zlen (seal re nonce p) = zlen p + mic_len p.
Proof.
  intros Hl. unfold seal. rewrite length_app, Nat2Z.inj_add, mc_seal_length, length_take, length_drop
    by (destruct (mic_len_or p); unfold mic_len in *; lia).
  unfold mic_len. lia.
Qed.

Lemma take7_content b : wf b -> 7 <= b_len b -> slice (b_store b) (b_data b) 7 = take 7 (content b).
Proof.
  intros Hb Hl. pose proof (slice_content b 0 7 Hb) as Hs. rewrite Z.add_0_r in Hs. by rewrite Hs by lia.
Qed.

(** Sending a PDU: what [net_encrypt] leaves in the buffer. *)
Lemma net_encrypt_run b cred r iv s :
  cred_keys (world s) cred r -> mc_ready (world s) -> wf b -> 10 <= b_len b ->
  b_data b + b_len b + mic_len (content b) <= b_size b ->
  exists b', runs (net_encrypt cfg b cred iv BT_MESH_NONCE_NETWORK) s b' /\
    wf b' /\ content b' = sealed r iv (content b).
Proof.
  intros [(t & Hk & Ht) Hp] Hr Hb Hl Hroom. pose proof (content_length b Hb) as Hc.
  assert (net_pdu_mic b = mic_len (content b)) as Hmic
    by (unfold net_pdu_mic, mic_len; rewrite take7_content by (done || lia); done).
  assert (0 <= mic_len (content b)) by (destruct (mic_len_or (content b)); lia).
  destruct (net_encrypt_yields (c_proxy cfg) (c_od_priv_proxy_srv cfg) (world s) (enc cred) t (raw_enc r) b iv
    BT_MESH_NONCE_NETWORK) as (m1 & Em & Hb1 & Hy); [done..|lia|by rewrite Hmic|].
  set (b1 := mk_buf _ _ _ _) in *.
  assert (content b1 = seal (raw_enc r) (create_net_nonce (take 7 (content b)) iv) (content b)) as Hc1.
  { assert (net_sealed (c_proxy cfg) (c_od_priv_proxy_srv cfg) (raw_enc r) b iv BT_MESH_NONCE_NETWORK =
      mc_seal (raw_enc r) (create_net_nonce (take 7 (content b)) iv) [] (drop 7 (content b)) (mic_len (content b))) as Es.
    { unfold net_sealed, nonce_for. cbn [is_proxy is_solicitation]. rewrite !andb_false_r. rewrite take7_content by (done || lia).
      rewrite slice_content by (done || lia). rewrite (take_ge (drop _ _)); [done|]. rewrite length_drop. lia. }
    pose proof (net_sealed_length (c_proxy cfg) (c_od_priv_proxy_srv cfg) (raw_enc r) b iv BT_MESH_NONCE_NETWORK Hb ltac:(lia)) as Hsl.
    unfold content. simpl. replace (b_len b + net_pdu_mic b) with (7 + (b_len b - 7 + net_pdu_mic b)) by lia.
    rewrite slice_app_split by (destruct Hb; lia). unfold seal. f_equal.
    - rewrite (slice_write_before (b_store b) (b_data b + 7) _ m1 (b_data b) 7) by (exact Em || (destruct Hb; lia)).
      by apply take7_content; [|lia].
    - rewrite <-Hsl. etransitivity; [by eapply slice_write_same|exact Es]. }
  assert (14 <= b_len b1) as Hl1 by (simpl; destruct (mic_len_or (content b)); lia).
  destruct (obfuscate_run b1 (raw_priv r) iv) as (m2 & Hy2 & Hw2 & Hc2); [done..|].
  exists (set_store m2 b1). split; [|split; [done|by rewrite Hc2, Hc1]].
  eapply runs_bind; [by apply runs_crypto|]. intros s1 Hs1. destruct (calm_keys _ _ Hs1) as [Hk1 Hr1].
  eapply runs_bind; [apply runs_crypto, Hy2; [by rewrite Hk1|done]|].
  intros s2 Hs2. apply runs_ret. by apply (calm_keys _ _ Hs2).
Qed.

(** ** Opening a PDU *)

Definition nonce_type (net_if : bt_mesh_net_if) : bt_mesh_nonce_type :=
  if bool_decide (net_if = BT_MESH_NET_IF_PROXY_CFG) then BT_MESH_NONCE_PROXY else BT_MESH_NONCE_NETWORK.

(** The IV Index a PDU is opened with. *)
Definition rx_iv (s : st) (c : list Z) : Z := BT_MESH_NET_IVI_RX (n_iv s) (old_iv_of c s).

(** What the credentials with raw keys [r] make of a PDU whose NID they have. *)
Definition open_with (s : st) (net_if : bt_mesh_net_if) (r : raw_cred) (c : list Z) : option (list Z) :=
  let p := obf (raw_priv r) (rx_iv s c) c in
  if negb (BT_MESH_ADDR_IS_UNICAST (SRC p)) || has_addr env (SRC p) ||
     (bool_decide (net_if = BT_MESH_NET_IF_ADV) && bool_decide (msg_key p ∈ msg_window s))
  then None
  else
    plain ← mc_open (raw_enc r)
              (nonce_for (c_proxy cfg) (c_solicitation cfg) (nonce_type net_if) (take 7 p) (rx_iv s c)) []
              (drop 7 p) (mic_len p);
    Some (take 7 p ++ plain).

Lemma open_with_frame s s' net_if r c : frame s s' -> open_with s' net_if r c = open_with s net_if r c.
Proof. by intros [w ->]. Qed.

Lemma src_take7 (p x : list Z) : (7 <= length p)%nat -> SRC (take 7 p ++ x) = SRC p.
Proof.
  intros Hl. unfold SRC. f_equal. rewrite drop_app_le by (rewrite length_take; lia).
  rewrite take_app_le by (rewrite length_drop, length_take; lia). rewrite !take_drop_commute, take_take. done.
Qed.

Lemma lookup_total_take (l : list Z) i n : (i < n)%nat -> take n l !!! i = l !!! i.
Proof. intros Hi. rewrite !list_lookup_total_alt, lookup_take_lt by done. done. Qed.

(** What a failed attempt may leave in the context and the buffer. *)
Definition tried (rx rx' : bt_mesh_net_rx) (outb outb' : bt_buf_simple) : Prop :=
  (exists o a, rx' = rx_set_addr a (rx_set_old_iv o rx)) /\ wf outb' /\ b_size outb' = b_size outb.

Lemma reset_wf b : wf b -> wf (bt_buf_simple_reset b).
Proof. intros []. split; simpl; auto; lia. Qed.

Lemma copy_into outb data :
  wf outb -> Forall is_byte data -> zlen data <= b_size outb ->
  exists o, bt_buf_simple_add_mem (bt_buf_simple_reset outb) data = Some o /\ wf o /\ content o = data /\
    b_size o = b_size outb.
Proof.
  intros Hb Hd Hl. pose proof (reset_wf outb Hb) as Hr.
  pose proof (add_mem_refines (bt_buf_simple_reset outb) data Hr Hd) as Href.
  assert (view_of (bt_buf_simple_reset outb) = mk_view 0 [] (b_size outb)) as Hv0
    by (unfold view_of; simpl; f_equal; lia).
  rewrite Hv0 in Href. unfold view_add in Href. cbn [v_room v_bytes v_head] in Href.
  rewrite (proj2 (Z.leb_le _ _)) in Href by lia. simpl in Href.
  destruct (bt_buf_simple_add_mem _ _) as [o|]; [|done]. simpl in Href.
  destruct Href as (_ & Hw & Hv). exists o. unfold view_of in Hv. injection Hv as H1 H2 H3.
  split_and!; [done|done|done|]. pose proof (content_length o Hw). rewrite H2 in *. lia.
Qed.

Lemma net_decrypt_run inb cred r rx outb s :
  caches_ok s -> mc_ready (world s) -> cred_keys (world s) cred r ->
  wf inb -> BT_MESH_NET_MIN_PDU_LEN <= b_len inb <= BT_MESH_NET_MAX_PDU_LEN ->
  wf outb -> BT_MESH_NET_MAX_PDU_LEN <= b_size outb ->
  let c := content inb in
  exists b rx' outb', runs (net_decrypt cfg env inb cred rx outb) s (b, (rx', outb')) /\ tried rx rx' outb outb' /\
    match (if NID c =? nid cred then open_with s (rx_net_if rx) r c else None) with
    | Some q => b = true /\ content outb' = q /\ rx' = rx_set_addr (SRC q) (rx_set_old_iv (old_iv_of c s) rx)
    | None => b = false
    end.
Proof.
  intros Hok Hr Hkeys Hin Hlen Hout Hsize c. pose proof (content_length inb Hin) as Hc. fold c in Hc.
  unfold BT_MESH_NET_MIN_PDU_LEN, BT_MESH_NET_MAX_PDU_LEN, BT_MESH_NET_HDR_LEN in *.
  assert (tried rx rx outb outb) as Htr.
  { split_and!; [|done|done]. exists (rx_old_iv rx), (rx_addr rx). by destruct rx. }
  assert (take 9 c !!! 0%nat = c !!! 0%nat) as H0c by (apply lookup_total_take; lia).
  destruct (NID c =? nid cred) eqn:Hnid.
  2:{ exists false, rx, outb. split_and!; [|done|done]. unfold net_decrypt.
      eapply runs_bind; [eexists; split; [apply header_run; [done|lia]|by apply calm_refl]|]. intros s1 Hs1.
      fold c. unfold NID in *. rewrite H0c, Hnid. cbn [negb]. apply runs_ret, (calm_keys _ _ Hs1). }
  destruct (copy_into outb c Hout) as (o1 & Eo1 & Hwo1 & Hco1 & Hso1); [by apply content_bytes|lia|].
  pose proof (content_length o1 Hwo1) as Hlo1. rewrite Hco1 in Hlo1.
  destruct (obfuscate_run o1 (raw_priv r) (rx_iv s c)) as (m2 & Hy2 & Hw2 & Hc2); [done|lia|].
  rewrite Hco1 in Hc2. set (o2 := set_store m2 o1) in *. set (p := obf (raw_priv r) (rx_iv s c) c) in *.
  destruct (obf_parts (raw_priv r) (rx_iv s c) c) as (Hlp & _); [lia|]. fold p in Hlp.
  set (rx1 := rx_set_old_iv (old_iv_of c s) rx). set (rx2 := rx_set_addr (SRC p) rx1).
  assert (tried rx rx2 outb o2) as Htr2
    by (split_and!; [by exists (old_iv_of c s), (SRC p)|done|done]).
  set (rest := (if negb (BT_MESH_ADDR_IS_UNICAST (SRC p)) then mret (false, (rx2, o2))
        else if has_addr env (SRC p) then mret (false, (rx2, o2))
        else
          dup ← (if bool_decide (rx_net_if rx = BT_MESH_NET_IF_ADV) then msg_cache_match o2 else mret false);
          if (dup : bool) then mret (false, (rx2, o2))
          else
            '(err, outb) ← in_crypto (bt_mesh_net_decrypt (c_proxy cfg) (c_solicitation cfg) (enc cred) o2 (rx_iv s c)
                             (nonce_type (rx_net_if rx)));
            mret (err =? 0, (rx2, outb))) : M st (bool * (bt_mesh_net_rx * bt_buf_simple))).
  assert (reaches (net_decrypt cfg env inb cred rx outb) rest s) as (s1 & Hs1 & Es).
  { unfold net_decrypt.
    eapply (reaches_bind _ _ (fun _ => rest)); [eexists; split; [apply header_run; [done|lia]|by apply calm_refl]|]. intros s1 Hs1.
    fold c. unfold NID in *. rewrite H0c, Hnid. cbn [negb].
    eapply (reaches_bind _ _ (fun _ => rest)); [apply runs_get, (calm_keys _ _ Hs1)|]. intros s2 Hs2.
    assert (old_iv_of (take 9 c) s1 = old_iv_of c s) as ->
      by (unfold old_iv_of, IVI; rewrite H0c; by destruct Hs1 as (w & -> & _)).
    eapply (reaches_bind _ _ (fun _ => rest)); [eexists; split; [by apply bytes_of_run|apply calm_refl, (calm_keys _ _ Hs2)]|]. intros s3 Hs3.
    fold c. eapply (reaches_bind _ _ (fun _ => rest)); [apply runs_checked; [exact Eo1|apply (calm_keys _ _ Hs3)]|]. intros s4 Hs4.
    fold rx1. assert (BT_MESH_NET_IVI_RX (n_iv s1) (rx_old_iv rx1) = rx_iv s c) as ->
      by (by destruct Hs1 as (w & -> & _)).
    eassert (calm s s4) as Hc4 by (eapply calm_trans; [|exact Hs4]; eapply calm_trans; [|exact Hs3];
      eapply calm_trans; [exact Hs1|exact Hs2]).
    eapply (reaches_bind _ _ (fun _ => rest)).
    { apply runs_attempt, runs_crypto, Hy2; [|apply (calm_keys _ _ Hc4)].
      rewrite (proj1 (calm_keys _ _ Hc4)). apply Hkeys. }
    intros s5 Hs5. cbv beta iota. fold o2.
    eapply (reaches_bind _ _ (fun _ => rest)); [eexists; split; [apply header_run; [done|simpl; lia]|apply calm_refl, (calm_keys _ _ Hs5)]|].
    intros s6 Hs6. rewrite Hc2. destruct (header_take p) as (_ & -> & _). fold rx2.
    apply reaches_refl, (calm_keys _ _ Hs6). }
  destruct (calm_keys _ _ Hs1) as [Hk1 Hr1]. destruct (frame_caches _ _ (calm_frame _ _ Hs1)) as (Hok1 & Hw1 & _).
  enough (exists b outb' s', rest s1 = (Ok (b, (rx2, outb')), s') /\ calm s s' /\ tried rx rx2 outb outb' /\
    match open_with s (rx_net_if rx) r c with
    | Some q => b = true /\ content outb' = q /\ SRC q = SRC p
    | None => b = false
    end) as (b & outb' & s' & E & Hs' & Ht & Hq).
  { exists b, rx2, outb'. split_and!; [exists s'; by rewrite Es|apply Ht..|].
    destruct (open_with _ _ _ _) as [q|]; [|done]. destruct Hq as (-> & <- & Eq). by rewrite Eq. }
  unfold open_with. fold p. subst rest.
  destruct (BT_MESH_ADDR_IS_UNICAST (SRC p)); cbn [negb orb]; [|by exists false, o2, s1].
  destruct (has_addr env (SRC p)); cbn [orb]; [by exists false, o2, s1|].
  assert ((if bool_decide (rx_net_if rx = BT_MESH_NET_IF_ADV) then msg_cache_match o2 else mret false) s1 =
    (Ok (bool_decide (rx_net_if rx = BT_MESH_NET_IF_ADV) && bool_decide (msg_key p ∈ msg_window s)), s1)) as Edup.
  { destruct (bool_decide (rx_net_if rx = _)); [|done].
    rewrite msg_cache_match_run by (auto || simpl; lia). by rewrite Hc2, Hw1. }
  rewrite (bind_ok _ _ _ _ _ Edup).
  destruct (_ && _); [by exists false, o2, s1|]. destruct Hkeys as [(t & Hke & Hts) _].
  pose proof (content_length o2 Hw2) as Hlo2. rewrite Hc2 in Hlo2.
  assert (net_pdu_mic o2 = mic_len p) as Hmic
    by (unfold net_pdu_mic, mic_len; rewrite take7_content, Hc2 by (done || lia); done).
  pose proof (net_decrypt_cases (c_proxy cfg) (c_solicitation cfg) (world s1) (enc cred) t (raw_enc r) o2 (rx_iv s c)
    (nonce_type (rx_net_if rx))) as Hdec. rewrite Hk1 in Hdec.
  specialize (Hdec Hke Hts Hr1 Hw2 ltac:(destruct (mic_len_or p); lia)).
  assert (net_opened (c_proxy cfg) (c_solicitation cfg) (raw_enc r) o2 (rx_iv s c) (nonce_type (rx_net_if rx)) =
    mc_open (raw_enc r) (nonce_for (c_proxy cfg) (c_solicitation cfg) (nonce_type (rx_net_if rx)) (take 7 p) (rx_iv s c)) []
      (drop 7 p) (mic_len p)) as Eop.
  { unfold net_opened. rewrite take7_content, Hc2 by (done || lia). rewrite slice_content, Hc2 by (done || lia).
    rewrite (take_ge (drop _ _)); [done|]. rewrite length_drop. lia. }
  rewrite Eop in Hdec. destruct (mc_open _ _ _ _ _) as [plain|]; simpl.
  - destruct Hdec as (o3 & Hy & Hw3 & Hd3 & Hl3 & Hs3 & Hc3).
    destruct (runs_crypto _ _ _ Hy) as (s' & E & Hs'). rewrite (bind_ok _ _ _ _ _ E).
    exists true, o3, s'. split_and!; [done|by eapply calm_trans| |done|by rewrite Hc3, Hc2|apply src_take7; lia].
    split_and!; [apply Htr2|done|rewrite Hs3; apply Htr2].
  - destruct Hdec as (e & w' & E & He & Hk' & Hr').
    assert (exists s', in_crypto (bt_mesh_net_decrypt (c_proxy cfg) (c_solicitation cfg) (enc cred) o2 (rx_iv s c)
       (nonce_type (rx_net_if rx))) s1 = (Ok (e, set_len (b_len o2 - net_pdu_mic o2) o2), s') /\ calm s1 s') as (s' & E' & Hs').
    { unfold in_crypto, in_sub, crypto_call. fold (world s1). rewrite E. eexists. split; [done|]. exists w'. by rewrite Hk1. }
    rewrite (bind_ok _ _ _ _ _ E'). exists false, (set_len (b_len o2 - net_pdu_mic o2) o2), s'.
    split_and!; [|by eapply calm_trans| |done].
    + unfold mret, M_ret. do 3 f_equal. apply Z.eqb_neq. lia.
    + split_and!; [apply Htr2| |apply Htr2]. destruct Hw2. split; simpl in *; try done; try lia; destruct (mic_len_or p); lia.
Qed.

(** ** Finding the credentials *)

(** The raw keys of every credential that is tried. *)
Context (raws : bt_mesh_net_cred -> raw_cred).

(** The first credentials that have the NID and open the PDU. *)
Fixpoint first_open (s : st) (net_if : bt_mesh_net_if) (c : list Z) (l : list (rx_match * bt_mesh_net_cred))
  : option (rx_match * list Z) :=
  match l with
  | [] => None
  | (m, cred) :: l =>
      match (if NID c =? nid cred then open_with s net_if (raws cred) c else None) with
      | Some q => Some (m, q)
      | None => first_open s net_if c l
      end
  end.

Definition node_creds (s : st) : list (rx_match * bt_mesh_net_cred) :=
  creds (lpn_waiting env) (frnd env) (n_sub s).

(** A node that can receive: its caches are sound, its backend ready, the keys of its
    credentials in the store. *)
Record can_receive (s : st) : Prop := {
  cr_caches : caches_ok s;
  cr_ready : mc_ready (world s);
  cr_keys : Forall (fun x => cred_keys (world s) x.2 (raws x.2)) (node_creds s)
}.

(** The context after the first match. *)
Definition found_rx (s : st) (c q : list Z) (rx : bt_mesh_net_rx) : bt_mesh_net_rx :=
  rx_set_addr (SRC q) (rx_set_old_iv (old_iv_of c s) rx).

Lemma first_cred_run inb s rx0 l :
  caches_ok s -> wf inb -> BT_MESH_NET_MIN_PDU_LEN <= b_len inb <= BT_MESH_NET_MAX_PDU_LEN ->
  Forall (fun x => cred_keys (world s) x.2 (raws x.2)) l ->
  forall rx outb s0, calm s s0 -> tried rx0 rx rx_buf outb ->
  let c := content inb in
  exists rx' outb' s', calm s s' /\ tried rx0 rx' rx_buf outb' /\
    first_cred (find_cb cfg env inb) l (Some (rx, outb), s0) =
      (fst <$> first_open s (rx_net_if rx0) c l, (Some (rx', outb'), s')) /\
    match first_open s (rx_net_if rx0) c l with
    | Some (_, q) => content outb' = q /\ rx' = found_rx s c q rx0
    | None => True
    end.
Proof.
  intros Hok Hin Hlen Hl. induction l as [|[m cred] l IH]; intros rx outb s0 Hs0 Htr c; cbn [first_cred first_open].
  { exists rx, outb, s0. by split_and!. }
  apply Forall_cons in Hl as [Hkeys Hl]. simpl in Hkeys.
  destruct (calm_keys _ _ Hs0) as [Hk0 Hr0]. destruct (frame_caches _ _ (calm_frame _ _ Hs0)) as (Hok0 & _).
  destruct Htr as ((o & a & ->) & Hw & Hsz).
  destruct (net_decrypt_run inb cred (raws cred) (rx_set_addr a (rx_set_old_iv o rx0)) outb s0)
    as (b & rx' & outb' & (s1 & E & Hs1) & ((o' & a' & ->) & Hw' & Hsz') & Hres);
    [auto|done|by unfold cred_keys in *; rewrite Hk0|done|done|done|by rewrite Hsz|].
  assert (calm s s1) as Hc1 by (by eapply calm_trans).
  simpl find_cb at 1. unfold find_cb at 1. rewrite E. fold c in Hres. cbn [rx_net_if rx_set_addr rx_set_old_iv] in Hres.
  rewrite (open_with_frame s s0) in Hres by (by apply calm_frame).
  destruct (if NID c =? nid cred then _ else _) as [q|].
  - destruct Hres as (-> & Hcq & Hrx). eexists _, _, s1. split_and!; [done| |done|done|].
    + split_and!; [by eexists _, _|done|by rewrite Hsz'].
    + rewrite Hrx. unfold found_rx. assert (old_iv_of c s0 = old_iv_of c s) as -> by (by destruct Hs0 as (w & -> & _)). done.
  - subst b. apply (IH Hl); [done|]. split_and!; [by eexists _, _|done|by rewrite Hsz'].
Qed.

(** ** Decoding *)

(** The answer of [bt_mesh_net_decode] to the PDU [c]. *)
Definition decode_answer (s : st) (net_if : bt_mesh_net_if) (c : list Z) : bt_mesh_net_rx * list Z + Z :=
  if (zlen c <? BT_MESH_NET_MIN_PDU_LEN) || (BT_MESH_NET_MAX_PDU_LEN <? zlen c) then inr (- EINVAL)
  else if bool_decide (net_if = BT_MESH_NET_IF_ADV) && bool_decide (dup_key c ∈ dup_window s) then inr (- EINVAL)
  else
    match first_open s net_if c (node_creds s) with
    | None => inr (- ENOENT)
    | Some (m, q) =>
        if negb (bool_decide (net_if = BT_MESH_NET_IF_PROXY_CFG)) && (DST q =? BT_MESH_ADDR_UNASSIGNED)
        then inr (- EBADMSG)
        else inl (rx_set_header q (rx_set_match m (found_rx s c q (rx_set_net_if net_if empty_rx))), q)
    end.

Lemma rx_set_header_take (q : list Z) rx : rx_set_header (take 9 q) rx = rx_set_header q rx.
Proof.
  unfold rx_set_header. destruct (header_take q) as (-> & _ & ->).
  unfold TTL, CTL. by rewrite lookup_total_take by lia.
Qed.

Lemma open_length s net_if r c q :
  18 <= zlen c -> open_with s net_if r c = Some q -> zlen q = zlen c - mic_len (obf (raw_priv r) (rx_iv s c) c).
Proof.
  intros Hl. unfold open_with. destruct (_ || _); [done|].
  destruct (mc_open _ _ _ _ _) as [x|] eqn:E; [|done]. simpl. intros [= <-].
  set (p := obf _ _ _) in *. destruct (obf_parts (raw_priv r) (rx_iv s c) c) as (Hp & _); [lia|]. fold p in Hp.
  apply mc_open_ok in E as [Hx _]; rewrite length_drop in *; [|destruct (mic_len_or p); lia].
  rewrite length_app, length_take. destruct (mic_len_or p); lia.
Qed.

(** What a reception leaves alone. *)
Definition kept (s s' : st) : Prop :=
  (n_iv s' = n_iv s /\ n_rpl s' = n_rpl s /\ n_brg s' = n_brg s /\ local_queue s' = local_queue s /\
   n_out s' = n_out s /\ subnets (n_sub s') = subnets (n_sub s) /\ mc_keys (world s') = mc_keys (world s)) /\
  can_receive s'.

Lemma kept_trans s1 s2 s3 : kept s1 s2 -> kept s2 s3 -> kept s1 s3.
Proof.
  intros [(E1 & E2 & E3 & E4 & E5 & E6 & E7) _] [(F1 & F2 & F3 & F4 & F5 & F6 & F7) Hr].
  split; [split_and!; congruence|done].
Qed.

Lemma kept_calm s s' : can_receive s -> calm s s' -> kept s s'.
Proof.
  intros [Hok Hr Hkeys] Hs'. destruct (calm_keys _ _ Hs') as [Hk Hr'].
  destruct Hs' as (w & -> & _). split; [by split_and!|].
  split; [done|done|]. unfold node_creds, cred_keys in *. by rewrite Hk.
Qed.

Lemma kept_dup s l n : can_receive s -> cache_ok l n -> kept s (set_dup l n s).
Proof. intros [[Hd Hm] Hr Hkeys] Hc. split; [done|]. by split. Qed.

Lemma kept_msg s l n : can_receive s -> cache_ok l n -> kept s (set_msg l n s).
Proof. intros [[Hd Hm] Hr Hkeys] Hc. split; [done|]. by split. Qed.

Lemma first_open_same s s' net_if c l :
  n_iv s' = n_iv s -> msg_window s' = msg_window s -> first_open s' net_if c l = first_open s net_if c l.
Proof.
  intros Ei Ew. induction l as [|[m cred] l IH]; simpl; [done|]. rewrite IH.
  unfold open_with, rx_iv, old_iv_of. by rewrite Ei, Ew.
Qed.

Lemma dup_stage inb net_if s :
  can_receive s -> wf inb -> 8 <= b_len inb ->
  exists s', (if bool_decide (net_if = BT_MESH_NET_IF_ADV) then check_dup inb else mret false) s =
      (Ok (bool_decide (net_if = BT_MESH_NET_IF_ADV) && bool_decide (dup_key (content inb) ∈ dup_window s)), s') /\
    kept s s' /\ msg_window s' = msg_window s.
Proof.
  intros Hs Hin Hl. assert (kept s s) as Hself by (by apply kept_calm; [|apply calm_refl, Hs]).
  case_bool_decide; [|by exists s]. rewrite check_dup_run by (done || apply Hs).
  destruct (cache_put_spec (dup_key (content inb)) _ _ (proj1 (cr_caches _ Hs))) as (Hok & _).
  case_bool_decide; (eexists; split; [done|]); [done|]. split; [by apply kept_dup|done].
Qed.

Lemma rx_buf_wf : wf rx_buf.
Proof.
  assert (Forall is_byte (replicate 29 0)) as Hb by (by apply Forall_replicate).
  split; done.
Qed.

Lemma first_open_length s net_if c l m q :
  18 <= zlen c -> first_open s net_if c l = Some (m, q) -> 10 <= zlen q <= zlen c.
Proof.
  intros Hl. induction l as [|[m0 cred] l IH]; simpl; [done|].
  destruct (NID c =? nid cred); [|apply IH].
  destruct (open_with _ _ _ _) as [q0|] eqn:Eo; [|apply IH]. intros [= <- <-].
  apply open_length in Eo; [|done]. set (p := obf _ _ _) in *. destruct (mic_len_or p); lia.
Qed.

Lemma decode_run inb net_if s :
  can_receive s -> wf inb ->
  exists r s', bt_mesh_net_decode cfg env inb net_if empty_rx rx_buf s = (r, s') /\
    match decode_answer s net_if (content inb) with
    | inl (rx', q) => exists outb', r = Ok (rx', outb') /\ wf outb' /\ b_size outb' = BT_MESH_NET_MAX_PDU_LEN /\ content outb' = q
    | inr e => r = Err e
    end /\ kept s s'.
Proof.
  intros Hs Hin. pose proof (content_length inb Hin) as Hc. set (c := content inb) in *.
  assert (kept s s) as Hself by (by apply kept_calm; [|apply calm_refl, Hs]).
  unfold bt_mesh_net_decode, decode_answer. rewrite Hc.
  destruct (Z.ltb_spec (b_len inb) BT_MESH_NET_MIN_PDU_LEN) as [|Hmin]; cbn [orb]; [by eexists _, _|].
  destruct (Z.ltb_spec BT_MESH_NET_MAX_PDU_LEN (b_len inb)) as [|Hmax]; [by eexists _, _|].
  unfold BT_MESH_NET_MIN_PDU_LEN, BT_MESH_NET_HDR_LEN in Hmin.
  destruct (dup_stage inb net_if s) as (s1 & E1 & Hk1 & Hw1); [done|done|lia|]. fold c in E1.
  rewrite (bind_ok _ _ _ _ _ E1). destruct (_ && bool_decide (dup_key c ∈ _)); [by eexists _, _|].
  pose proof Hk1 as [(Ei & _ & _ & _ & _ & Esub & Ekeys) Hs1].
  assert (node_creds s1 = node_creds s) as Ecr by (unfold node_creds, creds, sub_at; by rewrite Esub).
  destruct (first_cred_run inb s1 (rx_set_net_if net_if empty_rx) (node_creds s1)) with
    (rx := rx_set_net_if net_if empty_rx) (outb := rx_buf) (s0 := s1)
    as (rx' & outb' & s2 & Hs2 & Htr & Ef & Hres); [apply Hs1|done|unfold BT_MESH_NET_MIN_PDU_LEN, BT_MESH_NET_HDR_LEN; lia
    |apply Hs1|apply calm_refl, Hs1| |].
  { split_and!; [by exists false, 0|apply rx_buf_wf|done]. }
  fold c in Ef, Hres. cbn [rx_net_if rx_set_net_if] in Ef, Hres.
  rewrite (first_open_same s s1 net_if c) in Ef, Hres by done. rewrite Ecr in Ef, Hres.
  assert (kept s s2) as Hk2 by (eapply kept_trans; [exact Hk1|by apply kept_calm]).
  assert (cred_find cfg env inb (rx_set_net_if net_if empty_rx) rx_buf s1 =
    (Ok (fst <$> first_open s net_if c (node_creds s), (rx', outb')), s2)) as Ecf.
  { unfold cred_find. rewrite cred_find_list. fold (node_creds s1). by rewrite Ecr, Ef. }
  rewrite (bind_ok _ _ _ _ _ Ecf).
  destruct (first_open s net_if c (node_creds s)) as [[m q]|] eqn:Eo; simpl; [|by eexists _, _].
  destruct Hres as [Hq ->]. destruct Htr as (_ & Hwo & Hso).
  apply first_open_length in Eo as Hql; [|lia]. pose proof (content_length outb' Hwo) as Hlo. rewrite Hq in Hlo.
  rewrite (bind_ok _ _ _ _ _ (header_run outb' s2 Hwo ltac:(lia))). rewrite Hq, rx_set_header_take.
  assert (found_rx s1 c q = found_rx s c q) as -> by (unfold found_rx, old_iv_of; by rewrite Ei).
  cbn [rx_recv_dst rx_set_header]. rewrite (proj2 (proj2 (header_take q))). destruct (_ && _); [by eexists _, _|].
  unfold mbind, M_bind. rewrite msg_cache_add_run. eexists _, _. split; [done|]. split; [by exists outb'|].
  eapply kept_trans; [exact Hk2|]. apply kept_msg; [apply Hk2|]. apply cache_put_spec, Hk2.
Qed.

(** C15: What [bt_mesh_net_decode] makes of any PDU.  Too short, too long, or seen a
    moment ago on the advertising bearer: [-EINVAL].  No credentials with its NID open
    it - for each in turn, deobfuscated, from a unicast source that is not a local
    element, not in the message cache, and authentic under the IV Index that its IVI
    bit selects: [-ENOENT].  Without destination, outside the proxy configuration:
    [-EBADMSG].  Otherwise the first credentials that open it give the PDU in the
    clear, whose header the context holds, and it is remembered.  In every case the
    IV Index, the replay list, the subnets and the keys stay as they are, and the node
    can receive the next PDU. *)
Theorem bt_mesh_net_decode_spec inb net_if s :
  can_receive s -> wf inb ->
  exists r s', bt_mesh_net_decode cfg env inb net_if empty_rx rx_buf s = (r, s') /\
    match decode_answer s net_if (content inb) with
    | inl (rx', q) => exists outb', r = Ok (rx', outb') /\ wf outb' /\ content outb' = q /\
        msg_window s' = remember (rx_key rx') (msg_window s)
    | inr e => r = Err e /\ msg_window s' = msg_window s
    end /\ kept s s'.
Proof.
  intros Hs Hin. destruct (decode_run inb net_if s Hs Hin) as (r & s' & E & Hr & Hk).
  pose proof (decode_window cfg env inb net_if empty_rx rx_buf s r s' (cr_caches _ Hs) E) as Hw.
  exists r, s'. split; [done|]. split; [|done].
  destruct (decode_answer _ _ _) as [[rx' q]|e].
  - destruct Hr as (outb' & -> & ? & _ & ?). exists outb'. by split_and!; try apply Hw.
  - subst r. split; [done|apply Hw].
Qed.

End Sealed.
