(* ===== verification/NetFlow.v ===== *)
(** The network layer from node to node: what one node sends another one reads, and
    what a relay makes of it. *)

From S2P Require Import Prelude Byteorder BufSimple MeshDefs Rpl Bridge CryptoIf Crypto Subnet NetIv Net NetPdu.

(** * Headers *)

Record net_header := mk_header {
  h_nid : Z;
  h_ivi : Z;
  h_ctl : bool;
  h_ttl : Z;
  h_seq : Z;
  h_src : Z;
  h_dst : Z
}.

Definition header_ok (h : net_header) : Prop :=
  0 <= h_nid h < 128 /\ 0 <= h_ivi h < 2 /\ 0 <= h_ttl h < 128 /\ 0 <= h_seq h < 2 ^ 24 /\
  0 <= h_src h < 2 ^ 16 /\ 0 <= h_dst h < 2 ^ 16.

(** The nine bytes of a header. *)
Definition header_bytes (h : net_header) : list Z :=
  [Z.lor (h_nid h) (Z.shiftl (h_ivi h) 7); if h_ctl h then Z.lor (h_ttl h) 0x80 else h_ttl h] ++
  sys_put_be24 (h_seq h) ++ sys_put_be16 (h_src h) ++ sys_put_be16 (h_dst h).

Lemma header_bytes_length h : length (header_bytes h) = 9%nat.
Proof. done. Qed.

(** The macros read it back, whatever follows. *)
Lemma header_read h x :
  header_ok h ->
  let p := header_bytes h ++ x in
  NID p = h_nid h /\ IVI p = h_ivi h /\ CTL p = Z.b2z (h_ctl h) /\ TTL p = h_ttl h /\ SEQ p = h_seq h /\
  SRC p = h_src h /\ DST p = h_dst h.
Proof.
  intros (Hn & Hi & Ht & Hq & Hs & Hd). unfold NID, IVI, CTL, TTL. cbn [header_bytes app].
  change ((?a :: ?l) !!! 0%nat) with a. change ((?a :: ?b :: ?l) !!! 1%nat) with b.
  assert (forall n i, 0 <= n < 128 -> 0 <= i < 2 -> Z.land (Z.lor n (Z.shiftl i 7)) 0x7f = n /\
    Z.shiftr (Z.lor n (Z.shiftl i 7)) 7 = i) as Hbits.
  { intros n i Hn' Hi'. assert (n = Z.land n 0x7f) as E by (change 0x7f with (Z.ones 7); rewrite Z.land_ones, Z.mod_small; lia).
    assert (i = 0 \/ i = 1) as [-> | ->] by lia; split.
    - by rewrite Z.lor_0_r.
    - rewrite Z.lor_0_r, Z.shiftr_div_pow2 by lia. apply Z.div_small. lia.
    - rewrite Z.land_lor_distr_l, <-E. apply Z.lor_0_r.
    - rewrite Z.shiftr_lor, (Z.shiftr_div_pow2 n), Z.div_small by lia. done. }
  destruct (Hbits _ _ Hn Hi) as [-> ->]. split_and!; try done.
  - destruct (h_ctl h); [apply (Hbits (h_ttl h) 1); lia|].
    rewrite Z.shiftr_div_pow2 by lia. apply Z.div_small. lia.
  - destruct (h_ctl h); [apply (Hbits (h_ttl h) 1); lia|].
    change 0x7f with (Z.ones 7). rewrite Z.land_ones by lia. apply Z.mod_small. lia.
  - unfold SEQ. change (take 3 (drop 2 _)) with (sys_put_be24 (h_seq h)).
    rewrite (codec_get_put (e := BE) (n := 3)). apply Z.mod_small. lia.
  - unfold SRC. change (take 2 (drop 5 _)) with (sys_put_be16 (h_src h)).
    rewrite (codec_get_put (e := BE) (n := 2)). apply Z.mod_small. lia.
  - unfold DST. change (take 2 (drop 7 _)) with (sys_put_be16 (h_dst h)).
    rewrite (codec_get_put (e := BE) (n := 2)). apply Z.mod_small. lia.
Qed.

Lemma header_mic h x :
  header_ok h -> mic_len (header_bytes h ++ x) = if h_ctl h then 8 else 4.
Proof.
  intros (_ & _ & Ht & _). unfold mic_len, NET_MIC_LEN.
  change (take 7 (header_bytes h ++ x) !!! 1%nat) with (if h_ctl h then Z.lor (h_ttl h) 0x80 else h_ttl h).
  assert (forall b, 0 <= b < 128 -> negb (Z.land (Z.lor b 0x80) 0x80 =? 0) && (Z.land b 0x80 =? 0) = true) as Hb
    by (apply (forall_below 128); vm_compute; reflexivity).
  apply Hb, andb_prop in Ht as [H1 H2]. destruct (h_ctl h); [by rewrite H1|by rewrite H2].
Qed.

Lemma header_bytes_bytes h : header_ok h -> Forall is_byte (header_bytes h).
Proof.
  intros (Hn & Hi & Ht & Hq & Hs & Hd). unfold header_bytes.
  assert (forall n i, 0 <= n < 128 -> 0 <= i < 2 -> is_byte (Z.lor n (Z.shiftl i 7))) as Hb.
  { intros n i Hn' Hi'. assert (i = 0 \/ i = 1) as [-> | ->] by lia; [rewrite Z.lor_0_r; unfold is_byte; lia|].
    rewrite Z.lor_comm, lor_shl_add by lia. unfold is_byte. lia. }
  repeat apply Forall_app_2.
  - apply bytes_cons. split; [by apply Hb|]. apply bytes_cons. split; [|constructor].
    destruct (h_ctl h); [by apply (Hb _ 1)|unfold is_byte; lia].
  - apply (codec_bytes (e := BE) (n := 3) (get := sys_get_be24)).
  - apply (codec_bytes (e := BE) (n := 2) (get := sys_get_be16)).
  - apply (codec_bytes (e := BE) (n := 2) (get := sys_get_be16)).
Qed.

(** * Sending *)

(** One push at the head. *)
Lemma push_run (m : option bt_buf_simple) b bs :
  wf b -> Forall is_byte bs -> zlen bs <= b_data b ->
  m = ('(b, p) ← bt_buf_simple_push b (zlen bs); store_at b p bs) ->
  exists b', m = Some b' /\ wf b' /\ content b' = bs ++ content b /\ b_data b' = b_data b - zlen bs /\
    b_size b' = b_size b.
Proof.
  intros Hb Hbs Hl ->. pose proof (push_refines b bs Hb Hbs) as Href.
  unfold view_push, view_of in Href. cbn [v_head v_bytes v_room] in Href.
  rewrite (proj2 (Z.leb_le _ _)) in Href by lia. simpl in Href.
  destruct ('(b, p) ← bt_buf_simple_push b (zlen bs); store_at b p bs) as [b'|]; [|done].
  destruct Href as (_ & Hw & Hv). unfold view_of in Hv. injection Hv as H1 H2 H3.
  exists b'. split_and!; try done. pose proof (content_length b' Hw) as Hc. rewrite H2, length_app in Hc.
  pose proof (content_length b Hb). lia.
Qed.

Section Send.

Context {W : Type} `{MeshCryptoLaws W}.
Context (cfg : net_cfg) (env : node_env).
Notation st := (net_node W).
Implicit Types s : st.

(** The state once the sequence number is taken. *)
Definition took_seq (s : st) : st := (next_seq cfg env s).2.

Definition sent_header (tx : bt_mesh_net_tx) (cred : bt_mesh_net_cred) (s : st) : net_header :=
  mk_header (nid cred) (Z.land (BT_MESH_NET_IVI_TX (n_iv (took_seq s))) 1) (tx_app_idx tx =? BT_MESH_KEY_UNUSED)
    (tx_send_ttl tx) (seq (n_iv s)) (tx_src tx) (tx_dst tx).

Definition tx_ok (tx : bt_mesh_net_tx) (cred : bt_mesh_net_cred) (s : st) : Prop :=
  0 <= nid cred < 128 /\ 0 <= tx_send_ttl tx < 128 /\ 0 <= seq (n_iv s) < 2 ^ 24 /\
  BT_MESH_ADDR_IS_UNICAST (tx_src tx) = true /\ 0 <= tx_src tx /\ 0 < tx_dst tx < 2 ^ 16.

Lemma next_seq_run (s : st) : next_seq cfg env s = (Ok (seq (n_iv s)), took_seq s).
Proof. unfold took_seq, next_seq, bt_mesh_next_seq. by destruct (_ && has_primary _). Qed.

Lemma land_1 x : 0 <= Z.land x 1 < 2.
Proof. change 1 with (Z.ones 1) at 1 2. rewrite Z.land_ones by lia. apply Z.mod_pos_bound. lia. Qed.

Lemma sent_header_ok tx cred s : tx_ok tx cred s -> header_ok (sent_header tx cred s).
Proof.
  intros (Hn & Ht & Hq & Hu & Hs & Hd). apply unicast_range in Hu; [|done].
  unfold header_ok, sent_header. cbn [h_nid h_ivi h_ttl h_seq h_src h_dst].
  pose proof (land_1 (BT_MESH_NET_IVI_TX (n_iv (took_seq s)))). lia.
Qed.

Definition tx_mic (tx : bt_mesh_net_tx) : Z := if tx_app_idx tx =? BT_MESH_KEY_UNUSED then 8 else 4.

Lemma net_header_run tx cred buf s :
  tx_ok tx cred s -> wf buf -> 9 <= b_data buf -> b_data buf + b_len buf + tx_mic tx <= b_size buf ->
  exists b', net_header_encode cfg env tx (nid cred) buf s = (Ok b', took_seq s) /\ wf b' /\
    content b' = header_bytes (sent_header tx cred s) ++ content buf /\ b_data b' = b_data buf - 9 /\
    b_size b' = b_size buf.
Proof.
  intros Htx Hb Hhead Hroom. pose proof (header_bytes_bytes _ (sent_header_ok _ _ _ Htx)) as Hby.
  destruct Htx as (Hn & Ht & Hq & Hu & Hs & Hd). apply unicast_range in Hu; [|done].
  unfold header_bytes in Hby. apply Forall_app in Hby as [Hby0 Hby]. apply Forall_app in Hby as [Hby1 Hby].
  apply Forall_app in Hby as [Hby2 Hby3]. apply bytes_cons in Hby0 as [Hb0 Hb1]. apply bytes_cons in Hb1 as [Hb1 _].
  cbn in Hb0, Hb1, Hby1, Hby2, Hby3.
  unfold net_header_encode. rewrite tailroom_wf by done. unfold tx_mic in Hroom.
  set (ctl := tx_app_idx tx =? BT_MESH_KEY_UNUSED) in *.
  assert (ctl && (b_size buf - b_data buf - b_len buf <? 8) = false) as ->
    by (destruct ctl; [apply Z.ltb_ge; lia|done]).
  assert ((b_size buf - b_data buf - b_len buf <? 4) = false) as -> by (apply Z.ltb_ge; destruct ctl; lia).
  destruct (push_run (bt_buf_simple_push_be16 buf (tx_dst tx)) buf (sys_put_be16 (tx_dst tx)))
    as (c1 & E1 & Hw1 & Hc1 & Hd1 & Hz1); [done|done|cbn; lia|unfold bt_buf_simple_push_be16, push_put; by rewrite u16_id by lia|].
  destruct (push_run (bt_buf_simple_push_be16 c1 (tx_src tx)) c1 (sys_put_be16 (tx_src tx)))
    as (c2 & E2 & Hw2 & Hc2 & Hd2 & Hz2); [done|done|cbn in *; lia|unfold bt_buf_simple_push_be16, push_put; by rewrite u16_id by lia|].
  destruct (push_run (bt_buf_simple_push_be24 c2 (seq (n_iv s))) c2 (sys_put_be24 (seq (n_iv s))))
    as (c3 & E3 & Hw3 & Hc3 & Hd3 & Hz3); [done|done|cbn in *; lia|unfold bt_buf_simple_push_be24, push_put; by rewrite u32_id by lia|].
  set (b1 := if ctl then Z.lor (tx_send_ttl tx) 0x80 else tx_send_ttl tx) in *.
  destruct (push_run (bt_buf_simple_push_u8 c3 b1) c3 [b1]) as (c4 & E4 & Hw4 & Hc4 & Hd4 & Hz4);
    [done|by constructor|cbn in *; lia|unfold bt_buf_simple_push_u8; by rewrite u8_id|].
  set (b0 := Z.lor (nid cred) (Z.shiftl (Z.land (BT_MESH_NET_IVI_TX (n_iv (took_seq s))) 1) 7)) in *.
  destruct (push_run (bt_buf_simple_push_u8 c4 b0) c4 [b0]) as (c5 & E5 & Hw5 & Hc5 & Hd5 & Hz5);
    [done|by constructor|cbn in *; lia|unfold bt_buf_simple_push_u8; by rewrite u8_id|].
  exists c5. split_and!; [|done| |cbn in *; lia|congruence].
  - unfold checked. rewrite E1. unfold mbind, M_bind. rewrite E2, next_seq_run.
    fold b1. rewrite E3, E4. unfold get. fold b0. by rewrite E5.
  - rewrite Hc5, Hc4, Hc3, Hc2, Hc1. done.
Qed.

Lemma net_tx_cred_plain tx s :
  tx_friend_cred tx = false ->
  net_tx_cred_get env tx s = (Ok (tx_cred (sub_at (tx_sub tx) (n_sub s)), tx), s).
Proof.
  intros Hf. destruct tx. cbn in Hf. subst. unfold net_tx_cred_get, mbind, M_bind, get.
  by destruct (lpn_cred env) as [[? ?]|].
Qed.

(** What [bt_mesh_net_encode] makes of a payload. *)
Lemma net_encode_run tx buf r s :
  tx_friend_cred tx = false ->
  let cred := tx_cred (sub_at (tx_sub tx) (n_sub s)) in
  tx_ok tx cred s -> cred_keys (world s) cred r -> mc_ready (world s) ->
  wf buf -> 9 <= b_data buf -> 1 <= b_len buf -> b_data buf + b_len buf + tx_mic tx <= b_size buf ->
  exists b' s', bt_mesh_net_encode cfg env tx buf BT_MESH_NONCE_NETWORK s = (Ok b', s') /\ wf b' /\
    content b' = sealed r (BT_MESH_NET_IVI_TX (n_iv s')) (header_bytes (sent_header tx cred s) ++ content buf) /\
    n_iv s' = n_iv (took_seq s).
Proof.
  intros Hf cred Htx Hk Hr Hb Hhead Hlen Hroom. unfold bt_mesh_net_encode.
  rewrite (bind_ok _ _ _ _ _ (net_tx_cred_plain tx s Hf)). cbv beta iota. fold cred.
  destruct (net_header_run tx cred buf s Htx Hb Hhead Hroom) as (b1 & E1 & Hw1 & Hc1 & Hd1 & Hz1).
  rewrite (bind_ok _ _ _ _ _ E1). set (s1 := took_seq s) in *.
  assert (world s1 = world s) as Hws.
  { unfold s1, took_seq, next_seq. by destruct (bt_mesh_next_seq _ _ _ _ _ _ _ _ _). }
  set (p := header_bytes (sent_header tx cred s) ++ content buf) in *.
  pose proof (content_length b1 Hw1) as Hl1. rewrite Hc1 in Hl1. unfold p in Hl1.
  rewrite length_app, header_bytes_length in Hl1. pose proof (content_length buf Hb) as Hlb.
  assert (mic_len p = tx_mic tx) as Hmic
    by (unfold p; rewrite header_mic; [done|by apply sent_header_ok]).
  destruct (net_encrypt_run cfg b1 cred r (BT_MESH_NET_IVI_TX (n_iv s1)) s1) as (b2 & (s2 & E2 & Hs2) & Hw2 & Hc2);
    [by rewrite Hws|by rewrite Hws|done|lia|rewrite Hc1, Hmic; lia|].
  exists b2, s2. assert (n_iv s2 = n_iv s1) as Hiv by (by destruct Hs2 as (w & -> & _)).
  split_and!; [|done|by rewrite Hc2, Hc1, Hiv|done]. unfold mbind, M_bind, get. exact E2.
Qed.

(** Whether the node itself is an addressee. *)
Definition is_local (dst : Z) : bool := fixed_group_match env dst || has_addr env dst.

Lemma took_seq_frame s :
  world (took_seq s) = world s /\ n_sub (took_seq s) = n_sub s /\ local_queue (took_seq s) = local_queue s /\
  loopback_free (took_seq s) = loopback_free s /\ n_out (took_seq s) = n_out s /\ n_rpl (took_seq s) = n_rpl s.
Proof. unfold took_seq, next_seq. by destruct (bt_mesh_next_seq _ _ _ _ _ _ _ _ _). Qed.

(** The loopback: whether a block is free decides. *)
Definition looped (tx : bt_mesh_net_tx) (p : list Z) s : st :=
  match loopback_free s with
  | O => s
  | S free => out_op LocalWorkSubmit (set_local (local_queue s ++ [mk_loop (tx_sub tx) p]) free s)
  end.

Lemma net_loopback_run tx p s :
  zlen p <= LOOPBACK_MAX_PDU_LEN ->
  attempt (net_loopback tx p) s =
    (Ok (if (loopback_free s =? 0)%nat then inr (- ENOMEM) else inl ()), looped tx p s).
Proof.
  intros Hl. unfold attempt, net_loopback, looped, mbind, M_bind, get.
  destruct (loopback_free s) as [|free]; [done|]. by rewrite (proj2 (Z.ltb_ge _ _) Hl).
Qed.

(** What sending leaves alone. *)
Definition sent_kept s s' : Prop :=
  n_rpl s' = n_rpl s /\ subnets (n_sub s') = subnets (n_sub s) /\ mc_keys (world s') = mc_keys (world s) /\
  mc_ready (world s').

Lemma net_send_out_run xmit tx cred r buf s :
  tx_send_ttl tx <> 1 -> cred_keys (world s) cred r -> mc_ready (world s) -> wf buf -> 10 <= b_len buf ->
  b_data buf + b_len buf + mic_len (content buf) <= b_size buf ->
  let pdu := sealed r (BT_MESH_NET_IVI_TX (n_iv s)) (content buf) in
  exists s', net_send_out cfg xmit tx cred buf s = (Ok (), s') /\
    n_out s' = n_out s ++ (if c_gatt_proxy cfg then [ProxyRelay pdu (tx_dst tx)] else []) ++
      (if c_proxy_client cfg then [ProxyCliRelay pdu] else []) ++ [AdvSend xmit pdu] /\
    local_queue s' = local_queue s /\ loopback_free s' = loopback_free s /\ n_iv s' = n_iv s /\ sent_kept s s'.
Proof.
  intros Httl Hk Hr Hb Hl Hroom pdu. unfold net_send_out. rewrite (proj2 (Z.eqb_neq _ _) Httl).
  destruct (net_encrypt_run cfg buf cred r (BT_MESH_NET_IVI_TX (n_iv s)) s) as (b2 & (s2 & E2 & Hs2) & Hw2 & Hc2);
    [done..|]. fold pdu in Hc2.
  unfold mbind at 1, M_bind at 1, get at 1. rewrite (bind_ok _ _ _ _ _ E2).
  rewrite (bind_ok _ _ _ _ _ (bytes_of_run b2 s2 Hw2)). rewrite Hc2.
  destruct Hs2 as (w & -> & Hk2 & Hr2). unfold mbind, M_bind, out, modify, mret, M_ret.
  destruct (c_gatt_proxy cfg), (c_proxy_client cfg); (eexists; split; [reflexivity|]);
    (split; [|by split_and!]); cbn [n_out out_op set_n_sub app]; rewrite <-?app_assoc; done.
Qed.

(** The run of a send with credentials [cred], with what it leaves alone. *)
Lemma net_send_cred_run xmit tx0 tx cred buf r s :
  net_tx_cred_get env tx0 s = (Ok (cred, tx), s) ->
  tx_ok tx cred s -> cred_keys (world s) cred r -> mc_ready (world s) ->
  wf buf -> 9 <= b_data buf -> 1 <= b_len buf <= 16 -> b_data buf + b_len buf + tx_mic tx <= b_size buf ->
  let iv := BT_MESH_NET_IVI_TX (n_iv (took_seq s)) in
  let p := header_bytes (mk_header (nid cred) (Z.land iv 1) (tx_app_idx tx =? BT_MESH_KEY_UNUSED)
             (tx_send_ttl tx) (seq (n_iv s)) (tx_src tx) (tx_dst tx)) ++ content buf in
  let room := negb (loopback_free s =? 0)%nat in
  let loop := is_local (tx_dst tx) && room in
  let queued := if loop then [mk_loop (tx_sub tx) p] else [] in
  exists res s', bt_mesh_net_send cfg env tx0 xmit buf s = (res, s') /\ n_iv s' = n_iv (took_seq s) /\ sent_kept s s' /\
    local_queue s' = local_queue s ++ queued /\ (loopback_free s' + length queued = loopback_free s)%nat /\
    if is_local (tx_dst tx) && (BT_MESH_ADDR_IS_UNICAST (tx_dst tx) || (tx_send_ttl tx =? 1)) then
      res = (if room then Ok () else Err (- ENOMEM)) /\
      n_out s' = n_out s ++ (if room then [LocalWorkSubmit; SendCbFinalize] else [])
    else if tx_send_ttl tx =? 1 then res = Err (- EINVAL) /\ n_out s' = n_out s
    else
      let pdu := sealed r iv p in
      res = Ok () /\
      n_out s' = n_out s ++ (if loop then [LocalWorkSubmit] else []) ++
        (if c_gatt_proxy cfg then [ProxyRelay pdu (tx_dst tx)] else []) ++
        (if c_proxy_client cfg then [ProxyCliRelay pdu] else []) ++ [AdvSend xmit pdu].
Proof.
  intros Hcred Htx Hk Hr Hb Hhead Hlen Hroom iv p room loop queued.
  destruct (net_header_run tx cred buf s Htx Hb Hhead Hroom) as (b1 & E1 & Hw1 & Hc1 & Hd1 & Hz1).
  fold iv in Hc1. change (content b1 = p) in Hc1.
  pose proof (content_length b1 Hw1) as Hl1. rewrite Hc1 in Hl1. unfold p in Hl1.
  rewrite length_app, header_bytes_length in Hl1. pose proof (content_length buf Hb) as Hlb.
  assert (mic_len p = tx_mic tx) as Hmic
    by (unfold p; rewrite header_mic; [done|by apply (sent_header_ok tx cred s)]).
  destruct (took_seq_frame s) as (Hws & Hss & Hql & Hqf & Hqo & Hrp). set (s1 := took_seq s) in *.
  unfold bt_mesh_net_send. rewrite (bind_ok _ _ _ _ _ Hcred). cbv beta iota.
  rewrite (bind_ok _ _ _ _ _ E1). fold (is_local (tx_dst tx)).
  assert (forall s2, world s2 = world s -> n_iv s2 = n_iv s1 -> tx_send_ttl tx <> 1 ->
    exists s3, net_send_out cfg xmit tx cred b1 s2 = (Ok (), s3) /\
      n_out s3 = n_out s2 ++ (if c_gatt_proxy cfg then [ProxyRelay (sealed r iv p) (tx_dst tx)] else []) ++
        (if c_proxy_client cfg then [ProxyCliRelay (sealed r iv p)] else []) ++ [AdvSend xmit (sealed r iv p)] /\
      local_queue s3 = local_queue s2 /\ loopback_free s3 = loopback_free s2 /\ n_iv s3 = n_iv s1 /\ sent_kept s2 s3) as Hout.
  { intros s2 Ew Ei Ht. destruct (net_send_out_run xmit tx cred r b1 s2) as (s3 & E3 & Ho & Hq & Hfr & Hi & Hkp);
      [done|by rewrite Ew|by rewrite Ew|done|lia|rewrite Hc1, Hmic; lia|].
    rewrite Ei, Hc1 in Ho. exists s3. split_and!; try done. by rewrite Hi. }
  assert (sent_kept s s1) as Hk1 by (unfold sent_kept; rewrite Hws, Hss; by split_and!).
  assert (forall s2, sent_kept s1 s2 -> sent_kept s s2) as Hks.
  { intros s2 (A1 & A2 & A3 & A4). destruct Hk1 as (B1 & B2 & B3 & _). unfold sent_kept. rewrite A1, A2, A3. by split_and!. }
  assert (mc_ready (world s1)) as Hr1 by apply Hk1.

  assert (tx_send_ttl tx = 1 -> forall s2, net_send_out cfg xmit tx cred b1 s2 = (Err (- EINVAL), s2)) as Hone.
  { intros Ht s2. unfold net_send_out. by rewrite Ht. }
  subst queued loop room. cbv zeta.
  destruct (is_local (tx_dst tx)); cbn [andb].
  - rewrite (bind_ok _ _ _ _ _ (bytes_of_run b1 s1 Hw1)). rewrite Hc1.
    rewrite (bind_ok _ _ _ _ _ (net_loopback_run tx p s1 ltac:(unfold LOOPBACK_MAX_PDU_LEN, BT_MESH_NET_HDR_LEN; unfold p; rewrite length_app, header_bytes_length; lia))).
    unfold looped. rewrite Hqf, Hql.
    destruct (loopback_free s) as [|free] eqn:Efree; cbn [Nat.eqb negb].
    + destruct (BT_MESH_ADDR_IS_UNICAST (tx_dst tx) || (tx_send_ttl tx =? 1)) eqn:Eu.
      * eexists _, s1. split; [reflexivity|]. rewrite !app_nil_r, Hqo, Hql, Hqf. simpl. by split_and!.
      * apply orb_false_iff in Eu as [_ Et]. rewrite Et. apply Z.eqb_neq in Et.
        destruct (Hout s1 Hws eq_refl Et) as (s3 & -> & Ho & Hq & Hfr & Hi & Hkp). eexists _, s3. split; [reflexivity|].
        rewrite Ho, Hq, Hfr, Hqo, Hql, Hqf, app_nil_r. simpl. by split_and!.
    + set (s2 := out_op _ _). destruct (BT_MESH_ADDR_IS_UNICAST (tx_dst tx) || (tx_send_ttl tx =? 1)) eqn:Eu.
      * eexists _, _. split; [reflexivity|].
        cbn [n_out n_iv local_queue loopback_free out_op s2 set_local length]. rewrite Hqo, <-app_assoc. split_and!; try done. lia.
      * apply orb_false_iff in Eu as [_ Et]. rewrite Et. apply Z.eqb_neq in Et.
        destruct (Hout s2) as (s3 & -> & Ho & Hq & Hfr & Hi & Hkp); [exact Hws|done|exact Et|]. eexists _, s3. split; [reflexivity|].
        rewrite Ho, Hq, Hfr.
        cbn [n_out n_iv local_queue loopback_free out_op s2 set_local length]. rewrite Hqo, <-app_assoc. split_and!; try done. lia.
  - destruct (Z.eqb_spec (tx_send_ttl tx) 1) as [Et|Et].
    + rewrite (Hone Et). eexists _, s1. split; [reflexivity|]. rewrite app_nil_r, Hqo, Hql, Hqf. simpl. by split_and!.
    + destruct (Hout s1 Hws eq_refl Et) as (s3 & -> & Ho & Hq & Hfr & Hi & Hkp). eexists _, s3. split; [reflexivity|].
      rewrite Ho, Hq, Hfr, Hqo, Hql, Hqf, app_nil_r. simpl. by split_and!.
Qed.

(** The run of a send, with what it leaves alone. *)
Lemma net_send_run xmit tx buf r s :
  tx_friend_cred tx = false ->
  let cred := tx_cred (sub_at (tx_sub tx) (n_sub s)) in
  tx_ok tx cred s -> cred_keys (world s) cred r -> mc_ready (world s) ->
  wf buf -> 9 <= b_data buf -> 1 <= b_len buf <= 16 -> b_data buf + b_len buf + tx_mic tx <= b_size buf ->
  let iv := BT_MESH_NET_IVI_TX (n_iv (took_seq s)) in
  let p := header_bytes (mk_header (nid cred) (Z.land iv 1) (tx_app_idx tx =? BT_MESH_KEY_UNUSED)
             (tx_send_ttl tx) (seq (n_iv s)) (tx_src tx) (tx_dst tx)) ++ content buf in
  let room := negb (loopback_free s =? 0)%nat in
  let loop := is_local (tx_dst tx) && room in
  let queued := if loop then [mk_loop (tx_sub tx) p] else [] in
  exists res s', bt_mesh_net_send cfg env tx xmit buf s = (res, s') /\ n_iv s' = n_iv (took_seq s) /\ sent_kept s s' /\
    local_queue s' = local_queue s ++ queued /\ (loopback_free s' + length queued = loopback_free s)%nat /\
    if is_local (tx_dst tx) && (BT_MESH_ADDR_IS_UNICAST (tx_dst tx) || (tx_send_ttl tx =? 1)) then
      res = (if room then Ok () else Err (- ENOMEM)) /\
      n_out s' = n_out s ++ (if room then [LocalWorkSubmit; SendCbFinalize] else [])
    else if tx_send_ttl tx =? 1 then res = Err (- EINVAL) /\ n_out s' = n_out s
    else
      let pdu := sealed r iv p in
      res = Ok () /\
      n_out s' = n_out s ++ (if loop then [LocalWorkSubmit] else []) ++
        (if c_gatt_proxy cfg then [ProxyRelay pdu (tx_dst tx)] else []) ++
        (if c_proxy_client cfg then [ProxyCliRelay pdu] else []) ++ [AdvSend xmit pdu].
Proof. intros Hf cred. apply net_send_cred_run. by apply net_tx_cred_plain. Qed.

(** The credentials a message is sent with: those of the friendship where they are asked for
    and the node is a Low Power node with a Friend, otherwise those of the subnet. *)
Definition sending_cred (tx : bt_mesh_net_tx) s : bt_mesh_net_cred :=
  let sub := sub_at (tx_sub tx) (n_sub s) in
  match lpn_cred env, tx_friend_cred tx with
  | Some (c0, c1), true => if SUBNET_KEY_TX_IDX sub then c1 else c0
  | _, _ => tx_cred sub
  end.
Lemma sending_cred_run tx s : exists b, net_tx_cred_get env tx s = (Ok (sending_cred tx s, set_friend_cred b tx), s).
Proof.
  unfold net_tx_cred_get, sending_cred, mbind, M_bind, get, mret, M_ret. destruct (lpn_cred env) as [[c0 c1]|]; [|by exists false].
  destruct (tx_friend_cred tx) eqn:Ef; [|by exists false]. exists true. destruct tx. cbn in Ef. by subst.
Qed.
(** Without room for the MIC the message is refused. *)
Lemma net_send_no_room xmit tx buf s : wf buf -> b_size buf < b_data buf + b_len buf + tx_mic tx -> bt_mesh_net_send cfg env tx xmit buf s = (Err (- EINVAL), s).
Proof.
  intros Hb Hroom. destruct (sending_cred_run tx s) as [b E]. unfold bt_mesh_net_send. rewrite (bind_ok _ _ _ _ _ E). cbv beta iota.
  unfold mbind at 1, M_bind at 1. unfold net_header_encode. rewrite tailroom_wf by done. cbn [tx_app_idx set_friend_cred]. unfold tx_mic in Hroom.
  destruct (tx_app_idx tx =? BT_MESH_KEY_UNUSED); cbn [andb].
  - by rewrite (proj2 (Z.ltb_lt _ _)) by lia.
  - by rewrite (proj2 (Z.ltb_lt _ _)) by lia.
Qed.

(** C26: Where a message goes, with the credentials of the subnet or of the friendship that
    [bt_mesh_net_send] chooses for it.  One for a unicast address of the node itself, or with
    TTL 1 for a group it listens to, is put in the clear at the end of the loopback queue and
    nothing is sent; without a free block it fails with [-ENOMEM].  Any other message with TTL 1
    is refused with [-EINVAL].  Everything else is sealed under the transmission IV Index and
    handed to the advertising bearer and the proxies, and looped back as well when the node
    listens to the address and has a free block.  In each of these cases the message takes the
    next sequence number.  A buffer without room for the MIC is refused with [-EINVAL], and
    nothing changes.  For a message of 1 to 16 bytes with 9 bytes of headroom, with
    fields in the ranges of a header, and keys that the cryptographic backend has. *)
Theorem net_send_spec xmit tx buf r s :
  let cred := sending_cred tx s in
  tx_ok tx cred s -> cred_keys (world s) cred r -> mc_ready (world s) ->
  wf buf -> 9 <= b_data buf -> 1 <= b_len buf <= 16 ->
  let iv := BT_MESH_NET_IVI_TX (n_iv (took_seq s)) in
  let p := header_bytes (mk_header (nid cred) (Z.land iv 1) (tx_app_idx tx =? BT_MESH_KEY_UNUSED)
             (tx_send_ttl tx) (seq (n_iv s)) (tx_src tx) (tx_dst tx)) ++ content buf in
  let room := negb (loopback_free s =? 0)%nat in
  let loop := is_local (tx_dst tx) && room in
  let queued := if loop then [mk_loop (tx_sub tx) p] else [] in
  if b_size buf <? b_data buf + b_len buf + tx_mic tx then bt_mesh_net_send cfg env tx xmit buf s = (Err (- EINVAL), s)
  else
  exists res s', bt_mesh_net_send cfg env tx xmit buf s = (res, s') /\ n_iv s' = n_iv (took_seq s) /\
    local_queue s' = local_queue s ++ queued /\ (loopback_free s' + length queued = loopback_free s)%nat /\
    if is_local (tx_dst tx) && (BT_MESH_ADDR_IS_UNICAST (tx_dst tx) || (tx_send_ttl tx =? 1)) then
      res = (if room then Ok () else Err (- ENOMEM)) /\
      n_out s' = n_out s ++ (if room then [LocalWorkSubmit; SendCbFinalize] else [])
    else if tx_send_ttl tx =? 1 then res = Err (- EINVAL) /\ n_out s' = n_out s
    else
      let pdu := sealed r iv p in
      res = Ok () /\
      n_out s' = n_out s ++ (if loop then [LocalWorkSubmit] else []) ++
        (if c_gatt_proxy cfg then [ProxyRelay pdu (tx_dst tx)] else []) ++
        (if c_proxy_client cfg then [ProxyCliRelay pdu] else []) ++ [AdvSend xmit pdu].
Proof.
  intros cred Htx Hk Hr Hb Hhead Hlen iv p room loop queued.
  destruct (Z.ltb_spec (b_size buf) (b_data buf + b_len buf + tx_mic tx)) as [Hno|Hroom]; [by apply net_send_no_room|].
  destruct (sending_cred_run tx s) as [b Ecred]. fold cred in Ecred.
  destruct (net_send_cred_run xmit tx (set_friend_cred b tx) cred buf r s Ecred Htx Hk Hr Hb Hhead Hlen Hroom) as (res & s' & E & Hi & _ & Hq).
  by exists res, s'.
Qed.

End Send.

(** * Receiving what was sent *)

Section Receive.

Context {W : Type} `{MeshCryptoLaws W}.
Context (cfg : net_cfg) (env : node_env) (raws : bt_mesh_net_cred -> raw_cred).
Notation st := (net_node W).
Implicit Types s : st.

(** A node that has an IV Index in its window. *)
Definition iv_in_window s (iv : Z) : Prop :=
  0 <= iv < 2 ^ 32 /\ (iv_index (n_iv s) = iv \/ iv_index (n_iv s) = iv + 1) /\ iv_index (n_iv s) < 2 ^ 32.

Lemma land_1_succ x : 0 <= x -> (Z.land x 1 =? Z.land (x + 1) 1) = false.
Proof.
  intros Hx. change 1 with (Z.ones 1) at 1 3. rewrite !Z.land_ones by lia. apply Z.eqb_neq.
  change (2 ^ 1) with 2. pose proof (Z.div_mod x 2). pose proof (Z.mod_pos_bound x 2).
  pose proof (Z.div_mod (x + 1) 2). pose proof (Z.mod_pos_bound (x + 1) 2). lia.
Qed.

Lemma rx_iv_window s iv c :
  iv_in_window s iv -> IVI c = Z.land iv 1 -> rx_iv s c = iv.
Proof.
  intros (Hr & Hw & Hlt) Hi. unfold rx_iv, BT_MESH_NET_IVI_RX, old_iv_of. rewrite Hi. destruct Hw as [E|E]; rewrite E.
  - rewrite Z.eqb_refl. simpl. rewrite Z.sub_0_r. by apply u32_id.
  - rewrite land_1_succ by lia. simpl. rewrite Z.add_simpl_r. by apply u32_id.
Qed.

Lemma sealed_facts r iv h x :
  header_ok h -> 1 <= zlen x ->
  let p := header_bytes h ++ x in let c := sealed r iv p in
  zlen c = 9 + zlen x + mic_len p /\ NID c = h_nid h /\ IVI c = h_ivi h.
Proof.
  intros Hh Hx p c. assert (zlen p = 9 + zlen x) as Hp by (unfold p; rewrite length_app, header_bytes_length; lia).
  pose proof (mic_len_or p) as Hm.
  pose proof (seal_length (raw_enc r) (create_net_nonce (take 7 p) iv) p ltac:(lia)) as Hs.
  set (q := seal _ _ p) in *. destruct (obf_parts (raw_priv r) iv q) as (Hl & H1 & _ & _); [lia|].
  assert (length c = length q) as Hlc by exact Hl.
  assert (take 1 q = take 1 p) as Hq.
  { unfold q, seal. rewrite take_app_le by (rewrite length_take; lia). by rewrite take_take. }
  assert (c !!! 0%nat = p !!! 0%nat) as Hb0.
  { rewrite <-(lookup_total_take c 0 1), <-(lookup_total_take p 0 1) by lia. by f_equal. }
  destruct (header_read h x Hh) as (Hn & Hi & _). fold p in Hn, Hi.
  split_and!; [lia|by unfold NID in *; rewrite Hb0|by unfold IVI in *; rewrite Hb0].
Qed.

(** The credentials it was sealed with open it. *)
Lemma open_sealed s net_if r iv h x :
  header_ok h -> 1 <= zlen x -> Forall is_byte x -> iv_in_window s iv -> h_ivi h = Z.land iv 1 ->
  net_if <> BT_MESH_NET_IF_PROXY_CFG ->
  BT_MESH_ADDR_IS_UNICAST (h_src h) = true -> has_addr env (h_src h) = false ->
  (net_if = BT_MESH_NET_IF_ADV -> (h_src h, h_seq h mod 2 ^ 17) ∉ msg_window s) ->
  let p := header_bytes h ++ x in
  open_with cfg env s net_if r (sealed r iv p) = Some p.
Proof.
  intros Hh Hx Hbx Hiv Hivi Hif Hu Hloc Hwin p. destruct (sealed_facts r iv h x Hh Hx) as (_ & _ & Hi). fold p in Hi.
  unfold open_with. rewrite (rx_iv_window s iv) by (done || congruence).
  assert (zlen p = 9 + zlen x) as Hp by (unfold p; rewrite length_app, header_bytes_length; lia).
  pose proof (mic_len_or p) as Hm. unfold sealed.
  set (nonce := create_net_nonce (take 7 p) iv).
  pose proof (seal_length (raw_enc r) nonce p ltac:(lia)) as Hs.
  rewrite obf_twice by lia. set (q := seal (raw_enc r) nonce p) in *.
  assert (take 7 q = take 7 p) as H7.
  { unfold q, seal. rewrite take_app_le by (rewrite length_take; lia). by rewrite take_take. }
  assert (SRC q = h_src h) as Esrc.
  { transitivity (SRC p); [unfold q, seal; apply src_take7; lia|].
    destruct (header_read h x Hh) as (_ & _ & _ & _ & _ & E & _). exact E. }
  assert (SEQ q = h_seq h) as Eseq.
  { transitivity (SEQ p); [by apply seq_prefix|].
    destruct (header_read h x Hh) as (_ & _ & _ & _ & E & _). exact E. }
  unfold msg_key. rewrite Esrc, Eseq, Hu, Hloc. cbn [negb orb].
  assert (bool_decide (net_if = BT_MESH_NET_IF_ADV) && bool_decide ((h_src h, h_seq h mod 2 ^ 17) ∈ msg_window s) = false) as ->.
  { case_bool_decide; [|done]. by rewrite bool_decide_eq_false_2 by auto. }
  unfold mic_len. rewrite H7. unfold nonce_for, nonce_type. rewrite bool_decide_eq_false_2 by done.
  cbn [is_proxy is_solicitation]. rewrite !andb_false_r. fold nonce.
  assert (drop 7 q = mc_seal (raw_enc r) nonce [] (drop 7 p) (NET_MIC_LEN (take 7 p))) as ->.
  { unfold q, seal. rewrite drop_app_length'; [done|]. rewrite length_take. lia. }
  rewrite mc_open_seal.
  - cbn [mbind option_bind]. by rewrite take_drop.
  - destruct (net_mic (take 7 p)); lia.
  - apply Forall_drop, Forall_app. split; [by apply header_bytes_bytes|done].
Qed.

(** The whole search: no credentials tried earlier have the NID. *)
Lemma first_open_sealed s net_if r iv h x pre m cred post :
  header_ok h -> 1 <= zlen x -> Forall is_byte x -> iv_in_window s iv -> h_ivi h = Z.land iv 1 ->
  net_if <> BT_MESH_NET_IF_PROXY_CFG ->
  BT_MESH_ADDR_IS_UNICAST (h_src h) = true -> has_addr env (h_src h) = false ->
  (net_if = BT_MESH_NET_IF_ADV -> (h_src h, h_seq h mod 2 ^ 17) ∉ msg_window s) ->
  node_creds env s = pre ++ (m, cred) :: post -> Forall (fun x => nid x.2 <> h_nid h) pre ->
  nid cred = h_nid h -> raws cred = r ->
  let p := header_bytes h ++ x in
  first_open cfg env raws s net_if (sealed r iv p) (node_creds env s) = Some (m, p).
Proof.
  intros Hh Hx Hbx Hiv Hivi Hif Hu Hloc Hwin -> Hpre Hnid Hraw p.
  destruct (sealed_facts r iv h x Hh Hx) as (_ & Hn & _). fold p in Hn.
  induction Hpre as [|[m0 c0] pre Hne Hpre IH]; cbn [app first_open].
  - rewrite Hn, Hnid, Z.eqb_refl, Hraw. unfold p. by rewrite open_sealed.
  - simpl in Hne. rewrite Hn. rewrite (proj2 (Z.eqb_neq _ _)) by congruence. exact IH.
Qed.

(** What the context says of a header. *)
Definition rx_of_header (m : rx_match) (h : net_header) (rx : bt_mesh_net_rx) : Prop :=
  rx_addr rx = h_src h /\ rx_recv_dst rx = h_dst h /\ rx_recv_ttl rx = h_ttl h /\ rx_seq rx = h_seq h /\
  rx_ctl rx = h_ctl h /\ rx_net_idx rx = m_net_idx m /\ rx_sub rx = Z.of_nat (m_sub m) /\
  rx_new_key rx = m_new_key m /\ rx_friend_cred rx = m_friend_cred m.

(** A receiver for a PDU with header [h], sealed under [iv] with the raw keys [r]: it has
    credentials with these keys and tries none with the same NID before; it is in the
    window of the IV Index, is not the source, and has not seen the message. *)
Record receives s (net_if : bt_mesh_net_if) (r : raw_cred) (iv : Z) (h : net_header) (m : rx_match) : Prop := {
  rc_can : can_receive env raws s;
  rc_if : net_if <> BT_MESH_NET_IF_PROXY_CFG;
  rc_creds : exists pre cred post, node_creds env s = pre ++ (m, cred) :: post /\
    Forall (fun x => nid x.2 <> h_nid h) pre /\ nid cred = h_nid h /\ raws cred = r;
  rc_iv : iv_in_window s iv;
  rc_source : has_addr env (h_src h) = false;
  rc_new : net_if = BT_MESH_NET_IF_ADV -> (h_src h, h_seq h mod 2 ^ 17) ∉ msg_window s
}.

Lemma decode_sealed s net_if r iv h x m inb :
  receives s net_if r iv h m -> header_ok h -> h_ivi h = Z.land iv 1 ->
  BT_MESH_ADDR_IS_UNICAST (h_src h) = true -> 0 < h_dst h ->
  Forall is_byte x -> 1 <= zlen x -> let p := header_bytes h ++ x in 9 <= zlen x + mic_len p <= 20 ->
  wf inb -> content inb = sealed r iv p ->
  (net_if = BT_MESH_NET_IF_ADV -> dup_key (content inb) ∉ dup_window s) ->
  exists rx outb s', bt_mesh_net_decode cfg env inb net_if empty_rx rx_buf s = (Ok (rx, outb), s') /\
    wf outb /\ content outb = p /\ rx_of_header m h rx /\
    BT_MESH_NET_IVI_RX (n_iv s) (rx_old_iv rx) = iv.
Proof.
  intros [Hcan Hif (pre & cred & post & Hcreds & Hpre & Hnid & Hraw) Hiv Hloc Hnew] Hh Hivi Hu Hdst Hbx Hx p Hlen Hw Hc Hdup.
  destruct (sealed_facts r iv h x Hh Hx) as (Hz & _ & Hivic). fold p in Hz, Hivic.
  destruct (header_read h x Hh) as (_ & _ & Ec & Et & Eq & Es & Ed). fold p in Ec, Et, Eq, Es, Ed.
  assert (decode_answer cfg env raws s net_if (content inb) =
    inl (rx_set_header p (rx_set_match m (found_rx s (content inb) p (rx_set_net_if net_if empty_rx))), p)) as Ha.
  { unfold decode_answer. rewrite Hc, Hz.
    unfold BT_MESH_NET_MIN_PDU_LEN, BT_MESH_NET_MAX_PDU_LEN, BT_MESH_NET_HDR_LEN.
    rewrite !(proj2 (Z.ltb_ge _ _)) by lia. cbn [orb].
    assert (bool_decide (net_if = BT_MESH_NET_IF_ADV) && bool_decide (dup_key (sealed r iv p) ∈ dup_window s) = false) as ->.
    { case_bool_decide; [|done]. rewrite <-Hc. by rewrite bool_decide_eq_false_2 by auto. }
    unfold p. erewrite first_open_sealed; try done. fold p.
    rewrite Ed. rewrite (proj2 (Z.eqb_neq _ _)), andb_false_r; [done|].
    unfold BT_MESH_ADDR_UNASSIGNED. lia. }
  destruct (decode_run cfg env raws inb net_if s Hcan Hw) as (res & s' & E & Hres & _). rewrite Ha in Hres.
  destruct Hres as (outb & -> & Hwo & _ & Hco). eexists _, outb, s'. split; [exact E|]. split_and!; [done|done| |].
  - unfold rx_of_header. cbn [rx_addr rx_recv_dst rx_recv_ttl rx_seq rx_ctl rx_net_idx rx_sub rx_new_key rx_friend_cred
      rx_set_header rx_set_match found_rx rx_set_addr rx_set_old_iv]. split_and!; try done.
    rewrite Ec. by destruct (h_ctl h).
  - pose proof (rx_iv_window s iv (content inb) Hiv) as Hxw. apply Hxw. by rewrite Hc, Hivic.
Qed.

End Receive.

(** * From node to node *)

Section Flow.

(** The nodes have the same kind of crypto backend, each in a state of its own. *)
Context {W : Type} `{MeshCryptoLaws W}.
Context (cfgA cfgB : net_cfg) (envA envB : node_env) (raws : bt_mesh_net_cred -> raw_cred).

(** C5: What one node sends, another one reads.  A PDU that [bt_mesh_net_encode] makes
    of a payload under the current credentials of a subnet is decoded, on any node that
    has the same keys and an IV Index equal to the sender's transmission IV Index or
    one ahead, to the same payload and the header the sender meant: source, destination, TTL,
    the sequence number the sender took for it, the kind of the message, and the same IV Index.
    The receiver must not have seen it, nor be its source, nor try credentials with the same
    NID first. *)
Theorem net_encode_decode tx buf r (sA sB : net_node W) net_if m :
  let credA := tx_cred (sub_at (tx_sub tx) (n_sub sA)) in
  tx_friend_cred tx = false -> tx_ok tx credA sA -> cred_keys (world sA) credA r -> mc_ready (world sA) ->
  wf buf -> 9 <= b_data buf -> 1 <= b_len buf -> 9 <= b_len buf + tx_mic tx <= 20 ->
  b_data buf + b_len buf + tx_mic tx <= b_size buf ->
  exists pdu sA', bt_mesh_net_encode cfgA envA tx buf BT_MESH_NONCE_NETWORK sA = (Ok pdu, sA') /\
    let iv := BT_MESH_NET_IVI_TX (n_iv sA') in
    let h := mk_header (nid credA) (Z.land iv 1) (tx_app_idx tx =? BT_MESH_KEY_UNUSED) (tx_send_ttl tx)
               (seq (n_iv sA)) (tx_src tx) (tx_dst tx) in
    (receives envB raws sB net_if r iv h m ->
     (net_if = BT_MESH_NET_IF_ADV -> dup_key (content pdu) ∉ dup_window sB) ->
     exists rx outb sB', bt_mesh_net_decode cfgB envB pdu net_if empty_rx rx_buf sB = (Ok (rx, outb), sB') /\
       drop 9 (content outb) = content buf /\ rx_of_header m h rx /\
       BT_MESH_NET_IVI_RX (n_iv sB) (rx_old_iv rx) = iv).
Proof.
  intros credA Hf Htx HkA HrA Hb Hhead Hlen Hmax Hroom.
  destruct (net_encode_run cfgA envA tx buf r sA Hf Htx HkA HrA Hb Hhead Hlen Hroom)
    as (pdu & sA' & EA & Hwp & Hcp & Hiv).
  exists pdu, sA'. split; [done|]. intros iv h HB Hdup.
  assert (sent_header cfgA envA tx credA sA = h) as Eh by (unfold sent_header, h, iv; by rewrite Hiv).
  fold credA in Hcp. rewrite Eh in Hcp. fold iv in Hcp.
  pose proof (sent_header_ok cfgA envA tx credA sA Htx) as Hh. rewrite Eh in Hh.
  destruct Htx as (Hn & Ht & Hq & Hu & Hsrc & Hdst). pose proof (content_length buf Hb) as Hlb.
  destruct (decode_sealed cfgB envB raws sB net_if r iv h (content buf) m pdu) as (rx & outb & sB' & E & _ & Hco & Hrx & Hrxiv);
    try done; [cbn; lia|by apply content_bytes|lia| |].
  - rewrite header_mic by done. unfold tx_mic in Hmax. cbn [h_ctl h]. lia.
  - exists rx, outb, sB'. split_and!; [done|by rewrite Hco|done|done].
Qed.

End Flow.

(** * Relaying *)

Definition set_h_ttl (t : Z) (h : net_header) : net_header :=
  mk_header (h_nid h) (h_ivi h) (h_ctl h) t (h_seq h) (h_src h) (h_dst h).
Definition set_h_nid (n : Z) (h : net_header) : net_header :=
  mk_header n (h_ivi h) (h_ctl h) (h_ttl h) (h_seq h) (h_src h) (h_dst h).

Ltac header_ok_tac :=
  unfold header_ok in *; cbn [set_h_ttl set_h_nid h_nid h_ivi h_ctl h_ttl h_seq h_src h_dst] in *; lia.


Section Relay.

Context {W : Type} `{MeshCryptoLaws W}.
Context (cfg : net_cfg) (env : node_env).
Notation st := (net_node W).
Implicit Types s : st.

Lemma add_run b data :
  wf b -> b_len b = 0 -> Forall is_byte data -> b_data b + zlen data <= b_size b ->
  exists o, bt_buf_simple_add_mem b data = Some o /\ wf o /\ content o = data /\
    b_data o = b_data b /\ b_size o = b_size b.
Proof.
  intros Hb Hz Hd Hl. pose proof (add_mem_refines b data Hb Hd) as Href.
  assert (content b = []) as Hc by (apply nil_length_inv; pose proof (content_length b Hb); lia).
  unfold view_add, view_of in Href. cbn [v_room v_bytes v_head] in Href. rewrite Hc in Href.
  rewrite (proj2 (Z.leb_le _ _)) in Href by lia. simpl in Href.
  destruct (bt_buf_simple_add_mem _ _) as [o|]; [|done]. simpl in Href.
  destruct Href as (_ & Hw & Hv). exists o. unfold view_of in Hv. injection Hv as H1 H2 H3.
  split_and!; [done|done|done|done|]. pose proof (content_length o Hw). rewrite H2 in *. lia.
Qed.

Lemma store_run b off v c1 x0 c2 :
  wf b -> is_byte v -> content b = c1 ++ x0 :: c2 -> off = zlen c1 ->
  exists b', store_at b (b_data b + off) [v] = Some b' /\ wf b' /\ content b' = c1 ++ v :: c2 /\
    b_data b' = b_data b /\ b_len b' = b_len b /\ b_size b' = b_size b.
Proof.
  intros Hb Hv Hc ->. pose proof (content_length b Hb) as Hl. rewrite Hc, length_app in Hl. simpl in Hl.
  assert (Forall is_byte [v]) as Hbv by (by constructor).
  eassert (mem_write (b_store b) (b_data b + zlen c1) [v] = Some _) as Em
    by (apply mem_write_some; simpl; destruct Hb; lia).
  destruct (content_write b (zlen c1) [v] _ Hb Hbv ltac:(lia) ltac:(simpl; lia) Em) as [Hw Hcw].
  eexists. unfold store_at. rewrite Em. split; [reflexivity|]. split_and!; try done.
  rewrite Hcw, Hc, Nat2Z.id. rewrite take_app_length. simpl. do 2 f_equal.
  replace (length c1 + 1)%nat with (length (c1 ++ [x0])) by (rewrite length_app; done).
  transitivity (drop (length (c1 ++ [x0])) ((c1 ++ [x0]) ++ c2)); [by rewrite <-app_assoc|by rewrite drop_app_length].
Qed.

(** The PDU that is sent on: one hop less, and the NID of the relay's credentials when
    it was received with those of a friendship or goes to another subnet. *)
Definition relayed_header (rx : bt_mesh_net_rx) (bridge : bool) (cred : bt_mesh_net_cred) (h : net_header) : net_header :=
  set_h_ttl (h_ttl h - 1) (if rx_friend_cred rx || bridge then set_h_nid (nid cred) h else h).

Definition relays (rx : bt_mesh_net_rx) (bridge : bool) : bool :=
  negb (rx_recv_ttl rx <=? 1) &&
  (negb (bool_decide (rx_net_if rx = BT_MESH_NET_IF_ADV)) || rx_friend_cred rx || bridge ||
   (relay_get env =? FEATURE_ENABLED) || proxy_enabled_here env).

Definition relay_outputs (rx : bt_mesh_net_rx) (bridge : bool) (pdu : list Z) : list net_out :=
  (if c_gatt_proxy cfg && (rx_friend_cred rx || proxy_enabled_here env) then [ProxyRelay pdu (rx_recv_dst rx)] else []) ++
  (if relay_to_adv env (rx_net_if rx) || rx_friend_cred rx || bridge then
     [AdvSend (if bool_decide (rx_net_if rx = BT_MESH_NET_IF_ADV) && negb (rx_friend_cred rx) && negb bridge
               then relay_retransmit_get env else net_transmit_get env) pdu] else []).

(** What a relay leaves alone. *)
Definition relay_kept s s' : Prop :=
  n_iv s' = n_iv s /\ n_rpl s' = n_rpl s /\ n_brg s' = n_brg s /\ subnets (n_sub s') = subnets (n_sub s) /\
  dup_window s' = dup_window s /\ msg_window s' = msg_window s /\ local_queue s' = local_queue s /\
  mc_keys (world s') = mc_keys (world s) /\ mc_ready (world s').

Lemma ttl_byte h t :
  header_ok h -> 0 <= t < 128 ->
  Z.lor (Z.land (if h_ctl h then Z.lor (h_ttl h) 0x80 else h_ttl h) 0x80) t = if h_ctl h then Z.lor t 0x80 else t.
Proof.
  intros (_ & _ & Ht & _) Hr.
  assert (forall b, 0 <= b < 128 -> (Z.land (Z.lor b 0x80) 0x80 =? 0x80) && (Z.land b 0x80 =? 0) = true) as Hb
    by (apply (forall_below 128); vm_compute; reflexivity).
  apply Hb, andb_prop in Ht as [H1%Z.eqb_eq H2%Z.eqb_eq]. destruct (h_ctl h); [by rewrite H1, Z.lor_comm|by rewrite H2].
Qed.

Lemma nid_byte h n :
  header_ok h ->
  Z.lor (Z.land (Z.lor (h_nid h) (Z.shiftl (h_ivi h) 7)) 0x80) n = Z.lor n (Z.shiftl (h_ivi h) 7).
Proof.
  intros (Hn & Hi & _). assert (h_ivi h = 0 \/ h_ivi h = 1) as Hv by lia.
  assert (forall b, 0 <= b < 128 -> (Z.land (Z.lor b 0) 0x80 =? 0) && (Z.land (Z.lor b 0x80) 0x80 =? 0x80) = true) as Hb
    by (apply (forall_below 128); vm_compute; reflexivity).
  apply Hb, andb_prop in Hn as [H1%Z.eqb_eq H2%Z.eqb_eq]. rewrite (Z.lor_comm n).
  destruct Hv as [-> | ->]; f_equal; [exact H1|exact H2].
Qed.

Lemma relays_inv rx bridge :
  relays rx bridge = true ->
  (rx_recv_ttl rx <=? 1) = false /\
  (bool_decide (rx_net_if rx = BT_MESH_NET_IF_ADV) && negb (rx_friend_cred rx) && negb bridge &&
   negb (relay_get env =? FEATURE_ENABLED) && negb (proxy_enabled_here env)) = false.
Proof.
  unfold relays. destruct (rx_recv_ttl rx <=? 1); [done|]. intros Hr. split; [done|]. revert Hr.
  by destruct (bool_decide _), (rx_friend_cred rx), bridge, (relay_get env =? _), (proxy_enabled_here env).
Qed.

Lemma relay_run sbuf rx bridge s h x r adv :
  let cred := tx_cred (sub_at (Z.to_nat (rx_sub rx)) (n_sub s)) in
  wf sbuf -> content sbuf = header_bytes h ++ x -> header_ok h -> 1 <= zlen x -> rx_recv_ttl rx = h_ttl h ->
  relays rx bridge = true ->
  adv_create env (length (n_out s)) = Some adv -> wf adv -> b_len adv = 0 ->
  b_data adv + 9 + zlen x + mic_len (header_bytes h ++ x) <= b_size adv ->
  0 <= nid cred < 128 -> cred_keys (world s) cred r -> mc_ready (world s) ->
  exists sbuf' s', bt_mesh_net_relay cfg env sbuf rx bridge s = (Ok sbuf', s') /\ relay_kept s s' /\
    n_out s' = n_out s ++ relay_outputs rx bridge
      (sealed r (BT_MESH_NET_IVI_RX (n_iv s) (rx_old_iv rx)) (header_bytes (relayed_header rx bridge cred h) ++ x)) /\
    wf sbuf' /\ content sbuf' = header_bytes (set_h_ttl (h_ttl h - 1) h) ++ x.
Proof.
  intros cred Hb Hc Hh Hx Httl Hrel Hadv Hwa Hza Hroom Hnid Hkeys Hr.
  destruct (relays_inv rx bridge Hrel) as [E1 E2].
  assert (0 <= h_ttl h - 1 < 128) as Ht.
  { apply Z.leb_gt in E1. destruct Hh as (_ & _ & Ht & _). lia. }
  assert (header_ok (set_h_ttl (h_ttl h - 1) h)) as Hh1 by header_ok_tac.
  set (h1 := set_h_ttl (h_ttl h - 1) h) in *.
  set (h2 := relayed_header rx bridge cred h).
  assert (header_ok h2) as Hh2.
  { unfold h2, relayed_header. destruct (_ || _); [|exact Hh1]. clear -Hh Hh1 Hnid Ht. unfold h1 in *. header_ok_tac. }
  assert (mic_len (header_bytes h2 ++ x) = mic_len (header_bytes h ++ x)) as Hmic.
  { rewrite !header_mic by done. unfold h2, relayed_header. by destruct (_ || _). }
  set (b0 := Z.lor (h_nid h) (Z.shiftl (h_ivi h) 7)).
  set (b1 := if h_ctl h then Z.lor (h_ttl h) 0x80 else h_ttl h).
  set (b1' := if h_ctl h then Z.lor (h_ttl h - 1) 0x80 else h_ttl h - 1).
  set (tl := sys_put_be24 (h_seq h) ++ sys_put_be16 (h_src h) ++ sys_put_be16 (h_dst h) ++ x).
  assert (header_bytes h ++ x = [b0] ++ b1 :: tl) as Hp by done.
  assert (header_bytes h1 ++ x = [b0] ++ b1' :: tl) as Hp1 by done.
  assert (is_byte b1') as Hb1.
  { pose proof (header_bytes_bytes h1 Hh1) as Hby. apply Forall_inv_tail in Hby. by apply Forall_inv in Hby. }
  rewrite Hp in Hc.
  destruct (store_run sbuf 1 b1' [b0] b1 tl Hb Hb1 Hc eq_refl) as (sb & Es & Hws & Hcs & Hds & Hls & Hss).
  pose proof (content_length sbuf Hb) as Hlsb. rewrite Hc in Hlsb.
  pose proof (content_length sb Hws) as Hlsb1. rewrite Hcs in Hlsb1.
  assert (zlen ([b0] ++ b1' :: tl) = 9 + zlen x) as Hlen
    by (rewrite <-Hp1, length_app, header_bytes_length; lia).
  destruct (add_run adv ([b0] ++ b1' :: tl)) as (a1 & Ea & Hwa1 & Hca1 & Hda1 & Hsa1);
    [done|done|pose proof (content_bytes sb Hws) as Hbsb; rewrite Hcs in Hbsb; exact Hbsb|pose proof (mic_len_or (header_bytes h ++ x)); lia|].
  (* the NID *)
  assert (exists a2, (if rx_friend_cred rx || bridge then
       b0 ← checked (mem_read (b_store a1) (b_data a1) 1);
       checked (store_at a1 (b_data a1) [Z.lor (Z.land (b0 !!! 0%nat) 0x80) (nid cred)])
     else mret a1 : M st _) s = (Ok a2, s) /\ wf a2 /\ content a2 = header_bytes h2 ++ x /\
    b_data a2 = b_data adv /\ b_size a2 = b_size adv) as (a2 & E3 & Hwa2 & Hca2 & Hda2 & Hsa2).
  { unfold h2, relayed_header. destruct (rx_friend_cred rx || bridge) eqn:Hfb; [|by exists a1].
    assert (is_byte (Z.lor (nid cred) (Z.shiftl (h_ivi h) 7))) as Hbn.
    { assert (header_ok (set_h_nid (nid cred) h)) as Hhn by header_ok_tac.
      pose proof (header_bytes_bytes _ Hhn) as Hby. by apply Forall_inv in Hby. }
    destruct (store_run a1 0 _ [] b0 (b1' :: tl) Hwa1 Hbn Hca1 eq_refl) as (a2 & Es2 & Hw2 & Hc2 & Hd2 & _ & Hs2).
    rewrite Z.add_0_r in Es2. exists a2. split_and!; [|done|done|congruence|congruence].
    pose proof (read_content a1 0 1 Hwa1) as Hrd. pose proof (content_length a1 Hwa1) as Hla1. rewrite Hca1 in Hla1.
    rewrite Z.add_0_r in Hrd. rewrite Hrd by lia. rewrite Hca1. unfold checked, mbind, M_bind.
    change ((take (Z.to_nat 1) (drop (Z.to_nat 0) ([b0] ++ b1' :: tl))) !!! 0%nat) with b0.
    unfold b0. rewrite nid_byte by done. by rewrite Es2. }
  pose proof (content_length a2 Hwa2) as Hla2. rewrite Hca2, length_app, header_bytes_length in Hla2.
  destruct (net_encrypt_run cfg a2 cred r (BT_MESH_NET_IVI_RX (n_iv s) (rx_old_iv rx)) s)
    as (a3 & Ha3 & Hwa3 & Hca3); [done|done|done|lia|rewrite Hca2, Hmic; lia|].
  destruct (runs_attempt _ _ _ Ha3) as (s2 & E4 & Hs2). destruct (calm_keys _ _ Hs2) as [Hk2 Hr2].
  exists sb. rewrite Hca2 in Hca3. set (pdu := sealed r _ _) in *.
  unfold bt_mesh_net_relay. rewrite E1, E2. unfold mbind at 1, M_bind at 1, get at 1. rewrite Hadv.
  pose proof (read_content sbuf 1 1 Hb) as Hrd. rewrite Hrd by lia. rewrite Hc.
  change (take (Z.to_nat 1) (drop (Z.to_nat 1) ([b0] ++ b1 :: tl))) with [b1].
  rewrite (bind_ok (checked (Some [b1])) _ s [b1] s eq_refl).
  change ([b1] !!! 0%nat) with b1. rewrite Httl, u8_id by lia. unfold b1 at 1. rewrite ttl_byte by done. fold b1'.
  rewrite Es. rewrite (bind_ok (checked (Some sb)) _ s sb s eq_refl).
  rewrite (bind_ok _ _ _ _ _ (bytes_of_run sb s Hws)). rewrite Hcs, Ea.
  rewrite (bind_ok (checked (Some a1)) _ s a1 s eq_refl). fold cred. rewrite (bind_ok _ _ _ _ _ E3).
  rewrite (bind_ok _ _ _ _ _ E4). cbv beta iota.
  rewrite (bind_ok _ _ _ _ _ (bytes_of_run a3 s2 Hwa3)). rewrite Hca3.
  assert (n_out s2 = n_out s) as Ho by (by destruct Hs2 as (w & -> & _)).
  assert (relay_kept s s2) as Hk by (destruct Hs2 as (w & -> & ? & ?); by split_and!).
  unfold relay_outputs. rewrite <-Ho. unfold mbind, M_bind, out, modify, mret, M_ret.
  destruct (c_gatt_proxy cfg && _), (relay_to_adv _ _ || _ || _); (eexists; split; [reflexivity|]);
    (split; [exact Hk|]); (split; [|by split]); cbn [n_out out_op app]; rewrite ?app_nil_r, <-?app_assoc; done.
Qed.

End Relay.

(** * Relays *)

Section Hop.

Context {W : Type} `{MeshCryptoLaws W}.
Context (cfg cfgC : net_cfg) (env envC : node_env) (raws : bt_mesh_net_cred -> raw_cred).

(** C24: What a relay sends.  A PDU that the node may relay - there is a hop left, and the
    node is a relay or proxy, or the PDU came from a friendship or a proxy connection or is bridged -
    goes out with its TTL decremented, the rest of the header and the payload unchanged, sealed with
    the credentials the subnet transmits with under the IV Index it was received with; the
    others change nothing.  Its NID is that of these credentials only for a friendship or
    a bridge: a PDU that was received with the old key in phase 2 of a key refresh goes
    out sealed with the new key under the NID of the old one. *)
Theorem net_relay_spec sbuf rx bridge (s : net_node W) h x r :
  let cred := tx_cred (sub_at (Z.to_nat (rx_sub rx)) (n_sub s)) in
  wf sbuf -> content sbuf = header_bytes h ++ x -> header_ok h -> 1 <= zlen x -> rx_recv_ttl rx = h_ttl h ->
  (forall adv, adv_create env (length (n_out s)) = Some adv ->
     wf adv /\ b_len adv = 0 /\ b_data adv + 9 + zlen x + mic_len (header_bytes h ++ x) <= b_size adv) ->
  0 <= nid cred < 128 -> cred_keys (world s) cred r -> mc_ready (world s) ->
  match (if relays env rx bridge then adv_create env (length (n_out s)) else None) with
  | None => bt_mesh_net_relay cfg env sbuf rx bridge s = (Ok sbuf, s)
  | Some _ =>
      let nid' := if rx_friend_cred rx || bridge then nid cred else h_nid h in
      let h' := mk_header nid' (h_ivi h) (h_ctl h) (h_ttl h - 1) (h_seq h) (h_src h) (h_dst h) in
      let pdu := sealed r (BT_MESH_NET_IVI_RX (n_iv s) (rx_old_iv rx)) (header_bytes h' ++ x) in
      exists sbuf' s', bt_mesh_net_relay cfg env sbuf rx bridge s = (Ok sbuf', s') /\ relay_kept s s' /\
        n_out s' = n_out s ++ relay_outputs cfg env rx bridge pdu /\ NID pdu = nid'
  end.
Proof.
  intros cred Hb Hc Hh Hx Httl Hadv Hnid Hkeys Hr.
  destruct (relays env rx bridge) eqn:Hrel.
  - destruct (adv_create env (length (n_out s))) as [adv|] eqn:Ea.
    + intros nid' h' pdu. destruct (Hadv adv eq_refl) as (Hwa & Hza & Hroom).
      destruct (relay_run cfg env sbuf rx bridge s h x r adv Hb Hc Hh Hx Httl Hrel Ea Hwa Hza Hroom Hnid Hkeys Hr)
        as (sbuf' & s' & E & Hk & Ho & _).
      assert (relayed_header rx bridge cred h = h') as Eh
        by (unfold relayed_header, h', nid'; by destruct (_ || _)).
      fold cred in Ho. rewrite Eh in Ho. exists sbuf', s'. split_and!; [done|done|done|].
      assert (header_ok h') as Hh'.
      { destruct (relays_inv env rx bridge Hrel) as [Ht%Z.leb_gt _]. unfold h', nid'.
        destruct (_ || _); header_ok_tac. }
      by destruct (sealed_facts r (BT_MESH_NET_IVI_RX (n_iv s) (rx_old_iv rx)) h' x Hh' Hx) as (_ & ? & _).
    + unfold bt_mesh_net_relay. destruct (relays_inv env rx bridge Hrel) as [-> ->].
      unfold mbind, M_bind, get. by rewrite Ea.
  - unfold bt_mesh_net_relay. unfold relays in Hrel. destruct (rx_recv_ttl rx <=? 1); [done|].
    destruct (bool_decide _), (rx_friend_cred rx), bridge, (relay_get env =? _), (proxy_enabled_here env); done.
Qed.

(** C16: What a relay sends, the next node reads: with one hop less, and everything else
    as the source sent it, provided the PDU was received with the credentials the
    relay transmits with, or with those of a friendship, or is bridged. *)
Theorem net_relay_read sbuf rx bridge (s sC : net_node W) h x r adv net_if m :
  let cred := tx_cred (sub_at (Z.to_nat (rx_sub rx)) (n_sub s)) in
  let iv := BT_MESH_NET_IVI_RX (n_iv s) (rx_old_iv rx) in
  wf sbuf -> content sbuf = header_bytes h ++ x -> header_ok h -> 1 <= zlen x -> rx_recv_ttl rx = h_ttl h ->
  relays env rx bridge = true -> adv_create env (length (n_out s)) = Some adv ->
  wf adv -> b_len adv = 0 -> b_data adv + 9 + zlen x + mic_len (header_bytes h ++ x) <= b_size adv ->
  9 <= zlen x + mic_len (header_bytes h ++ x) <= 20 ->
  0 <= nid cred < 128 -> cred_keys (world s) cred r -> mc_ready (world s) ->
  rx_friend_cred rx || bridge = true \/ h_nid h = nid cred ->
  h_ivi h = Z.land iv 1 -> BT_MESH_ADDR_IS_UNICAST (h_src h) = true -> 0 < h_dst h ->
  let h' := mk_header (nid cred) (h_ivi h) (h_ctl h) (h_ttl h - 1) (h_seq h) (h_src h) (h_dst h) in
  receives envC raws sC net_if r iv h' m ->
  exists pdu sbuf' s', bt_mesh_net_relay cfg env sbuf rx bridge s = (Ok sbuf', s') /\
    n_out s' = n_out s ++ relay_outputs cfg env rx bridge pdu /\
    (forall inb, wf inb -> content inb = pdu -> (net_if = BT_MESH_NET_IF_ADV -> dup_key pdu ∉ dup_window sC) ->
     exists rxC outb sC', bt_mesh_net_decode cfgC envC inb net_if empty_rx rx_buf sC = (Ok (rxC, outb), sC') /\
       drop 9 (content outb) = x /\ rx_of_header m h' rxC /\
       BT_MESH_NET_IVI_RX (n_iv sC) (rx_old_iv rxC) = iv).
Proof.
  intros cred iv Hb Hc Hh Hx Httl Hrel Ea Hwa Hza Hroom Hlen Hnid Hkeys Hr Hok Hivi Hu Hdst h' HC.
  destruct (relay_run cfg env sbuf rx bridge s h x r adv Hb Hc Hh Hx Httl Hrel Ea Hwa Hza Hroom Hnid Hkeys Hr)
    as (sbuf' & s' & E & _ & Ho & _).
  assert (relayed_header rx bridge cred h = h') as Eh.
  { unfold relayed_header, h'. destruct (_ || _); [done|]. destruct Hok as [?|<-]; done. }
  fold cred iv in Ho. rewrite Eh in Ho. exists (sealed r iv (header_bytes h' ++ x)), sbuf', s'. split_and!; [done|done|].
  intros inb Hw Hci Hdup.
  assert (header_ok h') as Hh'.
  { destruct (relays_inv env rx bridge Hrel) as [Ht%Z.leb_gt _]. unfold h'. clear HC. header_ok_tac. }
  destruct (decode_sealed cfgC envC raws sC net_if r iv h' x m inb) as (rxC & outb & sC' & E2 & _ & Hco & Hrx & Hrxiv);
    try done.
  - pose proof (content_bytes sbuf Hb) as Hby. rewrite Hc in Hby. by apply Forall_app in Hby as [_ ?].
  - by rewrite header_mic in Hlen |- * by done.
  - by rewrite Hci.
  - exists rxC, outb, sC'. split_and!; [done|by rewrite Hco|done|done].
Qed.

End Hop.
