(* ===== verification/NetSample.v ===== *)
(** A network of three nodes on the sample crypto backend, and the theorems of
    [NetPdu.v] and [NetFlow.v] at work on it. *)

From S2P Require Import Prelude Byteorder BufSimple MeshDefs Rpl Bridge CryptoIf Psa CryptoPsa Crypto.
From S2P Require Import Subnet NetIv Net NetPdu NetFlow.

#[local] Instance net_sample_crypto : MeshCrypto (crypto_state psa_store) := psa_crypto true 100 2.
#[local] Instance net_sample_promises : MeshCryptoLaws (crypto_state psa_store) :=
  psa_crypto_laws true true 100 2 eq_refl ltac:(discriminate).

(** One subnet, whose first credentials use the keys 1 and 2 of [sample_world]. *)
Definition cred0 : bt_mesh_net_cred := mk_cred 0x35 1 2.
Definition no_cred : bt_mesh_net_cred := mk_cred 0 0 0.
Definition valid_keys : bt_mesh_subnet_keys := mk_subnet_keys true 3 cred0 [] 0 0 0.
Definition no_keys : bt_mesh_subnet_keys := mk_subnet_keys false 0 no_cred [] 0 0 0.
Definition subnet0 : bt_mesh_subnet := mk_subnet 0 0 0 false valid_keys no_keys.

Definition plain_cfg : net_cfg :=
  mk_cfg true false false false false false false false false false false false 1000 16.

Definition adv_buf : bt_buf_simple := mk_buf (replicate 29 0) 0 0 29.

(** A relay with the address [a]. *)
Definition env_of (a : Z) : node_env :=
  mk_node_env (fun _ => false) (fun x => x =? a) 1 0 0 0x10 0x20 None None [] (fun _ => Some adv_buf)
    (mk_env false true false).

Definition node_of (q : Z) : net_node (crypto_state psa_store) :=
  mk_node (mk_state sample_world [subnet0] [] []) (mk_iv 5 q 0 false false false true false (fun _ => false) None None [])
    (rpl_init 4) (brg_init 2) (replicate 3 1) 0 (replicate 3 (0, 0)) 0 [] 2 [].

Definition raws0 (c : bt_mesh_net_cred) : raw_cred := mk_raw (key16 7) (key16 9).

(** Node 1 sends to node 3. *)
Definition payload : bt_buf_simple := mk_buf (replicate 9 0 ++ [1; 2; 3; 4; 5; 6] ++ replicate 14 0) 9 6 29.
Definition tx0 : bt_mesh_net_tx := mk_tx 0 1 3 5 0 false.

(** * The nodes *)

Lemma sample_cred_keys q : cred_keys (world (node_of q)) cred0 (raws0 cred0).
Proof. split; [by exists BT_MESH_KEY_TYPE_CCM|done]. Qed.

Lemma sample_can_receive a q : can_receive (env_of a) raws0 (node_of q).
Proof.
  split.
  - repeat split; simpl; lia.
  - apply sample_ready.
  - constructor; [apply sample_cred_keys|constructor].
Qed.

Lemma bytes_ok (l : list Z) : forallb (fun b => (0 <=? b) && (b <? 256)) l = true -> Forall is_byte l.
Proof.
  intros Hl. apply list.Forall_forall. intros b Hb%list_elem_of_In.
  rewrite forallb_forall in Hl. apply Hl in Hb. unfold is_byte. bool_to_prop. lia.
Qed.

Lemma payload_wf : wf payload.
Proof. split; simpl; try (unfold UINT16_MAX; lia). by apply bytes_ok. Qed.

Lemma adv_buf_wf : wf adv_buf.
Proof. split; simpl; try (unfold UINT16_MAX; lia). by apply bytes_ok. Qed.

(** The PDU node 1 makes, and what node 2 reads of it. *)
Definition sent : bt_buf_simple :=
  match bt_mesh_net_encode plain_cfg (env_of 1) tx0 payload BT_MESH_NONCE_NETWORK (node_of 77) with
  | (Ok b, _) => b
  | _ => payload
  end.

Definition sent2 : bt_buf_simple :=
  match bt_mesh_net_encode plain_cfg (env_of 1) tx0 payload BT_MESH_NONCE_NETWORK (node_of 78) with
  | (Ok b, _) => b
  | _ => payload
  end.

Lemma sent_wf : wf sent.
Proof. split; vm_compute; try (split; congruence); try congruence. by apply bytes_ok. Qed.

Definition m0 : rx_match := mk_match 0 false false 0.

Definition h0 (ttl : Z) : net_header := mk_header 0x35 1 false ttl 77 1 3.

Lemma sample_receives a ttl : a <> 1 -> receives (env_of a) raws0 (node_of 0) BT_MESH_NET_IF_ADV (mk_raw (key16 7) (key16 9)) 5 (h0 ttl) m0.
Proof.
  intros Ha. split; try done.
  - apply sample_can_receive.
  - exists [], cred0, []. split_and!; done.
  - split_and!; [lia|lia|by left|simpl; lia].
  - change ((1 =? a) = false). apply Z.eqb_neq. lia.
  - intros _. apply (bool_decide_unpack _). by vm_compute.
Qed.

(** * The theorems at work *)

Lemma net_caches_refine_witness :
  msg_cache_match sent (node_of 0) = (Ok false, node_of 0) /\ (net_forget (node_of 0)).1 = Crash.
Proof.
  destruct (net_caches_refine sent empty_rx (node_of 0)) as (_ & H2 & _ & _ & H5);
    [repeat split; simpl; lia|apply sent_wf|vm_compute; discriminate|].
  split; [exact H2|by apply H5].
Defined.

(** Two PDUs; the second one is not the first. *)
Lemma net_accepts_once_witness :
  exists rx rx',
    (receive plain_cfg (env_of 2) [(BT_MESH_NET_IF_ADV, sent); (BT_MESH_NET_IF_ADV, sent2)] (node_of 0)).1 =
      [(BT_MESH_NET_IF_ADV, rx); (BT_MESH_NET_IF_ADV, rx')] /\ rx_addr rx = rx_addr rx' /\
    rx_seq rx mod 2 ^ 17 <> rx_seq rx' mod 2 ^ 17.
Proof.
  eexists _, _. split; [vm_compute; reflexivity|]. split; [reflexivity|].
  eapply (net_accepts_once plain_cfg (env_of 2) [(BT_MESH_NET_IF_ADV, sent); (BT_MESH_NET_IF_ADV, sent2)]
    (node_of 0) 0 1); [repeat split; simpl; lia|vm_compute; reflexivity|vm_compute; reflexivity|simpl; lia|reflexivity
    |vm_compute; discriminate|reflexivity].
Defined.

Lemma bt_mesh_net_decode_spec_witness :
  exists r s', bt_mesh_net_decode plain_cfg (env_of 2) sent BT_MESH_NET_IF_ADV empty_rx rx_buf (node_of 0) = (r, s') /\
    msg_window s' = [(1, 77); (0, 0); (0, 0)] /\ can_receive (env_of 2) raws0 s'.
Proof.
  destruct (bt_mesh_net_decode_spec plain_cfg (env_of 2) raws0 sent BT_MESH_NET_IF_ADV (node_of 0))
    as (r & s' & E & Hr & Hk); [apply sample_can_receive|apply sent_wf|].
  exists r, s'. split; [exact E|]. split; [|apply Hk].
  change (decode_answer plain_cfg (env_of 2) raws0 (node_of 0) BT_MESH_NET_IF_ADV (content sent)) with
    (inl (mk_rx 0 1 3 5 0 77 false false false false BT_MESH_NET_IF_ADV false false 255 65535,
       [181; 5; 0; 0; 77; 0; 1; 0; 3; 1; 2; 3; 4; 5; 6]) : bt_mesh_net_rx * list Z + Z) in Hr.
  destruct Hr as (outb & _ & _ & _ & ->). by vm_compute.
Defined.

Lemma tx0_ok : tx_ok tx0 cred0 (node_of 77).
Proof. unfold tx_ok. simpl. split_and!; lia || done. Qed.

Lemma net_encode_decode_witness :
  exists pdu sA' rx outb sB',
    bt_mesh_net_encode plain_cfg (env_of 1) tx0 payload BT_MESH_NONCE_NETWORK (node_of 77) = (Ok pdu, sA') /\
    bt_mesh_net_decode plain_cfg (env_of 2) pdu BT_MESH_NET_IF_ADV empty_rx rx_buf (node_of 0) = (Ok (rx, outb), sB') /\
    drop 9 (content outb) = [1; 2; 3; 4; 5; 6] /\ rx_recv_dst rx = 3.
Proof.
  destruct (net_encode_decode plain_cfg plain_cfg (env_of 1) (env_of 2) raws0 tx0 payload (raws0 cred0)
    (node_of 77) (node_of 0) BT_MESH_NET_IF_ADV m0) as (pdu & sA' & E & Hdec);
    [done|apply tx0_ok|apply sample_cred_keys|apply sample_ready|apply payload_wf|cbn; lia|cbn; lia|vm_compute; by split|vm_compute; congruence|].
  pose proof E as E'. vm_compute in E'. injection E' as <- <-.
  destruct Hdec as (rx & outb & sB' & E2 & Hc & (_ & Hd & _) & _);
    [by apply (sample_receives 2 5)|intros _; apply (bool_decide_unpack _); by vm_compute|].
  eexists _, _, rx, outb, sB'. split_and!; [exact E|exact E2|exact Hc|exact Hd].
Defined.

(** A message to a group the node belongs to, with every bearer in use. *)
Definition group_cfg : net_cfg :=
  mk_cfg true false false false true true true false false false false false 1000 16.

Definition group_env : node_env :=
  mk_node_env (fun d => d =? 0xC000) (fun x => x =? 1) 1 0 0 0x10 0x20 None None [] (fun _ => Some adv_buf)
    (mk_env false true false).

Definition tx_group : bt_mesh_net_tx := mk_tx 0 1 0xC000 5 0 false.

Lemma net_send_spec_witness :
  exists s', bt_mesh_net_send group_cfg group_env tx_group 7 payload (node_of 77) = (Ok (), s') /\
    length (local_queue s') = 1%nat /\ length (n_out s') = 4%nat.
Proof.
  pose proof (net_send_spec group_cfg group_env 7 tx_group payload (raws0 cred0) (node_of 77)) as Hsend.
  change (_ <? _) with false in Hsend. destruct Hsend as (res & s' & E & _ & Hq & _ & Hout);
    [unfold tx_ok; simpl; split_and!; lia || done|apply sample_cred_keys|apply sample_ready|apply payload_wf
    |cbn; lia|cbn; lia|].
  destruct Hout as [-> Ho]. exists s'. split_and!; [exact E|by rewrite Hq|by rewrite Ho].
Defined.

(** What a receiver made of the first PDU, seen by a relay. *)
Definition relay_buf : bt_buf_simple :=
  mk_buf (header_bytes (h0 5) ++ [1; 2; 3; 4; 5; 6] ++ replicate 14 0) 0 15 29.

Definition relay_rx : bt_mesh_net_rx := mk_rx 0 1 3 5 0 77 false false false false BT_MESH_NET_IF_ADV false false 255 65535.

Lemma relay_buf_wf : wf relay_buf.
Proof. split; vm_compute; try (split; congruence); try congruence. by apply bytes_ok. Qed.

Lemma h0_ok : header_ok (h0 5).
Proof. unfold header_ok. simpl. lia. Qed.

Lemma net_relay_spec_witness :
  exists sbuf' s', bt_mesh_net_relay plain_cfg (env_of 2) relay_buf relay_rx false (node_of 0) = (Ok sbuf', s') /\
    length (n_out s') = 1%nat.
Proof.
  destruct (net_relay_spec plain_cfg (env_of 2) relay_buf relay_rx false (node_of 0) (h0 5) [1; 2; 3; 4; 5; 6] (raws0 cred0))
    as (sbuf' & s' & E & _ & Ho & _);
    [apply relay_buf_wf|by vm_compute|apply h0_ok|vm_compute; congruence|done
    |intros adv [= <-]; split_and!; [apply adv_buf_wf|done|vm_compute; congruence]|simpl; lia
    |apply sample_cred_keys|apply sample_ready|].
  exists sbuf', s'. split; [exact E|by rewrite Ho].
Defined.

Lemma net_relay_read_witness :
  exists pdu sbuf' s', bt_mesh_net_relay plain_cfg (env_of 2) relay_buf relay_rx false (node_of 0) = (Ok sbuf', s') /\
    n_out s' = [AdvSend 0x10 pdu].
Proof.
  destruct (net_relay_read plain_cfg plain_cfg (env_of 2) (env_of 3) raws0 relay_buf relay_rx false (node_of 0) (node_of 0)
    (h0 5) [1; 2; 3; 4; 5; 6] (raws0 cred0) adv_buf BT_MESH_NET_IF_ADV m0) as (pdu & sbuf' & s' & E & Ho & _);
    [apply relay_buf_wf|by vm_compute|apply h0_ok|vm_compute; congruence|done|done|done|apply adv_buf_wf|done
    |vm_compute; congruence|vm_compute; by split|simpl; lia|apply sample_cred_keys|apply sample_ready|by right|done|done
    |simpl; lia|by apply (sample_receives 3 4)|].
  exists pdu, sbuf', s'. split; [exact E|exact Ho].
Defined.

(** The layer above answers a message with one of a smaller TTL, while it has
    blocks for it; nobody answers a message of TTL 0. *)
Definition answer (b : bt_buf_simple) (rx : bt_mesh_net_rx) :
    M (net_node (crypto_state psa_store)) (Z * bt_buf_simple * bt_mesh_net_rx) := fun s =>
  match loopback_free s with
  | S n =>
      if 0 <? rx_recv_ttl rx then
        (Ok (0, b, rx), set_local (local_queue s ++ [mk_loop 0 [0; rx_recv_ttl rx - 1; 0; 0; 0; 0; 0; 0; 0; 0]]) n s)
      else (Ok (0, b, rx), s)
  | O => (Ok (0, b, rx), s)
  end.

(** A message of TTL 3 has three answers, one after the other. *)
Definition busy : net_node (crypto_state psa_store) :=
  set_local [mk_loop 0 [0; 3; 0; 0; 0; 0; 0; 0; 0; 0]] 2 (node_of 0).

Example local_empties :
  fst (bt_mesh_net_local answer 10 busy) = Ok (Some ()) /\ loopback_free (snd (bt_mesh_net_local answer 10 busy)) = 3%nat.
Proof. split; vm_compute; reflexivity. Qed.
