(* ===== verification/Va.v ===== *)
(** The label UUIDs of virtual addresses: [mesh/va.c].

    A pointer to a label of the array [virtual_addrs] is the index of its slot.  The
    virtual address of a label comes from the toolbox of [Crypto.v]; what is sent to the
    storage and to its scheduler is recorded in order in [va_ext]. *)

From S2P Require Import Prelude MeshDefs CryptoIf Crypto.

(** * Data *)

(** [struct bt_mesh_va]; [ref] has 15 bits. *)
Record bt_mesh_va := mk_va { va_ref : Z; va_changed : bool; va_addr : Z; va_uuid : list Z }.
#[export] Instance eta_va : Eta bt_mesh_va := fun va =>
  mk_va (va_ref va) (va_changed va) (va_addr va) (va_uuid va).

Definition free_va : bt_mesh_va := mk_va 0 false 0 (replicate 16 0).
#[export] Instance va_inhabited : Inhabited bt_mesh_va := populate free_va.

(** [struct va_val] *)
Record va_val := mk_va_val { val_ref : Z; val_addr : Z; val_uuid : list Z }.

Inductive va_ext_op :=
| VaSave (i : nat) (v : va_val)  (** [bt_storage_save_one("bt/mesh/Va/%x")] *)
| VaDelete (i : nat)             (** [bt_storage_delete] *)
| VaSchedule.                    (** [bt_mesh_settings_store_schedule] *)

Record va_state (W : Type) := mk_va_state {
  va_crypto : W;
  virtual_addrs : list bt_mesh_va;
  va_ext : list va_ext_op
}.
Arguments mk_va_state {W}.
Arguments va_crypto {W}.
Arguments virtual_addrs {W}.
Arguments va_ext {W}.
#[export] Instance eta_va_state {W} : Eta (va_state W) := fun s =>
  mk_va_state (va_crypto s) (virtual_addrs s) (va_ext s).

(** * Looking labels up *)

Definition va_used (va : bt_mesh_va) : bool := negb (va_ref va =? 0).

(** What [bt_mesh_va_uuid_get] looks for; the unassigned address stands for all. *)
Definition va_matches (addr : Z) (va : bt_mesh_va) : bool :=
  va_used va && ((va_addr va =? addr) || (addr =? BT_MESH_ADDR_UNASSIGNED)).

(** The scan of [bt_mesh_va_uuid_get] from slot [i] on. *)
Fixpoint va_scan (addr : Z) (uuid : option nat) (l : list bt_mesh_va) (i : nat) : option nat :=
  match l with
  | [] => None
  | va :: l =>
      if va_matches addr va then
        match uuid with
        | None => Some i
        | Some j => va_scan addr (if (j =? i)%nat then None else uuid) l (S i)
        end
      else va_scan addr uuid l (S i)
  end.

Definition bt_mesh_va_uuid_get (vas : list bt_mesh_va) (addr : Z) (uuid : option nat) : option nat :=
  let i := default 0%nat uuid in va_scan addr uuid (drop i vas) i.

(** [do { uuid = ...; } while (uuid && ++count)]; [None] is out of fuel. *)
Fixpoint collision_loop (vas : list bt_mesh_va) (addr : Z) (n : nat) (uuid : option nat) (count : Z) : option Z :=
  match n with
  | O => None
  | S n =>
      match bt_mesh_va_uuid_get vas addr uuid with
      | None => Some count
      | Some i => collision_loop vas addr n (Some i) (count + 1)
      end
  end.

Definition bt_mesh_va_collision_check (vas : list bt_mesh_va) (addr : Z) : option bool :=
  count ← collision_loop vas addr (S (length vas)) None 0; Some (1 <? count).

Fixpoint va_find_scan (uuid : list Z) (l : list bt_mesh_va) (i : nat) : option nat :=
  match l with
  | [] => None
  | va :: l => if va_used va && (memcmp (va_uuid va) uuid =? 0) then Some i else va_find_scan uuid l (S i)
  end.
Definition bt_mesh_va_find (vas : list bt_mesh_va) (uuid : list Z) : option nat := va_find_scan uuid vas 0.

Definition bt_mesh_va_get_uuid_by_idx (vas : list bt_mesh_va) (idx : Z) : option nat :=
  let idx := u16 idx in
  match vas !! Z.to_nat idx with
  | Some va => if 0 <? va_ref va then Some (Z.to_nat idx) else None
  | None => None
  end.

(** The slot that a pointer into the array names ([PART_OF_ARRAY]); any other pointer is
    [None]. *)
Definition va_at (vas : list bt_mesh_va) (uuid : option nat) : option (nat * bt_mesh_va) :=
  i ← uuid; va ← vas !! i; if va_ref va =? 0 then None else Some (i, va).

Definition bt_mesh_va_get_idx_by_uuid (vas : list bt_mesh_va) (uuid : option nat) : Z + Z :=
  match va_at vas uuid with
  | Some (i, _) => inl (u16 (Z.of_nat i))
  | None => inr (- ENOENT)
  end.

(** The loop of [bt_mesh_va_add]: the label's slot, or the first free one. *)
Fixpoint va_add_scan (uuid : list Z) (l : list bt_mesh_va) (i : nat) (va : option nat) : nat + option nat :=
  match l with
  | [] => inr va
  | x :: l =>
      if va_ref x =? 0 then va_add_scan uuid l (S i) (match va with None => Some i | _ => va end)
      else if memcmp uuid (va_uuid x) =? 0 then inl i
      else va_add_scan uuid l (S i) va
  end.

(** * Operations *)

Section Operations.

Context {W : Type} `{MeshCrypto W}.
Context (SETTINGS : bool).
Notation st := (va_state W).

Definition gets {A} (f : st -> A) : M st A := fun s => (Ok (f s), s).
Definition change (f : st -> st) : M st unit := fun s => (Ok (), f s).
Definition log (o : va_ext_op) : M st unit := change (fun s => s <| va_ext ::= (fun l => l ++ [o]) |>).
Definition on_va (i : nat) (f : bt_mesh_va -> bt_mesh_va) : M st unit :=
  change (fun s => s <| virtual_addrs ::= alter f i |>).
Definition in_crypto {A} (m : M W A) : M st A := fun s =>
  let '(r, w) := m (va_crypto s) in (r, s <| va_crypto := w |>).

Definition schedule : M st unit := if SETTINGS then log VaSchedule else mret ().

Definition va_store (i : nat) : M st unit :=
  _ ← on_va i (fun va => va <| va_changed := true |>); schedule.

Definition set_ref (n : Z) (va : bt_mesh_va) : bt_mesh_va := va <| va_ref := n mod 2 ^ 15 |>.

(** The status, and the slot [*entry] is set to. *)
Definition bt_mesh_va_add (uuid : list Z) : M st (Z * option nat) :=
  vas ← gets virtual_addrs;
  match va_add_scan uuid vas 0 None with
  | inl i =>
      _ ← on_va i (fun va => set_ref (va_ref va + 1) va);
      _ ← va_store i;
      mret (STATUS_SUCCESS, Some i)
  | inr None => mret (STATUS_INSUFF_RESOURCES, None)
  | inr (Some i) =>
      _ ← on_va i (fun va => va <| va_uuid := uuid |>);
      r ← attempt (in_crypto (bt_mesh_virtual_addr uuid));
      match r with
      | inr _ =>
          _ ← on_va i (fun va => va <| va_addr := BT_MESH_ADDR_UNASSIGNED |>);
          mret (STATUS_UNSPECIFIED, None)
      | inl addr =>
          _ ← on_va i (fun va => set_ref 1 (va <| va_addr := addr |>));
          _ ← va_store i;
          mret (STATUS_SUCCESS, Some i)
      end
  end.

Definition bt_mesh_va_del (uuid : option nat) : M st Z :=
  vas ← gets virtual_addrs;
  match va_at vas uuid with
  | None => mret STATUS_CANNOT_REMOVE
  | Some (i, _) =>
      _ ← on_va i (fun va => set_ref (va_ref va - 1) va);
      _ ← va_store i;
      mret STATUS_SUCCESS
  end.

(** ** Storage *)

Definition val_of (va : bt_mesh_va) : va_val := mk_va_val (va_ref va) (va_addr va) (va_uuid va).

Definition va_pending_one (i : nat) : M st unit :=
  va ← gets (fun s => virtual_addrs s !!! i);
  if negb (va_changed va) then mret ()
  else
    _ ← on_va i (fun va => va <| va_changed := false |>);
    log (if va_ref va =? 0 then VaDelete i else VaSave i (val_of va)).

Fixpoint va_pending_loop (n i : nat) : M st unit :=
  match n with
  | O => mret ()
  | S n => _ ← va_pending_one i; va_pending_loop n (S i)
  end.

Definition bt_mesh_va_pending_store : M st unit :=
  vas ← gets virtual_addrs; va_pending_loop (length vas) 0.

(** Loading one record: the index of its name, its length and what reading it gives. *)
Definition va_set (name : option Z) (len_rd : Z) (record : va_val + Z) : M st Z :=
  match name with
  | None => mret (- ENOENT)
  | Some index =>
      if len_rd =? 0 then mret 0
      else
        match record with
        | inr err => mret err
        | inl v =>
            if val_ref v =? 0 then mret 0
            else
              vas ← gets virtual_addrs;
              match vas !! Z.to_nat (u16 index) with
              | None => mret (- ENOBUFS)
              | Some _ =>
                  _ ← on_va (Z.to_nat (u16 index)) (fun va =>
                        set_ref (val_ref v) (va <| va_uuid := val_uuid v |> <| va_addr := val_addr v |>));
                  mret 0
              end
        end
  end.

Definition va_clear_one (va : bt_mesh_va) : bt_mesh_va :=
  if va_used va then va <| va_ref := 0 |> <| va_changed := true |> else va.

Definition bt_mesh_va_clear : M st unit :=
  vas ← gets virtual_addrs;
  if zlen vas =? 0 then mret ()
  else _ ← change (fun s => s <| virtual_addrs ::= map va_clear_one |>); schedule.

End Operations.

(** * The slots that match an address *)

Fixpoint va_slots (addr : Z) (l : list bt_mesh_va) (i : nat) : list nat :=
  match l with
  | [] => []
  | va :: l => if va_matches addr va then i :: va_slots addr l (S i) else va_slots addr l (S i)
  end.

Lemma va_slots_elem addr l : forall i k,
  k ∈ va_slots addr l i <-> (i <= k)%nat /\ exists va, l !! (k - i)%nat = Some va /\ va_matches addr va = true.
Proof.
  induction l as [|x l IH]; intros i k; cbn [va_slots].
  { split; [by intros ?%not_elem_of_nil|intros (_ & va & E & _); by rewrite lookup_nil in E]. }
  assert ((i <= k)%nat /\ (exists va, (x :: l) !! (k - i)%nat = Some va /\ va_matches addr va = true) <->
    (k = i /\ va_matches addr x = true) \/ (S i <= k)%nat /\ exists va, l !! (k - S i)%nat = Some va /\ va_matches addr va = true) as ->.
  { split.
    - intros [Hi (va & E & Hv)]. destruct (decide (k = i)) as [->|].
      + rewrite Nat.sub_diag in E. injection E as ->. by left.
      + right. split; [lia|]. exists va. by replace (k - i)%nat with (S (k - S i)) in E by lia.
    - intros [[-> Hv]|[Hi (va & E & Hv)]]; (split; [lia|]).
      + exists x. by rewrite Nat.sub_diag.
      + exists va. by replace (k - i)%nat with (S (k - S i)) by lia. }
  destruct (va_matches addr x).
  - rewrite elem_of_cons, IH. naive_solver.
  - rewrite IH. naive_solver.
Qed.

Lemma va_scan_first addr l : forall i, va_scan addr None l i = head (va_slots addr l i).
Proof. induction l as [|x l IH]; intros i; cbn; [done|]. by destruct (va_matches addr x). Qed.

Lemma va_slots_drop addr l : forall i j pre rest,
  va_slots addr l i = pre ++ j :: rest -> va_slots addr (drop (j - i) l) j = j :: rest.
Proof.
  induction l as [|x l IH]; intros i j pre rest; cbn [va_slots]; [by destruct pre|].
  intros E. assert (j = i /\ pre = [] /\ va_matches addr x = true \/ exists pre', va_slots addr l (S i) = pre' ++ j :: rest) as [(-> & -> & Hx)|[pre' E']].
  { destruct (va_matches addr x); [|right; by exists pre]. destruct pre; cbn in E; injection E as -> E; [by left|right; by eexists]. }
  - rewrite Nat.sub_diag. cbn. by rewrite Hx in E |- *.
  - assert (S i <= j)%nat as Hj by (apply (va_slots_elem addr l (S i)); rewrite E'; set_solver).
    replace (j - i)%nat with (S (j - S i)) by lia. cbn. by eapply IH.
Qed.

Lemma uuid_get_next vas addr pre rest :
  va_slots addr vas 0 = pre ++ rest -> bt_mesh_va_uuid_get vas addr (last pre) = head rest.
Proof.
  intros E. unfold bt_mesh_va_uuid_get. destruct pre as [|j pre _] using rev_ind.
  { cbn. by rewrite drop_0, va_scan_first, E. }
  rewrite last_snoc. change (va_scan addr (Some j) (drop j vas) j = head rest).
  rewrite <-app_assoc in E. cbn [app] in E.
  apply va_slots_drop in E. rewrite Nat.sub_0_r in E.
  destruct (drop j vas) as [|x l]; cbn [va_slots va_scan] in *; [done|].
  destruct (va_matches addr x).
  - injection E as E. by rewrite Nat.eqb_refl, va_scan_first, E.
  - exfalso. assert (j ∈ va_slots addr l (S j)) as Hj by (rewrite E; set_solver).
    apply va_slots_elem in Hj. lia.
Qed.

Lemma collision_count vas addr rest : forall n pre,
  va_slots addr vas 0 = pre ++ rest -> (length rest < n)%nat ->
  collision_loop vas addr n (last pre) (zlen pre) = Some (zlen (va_slots addr vas 0)).
Proof.
  induction rest as [|j rest IH]; intros n pre E Hn; (destruct n as [|n]; [lia|]); cbn [collision_loop].
  - rewrite (uuid_get_next _ _ _ [] E). by rewrite E, app_nil_r.
  - rewrite (uuid_get_next _ _ _ (j :: rest) E). cbn [head].
    rewrite <-(last_snoc j pre). replace (zlen pre + 1) with (zlen (pre ++ [j])) by (rewrite length_app; cbn; lia).
    apply IH; [by rewrite <-app_assoc|cbn in Hn; lia].
Qed.

Lemma va_slots_length addr l i : (length (va_slots addr l i) <= length l)%nat.
Proof.
  revert i. induction l as [|x l IH]; intros i; cbn; [done|]. pose proof (IH (S i)). destruct (va_matches addr x); cbn; lia.
Qed.

Lemma collision_check_eq vas addr :
  bt_mesh_va_collision_check vas addr = Some (1 <? zlen (va_slots addr vas 0)).
Proof.
  unfold bt_mesh_va_collision_check.
  assert (collision_loop vas addr (S (length vas)) None 0 = Some (zlen (va_slots addr vas 0))) as ->; [|done].
  apply (collision_count vas addr (va_slots addr vas 0) (S (length vas)) [] eq_refl).
  pose proof (va_slots_length addr vas 0). lia.
Qed.

Lemma va_slots_nodup addr l i : NoDup (va_slots addr l i).
Proof.
  revert i. induction l as [|x l IH]; intros i; cbn; [constructor|]. destruct (va_matches addr x); [|done].
  constructor; [|done]. intros Hi%va_slots_elem. lia.
Qed.

Lemma several_slots addr l :
  1 < zlen (va_slots addr l 0) <->
  exists i j x y, i <> j /\ l !! i = Some x /\ l !! j = Some y /\ va_matches addr x = true /\ va_matches addr y = true.
Proof.
  pose proof (va_slots_nodup addr l 0) as Hnd. pose proof (va_slots_elem addr l 0) as Hel.
  setoid_rewrite Nat.sub_0_r in Hel. split.
  - destruct (va_slots addr l 0) as [|i [|j r]]; cbn; [lia..|]. intros _.
    destruct (proj1 (Hel i)) as [_ (x & Hx & Hmx)]; [set_solver|].
    destruct (proj1 (Hel j)) as [_ (y & Hy & Hmy)]; [set_solver|].
    exists i, j, x, y. split_and!; try done. intros ->. inversion Hnd; set_solver.
  - intros (i & j & x & y & Hij & Hx & Hy & Hmx & Hmy).
    assert (i ∈ va_slots addr l 0) as Hi by (apply Hel; split; [lia|by exists x]).
    assert (j ∈ va_slots addr l 0) as Hj by (apply Hel; split; [lia|by exists y]).
    destruct (va_slots addr l 0) as [|a [|b r]]; cbn; [set_solver| |lia].
    exfalso. apply Hij. set_solver.
Qed.

(** * What the storage holds *)

Definition apply_va (d : gmap nat va_val) (o : va_ext_op) : gmap nat va_val :=
  match o with
  | VaSave i v => <[i := v]> d
  | VaDelete i => delete i d
  | VaSchedule => d
  end.
Definition va_disk (d : gmap nat va_val) (l : list va_ext_op) : gmap nat va_val := foldl apply_va d l.

Definition record_of (va : bt_mesh_va) : option va_val := if va_ref va =? 0 then None else Some (val_of va).

(** A slot that is not marked is in the storage as it is; [d] is what the storage held at
    the beginning of the log. *)
Definition va_coherent {W} (d : gmap nat va_val) (s : va_state W) : Prop := forall i,
  match virtual_addrs s !! i with
  | Some va => va_changed va = false -> va_disk d (va_ext s) !! i = record_of va
  | None => va_disk d (va_ext s) !! i = None
  end.

Lemma va_disk_app d l l' : va_disk d (l ++ l') = va_disk (va_disk d l) l'.
Proof. apply foldl_app. Qed.

Lemma coherent_mark {W} d (s : va_state W) i x (w : W) : (i < length (virtual_addrs s))%nat -> va_coherent d s ->
  va_coherent d (mk_va_state w (<[i := x <| va_changed := true |>]> (virtual_addrs s)) (va_ext s ++ [VaSchedule])).
Proof.
  intros Hi Hc k. specialize (Hc k). cbn [virtual_addrs va_ext]. rewrite va_disk_app. change (va_disk (va_disk d (va_ext s)) [VaSchedule]) with (va_disk d (va_ext s)).
  destruct (decide (k = i)) as [->|]; [by rewrite list_lookup_insert_eq by done|by rewrite list_lookup_insert_ne].
Qed.

(** The requests of the storage job, for the slots from [k] on. *)
Fixpoint va_writes (l : list bt_mesh_va) (k : nat) : list va_ext_op :=
  match l with
  | [] => []
  | va :: l =>
      (if va_changed va then [if va_ref va =? 0 then VaDelete k else VaSave k (val_of va)] else []) ++
      va_writes l (S k)
  end.

Lemma va_writes_spec l : forall d k i,
  va_disk d (va_writes l k) !! i =
    match (if (k <=? i)%nat then l !! (i - k)%nat else None) with
    | Some va => if va_changed va then record_of va else d !! i
    | None => d !! i
    end.
Proof.
  induction l as [|va l IH]; intros d k i; cbn [va_writes].
  { by destruct (k <=? i)%nat. }
  rewrite va_disk_app, IH. destruct (Nat.leb_spec k i) as [Hk|Hk].
  2: { rewrite (proj2 (Nat.leb_gt (S k) i)) by lia. unfold va_disk, record_of. destruct (va_changed va); [|done]. cbn.
       destruct (va_ref va =? 0); cbn; [by rewrite lookup_delete_ne by lia|by rewrite lookup_insert_ne by lia]. }
  destruct (decide (i = k)) as [->|Hne].
  - rewrite Nat.sub_diag, (proj2 (Nat.leb_gt (S k) k)) by lia. cbn. unfold va_disk, record_of.
    destruct (va_changed va); cbn; [|done]. destruct (va_ref va =? 0); cbn; [apply lookup_delete_eq|apply lookup_insert_eq].
  - rewrite (proj2 (Nat.leb_le (S k) i)) by lia. replace (i - k)%nat with (S (i - S k)) by lia. cbn.
    destruct (l !! (i - S k)%nat) as [y|]; [destruct (va_changed y); [done|]|];
      (unfold va_disk; destruct (va_changed va); [|done]; cbn;
       destruct (va_ref va =? 0); cbn; [by rewrite lookup_delete_ne|by rewrite lookup_insert_ne]).
Qed.

Definition unmark (va : bt_mesh_va) : bt_mesh_va := va <| va_changed := false |>.

Lemma pending_loop_run {W} l : forall pre (s : va_state W), virtual_addrs s = pre ++ l ->
  va_pending_loop (length l) (length pre) s =
    (Ok (), mk_va_state (va_crypto s) (pre ++ map unmark l) (va_ext s ++ va_writes l (length pre))).
Proof.
  induction l as [|va l IH]; intros pre s Hs; cbn [length va_pending_loop va_writes map].
  { destruct s; cbn in *. rewrite !app_nil_r in *. by subst. }
  assert (virtual_addrs s !! length pre = Some va) as Hi by (rewrite Hs; by apply list_lookup_middle).
  set (ops := if va_changed va then _ else _).
  rewrite (bind_ok _ _ s () (mk_va_state (va_crypto s) ((pre ++ [unmark va]) ++ l) (va_ext s ++ ops))).
  2: { unfold va_pending_one. rewrite (bind_ok _ _ s va s) by (unfold gets; by erewrite list_lookup_total_correct).
       subst ops. destruct (va_changed va) eqn:E; cbn [negb].
       - assert (alter unmark (length pre) (virtual_addrs s) = (pre ++ [unmark va]) ++ l) as Ha.
         { rewrite Hs, <-app_assoc. replace (length pre) with (length pre + 0)%nat by lia. by rewrite alter_app_r. }
         rewrite <-Ha. done.
       - assert (unmark va = va) as -> by (destruct va; cbn in *; by subst).
         rewrite <-app_assoc, app_nil_r. cbn [app]. rewrite <-Hs. by destruct s. }
  replace (S (length pre)) with (length (pre ++ [unmark va])) by (rewrite length_app; cbn; lia).
  rewrite IH by done. cbn [va_crypto va_ext]. by rewrite <-!app_assoc.
Qed.

Lemma pending_store_run {W} (s : va_state W) : bt_mesh_va_pending_store s =
  (Ok (), mk_va_state (va_crypto s) (map unmark (virtual_addrs s)) (va_ext s ++ va_writes (virtual_addrs s) 0)).
Proof. apply (pending_loop_run (virtual_addrs s) [] s eq_refl). Qed.

(** After the storage job the storage holds the labels in use, and nothing else. *)
Definition va_stored {W} (d : gmap nat va_val) (s : va_state W) : Prop := forall i,
  va_disk d (va_ext s) !! i = va ← virtual_addrs s !! i; record_of va.

Lemma pending_stored {W} d (s s' : va_state W) : va_coherent d s -> bt_mesh_va_pending_store s = (Ok (), s') ->
  va_stored d s' /\ va_coherent d s'.
Proof.
  intros Hc. rewrite pending_store_run. intros [= <-].
  assert (va_stored d (mk_va_state (va_crypto s) (map unmark (virtual_addrs s)) (va_ext s ++ va_writes (virtual_addrs s) 0))) as Hs.
  { intros i. specialize (Hc i). cbn [virtual_addrs va_ext].
    rewrite va_disk_app, va_writes_spec, list_lookup_fmap. cbn [Nat.leb]. rewrite Nat.sub_0_r.
    destruct (virtual_addrs s !! i) as [va|]; cbn in *; [|done].
    change (record_of (unmark va)) with (record_of va). destruct (va_changed va); [done|by apply Hc]. }
  split; [done|]. intros i. specialize (Hs i). rewrite Hs. by destruct (virtual_addrs _ !! i).
Qed.

(** * The labels as a table

    From the outside, the module is a table that gives each label a slot, which models
    keep a pointer to and store the index of, and the number of its users. *)

Notation label_table := (gmap (list Z) (nat * Z)) (only parsing).

Section Table.

Context {W : Type} `{MeshCryptoLaws W}.
Notation st := (va_state W).

Definition label_addr (uuid : list Z) : Z := 0x8000 + virtual_hash uuid.

Record va_ok (va : bt_mesh_va) : Prop := {
  vo_ref : 0 <= va_ref va < 2 ^ 15;
  vo_uuid : length (va_uuid va) = 16%nat;
  vo_addr : va_ref va <> 0 -> va_addr va = label_addr (va_uuid va)
}.

Record labels (n : nat) (s : st) (m : label_table) : Prop := {
  lb_size : length (virtual_addrs s) = n;
  lb_ok : Forall va_ok (virtual_addrs s);
  lb_table : forall u i r, m !! u = Some (i, r) <->
    r <> 0 /\ exists va, virtual_addrs s !! i = Some va /\ va_ref va = r /\ va_uuid va = u;
  lb_ready : mc_ready (va_crypto s)
}.

(** What the operations promise on a table with [n] slots. *)
Inductive va_op :=
| VaAdd (uuid : list Z)
| VaDel (p : option nat)
| VaFind (uuid : list Z)
| VaCollision (addr : Z)
| VaIdx (p : option nat)
| VaUuid (idx : Z)
| VaPendingStore
| VaClear.

Inductive va_answer :=
| AStatus (status : Z) (entry : option nat)
| APtr (p : option nat)
| AIdx (r : Z + Z)
| ABool (b : bool)
| ANone.

Definition in_slot (m : label_table) (i : nat) (u : list Z) (r : Z) : Prop := m !! u = Some (i, r).
Definition taken (m : label_table) (i : nat) : Prop := exists u r, in_slot m i u r.

Inductive label_step (n : nat) : va_op -> label_table -> va_answer -> label_table -> Prop :=
| step_add_again m u i r : in_slot m i u r ->
    label_step n (VaAdd u) m (AStatus STATUS_SUCCESS (Some i)) (<[u := (i, r + 1)]> m)
| step_add_new m u i : m !! u = None -> (i < n)%nat -> ~ taken m i ->
    label_step n (VaAdd u) m (AStatus STATUS_SUCCESS (Some i)) (<[u := (i, 1)]> m)
| step_add_full m u : m !! u = None -> (forall i, (i < n)%nat -> taken m i) ->
    label_step n (VaAdd u) m (AStatus STATUS_INSUFF_RESOURCES None) m
| step_del_last m u i : in_slot m i u 1 ->
    label_step n (VaDel (Some i)) m (AStatus STATUS_SUCCESS None) (delete u m)
| step_del m u i r : in_slot m i u r -> r <> 1 ->
    label_step n (VaDel (Some i)) m (AStatus STATUS_SUCCESS None) (<[u := (i, r - 1)]> m)
| step_del_none m p : (forall i, p = Some i -> ~ taken m i) ->
    label_step n (VaDel p) m (AStatus STATUS_CANNOT_REMOVE None) m
| step_find m u : label_step n (VaFind u) m (APtr (fst <$> m !! u)) m
| step_collision m a (b : bool) : a <> BT_MESH_ADDR_UNASSIGNED ->
    (b = true <-> exists u v, u <> v /\ is_Some (m !! u) /\ is_Some (m !! v) /\ label_addr u = a /\ label_addr v = a) ->
    label_step n (VaCollision a) m (ABool b) m
| step_idx m i : taken m i -> label_step n (VaIdx (Some i)) m (AIdx (inl (Z.of_nat i))) m
| step_idx_none m p : (forall i, p = Some i -> ~ taken m i) ->
    label_step n (VaIdx p) m (AIdx (inr (- ENOENT))) m
| step_uuid m k : taken m k -> label_step n (VaUuid (Z.of_nat k)) m (APtr (Some k)) m
| step_uuid_none m k : ~ taken m k -> label_step n (VaUuid (Z.of_nat k)) m (APtr None) m
| step_store m : label_step n VaPendingStore m ANone m
| step_clear m : label_step n VaClear m ANone ∅.

Definition do_va (op : va_op) : M st va_answer :=
  match op with
  | VaAdd u => '(status, entry) ← bt_mesh_va_add true u; mret (AStatus status entry)
  | VaDel p => status ← bt_mesh_va_del true p; mret (AStatus status None)
  | VaFind u => vas ← gets virtual_addrs; mret (APtr (bt_mesh_va_find vas u))
  | VaCollision a =>
      vas ← gets virtual_addrs; b ← checked (bt_mesh_va_collision_check vas a); mret (ABool b)
  | VaIdx p => vas ← gets virtual_addrs; mret (AIdx (bt_mesh_va_get_idx_by_uuid vas p))
  | VaUuid idx => vas ← gets virtual_addrs; mret (APtr (bt_mesh_va_get_uuid_by_idx vas idx))
  | VaPendingStore => _ ← bt_mesh_va_pending_store; mret ANone
  | VaClear => _ ← bt_mesh_va_clear true; mret ANone
  end.

(** ** Slots and labels *)

Lemma label_at n s m i va : labels n s m -> virtual_addrs s !! i = Some va -> va_ref va <> 0 ->
  in_slot m i (va_uuid va) (va_ref va).
Proof. intros Hl Hi Hr. apply (lb_table _ _ _ Hl). split; [done|]. by exists va. Qed.

Lemma label_taken n s m i : labels n s m ->
  taken m i <-> exists va, virtual_addrs s !! i = Some va /\ va_ref va <> 0.
Proof.
  intros Hl. split.
  - intros (u & r & [Hr (va & Hi & <- & _)]%(lb_table _ _ _ Hl)). by exists va.
  - intros (va & Hi & Hr). exists (va_uuid va), (va_ref va). by eapply label_at.
Qed.

Lemma label_ok n s m i va : labels n s m -> virtual_addrs s !! i = Some va -> va_ok va.
Proof. intros Hl Hi. exact (Forall_lookup_1 _ _ _ _ (lb_ok _ _ _ Hl) Hi). Qed.

Lemma label_unique n s m i j x y : labels n s m ->
  virtual_addrs s !! i = Some x -> virtual_addrs s !! j = Some y ->
  va_ref x <> 0 -> va_ref y <> 0 -> va_uuid x = va_uuid y -> i = j.
Proof.
  intros Hl Hi Hj Hx Hy E. pose proof (label_at _ _ _ _ _ Hl Hi Hx) as H1.
  pose proof (label_at _ _ _ _ _ Hl Hj Hy) as H2. rewrite E in H1. unfold in_slot in *. congruence.
Qed.

(** Replacing the contents of one slot, [old], by [new] whose label no other slot has. *)
Lemma labels_replace n s m i old new w :
  labels n s m -> virtual_addrs s !! i = Some old -> va_ok new -> mc_ready w ->
  (va_ref new <> 0 -> forall j r, m !! va_uuid new = Some (j, r) -> j = i) ->
  forall ext, labels n (mk_va_state w (<[i := new]> (virtual_addrs s)) ext)
    (let m' := if va_ref old =? 0 then m else delete (va_uuid old) m in
     if va_ref new =? 0 then m' else <[va_uuid new := (i, va_ref new)]> m').
Proof.
  intros Hl Hi Hnew Hw Hfresh ext. split; cbn; [|by apply Forall_insert; [apply Hl|]| |done].
  { rewrite length_insert. apply Hl. }
  intros u k r. assert (i < length (virtual_addrs s))%nat as Hlt by (by eapply lookup_lt_Some).
  assert ((if va_ref old =? 0 then m else delete (va_uuid old) m) !! u = Some (k, r) <->
    k <> i /\ r <> 0 /\ exists va, virtual_addrs s !! k = Some va /\ va_ref va = r /\ va_uuid va = u) as Hrest.
  { case_if; bool_to_prop.
    - rewrite (lb_table _ _ _ Hl). split; [|naive_solver]. intros [Hr (va & Hk & Hv & Hu)].
      split; [|naive_solver]. intros ->. congruence.
    - rewrite lookup_delete_Some, (lb_table _ _ _ Hl). split.
      + intros [Hne [Hr (va & Hk & Hv & Hu)]]. split; [|naive_solver]. intros ->. congruence.
      + intros (Hne & Hr & va & Hk & Hv & <-). split; [|naive_solver]. intros E. apply Hne. symmetry.
        eapply label_unique; [exact Hl|exact Hi|exact Hk|done|congruence|done]. }
  destruct (decide (k = i)) as [->|Hk].
  - rewrite list_lookup_insert_eq by done. case_if; bool_to_prop.
    + rewrite Hrest. split; [naive_solver|]. intros [Hr (va & E & Hv & _)]. congruence.
    + rewrite lookup_insert_Some, Hrest. split.
      * intros [[<- E]|[_ [? _]]]; [|done]. injection E as <-. split; [done|]. by exists new.
      * intros [Hr (va & E & Hv & Hu)]. injection E as <-. left. by rewrite Hv.
  - rewrite list_lookup_insert_ne by done. case_if; bool_to_prop; [rewrite Hrest; naive_solver|].
    rewrite lookup_insert_Some, Hrest. split.
    + intros [[_ E]|Hr]; [congruence|naive_solver].
    + intros [Hr (va & Hv & Hrv & Hu)]. right. split; [|naive_solver].
      intros Hnu. apply Hk. eapply Hfresh; [done|]. rewrite Hnu. apply (lb_table _ _ _ Hl). naive_solver.
Qed.

(** ** One operation *)

Lemma alter_at {A} (f : A -> A) (l : list A) i x : l !! i = Some x -> alter f i l = <[i := f x]> l.
Proof.
  intros Hi. apply list_eq. intros j. destruct (decide (j = i)) as [->|Hj].
  - rewrite list_lookup_alter_eq, Hi. symmetry. apply list_lookup_insert_eq. by eapply lookup_lt_Some.
  - by rewrite list_lookup_alter_ne, list_lookup_insert_ne by done.
Qed.

Lemma on_va_run i f (s : st) x : virtual_addrs s !! i = Some x ->
  on_va i f s = (Ok (), s <| virtual_addrs := <[i := f x]> (virtual_addrs s) |>).
Proof. intros Hi. unfold on_va, change. by rewrite <-(alter_at f) by exact Hi. Qed.

Lemma va_store_run i (s : st) x : virtual_addrs s !! i = Some x ->
  va_store true i s = (Ok (), mk_va_state (va_crypto s) (<[i := x <| va_changed := true |>]> (virtual_addrs s)) (va_ext s ++ [VaSchedule])).
Proof. intros Hi. unfold va_store. rewrite (bind_ok _ _ _ _ _ (on_va_run _ _ _ _ Hi)). done. Qed.

Lemma va_store_put i (s : st) l x : (i < length l)%nat ->
  va_store true i (s <| virtual_addrs := <[i := x]> l |>) =
    (Ok (), mk_va_state (va_crypto s) (<[i := x <| va_changed := true |>]> l) (va_ext s ++ [VaSchedule])).
Proof.
  intros Hi. erewrite va_store_run by (apply list_lookup_insert_eq; exact Hi). unfold setter; cbn.
  by rewrite list_insert_insert_eq.
Qed.

(** The scan of [bt_mesh_va_add]. *)
Lemma va_add_scan_spec u l : forall i acc, length u = 16%nat -> Forall va_ok l ->
  match va_add_scan u l i acc with
  | inl k => (i <= k)%nat /\ exists va, l !! (k - i)%nat = Some va /\ va_ref va <> 0 /\ va_uuid va = u
  | inr free =>
      (forall va, va ∈ l -> va_ref va <> 0 -> va_uuid va <> u) /\
      match acc with
      | Some k => free = Some k
      | None =>
          match free with
          | None => forall va, va ∈ l -> va_ref va <> 0
          | Some k => (i <= k)%nat /\ exists va, l !! (k - i)%nat = Some va /\ va_ref va = 0
          end
      end
  end.
Proof.
  induction l as [|x l IH]; intros i acc Hu Hl; cbn [va_add_scan].
  { split; [by intros va ?%not_elem_of_nil|]. destruct acc; [done|]. by intros va ?%not_elem_of_nil. }
  apply Forall_cons in Hl as [Hx Hl]. destruct (va_ref x =? 0) eqn:Er; bool_to_prop.
  - specialize (IH (S i) (match acc with None => Some i | _ => acc end) Hu Hl).
    destruct (va_add_scan u l (S i) _) as [k|free].
    + destruct IH as [Hk (va & E & Hv)]. split; [lia|]. exists va. by replace (k - i)%nat with (S (k - S i)) by lia.
    + destruct IH as [Hno Hf]. split; [intros va [->|]%elem_of_cons; [done|by apply Hno]|].
      destruct acc as [j|]; [done|]. rewrite Hf. split; [lia|]. exists x. by rewrite Nat.sub_diag.
  - destruct (memcmp u (va_uuid x) =? 0) eqn:Em; bool_to_prop.
    + apply memcmp_eq in Em; [|by rewrite Hu, (vo_uuid _ Hx)]. split; [lia|]. exists x. by rewrite Nat.sub_diag.
    + specialize (IH (S i) acc Hu Hl). destruct (va_add_scan u l (S i) acc) as [k|free].
      * destruct IH as [Hk (va & E & Hv)]. split; [lia|]. exists va. by replace (k - i)%nat with (S (k - S i)) by lia.
      * destruct IH as [Hno Hf]. split.
        { intros va [->|]%elem_of_cons; [|by apply Hno]. intros _ E. apply Em. by apply memcmp_eq; [rewrite E|]. }
        destruct acc as [j|]; [done|]. destruct free as [k|].
        { destruct Hf as [Hk (va & E & Hv)]. split; [lia|]. exists va. by replace (k - i)%nat with (S (k - S i)) by lia. }
        intros va [->|]%elem_of_cons; [done|by apply Hf].
Qed.

Definition keeps_coherent (s s' : st) : Prop := forall d, va_coherent d s -> va_coherent d s'.
#[local] Instance keeps_coherent_refl : Reflexive keeps_coherent.
Proof. by intros s d. Qed.

Lemma set_ref_ok x r : va_ok x -> 0 <= r < 2 ^ 15 -> (va_ref x <> 0 \/ r = 0) -> va_ok (set_ref r x).
Proof. intros [] Hr Hx. split; cbn; rewrite ?Z.mod_small by lia; [done|done|]. intros ?. apply vo_addr0. destruct Hx; lia. Qed.

Lemma mark_ok x b : va_ok x -> va_ok (x <| va_changed := b |>).
Proof. by intros []. Qed.

Lemma mod15_id r : 0 <= r < 2 ^ 15 -> r mod 2 ^ 15 = r.
Proof. intros. by apply Z.mod_small. Qed.

(** Changing the count of a label in use, and marking it for the storage. *)
Lemma count_changed n s m i x r k :
  labels n s m -> virtual_addrs s !! i = Some x -> va_ref x <> 0 -> r = va_ref x + k -> 0 <= r < 2 ^ 15 ->
  exists s', (forall B (f : M st B), (_ ← on_va i (fun va => set_ref (va_ref va + k) va); _ ← va_store true i; f) s = f s') /\
    labels n s' (if r =? 0 then delete (va_uuid x) m else <[va_uuid x := (i, r)]> m) /\ keeps_coherent s s'.
Proof.
  intros Hl Hi Hx Er Hr. eexists. split.
  { intros B f. rewrite (bind_ok _ _ _ _ _ (on_va_run _ _ _ _ Hi)).
    rewrite (bind_ok _ _ _ _ _ (va_store_put i s _ _ (lookup_lt_Some _ _ _ Hi))). done. }
  split; [|intros d; apply coherent_mark; by eapply lookup_lt_Some]. rewrite <-Er.
  pose proof (labels_replace n s m i x (set_ref r x <| va_changed := true |>) (va_crypto s) Hl Hi) as Hl'.
  cbn in Hl'. rewrite (mod15_id r Hr), (proj2 (Z.eqb_neq _ _) Hx) in Hl'.
  rewrite <-(insert_delete_eq m). apply Hl'; [|apply Hl|].
  - apply mark_ok, set_ref_ok; [by eapply label_ok|done|by left].
  - intros _ j r' Hj. pose proof (label_at _ _ _ _ _ Hl Hi Hx) as Hm. unfold in_slot in Hm. congruence.
Qed.

Lemma va_add_run n s m u : labels n s m -> length u = 16%nat ->
  (forall i r, m !! u = Some (i, r) -> r + 1 < 2 ^ 15) ->
  exists status e s' m', bt_mesh_va_add true u s = (Ok (status, e), s') /\
    label_step n (VaAdd u) m (AStatus status e) m' /\ labels n s' m' /\ keeps_coherent s s'.
Proof.
  intros Hl Hu Hmax. unfold bt_mesh_va_add.
  rewrite (bind_ok _ _ s (virtual_addrs s) s) by done.
  pose proof (va_add_scan_spec u (virtual_addrs s) 0 None Hu (lb_ok _ _ _ Hl)) as Hscan.
  destruct (va_add_scan u (virtual_addrs s) 0 None) as [i|free].
  { destruct Hscan as (_ & x & Hi & Hr & Hxu). rewrite Nat.sub_0_r in Hi.
    pose proof (label_at _ _ _ _ _ Hl Hi Hr) as Hm. unfold in_slot in Hm. rewrite Hxu in Hm.
    pose proof (vo_ref _ (label_ok _ _ _ _ _ Hl Hi)). specialize (Hmax _ _ Hm).
    destruct (count_changed n s m i x (va_ref x + 1) 1 Hl Hi Hr) as (s' & E & Hl' & Hc'); [done|lia|].
    rewrite E. rewrite (proj2 (Z.eqb_neq _ _)), Hxu in Hl' by lia.
    eexists _, _, s', _. split; [done|]. split; [by apply step_add_again|done]. }
  destruct Hscan as [Hno Hfree].
  assert (m !! u = None) as Hmu.
  { destruct (m !! u) as [[j r]|] eqn:E; [|done]. apply (lb_table _ _ _ Hl) in E as (Hrj & va & Hj & <- & Hvu).
    exfalso. apply (Hno va); [by eapply list_elem_of_lookup_2|done|done]. }
  destruct free as [i|].
  - destruct Hfree as (_ & x & Hi & Hr). rewrite Nat.sub_0_r in Hi.
    rewrite (bind_ok _ _ _ _ _ (on_va_run _ _ _ _ Hi)).
    destruct (virtual_addr_yields (va_crypto s) u (lb_ready _ _ _ Hl)) as (w' & E & _ & Hw').
    set (s1 := s <| virtual_addrs := _ |>).
    rewrite (bind_ok _ _ s1 (inl (label_addr u)) (s1 <| va_crypto := w' |>)).
    2: { unfold attempt, in_crypto, s1. cbn. by rewrite E. }
    assert (i < length (virtual_addrs s))%nat as Hlt by (by eapply lookup_lt_Some).
    set (new := mk_va 1 (va_changed x) (label_addr u) u).
    rewrite (bind_ok _ _ _ () (s <| va_crypto := w' |> <| virtual_addrs := <[i := new]> (virtual_addrs s) |>)).
    2: { erewrite on_va_run by (apply list_lookup_insert_eq; exact Hlt). unfold s1, setter; cbn.
         by rewrite list_insert_insert_eq. }
    rewrite (bind_ok _ _ _ _ _ (va_store_put i (s <| va_crypto := w' |>) _ new Hlt)).
    eexists _, _, _, _. split; [done|]. split; [|split; [|intros d; apply (coherent_mark d s); exact Hlt]].
    { apply (step_add_new n m u i); [done| |rewrite (label_taken n s) by done; intros (va & Hva & ?); congruence].
      by rewrite <-(lb_size _ _ _ Hl). }
    pose proof (labels_replace n s m i x (new <| va_changed := true |>) w' Hl Hi) as Hl'.
    cbn in Hl'. rewrite Hr, Z.eqb_refl in Hl'. apply Hl'; [by split|done|].
    intros _ j r Hj. congruence.
  - eexists _, _, s, m. split; [done|]. split; [|by split]. apply step_add_full; [done|].
    intros i Hi. rewrite (label_taken n s) by done. rewrite <-(lb_size _ _ _ Hl) in Hi.
    destruct (lookup_lt_is_Some_2 _ _ Hi) as [x Hx]. exists x. split; [done|].
    apply Hfree. by eapply list_elem_of_lookup_2.
Qed.

Lemma va_at_spec n s m p : labels n s m ->
  match va_at (virtual_addrs s) p with
  | Some (i, x) => p = Some i /\ virtual_addrs s !! i = Some x /\ va_ref x <> 0
  | None => forall i, p = Some i -> ~ taken m i
  end.
Proof.
  intros Hl. unfold va_at. destruct p as [i|]; cbn; [|done].
  destruct (virtual_addrs s !! i) as [x|] eqn:Hi; cbn.
  - case_if; bool_to_prop; [|done]. intros j [= <-]. rewrite (label_taken n s) by done. intros (va & ? & ?). congruence.
  - intros j [= <-]. rewrite (label_taken n s) by done. intros (va & ? & ?). congruence.
Qed.

Lemma del_run n s m p : labels n s m ->
  exists status s' m', bt_mesh_va_del true p s = (Ok status, s') /\
    label_step n (VaDel p) m (AStatus status None) m' /\ labels n s' m' /\ keeps_coherent s s'.
Proof.
  intros Hl. unfold bt_mesh_va_del. rewrite (bind_ok _ _ s (virtual_addrs s) s) by done.
  pose proof (va_at_spec n s m p Hl) as Hp. destruct (va_at _ p) as [[i x]|].
  - destruct Hp as (-> & Hi & Hr). pose proof (vo_ref _ (label_ok _ _ _ _ _ Hl Hi)).
    destruct (count_changed n s m i x (va_ref x - 1) (-1) Hl Hi Hr) as (s' & E & Hl' & Hc'); [lia|lia|].
    pose proof (label_at _ _ _ _ _ Hl Hi Hr) as Hm.
    eexists _, s', _. split; [apply E|]. split; [|by split]. case_if; bool_to_prop.
    + apply step_del_last. by replace 1 with (va_ref x) by lia.
    + apply step_del; [done|lia].
  - eexists _, s, m. split; [done|]. split; [by apply step_del_none|by split].
Qed.

Lemma find_spec n s m u : labels n s m -> length u = 16%nat ->
  bt_mesh_va_find (virtual_addrs s) u = fst <$> m !! u.
Proof.
  intros Hl Hu. unfold bt_mesh_va_find.
  assert (forall l i, Forall va_ok l -> match va_find_scan u l i with
    | Some k => (i <= k)%nat /\ exists va, l !! (k - i)%nat = Some va /\ va_ref va <> 0 /\ va_uuid va = u
    | None => forall va, va ∈ l -> va_ref va <> 0 -> va_uuid va <> u end) as Hscan.
  { induction l as [|x l IH]; intros i Hok; cbn [va_find_scan]; [by intros va ?%not_elem_of_nil|].
    apply Forall_cons in Hok as [Hx Hok]. destruct (va_used x && _) eqn:E.
    - unfold va_used in E. bool_to_prop. split; [done|]. exists x. rewrite Nat.sub_diag.
      split_and!; [done..|]. apply memcmp_eq; [|done]. by rewrite Hu, (vo_uuid _ Hx).
    - specialize (IH (S i) Hok). destruct (va_find_scan u l (S i)) as [k|].
      + destruct IH as [Hk (va & E' & Hv)]. split; [lia|]. exists va. by replace (k - i)%nat with (S (k - S i)) by lia.
      + intros va [->|]%elem_of_cons; [|by apply IH]. intros Hr <-.
        rewrite (proj2 (memcmp_eq _ _ eq_refl)) in E by done. unfold va_used in E.
        rewrite (proj2 (Z.eqb_neq _ _)) in E by done. done. }
  specialize (Hscan (virtual_addrs s) 0%nat (lb_ok _ _ _ Hl)). destruct (va_find_scan _ _ _) as [i|].
  - destruct Hscan as (_ & va & Hi & Hr & <-). rewrite Nat.sub_0_r in Hi.
    pose proof (label_at _ _ _ _ _ Hl Hi Hr) as Hm. unfold in_slot in Hm. by rewrite Hm.
  - destruct (m !! u) as [[j r]|] eqn:E; [|done]. apply (lb_table _ _ _ Hl) in E as (Hrj & va & Hj & <- & Hvu).
    exfalso. apply (Hscan va); [by eapply list_elem_of_lookup_2|done|done].
Qed.

Lemma collision_spec n s m a : labels n s m -> a <> BT_MESH_ADDR_UNASSIGNED ->
  1 < zlen (va_slots a (virtual_addrs s) 0) <->
  exists u v, u <> v /\ is_Some (m !! u) /\ is_Some (m !! v) /\ label_addr u = a /\ label_addr v = a.
Proof.
  intros Hl Ha. rewrite several_slots.
  assert (forall va i, virtual_addrs s !! i = Some va -> va_matches a va = true <-> va_ref va <> 0 /\ label_addr (va_uuid va) = a) as Hmt.
  { intros va i Hi. pose proof (vo_addr _ (label_ok _ _ _ _ _ Hl Hi)) as Hva. unfold va_matches, va_used.
    rewrite (proj2 (Z.eqb_neq a _) Ha), orb_false_r, andb_true_iff, negb_true_iff, Z.eqb_neq, Z.eqb_eq. naive_solver congruence. }
  split.
  - intros (i & j & x & y & Hij & Hx & Hy & Hmx & Hmy). rewrite (Hmt _ _ Hx) in Hmx. rewrite (Hmt _ _ Hy) in Hmy.
    destruct Hmx as [Hrx Hax], Hmy as [Hry Hay]. exists (va_uuid x), (va_uuid y).
    split_and!; [|by eexists; eapply label_at|by eexists; eapply label_at|done|done].
    intros E. apply Hij. by eapply label_unique.
  - intros (u & v & Huv & [[i r] Hu] & [[j r'] Hv] & Hau & Hav).
    apply (lb_table _ _ _ Hl) in Hu as (Hr & x & Hi & <- & <-). apply (lb_table _ _ _ Hl) in Hv as (Hr' & y & Hj & <- & <-).
    exists i, j, x, y. split_and!; [congruence|done|done|by apply (Hmt _ _ Hi)|by apply (Hmt _ _ Hj)].
Qed.

(** ** Any sequence of operations *)

Definition va_op_ok (op : va_op) : Prop :=
  match op with
  | VaAdd u | VaFind u => length u = 16%nat
  | VaCollision a => a <> BT_MESH_ADDR_UNASSIGNED
  | VaUuid idx => 0 <= idx < 2 ^ 16
  | _ => True
  end.

Lemma clear_run n s m : labels n s m ->
  exists s', bt_mesh_va_clear true s = (Ok (), s') /\ labels n s' ∅ /\ keeps_coherent s s'.
Proof.
  intros Hl. unfold bt_mesh_va_clear. rewrite (bind_ok _ _ s (virtual_addrs s) s) by done.
  assert (labels n (mk_va_state (va_crypto s) (map va_clear_one (virtual_addrs s)) (va_ext s ++ [VaSchedule])) ∅) as Hl'.
  { split; cbn; [rewrite length_map; apply Hl| | |apply Hl].
    - apply Forall_fmap, (Forall_impl _ _ _ (lb_ok _ _ _ Hl)). intros va Hva. cbn. unfold va_clear_one.
      case_if; [|done]. destruct Hva. split; cbn; [lia|done|done].
    - intros u i r. rewrite lookup_empty. split; [done|]. intros (Hr & va & Hi & Hva & _).
      rewrite list_lookup_fmap in Hi. destruct (virtual_addrs s !! i) as [x|]; [|done]. injection Hi as <-.
      unfold va_clear_one, va_used in Hva. destruct (va_ref x =? 0) eqn:E; cbn in Hva; [by bool_to_prop; congruence|congruence]. }
  case_if; bool_to_prop.
  - exists s. split; [done|]. split; [|done]. destruct (virtual_addrs s) eqn:E; [|cbn in *; lia].
    destruct Hl' as [? ? Ht ?]. cbn in *. split; rewrite ?E; [done|done|by rewrite ?E|done].
  - eexists. split; [done|]. split; [exact Hl'|]. intros d Hc i. specialize (Hc i).
    unfold setter; cbn. rewrite va_disk_app, list_lookup_fmap. cbn.
    destruct (virtual_addrs s !! i) as [x|]; cbn; [|done]. unfold va_clear_one. case_if; [done|exact Hc].
Qed.

Lemma unmark_labels n s m ext : labels n s m -> labels n (mk_va_state (va_crypto s) (map unmark (virtual_addrs s)) ext) m.
Proof.
  intros Hl. split; cbn; [rewrite length_map; apply Hl| | |apply Hl].
  - apply Forall_fmap, (Forall_impl _ _ _ (lb_ok _ _ _ Hl)). intros va Hva. by apply mark_ok.
  - intros u i r. rewrite (lb_table _ _ _ Hl), list_lookup_fmap. split.
    + intros (Hr & va & Hi & Hva & Hu). split; [done|]. exists (unmark va). by rewrite Hi.
    + intros (Hr & va & Hi & Hva & Hu). split; [done|].
      destruct (virtual_addrs s !! i) as [x|]; [|done]. injection Hi as <-. by exists x.
Qed.

Lemma va_op_answers n s m op : labels n s m -> Z.of_nat n <= 2 ^ 16 -> va_op_ok op ->
  (forall u i r, m !! u = Some (i, r) -> r + 1 < 2 ^ 15) ->
  exists a s' m', do_va op s = (Ok a, s') /\ label_step n op m a m' /\ labels n s' m' /\ keeps_coherent s s'.
Proof.
  intros Hl Hn Hop Hmax. assert (forall k, taken m k -> (k < n)%nat) as Htk.
  { intros k (va & Hk & _)%(label_taken n s m k Hl). rewrite <-(lb_size _ _ _ Hl). by eapply lookup_lt_Some. }
  destruct op as [u|p|u|a|p|idx| |]; cbn [do_va va_op_ok] in *.
  - destruct (va_add_run n s m u Hl Hop) as (status & e & s' & m' & E & Hs); [eauto|].
    exists (AStatus status e), s', m'. by rewrite (bind_ok _ _ _ _ _ E).
  - destruct (del_run n s m p Hl) as (status & s' & m' & E & Hs).
    exists (AStatus status None), s', m'. by rewrite (bind_ok _ _ _ _ _ E).
  - exists (APtr (fst <$> m !! u)), s, m. rewrite (bind_ok _ _ s (virtual_addrs s) s) by done.
    rewrite (find_spec n s m u Hl Hop). split; [done|]. split; [apply step_find|by split].
  - exists (ABool (1 <? zlen (va_slots a (virtual_addrs s) 0))), s, m. rewrite (bind_ok _ _ s (virtual_addrs s) s) by done.
    rewrite collision_check_eq. split; [done|]. split; [|by split]. apply step_collision; [done|].
    rewrite Z.ltb_lt. by apply (collision_spec n).
  - rewrite (bind_ok _ _ s (virtual_addrs s) s) by done. unfold bt_mesh_va_get_idx_by_uuid.
    pose proof (va_at_spec n s m p Hl) as Hp. destruct (va_at _ p) as [[i x]|].
    + destruct Hp as (-> & Hi & Hr). assert (taken m i) as Ht by (eexists _, _; by eapply label_at).
      specialize (Htk _ Ht). rewrite u16_id by lia. exists (AIdx (inl (Z.of_nat i))), s, m.
      split; [done|]. split; [by apply step_idx|by split].
    + exists (AIdx (inr (- ENOENT))), s, m. split; [done|]. split; [by apply step_idx_none|by split].
  - rewrite (bind_ok _ _ s (virtual_addrs s) s) by done. unfold bt_mesh_va_get_uuid_by_idx.
    rewrite u16_id by lia. rewrite <-(Z2Nat.id idx) by lia. rewrite Nat2Z.id. set (k := Z.to_nat idx).
    eexists _, s, m. split; [done|]. split; [|by split].
    destruct (virtual_addrs s !! k) as [x|] eqn:Hk.
    2: { apply step_uuid_none. rewrite (label_taken n s m k Hl). intros (va & ? & _). congruence. }
    destruct (0 <? va_ref x) eqn:Er; bool_to_prop.
    + apply step_uuid, (label_taken n s m k Hl). exists x. split; [done|lia].
    + apply step_uuid_none. rewrite (label_taken n s m k Hl). intros (va & ? & ?).
      pose proof (vo_ref _ (label_ok _ _ _ _ _ Hl Hk)). assert (va = x) as -> by congruence. lia.
  - eexists ANone, _, m. rewrite (bind_ok _ _ _ _ _ (pending_store_run s)). split; [done|].
    split; [apply step_store|]. split; [by apply unmark_labels|]. intros d Hc.
    apply (pending_stored d s); [done|]. apply pending_store_run.
  - destruct (clear_run n s m Hl) as (s' & E & Hl' & Hc). exists ANone, s', ∅.
    rewrite (bind_ok _ _ _ _ _ E). split; [done|]. split; [apply step_clear|done].
Qed.

Fixpoint run_va (ops : list va_op) : M st (list va_answer) :=
  match ops with
  | [] => mret []
  | op :: ops => a ← do_va op; l ← run_va ops; mret (a :: l)
  end.

Inductive label_run (n : nat) : list va_op -> label_table -> list va_answer -> label_table -> Prop :=
| run_nil m : label_run n [] m [] m
| run_cons op ops m a m1 l m' : label_step n op m a m1 -> label_run n ops m1 l m' ->
    label_run n (op :: ops) m (a :: l) m'.

Lemma step_count n op m a m' b : label_step n op m a m' -> 0 <= b ->
  (forall u i r, m !! u = Some (i, r) -> r <= b) -> forall u i r, m' !! u = Some (i, r) -> r <= b + 1.
Proof.
  intros Hs Hb Hm u k c Hu.
  assert (m !! u = Some (k, c) -> c <= b + 1) as Hsame by (intros E; specialize (Hm _ _ _ E); lia).
  destruct Hs; try by apply Hsame.
  - apply lookup_insert_Some in Hu as [[<- [= <- <-]]|[_ E]]; [|by apply Hsame]. rename select (in_slot _ _ _ _) into Hin. specialize (Hm _ _ _ Hin). lia.
  - apply lookup_insert_Some in Hu as [[<- [= <- <-]]|[_ E]]; [lia|by apply Hsame].
  - apply lookup_delete_Some in Hu as [_ E]. by apply Hsame.
  - apply lookup_insert_Some in Hu as [[<- [= <- <-]]|[_ E]]; [|by apply Hsame]. rename select (in_slot _ _ _ _) into Hin. specialize (Hm _ _ _ Hin). lia.
Qed.

Lemma va_run_answers n ops : forall b s m, labels n s m -> Z.of_nat n <= 2 ^ 16 -> Forall va_op_ok ops -> 0 <= b ->
  (forall u i r, m !! u = Some (i, r) -> r <= b) -> b + zlen ops < 2 ^ 15 ->
  exists l s' m', run_va ops s = (Ok l, s') /\ label_run n ops m l m' /\ labels n s' m' /\ keeps_coherent s s'.
Proof.
  induction ops as [|op ops IH]; intros b s m Hl Hn Hops Hb Hm Hlen; cbn [run_va].
  { exists [], s, m. split; [done|]. split; [constructor|done]. }
  apply Forall_cons in Hops as [Hop Hops]. cbn [length] in Hlen.
  destruct (va_op_answers n s m op Hl Hn Hop) as (a & s1 & m1 & E & Hs & Hl1 & Hc1).
  { intros u i r E. specialize (Hm _ _ _ E). lia. }
  destruct (IH (b + 1) s1 m1 Hl1 Hn Hops) as (l & s' & m' & E' & Hr & Hl' & Hc'); [lia|by eapply step_count|lia|].
  exists (a :: l), s', m'. rewrite (bind_ok _ _ _ _ _ E), (bind_ok _ _ _ _ _ E').
  split; [done|]. split; [by econstructor|]. split; [done|]. intros d Hd. by apply Hc', Hc1.
Qed.

(** C32: The labels are a table of 16-byte UUIDs.  Any sequence of additions, deletions,
    look-ups, collision checks, storage jobs and clearings runs to its end and answers as
    the table does: a label that is added again has one more user, a new one gets a free
    slot and keeps it until its last user deletes it, an addition is refused exactly when
    every slot is taken, and a collision is reported exactly when two labels in use have
    the virtual address; so long as no label has 2^15 users, the width of the count. *)
Theorem va_refines_labels n ops b s m :
  labels n s m -> Z.of_nat n <= 2 ^ 16 -> Forall va_op_ok ops -> 0 <= b ->
  (forall u i r, m !! u = Some (i, r) -> r <= b) -> b + zlen ops < 2 ^ 15 ->
  exists l s' m', run_va ops s = (Ok l, s') /\ label_run n ops m l m' /\ labels n s' m'.
Proof.
  intros Hl Hn Hops Hb Hm Hlen. destruct (va_run_answers n ops b s m) as (l & s' & m' & E & Hr & Hl' & _); eauto 10.
Qed.

(** ** Restart *)

(** The records of the storage, read at start-up in some order. *)
Fixpoint load_vas (l : list (nat * va_val)) : M st unit :=
  match l with
  | [] => mret ()
  | (i, v) :: l => _ ← va_set (Some (Z.of_nat i)) 20 (inl v); load_vas l
  end.

Definition restored (v : va_val) (va : bt_mesh_va) : bt_mesh_va :=
  set_ref (val_ref v) (va <| va_uuid := val_uuid v |> <| va_addr := val_addr v |>).

Lemma load_run n l : Z.of_nat n <= 2 ^ 16 -> forall s : st, length (virtual_addrs s) = n -> NoDup l.*1 ->
  (forall i v, (i, v) ∈ l -> (i < n)%nat /\ val_ref v <> 0) ->
  exists vas, load_vas l s = (Ok (), s <| virtual_addrs := vas |>) /\ length vas = n /\
    forall i, vas !! i = match (list_to_map l : gmap nat va_val) !! i with
      | Some v => restored v <$> virtual_addrs s !! i | None => virtual_addrs s !! i end.
Proof.
  intros Hn. induction l as [|[k v] l IH]; intros s Hs Hnd Hl; cbn [load_vas].
  { exists (virtual_addrs s). split; [by destruct s|]. done. }
  apply NoDup_cons in Hnd as [Hk Hnd]. destruct (Hl k v) as [Hlt Hv]; [set_solver|].
  rewrite <-Hs in Hlt. destruct (lookup_lt_is_Some_2 _ _ Hlt) as [x Hx].
  destruct (IH (s <| virtual_addrs := <[k := restored v x]> (virtual_addrs s) |>)) as (vas & E & Hlen & Hvas).
  { cbn. by rewrite length_insert. }
  { done. }
  { intros i v' Hi. apply Hl. set_solver. }
  exists vas. rewrite (bind_ok _ _ s 0 (s <| virtual_addrs := <[k := restored v x]> (virtual_addrs s) |>)).
  2: { unfold va_set. cbn [Z.eqb]. rewrite (proj2 (Z.eqb_neq _ _) Hv).
       rewrite (bind_ok _ _ s (virtual_addrs s) s) by done. rewrite u16_id, Nat2Z.id, Hx by lia.
       by rewrite (bind_ok _ _ _ _ _ (on_va_run _ _ _ _ Hx)). }
  split; [exact E|]. split; [done|]. intros i. rewrite Hvas. cbn [virtual_addrs].
  unfold setter; cbn. destruct (decide (i = k)) as [->|Hik].
  - assert ((list_to_map l : gmap nat va_val) !! k = None) as -> by (by apply not_elem_of_list_to_map_1).
    rewrite list_lookup_insert_eq, lookup_insert_eq by done. by rewrite Hx.
  - by rewrite list_lookup_insert_ne, lookup_insert_ne by done.
Qed.

Lemma record_ok n s m d i v : labels n s m -> va_stored d s -> va_disk d (va_ext s) !! i = Some v ->
  exists va, virtual_addrs s !! i = Some va /\ v = val_of va /\ va_ref va <> 0 /\ va_ok va.
Proof.
  intros Hl Hst Hi. rewrite Hst in Hi. destruct (virtual_addrs s !! i) as [va|] eqn:E; [|done]. cbn in Hi.
  unfold record_of in Hi. case_if_in Hi; [done|]. bool_to_prop. injection Hi as <-. exists va.
  split_and!; [done..|]. by eapply label_ok.
Qed.

Lemma free_va_ok : va_ok free_va.
Proof. by split. Qed.

Lemma loaded_labels n s m d w l : labels n s m -> va_stored d s -> Z.of_nat n <= 2 ^ 16 -> mc_ready w ->
  NoDup l.*1 -> list_to_map l = va_disk d (va_ext s) ->
  exists s', load_vas l (mk_va_state w (replicate n free_va) []) = (Ok (), s') /\ labels n s' m /\
    va_coherent (va_disk d (va_ext s)) s'.
Proof.
  intros Hl Hst Hn Hw Hnd Hmap.
  assert (forall i v, (i, v) ∈ l <-> va_disk d (va_ext s) !! i = Some v) as Hin.
  { intros i v. rewrite <-Hmap. by apply elem_of_list_to_map. }
  destruct (load_run n l Hn (mk_va_state w (replicate n free_va) [])) as (vas & E & Hlen & Hvas).
  { apply length_replicate. } { done. }
  { intros i v (va & Hi & -> & Hr & _)%Hin%(record_ok n s m d); [|done..]. split; [|done].
    rewrite <-(lb_size _ _ _ Hl). by eapply lookup_lt_Some. }
  assert (forall i va, vas !! i = Some va -> (va = free_va /\ va_disk d (va_ext s) !! i = None) \/
    exists x, virtual_addrs s !! i = Some x /\ va_ref x <> 0 /\ va = unmark x /\ va_ok x) as Hrel.
  { intros i va Hi. rewrite Hvas, Hmap in Hi. cbn [virtual_addrs] in Hi.
    destruct (va_disk d (va_ext s) !! i) as [v|] eqn:Ed.
    - right. destruct (record_ok n s m d i v) as (x & Hx & -> & Hr & Hok); [done..|]. exists x.
      split_and!; [done..| |done]. rewrite lookup_replicate_2 in Hi.
      2: { rewrite <-(lb_size _ _ _ Hl). by eapply lookup_lt_Some. }
      injection Hi as <-. unfold restored, val_of, set_ref, unmark, setter. cbn. rewrite mod15_id by apply Hok. by destruct x.
    - left. by apply lookup_replicate_1 in Hi as [-> _]. }
  eexists. split; [exact E|]. split.
  - split; cbn; [done| | |done].
    + apply Forall_lookup. intros i va Hi. destruct (Hrel i va Hi) as [[-> _]|(x & _ & _ & -> & Hok)]; [apply free_va_ok|by apply mark_ok].
    + intros u i r. rewrite (lb_table _ _ _ Hl). split; intros (Hr & va & Hi & Hva & Hu); (split; [done|]).
      * destruct (lookup_lt_is_Some_2 vas i) as [y Hy]; [rewrite Hlen, <-(lb_size _ _ _ Hl); by eapply lookup_lt_Some|].
        exists y. destruct (Hrel i y Hy) as [[_ Hd]|(x & Hx & _ & -> & _)].
        { rewrite Hst, Hi in Hd. cbn in Hd. unfold record_of in Hd. rewrite Hva, (proj2 (Z.eqb_neq _ _) Hr) in Hd. done. }
        assert (x = va) as -> by congruence. done.
      * destruct (Hrel i va Hi) as [[-> _]|(x & Hx & _ & -> & _)]; [by cbn in Hva; subst|]. exists x. done.
  - intros i. cbn. destruct (vas !! i) as [va|] eqn:Hi.
    + intros _. destruct (Hrel i va Hi) as [[-> Hd]|(x & Hx & Hr & -> & _)]; [done|]. rewrite Hst, Hx. done.
    + rewrite Hst. destruct (virtual_addrs s !! i) as [x|] eqn:Hx; [|done]. apply lookup_lt_Some in Hx.
      apply lookup_ge_None in Hi. rewrite (lb_size _ _ _ Hl) in Hx. lia.
Qed.

(** The labels survive a restart in their slots.  After any sequence of operations,
    storage jobs in between included, a storage job leaves in the storage exactly the
    labels in use; a node that starts with that storage, whatever the order in which it
    reads the records, has the same table of labels: the same slots, to which the stored
    subscriptions and publications refer by index, and the same numbers of users. *)
Theorem va_restart n ops b s m d :
  labels n s m -> va_coherent d s -> Z.of_nat n <= 2 ^ 16 -> Forall va_op_ok ops -> 0 <= b ->
  (forall u i r, m !! u = Some (i, r) -> r <= b) -> b + zlen ops < 2 ^ 15 ->
  exists l s1 m1 s2, run_va ops s = (Ok l, s1) /\ label_run n ops m l m1 /\
    bt_mesh_va_pending_store s1 = (Ok (), s2) /\
    forall w records, mc_ready w -> NoDup records.*1 -> list_to_map records = va_disk d (va_ext s2) ->
      exists s3, load_vas records (mk_va_state w (replicate n free_va) []) = (Ok (), s3) /\
        labels n s3 m1 /\ va_coherent (va_disk d (va_ext s2)) s3.
Proof.
  intros Hl Hc Hn Hops Hb Hm Hlen.
  destruct (va_run_answers n ops b s m) as (l & s1 & m1 & E & Hr & Hl1 & Hc1); [done..|].
  eexists l, s1, m1, _. split; [done|]. split; [done|]. split; [apply pending_store_run|].
  intros w records Hw Hnd Hrec. eapply loaded_labels; [|apply (pending_stored d s1); [by apply Hc1|apply pending_store_run]|done..].
  by apply unmark_labels.
Qed.

End Table.

(** * A concrete run, over the sample PSA implementation *)

From S2P Require Import Psa CryptoPsa.

#[local] Instance va_sample_crypto : MeshCrypto (crypto_state psa_store) := psa_crypto true 100 4.
#[local] Instance va_sample_promises : MeshCryptoLaws (crypto_state psa_store) :=
  psa_crypto_laws true true 100 4 eq_refl ltac:(discriminate).

Definition boot_labels (n : nat) : va_state (crypto_state psa_store) := mk_va_state crypto_boot (replicate n free_va) [].

Lemma boot_labels_ok n : labels n (boot_labels n) ∅.
Proof.
  split; cbn; [apply length_replicate|by apply Forall_replicate, free_va_ok| |].
  - intros u i r. rewrite lookup_empty. split; [done|]. intros (Hr & va & Hi & Hva & _).
    apply lookup_replicate_1 in Hi as [-> _]. by cbn in Hva.
  - split; [exact I|]. intros _ _ j Hj. unfold store. simpl. unfold Sample.visible. rewrite delete_empty, lookup_empty. by intros [].
Qed.

Lemma boot_labels_coherent n : va_coherent ∅ (boot_labels n).
Proof.
  intros i. cbn. destruct (replicate n free_va !! i) as [va|] eqn:E; [|apply lookup_empty].
  apply lookup_replicate_1 in E as [-> _]. intros _. apply lookup_empty.
Qed.

Definition label16 (x : Z) : list Z := replicate 16 x.
(** Two labels, one with two users, then a third that does not fit and one that reuses a slot. *)
Definition va_script : list va_op :=
  [VaAdd (label16 1); VaAdd (label16 2); VaAdd (label16 1); VaAdd (label16 3); VaDel (Some 1%nat); VaPendingStore;
   VaAdd (label16 3); VaFind (label16 1); VaCollision 0x8123; VaDel (Some 0%nat)].

Lemma va_script_ok : Forall va_op_ok va_script.
Proof. repeat constructor; try reflexivity; discriminate. Qed.

(** The model on the script. *)
Lemma va_script_answers : (run_va va_script (boot_labels 2)).1 =
  Ok [AStatus 0 (Some 0%nat); AStatus 0 (Some 1%nat); AStatus 0 (Some 0%nat); AStatus 5 None; AStatus 0 None; ANone;
      AStatus 0 (Some 1%nat); APtr (Some 0%nat); ABool false; AStatus 0 None].
Proof. vm_compute. reflexivity. Qed.

Lemma va_refines_labels_witness :
  exists l s' m', run_va va_script (boot_labels 2) = (Ok l, s') /\ label_run 2 va_script ∅ l m' /\ labels 2 s' m'.
Proof.
  apply (va_refines_labels 2 va_script 0 (boot_labels 2) ∅).
  - apply boot_labels_ok.
  - lia.
  - exact va_script_ok.
  - lia.
  - intros u i r E. by rewrite lookup_empty in E.
  - cbn. lia.
Defined.

Lemma va_restart_witness :
  exists l s1 m1 s2, run_va va_script (boot_labels 2) = (Ok l, s1) /\ label_run 2 va_script ∅ l m1 /\
    bt_mesh_va_pending_store s1 = (Ok (), s2) /\
    forall w records, mc_ready w -> NoDup records.*1 -> list_to_map records = va_disk ∅ (va_ext s2) ->
      exists s3, load_vas records (mk_va_state w (replicate 2 free_va) []) = (Ok (), s3) /\
        labels 2 s3 m1 /\ va_coherent (va_disk ∅ (va_ext s2)) s3.
Proof.
  apply (va_restart 2 va_script 0 (boot_labels 2) ∅ ∅).
  - apply boot_labels_ok.
  - apply boot_labels_coherent.
  - lia.
  - exact va_script_ok.
  - lia.
  - intros u i r E. by rewrite lookup_empty in E.
  - cbn. lia.
Defined.
