(* ===== verification/AppKeys.v ===== *)
(** Application keys as the transport layer sees them: the lookups of
    [mesh/app_keys.c], and the label UUIDs of [mesh/va.c].

    The table of keys and the table of labels are arguments; the operations that
    change them are not modelled.  The functions that call back into the transport
    layer are written for any state [S] of it. *)

From S2P Require Import Prelude MeshDefs CryptoIf.

(** * Data *)

(** [struct bt_mesh_app_cred]; [BT_MESH_KEY_UNUSED] marks a free entry of [apps]. *)
Record bt_mesh_app_cred := mk_app_cred { cred_id : Z; cred_val : bt_mesh_key }.

Record app_key := mk_app {
  app_net_idx : Z;
  app_idx : Z;
  app_updated : bool;
  app_key0 : bt_mesh_app_cred;
  app_key1 : bt_mesh_app_cred
}.

Definition BT_MESH_IS_DEV_KEY (key : Z) : bool :=
  (key =? BT_MESH_KEY_DEV_LOCAL) || (key =? BT_MESH_KEY_DEV_REMOTE).

(** * Lookups *)

Definition app_get (idx : Z) (apps : list app_key) : option app_key :=
  List.find (fun app => app_idx app =? idx) apps.

(** The device keys: the node's own, the candidate while there is one, and those of
    the configuration database. *)
Record dev_keys := mk_dev_keys {
  dev_key : bt_mesh_key;
  dev_key_cand : option bt_mesh_key;
  cdb_node_key : Z -> option bt_mesh_key
}.

(** What to encrypt a message for [addr] with: subnet, key and AID.  [subnet_get] is
    [bt_mesh_subnet_get]; [in_phase_2] tells the key refresh phase of a subnet. *)
Definition bt_mesh_keys_resolve (CDB : bool) (subnet_get : Z -> option nat) (in_phase_2 : nat -> bool)
    (has_addr : Z -> bool) (apps : list app_key) (devs : dev_keys) (ctx_net_idx ctx_app_idx addr : Z)
  : (nat * bt_mesh_key * Z) + Z :=
  if BT_MESH_IS_DEV_KEY ctx_app_idx then
    match subnet_get ctx_net_idx with
    | None => inr (- EINVAL)
    | Some sub =>
        if (ctx_app_idx =? BT_MESH_KEY_DEV_REMOTE) && negb (has_addr addr) then
          match (if CDB then cdb_node_key devs addr else None) with
          | None => inr (- EINVAL)
          | Some k => inl (sub, k, 0)
          end
        else inl (sub, dev_key devs, 0)
    end
  else
    match app_get ctx_app_idx apps with
    | None => inr (- EINVAL)
    | Some app =>
        match subnet_get (app_net_idx app) with
        | None => inr (- EINVAL)
        | Some sub =>
            let cred := if in_phase_2 sub && app_updated app then app_key1 app else app_key0 app in
            inl (sub, cred_val cred, cred_id cred)
        end
    end.

Section Find.

Context {S C : Type}.
Context (CDB RPR_SRV : bool).
(** The callback: takes the key and its own data, returns its status. *)
Context (cb : bt_mesh_key -> C -> M S (Z * C)).
(** [bt_mesh_dev_key_cand_activate] *)
Context (cand_activate : M S unit).

(** The loop over [apps]. *)
Fixpoint find_app (aid : Z) (sub_net_idx : Z) (new_key : bool) (apps : list app_key) (c : C) : M S (Z * C) :=
  match apps with
  | [] => mret (BT_MESH_KEY_UNUSED, c)
  | app :: apps =>
      if app_idx app =? BT_MESH_KEY_UNUSED then find_app aid sub_net_idx new_key apps c
      else if negb (app_net_idx app =? sub_net_idx) then find_app aid sub_net_idx new_key apps c
      else
        let cred := if new_key && app_updated app then app_key1 app else app_key0 app in
        if negb (cred_id cred =? aid) then find_app aid sub_net_idx new_key apps c
        else
          '(err, c) ← cb (cred_val cred) c;
          if negb (err =? 0) then find_app aid sub_net_idx new_key apps c
          else mret (app_idx app, c)
  end.

(** A key that may be tried: the callback's status is 0. *)
Definition try_key (key : option bt_mesh_key) (c : C) : M S (bool * C) :=
  match key with
  | None => mret (false, c)
  | Some key => '(err, c) ← cb key c; mret (err =? 0, c)
  end.

Definition bt_mesh_app_key_find (is_dev : bool) (aid : Z) (rx : bt_mesh_net_rx) (sub_net_idx : Z)
    (apps : list app_key) (devs : dev_keys) (c : C) : M S (Z * C) :=
  if is_dev then
    '(found, c) ← try_key (if CDB && negb (bool_decide (rx_net_if rx = BT_MESH_NET_IF_LOCAL))
                           then cdb_node_key devs (rx_addr rx) else None) c;
    if (found : bool) then mret (BT_MESH_KEY_DEV_REMOTE, c)
    else if BT_MESH_ADDR_IS_UNICAST (rx_recv_dst rx) then
      '(found, c) ← try_key (Some (dev_key devs)) c;
      if (found : bool) then mret (BT_MESH_KEY_DEV_LOCAL, c)
      else
        '(found, c) ← try_key (if RPR_SRV then dev_key_cand devs else None) c;
        if (found : bool) then _ ← cand_activate; mret (BT_MESH_KEY_DEV_LOCAL, c)
        else mret (BT_MESH_KEY_UNUSED, c)
    else mret (BT_MESH_KEY_UNUSED, c)
  else find_app aid sub_net_idx (rx_new_key rx) apps c.

End Find.
