(* ===== verification/AppOps.v ===== *)
(** The table of application keys: the operations of [mesh/app_keys.c] that change it,
    over the lookups of [AppKeys.v].

    The state is the array [apps] (a pointer into it is an index), the queue
    [app_key_updates] of the records that the storage does not have yet, and the crypto
    backend; what is sent to the storage, its scheduler and the registered handlers is
    recorded in order in [ak_ext].  The queue is the one of [subnet.c], with the same
    code ([net_key_update_find] of [Subnet.v]).  What the subnets answer is an argument:
    the key refresh phase of the subnet with a given NetKey index. *)

From S2P Require Import Prelude MeshDefs CryptoIf Crypto Subnet AppKeys.

#[export] Instance eta_app_cred : Eta bt_mesh_app_cred := fun c => mk_app_cred (cred_id c) (cred_val c).
#[export] Instance eta_app_key : Eta app_key := fun a =>
  mk_app (app_net_idx a) (app_idx a) (app_updated a) (app_key0 a) (app_key1 a).

Definition zero_app_cred : bt_mesh_app_cred := mk_app_cred 0 0.
Definition free_app : app_key := mk_app BT_MESH_KEY_UNUSED BT_MESH_KEY_UNUSED false zero_app_cred zero_app_cred.
#[export] Instance app_key_inhabited : Inhabited app_key := populate free_app.

(** [struct app_key_update] *)
Notation app_key_update := net_key_update (only parsing).

(** [struct app_key_val] *)
Record app_key_val := mk_app_val { av_net_idx : Z; av_updated : bool; av_val0 : bt_mesh_key; av_val1 : bt_mesh_key }.

Inductive app_ext_op :=
| SaveAppKey (idx : Z) (v : app_key_val)  (** [bt_storage_save_one("bt/mesh/AppKey/%x")] *)
| DeleteAppKey (idx : Z)                  (** [bt_storage_delete] *)
| ScheduleAppKeys                         (** [bt_mesh_settings_store_schedule] *)
| AppEvt (app_idx net_idx : Z) (evt : bt_mesh_key_evt).  (** the handlers called by [app_key_evt] *)

Record app_state (W : Type) := mk_app_state {
  ak_crypto : W;
  apps : list app_key;
  app_key_updates : list app_key_update;
  ak_ext : list app_ext_op
}.
Arguments mk_app_state {W}.
Arguments ak_crypto {W}.
Arguments apps {W}.
Arguments app_key_updates {W}.
Arguments ak_ext {W}.
#[export] Instance eta_app_state {W} : Eta (app_state W) := fun s =>
  mk_app_state (ak_crypto s) (apps s) (app_key_updates s) (ak_ext s).

Section Operations.

Context {W : Type} `{MeshCrypto W}.
Context (SETTINGS : bool).
(** [bt_mesh_subnet_get] and the [kr_phase] of what it finds. *)
Context (subnet_phase : Z -> option Z).
Notation st := (app_state W).

Definition gets {A} (f : st -> A) : M st A := fun s => (Ok (f s), s).
Definition change (f : st -> st) : M st unit := fun s => (Ok (), f s).
Definition log (o : app_ext_op) : M st unit := change (fun s => s <| ak_ext ::= (fun l => l ++ [o]) |>).
Definition on_app (i : nat) (f : app_key -> app_key) : M st unit := change (fun s => s <| apps ::= alter f i |>).
Definition app_at (i : nat) : M st app_key := gets (fun s => apps s !!! i).
Definition in_crypto {A} (m : M W A) : M st A := fun s =>
  let '(r, w) := m (ak_crypto s) in (r, s <| ak_crypto := w |>).

(** [app_get] as an index. *)
Fixpoint app_find (idx : Z) (l : list app_key) (i : nat) : option nat :=
  match l with
  | [] => None
  | app :: l => if app_idx app =? idx then Some i else app_find idx l (S i)
  end.

(** ** Storage *)

Definition clear_app_key (idx : Z) : M st unit := log (DeleteAppKey idx).

Definition app_val (app : app_key) : app_key_val :=
  mk_app_val (app_net_idx app) (app_updated app) (cred_val (app_key0 app)) (cred_val (app_key1 app)).

Definition store_app_key (idx : Z) : M st unit :=
  l ← gets apps;
  match app_find idx l 0 with
  | None => mret ()
  | Some i => app ← app_at i; log (SaveAppKey idx (app_val app))
  end.

Definition set_app_update (i : nat) (u : app_key_update) : M st unit :=
  change (fun s => s <| app_key_updates ::= <[i := u]> |>).

Definition update_app_key_settings (idx : Z) (store : bool) : M st unit :=
  l ← gets app_key_updates;
  match net_key_update_find idx l with
  | (Some i, _) =>
      _ ← set_app_update i (mk_update (up_key_idx (l !!! i)) (up_valid (l !!! i)) (negb store));
      log ScheduleAppKeys
  | (None, None) => if store then store_app_key idx else clear_app_key idx
  | (None, Some i) =>
      _ ← set_app_update i (mk_update (idx mod 4096) true (negb store));
      log ScheduleAppKeys
  end.

Definition settings (idx : Z) (store : bool) : M st unit :=
  if SETTINGS then update_app_key_settings idx store else mret ().

Definition app_pending_one (i : nat) : M st unit :=
  l ← gets app_key_updates;
  let update := l !!! i in
  if negb (up_valid update) then mret () else
  _ ← set_app_update i (mk_update (up_key_idx update) false (up_clear update));
  if up_clear update then clear_app_key (up_key_idx update) else store_app_key (up_key_idx update).

Fixpoint app_pending_loop (n i : nat) : M st unit :=
  match n with
  | O => mret ()
  | S n => _ ← app_pending_one i; app_pending_loop n (S i)
  end.

Definition bt_mesh_app_key_pending_store : M st unit :=
  l ← gets app_key_updates; app_pending_loop (length l) 0.

(** ** Keys *)

(** The registered handlers (see the finding on [STRUCT_SECTION_FOREACH]). *)
Definition app_key_evt (i : nat) (evt : bt_mesh_key_evt) : M st unit :=
  app ← app_at i; log (AppEvt (app_idx app) (app_net_idx app) evt).

(** The loop of [app_key_alloc]: [app] is the first free slot seen. *)
Fixpoint app_alloc_scan (idx : Z) (l : list app_key) (i : nat) (app : option nat) : option nat :=
  match l with
  | [] => app
  | x :: l =>
      if app_idx x =? idx then Some i
      else app_alloc_scan idx l (S i)
             (match app with
              | None => if app_idx x =? BT_MESH_KEY_UNUSED then Some i else None
              | Some j => Some j
              end)
  end.
Definition app_key_alloc (idx : Z) (l : list app_key) : option nat := app_alloc_scan idx l 0 None.

Definition destroy (key : bt_mesh_key) : M st unit := _ ← attempt (in_crypto (mc_key_destroy key)); mret ().

Definition app_key_del (i : nat) : M st unit :=
  app ← app_at i;
  _ ← settings (app_idx app) false;
  _ ← app_key_evt i BT_MESH_KEY_DELETED;
  _ ← on_app i (fun app => app <| app_net_idx := BT_MESH_KEY_UNUSED |> <| app_idx := BT_MESH_KEY_UNUSED |>);
  _ ← destroy (cred_val (app_key0 app));
  _ ← destroy (cred_val (app_key1 app));
  on_app i (fun app => app <| app_key0 := zero_app_cred |> <| app_key1 := zero_app_cred |>).

Definition app_key_revoke (i : nat) : M st unit :=
  app ← app_at i;
  if negb (app_updated app) then mret () else
  _ ← destroy (cred_val (app_key0 app));
  _ ← on_app i (fun app => app <| app_key0 := app_key1 app |> <| app_key1 := zero_app_cred |> <| app_updated := false |>);
  _ ← settings (app_idx app) true;
  app_key_evt i BT_MESH_KEY_REVOKED.

(** The field [keys[new]] of a slot. *)
Definition on_cred (new : bool) (f : bt_mesh_app_cred -> bt_mesh_app_cred) (app : app_key) : app_key :=
  if new then app <| app_key1 ::= f |> else app <| app_key0 ::= f |>.

(** The end of [bt_mesh_app_key_add] and [bt_mesh_app_key_update]: the identifier, the
    fields [claim] writes, the import, the storage and the handlers. *)
Definition app_key_install (i : nat) (new : bool) (key : list Z) (claim : app_key -> app_key)
    (evt : bt_mesh_key_evt) (err : Z) : M st Z :=
  r ← attempt (in_crypto (bt_mesh_app_id key));
  match r with
  | inr _ => mret err
  | inl aid =>
      _ ← on_app i (on_cred new (fun c => c <| cred_id := aid |>));
      _ ← on_app i claim;
      r ← attempt (in_crypto (mc_key_import BT_MESH_KEY_TYPE_APP key));
      match r with
      | inr _ => mret err
      | inl val =>
          _ ← on_app i (on_cred new (fun c => c <| cred_val := val |>));
          app ← app_at i;
          _ ← settings (app_idx app) true;
          _ ← app_key_evt i evt;
          mret STATUS_SUCCESS
      end
  end.

Definition compare_status (key : list Z) (val : bt_mesh_key) : M st Z :=
  c ← in_crypto (mc_key_compare key val);
  mret (if negb (c =? 0) then STATUS_IDX_ALREADY_STORED else STATUS_SUCCESS).

Definition bt_mesh_app_key_add (idx net_idx : Z) (key : list Z) : M st Z :=
  match subnet_phase net_idx with
  | None => mret STATUS_INVALID_NETKEY
  | Some _ =>
      l ← gets apps;
      match app_key_alloc idx l with
      | None => mret STATUS_INSUFF_RESOURCES
      | Some i =>
          app ← app_at i;
          if app_idx app =? idx then
            if negb (app_net_idx app =? net_idx) then mret STATUS_INVALID_NETKEY
            else compare_status key (cred_val (app_key0 app))
          else
            app_key_install i false key
              (fun app => app <| app_net_idx := net_idx |> <| app_idx := idx |> <| app_updated := false |>)
              BT_MESH_KEY_ADDED STATUS_CANNOT_SET
      end
  end.

Definition bt_mesh_app_key_update (idx net_idx : Z) (key : list Z) : M st Z :=
  l ← gets apps;
  match app_find idx l 0 with
  | None => mret STATUS_INVALID_APPKEY
  | Some i =>
      app ← app_at i;
      if negb (net_idx =? BT_MESH_KEY_UNUSED) && negb (app_net_idx app =? net_idx) then mret STATUS_INVALID_BINDING
      else
        match subnet_phase (app_net_idx app) with
        | None => mret STATUS_INVALID_NETKEY
        | Some phase =>
            if negb (phase =? BT_MESH_KR_PHASE_1) then mret STATUS_CANNOT_UPDATE
            else if app_updated app then compare_status key (cred_val (app_key1 app))
            else
              app_key_install i true key (fun app => app <| app_updated := true |>)
                BT_MESH_KEY_UPDATED STATUS_CANNOT_UPDATE
        end
  end.

Definition bt_mesh_app_key_del (idx net_idx : Z) : M st Z :=
  if negb (net_idx =? BT_MESH_KEY_UNUSED) && negb (bool_decide (is_Some (subnet_phase net_idx)))
  then mret STATUS_INVALID_NETKEY
  else
    l ← gets apps;
    match app_find idx l 0 with
    | None => mret STATUS_SUCCESS
    | Some i =>
        app ← app_at i;
        if negb (net_idx =? BT_MESH_KEY_UNUSED) && negb (net_idx =? app_net_idx app) then mret STATUS_INVALID_BINDING
        else _ ← app_key_del i; mret STATUS_SUCCESS
    end.

Definition bt_mesh_app_key_exists (idx : Z) (l : list app_key) : bool := existsb (fun app => app_idx app =? idx) l.

(** The loop of [bt_mesh_app_keys_get]: what is left to skip and what was written. *)
Fixpoint keys_get_loop (net_idx max : Z) (l : list app_key) (skip : Z) (out : list Z) : Z * list Z :=
  match l with
  | [] => (zlen out, out)
  | app :: l =>
      if app_idx app =? BT_MESH_KEY_UNUSED then keys_get_loop net_idx max l skip out
      else if negb (net_idx =? BT_MESH_KEY_ANY) && negb (app_net_idx app =? net_idx) then keys_get_loop net_idx max l skip out
      else if negb (skip =? 0) then keys_get_loop net_idx max l (skip - 1) out
      else if max <=? zlen out then (- ENOMEM, out)
      else keys_get_loop net_idx max l skip (out ++ [app_idx app])
  end.
Definition bt_mesh_app_keys_get (net_idx max skip : Z) (l : list app_key) : Z * list Z :=
  keys_get_loop net_idx max l skip [].

(** ** Events of the subnets, reset *)

Definition subnet_evt_one (net_idx : Z) (evt : bt_mesh_key_evt) (i : nat) : M st unit :=
  app ← app_at i;
  if app_idx app =? BT_MESH_KEY_UNUSED then mret ()
  else if negb (app_net_idx app =? net_idx) then mret ()
  else
    match evt with
    | BT_MESH_KEY_DELETED => app_key_del i
    | BT_MESH_KEY_REVOKED => app_key_revoke i
    | BT_MESH_KEY_SWAPPED => if app_updated app then app_key_evt i BT_MESH_KEY_SWAPPED else mret ()
    | _ => mret ()
    end.

(** [for (i = 0; i < ARRAY_SIZE(apps); i++)] *)
Fixpoint each_app (f : nat -> M st unit) (n i : nat) : M st unit :=
  match n with
  | O => mret ()
  | S n => _ ← f i; each_app f n (S i)
  end.

(** [subnet_evt] of this file. *)
Definition app_subnet_evt (net_idx : Z) (evt : bt_mesh_key_evt) : M st unit :=
  match evt with
  | BT_MESH_KEY_UPDATED | BT_MESH_KEY_ADDED => mret ()
  | _ => l ← gets apps; each_app (subnet_evt_one net_idx evt) (length l) 0
  end.

Definition reset_one (i : nat) : M st unit :=
  app ← app_at i; if negb (app_idx app =? BT_MESH_KEY_UNUSED) then app_key_del i else mret ().
Definition bt_mesh_app_keys_reset : M st unit := l ← gets apps; each_app reset_one (length l) 0.

(** ** Loading from the storage *)

(** 0, or the error. *)
Definition app_id_set (i : nat) (new : bool) (key : bt_mesh_key) : M st Z :=
  r ← attempt (in_crypto (raw ← mc_key_export key; bt_mesh_app_id raw));
  match r with
  | inr err => mret err
  | inl aid =>
      _ ← on_app i (on_cred new (fun c => c <| cred_id := aid |>));
      val ← in_crypto (mc_key_assign key);
      _ ← on_app i (on_cred new (fun c => c <| cred_val := val |>));
      mret 0
  end.

Definition bt_mesh_app_key_set (idx net_idx : Z) (old_key : bt_mesh_key) (new_key : option bt_mesh_key) : M st Z :=
  l ← gets apps;
  match app_key_alloc idx l with
  | None => mret (- ENOMEM)
  | Some i =>
      app ← app_at i;
      if app_idx app =? idx then mret 0
      else
        err ← app_id_set i false old_key;
        if negb (err =? 0) then mret (- EIO)
        else
          err ← (match new_key with Some key => app_id_set i true key | None => mret 0 end);
          if negb (err =? 0) then mret (- EIO)
          else
            _ ← on_app i (fun app => app <| app_net_idx := net_idx |> <| app_idx := idx |>
                                         <| app_updated := bool_decide (is_Some new_key) |>);
            mret 0
  end.

(** The index the name of the record ends with, the length of the record and what
    reading it gives. *)
Definition app_key_set (name : option Z) (len_rd : Z) (record : app_key_val + Z) : M st Z :=
  match name with
  | None => mret (- ENOENT)
  | Some n =>
      if len_rd =? 0 then mret 0
      else
        match record with
        | inr err => mret (- EINVAL)
        | inl v => bt_mesh_app_key_set (u16 n) (av_net_idx v) (av_val0 v) (if av_updated v then Some (av_val1 v) else None)
        end
  end.

End Operations.
