(* ===== verification/AppTable.v ===== *)
(** The application keys as a table: what [mesh/app_keys.c] does to the keys, and that
    the storage follows it.

    Over the operations of [AppOps.v] and any crypto backend that keeps its promises, the
    slots, the key store behind them, the queue of records to write and the storage
    implement a finite map from AppKey indexes to the NetKey index, the key and, during a
    key refresh, the new key. *)

From S2P Require Import Prelude MeshDefs CryptoIf Crypto Subnet KeySlots AppKeys AppOps.

(** * What the storage holds *)

Definition apply_app (d : gmap Z app_key_val) (o : app_ext_op) : gmap Z app_key_val :=
  match o with
  | SaveAppKey k v => <[k := v]> d
  | DeleteAppKey k => delete k d
  | _ => d
  end.
Definition app_disk (d : gmap Z app_key_val) (l : list app_ext_op) : gmap Z app_key_val := foldl apply_app d l.

Lemma app_disk_snoc d l o : app_disk d (l ++ [o]) = apply_app (app_disk d l) o.
Proof. unfold app_disk. by rewrite foldl_app. Qed.

(** The record of index [k] in the slots. *)
Definition content (l : list app_key) (k : Z) : option app_key_val := i ← app_find k l 0; app_val <$> l !! i.

(** The slots from [l], but for slot [i], have index [k] only if [a] has it. *)
Lemma app_find_spec k l : forall i,
  match app_find k l i with
  | Some j => (i <= j)%nat /\ exists a, l !! (j - i)%nat = Some a /\ app_idx a = k
  | None => forall j a, l !! j = Some a -> app_idx a <> k
  end.
Proof.
  induction l as [|x l IH]; intros i; cbn [app_find]; [done|].
  destruct (Z.eqb_spec (app_idx x) k) as [Hx|Hx].
  - split; [done|]. exists x. by rewrite Nat.sub_diag.
  - specialize (IH (S i)). destruct (app_find k l (S i)) as [j|].
    + destruct IH as (Hj & a & Ha & Hk). split; [lia|]. exists a. by replace (j - i)%nat with (S (j - S i)) by lia.
    + intros [|j] a Ha; [by injection Ha as <-|by apply (IH j)].
Qed.

Definition app_used (a : app_key) : bool := in_use app_idx a.

Definition app_unique (l : list app_key) : Prop :=
  forall i j a b, l !! i = Some a -> l !! j = Some b -> app_used a = true -> app_idx a = app_idx b -> i = j.

Lemma app_find_at l i a : app_unique l -> l !! i = Some a -> app_used a = true -> app_find (app_idx a) l 0 = Some i.
Proof.
  intros Hu Hi Ha. pose proof (app_find_spec (app_idx a) l 0) as Hs. destruct (app_find _ _ _) as [j|].
  - destruct Hs as (_ & b & Hb & E). rewrite Nat.sub_0_r in Hb. f_equal. symmetry. by apply (Hu i j a b).
  - by destruct (Hs i a Hi).
Qed.

Lemma content_at l i a : app_unique l -> l !! i = Some a -> app_used a = true -> content l (app_idx a) = Some (app_val a).
Proof. intros Hu Hi Ha. unfold content. rewrite (app_find_at l i a) by done. cbn. by rewrite Hi. Qed.

Lemma content_none l k : (forall i a, l !! i = Some a -> app_idx a <> k) -> content l k = None.
Proof.
  intros Hl. unfold content. pose proof (app_find_spec k l 0) as Hs. destruct (app_find k l 0) as [j|]; [|done].
  destruct Hs as (_ & b & Hb & E). by destruct (Hl _ _ Hb).
Qed.

(** Writing slot [i] leaves the record of another index alone. *)
Lemma content_insert l i old new k : l !! i = Some old -> app_idx old <> k -> app_idx new <> k ->
  content (<[i := new]> l) k = content l k.
Proof.
  intros Hi Ho Hn. assert (forall l1 l2 j, app_find k (<[length l1 := new]> (l1 ++ old :: l2)) j = app_find k (l1 ++ old :: l2) j) as Hf.
  { induction l1 as [|x l1 IH]; intros l2 j; cbn.
    - by rewrite (proj2 (Z.eqb_neq _ _) Ho), (proj2 (Z.eqb_neq _ _) Hn).
    - destruct (app_idx x =? k); [done|]. apply IH. }
  unfold content. pose proof (list_elem_of_split_length l i old Hi) as (l1 & l2 & -> & ->).
  rewrite Hf. pose proof (app_find_spec k (l1 ++ old :: l2) 0) as Hs. destruct (app_find _ _ _) as [j|]; [|done]. cbn.
  destruct Hs as (_ & b & Hb & E). rewrite Nat.sub_0_r in Hb. rewrite list_lookup_insert_ne; [done|].
  intros <-. rewrite Hb in Hi. injection Hi as ->. done.
Qed.

(** The queue and the storage together hold [c] for index [k]. *)
Definition holds {W} (d : gmap Z app_key_val) (s : app_state W) (k : Z) (c : option app_key_val) : Prop :=
  (forall b, queued (app_key_updates s) k b -> (b = true <-> c = None)) /\
  ((forall b, ~ queued (app_key_updates s) k b) -> app_disk d (ak_ext s) !! k = c).

(** Entering [(k, b)] in the queue, where [app_key_update_find] says. *)
Lemma enqueue_holds {W} (d : gmap Z app_key_val) (s : app_state W) i u0 k store c :
  is_key_idx k -> queue_ok (app_key_updates s) -> app_key_updates s !! i = Some u0 ->
  (up_valid u0 = true /\ up_key_idx u0 = k) \/ (up_valid u0 = false /\ forall b, ~ queued (app_key_updates s) k b) ->
  (store = true <-> c <> None) ->
  let s1 := s <| app_key_updates ::= <[i := mk_update k true (negb store)]> |> <| ak_ext ::= (fun l => l ++ [ScheduleAppKeys]) |> in
  queue_ok (app_key_updates s1) /\ holds d s1 k c /\ forall k' c', k' <> k -> holds d s k' c' -> holds d s1 k' c'.
Proof.
  intros Hk [Hq Hqr] Hi Hu Hst s1. destruct (queue_insert _ _ _ k (negb store) Hq Hi Hu) as [Hq' Hqd].
  change (app_key_updates s1) with (<[i := mk_update k true (negb store)]> (app_key_updates s)). split_and!.
  - split; [done|]. intros k' b Hin. apply Hqd in Hin. destruct (decide (k' = k)) as [->|]; [done|by eapply Hqr].
  - split.
    + intros b Hin. apply Hqd in Hin. rewrite decide_True in Hin by done. subst b.
      destruct store, c; split; try done; naive_solver.
    + intros Hn. exfalso. apply (Hn (negb store)), Hqd. by rewrite decide_True.
  - intros k' c' Hne [Hh1 Hh2]. split.
    + intros b Hin. apply Hqd in Hin. rewrite decide_False in Hin by done. by apply Hh1.
    + intros Hn. change (ak_ext s1) with (ak_ext s ++ [ScheduleAppKeys]). rewrite app_disk_snoc. apply Hh2.
      intros b Hin. apply (Hn b), Hqd. by rewrite decide_False.
Qed.

(** A request about index [k] when the queue has nothing for it. *)
Lemma request_holds {W} (d : gmap Z app_key_val) (s : app_state W) k o c :
  (forall b, ~ queued (app_key_updates s) k b) ->
  (forall m : gmap Z app_key_val, apply_app m o !! k = c) ->
  (forall (m : gmap Z app_key_val) k', k' <> k -> apply_app m o !! k' = m !! k') ->
  let s1 := s <| ak_ext ::= (fun l => l ++ [o]) |> in
  holds d s1 k c /\ forall k' c', k' <> k -> holds d s k' c' -> holds d s1 k' c'.
Proof.
  intros Hn Ho Hoth s1. split.
  - split; [intros b Hin; by destruct (Hn b)|]. intros _. change (ak_ext s1) with (ak_ext s ++ [o]). by rewrite app_disk_snoc, Ho.
  - intros k' c' Hne [Hh1 Hh2]. split; [exact Hh1|]. intros Hn'. change (ak_ext s1) with (ak_ext s ++ [o]).
    rewrite app_disk_snoc, Hoth by done. by apply Hh2.
Qed.

(** [update_app_key_settings]: the record of [k] is stored, or cleared. *)
Lemma update_settings_holds {W} (d : gmap Z app_key_val) (s : app_state W) k (store : bool) :
  is_key_idx k -> queue_ok (app_key_updates s) -> (store = true -> content (apps s) k <> None) ->
  exists s', update_app_key_settings k store s = (Ok (), s') /\ apps s' = apps s /\ ak_crypto s' = ak_crypto s /\
    queue_ok (app_key_updates s') /\ holds d s' k (if store then content (apps s) k else None) /\
    forall k' c', k' <> k -> holds d s k' c' -> holds d s' k' c'.
Proof.
  intros Hk Hq Hst. unfold update_app_key_settings. rewrite (bind_ok _ _ s (app_key_updates s) s) by done.
  pose proof (update_find_spec k (app_key_updates s)) as [Hm Hf].
  assert (store = true <-> (if store then content (apps s) k else None) <> None) as Hst'
    by (destruct store; split; try done; intros; by apply Hst).
  destruct (net_key_update_find k (app_key_updates s)) as [[i|] f]; cbn [fst snd] in Hm, Hf.
  - destruct Hm as (u & Hi & Hv & Hu). rewrite (list_lookup_total_correct _ _ _ Hi), Hv, Hu.
    eexists. split; [reflexivity|]. split; [done|]. split; [done|]. apply (enqueue_holds d s i u); auto.
  - destruct f as [i|].
    + destruct Hf as (u & Hi & Hv). rewrite Z.mod_small by (unfold is_key_idx in Hk; lia).
      eexists. split; [reflexivity|]. split; [done|]. split; [done|]. apply (enqueue_holds d s i u); auto.
    + clear Hst'. destruct store.
      * unfold store_app_key. rewrite (bind_ok _ _ s (apps s) s) by done.
        specialize (Hst eq_refl). unfold content in Hst |- *.
        destruct (app_find k (apps s) 0) as [i|]; [|done]. cbn in Hst |- *.
        destruct (apps s !! i) as [a|] eqn:Hi; [|done]. cbn in Hst |- *.
        assert (apps s !!! i = a) as Ha by by apply list_lookup_total_correct.
        eexists. split; [unfold app_at; rewrite (bind_ok _ _ s a s) by (unfold gets; by rewrite Ha); reflexivity|].
        split; [done|]. split; [done|]. split; [done|]. apply (request_holds d s k (SaveAppKey k (app_val a))); [done| |].
        { intros m. apply lookup_insert_eq. }
        { intros m k' Hne. by apply lookup_insert_ne. }
      * eexists. split; [reflexivity|]. split; [done|]. split; [done|]. split; [done|].
        apply (request_holds d s k (DeleteAppKey k)); [done| |].
        { intros m. apply lookup_delete_eq. }
        { intros m k' Hne. by apply lookup_delete_ne. }
Qed.

(** * The slots *)

Section Slots.

Context {W : Type} `{MeshCryptoLaws W}.
Notation st := (app_state W).

(** What the table says of an AppKey: the NetKey it is bound to, the key and, during a
    key refresh, the new key ([None] if the backend refused it), and whether the storage
    knows. *)
Record app_entry := mk_entry {
  ae_net : Z;
  ae_key : option (list Z);
  ae_new : option (option (list Z));
  ae_saved : bool
}.

Definition cred_ok (w : W) (c : bt_mesh_app_cred) (o : option (list Z)) : Prop :=
  match o with
  | Some raw => mc_keys w !! cred_val c = Some (BT_MESH_KEY_TYPE_APP, raw) /\ length raw = 16%nat /\
      cred_val c <> 0 /\ cred_id c = K4 raw
  | None => cred_val c = 0
  end.

Definition nonzero (l : list Z) : list Z := filter (fun id => id <> 0) l.
Definition app_ids (a : app_key) : list Z := nonzero [cred_val (app_key0 a); cred_val (app_key1 a)].
Definition app_free (a : app_key) : Prop := cred_val (app_key0 a) = 0 /\ cred_val (app_key1 a) = 0.

Record app_ok (w : W) (a : app_key) (e : app_entry) : Prop := {
  ao_net : app_net_idx a = ae_net e;
  ao_net_idx : is_key_idx (ae_net e);
  ao_updated : app_updated a = bool_decide (is_Some (ae_new e));
  ao_key : cred_ok w (app_key0 a) (ae_key e);
  ao_new : cred_ok w (app_key1 a) (default None (ae_new e))
}.

Lemma app_ids_elem a id : id ∈ app_ids a <-> id <> 0 /\ (id = cred_val (app_key0 a) \/ id = cred_val (app_key1 a)).
Proof. unfold app_ids, nonzero. rewrite list_elem_of_filter, !elem_of_cons, elem_of_nil. tauto. Qed.

(** The two keys differ, or there is one. *)
Lemma app_ids_nodup a : cred_val (app_key1 a) = 0 \/ cred_val (app_key0 a) <> cred_val (app_key1 a) -> NoDup (app_ids a).
Proof.
  intros Ha. unfold app_ids, nonzero. rewrite !filter_cons, filter_nil.
  repeat case_decide; try apply NoDup_singleton; try apply NoDup_nil_2.
  apply NoDup_cons. rewrite list_elem_of_singleton. split; [tauto|apply NoDup_singleton].
Qed.

Lemma app_ids_differ a : NoDup (app_ids a) -> cred_val (app_key1 a) <> 0 -> cred_val (app_key1 a) <> cred_val (app_key0 a).
Proof.
  intros Hnd Hz Hx. revert Hnd. unfold app_ids, nonzero. rewrite !filter_cons, <-Hx, decide_True by done. rewrite decide_True by done.
  intros [Hn _]%NoDup_cons. apply Hn. by left.
Qed.

Lemma cred_ok_some w c o : cred_ok w c o -> cred_val c <> 0 -> is_Some (mc_keys w !! cred_val c).
Proof. destruct o; [intros (-> & _) _; by eexists|done]. Qed.

Lemma cred_ok_same w w' c o : cred_ok w c o ->
  (cred_val c <> 0 -> is_Some (mc_keys w !! cred_val c) -> mc_keys w' !! cred_val c = mc_keys w !! cred_val c) -> cred_ok w' c o.
Proof. destruct o; [|done]. intros (Hs & ? & ? & ?) Hk. split_and!; try done. rewrite Hk; [done..|by eexists]. Qed.

#[export] Instance app_slot_laws : SlotLaws app_idx app_ids app_ok app_free.
Proof.
  split.
  - intros a _ [Hz0 Hz1]. unfold app_ids. by rewrite Hz0, Hz1.
  - intros w a e id Hok [Hz [->| ->]]%app_ids_elem; by eapply cred_ok_some; [apply Hok|].
  - intros w w' a e _ [] Hk. split; try done; (eapply cred_ok_same; [eassumption|]);
      intros Hz Hs; apply Hk; try done; apply app_ids_elem; auto.
Qed.

(** Key 0 is never in the store as an application key. *)
Lemma app_key_nonzero w id raw :
  mc_ready w -> mc_keys w !! id = Some (BT_MESH_KEY_TYPE_APP, raw) -> length raw = 16%nat -> id <> 0.
Proof.
  intros Hw Hs Hl ->. destruct (mc_export_null w Hw) as (e & w1 & E & _).
  destruct (computes_yields _ _ _ (mc_export_spec w _ _ _ Hs eq_refl Hl) Hw) as (w2 & E2 & _). congruence.
Qed.

(** * Table and storage *)

Context (G : gmap Z (bt_mesh_key_type * list Z)).
Context (d : gmap Z app_key_val).

Definition owns (l : list app_key) (id : Z) : Prop := owned app_ids G l id.

(** The state implements the table [t], and the storage, with the queue, has what the
    table has. *)
Record app_table (s : st) (t : gmap Z app_entry) : Prop := {
  at_keys : key_slots app_idx app_ids app_ok app_free G (ak_crypto s) (apps s) t;
  at_queue : queue_ok (app_key_updates s);
  at_holds : forall k, is_key_idx k -> (forall e, t !! k = Some e -> ae_saved e = true) -> holds d s k (content (apps s) k)
}.

Lemma at_unique s t : app_table s t -> app_unique (apps s).
Proof. intros Ht i j a b Ha Hb Hu. by apply (kl_unique (at_keys _ _ Ht) i j a b). Qed.

(** In the middle of an operation on index [k]: the slots are [l], the backend is in
    state [w], the other records are as in [s0], and [k] has any record with [P]. *)
Record amid (k : Z) (s0 : st) (l : list app_key) (w : W) (P : option app_key_val -> Prop) (s : st) : Prop := {
  am_apps : apps s = l;
  am_crypto : ak_crypto s = w;
  am_queue : queue_ok (app_key_updates s);
  am_others : forall k' c', k' <> k -> holds d s0 k' c' -> holds d s k' c';
  am_own : forall c, P c -> holds d s k c
}.

Lemma amid_start k s t : app_table s t -> amid k s (apps s) (ak_crypto s) (holds d s k) s.
Proof. intros Ht. by split; [..|apply Ht| |]. Qed.

Lemma amid_weaken k s0 l w P (P' : option app_key_val -> Prop) s :
  amid k s0 l w P s -> (forall c, P' c -> P c) -> amid k s0 l w P' s.
Proof. intros [] HP. split; auto. Qed.

Lemma wp_app_at {B} i a (f : app_key -> M st B) s Q : apps s !! i = Some a -> wp (f a) s Q -> wp (app_at i ≫= f) s Q.
Proof.
  intros Ha Hf. unfold app_at. destruct Hf as (b & s' & E & HQ). exists b, s'. split; [|done].
  rewrite (bind_ok _ _ s a s); [done|]. unfold gets. by rewrite (list_lookup_total_correct _ _ _ Ha).
Qed.

Lemma wp_apps {B} (f : list app_key -> M st B) s Q : wp (f (apps s)) s Q -> wp (gets apps ≫= f) s Q.
Proof. done. Qed.

Lemma wp_on_app k s0 l w P s i a f (Q : unit -> st -> Prop) : amid k s0 l w P s -> l !! i = Some a ->
  (forall s', amid k s0 (<[i := f a]> l) w P s' -> Q () s') -> wp (on_app i f) s Q.
Proof.
  intros Hm Hi HQ. eexists (), _. split; [reflexivity|]. apply HQ. destruct Hm as [<- ? ? ? ?]. split; try done.
  cbn. apply list_eq. intros j. destruct (decide (j = i)) as [->|Hj].
  - rewrite list_lookup_alter_eq, Hi, list_lookup_insert_eq; [done|by eapply lookup_lt_Some].
  - by rewrite list_lookup_alter_ne, list_lookup_insert_ne.
Qed.

Lemma wp_in_crypto {A} k s0 l w P s (m : M W A) a w' (Q : A -> st -> Prop) : amid k s0 l w P s -> m w = (Ok a, w') ->
  (forall s', amid k s0 l w' P s' -> Q a s') -> wp (in_crypto m) s Q.
Proof.
  intros Hm E HQ. destruct Hm as [? <- ? ? ?]. eexists a, _. unfold in_crypto. rewrite E. split; [reflexivity|].
  apply HQ. by split.
Qed.

(** What [attempt (in_crypto m)] gives. *)
Lemma wp_attempt {A} k s0 l w P s (m : M W A) r w' (Q : A + Z -> st -> Prop) : amid k s0 l w P s -> attempt m w = (Ok r, w') ->
  (forall s', amid k s0 l w' P s' -> Q r s') -> wp (attempt (in_crypto m)) s Q.
Proof.
  intros Hm E HQ. destruct Hm as [? <- ? ? ?]. unfold attempt in E. unfold wp, attempt, in_crypto.
  destruct (m (ak_crypto s)) as [[a|e|] w1]; simplify_eq;
    (eexists _, _; split; [reflexivity|]; apply HQ; by split).
Qed.

Lemma wp_evt k s0 l w P s i a evt (Q : unit -> st -> Prop) : amid k s0 l w P s -> l !! i = Some a ->
  (forall s', amid k s0 l w P s' -> Q () s') -> wp (app_key_evt i evt) s Q.
Proof.
  intros Hm Hi HQ. unfold app_key_evt. apply (wp_app_at i a); [by rewrite (am_apps _ _ _ _ _ _ Hm)|].
  eexists (), _. split; [reflexivity|]. apply HQ.
  assert (forall k c, holds d s k c -> holds d (s <| ak_ext ::= (fun l => l ++ [AppEvt (app_idx a) (app_net_idx a) evt]) |>) k c) as Hh.
  { intros k' c [H1 H2]. split; [exact H1|]. intros Hn. cbn. rewrite app_disk_snoc. by apply H2. }
  destruct Hm. split; try done; intros; apply Hh; auto.
Qed.

Lemma wp_app_settings k s0 l w P s (store : bool) (Q : unit -> st -> Prop) : amid k s0 l w P s -> is_key_idx k ->
  (store = true -> content l k <> None) ->
  (forall s', amid k s0 l w (eq (if store then content l k else None)) s' -> Q () s') -> wp (settings true k store) s Q.
Proof.
  intros [<- <- Hq Ho _] Hk Hst HQ. destruct (update_settings_holds d s k store Hk Hq Hst) as (s' & E & Ha & Hc & Hq' & Hown & Hoth).
  exists (), s'. split; [exact E|]. apply HQ. split; try done; [|by intros c <-]. intros k' c' Hne Hh. by apply Hoth, Ho.
Qed.

Lemma wp_destroy k s0 l w P s key (Q : unit -> st -> Prop) : amid k s0 l w P s -> mc_ready w ->
  is_Some (mc_keys w !! key) \/ key = 0 ->
  (forall s' w', amid k s0 l w' P s' -> mc_ready w' -> mc_keys w' = (if key =? 0 then mc_keys w else delete key (mc_keys w)) ->
    Q () s') -> wp (destroy key) s Q.
Proof.
  intros Hm Hw Hk HQ. destruct (mc_destroy_spec w key Hw Hk) as (r & w' & E & Hw' & Hks).
  unfold destroy. apply wp_bind. eapply wp_attempt; [exact Hm|exact E|]. intros s' Hm'. apply wp_ret. by eapply HQ.
Qed.

(** The end of an operation on the slot [i]. *)
Lemma app_table_replace s t s' i old new k w P (oe : option app_entry) :
  app_table s t -> apps s !! i = Some old -> amid k s (<[i := new]> (apps s)) w P s' ->
  mc_ready w -> (app_idx old = k \/ app_idx old = BT_MESH_KEY_UNUSED /\ t !! k = None) ->
  (forall id, id ∉ app_ids old -> is_Some (mc_keys (ak_crypto s) !! id) -> mc_keys w !! id = mc_keys (ak_crypto s) !! id) ->
  is_key_idx k ->
  match oe with
  | Some e => app_idx new = k /\ app_ok w new e /\ NoDup (app_ids new) /\
      (forall id, id ∈ app_ids new -> id ∈ app_ids old \/ ~ owns (apps s) id) /\ (ae_saved e = true -> P (Some (app_val new)))
  | None => app_idx old = k /\ app_idx new = BT_MESH_KEY_UNUSED /\ app_free new /\ P None
  end ->
  app_table s' (match oe with Some e => <[k := e]> t | None => delete k t end).
Proof.
  intros Ht Hi Hm Hw Hold Hk Hrk Hoe. pose proof (key_idx_used k Hrk) as Hku.
  assert (forall k', is_key_idx k' -> k' <> k -> app_idx old <> k' /\ app_idx new <> k') as Hne.
  { intros k' Hk' Hn. pose proof (key_idx_used k' Hk'). destruct oe as [e|].
    - destruct Hoe as (Hx & _). split; [|congruence]. destruct Hold as [?|[? _]]; congruence.
    - destruct Hoe as (Hx & Hx2 & _). split; congruence. }
  assert (key_slots app_idx app_ids app_ok app_free G w (<[i := new]> (apps s))
    (match oe with Some e => <[k := e]> t | None => delete k t end)) as Hks.
  { destruct oe as [e|].
    - destruct Hoe as (Hx & Hok & Hnd & Hids & _). rewrite <-Hx.
      apply (key_slots_replace _ _ _ _ _ _ _ _ _ i old new (Some e) (at_keys _ _ Ht) Hi Hw Hk).
      rewrite Hx. split_and!; try done. destruct Hold as [?|[Hu Hn]]; [by left|right].
      split; [|done]. unfold in_use. by rewrite Hu.
    - destruct Hoe as (<- & Hx & Hf & _).
      apply (key_slots_replace _ _ _ _ _ _ _ _ _ i old new None (at_keys _ _ Ht) Hi Hw Hk).
      split; [|done]. unfold in_use. by rewrite Hx. }
  destruct Hm as [Ha Hc Hq Hoth Hown]. split; [by rewrite Hc, Ha|done|].
  intros k' Hk' Hsv. rewrite Ha. destruct (decide (k' = k)) as [->|Hn].
  - apply Hown. destruct oe as [e|].
    + destruct Hoe as (<- & _ & _ & _ & HP). rewrite (content_at _ i new); [|by intros ????????; eapply (kl_unique Hks)
        |apply list_lookup_insert_eq; by eapply lookup_lt_Some|by apply in_use_idx].
      apply HP. apply Hsv. by rewrite lookup_insert_eq.
    + destruct Hoe as (_ & _ & _ & HP). rewrite content_none; [done|]. intros j a Hj E.
      assert (in_use app_idx a = true) as Hu by (apply in_use_idx; congruence).
      destruct (kl_entry Hks j a Hj Hu) as (e & He & _). rewrite E, lookup_delete_eq in He. done.
  - apply Hoth; [done|]. destruct (Hne k' Hk' Hn). rewrite (content_insert _ i old new k') by done.
    apply (at_holds _ _ Ht k' Hk'). intros e He. apply Hsv. destruct oe; by rewrite ?lookup_insert_ne, ?lookup_delete_ne.
Qed.

(** ** Finding slots *)

Lemma app_alloc_scan_spec k l : forall i app,
  match app_alloc_scan k l i app with
  | Some j => (exists a, (i <= j)%nat /\ l !! (j - i)%nat = Some a /\ app_idx a = k) \/
      (forall j' a, l !! j' = Some a -> app_idx a <> k) /\
      (app = Some j \/ app = None /\ exists a, (i <= j)%nat /\ l !! (j - i)%nat = Some a /\ app_idx a = BT_MESH_KEY_UNUSED)
  | None => app = None /\ forall j a, l !! j = Some a -> app_idx a <> k /\ app_idx a <> BT_MESH_KEY_UNUSED
  end.
Proof.
  induction l as [|x l IH]; intros i app; cbn [app_alloc_scan].
  { destruct app; [right; split; [done|by left]|done]. }
  destruct (Z.eqb_spec (app_idx x) k) as [Hx|Hx].
  { left. exists x. by rewrite Nat.sub_diag. }
  set (app' := match app with None => _ | Some _ => _ end). specialize (IH (S i) app').
  destruct (app_alloc_scan k l (S i) app') as [j|].
  - destruct IH as [(a & Hj & Ha & Hk)|[Hno Hj]].
    { left. exists a. split; [lia|]. by replace (j - i)%nat with (S (j - S i)) by lia. }
    right. split; [intros [|j'] a Ha; [by injection Ha as <-|by apply (Hno j')]|].
    destruct Hj as [Hj|(Hn & a & Hj & Ha & Hu)].
    + destruct app as [j0|]; [by left|right]. split; [done|]. unfold app' in Hj.
      destruct (Z.eqb_spec (app_idx x) BT_MESH_KEY_UNUSED); [|done]. injection Hj as <-. exists x. by rewrite Nat.sub_diag.
    + destruct app as [j0|]; [done|]. right. split; [done|]. exists a. split; [lia|].
      by replace (j - i)%nat with (S (j - S i)) by lia.
  - destruct IH as [Hn Hall]. destruct app as [j0|]; [done|]. split; [done|].
    unfold app' in Hn. destruct (Z.eqb_spec (app_idx x) BT_MESH_KEY_UNUSED); [done|].
    intros [|j] a Ha; [by injection Ha as <-|by apply (Hall j)].
Qed.

(** The slot of an index that the table has. *)
Definition slot_of (w : W) (l : list app_key) (k : Z) (e : app_entry) (i : nat) : Prop :=
  exists a, l !! i = Some a /\ app_idx a = k /\ app_ok w a e.

Lemma find_app_slot s t k : app_table s t -> is_key_idx k ->
  match t !! k with
  | Some e => exists i, app_find k (apps s) 0 = Some i /\ slot_of (ak_crypto s) (apps s) k e i
  | None => app_find k (apps s) 0 = None
  end.
Proof.
  intros Ht Hk. pose proof (kl_slot_of _ _ _ _ _ _ _ _ k (at_keys _ _ Ht)) as Hs.
  destruct (t !! k) as [e|].
  - destruct Hs as (_ & i & a & Hi & Ha & Hu & Hok). exists i. rewrite <-Ha.
    split; [by apply app_find_at; [by eapply at_unique| |]|]. by exists a.
  - pose proof (app_find_spec k (apps s) 0) as Hf. destruct (app_find _ _ _) as [j|]; [|done].
    destruct Hf as (_ & a & Ha & E). destruct (Hs _ _ Ha); [|done]. apply in_use_idx. by rewrite E.
Qed.

Lemma alloc_app_slot s t k : key_slots app_idx app_ids app_ok app_free G (ak_crypto s) (apps s) t -> is_key_idx k ->
  match t !! k with
  | Some e => exists i, app_key_alloc k (apps s) = Some i /\ slot_of (ak_crypto s) (apps s) k e i
  | None =>
      if decide (size t = length (apps s)) then app_key_alloc k (apps s) = None
      else exists i a, app_key_alloc k (apps s) = Some i /\ apps s !! i = Some a /\ app_idx a = BT_MESH_KEY_UNUSED /\ app_free a
  end.
Proof.
  intros Hr Hk. pose proof (kl_slot_of _ _ _ _ _ _ _ _ k Hr) as Hs.
  pose proof (app_alloc_scan_spec k (apps s) 0 None) as Ha. unfold app_key_alloc. pose proof (key_idx_used k Hk) as Hku.
  destruct (t !! k) as [e|].
  - destruct Hs as (_ & i & a & Hi & E & Hu & Hok). destruct (app_alloc_scan _ _ _ _) as [j|].
    + destruct Ha as [(b & _ & Hb & Eb)|[Hno _]]; [|by destruct (Hno i a)]. rewrite Nat.sub_0_r in Hb.
      assert (i = j) as <- by (eapply (kl_unique Hr i j a b); [done|done|done|congruence]). exists i. split; [done|]. by exists a.
    + destruct Ha as [_ Hall]. by destruct (Hall i a Hi).
  - destruct (app_alloc_scan _ _ _ _) as [j|].
    + destruct Ha as [(b & _ & Hb & Eb)|[_ [?|(_ & a & _ & Hj & Hu)]]]; [|done|].
      { destruct (Hs _ _ Hb); [|done]. apply in_use_idx. by rewrite Eb. }
      rewrite Nat.sub_0_r in Hj. assert (in_use app_idx a = false) as Hf by (unfold in_use; by rewrite Hu).
      destruct (decide _) as [E|_]; [|exists j, a; split_and!; try done; by apply (kl_free Hr j)].
      pose proof (proj1 (key_slots_full _ _ _ _ _ _ _ _ Hr) E j a Hj). congruence.
    + destruct Ha as [_ Hall]. destruct (decide _) as [_|Hn]; [done|].
      destruct Hn. apply (key_slots_full _ _ _ _ _ _ _ _ Hr). intros i a Hi. destruct (Hall i a Hi) as [_ Hu].
      by apply negb_true_iff, Z.eqb_neq.
Qed.

Lemma content_new l i old new k : l !! i = Some old -> app_idx new = k ->
  (forall j b, j <> i -> l !! j = Some b -> app_idx b <> k) -> content (<[i := new]> l) k = Some (app_val new).
Proof.
  intros Hi Hn Hno. assert (<[i := new]> l !! i = Some new) as Hi' by (apply list_lookup_insert_eq; by eapply lookup_lt_Some).
  unfold content. pose proof (app_find_spec k (<[i := new]> l) 0) as Hs. destruct (app_find _ _ _) as [j|]; cbn.
  - destruct Hs as (_ & b & Hb & E). rewrite Nat.sub_0_r in Hb. rewrite Hb. cbn.
    destruct (decide (j = i)) as [->|Hj]; [congruence|]. rewrite list_lookup_insert_ne in Hb by done. by destruct (Hno j b).
  - by destruct (Hs i new Hi').
Qed.

(** ** Steps the operations share *)

(** Nothing but the backend has moved. *)
Lemma app_table_keep k s t w s' : app_table s t -> amid k s (apps s) w (holds d s k) s' -> mc_ready w ->
  mc_keys w = mc_keys (ak_crypto s) -> app_table s' t.
Proof.
  intros Ht [Ha Hc Hq Ho Hown] Hw Hks. split; rewrite ?Ha, ?Hc; [|done|].
  - apply (key_slots_grow _ _ _ _ _ _ _ _ w (at_keys _ _ Ht)); [by rewrite Hks|done].
  - intros k' Hk' Hsv. pose proof (at_holds _ _ Ht k' Hk' Hsv). destruct (decide (k' = k)) as [->|]; auto.
Qed.

Lemma wp_compare k s0 l w P s c o key (Q : Z -> st -> Prop) : amid k s0 l w P s -> mc_ready w -> cred_ok w c o ->
  length key = 16%nat ->
  (forall s' w', amid k s0 l w' P s' -> mc_ready w' -> mc_keys w' = mc_keys w ->
    Q (if decide (o = Some key) then STATUS_SUCCESS else STATUS_IDX_ALREADY_STORED) s') ->
  wp (compare_status key (cred_val c)) s Q.
Proof.
  intros Hm Hw Hc Hl HQ. unfold compare_status. apply wp_bind.
  assert (exists r w', mc_key_compare key (cred_val c) w = (Ok r, w') /\ mc_ready w' /\ mc_keys w' = mc_keys w /\
    (r = 0 <-> o = Some key)) as (r & w' & E & Hw' & Hk & Hr).
  { unfold mc_key_compare. destruct o as [raw|]; cbn in Hc.
    - destruct Hc as (Hs & Hlr & _). pose proof (mc_export_spec w _ _ _ Hs eq_refl Hlr) as Hx.
      destruct (yields_attempt _ _ _ (computes_yields _ _ _ Hx Hw)) as (w' & E & Hks & Hr).
      exists (memcmp raw key), w'. rewrite (bind_ok _ _ _ _ _ E). split_and!; try done.
      rewrite memcmp_eq by (by rewrite Hl). split; congruence.
    - rewrite Hc. destruct (mc_export_null w Hw) as (e & w' & E & He & Hks & Hr). exists e, w'.
      rewrite (bind_ok _ _ w (inr e) w') by (unfold attempt; by rewrite E).
      split_and!; [done|done|done|]. split; [intros; lia|done]. }
  eapply wp_in_crypto; [exact Hm|exact E|]. intros s' Hm'. apply wp_ret.
  destruct (Z.eqb_spec r 0) as [Hz|Hz]; cbn; destruct (decide (o = Some key)) as [Ho|Ho]; try tauto;
    specialize (HQ s' w' Hm' Hw' Hk); by destruct (decide (o = Some key)).
Qed.

Lemma on_cred_idx new f a : app_idx (on_cred new f a) = app_idx a.
Proof. by destruct new. Qed.

Context `{!MeshImportLaws W}.

Lemma wp_install k s0 l w P s i a new key claim evt err (Q : Z -> st -> Prop) :
  amid k s0 l w P s -> l !! i = Some a -> is_key_idx k -> mc_ready w -> length key = 16%nat ->
  (forall j b, j <> i -> l !! j = Some b -> app_idx b <> k) ->
  let a1 := claim (on_cred new (fun c => c <| cred_id := K4 key |>) a) in
  app_idx a1 = k ->
  (forall s' w' w1 e, mc_keys w1 = mc_keys w -> mc_key_import BT_MESH_KEY_TYPE_APP key w1 = (Err e, w') ->
    amid k s0 (<[i := a1]> l) w' P s' -> mc_ready w' -> mc_keys w' = mc_keys w -> Q err s') ->
  (forall s' w' id, mc_keys w !! id = None -> mc_keys w' = <[id := (BT_MESH_KEY_TYPE_APP, key)]> (mc_keys w) ->
    mc_ready w' -> id <> 0 ->
    let a2 := on_cred new (fun c => c <| cred_val := id |>) a1 in
    amid k s0 (<[i := a2]> l) w' (eq (Some (app_val a2))) s' -> Q STATUS_SUCCESS s') ->
  wp (app_key_install true i new key claim evt err) s Q.
Proof.
  intros Hm Hi Hk Hw Hl Hno a1 Ha1 Hbad Hgood. pose proof (lookup_lt_Some _ _ _ Hi) as Hlt.
  unfold app_key_install. apply wp_bind.
  destruct (yields_attempt _ _ _ (k4_yields w key Hw)) as (w1 & E1 & Hk1 & Hr1).
  eapply wp_attempt; [exact Hm|exact E1|]. intros s1 Hm1. cbn beta iota.
  apply wp_bind. eapply wp_on_app; [exact Hm1|exact Hi|]. intros s2 Hm2.
  apply wp_bind. eapply wp_on_app; [exact Hm2|by apply list_lookup_insert_eq|]. intros s3 Hm3.
  rewrite list_insert_insert_eq in Hm3. fold a1 in Hm3. apply wp_bind.
  destruct (mc_import_exportable_spec w1 BT_MESH_KEY_TYPE_APP key Hl eq_refl Hr1)
    as (w2 & Hr2 & [(id & E2 & Hf & Hk2)|(e & E2 & He & Hk2)]).
  - eapply (wp_attempt _ _ _ _ _ _ _ (inl id)); [exact Hm3|unfold attempt; by rewrite E2|]. intros s4 Hm4. cbn beta iota.
    apply wp_bind. eapply wp_on_app; [exact Hm4|by apply list_lookup_insert_eq|]. intros s5 Hm5.
    rewrite list_insert_insert_eq in Hm5. set (a2 := on_cred new _ a1) in Hm5.
    assert (app_idx a2 = k) as Ha2 by (unfold a2; by rewrite on_cred_idx).
    assert (<[i := a2]> l !! i = Some a2) as Hi2 by by apply list_lookup_insert_eq.
    assert (content (<[i := a2]> l) k = Some (app_val a2)) as Hct by by eapply content_new.
    apply (wp_app_at i a2); [by rewrite (am_apps _ _ _ _ _ _ Hm5)|]. rewrite Ha2. apply wp_bind.
    eapply wp_app_settings; [exact Hm5|done|by rewrite Hct|]. intros s6 Hm6. cbn in Hm6. rewrite Hct in Hm6.
    apply wp_bind. eapply wp_evt; [exact Hm6|exact Hi2|]. intros s7 Hm7. apply wp_ret.
    eapply Hgood; [by rewrite <-Hk1| |done| |exact Hm7]; [by rewrite Hk2, Hk1|].
    eapply app_key_nonzero; [exact Hr2|by rewrite Hk2, lookup_insert_eq|done].
  - eapply (wp_attempt _ _ _ _ _ _ _ (inr e)); [exact Hm3|unfold attempt; by rewrite E2|]. intros s4 Hm4. apply wp_ret.
    eapply Hbad; [exact Hk1|exact E2|exact Hm4|done|by rewrite Hk2].
Qed.

(** ** Giving up, replacing keys *)

Definition others (i : nat) (s s' : st) : Prop :=
  length (apps s') = length (apps s) /\ forall j, j <> i -> apps s' !! j = apps s !! j.

Lemma amid_others k s i new w P s' : amid k s (<[i := new]> (apps s)) w P s' -> others i s s'.
Proof. intros [Ha _ _ _ _]. split; rewrite Ha; [apply length_insert|]. intros j Hj. by rewrite list_lookup_insert_ne. Qed.

Lemma cred_destroyable w c o : cred_ok w c o -> is_Some (mc_keys w !! cred_val c) \/ cred_val c = 0.
Proof. intros Hc. destruct (decide (cred_val c = 0)); [by right|left]. by eapply cred_ok_some. Qed.

Lemma destroyed_lookup (m : gmap Z (bt_mesh_key_type * list Z)) key id : id <> key ->
  (if key =? 0 then m else delete key m) !! id = m !! id.
Proof. intros Hne. destruct (key =? 0); [done|]. by rewrite lookup_delete_ne. Qed.

Lemma app_key_del_spec s t i a k e :
  app_table s t -> is_key_idx k -> apps s !! i = Some a -> app_idx a = k -> app_ok (ak_crypto s) a e ->
  wp (app_key_del true i) s (fun _ s' => others i s s' /\ app_table s' (delete k t)).
Proof.
  intros Ht Hk Hi Hidx Hok. pose proof (lookup_lt_Some _ _ _ Hi) as Hlt.
  unfold app_key_del. apply (wp_app_at i a); [done|]. rewrite Hidx. apply wp_bind.
  eapply wp_app_settings; [by apply (amid_start k s t)|done|done|]. intros s1 Hm1. cbn in Hm1.
  apply wp_bind. eapply wp_evt; [exact Hm1|exact Hi|]. intros s2 Hm2.
  apply wp_bind. eapply wp_on_app; [exact Hm2|exact Hi|]. intros s3 Hm3.
  apply wp_bind. eapply wp_destroy; [exact Hm3|apply (kl_ready (at_keys _ _ Ht))|by eapply cred_destroyable, Hok|].
  intros s4 w4 Hm4 Hr4 Hk4.
  assert (is_Some (mc_keys w4 !! cred_val (app_key1 a)) \/ cred_val (app_key1 a) = 0) as Hd.
  { destruct (decide (cred_val (app_key1 a) = 0)) as [|Hz]; [by right|left].
    rewrite Hk4, destroyed_lookup; [by eapply cred_ok_some; [apply Hok|]|].
    by apply app_ids_differ; [eapply (kl_nodup (at_keys _ _ Ht))|]. }
  apply wp_bind. eapply wp_destroy; [exact Hm4|exact Hr4|exact Hd|]. intros s5 w5 Hm5 Hr5 Hk5.
  eapply wp_on_app; [exact Hm5|by apply list_lookup_insert_eq|]. intros s6 Hm6.
  rewrite list_insert_insert_eq in Hm6. split; [by eapply amid_others|].
  eapply (app_table_replace s t s6 i a _ k w5 _ None Ht Hi Hm6 Hr5); [by left| |done|by split_and!].
  intros id Hid Hs. rewrite app_ids_elem in Hid. destruct (decide (id = 0)) as [->|Hz].
  - rewrite Hk5, Hk4. destruct (Z.eqb_spec (cred_val (app_key1 a)) 0), (Z.eqb_spec (cred_val (app_key0 a)) 0);
      by rewrite ?lookup_delete_ne by done.
  - rewrite Hk5, Hk4. rewrite !destroyed_lookup; [done|tauto..].
Qed.

Lemma app_key_revoke_spec s t i a k e :
  app_table s t -> is_key_idx k -> apps s !! i = Some a -> app_idx a = k -> app_ok (ak_crypto s) a e -> t !! k = Some e ->
  wp (app_key_revoke true i) s (fun _ s' => others i s s' /\
    app_table s' (match ae_new e with Some o => <[k := mk_entry (ae_net e) o None true]> t | None => t end)).
Proof.
  intros Ht Hk Hi Hidx Hok He. pose proof (lookup_lt_Some _ _ _ Hi) as Hlt.
  unfold app_key_revoke. apply (wp_app_at i a); [done|]. rewrite (ao_updated _ _ _ Hok).
  pose proof (ao_new _ _ _ Hok) as Hnew. destruct (ae_new e) as [o|]; cbn in Hnew |- *; [|by apply wp_ret].
  apply wp_bind. eapply wp_destroy; [by apply (amid_start k s t)|apply (kl_ready (at_keys _ _ Ht))|by eapply cred_destroyable, Hok|].
  intros s1 w1 Hm1 Hr1 Hk1. apply wp_bind. eapply wp_on_app; [exact Hm1|exact Hi|]. intros s2 Hm2.
  set (a1 := _ (_ (_ a))) in Hm2.
  assert (content (<[i := a1]> (apps s)) k = Some (app_val a1)) as Hc.
  { eapply content_new; [exact Hi|exact Hidx|]. intros j b Hj Hb Eb. apply Hj.
    eapply (at_unique _ _ Ht j i b a); [done|done|apply in_use_idx; by rewrite Eb|congruence]. }
  rewrite Hidx. apply wp_bind. eapply wp_app_settings; [exact Hm2|done|by rewrite Hc|]. intros s3 Hm3. cbn in Hm3. rewrite Hc in Hm3.
  eapply wp_evt; [exact Hm3|by apply list_lookup_insert_eq|]. intros s4 Hm4. split; [by eapply amid_others|].
  pose proof (app_ids_differ a (kl_nodup (at_keys _ _ Ht) i a Hi)) as Hd.
  eapply (app_table_replace s t s4 i a a1 k w1 _ (Some (mk_entry (ae_net e) o None true)) Ht Hi Hm4 Hr1); [by left| |done|].
  - intros id Hid Hs. rewrite app_ids_elem in Hid. rewrite Hk1. destruct (decide (id = 0)) as [->|Hz].
    + by destruct (Z.eqb_spec (cred_val (app_key0 a)) 0); rewrite ?lookup_delete_ne by done.
    + rewrite destroyed_lookup; [done|tauto].
  - split_and!; [done| | | |done].
    + split; cbn; [apply Hok|apply Hok|done| |done]. eapply cred_ok_same; [exact Hnew|].
      intros Hz Hs. rewrite Hk1, destroyed_lookup; [done|by apply Hd].
    + by apply app_ids_nodup; left.
    + intros id (Hz & [->| ->])%app_ids_elem; [|done]. left. apply app_ids_elem. split; [done|by right].
Qed.

(** ** The specification

    [phase k] is the key refresh phase of the subnet with NetKey index [k]; [env] says
    that the backend refuses the key. *)

Context (subnet_phase phase : Z -> option Z).
Context (Hphase : forall k, is_key_idx k -> subnet_phase k = phase k).

Definition compared (o : option (list Z)) (key : list Z) : Z :=
  if decide (o = Some key) then STATUS_SUCCESS else STATUS_IDX_ALREADY_STORED.

Definition add_app (cap : nat) (env : bool) (k net : Z) (key : list Z) (t : gmap Z app_entry) : Z * gmap Z app_entry :=
  if negb (bool_decide (is_Some (phase net))) then (STATUS_INVALID_NETKEY, t)
  else
    match t !! k with
    | Some e => (if ae_net e =? net then compared (ae_key e) key else STATUS_INVALID_NETKEY, t)
    | None =>
        if decide (size t = cap) then (STATUS_INSUFF_RESOURCES, t)
        else if env then (STATUS_CANNOT_SET, <[k := mk_entry net None None false]> t)
        else (STATUS_SUCCESS, <[k := mk_entry net (Some key) None true]> t)
    end.

(** The NetKey index [net] given with AppKey [k], if any, is not the one it is bound to. *)
Definition unbound (net : Z) (e : app_entry) : bool := negb (net =? BT_MESH_KEY_UNUSED) && negb (ae_net e =? net).

Definition update_app (env : bool) (k net : Z) (key : list Z) (t : gmap Z app_entry) : Z * gmap Z app_entry :=
  match t !! k with
  | None => (STATUS_INVALID_APPKEY, t)
  | Some e =>
      if unbound net e then (STATUS_INVALID_BINDING, t)
      else
        match phase (ae_net e), ae_new e with
        | None, _ => (STATUS_INVALID_NETKEY, t)
        | Some p, new =>
            if negb (p =? BT_MESH_KR_PHASE_1) then (STATUS_CANNOT_UPDATE, t)
            else
              match new with
              | Some o => (compared o key, t)
              | None =>
                  if env then (STATUS_CANNOT_UPDATE, <[k := mk_entry (ae_net e) (ae_key e) (Some None) false]> t)
                  else (STATUS_SUCCESS, <[k := mk_entry (ae_net e) (ae_key e) (Some (Some key)) true]> t)
              end
        end
  end.

Definition del_app (k net : Z) (t : gmap Z app_entry) : Z * gmap Z app_entry :=
  if negb (net =? BT_MESH_KEY_UNUSED) && negb (bool_decide (is_Some (phase net))) then (STATUS_INVALID_NETKEY, t)
  else
    match t !! k with
    | None => (STATUS_SUCCESS, t)
    | Some e => if unbound net e then (STATUS_INVALID_BINDING, t) else (STATUS_SUCCESS, delete k t)
    end.

(** What an event of subnet [net] makes of an AppKey. *)
Definition evt_entry (net : Z) (evt : bt_mesh_key_evt) (e : app_entry) : option app_entry :=
  if negb (ae_net e =? net) then Some e
  else
    match evt, ae_new e with
    | BT_MESH_KEY_DELETED, _ => None
    | BT_MESH_KEY_REVOKED, Some o => Some (mk_entry net o None true)
    | _, _ => Some e
    end.

(** ** The operations implement it *)

Definition app_refused (s : st) (key : list Z) : Prop := exists w1 e w2,
  mc_keys w1 = mc_keys (ak_crypto s) /\ mc_key_import BT_MESH_KEY_TYPE_APP key w1 = (Err e, w2).

Definition app_answers (s : st) (r : Z * gmap Z app_entry) (a : Z) (s' : st) : Prop :=
  a = r.1 /\ app_table s' r.2 /\ length (apps s') = length (apps s).

Lemma amid_length k s w P s' l : amid k s l w P s' -> length (apps s') = length l.
Proof. by intros [-> _ _ _ _]. Qed.

Lemma unused_content s t k : app_table s t -> is_key_idx k -> t !! k = None -> holds d s k None.
Proof.
  intros Ht Hk Hn. rewrite <-(content_none (apps s) k); [apply (at_holds _ _ Ht k Hk); by rewrite Hn|].
  intros i a Ha E. pose proof (kl_slot_of _ _ _ _ _ _ _ _ k (at_keys _ _ Ht)) as Hs. rewrite Hn in Hs.
  destruct (Hs i a Ha); [apply in_use_idx; by rewrite E|done].
Qed.

(** A new key has an identifier of its own. *)
Lemma fresh_id_kept (w w' : W) id (v : bt_mesh_key_type * list Z) : mc_keys w !! id = None ->
  mc_keys w' = <[id := v]> (mc_keys w) ->
  forall id', is_Some (mc_keys w !! id') -> mc_keys w' !! id' = mc_keys w !! id'.
Proof. intros Hf Hk id' [x Hx]. rewrite Hk, lookup_insert_ne; [done|]. congruence. Qed.

Lemma add_app_answers s t k net key : app_table s t -> is_key_idx k -> is_key_idx net -> length key = 16%nat ->
  exists env, (env = true -> app_refused s key) /\
    wp (bt_mesh_app_key_add true subnet_phase k net key) s (app_answers s (add_app (length (apps s)) env k net key t)).
Proof.
  intros Ht Hk Hnet Hl. pose proof (kl_ready (at_keys _ _ Ht)) as Hw.
  unfold bt_mesh_app_key_add, add_app. rewrite Hphase by done.
  destruct (phase net) as [p|]; cbn; [|exists false; split; [done|]; by apply wp_ret].
  pose proof (alloc_app_slot s t k (at_keys _ _ Ht) Hk) as Hal. destruct (t !! k) as [e|] eqn:He.
  - exists false. split; [done|]. apply wp_apps. destruct Hal as (i & -> & a & Hi & Hidx & Hok).
    apply (wp_app_at i a); [done|]. rewrite Hidx, Z.eqb_refl, (ao_net _ _ _ Hok).
    destruct (ae_net e =? net); cbn; [|by apply wp_ret].
    eapply wp_compare; [by apply (amid_start k s t)|done|apply Hok|done|]. intros s' w' Hm Hw' Hks.
    split; [done|]. split; [by eapply app_table_keep|by apply (amid_length _ _ _ _ _ _ Hm)].
  - destruct (decide _) as [Hfull|Hfull].
    { exists false. split; [done|]. apply wp_apps. rewrite Hal. by apply wp_ret. }
    destruct Hal as (i & a & Hal & Hi & Hidx & Hf0 & Hf1).
    assert (forall j b, j <> i -> apps s !! j = Some b -> app_idx b <> k) as Hno.
    { intros j b _ Hb E. pose proof (kl_slot_of _ _ _ _ _ _ _ _ k (at_keys _ _ Ht)) as Hs. rewrite He in Hs.
      destruct (Hs j b Hb); [apply in_use_idx; by rewrite E|done]. }
    assert (exists env, (env = true -> app_refused s key) /\
      wp (app_key_install true i false key (fun app => app <| app_net_idx := net |> <| app_idx := k |> <| app_updated := false |>)
            BT_MESH_KEY_ADDED STATUS_CANNOT_SET) s
         (app_answers s (if env then (STATUS_CANNOT_SET, <[k := mk_entry net None None false]> t)
            else (STATUS_SUCCESS, <[k := mk_entry net (Some key) None true]> t)))) as (env & Henv & Hwp).
    2: { exists env. split; [done|]. apply wp_apps. rewrite Hal. apply (wp_app_at i a); [done|]. rewrite Hidx.
      rewrite (proj2 (Z.eqb_neq _ _)) by (intros Hx; by apply (key_idx_used k)). exact Hwp. }
    match goal with |- context [wp ?m s _] => assert (wp m s (fun r s' =>
      exists env : bool, (env = true -> app_refused s key) /\ app_answers s (if env then (STATUS_CANNOT_SET, <[k := mk_entry net None None false]> t)
            else (STATUS_SUCCESS, <[k := mk_entry net (Some key) None true]> t)) r s')) as (r & s' & E & env & Henv & HQ) end;
      [|exists env; split; [done|]; by exists r, s'].
    eapply wp_install; [by apply (amid_start k s t)|exact Hi|done|done|done|exact Hno|done| |].
    + intros s' w' w1 e1 Hk1 E Hm Hw' Hks. exists true. split; [intros _; by exists w1, e1, w'|].
      split; [done|]. split; [|rewrite (amid_length _ _ _ _ _ _ Hm); apply length_insert].
      eapply (app_table_replace s t s' i a _ k w' _ (Some _) Ht Hi Hm Hw'); [by right|by rewrite Hks|done|].
      split_and!; [done| | | |done].
      * split; try done.
      * apply app_ids_nodup. by left.
      * intros id (Hz & [->| ->])%app_ids_elem; by rewrite ?Hf0, ?Hf1 in Hz.
    + intros s' w' id Hf Hks Hw' Hz a2 Hm. exists false. split; [done|].
      split; [done|]. split; [|rewrite (amid_length _ _ _ _ _ _ Hm); apply length_insert].
      eapply (app_table_replace s t s' i a _ k w' _ (Some _) Ht Hi Hm Hw'); [by right| |done|].
      { intros id' _. by apply (fresh_id_kept _ _ id _ Hf Hks). }
      split_and!; [done| | | |done].
      * split; try done. cbn. rewrite Hks, lookup_insert_eq. by split_and!.
      * apply app_ids_nodup. by left.
      * intros id' (Hz' & [->| ->])%app_ids_elem; [|by destruct Hz'].
        right. by apply (fresh_not_owned _ _ _ _ _ _ _ _ _ (at_keys _ _ Ht)).
Qed.

(** A key that is being updated gets its new key, if the backend takes it. *)
Lemma update_app_new s t i a k e key :
  app_table s t -> is_key_idx k -> length key = 16%nat -> apps s !! i = Some a -> app_idx a = k ->
  app_ok (ak_crypto s) a e -> ae_new e = None ->
  wp (app_key_install true i true key (fun app => app <| app_updated := true |>) BT_MESH_KEY_UPDATED STATUS_CANNOT_UPDATE) s
    (fun r s' => exists env : bool, (env = true -> app_refused s key) /\
       app_answers s (if env then (STATUS_CANNOT_UPDATE, <[k := mk_entry (ae_net e) (ae_key e) (Some None) false]> t)
                      else (STATUS_SUCCESS, <[k := mk_entry (ae_net e) (ae_key e) (Some (Some key)) true]> t)) r s').
Proof.
  intros Ht Hk Hl Hi Hidx Hok Hnew. pose proof (kl_ready (at_keys _ _ Ht)) as Hw.
  assert (cred_val (app_key1 a) = 0) as Hz1 by (pose proof (ao_new _ _ _ Hok) as Hx; by rewrite Hnew in Hx).
  eapply wp_install; [by apply (amid_start k s t)|exact Hi|done|done|done| |done| |].
  - intros j b Hj Hb E. apply Hj.
    eapply (at_unique _ _ Ht j i b a); [done|done|apply in_use_idx; by rewrite E|congruence].
  - intros s' w' w1 e1 Hk1 E Hm Hw' Hks. exists true. split; [intros _; by exists w1, e1, w'|].
    split; [done|]. split; [|rewrite (amid_length _ _ _ _ _ _ Hm); apply length_insert].
    eapply (app_table_replace s t s' i a _ k w' _ (Some _) Ht Hi Hm Hw'); [by left|by rewrite Hks|done|].
    split_and!; [done| | | |done].
    + split; cbn; [apply Hok|apply Hok|done| |done].
      eapply cred_ok_same; [apply Hok|]. intros _ _. by rewrite Hks.
    + apply app_ids_nodup. by left.
    + intros id (Hz & [->| ->])%app_ids_elem; [|by destruct Hz]. left. apply app_ids_elem. split; [done|by left].
  - intros s' w' id Hf Hks Hw' Hz a2 Hm. exists false. split; [done|].
    split; [done|]. split; [|rewrite (amid_length _ _ _ _ _ _ Hm); apply length_insert].
    eapply (app_table_replace s t s' i a _ k w' _ (Some _) Ht Hi Hm Hw'); [by left| |done|].
    { intros id' _. by apply (fresh_id_kept _ _ id _ Hf Hks). }
    split_and!; [done| | | |done].
    + split; cbn; [apply Hok|apply Hok|done| |rewrite Hks, lookup_insert_eq; by split_and!].
      eapply cred_ok_same; [apply Hok|]. intros _. by apply (fresh_id_kept _ _ id _ Hf Hks).
    + apply app_ids_nodup. right. cbn. intros Hx.
      destruct (cred_ok_some _ _ _ (ao_key _ _ _ Hok)) as [v Hv]; [by rewrite Hx|]. by rewrite Hx, Hf in Hv.
    + intros id' (Hz' & [->| ->])%app_ids_elem; [left; apply app_ids_elem; split; [done|by left]|].
      right. by apply (fresh_not_owned _ _ _ _ _ _ _ _ _ (at_keys _ _ Ht)).
Qed.

Lemma update_app_answers s t k net key : app_table s t -> is_key_idx k -> length key = 16%nat ->
  exists env, (env = true -> app_refused s key) /\
    wp (bt_mesh_app_key_update true subnet_phase k net key) s (app_answers s (update_app env k net key t)).
Proof.
  intros Ht Hk Hl. pose proof (kl_ready (at_keys _ _ Ht)) as Hw.
  unfold bt_mesh_app_key_update, update_app.
  pose proof (find_app_slot s t k Ht Hk) as Hal. destruct (t !! k) as [e|] eqn:He.
  2: { exists false. split; [done|]. apply wp_apps. rewrite Hal. by apply wp_ret. }
  destruct Hal as (i & Hal & a & Hi & Hidx & Hok).
  enough (wp (app ← app_at i;
      if negb (net =? BT_MESH_KEY_UNUSED) && negb (app_net_idx app =? net) then mret STATUS_INVALID_BINDING
      else match subnet_phase (app_net_idx app) with
        | None => mret STATUS_INVALID_NETKEY
        | Some p => if negb (p =? BT_MESH_KR_PHASE_1) then mret STATUS_CANNOT_UPDATE
            else if app_updated app then compare_status key (cred_val (app_key1 app))
            else app_key_install true i true key (fun app => app <| app_updated := true |>) BT_MESH_KEY_UPDATED STATUS_CANNOT_UPDATE
        end) s (fun r s' => exists env, (env = true -> app_refused s key) /\ app_answers s (update_app env k net key t) r s'))
    as (r & s' & E & env & Henv & HQ).
  { exists env. split; [done|]. unfold update_app in HQ. rewrite He in HQ. apply wp_apps. rewrite Hal. by exists r, s'. }
  unfold update_app. rewrite He. apply (wp_app_at i a); [done|].
  rewrite (ao_net _ _ _ Hok), (ao_updated _ _ _ Hok). fold (unbound net e).
  destruct (unbound net e); [exists STATUS_INVALID_BINDING, s; split; [done|]; by exists false|].
  rewrite Hphase by apply Hok.
  destruct (phase (ae_net e)) as [p|]; [|exists STATUS_INVALID_NETKEY, s; split; [done|]; by exists false].
  destruct (negb (p =? BT_MESH_KR_PHASE_1)); [exists STATUS_CANNOT_UPDATE, s; split; [done|]; by exists false|].
  destruct (ae_new e) as [o|] eqn:Hnew; cbn [is_Some]; [rewrite bool_decide_eq_true_2 by by eexists|].
  - pose proof (ao_new _ _ _ Hok) as Hc. rewrite Hnew in Hc. cbn in Hc.
    eapply wp_compare; [by apply (amid_start k s t)|done|exact Hc|done|]. intros s' w' Hm Hw' Hks.
    exists false. split; [done|]. split; [done|]. split; [by eapply app_table_keep|by apply (amid_length _ _ _ _ _ _ Hm)].
  - rewrite bool_decide_eq_false_2 by by intros [].
    by apply (update_app_new s t i a k e key).
Qed.

Lemma del_app_answers s t k net : app_table s t -> is_key_idx k -> is_key_idx net \/ net = BT_MESH_KEY_UNUSED ->
  wp (bt_mesh_app_key_del true subnet_phase k net) s (app_answers s (del_app k net t)).
Proof.
  intros Ht Hk Hnet. unfold bt_mesh_app_key_del, del_app.
  replace (negb (net =? BT_MESH_KEY_UNUSED) && negb (bool_decide (is_Some (subnet_phase net))))
    with (negb (net =? BT_MESH_KEY_UNUSED) && negb (bool_decide (is_Some (phase net))))
    by (destruct Hnet as [Hnet| ->]; [by rewrite Hphase|done]).
  destruct (negb (net =? BT_MESH_KEY_UNUSED) && _); [by apply wp_ret|]. apply wp_apps.
  pose proof (find_app_slot s t k Ht Hk) as Hal. destruct (t !! k) as [e|] eqn:He; [|rewrite Hal; by apply wp_ret].
  destruct Hal as (i & -> & a & Hi & Hidx & Hok). apply (wp_app_at i a); [done|].
  rewrite (ao_net _ _ _ Hok), (Z.eqb_sym net (ae_net e)). fold (unbound net e).
  destruct (unbound net e); [by apply wp_ret|]. apply wp_bind.
  eapply wp_mono; [exact (app_key_del_spec s t i a k e Ht Hk Hi Hidx Hok)|].
  intros ? s' [[Hlen _] Ht']. apply wp_ret. by split.
Qed.

(** ** Loops over the slots *)

(** A call for each slot, that makes [f] of the entry in it. *)
Lemma each_app_spec (g : nat -> M st unit) (f : app_entry -> option app_entry) n : forall i s t,
  (forall i s t a, app_table s t -> apps s !! i = Some a ->
     wp (g i) s (fun _ s' => others i s s' /\
       app_table s' (if in_use app_idx a then partial_alter (fun o => o ≫= f) (app_idx a) t else t))) ->
  app_table s t -> (i + n = length (apps s))%nat ->
  wp (each_app g n i) s (fun _ s' => length (apps s') = length (apps s) /\ exists t', app_table s' t' /\
    (forall k, t !! k = None -> t' !! k = None) /\
    forall j a, apps s !! j = Some a -> in_use app_idx a = true ->
      t' !! app_idx a = if decide (i <= j)%nat then t !! app_idx a ≫= f else t !! app_idx a).
Proof.
  induction n as [|n IH]; intros i s t Hg Ht Hn; cbn [each_app].
  { apply wp_ret. split; [done|]. exists t. split_and!; try done. intros j a Hj _.
    apply lookup_lt_Some in Hj. by rewrite decide_False by lia. }
  destruct (lookup_lt_is_Some_2 (apps s) i) as [x Hx]; [lia|].
  apply wp_bind. eapply wp_mono; [by apply (Hg i s t x)|]. intros _ s1 [[Hlen Hoth] Ht1].
  set (t1 := if in_use app_idx x then _ else _) in Ht1.
  eapply wp_mono; [apply (IH (S i) s1 t1 Hg Ht1); lia|]. intros _ s' (Hl' & t' & Ht' & Hnone & Hsome).
  split; [lia|]. exists t'. split; [done|].
  assert (forall j a, j <> i -> apps s !! j = Some a -> in_use app_idx a = true -> t1 !! app_idx a = t !! app_idx a) as Hother.
  { intros j a Hj Ha Hu. unfold t1. destruct (in_use app_idx x) eqn:Hux; [|done]. apply lookup_partial_alter_ne.
    intros E. apply Hj. symmetry. by eapply (at_unique _ _ Ht i j x a). }
  split.
  - intros k Hk. apply Hnone. unfold t1. destruct (in_use app_idx x); [|done].
    destruct (decide (app_idx x = k)) as [->|Hne]; [by rewrite lookup_partial_alter_eq, Hk|by rewrite lookup_partial_alter_ne].
  - intros j a Ha Hu. destruct (decide (j = i)) as [->|Hj].
    + rewrite decide_True by lia. rewrite Ha in Hx. injection Hx as <-.
      assert (t1 !! app_idx a = t !! app_idx a ≫= f) as <- by (unfold t1; by rewrite Hu, lookup_partial_alter_eq).
      destruct (t1 !! app_idx a) as [e1|] eqn:He1; [|by apply Hnone].
      destruct (kl_slot (at_keys _ _ Ht1) _ _ He1) as (Hk1 & j' & a' & Ha' & E).
      destruct (decide (j' = i)) as [->|Hj'].
      * pose proof (Hsome i a' Ha') as Hx. rewrite E in Hx. rewrite Hx by (apply in_use_idx; by rewrite E).
        by rewrite decide_False by lia.
      * rewrite Hoth in Ha' by done. destruct Hj'. eapply (at_unique _ _ Ht j' i a' a); try done. apply in_use_idx. by rewrite E.
    + rewrite <-Hoth in Ha by done. rewrite (Hsome j a Ha Hu). rewrite (Hoth j Hj) in Ha.
      rewrite (Hother j a Hj Ha Hu). by destruct (decide (S i <= j)%nat), (decide (i <= j)%nat); try lia.
Qed.

(** The whole array. *)
Lemma each_app_omap g f s t :
  (forall i s t a, app_table s t -> apps s !! i = Some a ->
     wp (g i) s (fun _ s' => others i s s' /\
       app_table s' (if in_use app_idx a then partial_alter (fun o => o ≫= f) (app_idx a) t else t))) ->
  app_table s t ->
  wp (each_app g (length (apps s)) 0) s (fun _ s' => length (apps s') = length (apps s) /\ app_table s' (omap f t)).
Proof.
  intros Hg Ht. eapply wp_mono; [by apply (each_app_spec g f (length (apps s)) 0 s t Hg Ht)|].
  intros _ s' (Hl & t' & Ht' & Hnone & Hsome). split; [done|]. replace (omap f t) with t'; [done|].
  apply map_eq. intros k. rewrite lookup_omap. destruct (t !! k) as [e|] eqn:He; cbn; [|by apply Hnone].
  destruct (kl_slot (at_keys _ _ Ht) _ _ He) as (Hk & j & a & Ha & <-).
  rewrite (Hsome j a Ha) by by apply in_use_idx. by rewrite decide_True, He by lia.
Qed.

Lemma others_refl i s : others i s s.
Proof. done. Qed.

Lemma alter_entry (f : app_entry -> option app_entry) (t : gmap Z app_entry) k e : t !! k = Some e ->
  partial_alter (fun o => o ≫= f) k t = match f e with Some e' => <[k := e']> t | None => delete k t end.
Proof.
  intros He. apply map_eq. intros j. destruct (decide (k = j)) as [<-|Hne].
  - rewrite lookup_partial_alter_eq, He. cbn. destruct (f e); by rewrite ?lookup_insert_eq, ?lookup_delete_eq.
  - rewrite lookup_partial_alter_ne by done. destruct (f e); by rewrite ?lookup_insert_ne, ?lookup_delete_ne.
Qed.

Lemma alter_entry_same (f : app_entry -> option app_entry) (t : gmap Z app_entry) k e : t !! k = Some e -> f e = Some e ->
  partial_alter (fun o => o ≫= f) k t = t.
Proof. intros He Hf. rewrite (alter_entry f t k e He), Hf. by apply insert_id. Qed.

Lemma subnet_evt_one_spec net evt i s t a :
  evt <> BT_MESH_KEY_UPDATED -> evt <> BT_MESH_KEY_ADDED -> app_table s t -> apps s !! i = Some a ->
  wp (subnet_evt_one true net evt i) s (fun _ s' => others i s s' /\
    app_table s' (if in_use app_idx a then partial_alter (fun o => o ≫= evt_entry net evt) (app_idx a) t else t)).
Proof.
  intros He1 He2 Ht Hi. unfold subnet_evt_one. apply (wp_app_at i a); [done|].
  unfold in_use at 1. destruct (app_idx a =? BT_MESH_KEY_UNUSED) eqn:Hu; cbn; [by apply wp_ret|].
  assert (in_use app_idx a = true) as Hus by (unfold in_use; by rewrite Hu).
  pose proof (kl_range (at_keys _ _ Ht) i a Hi Hus) as Hk.
  destruct (kl_entry (at_keys _ _ Ht) i a Hi Hus) as (e & He & Hok).
  rewrite (ao_net _ _ _ Hok), (alter_entry _ t _ e He). unfold evt_entry.
  destruct (ae_net e =? net) eqn:Hnet; cbn; [|apply wp_ret; split; [done|]; by rewrite insert_id].
  destruct evt; try done.
  - exact (app_key_del_spec s t i a _ e Ht Hk Hi eq_refl Hok).
  - rewrite insert_id by done. destruct (app_updated a); [|by apply wp_ret].
    eapply wp_evt; [by apply (amid_start (app_idx a) s t)|exact Hi|]. intros s' Hm.
    split; [split; [by rewrite (amid_length _ _ _ _ _ _ Hm)|by intros j _; rewrite (am_apps _ _ _ _ _ _ Hm)]|].
    by eapply app_table_keep; [|exact Hm|apply (kl_ready (at_keys _ _ Ht))|].
  - eapply wp_mono; [exact (app_key_revoke_spec s t i a _ e Ht Hk Hi eq_refl Hok He)|]. intros _ s' [Ho Ht']. split; [done|].
    apply Z.eqb_eq in Hnet as <-. destruct (ae_new e) as [o|]; [exact Ht'|]. by rewrite insert_id.
Qed.

Lemma subnet_evt_answers s t net evt : app_table s t ->
  wp (app_subnet_evt true net evt) s (fun _ s' => length (apps s') = length (apps s) /\
    app_table s' (match evt with BT_MESH_KEY_UPDATED | BT_MESH_KEY_ADDED => t | _ => omap (evt_entry net evt) t end)).
Proof.
  intros Ht. unfold app_subnet_evt. destruct evt; try (by apply wp_ret); apply wp_apps;
    (apply each_app_omap; [|done]); intros; by apply subnet_evt_one_spec.
Qed.

Lemma reset_answers s t : app_table s t ->
  wp (bt_mesh_app_keys_reset true) s (fun _ s' => length (apps s') = length (apps s) /\ app_table s' ∅).
Proof.
  intros Ht. unfold bt_mesh_app_keys_reset. apply wp_apps.
  replace (∅ : gmap Z app_entry) with (omap (fun _ : app_entry => @None app_entry) t)
    by (apply map_eq; intros k; rewrite lookup_omap, lookup_empty; by destruct (t !! k)).
  apply each_app_omap; [|done]. clear. intros i s t a Ht Hi. unfold reset_one. apply (wp_app_at i a); [done|].
  destruct (in_use app_idx a) eqn:Hus; unfold in_use in Hus; rewrite Hus; [|by apply wp_ret].
  pose proof (kl_range (at_keys _ _ Ht) i a Hi Hus) as Hk.
  destruct (kl_entry (at_keys _ _ Ht) i a Hi Hus) as (e & He & Hok). rewrite (alter_entry _ t _ e He).
  exact (app_key_del_spec s t i a _ e Ht Hk Hi eq_refl Hok).
Qed.

(** ** The storage job *)

Lemma app_table_slots s s' t : app_table s t -> apps s' = apps s -> ak_crypto s' = ak_crypto s ->
  queue_ok (app_key_updates s') ->
  (forall k, is_key_idx k -> (forall e, t !! k = Some e -> ae_saved e = true) -> holds d s' k (content (apps s) k)) ->
  app_table s' t.
Proof. intros Ht Ha Hc Hq Hh. split; rewrite ?Ha, ?Hc; [apply Ht|done|done]. Qed.

(** A request for index [k], taken off the queue. *)
Lemma drop_holds (s : st) i u : queue_ok (app_key_updates s) -> app_key_updates s !! i = Some u -> up_valid u = true ->
  let s1 := s <| app_key_updates ::= <[i := mk_update (up_key_idx u) false (up_clear u)]> |> in
  queue_ok (app_key_updates s1) /\ (forall b, ~ queued (app_key_updates s1) (up_key_idx u) b) /\
  forall k c, k <> up_key_idx u -> holds d s k c -> holds d s1 k c.
Proof.
  intros Hq Hi Hv s1. destruct (queue_drop _ i u Hq Hi Hv) as [Hq' Hqd]. split; [exact Hq'|]. split.
  - intros b Hb. by apply Hqd in Hb as [_ Hb].
  - intros k c Hne [H1 H2]. split.
    + intros b Hb. apply Hqd in Hb as [Hb _]. by apply H1.
    + intros Hn. apply H2. intros b Hb. by apply (Hn b), Hqd.
Qed.

Definition request_done (i : nat) (s s' : st) : Prop :=
  apps s' = apps s /\ ak_crypto s' = ak_crypto s /\ length (app_key_updates s') = length (app_key_updates s) /\
  (forall u, app_key_updates s' !! i = Some u -> up_valid u = false) /\
  forall j, j <> i -> app_key_updates s' !! j = app_key_updates s !! j.

Lemma app_pending_one_spec s t i u : app_table s t -> app_key_updates s !! i = Some u ->
  wp (app_pending_one i) s (fun _ s' => request_done i s s' /\ app_table s' t).
Proof.
  intros Ht Hi. unfold app_pending_one. apply wp_bind. exists (app_key_updates s), s. split; [done|].
  rewrite (list_lookup_total_correct _ _ _ Hi). destruct (up_valid u) eqn:Hv; cbn [negb].
  2: { apply wp_ret. split; [|done]. split_and!; try done. intros v Hv'. congruence. }
  destruct (drop_holds s i u (at_queue _ _ Ht) Hi Hv) as (Hq1 & Hn1 & Hoth1).
  set (s1 := s <| app_key_updates ::= _ |>) in *.
  apply wp_bind. exists (), s1. split; [done|].
  assert (forall s', apps s' = apps s1 -> ak_crypto s' = ak_crypto s1 -> app_key_updates s' = app_key_updates s1 -> request_done i s s') as Hd.
  { intros s' Ha Hc Hu. unfold request_done. rewrite Ha, Hc, Hu. cbn. rewrite length_insert. split_and!; try done.
    - intros v. rewrite list_lookup_insert_eq by by eapply lookup_lt_Some. by intros [= <-].
    - intros j Hj. by rewrite list_lookup_insert_ne. }
  pose proof (list_elem_of_lookup_2 _ _ _ Hi) as Hin.
  assert (queued (app_key_updates s) (up_key_idx u) (up_clear u)) as Hqu by by exists i, u.
  pose proof (qo_range _ (at_queue _ _ Ht) _ _ Hqu) as Hk.
  assert (forall s' c, app_key_updates s' = app_key_updates s1 -> apps s' = apps s1 -> ak_crypto s' = ak_crypto s1 ->
    (up_clear u = true /\ c = None \/ up_clear u = false /\ c = content (apps s) (up_key_idx u) /\ c <> None) ->
    holds d s' (up_key_idx u) c -> (forall k' c', k' <> up_key_idx u -> holds d s1 k' c' -> holds d s' k' c') -> app_table s' t) as Hfin.
  { intros s' c Hu Ha Hc Hcl Hown Hoth. apply (app_table_slots s s' t Ht); try done; [by rewrite Hu|].
    intros k' Hk' Hsv. pose proof (at_holds _ _ Ht k' Hk' Hsv) as Hh.
    destruct (decide (k' = up_key_idx u)) as [->|Hne]; [|by apply Hoth, Hoth1].
    destruct Hcl as [[Hcl ->]|(_ & -> & _)]; [|done]. destruct Hh as [Hh _]. by rewrite (proj1 (Hh _ Hqu) Hcl). }
  destruct (up_clear u) eqn:Hcl.
  - exists (), (s1 <| ak_ext ::= (fun l => l ++ [DeleteAppKey (up_key_idx u)]) |>). split; [done|].
    split; [by apply Hd|].
    destruct (request_holds d s1 (up_key_idx u) (DeleteAppKey (up_key_idx u)) None Hn1) as [Hown Hoth];
      [intros m; apply lookup_delete_eq|intros m k' Hne; by apply lookup_delete_ne|].
    eapply Hfin; [..|exact Hown|exact Hoth]; try done. by left.
  - unfold store_app_key. apply wp_apps. cbn [apps]. change (apps s1) with (apps s).
    pose proof (app_find_spec (up_key_idx u) (apps s) 0) as Hf.
    destruct (app_find (up_key_idx u) (apps s) 0) as [j|] eqn:Hfnd.
    + destruct Hf as (_ & a & Ha & E). rewrite Nat.sub_0_r in Ha. apply (wp_app_at j a); [done|].
      exists (), (s1 <| ak_ext ::= (fun l => l ++ [SaveAppKey (up_key_idx u) (app_val a)]) |>). split; [done|].
      split; [by apply Hd|].
      destruct (request_holds d s1 (up_key_idx u) (SaveAppKey (up_key_idx u) (app_val a)) (Some (app_val a)) Hn1) as [Hown Hoth];
        [intros m; apply lookup_insert_eq|intros m k' Hne; by apply lookup_insert_ne|].
      eapply Hfin; [..|exact Hown|exact Hoth]; try done. right. split_and!; [done| |done].
      unfold content. rewrite Hfnd. cbn. by rewrite Ha.
    + apply wp_ret. split; [by apply Hd|]. apply (app_table_slots s s1 t Ht); try done.
      intros k' Hk' Hsv. pose proof (at_holds _ _ Ht k' Hk' Hsv) as Hh.
      destruct (decide (k' = up_key_idx u)) as [->|Hne]; [|by apply Hoth1].
      exfalso. assert (content (apps s) (up_key_idx u) = None) as Hc by (unfold content; by rewrite Hfnd).
      destruct Hh as [Hh _]. rewrite Hc in Hh. by pose proof (proj2 (Hh _ Hqu) eq_refl).
Qed.

Lemma app_pending_loop_spec t n : forall i s, app_table s t -> (i + n = length (app_key_updates s))%nat ->
  (forall j u, (j < i)%nat -> app_key_updates s !! j = Some u -> up_valid u = false) ->
  wp (app_pending_loop n i) s (fun _ s' => app_table s' t /\ apps s' = apps s /\ ak_crypto s' = ak_crypto s /\
    forall k b, ~ queued (app_key_updates s') k b).
Proof.
  induction n as [|n IH]; intros i s Ht Hn Hd; cbn [app_pending_loop].
  { apply wp_ret. split_and!; try done. intros k b (j & u & Hj & Hv & _).
    rewrite (Hd j u) in Hv; [done| |done]. apply lookup_lt_Some in Hj. lia. }
  destruct (lookup_lt_is_Some_2 (app_key_updates s) i) as [u Hu]; [lia|].
  apply wp_bind. eapply wp_mono; [by apply (app_pending_one_spec s t i u)|].
  intros _ s1 ((Ha & Hc & Hl & Hi & Hoth) & Ht1).
  eapply wp_mono; [apply (IH (S i) s1 Ht1); [lia|]|].
  - intros j v Hj Hv. destruct (decide (j = i)) as [->|Hne]; [by apply (Hi v)|]. rewrite Hoth in Hv by done. by apply (Hd j v); [lia|].
  - intros _ s' (Ht' & Ha' & Hc' & Hq'). split_and!; [done|congruence..|done].
Qed.

(** After the storage job the storage has the records of the table. *)
Lemma app_pending_store_spec s t : app_table s t ->
  wp bt_mesh_app_key_pending_store s (fun _ s' => app_table s' t /\ apps s' = apps s /\ ak_crypto s' = ak_crypto s /\
    forall k, is_key_idx k -> (forall e, t !! k = Some e -> ae_saved e = true) -> app_disk d (ak_ext s') !! k = content (apps s) k).
Proof.
  intros Ht. unfold bt_mesh_app_key_pending_store. apply wp_bind. exists (app_key_updates s), s. split; [done|].
  eapply wp_mono; [apply (app_pending_loop_spec t _ 0 s Ht); [done|lia]|].
  intros _ s' (Ht' & Ha & Hc & Hq). split_and!; try done. intros k Hk Hsv. rewrite <-Ha. by apply (at_holds _ _ Ht' k Hk Hsv).
Qed.

(** ** Loading *)

Definition val_ids (v : app_key_val) : list Z := nonzero [av_val0 v; av_val1 v].

Definition key_kept (w : W) (id : Z) (raw : list Z) : Prop :=
  mc_keys w !! id = Some (BT_MESH_KEY_TYPE_APP, raw) /\ length raw = 16%nat.

(** The record [v] of AppKey [k], whose keys are in the store, stands for the entry [e]. *)
Definition record_ok (w : W) (v : app_key_val) (e : app_entry) : Prop :=
  is_key_idx (av_net_idx v) /\ ae_net e = av_net_idx v /\ ae_saved e = true /\ NoDup (val_ids v) /\
  (exists r0, ae_key e = Some r0 /\ key_kept w (av_val0 v) r0) /\
  match ae_new e with
  | None => av_updated v = false /\ av_val1 v = 0
  | Some o => av_updated v = true /\ exists r1, o = Some r1 /\ key_kept w (av_val1 v) r1
  end.

Lemma record_ok_same w w' v e : mc_keys w' = mc_keys w -> record_ok w v e -> record_ok w' v e.
Proof. intros Hk. unfold record_ok, key_kept. by rewrite Hk. Qed.

Lemma amid_begin k (s : st) : queue_ok (app_key_updates s) -> amid k s (apps s) (ak_crypto s) (holds d s k) s.
Proof. by split. Qed.

Lemma app_id_set_spec k s0 l w P s i a new key raw (Q : Z -> st -> Prop) :
  amid k s0 l w P s -> l !! i = Some a -> mc_ready w -> key_kept w key raw ->
  (forall s' w', mc_ready w' -> mc_keys w' = mc_keys w ->
     amid k s0 (<[i := on_cred new (fun c => c <| cred_id := K4 raw |> <| cred_val := key |>) a]> l) w' P s' -> Q 0 s') ->
  wp (app_id_set i new key) s Q.
Proof.
  intros Hm Hi Hw [Hs Hl] HQ. pose proof (lookup_lt_Some _ _ _ Hi) as Hlt. unfold app_id_set. apply wp_bind.
  destruct (computes_yields _ _ _ (mc_export_spec w _ _ _ Hs eq_refl Hl) Hw) as (w1 & E1 & Hk1 & Hr1).
  destruct (k4_yields w1 raw Hr1) as (w2 & E2 & Hk2 & Hr2).
  eapply (wp_attempt _ _ _ _ _ _ _ (inl (K4 raw)) w2); [exact Hm| |].
  { unfold attempt. rewrite (bind_ok _ _ _ _ _ E1). unfold bt_mesh_app_id. by rewrite E2. }
  intros s1 Hm1. cbn beta iota. apply wp_bind. eapply wp_on_app; [exact Hm1|exact Hi|]. intros s2 Hm2.
  destruct (mc_assign_spec w2 key Hr2) as (w3 & E3 & Hk3 & Hr3); [by rewrite Hk2, Hk1, Hs|].
  apply wp_bind. eapply wp_in_crypto; [exact Hm2|exact E3|]. intros s3 Hm3.
  apply wp_bind. eapply wp_on_app; [exact Hm3|by apply list_lookup_insert_eq|]. intros s4 Hm4.
  rewrite list_insert_insert_eq in Hm4. apply wp_ret. apply (HQ s4 w3 Hr3); [by rewrite Hk3, Hk2, Hk1|].
  by destruct new.
Qed.

(** The slot of a key that was loaded. *)
Definition loaded_slot (k : Z) (v : app_key_val) (a' : app_key) : Prop := app_idx a' = k /\ app_val a' = v.

Lemma load_slot s t k i a v e :
  key_slots app_idx app_ids app_ok app_free G (ak_crypto s) (apps s) t -> queue_ok (app_key_updates s) ->
  is_key_idx k -> app_key_alloc k (apps s) = Some i -> apps s !! i = Some a -> app_idx a = BT_MESH_KEY_UNUSED -> app_free a ->
  record_ok (ak_crypto s) v e ->
  wp (bt_mesh_app_key_set k (av_net_idx v) (av_val0 v) (if av_updated v then Some (av_val1 v) else None)) s
    (fun r s' => r = 0 /\ exists a' w', loaded_slot k v a' /\ app_ok w' a' e /\ mc_ready w' /\ mc_keys w' = mc_keys (ak_crypto s) /\
       amid k s (<[i := a']> (apps s)) w' (holds d s k) s').
Proof.
  intros Hr Hq Hk Hal Hi Hidx [Hf0 Hf1] (Hnk & Hnet & Hsv & _ & (r0 & He0 & Hk0) & Hnew).
  pose proof (kl_ready Hr) as Hw. pose proof (lookup_lt_Some _ _ _ Hi) as Hlt.
  unfold bt_mesh_app_key_set. apply wp_apps. rewrite Hal. apply (wp_app_at i a); [done|]. rewrite Hidx.
  rewrite (proj2 (Z.eqb_neq _ _)) by (intros Hx; by apply (key_idx_used k)).
  apply wp_bind. eapply app_id_set_spec; [by apply (amid_begin k s)|exact Hi|exact Hw|exact Hk0|].
  intros s1 w1 Hr1 Hk1 Hm1. cbn [Z.eqb negb]. set (a1 := on_cred false _ a) in Hm1.
  assert (forall w id raw, mc_ready w -> mc_keys w = mc_keys (ak_crypto s) -> key_kept (ak_crypto s) id raw ->
    cred_ok w (mk_app_cred (K4 raw) id) (Some raw)) as Hcok.
  { intros w id raw Hrw Hkw [Hs Hl]. cbn. rewrite Hkw. split_and!; try done. by apply (app_key_nonzero (ak_crypto s) id raw). }
  destruct (ae_new e) as [o|] eqn:Hn.
  - destruct Hnew as (Hu & r1 & -> & Hkk). rewrite Hu. apply wp_bind.
    eapply app_id_set_spec; [exact Hm1|by apply list_lookup_insert_eq|exact Hr1| |].
    { destruct Hkk. split; [by rewrite Hk1|done]. }
    intros s2 w2 Hr2 Hk2 Hm2. rewrite list_insert_insert_eq in Hm2. cbn [Z.eqb negb].
    apply wp_bind. eapply wp_on_app; [exact Hm2|by apply list_lookup_insert_eq|]. intros s3 Hm3.
    rewrite list_insert_insert_eq in Hm3. apply wp_ret. split; [done|]. eexists _, w2.
    split; [|split; [|split; [exact Hr2|split; [by rewrite Hk2, Hk1|exact Hm3]]]].
    + split; [done|]. unfold app_val. cbn. destruct v. cbn in *. by rewrite Hu.
    + split; cbn; [done|by rewrite Hnet|by rewrite Hn|rewrite He0; apply Hcok; by rewrite ?Hk2|].
      rewrite Hn. apply Hcok; by rewrite ?Hk2.
  - destruct Hnew as (Hu & Hz). rewrite Hu. apply wp_bind, wp_ret. cbn [Z.eqb negb].
    apply wp_bind. eapply wp_on_app; [exact Hm1|by apply list_lookup_insert_eq|]. intros s3 Hm3.
    rewrite list_insert_insert_eq in Hm3. apply wp_ret. split; [done|]. eexists _, w1.
    split; [|split; [|split; [exact Hr1|split; [exact Hk1|exact Hm3]]]].
    + split; [done|]. unfold app_val. cbn. rewrite Hf1. destruct v. cbn in *. by rewrite Hu, Hz.
    + split; cbn; [done|by rewrite Hnet|by rewrite Hn|rewrite He0; by apply Hcok|by rewrite Hn].
Qed.

(** After a record is loaded. *)
Record loaded (k : Z) (v : app_key_val) (s s' : st) : Prop := {
  ld_queue : queue_ok (app_key_updates s');
  ld_length : length (apps s') = length (apps s);
  ld_keys : mc_keys (ak_crypto s') = mc_keys (ak_crypto s);
  ld_holds : forall k c, holds d s k c -> holds d s' k c;
  ld_own : content (apps s') k = Some v;
  ld_others : forall k', is_key_idx k' -> k' <> k -> content (apps s') k' = content (apps s) k';
  ld_owns : forall id, owns (apps s') id -> owns (apps s) id \/ id ∈ val_ids v
}.

Lemma load_one_app s t k v e len :
  key_slots app_idx app_ids app_ok app_free G (ak_crypto s) (apps s) t -> queue_ok (app_key_updates s) ->
  is_key_idx k -> t !! k = None -> (size t < length (apps s))%nat -> record_ok (ak_crypto s) v e ->
  (forall id, id ∈ val_ids v -> ~ owns (apps s) id) -> len <> 0 ->
  wp (app_key_set (Some k) len (inl v)) s (fun r s' => r = 0 /\ loaded k v s s' /\
    key_slots app_idx app_ids app_ok app_free G (ak_crypto s') (apps s') (<[k := e]> t)).
Proof.
  intros Hr Hq Hk Hn Hsz Hrec Hids Hlen. unfold app_key_set. rewrite (proj2 (Z.eqb_neq _ _) Hlen).
  replace (u16 k) with k by (unfold u16; rewrite Z.mod_small; unfold is_key_idx in Hk; lia).
  pose proof (alloc_app_slot s t k Hr Hk) as Hal. rewrite Hn, decide_False in Hal by lia.
  destruct Hal as (i & a & Hal & Hi & Hidx & Hfree). pose proof (lookup_lt_Some _ _ _ Hi) as Hlt.
  eapply wp_mono; [by eapply load_slot|].
  intros r s' (-> & a' & w' & [Hidx' Hval] & Hok & Hr' & Hks & [Ha Hc Hq' Hoth Hown]). split; [done|].
  assert (app_ids a' = val_ids v) as Hids' by by rewrite <-Hval.
  assert (key_slots app_idx app_ids app_ok app_free G w' (<[i := a']> (apps s)) (<[k := e]> t)) as Hr2.
  { rewrite <-Hidx'. apply (key_slots_replace _ _ _ _ _ _ _ _ _ i a a' (Some e) Hr Hi Hr'); [by rewrite Hks|].
    rewrite Hidx'. split_and!; [done| |done|rewrite Hids'; apply Hrec|rewrite Hids'; intros id Hid; right; by apply Hids].
    right. split; [unfold in_use; by rewrite Hidx|done]. }
  split; [split; rewrite ?Ha, ?Hc; try done|by rewrite Ha, Hc].
  - apply length_insert.
  - intros k' c Hh. destruct (decide (k' = k)) as [->|]; auto.
  - rewrite <-Hval, <-Hidx'. eapply content_at; [by intros ????????; eapply (kl_unique Hr2)|by apply list_lookup_insert_eq|].
    apply in_use_idx. by rewrite Hidx'.
  - intros k' Hk' Hne. apply (content_insert _ i a); [done| |congruence]. rewrite Hidx. intros Hx. by apply (key_idx_used k').
  - intros id [(j & b & Hj & Hid)|HG]; [|left; by right]. destruct (decide (j = i)) as [->|Hne].
    + rewrite list_lookup_insert_eq in Hj by done. injection Hj as <-. right. by rewrite <-Hids'.
    + rewrite list_lookup_insert_ne in Hj by done. left. left. by exists j, b.
Qed.

(** The settings are loaded record by record. *)
Fixpoint load_apps (len : Z) (l : list (Z * app_key_val)) : M st unit :=
  match l with
  | [] => mret ()
  | (k, v) :: l => _ ← app_key_set (Some k) len (inl v); load_apps len l
  end.

Lemma load_apps_spec (E : gmap Z app_entry) len l : forall s t,
  len <> 0 -> key_slots app_idx app_ids app_ok app_free G (ak_crypto s) (apps s) t -> queue_ok (app_key_updates s) ->
  (size t + length l <= length (apps s))%nat -> NoDup l.*1 ->
  (forall k v, (k, v) ∈ l -> is_key_idx k /\ t !! k = None /\ exists e, E !! k = Some e /\ record_ok (ak_crypto s) v e) ->
  (forall k v id, (k, v) ∈ l -> id ∈ val_ids v -> ~ owns (apps s) id) ->
  (forall k1 k2 v1 v2 id, (k1, v1) ∈ l -> (k2, v2) ∈ l -> id ∈ val_ids v1 -> id ∈ val_ids v2 -> k1 = k2) ->
  wp (load_apps len l) s (fun _ s' => length (apps s') = length (apps s) /\ queue_ok (app_key_updates s') /\ (forall k c, holds d s k c -> holds d s' k c) /\
    exists t', key_slots app_idx app_ids app_ok app_free G (ak_crypto s') (apps s') t' /\
      (forall k, t' !! k = if decide (k ∈ l.*1) then E !! k else t !! k) /\
      (forall k v, (k, v) ∈ l -> content (apps s') k = Some v) /\
      (forall k, is_key_idx k -> k ∉ l.*1 -> content (apps s') k = content (apps s) k)).
Proof.
  induction l as [|[k v] l IH]; intros s t Hlen Hr Hq Hsz Hnd Hrec Hfr Hap; cbn [load_apps].
  { apply wp_ret. split_and!; try done. exists t. split_and!; try done.
    intros k v Hx. by apply elem_of_nil in Hx. }
  destruct (Hrec k v) as (Hk & Hn & e & He & Hok); [by left|]. apply NoDup_cons in Hnd as [Hkl Hnd]. cbn in Hsz.
  apply wp_bind. eapply wp_mono; [apply (load_one_app s t k v e len Hr Hq Hk Hn); [lia|done| |done]|].
  { intros id. apply (Hfr k v). by left. }
  intros r s1 (_ & [Hq1 Hl1 Hk1 Hh1 Hown1 Hoth1 Hids1] & Hr1).
  assert (forall k' v', (k', v') ∈ l -> k' <> k) as Hne.
  { intros k' v' Hin ->. apply Hkl, list_elem_of_fmap. by exists (k, v'). }
  eapply wp_mono; [apply (IH s1 (<[k := e]> t) Hlen Hr1 Hq1); [|done|..]|].
  - rewrite map_size_insert_None, Hl1 by done. lia.
  - intros k' v' Hin. destruct (Hrec k' v') as (Hk' & Hn' & e' & He' & Hok'); [by right|]. split; [done|].
    split; [rewrite lookup_insert_ne; [done|]; intros ->; by eapply Hne|]. exists e'. split; [done|]. by eapply record_ok_same.
  - intros k' v' id Hin Hid Ho. destruct (Hids1 id Ho) as [Ho'|Hv].
    + by apply (Hfr k' v' id); [right| |].
    + apply (Hne k' v' Hin). eapply (Hap k' k v' v id); [by right|by left|done|done].
  - intros k1 k2 v1 v2 id Hi1 Hi2. apply (Hap k1 k2 v1 v2 id); by right.
  - intros _ s' (Hl' & Hq' & Hh' & t' & Hr' & Ht' & Hin' & Hout'). split; [lia|]. split; [done|]. split; [auto|].
    exists t'. split; [done|]. split; [|split].
    + intros k'. rewrite Ht', fmap_cons. change (k, v).1 with k. destruct (decide (k' = k)) as [->|Hx].
      * rewrite decide_False, lookup_insert_eq by done. by destruct (decide (k ∈ k :: l.*1)) as [|[]]; [|left].
      * rewrite lookup_insert_ne by done. destruct (decide (k' ∈ l.*1)) as [Hi|Hi], (decide (k' ∈ k :: l.*1)) as [Hj|Hj]; try done.
        { destruct Hj. by right. }
        { by apply elem_of_cons in Hj as [?|?]. }
    + intros k' v' [[= -> ->]|Hin]%elem_of_cons; [|by apply Hin']. by rewrite Hout'.
    + intros k' Hk' [Hx Hx']%not_elem_of_cons. rewrite Hout' by done. by apply Hoth1.
Qed.

(** No import was refused for this key. *)
Definition complete (e : app_entry) : Prop :=
  ae_saved e = true /\ (exists r, ae_key e = Some r) /\ forall o, ae_new e = Some o -> exists r, o = Some r.

Lemma slot_record G0 w w0 l t i a e : key_slots app_idx app_ids app_ok app_free G0 w l t -> l !! i = Some a ->
  app_ok w a e -> complete e ->
  (forall id v, id ∈ app_ids a -> mc_keys w !! id = Some v -> mc_keys w0 !! id = Some v) ->
  record_ok w0 (app_val a) e.
Proof.
  intros Hr Hi [Hnet Hnk Hu Hk0 Hk1] (Hsv & [r0 He0] & Hnew) Hkept. unfold record_ok. cbn.
  assert (forall c raw, cred_ok w c (Some raw) -> c = app_key0 a \/ c = app_key1 a -> key_kept w0 (cred_val c) raw) as Hkk.
  { intros c raw (Hs & Hl & Hz & _) Hc. split; [|done]. apply Hkept; [|done].
    apply app_ids_elem. split; [done|]. by destruct Hc as [->| ->]; [left|right]. }
  rewrite Hnet. split_and!; try done.
  - exact (kl_nodup Hr i a Hi).
  - exists r0. split; [done|]. apply Hkk; [by rewrite <-He0|by left].
  - rewrite Hu. destruct (ae_new e) as [o|]; cbn in *; [|done]. split; [done|].
    destruct (Hnew o eq_refl) as [r1 ->]. exists r1. split; [done|]. apply Hkk; [done|by right].
Qed.

(** A restart, with the storage [d]. *)
Lemma restart_app G0 s t w0 q len l :
  key_slots app_idx app_ids app_ok app_free G0 (ak_crypto s) (apps s) t ->
  (forall k e, t !! k = Some e -> complete e) ->
  (forall k, is_key_idx k -> d !! k = content (apps s) k) -> (forall k, is_Some (d !! k) -> is_key_idx k) ->
  mc_ready w0 -> G ⊆ mc_keys w0 ->
  (forall i a id, apps s !! i = Some a -> id ∈ app_ids a -> G !! id = None) ->
  (forall i a id v, apps s !! i = Some a -> id ∈ app_ids a -> mc_keys (ak_crypto s) !! id = Some v ->
     mc_keys w0 !! id = Some v) ->
  l ≡ₚ map_to_list d -> len <> 0 ->
  wp (load_apps len l) (mk_app_state w0 (replicate (length (apps s)) free_app) (replicate q (mk_update 0 false false)) [])
    (fun _ s' => app_table s' t /\ length (apps s') = length (apps s)).
Proof.
  intros Hr Hcomp Hd Hdom Hw0 HG Hap Hkept Hl Hlen.
  assert (forall k v, (k, v) ∈ l <-> d !! k = Some v) as Hin by (intros k v; rewrite Hl; apply elem_of_map_to_list).
  assert (forall k v, d !! k = Some v -> exists i a e, apps s !! i = Some a /\ app_idx a = k /\ v = app_val a /\
    t !! k = Some e /\ app_ok (ak_crypto s) a e) as Hslot.
  { intros k v Hv. assert (is_key_idx k) as Hk by (apply Hdom; by rewrite Hv). rewrite (Hd k Hk) in Hv.
    unfold content in Hv. pose proof (app_find_spec k (apps s) 0) as Hs. destruct (app_find _ _ _) as [i|]; [|done]. cbn in Hv.
    destruct Hs as (_ & a & Ha & E). rewrite Nat.sub_0_r in Ha. rewrite Ha in Hv. injection Hv as <-.
    destruct (kl_entry Hr i a Ha) as (e & He & Hok); [apply in_use_idx; by rewrite E|]. rewrite E in He. by exists i, a, e. }
  assert (dom d = dom t) as Hdt.
  { apply set_eq. intros k. rewrite !elem_of_dom. split.
    - intros [v Hv]. destruct (Hslot k v Hv) as (_ & _ & e & _ & _ & _ & -> & _). by eexists.
    - intros [e He]. destruct (kl_slot Hr k e He) as (Hk & i & a & Ha & <-). rewrite (Hd _ Hk).
      rewrite (content_at _ i a); [by eexists|intros ????????; by eapply (kl_unique Hr)|done|by apply in_use_idx]. }
  set (s0 := mk_app_state w0 _ _ _).
  assert (key_slots app_idx app_ids app_ok app_free G (ak_crypto s0) (apps s0) (∅ : gmap Z app_entry)) as Hr0.
  { exact (key_slots_boot _ _ _ _ G w0 (length (apps s)) free_app eq_refl (conj eq_refl eq_refl) Hw0 HG). }
  assert (queue_ok (app_key_updates s0)) as Hq0.
  { split; [intros i j u v [-> _]%lookup_replicate_1|intros k b (i & u & [-> _]%lookup_replicate_1 & Hv & _)]; done. }
  assert (forall i a, apps s0 !! i = Some a -> a = free_app) as Hfree by (by intros i a [-> _]%lookup_replicate_1).
  eapply wp_mono; [apply (load_apps_spec t len l s0 ∅ Hlen Hr0 Hq0)|].
  - rewrite map_size_empty, Hl, length_map_to_list. cbn. rewrite length_replicate.
    rewrite <-size_dom, Hdt, size_dom, (key_slots_size _ _ _ _ _ _ _ _ Hr). apply filter_length_le.
  - rewrite Hl. apply NoDup_fst_map_to_list.
  - intros k v Hv%Hin. split; [apply Hdom; by rewrite Hv|]. split; [apply lookup_empty|].
    destruct (Hslot k v Hv) as (i & a & e & Hi & Hidx & -> & He & Hok). exists e. split; [done|].
    eapply slot_record; [exact Hr|exact Hi|done|by eapply Hcomp|]. intros id v. by apply (Hkept i a).
  - intros k v id Hv%Hin Hid. destruct (Hslot k v Hv) as (i & a & e & Hi & Hidx & -> & He & Hok).
    intros [(j & b & ->%Hfree & Hb)|[x Hx]]; [by apply elem_of_nil in Hb|].
    rewrite (Hap i a id Hi Hid) in Hx. done.
  - intros k1 k2 v1 v2 id H1%Hin H2%Hin Hid1 Hid2.
    destruct (Hslot k1 v1 H1) as (i1 & a1 & e1 & Hi1 & <- & -> & _).
    destruct (Hslot k2 v2 H2) as (i2 & a2 & e2 & Hi2 & <- & -> & _).
    assert (i1 = i2) as -> by by apply (kl_apart Hr i1 i2 a1 a2 id). congruence.
  - intros _ s' (Hlen' & Hq' & Hh & t' & Hr' & Ht' & Hown & Hout).
    split; [|by rewrite Hlen'; apply length_replicate].
    assert (t' = t) as ->.
    { apply map_eq. intros k. rewrite Ht'. destruct (decide (k ∈ l.*1)) as [|Hn]; [done|]. rewrite lookup_empty.
      symmetry. apply not_elem_of_dom. rewrite <-Hdt, not_elem_of_dom. apply eq_None_not_Some. intros [v Hv].
      apply Hn, list_elem_of_fmap. exists (k, v). split; [done|]. by apply Hin. }
    split; [done..|]. intros k Hk _. apply Hh. replace (content (apps s') k) with (d !! k).
    + split; [|done]. intros b (i & u & [-> _]%lookup_replicate_1 & Hv & _). done.
    + destruct (d !! k) as [v|] eqn:Hv; [by rewrite (Hown k v) by by apply Hin|].
      rewrite Hout; [|done|].
      * symmetry. apply content_none. intros i a ->%Hfree. cbn. intros Hx. by apply (key_idx_used k).
      * intros ([k' v] & -> & Hx%Hin)%list_elem_of_fmap. cbn in Hv. congruence.
Qed.

End Slots.
