(* ===== verification/NodeKeys.v ===== *)
(** The keys of a node: the subnets of [subnet.c] and the application keys of
    [app_keys.c] over one key store.

    Each component keeps its table whatever the other does: the keys of the one are
    foreign to the other.  The events that [subnet.c] has for [app_keys.c] are calls of
    their own here, because the registered handlers never run (see the finding on
    [STRUCT_SECTION_FOREACH]). *)

From S2P Require Import Prelude MeshDefs CryptoIf Crypto Subnet KeySlots SubnetTable AppKeys AppOps AppTable.

(** * The node *)

(** The two components; the backend they share is in both. *)
Record node_keys (W : Type) := mk_node { nk_sub : subnet_state W; nk_app : app_state W }.
Arguments mk_node {W}.
Arguments nk_sub {W}.
Arguments nk_app {W}.

Inductive app_op :=
| AppAdd (idx net_idx : Z) (key : list Z)
| AppUpdate (idx net_idx : Z) (key : list Z)
| AppDel (idx net_idx : Z)
| AppSubnetEvt (net_idx : Z) (evt : bt_mesh_key_evt)  (** the handler of [app_keys.c] *)
| AppReset
| AppStore.

Inductive node_op := NodeSubnet (op : subnet_op) | NodeApp (op : app_op).

Section Node.

Context {W : Type} `{MeshCrypto W}.
Context (GATT_PROXY PRIV_BEACONS V1d1 : bool).

(** [bt_mesh_subnet_get(net_idx)->kr_phase] *)
Definition subnet_phase_of (s : subnet_state W) (net_idx : Z) : option Z :=
  i ← bt_mesh_subnet_get net_idx s; kr_phase <$> subnets s !! i.

Definition do_app (phase : Z -> option Z) (op : app_op) : M (app_state W) Z :=
  match op with
  | AppAdd k net key => bt_mesh_app_key_add true phase k net key
  | AppUpdate k net key => bt_mesh_app_key_update true phase k net key
  | AppDel k net => bt_mesh_app_key_del true phase k net
  | AppSubnetEvt net evt => _ ← app_subnet_evt true net evt; mret 0
  | AppReset => _ ← bt_mesh_app_keys_reset true; mret 0
  | AppStore => _ ← bt_mesh_app_key_pending_store; mret 0
  end.

Definition do_node (op : node_op) : M (node_keys W) Z := fun n =>
  match op with
  | NodeSubnet op =>
      let '(r, s) := do_subnet GATT_PROXY PRIV_BEACONS V1d1 op (nk_sub n) in
      (r, mk_node s (nk_app n <| ak_crypto := crypto s |>))
  | NodeApp op =>
      let '(r, s) := do_app (subnet_phase_of (nk_sub n)) op (nk_app n) in
      (r, mk_node (set_crypto (ak_crypto s) (nk_sub n)) s)
  end.

Fixpoint run_node (ops : list node_op) : M (node_keys W) (list Z) :=
  match ops with
  | [] => mret []
  | op :: ops => r ← do_node op; rs ← run_node ops; mret (r :: rs)
  end.

End Node.

(** * Its specification *)

Section Refinement.

Context {W : Type} `{MeshCryptoLaws W}.
Context (GATT_PROXY PRIV_BEACONS V1d1 : bool).
Context (Hconfig : V1d1 = true -> PRIV_BEACONS = true).
Context `{!MeshImportLaws W}.
Context (d : gmap Z app_key_val).
Notation sub_ids := (sub_ids GATT_PROXY PRIV_BEACONS).
Notation node_tables := (gmap Z entry * gmap Z app_entry)%type.

(** The phases that the table of subnets has. *)
Definition phase_of (m : gmap Z entry) (k : Z) : option Z := (fun e : entry => e.1.1) <$> m !! k.

Definition app_step (cap : nat) (phase : Z -> option Z) (env : bool) (op : app_op) (t : gmap Z app_entry) : Z * gmap Z app_entry :=
  match op with
  | AppAdd k net key => add_app phase cap env k net key t
  | AppUpdate k net key => update_app phase env k net key t
  | AppDel k net => del_app phase k net t
  | AppSubnetEvt net (BT_MESH_KEY_UPDATED | BT_MESH_KEY_ADDED) => (0, t)
  | AppSubnetEvt net evt => (0, omap (evt_entry net evt) t)
  | AppReset => (0, ∅)
  | AppStore => (0, t)
  end.

(** An operation of the one component leaves the table of the other as it is. *)
Definition node_step (cap app_cap : nat) (env : bool) (op : node_op) (x : node_tables) : Z * node_tables :=
  match op with
  | NodeSubnet op => let r := table_op GATT_PROXY PRIV_BEACONS cap env op x.1 in (r.1, (r.2, x.2))
  | NodeApp op => let r := app_step app_cap (phase_of x.1) env op x.2 in (r.1, (x.1, r.2))
  end.

Definition app_op_ok (op : app_op) : Prop :=
  match op with
  | AppAdd k net key => is_key_idx k /\ is_key_idx net /\ length key = 16%nat
  | AppUpdate k net key => is_key_idx k /\ length key = 16%nat
  | AppDel k net => is_key_idx k /\ (is_key_idx net \/ net = BT_MESH_KEY_UNUSED)
  | AppSubnetEvt _ _ | AppReset | AppStore => True
  end.

Definition node_op_ok (op : node_op) : Prop :=
  match op with NodeSubnet op => table_op_ok op | NodeApp op => app_op_ok op end.

(** When [env] may be true. *)
Definition node_env_ok (op : node_op) (n : node_keys W) (env : bool) : Prop :=
  match op with
  | NodeSubnet op => env_ok op (nk_sub n) env
  | NodeApp (AppAdd _ _ key | AppUpdate _ _ key) => env = true -> app_refused (nk_app n) key
  | NodeApp _ => env = false
  end.

(** Both tables; the keys of the one are foreign to the other. *)
Record node_ok (cap app_cap : nat) (n : node_keys W) (x : node_tables) : Prop := {
  no_same : ak_crypto (nk_app n) = crypto (nk_sub n);
  no_sub : table GATT_PROXY PRIV_BEACONS (owned_keys app_ids (crypto (nk_sub n)) (apps (nk_app n))) cap (nk_sub n) x.1;
  no_app : app_table (owned_keys sub_ids (crypto (nk_sub n)) (subnets (nk_sub n))) d (nk_app n) x.2;
  no_cap : length (apps (nk_app n)) = app_cap
}.

(** Carrying the table of subnets on, past a change of the application keys. *)
Lemma table_other F F' cap (s s' : subnet_state W) m : table GATT_PROXY PRIV_BEACONS F cap s m -> subnets s' = subnets s ->
  key_slots net_idx sub_ids (slot_ok GATT_PROXY PRIV_BEACONS) idle F' (crypto s') (subnets s) m ->
  table GATT_PROXY PRIV_BEACONS F' cap s' m.
Proof. intros [[_ Hp] Hc] Hs Hr. split; [split|]; by rewrite Hs. Qed.

(** And the other way. *)
Lemma app_table_other G G' (s : app_state W) t w : app_table G d s t ->
  key_slots app_idx app_ids app_ok app_free G' w (apps s) t -> app_table G' d (s <| ak_crypto := w |>) t.
Proof. intros [_ Hq Hh] Hr. by split. Qed.

Lemma phase_agrees F cap (s : subnet_state W) m k : table GATT_PROXY PRIV_BEACONS F cap s m -> is_key_idx k ->
  subnet_phase_of s k = phase_of m k.
Proof.
  intros [Hr _] Hk. unfold subnet_phase_of, phase_of. pose proof (get_rep _ _ _ s m k Hr Hk) as Hg.
  destruct (m !! k) as [[[p r0] r1]|].
  - destruct Hg as (i & -> & sub & Hi & _ & _ & Hp & _). cbn. by rewrite Hi, <-Hp.
  - by rewrite Hg.
Qed.

Lemma do_app_answers G (s : app_state W) t op subnet_phase phase :
  app_table G d s t -> app_op_ok op -> (forall k, is_key_idx k -> subnet_phase k = phase k) ->
  exists env, node_env_ok (NodeApp op) (mk_node (mk_state (ak_crypto s) [] [] []) s) env /\
    wp (do_app subnet_phase op) s (app_answers G d s (app_step (length (apps s)) phase env op t)).
Proof.
  intros Ht Hop Hph. destruct op as [k net key|k net key|k net|net evt| |]; cbn [do_app app_step node_env_ok nk_app].
  - destruct Hop as (Hk & Hnet & Hl). by apply add_app_answers.
  - destruct Hop as (Hk & Hl). by apply update_app_answers.
  - destruct Hop as (Hk & Hnet). exists false. split; [done|]. by apply del_app_answers.
  - exists false. split; [done|]. apply wp_bind. eapply wp_mono; [exact (subnet_evt_answers _ _ s t net evt Ht)|].
    intros _ s' [Hl Ht']. apply wp_ret. by destruct evt.
  - exists false. split; [done|]. apply wp_bind. eapply wp_mono; [exact (reset_answers _ _ s t Ht)|].
    intros _ s' [Hl Ht']. by apply wp_ret.
  - exists false. split; [done|]. apply wp_bind. eapply wp_mono; [exact (app_pending_store_spec _ _ s t Ht)|].
    intros _ s' (Ht' & Ha & _). apply wp_ret. split; [done|]. by rewrite Ha.
Qed.

Lemma do_node_ok cap app_cap n x op : node_ok cap app_cap n x -> node_op_ok op ->
  exists env, node_env_ok op n env /\
    wp (do_node GATT_PROXY PRIV_BEACONS V1d1 op) n (fun a n' =>
      a = (node_step cap app_cap env op x).1 /\ node_ok cap app_cap n' (node_step cap app_cap env op x).2).
Proof.
  intros [Hs Hsub Happ Hcap] Hop. destruct op as [op|op]; cbn [node_step fst snd].
  - destruct (op_answers GATT_PROXY PRIV_BEACONS V1d1 Hconfig _ cap _ _ op Hsub Hop) as (env & Henv & a & s' & E & Ha & Ht').
    exists env. split; [exact Henv|]. eexists a, _. split; [unfold do_node; by rewrite E|]. split; [exact Ha|].
    pose proof (at_keys _ _ _ _ Happ) as Hr2. rewrite Hs in Hr2.
    destruct (key_slots_other _ _ _ _ _ _ _ _ _ _ _ _ _ _ _ (rp_keys _ _ _ _ _ (proj1 Ht')) Hr2) as [Hr2' HF].
    split; cbn; [done| |by eapply app_table_other|done]. by rewrite HF.
  - destruct (do_app_answers _ (nk_app n) x.2 op (subnet_phase_of (nk_sub n)) (phase_of x.1) Happ Hop) as (env & Henv & a & s' & E & Ha & Ht' & Hl).
    { intros k Hk. by eapply phase_agrees. }
    exists env. split; [by destruct op|]. eexists a, _. split; [unfold do_node; by rewrite E|]. rewrite <-Hcap. split; [exact Ha|].
    destruct (key_slots_other _ _ _ _ _ _ _ _ _ _ _ _ _ _ _ (at_keys _ _ _ _ Ht') (rp_keys _ _ _ _ _ (proj1 Hsub))) as [Hr2' HF].
    split; cbn; [done|by eapply table_other| |done]. by rewrite HF.
Qed.

(** A run against the specification: [run_spec n ops x rs n' x'] follows the states of
    the code for what the backend may refuse. *)
Inductive run_spec (cap app_cap : nat) :
    node_keys W -> list node_op -> node_tables -> list Z -> node_keys W -> node_tables -> Prop :=
| spec_nil n x : run_spec cap app_cap n [] x [] n x
| spec_cons n op ops x env a n1 rs n' x' :
    node_env_ok op n env ->
    do_node GATT_PROXY PRIV_BEACONS V1d1 op n = (Ok a, n1) ->
    a = (node_step cap app_cap env op x).1 ->
    run_spec cap app_cap n1 ops (node_step cap app_cap env op x).2 rs n' x' ->
    run_spec cap app_cap n (op :: ops) x (a :: rs) n' x'.

Lemma run_node_ok cap app_cap ops : forall n x, node_ok cap app_cap n x -> Forall node_op_ok ops ->
  exists rs n' x', run_node GATT_PROXY PRIV_BEACONS V1d1 ops n = (Ok rs, n') /\
    run_spec cap app_cap n ops x rs n' x' /\ node_ok cap app_cap n' x'.
Proof.
  induction ops as [|op ops IH]; intros n x Hn Hops.
  { exists [], n, x. split_and!; [done|constructor|done]. }
  apply Forall_cons in Hops as [Hop Hops].
  destruct (do_node_ok cap app_cap n x op Hn Hop) as (env & Henv & a & n1 & E & Ha & Hn1).
  destruct (IH n1 _ Hn1 Hops) as (rs & n' & x' & E2 & Hrun & Hn').
  exists (a :: rs), n', x'. split_and!; [|by econstructor|done].
  cbn [run_node]. rewrite (bind_ok _ _ _ _ _ E). by rewrite (bind_ok _ _ _ _ _ E2).
Qed.

(** C17: NetKeys and AppKeys share one key store without touching each other's.  From a
    node whose slots, key store, queue and storage implement a table of subnets and a
    table of application keys, any interleaving of the operations of [subnet.c] and
    [app_keys.c] - key additions, updates, deletions, phase changes, beacons, subnet
    events, resets and storage jobs - runs to its end without a crash, answers every call
    with the status the specification gives for the two tables, the subnet operations
    leaving the AppKeys as they are and the other way round, and ends in a node that
    implements the tables the specification ends with.  The backend may refuse a new
    key: then an AppKey slot is taken all the same, without a key and without a record
    in the storage. *)
Theorem node_keys_refine cap app_cap ops n x : node_ok cap app_cap n x -> Forall node_op_ok ops ->
  exists rs n' x', run_node GATT_PROXY PRIV_BEACONS V1d1 ops n = (Ok rs, n') /\
    run_spec cap app_cap n ops x rs n' x' /\ node_ok cap app_cap n' x'.
Proof. apply run_node_ok. Qed.

End Refinement.

(** * Restart *)

Section Restart.

Context {W : Type} `{MeshCryptoLaws W}.
Context (GATT_PROXY PRIV_BEACONS : bool).
Notation sub_ids := (sub_ids GATT_PROXY PRIV_BEACONS).

(** A node that starts again: the settings load the subnets, then the application keys. *)
Definition load_node (len : Z) (subs : list (Z * net_key_val)) (aks : list (Z * app_key_val)) : M (node_keys W) unit := fun n =>
  let '(r1, s) := load_all GATT_PROXY PRIV_BEACONS subs (nk_sub n) in
  let '(r2, a) := load_apps len aks (nk_app n <| ak_crypto := crypto s |>) in
  (match r1 with Ok _ => r2 | _ => r1 end, mk_node (set_crypto (ak_crypto a) s) a).

Definition started (cap app_cap q1 q2 : nat) (w : W) : node_keys W :=
  mk_node (mk_state w (replicate cap free_subnet) (replicate q1 (mk_update 0 false false)) [])
    (mk_app_state w (replicate app_cap free_app) (replicate q2 (mk_update 0 false false)) []).

(** C27: A restart restores the keys of the node.  Take a node that implements a table of
    subnets and a table of AppKeys, none of which the backend refused, let the storage
    job of the AppKeys run, and restart the node: the slots are empty and the backend has
    kept the NetKeys and the AppKeys, and perhaps nothing else.  Loading the records of
    the subnets and then those of the AppKeys, each in any order, ends in a node that
    implements the same two tables. *)
Theorem node_keys_restart cap app_cap d n x (D : gmap Z net_key_val) q1 q2 w0 subs :
  node_ok GATT_PROXY PRIV_BEACONS d cap app_cap n x ->
  (forall k e, x.2 !! k = Some e -> complete e) ->
  (forall k, is_Some (D !! k) -> is_key_idx k) ->
  (forall k, is_key_idx k -> effective <$> D !! k = disk (nk_sub n) k) ->
  mc_ready w0 ->
  (forall id t raw, t = BT_MESH_KEY_TYPE_NET \/ t = BT_MESH_KEY_TYPE_APP ->
     mc_keys (crypto (nk_sub n)) !! id = Some (t, raw) -> mc_keys w0 !! id = Some (t, raw)) ->
  subs ≡ₚ map_to_list D ->
  exists a1, bt_mesh_app_key_pending_store (nk_app n) = (Ok (), a1) /\
    let d1 := app_disk d (ak_ext a1) in
    forall len aks, len <> 0 -> (forall k, is_Some (d1 !! k) -> is_key_idx k) -> aks ≡ₚ map_to_list d1 ->
    exists n', load_node len subs aks (started cap app_cap q1 q2 w0) = (Ok (), n') /\
      node_ok GATT_PROXY PRIV_BEACONS d1 cap app_cap n' x.
Proof.
  intros [Hs Hsub Happ Hcap] Hcomp HD Hdisk Hw0 Hkept Hsubs.
  destruct (app_pending_store_spec _ d (nk_app n) x.2 Happ) as ([] & a1 & E & Ht1 & Ha1 & Hc1 & Hd1).
  exists a1. split; [exact E|]. intros d1 len aks Hlen Hdom Haks.
  set (F := owned_keys app_ids (crypto (nk_sub n)) (apps (nk_app n))) in *.
  assert (F ⊆ mc_keys w0) as HF.
  { apply map_subseteq_spec. intros id v [Hv (i & a & Hi & Hid)]%owned_keys_lookup.
    assert (in_use app_idx a = true) as Hu.
    { destruct (in_use app_idx a) eqn:Hu; [done|]. destruct (kl_free (at_keys _ _ _ _ Happ) i a Hi Hu) as [Hz0 Hz1].
      by apply app_ids_elem in Hid as (Hz & [->| ->]). }
    destruct (kl_entry (at_keys _ _ _ _ Happ) i a Hi Hu) as (e & _ & [_ _ _ Hk0 Hk1]). rewrite Hs in Hk0, Hk1.
    apply app_ids_elem in Hid as [Hz Hid].
    assert (forall c o, cred_ok (crypto (nk_sub n)) c o -> id = cred_val c -> exists raw, v = (BT_MESH_KEY_TYPE_APP, raw)) as Hx.
    { intros c [raw|] Hc ->; [|done]. destruct Hc as (Hc & _). exists raw. congruence. }
    assert (exists raw, v = (BT_MESH_KEY_TYPE_APP, raw)) as [raw ->] by (destruct Hid as [Hid|Hid]; [exact (Hx _ _ Hk0 Hid)|exact (Hx _ _ Hk1 Hid)]).
    apply Hkept; [by right|done]. }
  destruct (restart_subnets GATT_PROXY PRIV_BEACONS F cap (nk_sub n) x.1 D w0
    (replicate q1 (mk_update 0 false false)) [] subs Hsub HD Hdisk Hw0 HF) as (s' & E1 & Ht'); [|exact Hsubs|].
  { intros id raw Hx. apply Hkept; [by left|done]. }
  unfold load_node, started. cbn [nk_sub nk_app]. rewrite E1.
  pose proof (rp_keys _ _ _ _ _ (proj1 Ht')) as Hr'.
  set (G := owned_keys sub_ids (crypto s') (subnets s')).
  assert (mc_ready (crypto s')) as Hw' by apply (kl_ready Hr').
  pose proof (at_keys _ _ _ _ Ht1) as Hr1.
  assert (forall i a id, apps a1 !! i = Some a -> id ∈ app_ids a -> exists v, F !! id = Some v) as HinF.
  { intros i a id Hi Hid. destruct (owned_in_store _ _ _ _ _ _ _ _ _ _ _ Hr1 Hi Hid) as [v Hv].
    exists v. apply owned_keys_lookup. rewrite <-Hs, <-Hc1, <-Ha1. split; [done|]. by exists i, a. }
  destruct (restart_app G d1 (owned_keys sub_ids (crypto (nk_sub n)) (subnets (nk_sub n))) a1 x.2 (crypto s') q2 len aks)
    as ([] & a' & E2 & Hta & Hla); try done.
  - intros k Hk. unfold d1. rewrite Ha1. apply Hd1; [done|]. intros e He. by apply (Hcomp k e He).
  - apply map_subseteq_spec. intros id v Hv. by apply owned_keys_lookup in Hv as [Hv _].
  - intros i a id Hi Hid. destruct (HinF i a id Hi Hid) as [v Hv]. destruct (kl_foreign Hr' id v Hv) as [_ Hno].
    apply eq_None_not_Some. intros [v' (_ & j & b & Hj & Hb)%owned_keys_lookup]. by apply (Hno j b).
  - intros i a id v Hi Hid Hv. destruct (HinF i a id Hi Hid) as [v' Hv'].
    destruct (kl_foreign Hr' id v' Hv') as [-> _]. apply owned_keys_lookup in Hv' as [Hv' _].
    rewrite Hc1, Hs in Hv. congruence.
  - exists (mk_node (set_crypto (ak_crypto a') s') a').
    rewrite Ha1, Hcap in E2. change (mk_app_state w0 _ _ _ <| ak_crypto := crypto s' |>) with
      (mk_app_state (crypto s') (replicate app_cap free_app) (replicate q2 (mk_update 0 false false)) []).
    rewrite E2. split; [done|].
    destruct (key_slots_other _ _ _ _ _ _ _ _ _ _ _ _ _ _ _ (at_keys _ _ _ _ Hta) Hr') as [Hr2 HG].
    split; cbn; [done|by eapply table_other| |].
    + change (set_crypto (ak_crypto a') s').(subnets) with (subnets s'). rewrite HG. exact Hta.
    + by rewrite Hla, Ha1.
Qed.

End Restart.

(** * Concrete runs, over the sample PSA implementation *)

From S2P Require Import Psa CryptoPsa.

Lemma owned_keys_free {W} `{MeshCryptoLaws W} {A} (ids : A -> list Z) w n a : ids a = [] -> owned_keys ids w (replicate n a) = ∅.
Proof.
  intros Ha. apply map_eq. intros id. rewrite lookup_empty. apply eq_None_not_Some.
  intros [v (_ & i & b & [-> _]%lookup_replicate_1 & Hid)%owned_keys_lookup]. rewrite Ha in Hid. by apply elem_of_nil in Hid.
Qed.

(** A node that has never been provisioned. *)
Lemma node_boot {W} `{MeshCryptoLaws W} GATT_PROXY PRIV_BEACONS cap app_cap q1 q2 w : mc_ready w ->
  node_ok GATT_PROXY PRIV_BEACONS ∅ cap app_cap (started cap app_cap q1 q2 w) (∅, ∅).
Proof.
  intros Hw. split; cbn [started nk_sub nk_app crypto ak_crypto subnets apps fst snd]; [done| | |apply length_replicate].
  - rewrite owned_keys_free by done. refine (table_boot _ _ _ _ _ _ _ Hw _). apply map_empty_subseteq.
  - rewrite owned_keys_free by done.
    assert (forall k b, ~ queued (replicate q2 (mk_update 0 false false)) k b) as Hq
      by (by intros k b (i & u & [-> _]%lookup_replicate_1 & Hv & _)).
    split; cbn [apps app_key_updates ak_crypto ak_ext].
    + exact (key_slots_boot _ _ _ _ _ w app_cap free_app eq_refl (conj eq_refl eq_refl) Hw (map_empty_subseteq _)).
    + split; [by intros i j u v [-> _]%lookup_replicate_1|]. intros k b Hx. by destruct (Hq k b).
    + intros k Hk _. rewrite content_none.
      * split; [intros b Hx; by destruct (Hq k b)|]. intros _. apply lookup_empty.
      * intros i a [-> _]%lookup_replicate_1 Hx. by apply (key_idx_used k).
Qed.

#[local] Instance node_crypto : MeshCrypto (crypto_state psa_store) := psa_crypto true 100 4.
#[local] Instance node_promises : MeshCryptoLaws (crypto_state psa_store) :=
  psa_crypto_laws true true 100 4 eq_refl ltac:(discriminate).
#[local] Instance node_imports : @MeshImportLaws _ node_crypto node_promises :=
  psa_import_laws true 100 4 eq_refl _.

Definition boot_keys : node_keys (crypto_state psa_store) := started 2 3 1 1 crypto_boot.

(** A subnet, three AppKeys of which the backend has no identifier for the last, and a
    key refresh that ends for both components. *)
Definition node_ops : list node_op :=
  [NodeSubnet (OpAdd 5 (key16 1)); NodeApp (AppAdd 1 5 (key16 2)); NodeApp (AppAdd 1 5 (key16 3));
   NodeApp (AppAdd 2 6 (key16 3)); NodeApp (AppUpdate 1 5 (key16 3)); NodeSubnet (OpUpdate 5 (key16 4));
   NodeApp (AppUpdate 1 5 (key16 3)); NodeApp (AppAdd 3 5 (key16 6)); NodeSubnet (OpPhase 5 2); NodeSubnet (OpPhase 5 3);
   NodeApp (AppSubnetEvt 5 BT_MESH_KEY_REVOKED); NodeApp AppStore; NodeApp (AppDel 3 5); NodeSubnet OpStore].

Lemma node_ops_ok : Forall node_op_ok node_ops.
Proof. repeat constructor; simpl; unfold is_key_idx; try lia; done. Qed.

Example node_statuses : (run_node true true false node_ops boot_keys).1 =
  Ok [STATUS_SUCCESS; STATUS_SUCCESS; STATUS_IDX_ALREADY_STORED; STATUS_INVALID_NETKEY; STATUS_CANNOT_UPDATE; STATUS_SUCCESS;
      STATUS_SUCCESS; STATUS_CANNOT_SET; STATUS_SUCCESS; STATUS_SUCCESS; 0; 0; STATUS_SUCCESS; 0].
Proof. vm_compute. reflexivity. Qed.

Lemma boot_keys_ok : node_ok true true ∅ 2 3 boot_keys (∅, ∅).
Proof. apply node_boot, boot_ready. Qed.

Lemma node_keys_refine_witness :
  exists rs n' x', run_node true true false node_ops boot_keys = (Ok rs, n') /\
    run_spec true true false 2 3 boot_keys node_ops (∅, ∅) rs n' x' /\ node_ok true true ∅ 2 3 n' x'.
Proof.
  apply (node_keys_refine true true false); [discriminate|apply _|exact boot_keys_ok|exact node_ops_ok].
Defined.

(** A node with a subnet and an AppKey. *)
Definition few_ops : list node_op := [NodeSubnet (OpAdd 5 (key16 1)); NodeApp (AppAdd 1 5 (key16 2))].
Definition few_keys : node_keys (crypto_state psa_store) := (run_node true true false few_ops boot_keys).2.
Definition few_tables : gmap Z SubnetTable.entry * gmap Z app_entry :=
  (<[5 := (0, key16 1, None)]> ∅, <[1 := mk_entry 5 (Some (key16 2)) None true]> ∅).

Lemma few_keys_ok : node_ok true true ∅ 2 3 few_keys few_tables.
Proof.
  destruct (run_node_ok true true false ltac:(discriminate) ∅ 2 3 few_ops boot_keys (∅, ∅)) as (rs & n' & x' & E & Hrun & Hok);
    [exact boot_keys_ok|repeat constructor; simpl; unfold is_key_idx; try lia; done|].
  assert (rs = [STATUS_SUCCESS; STATUS_SUCCESS]) as ->.
  { enough (Ok rs = (run_node true true false few_ops boot_keys).1) as Hx by (vm_compute in Hx; by injection Hx).
    by rewrite E. }
  assert (few_keys = n') as -> by (unfold few_keys; by rewrite E).
  inversion Hrun as [|? ? ? ? env1 ? n1 ? ? ? _ _ Ha1 Hrun1]; subst.
  inversion Hrun1 as [|? ? ? ? env2 ? n2 ? ? ? _ _ Ha2 Hrun2]; subst.
  inversion Hrun2; subst. destruct env1; [vm_compute in Ha1; discriminate|].
  destruct env2; [vm_compute in Ha2; discriminate|]. exact Hok.
Qed.

(** The backend when the node starts again: the keys that are not persistent are gone. *)
Definition few_kept : crypto_state psa_store :=
  let w := crypto (nk_sub few_keys) in
  let persistent a := match at_lifetime a with PSA_KEY_LIFETIME_VOLATILE => false | _ => true end in
  mk_crypto_state (filter (fun p : Z * (psa_key_attributes * list Z) => persistent p.2.1 = true) (psa w)) (pst_keys w) no_dh.

Lemma few_kept_ready : mc_ready few_kept.
Proof.
  split; [exact I|]. intros _ _ j Hj Hx.
  assert (forallb (fun j => bool_decide (j ∈ pst_keys few_kept) || negb (bool_decide (is_Some (CryptoPsa.store few_kept !! (100 + j)))))
    [0; 1; 2; 3] = true) as Hall by (vm_compute; reflexivity).
  rewrite forallb_forall in Hall. specialize (Hall j).
  destruct (orb_prop _ _ (Hall ltac:(simpl; lia))) as [Hb%bool_decide_eq_true|Hb%negb_true_iff%bool_decide_eq_false];
    [exact Hb|by destruct Hb].
Qed.

Lemma few_kept_keys id t raw : t = BT_MESH_KEY_TYPE_NET \/ t = BT_MESH_KEY_TYPE_APP ->
  mc_keys (crypto (nk_sub few_keys)) !! id = Some (t, raw) -> mc_keys few_kept !! id = Some (t, raw).
Proof.
  assert (Forall (fun p : Z * (bt_mesh_key_type * list Z) =>
      p.2.1 = BT_MESH_KEY_TYPE_NET \/ p.2.1 = BT_MESH_KEY_TYPE_APP -> mc_keys few_kept !! p.1 = Some p.2)
    (map_to_list (mc_keys (crypto (nk_sub few_keys))))) as Hall
    by (vm_compute; repeat constructor; intros [Hx|Hx]; first [done|discriminate Hx]).
  rewrite list.Forall_forall in Hall. intros Ht Hk.
  apply (Hall (id, (t, raw))); [|done]. by apply elem_of_map_to_list.
Qed.

Definition few_stored : app_state (crypto_state psa_store) := (bt_mesh_app_key_pending_store (nk_app few_keys)).2.
Definition few_net_val : net_key_val := mk_net_key_val 0 100 0.
Definition few_app_val : app_key_val := mk_app_val 5 false 101 0.

Lemma few_disk : app_disk ∅ (ak_ext few_stored) = {[1 := few_app_val]}.
Proof. vm_compute. reflexivity. Qed.

Lemma few_net_disk k : is_key_idx k -> effective <$> ({[5 := few_net_val]} : gmap Z net_key_val) !! k = disk (nk_sub few_keys) k.
Proof.
  intros Hk. destruct (decide (k = 5)) as [->|Hne]; [vm_compute; reflexivity|].
  rewrite lookup_singleton_ne by done. cbn [fmap option_fmap option_map]. symmetry.
  destruct (disk (nk_sub few_keys) k) as [v|] eqn:E; [|done]. exfalso.
  destruct few_keys_ok as [_ [Hr _] _ _].
  apply disk_Some in E as (i & sub & Hi & Hs & _); [|apply so_unique, (rp_slots _ _ _ _ _ Hr)|by apply key_idx_used].
  destruct (rp_entry _ _ _ _ _ Hr i sub Hi) as (e & He & _); [apply key_idx_is_used; by rewrite Hs|].
  rewrite Hs in He. cbn [few_tables fst] in He. rewrite lookup_insert_ne, lookup_empty in He by done. done.
Qed.

Lemma node_keys_restart_witness :
  exists n', load_node true true 12 [(5, few_net_val)] [(1, few_app_val)] (started 2 3 1 1 few_kept) = (Ok (), n') /\
    node_ok true true {[1 := few_app_val]} 2 3 n' few_tables.
Proof.
  destruct (node_keys_restart true true 2 3 ∅ few_keys few_tables {[5 := few_net_val]} 1 1 few_kept [(5, few_net_val)])
    as (a1 & E & Hload).
  - exact few_keys_ok.
  - intros k e He. cbn [few_tables snd] in He. apply lookup_insert_Some in He as [[<- <-]|[_ He]].
    + split; [done|]. split; [by eexists|done].
    + by rewrite lookup_empty in He.
  - intros k [v Hv]. apply lookup_singleton_Some in Hv as [<- _]. unfold is_key_idx. lia.
  - exact few_net_disk.
  - exact few_kept_ready.
  - exact few_kept_keys.
  - by rewrite map_to_list_singleton.
  - assert (app_disk ∅ (ak_ext a1) = {[1 := few_app_val]}) as Ha
      by (rewrite <-few_disk; unfold few_stored; by rewrite E).
    cbv zeta in Hload. rewrite Ha in Hload. apply Hload; [done| |by rewrite map_to_list_singleton].
    intros k [v Hv]. apply lookup_singleton_Some in Hv as [<- _]. unfold is_key_idx. lia.
Defined.
