(* ===== verification/Transport.v ===== *)
(** The transport layer ([mesh/transport.c]): segmentation and reassembly, their
    acknowledgements and timers, and the dispatch of what arrives.

    The state is that of the network layer ([Net.v]), on which segments are sent, with
    the contexts of segmented messages.  A block of the pool [segs] is what was written
    to it, in the context that owns it, so that two contexts never share one; how many
    are free is counted.  A delayable work item is the delay it waits for, if it is
    scheduled; its handler is an operation.  The layers above are arguments
    ([access_recv], [ctl_handler]); what the friend and low power features answer is in
    [trans_env]; calls that change nothing here are a log. *)

From S2P Require Import Prelude Byteorder BufSimple MeshDefs Rpl CryptoIf Crypto Va Subnet NetIv Net AppKeys.

(** * Constants *)

Definition BT_MESH_SDU_UNSEG_MAX : Z := 11.
Definition BT_MESH_CTL_SEG_SDU_MAX : Z := 8.
Definition BT_MESH_APP_SEG_SDU_MAX : Z := 12.
Definition BT_MESH_APP_UNSEG_SDU_MAX : Z := 15.
Definition BT_MESH_MIC_SHORT : Z := 4.
Definition BT_MESH_MIC_LONG : Z := 8.
Definition TRANS_SEQ_AUTH_NVAL : Z := 0xffffffffffffffff.
Definition TRANS_SEQ_ZERO_MASK : Z := BIT_MASK 13.
Definition AID_MASK : Z := BIT_MASK 6.
Definition TRANS_CTL_OP_MASK : Z := BIT_MASK 7.

Definition TRANS_CTL_OP_ACK : Z := 0x00.
Definition TRANS_CTL_OP_HEARTBEAT : Z := 0x0a.

(** Headers; the first byte is the argument. *)
Definition SEG (hdr : Z) : Z := Z.shiftr hdr 7.
Definition AKF (hdr : Z) : Z := Z.land (Z.shiftr hdr 6) 1.
Definition AID (hdr : Z) : Z := Z.land hdr AID_MASK.
Definition TRANS_CTL_OP (hdr : Z) : Z := Z.land hdr TRANS_CTL_OP_MASK.
Definition TRANS_CTL_HDR (op seg : Z) : Z := Z.lor (Z.land op TRANS_CTL_OP_MASK) (Z.shiftl seg 7).
Definition UNSEG_HDR (akf aid : Z) : Z := Z.lor (Z.shiftl akf 6) (Z.land aid AID_MASK).
Definition SEG_HDR (akf aid : Z) : Z := Z.lor (UNSEG_HDR akf aid) 0x80.

Definition BLOCK_COMPLETE (seg_n : Z) : Z := u32 (Z.shiftl 1 (seg_n + 1) - 1).
Definition SEQ_AUTH (iv_index seq : Z) : Z := u64 (Z.lor (Z.shiftl iv_index 24) seq).

Definition seg_len (ctl : bool) : Z := if ctl then BT_MESH_CTL_SEG_SDU_MAX else BT_MESH_APP_SEG_SDU_MAX.

Fixpoint lsb_loop (p : positive) (pos : Z) : Z :=
  match p with xO p => lsb_loop p (pos + 1) | _ => pos end.
Definition find_lsb_set (op : Z) : Z := match op with Zpos p => lsb_loop p 1 | _ => 0 end.
Fixpoint msb_loop (p : positive) (pos : Z) : Z :=
  match p with xO p | xI p => msb_loop p (pos + 1) | xH => pos + 1 end.
Definition find_msb_set (op : Z) : Z := match op with Zpos p => msb_loop p 0 | _ => 0 end.

(** * Data *)

(** [struct bt_mesh_send_cb] with its [cb_data]; the two flags tell whether the
    pointers are set. *)
Record send_cb := mk_cb { cb_data : Z; cb_start : bool; cb_end : bool }.

Record seg_tx := mk_seg_tx {
  sx_sub : nat;
  sx_seg : list (option (list Z));
  sx_seq_auth : Z;
  sx_adv_start_timestamp : Z;
  sx_src : Z;
  sx_dst : Z;
  sx_ack_src : Z;
  sx_len : Z;
  sx_hdr : Z;
  sx_xmit : Z;
  sx_seg_n : Z;
  sx_seg_o : Z;
  sx_nack_count : Z;
  sx_attempts_left : Z;
  sx_attempts_left_without_progress : Z;
  sx_ttl : Z;
  sx_blocked : bool;
  sx_ctl : bool;
  sx_aszmic : Z;
  sx_started : bool;
  sx_friend_cred : bool;
  sx_seg_send_started : bool;
  sx_ack_received : bool;
  sx_cb : option send_cb;
  sx_retransmit : option Z
}.
#[export] Instance eta_seg_tx : Eta seg_tx := fun t =>
  mk_seg_tx (sx_sub t) (sx_seg t) (sx_seq_auth t) (sx_adv_start_timestamp t) (sx_src t) (sx_dst t) (sx_ack_src t)
    (sx_len t) (sx_hdr t) (sx_xmit t) (sx_seg_n t) (sx_seg_o t) (sx_nack_count t) (sx_attempts_left t)
    (sx_attempts_left_without_progress t) (sx_ttl t) (sx_blocked t) (sx_ctl t) (sx_aszmic t) (sx_started t)
    (sx_friend_cred t) (sx_seg_send_started t) (sx_ack_received t) (sx_cb t) (sx_retransmit t).

Record seg_rx := mk_seg_rx {
  sr_sub : nat;
  sr_seg : list (option (list Z));
  sr_seq_auth : Z;
  sr_src : Z;
  sr_dst : Z;
  sr_len : Z;
  sr_hdr : Z;
  sr_seg_n : Z;
  sr_ctl : bool;
  sr_in_use : bool;
  sr_obo : bool;
  sr_ttl : Z;
  sr_attempts_left : Z;
  sr_block : Z;
  sr_last_ack : Z;
  sr_ack : option Z;
  sr_discard : option Z
}.
#[export] Instance eta_seg_rx : Eta seg_rx := fun r =>
  mk_seg_rx (sr_sub r) (sr_seg r) (sr_seq_auth r) (sr_src r) (sr_dst r) (sr_len r) (sr_hdr r) (sr_seg_n r) (sr_ctl r)
    (sr_in_use r) (sr_obo r) (sr_ttl r) (sr_attempts_left r) (sr_block r) (sr_last_ack r) (sr_ack r) (sr_discard r).

(** A context as the program starts with. *)
Definition free_tx (n : nat) : seg_tx :=
  mk_seg_tx 0 (replicate n None) 0 0 0 0 0 0 0 0 0 0 0 0 0 0 false false 0 false false false false None None.
Definition free_rx (n : nat) : seg_rx :=
  mk_seg_rx 0 (replicate n None) 0 0 0 0 0 0 false false false 0 0 0 0 None None.
#[export] Instance seg_tx_inhabited : Inhabited seg_tx := populate (free_tx 0).
#[export] Instance seg_rx_inhabited : Inhabited seg_rx := populate (free_rx 0).

(** [struct bt_mesh_net_tx] with its [ctx], what [bt_mesh_net_tx] of [Net.v] leaves out
    included. *)
Record trans_tx := mk_trans_tx {
  tt_net : bt_mesh_net_tx;
  tt_net_idx : Z;           (** [ctx->net_idx] *)
  tt_uuid : option (list Z); (** [ctx->uuid] *)
  tt_send_rel : bool;       (** [ctx->send_rel] *)
  tt_xmit : Z;
  tt_aid : Z;
  tt_aszmic : Z
}.

Inductive bt_mesh_friend_pdu_type :=
| BT_MESH_FRIEND_PDU_SINGLE
| BT_MESH_FRIEND_PDU_PARTIAL
| BT_MESH_FRIEND_PDU_COMPLETE.

(** Handlers of control messages in the other modules. *)
Inductive ctl_op_handler :=
| HbRecv
| FriendPoll | FriendReq | FriendClear | FriendClearCfm | FriendSubAdd | FriendSubRem
| LpnFriendOffer | LpnFriendClearCfm | LpnFriendUpdate | LpnFriendSubCfm.

(** Calls that change nothing here. *)
Inductive trans_out :=
| CbStart (cb : send_cb) (duration err : Z)
| CbEnd (cb : send_cb) (err : Z)
| FriendEnqueueTx (type : bt_mesh_friend_pdu_type) (seq_auth : option Z) (seg_count : Z) (pdu : list Z)
| FriendEnqueueRx (rx : bt_mesh_net_rx) (type : bt_mesh_friend_pdu_type) (seq_auth : option Z) (seg_count : Z)
    (pdu : list Z)
| FriendClearIncomplete (sub : nat) (src dst seq_auth : Z)
| LpnPoll
| LpnMsgReceived (rx : bt_mesh_net_rx)
| TestNetRecv (rx : bt_mesh_net_rx) (pdu : list Z)
| TestIncompTimerExp
| DevKeyCandActivate
| VaClear.

Record bt_mesh_sar_tx := mk_sar_tx {
  seg_int_step : Z;
  unicast_retrans_count : Z;
  unicast_retrans_without_prog_count : Z;
  unicast_retrans_int_step : Z;
  unicast_retrans_int_inc : Z;
  multicast_retrans_count : Z;
  multicast_retrans_int : Z
}.

Record bt_mesh_sar_rx := mk_sar_rx {
  seg_thresh : Z;
  ack_delay_inc : Z;
  discard_timeout : Z;
  rx_seg_int_step : Z;
  ack_retrans_count : Z
}.

(** Options, and the configuration of segmentation and reassembly. *)
Record trans_cfg := mk_trans_cfg {
  k_low_power : bool;
  k_testing : bool;
  k_rpr_srv : bool;
  BT_MESH_RX_SEG_MAX : Z;
  BT_MESH_TX_SEG_MAX : Z;
  sar_tx : bt_mesh_sar_tx;
  sar_rx : bt_mesh_sar_rx
}.

(** What the other modules answer; a number is the point of the log at which they are
    asked. *)
Record trans_env := mk_trans_env {
  te_net : node_env;
  friend_match : Z -> Z -> bool;                       (** [bt_mesh_friend_match] *)
  friend_queue_has_space : nat -> Z -> Z -> Z -> option Z -> Z -> bool;
  friend_enqueue_tx : nat -> bool;                     (** [bt_mesh_friend_enqueue_tx] *)
  lpn_established : bool;
  lpn_waiting_update : bool;
  lpn_frnd : Z;                                        (** [bt_mesh.lpn.frnd] *)
  default_ttl : Z;                                     (** [bt_mesh_default_ttl_get] *)
  primary_addr : Z;                                    (** [bt_mesh_primary_addr] *)
  te_apps : list app_key;
  te_dev_keys : dev_keys;
  virtual_addrs : list bt_mesh_va;
  uptime : Z                                           (** [k_uptime_get], during the call *)
}.

Record trans_node (W : Type) := mk_trans {
  t_net : net_node W;
  t_tx : list seg_tx;     (** [seg_tx] *)
  t_rx : list seg_rx;     (** [seg_rx] *)
  t_free : nat;           (** free blocks of [segs] *)
  t_out : list trans_out
}.
Arguments mk_trans {W}.
Arguments t_net {W}.
Arguments t_tx {W}.
Arguments t_rx {W}.
Arguments t_free {W}.
Arguments t_out {W}.
#[export] Instance eta_trans {W} : Eta (trans_node W) := fun s =>
  mk_trans (t_net s) (t_tx s) (t_rx s) (t_free s) (t_out s).

(** * Operations *)

Section Operations.

Context {W : Type} `{MeshCrypto W}.
Context (cfg : net_cfg) (tcfg : trans_cfg) (env : trans_env).
Notation st := (trans_node W).

Definition gets {A} (f : st -> A) : M st A := fun s => (Ok (f s), s).
Definition change (f : st -> st) : M st unit := fun s => (Ok (), f s).
Definition log (o : trans_out) : M st unit := change (fun s => s <| t_out ::= (fun l => l ++ [o]) |>).

(** A call of the network layer. *)
Definition in_net {A} (m : M (net_node W) A) : M st A := fun s =>
  let '(r, n) := m (t_net s) in (r, s <| t_net := n |>).

Definition tx_at (i : nat) (s : st) : seg_tx := t_tx s !!! i.
Definition rx_at (i : nat) (s : st) : seg_rx := t_rx s !!! i.
Definition on_tx (i : nat) (f : seg_tx -> seg_tx) : M st unit :=
  change (fun s => s <| t_tx ::= alter f i |>).
Definition on_rx (i : nat) (f : seg_rx -> seg_rx) : M st unit :=
  change (fun s => s <| t_rx ::= alter f i |>).

(** [bt_mem_pool_alloc(&segs, ...)] without waiting, [bt_mem_pool_free(&segs, ...)]. *)
Definition segs_alloc : M st unit := fun s =>
  match t_free s with
  | O => (Err (- ENOMEM), s)
  | S n => (Ok (), s <| t_free := n |>)
  end.
Definition segs_free : M st unit := change (fun s => s <| t_free ::= S |>).

(** The entry [seg[k]] of a context, as an access to the array. *)
Definition seg_entry (segs : list (option (list Z))) (k : Z) : M st (option (list Z)) :=
  if k <? 0 then checked None else checked (segs !! Z.to_nat k).

(** [cb->start] and [cb->end]. *)
Definition cb_started (cb : option send_cb) (duration err : Z) : M st unit :=
  match cb with
  | Some c => if cb_start c then log (CbStart c duration err) else mret ()
  | None => mret ()
  end.
Definition cb_ended (cb : option send_cb) (err : Z) : M st unit :=
  match cb with
  | Some c => if cb_end c then log (CbEnd c err) else mret ()
  | None => mret ()
  end.
Definition send_cb_finalize (cb : option send_cb) : M st unit :=
  _ ← cb_started cb 0 0; cb_ended cb 0.

(** [bt_mesh_net_send] with the callback that [finalize] stands for: the network layer
    calls it itself when the message stays in the node. *)
Definition net_send (tx : bt_mesh_net_tx) (xmit : Z) (buf : bt_buf_simple) (finalize : M st unit) : M st unit :=
  n ← gets (fun s => length (n_out (t_net s)));
  _ ← in_net (bt_mesh_net_send cfg (te_net env) tx xmit buf);
  finalized ← gets (fun s => existsb (fun o => match o with Net.SendCbFinalize => true | _ => false end)
                               (drop n (n_out (t_net s))));
  if (finalized : bool) then finalize else mret ().

(** ** Configuration of segmentation and reassembly *)

Definition BT_MESH_TX_SDU_MAX : Z :=
  Z.max (BT_MESH_TX_SEG_MAX tcfg * BT_MESH_APP_SEG_SDU_MAX) BT_MESH_APP_UNSEG_SDU_MAX.
Definition BT_MESH_RX_SDU_MAX : Z :=
  Z.max (BT_MESH_RX_SEG_MAX tcfg * BT_MESH_APP_SEG_SDU_MAX) BT_MESH_APP_UNSEG_SDU_MAX.
Definition BT_MESH_RX_CTL_MAX : Z :=
  Z.max (BT_MESH_RX_SEG_MAX tcfg * BT_MESH_CTL_SEG_SDU_MAX) BT_MESH_SDU_UNSEG_MAX.

Definition BT_MESH_SAR_TX_SEG_INT_MS : Z := (seg_int_step (sar_tx tcfg) + 1) * 10.
Definition BT_MESH_SAR_TX_RETRANS_COUNT (addr : Z) : Z :=
  if BT_MESH_ADDR_IS_UNICAST addr then unicast_retrans_count (sar_tx tcfg) + 1
  else multicast_retrans_count (sar_tx tcfg) + 1.
Definition BT_MESH_SAR_TX_RETRANS_NO_PROGRESS : Z := unicast_retrans_without_prog_count (sar_tx tcfg) + 1.
Definition BT_MESH_SAR_TX_UNICAST_RETRANS_INT_STEP_MS : Z := (unicast_retrans_int_step (sar_tx tcfg) + 1) * 25.
Definition BT_MESH_SAR_TX_UNICAST_RETRANS_INT_INC_MS : Z := (unicast_retrans_int_inc (sar_tx tcfg) + 1) * 25.
Definition BT_MESH_SAR_TX_UNICAST_RETRANS_TIMEOUT_MS (ttl : Z) : Z :=
  if 0 <? ttl then BT_MESH_SAR_TX_UNICAST_RETRANS_INT_STEP_MS +
                   BT_MESH_SAR_TX_UNICAST_RETRANS_INT_INC_MS * (ttl - 1)
  else BT_MESH_SAR_TX_UNICAST_RETRANS_INT_STEP_MS.
Definition BT_MESH_SAR_TX_MULTICAST_RETRANS_TIMEOUT_MS : Z := (multicast_retrans_int (sar_tx tcfg) + 1) * 25.
Definition BT_MESH_SAR_TX_RETRANS_TIMEOUT_MS (addr ttl : Z) : Z :=
  if BT_MESH_ADDR_IS_UNICAST addr then BT_MESH_SAR_TX_UNICAST_RETRANS_TIMEOUT_MS ttl
  else BT_MESH_SAR_TX_MULTICAST_RETRANS_TIMEOUT_MS.

Definition BT_MESH_SAR_RX_SEG_THRESHOLD : Z := seg_thresh (sar_rx tcfg).
Definition BT_MESH_SAR_RX_ACK_DELAY_INC_X2 : Z := ack_delay_inc (sar_rx tcfg) * 2 + 3.
Definition BT_MESH_SAR_RX_ACK_RETRANS_COUNT : Z := ack_retrans_count (sar_rx tcfg) + 1.
Definition BT_MESH_SAR_RX_SEG_INT_MS : Z := (rx_seg_int_step (sar_rx tcfg) + 1) * 10.
Definition BT_MESH_SAR_RX_DISCARD_TIMEOUT_MS : Z := (discard_timeout (sar_rx tcfg) + 1) * 5 * 1000.
Definition ACK_DELAY (seg_n : Z) : Z :=
  Z.min (2 * seg_n + 1) BT_MESH_SAR_RX_ACK_DELAY_INC_X2 * BT_MESH_SAR_RX_SEG_INT_MS / 2.
Definition SEQAUTH_ALREADY_PROCESSED_TIMEOUT : Z :=
  BT_MESH_SAR_RX_ACK_DELAY_INC_X2 * BT_MESH_SAR_RX_SEG_INT_MS / 2.

(** ** Sending *)

(** The network part of a transmission, as the network layer takes it. *)
Definition send_unseg (tx : trans_tx) (sdu : bt_buf_simple) (cb : option send_cb) (ctl_op : option Z) : M st unit :=
  let net := tt_net tx in
  a ← gets (fun s => adv_create (te_net env) (length (n_out (t_net s))));
  match a with
  | None => fail (- ENOBUFS)
  | Some adv =>
      adv ← checked (bt_buf_simple_reserve adv BT_MESH_NET_HDR_LEN);
      adv ← checked (bt_buf_simple_add_u8 adv
              match ctl_op with
              | Some op => TRANS_CTL_HDR op 0
              | None => if BT_MESH_IS_DEV_KEY (tx_app_idx net) then UNSEG_HDR 0 0 else UNSEG_HDR 1 (tt_aid tx)
              end);
      data ← checked (mem_read (b_store sdu) (b_data sdu) (b_len sdu));
      adv ← checked (bt_buf_simple_add_mem adv data);
      let send := net_send net (tt_xmit tx) adv (send_cb_finalize cb) in
      if c_friend cfg then
        s ← gets id;
        let idx := net_idx (sub_at (tx_sub net) (n_sub (t_net s))) in
        if negb (friend_queue_has_space env (length (t_out s)) idx (tx_src net) (tx_dst net) None 1) then
          if BT_MESH_ADDR_IS_UNICAST (tx_dst net) then fail (- ENOBUFS) else send
        else
          pdu ← checked (mem_read (b_store adv) (b_data adv) (b_len adv));
          _ ← log (FriendEnqueueTx BT_MESH_FRIEND_PDU_SINGLE None 1 pdu);
          if friend_enqueue_tx env (length (t_out s)) && BT_MESH_ADDR_IS_UNICAST (tx_dst net)
          then send_cb_finalize cb
          else send
      else send
  end.

Definition bt_mesh_tx_in_progress (s : st) : bool := existsb (fun tx => negb (sx_nack_count tx =? 0)) (t_tx s).

Definition seg_tx_done (i : nat) (k : Z) : M st unit :=
  _ ← segs_free;
  on_tx i (fun tx => tx <| sx_seg ::= <[Z.to_nat k := None]> |> <| sx_nack_count ::= (fun n => u8 (n - 1)) |>).

Definition seg_tx_blocks (tx : seg_tx) (src dst : Z) : bool := (sx_src tx =? src) && (sx_dst tx =? dst).

(** The first blocked context with the addresses of [tx], the one with the lowest
    SeqAuth; [i] is the context to leave out. *)
Fixpoint unblock_scan (tx : seg_tx) (i : nat) (l : list seg_tx) (k : nat) (blocked : option (nat * seg_tx))
  : option (nat * seg_tx) :=
  match l with
  | [] => blocked
  | t :: l =>
      let better := match blocked with None => true | Some (_, b) => sx_seq_auth t <? sx_seq_auth b end in
      unblock_scan tx i l (S k)
        (if negb (k =? i)%nat && sx_blocked t && seg_tx_blocks tx (sx_src t) (sx_dst t) && better
         then Some (k, t) else blocked)
  end.

Definition seg_tx_unblock_check (i : nat) : M st unit :=
  s ← gets id;
  match unblock_scan (tx_at i s) i (t_tx s) 0 None with
  | None => mret ()
  | Some (k, _) => on_tx k (fun tx => tx <| sx_blocked := false |> <| sx_retransmit := Some 0 |>)
  end.

(** [for (i = 0; i <= tx->seg_n && tx->nack_count; i++)], [n] rounds from [k] on. *)
Fixpoint tx_free_loop (i : nat) (k : Z) (n : nat) : M st unit :=
  match n with
  | O => mret ()
  | S n =>
      tx ← gets (tx_at i);
      if sx_nack_count tx =? 0 then mret ()
      else
        e ← seg_entry (sx_seg tx) k;
        _ ← match e with None => mret () | Some _ => seg_tx_done i k end;
        tx_free_loop i (k + 1) n
  end.

(** The pending IV Update goes on with the transfers in progress as they are now. *)
Definition proceed_iv_update : M st unit := fun s =>
  let e := iv_env (te_net env) in
  let e := mk_env (bt_mesh_tx_in_progress s) (has_primary e) (proxy_enabled e) in
  let n := t_net s in
  (Ok (), s <| t_net := set_n_iv (proceed_pending (c_settings cfg) (c_iv_update_test cfg) (c_friend cfg)
                                   (c_gatt_proxy cfg) (c_cdb cfg) e (n_iv n)) n |>).

Definition seg_tx_reset (i : nat) : M st unit :=
  _ ← on_tx i (fun tx => tx <| sx_retransmit := None |> <| sx_cb := None |> <| sx_seq_auth := 0 |> <| sx_sub := 0%nat |>
        <| sx_src := BT_MESH_ADDR_UNASSIGNED |> <| sx_dst := BT_MESH_ADDR_UNASSIGNED |>
        <| sx_ack_src := BT_MESH_ADDR_UNASSIGNED |> <| sx_blocked := false |>);
  n ← gets (fun s => Z.to_nat (sx_seg_n (tx_at i s) + 1));
  _ ← tx_free_loop i 0 n;
  _ ← on_tx i (fun tx => tx <| sx_nack_count := 0 |> <| sx_seg_send_started := false |> <| sx_ack_received := false |>);
  proceed_iv_update.

Definition seg_tx_complete (i : nat) (err : Z) : M st unit :=
  cb ← gets (fun s => sx_cb (tx_at i s));
  _ ← seg_tx_unblock_check i;
  _ ← seg_tx_reset i;
  cb_ended cb err.

Definition schedule_transmit_continue (i : nat) (delta : Z) : M st unit :=
  tx ← gets (tx_at i);
  if sx_nack_count tx =? 0 then mret ()
  else
    let timeout := if delta <? BT_MESH_SAR_TX_SEG_INT_MS then BT_MESH_SAR_TX_SEG_INT_MS - delta else 0 in
    on_tx i (fun tx => tx <| sx_retransmit := Some (if sx_seg_o tx <=? sx_seg_n tx then timeout else 0) |>).

(** The callbacks of a segment. *)
Definition seg_send_start (i : nat) (duration err : Z) : M st unit :=
  tx ← gets (tx_at i);
  _ ← match sx_cb tx with
      | Some c => if negb (sx_started tx) && cb_start c
                  then _ ← log (CbStart c duration err); on_tx i (fun tx => tx <| sx_started := true |>)
                  else mret ()
      | None => mret ()
      end;
  _ ← on_tx i (fun tx => tx <| sx_seg_send_started := true |> <| sx_adv_start_timestamp := uptime env |>);
  if negb (err =? 0) then schedule_transmit_continue i 0 else mret ().

Definition seg_sent (i : nat) (err : Z) : M st unit :=
  tx ← gets (tx_at i);
  let delta_ms := u32 (uptime env - sx_adv_start_timestamp tx) in
  if negb (sx_seg_send_started tx) then mret () else schedule_transmit_continue i delta_ms.

Definition seg_tx_buf_build (tx : seg_tx) (seg_o : Z) (buf : bt_buf_simple) : M st bt_buf_simple :=
  let seq_zero := Z.land (sx_seq_auth tx) TRANS_SEQ_ZERO_MASK in
  let len := u8 (Z.min (seg_len (sx_ctl tx)) (sx_len tx - seg_len (sx_ctl tx) * seg_o)) in
  buf ← checked (bt_buf_simple_add_u8 buf (sx_hdr tx));
  buf ← checked (bt_buf_simple_add_u8 buf (Z.lor (Z.shiftl (sx_aszmic tx) 7) (Z.shiftr seq_zero 6)));
  buf ← checked (bt_buf_simple_add_u8 buf (Z.lor (Z.shiftl (Z.land seq_zero 0x3f) 2) (Z.shiftr seg_o 3)));
  buf ← checked (bt_buf_simple_add_u8 buf (Z.lor (Z.shiftl (Z.land seg_o 0x07) 5) (sx_seg_n tx)));
  e ← seg_entry (sx_seg tx) seg_o;
  block ← checked e;
  data ← checked (mem_read block 0 len);
  checked (bt_buf_simple_add_mem buf data).

(** How the sending loop ends: a segment is under way, something was missing, or
    every segment has been sent. *)
Inductive seg_round := SegSent | SegFailed | SegAllSent.

(** [while (tx->seg_o <= tx->seg_n)]; [n] is the number of segments left. *)
Fixpoint seg_send_loop (i : nat) (net_tx : bt_mesh_net_tx) (n : nat) : M st seg_round :=
  match n with
  | O => mret SegAllSent
  | S n =>
      tx ← gets (tx_at i);
      e ← seg_entry (sx_seg tx) (sx_seg_o tx);
      match e with
      | None => _ ← on_tx i (fun tx => tx <| sx_seg_o ::= (fun o => u8 (o + 1)) |>); seg_send_loop i net_tx n
      | Some _ =>
          a ← gets (fun s => adv_create (te_net env) (length (n_out (t_net s))));
          match a with
          | None => mret SegFailed
          | Some adv =>
              adv ← checked (bt_buf_simple_reserve adv BT_MESH_NET_HDR_LEN);
              adv ← seg_tx_buf_build tx (sx_seg_o tx) adv;
              r ← attempt (net_send net_tx (sx_xmit tx) adv
                             (_ ← seg_send_start i 0 0; seg_sent i 0));
              match r with
              | inr _ => mret SegFailed
              | inl _ =>
                  _ ← on_tx i (fun tx => tx <| sx_seg_o ::= (fun o => u8 (o + 1)) |> <| sx_ack_received := false |>);
                  mret SegSent
              end
          end
      end
  end.

(** From the label [end] on. *)
Definition seg_tx_reschedule (i : nat) (dst : Z) : M st unit :=
  _ ← (if k_low_power tcfg && lpn_established env && negb (has_addr (te_net env) dst) then log LpnPoll else mret ());
  tx ← gets (tx_at i);
  let delta_ms := u32 (uptime env - sx_adv_start_timestamp tx) in
  let timeout := if sx_ack_received tx then BT_MESH_SAR_TX_SEG_INT_MS
                 else BT_MESH_SAR_TX_RETRANS_TIMEOUT_MS (sx_dst tx) (sx_ttl tx) in
  let timeout := if delta_ms <? timeout then timeout - delta_ms else timeout in
  on_tx i (fun tx => tx <| sx_ack_received := false |> <| sx_retransmit := Some timeout |>).

Definition seg_tx_send_unacked (i : nat) : M st unit :=
  tx ← gets (tx_at i);
  if sx_nack_count tx =? 0 then mret ()
  else
    let unicast := BT_MESH_ADDR_IS_UNICAST (sx_dst tx) in
    let net_tx := mk_tx (sx_sub tx) (sx_src tx) (sx_dst tx) (sx_ttl tx)
                    (if sx_ctl tx then BT_MESH_KEY_UNUSED else 0) (sx_friend_cred tx) in
    if unicast && (sx_attempts_left_without_progress tx =? 0) then seg_tx_complete i (- ETIMEDOUT)
    else if sx_attempts_left tx =? 0 then
      seg_tx_complete i (if unicast then - ETIMEDOUT else 0)
    else
      r ← seg_send_loop i net_tx (Z.to_nat (sx_seg_n tx + 1 - sx_seg_o tx));
      match r with
      | SegSent => mret ()
      | SegFailed => seg_tx_reschedule i (sx_dst tx)
      | SegAllSent =>
          _ ← on_tx i (fun tx =>
                let tx := tx <| sx_seg_o := 0 |> <| sx_attempts_left ::= (fun n => u8 (n - 1)) |> in
                if unicast && negb (sx_ack_received tx)
                then tx <| sx_attempts_left_without_progress ::= (fun n => u8 (n - 1)) |> else tx);
          seg_tx_reschedule i (sx_dst tx)
      end.

(** The work item: no longer scheduled, then run. *)
Definition seg_retransmit (i : nat) : M st unit :=
  _ ← on_tx i (fun tx => tx <| sx_retransmit := None |>);
  seg_tx_send_unacked i.

(** A context without segments in flight: the last one of the scan that finds whether
    others block the new message. *)
Fixpoint send_seg_scan (src dst : Z) (l : list seg_tx) (k : nat) (blocked : bool) (tx : option nat)
  : bool * option nat :=
  match l with
  | [] => (blocked, tx)
  | t :: l =>
      if negb (sx_nack_count t =? 0) then send_seg_scan src dst l (S k) (blocked || seg_tx_blocks t src dst) tx
      else send_seg_scan src dst l (S k) blocked (match tx with None => Some k | Some _ => tx end)
  end.

(** One segment of [send_seg]: a block is filled, and offered to the friend queue. *)
Definition send_seg_one (i : nat) (net_tx : trans_tx) (ctl_op : option Z) (seg_o : Z) (sdu : bt_buf_simple)
  : M st bt_buf_simple :=
  let ctl := bool_decide (is_Some ctl_op) in
  r ← attempt segs_alloc;
  match r with
  | inr _ => _ ← seg_tx_reset i; fail (- ENOBUFS)
  | inl _ =>
      let len := Z.min (b_len sdu) (seg_len ctl) in
      '(sdu, p) ← checked (bt_buf_simple_pull_mem sdu len);
      data ← checked (mem_read (b_store sdu) p len);
      tx ← gets (tx_at i);
      _ ← checked (sx_seg tx !! Z.to_nat seg_o);
      _ ← on_tx i (fun tx => tx <| sx_seg ::= <[Z.to_nat seg_o := Some data]> |>);
      _ ← (if c_friend cfg then
             tx ← gets (tx_at i);
             seg ← seg_tx_buf_build tx seg_o (mk_buf (replicate 16 0) 0 0 16);
             pdu ← checked (mem_read (b_store seg) (b_data seg) (b_len seg));
             n ← gets (fun s => length (t_out s));
             _ ← log (FriendEnqueueTx
                   (if seg_o =? sx_seg_n tx then BT_MESH_FRIEND_PDU_COMPLETE else BT_MESH_FRIEND_PDU_PARTIAL)
                   (if ctl then None else Some (sx_seq_auth tx)) (sx_seg_n tx + 1) pdu);
             if friend_enqueue_tx env n && BT_MESH_ADDR_IS_UNICAST (tx_dst (tt_net net_tx)) then
               _ ← segs_free;
               on_tx i (fun tx => tx <| sx_seg ::= <[Z.to_nat seg_o := None]> |>)
             else mret ()
           else mret ());
      mret sdu
  end.

(** [for (seg_o = 0; sdu->len; seg_o++)]; every round takes at least a byte, so the
    length of the SDU bounds the rounds. *)
Fixpoint send_seg_loop (i : nat) (net_tx : trans_tx) (ctl_op : option Z) (n : nat) (seg_o : Z)
    (sdu : bt_buf_simple) : M st unit :=
  if b_len sdu =? 0 then mret ()
  else
    match n with
    | O => checked None
    | S n => sdu ← send_seg_one i net_tx ctl_op seg_o sdu; send_seg_loop i net_tx ctl_op n (u8 (seg_o + 1)) sdu
    end.

(** The new content of context [tx]. *)
Definition seg_tx_init (s : st) (net_tx : trans_tx) (len : Z) (blocked : bool) (cb : option send_cb)
    (ctl_op : option Z) (tx : seg_tx) : seg_tx :=
  let net := tt_net net_tx in
  let ctl := bool_decide (is_Some ctl_op) in
  let seg_n := u8 (Z.quot (len - 1) (seg_len ctl)) in
  tx <| sx_hdr := match ctl_op with
                  | Some op => u8 (TRANS_CTL_HDR op 1)
                  | None => if BT_MESH_IS_DEV_KEY (tx_app_idx net) then SEG_HDR 0 0 else SEG_HDR 1 (tt_aid net_tx)
                  end |>
     <| sx_src := tx_src net |> <| sx_dst := tx_dst net |> <| sx_seg_n := seg_n |> <| sx_seg_o := 0 |>
     <| sx_len := len |> <| sx_nack_count := u8 (seg_n + 1) |>
     <| sx_seq_auth := SEQ_AUTH (BT_MESH_NET_IVI_TX (n_iv (t_net s))) (seq (n_iv (t_net s))) |>
     <| sx_sub := tx_sub net |> <| sx_cb := cb |>
     <| sx_attempts_left := BT_MESH_SAR_TX_RETRANS_COUNT (tx_dst net) |>
     <| sx_attempts_left_without_progress := BT_MESH_SAR_TX_RETRANS_NO_PROGRESS |>
     <| sx_xmit := tt_xmit net_tx |> <| sx_aszmic := tt_aszmic net_tx |> <| sx_friend_cred := tx_friend_cred net |>
     <| sx_blocked := blocked |> <| sx_started := false |> <| sx_seg_send_started := false |> <| sx_ctl := ctl |>
     <| sx_ttl := tx_send_ttl net |>.

Definition send_seg (net_tx : trans_tx) (sdu : bt_buf_simple) (cb : option send_cb) (ctl_op : option Z) : M st unit :=
  let net := tt_net net_tx in
  s ← gets id;
  let '(blocked, slot) := send_seg_scan (tx_src net) (tx_dst net) (t_tx s) 0 false None in
  match slot with
  | None => fail (- EBUSY)
  | Some i =>
      _ ← on_tx i (seg_tx_init s net_tx (b_len sdu) blocked cb ctl_op);
      tx ← gets (tx_at i);
      if c_friend cfg &&
         negb (friend_queue_has_space env (length (t_out s)) (net_idx (sub_at (sx_sub tx) (n_sub (t_net s))))
                 (tx_src net) (sx_dst tx) (Some (sx_seq_auth tx)) (sx_seg_n tx + 1)) &&
         BT_MESH_ADDR_IS_UNICAST (sx_dst tx)
      then _ ← seg_tx_reset i; fail (- ENOBUFS)
      else
        _ ← send_seg_loop i net_tx ctl_op (Z.to_nat (b_len sdu)) 0 sdu;
        tx ← gets (tx_at i);
        if c_friend cfg && bool_decide (sx_seg tx !! 0%nat = Some None) then
          _ ← seg_tx_reset i; send_cb_finalize cb
        else if blocked then _ ← in_net (next_seq cfg (te_net env)); mret ()
        else seg_tx_send_unacked i
  end.

Definition trans_encrypt (tx : trans_tx) (key : bt_mesh_key) (msg : bt_buf_simple) : M st bt_buf_simple :=
  let net := tt_net tx in
  iv ← gets (fun s => n_iv (t_net s));
  let crypto := mk_app_ctx (BT_MESH_IS_DEV_KEY (tx_app_idx net)) (tt_aszmic tx) (tx_src net) (tx_dst net) (seq iv)
                  (BT_MESH_NET_IVI_TX iv) (if BT_MESH_ADDR_IS_VIRTUAL (tx_dst net) then tt_uuid tx else None) in
  in_net (in_crypto (bt_mesh_app_encrypt key crypto msg)).

Definition set_tx_ttl (ttl : Z) (tx : bt_mesh_net_tx) : bt_mesh_net_tx :=
  mk_tx (tx_sub tx) (tx_src tx) (tx_dst tx) ttl (tx_app_idx tx) (tx_friend_cred tx).
Definition set_tx_sub (sub : nat) (tx : bt_mesh_net_tx) : bt_mesh_net_tx :=
  mk_tx sub (tx_src tx) (tx_dst tx) (tx_send_ttl tx) (tx_app_idx tx) (tx_friend_cred tx).
Definition set_tx_app_idx (idx : Z) (tx : bt_mesh_net_tx) : bt_mesh_net_tx :=
  mk_tx (tx_sub tx) (tx_src tx) (tx_dst tx) (tx_send_ttl tx) idx (tx_friend_cred tx).

(** The TTL to use, or none when it is out of range. *)
Definition resolve_ttl (ttl : Z) : option Z :=
  if ttl =? BT_MESH_TTL_DEFAULT then Some (default_ttl env)
  else if BT_MESH_TTL_MAX <? ttl then None else Some ttl.

Definition bt_mesh_trans_send (tx : trans_tx) (msg : bt_buf_simple) (cb : option send_cb) : M st unit :=
  let net := tt_net tx in
  if b_len msg <? 1 then fail (- EINVAL)
  else if BT_MESH_TX_SDU_MAX - BT_MESH_MIC_SHORT <? b_len msg then fail (- EMSGSIZE)
  else if bt_buf_simple_tailroom msg <? BT_MESH_MIC_SHORT then fail (- EINVAL)
  else
    match resolve_ttl (tx_send_ttl net) with
    | None => fail (- EINVAL)
    | Some ttl =>
        let send_rel := tt_send_rel tx || (BT_MESH_SDU_UNSEG_MAX <? b_len msg) in
        if (tx_dst net =? BT_MESH_ADDR_UNASSIGNED) ||
           (negb (BT_MESH_ADDR_IS_UNICAST (tx_dst net)) && BT_MESH_IS_DEV_KEY (tx_app_idx net))
        then fail (- EINVAL)
        else
          subs ← gets (fun s => n_sub (t_net s));
          match bt_mesh_keys_resolve (c_cdb cfg) (fun idx => bt_mesh_subnet_get idx subs)
                  (fun i => kr_phase (sub_at i subs) =? BT_MESH_KR_PHASE_2) (has_addr (te_net env)) (te_apps env)
                  (te_dev_keys env) (tt_net_idx tx) (tx_app_idx net) (tx_dst net) with
          | inr err => fail err
          | inl (sub, key, aid) =>
              let aszmic := if negb send_rel || (bt_buf_simple_tailroom msg <? 8) then 0 else 1 in
              let tx := mk_trans_tx (set_tx_sub sub (set_tx_ttl ttl net)) (tt_net_idx tx) (tt_uuid tx) send_rel
                          (net_transmit_get (te_net env)) aid aszmic in
              msg ← trans_encrypt tx key msg;
              if send_rel then send_seg tx msg cb None else send_unseg tx msg cb None
          end
    end.

Definition bt_mesh_ctl_send (tx : trans_tx) (ctl_op : Z) (data : list Z) (cb : option send_cb) : M st unit :=
  let net := tt_net tx in
  match resolve_ttl (tx_send_ttl net) with
  | None => fail (- EINVAL)
  | Some ttl =>
      let buf := bt_buf_simple_init_with_data data (zlen data) in
      let send_rel := tt_send_rel tx || (BT_MESH_SDU_UNSEG_MAX <? zlen data) in
      let net := set_tx_app_idx BT_MESH_KEY_UNUSED (set_tx_ttl ttl net) in
      let tx := mk_trans_tx net (tt_net_idx tx) (tt_uuid tx) send_rel (tt_xmit tx) (tt_aid tx) (tt_aszmic tx) in
      if (tx_dst net =? BT_MESH_ADDR_UNASSIGNED) || BT_MESH_ADDR_IS_VIRTUAL (tx_dst net) then fail (- EINVAL)
      else if send_rel then send_seg tx buf cb (Some ctl_op)
      else send_unseg tx buf cb (Some ctl_op)
  end.

(** ** Acknowledgements *)

(** Sending one; [src] is the address the segments were sent to. *)
Definition send_ack (sub : nat) (src dst ttl seq_auth block : Z) (obo : bool) : M st unit :=
  s ← gets id;
  let tx := mk_trans_tx (mk_tx sub (if obo then primary_addr env else src) dst ttl BT_MESH_KEY_UNUSED false)
              (net_idx (sub_at sub (n_sub (t_net s)))) None false (net_transmit_get (te_net env)) 0 0 in
  let seq_zero := Z.land seq_auth TRANS_SEQ_ZERO_MASK in
  if lpn_established env && negb (has_addr (te_net env) dst) then mret ()
  else if negb (BT_MESH_ADDR_IS_UNICAST src) then mret ()
  else
    let buf := sys_put_be16 (u16 (Z.lor (Z.land (Z.shiftl seq_zero 2) 0x7ffc) (Z.shiftl (Z.b2z obo) 15)))
               ++ sys_put_be32 (u32 block) in
    bt_mesh_ctl_send tx TRANS_CTL_OP_ACK buf None.

(** The context a received one is for; the addresses of the contexts that stand for
    their friend are noted. *)
Fixpoint seg_tx_lookup_scan (seq_zero : Z) (obo : bool) (addr : Z) (l : list seg_tx) (k : nat) : option (nat * bool) :=
  match l with
  | [] => None
  | tx :: l =>
      if negb (Z.land (sx_seq_auth tx) TRANS_SEQ_ZERO_MASK =? seq_zero) then
        seg_tx_lookup_scan seq_zero obo addr l (S k)
      else if sx_dst tx =? addr then Some (k, false)
      else if obo && ((sx_nack_count tx =? sx_seg_n tx + 1) || (sx_ack_src tx =? addr)) then Some (k, true)
      else seg_tx_lookup_scan seq_zero obo addr l (S k)
  end.

Definition seg_tx_lookup (seq_zero : Z) (obo : bool) (addr : Z) : M st (option nat) :=
  l ← gets t_tx;
  match seg_tx_lookup_scan seq_zero obo addr l 0 with
  | None => mret None
  | Some (i, note) => _ ← (if note then on_tx i (fun tx => tx <| sx_ack_src := addr |>) else mret ()); mret (Some i)
  end.

(** [while ((bit = find_lsb_set(ack)))]: each round clears the bit it finds, so 32
    rounds are enough.  Returns whether a segment was acknowledged for the first time. *)
Fixpoint ack_loop (i : nat) (n : nat) (ack : Z) (new_seg_ack : bool) : M st bool :=
  let bit := find_lsb_set ack in
  if bit =? 0 then mret new_seg_ack
  else
    match n with
    | O => checked None
    | S n =>
        tx ← gets (tx_at i);
        e ← seg_entry (sx_seg tx) (bit - 1);
        new ← match e with
              | Some _ => _ ← seg_tx_done i (bit - 1); mret true
              | None => mret new_seg_ack
              end;
        ack_loop i n (Z.land ack (Z.lnot (BIT (bit - 1)))) new
    end.

(** What an acknowledgement that leaves segments open does to the timer. *)
Definition ack_reschedule (i : nat) : M st unit :=
  tx ← gets (tx_at i);
  if sx_seg_o tx =? 0 then
    let delta_ms := u32 (uptime env - sx_adv_start_timestamp tx) in
    let timeout :=
      if (BT_MESH_ADDR_IS_UNICAST (sx_dst tx) && (sx_attempts_left_without_progress tx =? 0)) ||
         (sx_attempts_left tx =? 0) then 0
      else if delta_ms <? BT_MESH_SAR_TX_SEG_INT_MS then BT_MESH_SAR_TX_SEG_INT_MS - delta_ms else 0 in
    on_tx i (fun tx => tx <| sx_retransmit := Some timeout |>)
  else on_tx i (fun tx => tx <| sx_ack_received := true |>).

(** Returns the SeqAuth for the friend queue, if it is set. *)
Definition trans_ack (rx : bt_mesh_net_rx) (buf : bt_buf_simple) : M st (option Z) :=
  if b_len buf <? 6 then fail (- EBADMSG)
  else
    '(w, buf) ← checked (bt_buf_simple_pull_be16 buf);
    let obo := negb (Z.shiftr w 15 =? 0) in
    let seq_zero := Z.land (Z.shiftr w 2) TRANS_SEQ_ZERO_MASK in
    iv ← gets (fun s => n_iv (t_net s));
    if c_friend cfg && rx_friend_match rx then
      mret (Some (SEQ_AUTH (BT_MESH_NET_IVI_RX iv (rx_old_iv rx)) seq_zero))
    else if negb (rx_local_match rx) then mret None
    else
      '(ack, buf) ← checked (bt_buf_simple_pull_be32 buf);
      slot ← seg_tx_lookup seq_zero obo (rx_addr rx);
      match slot with
      | None => fail (- ENOENT)
      | Some i =>
          tx ← gets (tx_at i);
          if negb (BT_MESH_ADDR_IS_UNICAST (sx_dst tx)) then fail (- EINVAL)
          else if ack =? 0 then _ ← seg_tx_complete i (- ECANCELED); mret (Some (sx_seq_auth tx))
          else if sx_seg_n tx <? find_msb_set ack - 1 then fail (- EINVAL)
          else
            new ← ack_loop i 32 ack false;
            _ ← (if (new : bool)
                 then on_tx i (fun tx => tx <| sx_attempts_left_without_progress := BT_MESH_SAR_TX_RETRANS_NO_PROGRESS |>)
                 else mret ());
            n ← gets (fun s => sx_nack_count (tx_at i s));
            _ ← (if negb (n =? 0) then ack_reschedule i else seg_tx_complete i 0);
            mret (Some (sx_seq_auth tx))
      end.

(** ** Receiving *)

(** The layers above: the access layer takes the decrypted message, with the key it
    was sealed with and the label UUID; the handlers of control messages. *)
Context (access_recv : bt_mesh_net_rx -> option (list Z) -> list Z -> M st unit).
Context (ctl_handler : ctl_op_handler -> bt_mesh_net_rx -> bt_buf_simple -> M st unit).

(** [seg_rx_assemble]: the rounds from [i] on. *)
Fixpoint assemble_loop (rx : seg_rx) (n : nat) (i : Z) (buf : bt_buf_simple) : M st bt_buf_simple :=
  match n with
  | O => mret buf
  | S n =>
      e ← seg_entry (sr_seg rx) i;
      block ← checked e;
      data ← checked (mem_read block 0 (Z.min (seg_len (sr_ctl rx)) (sr_len rx - i * seg_len (sr_ctl rx))));
      buf ← checked (bt_buf_simple_add_mem buf data);
      assemble_loop rx n (i + 1) buf
  end.

Definition seg_rx_assemble (rx : seg_rx) (buf : bt_buf_simple) (aszmic : Z) : M st bt_buf_simple :=
  buf ← assemble_loop rx (Z.to_nat (sr_seg_n rx + 1)) 0 (bt_buf_simple_reset buf);
  mret (if negb (sr_ctl rx) then set_len (u16 (b_len buf - APP_MIC_LEN aszmic)) buf else buf).

(** [struct decrypt_ctx], and the key the access layer is told about.  [dc_ad] is the
    slot of the label. *)
Record decrypt_ctx := mk_decrypt {
  dc_crypto : bt_mesh_app_crypto_ctx;
  dc_ad : option nat;
  dc_buf : bt_buf_simple;
  dc_sdu : bt_buf_simple;
  dc_seg : option nat
}.

Definition uuid_of (ad : option nat) : option (list Z) := i ← ad; va_uuid <$> virtual_addrs env !! i.

(** The [do ... while (err && ctx->crypto.ad != NULL)] loop: a round for each label
    of the address, so one more than the number of labels is enough. *)
Fixpoint sdu_try_loop (rx : bt_mesh_net_rx) (key : bt_mesh_key) (n : nat) (ctx : decrypt_ctx) : M st (Z * decrypt_ctx) :=
  match n with
  | O => checked None
  | S n =>
      buf ← match dc_seg ctx with
            | Some i => seg ← gets (rx_at i); seg_rx_assemble seg (dc_buf ctx) (ac_aszmic (dc_crypto ctx))
            | None => mret (dc_buf ctx)
            end;
      let virtual := BT_MESH_ADDR_IS_VIRTUAL (rx_recv_dst rx) in
      let ad := if virtual then bt_mesh_va_uuid_get (virtual_addrs env) (rx_recv_dst rx) (dc_ad ctx) else dc_ad ctx in
      if virtual && bool_decide (ad = None) then
        mret (- ENOENT, mk_decrypt (dc_crypto ctx) ad buf (dc_sdu ctx) (dc_seg ctx))
      else
        let c := dc_crypto ctx in
        let crypto := mk_app_ctx (ac_dev_key c) (ac_aszmic c) (ac_src c) (ac_dst c) (ac_seq_num c) (ac_iv_index c)
                        (uuid_of ad) in
        r ← attempt (in_net (in_crypto (bt_mesh_app_decrypt key crypto buf (bt_buf_simple_reset (dc_sdu ctx)))));
        match r with
        | inl sdu => mret (0, mk_decrypt crypto ad buf sdu (dc_seg ctx))
        | inr err =>
            let ctx := mk_decrypt crypto ad buf (bt_buf_simple_reset (dc_sdu ctx)) (dc_seg ctx) in
            match ad with
            | None => mret (err, ctx)
            | Some _ => sdu_try_loop rx key n ctx
            end
        end
  end.

Definition sdu_try_decrypt (rx : bt_mesh_net_rx) (key : bt_mesh_key) (ctx : decrypt_ctx) : M st (Z * decrypt_ctx) :=
  sdu_try_loop rx key (S (length (virtual_addrs env)))
    (mk_decrypt (dc_crypto ctx) None (dc_buf ctx) (dc_sdu ctx) (dc_seg ctx)).

Definition rx_set_app_idx (idx : Z) (rx : bt_mesh_net_rx) : bt_mesh_net_rx :=
  mk_rx (rx_sub rx) (rx_addr rx) (rx_recv_dst rx) (rx_recv_ttl rx) (rx_net_idx rx) (rx_seq rx) (rx_old_iv rx)
    (rx_new_key rx) (rx_friend_cred rx) (rx_ctl rx) (rx_net_if rx) (rx_local_match rx) (rx_friend_match rx)
    (rx_send_ttl rx) idx.

Definition sdu_recv (rx : bt_mesh_net_rx) (hdr aszmic : Z) (buf sdu : bt_buf_simple) (seg : option nat) : M st unit :=
  s ← gets id;
  let is_dev := AKF hdr =? 0 in
  let crypto := mk_app_ctx is_dev aszmic (rx_addr rx) (rx_recv_dst rx)
                  (match seg with Some i => Z.land (sr_seq_auth (rx_at i s)) 0xffffff | None => rx_seq rx end)
                  (BT_MESH_NET_IVI_RX (n_iv (t_net s)) (rx_old_iv rx)) None in
  if negb (rx_local_match rx) then
    if rx_friend_match rx then mret () else fail (- ENXIO)
  else
    '(idx, ctx) ← bt_mesh_app_key_find (c_cdb cfg) (k_rpr_srv tcfg) (sdu_try_decrypt rx) (log DevKeyCandActivate)
                    is_dev (AID hdr) rx (net_idx (sub_at (Z.to_nat (rx_sub rx)) (n_sub (t_net s)))) (te_apps env)
                    (te_dev_keys env) (mk_decrypt crypto None buf sdu seg);
    if idx =? BT_MESH_KEY_UNUSED then fail (- EACCES)
    else
      data ← checked (mem_read (b_store (dc_sdu ctx)) (b_data (dc_sdu ctx)) (b_len (dc_sdu ctx)));
      access_recv (rx_set_app_idx idx rx) (uuid_of (dc_ad ctx)) data.

(** The handler of an opcode, [None] when there is none, or the error for a message of
    the friend under the wrong credentials. *)
Definition ctl_dispatch (op : Z) (rx : bt_mesh_net_rx) : option ctl_op_handler + Z :=
  let friend_handler :=
    if c_friend cfg && negb (lpn_established env) then
      match op with
      | 0x01 => Some FriendPoll | 0x03 => Some FriendReq | 0x05 => Some FriendClear
      | 0x06 => Some FriendClearCfm | 0x07 => Some FriendSubAdd | 0x08 => Some FriendSubRem
      | _ => None
      end
    else None in
  match friend_handler with
  | Some h => inl (Some h)
  | None =>
      if negb (k_low_power tcfg) then inl None
      else if op =? 0x04 then inl (Some LpnFriendOffer)
      else if negb (rx_addr rx =? lpn_frnd env) then inl None
      else if op =? 0x06 then inl (Some LpnFriendClearCfm)
      else if negb (rx_friend_cred rx) then inr (- EINVAL)
      else if op =? 0x02 then inl (Some LpnFriendUpdate)
      else if op =? 0x09 then inl (Some LpnFriendSubCfm)
      else inl None
  end.

Definition ctl_recv (rx : bt_mesh_net_rx) (hdr : Z) (buf : bt_buf_simple) : M st (option Z) :=
  let op := TRANS_CTL_OP hdr in
  if op =? TRANS_CTL_OP_ACK then trans_ack rx buf
  else if op =? TRANS_CTL_OP_HEARTBEAT then _ ← ctl_handler HbRecv rx buf; mret None
  else if negb (rx_local_match rx) then mret None
  else
    match ctl_dispatch op rx with
    | inr err => fail err
    | inl None => fail (- EBADMSG)
    | inl (Some h) => _ ← ctl_handler h rx buf; mret None
    end.

(** [bt_mesh_rpl_check] for a match: an error for a replay, else the slot to update. *)
Definition rpl_slot (rx : bt_mesh_net_rx) : M st (option nat) :=
  r ← gets (fun s => n_rpl (t_net s));
  let '(replay, slot, _) := bt_mesh_rpl_check (c_settings cfg) (c_rpl_timeout cfg) rx true false r in
  if (replay : bool) then fail (- EINVAL) else mret slot.
Definition rpl_update (slot : option nat) (rx : bt_mesh_net_rx) : M st unit :=
  match slot with
  | None => mret ()
  | Some i => in_net (Net.modify (fun n => set_n_rpl (bt_mesh_rpl_update (c_settings cfg) (c_rpl_timeout cfg) i rx (n_rpl n)) n))
  end.

Definition trans_unseg (buf : bt_buf_simple) (rx : bt_mesh_net_rx) : M st (option Z) :=
  if b_len buf <? 1 then fail (- EBADMSG)
  else
    rpl ← rpl_slot rx;
    '(hdr, buf) ← checked (bt_buf_simple_pull_u8 buf);
    seq_auth ← (if rx_ctl rx then ctl_recv rx hdr buf
                else if b_len buf <? 1 + APP_MIC_LEN 0 then fail (- EINVAL)
                else
                  let buf := set_len (u16 (b_len buf - APP_MIC_LEN 0)) buf in
                  let sdu := mk_buf (replicate (Z.to_nat BT_MESH_SDU_UNSEG_MAX) 0) 0 0 BT_MESH_SDU_UNSEG_MAX in
                  _ ← sdu_recv rx hdr 0 buf sdu None; mret None);
    _ ← rpl_update rpl rx;
    mret seq_auth.

Fixpoint rx_free_loop (i : nat) (k : Z) (n : nat) : M st unit :=
  match n with
  | O => mret ()
  | S n =>
      e ← (rx ← gets (rx_at i); seg_entry (sr_seg rx) k);
      _ ← match e with
          | None => mret ()
          | Some _ => _ ← segs_free; on_rx i (fun rx => rx <| sr_seg ::= <[Z.to_nat k := None]> |>)
          end;
      rx_free_loop i (k + 1) n
  end.

Definition seg_rx_reset (i : nat) (full_reset : bool) : M st unit :=
  _ ← on_rx i (fun rx => rx <| sr_ack := None |> <| sr_discard := None |>);
  rx ← gets (rx_at i);
  _ ← (if c_friend cfg && sr_obo rx && negb (sr_block rx =? BLOCK_COMPLETE (sr_seg_n rx))
       then log (FriendClearIncomplete (sr_sub rx) (sr_src rx) (sr_dst rx) (sr_seq_auth rx)) else mret ());
  _ ← rx_free_loop i 0 (Z.to_nat (sr_seg_n rx + 1));
  _ ← on_rx i (fun rx => rx <| sr_in_use := false |>);
  if full_reset then
    on_rx i (fun rx => rx <| sr_seq_auth := 0 |> <| sr_sub := 0%nat |> <| sr_src := BT_MESH_ADDR_UNASSIGNED |>
                          <| sr_dst := BT_MESH_ADDR_UNASSIGNED |>)
  else mret ().

(** The two work items. *)
Definition seg_discard (i : nat) : M st unit :=
  _ ← on_rx i (fun rx => rx <| sr_discard := None |>);
  _ ← seg_rx_reset i false;
  _ ← on_rx i (fun rx => rx <| sr_block := 0 |>);
  if k_testing tcfg then log TestIncompTimerExp else mret ().

Definition seg_ack (i : nat) : M st unit :=
  _ ← on_rx i (fun rx => rx <| sr_ack := None |>);
  rx ← gets (rx_at i);
  if negb (sr_in_use rx) || (sr_block rx =? BLOCK_COMPLETE (sr_seg_n rx)) then mret ()
  else
    _ ← attempt (send_ack (sr_sub rx) (sr_dst rx) (sr_src rx) (sr_ttl rx) (sr_seq_auth rx) (sr_block rx) (sr_obo rx));
    _ ← on_rx i (fun rx => rx <| sr_last_ack := u32 (uptime env) |>);
    if sr_attempts_left rx =? 0 then mret ()
    else if BT_MESH_SAR_RX_SEG_THRESHOLD <? sr_seg_n rx then
      on_rx i (fun rx => rx <| sr_attempts_left ::= (fun n => u8 (n - 1)) |>
                            <| sr_ack ::= (fun t => match t with None => Some BT_MESH_SAR_RX_SEG_INT_MS | _ => t end) |>)
    else mret ().

Definition sdu_len_is_ok (seg_n : Z) : bool := seg_n <? BT_MESH_RX_SEG_MAX tcfg.

(** The context of a message, or one of a newer message between the same addresses; a
    context of an older one that is in use is given up. *)
Fixpoint seg_rx_find_scan (src dst seq_auth : Z) (l : list seg_rx) (k : nat) : option (nat * bool) :=
  match l with
  | [] => None
  | rx :: l =>
      if negb (sr_src rx =? src) || negb (sr_dst rx =? dst) then seg_rx_find_scan src dst seq_auth l (S k)
      else if seq_auth <=? sr_seq_auth rx then Some (k, true)
      else if sr_in_use rx then Some (k, false)
      else seg_rx_find_scan src dst seq_auth l (S k)
  end.

Definition seg_rx_find (net_rx : bt_mesh_net_rx) (seq_auth : Z) : M st (option nat) :=
  l ← gets t_rx;
  match seg_rx_find_scan (rx_addr net_rx) (rx_recv_dst net_rx) seq_auth l 0 with
  | None => mret None
  | Some (i, true) => mret (Some i)
  | Some (i, false) => _ ← seg_rx_reset i true; mret None
  end.

Definition seg_rx_is_valid (rx : seg_rx) (net_rx : bt_mesh_net_rx) (hdr seg_n : Z) : bool :=
  negb (negb (sr_hdr rx =? hdr) || negb (sr_seg_n rx =? seg_n)) &&
  negb (negb (sr_src rx =? rx_addr net_rx) || negb (sr_dst rx =? rx_recv_dst net_rx)) &&
  eqb (sr_ctl rx) (rx_ctl net_rx).

(** The first context that is not in use. *)
Fixpoint free_rx_scan (l : list seg_rx) (k : nat) : option nat :=
  match l with
  | [] => None
  | rx :: l => if sr_in_use rx then free_rx_scan l (S k) else Some k
  end.

Definition seg_rx_alloc (net_rx : bt_mesh_net_rx) (hdr seq_auth seg_n : Z) : M st (option nat) :=
  s ← gets id;
  if (t_free s <? 1)%nat then mret None
  else
    match free_rx_scan (t_rx s) 0 with
    | None => mret None
    | Some i =>
        _ ← on_rx i (fun rx => rx <| sr_in_use := true |> <| sr_sub := Z.to_nat (rx_sub net_rx) |>
              <| sr_ctl := rx_ctl net_rx |> <| sr_seq_auth := seq_auth |> <| sr_seg_n := seg_n |> <| sr_hdr := hdr |>
              <| sr_ttl := rx_send_ttl net_rx |> <| sr_src := rx_addr net_rx |> <| sr_dst := rx_recv_dst net_rx |>
              <| sr_block := 0 |>);
        mret (Some i)
    end.

(** The header of a segment. *)
Record seg_header := mk_seg_hdr { sh_hdr : Z; sh_aszmic : Z; sh_seq_auth : Z; sh_seg_o : Z; sh_seg_n : Z }.

(** What is left after the type, the four bytes and SeqAuth, whose sequence number is
    that of the first segment; [long] arithmetic is 64-bit. *)
Definition seg_parse (buf : bt_buf_simple) (net_rx : bt_mesh_net_rx) (iv : net_iv) : option (seg_header * bt_buf_simple) :=
  h ← mem_read (b_store buf) (b_data buf) 2;
  '(buf, _) ← bt_buf_simple_pull buf 1;
  '(w, buf) ← bt_buf_simple_pull_be16 buf;
  '(n, buf) ← bt_buf_simple_pull_u8 buf;
  let seg_o := Z.lor (u8 (Z.shiftl (Z.land w 0x03) 3)) (Z.shiftr n 5) in
  let seq_zero := Z.land (Z.shiftr w 2) TRANS_SEQ_ZERO_MASK in
  let delta := Z.land (u64 (Z.land (rx_seq net_rx) (BIT_MASK 14) - seq_zero)) (BIT_MASK 13) in
  let seq_auth := SEQ_AUTH (BT_MESH_NET_IVI_RX iv (rx_old_iv net_rx)) (u64 (rx_seq net_rx - delta)) in
  Some (mk_seg_hdr (h !!! 0%nat) (Z.land (Z.shiftr (h !!! 1%nat) 7) 1) seq_auth seg_o (Z.land n 0x1f), buf).

(** What the function sets for the caller: the kind of PDU, SeqAuth, the segments. *)
Definition trans_seg_result : Type := bt_mesh_friend_pdu_type * Z * Z.

(** The completed message: acknowledged, assembled and passed on. *)
Definition seg_complete (i : nat) (net_rx : bt_mesh_net_rx) (h : seg_header) (rpl : option nat)
  : M st (Z + Z) :=
  _ ← on_rx i (fun rx => rx <| sr_ack := None |>);
  rx ← gets (rx_at i);
  _ ← attempt (send_ack (Z.to_nat (rx_sub net_rx)) (rx_recv_dst net_rx) (rx_addr net_rx) (rx_send_ttl net_rx)
                 (sh_seq_auth h) (sr_block rx) (sr_obo rx));
  _ ← on_rx i (fun rx => rx <| sr_last_ack := u32 (uptime env) |>);
  rx ← gets (rx_at i);
  r ← attempt
        (if rx_ctl net_rx then
           sdu ← seg_rx_assemble rx (mk_buf (replicate (Z.to_nat BT_MESH_RX_CTL_MAX) 0) 0 0 BT_MESH_RX_CTL_MAX) 0;
           q ← ctl_recv net_rx (sh_hdr h) sdu;
           mret (default (sh_seq_auth h) q)
         else if sr_len rx <? 1 + APP_MIC_LEN (sh_aszmic h) then fail (- EINVAL)
         else
           let seg_buf := mk_buf (replicate (Z.to_nat BT_MESH_RX_SDU_MAX) 0) 0 0 BT_MESH_RX_SDU_MAX in
           let n := sr_len rx - APP_MIC_LEN (sh_aszmic h) in
           let sdu := mk_buf (replicate (Z.to_nat n) 0) 0 n n in
           _ ← sdu_recv net_rx (sh_hdr h) (sh_aszmic h) seg_buf sdu (Some i);
           mret (sh_seq_auth h));
  _ ← match r, rpl with
      | inl _, Some k =>
          _ ← rpl_update rpl net_rx;
          in_net (Net.modify (fun n => set_n_rpl (Rpl.set_slot k
                    (let e := Rpl.slot (n_rpl n) k in
                     mk_rpl (rpl_src e) (rpl_old_iv e) (rpl_seq e)
                       (Z.max (rpl_seg e) (Z.land (sh_seq_auth h) (BIT_MASK 24)))) (n_rpl n)) n))
      | _, _ => mret ()
      end;
  _ ← seg_rx_reset i false;
  mret r.

(** A segment that is refused with an acknowledgement that cancels the message. *)
Definition refuse (net_rx : bt_mesh_net_rx) (seq_auth : Z) (obo : bool) (err : Z) : M st unit :=
  _ ← attempt (send_ack (Z.to_nat (rx_sub net_rx)) (rx_recv_dst net_rx) (rx_addr net_rx) (rx_send_ttl net_rx)
                 seq_auth 0 obo);
  fail err.

(** A segment whose context is there, but not in use: of a message that is complete, which
    is acknowledged again, or of one that was given up. *)
Definition seg_old (i : nat) (net_rx : bt_mesh_net_rx) (seq_auth : Z) (rpl : option nat) : M st nat :=
  rx ← gets (rx_at i);
  if sr_block rx =? BLOCK_COMPLETE (sr_seg_n rx) then
    _ ← (if SEQAUTH_ALREADY_PROCESSED_TIMEOUT <? u32 (u32 (uptime env) - sr_last_ack rx) then
           _ ← attempt (send_ack (Z.to_nat (rx_sub net_rx)) (rx_recv_dst net_rx) (rx_addr net_rx) (rx_send_ttl net_rx)
                          seq_auth (sr_block rx) (sr_obo rx));
           on_rx i (fun rx => rx <| sr_last_ack := u32 (uptime env) |>)
         else mret ());
    _ ← rpl_update rpl net_rx;
    fail (- EALREADY)
  else fail (- EINVAL).

(** The context for a segment: the one of its message, or a new one. *)
Definition seg_context (net_rx : bt_mesh_net_rx) (h : seg_header) (rpl : option nat) : M st nat :=
  found ← seg_rx_find net_rx (sh_seq_auth h);
  match found with
  | Some i =>
      rx ← gets (rx_at i);
      if sh_seq_auth h <? sr_seq_auth rx then fail (- EINVAL)
      else if negb (seg_rx_is_valid rx net_rx (sh_hdr h) (sh_seg_n h)) then fail (- EINVAL)
      else if sr_in_use rx then mret i
      else seg_old i net_rx (sh_seq_auth h) rpl
  | None =>
      if negb (sdu_len_is_ok (sh_seg_n h)) then
        _ ← refuse net_rx (sh_seq_auth h) (rx_friend_match net_rx) (- EMSGSIZE); mret 0%nat
      else
        s ← gets id;
        if c_friend cfg && rx_friend_match net_rx && negb (rx_local_match net_rx) &&
           negb (friend_queue_has_space env (length (t_out s))
                   (net_idx (sub_at (Z.to_nat (rx_sub net_rx)) (n_sub (t_net s)))) (rx_addr net_rx)
                   (rx_recv_dst net_rx) (Some (sh_seq_auth h)) (sh_seg_n h + 1))
        then _ ← refuse net_rx (sh_seq_auth h) (rx_friend_match net_rx) (- ENOBUFS); mret 0%nat
        else
          let auth_seqnum := Z.land (sh_seq_auth h) (BIT_MASK 24) in
          let old := match rpl with
                     | None => false
                     | Some k =>
                         let e := Rpl.slot (n_rpl (t_net s)) k in
                         negb (rpl_src e =? 0) && (auth_seqnum <=? rpl_seg e) &&
                         (negb (rpl_old_iv e) || rx_old_iv net_rx)
                     end in
          if (old : bool) then fail (- EALREADY)
          else
            slot ← seg_rx_alloc net_rx (sh_hdr h) (sh_seq_auth h) (sh_seg_n h);
            match slot with
            | None => fail (- ENOMEM)
            | Some i => _ ← on_rx i (fun rx => rx <| sr_obo := rx_friend_match net_rx |>); mret i
            end
  end.

(** From the label [found_rx] on: the segment is kept, and the message completed with it.
    [data] is what the segment holds. *)
Definition seg_store (i : nat) (net_rx : bt_mesh_net_rx) (h : seg_header) (rpl : option nat) (data : list Z)
  : M st trans_seg_result :=
  rx ← gets (rx_at i);
  if negb (Z.land (BIT (sh_seg_o h)) (sr_block rx) =? 0) then fail (- EALREADY)
  else
    _ ← (if sh_seg_o h =? sh_seg_n h then
           let len := u16 (sh_seg_n h * seg_len (sr_ctl rx) + zlen data) in
           _ ← on_rx i (fun rx => rx <| sr_len := len |>);
           if BT_MESH_RX_SDU_MAX <? len then
             _ ← attempt (refuse net_rx (sh_seq_auth h) (sr_obo rx) (- EMSGSIZE));
             _ ← seg_rx_reset i true;
             fail (- EMSGSIZE)
           else mret ()
         else if negb (zlen data =? seg_len (sr_ctl rx)) then fail (- EINVAL) else mret ());
    _ ← on_rx i (fun rx => rx <| sr_discard ::= (fun t => match t with None => Some BT_MESH_SAR_RX_DISCARD_TIMEOUT_MS | _ => t end) |>
                             <| sr_attempts_left := BT_MESH_SAR_RX_ACK_RETRANS_COUNT |>);
    _ ← (if negb (lpn_established env) && BT_MESH_ADDR_IS_UNICAST (sr_dst rx)
         then on_rx i (fun rx => rx <| sr_ack := Some (ACK_DELAY (sr_seg_n rx)) |>) else mret ());
    r ← attempt segs_alloc;
    match r with
    | inr _ => fail (- ENOBUFS)
    | inl _ =>
        _ ← (if zlen data <=? BT_MESH_APP_SEG_SDU_MAX then checked (sr_seg rx !! Z.to_nat (sh_seg_o h)) else checked None);
        _ ← on_rx i (fun rx => rx <| sr_seg ::= <[Z.to_nat (sh_seg_o h) := Some data]> |>
                                 <| sr_block ::= (fun b => Z.lor b (BIT (sh_seg_o h))) |>);
        rx ← gets (rx_at i);
        if negb (sr_block rx =? BLOCK_COMPLETE (sh_seg_n h)) then
          mret (BT_MESH_FRIEND_PDU_PARTIAL, sh_seq_auth h, sh_seg_n h + 1)
        else
          r ← seg_complete i net_rx h rpl;
          match r with
          | inl q => mret (BT_MESH_FRIEND_PDU_COMPLETE, q, sh_seg_n h + 1)
          | inr err => fail err
          end
    end.

Definition trans_seg (buf : bt_buf_simple) (net_rx : bt_mesh_net_rx) : M st trans_seg_result :=
  if b_len buf <? 5 then fail (- EBADMSG)
  else
    rpl ← rpl_slot net_rx;
    iv ← gets (fun s => n_iv (t_net s));
    '(h, buf) ← checked (seg_parse buf net_rx iv);
    if sh_seg_n h <? sh_seg_o h then fail (- EBADMSG)
    else
      i ← seg_context net_rx h rpl;
      data ← checked (mem_read (b_store buf) (b_data buf) (b_len buf));
      seg_store i net_rx h rpl data.

Definition rx_set_friend_match (x : bool) (rx : bt_mesh_net_rx) : bt_mesh_net_rx :=
  mk_rx (rx_sub rx) (rx_addr rx) (rx_recv_dst rx) (rx_recv_ttl rx) (rx_net_idx rx) (rx_seq rx) (rx_old_iv rx)
    (rx_new_key rx) (rx_friend_cred rx) (rx_ctl rx) (rx_net_if rx) (rx_local_match rx) x
    (rx_send_ttl rx) (rx_app_idx rx).

(** [trans_seg] or [trans_unseg], and what they leave for the friend queue: the kind of PDU,
    SeqAuth if it was set, and the number of segments. *)
Definition trans_dispatch (buf : bt_buf_simple) (rx : bt_mesh_net_rx)
  : M st (bt_mesh_friend_pdu_type * option Z * Z) :=
  b ← checked (mem_read (b_store buf) (b_data buf) 1);
  if negb (SEG (b !!! 0%nat) =? 0) then
    '(type, seq_auth, count) ← trans_seg buf rx;
    mret (type, if seq_auth =? TRANS_SEQ_AUTH_NVAL then None else Some seq_auth, count)
  else
    seq_auth ← trans_unseg buf rx;
    mret (BT_MESH_FRIEND_PDU_SINGLE, seq_auth, 1).

(** Returns the status for the network layer, the buffer and the context. *)
Definition bt_mesh_trans_recv (buf : bt_buf_simple) (rx : bt_mesh_net_rx)
  : M st (Z * bt_buf_simple * bt_mesh_net_rx) :=
  subs ← gets (fun s => n_sub (t_net s));
  let rx := rx_set_friend_match
              (c_friend cfg && friend_match env (net_idx (sub_at (Z.to_nat (rx_sub rx)) subs)) (rx_recv_dst rx)) rx in
  '(buf, _) ← checked (bt_buf_simple_pull buf BT_MESH_NET_HDR_LEN);
  pdu ← checked (mem_read (b_store buf) (b_data buf) (b_len buf));
  _ ← (if k_testing tcfg then log (TestNetRecv rx pdu) else mret ());
  if k_low_power tcfg && lpn_established env && bool_decide (rx_net_if rx = BT_MESH_NET_IF_ADV) &&
     (negb (lpn_waiting_update env) || negb (rx_friend_cred rx))
  then mret (- EAGAIN, buf, rx)
  else
    b ← checked (mem_read (b_store buf) (b_data buf) 1);
    let seg := negb (SEG (b !!! 0%nat) =? 0) in
    if negb (rx_local_match rx) && negb (rx_friend_match rx) && (seg || negb (rx_ctl rx)) then mret (0, buf, rx)
    else
      r ← attempt (trans_dispatch buf rx);
      _ ← (if k_low_power tcfg then log (LpnMsgReceived rx) else mret ());
      match r with
      | inr err => mret (err, buf, rx)
      | inl (type, seq_auth, count) =>
          _ ← (if c_friend cfg && rx_friend_match rx then log (FriendEnqueueRx rx type seq_auth count pdu) else mret ());
          mret (0, buf, rx)
      end.

(** ** Resetting *)

Fixpoint rx_reset_loop (i n : nat) : M st unit :=
  match n with O => mret () | S n => _ ← seg_rx_reset i true; rx_reset_loop (S i) n end.
Definition bt_mesh_rx_reset : M st unit := n ← gets (fun s => length (t_rx s)); rx_reset_loop 0 n.

Fixpoint tx_reset_loop (i n : nat) : M st unit :=
  match n with O => mret () | S n => _ ← seg_tx_reset i; tx_reset_loop (S i) n end.

Definition bt_mesh_trans_reset : M st unit :=
  _ ← bt_mesh_rx_reset;
  n ← gets (fun s => length (t_tx s));
  _ ← tx_reset_loop 0 n;
  _ ← in_net (Net.modify (fun n => set_n_rpl (bt_mesh_rpl_clear (c_settings cfg) (n_rpl n)) n));
  log VaClear.

End Operations.
