(* ===== verification/TransRx.v ===== *)
(** Reassembly in the transport layer: what a node makes of the segments of a message,
    in whatever order and how often they arrive. *)

From S2P Require Import Prelude Byteorder BufSimple MeshDefs Rpl CryptoIf Crypto Subnet NetIv Net NetPdu NetFlow.
From S2P Require Import AppKeys Transport.

Lemma attempt_ok {W A} (m : M W A) w a w1 : m w = (Ok a, w1) -> attempt m w = (Ok (inl a), w1).
Proof. unfold attempt. by intros ->. Qed.

(** * Segments *)

(** The payload of a segment after the network header. *)
Definition seg_pdu (hdr aszmic seq_zero seg_o seg_n : Z) (data : list Z) : list Z :=
  [hdr; Z.lor (Z.shiftl aszmic 7) (Z.shiftr seq_zero 6);
   Z.lor (Z.shiftl (Z.land seq_zero 0x3f) 2) (Z.shiftr seg_o 3);
   Z.lor (Z.shiftl (Z.land seg_o 0x07) 5) seg_n] ++ data.

(** The bytes as sums. *)
Lemma seg_pdu_bytes hdr aszmic seq_zero seg_o seg_n data :
  0 <= aszmic < 2 -> 0 <= seq_zero < 2 ^ 13 -> 0 <= seg_o < 32 -> 0 <= seg_n < 32 ->
  seg_pdu hdr aszmic seq_zero seg_o seg_n data =
    [hdr; aszmic * 128 + seq_zero / 64; seq_zero mod 64 * 4 + seg_o / 8; seg_o mod 8 * 32 + seg_n] ++ data.
Proof.
  intros Ha Hz Ho Hn. unfold seg_pdu.
  change (Z.land seg_o 0x07) with (Z.land seg_o (Z.ones 3)).
  change (Z.land seq_zero 0x3f) with (Z.land seq_zero (Z.ones 6)).
  rewrite !Z.land_ones, !Z.shiftr_div_pow2 by lia. change (2 ^ 6) with 64. change (2 ^ 3) with 8.
  pose proof (Z.mod_pos_bound seq_zero 64). pose proof (Z.mod_pos_bound seg_o 8).
  assert (0 <= seq_zero / 64 < 128) by (split; [apply Z.div_pos; lia|apply Z.div_lt_upper_bound; lia]).
  assert (0 <= seg_o / 8 < 4) by (split; [apply Z.div_pos; lia|apply Z.div_lt_upper_bound; lia]).
  rewrite (lor_shl_add aszmic) by (simpl Z.pow; lia).
  rewrite (lor_shl_add (seq_zero mod 64)) by (simpl Z.pow; lia).
  rewrite (lor_shl_add (seg_o mod 8)) by (simpl Z.pow; lia). done.
Qed.

(** One pull at the head. *)
Definition pulled (b : bt_buf_simple) (n : Z) : bt_buf_simple :=
  set_data (b_data b + n) (set_len (u16 (b_len b - n)) b).

Lemma pull_run b n bs rest :
  wf b -> content b = bs ++ rest -> zlen bs = n ->
  mem_read (b_store b) (b_data b) n = Some bs /\ bt_buf_simple_pull b n = Some (pulled b n, b_data b + n) /\
  wf (pulled b n) /\ content (pulled b n) = rest /\ b_len (pulled b n) = zlen rest.
Proof.
  intros Hb Hc Hn. pose proof (content_length b Hb) as Hl. rewrite Hc, length_app in Hl.
  destruct (pull_window b n Hb) as [Hw Hv]; [lia|]. fold (pulled b n) in Hw, Hv.
  apply (f_equal v_bytes) in Hv. cbn in Hv. split_and!.
  - rewrite <-(Z.add_0_r (b_data b)), read_content by (done || lia). rewrite Hc. change (Z.to_nat 0) with 0%nat.
    rewrite drop_0. f_equal. rewrite take_app_le by lia. apply take_ge. lia.
  - unfold bt_buf_simple_pull, assert. by rewrite (proj2 (Z.leb_le _ _)) by lia.
  - done.
  - rewrite Hv, Hc, drop_app_ge by lia. replace (Z.to_nat n - length bs)%nat with 0%nat by lia. done.
  - destruct Hb. unfold pulled. simpl. unfold UINT16_MAX in *. rewrite u16_id by lia. lia.
Qed.

Lemma pull_get_run b n (get : list Z -> Z) bs rest :
  wf b -> content b = bs ++ rest -> zlen bs = n -> pull_get n get b = Some (get bs, pulled b n).
Proof.
  intros Hb Hc Hn. destruct (pull_run b n bs rest Hb Hc Hn) as (Er & Ep & _). unfold pull_get.
  rewrite Er. simpl. by rewrite Ep.
Qed.

Lemma pull_u8_run b x rest :
  wf b -> content b = x :: rest -> bt_buf_simple_pull_u8 b = Some (x, pulled b 1).
Proof.
  intros Hb Hc. destruct (pull_run b 1 [x] rest Hb Hc eq_refl) as (Er & Ep & _).
  unfold bt_buf_simple_pull_u8. rewrite Er. simpl. by rewrite Ep.
Qed.

(** One addition at the tail. *)
Lemma append_run (m : option bt_buf_simple) b bs :
  wf b -> Forall is_byte bs -> b_data b + b_len b + zlen bs <= b_size b ->
  m = ('(b, p) ← bt_buf_simple_add b (zlen bs); store_at b p bs) ->
  exists b', m = Some b' /\ wf b' /\ content b' = content b ++ bs /\ b_data b' = b_data b /\
    b_len b' = b_len b + zlen bs /\ b_size b' = b_size b.
Proof.
  intros Hb Hbs Hl ->. pose proof (add_refines b bs Hb Hbs) as Href.
  unfold view_add, view_of in Href. cbn [v_room v_bytes v_head] in Href.
  rewrite (proj2 (Z.leb_le _ _)) in Href by lia. simpl in Href.
  destruct ('(b, p) ← bt_buf_simple_add b (zlen bs); store_at b p bs) as [b'|]; [|done].
  destruct Href as (_ & Hw & Hv). unfold view_of in Hv. injection Hv as H1 H2 H3.
  pose proof (content_length b' Hw) as Hc. rewrite H2, length_app in Hc. pose proof (content_length b Hb).
  exists b'. split_and!; try done; lia.
Qed.

Lemma add_u8_run b x :
  wf b -> is_byte x -> b_data b + b_len b + 1 <= b_size b ->
  exists b', bt_buf_simple_add_u8 b x = Some b' /\ wf b' /\ content b' = content b ++ [x] /\ b_data b' = b_data b /\
    b_len b' = b_len b + 1 /\ b_size b' = b_size b.
Proof.
  intros Hb Hx Hl. apply (append_run _ b [x]); [done|by constructor|done|].
  unfold bt_buf_simple_add_u8. by rewrite u8_id.
Qed.

Lemma add_mem_run b bs :
  wf b -> Forall is_byte bs -> b_data b + b_len b + zlen bs <= b_size b ->
  exists b', bt_buf_simple_add_mem b bs = Some b' /\ wf b' /\ content b' = content b ++ bs /\ b_data b' = b_data b /\
    b_len b' = b_len b + zlen bs /\ b_size b' = b_size b.
Proof. intros Hb Hbs Hl. by apply (append_run _ b bs). Qed.

(** ** The header of a segment, read back *)

(** The distance of a segment from the first one of its message. *)
Lemma seq_delta seq0 seq :
  0 <= seq0 <= seq -> seq < seq0 + 2 ^ 13 ->
  Z.land (u64 (Z.land seq (BIT_MASK 14) - seq0 mod 2 ^ 13)) (BIT_MASK 13) = seq - seq0.
Proof.
  intros H0 H1. unfold BIT_MASK. rewrite !Z.land_ones by lia. unfold u64.
  rewrite <-Znumtheory.Zmod_div_mod by (done || by exists (2 ^ 51)).
  rewrite Zminus_mod, Z.mod_mod by done.
  rewrite <-(Znumtheory.Zmod_div_mod (2 ^ 13) (2 ^ 14)) by (done || by exists 2).
  rewrite <-Zminus_mod. apply Z.mod_small. lia.
Qed.

Lemma seg_parse_run hdr aszmic seq0 seg_o seg_n data buf net_rx iv :
  wf buf -> content buf = seg_pdu hdr aszmic (seq0 mod 2 ^ 13) seg_o seg_n data ->
  0 <= aszmic < 2 -> 0 <= seg_o < 32 -> 0 <= seg_n < 32 -> 0 <= seq0 <= rx_seq net_rx ->
  rx_seq net_rx < seq0 + 2 ^ 13 -> rx_seq net_rx < 2 ^ 64 ->
  exists buf', seg_parse buf net_rx iv =
      Some (mk_seg_hdr hdr aszmic (SEQ_AUTH (BT_MESH_NET_IVI_RX iv (rx_old_iv net_rx)) seq0) seg_o seg_n, buf') /\
    wf buf' /\ content buf' = data.
Proof.
  intros Hb Hc Ha Ho Hn Hq Hq1 Hq2. pose proof (Z.mod_pos_bound seq0 (2 ^ 13)) as Hz.
  rewrite seg_pdu_bytes in Hc by (done || lia). set (z := seq0 mod 2 ^ 13) in *.
  destruct (pull_run buf 1 [hdr] _ Hb Hc eq_refl) as (_ & E1 & Hw1 & Hc1 & _).
  destruct (pull_run (pulled buf 1) 2 [_; _] _ Hw1 Hc1 eq_refl) as (_ & _ & Hw2 & Hc2 & _).
  destruct (pull_run _ 1 [_] _ Hw2 Hc2 eq_refl) as (_ & _ & Hw3 & Hc3 & _).
  eexists. split; [|split; [exact Hw3|exact Hc3]]. unfold seg_parse.
  destruct (pull_run buf 2 [_; _] _ Hb Hc eq_refl) as (-> & _). simpl. rewrite E1. simpl.
  unfold bt_buf_simple_pull_be16. rewrite (pull_get_run _ 2 sys_get_be16 [_; _] _ Hw1 Hc1 eq_refl). simpl.
  rewrite (pull_u8_run _ _ _ Hw2 Hc2). simpl.
  set (b1 := aszmic * 128 + z / 64). set (b2 := z mod 64 * 4 + seg_o / 8). set (b3 := seg_o mod 8 * 32 + seg_n).
  assert (0 <= z / 64 < 128) as Hz1 by (split; [apply Z.div_pos; lia|apply Z.div_lt_upper_bound; lia]).
  assert (0 <= seg_o / 8 < 4) as Ho1 by (split; [apply Z.div_pos; lia|apply Z.div_lt_upper_bound; lia]).
  pose proof (Z.mod_pos_bound z 64 ltac:(lia)) as Hz2. pose proof (Z.mod_pos_bound seg_o 8 ltac:(lia)) as Ho2.
  pose proof (Z.div_mod z 64 ltac:(lia)) as Hz3. pose proof (Z.div_mod seg_o 8 ltac:(lia)) as Ho3.
  rewrite get_be16_val by (unfold is_byte, b1, b2; lia).
  assert (Z.land (Z.shiftr b1 7) 1 = aszmic) as ->.
  { change 1 with (Z.ones 1). rewrite Z.land_ones, Z.shiftr_div_pow2 by lia. change (2 ^ 7) with 128.
    change (2 ^ 1) with 2. unfold b1. rewrite Z.div_add_l, (Z.div_small (z / 64)) by lia. rewrite Z.mod_small; lia. }
  assert (Z.land b3 0x1f = seg_n) as ->.
  { change 0x1f with (Z.ones 5). rewrite Z.land_ones by lia. change (2 ^ 5) with 32. unfold b3.
    rewrite Z.add_comm, Z.mod_add, Z.mod_small; lia. }
  assert (Z.land (Z.shiftr (b1 * 256 + b2) 2) TRANS_SEQ_ZERO_MASK = z) as ->.
  { unfold TRANS_SEQ_ZERO_MASK, BIT_MASK. rewrite Z.land_ones, Z.shiftr_div_pow2 by lia. change (2 ^ 2) with 4.
    change (2 ^ 13) with 8192 in *. unfold b1, b2.
    replace ((aszmic * 128 + z / 64) * 256 + (z mod 64 * 4 + seg_o / 8))
      with ((aszmic * 8192 + z) * 4 + seg_o / 8) by lia.
    rewrite Z.div_add_l, (Z.div_small (seg_o / 8)) by lia. rewrite Z.add_0_r, Z.add_comm, Z.mod_add, Z.mod_small; lia. }
  assert (Z.lor (u8 (Z.shiftl (Z.land (b1 * 256 + b2) 3) 3)) (Z.shiftr b3 5) = seg_o) as ->.
  { change (Z.land (b1 * 256 + b2) 3) with (Z.land (b1 * 256 + b2) (Z.ones 2)). rewrite Z.land_ones, Z.shiftr_div_pow2 by lia. change (2 ^ 2) with 4. change (2 ^ 5) with 32.
    unfold b3. rewrite Z.div_add_l, (Z.div_small seg_n), Z.add_0_r by lia.
    replace (b1 * 256 + b2) with (seg_o / 8 + (b1 * 64 + z mod 64) * 4) by (unfold b2; lia).
    rewrite Z.mod_add, (Z.mod_small (seg_o / 8)) by lia. rewrite u8_id by (rewrite Z.shiftl_mul_pow2 by lia; simpl Z.pow; lia).
    rewrite lor_shl_add by (simpl Z.pow; lia). simpl Z.pow. lia. }
  unfold z. rewrite seq_delta by lia. replace (rx_seq net_rx - (rx_seq net_rx - seq0)) with seq0 by lia.
  unfold u64 at 1. rewrite (Z.mod_small seq0); [done|].
  change 18446744073709551616 with (2 ^ 64). lia.
Qed.

(** * Sending an acknowledgement *)

Section Ack.

Context {W : Type} `{MeshCryptoLaws W}.
Context (cfg : net_cfg) (tcfg : trans_cfg) (env : trans_env).
Notation st := (trans_node W).
Implicit Types s : st.

(** What a send leaves alone: the contexts, the pool, the replay list, the keys. *)
Definition send_kept s s' : Prop :=
  t_rx s' = t_rx s /\ t_tx s' = t_tx s /\ t_free s' = t_free s /\ sent_kept (t_net s) (t_net s') /\
  (n_iv (t_net s') = n_iv (t_net s) \/ n_iv (t_net s') = n_iv (took_seq cfg (te_net env) (t_net s))).

Definition advs_ok : Prop :=
  forall k adv, adv_create (te_net env) k = Some adv -> wf adv /\ b_len adv = 0 /\ 29 <= b_size adv.

(** The node can send an acknowledgement with these addresses. *)
Definition ack_ready (n : net_node W) (sub : nat) (src dst ttl : Z) (obo : bool) : Prop :=
  advs_ok /\ mc_ready (world n) /\
  forall t, resolve_ttl env ttl = Some t -> BT_MESH_ADDR_IS_UNICAST src = true ->
    let cred := tx_cred (sub_at sub (n_sub n)) in
    tx_ok (mk_tx sub (if obo then primary_addr env else src) dst t BT_MESH_KEY_UNUSED false) cred n /\
    exists r, cred_keys (world n) cred r.

Lemma send_kept_refl s : mc_ready (world (t_net s)) -> send_kept s s.
Proof. intros Hr. unfold send_kept, sent_kept. split_and!; try done. by left. Qed.

Lemma send_kept_log o s s' : send_kept s s' -> send_kept s (s' <| t_out ::= o |>).
Proof. done. Qed.

(** A call that sends: it does not fault, and leaves those alone. *)
Definition sends {A} (m : M st A) s : Prop := exists o s', m s = (o, s') /\ o <> Crash /\ send_kept s s'.

Lemma sends_ret {A} (a : A) s : mc_ready (world (t_net s)) -> sends (mret a) s.
Proof. intros Hr. exists (Ok a), s. split_and!; [done|done|by apply send_kept_refl]. Qed.

Lemma sends_fail {A} e s : mc_ready (world (t_net s)) -> sends (fail (A := A) e) s.
Proof. intros Hr. exists (Err e), s. split_and!; [done|done|by apply send_kept_refl]. Qed.

Lemma sends_attempt {A} (m : M st A) s :
  sends m s -> exists r s', attempt m s = (Ok r, s') /\ send_kept s s'.
Proof.
  intros (o & s' & E & Ho & Hk). unfold attempt. rewrite E.
  destruct o as [a|e|]; [by exists (inl a), s'|by exists (inr e), s'|done].
Qed.

Lemma sends_log {A} o (m : M st A) s : sends m (s <| t_out ::= (fun l => l ++ [o]) |>) -> sends (_ ← log o; m) s.
Proof. intros (r & s' & E & Ho & Hk). by exists r, s'. Qed.

Lemma sends_gets {A B} (f : st -> A) (m : A -> M st B) s : sends (m (f s)) s -> sends (x ← gets f; m x) s.
Proof. done. Qed.

Lemma sends_checked {A B} (o : option A) a (m : A -> M st B) s :
  o = Some a -> sends (m a) s -> sends (x ← checked o; m x) s.
Proof. by intros ->. Qed.

(** The network layer takes a PDU in a buffer of an advertiser. *)
Lemma net_send_sends tx xmit buf s :
  tx_friend_cred tx = false -> tx_app_idx tx = BT_MESH_KEY_UNUSED ->
  let cred := tx_cred (sub_at (tx_sub tx) (n_sub (t_net s))) in
  tx_ok tx cred (t_net s) -> (exists r, cred_keys (world (t_net s)) cred r) -> mc_ready (world (t_net s)) ->
  wf buf -> b_data buf = 9 -> 1 <= b_len buf <= 12 -> 29 <= b_size buf ->
  sends (net_send cfg env tx xmit buf (send_cb_finalize None)) s.
Proof.
  intros Hf Ha cred Htx [r Hk] Hr Hb Hd Hl Hz.
  destruct (net_send_run cfg (te_net env) xmit tx buf r (t_net s)) as (res & n' & E & Hi & Hks & _ & _ & Hres);
    try done; [lia|lia|unfold tx_mic; rewrite Ha; simpl; lia|].
  set (s' := s <| t_net := n' |>).
  assert (send_kept s s') as Hkept by (split_and!; try done; by right).
  assert (in_net (bt_mesh_net_send cfg (te_net env) tx xmit buf) s = (res, s')) as En by (unfold in_net; by rewrite E).
  exists res, s'. split_and!; [|destruct (_ && _); [|destruct (_ =? 1)]; destruct Hres as [-> _]; try done; by destruct (negb _)|done].
  unfold net_send, mbind, M_bind, gets. rewrite En. destruct res as [[]|e|]; [by destruct (existsb _ _)|done|done].
Qed.

Lemma reserve_run adv :
  wf adv -> b_len adv = 0 -> 9 <= b_size adv ->
  exists b, bt_buf_simple_reserve adv 9 = Some b /\ wf b /\ content b = [] /\ b_data b = 9 /\ b_len b = 0 /\
    b_size b = b_size adv.
Proof.
  intros Hb Hl Hz. unfold bt_buf_simple_reserve, assert. rewrite Hl. simpl. eexists. split; [done|].
  split_and!; try done; [|unfold content; simpl; by rewrite Hl].
  destruct Hb. split; simpl; try done; lia.
Qed.

(** What an unsegmented control message of at most 11 bytes needs. *)
Lemma ctl_unseg_sends tx payload s :
  let net := tt_net tx in
  tx_friend_cred net = false -> tx_app_idx net = BT_MESH_KEY_UNUSED ->
  let cred := tx_cred (sub_at (tx_sub net) (n_sub (t_net s))) in
  tx_ok net cred (t_net s) -> (exists r, cred_keys (world (t_net s)) cred r) -> mc_ready (world (t_net s)) ->
  advs_ok -> Forall is_byte payload -> zlen payload <= 11 ->
  sends (send_unseg cfg env tx (bt_buf_simple_init_with_data payload (zlen payload)) None (Some 0)) s.
Proof.
  intros net Hf Ha cred Htx Hk Hr Hadv Hp Hl. unfold send_unseg. fold net. apply sends_gets.
  destruct (adv_create (te_net env) (length (n_out (t_net s)))) as [adv|] eqn:Ea; [|by apply sends_fail].
  destruct (Hadv _ _ Ea) as (Hwa & Hza & Hsa).
  destruct (reserve_run adv Hwa Hza ltac:(lia)) as (b1 & E1 & Hw1 & Hc1 & Hd1 & Hl1 & Hz1).
  destruct (add_u8_run b1 0 Hw1 ltac:(done) ltac:(lia)) as (b2 & E2 & Hw2 & Hc2 & Hd2 & Hl2 & Hz2).
  destruct (add_mem_run b2 payload Hw2 Hp ltac:(lia)) as (b3 & E3 & Hw3 & Hc3 & Hd3 & Hl3 & Hz3).
  assert (forall s', t_net s' = t_net s -> sends (net_send cfg env net (tt_xmit tx) b3 (send_cb_finalize None)) s') as Hsend.
  { intros s' En. apply net_send_sends; rewrite ?En; try done; lia. }
  apply (sends_checked _ _ _ _ E1), (sends_checked _ _ _ _ E2), (sends_checked _ payload).
  { unfold bt_buf_simple_init_with_data. cbn [b_store b_data b_len]. rewrite u16_id by lia.
    rewrite mem_read_some by lia. unfold slice. rewrite drop_0. f_equal. apply take_ge. lia. }
  apply (sends_checked _ _ _ _ E3). destruct (c_friend cfg); [|by apply Hsend]. apply sends_gets.
  destruct (negb _).
  - destruct (BT_MESH_ADDR_IS_UNICAST _); [by apply sends_fail|by apply Hsend].
  - eapply sends_checked; [rewrite <-(Z.add_0_r (b_data b3)); apply read_content; done || lia|]. apply sends_log.
    destruct (_ && _); [by apply sends_ret|by apply Hsend].
Qed.

Lemma send_ack_run sub src dst ttl seq_auth block obo s :
  ack_ready (t_net s) sub src dst ttl obo ->
  exists r s', attempt (send_ack cfg tcfg env sub src dst ttl seq_auth block obo) s = (Ok r, s') /\ send_kept s s'.
Proof.
  intros (Hadv & Hr & Hok). apply sends_attempt. unfold send_ack. apply sends_gets. unfold id.
  destruct (lpn_established env && _); [by apply sends_ret|].
  destruct (BT_MESH_ADDR_IS_UNICAST src) eqn:Hu; cbn [negb]; [|by apply sends_ret].
  set (payload := sys_put_be16 _ ++ sys_put_be32 _).
  assert (Forall is_byte payload) as Hpb.
  { apply Forall_app; split;
      [apply (codec_bytes (e := BE) (n := 2) (get := sys_get_be16))|apply (codec_bytes (e := BE) (n := 4) (get := sys_get_be32))]. }
  assert (zlen payload = 6) as Hpl by done.
  unfold bt_mesh_ctl_send. cbn [tt_net tx_send_ttl].
  destruct (resolve_ttl env ttl) as [t|]; [|by apply sends_fail].
  destruct (Hok t eq_refl eq_refl) as [Htx Hk]. cbn [tx_dst set_tx_app_idx set_tx_ttl].
  destruct ((dst =? _) || _); [by apply sends_fail|]. cbn [tt_send_rel orb]. rewrite Hpl at 1.
  cbn [Z.ltb Z.compare BT_MESH_SDU_UNSEG_MAX Pos.compare Pos.compare_cont].
  apply ctl_unseg_sends; done.
Qed.

End Ack.

(** * Sets of segments *)

(** A bitmap of the segments of a list. *)
Definition block_of (b : Z) (got : list nat) : Prop :=
  0 <= b /\ forall j, 0 <= j -> Z.testbit b j = bool_decide (Z.to_nat j ∈ got).

Lemma BIT_spec o j : 0 <= o -> 0 <= j -> Z.testbit (BIT o) j = (j =? o).
Proof.
  intros Ho Hj. unfold BIT. rewrite Z.shiftl_1_l. destruct (Z.eqb_spec j o) as [->|Hne].
  - by apply Z.pow2_bits_true.
  - apply Z.pow2_bits_false. lia.
Qed.

Lemma bit_test b o : 0 <= o -> negb (Z.land (BIT o) b =? 0) = Z.testbit b o.
Proof.
  intros Ho. destruct (Z.testbit b o) eqn:Hb.
  - apply negb_true_iff, Z.eqb_neq. intros E. apply (f_equal (fun x => Z.testbit x o)) in E.
    rewrite Z.land_spec, Hb, BIT_spec, Z.eqb_refl, Z.bits_0 in E by done. done.
  - apply negb_false_iff, Z.eqb_eq, Z.bits_inj_iff'. intros j Hj.
    rewrite Z.land_spec, BIT_spec, Z.bits_0 by done. destruct (Z.eqb_spec j o) as [->|]; [by rewrite Hb|done].
Qed.

Lemma block_of_nil : block_of 0 [].
Proof. split; [done|]. intros j Hj. rewrite Z.bits_0. symmetry. by apply bool_decide_eq_false_2, not_elem_of_nil. Qed.

Lemma block_of_add b got k : block_of b got -> block_of (Z.lor b (BIT (Z.of_nat k))) (k :: got).
Proof.
  intros [Hb Hj]. split; [apply Z.lor_nonneg; split; [done|]; unfold BIT; rewrite Z.shiftl_1_l; lia|].
  intros j Hj0. rewrite Z.lor_spec, Hj, BIT_spec by lia.
  destruct (Z.eqb_spec j (Z.of_nat k)) as [->|Hne].
  - rewrite orb_true_r, Nat2Z.id. symmetry. apply bool_decide_eq_true_2. by left.
  - rewrite orb_false_r. apply bool_decide_ext. rewrite elem_of_cons. split; [by right|]. intros [?|?]; [lia|done].
Qed.

Lemma block_complete_ones n : 0 <= n < 32 -> BLOCK_COMPLETE n = Z.ones (n + 1).
Proof.
  intros Hn. unfold BLOCK_COMPLETE, Z.ones. rewrite Z.shiftl_1_l, <-Z.sub_1_r. apply u32_id.
  assert (0 < 2 ^ (n + 1) <= 2 ^ 32) as Hp by (split; [lia|apply Z.pow_le_mono_r; lia]).
  change (2 ^ 32) with 4294967296 in Hp. lia.
Qed.

(** The bitmap is full exactly when every segment is there. *)
Lemma block_complete b got n :
  0 <= n < 32 -> block_of b got -> (forall k, k ∈ got -> Z.of_nat k <= n) ->
  b = BLOCK_COMPLETE n <-> (forall k : nat, Z.of_nat k <= n -> k ∈ got).
Proof.
  intros Hn [Hb Hj] Hle. rewrite block_complete_ones by done. split.
  - intros -> k Hk. apply (bool_decide_eq_true_1 _). rewrite <-(Nat2Z.id k), <-Hj by lia.
    apply Z.ones_spec_low. lia.
  - intros Hall. apply Z.bits_inj_iff'. intros j Hj0. rewrite Hj, Z.testbit_ones_nonneg by lia.
    destruct (Z.ltb_spec j (n + 1)).
    + apply bool_decide_eq_true_2, Hall. lia.
    + apply bool_decide_eq_false_2. intros Hin. apply Hle in Hin. lia.
Qed.

(** * Reassembly *)

Section Reassembly.

Context {W : Type} `{MeshCryptoLaws W}.
Context (cfg : net_cfg) (tcfg : trans_cfg) (env : trans_env).
Notation st := (trans_node W).
Implicit Types s : st.

(** A message for the access layer as the sender cuts it up: the addresses, the first byte
    of its segments, the size of its MIC, the IV Index and the sequence number
    it is sealed under, and the sealed message. *)
Record message := mk_message {
  m_src : Z;
  m_dst : Z;
  m_hdr : Z;
  m_aszmic : Z;
  m_iv : Z;
  m_seq0 : Z;
  m_data : list Z
}.
Implicit Types m : message.

Definition m_auth m : Z := SEQ_AUTH (m_iv m) (m_seq0 m).
(** The index of the last segment. *)
Definition m_n m : Z := (zlen (m_data m) - 1) / 12.
Definition piece m (k : nat) : list Z := take 12 (drop (12 * k) (m_data m)).

Definition message_ok m : Prop :=
  1 <= zlen (m_data m) /\ m_n m < BT_MESH_RX_SEG_MAX tcfg <= 32 /\ 0 <= m_aszmic m < 2 /\ 0 <= m_seq0 m /\
  Forall is_byte (m_data m).

(** What the network layer says about segment [k] of the message. *)
Record metadata m s (net_rx : bt_mesh_net_rx) (k : nat) : Prop := {
  ar_index : Z.of_nat k <= m_n m;
  ar_src : rx_addr net_rx = m_src m;
  ar_dst : rx_recv_dst net_rx = m_dst m;
  ar_ctl : rx_ctl net_rx = false;
  ar_local : rx_local_match net_rx = true;
  ar_seq : m_seq0 m <= rx_seq net_rx < m_seq0 m + 2 ^ 13;
  ar_seq_bound : rx_seq net_rx < 2 ^ 64;
  ar_iv : BT_MESH_NET_IVI_RX (n_iv (t_net s)) (rx_old_iv net_rx) = m_iv m
}.

(** The segment, as the network layer delivers it. *)
Record segment_of m s (x : bt_mesh_net_rx * bt_buf_simple) (k : nat) : Prop := {
  ar_wf : wf x.2;
  ar_content : content x.2 = seg_pdu (m_hdr m) (m_aszmic m) (m_seq0 m mod 2 ^ 13) (Z.of_nat k) (m_n m) (piece m k);
  ar_meta : metadata m s x.1 k
}.

(** One that the replay list lets through, with its message. *)
Record arrival m s (x : bt_mesh_net_rx * bt_buf_simple) (k : nat) : Prop := {
  ar_segment : segment_of m s x k;
  ar_fresh : exists slot,
    bt_mesh_rpl_check (c_settings cfg) (c_rpl_timeout cfg) x.1 true false (n_rpl (t_net s)) =
      (false, slot, n_rpl (t_net s)) /\
    forall k, slot = Some k -> let e := Rpl.slot (n_rpl (t_net s)) k in
      rpl_src e = 0 \/ rpl_seg e < Z.land (m_auth m) (BIT_MASK 24) \/ (rpl_old_iv e = true /\ rx_old_iv x.1 = false)
}.

(** A free context is there for the message and blocks for all its segments. *)
Record fresh m (i : nat) s : Prop := {
  fr_none : seg_rx_find_scan (m_src m) (m_dst m) (m_auth m) (t_rx s) 0 = None;
  fr_slot : free_rx_scan (t_rx s) 0 = Some i;
  fr_seg : sr_seg (rx_at i s) = replicate (Z.to_nat (BT_MESH_RX_SEG_MAX tcfg)) None;
  fr_free : (Z.to_nat (m_n m) < t_free s)%nat
}.

(** Context [i] holds the segments [got] of the message. *)
Record holding m (i : nat) (got : list nat) s : Prop := {
  ho_index : (i < length (t_rx s))%nat;
  ho_found : seg_rx_find_scan (m_src m) (m_dst m) (m_auth m) (t_rx s) 0 = Some (i, true);
  ho_in_use : sr_in_use (rx_at i s) = true;
  ho_hdr : sr_hdr (rx_at i s) = m_hdr m;
  ho_seg_n : sr_seg_n (rx_at i s) = m_n m;
  ho_src : sr_src (rx_at i s) = m_src m;
  ho_dst : sr_dst (rx_at i s) = m_dst m;
  ho_auth : sr_seq_auth (rx_at i s) = m_auth m;
  ho_ctl : sr_ctl (rx_at i s) = false;
  ho_nodup : NoDup got;
  ho_below : forall k, k ∈ got -> Z.of_nat k <= m_n m;
  ho_block : block_of (sr_block (rx_at i s)) got;
  ho_length : length (sr_seg (rx_at i s)) = Z.to_nat (BT_MESH_RX_SEG_MAX tcfg);
  ho_seg : forall k, (k < length (sr_seg (rx_at i s)))%nat ->
    sr_seg (rx_at i s) !! k = Some (if decide (k ∈ got) then Some (piece m k) else None);
  ho_len : Z.to_nat (m_n m) ∈ got -> sr_len (rx_at i s) = zlen (m_data m);
  ho_free : (Z.to_nat (m_n m) + 1 - length got <= t_free s)%nat
}.

Lemma m_n_range m : message_ok m -> 0 <= m_n m < 32 /\ m_n m * 12 < zlen (m_data m) <= m_n m * 12 + 12.
Proof.
  intros (Hl & Hn & _). unfold m_n in *. pose proof (Z.div_mod (zlen (m_data m) - 1) 12 ltac:(lia)).
  pose proof (Z.mod_pos_bound (zlen (m_data m) - 1) 12 ltac:(lia)). split; [split; [apply Z.div_pos; lia|lia]|lia].
Qed.

Lemma piece_length m k :
  message_ok m -> Z.of_nat k <= m_n m ->
  zlen (piece m k) = if Z.of_nat k =? m_n m then zlen (m_data m) - m_n m * 12 else 12.
Proof.
  intros Hm Hk. destruct (m_n_range m Hm) as [Hn Hd]. unfold piece. rewrite length_take, length_drop.
  case_if; bool_to_prop; lia.
Qed.

(** ** The scans *)

Lemma find_scan_new src dst auth f (l : list seg_rx) i k :
  seg_rx_find_scan src dst auth l k = None -> (i < length l)%nat ->
  sr_src (f (l !!! i)) = src -> sr_dst (f (l !!! i)) = dst -> sr_seq_auth (f (l !!! i)) = auth ->
  seg_rx_find_scan src dst auth (alter f i l) k = Some ((k + i)%nat, true).
Proof.
  revert i k. induction l as [|r l IH]; intros i k Hs Hi E1 E2 E3; [simpl in Hi; lia|].
  destruct i as [|i]; cbn [seg_rx_find_scan] in *.
  - change (alter f 0%nat (r :: l)) with (f r :: l). cbn [seg_rx_find_scan]. simpl in E1, E2, E3.
    rewrite E1, E2, E3, !Z.eqb_refl, Z.leb_refl, Nat.add_0_r. done.
  - change (alter f (S i) (r :: l)) with (r :: alter f i l). cbn [seg_rx_find_scan]. simpl in Hi, E1, E2, E3.
    destruct (_ || _); [|destruct (_ <=? _); [done|]; destruct (sr_in_use r); [done|]];
      rewrite (IH i (S k)) by (done || lia); do 2 f_equal; lia.
Qed.

Lemma find_scan_keep src dst auth f (l : list seg_rx) i k :
  seg_rx_find_scan src dst auth l k = Some ((k + i)%nat, true) ->
  sr_src (f (l !!! i)) = src -> sr_dst (f (l !!! i)) = dst -> sr_seq_auth (f (l !!! i)) = auth ->
  seg_rx_find_scan src dst auth (alter f i l) k = Some ((k + i)%nat, true).
Proof.
  revert i k. induction l as [|r l IH]; intros i k Hs E1 E2 E3; [done|].
  destruct i as [|i]; cbn [seg_rx_find_scan] in *.
  - change (alter f 0%nat (r :: l)) with (f r :: l). cbn [seg_rx_find_scan]. simpl in E1, E2, E3.
    rewrite E1, E2, E3, !Z.eqb_refl, Z.leb_refl, Nat.add_0_r. done.
  - change (alter f (S i) (r :: l)) with (r :: alter f i l). cbn [seg_rx_find_scan]. simpl in E1, E2, E3.
    replace (k + S i)%nat with (S k + i)%nat in * by lia.
    destruct (_ || _); [by apply IH|]. destruct (_ <=? _).
    + injection Hs as Hs. lia.
    + destruct (sr_in_use r); [done|]. by apply IH.
Qed.

Lemma free_scan_spec l k i :
  free_rx_scan l k = Some i -> (k <= i)%nat /\ (i - k < length l)%nat /\ sr_in_use (l !!! (i - k)%nat) = false.
Proof.
  revert k. induction l as [|r l IH]; intros k Hs; simpl in Hs; [done|].
  destruct (sr_in_use r) eqn:Hr.
  - apply IH in Hs as (H1 & H2 & H3). replace (i - k)%nat with (S (i - S k)) by lia. simpl. split_and!; [lia|lia|done].
  - injection Hs as <-. rewrite Nat.sub_diag. simpl. split_and!; [lia|lia|done].
Qed.

(** ** Changes of a context *)

Notation upd i f s := (s <| t_rx ::= alter f i |>).

Lemma rx_at_upd i f s : (i < length (t_rx s))%nat -> rx_at i (upd i f s) = f (rx_at i s).
Proof. intros Hi. unfold rx_at. cbn. by rewrite list_lookup_total_alter_eq. Qed.

Lemma alter_twice {A} (f g : A -> A) i (l : list A) : alter f i (alter g i l) = alter (fun x => f (g x)) i l.
Proof.
  apply list_eq. intros j. destruct (decide (i = j)) as [->|Hne].
  - rewrite !list_lookup_alter_eq. by destruct (l !! j).
  - by rewrite !list_lookup_alter_ne.
Qed.

Lemma alter_same {A} (f : A -> A) i (l : list A) : (forall x, l !! i = Some x -> f x = x) -> alter f i l = l.
Proof.
  intros Hf. apply list_eq. intros j. destruct (decide (i = j)) as [->|Hne].
  - rewrite list_lookup_alter_eq. destruct (l !! j) as [x|] eqn:E; [|done]. simpl. by rewrite Hf.
  - by rewrite list_lookup_alter_ne.
Qed.

Lemma upd_twice f g i s : upd i f (upd i g s) = upd i (fun x => f (g x)) s.
Proof. destruct s. cbn. unfold setter. cbn. by rewrite alter_twice. Qed.

(** A change that does not concern the segments. *)
Record same_segs (m : message) (got : list nat) (r r' : seg_rx) : Prop := {
  ss_in_use : sr_in_use r' = sr_in_use r;
  ss_hdr : sr_hdr r' = sr_hdr r;
  ss_seg_n : sr_seg_n r' = sr_seg_n r;
  ss_src : sr_src r' = sr_src r;
  ss_dst : sr_dst r' = sr_dst r;
  ss_auth : sr_seq_auth r' = sr_seq_auth r;
  ss_ctl : sr_ctl r' = sr_ctl r;
  ss_block : sr_block r' = sr_block r;
  ss_seg : sr_seg r' = sr_seg r;
  ss_len : Z.to_nat (m_n m) ∈ got -> sr_len r' = sr_len r
}.

Lemma holding_frame m i got f s :
  holding m i got s -> same_segs m got (rx_at i s) (f (rx_at i s)) -> holding m i got (upd i f s).
Proof.
  intros [] []. split; rewrite ?rx_at_upd by done; try congruence; try done.
  - cbn. by rewrite length_alter.
  - cbn. rewrite <-(Nat.add_0_l i). apply find_scan_keep; [done| | |]; fold (rx_at i s); congruence.
  - intros k Hk. rewrite ss_seg0 in Hk |- *. by apply ho_seg0.
  - intros Hin. rewrite ss_len0 by done. by apply ho_len0.
Qed.

(** A segment more. *)
Lemma holding_add m i got k s :
  message_ok m -> holding m i got s -> k ∉ got -> Z.of_nat k <= m_n m ->
  (k = Z.to_nat (m_n m) -> sr_len (rx_at i s) = zlen (m_data m)) ->
  holding m i (k :: got)
    (upd i (fun rx => rx <| sr_seg ::= <[k := Some (piece m k)]> |>
                         <| sr_block ::= (fun b => Z.lor b (BIT (Z.of_nat k))) |>)
       (s <| t_free := (t_free s - 1)%nat |>)).
Proof.
  intros Hm Hh Hk Hkn Hlen. destruct (m_n_range m Hm) as [Hn _]. destruct Hm as (_ & Hmax & _).
  destruct Hh. set (s1 := s <| t_free := _ |>).
  assert (rx_at i s1 = rx_at i s) as E1 by done. assert (t_rx s1 = t_rx s) as E2 by done.
  split; rewrite ?rx_at_upd, ?E1 by done; try done.
  - cbn. by rewrite length_alter.
  - cbn. rewrite <-(Nat.add_0_l i). by apply find_scan_keep.
  - by constructor.
  - intros j [->|?]%elem_of_cons; [done|by apply ho_below0].
  - by apply block_of_add.
  - cbn. by rewrite length_insert.
  - cbn. intros j Hj. rewrite length_insert in Hj.
    destruct (decide (k = j)) as [->|Hne].
    + rewrite list_lookup_insert_eq by done. rewrite decide_True by by left. done.
    + rewrite list_lookup_insert_ne by done. rewrite ho_seg0 by done. do 2 f_equal.
      apply decide_ext. rewrite elem_of_cons. split; [by right|]. intros [?|?]; [congruence|done].
  - cbn. intros [E|Hin]%elem_of_cons; [by apply Hlen|by apply ho_len0].
  - cbn. lia.
Qed.

(** A context in use, with none of the segments. *)
Lemma holding_new m i f s :
  message_ok m -> fresh m i s ->
  (let r := f (rx_at i s) in sr_in_use r = true /\ sr_hdr r = m_hdr m /\ sr_seg_n r = m_n m /\ sr_src r = m_src m /\
     sr_dst r = m_dst m /\ sr_seq_auth r = m_auth m /\ sr_ctl r = false /\ sr_block r = 0 /\
     sr_seg r = sr_seg (rx_at i s)) ->
  holding m i [] (upd i f s).
Proof.
  intros Hm [Hnone Hslot Hseg Hfree] (E1 & E2 & E3 & E4 & E5 & E6 & E7 & E8 & E9).
  apply free_scan_spec in Hslot as (_ & Hi & _). rewrite Nat.sub_0_r in Hi.
  split; rewrite ?rx_at_upd by done; try done.
  - cbn. by rewrite length_alter.
  - cbn. rewrite <-(Nat.add_0_l i). by apply find_scan_new.
  - constructor.
  - by intros k ?%not_elem_of_nil.
  - rewrite E8. apply block_of_nil.
  - by rewrite E9, Hseg, length_replicate.
  - rewrite E9, Hseg, length_replicate. intros k Hk. by rewrite lookup_replicate_2.
  - by intros ?%not_elem_of_nil.
  - cbn. lia.
Qed.

(** ** The context of a segment *)

Definition header_of m (k : nat) : seg_header := mk_seg_hdr (m_hdr m) (m_aszmic m) (m_auth m) (Z.of_nat k) (m_n m).

Lemma context_found m i got x k rpl s :
  holding m i got s -> segment_of m s x k ->
  seg_context cfg tcfg env x.1 (header_of m k) rpl s = (Ok i, s).
Proof.
  intros [] [_ _ []]. unfold seg_context, seg_rx_find, mbind, M_bind, gets. cbn [sh_seq_auth header_of].
  rewrite ar_src0, ar_dst0, ho_found0. cbn [mret M_ret]. rewrite ho_auth0, Z.ltb_irrefl.
  unfold seg_rx_is_valid. cbn [sh_hdr sh_seg_n header_of].
  rewrite ho_hdr0, ho_seg_n0, ho_src0, ho_dst0, ho_ctl0, ar_src0, ar_dst0, ar_ctl0, !Z.eqb_refl, ho_in_use0. done.
Qed.

(** The replay list lets the message through. *)
Definition seg_not_old m rpl (old_iv : bool) s : Prop :=
  forall k, rpl = Some k -> let e := Rpl.slot (n_rpl (t_net s)) k in
    rpl_src e = 0 \/ rpl_seg e < Z.land (m_auth m) (BIT_MASK 24) \/ (rpl_old_iv e = true /\ old_iv = false).

Lemma context_new m i x k rpl s :
  message_ok m -> fresh m i s -> segment_of m s x k -> seg_not_old m rpl (rx_old_iv x.1) s ->
  exists f, seg_context cfg tcfg env x.1 (header_of m k) rpl s = (Ok i, upd i f s) /\ holding m i [] (upd i f s).
Proof.
  intros Hm Hf Ha Hold. pose proof Hf as [Hnone Hslot Hseg Hfree]. pose proof Hm as (Hl & Hmax & Hrest).
  pose proof Hslot as Hs. apply free_scan_spec in Hs as (_ & Hi & _). rewrite Nat.sub_0_r in Hi.
  destruct Ha as [_ _ []].
  set (f1 := fun rx : seg_rx => rx <| sr_in_use := true |> <| sr_sub := Z.to_nat (rx_sub x.1) |>
              <| sr_ctl := rx_ctl x.1 |> <| sr_seq_auth := m_auth m |> <| sr_seg_n := m_n m |> <| sr_hdr := m_hdr m |>
              <| sr_ttl := rx_send_ttl x.1 |> <| sr_src := rx_addr x.1 |> <| sr_dst := rx_recv_dst x.1 |>
              <| sr_block := 0 |>).
  set (f2 := fun rx : seg_rx => rx <| sr_obo := rx_friend_match x.1 |>).
  exists (fun r => f2 (f1 r)). split.
  - unfold seg_context, seg_rx_find, mbind, M_bind, gets, id. cbn [sh_seq_auth sh_seg_n header_of].
    rewrite ar_src0, ar_dst0, Hnone. cbn [mret M_ret]. unfold sdu_len_is_ok.
    rewrite (proj2 (Z.ltb_lt _ _)) by lia. rewrite ar_local0, andb_false_r. cbn [negb andb].
    assert (match rpl with
      | Some k => negb (rpl_src (Rpl.slot (n_rpl (t_net s)) k) =? 0) &&
          (Z.land (m_auth m) (BIT_MASK 24) <=? rpl_seg (Rpl.slot (n_rpl (t_net s)) k)) &&
          (negb (rpl_old_iv (Rpl.slot (n_rpl (t_net s)) k)) || rx_old_iv x.1)
      | None => false end = false) as ->.
    { destruct rpl as [j|]; [|done]. destruct (Hold j eq_refl) as [->|[Hlt|[-> ->]]]; [done| |by rewrite andb_false_r].
      rewrite (proj2 (Z.leb_gt _ _)) by done. by rewrite andb_false_r. }
    unfold seg_rx_alloc, mbind, M_bind, gets, id, on_rx, change.
    rewrite (proj2 (Nat.ltb_ge (t_free s) 1)) by lia. rewrite Hslot. cbn [mret M_ret].
    f_equal. apply (upd_twice f2 f1).
  - apply holding_new; [done|done|]. cbn. by split_and!.
Qed.

(** ** Keeping a segment *)

Notation store := (seg_store cfg tcfg env).

Lemma store_again access_recv ctl_handler m i got x k rpl data s :
  holding m i got s -> k ∈ got -> store access_recv ctl_handler i x (header_of m k) rpl data s = (Err (- EALREADY), s).
Proof.
  intros [] Hk. unfold seg_store, mbind, M_bind, gets. cbn [sh_seg_o header_of].
  rewrite bit_test by lia. destruct ho_block0 as [_ Hb]. rewrite Hb, Nat2Z.id by lia.
  by rewrite bool_decide_eq_true_2.
Qed.

Lemma nodup_below (l : list nat) n : NoDup l -> (forall k, k ∈ l -> (k <= n)%nat) -> (length l <= n + 1)%nat.
Proof.
  intros Hnd Hle. rewrite <-(length_seq (n + 1) 0). apply submseteq_length, NoDup_submseteq; [done|].
  intros k Hk. apply elem_of_seq. apply Hle in Hk. lia.
Qed.

(** The piece with the highest index tells the length of the message. *)
Lemma last_length m k :
  message_ok m -> k = Z.to_nat (m_n m) ->
  u16 (m_n m * 12 + zlen (piece m k)) = zlen (m_data m) /\ zlen (m_data m) <= BT_MESH_RX_SDU_MAX tcfg.
Proof.
  intros Hm ->. destruct (m_n_range m Hm) as [Hn Hd]. rewrite (piece_length m) by (done || lia).
  rewrite Z2Nat.id, Z.eqb_refl by lia. destruct Hm as (Hl & Hmax & _). unfold BT_MESH_RX_SDU_MAX, BT_MESH_APP_SEG_SDU_MAX.
  split; [rewrite u16_id; lia|lia].
Qed.

Lemma store_new m i got k x rpl s :
  message_ok m -> holding m i got s -> k ∉ got -> Z.of_nat k <= m_n m ->
  exists s1, holding m i (k :: got) s1 /\ t_net s1 = t_net s /\ (t_free s1 + 1 = t_free s)%nat /\
    forall access_recv ctl_handler, store access_recv ctl_handler i x (header_of m k) rpl (piece m k) s =
      (if negb (sr_block (rx_at i s1) =? BLOCK_COMPLETE (m_n m)) then
         mret (BT_MESH_FRIEND_PDU_PARTIAL, m_auth m, m_n m + 1)
       else
         r ← seg_complete cfg tcfg env access_recv ctl_handler i x (header_of m k) rpl;
         match r with
         | inl q => mret (BT_MESH_FRIEND_PDU_COMPLETE, q, m_n m + 1)
         | inr err => fail err
         end) s1.
Proof.
  intros Hm Hh Hk Hkn. destruct (m_n_range m Hm) as [Hn Hd]. pose proof (piece_length m k Hm Hkn) as Hpl.
  assert (0 < t_free s)%nat as Hfree.
  { pose proof (nodup_below (k :: got) (Z.to_nat (m_n m))) as Hc. destruct Hh.
    cbn [length] in Hc. specialize (Hc ltac:(by constructor)). lapply Hc; [lia|].
    intros j [->|Hj]%elem_of_cons; [lia|]. apply ho_below0 in Hj. lia. }
  assert (i < length (t_rx s))%nat as Hi by apply Hh.
  (* the length of the message comes with its last segment *)
  set (sa := if Z.of_nat k =? m_n m then upd i (fun r => r <| sr_len := zlen (m_data m) |>) s else s).
  assert (holding m i got sa /\ (k = Z.to_nat (m_n m) -> sr_len (rx_at i sa) = zlen (m_data m)) /\
          t_net sa = t_net s) as (Ha & Hal & Han).
  { unfold sa. destruct (Z.eqb_spec (Z.of_nat k) (m_n m)) as [E|Hne]; [|split_and!; [done|lia|done]].
    split_and!; [|intros _; by rewrite rx_at_upd|done]. apply holding_frame; [done|]. split; try done.
    rewrite <-E, Nat2Z.id. by intros ?. }
  set (f2 := fun r : seg_rx => r <| sr_discard ::= (fun t => match t with
               None => Some (BT_MESH_SAR_RX_DISCARD_TIMEOUT_MS tcfg) | _ => t end) |>
               <| sr_attempts_left := BT_MESH_SAR_RX_ACK_RETRANS_COUNT tcfg |>).
  set (f3 := fun r : seg_rx => r <| sr_ack := Some (ACK_DELAY tcfg (sr_seg_n r)) |>).
  set (sc := if negb (lpn_established env) && BT_MESH_ADDR_IS_UNICAST (sr_dst (rx_at i s)) then upd i f3 (upd i f2 sa)
             else upd i f2 sa).
  assert (holding m i got sc /\ (k = Z.to_nat (m_n m) -> sr_len (rx_at i sc) = zlen (m_data m)) /\
          t_net sc = t_net s) as (Hc & Hcl & Hcn).
  { assert (i < length (t_rx sa))%nat by apply Ha.
    assert (holding m i got (upd i f2 sa)) as Hb by (apply holding_frame; [done|by split]).
    unfold sc. destruct (_ && _).
    - split_and!; [apply holding_frame; [done|by split]| |done]. intros Ek.
      rewrite !rx_at_upd by (cbn; rewrite ?length_alter; done). by apply Hal.
    - split_and!; [done| |done]. intros Ek. rewrite !rx_at_upd by done. by apply Hal. }
  assert (t_free sc = t_free s) as Efree.
  { unfold sc, sa. by destruct (_ && _), (_ =? _). }
  exists (upd i (fun rx => rx <| sr_seg ::= <[k := Some (piece m k)]> |>
                         <| sr_block ::= (fun b => Z.lor b (BIT (Z.of_nat k))) |>)
       (sc <| t_free := (t_free sc - 1)%nat |>)).
  split; [by apply holding_add|]. split; [done|]. split; [cbn; lia|]. intros access_recv ctl_handler.
  unfold seg_store. rewrite (bind_ok (gets (rx_at i)) _ s (rx_at i s) s) by done.
  cbn [sh_seg_o sh_seg_n header_of]. rewrite bit_test by lia.
  destruct (ho_block _ _ _ _ Hh) as [_ Hb]. rewrite Hb, Nat2Z.id, bool_decide_eq_false_2 by (done || lia).
  rewrite (ho_ctl _ _ _ _ Hh). unfold seg_len, BT_MESH_APP_SEG_SDU_MAX.
  rewrite (bind_ok _ _ s () sa); last first.
  { unfold sa. destruct (Z.eqb_spec (Z.of_nat k) (m_n m)) as [E|Hne].
    - destruct (last_length m k Hm ltac:(lia)) as [-> Hle].
      unfold mbind, M_bind, on_rx, change. by rewrite (proj2 (Z.ltb_ge _ _) Hle).
    - by rewrite Hpl. }
  rewrite (bind_ok (on_rx i _) _ sa () (upd i f2 sa)) by done.
  rewrite (bind_ok _ _ (upd i f2 sa) () sc); last first.
  { unfold sc. by destruct (_ && _). }
  rewrite (bind_ok (attempt segs_alloc) _ sc (inl ()) (sc <| t_free := (t_free sc - 1)%nat |>)); last first.
  { unfold attempt, segs_alloc. rewrite Efree. destruct (t_free s) as [|n]; [lia|]. simpl. by rewrite Nat.sub_0_r. }
  cbv beta iota.
  rewrite (bind_ok _ _ _ (if decide (k ∈ got) then Some (piece m k) else None) (sc <| t_free := (t_free sc - 1)%nat |>)); last first.
  { rewrite Hpl. rewrite (proj2 (Z.leb_le _ _)) by (case_if; bool_to_prop; lia).
    assert (sr_seg (rx_at i s) = sr_seg (rx_at i sc)) as ->.
    { unfold sc, sa. destruct (_ && _), (_ =? _); rewrite ?rx_at_upd by (cbn; rewrite ?length_alter; done); done. }
    rewrite (ho_seg _ _ _ _ Hc); [done|]. rewrite (ho_length _ _ _ _ Hc). destruct Hm as (_ & Hmax & _). lia. }
  rewrite (bind_ok (on_rx i _) _ _ () (upd i (fun rx => rx <| sr_seg ::= <[k := Some (piece m k)]> |>
                         <| sr_block ::= (fun b => Z.lor b (BIT (Z.of_nat k))) |>)
       (sc <| t_free := (t_free sc - 1)%nat |>))); last first.
  { done. }
  done.
Qed.

(** ** The message of a context *)

(** Every segment is there. *)
Definition full m (rx : seg_rx) : Prop :=
  sr_ctl rx = false /\ sr_len rx = zlen (m_data m) /\ sr_seg_n rx = m_n m /\ sr_seq_auth rx = m_auth m /\
  forall k : nat, Z.of_nat k <= m_n m -> sr_seg rx !! k = Some (Some (piece m k)).

Lemma holding_full m i got s :
  message_ok m -> holding m i got s -> (forall k : nat, Z.of_nat k <= m_n m -> k ∈ got) -> full m (rx_at i s).
Proof.
  intros Hm [] Hall. destruct (m_n_range m Hm) as [Hn _]. destruct Hm as (_ & Hmax & _).
  split_and!; [done|apply ho_len0, Hall; lia|done|done|].
  intros k Hk. rewrite ho_seg0 by (rewrite ho_length0; lia). by rewrite decide_True by auto.
Qed.

Lemma piece_bytes m k : message_ok m -> Forall is_byte (piece m k).
Proof. intros (_ & _ & _ & _ & Hb). by apply Forall_take, Forall_drop. Qed.

Lemma assemble_run m rx n i buf s :
  message_ok m -> full m rx -> Z.of_nat (i + n) = m_n m + 1 -> wf buf ->
  content buf = take (12 * i) (m_data m) -> b_data buf + zlen (m_data m) <= b_size buf ->
  exists buf', assemble_loop rx n (Z.of_nat i) buf s = (Ok buf', s) /\ wf buf' /\ content buf' = m_data m /\
    b_data buf' = b_data buf /\ b_size buf' = b_size buf.
Proof.
  intros Hm Hf. revert i buf. destruct (m_n_range m Hm) as [Hn Hd].
  induction n as [|n IH]; intros i buf Hi Hb Hc Hsz; pose proof (content_length buf Hb) as Hl;
    rewrite Hc, length_take in Hl.
  - exists buf. split_and!; try done. rewrite Hc. apply take_ge. lia.
  - pose proof Hf as (Hctl & Hlen & _ & _ & Hseg). assert (zlen (piece m i) = Z.min 12 (zlen (m_data m) - Z.of_nat i * 12)) as Hpl
      by (rewrite piece_length by (done || lia); case_if; bool_to_prop; lia).
    destruct (add_mem_run buf (piece m i)) as (b1 & E1 & Hw1 & Hc1 & Hd1 & Hl1 & Hz1);
      [done|by apply piece_bytes|lia|].
    destruct (IH (S i) b1) as (b2 & E2 & Hw2 & Hc2 & Hd2 & Hz2); [lia|done| |lia|].
    { rewrite Hc1, Hc. unfold piece. rewrite take_take_drop. f_equal. lia. }
    exists b2. split_and!; [|done|done|congruence|congruence].
    cbn [assemble_loop]. unfold seg_entry. rewrite (proj2 (Z.ltb_ge _ _)) by lia. rewrite Nat2Z.id, Hseg by lia.
    unfold checked at 1. rewrite (bind_ok _ _ s (Some (piece m i)) s) by done.
    rewrite (bind_ok _ _ s (piece m i) s) by done. rewrite Hctl, Hlen. unfold seg_len, BT_MESH_APP_SEG_SDU_MAX.
    rewrite (bind_ok _ _ s (piece m i) s).
    + rewrite (bind_ok _ _ s b1 s) by (by rewrite E1). by replace (Z.of_nat i + 1) with (Z.of_nat (S i)) by lia.
    + rewrite mem_read_some by lia. unfold slice. rewrite drop_0. rewrite take_ge; [done|]. lia.
Qed.

Definition m_mic m : Z := APP_MIC_LEN (m_aszmic m).

Lemma m_mic_range m : 0 < m_mic m <= 8.
Proof. unfold m_mic, APP_MIC_LEN. case_if; lia. Qed.

(** What the buffer for the message becomes: its content without the MIC, which is still
    there after it. *)
Definition assembled m (buf : bt_buf_simple) : Prop :=
  wf buf /\ b_len buf = zlen (m_data m) - m_mic m /\
  slice (b_store buf) (b_data buf) (zlen (m_data m)) = m_data m /\ b_data buf + zlen (m_data m) <= zlen (b_store buf).

Lemma seg_rx_assemble_run m rx buf s :
  message_ok m -> full m rx -> wf buf -> zlen (m_data m) <= b_size buf -> m_mic m <= zlen (m_data m) ->
  exists buf', seg_rx_assemble rx buf (m_aszmic m) s = (Ok buf', s) /\ assembled m buf' /\ b_size buf' = b_size buf.
Proof.
  intros Hm Hf Hb Hsz Hmic. pose proof (m_mic_range m) as Hr. destruct (m_n_range m Hm) as [Hn _].
  assert (wf (bt_buf_simple_reset buf)) as Hb0 by (destruct Hb; split; simpl; try done; lia).
  destruct (assemble_run m rx (Z.to_nat (m_n m + 1)) 0 (bt_buf_simple_reset buf) s)
    as (b1 & E1 & Hw1 & Hc1 & Hd1 & Hz1); [done|done|lia|done|done|done|].
  pose proof Hf as (Hctl & Hlen & Hsn & _). pose proof (content_length b1 Hw1) as Hl1. rewrite Hc1 in Hl1.
  assert (u16 (b_len b1 - m_mic m) = zlen (m_data m) - m_mic m) as Hu.
  { destruct Hw1. unfold UINT16_MAX in *. rewrite u16_id; lia. }
  exists (set_len (u16 (b_len b1 - m_mic m)) b1). split_and!.
  - unfold seg_rx_assemble. rewrite Hsn. change 0 with (Z.of_nat 0) at 1. rewrite (bind_ok _ _ _ _ _ E1).
    by rewrite Hctl.
  - rewrite Hu. destruct Hw1. split; [by split; simpl; try done; lia|]. cbn [set_len b_len b_store b_data].
    split_and!; [done| |lia]. by rewrite Hl1.
  - done.
Qed.

Lemma m_auth_seq m : 0 <= m_seq0 m < 2 ^ 24 -> Z.land (m_auth m) 0xffffff = m_seq0 m.
Proof.
  intros Hs. unfold m_auth, SEQ_AUTH, u64. change 0xffffff with (Z.ones 24).
  change 18446744073709551616 with (2 ^ 64). rewrite <-Z.land_ones by lia.
  apply Z.bits_inj_iff'. intros j Hj. rewrite !Z.land_spec, Z.lor_spec, Z.shiftl_spec by lia.
  rewrite !Z.testbit_ones_nonneg by lia. destruct (Z.ltb_spec j 24).
  - rewrite (Z.testbit_neg_r _ (j - 24)) by lia. rewrite (proj2 (Z.ltb_lt _ _)) by lia. by rewrite !andb_true_r.
  - rewrite andb_false_r. symmetry. apply Z.bits_above_log2; [lia|].
    destruct (Z.eq_dec (m_seq0 m) 0) as [->|]; [simpl; lia|]. apply Z.log2_lt_pow2; [lia|].
    apply Z.lt_le_trans with (2 ^ 24); [lia|]. apply Z.pow_le_mono_r; lia.
Qed.

(** ** The key of a message *)

Definition cred_for (net_rx : bt_mesh_net_rx) (app : app_key) : bt_mesh_app_cred :=
  if rx_new_key net_rx && app_updated app then app_key1 app else app_key0 app.

Definition m_crypto m : bt_mesh_app_crypto_ctx :=
  mk_app_ctx false (m_aszmic m) (m_src m) (m_dst m) (m_seq0 m) (m_iv m) None.

(** The node has an application key that the message opens with, and no key before it
    has the same AID on the subnet. *)
Record readable m (net_rx : bt_mesh_net_rx) (n : net_node W) (app : app_key) (plain : list Z) : Prop := {
  rd_akf : AKF (m_hdr m) = 1;
  rd_dst : BT_MESH_ADDR_IS_VIRTUAL (m_dst m) = false;
  rd_seq : m_seq0 m < 2 ^ 24;
  rd_mic : 1 + m_mic m <= zlen (m_data m);
  rd_app : let idx := net_idx (sub_at (Z.to_nat (rx_sub net_rx)) (n_sub n)) in
    app_idx app <> BT_MESH_KEY_UNUSED /\ app_net_idx app = idx /\ cred_id (cred_for net_rx app) = AID (m_hdr m) /\
    exists pre post, te_apps env = pre ++ app :: post /\
      Forall (fun a => app_idx a = BT_MESH_KEY_UNUSED \/ app_net_idx a <> idx \/
                cred_id (cred_for net_rx a) <> AID (m_hdr m)) pre;
  rd_key : exists t raw, mc_keys (world n) !! cred_val (cred_for net_rx app) = Some (t, raw) /\ sealing t = true /\
    mc_open raw (create_app_nonce (m_crypto m)) (aad (m_crypto m)) (m_data m) (m_mic m) = Some plain
}.

Lemma find_app_first {C} (cb : bt_mesh_key -> C -> M st (Z * C)) aid idx net_rx pre app post c s :
  app_idx app <> BT_MESH_KEY_UNUSED -> app_net_idx app = idx -> cred_id (cred_for net_rx app) = aid ->
  Forall (fun a => app_idx a = BT_MESH_KEY_UNUSED \/ app_net_idx a <> idx \/ cred_id (cred_for net_rx a) <> aid) pre ->
  find_app cb aid idx (rx_new_key net_rx) (pre ++ app :: post) c s =
    ('(err, c) ← cb (cred_val (cred_for net_rx app)) c;
     if negb (err =? 0) then find_app cb aid idx (rx_new_key net_rx) post c else mret (app_idx app, c)) s.
Proof.
  intros Hu Hn Hi Hpre. induction Hpre as [|a pre Ha Hpre IH]; cbn [Datatypes.app find_app].
  - rewrite (proj2 (Z.eqb_neq _ _) Hu), Hn, Z.eqb_refl. fold (cred_for net_rx app). by rewrite Hi, Z.eqb_refl.
  - destruct (Z.eqb_spec (app_idx a) BT_MESH_KEY_UNUSED); [done|].
    destruct (Z.eqb_spec (app_net_idx a) idx); [|done]. fold (cred_for net_rx a). cbn [negb].
    destruct (Z.eqb_spec (cred_id (cred_for net_rx a)) aid); [|done]. destruct Ha as [?|[?|?]]; done.
Qed.

Lemma in_net_crypto_run {A} (m : M W A) s v :
  yields m (world (t_net s)) v ->
  exists n, in_net (in_crypto m) s = (Ok v, s <| t_net := n |>) /\ calm (t_net s) n.
Proof.
  intros Hy. destruct (runs_crypto m (t_net s) v Hy) as (n & E & Hc). exists n. split; [|done].
  unfold in_net. by rewrite E.
Qed.

(** The buffers of a message on its way to the access layer. *)
Definition rx_bufs_ok m (buf sdu : bt_buf_simple) : Prop :=
  wf buf /\ zlen (m_data m) <= b_size buf /\ wf sdu /\ zlen (m_data m) - m_mic m <= b_size sdu.

Lemma try_decrypt_run m i net_rx app plain c buf sdu s :
  message_ok m -> full m (rx_at i s) -> readable m net_rx (t_net s) app plain -> rx_recv_dst net_rx = m_dst m ->
  mc_ready (world (t_net s)) -> rx_bufs_ok m buf sdu ->
  let crypto := mk_app_ctx false (m_aszmic m) (m_src m) (m_dst m) (m_seq0 m) (m_iv m) c in
  exists ctx n, sdu_try_decrypt env net_rx (cred_val (cred_for net_rx app)) (mk_decrypt crypto None buf sdu (Some i)) s =
      (Ok (0, ctx), s <| t_net := n |>) /\ calm (t_net s) n /\ dc_ad ctx = None /\ wf (dc_sdu ctx) /\
    content (dc_sdu ctx) = plain.
Proof.
  intros Hm Hf [Hakf Hdst Hseq Hmic _ (t & raw & Hk & Ht & Hopen)] Hd Hr (Hb & Hbz & Hs & Hsz) crypto.
  pose proof (m_mic_range m) as Hmr.
  destruct (seg_rx_assemble_run m (rx_at i s) buf s) as (b1 & E1 & (Hw1 & Hl1 & Hc1 & Hz1) & _); [done|done|done|lia|lia|].
  destruct (mc_open_ok _ _ _ _ _ _ Hopen) as [Hpl Hpb]; [lia|].
  destruct (app_decrypt_yields (world (t_net s)) (cred_val (cred_for net_rx app)) t raw (m_crypto m) b1
    (bt_buf_simple_reset sdu) plain) as (out & Hy & Hwo & Hco); rewrite ?Hl1; change (app_mic (m_crypto m)) with (m_mic m) in *;
    replace (zlen (m_data m) - m_mic m + m_mic m) with (zlen (m_data m)) in * by lia; rewrite ?Hc1; try done.
  { destruct Hw1. rewrite mem_read_some, Hc1 by lia. done. }
  { destruct Hs. split; simpl; try done; lia. }
  destruct (in_net_crypto_run _ s out Hy) as (n & En & Hc).
  exists (mk_decrypt (m_crypto m) None b1 out (Some i)), n. split; [|by split_and!].
  unfold sdu_try_decrypt. cbn [sdu_try_loop dc_seg dc_buf dc_crypto ac_aszmic dc_ad dc_sdu].
  rewrite Hd, Hdst. cbn [andb uuid_of mbind option_bind ac_dev_key ac_src ac_dst ac_seq_num ac_iv_index crypto].
  rewrite (bind_ok _ _ s b1 s) by exact E1.
  rewrite (bind_ok _ _ s (inl out) (s <| t_net := n |>)); [done|]. exact (attempt_ok _ _ _ _ En).
Qed.

Lemma sdu_recv_run m i net_rx app plain buf sdu s :
  message_ok m -> full m (rx_at i s) -> readable m net_rx (t_net s) app plain ->
  rx_addr net_rx = m_src m -> rx_recv_dst net_rx = m_dst m -> rx_local_match net_rx = true ->
  BT_MESH_NET_IVI_RX (n_iv (t_net s)) (rx_old_iv net_rx) = m_iv m ->
  mc_ready (world (t_net s)) -> rx_bufs_ok m buf sdu ->
  exists n, calm (t_net s) n /\ forall access_recv,
    sdu_recv cfg tcfg env access_recv net_rx (m_hdr m) (m_aszmic m) buf sdu (Some i) s =
      access_recv (rx_set_app_idx (app_idx app) net_rx) None plain (s <| t_net := n |>).
Proof.
  intros Hm Hf Hrd Hsrc Hd Hl Hiv Hr Hbufs. pose proof Hrd as [Hakf Hdst Hseq _ Happ _].
  destruct Happ as (Hu & Hni & Hid & pre & post & Eapps & Hpre).
  pose proof Hf as (_ & _ & _ & Hauth & _). pose proof Hm as (_ & _ & _ & Hq & _).
  destruct (try_decrypt_run m i net_rx app plain None buf sdu s) as (ctx & n & E & Hc & Had & Hwo & Hco); try done.
  exists n. split; [done|]. intros access_recv. unfold sdu_recv. rewrite (bind_ok _ _ s s s) by done.
  rewrite Hl, Hakf, Hauth, m_auth_seq, Hsrc, Hd, Hiv by lia. cbn [negb Z.eqb].
  unfold bt_mesh_app_key_find. rewrite Eapps.
  rewrite (bind_ok _ _ s (app_idx app, ctx) (s <| t_net := n |>)); last first.
  { rewrite find_app_first by done. by rewrite (bind_ok _ _ _ _ _ E). }
  rewrite (proj2 (Z.eqb_neq _ _) Hu), Had. pose proof (content_length _ Hwo) as Hlen.
  destruct Hwo. unfold checked at 1. rewrite mem_read_some by lia. fold (content (dc_sdu ctx)). rewrite Hco.
  by rewrite (bind_ok _ _ (s <| t_net := n |>) plain (s <| t_net := n |>)).
Qed.

(** ** Giving the blocks back *)

(** How many blocks of a context hold a segment. *)
Definition held (l : list (option (list Z))) : nat := length (filter is_Some l).

Lemma held_app l l' : held (l ++ l') = (held l + held l')%nat.
Proof. unfold held. by rewrite filter_app, length_app. Qed.

Lemma held_none n : held (replicate n None) = 0%nat.
Proof. unfold held. induction n as [|n IH]; [done|]. simpl. rewrite filter_cons_False; [done|]. by intros [? ?]. Qed.

Lemma held_clear l k e :
  l !! k = Some e -> (held (<[k := None]> l) + (if decide (is_Some e) then 1 else 0))%nat = held l.
Proof.
  intros Hk. rewrite insert_take_drop by by eapply lookup_lt_Some.
  rewrite <-(take_drop_middle l k e Hk) at 3. rewrite !held_app.
  change (None :: drop (S k) l) with ([None] ++ drop (S k) l).
  change (e :: drop (S k) l) with ([e] ++ drop (S k) l). rewrite !held_app.
  assert (held [e] = if decide (is_Some e) then 1%nat else 0%nat) as ->.
  { unfold held. case_decide as He; [by rewrite filter_cons_True|by rewrite filter_cons_False]. }
  change (held [None]) with 0%nat. lia.
Qed.

(** What [rx_free_loop] leaves of the blocks from [k] on. *)
Record cleared (k n : nat) (l l' : list (option (list Z))) : Prop := {
  cl_length : length l' = length l;
  cl_in : forall j, (k <= j < k + n)%nat -> l' !! j = Some None;
  cl_out : forall j, ~ (k <= j < k + n)%nat -> l' !! j = l !! j
}.

Lemma rx_free_run i n k s :
  (i < length (t_rx s))%nat -> (k + n <= length (sr_seg (rx_at i s)))%nat ->
  exists l free, rx_free_loop i (Z.of_nat k) n s =
      (Ok (), upd i (fun rx => rx <| sr_seg := l |>) (s <| t_free := free |>)) /\
    cleared k n (sr_seg (rx_at i s)) l /\ (free + held l = t_free s + held (sr_seg (rx_at i s)))%nat.
Proof.
  revert k s. induction n as [|n IH]; intros k s Hi Hk.
  - exists (sr_seg (rx_at i s)), (t_free s). split_and!; [|split; [done|intros; lia|done]|done].
    cbn [rx_free_loop]. unfold mret, M_ret. f_equal. destruct s as [net tx rx fr out]. unfold rx_at. cbn. unfold setter. cbn. f_equal.
    symmetry. apply alter_same. intros r Hr. rewrite (list_lookup_total_correct _ _ _ Hr). by destruct r.
  - destruct (lookup_lt_is_Some_2 (sr_seg (rx_at i s)) k) as [e He]; [lia|].
    set (s1 := match e with None => s
               | Some _ => upd i (fun rx => rx <| sr_seg ::= <[k := None]> |>) (s <| t_free ::= S |>) end).
    assert ((i < length (t_rx s1))%nat /\ sr_seg (rx_at i s1) = <[k := None]> (sr_seg (rx_at i s)) /\
            (t_free s1 + held (sr_seg (rx_at i s1)) = t_free s + held (sr_seg (rx_at i s)))%nat) as (Hi1 & Hs1 & Hh1).
    { pose proof (held_clear _ _ _ He) as Hh. unfold s1. destruct e as [b|].
      - rewrite rx_at_upd by done. cbn -[held]. rewrite length_alter. split_and!; [done|done|]. change (rx_at i (s <| t_free ::= S |>)) with (rx_at i s).
        rewrite decide_True in Hh by done. lia.
      - rewrite list_insert_id by done. done. }
    destruct (IH (S k) s1) as (l & free & E & [Hl Hin Hout] & Hf); [done|rewrite Hs1, length_insert; lia|].
    exists l, free. split_and!; [|split|lia].
    + cbn [rx_free_loop]. rewrite (bind_ok _ _ s e s); last first.
      { unfold seg_entry. rewrite (bind_ok (gets (rx_at i)) _ s (rx_at i s) s) by done.
        rewrite (proj2 (Z.ltb_ge _ _)) by lia. by rewrite Nat2Z.id, He. }
      rewrite (bind_ok _ _ s () s1).
      * replace (Z.of_nat k + 1) with (Z.of_nat (S k)) by lia. rewrite E. f_equal. unfold s1. destruct e; [|done].
        destruct s as [net tx rx fr out]. cbn. unfold setter. cbn. by rewrite alter_twice.
      * unfold s1. destruct e; [|done]. unfold segs_free, on_rx, change, mbind, M_bind. by rewrite Nat2Z.id.
    + rewrite Hl, Hs1. by rewrite length_insert.
    + intros j Hj. destruct (decide (j = k)) as [->|]; [|apply Hin; lia].
      rewrite Hout, Hs1 by lia. rewrite list_lookup_insert_eq by lia. done.
    + intros j Hj. rewrite Hout, Hs1 by lia. rewrite list_lookup_insert_ne by lia. done.
Qed.

(** Context [i] is what a complete message leaves: not in use, without blocks, and
    remembered as complete. *)
Record closed m (i : nat) s : Prop := {
  cd_index : (i < length (t_rx s))%nat;
  cd_found : seg_rx_find_scan (m_src m) (m_dst m) (m_auth m) (t_rx s) 0 = Some (i, true);
  cd_in_use : sr_in_use (rx_at i s) = false;
  cd_hdr : sr_hdr (rx_at i s) = m_hdr m;
  cd_seg_n : sr_seg_n (rx_at i s) = m_n m;
  cd_src : sr_src (rx_at i s) = m_src m;
  cd_dst : sr_dst (rx_at i s) = m_dst m;
  cd_auth : sr_seq_auth (rx_at i s) = m_auth m;
  cd_ctl : sr_ctl (rx_at i s) = false;
  cd_block : sr_block (rx_at i s) = BLOCK_COMPLETE (m_n m);
  cd_seg : sr_seg (rx_at i s) = replicate (Z.to_nat (BT_MESH_RX_SEG_MAX tcfg)) None
}.

Lemma held_full m i got s :
  message_ok m -> holding m i got s -> (forall k : nat, Z.of_nat k <= m_n m -> k ∈ got) ->
  held (sr_seg (rx_at i s)) = Z.to_nat (m_n m + 1).
Proof.
  intros Hm Hh Hall. destruct (m_n_range m Hm) as [Hn _]. pose proof Hm as (_ & Hmax & _). destruct Hh.
  assert (sr_seg (rx_at i s) = ((fun k => Some (piece m k)) <$> List.seq 0 (Z.to_nat (m_n m + 1))) ++
            replicate (Z.to_nat (BT_MESH_RX_SEG_MAX tcfg) - Z.to_nat (m_n m + 1)) None) as ->.
  { apply list_eq. intros j. destruct (decide (j < length (sr_seg (rx_at i s)))%nat) as [Hj|Hj].
    - rewrite ho_seg0 by done. rewrite ho_length0 in Hj. destruct (decide (j < Z.to_nat (m_n m + 1))%nat) as [Hlt|Hge].
      + rewrite lookup_app_l by (rewrite length_fmap, length_seq; done).
        rewrite list_lookup_fmap, lookup_seq_lt by done. simpl. by rewrite decide_True by (apply Hall; lia).
      + rewrite lookup_app_r by (rewrite length_fmap, length_seq; lia). rewrite length_fmap, length_seq.
        rewrite lookup_replicate_2 by lia. rewrite decide_False; [done|]. intros Hin. apply ho_below0 in Hin. lia.
    - rewrite !lookup_ge_None_2; [done| |lia].
      rewrite length_app, length_fmap, length_seq, length_replicate. lia. }
  rewrite held_app, held_none, Nat.add_0_r. generalize 0%nat. induction (Z.to_nat (m_n m + 1)) as [|n IH]; intros a; [done|].
  change (held ([Some (piece m a)] ++ ((fun k => Some (piece m k)) <$> List.seq (S a) n)) = S n).
  rewrite held_app, IH. done.
Qed.

Lemma full_blocks m i got s :
  message_ok m -> holding m i got s -> (forall k : nat, Z.of_nat k <= m_n m -> k ∈ got) ->
  sr_block (rx_at i s) = BLOCK_COMPLETE (m_n m).
Proof.
  intros Hm [] Hall. destruct (m_n_range m Hm) as [Hn _].
  by apply (block_complete _ got).
Qed.

(** [seg_rx_reset] after a complete message. *)
Lemma seg_rx_reset_run m i got s :
  message_ok m -> holding m i got s -> (forall k : nat, Z.of_nat k <= m_n m -> k ∈ got) ->
  exists s', seg_rx_reset cfg i false s = (Ok (), s') /\ closed m i s' /\
    t_free s' = (t_free s + Z.to_nat (m_n m + 1))%nat /\ t_net s' = t_net s.
Proof.
  intros Hm Hh Hall. pose proof (held_full _ _ _ _ Hm Hh Hall) as Hheld. pose proof (full_blocks _ _ _ _ Hm Hh Hall) as Hblock.
  destruct (m_n_range m Hm) as [Hn _]. pose proof Hm as (_ & Hmax & _). pose proof Hh as [].
  set (s1 := upd i (fun rx => rx <| sr_ack := None |> <| sr_discard := None |>) s).
  assert (rx_at i s1 = rx_at i s <| sr_ack := None |> <| sr_discard := None |>) as E1 by (unfold s1; by rewrite rx_at_upd).
  destruct (rx_free_run i (Z.to_nat (m_n m + 1)) 0 s1) as (l & free & E & [Hl Hin Hout] & Hf);
    [unfold s1; cbn; by rewrite length_alter|rewrite E1; cbn; rewrite ho_length0; lia|].
  rewrite E1 in Hl, Hout, Hf. cbn -[held] in Hl, Hout, Hf. rewrite Hheld in Hf.
  assert (l = replicate (Z.to_nat (BT_MESH_RX_SEG_MAX tcfg)) None) as ->.
  { apply list_eq. intros j. destruct (decide (j < Z.to_nat (BT_MESH_RX_SEG_MAX tcfg))%nat) as [Hj|Hj].
    - rewrite lookup_replicate_2 by done. destruct (decide (j < Z.to_nat (m_n m + 1))%nat) as [Hlt|Hge]; [apply Hin; lia|].
      rewrite Hout, ho_seg0 by lia. rewrite decide_False; [done|]. intros Hg. apply ho_below0 in Hg. lia.
    - rewrite !lookup_ge_None_2; [done|rewrite length_replicate; lia|lia]. }
  rewrite held_none in Hf.
  eexists. split.
  - unfold seg_rx_reset. rewrite (bind_ok (on_rx i _) _ s () s1) by done.
    rewrite (bind_ok _ _ s1 (rx_at i s1) s1) by done. rewrite E1.
    cbn. rewrite ho_seg_n0, Hblock, Z.eqb_refl, andb_false_r.
    rewrite (bind_ok _ _ s1 () s1) by done. rewrite (bind_ok _ _ _ _ _ E). reflexivity.
  - match goal with |- closed m i ?st /\ _ => set (s' := st) end.
    set (g := fun rx : seg_rx => rx <| sr_ack := None |> <| sr_discard := None |>
                <| sr_seg := replicate (Z.to_nat (BT_MESH_RX_SEG_MAX tcfg)) None |> <| sr_in_use := false |>).
    assert (t_rx s' = alter g i (t_rx s)) as Hs'.
    { subst s' s1. cbn. rewrite !alter_twice. done. }
    assert (rx_at i s' = g (rx_at i s)) as Er.
    { unfold rx_at. rewrite Hs'. by rewrite list_lookup_total_alter_eq. }
    split_and!; [|subst s' s1; cbn in *; lia|done]. split; rewrite ?Er; try done.
    + rewrite Hs'. by rewrite length_alter.
    + rewrite Hs', <-(Nat.add_0_l i). by apply find_scan_keep.
Qed.

(** ** The last segment *)

Lemma holding_ext m i got s s' :
  holding m i got s -> t_rx s' = t_rx s -> (Z.to_nat (m_n m) + 1 - length got <= t_free s')%nat -> holding m i got s'.
Proof.
  intros [] Hrx Hfree. assert (rx_at i s' = rx_at i s) as Er by (unfold rx_at; by rewrite Hrx).
  split; rewrite ?Er, ?Hrx; done.
Qed.

Lemma all_length m (got : list nat) :
  0 <= m_n m -> (forall k : nat, Z.of_nat k <= m_n m -> k ∈ got) -> (Z.to_nat (m_n m) + 1 - length got = 0)%nat.
Proof.
  intros Hn Hall. assert (length (List.seq 0 (Z.to_nat (m_n m) + 1)) <= length got)%nat as Hle.
  { apply submseteq_length, NoDup_submseteq; [apply NoDup_seq|]. intros k Hk%elem_of_seq. apply Hall. lia. }
  rewrite length_seq in Hle. lia.
Qed.

(** What is noted in the replay list once the message is accepted. *)
Definition rpl_accept (rpl : option nat) (net_rx : bt_mesh_net_rx) (auth : Z) (r : rpl_state) : rpl_state :=
  match rpl with
  | None => r
  | Some k =>
      let r := bt_mesh_rpl_update (c_settings cfg) (c_rpl_timeout cfg) k net_rx r in
      let e := Rpl.slot r k in
      Rpl.set_slot k (mk_rpl (rpl_src e) (rpl_old_iv e) (rpl_seq e) (Z.max (rpl_seg e) (Z.land auth (BIT_MASK 24)))) r
  end.

(** The node is ready for the message whose last segment is [x]. *)
Record ready_for m (net_rx : bt_mesh_net_rx) (n : net_node W) (app : app_key) (plain : list Z) : Prop := {
  rf_readable : readable m net_rx n app plain;
  rf_ack : forall obo, ack_ready env n (Z.to_nat (rx_sub net_rx)) (rx_recv_dst net_rx) (rx_addr net_rx)
             (rx_send_ttl net_rx) obo;
  rf_iv : BT_MESH_NET_IVI_RX (n_iv n) (rx_old_iv net_rx) = m_iv m;
  rf_iv_ack : BT_MESH_NET_IVI_RX (n_iv (took_seq cfg (te_net env) n)) (rx_old_iv net_rx) = m_iv m
}.

Lemma sent_readable m net_rx n n' app plain :
  readable m net_rx n app plain -> sent_kept n n' -> readable m net_rx n' app plain.
Proof.
  intros [] (_ & Hs & Hk & _). unfold sub_at in *. split; rewrite ?Hk; try done.
  unfold sub_at. by rewrite Hs.
Qed.

Lemma rx_bufs_new m :
  message_ok m -> rx_bufs_ok m (mk_buf (replicate (Z.to_nat (BT_MESH_RX_SDU_MAX tcfg)) 0) 0 0 (BT_MESH_RX_SDU_MAX tcfg))
    (mk_buf (replicate (Z.to_nat (zlen (m_data m) - m_mic m)) 0) 0 (zlen (m_data m) - m_mic m) (zlen (m_data m) - m_mic m)) \/
  zlen (m_data m) < m_mic m.
Proof.
  intros Hm. destruct (Z.lt_ge_cases (zlen (m_data m)) (m_mic m)); [by right|left].
  destruct (m_n_range m Hm) as [Hn Hd]. pose proof Hm as (_ & Hmax & _). pose proof (m_mic_range m).
  assert (zlen (m_data m) <= BT_MESH_RX_SDU_MAX tcfg <= 384).
  { unfold BT_MESH_RX_SDU_MAX, BT_MESH_APP_SEG_SDU_MAX, BT_MESH_APP_UNSEG_SDU_MAX. lia. }
  unfold rx_bufs_ok. cbn [b_size]. split_and!; [|lia| |lia]; split; cbn [b_data b_len b_size b_store]; unfold UINT16_MAX;
    rewrite ?length_replicate; try lia; apply Forall_replicate; done.
Qed.

Lemma sent_calm (n n1 n2 : net_node W) : sent_kept n n1 -> calm n1 n2 -> sent_kept n n2.
Proof.
  intros (A1 & A2 & A3 & A4) (w & -> & Hk & Hr). unfold sent_kept. cbn. split_and!; try done. by rewrite <-A3.
Qed.

Lemma iv_sent s s' net_rx m app plain :
  send_kept cfg env s s' -> ready_for m net_rx (t_net s) app plain ->
  BT_MESH_NET_IVI_RX (n_iv (t_net s')) (rx_old_iv net_rx) = m_iv m.
Proof. intros (_ & _ & _ & _ & [->| ->]) []; done. Qed.

(** What the access layer's answer becomes. *)
Definition answer {A} (o : outcome unit) (a : A) : A + Z := match o with Err e => inr e | _ => inl a end.

(** The access layer gets the message, and the context is closed after it. *)
Lemma seg_complete_run m i got x k rpl app plain s :
  message_ok m -> holding m i got s -> (forall k : nat, Z.of_nat k <= m_n m -> k ∈ got) ->
  segment_of m s x k -> ready_for m x.1 (t_net s) app plain ->
  exists s2, sent_kept (t_net s) (t_net s2) /\ t_tx s2 = t_tx s /\ t_free s2 = t_free s /\
    length (t_rx s2) = length (t_rx s) /\
    forall access_recv ctl_handler o s3,
      access_recv (rx_set_app_idx (app_idx app) x.1) None plain s2 = (o, s3) -> o <> Crash -> t_rx s3 = t_rx s2 ->
      exists s4, seg_complete cfg tcfg env access_recv ctl_handler i x.1 (header_of m k) rpl s =
          (Ok (answer o (m_auth m)), s4) /\ closed m i s4 /\
        t_free s4 = (t_free s3 + Z.to_nat (m_n m + 1))%nat /\
        n_rpl (t_net s4) = (match o with Ok _ => rpl_accept rpl x.1 (m_auth m) (n_rpl (t_net s3)) | _ => n_rpl (t_net s3) end).
Proof.
  intros Hm Hh Hall Ha Hready. pose proof Hready as [Hrd Hack Hiv Hiv1].
  set (s1 := upd i (fun rx => rx <| sr_ack := None |>) s).
  assert (holding m i got s1) as Hh1 by (apply holding_frame; [done|by split]).
  destruct (send_ack_run cfg tcfg env (Z.to_nat (rx_sub x.1)) (rx_recv_dst x.1) (rx_addr x.1) (rx_send_ttl x.1)
    (m_auth m) (sr_block (rx_at i s1)) (sr_obo (rx_at i s1)) s1) as (r & s2 & E2 & Hk2); [apply Hack|].
  pose proof Hk2 as (Hrx2 & Htx2 & Hfr2 & Hn2 & _).
  pose proof (all_length m got (proj1 (proj1 (m_n_range m Hm))) Hall) as Hgot.
  assert (holding m i got s2) as Hh2 by (eapply holding_ext; [exact Hh1|done|lia]).
  set (s3 := upd i (fun rx => rx <| sr_last_ack := u32 (uptime env) |>) s2).
  assert (holding m i got s3) as Hh3 by (apply holding_frame; [done|by split]).
  pose proof (holding_full m i got s3 Hm Hh3 Hall) as Hf3. pose proof (rd_mic _ _ _ _ _ Hrd) as Hmic.
  destruct (rx_bufs_new m Hm) as [Hbufs|?]; [|lia].
  destruct Ha as [_ _ []]. assert (mc_ready (world (t_net s2))) as Hr by apply Hn2.
  pose proof Hf3 as (_ & Hlen & _).
  destruct (sdu_recv_run m i x.1 app plain
    (mk_buf (replicate (Z.to_nat (BT_MESH_RX_SDU_MAX tcfg)) 0) 0 0 (BT_MESH_RX_SDU_MAX tcfg))
    (mk_buf (replicate (Z.to_nat (zlen (m_data m) - m_mic m)) 0) 0 (zlen (m_data m) - m_mic m) (zlen (m_data m) - m_mic m))
    s3) as (n & Hc & Hrecv); try done; [eapply sent_readable; [exact Hrd|exact Hn2]|exact (iv_sent s1 s2 x.1 m app plain Hk2 Hready)|].
  set (s4 := s3 <| t_net := n |>) in *.
  exists s4. split; [by eapply sent_calm|]. split; [done|]. split; [done|].
  split; [cbn; rewrite Hrx2; cbn; by rewrite !length_alter|].
  intros access_recv ctl_handler o s5 Eacc Ho Hrx5.
  assert (holding m i got s5) as Hh5.
  { eapply holding_ext; [exact Hh3|by rewrite Hrx5|lia]. }
  (* what the access layer answered, noted *)
  set (s6 := match o with Ok _ => s5 <| t_net ::= (fun n => set_n_rpl (rpl_accept rpl x.1 (m_auth m) (n_rpl n)) n) |> | _ => s5 end).
  assert (holding m i got s6 /\ t_free s6 = t_free s5) as [Hh6 Hf6].
  { unfold s6. destruct o; split; try done. eapply holding_ext; [exact Hh5|done|lia]. }
  destruct (seg_rx_reset_run m i got s6 Hm Hh6 Hall) as (s7 & E7 & Hcl & Hf7 & Hn7).
  exists s7. split; [|split; [done|split; [by rewrite Hf7, Hf6|]]].
  - unfold seg_complete. rewrite (bind_ok (on_rx i _) _ s () s1) by done.
    rewrite (bind_ok (gets (rx_at i)) _ s1 (rx_at i s1) s1) by done. cbn [sh_seq_auth header_of].
    rewrite (bind_ok _ _ _ _ _ E2). rewrite (bind_ok (on_rx i _) _ s2 () s3) by done.
    rewrite (bind_ok (gets (rx_at i)) _ s3 (rx_at i s3) s3) by done. rewrite ar_ctl0, Hlen.
    cbn [sh_aszmic sh_hdr header_of]. fold (m_mic m). rewrite (proj2 (Z.ltb_ge _ _)) by lia.
    rewrite (bind_ok _ _ s3 (answer o (m_auth m)) s5).
    + rewrite (bind_ok _ _ s5 () s6).
      * by rewrite (bind_ok _ _ _ _ _ E7).
      * unfold s6. destruct o as [[]|e|]; [|done|done]. cbn [answer]. destruct rpl as [j|]; [done|].
        unfold rpl_accept, mret, M_ret. f_equal. by destruct s5 as [[] ].
    + unfold attempt, mbind, M_bind. rewrite Hrecv, Eacc. by destruct o as [[]|e|].
  - rewrite Hn7. unfold s6. by destruct o.
Qed.

(** ** A sequence of segments *)

(** The context, before the first segment or after those of [got]. *)
Definition receiving m (i : nat) (got : list nat) s : Prop := (got = [] /\ fresh m i s) \/ holding m i got s.

Lemma segment_net m s s' x k : t_net s' = t_net s -> segment_of m s x k -> segment_of m s' x k.
Proof. intros E [? ? []]. split; [done|done|split; rewrite ?E; done]. Qed.

Lemma arrival_net m s s' x k : t_net s' = t_net s -> arrival m s x k -> arrival m s' x k.
Proof. intros E [Hs Hf]. split; [by eapply segment_net|by rewrite E]. Qed.

(** A segment is parsed. *)
Lemma trans_seg_parsed m x k s access_recv ctl_handler :
  message_ok m -> segment_of m s x k ->
  trans_seg cfg tcfg env access_recv ctl_handler x.2 x.1 s =
    (rpl ← rpl_slot cfg x.1;
     i ← seg_context cfg tcfg env x.1 (header_of m k) rpl;
     store access_recv ctl_handler i x.1 (header_of m k) rpl (piece m k)) s.
Proof.
  intros Hm [ar_wf0 ar_content0 []]. destruct (m_n_range m Hm) as [Hn Hd]. pose proof Hm as (Hl & _ & Hz & Hq & _).
  pose proof (piece_length m k Hm ar_index0) as Hpl.
  destruct (seg_parse_run (m_hdr m) (m_aszmic m) (m_seq0 m) (Z.of_nat k) (m_n m) (piece m k) x.2 x.1 (n_iv (t_net s)))
    as (buf & Ep & Hw & Hc); [done|done|lia|lia|lia|lia|lia|lia|].
  rewrite ar_iv0 in Ep. fold (m_auth m) (header_of m k) in Ep.
  pose proof (content_length _ ar_wf0) as Hlen. rewrite ar_content0 in Hlen. unfold seg_pdu in Hlen.
  rewrite length_app in Hlen. cbn [length] in Hlen.
  assert (0 < zlen (piece m k)) by (rewrite Hpl; case_if; bool_to_prop; lia).
  unfold trans_seg. rewrite (proj2 (Z.ltb_ge _ _)) by lia.
  assert (exists r, rpl_slot (W := W) cfg x.1 s = (r, s)) as [r Er].
  { unfold rpl_slot, mbind, M_bind, gets. destruct (bt_mesh_rpl_check _ _ _ _ _ _) as [[[] slot] ?]; by eexists. }
  unfold mbind, M_bind. rewrite Er. destruct r as [rpl|e|]; [|done|done].
  unfold gets, checked. rewrite Ep. cbn [sh_seg_n sh_seg_o header_of].
  rewrite (proj2 (Z.ltb_ge _ _)) by lia. fold (header_of m k).
  destruct (seg_context cfg tcfg env x.1 (header_of m k) rpl s) as [[i|e|] s']; [|done|done].
  destruct Hw. rewrite mem_read_some by lia. fold (content buf). by rewrite Hc.
Qed.

(** Neither it nor the message is a replay. *)
Lemma trans_seg_arrival m x k s :
  message_ok m -> arrival m s x k ->
  exists rpl, bt_mesh_rpl_check (c_settings cfg) (c_rpl_timeout cfg) x.1 true false (n_rpl (t_net s)) =
      (false, rpl, n_rpl (t_net s)) /\ seg_not_old m rpl (rx_old_iv x.1) s /\
    forall access_recv ctl_handler, trans_seg cfg tcfg env access_recv ctl_handler x.2 x.1 s =
      (i ← seg_context cfg tcfg env x.1 (header_of m k) rpl;
       store access_recv ctl_handler i x.1 (header_of m k) rpl (piece m k)) s.
Proof.
  intros Hm [Hs (rpl & Erpl & Hold)]. exists rpl. split; [done|]. split; [exact Hold|].
  intros access_recv ctl_handler. rewrite (trans_seg_parsed m x k) by done.
  rewrite (bind_ok _ _ s rpl s); [done|]. unfold rpl_slot, mbind, M_bind, gets. by rewrite Erpl.
Qed.

(** A segment that is there already. *)
Lemma arrival_again m i got x k s access_recv ctl_handler :
  message_ok m -> receiving m i got s -> arrival m s x k -> k ∈ got ->
  trans_seg cfg tcfg env access_recv ctl_handler x.2 x.1 s = (Err (- EALREADY), s).
Proof.
  intros Hm [[-> _]|Hh] Ha Hk; [by apply elem_of_nil in Hk|].
  destruct (trans_seg_arrival m x k s Hm Ha) as (rpl & _ & _ & ->).
  rewrite (bind_ok _ _ _ _ _ (context_found m i got x k rpl s Hh (ar_segment _ _ _ _ Ha))). by eapply store_again.
Qed.

(** A new one. *)
Lemma arrival_new m i got x k s :
  message_ok m -> receiving m i got s -> arrival m s x k -> k ∉ got ->
  exists rpl s1, bt_mesh_rpl_check (c_settings cfg) (c_rpl_timeout cfg) x.1 true false (n_rpl (t_net s)) =
      (false, rpl, n_rpl (t_net s)) /\ holding m i (k :: got) s1 /\ t_net s1 = t_net s /\ (t_free s1 + 1 = t_free s)%nat /\
    forall access_recv ctl_handler, trans_seg cfg tcfg env access_recv ctl_handler x.2 x.1 s =
      (if negb (sr_block (rx_at i s1) =? BLOCK_COMPLETE (m_n m)) then
         mret (BT_MESH_FRIEND_PDU_PARTIAL, m_auth m, m_n m + 1)
       else
         r ← seg_complete cfg tcfg env access_recv ctl_handler i x.1 (header_of m k) rpl;
         match r with
         | inl q => mret (BT_MESH_FRIEND_PDU_COMPLETE, q, m_n m + 1)
         | inr err => fail err
         end) s1.
Proof.
  intros Hm Hr Ha Hk. destruct (trans_seg_arrival m x k s Hm Ha) as (rpl & Erpl & Hold & E).
  assert (exists s0, seg_context cfg tcfg env x.1 (header_of m k) rpl s = (Ok i, s0) /\ holding m i got s0 /\
            t_net s0 = t_net s /\ t_free s0 = t_free s) as (s0 & E0 & H0' & Hn0 & Hf0).
  { destruct Hr as [[-> Hf]|Hh].
    - destruct (context_new m i x k rpl s Hm Hf (ar_segment _ _ _ _ Ha) Hold) as (f & E0 & Hh). by exists (upd i f s).
    - exists s. split_and!; [exact (context_found m i got x k rpl s Hh (ar_segment _ _ _ _ Ha))|done..]. }
  destruct (store_new m i got k x.1 rpl s0 Hm H0' Hk (ar_index _ _ _ _ (ar_meta _ _ _ _ (ar_segment _ _ _ _ Ha)))) as (s1 & H1 & Hn1 & Hf1 & E1).
  exists rpl, s1. split_and!; [done|done|congruence|lia|]. intros access_recv ctl_handler.
  rewrite E, (bind_ok _ _ _ _ _ E0). apply E1.
Qed.

(** Segments, one after the other, with the answers. *)
Fixpoint feed access_recv ctl_handler (l : list (bt_mesh_net_rx * bt_buf_simple)) : M st (list (trans_seg_result + Z)) :=
  match l with
  | [] => mret []
  | x :: l =>
      r ← attempt (trans_seg cfg tcfg env access_recv ctl_handler x.2 x.1);
      rs ← feed access_recv ctl_handler l;
      mret (r :: rs)
  end.

(** The answers while the message is not complete, and the segments that are there. *)
Fixpoint answers m (l : list nat) (got : list nat) : list (trans_seg_result + Z) :=
  match l with
  | [] => []
  | k :: l =>
      if decide (k ∈ got) then inr (- EALREADY) :: answers m l got
      else inl (BT_MESH_FRIEND_PDU_PARTIAL, m_auth m, m_n m + 1) :: answers m l (k :: got)
  end.
Fixpoint collected (l : list nat) (got : list nat) : list nat :=
  match l with
  | [] => got
  | k :: l => collected l (if decide (k ∈ got) then got else k :: got)
  end.

Lemma collected_elem l got k : k ∈ collected l got <-> k ∈ l \/ k ∈ got.
Proof.
  revert got. induction l as [|j l IH]; intros got; simpl; [set_solver|].
  rewrite IH. case_decide; set_solver.
Qed.

Lemma feed_run m i l got s :
  message_ok m -> receiving m i got s -> (forall a, a ∈ l -> arrival m s a.1 a.2) ->
  (exists j : nat, Z.of_nat j <= m_n m /\ j ∉ collected l.*2 got) ->
  exists s1, (forall access_recv ctl_handler, feed access_recv ctl_handler l.*1 s = (Ok (answers m l.*2 got), s1)) /\
    receiving m i (collected l.*2 got) s1 /\ t_net s1 = t_net s /\
    (t_free s1 + length (collected l.*2 got) = t_free s + length got)%nat.
Proof.
  intros Hm. revert got s. induction l as [|[x k] l IH]; intros got s Hr Ha (j & Hj & Hnot); [by exists s|].
  assert (arrival m s x k) as Hxk by (apply (Ha (x, k)); by left).
  assert (forall s1, t_net s1 = t_net s -> forall a, a ∈ l -> arrival m s1 a.1 a.2) as Hl.
  { intros s1 En a Hin. eapply arrival_net; [exact En|]. apply Ha. by right. }
  cbn [fmap list_fmap fst snd] in *. destruct (decide (k ∈ got)) as [Hk|Hk].
  - cbn [collected] in Hnot |- *. rewrite decide_True in Hnot |- * by done.
    destruct (IH got s) as (s1 & E & H1 & Hn1 & Hf1); [done|by apply Hl|by exists j|].
    exists s1. split_and!; try done. intros access_recv ctl_handler. cbn [feed answers]. rewrite decide_True by done.
    rewrite (bind_ok _ _ s (inr (- EALREADY)) s) by (unfold attempt; by rewrite (arrival_again m i got x k)).
    by rewrite (bind_ok _ _ _ _ _ (E access_recv ctl_handler)).
  - cbn [collected] in Hnot |- *. rewrite decide_False in Hnot |- * by done.
    destruct (arrival_new m i got x k s Hm Hr Hxk Hk) as (rpl & s0 & _ & H0' & Hn0 & Hf0 & E0).
    assert (sr_block (rx_at i s0) <> BLOCK_COMPLETE (m_n m)) as Hb.
    { destruct (m_n_range m Hm) as [Hn _]. destruct H0'. intros Eb. apply Hnot, collected_elem. right.
      by apply (proj1 (block_complete _ _ (m_n m) Hn ho_block0 ho_below0) Eb). }
    destruct (IH (k :: got) s0) as (s1 & E & H1 & Hn1 & Hf1); [by right|by apply Hl|by exists j|].
    exists s1. split_and!; [|done|congruence|cbn [length] in Hf1; lia].
    intros access_recv ctl_handler. cbn [feed answers]. rewrite decide_False by done.
    rewrite (bind_ok _ _ s (inl (BT_MESH_FRIEND_PDU_PARTIAL, m_auth m, m_n m + 1)) s0);
      [by rewrite (bind_ok _ _ _ _ _ (E access_recv ctl_handler))|].
    unfold attempt. rewrite E0. by rewrite (proj2 (Z.eqb_neq _ _) Hb).
Qed.

(** What the layer returns for the last segment. *)
Definition last_answer m (o : outcome unit) : outcome trans_seg_result :=
  match o with
  | Ok _ => Ok (BT_MESH_FRIEND_PDU_COMPLETE, m_auth m, m_n m + 1)
  | Err e => Err e
  | Crash => Crash
  end.

(** The segments [l] are answered and kept, and with the last one, [x], the access layer is
    called with [plain]. *)
Definition reassembles m (i : nat) (l : list (bt_mesh_net_rx * bt_buf_simple * nat)) x (app : app_key) (plain : list Z) s : Prop :=
  exists s1, (forall access_recv ctl_handler, feed access_recv ctl_handler l.*1 s = (Ok (answers m l.*2 []), s1)) /\
    t_net s1 = t_net s /\ exists s2, sent_kept (t_net s) (t_net s2) /\
      (t_free s2 + Z.to_nat (m_n m + 1) = t_free s)%nat /\
    forall access_recv ctl_handler o s3,
      access_recv (rx_set_app_idx (app_idx app) x.1) None plain s2 = (o, s3) -> o <> Crash -> t_rx s3 = t_rx s2 ->
      exists rpl s4, trans_seg cfg tcfg env access_recv ctl_handler x.2 x.1 s1 = (last_answer m o, s4) /\
        closed m i s4 /\ t_free s4 = (t_free s3 + Z.to_nat (m_n m + 1))%nat /\
        bt_mesh_rpl_check (c_settings cfg) (c_rpl_timeout cfg) x.1 true false (n_rpl (t_net s)) =
          (false, rpl, n_rpl (t_net s)) /\
        n_rpl (t_net s4) = match o with
                           | Ok _ => rpl_accept rpl x.1 (m_auth m) (n_rpl (t_net s3))
                           | _ => n_rpl (t_net s3)
                           end.

Lemma reassembles_run m i l x k app plain s :
  message_ok m -> fresh m i s -> (forall a, a ∈ l ++ [(x, k)] -> arrival m s a.1 a.2) ->
  k ∉ l.*2 -> (forall j : nat, Z.of_nat j <= m_n m -> j = k \/ j ∈ l.*2) -> ready_for m x.1 (t_net s) app plain ->
  reassembles m i l x app plain s.
Proof.
  intros Hm Hf Ha Hk Hall Hready. destruct (m_n_range m Hm) as [Hn _].
  assert (arrival m s x k) as Hxk by (apply (Ha (x, k)); apply elem_of_app; right; by left).
  assert (k ∉ collected l.*2 []) as Hkc by (rewrite collected_elem; by intros [?|?%elem_of_nil]).
  destruct (feed_run m i l [] s Hm) as (s1 & E & H1 & Hn1 & Hf1);
    [by left|intros a Hin; apply Ha, elem_of_app; by left|exists k; split; [apply (ar_meta _ _ _ _ (ar_segment _ _ _ _ Hxk))|done]|].
  exists s1. split; [done|]. split; [done|].
  destruct (arrival_new m i _ x k s1 Hm H1 (arrival_net _ _ _ _ _ Hn1 Hxk) Hkc) as (rpl & s0 & Erpl & H0' & Hn0 & Hf0 & E0).
  rewrite Hn1 in Erpl.
  assert (forall j : nat, Z.of_nat j <= m_n m -> j ∈ k :: collected l.*2 []) as Hall'.
  { intros j Hj. apply elem_of_cons. destruct (Hall j Hj) as [->|Hin]; [by left|right]. apply collected_elem. by left. }
  assert (t_net s0 = t_net s) as En by congruence.
  destruct (seg_complete_run m i _ x k rpl app plain s0 Hm H0' Hall') as (s2 & Hn2 & Htx & Hf2 & _ & Hrun);
    [by apply (segment_net m s), Hxk|by rewrite En|].
  rewrite En in Hn2. exists s2. split; [done|]. split.
  { pose proof (nodup_below _ (Z.to_nat (m_n m)) (ho_nodup _ _ _ _ H0')) as Hle.
    lapply Hle; [clear Hle; intros Hle|intros j Hj; apply (ho_below _ _ _ _ H0') in Hj; lia].
    pose proof (all_length m _ ltac:(lia) Hall') as Hge. cbn [length] in Hle, Hge, Hf1. lia. }
  intros access_recv ctl_handler o s3 Eacc Ho Hrx.
  destruct (Hrun access_recv ctl_handler o s3 Eacc Ho Hrx) as (s4 & E4 & Hcl & Hf4 & Hn4).
  exists rpl, s4. split_and!; try done. rewrite E0.
  rewrite (full_blocks m i _ s0 Hm H0' Hall'), Z.eqb_refl. cbn [negb]. rewrite (bind_ok _ _ _ _ _ E4).
  by destruct o.
Qed.

(** C6: A message is reassembled from its segments whatever their order and however often
    they are repeated: until the last one that is missing the layer answers that it has
    a part, or -EALREADY, and calls nobody, as the answers and the state do not depend
    on the layers above; with the last one it calls the access layer, once, with the
    message as it was sealed by the sender, and whatever the access layer answers the
    context is closed, its blocks are free again and, if there was no error, the replay
    list has the message. *)
Theorem sar_reassembles m i l x k app plain s :
  message_ok m -> fresh m i s -> (forall a, a ∈ l ++ [(x, k)] -> arrival m s a.1 a.2) ->
  k ∉ l.*2 -> (forall j : nat, Z.of_nat j <= m_n m -> j = k \/ j ∈ l.*2) -> ready_for m x.1 (t_net s) app plain ->
  reassembles m i l x app plain s.
Proof. apply reassembles_run. Qed.

(** ** After the message *)

Lemma closed_ext m i s s' : closed m i s -> t_rx s' = t_rx s -> closed m i s'.
Proof.
  intros [] Hrx. assert (rx_at i s' = rx_at i s) as Er by (unfold rx_at; by rewrite Hrx).
  split; rewrite ?Er, ?Hrx; done.
Qed.

(** Noting when the last acknowledgement was sent. *)
Lemma closed_acked m i t s : closed m i s -> closed m i (upd i (fun rx => rx <| sr_last_ack := t |>) s).
Proof.
  intros []. split; rewrite ?rx_at_upd by done; try done.
  - cbn. by rewrite length_alter.
  - cbn. rewrite <-(Nat.add_0_l i). by apply find_scan_keep.
Qed.

(** The contexts are as they were, but for the time of an acknowledgement. *)
Definition no_context_changed (i : nat) s s' : Prop :=
  t_rx s' = t_rx s \/ exists t, t_rx s' = alter (fun rx => rx <| sr_last_ack := t |>) i (t_rx s).

(** A segment of a complete message may be acknowledged again. *)
Lemma seg_old_run m i net_rx rpl s :
  closed m i s ->
  (forall obo, ack_ready env (t_net s) (Z.to_nat (rx_sub net_rx)) (rx_recv_dst net_rx) (rx_addr net_rx)
     (rx_send_ttl net_rx) obo) ->
  exists s', seg_old cfg tcfg env i net_rx (m_auth m) rpl s = (Err (- EALREADY), s') /\ closed m i s' /\
    t_free s' = t_free s /\ no_context_changed i s s'.
Proof.
  intros Hc Hack. unfold seg_old. rewrite (bind_ok (gets (rx_at i)) _ s (rx_at i s) s) by done.
  rewrite (cd_block _ _ _ Hc), (cd_seg_n _ _ _ Hc), Z.eqb_refl.
  assert (forall s1, closed m i s1 -> t_free s1 = t_free s -> no_context_changed i s s1 -> exists s',
    (_ ← rpl_update cfg rpl net_rx; fail (- EALREADY)) s1 = (Err (- EALREADY) : outcome nat, s') /\ closed m i s' /\
      t_free s' = t_free s /\ no_context_changed i s s') as Hend.
  { intros s1 H1 Hf1 Hx1. unfold rpl_update. destruct rpl as [k|]; [|by exists s1].
    eexists. split; [done|]. split; [by eapply closed_ext|done]. }
  destruct (_ <? _); [|by rewrite (bind_ok _ _ s () s) by done; apply Hend; [..|left]].
  destruct (send_ack_run cfg tcfg env (Z.to_nat (rx_sub net_rx)) (rx_recv_dst net_rx) (rx_addr net_rx) (rx_send_ttl net_rx)
    (m_auth m) (BLOCK_COMPLETE (m_n m)) (sr_obo (rx_at i s)) s) as (r & s2 & E2 & Hk2); [apply Hack|].
  destruct Hk2 as (Hrx2 & _ & Hfr2 & _).
  rewrite (bind_ok _ _ s () (upd i (fun rx => rx <| sr_last_ack := u32 (uptime env) |>) s2)).
  - apply Hend; [|done|].
    + apply closed_acked. by eapply closed_ext.
    + right. exists (u32 (uptime env)). unfold upd. cbn. by rewrite Hrx2.
  - by rewrite (bind_ok _ _ _ _ _ E2).
Qed.

(** C22: A message that was passed on is not passed on again.  Once its context is closed, a
    segment of it that comes later is refused, with [-EINVAL] if the replay list has it and
    with [-EALREADY] otherwise, and the answer and the state after it do not depend on the
    layers above, which are not called.  The context stays closed and no block is taken;
    the contexts are as they were, but for the time at which the closed one was last
    acknowledged, when it is.  For a node that is able to send acknowledgements. *)
Theorem sar_once m i x k s :
  message_ok m -> closed m i s -> segment_of m s x k ->
  (forall obo, ack_ready env (t_net s) (Z.to_nat (rx_sub x.1)) (rx_recv_dst x.1) (rx_addr x.1) (rx_send_ttl x.1) obo) ->
  exists e s', (e = - EINVAL \/ e = - EALREADY) /\ closed m i s' /\ t_free s' = t_free s /\ no_context_changed i s s' /\
    forall access_recv ctl_handler, trans_seg cfg tcfg env access_recv ctl_handler x.2 x.1 s = (Err e, s').
Proof.
  intros Hm Hc Hs Hack.
  destruct (rpl_slot (W := W) cfg x.1 s) as [r s0] eqn:Er.
  assert (s0 = s /\ (r = Err (- EINVAL) \/ exists rpl, r = Ok rpl)) as [-> Hr].
  { unfold rpl_slot, mbind, M_bind, gets in Er. destruct (bt_mesh_rpl_check _ _ _ _ _ _) as [[[] slot] ?];
      injection Er as <- <-; split; [done|by left|done|right; by eexists]. }
  destruct Hr as [->|[rpl ->]].
  { exists (- EINVAL), s. split; [by left|]. split; [done|]. split; [done|]. split; [by left|]. intros access_recv ctl_handler.
    rewrite (trans_seg_parsed m x k) by done. unfold mbind, M_bind. by rewrite Er. }
  destruct (seg_old_run m i x.1 rpl s Hc Hack) as (s' & E & Hc' & Hf' & Hx').
  exists (- EALREADY), s'. split; [by right|]. split; [done|]. split; [done|]. split; [done|]. intros access_recv ctl_handler.
  rewrite (trans_seg_parsed m x k) by done. rewrite (bind_ok _ _ _ _ _ Er).
  assert (seg_context cfg tcfg env x.1 (header_of m k) rpl s = (Err (- EALREADY), s')) as E2.
  { destruct Hs as [_ _ []], Hc. unfold seg_context. rewrite (bind_ok _ _ s (Some i) s); last first.
    { unfold seg_rx_find, mbind, M_bind, gets. cbn [sh_seq_auth header_of]. by rewrite ar_src0, ar_dst0, cd_found0. }
    rewrite (bind_ok (gets (rx_at i)) _ s (rx_at i s) s) by done. cbn [sh_seq_auth sh_hdr sh_seg_n header_of].
    rewrite cd_auth0, Z.ltb_irrefl. unfold seg_rx_is_valid.
    by rewrite cd_hdr0, cd_seg_n0, cd_src0, cd_dst0, cd_ctl0, ar_src0, ar_dst0, ar_ctl0, !Z.eqb_refl, cd_in_use0. }
  unfold mbind at 1, M_bind at 1. by rewrite E2.
Qed.

End Reassembly.
