(* ===== verification/TransTx.v ===== *)
(** Segmentation in the transport layer: how a message is cut up, what its segments look
    like on their way to the network layer, and that a receiver puts it together again. *)

From S2P Require Import Prelude Byteorder BufSimple MeshDefs Rpl CryptoIf Crypto Subnet NetIv Net NetPdu NetFlow.
From S2P Require Import AppKeys Transport TransRx.

(** Piece [k] of a message cut up into pieces of [L] bytes. *)
Definition chunk (L : nat) (data : list Z) (k : nat) : list Z := take L (drop (L * k) data).

Lemma seg_len_cases ctl : seg_len ctl = 8 \/ seg_len ctl = 12.
Proof. destruct ctl; auto. Qed.

Lemma lor_byte a b : is_byte a -> is_byte b -> is_byte (Z.lor a b).
Proof.
  intros Ha Hb. rewrite <-(u8_id a), <-(u8_id b) by done. unfold u8, is_byte.
  change 256 with (2 ^ 8). rewrite <-!Z.land_ones by lia. rewrite <-Z.land_lor_distr_l, Z.land_ones by lia.
  apply Z.mod_pos_bound. lia.
Qed.

Lemma SEG_HDR_byte akf aid : 0 <= akf < 2 -> is_byte (SEG_HDR akf aid).
Proof.
  intros Hk. unfold SEG_HDR, UNSEG_HDR, AID_MASK, BIT_MASK. rewrite Z.land_ones, Z.shiftl_mul_pow2 by lia.
  pose proof (Z.mod_pos_bound aid (2 ^ 6) ltac:(lia)) as Hm. change (2 ^ 6) with 64 in *.
  repeat apply lor_byte; unfold is_byte; lia.
Qed.

Lemma SEG_HDR_AKF aid : AKF (SEG_HDR 1 aid) = 1.
Proof.
  unfold AKF, SEG_HDR, UNSEG_HDR, AID_MASK, BIT_MASK. rewrite (Z.land_ones aid) by lia.
  pose proof (Z.mod_pos_bound aid (2 ^ 6) ltac:(lia)) as Hm. set (a := aid mod 2 ^ 6) in *. clearbody a.
  change (2 ^ 6) with 64 in Hm. rewrite lor_shl_add by (simpl Z.pow; lia). change 0x80 with (Z.shiftl 1 7).
  rewrite Z.lor_comm, lor_shl_add by (simpl Z.pow; lia). rewrite Z.shiftr_div_pow2 by lia.
  rewrite <-(Z.div_unique _ _ 3 a); [done|simpl Z.pow; lia..].
Qed.

Lemma new_buf_wf n : 0 <= n <= UINT16_MAX -> wf (mk_buf (replicate (Z.to_nat n) 0) 0 0 n).
Proof. intros Hn. split; cbn [b_data b_len b_size b_store]; rewrite ?length_replicate; try lia. by apply Forall_replicate. Qed.

Section Tx.

Context {W : Type} `{MeshCryptoLaws W}.
Context (cfg : net_cfg) (tcfg : trans_cfg) (env : trans_env).
Notation st := (trans_node W).
Implicit Types s : st.
Notation utx i f s := (s <| t_tx ::= alter f i |>).

Lemma tx_at_utx i f s : (i < length (t_tx s))%nat -> tx_at i (utx i f s) = f (tx_at i s).
Proof. intros Hi. unfold tx_at. cbn. by rewrite list_lookup_total_alter_eq. Qed.

(** * Building a segment *)

(** What the fields of a context must be. *)
Record tx_fields_ok (tx : seg_tx) : Prop := {
  tf_hdr : is_byte (sx_hdr tx);
  tf_aszmic : 0 <= sx_aszmic tx < 2;
  tf_auth : 0 <= sx_seq_auth tx;
  tf_seg_n : 0 <= sx_seg_n tx < 32
}.

(** The payload of segment [o] of a context, with data [d]. *)
Definition tx_pdu (tx : seg_tx) (o : Z) (d : list Z) : list Z :=
  seg_pdu (sx_hdr tx) (sx_aszmic tx) (sx_seq_auth tx mod 2 ^ 13) o (sx_seg_n tx) d.

Lemma tx_pdu_bytes tx o d :
  tx_fields_ok tx -> 0 <= o < 32 -> Forall is_byte d -> Forall is_byte (tx_pdu tx o d).
Proof.
  intros [] Ho Hd. pose proof (Z.mod_pos_bound (sx_seq_auth tx) (2 ^ 13) ltac:(lia)) as Hz.
  set (z := sx_seq_auth tx mod 2 ^ 13) in *.
  unfold tx_pdu. fold z. rewrite seg_pdu_bytes by lia. apply Forall_app. split; [|done].
  assert (0 <= z / 64 < 128) by (split; [apply Z.div_pos; lia|apply Z.div_lt_upper_bound; lia]).
  assert (0 <= o / 8 < 4) by (split; [apply Z.div_pos; lia|apply Z.div_lt_upper_bound; lia]).
  pose proof (Z.mod_pos_bound z 64 ltac:(lia)). pose proof (Z.mod_pos_bound o 8 ltac:(lia)).
  unfold is_byte in *. repeat constructor; lia.
Qed.

Lemma seg_tx_buf_build_run tx o d buf s :
  tx_fields_ok tx -> 0 <= o < 32 -> sx_seg tx !! Z.to_nat o = Some (Some d) -> Forall is_byte d ->
  zlen d = Z.min (seg_len (sx_ctl tx)) (sx_len tx - seg_len (sx_ctl tx) * o) ->
  wf buf -> b_data buf + b_len buf + 4 + zlen d <= b_size buf ->
  exists buf', seg_tx_buf_build tx o buf s = (Ok buf', s) /\ wf buf' /\
    content buf' = content buf ++ tx_pdu tx o d /\ b_data buf' = b_data buf /\ b_size buf' = b_size buf /\
    b_len buf' = b_len buf + 4 + zlen d.
Proof.
  intros Hok Ho Hd Hdb Hlen Hb Hroom. pose proof (tx_pdu_bytes tx o d Hok Ho Hdb) as Hby.
  unfold tx_pdu, seg_pdu in Hby. apply Forall_app in Hby as [Hby _].
  apply bytes_cons in Hby as [B1 Hby]. apply bytes_cons in Hby as [B2 Hby]. apply bytes_cons in Hby as [B3 Hby].
  apply bytes_cons in Hby as [B4 _].
  assert (Z.land (sx_seq_auth tx) TRANS_SEQ_ZERO_MASK = sx_seq_auth tx mod 2 ^ 13) as Ez.
  { unfold TRANS_SEQ_ZERO_MASK, BIT_MASK. by rewrite Z.land_ones by lia. }
  destruct (add_u8_run buf _ Hb B1 ltac:(lia)) as (b1 & E1 & Hw1 & Hc1 & Hd1 & Hl1 & Hz1).
  destruct (add_u8_run b1 _ Hw1 B2 ltac:(lia)) as (b2 & E2 & Hw2 & Hc2 & Hd2 & Hl2 & Hz2).
  destruct (add_u8_run b2 _ Hw2 B3 ltac:(lia)) as (b3 & E3 & Hw3 & Hc3 & Hd3 & Hl3 & Hz3).
  destruct (add_u8_run b3 _ Hw3 B4 ltac:(lia)) as (b4 & E4 & Hw4 & Hc4 & Hd4 & Hl4 & Hz4).
  destruct (add_mem_run b4 d Hw4 Hdb ltac:(lia)) as (b5 & E5 & Hw5 & Hc5 & Hd5 & Hl5 & Hz5).
  exists b5. split_and!; [|done| |lia|lia|lia].
  - unfold seg_tx_buf_build. rewrite Ez, E1. rewrite (bind_ok _ _ s b1 s) by done. rewrite E2.
    rewrite (bind_ok _ _ s b2 s) by done. rewrite E3. rewrite (bind_ok _ _ s b3 s) by done. rewrite E4.
    rewrite (bind_ok _ _ s b4 s) by done. unfold seg_entry. rewrite (proj2 (Z.ltb_ge _ _)) by lia. rewrite Hd.
    rewrite (bind_ok _ _ s (Some d) s) by done. rewrite (bind_ok _ _ s d s) by done.
    assert (mem_read d 0 (u8 (Z.min (seg_len (sx_ctl tx)) (sx_len tx - seg_len (sx_ctl tx) * o))) = Some d) as ->.
    { destruct (seg_len_cases (sx_ctl tx)) as [El|El]; rewrite El in *.
      all: rewrite <-Hlen, u8_id by lia; rewrite mem_read_some by lia; unfold slice; rewrite drop_0, take_ge; [done|lia]. }
    rewrite (bind_ok _ _ s d s) by done. by rewrite E5.
  - rewrite Hc5, Hc4, Hc3, Hc2, Hc1. unfold tx_pdu, seg_pdu. by rewrite <-!app_assoc.
Qed.

(** C25: What the transport layer writes as segment [o] of a message the receiver's parser
    reads back: the first byte, the MIC size, the SeqAuth of the message, whatever the
    distance of the segment's own sequence number to the first one (below 2^13), the
    number of the segment and of the last one, and the data. *)
Theorem seg_build_parse tx o d buf s net_rx iv seq0 pdu :
  tx_fields_ok tx -> 0 <= o < 32 -> sx_seg tx !! Z.to_nat o = Some (Some d) -> Forall is_byte d ->
  zlen d = Z.min (seg_len (sx_ctl tx)) (sx_len tx - seg_len (sx_ctl tx) * o) ->
  wf buf -> b_len buf = 0 -> b_data buf + 4 + zlen d <= b_size buf ->
  sx_seq_auth tx = SEQ_AUTH (BT_MESH_NET_IVI_RX iv (rx_old_iv net_rx)) seq0 -> 0 <= seq0 <= rx_seq net_rx ->
  rx_seq net_rx < seq0 + 2 ^ 13 -> seq0 < 2 ^ 24 ->
  seg_tx_buf_build tx o buf s = (Ok pdu, s) ->
  exists rest, seg_parse pdu net_rx iv =
      Some (mk_seg_hdr (sx_hdr tx) (sx_aszmic tx) (sx_seq_auth tx) o (sx_seg_n tx), rest) /\ content rest = d.
Proof.
  intros Hok Ho Hd Hdb Hlen Hb Hl Hroom Hauth Hq Hq1 Hq2 E.
  destruct (seg_tx_buf_build_run tx o d buf s) as (pdu' & E' & Hw & Hc & _); try done; [lia|].
  rewrite E in E'. injection E' as <-.
  assert (content buf = []) as Hnil.
  { apply nil_length_inv. pose proof (content_length buf Hb). lia. }
  rewrite Hnil in Hc. cbn [app] in Hc. unfold tx_pdu in Hc.
  assert (sx_seq_auth tx mod 2 ^ 13 = seq0 mod 2 ^ 13) as Ez.
  { rewrite Hauth, <-!Z.land_ones by lia. pose proof (m_auth_seq (mk_message 0 0 0 0 (BT_MESH_NET_IVI_RX iv (rx_old_iv net_rx)) seq0 []) ltac:(simpl; lia)) as Hm.
    cbn in Hm. unfold m_auth in Hm. cbn [m_iv m_seq0] in Hm. change 0xffffff with (Z.ones 24) in Hm.
    rewrite <-Hm at 2. rewrite <-Z.land_assoc. done. }
  rewrite Ez in Hc. destruct Hok.
  destruct (seg_parse_run (sx_hdr tx) (sx_aszmic tx) seq0 o (sx_seg_n tx) d pdu net_rx iv) as (rest & Ep & _ & Hr);
    try done; [lia..|].
  exists rest. rewrite Hauth. done.
Qed.

(** * Cutting a message up *)

(** The friend queue takes no message of the node itself for good. *)
Definition friend_leaves (dst : Z) : Prop :=
  c_friend cfg = true -> BT_MESH_ADDR_IS_UNICAST dst = true -> forall n, friend_enqueue_tx env n = false.

(** The entries [k] up to [n] of a context are the pieces of [data]. *)
Definition cut_from (L : nat) (data : list Z) (k n : nat) (l l' : list (option (list Z))) : Prop :=
  length l' = length l /\
  forall j, l' !! j = if decide (k <= j < n)%nat then Some (Some (chunk L data j)) else l !! j.

Lemma pull_mem_run b n rest :
  wf b -> 0 <= n -> content b = take (Z.to_nat n) (content b) ++ rest -> n <= b_len b ->
  bt_buf_simple_pull_mem b n = Some (pulled b n, b_data b) /\ b_store (pulled b n) = b_store b /\
  mem_read (b_store b) (b_data b) n = Some (take (Z.to_nat n) (content b)) /\ wf (pulled b n) /\
  content (pulled b n) = rest /\ b_len (pulled b n) = b_len b - n.
Proof.
  intros Hb Hn Hc Hl. pose proof (content_length b Hb) as Hlen.
  assert (zlen (take (Z.to_nat n) (content b)) = n) as Htk by (rewrite length_take; lia).
  destruct (pull_run b n _ _ Hb Hc Htk) as (Er & Ep & Hw & Hc' & Hl').
  split_and!; try done.
  - unfold bt_buf_simple_pull_mem, assert. by rewrite (proj2 (Z.leb_le _ _)) by lia.
  - rewrite Hl'. apply (f_equal length) in Hc. rewrite length_app in Hc. lia.
Qed.

Lemma chunk_length L data (k : nat) : zlen (chunk L data k) = Z.max 0 (Z.min (Z.of_nat L) (zlen data - Z.of_nat (L * k))).
Proof. unfold chunk. rewrite length_take, length_drop. lia. Qed.

Lemma chunk_bytes L data k : Forall is_byte data -> Forall is_byte (chunk L data k).
Proof. intros Hd. by apply Forall_take, Forall_drop. Qed.

(** The context of a message of [len] bytes, as [send_seg] fills it in. *)
Record tx_for (ctl : bool) (data : list Z) (tx : seg_tx) : Prop := {
  tfo_ok : tx_fields_ok tx;
  tfo_ctl : sx_ctl tx = ctl;
  tfo_len : sx_len tx = zlen data;
  tfo_n : sx_seg_n tx = (zlen data - 1) / seg_len ctl
}.

Definition msg_seg_len (ctl_op : option Z) : Z := seg_len (bool_decide (is_Some ctl_op)).

(** The number of segments. *)
Lemma seg_n_bounds (data : list Z) L :
  1 <= zlen data -> L = 8 \/ L = 12 ->
  0 <= (zlen data - 1) / L /\ (zlen data - 1) / L * L < zlen data <= (zlen data - 1) / L * L + L.
Proof.
  intros Hl HL. pose proof (Z.div_mod (zlen data - 1) L ltac:(lia)).
  pose proof (Z.mod_pos_bound (zlen data - 1) L ltac:(lia)). split; [apply Z.div_pos; lia|lia].
Qed.

(** One round: the piece is in its entry, and a block less is free. *)
Lemma send_seg_one_run i net_tx ctl_op data (k : nat) sdu s :
  let ctl := bool_decide (is_Some ctl_op) in
  let L := Z.to_nat (seg_len ctl) in
  friend_leaves (tx_dst (tt_net net_tx)) -> tx_for ctl data (tx_at i s) -> (i < length (t_tx s))%nat ->
  (k < length (sx_seg (tx_at i s)))%nat -> Z.of_nat (L * k) < zlen data -> Forall is_byte data -> (k < 32)%nat ->
  wf sdu -> content sdu = drop (L * k) data -> (0 < t_free s)%nat ->
  exists sdu' s', send_seg_one cfg env i net_tx ctl_op (Z.of_nat k) sdu s = (Ok sdu', s') /\
    wf sdu' /\ content sdu' = drop (L * S k) data /\ b_len sdu' = Z.max 0 (b_len sdu - seg_len ctl) /\
    t_tx s' = alter (fun tx => tx <| sx_seg ::= <[k := Some (chunk L data k)]> |>) i (t_tx s) /\
    t_rx s' = t_rx s /\ t_net s' = t_net s /\ (t_free s' + 1 = t_free s)%nat.
Proof.
  intros ctl L Hfr [Hok Hctl Hlen Hn] Hi Hk HLk Hdb Hk32 Hb Hc Hfree.
  pose proof (seg_len_cases ctl) as HL. pose proof (content_length sdu Hb) as Hbl. rewrite Hc, length_drop in Hbl.
  assert (Z.of_nat L = seg_len ctl) as HLz by lia.
  assert (content sdu = take (Z.to_nat (Z.min (b_len sdu) (seg_len ctl))) (content sdu) ++ drop (L * S k) data) as Hsplit.
  { replace (L * S k)%nat with (L * k + L)%nat by lia. rewrite <-drop_drop, <-Hc.
    destruct (Z.le_gt_cases (seg_len ctl) (b_len sdu)).
    - rewrite Z.min_r by lia. fold L. by rewrite take_drop.
    - rewrite Z.min_l by lia. rewrite take_ge by (rewrite Hc, length_drop; lia).
      rewrite drop_ge by (rewrite Hc, length_drop; lia). by rewrite app_nil_r. }
  destruct (pull_mem_run sdu (Z.min (b_len sdu) (seg_len ctl)) (drop (L * S k) data))
    as (Ep & Es & Er & Hw & Hc' & Hl'); [done|lia|done|lia|].
  assert (take (Z.to_nat (Z.min (b_len sdu) (seg_len ctl))) (content sdu) = chunk L data k) as Ech.
  { unfold chunk. rewrite Hc. destruct (Z.le_gt_cases (seg_len ctl) (b_len sdu)); [by rewrite Z.min_r by lia|].
    rewrite Z.min_l by lia. rewrite !take_ge; [done|rewrite length_drop; lia..]. }
  rewrite Ech in Er.
  set (s1 := s <| t_free := (t_free s - 1)%nat |>).
  set (f := fun tx : seg_tx => tx <| sx_seg ::= <[k := Some (chunk L data k)]> |>).
  set (s2 := utx i f s1).
  assert (exists s', (if c_friend cfg then
             tx ← gets (tx_at i);
             seg ← seg_tx_buf_build tx (Z.of_nat k) (mk_buf (replicate 16 0) 0 0 16);
             pdu ← checked (mem_read (b_store seg) (b_data seg) (b_len seg));
             n ← gets (fun s => length (t_out s));
             _ ← log (FriendEnqueueTx
                   (if Z.of_nat k =? sx_seg_n tx then BT_MESH_FRIEND_PDU_COMPLETE else BT_MESH_FRIEND_PDU_PARTIAL)
                   (if ctl then None else Some (sx_seq_auth tx)) (sx_seg_n tx + 1) pdu);
             if friend_enqueue_tx env n && BT_MESH_ADDR_IS_UNICAST (tx_dst (tt_net net_tx)) then
               _ ← segs_free;
               on_tx i (fun tx => tx <| sx_seg ::= <[Z.to_nat (Z.of_nat k) := None]> |>)
             else mret ()
           else mret ()) s2 = (Ok () : outcome unit, s') /\ t_tx s' = t_tx s2 /\ t_rx s' = t_rx s2 /\ t_net s' = t_net s2 /\
             t_free s' = t_free s2) as (s3 & E3 & Htx3 & Hrx3 & Hn3 & Hf3).
  { destruct (c_friend cfg) eqn:Hcf; [|by exists s2].
    assert (tx_at i s2 = f (tx_at i s)) as Etx by (unfold s2; by rewrite tx_at_utx).
    destruct (seg_tx_buf_build_run (f (tx_at i s)) (Z.of_nat k) (chunk L data k) (mk_buf (replicate 16 0) 0 0 16) s2)
      as (seg & Eb & Hws & _); [by destruct Hok|lia| |by apply chunk_bytes| |by apply (new_buf_wf 16)| |].
    { rewrite Nat2Z.id. by apply list_lookup_insert_eq. }
    { change (sx_ctl (f (tx_at i s))) with (sx_ctl (tx_at i s)). change (sx_len (f (tx_at i s))) with (sx_len (tx_at i s)).
      rewrite chunk_length, Hctl, Hlen. lia. }
    { rewrite chunk_length. simpl b_data. simpl b_len. simpl b_size. lia. }
    rewrite (bind_ok (gets (tx_at i)) _ s2 (f (tx_at i s)) s2) by (unfold gets; by rewrite Etx).
    rewrite (bind_ok _ _ _ _ _ Eb). destruct Hws. rewrite mem_read_some by lia. rewrite (bind_ok _ _ s2 (content seg) s2) by done.
    eexists. split.
    - unfold mbind, M_bind, gets, log, change.
      destruct (BT_MESH_ADDR_IS_UNICAST (tx_dst (tt_net net_tx))) eqn:Hu; [|rewrite andb_false_r; reflexivity].
      rewrite (Hfr Hcf Hu). reflexivity.
    - done. }
  exists (pulled sdu (Z.min (b_len sdu) (seg_len ctl))), s3. split_and!; try done.
  - unfold send_seg_one. fold ctl.
    rewrite (bind_ok (attempt segs_alloc) _ s (inl ()) s1); last first.
    { unfold attempt, segs_alloc, s1. destruct (t_free s) as [|n]; [lia|]. simpl. by rewrite Nat.sub_0_r. }
    rewrite Ep. rewrite (bind_ok _ _ s1 (pulled sdu (Z.min (b_len sdu) (seg_len ctl)), b_data sdu) s1) by done.
    cbv beta iota. rewrite Es, Er. rewrite (bind_ok _ _ s1 (chunk L data k) s1) by done.
    rewrite (bind_ok (gets (tx_at i)) _ s1 (tx_at i s) s1) by done. rewrite Nat2Z.id.
    destruct (lookup_lt_is_Some_2 (sx_seg (tx_at i s)) k Hk) as [e He]. rewrite He.
    rewrite (bind_ok _ _ s1 e s1) by done. rewrite (bind_ok (on_tx i _) _ s1 () s2) by done.
    rewrite Nat2Z.id in E3. by rewrite (bind_ok _ _ _ _ _ E3).
  - rewrite Hl'. lia.
  - rewrite Hf3. cbn. lia.
Qed.

Lemma tx_for_segs ctl data g tx : tx_for ctl data tx -> tx_for ctl data (tx <| sx_seg ::= g |>).
Proof. intros [[]]. split; [split|..]; done. Qed.

(** The number of segments of a message. *)
Definition seg_count (ctl : bool) (data : list Z) : nat := Z.to_nat ((zlen data - 1) / seg_len ctl + 1).

Lemma seg_count_spec ctl data (k : nat) :
  1 <= zlen data -> ((k < seg_count ctl data)%nat <-> Z.of_nat (Z.to_nat (seg_len ctl) * k) < zlen data).
Proof.
  intros Hl. pose proof (seg_len_cases ctl) as HL. destruct (seg_n_bounds data (seg_len ctl) Hl HL) as [Hn Hd].
  unfold seg_count. set (q := (zlen data - 1) / seg_len ctl) in *. rewrite Nat2Z.inj_mul, Z2Nat.id by lia.
  clearbody q. destruct HL as [HL|HL]; rewrite HL in *; lia.
Qed.

Lemma send_seg_loop_run i net_tx ctl_op data :
  let ctl := bool_decide (is_Some ctl_op) in
  let L := Z.to_nat (seg_len ctl) in
  let N := seg_count ctl data in
  friend_leaves (tx_dst (tt_net net_tx)) -> 1 <= zlen data -> Forall is_byte data -> (N <= 32)%nat ->
  forall fuel k sdu s, tx_for ctl data (tx_at i s) -> (i < length (t_tx s))%nat -> (N <= length (sx_seg (tx_at i s)))%nat ->
  wf sdu -> content sdu = drop (L * k) data -> (Z.to_nat (b_len sdu) <= fuel)%nat -> (k <= N)%nat ->
  (N - k <= t_free s)%nat ->
  exists s' l, send_seg_loop cfg env i net_tx ctl_op fuel (Z.of_nat k) sdu s = (Ok (), s') /\
    t_tx s' = alter (fun tx => tx <| sx_seg := l |>) i (t_tx s) /\ cut_from L data k N (sx_seg (tx_at i s)) l /\
    t_rx s' = t_rx s /\ t_net s' = t_net s /\ (t_free s' + (N - k) = t_free s)%nat.
Proof.
  intros ctl L N Hfr Hl Hdb H32. induction fuel as [|fuel IH]; intros k sdu s Htx Hi Hseg Hb Hc Hfuel HkN Hfree;
    pose proof (content_length sdu Hb) as Hbl; rewrite Hc, length_drop in Hbl; pose proof (seg_count_spec ctl data k Hl) as Hcnt;
    fold L N in Hcnt.
  all: assert (b_len sdu = 0 -> exists s' l, (mret () : M st unit) s = (Ok (), s') /\
    t_tx s' = alter (fun tx => tx <| sx_seg := l |>) i (t_tx s) /\ cut_from L data k N (sx_seg (tx_at i s)) l /\
    t_rx s' = t_rx s /\ t_net s' = t_net s /\ (t_free s' + (N - k) = t_free s)%nat) as Hend.
  1, 3: intros Hz; assert (k = N) as -> by lia; exists s, (sx_seg (tx_at i s)); split_and!; try done; try lia;
    [symmetry; apply alter_same; intros tx Htx'; unfold tx_at; rewrite (list_lookup_total_correct _ _ _ Htx'); by destruct tx
    |split; [done|]; intros j; by rewrite decide_False by lia].
  - cbn [send_seg_loop]. assert (b_len sdu = 0) as Hz by lia. rewrite (proj2 (Z.eqb_eq _ _) Hz). by apply Hend.
  - cbn [send_seg_loop]. destruct (Z.eqb_spec (b_len sdu) 0) as [Hz|Hnz]; [by apply Hend|]. clear Hend.
    assert (k < N)%nat as Hlt by lia.
    destruct (send_seg_one_run i net_tx ctl_op data k sdu s) as (sdu1 & s1 & E1 & Hw1 & Hc1 & Hl1 & Htx1 & Hrx1 & Hn1 & Hf1);
      try done; [lia|by apply Hcnt|lia|lia|].
    fold ctl in Hc1, Hl1, Htx1. fold L in Hc1, Htx1.
    assert (tx_at i s1 = tx_at i s <| sx_seg ::= <[k := Some (chunk L data k)]> |>) as Etx.
    { unfold tx_at. rewrite Htx1. by rewrite list_lookup_total_alter_eq. }
    destruct (IH (S k) sdu1 s1) as (s2 & l & E2 & Htx2 & [Hl2 Hcut2] & Hrx2 & Hn2 & Hf2); try done.
    { rewrite Etx. by apply tx_for_segs. }
    { by rewrite Htx1, length_alter. }
    { rewrite Etx. cbn. by rewrite length_insert. }
    { pose proof (seg_len_cases ctl). lia. }
    { lia. }
    exists s2, l. rewrite Etx in Hl2, Hcut2. cbn in Hl2, Hcut2. rewrite length_insert in Hl2. split_and!.
    + rewrite (bind_ok _ _ _ _ _ E1). by replace (u8 (Z.of_nat k + 1)) with (Z.of_nat (S k)) by (rewrite u8_id; lia).
    + rewrite Htx2, Htx1, alter_twice. done.
    + split; [done|]. intros j. rewrite Hcut2. destruct (decide (j = k)) as [->|Hne].
      * rewrite decide_False, decide_True by lia. rewrite list_lookup_insert_eq by lia. done.
      * rewrite list_lookup_insert_ne by done. repeat case_decide; done || lia.
    + congruence.
    + congruence.
    + lia.
Qed.

(** * Sending the first segment *)

(** The message of a context: what its segments are made of. *)
Record same_msg (tx tx' : seg_tx) : Prop := {
  sm_seg : sx_seg tx' = sx_seg tx;
  sm_auth : sx_seq_auth tx' = sx_seq_auth tx;
  sm_src : sx_src tx' = sx_src tx;
  sm_dst : sx_dst tx' = sx_dst tx;
  sm_len : sx_len tx' = sx_len tx;
  sm_hdr : sx_hdr tx' = sx_hdr tx;
  sm_seg_n : sx_seg_n tx' = sx_seg_n tx;
  sm_ctl : sx_ctl tx' = sx_ctl tx;
  sm_aszmic : sx_aszmic tx' = sx_aszmic tx
}.

#[local] Instance same_msg_refl : Reflexive same_msg.
Proof. by intros tx. Qed.
#[local] Instance same_msg_trans : Transitive same_msg.
Proof. intros t1 t2 t3 [] []. split; congruence. Qed.

(** A step that leaves the message of context [i], the receiving contexts and the pool alone. *)
Record kept_tx (i : nat) s s' : Prop := {
  kt_msg : same_msg (tx_at i s) (tx_at i s');
  kt_length : length (t_tx s') = length (t_tx s);
  kt_rx : t_rx s' = t_rx s;
  kt_free : t_free s' = t_free s
}.

#[local] Instance kept_tx_refl i : Reflexive (kept_tx i).
Proof. by intros s. Qed.
#[local] Instance kept_tx_trans i : Transitive (kept_tx i).
Proof. intros s1 s2 s3 [] []. split; [by etrans|congruence..]. Qed.

Definition keeps {A} (i : nat) (m : M st A) s : Prop := exists a s', m s = (Ok a, s') /\ kept_tx i s s'.

Lemma keeps_ret {A} i (a : A) s : keeps i (mret a) s.
Proof. by exists a, s. Qed.

Lemma keeps_bind {A B} i (m : M st A) (f : A -> M st B) s :
  keeps i m s -> (forall a s', m s = (Ok a, s') -> kept_tx i s s' -> keeps i (f a) s') -> keeps i (m ≫= f) s.
Proof.
  intros (a & s1 & E & Hk) Hf. destruct (Hf a s1 E Hk) as (b & s2 & E2 & Hk2). exists b, s2.
  rewrite (bind_ok _ _ _ _ _ E). split; [done|by etrans].
Qed.

Lemma keeps_gets {A B} i (f : st -> A) (m : A -> M st B) s : keeps i (m (f s)) s -> keeps i (x ← gets f; m x) s.
Proof. done. Qed.

Lemma keeps_on_tx i f s : (i < length (t_tx s))%nat -> (forall tx, same_msg tx (f tx)) -> keeps i (on_tx i f) s.
Proof.
  intros Hi Hf. exists (), (utx i f s). split; [done|]. split; try done.
  - rewrite tx_at_utx by done. apply Hf.
  - cbn. by rewrite length_alter.
Qed.

Lemma keeps_log i o s : keeps i (log o) s.
Proof. by exists (), (s <| t_out ::= (fun l => l ++ [o]) |>). Qed.

Lemma keeps_schedule i delta s : (i < length (t_tx s))%nat -> keeps i (schedule_transmit_continue tcfg i delta) s.
Proof.
  intros Hi. unfold schedule_transmit_continue. apply keeps_gets. destruct (_ =? 0); [apply keeps_ret|].
  by apply keeps_on_tx.
Qed.

Lemma keeps_started i duration err s : (i < length (t_tx s))%nat -> keeps i (seg_send_start tcfg env i duration err) s.
Proof.
  intros Hi. unfold seg_send_start. apply keeps_gets.
  apply keeps_bind.
  - destruct (sx_cb (tx_at i s)); [|apply keeps_ret]. destruct (_ && _); [|apply keeps_ret].
    apply keeps_bind; [apply keeps_log|]. intros _ s' _ Hk. apply keeps_on_tx; [by rewrite (kt_length _ _ _ Hk)|done].
  - intros _ s1 _ Hk1. apply keeps_bind; [apply keeps_on_tx; [by rewrite (kt_length _ _ _ Hk1)|done]|].
    intros _ s2 _ Hk2. destruct (negb _); [|apply keeps_ret].
    apply keeps_schedule. by rewrite (kt_length _ _ _ Hk2), (kt_length _ _ _ Hk1).
Qed.

Lemma keeps_sent i err s : (i < length (t_tx s))%nat -> keeps i (seg_sent tcfg env i err) s.
Proof.
  intros Hi. unfold seg_sent. apply keeps_gets. destruct (negb _); [apply keeps_ret|by apply keeps_schedule].
Qed.

Lemma keeps_reschedule i dst s : (i < length (t_tx s))%nat -> keeps i (seg_tx_reschedule tcfg env i dst) s.
Proof.
  intros Hi. unfold seg_tx_reschedule. apply keeps_bind; [destruct (_ && _); [apply keeps_log|apply keeps_ret]|].
  intros _ s1 _ Hk1. apply keeps_gets. apply keeps_on_tx; [by rewrite (kt_length _ _ _ Hk1)|done].
Qed.

(** The network layer can take a message of the context. *)
Definition sendable (net : bt_mesh_net_tx) (n : net_node W) : Prop :=
  let cred := tx_cred (sub_at (tx_sub net) (n_sub n)) in
  tx_friend_cred net = false /\ tx_ok net cred n /\ (exists r, cred_keys (world n) cred r) /\ mc_ready (world n).

Lemma keeps_net_send i net xmit buf fin s :
  sendable net (t_net s) -> wf buf -> 9 <= b_data buf -> 1 <= b_len buf <= 16 ->
  b_data buf + b_len buf + tx_mic net <= b_size buf -> (forall s', kept_tx i s s' -> keeps i fin s') ->
  keeps i (attempt (net_send cfg env net xmit buf fin)) s.
Proof.
  intros (Hf & Htx & [r Hk] & Hr) Hb Hd Hl Hz Hfin.
  destruct (net_send_run cfg (te_net env) xmit net buf r (t_net s)) as (res & n' & E & _ & _ & _ & _ & Hres); try done.
  set (s' := s <| t_net := n' |>).
  assert (kept_tx i s s') as Hk' by done.
  assert (in_net (bt_mesh_net_send cfg (te_net env) net xmit buf) s = (res, s')) as En by (unfold in_net; by rewrite E).
  assert (res <> Crash) as Hcr.
  { destruct (_ && _) in Hres; [|destruct (_ =? 1) in Hres]; destruct Hres as [-> _]; try done. by destruct (negb _). }
  unfold keeps, attempt, net_send. unfold mbind at 1, M_bind at 1, gets at 1.
  destruct res as [[]|e|]; [|by exists (inr e), s'; unfold mbind, M_bind; rewrite En|done].
  rewrite (bind_ok _ _ _ _ _ En). unfold mbind, M_bind, gets.
  destruct (existsb _ _); [|by exists (inl ()), s'].
  destruct (Hfin s' Hk') as ([] & s2 & E2 & Hk2). exists (inl ()), s2. rewrite E2. split; [done|by etrans].
Qed.

(** The sending loop when the segment it is at has to be sent. *)
Lemma keeps_send_loop i net d n s :
  advs_ok env -> sendable net (t_net s) -> tx_mic net = (if sx_ctl (tx_at i s) then 8 else 4) -> (i < length (t_tx s))%nat ->
  let tx := tx_at i s in
  tx_fields_ok tx -> 0 <= sx_seg_o tx < 32 -> sx_seg tx !! Z.to_nat (sx_seg_o tx) = Some (Some d) -> Forall is_byte d ->
  zlen d = Z.min (seg_len (sx_ctl tx)) (sx_len tx - seg_len (sx_ctl tx) * sx_seg_o tx) ->
  exists r s', seg_send_loop cfg tcfg env i net (S n) s = (Ok r, s') /\ r <> SegAllSent /\ kept_tx i s s'.
Proof.
  intros Hadv Hnet Hmic Hi tx Hok Ho Hd Hdb Hlen. cbn [seg_send_loop].
  rewrite (bind_ok (gets (tx_at i)) _ s tx s) by done. unfold seg_entry. rewrite (proj2 (Z.ltb_ge _ _)) by lia.
  rewrite Hd. rewrite (bind_ok _ _ s (Some d) s) by done.
  unfold gets at 1. rewrite (bind_ok _ _ s (adv_create (te_net env) (length (n_out (t_net s)))) s) by done.
  destruct (adv_create (te_net env) (length (n_out (t_net s)))) as [adv|] eqn:Ea; [|by exists SegFailed, s].
  destruct (Hadv _ _ Ea) as (Hwa & Hza & Hsa).
  destruct (reserve_run adv Hwa Hza ltac:(lia)) as (b1 & E1 & Hw1 & Hc1 & Hd1 & Hl1 & Hz1).
  unfold BT_MESH_NET_HDR_LEN. rewrite E1. rewrite (bind_ok _ _ s b1 s) by done.
  assert (zlen d <= 12 /\ 4 + zlen d + tx_mic net <= 20) as [Hdl Hml].
  { fold tx in Hmic. rewrite Hmic. unfold seg_len, BT_MESH_CTL_SEG_SDU_MAX, BT_MESH_APP_SEG_SDU_MAX in Hlen.
    destruct (sx_ctl tx); lia. }
  destruct (seg_tx_buf_build_run tx (sx_seg_o tx) d b1 s) as (b2 & E2 & Hw2 & _ & Hd2 & Hz2 & Hl2); try done.
  { lia. }
  rewrite (bind_ok _ _ _ _ _ E2).
  destruct (keeps_net_send i net (sx_xmit tx) b2 (_ ← seg_send_start tcfg env i 0 0; seg_sent tcfg env i 0) s)
    as (r & s1 & E3 & Hk1); try done; [lia..| |].
  { intros s' Hk. apply keeps_bind; [apply keeps_started; by rewrite (kt_length _ _ _ Hk)|].
    intros _ s2 _ Hk2. apply keeps_sent. by rewrite (kt_length _ _ _ Hk2), (kt_length _ _ _ Hk). }
  rewrite (bind_ok _ _ _ _ _ E3). destruct r as [[]|e]; [|by exists SegFailed, s1].
  destruct (keeps_on_tx i (fun tx => tx <| sx_seg_o ::= (fun o => u8 (o + 1)) |> <| sx_ack_received := false |>) s1)
    as ([] & s2 & E4 & Hk2); [by rewrite (kt_length _ _ _ Hk1)|done|].
  exists SegSent, s2. rewrite (bind_ok _ _ _ _ _ E4). split_and!; [done|done|by etrans].
Qed.

Lemma keeps_send_unacked i d s :
  let tx := tx_at i s in
  let net := mk_tx (sx_sub tx) (sx_src tx) (sx_dst tx) (sx_ttl tx) (if sx_ctl tx then BT_MESH_KEY_UNUSED else 0)
               (sx_friend_cred tx) in
  advs_ok env -> sendable net (t_net s) -> (i < length (t_tx s))%nat ->
  tx_fields_ok tx -> sx_nack_count tx <> 0 -> sx_attempts_left tx <> 0 -> sx_attempts_left_without_progress tx <> 0 ->
  0 <= sx_seg_o tx <= sx_seg_n tx -> sx_seg tx !! Z.to_nat (sx_seg_o tx) = Some (Some d) -> Forall is_byte d ->
  zlen d = Z.min (seg_len (sx_ctl tx)) (sx_len tx - seg_len (sx_ctl tx) * sx_seg_o tx) ->
  keeps i (seg_tx_send_unacked cfg tcfg env i) s.
Proof.
  intros tx net Hadv Hnet Hi Hok Hnack Hatt Hatt1 Ho Hd Hdb Hlen. unfold seg_tx_send_unacked. apply keeps_gets.
  fold tx. rewrite (proj2 (Z.eqb_neq _ _) Hnack), (proj2 (Z.eqb_neq _ _) Hatt), (proj2 (Z.eqb_neq _ _) Hatt1), andb_false_r.
  fold net. pose proof Hok as [].
  replace (Z.to_nat (sx_seg_n tx + 1 - sx_seg_o tx)) with (S (Z.to_nat (sx_seg_n tx - sx_seg_o tx))) by lia.
  destruct (keeps_send_loop i net d (Z.to_nat (sx_seg_n tx - sx_seg_o tx)) s) as (r & s1 & E & Hr & Hk1); try done; [|fold tx; lia|].
  { unfold tx_mic. cbn [tx_app_idx net]. fold tx. by destruct (sx_ctl tx). }
  unfold keeps. rewrite (bind_ok _ _ _ _ _ E). destruct r; [| |done].
  - by exists (), s1.
  - destruct (keeps_reschedule i (sx_dst tx) s1) as (a & s2 & E2 & Hk2); [by rewrite (kt_length _ _ _ Hk1)|].
    exists a, s2. split; [done|by etrans].
Qed.

(** * A whole message *)

Lemma send_seg_scan_spec src dst l k blocked slot b i :
  send_seg_scan src dst l k blocked slot = (b, Some i) ->
  slot = Some i \/ (k <= i < k + length l)%nat.
Proof.
  revert k blocked slot. induction l as [|t l IH]; intros k blocked slot E; cbn [send_seg_scan] in E.
  - injection E as _ ->. by left.
  - destruct (negb _); apply IH in E as [E|E]; cbn [length]; [by left|right; lia| |right; lia].
    destruct slot as [j|]; [by left|]. injection E as ->. right. lia.
Qed.

Definition sar_ok : Prop :=
  0 <= unicast_retrans_count (sar_tx tcfg) /\ 0 <= multicast_retrans_count (sar_tx tcfg) /\
  0 <= unicast_retrans_without_prog_count (sar_tx tcfg).

(** What the network layer is asked to send for a segment. *)
Definition segment_net (ctl_op : option Z) (net : bt_mesh_net_tx) : bt_mesh_net_tx :=
  mk_tx (tx_sub net) (tx_src net) (tx_dst net) (tx_send_ttl net)
    (if bool_decide (is_Some ctl_op) then BT_MESH_KEY_UNUSED else 0) (tx_friend_cred net).

(** The node can take a segmented message: a free context [i] with entries and blocks for
    it, and room for it where friends are concerned. *)
Record seg_ready (net_tx : trans_tx) (ctl_op : option Z) (data : list Z) (i : nat) (blocked : bool) s : Prop := {
  sgr_slot : send_seg_scan (tx_src (tt_net net_tx)) (tx_dst (tt_net net_tx)) (t_tx s) 0 false None = (blocked, Some i);
  sgr_count : (seg_count (bool_decide (is_Some ctl_op)) data <= length (sx_seg (tx_at i s)) `min` 32 `min` t_free s)%nat;
  sgr_friend : friend_leaves (tx_dst (tt_net net_tx));
  sgr_space : c_friend cfg = true -> BT_MESH_ADDR_IS_UNICAST (tx_dst (tt_net net_tx)) = true ->
    forall n idx q c, friend_queue_has_space env n idx (tx_src (tt_net net_tx)) (tx_dst (tt_net net_tx)) q c = true;
  sgr_net : sendable (segment_net ctl_op (tt_net net_tx)) (t_net s);
  sgr_aszmic : 0 <= tt_aszmic net_tx < 2
}.

(** Context [i] has the message, cut up. *)
Record cut_up (ctl : bool) (data : list Z) (tx : seg_tx) : Prop := {
  cu_for : tx_for ctl data tx;
  cu_seg : forall k, (k < seg_count ctl data)%nat ->
    sx_seg tx !! k = Some (Some (chunk (Z.to_nat (seg_len ctl)) data k))
}.

Lemma cut_up_same ctl data tx tx' : cut_up ctl data tx -> same_msg tx tx' -> cut_up ctl data tx'.
Proof. intros [[[]] ?] []. split; [split; [split|..]|]; intros; try congruence. rewrite sm_seg0. auto. Qed.

(** What [seg_tx_init] makes of a context, with the count of segments in range. *)
Lemma seg_tx_init_for s net_tx data blocked cb ctl_op tx :
  1 <= zlen data -> (seg_count (bool_decide (is_Some ctl_op)) data <= 32)%nat -> 0 <= tt_aszmic net_tx < 2 ->
  tx_for (bool_decide (is_Some ctl_op)) data (seg_tx_init tcfg s net_tx (zlen data) blocked cb ctl_op tx).
Proof.
  intros Hl Hc Ha. set (ctl := bool_decide (is_Some ctl_op)) in *.
  destruct (seg_n_bounds data (seg_len ctl) Hl (seg_len_cases ctl)) as [Hn _]. unfold seg_count in Hc.
  unfold seg_tx_init. fold ctl. rewrite Z.quot_div_nonneg by (destruct (seg_len_cases ctl); lia). split; [split| | |]; cbn.
  - destruct ctl_op; [apply is_byte_u8|]. destruct (BT_MESH_IS_DEV_KEY _); apply SEG_HDR_byte; lia.
  - done.
  - unfold SEQ_AUTH. apply u64_range.
  - rewrite u8_id by lia. lia.
  - done.
  - done.
  - rewrite u8_id by lia. done.
Qed.

(** What [send_seg] leaves: context [i] has the message, with its addresses, SeqAuth and
    first byte, and a block less is free for every segment. *)
Record sent_off (net_tx : trans_tx) (ctl_op : option Z) (data : list Z) (i : nat) s s' : Prop := {
  so_cut : cut_up (bool_decide (is_Some ctl_op)) data (tx_at i s');
  so_src : sx_src (tx_at i s') = tx_src (tt_net net_tx);
  so_dst : sx_dst (tx_at i s') = tx_dst (tt_net net_tx);
  so_auth : sx_seq_auth (tx_at i s') = SEQ_AUTH (BT_MESH_NET_IVI_TX (n_iv (t_net s))) (seq (n_iv (t_net s)));
  so_hdr : sx_hdr (tx_at i s') = match ctl_op with
             | Some op => u8 (TRANS_CTL_HDR op 1)
             | None => if BT_MESH_IS_DEV_KEY (tx_app_idx (tt_net net_tx)) then SEG_HDR 0 0 else SEG_HDR 1 (tt_aid net_tx)
             end;
  so_aszmic : sx_aszmic (tx_at i s') = tt_aszmic net_tx;
  so_rx : t_rx s' = t_rx s;
  so_free : (t_free s' + seg_count (bool_decide (is_Some ctl_op)) data = t_free s)%nat
}.

Lemma sent_off_kept net_tx ctl_op data i s s1 s2 :
  sent_off net_tx ctl_op data i s s1 -> kept_tx i s1 s2 -> sent_off net_tx ctl_op data i s s2.
Proof.
  intros [] [Hm ? ? ?]. pose proof Hm as []. split; try congruence; try lia. by eapply cut_up_same.
Qed.

Lemma send_seg_run net_tx sdu cb ctl_op i blocked s :
  wf sdu -> 1 <= b_len sdu -> seg_ready net_tx ctl_op (content sdu) i blocked s -> advs_ok env -> sar_ok ->
  exists s', send_seg cfg tcfg env net_tx sdu cb ctl_op s = (Ok (), s') /\
    sent_off net_tx ctl_op (content sdu) i s s' /\ (blocked = true -> t_net s' = took_seq cfg (te_net env) (t_net s)).
Proof.
  intros Hb Hl [Hscan Hcount Hfr Hspace Hnet Hasz] Hadv (Hs1 & Hs2 & Hs3).
  set (data := content sdu) in *. set (ctl := bool_decide (is_Some ctl_op)) in *.
  assert (zlen data = b_len sdu) as Hlen by (by apply content_length).
  pose proof Hscan as Hscan'. apply send_seg_scan_spec in Hscan' as [|[_ Hi]]; [done|].
  set (s1 := utx i (seg_tx_init tcfg s net_tx (b_len sdu) blocked cb ctl_op) s).
  assert (tx_at i s1 = seg_tx_init tcfg s net_tx (b_len sdu) blocked cb ctl_op (tx_at i s)) as E1 by (unfold s1; by rewrite tx_at_utx).
  assert (tx_for ctl data (tx_at i s1)) as Hfor.
  { rewrite E1, <-Hlen. apply seg_tx_init_for; [lia|fold ctl; lia|done]. }
  destruct (send_seg_loop_run i net_tx ctl_op data) with (fuel := Z.to_nat (b_len sdu)) (k := 0%nat) (sdu := sdu) (s := s1)
    as (s2 & l & E2 & Htx2 & [Hl2 Hcut2] & Hrx2 & Hn2 & Hf2); try done; fold ctl; try lia.
  { apply content_bytes. done. }
  { unfold s1. cbn. by rewrite length_alter. }
  { rewrite E1. cbn. lia. }
  { by rewrite Nat.mul_0_r, drop_0. }
  { unfold s1. cbn. lia. }
  fold ctl in Hcut2, Hf2. assert (tx_at i s2 = tx_at i s1 <| sx_seg := l |>) as Etx2.
  { unfold tx_at at 1. rewrite Htx2, list_lookup_total_alter_eq; [done|]. unfold s1. cbn. by rewrite length_alter. }
  assert (forall k, (k < seg_count ctl data)%nat -> l !! k = Some (Some (chunk (Z.to_nat (seg_len ctl)) data k))) as Hseg.
  { intros k Hk. rewrite Hcut2. by rewrite decide_True by lia. }
  assert (0 < seg_count ctl data)%nat as Hpos.
  { unfold seg_count. destruct (seg_n_bounds data (seg_len ctl)) as [Hn _]; [lia|apply seg_len_cases|lia]. }
  assert (sent_off net_tx ctl_op data i s s2) as Hoff.
  { split; rewrite ?Etx2; fold ctl; try (rewrite E1; done).
    - split; [by apply (tx_for_segs ctl data (fun _ => l))|done].
    - by rewrite Hrx2.
    - rewrite Nat.sub_0_r in Hf2. exact Hf2. }
  assert (exists s', (if (blocked : bool) then _ ← in_net (next_seq cfg (te_net env)); mret ()
                      else seg_tx_send_unacked cfg tcfg env i) s2 = (Ok () : outcome unit, s') /\ kept_tx i s2 s' /\
            (blocked = true -> t_net s' = took_seq cfg (te_net env) (t_net s))) as (s3 & E3 & Hk3 & Hn3).
  { destruct blocked.
    - exists (s2 <| t_net := took_seq cfg (te_net env) (t_net s2) |>). split; [|split; [done|intros _; cbn; by rewrite Hn2]].
      unfold mbind, M_bind, in_net. by rewrite next_seq_run.
    - destruct (keeps_send_unacked i (chunk (Z.to_nat (seg_len ctl)) data 0) s2) as ([] & s3 & E3 & Hk3); rewrite ?Etx2, ?E1; try done.
      + cbn. unfold sendable, segment_net in Hnet. unfold sendable. by rewrite Hn2.
      + rewrite Htx2. unfold s1. cbn. by rewrite !length_alter.
      + rewrite <-E1. pose proof (tfo_ok _ _ _ (tx_for_segs ctl data (fun _ => l) _ Hfor)) as Hok. done.
      + cbn. unfold seg_count in *. fold ctl. rewrite <-Hlen.
        rewrite Z.quot_div_nonneg by (destruct (seg_len_cases ctl); lia). rewrite (u8_id ((zlen data - 1) / seg_len ctl)) by lia. rewrite u8_id; lia.
      + cbn. unfold BT_MESH_SAR_TX_RETRANS_COUNT. destruct (BT_MESH_ADDR_IS_UNICAST _); lia.
      + cbn. unfold BT_MESH_SAR_TX_RETRANS_NO_PROGRESS. lia.
      + cbn. split; [done|]. apply u8_range.
      + cbn. by apply Hseg.
      + by apply chunk_bytes, content_bytes.
      + cbn. fold ctl. rewrite chunk_length. rewrite Nat.mul_0_r, Z.mul_0_r. pose proof (seg_len_cases ctl). lia.
      + exists s3. split; [done|]. split; [done|]. intros ?; done. }
  exists s3. split; [|split; [by eapply sent_off_kept|done]].
  unfold send_seg. rewrite (bind_ok (gets id) _ s s s) by done. rewrite Hscan.
  rewrite (bind_ok (on_tx i _) _ s () s1) by done. rewrite (bind_ok (gets (tx_at i)) _ s1 (tx_at i s1) s1) by done.
  assert (forall n idx c, c_friend cfg &&
         negb (friend_queue_has_space env n idx (tx_src (tt_net net_tx)) (sx_dst (tx_at i s1)) (Some (sx_seq_auth (tx_at i s1))) c) &&
         BT_MESH_ADDR_IS_UNICAST (sx_dst (tx_at i s1)) = false) as ->.
  { intros n idx c. rewrite E1. cbn [sx_dst seg_tx_init]. cbn. destruct (c_friend cfg) eqn:Hcf; [|done].
    destruct (BT_MESH_ADDR_IS_UNICAST (tx_dst (tt_net net_tx))) eqn:Hu; [|by rewrite andb_false_r].
    by rewrite Hspace. }
  rewrite (bind_ok _ _ _ _ _ E2). rewrite (bind_ok (gets (tx_at i)) _ s2 (tx_at i s2) s2) by done.
  rewrite Etx2. change (sx_seg (tx_at i s1 <| sx_seg := l |>)) with l. rewrite Hseg by done.
  rewrite bool_decide_eq_false_2 by done. rewrite andb_false_r. exact E3.
Qed.

(** ** A message of the access layer *)

Lemma sendable_calm net n n' : sendable net n -> calm n n' -> sendable net n'.
Proof.
  intros (Hf & Htx & [r Hk] & Hr) Hc. destruct (calm_keys _ _ Hc) as [Ek Hr']. destruct Hc as (w & -> & _).
  split; [done|]. split; [exact Htx|]. split; [|done]. exists r. unfold cred_keys in *. by rewrite Ek.
Qed.

Definition send_net_tx (tx : trans_tx) (ttl : Z) (sub : nat) (aid aszmic : Z) (send_rel : bool) : trans_tx :=
  mk_trans_tx (set_tx_sub sub (set_tx_ttl ttl (tt_net tx))) (tt_net_idx tx) (tt_uuid tx) send_rel
    (net_transmit_get (te_net env)) aid aszmic.

(** What the message is sealed with. *)
Definition send_ctx (tx : trans_tx) (aszmic : Z) (n : net_node W) : bt_mesh_app_crypto_ctx :=
  mk_app_ctx (BT_MESH_IS_DEV_KEY (tx_app_idx (tt_net tx))) aszmic (tx_src (tt_net tx)) (tx_dst (tt_net tx))
    (seq (n_iv n)) (BT_MESH_NET_IVI_TX (n_iv n))
    (if BT_MESH_ADDR_IS_VIRTUAL (tx_dst (tt_net tx)) then tt_uuid tx else None).

Definition send_aszmic (send_rel : bool) (msg : bt_buf_simple) : Z :=
  if negb send_rel || (bt_buf_simple_tailroom msg <? 8) then 0 else 1.

(** The arguments of a message that is sent in segments, sealed with [key]. *)
Record send_args (tx : trans_tx) (msg : bt_buf_simple) (ttl : Z) (sub : nat) (key : bt_mesh_key) (aid : Z) s : Prop := {
  sa_wf : wf msg;
  sa_len : 1 <= b_len msg <= BT_MESH_TX_SDU_MAX tcfg - BT_MESH_MIC_SHORT;
  sa_room : BT_MESH_MIC_SHORT <= bt_buf_simple_tailroom msg;
  sa_ttl : resolve_ttl env (tx_send_ttl (tt_net tx)) = Some ttl;
  sa_seg : tt_send_rel tx || (BT_MESH_SDU_UNSEG_MAX <? b_len msg) = true;
  sa_dst : tx_dst (tt_net tx) <> BT_MESH_ADDR_UNASSIGNED;
  sa_dev : BT_MESH_IS_DEV_KEY (tx_app_idx (tt_net tx)) = true -> BT_MESH_ADDR_IS_UNICAST (tx_dst (tt_net tx)) = true;
  sa_key : let subs := n_sub (t_net s) in
    bt_mesh_keys_resolve (c_cdb cfg) (fun idx => bt_mesh_subnet_get idx subs)
      (fun i => kr_phase (sub_at i subs) =? BT_MESH_KR_PHASE_2) (has_addr (te_net env)) (te_apps env)
      (te_dev_keys env) (tt_net_idx tx) (tx_app_idx (tt_net tx)) (tx_dst (tt_net tx)) = inl (sub, key, aid)
}.

Lemma bt_mesh_trans_send_run tx msg cb ttl sub key aid t raw i blocked s :
  let aszmic := send_aszmic true msg in
  let ctx := send_ctx tx aszmic (t_net s) in
  let tx' := send_net_tx tx ttl sub aid aszmic true in
  let data := app_sealed raw ctx (content msg) in
  send_args tx msg ttl sub key aid s -> mc_keys (world (t_net s)) !! key = Some (t, raw) -> sealing t = true ->
  seg_ready tx' None data i blocked s -> advs_ok env -> sar_ok ->
  exists s', bt_mesh_trans_send cfg tcfg env tx msg cb s = (Ok (), s') /\ sent_off tx' None data i s s'.
Proof.
  intros aszmic ctx tx' data [] Hk Ht Hsg Hadv Hsar. pose proof Hsg as [Hscan Hcount Hfr Hspace Hnet Hasz].
  pose proof sa_room0 as Hroom. rewrite tailroom_wf in Hroom by done. unfold BT_MESH_MIC_SHORT in Hroom.
  assert (app_mic ctx <= b_size msg - b_data msg - b_len msg) as Hmic.
  { unfold app_mic, ctx, APP_MIC_LEN, aszmic, send_aszmic. cbn [ac_aszmic send_ctx negb orb].
    rewrite tailroom_wf by done. destruct (Z.ltb_spec (b_size msg - b_data msg - b_len msg) 8); cbn; lia. }
  destruct (app_encrypt_yields (world (t_net s)) key t raw ctx msg) as (m' & Em & Hb' & Hy); try done; [apply Hnet|lia|].
  set (msg' := mk_buf m' _ _ _) in *. destruct (in_net_crypto_run _ s msg' Hy) as (n & En & Hc).
  set (s1 := s <| t_net := n |>) in *.
  assert (0 <= app_mic ctx <= 16) as Hmr by (destruct (app_mic_or ctx); lia).
  assert (content msg' = data) as Hc'.
  { unfold content, msg'. cbn [b_store b_data b_len]. fold data in Em. 
    replace (b_len msg + app_mic ctx) with (zlen data); [by eapply slice_write_same|].
    unfold data, app_sealed. rewrite mc_seal_length, content_length by done. done. }
  destruct (send_seg_run tx' msg' cb None i blocked s1) as (s2 & E2 & Hoff & _); try done.
  { unfold msg'. cbn [b_len]. destruct (app_mic_or ctx); lia. }
  { rewrite Hc'. split; try done. by eapply sendable_calm. }
  rewrite Hc' in Hoff. exists s2. split.
  - unfold bt_mesh_trans_send. rewrite (proj2 (Z.ltb_ge _ _)) by lia. rewrite (proj2 (Z.ltb_ge _ _)) by lia.
    rewrite (proj2 (Z.ltb_ge _ _)) by done. rewrite sa_ttl0, sa_seg0, (proj2 (Z.eqb_neq _ _) sa_dst0).
    assert (negb (BT_MESH_ADDR_IS_UNICAST (tx_dst (tt_net tx))) && BT_MESH_IS_DEV_KEY (tx_app_idx (tt_net tx)) = false) as ->.
    { destruct (BT_MESH_IS_DEV_KEY _); [by rewrite sa_dev0|by rewrite andb_false_r]. }
    cbn [orb]. rewrite (bind_ok (gets _) _ s (n_sub (t_net s)) s) by done. cbv zeta in sa_key0. rewrite sa_key0.
    fold (send_aszmic true msg). fold aszmic. fold (send_net_tx tx ttl sub aid aszmic true). fold tx'.
    rewrite (bind_ok _ _ s msg' s1); [exact E2|].
    unfold trans_encrypt. rewrite (bind_ok (gets _) _ s (n_iv (t_net s)) s) by done. exact En.
  - destruct Hc as (w & -> & _). destruct Hoff. by split.
Qed.

End Tx.

(** * From one node to another *)

Section EndToEnd.

Context {W : Type} `{MeshCryptoLaws W}.
(** The sender and the receiver. *)
Context (cfgA : net_cfg) (tcfgA : trans_cfg) (envA : trans_env).
Context (cfgB : net_cfg) (tcfgB : trans_cfg) (envB : trans_env).
Notation st := (trans_node W).

(** The message of the access layer as its segments carry it. *)
Definition message_sent (tx : trans_tx) (aid aszmic : Z) (n : net_node W) (data : list Z) : message :=
  mk_message (tx_src (tt_net tx)) (tx_dst (tt_net tx)) (SEG_HDR 1 aid) aszmic (BT_MESH_NET_IVI_TX (n_iv n)) (seq (n_iv n)) data.

(** A buffer with what the sender builds as segment [k] of context [txc]. *)
Definition built (txc : seg_tx) (k : nat) (buf : bt_buf_simple) : Prop :=
  wf buf /\ exists b pdu (s : st), wf b /\ b_len b = 0 /\ b_data b + 16 <= b_size b /\
    seg_tx_buf_build txc (Z.of_nat k) b s = (Ok pdu, s) /\ content buf = content pdu.

(** The receiver's key [raw] for messages with the first byte [hdr]. *)
Definition has_key (raw : list Z) (hdr : Z) (net_rx : bt_mesh_net_rx) (n : net_node W) (app : app_key) : Prop :=
  let idx := net_idx (sub_at (Z.to_nat (rx_sub net_rx)) (n_sub n)) in
  app_idx app <> BT_MESH_KEY_UNUSED /\ app_net_idx app = idx /\ cred_id (cred_for net_rx app) = AID hdr /\
  (exists pre post, te_apps envB = pre ++ app :: post /\
    Forall (fun a => app_idx a = BT_MESH_KEY_UNUSED \/ app_net_idx a <> idx \/ cred_id (cred_for net_rx a) <> AID hdr) pre) /\
  exists t, mc_keys (world n) !! cred_val (cred_for net_rx app) = Some (t, raw) /\ sealing t = true.

Lemma seg_count_m_n m : 1 <= zlen (m_data m) -> Z.of_nat (seg_count false (m_data m)) = m_n m + 1.
Proof.
  intros Hl. unfold seg_count, m_n. change (seg_len false) with 12.
  pose proof (Z.div_pos (zlen (m_data m) - 1) 12 ltac:(lia) ltac:(lia)). lia.
Qed.

Lemma built_content txc m k buf :
  cut_up false (m_data m) txc -> 1 <= zlen (m_data m) -> Forall is_byte (m_data m) -> 0 <= m_seq0 m < 2 ^ 24 ->
  m_n m < 32 -> sx_hdr txc = m_hdr m ->
  sx_aszmic txc = m_aszmic m -> sx_seq_auth txc = m_auth m -> Z.of_nat k <= m_n m -> built txc k buf ->
  wf buf /\ content buf = seg_pdu (m_hdr m) (m_aszmic m) (m_seq0 m mod 2 ^ 13) (Z.of_nat k) (m_n m) (piece m k).
Proof.
  intros [[Hok Hctl Hlen Hn] Hseg] Hl Hdb Hq H32 Hhdr Hasz Hauth Hk (Hw & b & pdu & s & Hb & Hbl & Hbz & E & Hc).
  split; [done|]. pose proof (seg_count_m_n m Hl) as Hcnt. rewrite Hc.
  assert (zlen (piece m k) = Z.min 12 (zlen (m_data m) - 12 * Z.of_nat k) /\ 0 <= zlen (piece m k)) as [Hpl Hp0].
  { split; [|lia]. pose proof (chunk_length 12 (m_data m) k) as Hcl. change (chunk 12 (m_data m) k) with (piece m k) in Hcl.
    pose proof (proj1 (seg_count_spec false (m_data m) k Hl) ltac:(lia)) as Hlt. change (Z.to_nat (seg_len false)) with 12%nat in Hlt. lia. }
  destruct (seg_tx_buf_build_run txc (Z.of_nat k) (piece m k) b s) as (pdu' & E' & _ & Hc' & _); try done.
  { lia. }
  { rewrite Nat2Z.id. apply Hseg. lia. }
  { by apply Forall_take, Forall_drop. }
  { rewrite Hctl, Hlen. exact Hpl. }
  { lia. }
  rewrite E in E'. injection E' as <-. rewrite Hc'.
  assert (content b = []) as ->. { apply nil_length_inv. pose proof (content_length b Hb). lia. }
  unfold tx_pdu. rewrite Hhdr, Hasz, Hn. cbn [app]. f_equal.
  rewrite Hauth, <-!Z.land_ones by lia. pose proof (m_auth_seq m Hq) as Hm. change 0xffffff with (Z.ones 24) in Hm.
  by rewrite <-Hm, <-Z.land_assoc.
Qed.

(** C4: End to end: when a node sends a message of the access layer in segments, every
    buffer the segments of which are built from the context it leaves, in whatever order
    and however often they reach a node that has the key, makes that node's access layer
    get the message itself, once. *)
Theorem trans_end_to_end tx msg cb ttl sub key aid t raw i blocked sA :
  let aszmic := send_aszmic true msg in
  let ctx := send_ctx tx aszmic (t_net sA) in
  let tx' := send_net_tx envA tx ttl sub aid aszmic true in
  let data := app_sealed raw ctx (content msg) in
  let m := message_sent tx aid aszmic (t_net sA) data in
  send_args cfgA tcfgA envA tx msg ttl sub key aid sA ->
  mc_keys (world (t_net sA)) !! key = Some (t, raw) -> sealing t = true ->
  BT_MESH_IS_DEV_KEY (tx_app_idx (tt_net tx)) = false -> BT_MESH_ADDR_IS_VIRTUAL (tx_dst (tt_net tx)) = false ->
  seg_ready cfgA envA tx' None data i blocked sA -> advs_ok envA -> sar_ok tcfgA ->
  exists sA', bt_mesh_trans_send cfgA tcfgA envA tx msg cb sA = (Ok (), sA') /\
    forall j l x k app sB,
      Z.of_nat (seg_count false data) <= BT_MESH_RX_SEG_MAX tcfgB <= 32 -> fresh tcfgB m j sB ->
      (forall a, a ∈ l ++ [(x, k)] -> built (tx_at i sA') a.2 a.1.2 /\ metadata m sB a.1.1 a.2 /\
         exists slot, bt_mesh_rpl_check (c_settings cfgB) (c_rpl_timeout cfgB) a.1.1 true false (n_rpl (t_net sB)) =
           (false, slot, n_rpl (t_net sB)) /\ seg_not_old m slot (rx_old_iv a.1.1) sB) ->
      k ∉ l.*2 -> (forall j : nat, Z.of_nat j <= m_n m -> j = k \/ j ∈ l.*2) ->
      has_key raw (m_hdr m) x.1 (t_net sB) app ->
      (forall obo, ack_ready envB (t_net sB) (Z.to_nat (rx_sub x.1)) (rx_recv_dst x.1) (rx_addr x.1) (rx_send_ttl x.1) obo) ->
      BT_MESH_NET_IVI_RX (n_iv (took_seq cfgB (te_net envB) (t_net sB))) (rx_old_iv x.1) = m_iv m ->
      reassembles cfgB tcfgB envB m j l x app (content msg) sB.
Proof.
  intros aszmic ctx tx' data m Hargs Hk Ht Hdev Hvirt Hsg Hadv Hsar.
  destruct (bt_mesh_trans_send_run cfgA tcfgA envA tx msg cb ttl sub key aid t raw i blocked sA) as (sA' & E & Hoff); try done.
  exists sA'. split; [done|]. intros j l x k app sB Hcnt Hfresh Ha Hkl Hall (Hu & Hni & Hid & Hpre & t' & Hk' & Ht') Hack Hiv.
  pose proof Hargs as []. pose proof Hsg as []. destruct sgr_net0 as (_ & Htxok & _).
  destruct Htxok as (_ & _ & Hq & _). pose proof (content_length msg sa_wf0) as Hcl.
  assert (0 <= app_mic ctx <= 8) as Hmr by (destruct (app_mic_or ctx); lia).
  assert (zlen data = b_len msg + app_mic ctx) as Hdl.
  { unfold data, app_sealed. rewrite mc_seal_length by lia. lia. }
  assert (Forall is_byte data) as Hdb by (apply mc_seal_bytes, content_bytes; done).
  pose proof (seg_count_m_n m ltac:(change (m_data m) with data; lia)) as Hmn. change (m_data m) with data in Hmn.
  assert (0 <= aszmic < 2) as Hasz by (unfold aszmic, send_aszmic; case_if; lia).
  assert (message_ok tcfgB m) as Hm.
  { unfold message_ok. change (m_data m) with data. split; [lia|]. split; [lia|]. split; [exact Hasz|]. split; [apply Hq|done]. }
  destruct Hoff. cbn in so_auth0, so_hdr0, so_aszmic0. rewrite Hdev in so_hdr0.
  assert (forall a, a ∈ l ++ [(x, k)] -> arrival cfgB m sB a.1 a.2) as Harr.
  { intros a Hin. destruct (Ha a Hin) as (Hb & Hmeta & Hrpl). split; [|exact Hrpl].
    pose proof (m_n_range tcfgB m Hm) as [Hr32 _].
    destruct (built_content (tx_at i sA') m a.2 a.1.2) as [Hw Hc]; try done; [apply Hm|lia|apply Hmeta]. }
  apply (reassembles_run cfgB tcfgB envB m j l x k); try done. assert (metadata m sB x.1 k) as [] by (apply (Ha (x, k)), elem_of_app; right; by left).
  split; try done. split; try done.
  - exact (SEG_HDR_AKF aid).
  - apply Hq.
  - change (1 + app_mic ctx <= zlen data). lia.
  - exists t', raw. split; [done|]. split; [done|].
    assert (ctx = m_crypto m) as Ectx by (unfold ctx, send_ctx, m_crypto; by rewrite Hdev, Hvirt).
    change (mc_open raw (create_app_nonce (m_crypto m)) (aad (m_crypto m)) data (app_mic ctx) = Some (content msg)).
    rewrite <-Ectx. apply mc_open_seal; [lia|by apply content_bytes].
Qed.

End EndToEnd.
