(* ===== verification/TransInv.v ===== *)
(** Invariants of the transport layer: the segments of the messages in flight lie in the
    blocks of one pool, and no operation loses a block or frees one twice. *)

From S2P Require Import Prelude Byteorder BufSimple MeshDefs Rpl CryptoIf Crypto Subnet NetIv Net AppKeys Transport TransRx.

(** * The contexts *)

(** The segments of a transmission are among the first [seg_n + 1], and [nack_count] is
    at least the number of those that still have a block: at 0 there is none. *)
Record tx_wf (tx : seg_tx) : Prop := {
  tw_nack : Z.of_nat (held (sx_seg tx)) <= sx_nack_count tx < 256;
  tw_seg : forall k b, sx_seg tx !! k = Some (Some b) -> Z.of_nat k <= sx_seg_n tx;
  tw_size : (length (sx_seg tx) <= 32)%nat
}.

(** A context that holds a segment is in use, and the block field says so. *)
Record rx_wf (rx : seg_rx) : Prop := {
  rw_seg : forall k b, sr_seg rx !! k = Some (Some b) ->
    sr_in_use rx = true /\ Z.of_nat k <= sr_seg_n rx /\ Z.testbit (sr_block rx) (Z.of_nat k) = true
}.

Definition tx_blocks (l : list seg_tx) : nat := sum_list_with (fun tx => held (sx_seg tx)) l.
Definition rx_blocks (l : list seg_rx) : nat := sum_list_with (fun rx => held (sr_seg rx)) l.

(** Of the [N] blocks every one is free or holds a segment of one context. *)
Record segs_ok {W} (N : nat) (s : trans_node W) : Prop := {
  so_blocks : (t_free s + tx_blocks (t_tx s) + rx_blocks (t_rx s))%nat = N;
  so_tx : Forall tx_wf (t_tx s);
  so_rx : Forall rx_wf (t_rx s)
}.

(** ** Counting *)

Lemma held_le l : (held l <= length l)%nat.
Proof. unfold held. apply length_filter. Qed.

Lemma held_zero l : held l = 0%nat <-> forall k b, l !! k <> Some (Some b).
Proof.
  induction l as [|e l IH]; [done|]. change (e :: l) with ([e] ++ l). rewrite held_app. split.
  - intros Hz [|k] b; simpl; [intros [= ->]; by unfold held in Hz|]. apply IH. lia.
  - intros Hl. assert (held l = 0%nat) as -> by (apply IH; intros k b; apply (Hl (S k))).
    destruct e as [b|]; [by destruct (Hl O b)|done].
Qed.

Lemma held_set l k b : l !! k = Some None -> held (<[k := Some b]> l) = S (held l).
Proof.
  intros Hk. assert (<[k := Some b]> l !! k = Some (Some b)) as Hk'
    by (apply list_lookup_insert_eq; by eapply lookup_lt_Some).
  pose proof (held_clear _ _ _ Hk') as Hh. rewrite list_insert_insert_eq, list_insert_id, decide_True in Hh by done. lia.
Qed.

Lemma held_bound l n : (forall k b, l !! k = Some (Some b) -> (k < n)%nat) -> (held l <= n)%nat.
Proof.
  intros Hl. rewrite <-(take_drop n l), held_app. pose proof (held_le (take n l)). rewrite length_take in *.
  assert (held (drop n l) = 0%nat); [|lia]. apply held_zero. intros k b Hk. rewrite lookup_drop in Hk.
  apply Hl in Hk. lia.
Qed.

Lemma sum_alter {A} (f : A -> nat) g i (l : list A) x : l !! i = Some x ->
  (sum_list_with f (alter g i l) + f x = sum_list_with f l + f (g x))%nat.
Proof.
  revert i. induction l as [|y l IH]; intros [|i] Hi; simplify_eq/=; [lia|].
  change (alter g (S i) (y :: l)) with (y :: alter g i l). cbn. specialize (IH i Hi). lia.
Qed.

Lemma Forall_alter_at {A} (P : A -> Prop) g i (l : list A) :
  Forall P l -> (forall x, l !! i = Some x -> P x -> P (g x)) -> Forall P (alter g i l).
Proof.
  intros Hl Hg. apply Forall_alter; [done|]. intros x Hx HP. by apply Hg.
Qed.

(** * Triples

    An error leaves a state with the invariant; nothing is said of a crash. *)

Section Invariant.

Context {W : Type} `{MeshCrypto W}.
Context (N : nat).
Notation st := (trans_node W).
Notation Inv := (segs_ok N : st -> Prop).
Implicit Types (P : st -> Prop) (s : st).

Definition triple {A} P (m : M st A) (Q : A -> st -> Prop) : Prop := forall s, P s ->
  match m s with
  | (Ok a, s') => Q a s'
  | (Err _, s') => Inv s'
  | (Crash, _) => True
  end.

Definition kept {A} (m : M st A) : Prop := triple Inv m (fun _ => Inv).

Lemma triple_bind {A B} P (m : M st A) Q (f : A -> M st B) R :
  triple P m Q -> (forall a, triple (Q a) (f a) R) -> triple P (m ≫= f) R.
Proof.
  intros Hm Hf s HP. specialize (Hm s HP). unfold mbind, M_bind. destruct (m s) as [[a|e|] s']; [|done|done].
  by apply Hf.
Qed.

Lemma triple_conseq {A} P P' (m : M st A) Q Q' :
  triple P m Q -> (forall s, P' s -> P s) -> (forall a s, Q a s -> Q' a s) -> triple P' m Q'.
Proof.
  intros Hm HP HQ s Hs. specialize (Hm s (HP s Hs)). destruct (m s) as [[a|e|] s']; auto.
Qed.

Lemma triple_pre {A} P P' (m : M st A) Q : triple P m Q -> (forall s, P' s -> P s) -> triple P' m Q.
Proof. intros Hm HP. by eapply triple_conseq. Qed.

Lemma triple_ret {A} P (a : A) : triple P (mret a) (fun _ => P).
Proof. by intros s HP. Qed.

Lemma triple_gets {A} P (f : st -> A) : triple P (gets f) (fun a s => P s /\ a = f s).
Proof. by intros s HP. Qed.

Lemma triple_checked {A} P (o : option A) : triple P (checked o) (fun a s => P s /\ o = Some a).
Proof. intros s HP. unfold checked. by destruct o. Qed.

(** A fact about the state of before that is not about the state. *)
Lemma triple_fact {A} P (F : Prop) (m : M st A) Q : (F -> triple P m Q) -> triple (fun s => P s /\ F) m Q.
Proof. intros Hm s [HP HF]. by apply Hm. Qed.

Lemma triple_attempt {A} P (m : M st A) Q : triple P m Q ->
  triple P (attempt m) (fun r s => match r with inl a => Q a s | inr _ => Inv s end).
Proof. intros Hm s HP. specialize (Hm s HP). unfold attempt. by destruct (m s) as [[a|e|] s']. Qed.

Lemma triple_change P (f : st -> st) (Q : unit -> st -> Prop) : (forall s, P s -> Q () (f s)) -> triple P (change f) Q.
Proof. intros Hf s HP. by apply Hf. Qed.

(** A call of the network layer touches none of it. *)
Lemma triple_in_net {A} P (m : M (net_node W) A) :
  (forall s n, P s -> P (s <| t_net := n |>)) -> (forall s, P s -> Inv s) -> triple P (in_net m) (fun _ => P).
Proof.
  intros HP HI s Hs. unfold in_net. destruct (m (t_net s)) as [[a|e|] n]; auto.
Qed.

Lemma kept_ret {A} (a : A) : kept (mret a).
Proof. by intros s HP. Qed.
Lemma kept_fail {A} e : kept (fail (A := A) e).
Proof. by intros s HP. Qed.
Lemma triple_fail {A} P e (Q : A -> st -> Prop) : (forall s, P s -> Inv s) -> triple P (fail e) Q.
Proof. intros HP s Hs. by apply HP. Qed.
Lemma kept_gets {A} (f : st -> A) : kept (gets f).
Proof. by intros s HP. Qed.
Lemma kept_checked {A} (o : option A) : kept (checked o).
Proof. intros s HP. unfold checked. by destruct o. Qed.
Lemma kept_bind {A B} (m : M st A) (f : A -> M st B) : kept m -> (forall a, kept (f a)) -> kept (m ≫= f).
Proof. intros Hm Hf. by eapply triple_bind. Qed.
Lemma kept_attempt {A} (m : M st A) : kept m -> kept (attempt m).
Proof. intros Hm. eapply triple_conseq; [apply triple_attempt, Hm|done|]. by intros [a|e] s. Qed.
Lemma kept_log o : kept (log o).
Proof. apply triple_change. by intros s [H1 H2 H3]. Qed.
Lemma kept_in_net {A} (m : M (net_node W) A) : kept (in_net m).
Proof. apply triple_in_net; [|done]. by intros s n [H1 H2 H3]. Qed.
Lemma kept_seg_entry l k : kept (seg_entry l k).
Proof. unfold seg_entry. destruct (k <? 0); apply kept_checked. Qed.

(** ** Changes of a context that leave its segments alone *)

Definition tx_quiet (f : seg_tx -> seg_tx) : Prop := forall t,
  sx_seg (f t) = sx_seg t /\ sx_nack_count (f t) = sx_nack_count t /\ sx_seg_n (f t) = sx_seg_n t.
Definition rx_quiet (f : seg_rx -> seg_rx) : Prop := forall r,
  sr_seg (f r) = sr_seg r /\ sr_in_use (f r) = sr_in_use r /\ sr_seg_n (f r) = sr_seg_n r /\ sr_block (f r) = sr_block r.

(** A change of one context, with the blocks it gives or takes. *)
Lemma tx_change s i f tx free : Inv s -> t_tx s !! i = Some tx -> tx_wf (f tx) ->
  (free + held (sx_seg (f tx)) = t_free s + held (sx_seg tx))%nat ->
  Inv (s <| t_free := free |> <| t_tx ::= alter f i |>).
Proof.
  intros [Hb Ht Hr] Hi Hwf Hf. split; cbn; [|apply Forall_alter_at; [done|intros x Hx _; congruence]|done].
  pose proof (sum_alter (fun tx => held (sx_seg tx)) f i (t_tx s) tx Hi) as Hsum. cbn beta in Hsum. unfold tx_blocks, rx_blocks in *. lia.
Qed.

Lemma rx_change s i f rx free : Inv s -> t_rx s !! i = Some rx -> rx_wf (f rx) ->
  (free + held (sr_seg (f rx)) = t_free s + held (sr_seg rx))%nat ->
  Inv (s <| t_free := free |> <| t_rx ::= alter f i |>).
Proof.
  intros [Hb Ht Hr] Hi Hwf Hf. split; cbn; [|done|apply Forall_alter_at; [done|intros x Hx _; congruence]].
  pose proof (sum_alter (fun rx => held (sr_seg rx)) f i (t_rx s) rx Hi) as Hsum. cbn beta in Hsum. unfold tx_blocks, rx_blocks in *. lia.
Qed.

Lemma alter_none {A} (f : A -> A) i (l : list A) : l !! i = None -> alter f i l = l.
Proof. intros Hi. apply alter_same. congruence. Qed.

Lemma set_free_id s : s <| t_free := t_free s |> = s.
Proof. by destruct s. Qed.

Lemma tx_wf_quiet f t : tx_quiet f -> tx_wf t -> tx_wf (f t).
Proof. intros Hf [H1 H2 H3]. destruct (Hf t) as (E1 & E2 & E3). split; rewrite ?E1, ?E2, ?E3; done. Qed.
Lemma rx_wf_quiet f r : rx_quiet f -> rx_wf r -> rx_wf (f r).
Proof. intros Hf [H1]. destruct (Hf r) as (E1 & E2 & E3 & E4). split. rewrite E1, E2, E3, E4. done. Qed.

Lemma inv_tx_at s i tx : Inv s -> t_tx s !! i = Some tx -> tx_wf tx.
Proof. intros [_ Ht _] Hi. by eapply Forall_lookup_1. Qed.
Lemma inv_rx_at s i rx : Inv s -> t_rx s !! i = Some rx -> rx_wf rx.
Proof. intros [_ _ Hr] Hi. by eapply Forall_lookup_1. Qed.

Lemma on_tx_quiet i f s : tx_quiet f -> Inv s -> Inv (s <| t_tx ::= alter f i |>).
Proof.
  intros Hf Hs. destruct (t_tx s !! i) as [tx|] eqn:Hi.
  - rewrite <-(set_free_id s) at 1. apply (tx_change s i f tx); [done|done| |by rewrite (proj1 (Hf tx))].
    apply tx_wf_quiet; [done|]. by eapply inv_tx_at.
  - destruct Hs. split; cbn; by rewrite ?alter_none by done.
Qed.
Lemma on_rx_quiet i f s : rx_quiet f -> Inv s -> Inv (s <| t_rx ::= alter f i |>).
Proof.
  intros Hf Hs. destruct (t_rx s !! i) as [rx|] eqn:Hi.
  - rewrite <-(set_free_id s) at 1. apply (rx_change s i f rx); [done|done| |by rewrite (proj1 (Hf rx))].
    apply rx_wf_quiet; [done|]. by eapply inv_rx_at.
  - destruct Hs. split; cbn; by rewrite ?alter_none by done.
Qed.

Lemma kept_on_tx i f : tx_quiet f -> kept (on_tx i f).
Proof. intros Hf. apply triple_change. intros s Hs. by apply on_tx_quiet. Qed.
Lemma kept_on_rx i f : rx_quiet f -> kept (on_rx i f).
Proof. intros Hf. apply triple_change. intros s Hs. by apply on_rx_quiet. Qed.

(** * Sending *)

Context (cfg : net_cfg) (tcfg : trans_cfg) (env : trans_env).

Lemma tx_at_lookup i s tx : t_tx s !! i = Some tx -> tx_at i s = tx.
Proof. apply list_lookup_total_correct. Qed.
Lemma tx_at_none i s : t_tx s !! i = None -> tx_at i s = free_tx 0.
Proof. intros Hi. unfold tx_at. by rewrite list_lookup_total_alt, Hi. Qed.

(** A segment gives its block back. *)
Lemma seg_tx_done_inv i k b s : Inv s -> sx_seg (tx_at i s) !! k = Some (Some b) ->
  exists s', seg_tx_done i (Z.of_nat k) s = (Ok (), s') /\ Inv s' /\
    tx_at i s' = (tx_at i s) <| sx_seg ::= <[k := None]> |> <| sx_nack_count ::= (fun n => u8 (n - 1)) |>.
Proof.
  intros Hs Hk. destruct (t_tx s !! i) as [tx|] eqn:Hi; [|by rewrite tx_at_none in Hk].
  rewrite (tx_at_lookup _ _ _ Hi) in *. eexists. split; [unfold seg_tx_done; rewrite Nat2Z.id; reflexivity|].
  pose proof (inv_tx_at _ _ _ Hs Hi) as [Hn Hg Hl]. pose proof (held_clear _ _ _ Hk) as Hh.
  rewrite decide_True in Hh by done. set (f := fun tx : seg_tx => _). split.
  - apply (tx_change s i f tx (S (t_free s)) Hs Hi); cbn -[held].
    + split; cbn -[held]; [|intros j c Hj|by rewrite length_insert].
      * unfold u8. rewrite Z.mod_small by lia. lia.
      * apply (Hg j c). apply list_lookup_insert_Some in Hj as [(_ & ? & _)|[_ Hj]]; done.
    + lia.
  - apply tx_at_lookup. cbn. by rewrite list_lookup_alter_eq, Hi.
Qed.

(** The loop frees what the context holds in its rounds. *)
Lemma tx_free_loop_inv i n : forall k s, Inv s ->
  (forall j b, sx_seg (tx_at i s) !! j = Some (Some b) -> (k <= j < k + n)%nat) ->
  match tx_free_loop i (Z.of_nat k) n s with
  | (Ok _, s') => Inv s' /\ held (sx_seg (tx_at i s')) = 0%nat /\ sx_seg_n (tx_at i s') = sx_seg_n (tx_at i s)
  | (Err _, _) => False
  | (Crash, _) => True
  end.
Proof.
  induction n as [|n IH]; intros k s Hs Hk; cbn [tx_free_loop].
  { split; [done|]. split; [|done]. apply held_zero. intros j b Hj. apply Hk in Hj. lia. }
  rewrite (bind_ok _ _ s (tx_at i s) s) by done. destruct (Z.eqb_spec (sx_nack_count (tx_at i s)) 0) as [Hz|Hz].
  { split; [done|]. split; [|done]. destruct (t_tx s !! i) as [tx|] eqn:Hi; [|by rewrite tx_at_none].
    rewrite (tx_at_lookup _ _ _ Hi) in *. destruct (inv_tx_at _ _ _ Hs Hi) as [Hn _ _]. lia. }
  unfold seg_entry at 1. rewrite (proj2 (Z.ltb_ge _ _)) by lia. rewrite Nat2Z.id.
  destruct (sx_seg (tx_at i s) !! k) as [[b|]|] eqn:He; [| |done].
  - rewrite (bind_ok _ _ s (Some b) s) by done.
    destruct (seg_tx_done_inv i k b s Hs He) as (s1 & E1 & Hs1 & Ht1). rewrite (bind_ok _ _ _ _ _ E1).
    replace (Z.of_nat k + 1) with (Z.of_nat (S k)) by lia.
    assert (forall j c, sx_seg (tx_at i s1) !! j = Some (Some c) -> (S k <= j < S k + n)%nat) as Hk1.
    { intros j c. rewrite Ht1. cbn. intros Hj. apply list_lookup_insert_Some in Hj as [(_ & ? & _)|[Hne Hj]]; [done|].
      apply Hk in Hj. lia. }
    specialize (IH (S k) s1 Hs1 Hk1). destruct (tx_free_loop i (Z.of_nat (S k)) n s1) as [[[]|e|] s']; [|done|done].
    destruct IH as (? & ? & Hx). split_and!; [done..|]. rewrite Hx, Ht1. done.
  - rewrite (bind_ok _ _ s None s) by done. rewrite (bind_ok (mret ()) _ s () s) by done.
    replace (Z.of_nat k + 1) with (Z.of_nat (S k)) by lia. apply IH; [done|].
    intros j c Hj. pose proof (Hk j c Hj). assert (j <> k) by congruence. lia.
Qed.

Lemma kept_proceed : kept (proceed_iv_update cfg env).
Proof. apply triple_change. by intros s [H1 H2 H3]. Qed.

(** A context with no segment left may be set up anew. *)
Lemma on_tx_empty i f s : Inv s -> held (sx_seg (tx_at i s)) = 0%nat ->
  (forall t, sx_seg (f t) = sx_seg t) -> 0 <= sx_nack_count (f (tx_at i s)) < 256 -> Inv (s <| t_tx ::= alter f i |>).
Proof.
  intros Hs Hh Hf Hn. destruct (t_tx s !! i) as [tx|] eqn:Hi; [|destruct Hs; split; cbn; by rewrite ?alter_none by done].
  rewrite (tx_at_lookup _ _ _ Hi) in *. rewrite <-(set_free_id s) at 1. apply (tx_change s i f tx); [done|done| |by rewrite Hf].
  destruct (inv_tx_at _ _ _ Hs Hi) as [_ _ Hl]. split; rewrite Hf; [lia| |done].
  intros k b Hk. by apply held_zero in Hk.
Qed.

Lemma kept_seg_tx_reset i : kept (seg_tx_reset cfg env i).
Proof.
  unfold seg_tx_reset. apply kept_bind; [apply kept_on_tx; by intros t|]. intros _.
  eapply triple_bind; [apply triple_gets|]. intros n. cbn beta.
  eapply (triple_bind _ _ (fun _ s => Inv s /\ held (sx_seg (tx_at i s)) = 0%nat)).
  - intros s [Hs ->]. pose proof (tx_free_loop_inv i (Z.to_nat (sx_seg_n (tx_at i s) + 1)) 0 s Hs) as Hl.
    destruct (tx_free_loop i (Z.of_nat 0) _ s) as [[[]|e|] s'] eqn:E; change (Z.of_nat 0) with 0 in E; rewrite E.
    + destruct Hl as (? & ? & _); [|done]. intros j b Hj. destruct (t_tx s !! i) as [tx|] eqn:Hi; [|by rewrite tx_at_none in Hj].
      rewrite (tx_at_lookup _ _ _ Hi) in *. destruct (inv_tx_at _ _ _ Hs Hi) as [_ Hg _]. apply Hg in Hj. lia.
    + exfalso. apply Hl. intros j b Hj. destruct (t_tx s !! i) as [tx|] eqn:Hi; [|by rewrite tx_at_none in Hj].
      rewrite (tx_at_lookup _ _ _ Hi) in *. destruct (inv_tx_at _ _ _ Hs Hi) as [_ Hg _]. apply Hg in Hj. lia.
    + done.
  - intros _. eapply (triple_bind _ _ (fun _ => Inv)); [|intros ?; apply kept_proceed].
    apply triple_change. intros s [Hs Hh]. apply on_tx_empty; [done|done|done|]. cbn. lia.
Qed.

(** A computation keeps the invariant if its steps do. *)
Ltac quiet := intros ?; cbn; repeat case_match; by split_and!.
Ltac kept_step :=
  lazymatch goal with
  | |- triple _ ?m _ => change (kept m)
  | |- kept (_ ≫= _) => apply kept_bind; [|intros ?]
  | |- kept (match ?x with _ => _ end) => destruct x
  | |- kept (attempt _) => apply kept_attempt
  | |- _ => first [apply kept_ret | apply kept_fail | apply kept_gets | apply kept_checked | apply kept_log
           | apply kept_in_net | apply kept_seg_entry | by auto with kept
           | apply kept_on_tx; quiet | apply kept_on_rx; quiet]
  end.
Ltac kept_tac := cbv zeta; repeat (kept_step; cbv zeta).

#[local] Hint Resolve kept_seg_tx_reset kept_proceed : kept.

Lemma kept_cb_started cb d err : kept (cb_started cb d err).
Proof. unfold cb_started. kept_tac. Qed.
Lemma kept_cb_ended cb err : kept (cb_ended cb err).
Proof. unfold cb_ended. kept_tac. Qed.
#[local] Hint Resolve kept_cb_started kept_cb_ended : kept.
Lemma kept_send_cb_finalize cb : kept (send_cb_finalize cb).
Proof. unfold send_cb_finalize. kept_tac. Qed.
#[local] Hint Resolve kept_send_cb_finalize : kept.

Lemma kept_net_send tx xmit buf fin : kept fin -> kept (net_send cfg env tx xmit buf fin).
Proof. intros Hf. unfold net_send. kept_tac. Qed.
#[local] Hint Resolve kept_net_send : kept.

Lemma kept_send_unseg tx sdu cb op : kept (send_unseg cfg env tx sdu cb op).
Proof. unfold send_unseg. kept_tac. Qed.
#[local] Hint Resolve kept_send_unseg : kept.

Lemma kept_unblock i : kept (seg_tx_unblock_check i).
Proof. unfold seg_tx_unblock_check. kept_tac. Qed.
#[local] Hint Resolve kept_unblock : kept.

Lemma kept_seg_tx_complete i err : kept (seg_tx_complete cfg env i err).
Proof. unfold seg_tx_complete. kept_tac. Qed.
#[local] Hint Resolve kept_seg_tx_complete : kept.

Lemma kept_schedule i d : kept (schedule_transmit_continue tcfg i d).
Proof. unfold schedule_transmit_continue. kept_tac. Qed.
#[local] Hint Resolve kept_schedule : kept.

Lemma kept_seg_send_start i d err : kept (seg_send_start tcfg env i d err).
Proof. unfold seg_send_start. kept_tac. Qed.
Lemma kept_seg_sent i err : kept (seg_sent tcfg env i err).
Proof. unfold seg_sent. kept_tac. Qed.
#[local] Hint Resolve kept_seg_send_start kept_seg_sent : kept.

Lemma kept_buf_build tx o buf : kept (seg_tx_buf_build tx o buf).
Proof. unfold seg_tx_buf_build. kept_tac. Qed.
#[local] Hint Resolve kept_buf_build : kept.

Lemma kept_send_loop i net n : kept (seg_send_loop cfg tcfg env i net n).
Proof. induction n as [|n IH]; cbn [seg_send_loop]; kept_tac; apply kept_net_send; kept_tac. Qed.
#[local] Hint Resolve kept_send_loop : kept.

Lemma kept_reschedule i dst : kept (seg_tx_reschedule tcfg env i dst).
Proof. unfold seg_tx_reschedule. kept_tac. Qed.
#[local] Hint Resolve kept_reschedule : kept.

Lemma kept_send_unacked i : kept (seg_tx_send_unacked cfg tcfg env i).
Proof. unfold seg_tx_send_unacked. kept_tac. Qed.
#[local] Hint Resolve kept_send_unacked : kept.

Lemma kept_retransmit i : kept (seg_retransmit cfg tcfg env i).
Proof. unfold seg_retransmit. kept_tac. Qed.

(** ** A new transmission *)

(** A computation that only looks. *)
Definition reads {A} (m : M st A) : Prop := forall s, (m s).2 = s.
Lemma reads_bind {A B} (m : M st A) (f : A -> M st B) : reads m -> (forall a, reads (f a)) -> reads (m ≫= f).
Proof.
  intros Hm Hf s. unfold mbind, M_bind. specialize (Hm s). destruct (m s) as [[a|e|] s']; cbn in Hm; subst; try done. apply Hf.
Qed.
Lemma reads_checked {A} (o : option A) : reads (checked (W := st) o).
Proof. done. Qed.
Lemma reads_buf_build tx o buf : reads (seg_tx_buf_build (W := W) tx o buf).
Proof.
  unfold seg_tx_buf_build, seg_entry. cbv zeta. do 4 (apply reads_bind; [done|intros ?]).
  apply reads_bind; [by destruct (o <? 0)|intros ?]. by repeat (apply reads_bind; [done|intros ?]).
Qed.
Lemma triple_reads {A} P (m : M st A) : reads m -> (forall s, P s -> Inv s) -> triple P m (fun _ => P).
Proof. intros Hm HP s Hs. specialize (Hm s). destruct (m s) as [[a|e|] s']; cbn in Hm; subst; auto. Qed.

(** Context [i] is being filled: its segments so far are before [o], of [m + 1]. *)
Record filling (i : nat) (o m : Z) s : Prop := {
  fl_inv : Inv s;
  fl_seg_n : sx_seg_n (tx_at i s) = m;
  fl_nack : sx_nack_count (tx_at i s) = m + 1;
  fl_seg : forall k b, sx_seg (tx_at i s) !! k = Some (Some b) -> Z.of_nat k < o
}.

Lemma inv_free s n tx l : Inv s -> t_free s = S n -> t_tx s !! l = Some tx -> forall f,
  tx_wf (f tx) -> held (sx_seg (f tx)) = S (held (sx_seg tx)) -> Inv (s <| t_free := n |> <| t_tx ::= alter f l |>).
Proof. intros Hs Hn Hl f Hwf Hh. apply (tx_change s l f tx n Hs Hl Hwf). lia. Qed.

(** A block is taken and filled. *)
Lemma fill_store i o m s n d : filling i o m s -> 0 <= o <= m -> m < 255 -> t_free s = S n ->
  is_Some (sx_seg (tx_at i s) !! Z.to_nat o) ->
  filling i (o + 1) m (s <| t_free := n |> <| t_tx ::= alter (fun tx => tx <| sx_seg ::= <[Z.to_nat o := Some d]> |>) i |>).
Proof.
  intros [Hs Hm Hn Hseg] Ho Hm2 Hf [e He]. destruct (t_tx s !! i) as [tx|] eqn:Hi; [|by rewrite tx_at_none in He].
  set (s' := s <| t_free := n |> <| t_tx ::= _ |>).
  assert (tx_at i s' = tx <| sx_seg ::= <[Z.to_nat o := Some d]> |>) as Ht
    by (apply tx_at_lookup; cbn; by rewrite list_lookup_alter_eq, Hi).
  rewrite (tx_at_lookup _ _ _ Hi) in *.
  assert (e = None) as -> by (destruct e as [b|]; [apply Hseg in He; lia|done]).
  destruct (inv_tx_at _ _ _ Hs Hi) as [Hnk Hg Hl].
  assert (forall k b, <[Z.to_nat o := Some d]> (sx_seg tx) !! k = Some (Some b) -> Z.of_nat k < o + 1) as Hseg'.
  { intros k b Hk. apply list_lookup_insert_Some in Hk as [(<- & _ & _)|[_ Hk]]; [lia|]. apply Hseg in Hk. lia. }
  assert (held (<[Z.to_nat o := Some d]> (sx_seg tx)) <= Z.to_nat (o + 1))%nat as Hb.
  { apply held_bound. intros k b Hk. apply Hseg' in Hk. lia. }
  split; rewrite ?Ht; try done.
  apply (inv_free s n tx i Hs Hf Hi); [|cbn -[held]; by apply held_set].
  split; cbn -[held]; [lia| |by rewrite length_insert]. intros k b Hk. apply Hseg' in Hk. lia.
Qed.

(** The block goes back, to the friend queue's copy. *)
Lemma fill_drop i o m s d : filling i (o + 1) m s -> 0 <= o -> sx_seg (tx_at i s) !! Z.to_nat o = Some (Some d) ->
  filling i (o + 1) m (s <| t_free ::= S |> <| t_tx ::= alter (fun tx => tx <| sx_seg ::= <[Z.to_nat o := None]> |>) i |>).
Proof.
  intros [Hs Hm Hn Hseg] Ho He. destruct (t_tx s !! i) as [tx|] eqn:Hi; [|by rewrite tx_at_none in He].
  set (s' := s <| t_free ::= S |> <| t_tx ::= _ |>).
  assert (tx_at i s' = tx <| sx_seg ::= <[Z.to_nat o := None]> |>) as Ht
    by (apply tx_at_lookup; cbn; by rewrite list_lookup_alter_eq, Hi).
  rewrite (tx_at_lookup _ _ _ Hi) in *. pose proof (held_clear _ _ _ He) as Hh. rewrite decide_True in Hh by done.
  assert (forall k b, <[Z.to_nat o := None]> (sx_seg tx) !! k = Some (Some b) -> sx_seg tx !! k = Some (Some b)) as Hold
    by (intros k b Hk; by apply list_lookup_insert_Some in Hk as [(_ & ? & _)|[_ Hk]]).
  destruct (inv_tx_at _ _ _ Hs Hi) as [Hnk Hg Hl]. split; rewrite ?Ht; try done; cbn -[held].
  - apply (tx_change s i _ tx (S (t_free s)) Hs Hi); cbn -[held]; [|lia].
    split; cbn -[held]; [lia| |by rewrite length_insert]. intros k b Hk. by eapply Hg, Hold.
  - intros k b Hk. by eapply Hseg, Hold.
Qed.

Lemma filling_log i o m s x : filling i o m s -> filling i o m (s <| t_out ::= x |>).
Proof. intros [[H1 H2 H3] ? ? ?]. by split. Qed.

Lemma send_seg_one_inv i net_tx op o m sdu : 0 <= o <= m -> m < 255 -> 0 <= b_len sdu < 65536 ->
  triple (filling i o m) (send_seg_one cfg env i net_tx op o sdu) (fun sdu' s =>
    filling i (o + 1) m s /\ b_len sdu' = b_len sdu - Z.min (b_len sdu) (seg_len (bool_decide (is_Some op)))).
Proof.
  intros Ho Hm Hl. unfold send_seg_one. set (L := seg_len _).
  assert (0 < L <= 12) as HL by (unfold L; by destruct (bool_decide _)).
  eapply (triple_bind _ _ (fun r s => match r with
    | inl _ => exists s0 n, filling i o m s0 /\ t_free s0 = S n /\ s = s0 <| t_free := n |>
    | inr _ => Inv s end)).
  { intros s Hs. unfold attempt, segs_alloc. destruct (t_free s) as [|n] eqn:Hf; [apply Hs|]. by exists s, n. }
  intros [[]|e].
  2: { eapply triple_bind; [apply kept_seg_tx_reset|]. intros ?. by apply triple_fail. }
  eapply triple_bind; [apply triple_checked|]. intros [sdu' p]. apply triple_fact. intros Hpull.
  assert (b_len sdu' = b_len sdu - Z.min (b_len sdu) L) as Hlen.
  { unfold bt_buf_simple_pull_mem in Hpull. destruct (assert _); [|done]. cbn in Hpull. injection Hpull as <- _.
    cbn. unfold u16. apply Z.mod_small. lia. }
  eapply triple_bind; [apply triple_checked|]. intros data. apply triple_fact. intros _.
  eapply triple_bind; [apply triple_gets|]. intros tx. cbn beta.
  eapply triple_bind; [apply triple_checked|]. intros e. cbn beta.
  eapply (triple_bind _ _ (fun _ s => filling i (o + 1) m s /\ sx_seg (tx_at i s) !! Z.to_nat o = Some (Some data))).
  { apply triple_change. intros s [[(s0 & n & Hs & Hf & ->) ->] He]. change (tx_at i (s0 <| t_free := n |>)) with (tx_at i s0) in He.
    split; [apply (fill_store i o m s0 n data Hs Ho Hm Hf); by exists e|].
    destruct (t_tx s0 !! i) as [tx|] eqn:Hi; [|by rewrite tx_at_none in He].
    rewrite (tx_at_lookup _ _ _ Hi) in He.
    erewrite tx_at_lookup; [|cbn; by rewrite list_lookup_alter_eq, Hi]. cbn. apply list_lookup_insert_eq. by eapply lookup_lt_Some. }
  intros _. eapply (triple_bind _ _ (fun _ => filling i (o + 1) m)).
  2: { intros _. intros s Hs. done. }
  destruct (c_friend cfg); [|by intros s [Hs _]].
  eapply triple_bind; [apply triple_gets|]. intros tx'.
  set (P := fun s => filling i (o + 1) m s /\ sx_seg (tx_at i s) !! Z.to_nat o = Some (Some data)).
  assert (forall s, P s -> Inv s) as HP by (intros s [Hs _]; apply Hs).
  eapply (triple_bind _ _ (fun _ => P)); [eapply triple_pre; [apply (triple_reads P); [apply reads_buf_build|exact HP]|by intros s [Hs _]]|]. intros seg.
  eapply (triple_bind _ _ (fun _ => P)); [by apply triple_reads|]. intros pdu.
  eapply (triple_bind _ _ (fun _ => P)); [by apply triple_reads|]. intros k.
  eapply (triple_bind _ _ (fun _ => P)).
  { apply triple_change. intros s [Hs He]. split; [by apply filling_log|done]. }
  intros _. destruct (_ && _); [|by intros s [Hs _]].
  intros s [Hs He]. unfold segs_free, on_tx, change, mbind, M_bind. apply (fill_drop i o m s data Hs); [lia|done].
Qed.

Lemma send_seg_loop_inv i net_tx op len n : forall o sdu, let L := seg_len (bool_decide (is_Some op)) in
  let m := (len - 1) / L in 1 <= len <= 2040 -> 0 <= o <= m + 1 -> b_len sdu = Z.max 0 (len - o * L) ->
  triple (filling i o m) (send_seg_loop cfg env i net_tx op n o sdu) (fun _ => Inv).
Proof.
  cbv zeta. set (L := seg_len _). assert (L = 8 \/ L = 12) as HL by (unfold L; destruct (bool_decide _); [by left|by right]).
  set (m := (len - 1) / L). induction n as [|n IH]; intros o sdu Hlen Ho Hb; cbn [send_seg_loop].
  - destruct (b_len sdu =? 0); [|done]. intros s Hs. apply Hs.
  - destruct (Z.eqb_spec (b_len sdu) 0) as [Hz|Hz]; [intros s Hs; apply Hs|].
    assert (0 <= o <= m /\ m < 255) as [Hom Hm].
    { assert (o * L < len) by lia. assert (o * L <= len - 1) by lia.
      assert (o <= m) by (apply Z.div_le_lower_bound; lia). split; [lia|]. apply Z.div_lt_upper_bound; lia. }
    eapply triple_bind; [apply (send_seg_one_inv i net_tx op o m sdu Hom Hm); lia|]. intros sdu'. apply triple_fact. intros Hl.
    unfold u8. rewrite Z.mod_small by lia. apply IH; [done|lia|]. fold L in Hl. lia.
Qed.

Lemma send_seg_scan_inv src dst l : forall k b t0 b' i, send_seg_scan src dst l k b t0 = (b', Some i) ->
  t0 = Some i \/ exists t, (k <= i)%nat /\ l !! (i - k)%nat = Some t /\ sx_nack_count t = 0.
Proof.
  induction l as [|x l IH]; intros k b t0 b' i; cbn [send_seg_scan]; [intros [= _ ->]; by left|].
  destruct (Z.eqb_spec (sx_nack_count x) 0) as [Hz|Hz]; cbn [negb]; intros E; apply IH in E as [Ht|(t & Hk & Ht & Hn)].
  - destruct t0 as [j|]; [by left|]. injection Ht as <-. right. exists x. by rewrite Nat.sub_diag.
  - right. exists t. split; [lia|]. by replace (i - k)%nat with (S (i - S k)) by lia.
  - by left.
  - right. exists t. split; [lia|]. by replace (i - k)%nat with (S (i - S k)) by lia.
Qed.

Lemma kept_send_seg net_tx sdu cb op : 0 <= b_len sdu <= 2040 -> kept (send_seg cfg tcfg env net_tx sdu cb op).
Proof.
  intros Hl. unfold send_seg. cbv zeta. eapply triple_bind; [apply triple_gets|]. intros s0. cbn beta.
  destruct (send_seg_scan _ _ _ _ _ _) as [blocked [i|]] eqn:Hscan; [|apply triple_fail; by intros s [Hs _]].
  set (L := seg_len (bool_decide (is_Some op))). assert (L = 8 \/ L = 12) as HL by (unfold L; destruct (bool_decide _); [by left|by right]).
  eapply (triple_bind _ _ (fun _ s => Inv s /\ (1 <= b_len sdu -> filling i 0 ((b_len sdu - 1) / L) s))).
  { apply triple_change. intros s [Hs ->]. unfold id in *. apply send_seg_scan_inv in Hscan as [?|(t & _ & Hi & Hn)]; [done|].
    rewrite Nat.sub_0_r in Hi. pose proof (inv_tx_at _ _ _ Hs Hi) as [Hnk _ _].
    assert (held (sx_seg (tx_at i s)) = 0%nat) as Hz by (rewrite (tx_at_lookup _ _ _ Hi); lia).
    set (f := seg_tx_init _ _ _ _ _ _ _). assert (forall t, sx_seg (f t) = sx_seg t) as Hf by done.
    assert (Inv (s <| t_tx ::= alter f i |>)) as Hs' by (apply on_tx_empty; try done; cbn; unfold u8; apply Z.mod_pos_bound; lia).
    split; [done|]. intros H1.
    assert (tx_at i (s <| t_tx ::= alter f i |>) = f t) as Ht by (apply tx_at_lookup; cbn; by rewrite list_lookup_alter_eq, Hi).
    assert (0 <= (b_len sdu - 1) / L < 255) as Hm by (split; [apply Z.div_pos; lia|apply Z.div_lt_upper_bound; lia]).
    split; rewrite ?Ht; [done| | |].
    - cbn. fold L. rewrite Z.quot_div_nonneg by lia. unfold u8. by rewrite Z.mod_small by lia.
    - cbn. fold L. rewrite Z.quot_div_nonneg by lia. unfold u8. rewrite (Z.mod_small (_ / _)) by lia. rewrite Z.mod_small by lia. done.
    - rewrite Hf. rewrite (tx_at_lookup _ _ _ Hi) in Hz. intros k b Hk. by apply (proj1 (held_zero _) Hz) in Hk. }
  intros _. eapply triple_bind; [apply triple_gets|]. intros tx. cbn beta.
  eapply (triple_pre (fun s => Inv s /\ (1 <= b_len sdu -> filling i 0 ((b_len sdu - 1) / L) s))); [|by intros s [Hs _]].
  destruct (_ && _).
  { eapply triple_bind; [eapply triple_pre; [apply kept_seg_tx_reset|by intros s [Hs _]]|]. intros ?. by apply triple_fail. }
  eapply (triple_bind _ _ (fun _ => Inv)).
  - destruct (decide (1 <= b_len sdu)) as [H1|H0].
    + eapply triple_pre; [apply (send_seg_loop_inv i net_tx op (b_len sdu)); fold L; [lia| |lia]|].
      * split; [lia|]. assert (0 <= (b_len sdu - 1) / L) by (apply Z.div_pos; lia). lia.
      * intros s [_ Hs]. fold L. by apply Hs.
    + assert (b_len sdu = 0) as Hz by lia. rewrite Hz. change (Z.to_nat 0) with 0%nat. cbn [send_seg_loop]. rewrite Hz. by intros s [Hs _].
  - intros ?. kept_tac.
Qed.

(** ** Messages *)

(** The pool is as large as [Kconfig] allows. *)
Context (Hseg : 1 <= BT_MESH_TX_SEG_MAX tcfg <= 32).

Lemma trans_encrypt_len tx key msg : triple Inv (trans_encrypt tx key msg) (fun msg' s =>
  Inv s /\ b_len msg' = u16 (b_len msg + APP_MIC_LEN (tt_aszmic tx))).
Proof.
  unfold trans_encrypt. cbv zeta. eapply triple_bind; [apply triple_gets|]. intros iv. cbn beta.
  intros s [Hs _]. unfold in_net, in_crypto, in_sub, crypto_call. set (w := crypto (n_sub (t_net s))).
  assert (forall ctx, match bt_mesh_app_encrypt key ctx msg w with
    | (Ok b, _) => b_len b = u16 (b_len msg + APP_MIC_LEN (ac_aszmic ctx)) | _ => True end) as He.
  { intros ctx. unfold bt_mesh_app_encrypt. unfold mbind at 1, M_bind at 1, checked at 1.
    destruct (mem_read _ _ _) as [plain|]; [|done]. unfold mbind at 1, M_bind at 1.
    destruct (mc_ccm_encrypt _ _ _ _ _ w) as [[enc|e|] w1]; [|done|done].
    unfold mbind at 1, M_bind at 1, checked at 1. unfold store_at. destruct (mem_write _ _ _) as [m|]; [|done].
    cbn -[bt_buf_simple_add APP_MIC_LEN]. unfold checked, bt_buf_simple_add. destruct (assert _); [|done]. done. }
  specialize (He (mk_app_ctx (BT_MESH_IS_DEV_KEY (tx_app_idx (tt_net tx))) (tt_aszmic tx) (tx_src (tt_net tx)) (tx_dst (tt_net tx)) (seq iv)
                  (BT_MESH_NET_IVI_TX iv) (if BT_MESH_ADDR_IS_VIRTUAL (tx_dst (tt_net tx)) then tt_uuid tx else None))).
  fold w. destruct (bt_mesh_app_encrypt _ _ _ w) as [[b|e|] w']; [| |done].
  - split; [by destruct Hs; split|exact He].
  - by destruct Hs; split.
Qed.

Lemma mic_range z : 4 <= APP_MIC_LEN z <= 8.
Proof. unfold APP_MIC_LEN. destruct (negb _); lia. Qed.

Lemma kept_trans_send tx msg cb : kept (bt_mesh_trans_send cfg tcfg env tx msg cb).
Proof.
  unfold bt_mesh_trans_send. cbv zeta. destruct (Z.ltb_spec (b_len msg) 1) as [H1|H1]; [apply kept_fail|].
  destruct (Z.ltb_spec (BT_MESH_TX_SDU_MAX tcfg - BT_MESH_MIC_SHORT) (b_len msg)) as [H2|H2]; [apply kept_fail|].
  assert (b_len msg <= 384) as Hlen
    by (unfold BT_MESH_TX_SDU_MAX, BT_MESH_MIC_SHORT, BT_MESH_APP_SEG_SDU_MAX, BT_MESH_APP_UNSEG_SDU_MAX in H2; lia).
  destruct (_ <? _); [apply kept_fail|]. destruct (resolve_ttl env _) as [ttl|]; [|apply kept_fail].
  destruct (_ || _); [apply kept_fail|]. apply kept_bind; [apply kept_gets|]. intros subs.
  destruct (bt_mesh_keys_resolve _ _ _ _ _ _ _ _ _) as [[[sub key] aid]|err]; [|apply kept_fail].
  eapply triple_bind; [apply trans_encrypt_len|]. intros msg'. apply triple_fact. intros Hl. cbn in Hl.
  destruct (tt_send_rel tx || (BT_MESH_SDU_UNSEG_MAX <? b_len msg)); [|apply kept_send_unseg].
  pose proof mic_range as Hmic.
  apply kept_send_seg. rewrite Hl. match goal with |- context [APP_MIC_LEN ?z] => specialize (Hmic z); set (APP_MIC_LEN z) in * end.
  unfold u16. rewrite Z.mod_small; lia.
Qed.

Lemma kept_ctl_send tx op data cb : zlen data <= 2040 -> kept (bt_mesh_ctl_send cfg tcfg env tx op data cb).
Proof.
  intros Hl. unfold bt_mesh_ctl_send. cbv zeta. destruct (resolve_ttl env _) as [ttl|]; [|apply kept_fail].
  destruct (_ || _); [apply kept_fail|]. destruct (_ || _); [|apply kept_send_unseg].
  apply kept_send_seg. cbn. pose proof (Nat2Z.is_nonneg (length data) : 0 <= zlen data).
  unfold u16. rewrite Z.mod_small; lia.
Qed.

Lemma kept_send_ack sub src dst ttl auth block obo : kept (send_ack cfg tcfg env sub src dst ttl auth block obo).
Proof.
  unfold send_ack. kept_tac. apply kept_ctl_send. unfold zlen. rewrite length_app. cbn. lia.
Qed.
#[local] Hint Resolve kept_send_ack : kept.

(** ** Acknowledgements *)

Lemma kept_lookup z obo addr : kept (seg_tx_lookup z obo addr).
Proof. unfold seg_tx_lookup. kept_tac. Qed.
#[local] Hint Resolve kept_lookup : kept.

Lemma kept_ack_loop i n : forall ack new, kept (ack_loop i n ack new).
Proof.
  induction n as [|n IH]; intros ack new; cbn [ack_loop]; destruct (Z.eqb_spec (find_lsb_set ack) 0) as [Hz|Hz];
    try apply kept_ret; [apply kept_checked|].
  eapply triple_bind; [apply triple_gets|]. intros tx. cbn beta.
  eapply (triple_bind _ _ (fun e s => Inv s /\ match e with Some b => 0 <= find_lsb_set ack - 1 /\
      sx_seg (tx_at i s) !! Z.to_nat (find_lsb_set ack - 1) = Some (Some b) | None => True end)).
  { intros s [Hs ->]. unfold seg_entry. destruct (Z.ltb_spec (find_lsb_set ack - 1) 0); [done|].
    unfold checked. destruct (_ !! _) as [[b|]|] eqn:He; done. }
  intros e. eapply (triple_bind _ _ (fun _ => Inv)); [|intros; apply IH].
  destruct e as [b|]; [|by intros s [Hs _]].
  intros s (Hs & Hk & He). destruct (seg_tx_done_inv i _ b s Hs He) as (s' & E & Hs' & _).
  rewrite Z2Nat.id in E by done. by rewrite (bind_ok _ _ _ _ _ E).
Qed.
#[local] Hint Resolve kept_ack_loop : kept.

Lemma kept_ack_reschedule i : kept (ack_reschedule tcfg env i).
Proof. unfold ack_reschedule. kept_tac. Qed.
#[local] Hint Resolve kept_ack_reschedule : kept.

Lemma kept_trans_ack rx buf : kept (trans_ack cfg tcfg env rx buf).
Proof. unfold trans_ack. kept_tac. Qed.
#[local] Hint Resolve kept_trans_ack : kept.

(** * Receiving *)

(** What the layers above do with a message keeps the invariant too: they send with the
    operations of this file. *)
Context (access_recv : bt_mesh_net_rx -> option (list Z) -> list Z -> M st unit).
Context (ctl_handler : ctl_op_handler -> bt_mesh_net_rx -> bt_buf_simple -> M st unit).
Context (Haccess : forall rx uuid data, kept (access_recv rx uuid data)).
Context (Hctl : forall h rx buf, kept (ctl_handler h rx buf)).
#[local] Hint Resolve Haccess Hctl : kept.

Lemma kept_assemble_loop rx n : forall i buf, kept (assemble_loop rx n i buf).
Proof. induction n as [|n IH]; intros i buf; cbn [assemble_loop]; kept_tac. Qed.
#[local] Hint Resolve kept_assemble_loop : kept.
Lemma kept_assemble rx buf z : kept (seg_rx_assemble rx buf z).
Proof. unfold seg_rx_assemble. kept_tac. Qed.
#[local] Hint Resolve kept_assemble : kept.

Lemma kept_try_loop rx key n : forall ctx, kept (sdu_try_loop env rx key n ctx).
Proof. induction n as [|n IH]; intros ctx; cbn [sdu_try_loop]; kept_tac. Qed.
#[local] Hint Resolve kept_try_loop : kept.

Lemma kept_find_app {C} (cb : bt_mesh_key -> C -> M st (Z * C)) aid idx new l : forall c,
  (forall key c, kept (cb key c)) -> kept (find_app cb aid idx new l c).
Proof. induction l as [|app l IH]; intros c Hcb; cbn [find_app]; kept_tac; auto. Qed.

Lemma kept_key_find {C} (cb : bt_mesh_key -> C -> M st (Z * C)) cdb rpr act dev aid rx idx l devs c :
  (forall key c, kept (cb key c)) -> kept act -> kept (bt_mesh_app_key_find cdb rpr cb act dev aid rx idx l devs c).
Proof.
  intros Hcb Hact. assert (forall key c, kept (try_key cb key c)) as Htry by (intros; unfold try_key; kept_tac; auto).
  unfold bt_mesh_app_key_find. destruct dev; [|by apply kept_find_app].
  apply kept_bind; [apply Htry|]. intros [[] ?]; [apply kept_ret|]. destruct (BT_MESH_ADDR_IS_UNICAST _); [|apply kept_ret].
  apply kept_bind; [apply Htry|]. intros [[] ?]; [apply kept_ret|].
  apply kept_bind; [apply Htry|]. intros [[] ?]; [|apply kept_ret]. apply kept_bind; [done|]. intros _. apply kept_ret.
Qed.

Lemma kept_sdu_recv rx hdr z buf sdu seg : kept (sdu_recv cfg tcfg env access_recv rx hdr z buf sdu seg).
Proof.
  unfold sdu_recv. cbv zeta. apply kept_bind; [apply kept_gets|]. intros s. destruct (negb _); [kept_tac|].
  apply kept_bind; [apply kept_key_find; [intros; apply kept_try_loop|apply kept_log]|]. intros [idx ctx]. kept_tac.
Qed.
#[local] Hint Resolve kept_sdu_recv : kept.

Lemma kept_ctl_recv rx hdr buf : kept (ctl_recv cfg tcfg env ctl_handler rx hdr buf).
Proof. unfold ctl_recv. kept_tac. Qed.
#[local] Hint Resolve kept_ctl_recv : kept.

Lemma kept_rpl_slot rx : kept (rpl_slot cfg rx).
Proof. unfold rpl_slot. kept_tac. Qed.
Lemma kept_rpl_update slot rx : kept (rpl_update cfg slot rx).
Proof. unfold rpl_update. kept_tac. Qed.
#[local] Hint Resolve kept_rpl_slot kept_rpl_update : kept.

Lemma kept_trans_unseg buf rx : kept (trans_unseg cfg tcfg env access_recv ctl_handler buf rx).
Proof. unfold trans_unseg. kept_tac. Qed.
#[local] Hint Resolve kept_trans_unseg : kept.

(** ** Contexts *)

Lemma rx_at_lookup i s rx : t_rx s !! i = Some rx -> rx_at i s = rx.
Proof. apply list_lookup_total_correct. Qed.
Lemma rx_at_none i s : t_rx s !! i = None -> rx_at i s = free_rx 0.
Proof. intros Hi. unfold rx_at. by rewrite list_lookup_total_alt, Hi. Qed.

Lemma on_rx_empty i f s : Inv s -> held (sr_seg (rx_at i s)) = 0%nat -> (forall r, sr_seg (f r) = sr_seg r) ->
  Inv (s <| t_rx ::= alter f i |>) /\ held (sr_seg (rx_at i (s <| t_rx ::= alter f i |>))) = 0%nat.
Proof.
  intros Hs Hh Hf. destruct (t_rx s !! i) as [rx|] eqn:Hi.
  - rewrite (rx_at_lookup _ _ _ Hi) in *. split.
    + rewrite <-(set_free_id s) at 1. apply (rx_change s i f rx); [done|done| |by rewrite Hf].
      split. rewrite Hf. intros k b Hk. by apply held_zero in Hk.
    + erewrite rx_at_lookup; [|cbn; by rewrite list_lookup_alter_eq, Hi]. by rewrite Hf.
  - split; [destruct Hs; split; cbn; by rewrite ?alter_none by done|].
    rewrite rx_at_none; [done|]. cbn. by rewrite alter_none.
Qed.

Lemma rx_free_loop_inv i n : forall k s, Inv s ->
  (forall j b, sr_seg (rx_at i s) !! j = Some (Some b) -> (k <= j < k + n)%nat) ->
  match rx_free_loop i (Z.of_nat k) n s with
  | (Ok _, s') => Inv s' /\ held (sr_seg (rx_at i s')) = 0%nat
  | (Err _, _) => False
  | (Crash, _) => True
  end.
Proof.
  induction n as [|n IH]; intros k s Hs Hk; cbn [rx_free_loop].
  { split; [done|]. apply held_zero. intros j b Hj. apply Hk in Hj. lia. }
  unfold mbind at 1, M_bind at 1. unfold mbind at 1, M_bind at 1. unfold gets at 1. unfold seg_entry.
  rewrite (proj2 (Z.ltb_ge _ _)) by lia. rewrite Nat2Z.id. unfold checked.
  replace (Z.of_nat k + 1) with (Z.of_nat (S k)) by lia.
  destruct (sr_seg (rx_at i s) !! k) as [[b|]|] eqn:He; [| |done].
  - destruct (t_rx s !! i) as [rx|] eqn:Hi; [|by rewrite rx_at_none in He]. rewrite (rx_at_lookup _ _ _ Hi) in *.
    set (f := fun rx : seg_rx => rx <| sr_seg ::= <[k := None]> |>).
    set (s1 := s <| t_free ::= S |> <| t_rx ::= alter f i |>).
    pose proof (held_clear _ _ _ He) as Hh. rewrite decide_True in Hh by done.
    assert (forall j c, <[k := None]> (sr_seg rx) !! j = Some (Some c) -> j <> k /\ sr_seg rx !! j = Some (Some c)) as Hold
      by (intros j c Hj; by apply list_lookup_insert_Some in Hj as [(_ & ? & _)|[? Hj]]).
    assert (Inv s1) as Hs1.
    { apply (rx_change s i f rx (S (t_free s)) Hs Hi); cbn -[held]; [|lia].
      destruct (inv_rx_at _ _ _ Hs Hi) as [Hw]. split. cbn. intros j c Hj. apply Hold in Hj as [_ Hj]. by eapply Hw. }
    assert (rx_at i s1 = f rx) as Ht by (apply rx_at_lookup; cbn; by rewrite list_lookup_alter_eq, Hi).
    change ((_ ← (_ ← segs_free; on_rx i f); rx_free_loop i (Z.of_nat (S k)) n) s) with (rx_free_loop i (Z.of_nat (S k)) n s1).
    apply IH; [done|]. rewrite Ht. intros j c Hj. apply Hold in Hj as [Hne Hj]. apply Hk in Hj. lia.
  - change ((_ ← mret (); rx_free_loop i (Z.of_nat (S k)) n) s) with (rx_free_loop i (Z.of_nat (S k)) n s).
    apply IH; [done|]. intros j c Hj. pose proof (Hk j c Hj). assert (j <> k) by congruence. lia.
Qed.

(** A context is given up: its blocks go back. *)
Lemma seg_rx_reset_inv i full : triple Inv (seg_rx_reset cfg i full) (fun _ s => Inv s /\ held (sr_seg (rx_at i s)) = 0%nat).
Proof.
  unfold seg_rx_reset. eapply (triple_bind _ _ (fun _ => Inv)); [apply kept_on_rx; by intros r|]. intros [].
  eapply triple_bind; [apply triple_gets|]. intros rx. cbn beta.
  eapply (triple_bind _ _ (fun _ s => Inv s /\ sr_seg_n rx = sr_seg_n (rx_at i s))).
  { destruct (_ && _); [|by intros s [Hs ->]]. apply triple_change. intros s [[H1 H2 H3] ->]. by split. }
  intros _. eapply (triple_bind _ _ (fun _ s => Inv s /\ held (sr_seg (rx_at i s)) = 0%nat)).
  { intros s [Hs ->]. pose proof (rx_free_loop_inv i (Z.to_nat (sr_seg_n (rx_at i s) + 1)) 0 s Hs) as Hl.
    change (Z.of_nat 0) with 0 in Hl.
    assert (forall j b, sr_seg (rx_at i s) !! j = Some (Some b) -> (0 <= j < 0 + Z.to_nat (sr_seg_n (rx_at i s) + 1))%nat) as Hb.
    { intros j b Hj. destruct (t_rx s !! i) as [r|] eqn:Hi; [|by rewrite rx_at_none in Hj]. rewrite (rx_at_lookup _ _ _ Hi) in *.
      destruct (inv_rx_at _ _ _ Hs Hi) as [Hw]. apply Hw in Hj as (_ & Hj & _). lia. }
    specialize (Hl Hb). by destruct (rx_free_loop i 0 _ s) as [[[]|e|] s']. }
  intros _. eapply (triple_bind _ _ (fun _ s => Inv s /\ held (sr_seg (rx_at i s)) = 0%nat)).
  { apply triple_change. intros s [Hs Hh]. by apply on_rx_empty. }
  intros _. destruct full; [|by intros s Hs]. apply triple_change. intros s [Hs Hh]. by apply on_rx_empty.
Qed.

Lemma kept_seg_rx_reset i full : kept (seg_rx_reset cfg i full).
Proof. eapply triple_conseq; [apply seg_rx_reset_inv|done|]. by intros _ s [Hs _]. Qed.
#[local] Hint Resolve kept_seg_rx_reset : kept.

Lemma kept_seg_discard i : kept (seg_discard cfg tcfg i).
Proof.
  unfold seg_discard. apply kept_bind; [apply kept_on_rx; by intros r|]. intros _.
  eapply triple_bind; [apply seg_rx_reset_inv|]. intros []. cbn beta.
  eapply (triple_bind _ _ (fun _ => Inv)); [|intros ?; kept_tac].
  apply triple_change. intros s [Hs Hh]. by apply on_rx_empty.
Qed.

Lemma kept_seg_ack i : kept (seg_ack cfg tcfg env i).
Proof. unfold seg_ack. kept_tac. Qed.

(** ** A segment *)

Lemma kept_rx_find rx auth : kept (seg_rx_find cfg rx auth).
Proof. unfold seg_rx_find. kept_tac. Qed.

Lemma kept_refuse rx auth obo err : kept (refuse cfg tcfg env rx auth obo err).
Proof. unfold refuse. kept_tac. Qed.
#[local] Hint Resolve kept_refuse : kept.

Lemma kept_seg_complete i rx h rpl : kept (seg_complete cfg tcfg env access_recv ctl_handler i rx h rpl).
Proof. unfold seg_complete. kept_tac. Qed.
#[local] Hint Resolve kept_seg_complete : kept.

(** Context [i] is open for a message of [n + 1] segments. *)
Definition opened (n : Z) (i : nat) s : Prop := Inv s /\ sr_in_use (rx_at i s) = true /\ sr_seg_n (rx_at i s) = n.

Lemma opened_quiet n i j f s : rx_quiet f -> opened n i s -> opened n i (s <| t_rx ::= alter f j |>).
Proof.
  intros Hf (Hs & Hu & Hn). split; [by apply on_rx_quiet|]. destruct (decide (j = i)) as [->|Hj].
  - destruct (t_rx s !! i) as [rx|] eqn:Hi; [|by rewrite rx_at_none in Hu].
    erewrite rx_at_lookup; [|cbn; by rewrite list_lookup_alter_eq, Hi]. rewrite (rx_at_lookup _ _ _ Hi) in *.
    destruct (Hf rx) as (_ & -> & -> & _). done.
  - assert (rx_at i (s <| t_rx ::= alter f j |>) = rx_at i s) as -> by (unfold rx_at; cbn; by rewrite list_lookup_total_alter_ne).
    done.
Qed.

Lemma free_rx_scan_spec l : forall k i, free_rx_scan l k = Some i ->
  (k <= i)%nat /\ exists rx, l !! (i - k)%nat = Some rx /\ sr_in_use rx = false.
Proof.
  induction l as [|x l IH]; intros k i; cbn [free_rx_scan]; [done|]. destruct (sr_in_use x) eqn:Hu.
  - intros Hk. apply IH in Hk as (Hk & rx & Hi & Hf). split; [lia|]. exists rx. by replace (i - k)%nat with (S (i - S k)) by lia.
  - intros [= ->]. split; [lia|]. exists x. by rewrite Nat.sub_diag.
Qed.

Lemma seg_rx_alloc_inv rx hdr auth n : triple Inv (seg_rx_alloc rx hdr auth n) (fun r s =>
  match r with Some i => opened n i s | None => Inv s end).
Proof.
  unfold seg_rx_alloc. eapply triple_bind; [apply triple_gets|]. intros s0. cbn beta. unfold id.
  destruct (_ <? _)%nat; [by intros s [Hs _]|]. destruct (free_rx_scan (t_rx s0) 0) as [i|] eqn:Hf; [|by intros s [Hs _]].
  apply free_rx_scan_spec in Hf as (_ & r & Hi & Hu). rewrite Nat.sub_0_r in Hi.
  intros s [Hs ->]. unfold on_rx, change, mbind, M_bind, mret, M_ret. set (f := fun r : seg_rx => _).
  assert (held (sr_seg (rx_at i s)) = 0%nat) as Hh.
  { rewrite (rx_at_lookup _ _ _ Hi). apply held_zero. intros k b Hk. destruct (inv_rx_at _ _ _ Hs Hi) as [Hw].
    apply Hw in Hk as (Hx & _). congruence. }
  destruct (on_rx_empty i f s Hs Hh (fun _ => eq_refl)) as [Hs' _]. split; [done|].
  erewrite rx_at_lookup; [|cbn; by rewrite list_lookup_alter_eq, Hi]. done.
Qed.

Lemma seg_context_inv rx h rpl : triple Inv (seg_context cfg tcfg env rx h rpl) (opened (sh_seg_n h)).
Proof.
  unfold seg_context. eapply triple_bind; [apply kept_rx_find|]. intros [i|].
  - eapply triple_bind; [apply triple_gets|]. intros r. cbn beta.
    destruct (_ <? _); [apply triple_fail; by intros s [Hs _]|].
    destruct (seg_rx_is_valid r rx (sh_hdr h) (sh_seg_n h)) eqn:Hv; cbn [negb]; [|apply triple_fail; by intros s [Hs _]].
    unfold seg_rx_is_valid in Hv. apply andb_prop in Hv as [Hv _]. apply andb_prop in Hv as [Hv _].
    apply negb_true_iff, orb_false_iff in Hv as [_ Hn]. apply negb_false_iff, Z.eqb_eq in Hn.
    destruct (sr_in_use r) eqn:Hu; [by intros s [Hs ->]|].
    unfold seg_old. eapply (triple_pre Inv); [|by intros s [Hs _]].
    eapply triple_bind; [apply kept_gets|]. intros r'. destruct (_ =? _); [|by apply triple_fail].
    eapply (triple_bind _ _ (fun _ => Inv)); [|intros ?; eapply triple_bind; [apply kept_rpl_update|intros ?; by apply triple_fail]].
    kept_tac.
  - assert (forall e, triple Inv (_ ← refuse cfg tcfg env rx (sh_seq_auth h) (rx_friend_match rx) e; mret 0%nat) (opened (sh_seg_n h))) as Href.
    { intros e. unfold refuse. eapply (triple_bind _ _ (fun _ _ => False)); [|by intros [] s].
      eapply triple_bind; [apply kept_attempt, kept_send_ack|]. intros ?. by apply triple_fail. }
    destruct (negb _); [apply Href|]. eapply triple_bind; [apply triple_gets|]. intros s0. cbn beta. cbv zeta.
    eapply (triple_pre Inv); [|by intros s [Hs _]]. destruct (_ && _); [apply Href|].
    destruct (match rpl with Some _ => _ | None => _ end); [by apply triple_fail|].
    eapply triple_bind; [apply seg_rx_alloc_inv|]. intros [i|]; [|by apply triple_fail].
    eapply (triple_bind _ _ (fun _ => opened (sh_seg_n h) i)); [|by intros ? s].
    apply triple_change. intros s Hs. apply opened_quiet; [by intros r|done].
Qed.

(** Segment [o] of a message of [n + 1] has not arrived at context [i], whose segments
    are [l]. *)
Definition awaits (n o : Z) (l : list (option (list Z))) (i : nat) s : Prop :=
  opened n i s /\ Z.testbit (sr_block (rx_at i s)) o = false /\ sr_seg (rx_at i s) = l.

Lemma awaits_quiet n o l i f s : rx_quiet f -> awaits n o l i s -> awaits n o l i (s <| t_rx ::= alter f i |>).
Proof.
  intros Hf (Hop & Hb & Hl). split; [by apply opened_quiet|]. destruct Hop as (_ & Hu & _).
  destruct (t_rx s !! i) as [rx|] eqn:Hi; [|by rewrite rx_at_none in Hu].
  erewrite rx_at_lookup; [|cbn; by rewrite list_lookup_alter_eq, Hi]. rewrite (rx_at_lookup _ _ _ Hi) in *.
  by destruct (Hf rx) as (-> & _ & _ & ->).
Qed.

(** The block taken for it is filled. *)
Lemma awaits_store n o l i s free d : awaits n o l i s -> 0 <= o <= n -> t_free s = S free ->
  is_Some (l !! Z.to_nat o) ->
  Inv (s <| t_free := free |> <| t_rx ::= alter (fun rx => rx <| sr_seg ::= <[Z.to_nat o := Some d]> |>
                                                    <| sr_block ::= (fun b => Z.lor b (BIT o)) |>) i |>).
Proof.
  intros ((Hs & Hu & Hn) & Hb & <-) Ho Hf [e He]. destruct (t_rx s !! i) as [rx|] eqn:Hi; [|by rewrite rx_at_none in He].
  rewrite (rx_at_lookup _ _ _ Hi) in *. destruct (inv_rx_at _ _ _ Hs Hi) as [Hw].
  assert (e = None) as ->.
  { destruct e as [b|]; [|done]. apply Hw in He as (_ & _ & He). rewrite Z2Nat.id in He by lia. congruence. }
  apply (rx_change s i _ rx free Hs Hi); cbn -[held].
  - split. cbn. intros k b Hk. rewrite Z.lor_spec, BIT_spec by lia.
    apply list_lookup_insert_Some in Hk as [(<- & _ & _)|[_ Hk]].
    + rewrite Z2Nat.id by lia. rewrite Z.eqb_refl, orb_true_r. split_and!; [done|lia|done].
    + apply Hw in Hk as (? & ? & ->). done.
  - rewrite held_set by done. lia.
Qed.

Lemma seg_store_inv i rx h rpl data : 0 <= sh_seg_o h <= sh_seg_n h ->
  triple (opened (sh_seg_n h) i) (seg_store cfg tcfg env access_recv ctl_handler i rx h rpl data) (fun _ => Inv).
Proof.
  intros Ho. unfold seg_store. eapply triple_bind; [apply triple_gets|]. intros r. cbn beta.
  destruct (Z.land (BIT (sh_seg_o h)) (sr_block r) =? 0) eqn:Hbit; cbn [negb]; [|apply triple_fail; by intros s [[Hs _] _]].
  set (A := awaits (sh_seg_n h) (sh_seg_o h) (sr_seg r) i).
  assert (forall s, A s -> Inv s) as HA by (intros s [[Hs _] _]; done).
  assert (forall f, rx_quiet f -> triple A (on_rx i f) (fun _ => A)) as Hq
    by (intros f Hf; apply triple_change; intros s Hs; by apply awaits_quiet).
  eapply (triple_pre A).
  2: { intros s [Hs ->]. split_and!; [done| |done]. rewrite <-bit_test by lia. by rewrite Hbit. }
  eapply (triple_bind _ _ (fun _ => A)).
  { destruct (sh_seg_o h =? sh_seg_n h).
    - cbv zeta. eapply (triple_bind _ _ (fun _ => A)); [apply Hq; by intros ?|]. intros ?.
      destruct (_ <? _); [|by intros s Hs].
      eapply (triple_bind _ _ (fun _ => Inv)); [eapply triple_pre; [apply kept_attempt, kept_refuse|exact HA]|]. intros ?.
      eapply (triple_bind _ _ (fun _ => Inv)); [apply kept_seg_rx_reset|]. intros ?. by apply triple_fail.
    - destruct (negb _); [by apply triple_fail|by intros s Hs]. }
  intros ?. eapply (triple_bind _ _ (fun _ => A)); [apply Hq; by intros ?|].
  intros ?. eapply (triple_bind _ _ (fun _ => A)); [destruct (_ && _); [apply Hq; by intros ?|by intros s Hs]|].
  intros ?. eapply (triple_bind _ _ (fun r s => match r with
    | inl _ => exists s0 n, A s0 /\ t_free s0 = S n /\ s = s0 <| t_free := n |> | inr _ => Inv s end)).
  { intros s Hs. unfold attempt, segs_alloc. destruct (t_free s) as [|n] eqn:Hf; [by apply HA|]. by exists s, n. }
  intros [[]|e]; [|by apply triple_fail].
  eapply (triple_bind _ _ (fun _ s => exists s0 n, A s0 /\ t_free s0 = S n /\ s = s0 <| t_free := n |> /\
    is_Some (sr_seg r !! Z.to_nat (sh_seg_o h)))).
  { destruct (_ <=? _); [|by intros s Hs]. intros s (s0 & n & Hs & Hf & ->). unfold checked.
    destruct (sr_seg r !! _) eqn:He; [|done]. exists s0, n. split_and!; try done. }
  intros ?. eapply (triple_bind _ _ (fun _ => Inv)).
  { apply triple_change. intros s (s0 & n & Hs & Hf & -> & He). by eapply awaits_store. }
  intros ?. kept_tac.
Qed.

(** ** A received PDU *)

Lemma mem_read_bytes m p n l : mem_read m p n = Some l -> Forall is_byte m -> Forall is_byte l.
Proof.
  unfold mem_read, slice. intros E Hm. destruct (_ && _); [|done]. injection E as <-. by apply Forall_take, Forall_drop.
Qed.

Lemma pull_store b n b' p : bt_buf_simple_pull b n = Some (b', p) -> b_store b' = b_store b.
Proof. unfold bt_buf_simple_pull. destruct (assert _); [|done]. cbn. by intros [= <- _]. Qed.

Lemma seg_parse_bounds buf rx iv h buf' : seg_parse buf rx iv = Some (h, buf') -> Forall is_byte (b_store buf) -> 0 <= sh_seg_o h.
Proof.
  intros E Hb. unfold seg_parse in E. apply bind_Some in E as (hd & _ & E).
  apply bind_Some in E as ([b1 p1] & E1 & E). apply bind_Some in E as ([w b2] & E2 & E). apply bind_Some in E as ([n b3] & E3 & E).
  injection E as <- _. cbn [sh_seg_o]. apply Z.lor_nonneg. split; [unfold u8; apply Z.mod_pos_bound; lia|].
  apply Z.shiftr_nonneg. unfold bt_buf_simple_pull_u8 in E3. apply bind_Some in E3 as (bs & Hbs & E3).
  apply bind_Some in E3 as ([b4 p4] & _ & E3). injection E3 as <- _.
  assert (b_store b2 = b_store buf) as Hst.
  { rewrite <-(pull_store _ _ _ _ E1). unfold bt_buf_simple_pull_be16, pull_get in E2. apply bind_Some in E2 as (x & _ & E2).
    apply bind_Some in E2 as ([b5 p5] & E5 & E2). injection E2 as _ <-. by apply pull_store in E5. }
  rewrite Hst in Hbs. pose proof (mem_read_bytes _ _ _ _ Hbs Hb) as Hbytes.
  rewrite list_lookup_total_alt. destruct (bs !! 0%nat) as [x|] eqn:Hx; [|done].
  pose proof (Forall_lookup_1 _ _ _ _ Hbytes Hx) as Hxb. cbn. unfold is_byte in Hxb. lia.
Qed.

Lemma kept_trans_seg buf rx : Forall is_byte (b_store buf) ->
  kept (trans_seg cfg tcfg env access_recv ctl_handler buf rx).
Proof.
  intros Hb. unfold trans_seg. destruct (_ <? _); [apply kept_fail|]. apply kept_bind; [apply kept_rpl_slot|]. intros rpl.
  apply kept_bind; [apply kept_gets|]. intros iv.
  eapply triple_bind; [apply triple_checked|]. intros [h buf']. apply triple_fact. intros Hp.
  apply seg_parse_bounds in Hp; [|done]. destruct (Z.ltb_spec (sh_seg_n h) (sh_seg_o h)); [by apply triple_fail|].
  eapply triple_bind; [apply seg_context_inv|]. intros i.
  eapply triple_bind; [apply triple_checked|]. intros data. eapply triple_pre; [by apply seg_store_inv|]. by intros s [Hs _].
Qed.

Lemma kept_trans_recv buf rx : Forall is_byte (b_store buf) ->
  kept (bt_mesh_trans_recv cfg tcfg env access_recv ctl_handler buf rx).
Proof.
  intros Hb. unfold bt_mesh_trans_recv. apply kept_bind; [apply kept_gets|]. intros subs. cbv zeta.
  eapply triple_bind; [apply triple_checked|]. intros [buf' p]. apply triple_fact. intros Hp.
  assert (Forall is_byte (b_store buf')) as Hb' by by rewrite (pull_store _ _ _ _ Hp).
  assert (forall rx, kept (trans_dispatch cfg tcfg env access_recv ctl_handler buf' rx)) as Hd.
  { intros rx'. unfold trans_dispatch. apply kept_bind; [apply kept_checked|]. intros b. destruct (negb _).
    - apply kept_bind; [by apply kept_trans_seg|]. intros [[? ?] ?]. apply kept_ret.
    - kept_tac. }
  kept_tac; apply Hd.
Qed.

(** ** Resetting *)

Lemma kept_rx_reset_loop n : forall i, kept (rx_reset_loop cfg i n).
Proof. induction n as [|n IH]; intros i; cbn [rx_reset_loop]; kept_tac; apply IH. Qed.
Lemma kept_tx_reset_loop n : forall i, kept (tx_reset_loop cfg env i n).
Proof. induction n as [|n IH]; intros i; cbn [tx_reset_loop]; kept_tac; apply IH. Qed.
#[local] Hint Resolve kept_rx_reset_loop kept_tx_reset_loop : kept.

Lemma kept_rx_reset : kept (bt_mesh_rx_reset cfg).
Proof. unfold bt_mesh_rx_reset. kept_tac. Qed.
#[local] Hint Resolve kept_rx_reset : kept.
Lemma kept_trans_reset : kept (bt_mesh_trans_reset cfg env).
Proof. unfold bt_mesh_trans_reset. kept_tac. Qed.

End Invariant.

(** * Runs *)

(** What the rest of the node may ask of the transport layer, at any time: the calls of
    the other layers, the two timers of a context, the work item and the advertiser's
    callbacks of a transmission. *)
Inductive trans_op :=
| TSend (tx : trans_tx) (msg : bt_buf_simple) (cb : option send_cb)
| TCtlSend (tx : trans_tx) (op : Z) (data : list Z) (cb : option send_cb)
| TRecv (buf : bt_buf_simple) (rx : bt_mesh_net_rx)
| TRetransmit (i : nat)
| TSegSendStart (i : nat) (duration err : Z)
| TSegSent (i : nat) (err : Z)
| TSegAck (i : nat)
| TSegDiscard (i : nat)
| TRxReset
| TReset.

Definition trans_op_ok (op : trans_op) : Prop :=
  match op with
  | TCtlSend _ _ data _ => zlen data <= 2040
  | TRecv buf _ => Forall is_byte (b_store buf)
  | _ => True
  end.


(** The environment may change between calls. *)
Definition do_trans {W} `{MeshCrypto W} cfg tcfg access_recv ctl_handler (env : trans_env) (op : trans_op) : M (trans_node W) unit :=
  match op with
  | TSend tx msg cb => bt_mesh_trans_send cfg tcfg env tx msg cb
  | TCtlSend tx op data cb => bt_mesh_ctl_send cfg tcfg env tx op data cb
  | TRecv buf rx => _ ← bt_mesh_trans_recv cfg tcfg env access_recv ctl_handler buf rx; mret ()
  | TRetransmit i => seg_retransmit cfg tcfg env i
  | TSegSendStart i duration err => seg_send_start tcfg env i duration err
  | TSegSent i err => seg_sent tcfg env i err
  | TSegAck i => seg_ack cfg tcfg env i
  | TSegDiscard i => seg_discard cfg tcfg i
  | TRxReset => bt_mesh_rx_reset cfg
  | TReset => bt_mesh_trans_reset cfg env
  end.

(** The calls one after the other. The caller of an operation that fails goes on; after a
    memory error there is no state. *)
Fixpoint run_trans {W} `{MeshCrypto W} cfg tcfg access_recv ctl_handler (l : list (trans_env * trans_op)) (s : trans_node W) :
  option (trans_node W) :=
  match l with
  | [] => Some s
  | (env, op) :: l =>
    match do_trans cfg tcfg access_recv ctl_handler env op s with
    | (Crash, _) => None
    | (_, s') => run_trans cfg tcfg access_recv ctl_handler l s'
    end
  end.

(** What the layers above do with a message they get: read the state, write down what they
    did, call the network layer, answer with messages of their own and forget the replay
    list, in any order. *)
Inductive client {W} `{MeshCrypto W} (cfg : net_cfg) (tcfg : trans_cfg) : forall {A : Type}, M (trans_node W) A -> Prop :=
| client_ret A (a : A) : client cfg tcfg (mret a)
| client_fail A e : client cfg tcfg (fail (A := A) e)
| client_log o : client cfg tcfg (log o)
| client_net A (m : M (net_node W) A) : client cfg tcfg (in_net m)
| client_gets A (f : trans_node W -> A) : client cfg tcfg (gets f)
| client_checked A (o : option A) : client cfg tcfg (checked o)
| client_send env tx msg cb : client cfg tcfg (bt_mesh_trans_send cfg tcfg env tx msg cb)
| client_ctl_send env tx op data cb : zlen data <= 2040 -> client cfg tcfg (bt_mesh_ctl_send cfg tcfg env tx op data cb)
| client_rx_reset : client cfg tcfg (bt_mesh_rx_reset cfg)
| client_bind A B (m : M (trans_node W) A) (f : A -> M (trans_node W) B) :
    client cfg tcfg m -> (forall a, client cfg tcfg (f a)) -> client cfg tcfg (m ≫= f)
| client_attempt A (m : M (trans_node W) A) : client cfg tcfg m -> client cfg tcfg (attempt m).

Section Runs.

Context {W : Type} `{MeshCrypto W} (N : nat) (cfg : net_cfg) (tcfg : trans_cfg).
Context (Hseg : 1 <= BT_MESH_TX_SEG_MAX tcfg <= 32).
Context (access_recv : bt_mesh_net_rx -> option (list Z) -> list Z -> M (trans_node W) unit).
Context (ctl_handler : ctl_op_handler -> bt_mesh_net_rx -> bt_buf_simple -> M (trans_node W) unit).
Context (Haccess : forall rx uuid data, client cfg tcfg (access_recv rx uuid data)).
Context (Hctl : forall h rx buf, client cfg tcfg (ctl_handler h rx buf)).

Lemma client_keeps A (m : M (trans_node W) A) : client cfg tcfg m -> kept N m.
Proof using Hseg.
  induction 1.
  - apply kept_ret.
  - apply kept_fail.
  - apply kept_log.
  - apply kept_in_net.
  - apply kept_gets.
  - apply kept_checked.
  - by apply kept_trans_send.
  - by apply kept_ctl_send.
  - by apply kept_rx_reset.
  - by apply kept_bind.
  - by apply kept_attempt.
Qed.

Lemma kept_do_trans env op : trans_op_ok op -> kept N (do_trans cfg tcfg access_recv ctl_handler env op).
Proof using Hseg Haccess Hctl.
  intros Hop. destruct op; cbn [do_trans].
  - by apply kept_trans_send.
  - by apply kept_ctl_send.
  - apply kept_bind; [|intros ?; apply kept_ret].
    apply kept_trans_recv; intros; first [done | by apply client_keeps].
  - by apply kept_retransmit.
  - by apply kept_seg_send_start.
  - by apply kept_seg_sent.
  - by apply kept_seg_ack.
  - by apply kept_seg_discard.
  - by apply kept_rx_reset.
  - by apply kept_trans_reset.
Qed.

Lemma run_trans_inv l : forall s s', Forall (fun '(_, op) => trans_op_ok op) l -> segs_ok N s ->
  run_trans cfg tcfg access_recv ctl_handler l s = Some s' -> segs_ok N s'.
Proof using Hseg Haccess Hctl.
  induction l as [|[env op] l IH]; intros s s' Hl Hs; cbn [run_trans]; [by intros [= <-]|].
  apply Forall_cons in Hl as [Hop Hl]. pose proof (kept_do_trans env op Hop s Hs) as Hk.
  destruct (do_trans _ _ _ _ _ _ s) as [[a|e|] s1]; [by apply IH..|done].
Qed.

End Runs.

(** No message is on its way. *)
Definition at_rest {W} (s : trans_node W) : Prop :=
  Forall (fun tx => sx_nack_count tx = 0) (t_tx s) /\ Forall (fun rx => sr_in_use rx = false) (t_rx s).

Lemma sum_list_zero {A} (f : A -> nat) l : Forall (fun x => f x = 0%nat) l -> sum_list_with f l = 0%nat.
Proof. induction 1 as [|x l Hx _ IH]; [done|]. cbn. by rewrite Hx, IH. Qed.

Lemma at_rest_free {W} N (s : trans_node W) : segs_ok N s -> at_rest s -> t_free s = N.
Proof.
  intros [Hb Ht Hr] [Hnt Hnr]. unfold tx_blocks, rx_blocks in Hb.
  rewrite !sum_list_zero in Hb; [lia| |].
  - apply Forall_forall. intros rx Hin. apply held_zero. intros k b Hk.
    destruct (proj1 (Forall_forall _ _) Hr rx Hin) as [Hw]. apply Hw in Hk as [Hu _].
    pose proof (proj1 (Forall_forall _ _) Hnr rx Hin). congruence.
  - apply Forall_forall. intros tx Hin. destruct (proj1 (Forall_forall _ _) Ht tx Hin) as [Hn _ _].
    pose proof (proj1 (Forall_forall _ _) Hnt tx Hin) as Hz. cbn beta in Hz. lia.
Qed.

(** C7: The segments of all the messages being sent and received lie in the [N] blocks of
    one pool. Whatever calls, timers and callbacks come in whatever order, with the errors
    of any of them, no block is lost and none is given back twice: every block is free or
    holds a segment of exactly one context, a transmission holds no more segments than its
    counter says are missing, a reception holds only segments that its block mask has, and
    when no message is on its way all [N] blocks are free. *)
Theorem segs_accounted {W} `{MeshCrypto W} N cfg tcfg access_recv ctl_handler l (s s' : trans_node W) :
  1 <= BT_MESH_TX_SEG_MAX tcfg <= 32 ->
  (forall rx uuid data, client cfg tcfg (access_recv rx uuid data)) ->
  (forall h rx buf, client cfg tcfg (ctl_handler h rx buf)) ->
  Forall (fun '(_, op) => trans_op_ok op) l ->
  segs_ok N s ->
  run_trans cfg tcfg access_recv ctl_handler l s = Some s' ->
  segs_ok N s' /\ (at_rest s' -> t_free s' = N).
Proof.
  intros Hseg Ha Hc Hl Hs Hrun. pose proof (run_trans_inv N cfg tcfg Hseg _ _ Ha Hc l s s' Hl Hs Hrun) as Hs'.
  split; [done|]. by apply at_rest_free.
Qed.
