(* ===== verification/TransSample.v ===== *)
(** Two nodes on the sample crypto backend, and the theorems of [TransRx.v] and [TransTx.v] at
    work on them. *)

From S2P Require Import Prelude Byteorder BufSimple MeshDefs Rpl Bridge CryptoIf Psa CryptoPsa Crypto.
From S2P Require Import Subnet NetIv Net NetPdu NetFlow NetSample AppKeys Transport TransRx TransTx TransInv.

#[local] Existing Instance net_sample_crypto.
#[local] Existing Instance net_sample_promises.

(** The default configuration of segmentation and reassembly, with room for three segments
    to send and four to receive. *)
Definition sample_tcfg : trans_cfg :=
  mk_trans_cfg false false false 4 3 (mk_sar_tx 1 2 2 7 1 2 9) (mk_sar_rx 3 1 1 1 0).

(** The node with the address [a], with one application key. *)
Definition sample_apps : list app_key := [mk_app 0 0 false (mk_app_cred 0x26 1) (mk_app_cred 0 0)].
Definition tenv_of (a : Z) : trans_env :=
  mk_trans_env (env_of a) (fun _ _ => false) (fun _ _ _ _ _ _ => true) (fun _ => false) false false 0 5 a sample_apps
    (mk_dev_keys 1 None (fun _ => None)) [] 1000.

Definition trans_of (q : Z) : trans_node (crypto_state psa_store) :=
  mk_trans (node_of q) [free_tx 3] [free_rx 4] 4 [].

(** Node 1 sends 14 bytes to node 3: two segments. *)
Definition hello : bt_buf_simple := mk_buf ([10; 11; 12; 13; 14; 15; 16; 17; 18; 19; 20; 21; 22; 23] ++ replicate 4 0) 0 14 18.
Definition hello_tx : trans_tx := mk_trans_tx (mk_tx 0 1 3 5 0 false) 0 None false 0 0 0.

Definition sent_state : trans_node (crypto_state psa_store) :=
  (bt_mesh_trans_send plain_cfg sample_tcfg (tenv_of 1) hello_tx hello None (trans_of 77)).2.

Definition out_buf : bt_buf_simple := mk_buf (replicate 29 0) 0 0 29.

(** Segment [k], as node 3 gets it. *)
Definition segment_buf (k : nat) : bt_buf_simple :=
  match seg_tx_buf_build (tx_at 0 sent_state) (Z.of_nat k) out_buf sent_state with
  | (Ok b, _) => b
  | _ => out_buf
  end.
Definition segment_rx (k : nat) : bt_mesh_net_rx :=
  mk_rx 0 1 3 5 0 (77 + Z.of_nat k) false false false false BT_MESH_NET_IF_ADV true false 5 65535.
Definition segment (k : nat) : bt_mesh_net_rx * bt_buf_simple := (segment_rx k, segment_buf k).

Lemma hello_wf : wf hello.
Proof. split; simpl; try (unfold UINT16_MAX; lia). by apply bytes_ok. Qed.

Lemma sample_advs a : advs_ok (tenv_of a).
Proof. intros k adv [= <-]. split_and!; [apply adv_buf_wf|done|vm_compute; congruence]. Qed.

Lemma sample_sar : sar_ok sample_tcfg.
Proof. unfold sar_ok. simpl. lia. Qed.

Definition hello_data : list Z :=
  app_sealed (key16 7) (send_ctx hello_tx (send_aszmic true hello) (node_of 77)) (content hello).

Definition hello_message : message := message_sent hello_tx 0x26 0 (node_of 77) hello_data.

Lemma segments_sent :
  seg_ready plain_cfg (tenv_of 1) (send_net_tx (tenv_of 1) hello_tx 5 0 0x26 0 true) None hello_data 0 false (trans_of 77).
Proof.
  split; try done.
  - change (2 <= 3)%nat. lia.
  - split; [done|]. split; [unfold tx_ok; simpl; split_and!; lia || done|].
    split; [exists (raws0 cred0); apply sample_cred_keys|apply sample_ready].
Qed.

Lemma hello_args : send_args plain_cfg sample_tcfg (tenv_of 1) hello_tx hello 5 0 1 0x26 (trans_of 77).
Proof. split; try done. apply hello_wf. Qed.

Lemma segment_built k : (k < 2)%nat -> built (W := crypto_state psa_store) (tx_at 0 sent_state) k (segment k).2.
Proof.
  intros Hk. assert (wf (segment_buf k)) as Hw.
  { destruct k as [|[|k]]; [| |lia]; split; vm_compute; try (split; congruence); try congruence; by apply bytes_ok. }
  split; [done|]. exists out_buf, (segment_buf k), sent_state. split_and!; try done.
  - apply adv_buf_wf.
  - destruct k as [|[|k]]; [by vm_compute..|lia].
Qed.

Lemma segment_metadata k : (k < 2)%nat -> metadata hello_message (trans_of 0) (segment_rx k) k.
Proof.
  intros Hk. split; try done; [|simpl; lia..]. change (m_n hello_message) with 1. lia.
Qed.

(** The segments arrive in the wrong order, and the last one twice. *)
Lemma trans_end_to_end_witness :
  exists sA', bt_mesh_trans_send plain_cfg sample_tcfg (tenv_of 1) hello_tx hello None (trans_of 77) = (Ok (), sA') /\
    reassembles plain_cfg sample_tcfg (tenv_of 3) hello_message 0 [(segment 1, 1%nat); (segment 1, 1%nat)] (segment 0)
      (mk_app 0 0 false (mk_app_cred 0x26 1) (mk_app_cred 0 0)) (content hello) (trans_of 0).
Proof.
  destruct (trans_end_to_end plain_cfg sample_tcfg (tenv_of 1) plain_cfg sample_tcfg (tenv_of 3) hello_tx hello None
    5 0 1 0x26 BT_MESH_KEY_TYPE_CCM (key16 7) 0 false (trans_of 77)) as (sA' & E & Hrun);
    [apply hello_args|by vm_compute|done|done|done|apply segments_sent|apply sample_advs|apply sample_sar|].
  exists sA'. split; [exact E|].
  assert (sA' = sent_state) as -> by (unfold sent_state; by rewrite E).
  apply (Hrun 0%nat [(segment 1, 1%nat); (segment 1, 1%nat)] (segment 0) 0%nat _ (trans_of 0)).
  - change (2 <= 4 <= 32). lia.
  - split; [done|done|done|change (1 < 4)%nat; lia].
  - intros a Ha. assert (exists k, (k < 2)%nat /\ a = (segment k, k)) as (k & Hk & ->).
    { rewrite elem_of_app, !elem_of_cons, !elem_of_nil in Ha.
      destruct Ha as [[->|[->|[]]]|[->|[]]]; [exists 1%nat|exists 1%nat|exists 0%nat]; (split; [lia|reflexivity]). }
    split; [by apply segment_built|]. split; [by apply segment_metadata|].
    exists (Some 0%nat). split; [by destruct k as [|[|k]]; [..|lia]|]. intros j [= <-]. by left.
  - change (0%nat ∉ [1%nat; 1%nat]). rewrite !elem_of_cons, elem_of_nil. by intros [?|[?|[]]].
  - intros j Hj. change (Z.of_nat j <= 1) in Hj. change (j = 0%nat \/ j ∈ [1%nat; 1%nat]).
    destruct j as [|[|j]]; [by left|right; by left|lia].
  - split; [done|]. split; [done|]. split; [done|]. split; [exists [], []; split; [reflexivity|constructor]|].
    exists BT_MESH_KEY_TYPE_CCM. split; reflexivity.
  - intros obo. split; [apply sample_advs|]. split; [apply sample_ready|]. intros t [= <-] _.
    split; [unfold tx_ok; destruct obo; simpl; split_and!; lia || done|]. exists (raws0 cred0). apply sample_cred_keys.
  - done.
Defined.

Definition sample_app : app_key := mk_app 0 0 false (mk_app_cred 0x26 1) (mk_app_cred 0 0).

Lemma hello_ok : message_ok sample_tcfg hello_message.
Proof.
  split; [change (1 <= 18); lia|]. split; [change (1 < 4 <= 32); lia|]. split; [simpl; lia|]. split; [simpl; lia|].
  apply mc_seal_bytes, content_bytes, hello_wf.
Qed.

Lemma hello_cut : sent_off (send_net_tx (tenv_of 1) hello_tx 5 0 0x26 0 true) None hello_data 0 (trans_of 77) sent_state.
Proof.
  destruct (bt_mesh_trans_send_run plain_cfg sample_tcfg (tenv_of 1) hello_tx hello None 5 0 1 0x26 BT_MESH_KEY_TYPE_CCM
    (key16 7) 0 false (trans_of 77)) as (s' & E & Hoff);
    [apply hello_args|by vm_compute|done|apply segments_sent|apply sample_advs|apply sample_sar|].
  assert (s' = sent_state) as -> by (unfold sent_state; by rewrite E). exact Hoff.
Qed.

Lemma segment_is k : (k < 2)%nat -> segment_of hello_message (trans_of 0) (segment k) k.
Proof.
  intros Hk. pose proof (segment_metadata k Hk) as Hmeta. destruct hello_cut as [Hcut _ _ Hauth Hhdr Hasz _ _].
  destruct (built_content (W := crypto_state psa_store) (tx_at 0 sent_state) hello_message k (segment k).2) as [Hw Hc];
    [exact Hcut|change (1 <= 18); lia|apply hello_ok|simpl; lia|change (1 < 32); lia|exact Hhdr|exact Hasz|exact Hauth
    |apply Hmeta|by apply segment_built|].
  split; [exact Hw|exact Hc|exact Hmeta].
Qed.

Lemma segment_arrives k : (k < 2)%nat -> arrival plain_cfg hello_message (trans_of 0) (segment k) k.
Proof.
  intros Hk. split; [by apply segment_is|]. exists (Some 0%nat).
  split; [by destruct k as [|[|k]]; [..|lia]|]. intros j [= <-]. by left.
Qed.

Lemma sample_ack q obo : 0 <= q < 2 ^ 24 -> ack_ready (tenv_of 3) (node_of q) 0 3 1 5 obo.
Proof.
  intros Hq. split; [apply sample_advs|]. split; [apply sample_ready|]. intros t [= <-] _.
  split; [unfold tx_ok; destruct obo; simpl; split_and!; lia || done|]. exists (raws0 cred0). apply sample_cred_keys.
Qed.

Lemma hello_readable : ready_for plain_cfg (tenv_of 3) hello_message (segment_rx 0) (node_of 0) sample_app (content hello).
Proof.
  split; [split| | |]; try done.
  - split; [done|]. split; [done|]. split; [done|]. exists [], []. split; [reflexivity|constructor].
  - exists BT_MESH_KEY_TYPE_CCM, (key16 7). split; [reflexivity|]. split; [reflexivity|].
    change (mc_open (key16 7) (create_app_nonce (m_crypto hello_message)) (aad (m_crypto hello_message)) hello_data 4 = Some (content hello)).
    apply mc_open_seal; [lia|apply content_bytes, hello_wf].
  - intros obo. by apply sample_ack.
Qed.

Lemma sar_reassembles_witness :
  reassembles plain_cfg sample_tcfg (tenv_of 3) hello_message 0 [(segment 1, 1%nat)] (segment 0) sample_app
    (content hello) (trans_of 0).
Proof.
  apply (sar_reassembles plain_cfg sample_tcfg (tenv_of 3) hello_message 0 [(segment 1, 1%nat)] (segment 0) 0).
  - apply hello_ok.
  - split; [done|done|done|change (1 < 4)%nat; lia].
  - intros a Ha. rewrite elem_of_app, !elem_of_cons, !elem_of_nil in Ha.
    destruct Ha as [[->|[]]|[->|[]]]; [apply (segment_arrives 1); lia|apply (segment_arrives 0); lia].
  - change (0%nat ∉ [1%nat]). rewrite elem_of_cons, elem_of_nil. by intros [?|[]].
  - intros j Hj. change (Z.of_nat j <= 1) in Hj. change (j = 0%nat \/ j ∈ [1%nat]).
    destruct j as [|[|j]]; [by left|right; by left|lia].
  - apply hello_readable.
Defined.

(** Node 3 after the message. *)
Definition closed_rx : seg_rx :=
  mk_seg_rx 0 (replicate 4 None) (m_auth hello_message) 1 3 18 (m_hdr hello_message) 1 false false false 5 2 3 1000 None None.
Definition closed_state : trans_node (crypto_state psa_store) := mk_trans (node_of 0) [] [closed_rx] 4 [].

Lemma sar_once_witness :
  exists e s', (e = - EINVAL \/ e = - EALREADY) /\ closed sample_tcfg hello_message 0 s' /\
    trans_seg plain_cfg sample_tcfg (tenv_of 3) (fun _ _ _ => mret ()) (fun _ _ _ => mret ()) (segment_buf 1) (segment_rx 1)
      closed_state = (Err e, s').
Proof.
  destruct (sar_once plain_cfg sample_tcfg (tenv_of 3) hello_message 0 (segment 1) 1 closed_state)
    as (e & s' & He & Hc & _ & _ & E).
  - apply hello_ok.
  - split; try done. simpl. lia.
  - destruct (segment_is 1 ltac:(lia)) as [Hw Hc [] ]. split; [exact Hw|exact Hc|by split].
  - intros obo. by apply sample_ack.
  - exists e, s'. split; [exact He|]. split; [exact Hc|apply E].
Defined.

Lemma seg_build_parse_witness :
  exists rest, seg_parse (segment_buf 1) (segment_rx 1) (n_iv (node_of 0)) =
    Some (mk_seg_hdr (SEG_HDR 1 0x26) 0 (m_auth hello_message) 1 1, rest) /\ content rest = drop 12 hello_data.
Proof.
  destruct hello_cut as [[[Hok Hctl Hlen Hn] Hseg] _ _ Hauth Hhdr Hasz _ _].
  destruct (seg_build_parse (tx_at 0 sent_state) 1 (chunk 12 hello_data 1) out_buf sent_state (segment_rx 1)
    (n_iv (node_of 0)) 77 (segment_buf 1)) as (rest & E & Hr);
    [done|lia|by apply (Hseg 1%nat); vm_compute|by apply chunk_bytes, mc_seal_bytes, content_bytes, hello_wf
    |by rewrite Hctl, Hlen|apply adv_buf_wf|done|by vm_compute|by rewrite Hauth|simpl; lia|simpl; lia|lia|by vm_compute|].
  rewrite Hhdr, Hasz, Hauth, Hn in E. exists rest. split; [exact E|]. rewrite Hr. by vm_compute.
Defined.

(** A reliable message of the largest size in a buffer with room for the long MIC. *)
Definition big : bt_buf_simple := mk_buf (replicate 40 7) 0 32 40.
Definition big_tx : trans_tx := mk_trans_tx (mk_tx 0 1 3 5 0 false) 0 None true 0 0 0.

(** It is cut up into a segment more than the context has entries for: the write is out of
    the array. *)
Lemma bt_mesh_trans_send_overrun :
  (bt_mesh_trans_send plain_cfg sample_tcfg (tenv_of 1) big_tx big None (trans_of 77)).1 = Crash.
Proof. by vm_compute. Qed.

(** Node 3 answers a message with a segmented one. *)
Definition echo (rx : bt_mesh_net_rx) (uuid : option (list Z)) (data : list Z) : M (trans_node (crypto_state psa_store)) unit :=
  bt_mesh_trans_send plain_cfg sample_tcfg (tenv_of 3) (mk_trans_tx (mk_tx 0 3 1 5 0 false) 0 None false 0 0 0) hello None.
Definition no_ctl (h : ctl_op_handler) (rx : bt_mesh_net_rx) (buf : bt_buf_simple) : M (trans_node (crypto_state psa_store)) unit :=
  mret ().

(** A segment behind the header of the network PDU. *)
Definition network_buf (k : nat) : bt_buf_simple := mk_buf (replicate 9 0 ++ b_store (segment_buf k)) 0 (9 + b_len (segment_buf k)) 38.

(** Node 3 gets the two segments of node 1 in the wrong order, answers, retransmits its
    answer and gives it up. *)
Definition busy_run : list (trans_env * trans_op) :=
  [(tenv_of 3, TRecv (network_buf 1) (segment_rx 1)); (tenv_of 3, TSegAck 0); (tenv_of 3, TRecv (network_buf 0) (segment_rx 0));
   (tenv_of 3, TRetransmit 0); (tenv_of 3, TSegSent 0 0); (tenv_of 3, TReset)].
Definition busy_after (k : nat) : option (trans_node (crypto_state psa_store)) :=
  run_trans plain_cfg sample_tcfg echo no_ctl (take k busy_run) (trans_of 0).

(** The blocks that are free, of messages to send and of messages to get, after each. *)
Example busy_blocks :
  (fun k => (fun s => (t_free s, tx_blocks (t_tx s), rx_blocks (t_rx s))) <$> busy_after k) <$> [1; 2; 3; 4; 5; 6]%nat =
  Some <$> [(3, 0, 1); (3, 0, 1); (2, 2, 0); (2, 2, 0); (2, 2, 0); (4, 0, 0)]%nat.
Proof. by vm_compute. Qed.

Definition busy_end : trans_node (crypto_state psa_store) := default (trans_of 0) (busy_after 6).

Lemma segs_accounted_witness : segs_ok 4 busy_end /\ (at_rest busy_end -> t_free busy_end = 4%nat).
Proof.
  apply (segs_accounted 4 plain_cfg sample_tcfg echo no_ctl busy_run (trans_of 0)).
  - change (1 <= 3 <= 32). lia.
  - intros rx uuid data. apply client_send.
  - intros h rx buf. apply client_ret.
  - assert (forall k, (k < 2)%nat -> Forall is_byte (b_store (network_buf k))) as Hb.
    { intros k Hk. destruct k as [|[|k]]; [apply bytes_ok; by vm_compute..|lia]. }
    apply Forall_cons; split; [apply (Hb 1%nat); lia|]. apply Forall_cons; split; [done|].
    apply Forall_cons; split; [apply (Hb 0%nat); lia|]. by repeat (apply Forall_cons; split).
  - split; [done| |].
    + apply Forall_singleton. split; [change (0 <= 0 < 256); lia| |change (3 <= 32)%nat; lia].
      intros [|[|[|k]]] b Hk; done.
    + apply Forall_singleton. split. intros [|[|[|[|k]]]] b Hk; done.
  - by vm_compute.
Defined.
