(* ===== verification/Cycles.v ===== *)
(** Cycles of an injective function on a finite set: what circular lists are made of, and
    what exchanging the successors of two points does to them. *)

From S2P Require Import Prelude.

Section Cycles.

Context {A : Type} `{EqDecision A} (dom : list A).
Implicit Types (f : A -> A) (x y z a b : A).

(** [f] moves the points of [dom] about. *)
Record moves f : Prop := {
  mv_closed : forall x, x ∈ dom -> f x ∈ dom;
  mv_inj : forall x y, x ∈ dom -> y ∈ dom -> f x = f y -> x = y
}.

(** [y] is on the cycle of [x]. *)
Definition on_cycle f x y : Prop := exists k, Nat.iter k f x = y.

Lemma iter_S f k x : Nat.iter (S k) f x = f (Nat.iter k f x).
Proof. done. Qed.

Lemma iter_in f k x : moves f -> x ∈ dom -> Nat.iter k f x ∈ dom.
Proof. intros [Hc _] Hx. induction k as [|k IH]; [done|]. rewrite iter_S. by apply Hc. Qed.

Lemma iter_shift f k x : Nat.iter k f (f x) = f (Nat.iter k f x).
Proof. induction k as [|k IH]; [done|]. by rewrite !iter_S, IH. Qed.

Lemma iter_plus f j k x : Nat.iter (j + k) f x = Nat.iter j f (Nat.iter k f x).
Proof. induction j as [|j IH]; [done|]. change (S j + k)%nat with (S (j + k)). by rewrite !iter_S, IH. Qed.

Lemma iter_cancel f j x y : moves f -> x ∈ dom -> y ∈ dom -> Nat.iter j f x = Nat.iter j f y -> x = y.
Proof.
  intros Hf Hx Hy. induction j as [|j IH]; [done|]. rewrite !iter_S. intros E. apply IH.
  eapply mv_inj; [done|by apply iter_in..|done].
Qed.

Lemma iter_rounds f n q x : Nat.iter n f x = x -> Nat.iter (q * n) f x = x.
Proof. intros E. induction q as [|q IH]; [done|]. cbn [Nat.mul]. by rewrite iter_plus, IH. Qed.

Lemma iter_mod f n k x : n <> O -> Nat.iter n f x = x -> Nat.iter k f x = Nat.iter (k mod n) f x.
Proof.
  intros Hn E. assert (k = k mod n + k / n * n)%nat as Hk by (pose proof (Nat.div_mod_eq k n); lia).
  transitivity (Nat.iter (k mod n + k / n * n) f x); [by rewrite <-Hk|]. by rewrite iter_plus, iter_rounds.
Qed.

(** Every point comes back, in no more steps than there are points. *)
Lemma cycle_returns f x : moves f -> x ∈ dom -> exists k, (k < length dom)%nat /\ Nat.iter (S k) f x = x.
Proof.
  intros Hf Hx. set (path := (fun i => Nat.iter i f x) <$> seq 0 (S (length dom))).
  destruct (decide (NoDup path)) as [Hn|Hn].
  - assert (path ⊆+ dom) as Hp.
    { apply NoDup_submseteq; [done|]. intros y (i & -> & _)%list_elem_of_fmap. by apply iter_in. }
    apply submseteq_length in Hp. unfold path in Hp. rewrite length_fmap, length_seq in Hp. lia.
  - assert (exists i j, (i < j <= length dom)%nat /\ Nat.iter i f x = Nat.iter j f x) as (i & j & Hij & E).
    { destruct (decide (Exists (fun i => Exists (fun j => (i < j)%nat /\ Nat.iter i f x = Nat.iter j f x) (seq 0 (S (length dom))))
                 (seq 0 (S (length dom))))) as [He|He].
      - apply Exists_exists in He as (i & Hi & (j & Hj & Hlt & E)%Exists_exists). apply elem_of_seq in Hj. exists i, j. split; [lia|done].
      - exfalso. apply Hn. apply NoDup_alt. intros i j y Hi Hj. unfold path in Hi, Hj.
        rewrite list_lookup_fmap in Hi, Hj. apply fmap_Some in Hi as (i' & Hi & ->). apply fmap_Some in Hj as (j' & Hj & E).
        apply lookup_seq in Hi as [-> Hi], Hj as [-> Hj]. cbn in E.
        destruct (decide (i = j)) as [|Hne]; [done|]. exfalso. apply He. apply Exists_exists.
        destruct (decide (i < j)%nat); [exists i|exists j]; (split; [apply elem_of_seq; lia|]); apply Exists_exists;
          [exists j|exists i]; (split; [apply elem_of_seq; lia|]); (split; [lia|]); done. }
    exists (j - i - 1)%nat. split; [lia|]. replace (S (j - i - 1)) with (j - i)%nat by lia.
    apply (iter_cancel f i); [done|by apply iter_in|done|]. rewrite <-iter_plus. replace (i + (j - i))%nat with j by lia. done.
Qed.

(** The first return. *)
Lemma cycle_first f x : moves f -> x ∈ dom ->
  exists k, (k < length dom)%nat /\ Nat.iter (S k) f x = x /\ forall j, (j < k)%nat -> Nat.iter (S j) f x <> x.
Proof.
  intros Hf Hx. destruct (cycle_returns f x Hf Hx) as (n & Hn & E). revert E. induction (lt_wf n) as [n _ IH]. intros E.
  destruct (decide (Exists (fun j => Nat.iter (S j) f x = x) (seq 0 n))) as [He|He].
  - apply Exists_exists in He as (j & Hj & Ej). apply elem_of_seq in Hj. apply (IH j); [lia|lia|done].
  - exists n. split_and!; [done|done|]. intros j Hj Ej. apply He. apply Exists_exists. exists j. split; [apply elem_of_seq; lia|done].
Qed.

Lemma on_cycle_refl f x : on_cycle f x x.
Proof. by exists O. Qed.
Lemma on_cycle_step f x : on_cycle f x (f x).
Proof. by exists 1%nat. Qed.
Lemma on_cycle_trans f x y z : on_cycle f x y -> on_cycle f y z -> on_cycle f x z.
Proof. intros [j <-] [k <-]. exists (k + j)%nat. apply iter_plus. Qed.
Lemma on_cycle_in f x y : moves f -> x ∈ dom -> on_cycle f x y -> y ∈ dom.
Proof. intros Hf Hx [k <-]. by apply iter_in. Qed.

Lemma on_cycle_back f x : moves f -> x ∈ dom -> on_cycle f (f x) x.
Proof. intros Hf Hx. destruct (cycle_returns f x Hf Hx) as (k & _ & E). exists k. by rewrite iter_shift. Qed.

Lemma on_cycle_sym f x y : moves f -> x ∈ dom -> on_cycle f x y -> on_cycle f y x.
Proof.
  intros Hf Hx [k <-]. induction k as [|k IH]; [apply on_cycle_refl|]. rewrite iter_S.
  eapply on_cycle_trans; [by apply on_cycle_back, iter_in|done].
Qed.

(** A relation that has the steps has the cycles. *)
Lemma on_cycle_least f (R : A -> A -> Prop) : moves f -> (forall x, R x x) -> (forall x y z, R x y -> R y z -> R x z) ->
  (forall x, x ∈ dom -> R x (f x)) -> forall x y, x ∈ dom -> on_cycle f x y -> R x y.
Proof.
  intros Hf Hr Ht Hs x y Hx [k <-]. induction k as [|k IH]; [done|]. rewrite iter_S. eapply Ht; [done|]. by apply Hs, iter_in.
Qed.

Lemma moves_ext f g : (forall x, f x = g x) -> moves f -> moves g.
Proof. intros E [Hc Hi]. split; [intros x; rewrite <-E; apply Hc|intros x y; rewrite <-!E; apply Hi]. Qed.
Lemma on_cycle_ext f g x y : (forall x, f x = g x) -> on_cycle f x y -> on_cycle g x y.
Proof. intros E [k <-]. exists k. induction k as [|k IH]; [done|]. by rewrite !iter_S, IH. Qed.

(** ** Exchanging two successors *)

(** What [f] becomes when [a] and [b] exchange theirs. *)
Definition exchanged f a b f' : Prop :=
  (forall x, x ∈ dom -> x <> a -> x <> b -> f' x = f x) /\ f' a = f b /\ f' b = f a.

Lemma exchanged_moves f a b f' : moves f -> a ∈ dom -> b ∈ dom -> exchanged f a b f' -> moves f'.
Proof.
  intros [Hc Hi] Ha Hb (Ho & Ea & Eb). split.
  - intros x Hx. destruct (decide (x = a)) as [->|?]; [rewrite Ea; by apply Hc|].
    destruct (decide (x = b)) as [->|?]; [rewrite Eb; by apply Hc|]. rewrite Ho by done. by apply Hc.
  - intros x y Hx Hy. assert (forall z, z ∈ dom -> f' z = f (if decide (z = a) then b else if decide (z = b) then a else z)) as E.
    { intros z Hz. repeat case_decide; subst; auto. }
    rewrite (E x Hx), (E y Hy). intros Hxy. apply Hi in Hxy; repeat case_decide; congruence.
Qed.

(** A way to [b] that avoids [a] is still there. *)
Lemma exchanged_way f a b f' k : forall x, moves f -> x ∈ dom -> exchanged f a b f' -> Nat.iter k f x = b ->
  (forall j, (j <= k)%nat -> Nat.iter j f x <> a) -> on_cycle f' x b.
Proof.
  induction k as [|k IH]; intros x Hf Hx He Ex Ha; [rewrite <-Ex; apply on_cycle_refl|].
  destruct (decide (x = b)) as [->|Hxb]; [apply on_cycle_refl|].
  eapply on_cycle_trans; [apply on_cycle_step|]. rewrite (proj1 He x Hx (Ha O ltac:(lia)) Hxb).
  apply IH; [done|by apply mv_closed|done|by rewrite iter_shift|]. intros j Hj. rewrite iter_shift. apply (Ha (S j)). lia.
Qed.

Lemma exchanged_sym f a b f' : exchanged f a b f' -> exchanged f b a f'.
Proof. intros (Ho & Ea & Eb). split_and!; [|done|done]. intros x Hx H1 H2. by apply Ho. Qed.

Lemma exchanged_joins f a b f' : moves f -> a ∈ dom -> b ∈ dom -> exchanged f a b f' -> ~ on_cycle f a b -> on_cycle f' a b.
Proof.
  intros Hf Ha Hb He Hab. eapply on_cycle_trans; [apply on_cycle_step|]. rewrite (proj1 (proj2 He)).
  destruct (on_cycle_back f b Hf Hb) as [k Ek]. apply (exchanged_way f a b f' k); [done|by apply mv_closed|done|done|].
  intros j _ Ej. apply Hab, on_cycle_sym; [done..|]. eapply on_cycle_trans; [apply on_cycle_step|by exists j].
Qed.

(** Two cycles become one. *)
Lemma exchanged_merges f a b f' : moves f -> a ∈ dom -> b ∈ dom -> exchanged f a b f' -> ~ on_cycle f a b ->
  forall x y, x ∈ dom -> (on_cycle f' x y <->
    on_cycle f x y \/ (on_cycle f x a /\ on_cycle f b y) \/ (on_cycle f x b /\ on_cycle f a y)).
Proof.
  intros Hf Ha Hb He Hab x y Hx. pose proof (exchanged_moves f a b f' Hf Ha Hb He) as Hf'.
  assert (on_cycle f' a b) as Jab by by apply (exchanged_joins f).
  assert (on_cycle f' b a) as Jba by by apply on_cycle_sym.
  assert (forall x y, x ∈ dom -> on_cycle f x y -> on_cycle f' x y) as Hsub.
  { apply on_cycle_least; [done|apply on_cycle_refl|apply on_cycle_trans|]. intros z Hz. destruct He as (Ho & Ea & Eb).
    destruct (decide (z = a)) as [->|?]; [rewrite <-Eb; eapply on_cycle_trans; [done|apply on_cycle_step]|].
    destruct (decide (z = b)) as [->|?]; [rewrite <-Ea; eapply on_cycle_trans; [done|apply on_cycle_step]|].
    rewrite <-Ho by done. apply on_cycle_step. }
  split.
  - revert x y Hx. apply on_cycle_least; [done|intros x; left; apply on_cycle_refl| |].
    + intros x y z. intros [H1|[[H1 H2]|[H1 H2]]] [H3|[[H3 H4]|[H3 H4]]]; eauto using on_cycle_trans.
    + intros z Hz. destruct He as (Ho & Ea & Eb).
      destruct (decide (z = a)) as [->|?]; [rewrite Ea; right; left; split; [apply on_cycle_refl|apply on_cycle_step]|].
      destruct (decide (z = b)) as [->|?]; [rewrite Eb; right; right; split; [apply on_cycle_refl|apply on_cycle_step]|].
      rewrite Ho by done. left. apply on_cycle_step.
  - intros [?|[[? ?]|[? ?]]]; eauto using on_cycle_trans.
Qed.

(** A point whose successor is its own before stays alone afterwards. *)
Lemma exchanged_alone f a b f' : exchanged f a b f' -> f b = a -> f' a = a.
Proof. intros (_ & -> & _). done. Qed.

End Cycles.
