(* ===== verification/Access.v ===== *)
(** The access layer ([mesh/access.c]): the composition of the node, its models with their
    keys, subscriptions and publications, the dispatch of messages to them, sending,
    publishing and their storage; and the two contexts of the opcodes aggregator
    ([mesh/op_agg_srv.c], [mesh/op_agg_cli.c]) that sending consults.

    A pointer to a model is its place in the composition ([mod_ref]); the arrays and the
    publication context a model points to are its own.  A label UUID is the index of its
    slot in [virtual_addrs] of [Va.v].  The application, the handlers of the models
    included, is [app_ops]: it may change the state, which holds its own part [a_app].
    Sending is that of [Transport.v], whose environment is completed from this state. *)

From S2P Require Import Prelude Byteorder BufSimple MeshDefs CryptoIf Crypto Va Subnet NetIv Net AppKeys Transport.

(** * Constants *)

Definition E2BIG : Z := 7.
Definition ENODEV : Z := 19.
Definition EADDRNOTAVAIL : Z := 99.

Definition ACCESS_STATUS_SUCCESS : Z := 0x00.
Definition ACCESS_STATUS_INVALID_ADDRESS : Z := 0x01.
Definition ACCESS_STATUS_WRONG_KEY : Z := 0x02.
Definition ACCESS_STATUS_WRONG_OPCODE : Z := 0x03.
Definition ACCESS_STATUS_MESSAGE_NOT_UNDERSTOOD : Z := 0x04.
Definition ACCESS_STATUS_RESPONSE_OVERFLOW : Z := 0x05.

Definition BT_MESH_MOD_BIND_PENDING : Z := BIT 0.
Definition BT_MESH_MOD_SUB_PENDING : Z := BIT 1.
Definition BT_MESH_MOD_PUB_PENDING : Z := BIT 2.
Definition BT_MESH_MOD_EXTENDED : Z := BIT 3.
Definition BT_MESH_MOD_DEVKEY_ONLY : Z := BIT 4.
Definition BT_MESH_MOD_DATA_PENDING : Z := BIT 5.

Definition RANDOM_DELAY_SHORT : Z := 30.
Definition RANDOM_DELAY_LONG : Z := 480.
Definition RELATION_TYPE_EXT : Z := 0xff.
Definition UINT32_MAX : Z := 0xffffffff.

Definition OP_OPCODES_AGGREGATOR_SEQUENCE : Z := 0x8072.
Definition OP_OPCODES_AGGREGATOR_STATUS : Z := 0x8073.
Definition LENGTH_SHORT_MAX : Z := BIT_MASK 7.

(** Opcodes. *)
Definition BT_MESH_MODEL_OP_LEN (op : Z) : Z := if op <=? 0xff then 1 else if op <=? 0xffff then 2 else 3.
Definition BT_MESH_MODEL_OP_1 (b0 : Z) : Z := b0.
Definition BT_MESH_MODEL_OP_2 (b0 b1 : Z) : Z := Z.lor (Z.shiftl b0 8) b1.
Definition BT_MESH_MODEL_OP_3 (b0 cid : Z) : Z := Z.lor (Z.lor (Z.shiftl b0 16) 0xc00000) cid.

(** [mesh/msg.c] *)
Definition bt_mesh_model_msg_init (msg : bt_buf_simple) (opcode : Z) : option bt_buf_simple :=
  let msg := bt_buf_simple_init 0 msg in
  if BT_MESH_MODEL_OP_LEN opcode =? 1 then bt_buf_simple_add_u8 msg opcode
  else if BT_MESH_MODEL_OP_LEN opcode =? 2 then bt_buf_simple_add_be16 msg opcode
  else
    msg ← bt_buf_simple_add_u8 msg (Z.land (Z.shiftr opcode 16) 0xff);
    bt_buf_simple_add_le16 msg (Z.land opcode 0xffff).

(** The publish retransmit field. *)
Definition BT_MESH_PUB_TRANSMIT_COUNT (transmit : Z) : Z := Z.land transmit (BIT_MASK 3).
Definition BT_MESH_PUB_TRANSMIT_INT (transmit : Z) : Z := (Z.shiftr transmit 3 + 1) * 50.

(** The conversion to [int32_t]. *)
Definition s32 (x : Z) : Z := let y := u32 x in if y <? 2 ^ 31 then y else y - 2 ^ 32.

(** * Data *)

(** [const struct bt_mesh_model *]: model [r_idx] of one of the two lists of element
    [r_elem]. *)
Record mod_ref := mk_ref { r_elem : nat; r_vnd : bool; r_idx : nat }.
#[export] Instance mod_ref_eq_dec : EqDecision mod_ref.
Proof. solve_decision. Defined.

(** The union of [struct bt_mesh_model]. *)
Inductive model_id := SigId (id : Z) | VndId (company id : Z).
Definition sig_id (i : model_id) : Z := match i with SigId id => id | VndId company _ => company end.
Definition vnd_company (i : model_id) : Z := match i with VndId company _ => company | SigId id => id end.
Definition vnd_id (i : model_id) : Z := match i with VndId _ id => id | SigId _ => 0 end.

(** [op_func] is a name for the function [func]; the end of a list of these is the end
    marked by [BT_MESH_MODEL_OP_END]. *)
Record bt_mesh_model_op := mk_op { op_opcode : Z; op_len : Z; op_func : Z }.

Record bt_mesh_model_pub := mk_pub {
  p_addr : Z;
  p_uuid : option nat;
  p_key : Z;
  p_cred : bool;
  p_send_rel : bool;
  p_fast_period : bool;
  p_retr_update : bool;
  p_ttl : Z;
  p_retransmit : Z;
  p_period : Z;
  p_period_div : Z;
  p_count : Z;
  p_delayable : bool;
  p_period_start : Z;
  p_msg : option bt_buf_simple;
  p_update : bool;              (** whether [update] is set *)
  p_timer : option Z            (** [timer]: the delay it waits for *)
}.
#[export] Instance eta_pub : Eta bt_mesh_model_pub := fun p =>
  mk_pub (p_addr p) (p_uuid p) (p_key p) (p_cred p) (p_send_rel p) (p_fast_period p) (p_retr_update p) (p_ttl p)
    (p_retransmit p) (p_period p) (p_period_div p) (p_count p) (p_delayable p) (p_period_start p) (p_msg p)
    (p_update p) (p_timer p).

(** The pointers of [struct bt_mesh_model_cb] that are set. *)
Record bt_mesh_model_cb := mk_mod_cb { cb_settings_set : bool; cb_init : bool; cb_pending_store : bool }.

(** An entry before the end of the array; [len] is the length of its data. *)
Record bt_mesh_models_metadata_entry := mk_meta { me_id : Z; me_data : list Z }.

Record bt_mesh_model := mk_model {
  m_id : model_id;
  m_elem_idx : Z;                    (** [rt->elem_idx] *)
  m_mod_idx : Z;                     (** [rt->mod_idx] *)
  m_flags : Z;                       (** [rt->flags] *)
  m_next : option mod_ref;           (** [rt->next] *)
  m_pub : option bt_mesh_model_pub;
  m_keys : list Z;
  m_groups : list Z;
  m_uuids : list (option nat);
  m_op : list bt_mesh_model_op;
  m_cb : option bt_mesh_model_cb;
  m_metadata : option (list bt_mesh_models_metadata_entry)
}.
#[export] Instance eta_model : Eta bt_mesh_model := fun m =>
  mk_model (m_id m) (m_elem_idx m) (m_mod_idx m) (m_flags m) (m_next m) (m_pub m) (m_keys m) (m_groups m) (m_uuids m)
    (m_op m) (m_cb m) (m_metadata m).
#[export] Instance model_inhabited : Inhabited bt_mesh_model :=
  populate (mk_model (SigId 0) 0 0 0 None None [] [] [] [] None None).

(** The counts of an element are the lengths of its lists. *)
Record bt_mesh_elem := mk_elem {
  e_addr : Z;                        (** [rt->addr] *)
  e_loc : Z;
  e_models : list bt_mesh_model;
  e_vnd_models : list bt_mesh_model
}.
#[export] Instance eta_elem : Eta bt_mesh_elem := fun e => mk_elem (e_addr e) (e_loc e) (e_models e) (e_vnd_models e).
#[export] Instance elem_inhabited : Inhabited bt_mesh_elem := populate (mk_elem 0 0 [] []).

Record bt_mesh_comp := mk_comp { co_cid : Z; co_pid : Z; co_vid : Z; co_elem : list bt_mesh_elem }.
#[export] Instance eta_comp : Eta bt_mesh_comp := fun c => mk_comp (co_cid c) (co_pid c) (co_vid c) (co_elem c).

Record bt_mesh_comp2_record := mk_rec2 {
  c2_id : Z;
  c2_x : Z;
  c2_y : Z;
  c2_z : Z;
  c2_elem_offset : list Z;           (** its length is [elem_offset_cnt] *)
  c2_data : list Z                   (** its length is [data_len] *)
}.

Record mod_relation := mk_rel { elem_base : Z; idx_base : Z; elem_ext : Z; idx_ext : Z; rel_type : Z }.

(** [struct mod_pub_val] *)
Record mod_pub_val := mk_pub_val {
  pv_addr : Z;
  pv_key : Z;
  pv_ttl : Z;
  pv_retransmit : Z;
  pv_period : Z;
  pv_period_div : Z;
  pv_cred : Z;
  pv_uuidx : Z
}.

(** [struct bt_mesh_msg_ctx]; a label UUID is a slot. *)
Record bt_mesh_msg_ctx := mk_ctx {
  x_net_idx : Z;
  x_app_idx : Z;
  x_addr : Z;
  x_recv_dst : Z;
  x_uuid : option nat;
  x_recv_ttl : Z;
  x_send_rel : bool;
  x_rnd_delay : bool;
  x_send_ttl : Z
}.
#[export] Instance eta_ctx : Eta bt_mesh_msg_ctx := fun c =>
  mk_ctx (x_net_idx c) (x_app_idx c) (x_addr c) (x_recv_dst c) (x_uuid c) (x_recv_ttl c) (x_send_rel c) (x_rnd_delay c)
    (x_send_ttl c).

(** [struct op_agg_ctx] *)
Record op_agg_ctx := mk_agg { g_initialized : bool; g_net_idx : Z; g_app_idx : Z; g_addr : Z; g_sdu : bt_buf_simple }.
#[export] Instance eta_agg : Eta op_agg_ctx := fun g =>
  mk_agg (g_initialized g) (g_net_idx g) (g_app_idx g) (g_addr g) (g_sdu g).

(** [struct bt_mesh_op_agg_srv]; the model is the one whose handler runs. *)
Record bt_mesh_op_agg_srv := mk_agg_srv { gs_rsp_err : Z; gs_ack : bool; gs_ctx : op_agg_ctx }.
#[export] Instance eta_agg_srv : Eta bt_mesh_op_agg_srv := fun g => mk_agg_srv (gs_rsp_err g) (gs_ack g) (gs_ctx g).

(** [struct bt_mesh_msg_ack_ctx]; the semaphore is its count, a pointer a number. *)
Record bt_mesh_msg_ack_ctx := mk_ack { ack_sem : Z; ack_op : Z; ack_dst : Z; ack_user_data : Z }.
#[export] Instance eta_ack : Eta bt_mesh_msg_ack_ctx := fun a => mk_ack (ack_sem a) (ack_op a) (ack_dst a) (ack_user_data a).

Record bt_mesh_op_agg_cli := mk_agg_cli {
  gc_model : option mod_ref;
  gc_ack : bt_mesh_msg_ack_ctx;
  gc_srcs : bt_buf_simple;
  gc_ctx : op_agg_ctx
}.
#[export] Instance eta_agg_cli : Eta bt_mesh_op_agg_cli := fun g => mk_agg_cli (gc_model g) (gc_ack g) (gc_srcs g) (gc_ctx g).

(** ["bt/mesh/s/%x/%s"] or ["bt/mesh/v/%x/%s"]: the number of the model and the last part
    of the name. *)
Inductive mod_key_name := KeyBind | KeySub | KeySubV | KeyPub | KeyData.
Record mod_path := mk_path { mp_vnd : bool; mp_key : Z; mp_name : mod_key_name }.

(** What is written under such a name: an array of 16-bit words, or the publication. *)
Inductive mod_record := RecWords (l : list Z) | RecPub (v : mod_pub_val).

(** Calls of the storage, of its scheduler, and of what changes nothing here. *)
Inductive access_ext :=
| AccSave (path : mod_path) (r : mod_record)   (** [bt_storage_save_one] *)
| AccDelete (path : mod_path)                  (** [bt_storage_delete] *)
| AccSchedule                                  (** [BT_MESH_SETTINGS_MOD_PENDING] *)
| AccLpnGroupAdd (group : Z)                   (** [bt_mesh_lpn_group_add] *)
| AccLpnGroupDel (groups : list Z)             (** [bt_mesh_lpn_group_del] *)
| AccVa (o : va_ext_op)                        (** what [Va.v] calls *)
| AccTestModelRecv (src dst : Z) (data : list Z)
| AccTestModelBound (addr : Z) (r : mod_ref) (key : Z)    (** [bt_mesh_test_model_bound] *)
| AccTestModelUnbound (addr : Z) (r : mod_ref) (key : Z)
| AccDelayable (ctx : bt_mesh_msg_ctx) (data : list Z) (src : Z).  (** [bt_mesh_delayable_msg_manage] *)

Record access (X W : Type) := mk_access {
  a_trans : trans_node W;
  a_comp : bt_mesh_comp;               (** [dev_comp] *)
  a_primary_addr : Z;                  (** [dev_primary_addr] *)
  a_msg_cb : bool;                     (** whether [msg_cb] is set *)
  a_rel : list mod_relation;           (** [mod_rel_list] *)
  a_vas : list bt_mesh_va;             (** [virtual_addrs] *)
  a_suspended : bool;                  (** [BT_MESH_SUSPENDED] *)
  a_agg_srv : bt_mesh_op_agg_srv;
  a_agg_cli : bt_mesh_op_agg_cli;
  a_ext : list access_ext;
  a_app : X
}.
Arguments mk_access {X W}.
Arguments a_trans {X W}.
Arguments a_comp {X W}.
Arguments a_primary_addr {X W}.
Arguments a_msg_cb {X W}.
Arguments a_rel {X W}.
Arguments a_vas {X W}.
Arguments a_suspended {X W}.
Arguments a_agg_srv {X W}.
Arguments a_agg_cli {X W}.
Arguments a_ext {X W}.
Arguments a_app {X W}.
#[export] Instance eta_access {X W} : Eta (access X W) := fun s =>
  mk_access (a_trans s) (a_comp s) (a_primary_addr s) (a_msg_cb s) (a_rel s) (a_vas s) (a_suspended s) (a_agg_srv s)
    (a_agg_cli s) (a_ext s) (a_app s).

(** Options. *)
Record access_cfg := mk_acfg {
  k_settings : bool;
  k_lpn : bool;
  k_test : bool;
  k_vnd_cid_force : bool;            (** [CONFIG_BT_MESH_MODEL_VND_MSG_CID_FORCE] *)
  k_layer_msg : bool;                (** [CONFIG_BT_MESH_ACCESS_LAYER_MSG] *)
  k_extensions : bool;               (** [CONFIG_BT_MESH_MODEL_EXTENSIONS] *)
  k_comp_page_1 : bool;
  k_delayable_pub : bool;            (** [CONFIG_BT_MESH_DELAYABLE_PUBLICATION] *)
  k_delayable_msg : bool;            (** [CONFIG_BT_MESH_ACCESS_DELAYABLE_MSG] *)
  k_delayable_msg_ctx : bool;        (** [CONFIG_BT_MESH_ACCESS_DELAYABLE_MSG_CTX_ENABLED] *)
  k_op_agg_srv : bool;
  k_op_agg_cli : bool;
  MODEL_KEY_COUNT : Z;               (** [CONFIG_BT_MESH_MODEL_KEY_COUNT] *)
  MODEL_GROUP_COUNT : Z              (** [CONFIG_BT_MESH_MODEL_GROUP_COUNT] *)
}.

(** What the application does: the handlers by name, and the callbacks of a model.  A
    handler may change the context and the buffer it is given; [None] is a memory error.
    A callback of the storage gets what is stored and answers with an error. *)
Record app_ops (S : Type) := mk_app_ops {
  func : Z -> mod_ref -> bt_mesh_msg_ctx -> bt_buf_simple -> S -> option (Z * bt_mesh_msg_ctx * bt_buf_simple * S);
  update : mod_ref -> S -> option (Z * S);
  init : mod_ref -> S -> option (Z * S);
  settings_set : mod_ref -> mod_record + Z -> S -> option (Z * S);
  pending_store : mod_ref -> S -> option S;
  msg_cb : Z -> bt_mesh_msg_ctx -> bt_buf_simple -> S -> option (bt_mesh_msg_ctx * bt_buf_simple * S)
}.
Arguments func {S}.
Arguments update {S}.
Arguments init {S}.
Arguments settings_set {S}.
Arguments pending_store {S}.
Arguments msg_cb {S}.

(** * The composition *)

Definition models_of (vnd : bool) (e : bt_mesh_elem) : list bt_mesh_model := if vnd then e_vnd_models e else e_models e.

Definition elem_at (i : nat) (c : bt_mesh_comp) : bt_mesh_elem := co_elem c !!! i.
Definition model_at (r : mod_ref) (c : bt_mesh_comp) : bt_mesh_model := models_of (r_vnd r) (elem_at (r_elem r) c) !!! r_idx r.

Definition on_models (vnd : bool) (f : list bt_mesh_model -> list bt_mesh_model) (e : bt_mesh_elem) : bt_mesh_elem :=
  if vnd then e <| e_vnd_models ::= f |> else e <| e_models ::= f |>.
Definition set_model (r : mod_ref) (f : bt_mesh_model -> bt_mesh_model) (c : bt_mesh_comp) : bt_mesh_comp :=
  c <| co_elem ::= alter (on_models (r_vnd r) (alter f (r_idx r))) (r_elem r) |>.

(** The models of an element, and of all, in the order of [bt_mesh_model_foreach]. *)
Definition list_refs (i : nat) (vnd : bool) (n : nat) : list mod_ref := mk_ref i vnd <$> List.seq 0 n.
Definition elem_refs (i : nat) (e : bt_mesh_elem) : list mod_ref :=
  list_refs i false (length (e_models e)) ++ list_refs i true (length (e_vnd_models e)).
Definition comp_refs (c : bt_mesh_comp) : list mod_ref := concat (imap elem_refs (co_elem c)).

(** ** Lookups *)

Definition bt_mesh_elem_count (c : bt_mesh_comp) : Z := u8 (zlen (co_elem c)).

Definition bt_mesh_model_get (c : bt_mesh_comp) (vnd : bool) (elem_idx mod_idx : Z) : option mod_ref :=
  if zlen (co_elem c) <=? elem_idx then None
  else if zlen (models_of vnd (elem_at (Z.to_nat elem_idx) c)) <=? mod_idx then None
  else Some (mk_ref (Z.to_nat elem_idx) vnd (Z.to_nat mod_idx)).

(** The first of a list from [i] on that a test holds of. *)
Fixpoint scan {A} (f : A -> bool) (l : list A) (i : nat) : option nat :=
  match l with
  | [] => None
  | x :: l => if f x then Some i else scan f l (S i)
  end.

Definition bt_mesh_model_find (e : bt_mesh_elem) (id : Z) : option nat := scan (fun m => sig_id (m_id m) =? id) (e_models e) 0.
Definition bt_mesh_model_find_vnd (e : bt_mesh_elem) (company id : Z) : option nat :=
  scan (fun m => (vnd_company (m_id m) =? company) && (vnd_id (m_id m) =? id)) (e_vnd_models e) 0.

Definition model_group_get (m : bt_mesh_model) (addr : Z) : option nat := scan (fun g => g =? addr) (m_groups m) 0.

(** Of an unused entry the model must have a free group entry as well. *)
Definition model_uuid_get (m : bt_mesh_model) (uuid : option nat) : option nat :=
  scan (fun u => bool_decide (u = uuid) &&
                 negb (bool_decide (uuid = None) && bool_decide (model_group_get m BT_MESH_ADDR_UNASSIGNED = None)))
    (m_uuids m) 0.

Definition bt_mesh_elem_find_group (e : bt_mesh_elem) (group_addr : Z) : option (bool * nat) :=
  match scan (fun m => bool_decide (is_Some (model_group_get m group_addr))) (e_models e) 0 with
  | Some i => Some (false, i)
  | None =>
      match scan (fun m => bool_decide (is_Some (model_group_get m group_addr))) (e_vnd_models e) 0 with
      | Some i => Some (true, i)
      | None => None
      end
  end.

Definition bt_mesh_elem_find (c : bt_mesh_comp) (addr : Z) : option nat :=
  if negb (BT_MESH_ADDR_IS_UNICAST addr) then None
  else
    let index := u16 (addr - e_addr (elem_at 0 c)) in
    if zlen (co_elem c) <=? index then None else Some (Z.to_nat index).

Definition bt_mesh_has_addr (layer_msg : bool) (c : bt_mesh_comp) (addr : Z) : bool :=
  if BT_MESH_ADDR_IS_UNICAST addr then bool_decide (is_Some (bt_mesh_elem_find c addr))
  else if layer_msg then true
  else existsb (fun e => bool_decide (is_Some (bt_mesh_elem_find_group e addr))) (co_elem c).

Definition bt_mesh_model_has_key (m : bt_mesh_model) (key : Z) : bool :=
  existsb (fun k => (k =? key) || ((k =? BT_MESH_KEY_DEV_ANY) && BT_MESH_IS_DEV_KEY key)) (m_keys m).

Definition bt_mesh_model_is_extended (m : bt_mesh_model) : bool := negb (Z.land (m_flags m) BT_MESH_MOD_EXTENDED =? 0).

(** ** Relations *)

Definition rel_unused (r : mod_relation) : bool :=
  (elem_base r =? 0) && (idx_base r =? 0) && (elem_ext r =? 0) && (idx_ext r =? 0).

(** [MOD_REL_LIST_FOR_EACH] *)
Fixpoint mod_rel_used (l : list mod_relation) : list mod_relation :=
  match l with
  | [] => []
  | r :: l => if rel_unused r then [] else r :: mod_rel_used l
  end.

Definition IS_MOD_BASE (m : bt_mesh_model) (r : mod_relation) (offset : Z) : bool :=
  (elem_base r =? m_elem_idx m) && (idx_base r =? m_mod_idx m + offset).
Definition IS_MOD_EXTENSION (m : bt_mesh_model) (r : mod_relation) (offset : Z) : bool :=
  (elem_ext r =? m_elem_idx m) && (idx_ext r =? m_mod_idx m + offset).

(** The offset of vendor models in the numbering of the relations. *)
Definition get_sig_offset (c : bt_mesh_comp) (r : mod_ref) : Z :=
  let i := Z.to_nat (m_elem_idx (model_at r c)) in
  if r_vnd r && (r_elem r =? i)%nat then zlen (e_models (elem_at i c)) else 0.

(** The first unused entry is written. *)
Fixpoint rel_register (x : mod_relation) (l : list mod_relation) : option (list mod_relation) :=
  match l with
  | [] => None
  | r :: l => if rel_unused r then Some (x :: l) else (fun l => r :: l) <$> rel_register x l
  end.

(** * Operations *)

Section Operations.

Context {X W : Type} `{MeshCrypto W}.
Context (cfg : net_cfg) (tcfg : trans_cfg) (acfg : access_cfg) (env : trans_env).
Notation st := (access X W).
Context (app : app_ops st).

Definition gets {A} (f : st -> A) : M st A := fun s => (Ok (f s), s).
Definition change (f : st -> st) : M st unit := fun s => (Ok (), f s).
Definition log (o : access_ext) : M st unit := change (fun s => s <| a_ext ::= (fun l => l ++ [o]) |>).

(** A call of the application, whose state is all of [st]. *)
Definition in_app {A} (f : st -> option (A * st)) : M st A := fun s =>
  match f s with Some (a, s') => (Ok a, s') | None => (Crash, s) end.

Definition model (r : mod_ref) : M st bt_mesh_model := gets (fun s => model_at r (a_comp s)).
Definition on_model (r : mod_ref) (f : bt_mesh_model -> bt_mesh_model) : M st unit :=
  change (fun s => s <| a_comp ::= set_model r f |>).
Definition on_pub (r : mod_ref) (f : bt_mesh_model_pub -> bt_mesh_model_pub) : M st unit :=
  on_model r (fun m => m <| m_pub ::= fmap f |>).

(** The publication context of a model that has one. *)
Definition pub_of (r : mod_ref) : M st bt_mesh_model_pub := m ← model r; checked (m_pub m).

Fixpoint foreach {A} (f : A -> M st unit) (l : list A) : M st unit :=
  match l with
  | [] => mret ()
  | x :: l => _ ← f x; foreach f l
  end.
Definition bt_mesh_model_foreach (f : mod_ref -> M st unit) : M st unit :=
  comp ← gets a_comp; foreach f (comp_refs comp).

(** [bt_mesh_model_elem(mod)->rt->addr] *)
Definition model_addr (r : mod_ref) : M st Z :=
  gets (fun s => e_addr (elem_at (Z.to_nat (m_elem_idx (model_at r (a_comp s)))) (a_comp s))).

(** What the transport layer asks of this one and of its neighbours. *)
Definition send_env (s : st) : trans_env :=
  let n := te_net env in
  mk_trans_env
    (mk_node_env (fixed_group_match n) (bt_mesh_has_addr (k_layer_msg acfg && a_msg_cb s) (a_comp s)) (relay_get n)
       (gatt_proxy_get n) (priv_gatt_proxy_get n) (relay_retransmit_get n) (net_transmit_get n) (lpn_cred n)
       (lpn_waiting n) (frnd n) (adv_create n) (iv_env n))
    (friend_match env) (friend_queue_has_space env) (friend_enqueue_tx env) (lpn_established env)
    (lpn_waiting_update env) (lpn_frnd env) (default_ttl env) (a_primary_addr s) (te_apps env) (te_dev_keys env)
    (a_vas s) (uptime env).

Definition trans_send (tx : trans_tx) (msg : bt_buf_simple) (cb : option send_cb) : M st unit := fun s =>
  let '(r, t) := bt_mesh_trans_send cfg tcfg (send_env s) tx msg cb (a_trans s) in (r, s <| a_trans := t |>).

(** [struct bt_mesh_net_tx] as the access layer fills it in. *)
Definition net_tx (ctx : bt_mesh_msg_ctx) (src : Z) (friend_cred : bool) : M st trans_tx :=
  gets (fun s => mk_trans_tx (mk_tx 0 src (x_addr ctx) (x_send_ttl ctx) (x_app_idx ctx) friend_cred) (x_net_idx ctx)
                   ((fun i => va_uuid (a_vas s !!! i)) <$> x_uuid ctx) (x_send_rel ctx) 0 0 0).

(** ** Registration *)

Definition bt_mesh_vnd_mod_msg_cid_check (m : bt_mesh_model) : bool :=
  forallb (fun op => u16 (Z.land (op_opcode op) 0xffff) =? vnd_company (m_id m)) (m_op m).

(** Nothing is done once one has failed: failing is the [*err] of the program. *)
Definition mod_init (r : mod_ref) : M st unit :=
  _ ← on_pub r (fun p => p <| p_timer := None |>);
  _ ← on_model r (fun m => m <| m_keys ::= map (fun _ => BT_MESH_KEY_UNUSED) |>
                             <| m_elem_idx := u8 (Z.of_nat (r_elem r)) |> <| m_mod_idx := u8 (Z.of_nat (r_idx r)) |>);
  m ← model r;
  if r_vnd r && k_vnd_cid_force acfg && negb (bt_mesh_vnd_mod_msg_cid_check m) then fail (- EINVAL)
  else
    match m_cb m with
    | Some cb =>
        if cb_init cb then
          err ← in_app (init app r);
          if err =? 0 then mret () else fail err
        else mret ()
    | None => mret ()
    end.

Definition bt_mesh_comp_register (comp : bt_mesh_comp) : M st unit :=
  if zlen (co_elem comp) =? 0 then fail (- EINVAL)
  else
    _ ← change (fun s => s <| a_comp := comp |> <| a_rel ::= map (fun _ => mk_rel 0 0 0 0 0) |>);
    bt_mesh_model_foreach mod_init.

Definition bt_mesh_comp_provision (addr : Z) : M st unit :=
  change (fun s => s <| a_primary_addr := addr |>
                     <| a_comp ::= (fun c => c <| co_elem ::= imap (fun i e => e <| e_addr := u16 (addr + Z.of_nat i) |>) |>) |>).

Definition bt_mesh_comp_unprovision : M st unit :=
  change (fun s => s <| a_primary_addr := BT_MESH_ADDR_UNASSIGNED |>
                     <| a_comp ::= (fun c => c <| co_elem ::= map (fun e => e <| e_addr := BT_MESH_ADDR_UNASSIGNED |>) |>) |>).

(** ** Extensions *)

(** The rest of the circle from [it] on; the fuel is the number of models, and a null
    pointer in a circle is a crash. *)
Fixpoint walk_loop {A} (cb : mod_ref -> A -> M st (bool * A)) (start : mod_ref) (n : nat) (it : option mod_ref) (a : A)
  : M st A :=
  match n with
  | O => checked None
  | S n =>
      it ← checked it;
      if decide (it = start) then mret a
      else
        '(stop, a) ← cb it a;
        if (stop : bool) then mret a
        else
          m ← model it; walk_loop cb start n (m_next m) a
  end.

(** The callback answers whether to stop, and threads its [user_data]. *)
Definition bt_mesh_model_extensions_walk {A} (r : mod_ref) (cb : mod_ref -> A -> M st (bool * A)) (a : A) : M st A :=
  '(stop, a) ← cb r a;
  if negb (k_extensions acfg) then mret a
  else
    m ← model r;
    match stop, m_next m with
    | false, Some next =>
        comp ← gets a_comp; walk_loop cb r (S (length (comp_refs comp))) (Some next) a
    | _, _ => mret a
    end.

(** The visitors look only at models of the element; they give the entry and its model. *)
Definition find_visitor (get : bt_mesh_model -> option nat) (r : mod_ref) (a : option nat * mod_ref)
  : M st (bool * (option nat * mod_ref)) :=
  m ← model r;
  m0 ← model a.2;
  if negb (m_elem_idx m =? m_elem_idx m0) then mret (false, a)
  else
    match get m with
    | Some k => mret (true, (Some k, r))
    | None => mret (false, (None, a.2))
    end.

Definition bt_mesh_model_find_group (r : mod_ref) (addr : Z) : M st (option nat * mod_ref) :=
  bt_mesh_model_extensions_walk r (find_visitor (fun m => model_group_get m addr)) (None, r).
Definition bt_mesh_model_find_uuid (r : mod_ref) (uuid : option nat) : M st (option nat * mod_ref) :=
  bt_mesh_model_extensions_walk r (find_visitor (fun m => model_uuid_get m uuid)) (None, r).

Definition mod_rel_register (base ext : mod_ref) (type : Z) : M st unit :=
  c ← gets a_comp;
  rel ← gets a_rel;
  let entry r := u8 (m_mod_idx (model_at r c) + get_sig_offset c r) in
  match rel_register (mk_rel (m_elem_idx (model_at base c)) (entry base) (m_elem_idx (model_at ext c)) (entry ext) type) rel with
  | Some rel => change (fun s => s <| a_rel := rel |>)
  | None => fail (- ENOMEM)
  end.

(** Whether the list of [a] has [b], as the loop finds out: it stops before it looks at
    the last one. *)
Fixpoint extend_scan (c : bt_mesh_comp) (a b : mod_ref) (n : nat) (it : option mod_ref) : option bool :=
  match n with
  | O => None
  | S n =>
      match it with
      | None => Some false
      | Some r =>
          if decide (m_next (model_at r c) = Some a) then Some false
          else if decide (r = b) then Some true
          else extend_scan c a b n (m_next (model_at r c))
      end
  end.

Definition bt_mesh_model_extend (extending_mod base_mod : mod_ref) : M st unit :=
  let a := extending_mod in
  let b := base_mod in
  c ← gets a_comp;
  let a_next := m_next (model_at a c) in
  let b_next := m_next (model_at b c) in
  _ ← on_model b (fun m => m <| m_flags ::= Z.lor BT_MESH_MOD_EXTENDED |>);
  if decide (a = b) then mret ()
  else
    found ← checked (extend_scan c a b (S (length (comp_refs c))) (Some a));
    _ ← (if (found : bool) then mret ()
         else
           _ ← on_model b (fun m => m <| m_next := Some (default a a_next) |>);
           on_model a (fun m => m <| m_next := Some (default b b_next) |>));
    rel ← gets a_rel;
    if negb (zlen rel =? 0) then mod_rel_register base_mod extending_mod RELATION_TYPE_EXT
    else if k_comp_page_1 acfg then fail (- ENOMEM)
    else mret ().

(** The loop of [bt_mesh_model_correspond]: the correspondence to join, or a new number. *)
Fixpoint correspond_scan (ours : mod_relation -> bool) (l : list mod_relation) (cor_id : Z) : Z :=
  match l with
  | [] => cor_id
  | r :: l =>
      let cor_id := if (rel_type r <? RELATION_TYPE_EXT) && (cor_id <=? rel_type r) then u8 (rel_type r + 1) else cor_id in
      if ours r && (rel_type r <? RELATION_TYPE_EXT) then rel_type r else correspond_scan ours l cor_id
  end.

Definition bt_mesh_model_correspond (corresponding_mod base_mod : mod_ref) : M st unit :=
  c ← gets a_comp;
  rel ← gets a_rel;
  if zlen rel =? 0 then fail (- ENOTSUP)
  else
    let concerns r x := IS_MOD_BASE (model_at r c) x (get_sig_offset c r) || IS_MOD_EXTENSION (model_at r c) x (get_sig_offset c r) in
    mod_rel_register base_mod corresponding_mod
      (correspond_scan (fun x => concerns base_mod x || concerns corresponding_mod x) (mod_rel_used rel) 0).

(** ** Receiving *)

(** [op->len]: a least length, or an exact one as a negative number. *)
Definition op_len_ok (op : bt_mesh_model_op) (len : Z) : bool :=
  if 0 <=? op_len op then negb (len <? op_len op) else len =? - op_len op.

Definition model_has_dst (r : mod_ref) (dst : Z) (uuid : option nat) : M st bool :=
  m ← model r;
  if BT_MESH_ADDR_IS_UNICAST dst then addr ← model_addr r; mret (addr =? dst)
  else if BT_MESH_ADDR_IS_VIRTUAL dst then '(entry, _) ← bt_mesh_model_find_uuid r uuid; mret (bool_decide (is_Some entry))
  else if BT_MESH_ADDR_IS_GROUP dst || (BT_MESH_ADDR_IS_FIXED_GROUP dst && negb (m_elem_idx m =? 0))
  then '(entry, _) ← bt_mesh_model_find_group r dst; mret (bool_decide (is_Some entry))
  else mret (m_elem_idx m =? 0).

(** The models of [l], from number [i] on. *)
Fixpoint find_op_scan (opcode cid : Z) (l : list bt_mesh_model) (i : nat) : option (bt_mesh_model_op * nat) :=
  match l with
  | [] => None
  | m :: l =>
      if k_vnd_cid_force acfg && negb (cid =? UINT32_MAX) && negb (cid =? vnd_company (m_id m))
      then find_op_scan opcode cid l (S i)
      else
        match List.find (fun op => op_opcode op =? opcode) (m_op m) with
        | Some op => Some (op, i)
        | None => find_op_scan opcode cid l (S i)
        end
  end.

Definition find_op (c : bt_mesh_comp) (elem : nat) (opcode : Z) : option (bt_mesh_model_op * mod_ref) :=
  let vnd := negb (BT_MESH_MODEL_OP_LEN opcode <? 3) in
  let cid := if vnd then u16 (Z.land opcode 0xffff) else UINT32_MAX in
  '(op, i) ← find_op_scan opcode cid (models_of vnd (elem_at elem c)) 0; Some (op, mk_ref elem vnd i).

(** [buf->data[0]] is read whatever the length. *)
Definition get_opcode (buf : bt_buf_simple) : M st (Z * bt_buf_simple) :=
  b ← checked (mem_read (b_store buf) (b_data buf) 1);
  let b0 := b !!! 0%nat in
  if Z.shiftr b0 6 <? 2 then
    if b0 =? 0x7f then fail (- EINVAL) else checked (bt_buf_simple_pull_u8 buf)
  else if Z.shiftr b0 6 =? 2 then
    if b_len buf <? 2 then fail (- EINVAL) else checked (bt_buf_simple_pull_be16 buf)
  else if b_len buf <? 3 then fail (- EINVAL)
  else
    '(hi, buf) ← checked (bt_buf_simple_pull_u8 buf);
    '(lo, buf) ← checked (bt_buf_simple_pull_le16 buf);
    mret (Z.lor (Z.shiftl hi 16) lo, buf).

(** The status, with the context and the buffer after the handler. *)
Definition element_model_recv (ctx : bt_mesh_msg_ctx) (buf : bt_buf_simple) (elem : nat) (opcode : Z)
  : M st (Z * bt_mesh_msg_ctx * bt_buf_simple) :=
  c ← gets a_comp;
  match find_op c elem opcode with
  | None => mret (ACCESS_STATUS_WRONG_OPCODE, ctx, buf)
  | Some (op, r) =>
      if negb (bt_mesh_model_has_key (model_at r c) (x_app_idx ctx)) then mret (ACCESS_STATUS_WRONG_KEY, ctx, buf)
      else
        has ← model_has_dst r (x_recv_dst ctx) (x_uuid ctx);
        if negb has then mret (ACCESS_STATUS_INVALID_ADDRESS, ctx, buf)
        else if negb (op_len_ok op (b_len buf)) then mret (ACCESS_STATUS_MESSAGE_NOT_UNDERSTOOD, ctx, buf)
        else
          let ctx := if k_delayable_msg_ctx acfg then ctx <| x_rnd_delay := true |> else ctx in
          let state := bt_buf_simple_save buf in
          '(err, ctx, buf) ← in_app (fun s => '(e, c, b, s) ← func app (op_func op) r ctx buf s; Some (e, c, b, s));
          mret (if err =? 0 then ACCESS_STATUS_SUCCESS else ACCESS_STATUS_MESSAGE_NOT_UNDERSTOOD, ctx,
                bt_buf_simple_restore buf state)
  end.

(** The loop over the elements for a message to a group. *)
Fixpoint group_recv_loop (opcode : Z) (n : nat) (index : nat) (err : Z) (ctx : bt_mesh_msg_ctx) (buf : bt_buf_simple)
  : M st (Z * bt_mesh_msg_ctx * bt_buf_simple) :=
  match n with
  | O => mret (err, ctx, buf)
  | S n =>
      '(err_elem, ctx, buf) ← element_model_recv ctx buf index opcode;
      group_recv_loop opcode n (S index) (if err_elem =? ACCESS_STATUS_SUCCESS then err_elem else err) ctx buf
  end.

Definition has_msg_cb : M st bool := set ← gets a_msg_cb; mret (k_layer_msg acfg && set).

Definition bt_mesh_model_recv (ctx : bt_mesh_msg_ctx) (buf : bt_buf_simple) : M st (Z * bt_mesh_msg_ctx * bt_buf_simple) :=
  _ ← (if k_test acfg then
         data ← checked (mem_read (b_store buf) (b_data buf) (b_len buf));
         log (AccTestModelRecv (x_addr ctx) (x_recv_dst ctx) data)
       else mret ());
  r ← attempt (get_opcode buf);
  match r with
  | inr _ => mret (ACCESS_STATUS_WRONG_OPCODE, ctx, buf)
  | inl (opcode, buf) =>
      c ← gets a_comp;
      let index := u16 (x_recv_dst ctx - e_addr (elem_at 0 c)) in
      if BT_MESH_ADDR_IS_UNICAST (x_recv_dst ctx) && (zlen (co_elem c) <=? index)
      then mret (ACCESS_STATUS_INVALID_ADDRESS, ctx, buf)
      else
        '(err, ctx, buf) ← (if BT_MESH_ADDR_IS_UNICAST (x_recv_dst ctx)
                            then element_model_recv ctx buf (Z.to_nat index) opcode
                            else group_recv_loop opcode (length (co_elem c)) 0 ACCESS_STATUS_MESSAGE_NOT_UNDERSTOOD ctx buf);
        has_cb ← has_msg_cb;
        if (has_cb : bool) then
          '(ctx, buf) ← in_app (msg_cb app opcode ctx buf);
          mret (err, ctx, buf)
        else mret (err, ctx, buf)
  end.

Definition bt_mesh_access_recv (ctx : bt_mesh_msg_ctx) (buf : bt_buf_simple) : M st Z :=
  '(err, _, _) ← bt_mesh_model_recv ctx buf;
  has_cb ← has_msg_cb;
  mret (if (has_cb : bool) then 0 else err).

(** ** The opcodes aggregator, as far as sending consults it *)

(** The length in front of a message. *)
Definition encode_length (len : Z) (buf : bt_buf_simple) : M st bt_buf_simple :=
  if LENGTH_SHORT_MAX <? len then
    if bt_buf_simple_tailroom buf <? len + 2 then fail (- ENOMEM)
    else checked (bt_buf_simple_add_le16 buf (Z.lor (Z.shiftl len 1) 1))
  else if bt_buf_simple_tailroom buf <? len + 1 then fail (- ENOMEM)
  else checked (bt_buf_simple_add_u8 buf (Z.shiftl len 1)).

(** The buffer after the message is appended, or the error. *)
Definition bt_mesh_op_agg_encode_msg (msg buf : bt_buf_simple) : M st bt_buf_simple :=
  buf ← encode_length (b_len msg) buf;
  data ← checked (mem_read (b_store msg) (b_data msg) (b_len msg));
  checked (bt_buf_simple_add_mem buf data).

Definition bt_mesh_op_agg_is_op_agg_msg (buf : bt_buf_simple) : M st bool :=
  if b_len buf <? 2 then mret false
  else
    b ← checked (mem_read (b_store buf) (b_data buf) 1);
    if Z.shiftr (b !!! 0%nat) 6 =? 2 then
      '(opcode, _) ← checked (bt_buf_simple_pull_be16 buf);
      mret ((opcode =? OP_OPCODES_AGGREGATOR_STATUS) || (opcode =? OP_OPCODES_AGGREGATOR_SEQUENCE))
    else mret false.

Definition agg_accept (g : op_agg_ctx) (ctx : bt_mesh_msg_ctx) (buf : bt_buf_simple) : M st bool :=
  if g_initialized g && (x_net_idx ctx =? g_net_idx g) && (x_addr ctx =? g_addr g) && (x_app_idx ctx =? g_app_idx g)
  then is_agg ← bt_mesh_op_agg_is_op_agg_msg buf; mret (negb is_agg)
  else mret false.

Definition bt_mesh_op_agg_srv_accept (ctx : bt_mesh_msg_ctx) (buf : bt_buf_simple) : M st bool :=
  srv ← gets a_agg_srv; agg_accept (gs_ctx srv) ctx buf.
Definition bt_mesh_op_agg_cli_accept (ctx : bt_mesh_msg_ctx) (buf : bt_buf_simple) : M st bool :=
  cli ← gets a_agg_cli; agg_accept (gc_ctx cli) ctx buf.

Definition on_srv (f : bt_mesh_op_agg_srv -> bt_mesh_op_agg_srv) : M st unit := change (fun s => s <| a_agg_srv ::= f |>).
Definition on_cli (f : bt_mesh_op_agg_cli -> bt_mesh_op_agg_cli) : M st unit := change (fun s => s <| a_agg_cli ::= f |>).

Definition bt_mesh_op_agg_srv_send (r : mod_ref) (msg : bt_buf_simple) : M st unit :=
  _ ← on_srv (fun g => g <| gs_ack := true |>);
  srv ← gets a_agg_srv;
  e ← attempt (bt_mesh_op_agg_encode_msg msg (g_sdu (gs_ctx srv)));
  match e with
  | inl buf => on_srv (fun g => g <| gs_ctx ::= (fun c => c <| g_sdu := buf |>) |>)
  | inr err =>
      _ ← on_srv (fun g => g <| gs_rsp_err := ACCESS_STATUS_RESPONSE_OVERFLOW |>); fail err
  end.

Definition bt_mesh_op_agg_cli_send (r : mod_ref) (msg : bt_buf_simple) : M st unit :=
  src ← model_addr r;
  cli ← gets a_agg_cli;
  if bt_buf_simple_tailroom (gc_srcs cli) <? 2 then fail (- ENOMEM)
  else
    srcs ← checked (bt_buf_simple_add_le16 (gc_srcs cli) src);
    _ ← on_cli (fun g => g <| gc_srcs := srcs |>);
    buf ← bt_mesh_op_agg_encode_msg msg (g_sdu (gc_ctx cli));
    on_cli (fun g => g <| gc_ctx ::= (fun c => c <| g_sdu := buf |>) |>).

(** ** Sending *)

Definition bt_mesh_access_send (ctx : bt_mesh_msg_ctx) (buf : bt_buf_simple) (src_addr : Z) (cb : option send_cb) : M st unit :=
  prov ← gets (fun s => provisioned (n_iv (t_net (a_trans s))));
  if negb prov then fail (- EAGAIN)
  else
    tx ← net_tx ctx src_addr false;
    trans_send tx buf cb.

Definition bt_mesh_model_send (r : mod_ref) (ctx : bt_mesh_msg_ctx) (msg : bt_buf_simple) (cb : option send_cb) : M st unit :=
  srv ← (if k_op_agg_srv acfg then bt_mesh_op_agg_srv_accept ctx msg else mret false);
  if (srv : bool) then bt_mesh_op_agg_srv_send r msg
  else
    cli ← (if k_op_agg_cli acfg then bt_mesh_op_agg_cli_accept ctx msg else mret false);
    if (cli : bool) then bt_mesh_op_agg_cli_send r msg
    else
      m ← model r;
      if negb (bt_mesh_model_has_key m (x_app_idx ctx)) then fail (- EINVAL)
      else
        src ← model_addr r;
        has ← gets (fun s => bt_mesh_has_addr (k_layer_msg acfg && a_msg_cb s) (a_comp s) (x_addr ctx));
        if k_delayable_msg acfg && x_rnd_delay ctx && negb (has && BT_MESH_ADDR_IS_UNICAST (x_addr ctx)) then
          data ← checked (mem_read (b_store msg) (b_data msg) (b_len msg));
          log (AccDelayable ctx data src)
        else bt_mesh_access_send ctx msg src cb.

(** ** Publishing *)

Definition bt_mesh_model_pub_period_get (m : bt_mesh_model) : Z :=
  match m_pub m with
  | None => 0
  | Some pub =>
      let steps := Z.land (p_period pub) (BIT_MASK 6) in
      let unit := Z.shiftr (p_period pub) 6 in
      let period :=
        if unit =? 0 then steps * 100
        else if unit =? 1 then steps * 1000
        else if unit =? 2 then steps * 10 * 1000
        else steps * 600 * 1000 in
      if p_fast_period pub then
        if period =? 0 then 0 else Z.max (Z.shiftr period (p_period_div pub)) 100
      else period
  end.

Definition BT_MESH_PUB_MSG_TOTAL (pub : bt_mesh_model_pub) : Z := BT_MESH_PUB_TRANSMIT_COUNT (p_retransmit pub) + 1.
Definition BT_MESH_PUB_MSG_NUM (pub : bt_mesh_model_pub) : Z := BT_MESH_PUB_TRANSMIT_COUNT (p_retransmit pub) + 1 - p_count pub.
Definition bt_mesh_model_pub_is_retransmission (pub : bt_mesh_model_pub) : bool :=
  negb (p_count pub =? BT_MESH_PUB_TRANSMIT_COUNT (p_retransmit pub)).

(** [now] is [k_uptime_get_32]. *)
Definition next_period (m : bt_mesh_model) (pub : bt_mesh_model_pub) (now : Z) : Z :=
  let elapsed := u32 (now - p_period_start pub) in
  let retransmission :=
    if p_count pub =? 0 then 0 else u32 (BT_MESH_PUB_TRANSMIT_INT (p_retransmit pub) * BT_MESH_PUB_MSG_NUM pub) in
  if negb (retransmission =? 0) && (retransmission <=? elapsed) then BT_MESH_PUB_TRANSMIT_INT (p_retransmit pub)
  else
    let period := if retransmission =? 0 then u32 (bt_mesh_model_pub_period_get m) else retransmission in
    if period =? 0 then 0
    else if period <=? elapsed then 1
    else s32 (period - elapsed).

Definition now : Z := u32 (uptime env).

(** [bt_work_schedule] leaves a timer that waits alone. *)
Definition pub_schedule (r : mod_ref) (delay : Z) : M st unit :=
  on_pub r (fun p => p <| p_timer ::= (fun t => match t with Some d => Some d | None => Some delay end) |>).
Definition pub_reschedule (r : mod_ref) (delay : Z) : M st unit := on_pub r (fun p => p <| p_timer := Some delay |>).

Definition publish_sent (r : mod_ref) : M st unit :=
  m ← model r;
  pub ← pub_of r;
  let delay := next_period m pub now in
  if delay =? 0 then mret () else pub_schedule r delay.

Definition publish_start (r : mod_ref) (err : Z) : M st unit := if err =? 0 then mret () else publish_sent r.

(** [pub_sent_cb]; its data stands for the model. *)
Definition pub_sent_cb (r : mod_ref) : send_cb :=
  mk_cb (Z.of_nat (r_elem r) * 512 + Z.b2z (r_vnd r) * 256 + Z.of_nat (r_idx r)) true true.

Definition publish_transmit (r : mod_ref) : M st unit :=
  pub ← pub_of r;
  msg ← checked (p_msg pub);
  src ← model_addr r;
  data ← checked (mem_read (b_store msg) (b_data msg) (b_len msg));
  let sdu := bt_buf_simple_init_with_data (replicate (Z.to_nat (BT_MESH_TX_SDU_MAX tcfg)) 0) (BT_MESH_TX_SDU_MAX tcfg) in
  sdu ← checked (bt_buf_simple_add_mem (bt_buf_simple_reset sdu) data);
  let ctx := mk_ctx 0 (p_key pub) (p_addr pub) 0 (p_uuid pub) 0 false false (p_ttl pub) in
  tx ← net_tx ctx src (p_cred pub);
  trans_send tx sdu (Some (pub_sent_cb r)).

Definition set_count (n : Z) (p : bt_mesh_model_pub) : bt_mesh_model_pub := p <| p_count := n mod 16 |>.

Definition pub_period_start (r : mod_ref) : M st unit :=
  _ ← on_pub r (fun p => set_count (BT_MESH_PUB_TRANSMIT_COUNT (p_retransmit p)) p);
  pub ← pub_of r;
  if negb (p_update pub) then mret ()
  else
    err ← in_app (update app r);
    _ ← on_pub r (fun p => p <| p_period_start := now |>);
    if err =? 0 then mret ()
    else
      _ ← on_pub r (set_count 0);
      _ ← publish_sent r;
      fail err.

(** [rnd] is what [bt_rand] gives. *)
Definition pub_delay_get (rnd : Z) (random_delay_window : Z) : Z :=
  if k_delayable_pub acfg then u16 (20 + u16 rnd mod random_delay_window) else 0.

(** Whether the delay was scheduled. *)
Definition pub_delay_schedule (rnd : Z) (r : mod_ref) (delay : Z) : M st bool :=
  if k_delayable_pub acfg then _ ← pub_reschedule r (pub_delay_get rnd delay); mret true else mret false.

(** The handler of [timer]. *)
Definition mod_publish (rnd : Z) (r : mod_ref) : M st unit :=
  _ ← on_pub r (fun p => p <| p_timer := None |>);
  pub ← pub_of r;
  suspended ← gets a_suspended;
  if (p_addr pub =? BT_MESH_ADDR_UNASSIGNED) || suspended then mret ()
  else
    let transmit :=
      e ← attempt (publish_transmit r);
      match e with inl _ => mret () | inr _ => publish_sent r end in
    if negb (p_count pub =? 0) then
      _ ← on_pub r (fun p => set_count (p_count p - 1) p);
      pub ← pub_of r;
      err ← (if p_retr_update pub && p_update pub && bt_mesh_model_pub_is_retransmission pub
             then in_app (update app r) else mret 0);
      if negb (err =? 0) then publish_sent r else transmit
    else
      e ← attempt (pub_period_start r);
      match e with
      | inr _ => mret ()
      | inl _ =>
          pub ← pub_of r;
          delayed ← (if p_delayable pub then pub_delay_schedule rnd r RANDOM_DELAY_SHORT else mret false);
          if (delayed : bool) then on_pub r (fun p => set_count (p_count p + 1) p) else transmit
      end.

Definition bt_mesh_model_publish (rnd : Z) (r : mod_ref) : M st unit :=
  m ← model r;
  match m_pub m with
  | None => fail (- ENOTSUP)
  | Some pub =>
      if p_addr pub =? BT_MESH_ADDR_UNASSIGNED then fail (- EADDRNOTAVAIL)
      else
        match p_msg pub with
        | None => fail (- EINVAL)
        | Some msg =>
            if b_len msg =? 0 then fail (- EINVAL)
            else if BT_MESH_TX_SDU_MAX tcfg <? b_len msg + BT_MESH_MIC_SHORT then fail (- EMSGSIZE)
            else
              _ ← on_pub r (fun p => set_count (BT_MESH_PUB_MSG_TOTAL p) p <| p_period_start := now |>);
              delayed ← (if p_delayable pub then pub_delay_schedule rnd r RANDOM_DELAY_LONG else mret false);
              if (delayed : bool) then mret () else pub_reschedule r 0
        end
  end.

(** ** Storage *)

Definition mod_key (m : bt_mesh_model) : Z := Z.lor (u16 (Z.shiftl (m_elem_idx m) 8)) (m_mod_idx m).
Definition encode_mod_path (r : mod_ref) (m : bt_mesh_model) (name : mod_key_name) : mod_path :=
  mk_path (r_vnd r) (mod_key m) name.

(** The words that are kept, if any; there is room for [room] of them. *)
Definition store_words (path : mod_path) (room : Z) (l : list Z) : M st unit :=
  _ ← checked (assert (zlen l <=? room));
  log (if zlen l =? 0 then AccDelete path else AccSave path (RecWords l)).

Definition store_pending_mod_bind (r : mod_ref) : M st unit :=
  m ← model r;
  store_words (encode_mod_path r m KeyBind) (MODEL_KEY_COUNT acfg) (filter (fun k => k <> BT_MESH_KEY_UNUSED) (m_keys m)).

Definition store_pending_mod_sub (r : mod_ref) : M st unit :=
  m ← model r;
  store_words (encode_mod_path r m KeySub) (MODEL_GROUP_COUNT acfg)
    (filter (fun g => g <> BT_MESH_ADDR_UNASSIGNED) (m_groups m)).

(** The numbers of the labels that are in use. *)
Definition uuid_idxs (vas : list bt_mesh_va) (l : list (option nat)) : list Z :=
  omap (fun u => match u with
                 | Some _ => match bt_mesh_va_get_idx_by_uuid vas u with inl idx => Some idx | inr _ => None end
                 | None => None
                 end) l.

Definition store_pending_mod_sub_va (r : mod_ref) : M st unit :=
  m ← model r;
  vas ← gets a_vas;
  if zlen (m_uuids m) =? 0 then mret ()
  else store_words (encode_mod_path r m KeySubV) (zlen (m_uuids m)) (uuid_idxs vas (m_uuids m)).

Definition pub_val (vas : list bt_mesh_va) (p : bt_mesh_model_pub) : mod_pub_val :=
  mk_pub_val (p_addr p) (p_key p) (p_ttl p) (p_retransmit p) (p_period p) (p_period_div p) (Z.b2z (p_cred p))
    (if BT_MESH_ADDR_IS_VIRTUAL (p_addr p)
     then match bt_mesh_va_get_idx_by_uuid vas (p_uuid p) with inl idx => idx | inr _ => 0 end
     else 0).

Definition store_pending_mod_pub (r : mod_ref) : M st unit :=
  m ← model r;
  vas ← gets a_vas;
  let path := encode_mod_path r m KeyPub in
  log (match m_pub m with
       | Some p => if p_addr p =? BT_MESH_ADDR_UNASSIGNED then AccDelete path else AccSave path (RecPub (pub_val vas p))
       | None => AccDelete path
       end).

(** One flag: it is cleared before the job it stands for. *)
Definition if_pending (r : mod_ref) (flag : Z) (job : M st unit) : M st unit :=
  m ← model r;
  if Z.land (m_flags m) flag =? 0 then mret ()
  else _ ← on_model r (fun m => m <| m_flags ::= (fun f => Z.land f (Z.lnot flag)) |>); job.

Definition store_pending_mod (r : mod_ref) : M st unit :=
  m ← model r;
  if m_flags m =? 0 then mret ()
  else
    _ ← if_pending r BT_MESH_MOD_BIND_PENDING (store_pending_mod_bind r);
    _ ← if_pending r BT_MESH_MOD_SUB_PENDING (_ ← store_pending_mod_sub r; store_pending_mod_sub_va r);
    _ ← if_pending r BT_MESH_MOD_PUB_PENDING (store_pending_mod_pub r);
    if_pending r BT_MESH_MOD_DATA_PENDING (in_app (fun s => (fun s => ((), s)) <$> pending_store app r s)).

Definition bt_mesh_model_pending_store : M st unit := bt_mesh_model_foreach store_pending_mod.

Definition mod_flag_store (flag : Z) (r : mod_ref) : M st unit :=
  _ ← on_model r (fun m => m <| m_flags ::= (fun f => Z.lor f flag) |>); log AccSchedule.
Definition bt_mesh_model_bind_store := mod_flag_store BT_MESH_MOD_BIND_PENDING.
Definition bt_mesh_model_sub_store := mod_flag_store BT_MESH_MOD_SUB_PENDING.
Definition bt_mesh_model_pub_store := mod_flag_store BT_MESH_MOD_PUB_PENDING.
Definition bt_mesh_model_data_store_schedule := mod_flag_store BT_MESH_MOD_DATA_PENDING.

(** ** Loading

    [len_rd] is the length of the record, [value] what reading it gives: the record or an
    error.  An array is read up to the size of what it is read into; what is read under a
    name is what was written under it, so that an array is never read from the record of a
    publication. *)

Definition read_words (value : mod_record + Z) (n : nat) : M st (list Z) :=
  match value with
  | inl (RecWords l) => mret (take n l)
  | inl (RecPub _) => mret []
  | inr err => fail err
  end.

(** The words that were read in front of what the array was cleared to. *)
Definition overlay {A} (l old : list A) : list A := l ++ drop (length l) old.

Definition mod_set_bind (r : mod_ref) (len_rd : Z) (value : mod_record + Z) : M st unit :=
  _ ← on_model r (fun m => m <| m_keys ::= map (fun _ => BT_MESH_KEY_UNUSED) |>);
  if len_rd =? 0 then mret ()
  else
    m ← model r;
    l ← read_words value (length (m_keys m));
    on_model r (fun m => m <| m_keys ::= overlay l |>).

Definition mod_set_sub (r : mod_ref) (len_rd : Z) (value : mod_record + Z) : M st unit :=
  _ ← on_model r (fun m => m <| m_groups ::= map (fun _ => 0) |>);
  if len_rd =? 0 then mret ()
  else
    m ← model r;
    l ← read_words value (length (m_groups m));
    on_model r (fun m => m <| m_groups ::= overlay l |>).

Definition mod_set_sub_va (r : mod_ref) (len_rd : Z) (value : mod_record + Z) : M st unit :=
  m ← model r;
  if zlen (m_uuids m) =? 0 then mret ()
  else
    _ ← on_model r (fun m => m <| m_uuids ::= map (fun _ => None) |>);
    if len_rd =? 0 then mret ()
    else
      l ← read_words value (length (m_uuids m));
      vas ← gets a_vas;
      on_model r (fun m => m <| m_uuids ::= overlay (Some <$> omap (bt_mesh_va_get_uuid_by_idx vas) l) |>).

Definition mod_set_pub (r : mod_ref) (len_rd : Z) (value : mod_record + Z) : M st unit :=
  m ← model r;
  match m_pub m with
  | None => fail (- EINVAL)
  | Some _ =>
      if len_rd =? 0 then
        on_pub r (fun p => p <| p_addr := BT_MESH_ADDR_UNASSIGNED |> <| p_key := 0 |> <| p_cred := false |> <| p_ttl := 0 |>
                             <| p_period := 0 |> <| p_retransmit := 0 |> <| p_count := 0 |> <| p_uuid := None |>)
      else if negb (k_settings acfg) then mret ()
      else
        match value with
        | inr err => fail err
        | inl (RecWords _) => fail (- EINVAL)
        | inl (RecPub v) =>
            vas ← gets a_vas;
            on_pub r (fun p =>
              (if BT_MESH_ADDR_IS_VIRTUAL (pv_addr v) then p <| p_uuid := bt_mesh_va_get_uuid_by_idx vas (pv_uuidx v) |> else p)
                <| p_addr := pv_addr v |> <| p_key := pv_key v mod 2 ^ 12 |> <| p_cred := negb (pv_cred v mod 2 =? 0) |>
                <| p_ttl := pv_ttl v |> <| p_period := pv_period v |> <| p_retransmit := pv_retransmit v |>
                <| p_period_div := pv_period_div v mod 16 |> <| p_count := 0 |>)
        end
  end.

Definition mod_data_set (r : mod_ref) (value : mod_record + Z) : M st unit :=
  m ← model r;
  match m_cb m with
  | Some cb =>
      if cb_settings_set cb then
        err ← in_app (settings_set app r value);
        if err =? 0 then mret () else fail err
      else mret ()
  | None => mret ()
  end.

(** The name: the number of the model, and its last part when it is one of the five. *)
Definition mod_set (vnd : bool) (name : option (Z * option mod_key_name)) (len_rd : Z) (value : mod_record + Z) : M st unit :=
  match name with
  | None => fail (- ENOENT)
  | Some (number, next) =>
      let mod_key := u16 number in
      comp ← gets a_comp;
      match bt_mesh_model_get comp vnd (u8 (Z.shiftr mod_key 8)) (u8 mod_key) with
      | None => fail (- ENOENT)
      | Some r =>
          match next with
          | Some KeyBind => mod_set_bind r len_rd value
          | Some KeySubV => mod_set_sub_va r len_rd value
          | Some KeyData => mod_data_set r value
          | Some KeySub => mod_set_sub r len_rd value
          | Some KeyPub => mod_set_pub r len_rd value
          | None => fail (- ENOENT)
          end
      end
  end.

Definition commit_mod (rnd : Z) (r : mod_ref) : M st unit :=
  m ← model r;
  _ ← match m_pub m with
      | Some pub =>
          if p_update pub && negb (p_addr pub =? BT_MESH_ADDR_UNASSIGNED) then
            let ms := bt_mesh_model_pub_period_get m in
            if 0 <? ms then pub_schedule r (ms + (if p_delayable pub then pub_delay_get rnd RANDOM_DELAY_LONG else 0)) else mret ()
          else mret ()
      | None => mret ()
      end;
  if negb (k_lpn acfg) then mret ()
  else foreach (fun g => if g =? BT_MESH_ADDR_UNASSIGNED then mret () else log (AccLpnGroupAdd g)) (m_groups m).

(** [rnd] gives the random number of each model. *)
Definition bt_mesh_model_settings_commit (rnd : mod_ref -> Z) : M st unit :=
  bt_mesh_model_foreach (fun r => commit_mod (rnd r) r).

End Operations.
