(* ===== verification/AccessFrame.v ===== *)
(** What an operation of the access layer leaves alone: a part [f] of its state.  An operation
    that is made of operations that leave it alone does too; for receiving and sending it
    is enough to know which parts of the state [f] does not look at. *)

From S2P Require Import Prelude BufSimple MeshDefs CryptoIf Va Net Transport Access.

Section Leaves.

Context {X W : Type} `{MeshCrypto W}.
Notation st := (access X W).
Context {T : Type} (f : st -> T).
Implicit Types s : st.

(** Whatever the outcome is. *)
Definition leaves {A} (m : M st A) : Prop := forall s, f (m s).2 = f s.

Lemma leaves_ret {A} (a : A) : leaves (mret a). Proof. done. Qed.
Lemma leaves_fail {A} e : leaves (A := A) (fail e). Proof. done. Qed.
Lemma leaves_gets {A} (g : st -> A) : leaves (gets g). Proof. done. Qed.
Lemma leaves_checked {A} (o : option A) : leaves (checked o). Proof. by destruct o. Qed.
Lemma leaves_bind {A B} (m : M st A) (k : A -> M st B) : leaves m -> (forall a, leaves (k a)) -> leaves (m ≫= k).
Proof. intros Hm Hk s. specialize (Hm s). unfold mbind, M_bind. destruct (m s) as [[a|e|] s1]; cbn in *; [by rewrite Hk|done|done]. Qed.
Lemma leaves_attempt {A} (m : M st A) : leaves m -> leaves (attempt m).
Proof. intros Hm s. specialize (Hm s). unfold attempt. by destruct (m s) as [[a|e|] s1]. Qed.

Context (Hlog : forall o s, f (s <| a_ext ::= (fun l => l ++ [o]) |>) = f s).

Lemma leaves_log o : leaves (log o).
Proof. exact (Hlog o). Qed.

Ltac leaves := repeat first
  [ apply leaves_ret | apply leaves_fail | apply leaves_gets | apply leaves_checked | apply leaves_log | apply leaves_attempt
  | (apply leaves_bind; [|intros ?]) | (intros s0; exact (Hlog _ s0)) | match goal with |- leaves (if ?b then _ else _) => destruct b end
  | match goal with |- leaves (match ?x with _ => _ end) => destruct x end ].

Lemma leaves_visitor get r a : leaves (find_visitor get r a).
Proof. unfold find_visitor, model. leaves. Qed.

Lemma leaves_walk {A} (cb : mod_ref -> A -> M st (bool * A)) start n it a : (forall r a, leaves (cb r a)) -> leaves (walk_loop cb start n it a).
Proof.
  intros Hv. revert it a. induction n as [|n IH]; intros it a; [apply leaves_checked|]. cbn [walk_loop].
  apply leaves_bind; [apply leaves_checked|]. intros r. destruct (decide _); [apply leaves_ret|].
  apply leaves_bind; [apply Hv|]. intros [stop a']. destruct stop; [apply leaves_ret|]. apply leaves_bind; [apply leaves_gets|]. intros m. apply IH.
Qed.

Lemma leaves_extensions {A} acfg r (cb : mod_ref -> A -> M st (bool * A)) a : (forall r a, leaves (cb r a)) ->
  leaves (bt_mesh_model_extensions_walk acfg r cb a).
Proof.
  intros Hv. unfold bt_mesh_model_extensions_walk. apply leaves_bind; [apply Hv|]. intros [stop a']. destruct (negb _); [apply leaves_ret|].
  apply leaves_bind; [apply leaves_gets|]. intros m. destruct stop; [apply leaves_ret|]. destruct (m_next m); [|apply leaves_ret].
  apply leaves_bind; [apply leaves_gets|]. intros c. by apply leaves_walk.
Qed.

(** ** Receiving *)

Context (acfg : access_cfg) (app : app_ops st).
Context (Hfunc : forall fn r ctx buf s e c b s', func app fn r ctx buf s = Some (e, c, b, s') -> f s' = f s).
Context (Hcb : forall op ctx buf s c b s', msg_cb app op ctx buf s = Some (c, b, s') -> f s' = f s).

Lemma leaves_element ctx buf elem op : leaves (element_model_recv acfg app ctx buf elem op).
Proof.
  unfold element_model_recv. apply leaves_bind; [apply leaves_gets|]. intros c. destruct (find_op _ _ _ _) as [[o r]|]; [|apply leaves_ret].
  destruct (negb _); [apply leaves_ret|]. apply leaves_bind.
  { unfold model_has_dst, model, model_addr, bt_mesh_model_find_group, bt_mesh_model_find_uuid.
    apply leaves_bind; [apply leaves_gets|]. intros m. destruct (BT_MESH_ADDR_IS_UNICAST _); [leaves|].
    destruct (BT_MESH_ADDR_IS_VIRTUAL _); [apply leaves_bind; [apply leaves_extensions, leaves_visitor|intros [? ?]; apply leaves_ret]|].
    destruct (_ || _); [apply leaves_bind; [apply leaves_extensions, leaves_visitor|intros [? ?]; apply leaves_ret]|apply leaves_ret]. }
  intros has. destruct (negb has); [apply leaves_ret|]. destruct (negb _); [apply leaves_ret|]. cbv zeta. apply leaves_bind.
  - intros s. unfold in_app. destruct (func app _ _ _ _ s) as [[[[e c'] b] s']|] eqn:E; cbn; [by eapply Hfunc|done].
  - intros [[e c'] b]. apply leaves_ret.
Qed.

Lemma leaves_recv ctx buf : leaves (bt_mesh_model_recv acfg app ctx buf).
Proof.
  unfold bt_mesh_model_recv. apply leaves_bind; [leaves|]. intros _. apply leaves_bind.
  { apply leaves_attempt. unfold get_opcode. leaves. }
  intros [[op b]|e]; [|apply leaves_ret]. apply leaves_bind; [apply leaves_gets|]. intros c. cbv zeta. destruct (_ && _); [apply leaves_ret|].
  apply leaves_bind.
  - destruct (BT_MESH_ADDR_IS_UNICAST _); [apply leaves_element|]. generalize 0%nat, ACCESS_STATUS_MESSAGE_NOT_UNDERSTOOD, ctx, b.
    induction (length (co_elem c)) as [|n IH]; intros i err ctx' b'; [apply leaves_ret|]. cbn [group_recv_loop].
    apply leaves_bind; [apply leaves_element|]. intros [[e c'] b'']. apply IH.
  - intros [[e c'] b']. unfold has_msg_cb. apply leaves_bind; [leaves|]. intros has. destruct has; [|apply leaves_ret].
    apply leaves_bind; [|intros [? ?]; apply leaves_ret]. intros s. unfold in_app.
    destruct (msg_cb app _ _ _ s) as [[[c'' b''] s']|] eqn:E; cbn; [by eapply Hcb|done].
Qed.

End Leaves.

(** ** Sending *)

Section Sending.

Context {X W : Type} `{MeshCrypto W}.
Context (cfg : net_cfg) (tcfg : trans_cfg) (acfg : access_cfg) (env : trans_env).
Notation st := (access X W).
Context {T : Type} (f : st -> T).
Context (Hlog : forall o s, f (s <| a_ext ::= (fun l => l ++ [o]) |>) = f s).
Context (Htrans : forall t s, f (s <| a_trans := t |>) = f s).
Context (Hsrv : forall g s, f (s <| a_agg_srv ::= g |>) = f s).
Context (Hcli : forall g s, f (s <| a_agg_cli ::= g |>) = f s).

Ltac leaves := repeat first
  [ apply leaves_ret | apply leaves_fail | apply leaves_gets | apply leaves_checked | apply (leaves_log f Hlog) | apply leaves_attempt
  | (apply leaves_bind; [|intros ?]) | (intros s0; exact (Hlog _ s0)) | (intros s0; exact (Hsrv _ s0)) | (intros s0; exact (Hcli _ s0))
  | match goal with |- leaves _ (if ?b then _ else _) => destruct b end
  | match goal with |- leaves _ (match ?x with _ => _ end) => destruct x end ].

Lemma leaves_encode len buf : leaves f (encode_length len buf).
Proof. unfold encode_length. leaves. Qed.

Lemma leaves_accept g ctx buf : leaves f (agg_accept g ctx buf).
Proof. unfold agg_accept, bt_mesh_op_agg_is_op_agg_msg. leaves. Qed.

Lemma leaves_trans_send tx msg cb : leaves f (trans_send cfg tcfg acfg env tx msg cb).
Proof. intros s. unfold trans_send. destruct (bt_mesh_trans_send _ _ _ _ _ _ _) as [r t]. apply Htrans. Qed.

Lemma leaves_model_send r ctx msg cb : leaves f (bt_mesh_model_send cfg tcfg acfg env r ctx msg cb).
Proof.
  unfold bt_mesh_model_send, bt_mesh_op_agg_srv_accept, bt_mesh_op_agg_cli_accept, bt_mesh_op_agg_srv_send, bt_mesh_op_agg_cli_send,
    bt_mesh_access_send, model, model_addr, net_tx.
  leaves; first [apply leaves_accept | apply leaves_encode | apply leaves_trans_send].
Qed.

End Sending.
