(* ===== verification/AccessExt.v ===== *)
(** Model extensions: the circular lists of [access.c].  Models that extend one another,
    directly or not, are one list, and models of the same element on one list share their
    subscriptions. *)

From S2P Require Import Prelude BufSimple MeshDefs CryptoIf Crypto Va Net Transport Cycles Access.

(** * Models of a composition *)

Definition lookup_model (c : bt_mesh_comp) (r : mod_ref) : option bt_mesh_model :=
  e ← co_elem c !! r_elem r; models_of (r_vnd r) e !! r_idx r.

Lemma model_at_lookup c r m : lookup_model c r = Some m -> model_at r c = m.
Proof.
  unfold lookup_model, model_at, elem_at. intros (e & He & Hm)%bind_Some.
  rewrite (list_lookup_total_correct _ _ _ He). by apply list_lookup_total_correct.
Qed.

Lemma elem_of_list_refs r i vnd n : r ∈ list_refs i vnd n <-> r_elem r = i /\ r_vnd r = vnd /\ (r_idx r < n)%nat.
Proof.
  unfold list_refs. rewrite list_elem_of_fmap. split.
  - intros (k & -> & Hk%elem_of_seq). cbn. split_and!; [done..|lia].
  - intros (<- & <- & Hk). exists (r_idx r). split; [by destruct r|]. apply elem_of_seq. lia.
Qed.

Lemma elem_of_comp_refs c r : r ∈ comp_refs c <-> is_Some (lookup_model c r).
Proof.
  unfold comp_refs, lookup_model. split.
  - intros (l & Hl & Hr)%list_elem_of_In%in_concat.
    apply list_elem_of_In in Hl, Hr. apply elem_of_lookup_imap in Hl as (i & e & -> & He).
    unfold elem_refs in Hr. rewrite elem_of_app, !elem_of_list_refs in Hr.
    destruct Hr as [(-> & Hv & Hi)|(-> & Hv & Hi)]; rewrite He, Hv; cbn; by apply lookup_lt_is_Some.
  - intros (m & (e & He & Hm)%bind_Some). apply list_elem_of_In, in_concat. exists (elem_refs (r_elem r) e).
    split; apply list_elem_of_In; [apply elem_of_lookup_imap; eauto|].
    unfold elem_refs. rewrite elem_of_app, !elem_of_list_refs. apply lookup_lt_Some in Hm.
    destruct (r_vnd r); [by right|by left].
Qed.

Lemma models_of_on vnd vnd' f e : models_of vnd (on_models vnd' f e) = if decide (vnd = vnd') then f (models_of vnd e) else models_of vnd e.
Proof. by destruct vnd, vnd', e. Qed.

Lemma lookup_set_model r f c r' :
  lookup_model (set_model r f c) r' = if decide (r' = r) then f <$> lookup_model c r' else lookup_model c r'.
Proof.
  unfold lookup_model, set_model. cbn. destruct (decide (r_elem r' = r_elem r)) as [E|E].
  - rewrite E, list_lookup_alter_eq. destruct (co_elem c !! r_elem r) as [e|]; cbn; [|by case_decide].
    rewrite models_of_on. destruct (decide (r_vnd r' = r_vnd r)) as [Ev|Ev].
    + destruct (decide (r_idx r' = r_idx r)) as [Ei|Ei].
      * rewrite decide_True by (destruct r, r'; cbn in *; congruence). rewrite Ei. apply list_lookup_alter_eq.
      * rewrite decide_False by congruence. by apply list_lookup_alter_ne.
    + by rewrite decide_False by congruence.
  - rewrite list_lookup_alter_ne by done. by rewrite decide_False by congruence.
Qed.

Lemma imap_alter {A B} (g : nat -> A -> B) h (l : list A) i : (forall j x, g j (h x) = g j x) -> imap g (alter h i l) = imap g l.
Proof.
  intros Hg. apply list_eq. intros j. rewrite !list_lookup_imap. destruct (decide (j = i)) as [->|Hj].
  - rewrite list_lookup_alter_eq. destruct (l !! i); cbn; [by rewrite Hg|done].
  - by rewrite list_lookup_alter_ne.
Qed.

Lemma comp_refs_set r f c : comp_refs (set_model r f c) = comp_refs c.
Proof.
  unfold comp_refs, set_model. cbn. rewrite imap_alter; [done|]. intros j e. unfold elem_refs, on_models.
  destruct (r_vnd r); cbn; by rewrite length_alter.
Qed.

Lemma model_at_set r f c r' : r ∈ comp_refs c -> model_at r' (set_model r f c) = if decide (r' = r) then f (model_at r' c) else model_at r' c.
Proof.
  intros Hr. apply elem_of_comp_refs in Hr as [m Hm]. case_decide as Hd.
  - subst r'. rewrite (model_at_lookup _ _ _ Hm). apply model_at_lookup. by rewrite lookup_set_model, decide_True, Hm by done.
  - pose proof (lookup_set_model r f c r') as E. rewrite decide_False in E by done.
    unfold model_at, elem_at, set_model. cbn. destruct (decide (r_elem r' = r_elem r)) as [Ee|Ee].
    + unfold lookup_model in Hm. apply bind_Some in Hm as (e & He & Hm). rewrite Ee, (list_lookup_total_correct _ _ _ He).
      rewrite (list_lookup_total_correct _ _ (on_models (r_vnd r) (alter f (r_idx r)) e)) by by rewrite list_lookup_alter_eq, He.
      rewrite models_of_on. case_decide as Hv; [|done].
      apply list_lookup_total_alter_ne. intros Hi. apply Hd. destruct r, r'; cbn in *; congruence.
    + by rewrite list_lookup_total_alter_ne.
Qed.

(** * Circular lists *)

(** The successor; a model on no list is its own. *)
Definition next_of (c : bt_mesh_comp) (r : mod_ref) : mod_ref := default r (m_next (model_at r c)).

(** The lists are circles. *)
Definition rings_ok (c : bt_mesh_comp) : Prop := moves (comp_refs c) (next_of c).

(** [r] and [x] are on one list. *)
Definition same_list (c : bt_mesh_comp) : mod_ref -> mod_ref -> Prop := on_cycle (next_of c).

Lemma next_some c r x : rings_ok c -> r ∈ comp_refs c -> same_list c r x -> x <> r -> m_next (model_at r c) = Some (next_of c r).
Proof.
  intros Hok Hr [k Hk] Hx. unfold next_of at 1. destruct (m_next (model_at r c)) eqn:E; [done|].
  exfalso. apply Hx. rewrite <-Hk. clear -E. induction k as [|k IH]; [done|]. rewrite iter_S, IH. unfold next_of. by rewrite E.
Qed.

Lemma rtsc_least {A} (R E : relation A) `{!Equivalence E} x y : (forall u v, R u v -> E u v) -> rtsc R x y -> E x y.
Proof.
  intros HR. induction 1 as [x|x z y [Hxz|Hzx] _ IH]; [done| |]; (etransitivity; [|exact IH]); [by apply HR|symmetry; by apply HR].
Qed.

Section Extensions.

Context {X W : Type} `{MeshCrypto W} (acfg : access_cfg).
Notation st := (access X W).
Implicit Types (s : st) (a b r x y : mod_ref).

(** ** The search *)

(** From point [j] of the circle of [a] on: whether [b] is there before the last. *)
Lemma extend_scan_run c a b K : rings_ok c -> a ∈ comp_refs c -> a <> b ->
  Nat.iter (S K) (next_of c) a = a -> (forall j, (j < K)%nat -> Nat.iter (S j) (next_of c) a <> a) ->
  forall d j n, (j + d = K)%nat -> (d + 2 <= n)%nat ->
  exists found, extend_scan c a b n (Some (Nat.iter j (next_of c) a)) = Some found /\
    (found = true <-> exists i, (j <= i < K)%nat /\ Nat.iter i (next_of c) a = b).
Proof.
  intros Hok Ha Hab Hend Hfirst. induction d as [|d IH]; intros j n Hj Hn; (destruct n as [|n]; [lia|]).
  - assert (j = K) as -> by lia. exists false. split; [|split; [done|intros (i & ? & _); lia]]. cbn [extend_scan].
    set (x := Nat.iter K (next_of c) a) in *. rewrite iter_S in Hend. fold x in Hend.
    destruct (decide (x = a)) as [Ex|Ex].
    + rewrite Ex in *. destruct (m_next (model_at a c)) as [y|] eqn:E.
      * assert (y = a) as -> by (by unfold next_of in Hend; rewrite E in Hend). by rewrite decide_True.
      * rewrite decide_False by done. rewrite decide_False by done. destruct n; [lia|done].
    + assert (x ∈ comp_refs c) as Hx by (by apply iter_in).
      rewrite (next_some c x a Hok Hx); [|rewrite <-Hend; apply on_cycle_step|done]. by rewrite Hend, decide_True.
  - specialize (IH (S j) n ltac:(lia) ltac:(lia)) as (found & E & Hf). cbn [extend_scan].
    set (x := Nat.iter j (next_of c) a) in *. rewrite iter_S in E. fold x in E.
    assert (x ∈ comp_refs c) as Hx by (by apply iter_in).
    assert (next_of c x <> a) as Hna by (apply (Hfirst j); lia).
    assert (m_next (model_at x c) = Some (next_of c x)) as Hnx.
    { unfold next_of at 1. destruct (m_next (model_at x c)) eqn:Em; [done|]. exfalso.
      assert (next_of c x = x) as Es by (unfold next_of; by rewrite Em).
      assert (same_list c x a) as [k Hk].
      { apply on_cycle_sym with (dom := comp_refs c); [done..|]. by exists j. }
      assert (x = a) as Exa; [|congruence]. rewrite <-Hk. clear -Es. induction k as [|k IH]; [done|].
      rewrite iter_S, <-IH. done. }
    rewrite Hnx, decide_False by congruence. destruct (decide (x = b)) as [Exb|Exb].
    + exists true. split; [done|]. split; [intros _; exists j; split; [lia|done]|done].
    + exists found. split; [by rewrite E|]. rewrite Hf. split.
      * intros (i & Hi & Ei). exists i. split; [lia|done].
      * intros (i & Hi & Ei). exists i. split; [|done]. destruct (decide (i = j)) as [->|]; [done|lia].
Qed.

(** [b] is on the list of [a], and not right before it. *)
Definition found_in_list c a b : Prop := same_list c a b /\ next_of c b <> a.

Lemma extend_scan_found c a b : rings_ok c -> a ∈ comp_refs c -> a <> b ->
  exists found, extend_scan c a b (S (length (comp_refs c))) (Some a) = Some found /\ (found = true <-> found_in_list c a b).
Proof.
  intros Hok Ha Hab. destruct (cycle_first (comp_refs c) (next_of c) a Hok Ha) as (K & HK & Hend & Hfirst).
  destruct (extend_scan_run c a b K Hok Ha Hab Hend Hfirst K 0 (S (length (comp_refs c)))) as (found & E & Hf); [lia..|].
  exists found. split; [done|]. rewrite Hf. split.
  - intros (i & Hi & <-). split; [by exists i|]. apply (Hfirst i). lia.
  - intros [[k Hk] Hn]. exists (k mod S K)%nat. assert (Nat.iter (k mod S K) (next_of c) a = b) as E'.
    { rewrite <-Hk. symmetry. by apply iter_mod. }
    split; [|done]. pose proof (Nat.mod_upper_bound k (S K) ltac:(lia)).
    assert (k mod S K <> K)%nat; [|lia]. intros EK. apply Hn. rewrite <-E', EK. apply Hend.
Qed.

(** ** Extending *)

(** What the program does to the lists. *)
Definition extended c a b : bt_mesh_comp :=
  let c1 := set_model b (fun m => m <| m_flags ::= Z.lor BT_MESH_MOD_EXTENDED |>) c in
  if decide (a = b) then c1
  else
    match extend_scan c1 a b (S (length (comp_refs c1))) (Some a) with
    | Some true => c1
    | _ => set_model a (fun m => m <| m_next := Some (next_of c b) |>)
             (set_model b (fun m => m <| m_next := Some (next_of c a) |>) c1)
    end.

Lemma next_of_flags c b f r : b ∈ comp_refs c -> next_of (set_model b (fun m => m <| m_flags ::= f |>) c) r = next_of c r.
Proof. intros Hb. unfold next_of. rewrite model_at_set by done. by case_decide. Qed.

Lemma extended_refs c a b : comp_refs (extended c a b) = comp_refs c.
Proof. unfold extended. repeat case_match; by rewrite !comp_refs_set. Qed.

Lemma extended_next c a b : rings_ok c -> a ∈ comp_refs c -> b ∈ comp_refs c ->
  (a = b \/ found_in_list c a b) /\ (forall r, next_of (extended c a b) r = next_of c r) \/
  (a <> b /\ ~ found_in_list c a b) /\ exchanged (comp_refs c) (next_of c) a b (next_of (extended c a b)).
Proof.
  intros Hok Ha Hb. unfold extended. set (c1 := set_model b _ c).
  assert (forall r, next_of c1 r = next_of c r) as E1 by (intros r; by apply next_of_flags).
  assert (comp_refs c1 = comp_refs c) as Er by apply comp_refs_set.
  destruct (decide (a = b)) as [->|Hab]; [left; split; [by left|done]|].
  assert (rings_ok c1) as Hok1 by (unfold rings_ok; rewrite Er; apply (moves_ext _ (next_of c)); [intros ?; by rewrite E1|done]).
  destruct (extend_scan_found c1 a b) as (found & -> & Hf); [done|by rewrite Er|done|].
  assert (found_in_list c1 a b <-> found_in_list c a b) as Hiff.
  { unfold found_in_list. rewrite E1. split; intros [? ?]; (split; [|done]); (eapply on_cycle_ext; [|done]); intros z; by rewrite E1. }
  rewrite Hiff in Hf. destruct found; [left; split; [right; by apply Hf|done]|]. right. split; [split; [done|]|].
  - intros Hx. by apply Hf in Hx.
  - assert (forall r, next_of (set_model a (fun m => m <| m_next := Some (next_of c b) |>)
      (set_model b (fun m => m <| m_next := Some (next_of c a) |>) c1)) r =
      if decide (r = a) then next_of c b else if decide (r = b) then next_of c a else next_of c r) as E.
    { intros r. unfold next_of at 1. rewrite !model_at_set by (by rewrite ?comp_refs_set, ?Er).
      destruct (decide (r = a)); [done|]. destruct (decide (r = b)) as [->|]; [done|]. apply E1. }
    split_and!.
    + intros x _ Hxa Hxb. by rewrite E, !decide_False.
    + by rewrite E, decide_True.
    + by rewrite E, decide_False, decide_True.
Qed.

Lemma extended_ok c a b : rings_ok c -> a ∈ comp_refs c -> b ∈ comp_refs c -> rings_ok (extended c a b).
Proof.
  intros Hok Ha Hb. unfold rings_ok. rewrite extended_refs.
  destruct (extended_next c a b Hok Ha Hb) as [[_ E]|[_ E]]; [apply (moves_ext _ (next_of c)); [intros ?; by rewrite E|done]|].
  by apply (exchanged_moves _ (next_of c) a b).
Qed.

(** The lists of the two become one, unless [b] was right before [a]. *)
Lemma extended_lists c a b : rings_ok c -> a ∈ comp_refs c -> b ∈ comp_refs c ->
  (same_list c a b -> a = b \/ next_of c b <> a) ->
  forall x y, x ∈ comp_refs c -> (same_list (extended c a b) x y <->
    same_list c x y \/ (same_list c x a /\ same_list c b y) \/ (same_list c x b /\ same_list c a y)).
Proof.
  intros Hok Ha Hb Htimely x y Hx.
  assert (same_list c a b -> same_list c x y \/ (same_list c x a /\ same_list c b y) \/ (same_list c x b /\ same_list c a y) ->
          same_list c x y) as Hin.
  { intros Hab Hxy. assert (same_list c b a) as Hba by (by apply on_cycle_sym with (dom := comp_refs c)).
    unfold same_list in *. destruct Hxy as [?|[[? ?]|[? ?]]]; eauto using on_cycle_trans. }
  destruct (extended_next c a b Hok Ha Hb) as [[Hf E]|[[Hab Hf] E]].
  - assert (same_list c a b) as Hab by (destruct Hf as [->|[? _]]; [apply on_cycle_refl|done]).
    split.
    + intros Hxy. left. by apply (on_cycle_ext (next_of (extended c a b))).
    + intros Hxy. apply (on_cycle_ext (next_of c)); [intros z; by rewrite E|by apply Hin].
  - apply exchanged_merges with (dom := comp_refs c); [done..| |done]. intros Hl. apply Hf. split; [done|].
    destruct (Htimely Hl) as [|]; done.
Qed.

Lemma bt_mesh_model_extend_run s a b : rings_ok (a_comp s) -> a ∈ comp_refs (a_comp s) -> b ∈ comp_refs (a_comp s) ->
  exists o rel, bt_mesh_model_extend acfg a b s = (o, s <| a_comp := extended (a_comp s) a b |> <| a_rel := rel |>) /\ o <> Crash.
Proof.
  intros Hok Ha Hb. unfold bt_mesh_model_extend. rewrite (bind_ok _ _ s (a_comp s) s) by done. cbv zeta.
  set (c := a_comp s) in *. set (c1 := set_model b (fun m => m <| m_flags ::= Z.lor BT_MESH_MOD_EXTENDED |>) c).
  rewrite (bind_ok _ _ s () (s <| a_comp := c1 |>)) by done.
  destruct (decide (a = b)) as [->|Hab].
  { unfold extended. rewrite decide_True by done. exists (Ok ()), (a_rel s). split; [|done]. by destruct s. }
  assert (extend_scan c a b (S (length (comp_refs c))) (Some a) = extend_scan c1 a b (S (length (comp_refs c1))) (Some a)) as Es.
  { unfold c1. rewrite comp_refs_set. generalize (S (length (comp_refs c))) (Some a). intros n. induction n as [|n IH]; [done|].
    intros [r|]; [|done]. cbn [extend_scan]. rewrite model_at_set by done.
    assert (m_next (if decide (r = b) then model_at r c <| m_flags ::= Z.lor BT_MESH_MOD_EXTENDED |> else model_at r c) =
            m_next (model_at r c)) as -> by by case_decide.
    by rewrite IH. }
  destruct (extend_scan_found c a b Hok Ha Hab) as (found & E & _).
  rewrite E. rewrite (bind_ok _ _ _ found (s <| a_comp := c1 |>)) by done.
  set (c2 := extended c a b).
  assert (c2 = if found then c1 else set_model a (fun m => m <| m_next := Some (next_of c b) |>)
                                       (set_model b (fun m => m <| m_next := Some (next_of c a) |>) c1)) as Ec2.
  { unfold c2, extended. fold c1. rewrite decide_False, <-Es, E by done. by destruct found. }
  rewrite (bind_ok _ _ _ () (s <| a_comp := c2 |>)) by (rewrite Ec2; by destruct found).
  rewrite (bind_ok _ _ _ (a_rel s) (s <| a_comp := c2 |>)) by done.
  assert (s <| a_comp := c2 |> = s <| a_comp := c2 |> <| a_rel := a_rel s |>) as Eid by (by destruct s).
  destruct (negb _).
  - unfold mod_rel_register. rewrite (bind_ok _ _ _ c2 (s <| a_comp := c2 |>)) by done.
    rewrite (bind_ok _ _ _ (a_rel s) (s <| a_comp := c2 |>)) by done. cbv zeta.
    destruct (rel_register _ (a_rel s)) as [rel|]; [exists (Ok ()), rel|exists (Err (- ENOMEM)), (a_rel s)]; (split; [|done]);
      [done|by rewrite <-Eid].
  - destruct (k_comp_page_1 acfg); [exists (Err (- ENOMEM)), (a_rel s)|exists (Ok ()), (a_rel s)]; (split; [|done]);
      rewrite <-Eid; done.
Qed.

(** ** Looking for a subscription *)

Definition same_elem c r x : Prop := m_elem_idx (model_at x c) = m_elem_idx (model_at r c).

(** What the visitor does on the model [x]. *)
Definition hit c (get : bt_mesh_model -> option nat) r x : option nat :=
  if m_elem_idx (model_at x c) =? m_elem_idx (model_at r c) then get (model_at x c) else None.

Lemma find_visitor_run get r x s : find_visitor get x (None, r) s =
  (Ok (match hit (a_comp s) get r x with Some k => (true, (Some k, x)) | None => (false, (None, r)) end), s).
Proof.
  unfold find_visitor, hit. rewrite (bind_ok _ _ s (model_at x (a_comp s)) s) by done.
  rewrite (bind_ok _ _ s (model_at r (a_comp s)) s) by done. destruct (_ =? _); cbn [negb]; [|done].
  by destruct (get _).
Qed.

(** What a search through the points [i] to [K] of the circle of [r] gives. *)
Definition finding c get r (lo K : nat) (res : option nat * mod_ref) : Prop :=
  match res with
  | (Some k, x) => exists j, (lo <= j <= K)%nat /\ x = Nat.iter j (next_of c) r /\ hit c get r x = Some k
  | (None, x) => x = r /\ forall j, (lo <= j <= K)%nat -> hit c get r (Nat.iter j (next_of c) r) = None
  end.

Lemma finding_next c get r lo K res : hit c get r (Nat.iter lo (next_of c) r) = None -> finding c get r (S lo) K res -> finding c get r lo K res.
Proof.
  intros Hlo. destruct res as [[k|] x]; cbn.
  - intros (j & Hj & Ex & Eh). exists j. split_and!; [lia|lia|done..].
  - intros [-> Hall]. split; [done|]. intros j Hj. destruct (decide (j = lo)) as [->|]; [done|apply Hall; lia].
Qed.

Lemma walk_loop_find get r K s : let c := a_comp s in rings_ok c -> r ∈ comp_refs c ->
  Nat.iter (S K) (next_of c) r = r -> (forall j, (j < K)%nat -> Nat.iter (S j) (next_of c) r <> r) ->
  forall d i n, (i + d = K)%nat -> (d + 2 <= n)%nat ->
  exists res, walk_loop (find_visitor get) r n (Some (Nat.iter (S i) (next_of c) r)) (None, r) s = (Ok res, s) /\
    finding c get r (S i) K res.
Proof.
  cbv zeta. set (c := a_comp s). intros Hok Hr Hend Hfirst. induction d as [|d IH]; intros i n Hi Hn; (destruct n as [|n]; [lia|]);
    cbn [walk_loop]; rewrite (bind_ok _ _ s (Nat.iter (S i) (next_of c) r) s) by done.
  - assert (i = K) as -> by lia. rewrite Hend, decide_True by done. exists (None, r). split; [done|]. split; [done|]. intros j Hj. lia.
  - rewrite decide_False by (apply Hfirst; lia). rewrite (bind_ok _ _ s _ s (find_visitor_run _ _ _ _)). fold c.
    set (x := Nat.iter (S i) (next_of c) r). destruct (hit c get r x) as [k|] eqn:Eh; cbv beta iota.
    + exists (Some k, x). split; [done|]. exists (S i). split_and!; [lia|lia|done..].
    + rewrite (bind_ok _ _ s (model_at x c) s) by done.
      assert (x ∈ comp_refs c) as Hx by (by apply iter_in).
      rewrite (next_some c x r Hok Hx).
      * specialize (IH (S i) n ltac:(lia) ltac:(lia)) as (res & E & Hf). exists res. split; [exact E|].
        by apply finding_next.
      * apply on_cycle_sym with (dom := comp_refs c); [done..|]. by exists (S i).
      * intros Exr. apply (Hfirst i); [lia|]. by symmetry.
Qed.

(** The models whose subscriptions [r] shares. *)
Definition sharing c r x : Prop := if k_extensions acfg then same_list c r x else x = r.

(** The search ends, and finds an entry of a model of the element on the list if there is
    one. *)
Lemma extensions_walk_find get r s : rings_ok (a_comp s) -> r ∈ comp_refs (a_comp s) ->
  exists entry x, bt_mesh_model_extensions_walk acfg r (find_visitor get) (None, r) s = (Ok (entry, x), s) /\
    match entry with
    | Some k => sharing (a_comp s) r x /\ hit (a_comp s) get r x = Some k
    | None => x = r /\ forall y, sharing (a_comp s) r y -> hit (a_comp s) get r y = None
    end.
Proof.
  intros Hok Hr. unfold bt_mesh_model_extensions_walk, sharing. rewrite (bind_ok _ _ s _ s (find_visitor_run _ _ _ _)).
  set (c := a_comp s) in *. destruct (hit c get r r) as [k|] eqn:Eh; cbv beta iota; destruct (k_extensions acfg); cbn [negb].
  - rewrite (bind_ok _ _ s (model_at r c) s) by done. exists (Some k), r. split; [done|]. split; [apply on_cycle_refl|done].
  - by exists (Some k), r.
  - rewrite (bind_ok _ _ s (model_at r c) s) by done. destruct (m_next (model_at r c)) as [y|] eqn:En.
    + rewrite (bind_ok _ _ s c s) by done. destruct (cycle_first (comp_refs c) (next_of c) r Hok Hr) as (K & HK & Hend & Hfirst).
      assert (y = Nat.iter 1 (next_of c) r) as -> by (cbn; unfold next_of; by rewrite En).
      destruct (walk_loop_find get r K s Hok Hr Hend Hfirst K 0 (S (length (comp_refs c)))) as ([entry x] & E & Hf); [lia|lia|].
      exists entry, x. split; [exact E|]. apply finding_next in Hf; [|done]. fold c in Hf. destruct entry as [k|].
      * destruct Hf as (j & _ & -> & Hh). split; [by exists j|done].
      * destruct Hf as [-> Hall]. split; [done|]. intros z [k <-]. rewrite (iter_mod _ (S K)) by done.
        apply Hall. pose proof (Nat.mod_upper_bound k (S K)). lia.
    + exists None, r. split; [done|]. split; [done|]. intros y [k <-].
      assert (Nat.iter k (next_of c) r = r) as ->; [|done]. induction k as [|k IH]; [done|]. rewrite iter_S, IH.
      unfold next_of. by rewrite En.
  - exists None, r. split; [done|]. split; [done|]. by intros y ->.
Qed.

Lemma scan_spec {A} (f : A -> bool) l : forall i,
  match scan f l i with
  | Some k => exists j (x : A), k = (i + j)%nat /\ l !! j = Some x /\ f x = true
  | None => forall x : A, x ∈ l -> f x = false
  end.
Proof.
  induction l as [|x l IH]; intros i; cbn [scan]; [intros x Hx; by apply elem_of_nil in Hx|].
  destruct (f x) eqn:E; [exists 0%nat, x; split_and!; [lia|done|done]|]. specialize (IH (S i)). destruct (scan f l (S i)) as [k|].
  - destruct IH as (j & y & -> & Hj & Hf). exists (S j), y. split_and!; [lia|done|done].
  - intros y [->|Hy]%elem_of_cons; [done|by apply IH].
Qed.

Lemma model_group_get_spec m addr : is_Some (model_group_get m addr) <-> addr ∈ m_groups m.
Proof.
  unfold model_group_get. pose proof (scan_spec (fun g => g =? addr) (m_groups m) 0) as Hs. destruct (scan _ _ _) as [k|].
  - destruct Hs as (j & x & _ & Hj & ->%Z.eqb_eq). split; [intros _; by eapply list_elem_of_lookup_2|done].
  - split; [by intros [? ?]|]. intros Hin. apply Hs in Hin. by rewrite Z.eqb_refl in Hin.
Qed.

(** [r] gets what is sent to [addr]: a model of its element on its list is subscribed. *)
Definition subscribed c r addr : Prop := exists x, sharing c r x /\ same_elem c r x /\ addr ∈ m_groups (model_at x c).

Lemma find_group_spec r addr s : rings_ok (a_comp s) -> r ∈ comp_refs (a_comp s) ->
  exists entry x, bt_mesh_model_find_group acfg r addr s = (Ok (entry, x), s) /\
    (is_Some entry <-> subscribed (a_comp s) r addr) /\
    match entry with
    | Some k => sharing (a_comp s) r x /\ same_elem (a_comp s) r x /\ m_groups (model_at x (a_comp s)) !! k = Some addr
    | None => x = r
    end.
Proof.
  intros Hok Hr. destruct (extensions_walk_find (fun m => model_group_get m addr) r s Hok Hr) as (entry & x & E & Hf).
  exists entry, x. split; [exact E|]. unfold subscribed, hit, same_elem in *. destruct entry as [k|].
  - destruct Hf as [Hs Hh]. destruct (Z.eqb_spec (m_elem_idx (model_at x (a_comp s))) (m_elem_idx (model_at r (a_comp s)))) as [He|]; [|done].
    pose proof (scan_spec (fun g => g =? addr) (m_groups (model_at x (a_comp s))) 0) as Hsp. unfold model_group_get in Hh. rewrite Hh in Hsp.
    destruct Hsp as (j & y & -> & Hj & ->%Z.eqb_eq). split; [|by split_and!]. split; [intros _|done].
    exists x. split_and!; [done..|by eapply list_elem_of_lookup_2].
  - destruct Hf as [-> Hall]. split; [|done]. split; [by intros [? ?]|]. intros (y & Hs & He & Hin). specialize (Hall y Hs).
    rewrite He, Z.eqb_refl in Hall. apply model_group_get_spec in Hin as [k Hk]. congruence.
Qed.

(** ** Many calls *)

(** The calls a node makes while it starts; the errors of the relation list are not
    heeded. *)
Definition extend_calls (l : list (mod_ref * mod_ref)) : M st unit :=
  foreach (fun '(a, b) => _ ← attempt (bt_mesh_model_extend acfg a b); mret ()) l.

(** No call is made for two models of one list the second of which is right before the
    first. *)
Fixpoint timely c (l : list (mod_ref * mod_ref)) : Prop :=
  match l with
  | [] => True
  | (a, b) :: l => (same_list c a b -> a = b \/ next_of c b <> a) /\ timely (extended c a b) l
  end.

Lemma extended_keeps {B} (g : bt_mesh_model -> B) c a b x : (forall m f, g (m <| m_flags ::= f |>) = g m) ->
  (forall m n, g (m <| m_next := n |>) = g m) -> a ∈ comp_refs c -> b ∈ comp_refs c ->
  g (model_at x (extended c a b)) = g (model_at x c).
Proof.
  intros Hf Hn Ha Hb. unfold extended. repeat case_match; rewrite !model_at_set by (by rewrite ?comp_refs_set);
    repeat case_decide; by rewrite ?Hn, ?Hf.
Qed.

(** Being on one list, as an equivalence. *)
Definition linked c x y : Prop := x = y \/ (x ∈ comp_refs c /\ same_list c x y).

Lemma linked_equiv c : rings_ok c -> Equivalence (linked c).
Proof.
  intros Hok. split.
  - intros x. by left.
  - intros x y [->|[Hx Hxy]]; [by left|]. right. split; [by apply (on_cycle_in _ (next_of c) x)|by apply on_cycle_sym with (dom := comp_refs c)].
  - intros x y z [->|[Hx Hxy]]; [done|]. intros [<-|[_ Hyz]]; right; (split; [done|]); [done|by eapply on_cycle_trans].
Qed.

(** What one call does. *)
Lemma linked_extended c a b x y : rings_ok c -> a ∈ comp_refs c -> b ∈ comp_refs c ->
  (same_list c a b -> a = b \/ next_of c b <> a) ->
  linked (extended c a b) x y <-> rtsc (fun u v => linked c u v \/ (u, v) = (a, b)) x y.
Proof.
  intros Hok Ha Hb Ht. pose proof (extended_lists c a b Hok Ha Hb Ht) as He. pose proof (extended_refs c a b) as Hrefs.
  assert (rings_ok (extended c a b)) as Hok' by by apply extended_ok.
  set (R := fun u v => _). assert (forall u v, u ∈ comp_refs c -> same_list c u v -> rtsc R u v) as Hl by (intros u v ??; apply rtsc_lr; left; by right).
  assert (rtsc R a b) as Hab by (apply rtsc_lr; by right). split.
  - intros [->|[Hx Hxy]]; [done|]. rewrite Hrefs in Hx. apply He in Hxy; [|done].
    destruct Hxy as [?|[[? ?]|[? ?]]]; [by apply Hl| |].
    + transitivity a; [by apply Hl|]. transitivity b; [done|]. by apply Hl.
    + transitivity b; [by apply Hl|]. transitivity a; [by symmetry|]. by apply Hl.
  - pose proof (linked_equiv _ Hok') as Heq. apply rtsc_least; [done|]. intros u v [[->|[Hu Huv]]|[= -> ->]].
    + by left.
    + right. rewrite Hrefs. split; [done|]. apply He; [done|by left].
    + right. rewrite Hrefs. split; [done|]. apply He; [done|]. right. left. split; apply on_cycle_refl.
Qed.

(** In any case, what is on one list then is related by the lists before and the call. *)
Lemma linked_extended_sound c a b x y : rings_ok c -> a ∈ comp_refs c -> b ∈ comp_refs c ->
  linked (extended c a b) x y -> rtsc (fun u v => linked c u v \/ (u, v) = (a, b)) x y.
Proof.
  intros Hok Ha Hb. set (R := fun u v => _). assert (rings_ok (extended c a b)) as Hok' by by apply extended_ok.
  assert (rtsc R a b) as Hab by (apply rtsc_lr; by right).
  assert (forall z, z ∈ comp_refs c -> rtsc R z (next_of c z)) as Hl by (intros z Hz; apply rtsc_lr; left; right; split; [done|apply on_cycle_step]).
  intros [->|[Hx Hxy]]; [done|]. revert x y Hx Hxy. apply on_cycle_least; [exact Hok'|done|intros ? ? ? ? ?; by etransitivity|].
  intros z Hz. rewrite extended_refs in Hz. destruct (extended_next c a b Hok Ha Hb) as [[_ ->]|[_ (Ho & Ea & Eb)]]; [by apply Hl|].
  destruct (decide (z = a)) as [->|Hza]; [rewrite Ea; transitivity b; [done|by apply Hl]|].
  destruct (decide (z = b)) as [->|Hzb]; [rewrite Eb; transitivity a; [by symmetry|by apply Hl]|]. rewrite Ho by done. by apply Hl.
Qed.

Lemma extend_calls_run l : forall s, rings_ok (a_comp s) ->
  Forall (fun '(a, b) => a ∈ comp_refs (a_comp s) /\ b ∈ comp_refs (a_comp s)) l ->
  exists c rel, extend_calls l s = (Ok (), s <| a_comp := c |> <| a_rel := rel |>) /\
    rings_ok c /\ comp_refs c = comp_refs (a_comp s) /\
    (forall x, m_groups (model_at x c) = m_groups (model_at x (a_comp s)) /\
               m_elem_idx (model_at x c) = m_elem_idx (model_at x (a_comp s))) /\
    (forall x y, linked c x y -> rtsc (fun u v => linked (a_comp s) u v \/ (u, v) ∈ l) x y) /\
    (timely (a_comp s) l -> forall x y, linked c x y <-> rtsc (fun u v => linked (a_comp s) u v \/ (u, v) ∈ l) x y).
Proof.
  induction l as [|[a b] l IH]; intros s Hok Hl.
  - exists (a_comp s), (a_rel s). split; [by destruct s|]. split_and!; [done..| |]; [intros x y Hxy; apply rtsc_lr; by left|]. intros _ x y. split.
    + intros Hxy. apply rtsc_lr. by left.
    + pose proof (linked_equiv _ Hok). apply rtsc_least; [done|]. intros u v [?|Hin]; [done|by apply elem_of_nil in Hin].
  - apply Forall_cons in Hl as [[Ha Hb] Hl].
    destruct (bt_mesh_model_extend_run s a b Hok Ha Hb) as (o & rel & E & Ho).
    set (s1 := s <| a_comp := extended (a_comp s) a b |> <| a_rel := rel |>) in *.
    destruct (IH s1) as (c & rel' & E' & Hok' & Hrefs & Hkeep & Hsound & Hlists); [by apply extended_ok|cbn; by rewrite extended_refs|].
    cbn in Hrefs. rewrite extended_refs in Hrefs. exists c, rel'. split_and!; [|done|done| | |].
    + unfold extend_calls in *. cbn [foreach]. rewrite (bind_ok _ _ s () s1); [exact E'|]. unfold attempt, mbind, M_bind. rewrite E.
      by destruct o.
    + intros x. destruct (Hkeep x) as [-> ->]. cbn. by rewrite !(extended_keeps _ _ a b).
    + intros x y Hxy. apply Hsound in Hxy. revert Hxy. apply rtsc_least; [apply rtsc_equivalence|]. intros u v [Huv|Huv].
      * apply (linked_extended_sound (a_comp s) a b u v Hok Ha Hb) in Huv. revert Huv. apply rtsc_least; [apply rtsc_equivalence|].
        intros ? ? [?|[= -> ->]]; apply rtsc_lr; [by left|]. right. by left.
      * apply rtsc_lr. right. by right.
    + intros [Ht Htl] x y. rewrite (Hlists Htl x y). cbn [a_comp s1].
      assert (forall u v, linked (extended (a_comp s) a b) u v <-> rtsc (fun u v => linked (a_comp s) u v \/ (u, v) = (a, b)) u v) as He
        by (intros; by apply linked_extended).
      split; (apply rtsc_least; [apply rtsc_equivalence|]); intros u v [Huv|Huv].
      * apply He in Huv. revert Huv. apply rtsc_least; [apply rtsc_equivalence|]. intros ? ? [?|[= -> ->]]; apply rtsc_lr; [by left|].
        right. by left.
      * apply rtsc_lr. right. by right.
      * apply rtsc_lr. left. apply He, rtsc_lr. by left.
      * apply elem_of_cons in Huv as [[= -> ->]|Hin]; apply rtsc_lr; [|by right]. left. apply He, rtsc_lr. by right.
Qed.

Lemma alone_rings c : (forall r, r ∈ comp_refs c -> m_next (model_at r c) = None) -> rings_ok c.
Proof.
  intros Hn. assert (forall x, x ∈ comp_refs c -> next_of c x = x) as E by (intros x Hx; unfold next_of; by rewrite Hn).
  split; [intros x Hx; by rewrite E|intros x y Hx Hy; by rewrite !E].
Qed.

Lemma alone_linked c x y : (forall r, r ∈ comp_refs c -> m_next (model_at r c) = None) -> linked c x y -> x = y.
Proof.
  intros Hn [?|[Hx [k <-]]]; [done|]. induction k as [|k IH]; [done|]. rewrite iter_S, <-IH.
  unfold next_of. by rewrite Hn.
Qed.

(** C9: Models that extend one another share their subscriptions.  Whatever models a node
    declares to extend which others, in whatever order and with whatever repetitions: the
    calls of [bt_mesh_model_extend] come to an end, the lists that the models are kept on are
    circles, so that [bt_mesh_model_find_group] comes to an end too, and an address it finds
    from a model is a subscription of a model of the same element that is related to it, by a
    chain of extensions in either direction.  If moreover no call is made for two models of
    one list the second of which is right before the first there ([timely]), every such
    subscription is found; without that condition it need not be. *)
Theorem extensions_share l s :
  k_extensions acfg = true ->
  (forall r, r ∈ comp_refs (a_comp s) -> m_next (model_at r (a_comp s)) = None) ->
  Forall (fun '(a, b) => a ∈ comp_refs (a_comp s) /\ b ∈ comp_refs (a_comp s)) l ->
  let sharing_sub r addr := exists y, rtsc (fun u v => (u, v) ∈ l) r y /\ same_elem (a_comp s) r y /\
                                      addr ∈ m_groups (model_at y (a_comp s)) in
  exists s', extend_calls l s = (Ok (), s') /\ rings_ok (a_comp s') /\
    forall r addr, r ∈ comp_refs (a_comp s) ->
      exists entry x, bt_mesh_model_find_group acfg r addr s' = (Ok (entry, x), s') /\
        (is_Some entry -> sharing_sub r addr) /\ (timely (a_comp s) l -> sharing_sub r addr -> is_Some entry).
Proof.
  intros Hext Hn Hl sharing_sub.
  destruct (extend_calls_run l s (alone_rings _ Hn) Hl) as (c & rel & E & Hok & Hrefs & Hkeep & Hsound & Hlinks).
  eexists. split; [exact E|]. split; [exact Hok|]. intros r addr Hr. rewrite <-Hrefs in Hr.
  set (s' := s <| a_comp := c |> <| a_rel := rel |>). destruct (find_group_spec r addr s' Hok Hr) as (entry & x & Ef & Hs & _).
  exists entry, x. split; [exact Ef|]. rewrite Hs. unfold subscribed, sharing, sharing_sub, same_elem. rewrite Hext. change (a_comp s') with c.
  assert (forall y, rtsc (fun u v => linked (a_comp s) u v \/ (u, v) ∈ l) r y <-> rtsc (fun u v => (u, v) ∈ l) r y) as El.
  { intros y. split; (apply rtsc_least; [apply rtsc_equivalence|]).
    - intros u v [Huv|Huv]; [|by apply rtsc_lr]. by rewrite (alone_linked _ _ _ Hn Huv).
    - intros u v Huv. apply rtsc_lr. by right. }
  split; [|intros Ht]; intros (y & Hy & He & Hg); exists y; destruct (Hkeep y) as [Eg Ee]; destruct (Hkeep r) as [_ Er].
  - rewrite <-Eg, <-Ee, <-Er. split; [|done]. apply El, Hsound. right. by split.
  - rewrite Eg, Ee, Er. split; [|done]. apply El, (Hlinks Ht) in Hy as [->|[_ ?]]; [apply on_cycle_refl|done].
Qed.

End Extensions.
