(* ===== verification/AccessRecv.v ===== *)
(** Messages in the access layer: the opcode at their head, and which models of a node get
    a message. *)

From S2P Require Import Prelude Byteorder BufSimple MeshDefs CryptoIf Crypto Va Net AppKeys Transport TransRx.
From S2P Require Import Cycles Access AccessExt.

(** * Opcodes *)

(** One octet but 0x7f, two octets of which the first starts with the bits 10, or three of
    which the first starts with 11. *)
Definition opcode_ok (op : Z) : Prop := 0 <= op < 0x7f \/ 0x8000 <= op < 0xc000 \/ 0xc00000 <= op < 0x1000000.

(** How an opcode is written: two octets in network order, the company identifier of
    three as a little-endian number. *)
Definition opcode_bytes (op : Z) : list Z :=
  if op <? 0x100 then [op]
  else if op <? 0x10000 then [op / 256; op mod 256]
  else [op / 65536; op mod 256; op / 256 mod 256].

Lemma op_len_cases op : BT_MESH_MODEL_OP_LEN op = if op <? 0x100 then 1 else if op <? 0x10000 then 2 else 3.
Proof. unfold BT_MESH_MODEL_OP_LEN. repeat case_match; bool_to_prop; lia. Qed.

Lemma opcode_bytes_ok op : opcode_ok op -> Forall is_byte (opcode_bytes op).
Proof.
  unfold opcode_ok, opcode_bytes. intros Hop. pose proof (Z.mod_pos_bound op 256). pose proof (Z.mod_pos_bound (op / 256) 256).
  repeat case_match; bool_to_prop; repeat (apply Forall_cons; split); try done; unfold is_byte; try lia.
  - split; [apply Z.div_pos; lia|apply Z.div_lt_upper_bound; lia].
  - split; [apply Z.div_pos; lia|apply Z.div_lt_upper_bound; lia].
Qed.

Lemma opcode_bytes_length op : (1 <= length (opcode_bytes op) <= 3)%nat.
Proof. unfold opcode_bytes. repeat case_match; cbn; lia. Qed.

Lemma init_wf msg : wf msg -> wf (bt_buf_simple_init 0 msg) /\ content (bt_buf_simple_init 0 msg) = [].
Proof. intros []. split; [split; cbn; try lia; done|done]. Qed.

Lemma u8_div_256 x : 0 <= x < 65536 -> u8 (Z.shiftr x 8) = x / 256.
Proof.
  intros Hx. rewrite Z.shiftr_div_pow2 by lia. apply u8_id. split; [apply Z.div_pos; lia|apply Z.div_lt_upper_bound; lia].
Qed.

Lemma msg_init_run msg op : wf msg -> opcode_ok op -> zlen (opcode_bytes op) <= b_size msg ->
  exists msg', bt_mesh_model_msg_init msg op = Some msg' /\ wf msg' /\ content msg' = opcode_bytes op /\
    b_data msg' = 0 /\ b_size msg' = b_size msg.
Proof.
  intros Hw Hop Hroom. destruct (init_wf msg Hw) as [Hi Hc]. unfold bt_mesh_model_msg_init. rewrite op_len_cases.
  pose proof (opcode_bytes_ok op Hop) as Hb. unfold opcode_ok, opcode_bytes in *.
  destruct (Z.ltb_spec op 0x100); [|destruct (Z.ltb_spec op 0x10000)]; cbn [Z.eqb Pos.eqb]; cbv zeta.
  - destruct (add_u8_run (bt_buf_simple_init 0 msg) op) as (b & E & Hwb & Hcb & Hd & _ & Hs);
      [done|by inversion Hb|cbn in *; lia|]. rewrite Hc in Hcb. by exists b.
  - destruct (append_run (bt_buf_simple_add_be16 (bt_buf_simple_init 0 msg) op) (bt_buf_simple_init 0 msg) [op / 256; op mod 256])
      as (b & E & Hwb & Hcb & Hd & _ & Hs); [done|done|cbn in *; lia| |rewrite Hc in Hcb; by exists b].
    unfold bt_buf_simple_add_be16, add_put. rewrite u16_id by lia. unfold sys_put_be16. rewrite u8_div_256 by lia. done.
  - assert (Z.land (Z.shiftr op 16) 0xff = op / 65536) as ->.
    { change 0xff with (Z.ones 8). rewrite Z.land_ones, Z.shiftr_div_pow2 by lia. apply Z.mod_small.
      split; [apply Z.div_pos; lia|apply Z.div_lt_upper_bound; lia]. }
    assert (Z.land op 0xffff = op mod 65536) as -> by (change 0xffff with (Z.ones 16); by rewrite Z.land_ones).
    apply Forall_cons in Hb as [Hb1 Hb]. cbn in Hroom.
    destruct (add_u8_run (bt_buf_simple_init 0 msg) (op / 65536)) as (b & E & Hwb & Hcb & Hd & Hl & Hs); [done|done|cbn; lia|].
    rewrite E. cbn in Hd, Hl, Hs.
    destruct (append_run (bt_buf_simple_add_le16 b (op mod 65536)) b [op mod 256; op / 256 mod 256])
      as (b' & E' & Hwb' & Hcb' & Hd' & _ & Hs'); [done|done|cbn; lia| |].
    + unfold bt_buf_simple_add_le16, add_put. pose proof (Z.mod_pos_bound op 65536). rewrite u16_id by lia.
      unfold sys_put_le16. rewrite u8_div_256 by lia. unfold u8.
      assert (op mod 65536 / 256 = op / 256 mod 256) as ->.
      { change 65536 with (256 * 256). rewrite Z.rem_mul_r by lia. rewrite Z.mul_comm, Z.div_add by lia. rewrite (Z.div_small (op mod 256)); [lia|].
        apply Z.mod_pos_bound. lia. }
      by rewrite <-(Znumtheory.Zmod_div_mod 256 65536) by (lia || by exists 256).
    + exists b'. split_and!; [done|done| |lia|lia]. rewrite Hcb', Hcb, Hc. done.
Qed.

Lemma shiftr6 x : 0 <= x -> Z.shiftr x 6 = x / 64.
Proof. intros. by rewrite Z.shiftr_div_pow2. Qed.

Lemma pulled_twice b m n : wf b -> 0 <= m -> 0 <= n -> m <= b_len b -> pulled (pulled b m) n = pulled b (m + n).
Proof.
  intros [] Hm Hn Hl. unfold pulled, UINT16_MAX in *. cbn. rewrite (u16_id (b_len b - m)) by lia.
  unfold set_data, set_len. cbn. f_equal; [lia|f_equal; lia].
Qed.

Lemma bind_crash {S A B} (m : M S A) (f : A -> M S B) s : (m s).1 = Crash -> ((m ≫= f) s).1 = Crash.
Proof. unfold mbind, M_bind. destruct (m s) as [[a|e|] s']; cbn; congruence. Qed.

Section Recv.

Context {X W : Type} `{MeshCrypto W}.
Context (acfg : access_cfg).
Notation st := (access X W).
Context (app : app_ops st).
Implicit Types (s : st).

Lemma get_opcode_run buf op payload s : wf buf -> opcode_ok op -> content buf = opcode_bytes op ++ payload ->
  get_opcode buf s = (Ok (op, pulled buf (zlen (opcode_bytes op))), s).
Proof.
  intros Hw Hop Hc. pose proof (opcode_bytes_ok op Hop) as Hb. pose proof (content_length buf Hw) as Hl. rewrite Hc, length_app in Hl.
  unfold get_opcode, opcode_ok, opcode_bytes in *.
  destruct (Z.ltb_spec op 0x100); [|destruct (Z.ltb_spec op 0x10000)].
  - destruct (pull_run buf 1 [op] payload Hw Hc eq_refl) as (Er & _). rewrite (bind_ok _ _ s [op] s) by (unfold checked; by rewrite Er).
    change ([op] !!! 0%nat) with op. cbv zeta. rewrite shiftr6 by lia.
    assert (op / 64 < 2) by (apply Z.div_lt_upper_bound; lia). rewrite (proj2 (Z.ltb_lt _ _)) by done.
    rewrite (proj2 (Z.eqb_neq _ _)) by lia. unfold checked. by rewrite (pull_u8_run _ op payload).
  - set (hi := op / 256) in *. set (lo := op mod 256) in *. assert (op = hi * 256 + lo) as Eop by (pose proof (Z.div_mod op 256); lia).
    assert (0 <= lo < 256) by (apply Z.mod_pos_bound; lia).
    destruct (pull_run buf 1 [hi] (lo :: payload) Hw Hc eq_refl) as (Er & _). rewrite (bind_ok _ _ s [hi] s) by (unfold checked; by rewrite Er).
    change ([hi] !!! 0%nat) with hi. cbv zeta. rewrite shiftr6 by lia.
    assert (hi / 64 = 2) as -> by (symmetry; apply Z.div_unique with (hi - 128); lia). cbn [Z.ltb Z.eqb Z.compare Pos.compare Pos.compare_cont Pos.eqb].
    cbn in Hl. rewrite (proj2 (Z.ltb_ge _ _)) by lia. unfold checked, bt_buf_simple_pull_be16.
    rewrite (pull_get_run buf 2 _ [hi; lo] payload) by done. rewrite get_be16_val by (unfold is_byte; lia). by rewrite <-Eop.
  - set (b0 := op / 65536) in *. set (b1 := op mod 256) in *. set (b2 := op / 256 mod 256) in *.
    assert (op = b0 * 65536 + (b2 * 256 + b1)) as Eop.
    { unfold b0, b1, b2. pose proof (Z.div_mod op 256). pose proof (Z.div_mod (op / 256) 256). change 65536 with (256 * 256).
      rewrite <-Z.div_div by lia. lia. }
    assert (0 <= b1 < 256) by (apply Z.mod_pos_bound; lia). assert (0 <= b2 < 256) by (apply Z.mod_pos_bound; lia).
    destruct (pull_run buf 1 [b0] (b1 :: b2 :: payload) Hw Hc eq_refl) as (Er & _ & Hw1 & Hc1 & _).
    rewrite (bind_ok _ _ s [b0] s) by (unfold checked; by rewrite Er).
    change ([b0] !!! 0%nat) with b0. cbv zeta. rewrite shiftr6 by lia.
    assert (b0 / 64 = 3) as -> by (symmetry; apply Z.div_unique with (b0 - 192); lia). cbn [Z.ltb Z.eqb Z.compare Pos.compare Pos.compare_cont Pos.eqb].
    cbn in Hl. rewrite (proj2 (Z.ltb_ge _ _)) by lia.
    rewrite (bind_ok _ _ s (b0, pulled buf 1) s) by (unfold checked; by rewrite (pull_u8_run _ b0 (b1 :: b2 :: payload))).
    rewrite (bind_ok _ _ s (b2 * 256 + b1, pulled (pulled buf 1) 2) s).
    2: { unfold checked, bt_buf_simple_pull_le16. rewrite (pull_get_run _ 2 _ [b1; b2] payload) by done.
         by rewrite get_le16_val by (unfold is_byte; lia). }
    unfold mret, M_ret. do 3 f_equal.
    + rewrite lor_shl_add by lia. change (2 ^ 16) with 65536. lia.
    + apply (pulled_twice buf 1 2); [done|done|done|]. clear -Hl. lia.
Qed.

(** * Who gets a message

    Registered and provisioned compositions: a model knows its element, and the elements
    have the addresses from that of the node on. *)

Definition registered (c : bt_mesh_comp) : Prop :=
  forall r, r ∈ comp_refs c -> m_elem_idx (model_at r c) = Z.of_nat (r_elem r).
Definition addressed (c : bt_mesh_comp) : Prop :=
  exists a, 0 < a /\ a + zlen (co_elem c) <= 0x8000 /\ forall i, (i < length (co_elem c))%nat -> e_addr (elem_at i c) = a + Z.of_nat i.

(** [o] is the first entry of a list of opcodes for [op]. *)
Definition first_op (l : list bt_mesh_model_op) (op : Z) (o : bt_mesh_model_op) : Prop :=
  exists l1 l2, l = l1 ++ o :: l2 /\ op_opcode o = op /\ Forall (fun x => op_opcode x <> op) l1.

(** With [CONFIG_BT_MESH_MODEL_VND_MSG_CID_FORCE] a vendor model has messages of its own
    company only. *)
Definition eligible (m : bt_mesh_model) (op : Z) : Prop :=
  k_vnd_cid_force acfg = true -> 0x10000 <= op -> op mod 65536 = vnd_company (m_id m).

Definition bound_to (m : bt_mesh_model) (app_idx : Z) : Prop :=
  app_idx ∈ m_keys m \/
  (BT_MESH_KEY_DEV_ANY ∈ m_keys m /\ (app_idx = BT_MESH_KEY_DEV_LOCAL \/ app_idx = BT_MESH_KEY_DEV_REMOTE)).

(** A model of the element whose subscriptions [r] shares has the label. *)
Definition labelled c r (uuid : option nat) : Prop :=
  exists x, sharing acfg c r x /\ same_elem c r x /\ uuid ∈ m_uuids (model_at x c).

(** The message is for the model [r]: it is sent to the address of its element, to an
    address it is subscribed to, or to a fixed group of the node, of which the models of
    the primary element are. *)
Definition destined c r (dst : Z) (uuid : option nat) : Prop :=
  if BT_MESH_ADDR_IS_UNICAST dst then e_addr (elem_at (r_elem r) c) = dst
  else if BT_MESH_ADDR_IS_VIRTUAL dst then labelled c r uuid
  else if BT_MESH_ADDR_IS_GROUP dst then subscribed acfg c r dst
  else if BT_MESH_ADDR_IS_FIXED_GROUP dst then r_elem r = 0%nat \/ subscribed acfg c r dst
  else r_elem r = 0%nat.

(** Of element [i] the model [r] gets the message, as its entry [o]: the first of the
    models that know the opcode, if it is bound to the key and the message is for it and
    long enough. *)
Record gets_it c (ctx : bt_mesh_msg_ctx) (op len : Z) (i : nat) (o : bt_mesh_model_op) (r : mod_ref) : Prop := {
  gi_elem : r_elem r = i;
  gi_vnd : r_vnd r = (0x10000 <=? op);
  gi_model : r ∈ comp_refs c;
  gi_first : forall x, x ∈ comp_refs c -> r_elem x = i -> r_vnd x = r_vnd r -> (r_idx x < r_idx r)%nat ->
    eligible (model_at x c) op -> Forall (fun y => op_opcode y <> op) (m_op (model_at x c));
  gi_eligible : eligible (model_at r c) op;
  gi_op : first_op (m_op (model_at r c)) op o;
  gi_key : bound_to (model_at r c) (x_app_idx ctx);
  gi_dst : destined c r (x_recv_dst ctx) (x_uuid ctx);
  gi_len : op_len_ok o len = true
}.

(** ** The steps of the program *)

Lemma find_first_op l op : match List.find (fun o => op_opcode o =? op) l with
  | Some o => first_op l op o
  | None => Forall (fun x => op_opcode x <> op) l
  end.
Proof.
  induction l as [|x l IH]; [constructor|]. cbn [List.find]. destruct (Z.eqb_spec (op_opcode x) op) as [E|E].
  - exists [], l. split_and!; [done|done|constructor].
  - destruct (List.find _ l) as [o|]; [|by constructor]. destruct IH as (l1 & l2 & -> & Ho & Hl).
    exists (x :: l1), l2. split_and!; [done|done|by constructor].
Qed.

Lemma first_op_unique l op o o' : first_op l op o -> first_op l op o' -> o = o'.
Proof.
  intros (l1 & l2 & -> & Ho & Hl). revert l2. induction l1 as [|x l1 IH]; intros l2 (k1 & k2 & E & Ho' & Hk).
  - destruct k1 as [|y k1]; [by injection E|]. injection E as <- _. by apply Forall_cons in Hk as [? _].
  - apply Forall_cons in Hl as [Hx Hl]. destruct k1 as [|y k1]; [by injection E as -> _|]. injection E as <- E.
    apply Forall_cons in Hk as [_ Hk]. apply (IH Hl l2). by exists k1, k2.
Qed.

Lemma first_op_some l op o : first_op l op o -> ~ Forall (fun x => op_opcode x <> op) l.
Proof. intros (l1 & l2 & -> & Ho & _). rewrite Forall_app, Forall_cons. naive_solver. Qed.

Lemma scan_skips op (m : bt_mesh_model) : opcode_ok op ->
  k_vnd_cid_force acfg && negb ((if negb (BT_MESH_MODEL_OP_LEN op <? 3) then u16 (Z.land op 0xffff) else UINT32_MAX) =? UINT32_MAX) &&
  negb ((if negb (BT_MESH_MODEL_OP_LEN op <? 3) then u16 (Z.land op 0xffff) else UINT32_MAX) =? vnd_company (m_id m)) = false <->
  eligible m op.
Proof.
  intros Hop. unfold eligible. rewrite op_len_cases. change 0xffff with (Z.ones 16). rewrite Z.land_ones by lia.
  change (2 ^ 16) with 65536. pose proof (Z.mod_pos_bound op 65536) as Hm.
  destruct (k_vnd_cid_force acfg); cbn [andb]; [|naive_solver].
  destruct (Z.ltb_spec op 0x100); [cbn; split; intros; [lia|done]|]. destruct (Z.ltb_spec op 0x10000); [cbn; split; intros; [lia|done]|].
  cbn [Z.ltb Z.compare Pos.compare Pos.compare_cont negb]. rewrite u16_id by lia. unfold UINT32_MAX.
  rewrite (proj2 (Z.eqb_neq (op mod 65536) _)) by lia. cbn [negb andb]. rewrite negb_false_iff, Z.eqb_eq. naive_solver.
Qed.

Lemma find_op_scan_spec op cid (P : bt_mesh_model -> Prop) l : 
  (forall m, k_vnd_cid_force acfg && negb (cid =? UINT32_MAX) && negb (cid =? vnd_company (m_id m)) = false <-> P m) ->
  forall i, match find_op_scan acfg op cid l i with
  | Some (o, k) => exists j m, k = (i + j)%nat /\ l !! j = Some m /\ P m /\ first_op (m_op m) op o /\
      forall j' m', (j' < j)%nat -> l !! j' = Some m' -> P m' -> Forall (fun x => op_opcode x <> op) (m_op m')
  | None => forall m, m ∈ l -> P m -> Forall (fun x => op_opcode x <> op) (m_op m)
  end.
Proof.
  intros HP. induction l as [|m l IH]; intros i; cbn [find_op_scan]; [intros m Hm; by apply elem_of_nil in Hm|].
  assert ((P m -> Forall (fun x => op_opcode x <> op) (m_op m)) ->
    match find_op_scan acfg op cid l (S i) with
    | Some (o, k) => exists j m', k = (i + j)%nat /\ (m :: l) !! j = Some m' /\ P m' /\ first_op (m_op m') op o /\
        forall j' m', (j' < j)%nat -> (m :: l) !! j' = Some m' -> P m' -> Forall (fun x => op_opcode x <> op) (m_op m')
    | None => forall m', m' ∈ m :: l -> P m' -> Forall (fun x => op_opcode x <> op) (m_op m')
    end) as Hskip.
  { intros Hm. specialize (IH (S i)). destruct (find_op_scan acfg op cid l (S i)) as [[o k]|].
    - destruct IH as (j & m' & -> & Hj & HPm & Ho & Hall). exists (S j), m'. split_and!; [lia|done|done|done|].
      intros [|j'] m'' Hj' Hl; [by injection Hl as <-|]. apply Hall with j'; [lia|done].
    - intros m' [->|Hin]%elem_of_cons; [done|by apply IH]. }
  specialize (HP m). destruct (_ && _ && _) eqn:E.
  - apply Hskip. intros Hm. by apply HP in Hm.
  - pose proof (find_first_op (m_op m) op) as Hf. destruct (List.find _ _) as [o|].
    + exists 0%nat, m. split_and!; [lia|done|by apply HP|done|]. intros j' m' Hj'. lia.
    + by apply Hskip.
Qed.

Lemma ref_lookup c r : r ∈ comp_refs c <-> (r_elem r < length (co_elem c))%nat /\
  models_of (r_vnd r) (elem_at (r_elem r) c) !! r_idx r = Some (model_at r c).
Proof.
  rewrite elem_of_comp_refs. split.
  - intros [m Hm]. rewrite (model_at_lookup _ _ _ Hm). unfold lookup_model in Hm. apply bind_Some in Hm as (e & He & Hm).
    split; [by apply lookup_lt_Some in He|]. unfold elem_at. by rewrite (list_lookup_total_correct _ _ _ He).
  - intros [Hlt Hm]. apply lookup_lt_is_Some in Hlt as [e He]. exists (model_at r c). unfold lookup_model, elem_at in *.
    rewrite He. rewrite (list_lookup_total_correct _ _ _ He) in Hm. done.
Qed.

(** The first model of element [i] that knows the opcode. *)
Definition knows_first c op i o r : Prop :=
  r_elem r = i /\ r_vnd r = (0x10000 <=? op) /\ r ∈ comp_refs c /\
  (forall x, x ∈ comp_refs c -> r_elem x = i -> r_vnd x = r_vnd r -> (r_idx x < r_idx r)%nat ->
     eligible (model_at x c) op -> Forall (fun y => op_opcode y <> op) (m_op (model_at x c))) /\
  eligible (model_at r c) op /\ first_op (m_op (model_at r c)) op o.

Lemma find_op_spec c op i : opcode_ok op -> (i < length (co_elem c))%nat ->
  match find_op acfg c i op with
  | Some (o, r) => knows_first c op i o r
  | None => forall x, x ∈ comp_refs c -> r_elem x = i -> r_vnd x = (0x10000 <=? op) -> eligible (model_at x c) op ->
      Forall (fun y => op_opcode y <> op) (m_op (model_at x c))
  end.
Proof.
  intros Hop Hi. assert (negb (BT_MESH_MODEL_OP_LEN op <? 3) = (0x10000 <=? op)) as Hv.
  { rewrite op_len_cases. repeat case_match; bool_to_prop; cbn; symmetry; (apply Z.leb_le || apply Z.leb_gt); lia. }
  unfold find_op. pose proof (scan_skips op) as Hskip. rewrite Hv in *. set (cid := if 0x10000 <=? op then _ else _) in *.
  pose proof (find_op_scan_spec op cid (fun m => eligible m op) (models_of (0x10000 <=? op) (elem_at i c))
    (fun m => Hskip m Hop) 0) as Hs. cbv zeta. destruct (find_op_scan _ _ _ _ _) as [[o k]|]; cbn.
  - destruct Hs as (j & m & -> & Hj & He & Ho & Hall). cbn. set (r := mk_ref i (0x10000 <=? op) j).
    assert (r ∈ comp_refs c /\ model_at r c = m) as [Hr Em].
    { assert (model_at r c = m) as Em by (unfold model_at; cbn; by apply list_lookup_total_correct).
      split; [|done]. apply ref_lookup. rewrite Em. done. }
    unfold knows_first. rewrite Em. split_and!; [done|done|done| |done|done]. intros x Hx Ex Ev Hlt. apply ref_lookup in Hx as [_ Hx].
    rewrite Ex, Ev in Hx. by apply (Hall (r_idx x)).
  - intros x Hx Ex Ev. apply ref_lookup in Hx as [_ Hx]. rewrite Ex, Ev in Hx. apply Hs. by eapply list_elem_of_lookup_2.
Qed.

Lemma knows_first_unique c op i o r o' r' : knows_first c op i o r -> knows_first c op i o' r' -> o = o' /\ r = r'.
Proof.
  intros (E1 & E2 & E3 & E4 & E5 & E6) (F1 & F2 & F3 & F4 & F5 & F6). assert (r = r') as <-.
  { destruct (lt_eq_lt_dec (r_idx r) (r_idx r')) as [[Hlt|Heq]|Hlt].
    - exfalso. apply (first_op_some _ _ _ E6). apply F4; [done|done|congruence|done|done].
    - destruct r, r'. cbn in *. congruence.
    - exfalso. apply (first_op_some _ _ _ F6). apply E4; [done|done|congruence|done|done]. }
  split; [|done]. by eapply first_op_unique.
Qed.

Lemma has_key_spec m k : bt_mesh_model_has_key m k = true <-> bound_to m k.
Proof.
  unfold bt_mesh_model_has_key, bound_to, BT_MESH_IS_DEV_KEY. rewrite existsb_exists. split.
  - intros (x & Hin%list_elem_of_In & Hx). rewrite orb_true_iff, andb_true_iff, orb_true_iff, !Z.eqb_eq in Hx.
    destruct Hx as [->|[-> ?]]; [by left|by right].
  - intros [Hin|[Hin Hk]]; (eexists; split; [apply list_elem_of_In; exact Hin|]);
      rewrite orb_true_iff, andb_true_iff, orb_true_iff, !Z.eqb_eq; [by left|by right].
Qed.

Lemma model_uuid_get_spec m u : is_Some (model_uuid_get m (Some u)) <-> Some u ∈ m_uuids m.
Proof.
  unfold model_uuid_get. pose proof (scan_spec (fun x => bool_decide (x = Some u) &&
    negb (bool_decide (Some u = None) && bool_decide (model_group_get m BT_MESH_ADDR_UNASSIGNED = None))) (m_uuids m) 0) as Hs.
  destruct (scan _ _ _) as [k|].
  - destruct Hs as (j & x & _ & Hj & [Hx%bool_decide_eq_true _]%andb_true_iff). subst x.
    split; [intros _; by eapply list_elem_of_lookup_2|done].
  - split; [by intros [? ?]|]. intros Hin. apply Hs in Hin. by rewrite bool_decide_true in Hin.
Qed.

Lemma find_uuid_spec r u s : rings_ok (a_comp s) -> r ∈ comp_refs (a_comp s) ->
  exists entry x, bt_mesh_model_find_uuid acfg r (Some u) s = (Ok (entry, x), s) /\
    (is_Some entry <-> labelled (a_comp s) r (Some u)).
Proof.
  intros Hok Hr. destruct (extensions_walk_find acfg (fun m => model_uuid_get m (Some u)) r s Hok Hr) as (entry & x & E & Hf).
  exists entry, x. split; [exact E|]. unfold labelled, hit, same_elem in *. destruct entry as [k|].
  - destruct Hf as [Hs Hh]. split; [intros _|done].
    destruct (Z.eqb_spec (m_elem_idx (model_at x (a_comp s))) (m_elem_idx (model_at r (a_comp s)))); [|done].
    exists x. split_and!; [done..|]. apply model_uuid_get_spec. by exists k.
  - destruct Hf as [-> Hall]. split; [by intros [? ?]|]. intros (y & Hs & He & Hin). specialize (Hall y Hs).
    rewrite He, Z.eqb_refl in Hall. apply model_uuid_get_spec in Hin as [k Hk]. congruence.
Qed.

Lemma model_has_dst_run r dst uuid s : rings_ok (a_comp s) -> registered (a_comp s) -> r ∈ comp_refs (a_comp s) ->
  (BT_MESH_ADDR_IS_VIRTUAL dst = true -> is_Some uuid) ->
  exists b : bool, model_has_dst acfg r dst uuid s = (Ok b, s) /\ (b = true <-> destined (a_comp s) r dst uuid).
Proof.
  intros Hok Hreg Hr Hu. unfold model_has_dst, destined. rewrite (bind_ok _ _ s (model_at r (a_comp s)) s) by done.
  rewrite (Hreg r Hr). destruct (BT_MESH_ADDR_IS_UNICAST dst).
  { unfold model_addr. eexists. split; [done|]. cbv beta. rewrite (Hreg r Hr), Nat2Z.id. apply Z.eqb_eq. }
  destruct (BT_MESH_ADDR_IS_VIRTUAL dst).
  { destruct Hu as [u ->]; [done|]. destruct (find_uuid_spec r u s Hok Hr) as (entry & x & E & Hs).
    rewrite (bind_ok _ _ _ _ _ E). eexists. split; [done|]. by rewrite bool_decide_eq_true. }
  destruct (find_group_spec acfg r dst s Hok Hr) as (entry & x & E & Hs & _).
  destruct (BT_MESH_ADDR_IS_GROUP dst); cbn [orb].
  { rewrite (bind_ok _ _ _ _ _ E). eexists. split; [done|]. by rewrite bool_decide_eq_true. }
  destruct (BT_MESH_ADDR_IS_FIXED_GROUP dst); cbn [andb].
  - destruct (Z.eqb_spec (Z.of_nat (r_elem r)) 0) as [E0|E0]; cbn [negb].
    + exists true. split; [done|]. split; [intros _; left; lia|done].
    + rewrite (bind_ok _ _ _ _ _ E). eexists. split; [done|]. rewrite bool_decide_eq_true, Hs. split; [by right|].
      intros [?|?]; [lia|done].
  - eexists. split; [done|]. rewrite Z.eqb_eq. lia.
Qed.

(** What handlers do not change of the composition: the elements, the lists the models are
    on and their places.  They may change the keys and subscriptions of models. *)
Record same_elems (c c' : bt_mesh_comp) : Prop := {
  se_length : length (co_elem c') = length (co_elem c);
  se_addr : forall i, e_addr (elem_at i c') = e_addr (elem_at i c);
  se_rings : rings_ok c -> rings_ok c';
  se_reg : registered c -> registered c'
}.
Lemma same_elems_refl c : same_elems c c.
Proof. by split. Qed.
(** A handler may change the keys and subscriptions of a model. *)
Lemma same_elems_set r f c : r ∈ comp_refs c -> (forall m, m_next (f m) = m_next m) -> (forall m, m_elem_idx (f m) = m_elem_idx m) ->
  same_elems c (set_model r f c).
Proof.
  intros Hr Hn He. split.
  - unfold set_model. cbn. apply length_alter.
  - intros i. unfold elem_at, set_model. cbn. rewrite !list_lookup_total_alt. destruct (decide (i = r_elem r)) as [->|Hi].
    + rewrite list_lookup_alter_eq. destruct (co_elem c !! r_elem r); [|done]. cbn. unfold on_models. by destruct (r_vnd r).
    + by rewrite list_lookup_alter_ne.
  - intros Hok. unfold rings_ok. rewrite comp_refs_set. apply (moves_ext _ (next_of c)); [|done]. intros x. unfold next_of.
    rewrite model_at_set by done. case_decide; [by rewrite Hn|done].
  - intros Hreg x Hx. rewrite comp_refs_set in Hx. rewrite model_at_set by done. case_decide; [rewrite He|]; by apply Hreg.
Qed.
(** The handlers leave the context and the bytes of the message alone, and install no
    callback for messages. *)
Definition handlers_keep : Prop := forall f r ctx buf s e c b s', func app f r ctx buf s = Some (e, c, b, s') ->
  c = ctx /\ b_store b = b_store buf /\ b_size b = b_size buf /\ same_elems (a_comp s) (a_comp s') /\ a_msg_cb s' = a_msg_cb s.

(** The context as a handler sees it. *)
Definition called (ctx : bt_mesh_msg_ctx) : bt_mesh_msg_ctx :=
  if k_delayable_msg_ctx acfg then ctx <| x_rnd_delay := true |> else ctx.

(** The message is offered to the elements of a list, one after the other: the recipient of
    an element, if there is one in the state that the handlers before have left, is called;
    whether one of them answered 0, or [None] for a fault of a handler. *)
Inductive served (ctx : bt_mesh_msg_ctx) (op : Z) (buf : bt_buf_simple) : list nat -> st -> option (bool * st) -> Prop :=
| served_end s : served ctx op buf [] s (Some (false, s))
| served_none i els s res : (forall o r, ~ gets_it (a_comp s) ctx op (b_len buf) i o r) -> served ctx op buf els s res ->
    served ctx op buf (i :: els) s res
| served_call i els s o r e c b s1 res : gets_it (a_comp s) ctx op (b_len buf) i o r ->
    func app (op_func o) r (called ctx) buf s = Some (e, c, b, s1) -> served ctx op buf els s1 res ->
    served ctx op buf (i :: els) s ('(ok, s') ← res; Some ((e =? 0) || ok, s'))
| served_fault i els s o r : gets_it (a_comp s) ctx op (b_len buf) i o r -> func app (op_func o) r (called ctx) buf s = None ->
    served ctx op buf (i :: els) s None.

(** Who gets the message in element [i], as the program finds out. *)
Definition recipient s (ctx : bt_mesh_msg_ctx) (op len : Z) (i : nat) : option (bt_mesh_model_op * mod_ref) :=
  '(o, r) ← find_op acfg (a_comp s) i op;
  if bt_mesh_model_has_key (model_at r (a_comp s)) (x_app_idx ctx) &&
     (match (model_has_dst acfg r (x_recv_dst ctx) (x_uuid ctx) s).1 with Ok b => b | _ => false end) && op_len_ok o len
  then Some (o, r) else None.

(** What the theorems about receiving suppose. *)
Record can_recv s (ctx : bt_mesh_msg_ctx) (op : Z) : Prop := {
  cr_rings : rings_ok (a_comp s);
  cr_reg : registered (a_comp s);
  cr_op : opcode_ok op;
  cr_uuid : BT_MESH_ADDR_IS_VIRTUAL (x_recv_dst ctx) = true -> is_Some (x_uuid ctx)
}.

Lemma recipient_spec s ctx op len i o r : can_recv s ctx op -> (i < length (co_elem (a_comp s)))%nat ->
  recipient s ctx op len i = Some (o, r) <-> gets_it (a_comp s) ctx op len i o r.
Proof.
  intros [Hok Hreg Hop Hu] Hi. unfold recipient. pose proof (find_op_spec (a_comp s) op i Hop Hi) as Hf.
  destruct (find_op acfg (a_comp s) i op) as [[o' r']|]; cbn [mbind option_bind].
  - pose proof Hf as (E1 & E2 & E3 & E4 & E5 & E6).
    destruct (model_has_dst_run r' (x_recv_dst ctx) (x_uuid ctx) s Hok Hreg E3 Hu) as (b & Eb & Hb). rewrite Eb. cbn [fst].
    pose proof (has_key_spec (model_at r' (a_comp s)) (x_app_idx ctx)) as Hk. split.
    + destruct (_ && _ && _) eqn:Hc; [|done]. intros [= <- <-]. apply andb_true_iff in Hc as [[Hkey Hdst]%andb_true_iff Hlen].
      split; try done; [by apply Hk|by apply Hb].
    + intros [G1 G2 G3 G4 G5 G6 G7 G8 G9].
      destruct (knows_first_unique (a_comp s) op i o' r' o r Hf) as [<- <-]; [by split_and!|].
      rewrite (proj2 Hk G7), (proj2 Hb G8), G9. done.
  - split; [done|]. intros [G1 G2 G3 G4 G5 G6 G7 G8 G9]. exfalso. by apply (first_op_some _ _ _ G6), Hf.
Qed.

(** It is the same for the context that a handler saw. *)
Lemma gets_it_called c ctx op len i o r : gets_it c (called ctx) op len i o r <-> gets_it c ctx op len i o r.
Proof. unfold called. destruct (k_delayable_msg_ctx acfg); [|done]. split; intros [G1 G2 G3 G4 G5 G6 G7 G8 G9]; by split. Qed.
Lemma can_recv_called s ctx op : can_recv s ctx op -> can_recv s (called ctx) op.
Proof. intros [H1 H2 H3 H4]. split; [done..|]. unfold called. by destruct (k_delayable_msg_ctx acfg). Qed.
Lemma can_recv_kept s s' ctx op : same_elems (a_comp s) (a_comp s') -> can_recv s ctx op -> can_recv s' ctx op.
Proof. intros [] [H1 H2 H3 H4]. split; [auto..|done]. Qed.
Lemma recipient_called s ctx op len i : can_recv s ctx op -> (i < length (co_elem (a_comp s)))%nat ->
  recipient s (called ctx) op len i = recipient s ctx op len i.
Proof.
  intros Hc Hi. apply option_eq. intros [o r]. rewrite !(recipient_spec s) by (done || by apply can_recv_called).
  apply gets_it_called.
Qed.

Lemma called_twice ctx : called (called ctx) = called ctx.
Proof. unfold called. by destruct (k_delayable_msg_ctx acfg). Qed.

Lemma restore_save buf b : wf buf -> b_store b = b_store buf -> b_size b = b_size buf ->
  bt_buf_simple_restore b (bt_buf_simple_save buf) = buf.
Proof.
  intros Hw E1 E2. unfold bt_buf_simple_restore, bt_buf_simple_save. cbn. rewrite E1, E2, headroom_wf by done.
  destruct Hw. unfold UINT16_MAX in *. rewrite u16_id by lia. by destruct buf.
Qed.

Lemma element_recv_run ctx buf op i s : handlers_keep -> can_recv s ctx op -> (i < length (co_elem (a_comp s)))%nat -> wf buf ->
  match recipient s ctx op (b_len buf) i with
  | None => exists status, status <> ACCESS_STATUS_SUCCESS /\ element_model_recv acfg app ctx buf i op s = (Ok (status, ctx, buf), s)
  | Some (o, r) =>
      match func app (op_func o) r (called ctx) buf s with
      | Some (e, _, _, s') => element_model_recv acfg app ctx buf i op s =
          (Ok (if e =? 0 then ACCESS_STATUS_SUCCESS else ACCESS_STATUS_MESSAGE_NOT_UNDERSTOOD, called ctx, buf), s')
      | None => (element_model_recv acfg app ctx buf i op s).1 = Crash
      end
  end.
Proof.
  intros Hplain [Hok Hreg Hop Hu] Hi Hw. unfold recipient, element_model_recv.
  rewrite (bind_ok _ _ s (a_comp s) s) by done. pose proof (find_op_spec (a_comp s) op i Hop Hi) as Hf.
  destruct (find_op acfg (a_comp s) i op) as [[o r]|]; cbn [mbind option_bind]; [|by exists ACCESS_STATUS_WRONG_OPCODE].
  destruct Hf as (_ & _ & Hr & _). destruct (bt_mesh_model_has_key _ _); cbn [negb andb]; [|by exists ACCESS_STATUS_WRONG_KEY].
  destruct (model_has_dst_run r (x_recv_dst ctx) (x_uuid ctx) s Hok Hreg Hr Hu) as (b & Eb & _). rewrite Eb. cbn [fst].
  rewrite (bind_ok _ _ _ _ _ Eb). destruct b; cbn [negb andb]; [|by exists ACCESS_STATUS_INVALID_ADDRESS].
  destruct (op_len_ok o (b_len buf)); cbn [negb andb]; [|by exists ACCESS_STATUS_MESSAGE_NOT_UNDERSTOOD].
  change (if k_delayable_msg_ctx acfg then _ else ctx) with (called ctx). cbv zeta.
  destruct (func app (op_func o) r (called ctx) buf s) as [[[[e c] b] s']|] eqn:Ef.
  - destruct (Hplain _ _ _ _ _ _ _ _ _ Ef) as (-> & E1 & E2 & _).
    rewrite (bind_ok _ _ s (e, called ctx, b) s'); [|unfold in_app; by rewrite Ef]. by rewrite restore_save.
  - unfold mbind, M_bind, in_app. by rewrite Ef.
Qed.

(** Element [i], and then others. *)
Lemma served_step ctx op buf i els s : can_recv s ctx op -> (i < length (co_elem (a_comp s)))%nat ->
  match recipient s ctx op (b_len buf) i with
  | None => forall res, served ctx op buf els s res -> served ctx op buf (i :: els) s res
  | Some (o, r) =>
      match func app (op_func o) r (called ctx) buf s with
      | Some (e, _, _, s') => forall res, served ctx op buf els s' res -> served ctx op buf (i :: els) s ('(ok, s') ← res; Some ((e =? 0) || ok, s'))
      | None => served ctx op buf (i :: els) s None
      end
  end.
Proof.
  intros Hc Hi. destruct (recipient s ctx op (b_len buf) i) as [[o r]|] eqn:E.
  - apply recipient_spec in E; [|done|done]. destruct (func app (op_func o) r (called ctx) buf s) as [[[[e c] b] s']|] eqn:Ef; [|by eapply served_fault].
    intros res Hres. by eapply served_call.
  - intros res Hres. apply served_none; [|done]. intros o r Hg. apply recipient_spec in Hg; [congruence|done|done].
Qed.

Lemma group_recv_run ctx0 buf op n : handlers_keep -> wf buf -> forall ctx i err s, ctx = ctx0 \/ ctx = called ctx0 -> can_recv s ctx0 op ->
  (i + n <= length (co_elem (a_comp s)))%nat ->
  exists res, served ctx0 op buf (List.seq i n) s res /\
    match res with
    | Some (ok, s') => exists ctx', group_recv_loop acfg app op n i err ctx buf s =
        (Ok (if ok : bool then ACCESS_STATUS_SUCCESS else err, ctx', buf), s') /\ a_msg_cb s' = a_msg_cb s
    | None => (group_recv_loop acfg app op n i err ctx buf s).1 = Crash
    end.
Proof.
  intros Hkeep Hw. induction n as [|n IH]; intros ctx i err s Hctx Hcan Hn.
  { exists (Some (false, s)). split; [constructor|]. by exists ctx. }
  assert (called ctx = called ctx0) as Ec by (destruct Hctx as [->| ->]; [done|apply called_twice]).
  assert (can_recv s ctx op) as Hcan' by (destruct Hctx as [->| ->]; [done|by apply can_recv_called]).
  assert (recipient s ctx op (b_len buf) i = recipient s ctx0 op (b_len buf) i) as Er by (destruct Hctx as [->| ->]; [done|apply recipient_called; [done|lia]]).
  pose proof (served_step ctx0 op buf i (List.seq (S i) n) s Hcan ltac:(lia)) as Hs.
  pose proof (element_recv_run ctx buf op i s Hkeep Hcan' ltac:(lia) Hw) as He. rewrite Er, Ec in He. cbn [List.seq group_recv_loop].
  destruct (recipient s ctx0 op (b_len buf) i) as [[o r]|].
  - destruct (func app (op_func o) r (called ctx0) buf s) as [[[[e c] b] s']|] eqn:Ef.
    2: { exists None. split; [done|]. by apply bind_crash. }
    rewrite (bind_ok _ _ _ _ _ He). destruct (Hkeep _ _ _ _ _ _ _ _ _ Ef) as (_ & _ & _ & Hel & Ecb).
    destruct (IH (called ctx0) (S i) (if (if e =? 0 then ACCESS_STATUS_SUCCESS else ACCESS_STATUS_MESSAGE_NOT_UNDERSTOOD) =?
      ACCESS_STATUS_SUCCESS then (if e =? 0 then ACCESS_STATUS_SUCCESS else ACCESS_STATUS_MESSAGE_NOT_UNDERSTOOD) else err) s')
      as (res & Hserved & Hres); [by right|by eapply can_recv_kept|rewrite (se_length _ _ Hel); lia|].
    exists ('(ok, s') ← res; Some ((e =? 0) || ok, s')). split; [by apply Hs|]. destruct res as [[ok s'']|]; cbn [mbind option_bind]; [|done].
    destruct Hres as (ctx' & E & Ecb'). exists ctx'. split; [|congruence]. rewrite E. by destruct (e =? 0), ok.
  - destruct He as (status & Hne & E). rewrite (bind_ok _ _ _ _ _ E). apply Z.eqb_neq in Hne. rewrite Hne.
    destruct (IH ctx (S i) err s Hctx Hcan ltac:(lia)) as (res & Hserved & Hres). exists res. split; [by apply Hs|done].
Qed.

(** Elements without a recipient. *)
Lemma served_skip ctx op buf els s : (forall i o r, i ∈ els -> ~ gets_it (a_comp s) ctx op (b_len buf) i o r) ->
  served ctx op buf els s (Some (false, s)).
Proof.
  induction els as [|i els IH]; intros Hn; [constructor|]. apply served_none; [intros o r; apply Hn; by left|]. apply IH. intros j o r Hj. apply Hn. by right.
Qed.
Lemma served_before ctx op buf pre els s res : (forall i o r, i ∈ pre -> ~ gets_it (a_comp s) ctx op (b_len buf) i o r) ->
  served ctx op buf els s res -> served ctx op buf (pre ++ els) s res.
Proof.
  intros Hn Hs. induction pre as [|i pre IH]; [done|]. apply served_none; [intros o r; apply Hn; by left|]. apply IH. intros j o r Hj. apply Hn. by right.
Qed.

(** What [bt_mesh_model_recv] does after the dispatch, on a node without a callback. *)
Lemma recv_tail (m : M st (Z * bt_mesh_msg_ctx * bt_buf_simple)) op status ctx' buf' s s' : m s = (Ok (status, ctx', buf'), s') ->
  k_layer_msg acfg && a_msg_cb s' = false ->
  ('(err, ctx, buf) ← m; has_cb ← has_msg_cb acfg;
   if (has_cb : bool) then '(ctx, buf) ← in_app (msg_cb app op ctx buf); mret (err, ctx, buf) else mret (err, ctx, buf)) s =
  (Ok (status, ctx', buf'), s').
Proof.
  intros Em Hcb. rewrite (bind_ok _ _ _ _ _ Em). unfold has_msg_cb. rewrite (bind_ok _ _ s' false s'); [done|].
  rewrite (bind_ok _ _ s' (a_msg_cb s') s') by done. by rewrite Hcb.
Qed.

(** Messages to the address of one element. *)
Lemma unicast_recv_run ctx buf op (index : nat) s : handlers_keep -> can_recv s ctx op -> wf buf -> (index < length (co_elem (a_comp s)))%nat ->
  (forall s1 i o r, same_elems (a_comp s) (a_comp s1) -> (i < length (co_elem (a_comp s)))%nat -> i <> index -> ~ gets_it (a_comp s1) ctx op (b_len buf) i o r) ->
  exists res, served ctx op buf (List.seq 0 (length (co_elem (a_comp s)))) s res /\
    match res with
    | Some (ok, s') => exists status ctx', element_model_recv acfg app ctx buf index op s = (Ok (status, ctx', buf), s') /\
        (status = ACCESS_STATUS_SUCCESS <-> ok = true) /\ a_msg_cb s' = a_msg_cb s
    | None => (element_model_recv acfg app ctx buf index op s).1 = Crash
    end.
Proof.
  intros Hkeep Hcan Hw Hlt Hnone. set (n := length (co_elem (a_comp s))) in *.
  assert (List.seq 0 n = List.seq 0 index ++ index :: List.seq (S index) (n - index - 1)) as ->.
  { replace n with (index + (1 + (n - index - 1)))%nat at 1 by lia. rewrite !seq_app. cbn [List.seq List.app]. by rewrite Nat.add_0_l, Nat.add_1_r. }
  assert (forall i o r, i ∈ List.seq 0 index -> ~ gets_it (a_comp s) ctx op (b_len buf) i o r) as Hpre by (intros i o r Hi%elem_of_seq; apply Hnone; [apply same_elems_refl|lia|lia]).
  assert (forall s1, same_elems (a_comp s) (a_comp s1) -> served ctx op buf (List.seq (S index) (n - index - 1)) s1 (Some (false, s1))) as Hpost
    by (intros s1 Hs1; apply served_skip; intros i o r Hi%elem_of_seq; apply Hnone; [done|lia|lia]).
  pose proof (element_recv_run ctx buf op index s Hkeep Hcan Hlt Hw) as He.
  pose proof (served_step ctx op buf index (List.seq (S index) (n - index - 1)) s Hcan Hlt) as Hs.
  destruct (recipient s ctx op (b_len buf) index) as [[o r]|].
  - destruct (func app (op_func o) r (called ctx) buf s) as [[[[e c] b] s']|] eqn:Ef; [|exists None; split; [by apply served_before|done]].
    destruct (Hkeep _ _ _ _ _ _ _ _ _ Ef) as (_ & _ & _ & Hel & Ecb). exists (Some ((e =? 0) || false, s')).
    split; [apply served_before; [done|]; exact (Hs _ (Hpost s' Hel))|]. rewrite He. eexists _, _. split; [done|]. split; [|done]. by destruct (e =? 0).
  - destruct He as (status & Hne & E). exists (Some (false, s)). split; [apply served_before; [done|]; apply Hs, Hpost, same_elems_refl|].
    exists status, ctx. split; [done|]. by split.
Qed.

(** C8: Who gets a message.  A received message with the opcode [op] is passed on, without
    its opcode, to exactly one model of every element that has a recipient when its turn
    comes: the first of the element's models that knows the opcode, provided it is bound to
    the key the message came with, the message is for it (the address of its element, a
    group or label it or a model related to it is subscribed to, a fixed group) and the
    message is of a length its entry allows.  Elements are served in order, each handler
    gets the same context and bytes, and the status is success just when one of them
    answered 0.  The handlers may change the keys and subscriptions of models, which counts
    for the elements that come after, but not the context, the bytes, the elements or the
    lists of related models; and the node, whose models are registered and whose elements
    have unicast addresses one after the other, is not in test mode and has no callback for
    messages. *)
Theorem model_recv_dispatches ctx buf op payload s :
  handlers_keep -> can_recv s ctx op -> addressed (a_comp s) ->
  wf buf -> content buf = opcode_bytes op ++ payload ->
  k_test acfg = false -> k_layer_msg acfg && a_msg_cb s = false ->
  exists buf' res, content buf' = payload /\
    served ctx op buf' (List.seq 0 (length (co_elem (a_comp s)))) s res /\
    match res with
    | Some (ok, s') => exists status ctx', bt_mesh_model_recv acfg app ctx buf s = (Ok (status, ctx', buf'), s') /\
        (status = ACCESS_STATUS_SUCCESS <-> ok = true)
    | None => (bt_mesh_model_recv acfg app ctx buf s).1 = Crash
    end.
Proof.
  intros Hkeep Hcan (a & Ha & Hmax & Haddr) Hw Hc Htest Hcb. pose proof Hcan as [Hok Hreg Hop Hu].
  set (buf' := pulled buf (zlen (opcode_bytes op))).
  destruct (pull_run buf (zlen (opcode_bytes op)) (opcode_bytes op) payload Hw Hc eq_refl) as (_ & _ & Hw' & Hc' & _).
  fold buf' in Hw', Hc'. exists buf'. set (n := length (co_elem (a_comp s))) in *.
  unfold bt_mesh_model_recv. rewrite Htest. rewrite (bind_ok _ _ s () s) by done.
  rewrite (bind_ok _ _ s (inl (op, buf')) s) by (unfold attempt; by rewrite (get_opcode_run buf op payload)).
  rewrite (bind_ok _ _ s (a_comp s) s) by done. cbv zeta. set (dst := x_recv_dst ctx).
  set (index := u16 (dst - e_addr (elem_at 0 (a_comp s)))).
  destruct (BT_MESH_ADDR_IS_UNICAST dst) eqn:Huni; cbn [andb].
  - assert (0 <= index) as Hi0 by (unfold index; pose proof (u16_range (dst - e_addr (elem_at 0 (a_comp s)))); lia).
    assert (forall s1 i o r, same_elems (a_comp s) (a_comp s1) -> (i < n)%nat -> i <> Z.to_nat index -> ~ gets_it (a_comp s1) ctx op (b_len buf') i o r) as Hnone.
    { intros s1 i o r Hel Hi Hne [G1 _ _ _ _ _ _ G8 _]. unfold destined in G8. fold dst in G8. rewrite Huni, G1, (se_addr _ _ Hel), Haddr in G8 by done.
      apply Hne. unfold index. rewrite Haddr by lia. rewrite <-G8. unfold u16. rewrite Z.mod_small by lia. lia. }
    destruct (Z.leb_spec (zlen (co_elem (a_comp s))) index) as [Hge|Hlt].
    + exists (Some (false, s)). split; [done|]. split.
      * apply served_skip. intros i o r Hi%elem_of_seq. apply Hnone; [apply same_elems_refl|lia|lia].
      * exists ACCESS_STATUS_INVALID_ADDRESS, ctx. split; [done|]. split; [intros Hx; by vm_compute in Hx|done].
    + destruct (unicast_recv_run ctx buf' op (Z.to_nat index) s Hkeep Hcan Hw' ltac:(lia) Hnone) as (res & Hserved & Hres).
      exists res. split; [done|]. split; [done|]. destruct res as [[ok s']|]; [|by apply bind_crash].
      destruct Hres as (status & ctx' & E & Hst & Ecb). exists status, ctx'. split; [|done]. apply recv_tail; [done|by rewrite Ecb].
  - destruct (group_recv_run ctx buf' op n Hkeep Hw' ctx 0 ACCESS_STATUS_MESSAGE_NOT_UNDERSTOOD s ltac:(by left) Hcan ltac:(lia)) as (res & Hserved & Hres).
    exists res. split; [done|]. split; [done|]. destruct res as [[ok s']|]; [|by apply bind_crash].
    destruct Hres as (ctx' & E & Ecb). eexists _, ctx'. split; [apply recv_tail; [exact E|by rewrite Ecb]|]. by destruct ok.
Qed.

End Recv.
