(* ===== verification/CompData.v ===== *)
(** Composition data: the pages a node reports about itself ([mesh/access.c]) and how a
    client takes them apart ([mesh/cfg_cli.c]).

    A page is written from an offset on into a buffer; [page] is that buffer with what is
    left of the offset.  A pointer to a byte that is filled in later is its place in the
    buffer's memory. *)

From S2P Require Import Prelude Byteorder BufSimple MeshDefs CryptoIf Net Transport TransRx Access.

Definition BT_MESH_FEAT_RELAY : Z := BIT 0.
Definition BT_MESH_FEAT_PROXY : Z := BIT 1.
Definition BT_MESH_FEAT_FRIEND : Z := BIT 2.
Definition BT_MESH_FEAT_LOW_POWER : Z := BIT 3.

(** The conversion to [int8_t]. *)
Definition s8 (x : Z) : Z := let y := u8 x in if y <? 128 then y else y - 256.

Record page := mk_page { pg_buf : bt_buf_simple; pg_off : Z }.
#[export] Instance eta_page : Eta page := fun p => mk_page (pg_buf p) (pg_off p).

(** Options and features. *)
Record comp_cfg := mk_ccfg {
  k_large_comp : bool;               (** [CONFIG_BT_MESH_LARGE_COMP_DATA_SRV] *)
  k_page_1 : bool;
  k_page_2 : bool;
  k_relay : bool;
  k_gatt_proxy : bool;
  k_friend : bool;
  k_low_power_feat : bool;
  k_crpl : Z
}.

(** * Writing from an offset on *)

Definition set_buf (o : option bt_buf_simple) : M page unit := fun p =>
  match o with Some b => (Ok (), p <| pg_buf := b |>) | None => (Crash, p) end.
Definition set_off (off : Z) : M page unit := fun p => (Ok (), p <| pg_off := off |>).
Definition pg {A} (f : page -> A) : M page A := fun p => (Ok (f p), p).

(** The place of the byte, if it was written. *)
Definition data_buf_add_u8_offset (val : Z) : M page (option Z) :=
  p ← pg id;
  if 1 <=? pg_off p then _ ← set_off (pg_off p - 1); mret None
  else
    _ ← set_buf (bt_buf_simple_add_u8 (pg_buf p) val);
    mret (Some (bt_buf_simple_tail (pg_buf p))).

Definition data_buf_add_le16_offset (val : Z) : M page unit :=
  p ← pg id;
  if 2 <=? pg_off p then set_off (pg_off p - 2)
  else if pg_off p =? 1 then
    _ ← set_off (pg_off p - 1); set_buf (bt_buf_simple_add_u8 (pg_buf p) (Z.shiftr (u16 val) 8))
  else set_buf (bt_buf_simple_add_le16 (pg_buf p) val).

Definition data_buf_add_mem_offset (data : list Z) : M page unit :=
  p ← pg id;
  if zlen data <=? pg_off p then set_off (pg_off p - zlen data)
  else
    _ ← set_buf (bt_buf_simple_add_mem (pg_buf p) (drop (Z.to_nat (pg_off p)) data));
    set_off 0.

(** Steps for each element of a list. *)
Fixpoint each {A} (f : A -> M page unit) (l : list A) : M page unit :=
  match l with
  | [] => mret ()
  | x :: l => _ ← f x; each f l
  end.

(** The room that is left, less that of the MIC. *)
Definition tailroom : M page Z := pg (fun p => bt_buf_simple_tailroom (pg_buf p)).

Section Pages.

Context (cfg : comp_cfg) (comp : bt_mesh_comp) (rel : list mod_relation).

(** * Page 0 *)

Definition bt_mesh_comp_elem_size (e : bt_mesh_elem) : Z := 4 + zlen (e_models e) * 2 + zlen (e_vnd_models e) * 4.

Definition comp_add_model (vnd : bool) (m : bt_mesh_model) : M page unit :=
  if vnd then
    _ ← data_buf_add_le16_offset (vnd_company (m_id m));
    data_buf_add_le16_offset (vnd_id (m_id m))
  else data_buf_add_le16_offset (sig_id (m_id m)).

Definition comp_add_elem (e : bt_mesh_elem) : M page unit :=
  let elem_size := bt_mesh_comp_elem_size e in
  off ← pg pg_off;
  if elem_size <=? off then set_off (off - elem_size)
  else
    room ← tailroom;
    if room <? u64 (elem_size - off + BT_MESH_MIC_SHORT) then
      if k_large_comp cfg then mret () else fail (- E2BIG)
    else
      _ ← data_buf_add_le16_offset (e_loc e);
      _ ← data_buf_add_u8_offset (zlen (e_models e));
      _ ← data_buf_add_u8_offset (zlen (e_vnd_models e));
      _ ← each (comp_add_model false) (e_models e);
      each (comp_add_model true) (e_vnd_models e).

Definition features : Z :=
  Z.lor (if k_relay cfg then BT_MESH_FEAT_RELAY else 0)
    (Z.lor (if k_gatt_proxy cfg then BT_MESH_FEAT_PROXY else 0)
       (Z.lor (if k_friend cfg then BT_MESH_FEAT_FRIEND else 0) (if k_low_power_feat cfg then BT_MESH_FEAT_LOW_POWER else 0))).

Definition bt_mesh_comp_data_get_page_0 : M page unit :=
  _ ← data_buf_add_le16_offset (co_cid comp);
  _ ← data_buf_add_le16_offset (co_pid comp);
  _ ← data_buf_add_le16_offset (co_vid comp);
  _ ← data_buf_add_le16_offset (k_crpl cfg);
  _ ← data_buf_add_le16_offset features;
  each comp_add_elem (co_elem comp).

(** * Page 1 *)

(** The extended models of [m], of which the relations tell. *)
Definition mod_exts (m : bt_mesh_model) (sig_offset : Z) : list mod_relation :=
  List.filter (fun r => IS_MOD_EXTENSION m r sig_offset && (rel_type r =? RELATION_TYPE_EXT)) (mod_rel_used rel).

(** Their number, and the offset that is furthest away. *)
Definition count_mod_ext (m : bt_mesh_model) (sig_offset : Z) : Z * Z :=
  let l := mod_exts m sig_offset in
  (u8 (zlen l),
   foldl (fun record r => let offset := s8 (elem_ext r - elem_base r) in if Z.abs record <? Z.abs offset then offset else record) 0 l).

Definition is_cor_present (m : bt_mesh_model) (sig_offset : Z) : option Z :=
  rel_type <$> List.find (fun r => (IS_MOD_BASE m r sig_offset || IS_MOD_EXTENSION m r sig_offset) && (rel_type r <? RELATION_TYPE_EXT))
                 (mod_rel_used rel).

(** The number of items that follow. *)
Definition prep_model_item_header (m : bt_mesh_model) (sig_offset : Z) : M page Z :=
  let '(ext_mod_cnt, max_offset) := count_mod_ext m sig_offset in
  let cor := is_cor_present m sig_offset in
  let info := u8 (Z.shiftl ext_mod_cnt 2) in
  let info := if (31 <? ext_mod_cnt) || (3 <? max_offset) || (max_offset <? -4) then Z.lor info (BIT 1) else info in
  let info := match cor with Some _ => Z.lor info (BIT 0) | None => info end in
  _ ← data_buf_add_u8_offset info;
  _ ← match cor with Some cor_id => data_buf_add_u8_offset cor_id | None => mret None end;
  mret ext_mod_cnt.

Definition is_short (ext_mod_cnt elem_offset : Z) : bool := (ext_mod_cnt <? 32) && (elem_offset <? 4) && (-5 <? elem_offset).

Definition add_item (m : bt_mesh_model) (ext_mod_cnt : Z) (r : mod_relation) : M page unit :=
  let elem_offset := m_elem_idx m - elem_base r in
  if is_short ext_mod_cnt elem_offset then
    _ ← data_buf_add_u8_offset (Z.lor (if elem_offset <? 0 then elem_offset + 8 else elem_offset) (Z.shiftl (idx_base r) 3)); mret ()
  else
    _ ← data_buf_add_u8_offset (if elem_offset <? 0 then elem_offset + 256 else elem_offset);
    _ ← data_buf_add_u8_offset (idx_base r); mret ().

Definition add_items_to_page (m : bt_mesh_model) (ext_mod_cnt sig_offset : Z) : M page unit :=
  each (add_item m ext_mod_cnt) (mod_exts m sig_offset).

(** All relations of which [m] is the extension are counted, whatever their type. *)
Definition mod_items_size (m : bt_mesh_model) (sig_offset : Z) : Z :=
  let ext_mod_cnt := (count_mod_ext m sig_offset).1 in
  if ext_mod_cnt =? 0 then 0
  else
    foldr (fun r size => size + (if is_short ext_mod_cnt (m_elem_idx m - elem_base r) then 1 else 2)) 0
      (List.filter (fun r => IS_MOD_EXTENSION m r sig_offset) (mod_rel_used rel)).

Definition model_item_size (sig_offset : Z) (m : bt_mesh_model) : Z :=
  (match is_cor_present m sig_offset with Some _ => 2 | None => 1 end) + mod_items_size m sig_offset.

Definition zsum (l : list Z) : Z := foldr Z.add 0 l.

Definition page1_elem_size (e : bt_mesh_elem) : Z :=
  2 + zsum (map (model_item_size 0) (e_models e)) + zsum (map (model_item_size (zlen (e_models e))) (e_vnd_models e)).

Definition add_model_item (sig_offset : Z) (m : bt_mesh_model) : M page unit :=
  ext_mod_cnt ← prep_model_item_header m sig_offset;
  if ext_mod_cnt =? 0 then mret () else add_items_to_page m ext_mod_cnt sig_offset.

(** The loop over the elements; the first that does not fit ends it. *)
Fixpoint page_1_loop (l : list bt_mesh_elem) : M page unit :=
  match l with
  | [] => mret ()
  | e :: l =>
      let elem_size := page1_elem_size e in
      off ← pg pg_off;
      if elem_size <=? off then _ ← set_off (off - elem_size); page_1_loop l
      else
        room ← tailroom;
        if room <? u64 (elem_size - off + BT_MESH_MIC_SHORT) then
          if k_large_comp cfg then mret () else fail (- E2BIG)
        else
          _ ← data_buf_add_u8_offset (zlen (e_models e));
          _ ← data_buf_add_u8_offset (zlen (e_vnd_models e));
          _ ← each (add_model_item 0) (e_models e);
          _ ← each (add_model_item (zlen (e_models e))) (e_vnd_models e);
          page_1_loop l
  end.

Definition bt_mesh_comp_data_get_page_1 : M page unit := page_1_loop (co_elem comp).

(** * Page 2 *)

Definition record_size (r : bt_mesh_comp2_record) : Z := 8 + zlen (c2_elem_offset r) + zlen (c2_data r).

Definition add_record (r : bt_mesh_comp2_record) : M page unit :=
  _ ← data_buf_add_le16_offset (c2_id r);
  _ ← data_buf_add_u8_offset (c2_x r);
  _ ← data_buf_add_u8_offset (c2_y r);
  _ ← data_buf_add_u8_offset (c2_z r);
  _ ← data_buf_add_u8_offset (zlen (c2_elem_offset r));
  _ ← (if zlen (c2_elem_offset r) =? 0 then mret () else data_buf_add_mem_offset (c2_elem_offset r));
  _ ← data_buf_add_le16_offset (zlen (c2_data r));
  if zlen (c2_data r) =? 0 then mret () else data_buf_add_mem_offset (c2_data r).

Fixpoint page_2_loop (l : list bt_mesh_comp2_record) : M page unit :=
  match l with
  | [] => mret ()
  | r :: l =>
      off ← pg pg_off;
      if record_size r <=? off then _ ← set_off (off - record_size r); page_2_loop l
      else
        room ← tailroom;
        if room <? u64 (record_size r - off + BT_MESH_MIC_SHORT) then
          if k_large_comp cfg then mret () else fail (- E2BIG)
        else _ ← add_record r; page_2_loop l
  end.

(** [dev_comp2] *)
Context (comp2 : option (list bt_mesh_comp2_record)).

Definition bt_mesh_comp_data_get_page_2 : M page unit :=
  match comp2 with None => fail (- ENODEV) | Some records => page_2_loop records end.

(** * All pages *)

Definition bt_mesh_comp_data_get_page (page : Z) : M CompData.page unit :=
  if (page =? 0) || (page =? 128) then bt_mesh_comp_data_get_page_0
  else if k_page_1 cfg && ((page =? 1) || (page =? 129)) then bt_mesh_comp_data_get_page_1
  else if k_page_2 cfg && ((page =? 2) || (page =? 130)) then bt_mesh_comp_data_get_page_2
  else fail (- EINVAL).

Definition comp_page_0_size : Z := 10 + zsum (map bt_mesh_comp_elem_size (co_elem comp)).
Definition comp_page_1_size : Z := zsum (map page1_elem_size (co_elem comp)).
Definition comp_page_2_size : Z := match comp2 with None => 0 | Some records => zsum (map record_size records) end.

Definition bt_mesh_comp_page_size (page : Z) : Z :=
  if (page =? 0) || (page =? 128) then comp_page_0_size
  else if k_page_1 cfg && ((page =? 1) || (page =? 129)) then comp_page_1_size
  else if k_page_2 cfg && ((page =? 2) || (page =? 130)) then comp_page_2_size
  else 0.

(** [dirty]: whether the composition is about to change. *)
Definition bt_mesh_comp_parse_page (dirty rpr_srv : bool) (buf : bt_buf_simple) : option (Z * bt_buf_simple) :=
  '(page, buf) ← bt_buf_simple_pull_u8 buf;
  let next := dirty || rpr_srv in
  Some (if (130 <=? page) && k_page_2 cfg && next then 130
        else if (129 <=? page) && k_page_1 cfg && next then 129
        else if (128 <=? page) && next then 128
        else if (2 <=? page) && k_page_2 cfg then 2
        else if (1 <=? page) && k_page_1 cfg then 1
        else 0, buf).

(** * Metadata of the models *)

Definition metadata_model_size (vnd : bool) (m : bt_mesh_model) : Z :=
  match m_metadata m with
  | None => 0
  | Some entries => (if vnd then 4 else 2) + 1 + zsum (map (fun x => 4 + zlen (me_data x)) entries)
  end.

Definition bt_mesh_metadata_page_0_size : Z :=
  zsum (map (fun e => 2 + zsum (map (metadata_model_size false) (e_models e)) +
                      zsum (map (metadata_model_size true) (e_vnd_models e))) (co_elem comp)).

(** [*ptr = ...] *)
Definition put_byte (at_ : option Z) (val : Z) : M page unit :=
  match at_ with
  | None => mret ()
  | Some k => p ← pg id; set_buf (store_at (pg_buf p) k [u8 val])
  end.

Definition metadata_add_model (vnd : bool) (m : bt_mesh_model) (entries : list bt_mesh_models_metadata_entry) : M page unit :=
  let model_size := metadata_model_size vnd m in
  off ← pg pg_off;
  if model_size <=? off then set_off (off - model_size)
  else
    room ← tailroom;
    if room <? model_size + BT_MESH_MIC_SHORT then fail (- E2BIG)
    else
      _ ← comp_add_model vnd m;
      count_ptr ← data_buf_add_u8_offset 0;
      _ ← each (fun x => _ ← data_buf_add_le16_offset (zlen (me_data x));
                         _ ← data_buf_add_le16_offset (me_id x);
                         data_buf_add_mem_offset (me_data x)) entries;
      put_byte count_ptr (zlen entries).

(** The models of a list that have metadata; how many have been counted. *)
Fixpoint metadata_models (vnd : bool) (count_ptr : option Z) (l : list bt_mesh_model) (count : Z) : M page unit :=
  match l with
  | [] => mret ()
  | m :: l =>
      match m_metadata m with
      | None => metadata_models vnd count_ptr l count
      | Some entries =>
          _ ← metadata_add_model vnd m entries;
          _ ← put_byte count_ptr (count + 1);
          metadata_models vnd count_ptr l (count + 1)
      end
  end.

Definition metadata_elem (e : bt_mesh_elem) : M page unit :=
  off ← pg pg_off;
  room ← tailroom;
  if room <? (if off =? 0 then 2 else if off =? 1 then 1 else 0) + BT_MESH_MIC_SHORT then fail (- E2BIG)
  else
    mod_count_ptr ← data_buf_add_u8_offset 0;
    vnd_count_ptr ← data_buf_add_u8_offset 0;
    _ ← metadata_models false mod_count_ptr (e_models e) 0;
    metadata_models true vnd_count_ptr (e_vnd_models e) 0.

Definition bt_mesh_metadata_get_page_0 : M page unit := each metadata_elem (co_elem comp).

End Pages.

(** * The client

    A buffer that points into the page is the bytes it points to.  A function that gives
    up answers [None] for its pointer; the outer [None] is an access outside the page. *)

Record bt_mesh_comp_p0 := mk_p0 { p0_cid : Z; p0_pid : Z; p0_vid : Z; p0_crpl : Z; p0_feat : Z }.
Record bt_mesh_comp_p0_elem := mk_p0_elem { p0_loc : Z; p0_nsig : Z; p0_nvnd : Z; p0_buf : list Z }.
Record bt_mesh_comp_p1_elem := mk_p1_elem { p1_nsig : Z; p1_nvnd : Z; p1_buf : list Z }.
Record bt_mesh_comp_p1_model_item := mk_p1_item {
  i_cor_present : bool;
  i_format : bool;
  i_ext_item_cnt : Z;
  i_cor_id : option Z;
  i_buf : list Z
}.
Inductive bt_mesh_comp_p1_ext_item :=
| ExtShort (elem_offset mod_item_idx : Z)
| ExtLong (elem_offset mod_item_idx : Z)
| ExtUnread.       (** returned, but not filled in *)

Definition COR_PRESENT (hdr : Z) : Z := Z.land hdr (BIT 0).
Definition FMT (hdr : Z) : Z := Z.land hdr (BIT 1).
Definition EXT_ITEM_CNT (hdr : Z) : Z := Z.shiftr hdr 2.

Definition bt_mesh_comp_p0_get (buf : bt_buf_simple) : option ((bt_mesh_comp_p0 + Z) * bt_buf_simple) :=
  if b_len buf <? 10 then Some (inr (- EINVAL), buf)
  else
    '(cid, buf) ← bt_buf_simple_pull_le16 buf;
    '(pid, buf) ← bt_buf_simple_pull_le16 buf;
    '(vid, buf) ← bt_buf_simple_pull_le16 buf;
    '(crpl, buf) ← bt_buf_simple_pull_le16 buf;
    '(feat, buf) ← bt_buf_simple_pull_le16 buf;
    Some (inl (mk_p0 cid pid vid crpl feat), buf).

(** [bt_buf_simple_pull_mem], and the bytes at the pointer. *)
Definition pull_bytes (n : Z) (buf : bt_buf_simple) : option (list Z * bt_buf_simple) :=
  bytes ← mem_read (b_store buf) (b_data buf) n;
  '(buf, _) ← bt_buf_simple_pull_mem buf n;
  Some (bytes, buf).

Definition bt_mesh_comp_p0_elem_pull (buf : bt_buf_simple) : option (option bt_mesh_comp_p0_elem * bt_buf_simple) :=
  if b_len buf <? 4 then Some (None, buf)
  else
    '(loc, buf) ← bt_buf_simple_pull_le16 buf;
    '(nsig, buf) ← bt_buf_simple_pull_u8 buf;
    '(nvnd, buf) ← bt_buf_simple_pull_u8 buf;
    let modlist_size := nsig * 2 + nvnd * 4 in
    if b_len buf <? modlist_size then Some (None, buf)
    else
      '(bytes, buf) ← pull_bytes modlist_size buf;
      Some (Some (mk_p0_elem loc nsig nvnd bytes), buf).

Definition bt_mesh_comp_p0_elem_mod (e : bt_mesh_comp_p0_elem) (idx : Z) : Z :=
  if p0_nsig e <=? idx then 0xffff else sys_get_le16 (drop (Z.to_nat (idx * 2)) (p0_buf e)).

Definition bt_mesh_comp_p0_elem_mod_vnd (e : bt_mesh_comp_p0_elem) (idx : Z) : Z * Z :=
  if p0_nvnd e <=? idx then (0xffff, 0xffff)
  else
    let offset := p0_nsig e * 2 + idx * 4 in
    (sys_get_le16 (drop (Z.to_nat offset) (p0_buf e)), sys_get_le16 (drop (Z.to_nat (offset + 2)) (p0_buf e))).

(** The length of the items of the next [n] models; [None] in the middle is a buffer that
    is shorter than they are. *)
Fixpoint p1_items_size (buf : bt_buf_simple) (n : nat) (elem_size : Z) : option (option Z) :=
  match n with
  | O => Some (Some elem_size)
  | S n =>
      if b_len buf <? elem_size + 1 then Some None
      else
        b ← mem_read (b_store buf) (b_data buf + elem_size) 1;
        let header := b !!! 0%nat in
        p1_items_size buf n
          (elem_size + (1 + COR_PRESENT header) + (Z.b2z (negb (FMT header =? 0)) + 1) * EXT_ITEM_CNT header)
  end.

Definition bt_mesh_comp_p1_elem_pull (buf : bt_buf_simple) : option (option bt_mesh_comp_p1_elem * bt_buf_simple) :=
  if b_len buf <? 4 then Some (None, buf)
  else
    '(nsig, buf) ← bt_buf_simple_pull_u8 buf;
    '(nvnd, buf) ← bt_buf_simple_pull_u8 buf;
    size ← p1_items_size buf (Z.to_nat (nsig + nvnd)) 0;
    match size with
    | None => Some (None, buf)
    | Some elem_size =>
        if b_len buf <? elem_size then Some (None, buf)
        else
          '(bytes, buf) ← pull_bytes elem_size buf;
          Some (Some (mk_p1_elem nsig nvnd bytes), buf)
    end.

(** [elem->_buf] is the list; the item, and what is left of the list. *)
Definition bt_mesh_comp_p1_item_pull (l : list Z) : option bt_mesh_comp_p1_model_item * list Z :=
  match l with
  | [] => (None, l)
  | header :: l =>
      let cor_present := negb (COR_PRESENT header =? 0) in
      let format := negb (FMT header =? 0) in
      let cnt := EXT_ITEM_CNT header in
      let item_size := cnt * (Z.b2z format + 1) in
      match cor_present, l with
      | true, [] => (None, l)
      | true, cor_id :: l =>
          if zlen l <? item_size then (None, l)
          else (Some (mk_p1_item true format cnt (Some cor_id) (take (Z.to_nat item_size) l)), drop (Z.to_nat item_size) l)
      | false, l =>
          if zlen l <? item_size then (None, l)
          else (Some (mk_p1_item false format cnt None (take (Z.to_nat item_size) l)), drop (Z.to_nat item_size) l)
      end
  end.

(** [item->_buf] is the list. *)
Definition bt_mesh_comp_p1_pull_ext_item (format : bool) (l : list Z) : option bt_mesh_comp_p1_ext_item * list Z :=
  match l with
  | [] => (None, l)
  | [b] => if format then (Some ExtUnread, l) else (Some (ExtShort (Z.land b (BIT_MASK 5) mod 8) (Z.shiftr b 3)), [])
  | [b0; b1] => if format then (Some (ExtLong b0 b1), []) else (Some ExtUnread, l)
  | _ => (Some ExtUnread, l)
  end.

Definition bt_mesh_comp_p2_record_pull (buf : bt_buf_simple) : option (option bt_mesh_comp2_record * bt_buf_simple) :=
  if b_len buf <? 8 then Some (None, buf)
  else
    '(id, buf) ← bt_buf_simple_pull_le16 buf;
    '(x, buf) ← bt_buf_simple_pull_u8 buf;
    '(y, buf) ← bt_buf_simple_pull_u8 buf;
    '(z, buf) ← bt_buf_simple_pull_u8 buf;
    '(elem_offset_cnt, buf) ← bt_buf_simple_pull_u8 buf;
    if b_len buf <? elem_offset_cnt + 2 then Some (None, buf)
    else
      '(elems, buf) ← pull_bytes elem_offset_cnt buf;
      '(data_len, buf) ← bt_buf_simple_pull_le16 buf;
      if b_len buf <? data_len then Some (None, buf)
      else
        '(data, buf) ← pull_bytes data_len buf;
        Some (Some (mk_rec2 id x y z elems data), buf).
