(* ===== verification/CompPages.v ===== *)
(** What the composition pages hold: the bytes of pages 0 and 2, from any offset on, and
    what a client gets back of them. *)

From S2P Require Import Prelude Byteorder BufSimple MeshDefs CryptoIf Net Transport TransRx TransTx Access CompData.

(** * Writing *)

Definition room (p : page) : Z := b_size (pg_buf p) - b_data (pg_buf p) - b_len (pg_buf p).

(** [p'] is [p] with [bs] from its offset on written behind the rest. *)
Record emitted (bs : list Z) (p p' : page) : Prop := {
  em_wf : wf (pg_buf p');
  em_content : content (pg_buf p') = content (pg_buf p) ++ drop (Z.to_nat (pg_off p)) bs;
  em_off : pg_off p' = Z.max 0 (pg_off p - zlen bs);
  em_room : room p' = room p - zlen (drop (Z.to_nat (pg_off p)) bs);
  em_data : b_data (pg_buf p') = b_data (pg_buf p)
}.

(** The step writes [bs], if there is room for it and [k] bytes more. *)
Definition emits {A} (k : Z) (bs : list Z) (m : M page A) : Prop := forall p, wf (pg_buf p) -> 0 <= pg_off p ->
  zlen (drop (Z.to_nat (pg_off p)) bs) + k <= room p -> exists a p', m p = (Ok a, p') /\ emitted bs p p'.

Lemma emits_more {A} k k' bs (m : M page A) : emits k bs m -> k <= k' -> emits k' bs m.
Proof. intros Hm Hk p Hw Ho Hr. apply Hm; [done|done|lia]. Qed.

Lemma emits_nil {A} (a : A) : emits 0 [] (mret a).
Proof.
  intros p Hw Ho Hr. exists a, p. split; [done|]. split; rewrite ?drop_nil, ?app_nil_r; cbn; try done; lia.
Qed.

Lemma emits_bind {A B} k bs bs' (m : M page A) (f : A -> M page B) :
  0 <= k -> emits k bs m -> (forall a, emits k bs' (f a)) -> emits k (bs ++ bs') (m ≫= f).
Proof.
  intros Hk Hm Hf p Hw Ho Hr. rewrite drop_app, length_app in Hr.
  destruct (Hm p Hw Ho) as (a & p1 & E1 & [W1 C1 O1 R1 D1]); [lia|].
  destruct (Hf a p1 W1) as (b & p2 & E2 & [W2 C2 O2 R2 D2]); [lia| |].
  { rewrite O1, R1. replace (Z.to_nat (Z.max 0 (pg_off p - zlen bs))) with (Z.to_nat (pg_off p) - length bs)%nat by lia. lia. }
  exists b, p2. split; [by rewrite (bind_ok _ _ _ _ _ E1)|].
  rewrite O1 in C2, O2, R2. replace (Z.to_nat (Z.max 0 (pg_off p - zlen bs))) with (Z.to_nat (pg_off p) - length bs)%nat in C2, R2 by lia.
  split; rewrite ?drop_app, ?length_app.
  - done.
  - by rewrite C2, C1, app_assoc.
  - rewrite O2. lia.
  - rewrite R2, R1. lia.
  - congruence.
Qed.

Lemma emits_each {A} k (g : A -> list Z) f (l : list A) : 0 <= k -> (forall x, x ∈ l -> emits k (g x) (f x)) -> emits k (concat (map g l)) (each f l).
Proof.
  intros Hk. induction l as [|x l IH]; intros Hf; [eapply emits_more; [apply emits_nil|done]|]. cbn [map concat each].
  apply emits_bind; [done|apply Hf; by left|]. intros _. apply IH. intros y Hy. apply Hf. by right.
Qed.

(** A step that adds all of [bs], or skips all of it, or the part before the offset. *)
Lemma emits_step bs (m : M page unit) : Forall is_byte bs ->
  (forall p, zlen bs <= pg_off p -> m p = (Ok (), p <| pg_off := pg_off p - zlen bs |>)) ->
  (forall p b, 0 <= pg_off p < zlen bs -> bt_buf_simple_add_mem (pg_buf p) (drop (Z.to_nat (pg_off p)) bs) = Some b ->
     m p = (Ok (), mk_page b 0)) -> emits 0 bs m.
Proof.
  intros Hb Hskip Hadd p Hw Ho Hr. destruct (Z.le_gt_cases (zlen bs) (pg_off p)) as [Hle|Hgt].
  - eexists _, _. split; [by apply Hskip|]. assert (drop (Z.to_nat (pg_off p)) bs = []) as Hd by (apply drop_ge; lia).
    split; rewrite ?Hd; cbn; rewrite ?app_nil_r; try done; try lia.
    unfold room. cbn. lia.
  - unfold room in Hr. destruct (add_mem_run (pg_buf p) (drop (Z.to_nat (pg_off p)) bs)) as (b & E & Hwb & Hcb & Hd & Hl & Hs);
      [done|by apply Forall_drop|lia|].
    eexists _, _. split; [apply Hadd; [lia|exact E]|]. split; cbn; [done|done|lia| |done]. unfold room. cbn. lia.
Qed.

Definition le16 (x : Z) : list Z := [u8 x; u8 (Z.shiftr x 8)].

Lemma page_eta p : mk_page (pg_buf p) (pg_off p) = p.
Proof. by destruct p. Qed.

Lemma add_mem_one b x : is_byte x -> bt_buf_simple_add_mem b [x] = bt_buf_simple_add_u8 b x.
Proof. intros Hx. unfold bt_buf_simple_add_u8. by rewrite u8_id. Qed.

Lemma emits_unit {A} k bs (m : M page A) : emits k bs (_ ← m; mret ()) -> emits k bs m.
Proof.
  intros Hm p Hw Ho Hr. destruct (Hm p Hw Ho Hr) as ([] & p' & E & He). apply bind_inv in E as (a & p1 & E & E1).
  injection E1 as ->. by exists a, p'.
Qed.

Lemma emits_u8 x : is_byte x -> emits 0 [x] (data_buf_add_u8_offset x).
Proof.
  intros Hx. apply emits_unit, emits_step; [by constructor|..]; intros p; unfold data_buf_add_u8_offset.
  - intros Ho. cbn in Ho. rewrite (bind_ok _ _ p None (p <| pg_off := pg_off p - 1 |>)); [done|].
    rewrite (bind_ok _ _ p p p) by done. rewrite (proj2 (Z.leb_le _ _)) by lia. done.
  - intros b Ho E. cbn in Ho. assert (pg_off p = 0) as Ho0 by lia. rewrite Ho0 in E. change (drop (Z.to_nat 0) [x]) with [x] in E. rewrite add_mem_one in E by done.
    rewrite (bind_ok _ _ p (Some (bt_buf_simple_tail (pg_buf p))) (mk_page b 0)); [done|].
    rewrite (bind_ok _ _ p p p) by done. rewrite Ho0. cbn [Z.leb Z.compare]. rewrite (bind_ok _ _ p () (mk_page b 0)); [done|].
    unfold set_buf. rewrite E. by rewrite <-Ho0.
Qed.

Lemma le16_bytes x : Forall is_byte (le16 x).
Proof. repeat constructor; apply u8_range. Qed.

Lemma emits_le16 x : 0 <= x < 65536 -> emits 0 (le16 x) (data_buf_add_le16_offset x).
Proof.
  intros Hx. apply emits_step; [apply le16_bytes|..]; intros p; unfold data_buf_add_le16_offset;
    rewrite (bind_ok _ _ p p p) by done.
  - intros Ho. cbn in Ho. by rewrite (proj2 (Z.leb_le _ _)) by lia.
  - intros b Ho E. cbn in Ho. rewrite (proj2 (Z.leb_gt _ _)) by lia. rewrite u16_id by done.
    destruct (Z.eqb_spec (pg_off p) 1) as [Ho1|Ho1].
    + rewrite Ho1 in *. change (drop (Z.to_nat 1) (le16 x)) with [u8 (Z.shiftr x 8)] in E. rewrite add_mem_one in E by apply u8_range.
      rewrite (bind_ok _ _ p () (p <| pg_off := 0 |>)) by (unfold set_off; done).
      unfold set_buf. change (pg_buf p) with (pg_buf p) in E. unfold bt_buf_simple_add_u8 in *.
      assert (u8 (u8 (Z.shiftr x 8)) = u8 (Z.shiftr x 8)) as Eu by (apply u8_id, u8_range). rewrite Eu in E. by rewrite E.
    + assert (pg_off p = 0) as Ho0 by lia. rewrite Ho0 in E. change (drop (Z.to_nat 0) (le16 x)) with (le16 x) in E.
      unfold set_buf, bt_buf_simple_add_le16, add_put. rewrite u16_id by done. change (sys_put_le16 x) with (le16 x).
      unfold bt_buf_simple_add_mem in E. change (zlen (le16 x)) with 2 in E. rewrite E. by rewrite <-Ho0.
Qed.

Lemma emits_mem bs : Forall is_byte bs -> emits 0 bs (data_buf_add_mem_offset bs).
Proof.
  intros Hb. apply emits_step; [done|..]; intros p; unfold data_buf_add_mem_offset; rewrite (bind_ok _ _ p p p) by done.
  - intros Ho. by rewrite (proj2 (Z.leb_le _ _)) by lia.
  - intros b Ho E. rewrite (proj2 (Z.leb_gt _ _)) by lia. rewrite (bind_ok _ _ p () (mk_page b (pg_off p))); [done|].
    unfold set_buf. by rewrite E.
Qed.

(** * The bytes of the pages *)

Definition u16_ok (x : Z) : Prop := 0 <= x < 65536.

Definition sig_bytes (m : bt_mesh_model) : list Z := le16 (sig_id (m_id m)).
Definition vnd_bytes (m : bt_mesh_model) : list Z := le16 (vnd_company (m_id m)) ++ le16 (vnd_id (m_id m)).

Definition elem_bytes (e : bt_mesh_elem) : list Z :=
  le16 (e_loc e) ++ [zlen (e_models e); zlen (e_vnd_models e)] ++ concat (map sig_bytes (e_models e)) ++
  concat (map vnd_bytes (e_vnd_models e)).

Definition page_0_bytes (cfg : comp_cfg) (comp : bt_mesh_comp) : list Z :=
  concat (map le16 [co_cid comp; co_pid comp; co_vid comp; k_crpl cfg; features cfg]) ++ concat (map elem_bytes (co_elem comp)).

(** The fields have the widths of the program's types. *)
Definition model_widths (m : bt_mesh_model) : Prop :=
  u16_ok (sig_id (m_id m)) /\ u16_ok (vnd_company (m_id m)) /\ u16_ok (vnd_id (m_id m)).
Record elem_widths (e : bt_mesh_elem) : Prop := {
  ew_loc : u16_ok (e_loc e);
  ew_models : Forall model_widths (e_models e) /\ zlen (e_models e) < 256;
  ew_vnd : Forall model_widths (e_vnd_models e) /\ zlen (e_vnd_models e) < 256
}.
Definition comp_widths (cfg : comp_cfg) (comp : bt_mesh_comp) : Prop :=
  u16_ok (co_cid comp) /\ u16_ok (co_pid comp) /\ u16_ok (co_vid comp) /\ u16_ok (k_crpl cfg) /\ Forall elem_widths (co_elem comp).

Lemma concat_length {A} (f : A -> list Z) l n : (forall x, x ∈ l -> length (f x) = n) -> length (concat (map f l)) = (n * length l)%nat.
Proof.
  induction l as [|x l IH]; intros Hf; [cbn; lia|]. cbn [map concat length]. rewrite length_app, IH, (Hf x); [lia|by left|].
  intros y Hy. apply Hf. by right.
Qed.

Lemma elem_bytes_length e : zlen (elem_bytes e) = bt_mesh_comp_elem_size e.
Proof.
  unfold elem_bytes, bt_mesh_comp_elem_size. rewrite !length_app, (concat_length _ _ 2), (concat_length _ _ 4) by done.
  cbn [length le16]. lia.
Qed.

Lemma features_range cfg : u16_ok (features cfg).
Proof. unfold u16_ok, features. destruct (k_relay cfg), (k_gatt_proxy cfg), (k_friend cfg), (k_low_power_feat cfg); split; by vm_compute. Qed.

(** A part that is skipped, or written when there is room for it and the MIC. *)
Lemma emits_part {A} bs (size : Z) (m : M page A) (skip : Z -> M page A) (full : M page A) :
  size = zlen bs -> 0 < size -> emits 0 bs m ->
  (forall p, size <= pg_off p -> exists a, skip (pg_off p - size) p = (Ok a, p <| pg_off := pg_off p - size |>)) ->
  emits BT_MESH_MIC_SHORT bs
    (off ← pg pg_off;
     if size <=? off then skip (off - size)
     else r ← tailroom; if r <? u64 (size - off + BT_MESH_MIC_SHORT) then full else m).
Proof.
  intros -> Hsize Hm Hskip p Hw Ho Hr. rewrite (bind_ok _ _ p (pg_off p) p) by done.
  destruct (Z.leb_spec (zlen bs) (pg_off p)) as [Hle|Hgt].
  - destruct (Hskip p Hle) as (a & Ea). exists a, (p <| pg_off := pg_off p - zlen bs |>). split; [done|].
    assert (drop (Z.to_nat (pg_off p)) bs = []) as Hd by (apply drop_ge; lia).
    split; rewrite ?Hd; cbn; rewrite ?app_nil_r; try done; try lia. unfold room. cbn. lia.
  - rewrite (bind_ok _ _ p (bt_buf_simple_tailroom (pg_buf p)) p) by done. rewrite length_drop in Hr. unfold BT_MESH_MIC_SHORT in *.
    assert (0 <= room p <= UINT16_MAX) as Hroom by (destruct Hw; unfold room; lia). unfold UINT16_MAX in *.
    rewrite tailroom_wf by done. fold (room p). rewrite u64_id by lia. rewrite (proj2 (Z.ltb_ge _ _)) by lia.
    apply Hm; [done|done|]. rewrite length_drop. lia.
Qed.

Lemma emits_model (vnd : bool) m : model_widths m -> emits 0 (if vnd then vnd_bytes m else sig_bytes m) (comp_add_model vnd m).
Proof.
  intros (H1 & H2 & H3). destruct vnd; cbn [comp_add_model]; [|by apply emits_le16].
  apply emits_bind; [done|by apply emits_le16|]. intros _. by apply emits_le16.
Qed.

Lemma emits_elem cfg e : elem_widths e -> emits BT_MESH_MIC_SHORT (elem_bytes e) (comp_add_elem cfg e).
Proof.
  intros [Hl [Hm Hn] [Hv Hvn]]. unfold comp_add_elem. cbv zeta.
  apply (emits_part (elem_bytes e) (bt_mesh_comp_elem_size e) _ set_off).
  - symmetry. apply elem_bytes_length.
  - unfold bt_mesh_comp_elem_size. lia.
  - unfold elem_bytes. apply emits_bind; [done|by apply emits_le16|]. intros _.
    change ([zlen (e_models e); zlen (e_vnd_models e)] ++ ?l) with ([zlen (e_models e)] ++ [zlen (e_vnd_models e)] ++ l).
    apply emits_bind; [done|apply emits_u8; unfold is_byte; lia|]. intros _.
    apply emits_bind; [done|apply emits_u8; unfold is_byte; lia|]. intros _.
    apply emits_bind; [done| |intros _]; apply (emits_each 0); try done; intros m Hin.
    + apply (emits_model false). by apply (proj1 (Forall_forall _ _) Hm).
    + apply (emits_model true). by apply (proj1 (Forall_forall _ _) Hv).
  - intros p Hp. by exists ().
Qed.

Lemma emits_page_0 cfg comp : comp_widths cfg comp -> emits BT_MESH_MIC_SHORT (page_0_bytes cfg comp) (bt_mesh_comp_data_get_page_0 cfg comp).
Proof.
  intros (H1 & H2 & H3 & H4 & H5). assert (0 <= BT_MESH_MIC_SHORT) as Hk by done.
  assert (forall x, u16_ok x -> emits BT_MESH_MIC_SHORT (le16 x) (data_buf_add_le16_offset x)) as Hx
    by (intros x Hx; by eapply emits_more; [apply emits_le16|]).
  unfold page_0_bytes, bt_mesh_comp_data_get_page_0. cbn [map concat]. rewrite <-!app_assoc. cbn [app].
  repeat (apply emits_bind; [done|apply Hx; done || apply features_range|intros _]).
  apply emits_each; [done|]. intros e He. apply emits_elem. by apply (proj1 (Forall_forall _ _) H5).
Qed.

(** ** Page 2 *)

Definition record_bytes (r : bt_mesh_comp2_record) : list Z :=
  le16 (c2_id r) ++ [c2_x r; c2_y r; c2_z r; zlen (c2_elem_offset r)] ++ c2_elem_offset r ++ le16 (zlen (c2_data r)) ++ c2_data r.

Record record_widths (r : bt_mesh_comp2_record) : Prop := {
  rw_id : u16_ok (c2_id r);
  rw_version : is_byte (c2_x r) /\ is_byte (c2_y r) /\ is_byte (c2_z r);
  rw_elems : Forall is_byte (c2_elem_offset r) /\ zlen (c2_elem_offset r) < 256;
  rw_data : Forall is_byte (c2_data r) /\ zlen (c2_data r) < 65536
}.

Lemma record_bytes_length r : zlen (record_bytes r) = record_size r.
Proof. unfold record_bytes, record_size. rewrite !length_app. cbn [length le16]. lia. Qed.

(** A part in a loop, which goes on after it. *)
Lemma emits_loop bs bs' (size : Z) (m full rest : M page unit) :
  size = zlen bs -> 0 < size -> emits 0 bs m -> emits BT_MESH_MIC_SHORT bs' rest ->
  emits BT_MESH_MIC_SHORT (bs ++ bs')
    (off ← pg pg_off;
     if size <=? off then _ ← set_off (off - size); rest
     else r ← tailroom; if r <? u64 (size - off + BT_MESH_MIC_SHORT) then full else _ ← m; rest).
Proof.
  intros Hsize Hpos Hm Hrest p Hw Ho Hr.
  set (part := off ← pg pg_off; if size <=? off then set_off (off - size)
    else r ← tailroom; if r <? u64 (size - off + BT_MESH_MIC_SHORT) then full else m).
  assert (emits BT_MESH_MIC_SHORT bs part) as Hpart by (apply emits_part; [done..|intros q Hq; by exists ()]).
  destruct (emits_bind BT_MESH_MIC_SHORT bs bs' _ (fun _ => rest) ltac:(done) Hpart (fun _ => Hrest) p Hw Ho Hr) as (a & p' & E & He).
  exists a, p'. split; [|done]. rewrite <-E. clear E He. rewrite (bind_ok _ _ p (pg_off p) p) by done.
  destruct (Z.leb_spec size (pg_off p)) as [Hle|Hgt].
  - assert (part p = set_off (pg_off p - size) p) as Ep.
    { unfold part. rewrite (bind_ok _ _ p (pg_off p) p) by done. by rewrite (proj2 (Z.leb_le _ _)). }
    unfold mbind, M_bind. by rewrite Ep.
  - rewrite (bind_ok _ _ p (bt_buf_simple_tailroom (pg_buf p)) p) by done. rewrite length_drop, length_app in Hr. unfold BT_MESH_MIC_SHORT in *.
    assert (0 <= room p <= UINT16_MAX) as Hroom by (destruct Hw; unfold room; lia). unfold UINT16_MAX in *.
    assert (bt_buf_simple_tailroom (pg_buf p) <? u64 (size - pg_off p + 4) = false) as Hfit.
    { rewrite tailroom_wf by done. fold (room p). rewrite u64_id by lia. apply Z.ltb_ge. lia. }
    assert (part p = m p) as Ep.
    { unfold part. rewrite (bind_ok _ _ p (pg_off p) p) by done. rewrite (proj2 (Z.leb_gt _ _)) by done.
      rewrite (bind_ok _ _ p (bt_buf_simple_tailroom (pg_buf p)) p) by done. by rewrite Hfit. }
    rewrite Hfit. unfold mbind, M_bind. by rewrite Ep.
Qed.

Lemma emits_if_mem bs : Forall is_byte bs -> emits 0 bs (if zlen bs =? 0 then mret () else data_buf_add_mem_offset bs).
Proof.
  intros Hb. destruct (Z.eqb_spec (zlen bs) 0) as [E|]; [|by apply emits_mem].
  destruct bs; [apply emits_nil|cbn in E; lia].
Qed.

Lemma emits_record r : record_widths r -> emits 0 (record_bytes r) (add_record r).
Proof.
  intros [Hi (Hx & Hy & Hz) [He Hen] [Hd Hdn]]. unfold record_bytes, add_record. cbn [app].
  apply emits_bind; [done|by apply emits_le16|]. intros _.
  apply (emits_bind 0 [_]); [done|by apply emits_u8|]. intros _.
  apply (emits_bind 0 [_]); [done|by apply emits_u8|]. intros _.
  apply (emits_bind 0 [_]); [done|by apply emits_u8|]. intros _.
  apply (emits_bind 0 [_]); [done|apply emits_u8; unfold is_byte; lia|]. intros _.
  apply emits_bind; [done|by apply emits_if_mem|]. intros _.
  apply emits_bind; [done|apply emits_le16; lia|]. intros _. by apply emits_if_mem.
Qed.

Lemma emits_page_2 cfg l : Forall record_widths l -> emits BT_MESH_MIC_SHORT (concat (map record_bytes l)) (page_2_loop cfg l).
Proof.
  induction 1 as [|r l Hr Hl IH]; [eapply emits_more; [apply emits_nil|done]|]. cbn [map concat page_2_loop].
  apply emits_loop; [symmetry; apply record_bytes_length|unfold record_size; lia|by apply emits_record|done].
Qed.

(** ** Both pages *)

(** The bytes of a page of a node. *)
Definition page_bytes (cfg : comp_cfg) (comp : bt_mesh_comp) (comp2 : option (list bt_mesh_comp2_record)) (page : Z) : option (list Z) :=
  if (page =? 0) || (page =? 128) then Some (page_0_bytes cfg comp)
  else if k_page_2 cfg && ((page =? 2) || (page =? 130)) then (fun l => concat (map record_bytes l)) <$> comp2
  else None.

Lemma zsum_lengths {A} (f : A -> list Z) (g : A -> Z) l : (forall x, zlen (f x) = g x) -> zlen (concat (map f l)) = zsum (map g l).
Proof.
  intros Hf. induction l as [|x l IH]; [done|]. cbn [map concat zsum foldr]. rewrite length_app. unfold zsum in IH.
  rewrite Nat2Z.inj_add, IH, Hf. done.
Qed.

(** C31: Pages 0 and 2 of the composition data can be read from any place on.  If there is
    room for the rest of the page and a MIC, [bt_mesh_comp_data_get_page] appends exactly
    the bytes of the page from the offset on, whichever elements or records the offset
    skips or falls into, and the size the node announces is the length of the page. *)
Theorem comp_page_read cfg comp rel comp2 page bs buf off :
  page_bytes cfg comp comp2 page = Some bs ->
  comp_widths cfg comp -> Forall record_widths (default [] comp2) ->
  wf buf -> 0 <= off -> zlen (drop (Z.to_nat off) bs) + BT_MESH_MIC_SHORT <= bt_buf_simple_tailroom buf ->
  exists buf' off', bt_mesh_comp_data_get_page cfg comp rel comp2 page (mk_page buf off) = (Ok (), mk_page buf' off') /\
    wf buf' /\ content buf' = content buf ++ drop (Z.to_nat off) bs /\
    bt_mesh_comp_page_size cfg comp rel comp2 page = zlen bs.
Proof.
  intros Hpage Hcw Hrw Hw Ho Hroom. rewrite tailroom_wf in Hroom by done. unfold page_bytes, bt_mesh_comp_data_get_page, bt_mesh_comp_page_size in *.
  destruct ((page =? 0) || (page =? 128)) eqn:H0.
  - injection Hpage as <-. destruct (emits_page_0 cfg comp Hcw (mk_page buf off) Hw Ho Hroom) as ([] & [buf' off'] & E & [H1 H2 _ _ _]).
    exists buf', off'. split_and!; [done..|]. unfold comp_page_0_size, page_0_bytes. rewrite length_app, Nat2Z.inj_add.
    rewrite (zsum_lengths elem_bytes bt_mesh_comp_elem_size) by apply elem_bytes_length. done.
  - destruct (k_page_2 cfg && ((page =? 2) || (page =? 130))) eqn:H2; [|done].
    assert (k_page_1 cfg && ((page =? 1) || (page =? 129)) = false) as ->.
    { apply andb_true_iff in H2 as [_ [->%Z.eqb_eq| ->%Z.eqb_eq]%orb_true_iff]; apply andb_false_r. }
    destruct comp2 as [l|]; [|done]. injection Hpage as <-.
    destruct (emits_page_2 cfg l Hrw (mk_page buf off) Hw Ho Hroom) as ([] & [buf' off'] & E & [H3 H4 _ _ _]).
    exists buf', off'. split_and!; [done..|]. unfold comp_page_2_size. symmetry. apply zsum_lengths, record_bytes_length.
Qed.

(** * Reading *)

(** What is read as a little-endian number behind [n] bytes. *)
Lemma le16_get x rest : u16_ok x -> sys_get_le16 (le16 x ++ rest) = x.
Proof.
  intros Hx. unfold le16. cbn [app]. rewrite get_le16_val by apply u8_range. rewrite Z.shiftr_div_pow2 by lia. unfold u8, u16_ok in *.
  change (2 ^ 8) with 256. pose proof (Z.div_mod x 256). assert (0 <= x / 256 < 256) by (split; [apply Z.div_pos; lia|apply Z.div_lt_upper_bound; lia]).
  rewrite (Z.mod_small (x / 256)) by lia. lia.
Qed.

Lemma pull_le16_run buf x rest : wf buf -> u16_ok x -> content buf = le16 x ++ rest ->
  exists buf', bt_buf_simple_pull_le16 buf = Some (x, buf') /\ wf buf' /\ content buf' = rest.
Proof.
  intros Hw Hx Hc. destruct (pull_run buf 2 (le16 x) rest Hw Hc eq_refl) as (_ & _ & Hw' & Hc' & _).
  exists (pulled buf 2). split; [|done]. unfold bt_buf_simple_pull_le16. rewrite (pull_get_run _ _ _ _ _ Hw Hc eq_refl).
  by rewrite <-(app_nil_r (le16 x)), le16_get.
Qed.

Lemma pull_u8_ex buf x rest : wf buf -> content buf = x :: rest ->
  exists buf', bt_buf_simple_pull_u8 buf = Some (x, buf') /\ wf buf' /\ content buf' = rest.
Proof.
  intros Hw Hc. destruct (pull_run buf 1 [x] rest Hw Hc eq_refl) as (_ & _ & Hw' & Hc' & _).
  exists (pulled buf 1). split; [|done]. by apply (pull_u8_run _ _ rest).
Qed.

Lemma pull_bytes_run buf bs rest : wf buf -> content buf = bs ++ rest ->
  exists buf', pull_bytes (zlen bs) buf = Some (bs, buf') /\ wf buf' /\ content buf' = rest.
Proof.
  intros Hw Hc. destruct (pull_run buf (zlen bs) bs rest Hw Hc eq_refl) as (Er & _ & Hw' & Hc' & _).
  exists (pulled buf (zlen bs)). split; [|done]. unfold pull_bytes. rewrite Er. cbn.
  assert (take (length bs) (content buf) = bs) as Ht by (rewrite Hc; apply take_app_length).
  destruct (pull_mem_run buf (zlen bs) rest) as (-> & _); [done|lia|rewrite Nat2Z.id, Ht; exact Hc|..].
  - pose proof (content_length buf Hw) as Hl. rewrite Hc, length_app in Hl. lia.
  - done.
Qed.

Lemma drop_concat {A} (f : A -> list Z) n l i : (forall x, x ∈ l -> length (f x) = n) ->
  drop (n * i) (concat (map f l)) = concat (map f (drop i l)).
Proof.
  revert i. induction l as [|x l IH]; intros i Hf; [change (concat (map f [])) with (@nil Z); by rewrite !drop_nil|].
  destruct i as [|i]; [by rewrite Nat.mul_0_r|].
  cbn [map concat]. rewrite drop_app_ge by (rewrite (Hf x) by (by left); lia). rewrite (Hf x) by by left.
  replace (n * S i - n)%nat with (n * i)%nat by lia. rewrite IH; [done|]. intros y Hy. apply Hf. by right.
Qed.

(** What a client knows of an element: its location, its models and its vendor models. *)
Definition elem_info : Type := Z * list Z * list (Z * Z).
Definition info_of (e : bt_mesh_elem) : elem_info :=
  (e_loc e, map (fun m => sig_id (m_id m)) (e_models e), map (fun m => (vnd_company (m_id m), vnd_id (m_id m))) (e_vnd_models e)).

Definition info_read (e : bt_mesh_comp_p0_elem) : elem_info :=
  (p0_loc e, map (fun i => bt_mesh_comp_p0_elem_mod e (Z.of_nat i)) (seq 0 (Z.to_nat (p0_nsig e))),
   map (fun i => bt_mesh_comp_p0_elem_mod_vnd e (Z.of_nat i)) (seq 0 (Z.to_nat (p0_nvnd e)))).

Lemma map_seq_lookup {A B} (f : nat -> B) (g : A -> B) l : (forall i x, l !! i = Some x -> f i = g x) ->
  map f (seq 0 (length l)) = map g l.
Proof.
  intros Hf. apply list_eq. intros i. rewrite !list_lookup_fmap. destruct (l !! i) as [x|] eqn:E.
  - rewrite lookup_seq_lt by (by eapply lookup_lt_Some). cbn. by rewrite (Hf i x).
  - apply lookup_ge_None in E. by rewrite lookup_seq_ge.
Qed.

Lemma info_read_elem e : elem_widths e ->
  info_read (mk_p0_elem (e_loc e) (zlen (e_models e)) (zlen (e_vnd_models e))
    (concat (map sig_bytes (e_models e)) ++ concat (map vnd_bytes (e_vnd_models e)))) = info_of e.
Proof.
  intros [_ [Hm _] [Hv _]]. unfold info_read, info_of. cbn [p0_loc p0_nsig p0_nvnd]. rewrite !Nat2Z.id. f_equal; [f_equal|].
  - apply map_seq_lookup. intros i m Hi. unfold bt_mesh_comp_p0_elem_mod. cbn [p0_nsig p0_buf].
    pose proof (lookup_lt_Some _ _ _ Hi). rewrite (proj2 (Z.leb_gt _ _)) by lia. replace (Z.to_nat (Z.of_nat i * 2)) with (2 * i)%nat by lia.
    rewrite drop_app_le by (rewrite (concat_length _ _ 2) by done; lia). rewrite (drop_concat _ 2) by done.
    rewrite (drop_S _ _ _ Hi). cbn [map concat]. rewrite <-app_assoc. apply le16_get.
    by apply (proj1 (Forall_lookup _ _) Hm i m).
  - apply map_seq_lookup. intros i m Hi. unfold bt_mesh_comp_p0_elem_mod_vnd. cbn [p0_nsig p0_nvnd p0_buf]. cbv zeta.
    pose proof (lookup_lt_Some _ _ _ Hi). rewrite (proj2 (Z.leb_gt _ _)) by lia.
    assert (forall k, (k <= 4)%nat -> drop (Z.to_nat (zlen (e_models e) * 2 + Z.of_nat i * 4 + Z.of_nat k))
      (concat (map sig_bytes (e_models e)) ++ concat (map vnd_bytes (e_vnd_models e))) =
      drop k (vnd_bytes m ++ concat (map vnd_bytes (drop (S i) (e_vnd_models e))))) as Hd.
    { intros k Hk. replace (Z.to_nat (zlen (e_models e) * 2 + Z.of_nat i * 4 + Z.of_nat k))
        with (length (concat (map sig_bytes (e_models e))) + (4 * i + k))%nat by (rewrite (concat_length _ _ 2) by done; lia).
      rewrite drop_app_add, <-drop_drop, (drop_concat _ 4) by done. by rewrite (drop_S _ _ _ Hi). }
    pose proof (proj1 (Forall_lookup _ _) Hv i m Hi) as (_ & H1 & H2).
    pose proof (Hd 0%nat ltac:(lia)) as E0. rewrite Z.add_0_r in E0. rewrite E0.
    pose proof (Hd 2%nat ltac:(lia)) as E2. change (Z.of_nat 2) with 2 in E2. rewrite E2.
    unfold vnd_bytes. rewrite <-!app_assoc. f_equal; [by apply le16_get|].
    change (drop 2 (le16 (vnd_company (m_id m)) ++ ?l)) with l. by apply le16_get.
Qed.

Lemma elem_pull_run e buf rest : elem_widths e -> wf buf -> content buf = elem_bytes e ++ rest ->
  exists p0 buf', bt_mesh_comp_p0_elem_pull buf = Some (Some p0, buf') /\ info_read p0 = info_of e /\ wf buf' /\ content buf' = rest.
Proof.
  intros He Hw Hc. pose proof He as [Hl [Hm Hn] [Hv Hvn]]. pose proof (content_length buf Hw) as Hlen.
  pose proof (elem_bytes_length e) as Hel. unfold bt_mesh_comp_elem_size in Hel. rewrite Hc, length_app in Hlen.
  unfold elem_bytes in Hc. rewrite <-!app_assoc in Hc. cbn [app] in Hc. unfold bt_mesh_comp_p0_elem_pull.
  rewrite (proj2 (Z.ltb_ge _ _)) by lia.
  destruct (pull_le16_run buf (e_loc e) _ Hw Hl Hc) as (b1 & -> & Hw1 & Hc1). cbn [mbind option_bind].
  destruct (pull_u8_ex b1 _ _ Hw1 Hc1) as (b2 & -> & Hw2 & Hc2). cbn [mbind option_bind].
  destruct (pull_u8_ex b2 _ _ Hw2 Hc2) as (b3 & -> & Hw3 & Hc3). cbn [mbind option_bind]. cbv zeta.
  rewrite app_assoc in Hc3. set (bs := concat (map sig_bytes (e_models e)) ++ concat (map vnd_bytes (e_vnd_models e))) in *.
  assert (zlen (e_models e) * 2 + zlen (e_vnd_models e) * 4 = zlen bs) as Hbs.
  { unfold bs. rewrite length_app, (concat_length _ _ 2), (concat_length _ _ 4) by done. lia. }
  pose proof (content_length b3 Hw3) as Hl3. rewrite Hc3, length_app in Hl3. rewrite Hbs.
  rewrite (proj2 (Z.ltb_ge _ _)) by lia. destruct (pull_bytes_run b3 bs rest Hw3 Hc3) as (b4 & -> & Hw4 & Hc4). cbn [mbind option_bind].
  eexists _, b4. split; [done|]. split_and!; [by apply info_read_elem|done|done].
Qed.

(** A client pulls elements until there are no more. *)
Fixpoint read_elems (n : nat) (buf : bt_buf_simple) : option (list elem_info) :=
  match n with
  | O => None
  | S n =>
      '(e, buf) ← bt_mesh_comp_p0_elem_pull buf;
      match e with
      | None => Some []
      | Some e => rest ← read_elems n buf; Some (info_read e :: rest)
      end
  end.

Lemma read_elems_run l : Forall elem_widths l -> forall n buf, wf buf -> content buf = concat (map elem_bytes l) -> (length l < n)%nat ->
  read_elems n buf = Some (map info_of l).
Proof.
  induction 1 as [|e l He _ IH]; intros [|n] buf Hw Hc Hn; try (cbn in Hn; lia); cbn [read_elems].
  - unfold bt_mesh_comp_p0_elem_pull. pose proof (content_length buf Hw) as Hl. rewrite Hc in Hl. cbn in Hl.
    rewrite (proj2 (Z.ltb_lt _ _)) by lia. done.
  - destruct (elem_pull_run e buf _ He Hw Hc) as (p0 & b & -> & Hi & Hw' & Hc'). cbn [mbind option_bind].
    rewrite (IH n b Hw' Hc') by (cbn in Hn; lia). cbn. by rewrite Hi.
Qed.

(** C30: A client learns the composition of a node from its page 0.  If the page fits,
    [bt_mesh_comp_p0_get] on what the node wrote gives its identifiers and features, and
    pulling elements until there are no more gives the location, the models and the vendor
    models of every element, in order. *)
Theorem comp_page_0_roundtrip cfg comp rel comp2 buf :
  comp_widths cfg comp -> wf buf -> content buf = [] ->
  zlen (page_0_bytes cfg comp) + BT_MESH_MIC_SHORT <= bt_buf_simple_tailroom buf ->
  exists buf' off' rest, bt_mesh_comp_data_get_page cfg comp rel comp2 0 (mk_page buf 0) = (Ok (), mk_page buf' off') /\
    bt_mesh_comp_p0_get buf' =
      Some (inl (mk_p0 (co_cid comp) (co_pid comp) (co_vid comp) (k_crpl cfg) (features cfg)), rest) /\
    forall n, (length (co_elem comp) < n)%nat -> read_elems n rest = Some (map info_of (co_elem comp)).
Proof.
  intros Hcw Hw Hc Hroom. rewrite tailroom_wf in Hroom by done. pose proof Hcw as (H1 & H2 & H3 & H4 & H5).
  destruct (emits_page_0 cfg comp Hcw (mk_page buf 0) Hw ltac:(done) Hroom) as ([] & [buf' off'] & E & [Hw' Hc' _ _ _]).
  cbn [pg_buf pg_off] in Hc', Hw'. rewrite Hc in Hc'. cbn [app] in Hc'. change (drop (Z.to_nat 0) ?l) with l in Hc'.
  unfold page_0_bytes in Hc'. cbn [map concat] in Hc'. rewrite <-!app_assoc in Hc'. cbn [app] in Hc'.
  pose proof (content_length buf' Hw') as Hlen. rewrite Hc', !length_app in Hlen. cbn [length le16] in Hlen.
  assert (b_len buf' <? 10 = false) as Hlt by (apply Z.ltb_ge; lia).
  destruct (pull_le16_run buf' _ _ Hw' H1 Hc') as (b1 & E1 & Hw1 & Hc1).
  destruct (pull_le16_run b1 _ _ Hw1 H2 Hc1) as (b2 & E2 & Hw2 & Hc2).
  destruct (pull_le16_run b2 _ _ Hw2 H3 Hc2) as (b3 & E3 & Hw3 & Hc3).
  destruct (pull_le16_run b3 _ _ Hw3 H4 Hc3) as (b4 & E4 & Hw4 & Hc4).
  destruct (pull_le16_run b4 _ _ Hw4 (features_range cfg) Hc4) as (b5 & E5 & Hw5 & Hc5).
  exists buf', off', b5. split; [exact E|]. split.
  - unfold bt_mesh_comp_p0_get. rewrite Hlt, E1. cbn [mbind option_bind]. rewrite E2. cbn [mbind option_bind].
    rewrite E3. cbn [mbind option_bind]. rewrite E4. cbn [mbind option_bind]. by rewrite E5.
  - intros n Hn. by apply read_elems_run.
Qed.
