(* ===== verification/AccessStore.v ===== *)
(** The stored keys, subscriptions and publications of the models of [access.c]: what the
    storage job writes, and that a restart finds it again. *)

From S2P Require Import Prelude Byteorder BufSimple MeshDefs CryptoIf Crypto Va Net Transport Access AccessExt.

#[export] Instance mod_key_name_eq_dec : EqDecision mod_key_name.
Proof. solve_decision. Defined.
#[export] Instance mod_path_eq_dec : EqDecision mod_path.
Proof. solve_decision. Defined.

(** * Names *)

(** The name of a record of model [r]: the number has the element in its upper byte. *)
Definition ref_path (r : mod_ref) (name : mod_key_name) : mod_path :=
  mk_path (r_vnd r) (Z.of_nat (r_elem r) * 256 + Z.of_nat (r_idx r)) name.

(** The models know where they are, and there are few enough to be numbered. *)
Definition numbered (c : bt_mesh_comp) : Prop := forall r, r ∈ comp_refs c ->
  (r_elem r < 256)%nat /\ (r_idx r < 256)%nat /\
  m_elem_idx (model_at r c) = Z.of_nat (r_elem r) /\ m_mod_idx (model_at r c) = Z.of_nat (r_idx r).

(** The numbers fit in a byte each. *)
Definition few (l : list mod_ref) : Prop := forall r, r ∈ l -> (r_elem r < 256)%nat /\ (r_idx r < 256)%nat.

Lemma numbered_few c : numbered c -> few (comp_refs c).
Proof. intros Hn r Hr. by destruct (Hn r Hr) as (? & ? & _). Qed.

Lemma ref_path_inj l r r' name name' : few l -> r ∈ l -> r' ∈ l -> ref_path r name = ref_path r' name' -> r = r' /\ name = name'.
Proof.
  intros Hn Hr Hr' [= Ev Ek En]. destruct (Hn r Hr) as (_ & Hi), (Hn r' Hr') as (_ & Hi').
  split; [|done]. destruct r, r'. cbn in *. f_equal; [lia|done|lia].
Qed.

Lemma mod_key_val m e i : (e < 256)%nat -> (i < 256)%nat -> m_elem_idx m = Z.of_nat e -> m_mod_idx m = Z.of_nat i ->
  mod_key m = Z.of_nat e * 256 + Z.of_nat i.
Proof.
  intros He Hi E1 E2. unfold mod_key. rewrite E1, E2, Z.shiftl_mul_pow2 by lia. change (2 ^ 8) with 256. rewrite u16_id by lia.
  change 256 with (2 ^ 8) at 1. rewrite <-Z.shiftl_mul_pow2 by lia. rewrite lor_shl_add by (simpl Z.pow; lia). done.
Qed.

Lemma encode_path c r name : numbered c -> r ∈ comp_refs c -> encode_mod_path r (model_at r c) name = ref_path r name.
Proof. intros Hn Hr. destruct (Hn r Hr) as (H1 & H2 & H3 & H4). unfold encode_mod_path, ref_path. by rewrite (mod_key_val _ _ _ H1 H2 H3 H4). Qed.

Lemma model_get_ref c r : few (comp_refs c) -> r ∈ comp_refs c ->
  let k := Z.of_nat (r_elem r) * 256 + Z.of_nat (r_idx r) in
  bt_mesh_model_get c (r_vnd r) (u8 (Z.shiftr (u16 k) 8)) (u8 (u16 k)) = Some r.
Proof.
  intros Hn Hr k. destruct (Hn r Hr) as (H1 & H2). unfold k. rewrite u16_id by lia. rewrite Z.shiftr_div_pow2 by lia. change (2 ^ 8) with 256.
  assert ((Z.of_nat (r_elem r) * 256 + Z.of_nat (r_idx r)) / 256 = Z.of_nat (r_elem r)) as ->
    by (rewrite Z.div_add_l, (Z.div_small (Z.of_nat (r_idx r))) by lia; lia).
  assert (u8 (Z.of_nat (r_elem r) * 256 + Z.of_nat (r_idx r)) = Z.of_nat (r_idx r)) as ->
    by (unfold u8; rewrite Z.add_comm, Z.mod_add by lia; apply Z.mod_small; lia).
  rewrite u8_id by lia. unfold bt_mesh_model_get. apply elem_of_comp_refs in Hr as [m (e & He & Hm)%bind_Some].
  pose proof (lookup_lt_Some _ _ _ He). pose proof (lookup_lt_Some _ _ _ Hm).
  rewrite (proj2 (Z.leb_gt _ _)) by lia. rewrite !Nat2Z.id. unfold elem_at. rewrite (list_lookup_total_correct _ _ _ He).
  rewrite (proj2 (Z.leb_gt _ _)) by lia. by destruct r.
Qed.

(** * The storage *)

(** The records after the calls of a log. *)
Definition disk : Type := mod_path -> option mod_record.
Definition disk_step (d : disk) (o : access_ext) : disk :=
  match o with
  | AccSave p r => fun q => if decide (q = p) then Some r else d q
  | AccDelete p => fun q => if decide (q = p) then None else d q
  | _ => d
  end.
Definition disk_after (d : disk) (l : list access_ext) : disk := foldl disk_step d l.

(** What is to be stored of a model. *)
Definition words (l : list Z) : option mod_record := if zlen l =? 0 then None else Some (RecWords l).
Definition record_of (vas : list bt_mesh_va) (m : bt_mesh_model) (name : mod_key_name) : option mod_record :=
  match name with
  | KeyBind => words (filter (fun k => k <> BT_MESH_KEY_UNUSED) (m_keys m))
  | KeySub => words (filter (fun g => g <> BT_MESH_ADDR_UNASSIGNED) (m_groups m))
  | KeySubV => words (uuid_idxs vas (m_uuids m))
  | KeyPub =>
      match m_pub m with
      | Some p => if p_addr p =? BT_MESH_ADDR_UNASSIGNED then None else Some (RecPub (pub_val vas p))
      | None => None
      end
  | KeyData => None
  end.

(** The flag that a change of it sets. *)
Definition flag_of (name : mod_key_name) : Z :=
  match name with
  | KeyBind => BT_MESH_MOD_BIND_PENDING
  | KeySub | KeySubV => BT_MESH_MOD_SUB_PENDING
  | KeyPub => BT_MESH_MOD_PUB_PENDING
  | KeyData => BT_MESH_MOD_DATA_PENDING
  end.
Definition pending (m : bt_mesh_model) (name : mod_key_name) : bool := negb (Z.land (m_flags m) (flag_of name) =? 0).

(** The call that stores one record. *)
Definition put (p : mod_path) (r : option mod_record) : access_ext :=
  match r with Some r => AccSave p r | None => AccDelete p end.

(** The calls for a model; without labels there is no record of them. *)
Definition puts (vas : list bt_mesh_va) (r : mod_ref) (m : bt_mesh_model) : list access_ext :=
  let one name := put (ref_path r name) (record_of vas m name) in
  (if pending m KeyBind then [one KeyBind] else []) ++
  (if pending m KeySub then [one KeySub] ++ (if zlen (m_uuids m) =? 0 then [] else [one KeySubV]) else []) ++
  (if pending m KeyPub then [one KeyPub] else []).

Lemma disk_after_app d l l' : disk_after d (l ++ l') = disk_after (disk_after d l) l'.
Proof. apply foldl_app. Qed.

Lemma disk_after_put d p r q : disk_step d (put p r) q = if decide (q = p) then r else d q.
Proof. by destruct r. Qed.

(** What the calls for a model leave behind. *)
Lemma disk_puts d vas r m name : name <> KeyData -> (m_uuids m = [] -> d (ref_path r KeySubV) = None) ->
  disk_after d (puts vas r m) (ref_path r name) = if pending m name then record_of vas m name else d (ref_path r name).
Proof.
  intros Hname Hu. unfold puts, disk_after. assert (pending m KeySubV = pending m KeySub) as Es by done.
  assert (m_uuids m = [] -> record_of vas m KeySubV = None) as Hnone by (intros E; cbn; by rewrite E).
  rewrite !foldl_app. destruct name; try done; rewrite ?Es; destruct (pending m KeyBind), (pending m KeySub), (pending m KeyPub);
    destruct (Z.eqb_spec (zlen (m_uuids m)) 0) as [E|E]; cbn [foldl app]; rewrite ?disk_after_put; repeat case_decide; simplify_eq; try done;
    (assert (m_uuids m = []) as Eu by (destruct (m_uuids m); [done|cbn in E; lia])); rewrite Hnone by done; by apply Hu.
Qed.

Lemma disk_puts_other d vas r m p : (forall name, name <> KeyData -> p <> ref_path r name) -> disk_after d (puts vas r m) p = d p.
Proof.
  intros Hp. unfold puts, disk_after. rewrite !foldl_app.
  destruct (pending m KeyBind), (pending m KeySub), (pending m KeyPub), (zlen (m_uuids m) =? 0); cbn [foldl app];
    rewrite ?disk_after_put, ?decide_False by (by apply Hp); done.
Qed.

(** What the calls for several models leave behind. *)
Lemma disk_all (vas : list bt_mesh_va) (f : mod_ref -> bt_mesh_model) all L : few all -> NoDup L -> (forall r, r ∈ L -> r ∈ all) ->
  forall d r name, r ∈ all -> name <> KeyData -> (forall r, r ∈ all -> m_uuids (f r) = [] -> d (ref_path r KeySubV) = None) ->
  disk_after d (concat ((fun r => puts vas r (f r)) <$> L)) (ref_path r name) =
    if bool_decide (r ∈ L) && pending (f r) name then record_of vas (f r) name else d (ref_path r name).
Proof.
  intros Hf Hd. induction Hd as [|x L Hx Hd IH]; intros Hall d r name Hr Hname Hu; [done|].
  cbn [fmap list_fmap concat]. rewrite disk_after_app. set (d1 := disk_after d _).
  assert (forall r, r ∈ all -> r <> x -> forall n, d1 (ref_path r n) = d (ref_path r n)) as Hoth.
  { intros y Hy Hne n. apply disk_puts_other. intros n' _ E. destruct (ref_path_inj _ _ _ _ _ Hf Hy (Hall x (list_elem_of_here _ _)) E). done. }
  assert (x ∈ all) as Hxa by (apply Hall; by left).
  assert (forall n, n <> KeyData -> d1 (ref_path x n) = if pending (f x) n then record_of vas (f x) n else d (ref_path x n)) as Hthis.
  { intros n Hn. apply disk_puts; [done|]. by apply Hu. }
  rewrite IH; [|by intros; apply Hall; right|done|done|].
  - destruct (decide (r = x)) as [->|Hne].
    + rewrite (bool_decide_eq_false_2 (x ∈ L)) by done. rewrite (bool_decide_eq_true_2 (x ∈ x :: L)) by by left. by rewrite Hthis.
    + rewrite Hoth by done. rewrite (bool_decide_ext (r ∈ x :: L) (r ∈ L)); [done|]. rewrite elem_of_cons. naive_solver.
  - intros y Hy Eu. destruct (decide (y = x)) as [->|Hne]; [|rewrite Hoth by done; by apply Hu].
    rewrite Hthis by done. destruct (pending _ _); [|by apply Hu]. cbn. by rewrite Eu.
Qed.

(** * Storing *)

Section Store.

Context {X W : Type} `{MeshCrypto W} (acfg : access_cfg).
Notation st := (access X W).
Context (app : app_ops st).
Implicit Types s t : st.
Implicit Types r : mod_ref.

(** There is room for the records, and no data of its own to be stored by the model. *)
Definition storable (m : bt_mesh_model) : Prop :=
  zlen (m_keys m) <= MODEL_KEY_COUNT acfg /\ zlen (m_groups m) <= MODEL_GROUP_COUNT acfg /\
  Z.land (m_flags m) BT_MESH_MOD_DATA_PENDING = 0.

(** From [s] to [s'] the calls [l] were made and the flags of [r] have changed. *)
Record stored r (l : list access_ext) s s' : Prop := {
  sd_refs : comp_refs (a_comp s') = comp_refs (a_comp s);
  sd_other : forall x, x <> r -> model_at x (a_comp s') = model_at x (a_comp s);
  sd_model : exists f, model_at r (a_comp s') = model_at r (a_comp s) <| m_flags := f |>;
  sd_vas : a_vas s' = a_vas s;
  sd_ext : a_ext s' = a_ext s ++ l
}.

Lemma stored_refl r s : stored r [] s s.
Proof. split; try done; [exists (m_flags (model_at r (a_comp s))); by destruct (model_at r _)|by rewrite app_nil_r]. Qed.

Lemma stored_trans r l1 l2 s s1 s2 : stored r l1 s s1 -> stored r l2 s1 s2 -> stored r (l1 ++ l2) s s2.
Proof.
  intros [R1 O1 [f1 M1] V1 E1] [R2 O2 [f2 M2] V2 E2]. split.
  - by rewrite R2.
  - intros x Hx. by rewrite O2, O1.
  - exists f2. by rewrite M2, M1.
  - by rewrite V2.
  - by rewrite E2, E1, app_assoc.
Qed.

Lemma stored_log r o s : stored r [o] s (s <| a_ext ::= (fun e => e ++ [o]) |>).
Proof. split; try done. exists (m_flags (model_at r (a_comp s))). cbn. by destruct (model_at r _). Qed.

Lemma uuid_idxs_length vas l : (length (uuid_idxs vas l) <= length l)%nat.
Proof. unfold uuid_idxs. induction l as [|[u|] l IH]; cbn; [lia| |lia]. destruct (bt_mesh_va_get_idx_by_uuid _ _); cbn; lia. Qed.

Lemma zlen_filter_le {A} (P : A -> Prop) `{!forall x, Decision (P x)} l : zlen (filter P l) <= zlen l.
Proof. apply Nat2Z.inj_le, length_filter. Qed.

Lemma store_words_run path room l s : zlen l <= room ->
  store_words path room l s = (Ok (), s <| a_ext ::= (fun e => e ++ [put path (words l)]) |>).
Proof.
  intros Hl. unfold store_words. rewrite (bind_ok _ _ s () s) by (unfold checked, assert; by rewrite (proj2 (Z.leb_le _ _) Hl)).
  unfold log, change, words. by destruct (zlen l =? 0).
Qed.

Lemma if_pending_run r flag job l s : r ∈ comp_refs (a_comp s) ->
  (forall s1, stored r [] s s1 -> exists s2, job s1 = (Ok (), s2) /\ stored r l s1 s2 /\ a_comp s2 = a_comp s1) ->
  exists s', if_pending r flag job s = (Ok (), s') /\
    stored r (if Z.land (m_flags (model_at r (a_comp s))) flag =? 0 then [] else l) s s' /\
    Z.land (m_flags (model_at r (a_comp s'))) flag = 0 /\
    forall b, Z.land (Z.lnot flag) b = b ->
      Z.land (m_flags (model_at r (a_comp s'))) b = Z.land (m_flags (model_at r (a_comp s))) b.
Proof.
  intros Hr Hjob. unfold if_pending. rewrite (bind_ok _ _ s (model_at r (a_comp s)) s) by done.
  destruct (Z.eqb_spec (Z.land (m_flags (model_at r (a_comp s))) flag) 0) as [E|_]; [exists s; split; [done|]; split; [apply stored_refl|done]|].
  set (g := fun m => m <| m_flags ::= (fun f => Z.land f (Z.lnot flag)) |>).
  set (s1 := s <| a_comp ::= set_model r g |>). rewrite (bind_ok _ _ s () s1) by done.
  assert (stored r [] s s1) as H1.
  { split; cbn; [apply comp_refs_set| | |done|by rewrite app_nil_r].
    - intros x Hx. rewrite model_at_set by done. by rewrite decide_False.
    - rewrite model_at_set by done. rewrite decide_True by done. unfold g. by exists (Z.land (m_flags (model_at r (a_comp s))) (Z.lnot flag)). }
  destruct (Hjob s1 H1) as (s2 & -> & H2 & E2). exists s2. split; [done|]. split; [by apply (stored_trans r [] l _ s1)|].
  rewrite E2. cbn. rewrite model_at_set by done. rewrite decide_True by done. cbn. split.
  - by rewrite <-Z.land_assoc, (Z.land_comm (Z.lnot flag)), Z.land_lnot_diag, Z.land_0_r.
  - intros b Hb. by rewrite <-Z.land_assoc, Hb.
Qed.

(** What does not depend on the flags is the same in between. *)
Lemma stored_record_same r l s s' name : stored r l s s' -> record_of (a_vas s') (model_at r (a_comp s')) name = record_of (a_vas s) (model_at r (a_comp s)) name.
Proof. intros [_ _ [f ->] -> _]. by destruct name. Qed.

Lemma stored_numbered r l s s' : stored r l s s' -> numbered (a_comp s) -> numbered (a_comp s').
Proof.
  intros [R O [f M] _ _] Hn x Hx. rewrite R in Hx. destruct (Hn x Hx) as (? & ? & ? & ?). repeat split; try done;
    (destruct (decide (x = r)) as [->|Hne]; [by rewrite M|by rewrite O]).
Qed.

(** The three jobs. *)
Lemma store_bind_run r s : numbered (a_comp s) -> r ∈ comp_refs (a_comp s) -> zlen (m_keys (model_at r (a_comp s))) <= MODEL_KEY_COUNT acfg ->
  store_pending_mod_bind acfg r s = (Ok (), s <| a_ext ::= (fun e => e ++ [put (ref_path r KeyBind) (record_of (a_vas s) (model_at r (a_comp s)) KeyBind)]) |>).
Proof.
  intros Hn Hr Hl. unfold store_pending_mod_bind. rewrite (bind_ok _ _ s (model_at r (a_comp s)) s) by done.
  rewrite encode_path by done. apply store_words_run. etrans; [apply zlen_filter_le|done].
Qed.

Lemma store_sub_run r s : numbered (a_comp s) -> r ∈ comp_refs (a_comp s) -> zlen (m_groups (model_at r (a_comp s))) <= MODEL_GROUP_COUNT acfg ->
  store_pending_mod_sub acfg r s = (Ok (), s <| a_ext ::= (fun e => e ++ [put (ref_path r KeySub) (record_of (a_vas s) (model_at r (a_comp s)) KeySub)]) |>).
Proof.
  intros Hn Hr Hl. unfold store_pending_mod_sub. rewrite (bind_ok _ _ s (model_at r (a_comp s)) s) by done.
  rewrite encode_path by done. apply store_words_run. etrans; [apply zlen_filter_le|done].
Qed.

Lemma store_sub_va_run r s : numbered (a_comp s) -> r ∈ comp_refs (a_comp s) ->
  store_pending_mod_sub_va r s = (Ok (), s <| a_ext ::= (fun e => e ++ 
    if zlen (m_uuids (model_at r (a_comp s))) =? 0 then []
    else [put (ref_path r KeySubV) (record_of (a_vas s) (model_at r (a_comp s)) KeySubV)]) |>).
Proof.
  intros Hn Hr. unfold store_pending_mod_sub_va. rewrite (bind_ok _ _ s (model_at r (a_comp s)) s) by done.
  rewrite (bind_ok _ _ s (a_vas s) s) by done. destruct (zlen _ =? 0).
  { cbn. f_equal. destruct s. unfold setter, eta_access. cbn. by rewrite app_nil_r. }
  rewrite encode_path by done. apply store_words_run.
  apply Nat2Z.inj_le, uuid_idxs_length.
Qed.

Lemma store_pub_run r s : numbered (a_comp s) -> r ∈ comp_refs (a_comp s) ->
  store_pending_mod_pub r s = (Ok (), s <| a_ext ::= (fun e => e ++ [put (ref_path r KeyPub) (record_of (a_vas s) (model_at r (a_comp s)) KeyPub)]) |>).
Proof.
  intros Hn Hr. unfold store_pending_mod_pub. rewrite (bind_ok _ _ s (model_at r (a_comp s)) s) by done.
  rewrite (bind_ok _ _ s (a_vas s) s) by done. rewrite encode_path by done. cbn [record_of].
  destruct (m_pub (model_at r (a_comp s))) as [p|]; [|done]. by destruct (p_addr p =? BT_MESH_ADDR_UNASSIGNED).
Qed.

Lemma stored_exts r l s : stored r l s (s <| a_ext ::= (fun e => e ++ l) |>).
Proof. split; try done. exists (m_flags (model_at r (a_comp s))). cbn. by destruct (model_at r _). Qed.

(** One model: every change that is pending is written, and nothing is pending any more. *)
Lemma store_pending_mod_run r s : let m := model_at r (a_comp s) in numbered (a_comp s) -> r ∈ comp_refs (a_comp s) -> storable m ->
  exists s', store_pending_mod acfg app r s = (Ok (), s') /\ stored r (puts (a_vas s) r m) s s' /\
    forall name, pending (model_at r (a_comp s')) name = false.
Proof.
  intros m Hn Hr (Hk & Hg & Hd). unfold store_pending_mod. rewrite (bind_ok _ _ s m s) by done.
  destruct (Z.eqb_spec (m_flags m) 0) as [E|_].
  { exists s. assert (forall name, pending m name = false) as Hp by (intros name; unfold pending; by rewrite E).
    split; [done|]. split; [|done]. unfold puts. rewrite !Hp. apply stored_refl. }
  edestruct (if_pending_run r BT_MESH_MOD_BIND_PENDING (store_pending_mod_bind acfg r)
    [put (ref_path r KeyBind) (record_of (a_vas s) m KeyBind)] s Hr) as (s1 & E1 & D1 & Z1 & F1).
  { intros x Hx. rewrite store_bind_run; [|by eapply stored_numbered|by rewrite (sd_refs _ _ _ _ Hx)|destruct (sd_model _ _ _ _ Hx) as [f ->]; done].
    rewrite (stored_record_same _ _ _ _ _ Hx). eexists. split; [done|]. split; [apply stored_exts|done]. }
  rewrite (bind_ok _ _ s () s1) by done.
  pose proof (stored_numbered _ _ _ _ D1 Hn) as Hn1. assert (r ∈ comp_refs (a_comp s1)) as Hr1 by by rewrite (sd_refs _ _ _ _ D1).
  edestruct (if_pending_run r BT_MESH_MOD_SUB_PENDING (_ ← store_pending_mod_sub acfg r; store_pending_mod_sub_va r)
    ([put (ref_path r KeySub) (record_of (a_vas s) m KeySub)] ++
     (if zlen (m_uuids m) =? 0 then [] else [put (ref_path r KeySubV) (record_of (a_vas s) m KeySubV)])) s1 Hr1) as (s2 & E2 & D2 & Z2 & F2).
  { intros x Hx. pose proof (stored_trans _ _ _ _ _ _ D1 Hx) as Hx'. destruct (sd_model _ _ _ _ Hx') as [f Hf]. fold m in Hf.
    assert (numbered (a_comp x)) as Hnx by by eapply stored_numbered. assert (r ∈ comp_refs (a_comp x)) as Hrx by by rewrite (sd_refs _ _ _ _ Hx).
    erewrite bind_ok by (apply store_sub_run; [done|done|by rewrite Hf]). rewrite store_sub_va_run by done.
    change (a_vas (setter a_ext _ x)) with (a_vas x). change (a_comp (setter a_ext _ x)) with (a_comp x).
    rewrite !(stored_record_same _ _ _ _ _ Hx'), Hf. fold m. change (m_uuids (setter m_flags _ m)) with (m_uuids m).
    eexists. split; [done|]. split; [|done]. split; try done; [exists f; cbn; by rewrite Hf|cbn; by rewrite <-app_assoc]. }
  rewrite (bind_ok _ _ s1 () s2) by done.
  pose proof (stored_numbered _ _ _ _ D2 Hn1) as Hn2. assert (r ∈ comp_refs (a_comp s2)) as Hr2 by by rewrite (sd_refs _ _ _ _ D2).
  edestruct (if_pending_run r BT_MESH_MOD_PUB_PENDING (store_pending_mod_pub r)
    [put (ref_path r KeyPub) (record_of (a_vas s) m KeyPub)] s2 Hr2) as (s3 & E3 & D3 & Z3 & F3).
  { intros x Hx. pose proof (stored_trans _ _ _ _ _ _ (stored_trans _ _ _ _ _ _ D1 D2) Hx) as Hx'.
    rewrite store_pub_run; [|by eapply stored_numbered|by rewrite (sd_refs _ _ _ _ Hx)].
    rewrite (stored_record_same _ _ _ _ _ Hx'). eexists. split; [done|]. split; [apply stored_exts|done]. }
  rewrite (bind_ok _ _ s2 () s3) by done. exists s3.
  split; [|split; [apply (stored_trans _ _ _ _ s1); [|apply (stored_trans _ _ _ _ s2)]|]].
  - unfold if_pending. rewrite (bind_ok _ _ s3 (model_at r (a_comp s3)) s3) by done.
    rewrite F3, F2, F1 by done. fold m. by rewrite Hd.
  - revert D1. fold m. unfold pending. cbn [flag_of]. by destruct (Z.land (m_flags m) BT_MESH_MOD_BIND_PENDING =? 0).
  - revert D2. rewrite F1 by done. fold m. unfold pending. cbn [flag_of]. by destruct (Z.land (m_flags m) BT_MESH_MOD_SUB_PENDING =? 0).
  - revert D3. rewrite F2, F1 by done. fold m. unfold pending. cbn [flag_of]. by destruct (Z.land (m_flags m) BT_MESH_MOD_PUB_PENDING =? 0).
  - intros name. unfold pending. apply negb_false_iff, Z.eqb_eq.
    destruct name; cbn [flag_of]; rewrite ?F3 by done; rewrite ?F2 by done; rewrite ?F1 by done; done.
Qed.

(** * All models *)

Lemma store_all_run L s : numbered (a_comp s) -> NoDup L ->
  (forall r, r ∈ L -> r ∈ comp_refs (a_comp s) /\ storable (model_at r (a_comp s))) ->
  exists s', foreach (store_pending_mod acfg app) L s = (Ok (), s') /\
    comp_refs (a_comp s') = comp_refs (a_comp s) /\ a_vas s' = a_vas s /\
    a_ext s' = a_ext s ++ concat ((fun r => puts (a_vas s) r (model_at r (a_comp s))) <$> L) /\
    (forall r, r ∈ L -> forall name, pending (model_at r (a_comp s')) name = false) /\
    (forall r, r ∈ comp_refs (a_comp s) -> exists f, model_at r (a_comp s') = model_at r (a_comp s) <| m_flags := f |>) /\
    (forall r, ~ r ∈ L -> model_at r (a_comp s') = model_at r (a_comp s)).
Proof.
  intros Hn Hd HL. revert s Hn HL. induction Hd as [|r L Hr Hd IH]; intros s Hn HL.
  { exists s. split; [done|]. repeat split; try done; [by rewrite app_nil_r|by intros r ?%elem_of_nil|].
    intros r _. exists (m_flags (model_at r (a_comp s))). by destruct (model_at r _). }
  destruct (HL r) as (Hin & Hs); [by left|]. destruct (store_pending_mod_run r s Hn Hin Hs) as (s1 & E1 & D1 & P1).
  cbn [foreach]. rewrite (bind_ok _ _ s () s1) by done. destruct D1 as [R1 O1 M1 V1 X1].
  destruct (IH s1) as (s2 & E2 & R2 & V2 & X2 & P2 & M2 & O2).
  { by eapply stored_numbered; [split|]. }
  { intros x Hx. rewrite R1, O1 by (intros ->; done). apply HL. by right. }
  exists s2. rewrite E2, R2, R1, V2, V1, X2, X1, V1. split; [done|]. split; [done|]. split; [done|]. split; [|split; [|split]].
  - cbn. rewrite <-app_assoc. do 3 f_equal. apply list_fmap_ext. intros i x Hx%list_elem_of_lookup_2. rewrite O1; [done|]. by intros ->.
  - intros x [->|Hx]%elem_of_cons; [|by apply P2]. intros name. by rewrite O2.
  - intros x Hx. destruct (M2 x) as [f ->]; [by rewrite R1|]. destruct (decide (x = r)) as [->|Hne].
    + destruct M1 as [f1 ->]. by exists f.
    + rewrite O1 by done. by exists f.
  - intros x Hx. rewrite O2, O1; [done| |]; intros ?; apply Hx; [subst; by left|by right].
Qed.

End Store.

(** * Loading *)

(** A list with what is not [u] at the front. *)
Definition packed {A} `{EqDecision A} (u : A) (l : list A) : list A :=
  let l' := filter (fun x => x <> u) l in l' ++ replicate (length l - length l') u.

Lemma packed_length {A} `{EqDecision A} (u : A) l : length (packed u l) = length l.
Proof. unfold packed. rewrite length_app, length_replicate. pose proof (length_filter (fun x => x <> u) l). lia. Qed.

Lemma packed_none {A} `{EqDecision A} (u : A) l : filter (fun x => x <> u) l = [] -> packed u l = map (fun _ => u) l.
Proof. intros E. unfold packed. rewrite E. cbn. rewrite Nat.sub_0_r. clear E. induction l; cbn; by f_equal. Qed.

(** What reading the words at the front gives, where the rest is clear. *)
Lemma overlay_packed {A} `{EqDecision A} (u : A) (l : list A) : overlay (filter (fun x => x <> u) l) (map (fun _ => u) l) = packed u l.
Proof.
  unfold overlay, packed. f_equal. generalize (length (filter (fun x => x <> u) l)). intros n. revert n.
  induction l as [|x l IH]; intros [|n]; [done|done| |apply IH]. cbn. f_equal. specialize (IH 0%nat). by rewrite Nat.sub_0_r in IH.
Qed.

(** The fields of a model that a record holds; [u] is what an unused entry has. *)
Inductive field := FWords (u : Z) (l : list Z) | FLabels (l : list (option nat)) | FPub (p : option bt_mesh_model_pub) | FNone.
Definition field_of (m : bt_mesh_model) (name : mod_key_name) : field :=
  match name with
  | KeyBind => FWords BT_MESH_KEY_UNUSED (m_keys m)
  | KeySub => FWords BT_MESH_ADDR_UNASSIGNED (m_groups m)
  | KeySubV => FLabels (m_uuids m)
  | KeyPub => FPub (m_pub m)
  | KeyData => FNone
  end.

(** A publication that is found again. *)
Definition pub_kept (p p' : bt_mesh_model_pub) : Prop :=
  p_addr p' = p_addr p /\
  (p_addr p <> BT_MESH_ADDR_UNASSIGNED ->
    p_key p' = p_key p /\ p_ttl p' = p_ttl p /\ p_retransmit p' = p_retransmit p /\ p_period p' = p_period p /\
    p_period_div p' = p_period_div p /\ p_cred p' = p_cred p /\
    (BT_MESH_ADDR_IS_VIRTUAL (p_addr p) = true -> p_uuid p' = p_uuid p)).

Definition kept (x x' : field) : Prop :=
  match x, x' with
  | FWords u l, FWords _ l' => l' = packed u l
  | FLabels l, FLabels l' => l' = packed None l
  | FPub None, FPub None => True
  | FPub (Some p), FPub (Some p') => pub_kept p p'
  | FNone, FNone => True
  | _, _ => False
  end.

(** The field of the same model before anything is loaded. *)
Definition blank (x x' : field) : Prop :=
  match x, x' with
  | FWords u l, FWords _ l' => l' = map (fun _ => u) l
  | FLabels l, FLabels l' => l' = map (fun _ => None) l
  | FPub None, FPub None => True
  | FPub (Some p), FPub (Some p') => p_addr p' = BT_MESH_ADDR_UNASSIGNED
  | FNone, FNone => True
  | _, _ => False
  end.

(** The labels a model uses are there, and its publication fits its record. *)
Definition in_use (vas : list bt_mesh_va) (u : nat) : Prop := exists va, vas !! u = Some va /\ 0 < va_ref va /\ Z.of_nat u < 65536.
Record usable (vas : list bt_mesh_va) (m : bt_mesh_model) : Prop := {
  us_labels : forall u, Some u ∈ m_uuids m -> in_use vas u;
  us_pub : forall p, m_pub m = Some p -> 0 <= p_key p < 4096 /\ 0 <= p_period_div p < 16 /\
    (BT_MESH_ADDR_IS_VIRTUAL (p_addr p) = true -> exists u, p_uuid p = Some u /\ in_use vas u)
}.

Lemma label_idx vas u : in_use vas u -> bt_mesh_va_get_idx_by_uuid vas (Some u) = inl (Z.of_nat u) /\
  bt_mesh_va_get_uuid_by_idx vas (Z.of_nat u) = Some u.
Proof.
  intros (va & Hl & Hr & Hu). unfold bt_mesh_va_get_idx_by_uuid, bt_mesh_va_get_uuid_by_idx, va_at. cbn. rewrite Hl. cbn.
  rewrite (proj2 (Z.eqb_neq _ _)) by lia.
  rewrite !(u16_id (Z.of_nat u)) by lia. rewrite Nat2Z.id, Hl. by rewrite (proj2 (Z.ltb_lt _ _) Hr).
Qed.

Lemma labels_back vas l : (forall u, Some u ∈ l -> in_use vas u) ->
  Some <$> omap (bt_mesh_va_get_uuid_by_idx vas) (uuid_idxs vas l) = filter (fun u => u <> None) l.
Proof.
  intros Hl. unfold uuid_idxs. induction l as [|[u|] l IH]; [done| |].
  - destruct (label_idx vas u) as [E1 E2]; [apply Hl; by left|]. cbn. rewrite E1. cbn. rewrite E2. rewrite decide_True by done. cbn. f_equal.
    apply IH. intros v Hv. apply Hl. by right.
  - cbn. apply IH. intros v Hv. apply Hl. by right.
Qed.

Lemma blank_kept vas m m' name : usable vas m -> record_of vas m name = None ->
  blank (field_of m name) (field_of m' name) -> kept (field_of m name) (field_of m' name).
Proof.
  intros Hu. assert (forall l, words l = None -> l = []) as Hw.
  { intros [|x l]; [done|]. unfold words. cbn. by destruct (zlen (x :: l) =? 0) eqn:E; bool_to_prop. }
  destruct name; cbn; intros Hr Hb.
  - apply Hw in Hr. rewrite Hb. symmetry. by apply packed_none.
  - apply Hw in Hr. rewrite Hb. symmetry. by apply packed_none.
  - apply Hw in Hr. rewrite Hb. symmetry. apply packed_none.
    pose proof (labels_back vas (m_uuids m) (us_labels _ _ Hu)) as E. rewrite Hr in E. etrans; [|symmetry; exact E]. by apply list_filter_iff.
  - destruct (m_pub m) as [p|], (m_pub m') as [p'|]; try done. destruct (Z.eqb_spec (p_addr p) BT_MESH_ADDR_UNASSIGNED) as [E|E]; [|done].
    split; [congruence|done].
  - done.
Qed.

Section Load.

Context {X W : Type} `{MeshCrypto W} (acfg : access_cfg).
Notation st := (access X W).
Context (app : app_ops st).
Implicit Types s t : st.
Implicit Types r : mod_ref.

(** The length of a record: [struct mod_pub_val] has 10 octets. *)
Definition record_len (rec : mod_record) : Z := match rec with RecWords l => 2 * zlen l | RecPub _ => 10 end.

(** The storage gives the records to [mod_set], one after the other. *)
Definition load (x : mod_path * mod_record) : M st unit :=
  mod_set acfg app (mp_vnd x.1) (Some (mp_key x.1, Some (mp_name x.1))) (record_len x.2) (inl x.2).
Definition load_all : list (mod_path * mod_record) -> M st unit := foreach load.

(** From [t] to [t'] only the field of one name of [r] has changed. *)
Record set_field r name t t' : Prop := {
  sf_refs : comp_refs (a_comp t') = comp_refs (a_comp t);
  sf_vas : a_vas t' = a_vas t;
  sf_rest : forall x n, (x, n) <> (r, name) -> field_of (model_at x (a_comp t')) n = field_of (model_at x (a_comp t)) n
}.

Lemma on_model_field r f name t : r ∈ comp_refs (a_comp t) -> (forall n, n <> name -> forall m, field_of (f m) n = field_of m n) ->
  set_field r name t (t <| a_comp ::= set_model r f |>).
Proof.
  intros Hr Hf. split; cbn; [apply comp_refs_set|done|]. intros x n Hne. rewrite model_at_set by done.
  case_decide; [|done]. subst. apply Hf. by intros ->.
Qed.

Lemma overlay_taken (u : Z) l : overlay (take (length l) (filter (fun x => x <> u) l)) (map (fun _ => u) l) = packed u l.
Proof. rewrite take_ge by apply length_filter. apply overlay_packed. Qed.

Lemma words_some l rec : words l = Some rec -> rec = RecWords l /\ 2 * zlen l =? 0 = false.
Proof. unfold words. destruct (Z.eqb_spec (zlen l) 0); [done|]. intros [= <-]. split; [done|lia]. Qed.

Lemma on_model_twice r f g t : r ∈ comp_refs (a_comp t) ->
  model_at r (a_comp (t <| a_comp ::= set_model r f |> <| a_comp ::= set_model r g |>)) = g (f (model_at r (a_comp t))).
Proof. intros Hr. cbn. rewrite model_at_set by by rewrite comp_refs_set. rewrite decide_True by done. rewrite model_at_set by done. by rewrite decide_True. Qed.

Lemma on_model_fields r f g name t : r ∈ comp_refs (a_comp t) ->
  (forall n, n <> name -> forall m, field_of (f m) n = field_of m n) -> (forall n, n <> name -> forall m, field_of (g m) n = field_of m n) ->
  set_field r name t (t <| a_comp ::= set_model r f |> <| a_comp ::= set_model r g |>).
Proof.
  intros Hr Hf Hg. set (t1 := t <| a_comp ::= set_model r f |>). destruct (on_model_field r f name t Hr Hf) as [R1 V1 F1]. fold t1 in R1, V1, F1.
  destruct (on_model_field r g name t1) as [R2 V2 F2]; [by rewrite R1|done|].
  split; [by rewrite R2|by rewrite V2|]. intros x n Hn. by rewrite F2, F1.
Qed.

Lemma load_bind r rec m t : r ∈ comp_refs (a_comp t) -> record_of (a_vas t) m KeyBind = Some rec ->
  blank (field_of m KeyBind) (field_of (model_at r (a_comp t)) KeyBind) ->
  exists t', mod_set_bind r (record_len rec) (inl rec) t = (Ok (), t') /\ set_field r KeyBind t t' /\
    kept (field_of m KeyBind) (field_of (model_at r (a_comp t')) KeyBind).
Proof.
  intros Hr Hrec Hb. apply words_some in Hrec as [-> Hne]. unfold mod_set_bind.
  erewrite bind_ok by done. cbn [record_len]. rewrite Hne. erewrite bind_ok by done. unfold read_words. erewrite bind_ok by done.
  eexists. split; [done|]. split.
  - apply on_model_fields; [done| |]; by intros [].
  - cbn [field_of kept]. rewrite on_model_twice by done. cbn. cbn in Hb. rewrite model_at_set, decide_True by done. cbn.
    rewrite Hb, map_map, !length_map. apply overlay_taken.
Qed.

Lemma load_sub r rec m t : r ∈ comp_refs (a_comp t) -> record_of (a_vas t) m KeySub = Some rec ->
  blank (field_of m KeySub) (field_of (model_at r (a_comp t)) KeySub) ->
  exists t', mod_set_sub r (record_len rec) (inl rec) t = (Ok (), t') /\ set_field r KeySub t t' /\
    kept (field_of m KeySub) (field_of (model_at r (a_comp t')) KeySub).
Proof.
  intros Hr Hrec Hb. apply words_some in Hrec as [-> Hne]. unfold mod_set_sub.
  erewrite bind_ok by done. cbn [record_len]. rewrite Hne. erewrite bind_ok by done. unfold read_words. erewrite bind_ok by done.
  eexists. split; [done|]. split.
  - apply on_model_fields; [done| |]; by intros [].
  - cbn [field_of kept]. rewrite on_model_twice by done. cbn. cbn in Hb. rewrite model_at_set, decide_True by done. cbn.
    rewrite Hb, map_map, !length_map. apply overlay_taken.
Qed.

Lemma load_sub_va r rec m t : r ∈ comp_refs (a_comp t) -> usable (a_vas t) m -> record_of (a_vas t) m KeySubV = Some rec ->
  blank (field_of m KeySubV) (field_of (model_at r (a_comp t)) KeySubV) ->
  exists t', mod_set_sub_va r (record_len rec) (inl rec) t = (Ok (), t') /\ set_field r KeySubV t t' /\
    kept (field_of m KeySubV) (field_of (model_at r (a_comp t')) KeySubV).
Proof.
  intros Hr Hu Hrec Hb. cbn in Hrec. assert (length (uuid_idxs (a_vas t) (m_uuids m)) <= length (m_uuids m))%nat as Hlen by apply uuid_idxs_length.
  apply words_some in Hrec as [-> Hne]. cbn in Hb. unfold mod_set_sub_va. erewrite bind_ok by done.
  assert (zlen (m_uuids (model_at r (a_comp t))) =? 0 = false) as -> by (apply Z.eqb_neq in Hne; apply Z.eqb_neq; rewrite Hb, length_map; lia).
  erewrite bind_ok by done. cbn [record_len]. rewrite Hne. unfold read_words. erewrite bind_ok by done. rewrite Hb, length_map, take_ge by done.
  erewrite bind_ok by done. rewrite labels_back by apply Hu. eexists. split; [done|]. split.
  - apply on_model_fields; [done| |]; by intros [].
  - cbn [field_of kept]. rewrite on_model_twice by done. cbn. rewrite Hb, map_map. etrans; [|apply overlay_packed]. f_equal. by apply list_filter_iff.
Qed.

Context (Hset : k_settings acfg = true).

Lemma load_pub r rec m t : r ∈ comp_refs (a_comp t) -> usable (a_vas t) m -> record_of (a_vas t) m KeyPub = Some rec ->
  blank (field_of m KeyPub) (field_of (model_at r (a_comp t)) KeyPub) ->
  exists t', mod_set_pub acfg r (record_len rec) (inl rec) t = (Ok (), t') /\ set_field r KeyPub t t' /\
    kept (field_of m KeyPub) (field_of (model_at r (a_comp t')) KeyPub).
Proof.
  intros Hr Hu Hrec Hb. cbn in Hrec, Hb. destruct (m_pub m) as [p|] eqn:Ep; [|done].
  destruct (Z.eqb_spec (p_addr p) BT_MESH_ADDR_UNASSIGNED) as [|Hne]; [done|]. injection Hrec as <-.
  destruct (m_pub (model_at r (a_comp t))) as [p'|] eqn:Ep'; [|done].
  unfold mod_set_pub. erewrite bind_ok by done. rewrite Ep'. cbn [record_len]. change (10 =? 0) with false. rewrite Hset. cbn [negb].
  erewrite bind_ok by done. eexists. split; [done|]. split; [apply on_model_field; [done|]; by intros []|].
  cbn. rewrite model_at_set, decide_True by done. cbn. rewrite Ep, Ep'. cbn.
  destruct (us_pub _ _ Hu p Ep) as (Hk & Hd & Hv). unfold pub_kept, pub_val. cbn.
  destruct (BT_MESH_ADDR_IS_VIRTUAL (p_addr p)) eqn:Ev; cbn; (split; [done|]); intros _;
    rewrite !Z.mod_small by lia; (split; [done|]); do 4 (split; [done|]); (split; [by destruct (p_cred p)|]); [|done].
  intros _. destruct (Hv eq_refl) as (u & -> & Hin). destruct (label_idx _ _ Hin) as [-> E2]. done.
Qed.

(** One record. *)
Lemma load_record_run r name rec m t : few (comp_refs (a_comp t)) -> r ∈ comp_refs (a_comp t) -> usable (a_vas t) m ->
  record_of (a_vas t) m name = Some rec -> blank (field_of m name) (field_of (model_at r (a_comp t)) name) ->
  exists t', load (ref_path r name, rec) t = (Ok (), t') /\ set_field r name t t' /\
    kept (field_of m name) (field_of (model_at r (a_comp t')) name).
Proof.
  intros Hf Hr Hu Hrec Hb. unfold load, mod_set. cbn [fst snd ref_path mp_vnd mp_key mp_name]. erewrite bind_ok by done.
  pose proof (model_get_ref _ _ Hf Hr) as Hget. cbn zeta in Hget. rewrite Hget.
  destruct name; [by apply load_bind|by apply load_sub|by apply load_sub_va|by apply load_pub|done].
Qed.

(** All records of a storage, which gives each name once, to models of which nothing is
    loaded. *)
Lemma load_all_run (f : mod_ref -> bt_mesh_model) recs t : few (comp_refs (a_comp t)) -> NoDup recs.*1 ->
  (forall r, r ∈ comp_refs (a_comp t) -> usable (a_vas t) (f r)) ->
  (forall p rec, (p, rec) ∈ recs -> exists r name, p = ref_path r name /\ r ∈ comp_refs (a_comp t) /\
    record_of (a_vas t) (f r) name = Some rec /\ blank (field_of (f r) name) (field_of (model_at r (a_comp t)) name)) ->
  exists t', load_all recs t = (Ok (), t') /\ comp_refs (a_comp t') = comp_refs (a_comp t) /\
    forall r name, r ∈ comp_refs (a_comp t) ->
      (ref_path r name ∈ recs.*1 -> kept (field_of (f r) name) (field_of (model_at r (a_comp t')) name)) /\
      (ref_path r name ∉ recs.*1 -> field_of (model_at r (a_comp t')) name = field_of (model_at r (a_comp t)) name).
Proof.
  intros Hf Hd Hu. revert t Hf Hu. induction recs as [|[p rec] recs IH]; intros t Hf Hu Hrecs.
  { exists t. split; [done|]. split; [done|]. intros r name Hr. split; [by intros ?%elem_of_nil|done]. }
  apply NoDup_cons in Hd as [Hp Hd]. destruct (Hrecs p rec) as (r & name & -> & Hr & Hrec & Hb); [by left|].
  destruct (load_record_run r name rec (f r) t Hf Hr (Hu r Hr) Hrec Hb) as (t1 & E1 & [R1 V1 F1] & K1).
  unfold load_all in *. cbn [foreach]. rewrite (bind_ok _ _ t () t1) by done.
  destruct (IH Hd t1) as (t2 & E2 & R2 & K2).
  { by rewrite R1. } { by rewrite R1, V1. }
  { intros q rec' Hq. destruct (Hrecs q rec') as (x & n & -> & Hx & Hrec' & Hb'); [by right|]. exists x, n.
    rewrite R1, V1. split; [done|]. split; [done|]. split; [done|]. rewrite F1; [done|]. intros [= -> ->]. apply Hp.
    by apply list_elem_of_fmap_2 with (f := fst) in Hq. }
  exists t2. split; [done|]. split; [by rewrite R2|]. intros x n Hx. rewrite <-R1 in Hx. destruct (K2 x n Hx) as [Ka Kb].
  rewrite fmap_cons, elem_of_cons. cbn [fst]. destruct (decide ((x, n) = (r, name))) as [[= -> ->]|Hne].
  { split; [|intros Hn; exfalso; apply Hn; by left]. intros _. by rewrite Kb. }
  split.
  - intros [E|Hin]; [|by apply Ka]. rewrite R1 in Hx. destruct (ref_path_inj _ _ _ _ _ Hf Hx Hr E) as [-> ->]. done.
  - intros Hn. rewrite Kb by (intros ?; apply Hn; by right). by apply F1.
Qed.

End Load.

(** * A restart *)

Lemma comp_refs_nodup c : NoDup (comp_refs c).
Proof.
  unfold comp_refs. generalize (co_elem c). intros l. 
  assert (forall n, NoDup (concat (imap (fun i => elem_refs (n + i)) l)) /\ forall r, r ∈ concat (imap (fun i => elem_refs (n + i)) l) -> (n <= r_elem r)%nat) as Hg.
  { induction l as [|e l IH]; intros n; cbn.
    { split; [constructor|]. by intros r ?%elem_of_nil. }
    rewrite Nat.add_0_r. assert (forall r, r ∈ elem_refs n e -> r_elem r = n) as Hn.
    { intros r [H|H]%elem_of_app; apply elem_of_list_refs in H; tauto. }
    destruct (IH (S n)) as [Hd Hl]. rewrite (imap_ext _ (fun i => elem_refs (S n + i))) by (intros; cbn; by rewrite Nat.add_succ_r).
    split; [apply NoDup_app; split; [|split; [|done]]|].
    - apply NoDup_app. split; [|split]; [|intros r (_ & E & _)%elem_of_list_refs (_ & E' & _)%elem_of_list_refs; congruence|];
        (apply NoDup_fmap_2; [by intros ? ? [=]|apply NoDup_seq]).
    - intros r H1%Hn H2%Hl. lia.
    - intros r [H%Hn|H%Hl]%elem_of_app; lia. }
  exact (proj1 (Hg 0%nat)).
Qed.

Section Restart.

Context {X W : Type} `{MeshCrypto W} (acfg : access_cfg).
Notation st := (access X W).
Context (app : app_ops st).
Implicit Types s t : st.
Implicit Types d : disk.

(** What is not pending is in the storage, which holds nothing else. *)
Record recorded d s : Prop := {
  rc_value : forall r name, r ∈ comp_refs (a_comp s) -> name <> KeyData -> pending (model_at r (a_comp s)) name = false ->
    d (ref_path r name) = record_of (a_vas s) (model_at r (a_comp s)) name;
  rc_none : forall r, r ∈ comp_refs (a_comp s) -> m_uuids (model_at r (a_comp s)) = [] -> d (ref_path r KeySubV) = None;
  rc_names : forall p, is_Some (d p) -> exists r name, p = ref_path r name /\ r ∈ comp_refs (a_comp s) /\ name <> KeyData
}.

(** What the model has room for, and what it uses is there. *)
Definition keepable s : Prop := numbered (a_comp s) /\ forall r, r ∈ comp_refs (a_comp s) ->
  storable acfg (model_at r (a_comp s)) /\ usable (a_vas s) (model_at r (a_comp s)).

(** The same composition and labels, of which nothing is loaded yet. *)
Definition restarted s t : Prop := comp_refs (a_comp t) = comp_refs (a_comp s) /\ a_vas t = a_vas s /\
  forall r name, r ∈ comp_refs (a_comp s) -> blank (field_of (model_at r (a_comp s)) name) (field_of (model_at r (a_comp t)) name).

Lemma disk_foreign d vas f L p : (forall r name, r ∈ L -> name <> KeyData -> p <> ref_path r name) ->
  disk_after d (concat ((fun r => puts vas r (f r)) <$> L)) p = d p.
Proof.
  revert d. induction L as [|x L IH]; intros d Hp; [done|]. cbn [fmap list_fmap concat]. rewrite disk_after_app, IH.
  - apply disk_puts_other. intros name. apply Hp. by left.
  - intros r name Hr. apply Hp. by right.
Qed.

(** The names of the records of some models. *)
Definition names (l : list mod_ref) : list mod_path := r ← l; ref_path r <$> [KeyBind; KeySub; KeySubV; KeyPub].
Lemma elem_of_names l p : p ∈ names l <-> exists r name, p = ref_path r name /\ r ∈ l /\ name <> KeyData.
Proof.
  unfold names. rewrite list_elem_of_bind. setoid_rewrite list_elem_of_fmap. split.
  - intros (r & (name & -> & Hname) & Hr). exists r, name. split; [done|]. split; [done|]. intros ->. set_solver.
  - intros (r & name & -> & Hr & Hname). exists r. split; [|done]. exists name. split; [done|]. destruct name; set_solver.
Qed.

(** C10: Whenever the job that stores the models has run, a restart finds every model as it
    was: for a node whose unchanged keys, subscriptions and publications are in the storage,
    the job of [bt_mesh_model_pending_store] succeeds and leaves nothing pending, and then
    [mod_set], given each record of the storage in whatever order, succeeds for each of them
    and gives every model of the restarted node its keys, group addresses and labels back
    (at the front of their arrays) and its publication parameters. *)
Theorem access_restart d s t : k_settings acfg = true -> keepable s -> recorded d s -> restarted s t ->
  exists s' l, bt_mesh_model_pending_store acfg app s = (Ok (), s') /\ a_ext s' = a_ext s ++ l /\
    (forall r name, r ∈ comp_refs (a_comp s) -> pending (model_at r (a_comp s')) name = false) /\
    forall recs, NoDup recs.*1 -> (forall p rec, (p, rec) ∈ recs <-> disk_after d l p = Some rec) ->
      exists t', load_all acfg app recs t = (Ok (), t') /\
        forall r name, r ∈ comp_refs (a_comp s) -> kept (field_of (model_at r (a_comp s)) name) (field_of (model_at r (a_comp t')) name).
Proof.
  intros Hset [Hn Hk] [Hv Hnone Hnames] (Rt & Vt & Bt). set (refs := comp_refs (a_comp s)) in *.
  destruct (store_all_run acfg app refs s Hn (comp_refs_nodup _)) as (s' & E & _ & _ & X' & P & _).
  { intros r Hr. split; [done|]. by apply Hk. }
  exists s'. eexists. split; [exact E|]. split; [exact X'|]. split; [by intros r name Hr; apply P|]. set (d' := disk_after d _).
  assert (forall r name, r ∈ refs -> name <> KeyData -> d' (ref_path r name) = record_of (a_vas s) (model_at r (a_comp s)) name) as Hd'.
  { intros r name Hr Hname. unfold d'. rewrite (disk_all _ _ refs refs (numbered_few _ Hn) (comp_refs_nodup _)) by done.
    rewrite bool_decide_eq_true_2 by done. cbn [andb]. destruct (pending _ _) eqn:Ep; [done|by apply Hv]. }
  intros recs Hdup Hrecs. destruct (load_all_run acfg app Hset (fun r => model_at r (a_comp s)) recs t) as (t' & Et & _ & Kt).
  { rewrite Rt. by apply numbered_few. } { done. } { intros r Hr. rewrite Vt. apply Hk. by rewrite <-Rt. }
  { intros p rec Hp%Hrecs. rewrite Rt, Vt. assert (exists r name, p = ref_path r name /\ r ∈ refs /\ name <> KeyData) as (r & name & -> & Hr & Hname).
    { destruct (decide (p ∈ names refs)) as [Hin|Hin]; [by apply elem_of_names|]. apply Hnames. exists rec. rewrite <-Hp. symmetry.
      apply disk_foreign. intros r name Hr Hname ->. apply Hin, elem_of_names. eauto. }
    exists r, name. rewrite <-Hd', Hp by done. split; [done|]. split; [done|]. split; [done|]. by apply Bt. }
  exists t'. split; [done|]. intros r name Hr. rewrite <-Rt in Hr. destruct (Kt r name Hr) as [Ka Kb]. rewrite Rt in Hr.
  destruct (decide (ref_path r name ∈ recs.*1)) as [Hin|Hin]; [by apply Ka|].
  destruct (decide (name = KeyData)) as [->|Hname]; [done|].
  apply (blank_kept (a_vas s)); [by apply Hk| |rewrite Kb by done; by apply Bt].
  destruct (record_of (a_vas s) (model_at r (a_comp s)) name) as [rec|] eqn:Er; [|done]. exfalso. apply Hin.
  rewrite <-Hd' in Er by done. apply Hrecs in Er. by apply list_elem_of_fmap_2 with (f := fst) in Er.
Qed.

End Restart.
