(* ===== verification/AccessSample.v ===== *)
(** A node with models, and the theorems of [AccessExt.v], [AccessRecv.v], [CompPages.v] and
    [AccessStore.v] at work on it; and what the program does on some inputs. *)

From S2P Require Import Prelude Byteorder BufSimple MeshDefs CryptoIf Psa CryptoPsa Crypto Va Subnet NetIv Net.
From S2P Require Import NetSample AppKeys Transport TransRx TransTx TransSample Cycles Access AccessExt AccessRecv CompData CompPages AccessStore.

#[local] Existing Instance net_sample_crypto.

(** * The node *)

Definition sample_acfg : access_cfg := mk_acfg true false false true false true true false false false false false 4 4.

Definition sample_pub : bt_mesh_model_pub :=
  mk_pub 0xC000 None 0 false false false false 5 0 0 0 0 false 0 (Some hello) false None.

Definition plain_model (id : model_id) (elem idx : Z) (groups : list Z) : bt_mesh_model :=
  mk_model id elem idx 0 None None [0; 0xffff] groups [Some 0%nat; None] [mk_op 0x8202 1 7; mk_op 0x8203 0 8] None None.

Definition mA : mod_ref := mk_ref 0 false 0.
Definition mB : mod_ref := mk_ref 0 false 1.
Definition mC : mod_ref := mk_ref 0 false 2.
Definition mD : mod_ref := mk_ref 1 false 0.
Definition mV : mod_ref := mk_ref 1 true 0.

Definition sample_comp : bt_mesh_comp :=
  mk_comp 0x59 1 2
    [mk_elem 1 0x100
       [plain_model (SigId 0x1000) 0 0 [0; 0]; plain_model (SigId 0x1002) 0 1 [0xC001; 0] <| m_op := [] |>;
        plain_model (SigId 0x1003) 0 2 [0; 0xC002] <| m_op := [] |>] [];
     mk_elem 2 0x101
       [plain_model (SigId 0x1000) 1 0 [0; 0xC001] <| m_pub := Some sample_pub |>]
       [plain_model (VndId 0x59 1) 1 0 [0; 0] <| m_op := [mk_op 0xc10059 0 9] |>]].

(** The handlers note that they were called, and answer 0. *)
Notation sample_state := (access (list (Z * mod_ref)) (crypto_state psa_store)).
Definition sample_ops : app_ops sample_state :=
  mk_app_ops sample_state
    (fun f r ctx buf s => Some (0, ctx, buf, s <| a_app ::= (fun l => l ++ [(f, r)]) |>))
    (fun r s => Some (0, s)) (fun r s => Some (0, s)) (fun r v s => Some (0, s)) (fun r s => Some s)
    (fun op ctx buf s => Some (ctx, buf, s)).

Definition no_agg : op_agg_ctx := mk_agg false 0 0 0 (mk_buf [] 0 0 0).
Definition sample_access (comp : bt_mesh_comp) : sample_state :=
  mk_access (trans_of 77) comp 1 false [] [mk_va 1 false 0x8001 (replicate 16 1)] false
    (mk_agg_srv 0 false no_agg) (mk_agg_cli None (mk_ack 0 0 0 0) (mk_buf [] 0 0 0) no_agg) [] [].

(** * Extensions *)

Lemma sample_refs : comp_refs sample_comp = [mA; mB; mC; mD; mV].
Proof. done. Qed.

Lemma each_ref (P : mod_ref -> Prop) : P mA -> P mB -> P mC -> P mD -> P mV -> forall r, r ∈ comp_refs sample_comp -> P r.
Proof. intros H1 H2 H3 H4 H5 r. rewrite sample_refs, !elem_of_cons, elem_of_nil. by intros [->|[->|[->|[->|[->|[]]]]]]. Qed.

Lemma sample_alone r : r ∈ comp_refs sample_comp -> m_next (model_at r sample_comp) = None.
Proof. revert r. by apply each_ref. Qed.

Lemma mA_in : mA ∈ comp_refs sample_comp. Proof. rewrite sample_refs. by left. Qed.
Lemma mB_in : mB ∈ comp_refs sample_comp. Proof. rewrite sample_refs. by right; left. Qed.

(** A model that is on no list shares it with itself. *)
Lemma alone_same c r x : next_of c r = r -> same_list c r x -> x = r.
Proof. intros E [k <-]. induction k as [|k IH]; [done|]. by rewrite iter_S, IH. Qed.

(** A and C extend B: a search from A finds the subscription of C. *)
Lemma extensions_share_witness :
  exists s', extend_calls (X := list (Z * mod_ref)) (W := crypto_state psa_store) sample_acfg [(mA, mB); (mC, mB)] (sample_access sample_comp) = (Ok (), s') /\
  exists entry x, bt_mesh_model_find_group sample_acfg mA 0xC002 s' = (Ok (entry, x), s') /\ is_Some entry.
Proof.
  destruct (extensions_share sample_acfg [(mA, mB); (mC, mB)] (sample_access sample_comp)) as (s' & E & _ & Hs).
  { done. } { apply sample_alone. }
  { repeat constructor; simpl; rewrite sample_refs; set_solver. }
  exists s'. split; [exact E|]. destruct (Hs mA 0xC002 mA_in) as (entry & x & Ef & _ & Hx). exists entry, x. split; [exact Ef|].
  apply Hx.
  - split; [intros Hl; apply alone_same in Hl; [by left|done]|]. split; [|done].
    intros Hl. apply alone_same in Hl; [by left|done].
  - exists mC. split; [|split; [done|by vm_compute; set_solver]].
    transitivity mB; [apply rtsc_lr; left; by left|apply rtsc_rl; right; by left].
Defined.

(** * Receiving *)

(** A and B are on one list. *)
Definition ring_comp : bt_mesh_comp := extended sample_comp mA mB.

Lemma ring_rings : rings_ok ring_comp.
Proof. apply extended_ok; [apply alone_rings, sample_alone|apply mA_in|apply mB_in]. Qed.

Lemma ring_registered : registered ring_comp.
Proof. intros r. revert r. unfold ring_comp. rewrite extended_refs. by apply each_ref. Qed.

Definition command : bt_buf_simple := mk_buf [0x82; 0x02; 5; 6] 0 3 4.
Definition command_ctx : bt_mesh_msg_ctx := mk_ctx 0 0 3 0xC001 None 4 false false 5.

Lemma command_wf : wf command.
Proof. split; simpl; try (unfold UINT16_MAX; lia). by apply bytes_ok. Qed.

(** A message to a group that D has, and B, which A extends: A and D get it. *)
Example recv_calls :
  let '(r, s) := bt_mesh_model_recv sample_acfg sample_ops command_ctx command (sample_access ring_comp) in
  match r with Ok (status, _, buf) => (status, content buf) = (0, [5]) | _ => False end /\ a_app s = [(7, mA); (7, mD)].
Proof. by vm_compute. Qed.

(** A handler that takes the keys of D away; then A, which comes first, is the only one that
    gets the message. *)
Definition unbinding_ops : app_ops sample_state :=
  mk_app_ops sample_state
    (fun f r ctx buf s => Some (0, ctx, buf, s <| a_app ::= (fun l => l ++ [(f, r)]) |>
       <| a_comp := if bool_decide (mD ∈ comp_refs (a_comp s)) then set_model mD (fun m => m <| m_keys := [0xffff; 0xffff] |>) (a_comp s) else a_comp s |>))
    (fun r s => Some (0, s)) (fun r s => Some (0, s)) (fun r v s => Some (0, s)) (fun r s => Some s)
    (fun op ctx buf s => Some (ctx, buf, s)).

Example recv_unbinds : a_app (bt_mesh_model_recv sample_acfg unbinding_ops command_ctx command (sample_access ring_comp)).2 = [(7, mA)].
Proof. by vm_compute. Qed.

Lemma model_recv_dispatches_witness :
  exists buf' res, content buf' = [5] /\
    served sample_acfg unbinding_ops command_ctx 0x8202 buf' [0; 1]%nat (sample_access ring_comp) res /\
    match res with
    | Some (ok, s') => exists status ctx',
        bt_mesh_model_recv sample_acfg unbinding_ops command_ctx command (sample_access ring_comp) = (Ok (status, ctx', buf'), s') /\
        (status = ACCESS_STATUS_SUCCESS <-> ok = true)
    | None => (bt_mesh_model_recv sample_acfg unbinding_ops command_ctx command (sample_access ring_comp)).1 = Crash
    end.
Proof.
  apply (model_recv_dispatches sample_acfg unbinding_ops command_ctx command 0x8202 [5] (sample_access ring_comp)).
  - intros f r ctx buf s e c b s' [= <- <- <- <-]. split_and!; [done|done|done| |by destruct s]. cbn.
    case_bool_decide as Hd; [by apply same_elems_set|apply same_elems_refl].
  - split; [apply ring_rings|apply ring_registered|right; left; lia|done].
  - exists 1. split; [lia|]. split; [by vm_compute|]. intros i Hi. change (i < 2)%nat in Hi. by destruct i as [|[|i]]; [..|lia].
  - apply command_wf.
  - done.
  - done.
  - done.
Defined.

(** * Composition data *)

Definition sample_ccfg : comp_cfg := mk_ccfg false true true true false true false 10.
Definition sample_records : list bt_mesh_comp2_record := [mk_rec2 0x1600 1 0 2 [0; 1] [9; 9; 9]].
Definition page_buf (n : nat) : bt_buf_simple := mk_buf (replicate n 0) 0 0 (Z.of_nat n).

Lemma page_buf_wf n : Z.of_nat n <= 1000 -> wf (page_buf n).
Proof.
  intros Hn. split; simpl; rewrite ?length_replicate; try (unfold UINT16_MAX; lia). apply Forall_replicate. unfold is_byte. lia.
Qed.

Lemma sample_widths : comp_widths sample_ccfg sample_comp.
Proof.
  unfold comp_widths. unfold u16_ok. split_and!; [simpl; lia..|].
  repeat constructor; cbn; unfold u16_ok; try lia; repeat constructor; cbn; lia.
Qed.

Lemma comp_page_read_witness :
  exists buf' off', bt_mesh_comp_data_get_page sample_ccfg sample_comp [] (Some sample_records) 2 (mk_page (page_buf 64) 6) = (Ok (), mk_page buf' off') /\
    wf buf' /\ content buf' = [0; 1; 3; 0; 9; 9; 9] /\ bt_mesh_comp_page_size sample_ccfg sample_comp [] (Some sample_records) 2 = 13.
Proof.
  apply (comp_page_read sample_ccfg sample_comp [] (Some sample_records) 2 [0x00; 0x16; 1; 0; 2; 2; 0; 1; 3; 0; 9; 9; 9] (page_buf 64) 6).
  - by vm_compute.
  - apply sample_widths.
  - repeat constructor; cbn; unfold u16_ok, is_byte; try lia; repeat constructor; unfold is_byte; lia.
  - apply page_buf_wf. lia.
  - lia.
  - vm_compute. congruence.
Defined.

Lemma comp_page_0_roundtrip_witness :
  exists buf' off' rest, bt_mesh_comp_data_get_page sample_ccfg sample_comp [] None 0 (mk_page (page_buf 64) 0) = (Ok (), mk_page buf' off') /\
    bt_mesh_comp_p0_get buf' = Some (inl (mk_p0 0x59 1 2 10 5), rest) /\
    forall n, (2 < n)%nat -> read_elems n rest = Some (map info_of (co_elem sample_comp)).
Proof.
  apply (comp_page_0_roundtrip sample_ccfg sample_comp [] None (page_buf 64)).
  - apply sample_widths.
  - apply page_buf_wf. lia.
  - done.
  - vm_compute. congruence.
Defined.

(** * Storage *)

(** Every model has changed. *)
Definition dirty (e : bt_mesh_elem) : bt_mesh_elem :=
  e <| e_models ::= map (fun m => m <| m_flags := 7 |>) |> <| e_vnd_models ::= map (fun m => m <| m_flags := 7 |>) |>.
Definition dirty_comp : bt_mesh_comp := sample_comp <| co_elem ::= map dirty |>.

(** The node before its settings are loaded. *)
Definition fresh_model (m : bt_mesh_model) : bt_mesh_model :=
  m <| m_keys := [0xffff; 0xffff] |> <| m_groups := [0; 0] |> <| m_uuids := [None; None] |>
    <| m_pub ::= fmap (fun p => p <| p_addr := 0 |> <| p_ttl := 0 |>) |>.
Definition fresh_comp : bt_mesh_comp :=
  sample_comp <| co_elem ::= map (fun e => e <| e_models ::= map fresh_model |> <| e_vnd_models ::= map fresh_model |>) |>.

Lemma access_restart_witness :
  exists s' l, bt_mesh_model_pending_store sample_acfg sample_ops (sample_access dirty_comp) = (Ok (), s') /\ a_ext s' = [] ++ l /\
    (forall r name, r ∈ comp_refs dirty_comp -> pending (model_at r (a_comp s')) name = false) /\
    forall recs, NoDup recs.*1 -> (forall p rec, (p, rec) ∈ recs <-> disk_after (fun _ => None) l p = Some rec) ->
      exists t', load_all sample_acfg sample_ops recs (sample_access fresh_comp) = (Ok (), t') /\
        forall r name, r ∈ comp_refs dirty_comp -> kept (field_of (model_at r dirty_comp) name) (field_of (model_at r (a_comp t')) name).
Proof.
  apply (access_restart sample_acfg sample_ops (fun _ => None) (sample_access dirty_comp) (sample_access fresh_comp)).
  - done.
  - split.
    + intros r. revert r. apply each_ref; cbn; (split; [lia|]); (split; [lia|]); done.
    + intros r. revert r. apply each_ref; (split; [by vm_compute|]); split;
        try (intros u Hu; exists (mk_va 1 false 0x8001 (replicate 16 1)); 
             assert (u = 0%nat) as -> by (cbn in Hu; set_solver); done);
        try done; intros p [= <-]; cbn; (split; [lia|]); (split; [lia|]); done.
  - split.
    + intros r name Hr Hname Hp. exfalso. revert Hp. assert (pending (model_at r dirty_comp) name = true) as Ht
        by (revert r Hr; apply each_ref; by destruct name).
      change (a_comp (sample_access dirty_comp)) with dirty_comp. by rewrite Ht.
    + done.
    + by intros p [].
  - split; [done|]. split; [done|]. intros r name. revert r. apply each_ref; by destruct name.
Defined.

(** The records of the job above, read back by hand. *)
Definition saved (l : list access_ext) : list (mod_path * mod_record) :=
  omap (fun o => match o with AccSave p r => Some (p, r) | _ => None end) l.
Example restart_run :
  let s := (bt_mesh_model_pending_store sample_acfg sample_ops (sample_access dirty_comp)).2 in
  let '(r, t) := load_all sample_acfg sample_ops (saved (a_ext s)) (sample_access fresh_comp) in
  length (saved (a_ext s)) = 14%nat /\ r = Ok () /\
  m_groups (model_at mC (a_comp t)) = [0xC002; 0] /\ m_uuids (model_at mA (a_comp t)) = [Some 0%nat; None] /\
  (p_addr <$> m_pub (model_at mD (a_comp t))) = Some 0xC000.
Proof. by vm_compute. Qed.

(** * What the program does on some inputs *)

(** What a search from a model finds after some calls. *)
Definition found_after (l : list (mod_ref * mod_ref)) (r : mod_ref) (addr : Z) : outcome (option nat * mod_ref) :=
  (bt_mesh_model_find_group sample_acfg r addr (extend_calls (X := list (Z * mod_ref)) (W := crypto_state psa_store) sample_acfg l
     (sample_access sample_comp)).2).1.

(** The loop of [bt_mesh_model_extend] does not look at the model right before the one it
    starts from: to say again that A extends B takes the two apart. *)
Example extend_again_splits :
  found_after [(mA, mB)] mA 0xC001 = Ok (Some 0%nat, mB) /\ found_after [(mA, mB); (mA, mB)] mA 0xC001 = Ok (None, mA).
Proof. by vm_compute. Qed.

(** And so does to say that A extends C as well, once both extend B. *)
Example extend_third_splits :
  found_after [(mA, mB); (mC, mB); (mA, mC)] mA 0xC001 = Ok (None, mA).
Proof. by vm_compute. Qed.

(** A message without an opcode. *)
Example recv_empty :
  (bt_mesh_model_recv sample_acfg sample_ops command_ctx (mk_buf [] 0 0 0) (sample_access sample_comp)).1 = Crash.
Proof. by vm_compute. Qed.

(** Pages of composition data with [CONFIG_BT_MESH_LARGE_COMP_DATA_SRV]: of page 0 an element
    that does not fit is left out, but those behind it are not. *)
Definition wide_comp : bt_mesh_comp :=
  mk_comp 0x59 1 2
    [mk_elem 1 0x100 (replicate 10 (plain_model (SigId 0x1000) 0 0 [])) [];
     mk_elem 2 0x101 [plain_model (SigId 0x1000) 1 0 []] []].
Example page_0_gap :
  (content (pg_buf (bt_mesh_comp_data_get_page_0 (mk_ccfg true true true true false true false 10) wide_comp (mk_page (page_buf 32) 0)).2)) =
  [0x59; 0; 1; 0; 2; 0; 10; 0; 5; 0; 1; 1; 1; 0; 0; 0x10].
Proof. by vm_compute. Qed.

(** A model that extends another and corresponds to a third: its element is one byte
    shorter than the size it is taken for, and a client does not read an element with one
    model that extends nothing. *)
Definition related_comp : bt_mesh_comp :=
  mk_comp 0x59 1 2 [mk_elem 1 0x100 [plain_model (SigId 0x1000) 0 0 []; plain_model (SigId 0x1001) 0 1 []; plain_model (SigId 0x1002) 0 2 []] []].
Definition related : list mod_relation := [mk_rel 0 1 0 0 0xff; mk_rel 0 2 0 0 0].
Example page_1_size :
  bt_mesh_comp_page_size sample_ccfg related_comp related None 1 = 9 /\
  zlen (content (pg_buf (bt_mesh_comp_data_get_page sample_ccfg related_comp related None 1 (mk_page (page_buf 64) 0)).2)) = 8.
Proof. by vm_compute. Qed.
Example page_1_short_element :
  bt_mesh_comp_p1_elem_pull (mk_buf [1; 0; 0] 0 3 3) = Some (None, mk_buf [1; 0; 0] 0 3 3).
Proof. by vm_compute. Qed.

(** The second of two items is not read as the format of the header says. *)
Example page_1_items :
  let '(item, rest) := bt_mesh_comp_p1_item_pull [0x08; 0x08; 0x10] in
  rest = [] /\ (i_buf <$> item) = Some [0x08; 0x10] /\ bt_mesh_comp_p1_pull_ext_item false [0x08; 0x10] = (Some ExtUnread, [0x08; 0x10]).
Proof. by vm_compute. Qed.
