(* ===== verification/OpAgg.v ===== *)
(** The opcodes aggregator: the messages it packs ([mesh/op_agg.c]), its server
    ([mesh/op_agg_srv.c]) and its client ([mesh/op_agg_cli.c]); and the acknowledged messages
    of [mesh/msg.c].  What sending consults of them is in [Access.v].

    A handler that is called for an item may send, which comes back to this file through
    [bt_mesh_model_send]; so the handlers below are operations on the whole state, and the
    application that calls them is again a parameter.  A message that is taken out of a
    buffer is a buffer of its own; in the program it points into the other, at bytes that
    are not read again. *)

From S2P Require Import Prelude Byteorder BufSimple MeshDefs CryptoIf Crypto Va Subnet NetIv Net AppKeys Transport TransRx Access.

(** * Acknowledged messages *)

Definition bt_mesh_msg_ack_ctx_init (ack : bt_mesh_msg_ack_ctx) : bt_mesh_msg_ack_ctx := ack <| ack_sem := 0 |>.
Definition bt_mesh_msg_ack_ctx_clear (ack : bt_mesh_msg_ack_ctx) : bt_mesh_msg_ack_ctx :=
  ack <| ack_op := 0 |> <| ack_user_data := 0 |> <| ack_dst := BT_MESH_ADDR_UNASSIGNED |>.
Definition bt_mesh_msg_ack_ctx_prepare (ack : bt_mesh_msg_ack_ctx) (op dst user_data : Z) : bt_mesh_msg_ack_ctx + Z :=
  if negb (ack_op ack =? 0) then inr (- EBUSY)
  else inl (ack <| ack_op := op |> <| ack_user_data := user_data |> <| ack_dst := dst |>).
Definition bt_mesh_msg_ack_ctx_busy (ack : bt_mesh_msg_ack_ctx) : bool := negb (ack_op ack =? 0).
Definition bt_mesh_msg_ack_ctx_rx (ack : bt_mesh_msg_ack_ctx) : bt_mesh_msg_ack_ctx := ack <| ack_sem ::= (fun n => Z.min 1 (n + 1)) |>.
Definition bt_mesh_msg_ack_ctx_match (ack : bt_mesh_msg_ack_ctx) (op addr : Z) : bool :=
  negb (negb (ack_op ack =? op) || (BT_MESH_ADDR_IS_UNICAST (ack_dst ack) && negb (ack_dst ack =? addr))).

(** [taken] is what [os_sem_take] gives. *)
Definition bt_mesh_msg_ack_ctx_wait (taken : Z) (ack : bt_mesh_msg_ack_ctx) : Z * bt_mesh_msg_ack_ctx :=
  (if taken =? - EAGAIN then - ETIMEDOUT else taken, bt_mesh_msg_ack_ctx_clear ack).

(** * Items *)

(** The message, and what follows it. *)
Definition bt_mesh_op_agg_decode_msg {S} (buf : bt_buf_simple) : M S (bt_buf_simple * bt_buf_simple) :=
  b ← checked (mem_read (b_store buf) (b_data buf) 1);
  '(len, buf) ← (if negb (Z.land (b !!! 0%nat) 1 =? 0) then
                   if b_len buf <? 2 then fail (- EINVAL)
                   else '(v, buf) ← checked (bt_buf_simple_pull_le16 buf); mret (Z.shiftr v 1, buf)
                 else if b_len buf <? 1 then fail (- EINVAL)
                 else '(v, buf) ← checked (bt_buf_simple_pull_u8 buf); mret (Z.shiftr v 1, buf));
  if b_len buf <? len then fail (- EINVAL)
  else
    data ← checked (mem_read (b_store buf) (b_data buf) len);
    '(buf, _) ← checked (bt_buf_simple_pull buf len);
    mret (bt_buf_simple_init_with_data data len, buf).

Section OpAgg.

Context {X W : Type} `{MeshCrypto W}.
Context (cfg : net_cfg) (tcfg : trans_cfg) (acfg : access_cfg) (env : trans_env).
Notation st := (access X W).
Context (app : app_ops st).

(** [bt_mesh_model_in_primary] *)
Definition bt_mesh_model_in_primary (m : bt_mesh_model) : bool := m_elem_idx m =? 0.

(** [model->keys[0] = key] *)
Definition set_key0 (r : mod_ref) (key : Z) : M st unit :=
  m ← model r;
  if zlen (m_keys m) =? 0 then checked None else on_model r (fun m => m <| m_keys ::= <[0%nat := key]> |>).

(** * The server *)

Definition op_agg_srv_init (r : mod_ref) : M st unit :=
  m ← model r;
  if negb (bt_mesh_model_in_primary m) then fail (- EINVAL) else set_key0 r BT_MESH_KEY_DEV_ANY.

(** The first loop of [handle_sequence], which only looks whether the items can be parsed;
    every item has a byte at least, so that the length of the buffer is fuel enough. *)
Fixpoint parse_loop (n : nat) (buf : bt_buf_simple) : M st unit :=
  match n with
  | O => checked None
  | S n => if b_len buf <=? 0 then mret () else '(_, buf) ← bt_mesh_op_agg_decode_msg buf; parse_loop n buf
  end.

(** The second: the status, which is 0 if all items were served. *)
Fixpoint serve_loop (n : nat) (ctx : bt_mesh_msg_ctx) (buf : bt_buf_simple) : M st (Z * bt_mesh_msg_ctx) :=
  match n with
  | O => checked None
  | S n =>
      if b_len buf <=? 0 then mret (0, ctx)
      else
        '(msg, buf) ← bt_mesh_op_agg_decode_msg buf;
        _ ← on_srv (fun g => g <| gs_ack := false |> <| gs_rsp_err := 0 |>);
        '(err, ctx, _) ← bt_mesh_model_recv acfg app ctx msg;
        srv ← gets a_agg_srv;
        if negb (gs_rsp_err srv =? 0) then mret (gs_rsp_err srv, ctx)
        else if negb (err =? 0) then mret (err, ctx)
        else
          _ ← (if gs_ack srv then mret ()
               else
                 sdu ← checked (bt_buf_simple_add_u8 (g_sdu (gs_ctx srv)) 0);
                 on_srv (fun g => g <| gs_ctx ::= (fun c => c <| g_sdu := sdu |>) |>));
          serve_loop n ctx buf
  end.

(** [*status = val], where [at_] is the place of the byte in the memory of [sdu]. *)
Definition put_status (at_ val : Z) : M st unit :=
  on_srv (fun g => g <| gs_ctx ::= (fun c => c <| g_sdu ::= (fun b => set_store (<[Z.to_nat at_ := u8 val]> (b_store b)) b) |>) |>).

(** The answer of the handler, with the context as it leaves it.  What is left of the
    buffer is not: the caller restores it. *)
Definition handle_sequence (r : mod_ref) (ctx : bt_mesh_msg_ctx) (buf : bt_buf_simple) : M st (Z * bt_mesh_msg_ctx) :=
  '(elem, buf) ← checked (bt_buf_simple_pull_le16 buf);
  let ctx := ctx <| x_recv_dst := elem |> in
  srv ← gets a_agg_srv;
  sdu ← checked (bt_mesh_model_msg_init (g_sdu (gs_ctx srv)) OP_OPCODES_AGGREGATOR_STATUS);
  let status := bt_buf_simple_tail sdu in
  sdu ← checked (bt_buf_simple_add_u8 sdu 0);
  sdu ← checked (bt_buf_simple_add_le16 sdu elem);
  _ ← on_srv (fun g => g <| gs_ctx := mk_agg true (x_net_idx ctx) (x_app_idx ctx) (x_addr ctx) sdu |>);
  if negb (BT_MESH_ADDR_IS_UNICAST elem) then mret (- EINVAL, ctx)
  else
    e ← attempt (parse_loop (S (Z.to_nat (b_len buf))) buf);
    match e with
    | inr err => mret (err, ctx)
    | inl _ =>
        comp ← gets a_comp;
        '(val, ctx) ← match bt_mesh_elem_find comp elem with
                      | None => mret (ACCESS_STATUS_INVALID_ADDRESS, ctx)
                      | Some _ => serve_loop (S (Z.to_nat (b_len buf))) ctx buf
                      end;
        _ ← (if val =? 0 then mret () else put_status status val);
        _ ← on_srv (fun g => g <| gs_ctx ::= (fun c => c <| g_initialized := false |>) |>);
        srv ← gets a_agg_srv;
        e ← attempt (bt_mesh_model_send cfg tcfg acfg env r ctx (g_sdu (gs_ctx srv)) None);
        mret (match e with inl _ => 0 | inr err => err end, ctx)
    end.

(** * The client *)

Definition op_agg_cli_init (r : mod_ref) : M st unit :=
  m ← model r;
  if negb (bt_mesh_model_in_primary m) then fail (- EINVAL)
  else
    _ ← set_key0 r BT_MESH_KEY_DEV_ANY;
    on_cli (fun g => g <| gc_model := Some r |> <| gc_ack ::= bt_mesh_msg_ack_ctx_init |>).

Definition bt_mesh_op_agg_cli_seq_start (net_idx app_idx dst elem_addr : Z) : M st unit :=
  cli ← gets a_agg_cli;
  if negb (BT_MESH_ADDR_IS_UNICAST elem_addr) then fail (- EINVAL)
  else if g_initialized (gc_ctx cli) then fail (- EALREADY)
  else
    sdu ← checked (bt_mesh_model_msg_init (g_sdu (gc_ctx cli)) OP_OPCODES_AGGREGATOR_SEQUENCE);
    sdu ← checked (bt_buf_simple_add_le16 sdu elem_addr);
    on_cli (fun g => g <| gc_ctx := mk_agg true net_idx app_idx dst sdu |> <| gc_srcs ::= bt_buf_simple_init 0 |>).

Definition bt_mesh_op_agg_cli_seq_abort : M st unit :=
  on_cli (fun g => g <| gc_ctx ::= (fun c => c <| g_initialized := false |>) |>).
Definition bt_mesh_op_agg_cli_seq_is_started : M st bool := gets (fun s => g_initialized (gc_ctx (a_agg_cli s))).
Definition bt_mesh_op_agg_cli_seq_tailroom : M st Z := gets (fun s => bt_buf_simple_tailroom (g_sdu (gc_ctx (a_agg_cli s)))).

(** [during] is what other threads do while this one waits, and what [os_sem_take] gives. *)
Definition bt_mesh_op_agg_cli_seq_send (during : M st Z) : M st unit :=
  cli ← gets a_agg_cli;
  let ctx := mk_ctx (g_net_idx (gc_ctx cli)) (g_app_idx (gc_ctx cli)) (g_addr (gc_ctx cli)) 0 None 0 false false 0 in
  if negb (g_initialized (gc_ctx cli)) then fail (- EINVAL)
  else
    match bt_mesh_msg_ack_ctx_prepare (gc_ack cli) OP_OPCODES_AGGREGATOR_STATUS (g_addr (gc_ctx cli)) 0 with
    | inr err => fail err
    | inl ack =>
        _ ← on_cli (fun g => g <| gc_ack := ack |> <| gc_ctx ::= (fun c => c <| g_initialized := false |>) |>);
        r ← checked (gc_model cli);
        e ← attempt (bt_mesh_model_send cfg tcfg acfg env r ctx (g_sdu (gc_ctx cli)) None);
        match e with
        | inr err => _ ← on_cli (fun g => g <| gc_ack ::= bt_mesh_msg_ack_ctx_clear |>); fail err
        | inl _ =>
            taken ← during;
            cli ← gets a_agg_cli;
            let '(err, ack) := bt_mesh_msg_ack_ctx_wait taken (gc_ack cli) in
            _ ← on_cli (fun g => g <| gc_ack := ack |>);
            if err =? 0 then mret () else fail err
        end
    end.

(** The loop of [handle_status]; its answer is an error, or 0 at the end. *)
Fixpoint status_loop (n : nat) (ctx : bt_mesh_msg_ctx) (buf : bt_buf_simple) : M st (Z * bt_mesh_msg_ctx) :=
  let again := on_cli (fun g => g <| gc_ctx ::= (fun c => c <| g_initialized := true |>) |>) in
  match n with
  | O => checked None
  | S n =>
      if b_len buf <=? 0 then mret (0, ctx)
      else
        e ← attempt (bt_mesh_op_agg_decode_msg buf);
        match e with
        | inr _ => _ ← again; mret (- EINVAL, ctx)
        | inl (msg, buf) =>
            cli ← gets a_agg_cli;
            if b_len (gc_srcs cli) <? 2 then _ ← again; mret (- ENOENT, ctx)
            else
              '(addr, srcs) ← checked (bt_buf_simple_pull_le16 (gc_srcs cli));
              _ ← on_cli (fun g => g <| gc_srcs := srcs |>);
              if b_len msg =? 0 then status_loop n ctx buf
              else
                '(err, ctx, _) ← bt_mesh_model_recv acfg app (ctx <| x_recv_dst := addr |>) msg;
                if negb (err =? 0) then _ ← again; mret (err, ctx) else status_loop n ctx buf
        end
  end.

Definition handle_status (ctx : bt_mesh_msg_ctx) (buf : bt_buf_simple) : M st (Z * bt_mesh_msg_ctx) :=
  cli ← gets a_agg_cli;
  if negb (bt_mesh_msg_ack_ctx_match (gc_ack cli) OP_OPCODES_AGGREGATOR_STATUS (x_addr ctx)) then mret (- ENOENT, ctx)
  else
    '(_, buf) ← checked (bt_buf_simple_pull_u8 buf);
    '(_, buf) ← checked (bt_buf_simple_pull_le16 buf);
    '(err, ctx) ← status_loop (S (Z.to_nat (b_len buf))) ctx buf;
    if negb (err =? 0) then mret (err, ctx)
    else _ ← on_cli (fun g => g <| gc_ack ::= bt_mesh_msg_ack_ctx_rx |>); mret (0, ctx).

(** * Messages of clients *)

(** Without a context the message is published. *)
Definition bt_mesh_msg_send (rnd : Z) (r : mod_ref) (ctx : option bt_mesh_msg_ctx) (buf : bt_buf_simple) : M st unit :=
  m ← model r;
  match ctx, m_pub m with
  | None, None => fail (- ENOTSUP)
  | Some ctx, _ => bt_mesh_model_send cfg tcfg acfg env r ctx buf None
  | None, Some pub =>
      msg ← checked (p_msg pub);
      data ← checked (mem_read (b_store buf) (b_data buf) (b_len buf));
      msg ← checked (bt_buf_simple_add_mem (bt_buf_simple_reset msg) data);
      _ ← on_pub r (fun p => p <| p_msg := Some msg |>);
      bt_mesh_model_publish tcfg acfg env rnd r
  end.

(** [struct bt_mesh_msg_rsp_ctx]: where the acknowledgement is kept, and what it waits for. *)
Record bt_mesh_msg_rsp_ctx := mk_rsp {
  rsp_get : st -> bt_mesh_msg_ack_ctx;
  rsp_set : bt_mesh_msg_ack_ctx -> st -> st;
  rsp_op : Z;
  rsp_user_data : Z
}.

Definition bt_mesh_msg_ackd_send (rnd : Z) (during : M st Z) (r : mod_ref) (ctx : option bt_mesh_msg_ctx) (buf : bt_buf_simple)
    (rsp : option bt_mesh_msg_rsp_ctx) : M st unit :=
  match rsp with
  | None => bt_mesh_msg_send rnd r ctx buf
  | Some rsp =>
      dst ← match ctx with Some c => mret (x_addr c) | None => pub ← pub_of r; mret (p_addr pub) end;
      ack ← gets (rsp_get rsp);
      match bt_mesh_msg_ack_ctx_prepare ack (rsp_op rsp) dst (rsp_user_data rsp) with
      | inr err => fail err
      | inl ack =>
          _ ← change (rsp_set rsp ack);
          e ← attempt (bt_mesh_msg_send rnd r ctx buf);
          match e with
          | inl _ =>
              taken ← during;
              ack ← gets (rsp_get rsp);
              let '(err, ack) := bt_mesh_msg_ack_ctx_wait taken ack in
              _ ← change (rsp_set rsp ack);
              if err =? 0 then mret () else fail err
          | inr err => _ ← change (fun s => rsp_set rsp (bt_mesh_msg_ack_ctx_clear (rsp_get rsp s)) s); fail err
          end
      end
  end.

End OpAgg.
