(* ===== verification/OpAggSpec.v ===== *)
(** What the opcodes aggregator does: the messages one client packs, the server takes out
    again and serves one by one, and the replies reach the models that asked. *)

From S2P Require Import Prelude Byteorder BufSimple MeshDefs CryptoIf Crypto Va Subnet NetIv Net AppKeys Transport TransRx.
From S2P Require Import Access AccessExt AccessRecv AccessFrame CompData CompPages OpAgg.

(** * Items *)

(** An item: the length, in one byte or two, and the message. *)
Definition agg_item (m : list Z) : list Z :=
  (if 127 <? zlen m then le16 (2 * zlen m + 1) else [2 * zlen m]) ++ m.
Definition agg_bytes (l : list (list Z)) : list Z := concat (map agg_item l).

(** A message that can be an item. *)
Definition item_ok (m : list Z) : Prop := Forall is_byte m /\ zlen m < 32768.

Lemma add_le16_run b x : wf b -> u16_ok x -> b_data b + b_len b + 2 <= b_size b ->
  exists b', bt_buf_simple_add_le16 b x = Some b' /\ wf b' /\ content b' = content b ++ le16 x /\ b_data b' = b_data b /\
    b_len b' = b_len b + 2 /\ b_size b' = b_size b.
Proof.
  intros Hw Hx Hl. apply (append_run _ b (le16 x)); [done|apply le16_bytes|done|].
  unfold bt_buf_simple_add_le16, add_put. rewrite u16_id by (unfold u16_ok in Hx; lia). done.
Qed.

Lemma shl1_odd n : 0 <= n -> Z.lor (Z.shiftl n 1) 1 = 2 * n + 1.
Proof. intros Hn. rewrite (lor_shl_add n 1 1) by lia. simpl Z.pow. lia. Qed.
Lemma shl1_even n : Z.shiftl n 1 = 2 * n.
Proof. rewrite Z.shiftl_mul_pow2 by lia. simpl Z.pow. lia. Qed.

Lemma land_one x : Z.land x 1 = x mod 2.
Proof. exact (Z.land_ones x 1 ltac:(lia)). Qed.

Lemma half_odd n : Z.shiftr (2 * n + 1) 1 = n.
Proof. rewrite Z.shiftr_div_pow2 by lia. simpl Z.pow. rewrite Z.add_comm, Z.mul_comm, Z.div_add by lia. done. Qed.
Lemma half_even n : Z.shiftr (2 * n) 1 = n.
Proof. rewrite Z.shiftr_div_pow2 by lia. simpl Z.pow. rewrite Z.mul_comm. by apply Z.div_mul. Qed.

Section Codec.

Context {X W : Type} `{MeshCrypto W}.
Notation st := (access X W).
Implicit Types s : st.

Lemma encode_msg_run msg buf s : wf msg -> wf buf -> b_len msg < 32768 ->
  b_data buf + b_len buf + zlen (agg_item (content msg)) <= b_size buf ->
  exists buf', bt_mesh_op_agg_encode_msg msg buf s = (Ok buf', s) /\ wf buf' /\
    content buf' = content buf ++ agg_item (content msg) /\ b_data buf' = b_data buf /\ b_size buf' = b_size buf /\
    b_len buf' = b_len buf + zlen (agg_item (content msg)).
Proof.
  intros Hm Hb Hlen Hroom. pose proof (content_length msg Hm) as Hl. pose proof (content_bytes msg Hm) as Hby.
  unfold bt_mesh_op_agg_encode_msg, encode_length. rewrite tailroom_wf by done. unfold agg_item in *. rewrite length_app in Hroom.
  assert (mem_read (b_store msg) (b_data msg) (b_len msg) = Some (content msg)) as Er.
  { rewrite <-(app_nil_r (content msg)) in Hl. by destruct (pull_run msg (b_len msg) (content msg) [] Hm) as (Er & _);
      [by rewrite app_nil_r|rewrite app_nil_r in Hl; lia|]. }
  assert (0 <= b_len msg) as H0 by (rewrite <-Hl; lia). change LENGTH_SHORT_MAX with 127. rewrite Hl in *.
  destruct (Z.ltb_spec 127 (b_len msg)) as [Hlong|Hshort].
  - change (length (le16 (2 * b_len msg + 1))) with 2%nat in Hroom. rewrite (proj2 (Z.ltb_ge _ _)) by lia.
    rewrite shl1_odd by lia.
    destruct (add_le16_run buf (2 * b_len msg + 1)) as (b1 & E1 & Hw1 & Hc1 & Hd1 & Hl1 & Hs1); [done|unfold u16_ok; lia|lia|].
    rewrite (bind_ok _ _ s b1 s) by (unfold checked; by rewrite E1). rewrite Er. rewrite (bind_ok _ _ s (content msg) s) by done.
    destruct (add_mem_run b1 (content msg)) as (b2 & E2 & Hw2 & Hc2 & Hd2 & Hl2 & Hs2); [done|done|lia|].
    exists b2. rewrite E2. rewrite Hc2, Hc1, <-app_assoc, length_app. change (length (le16 _)) with 2%nat. split_and!; try done; lia.
  - cbn [length] in Hroom. rewrite (proj2 (Z.ltb_ge _ _)) by lia. rewrite shl1_even.
    destruct (add_u8_run buf (2 * b_len msg)) as (b1 & E1 & Hw1 & Hc1 & Hd1 & Hl1 & Hs1); [done|unfold is_byte; lia|lia|].
    rewrite (bind_ok _ _ s b1 s) by (unfold checked; by rewrite E1). rewrite Er. rewrite (bind_ok _ _ s (content msg) s) by done.
    destruct (add_mem_run b1 (content msg)) as (b2 & E2 & Hw2 & Hc2 & Hd2 & Hl2 & Hs2); [done|done|lia|].
    exists b2. rewrite E2. rewrite Hc2, Hc1, <-app_assoc, length_app. cbn [length]. split_and!; try done; lia.
Qed.

Lemma decode_msg_run m buf rest s : wf buf -> item_ok m -> content buf = agg_item m ++ rest ->
  exists buf', bt_mesh_op_agg_decode_msg buf s = (Ok (bt_buf_simple_init_with_data m (zlen m), buf'), s) /\
    wf buf' /\ content buf' = rest /\ b_len buf' < b_len buf.
Proof.
  intros Hw [Hby Hlen] Hc. pose proof (content_length buf Hw) as Hl. rewrite Hc in Hl. unfold agg_item in *. rewrite !length_app in Hl.
  assert (forall b, wf b -> content b = m ++ rest -> b_len b < b_len buf ->
    exists buf', (if b_len b <? zlen m then fail (- EINVAL)
      else data ← checked (mem_read (b_store b) (b_data b) (zlen m)); '(b, _) ← checked (bt_buf_simple_pull b (zlen m));
           mret (bt_buf_simple_init_with_data data (zlen m), b)) s = (Ok (bt_buf_simple_init_with_data m (zlen m), buf'), s) /\
      wf buf' /\ content buf' = rest /\ b_len buf' < b_len buf) as Hrest.
  { intros b Hwb Hcb Hlb. destruct (pull_run b (zlen m) m rest Hwb Hcb eq_refl) as (Er & Ep & Hw' & Hc' & Hl').
    pose proof (content_length b Hwb) as Hl2. rewrite Hcb, length_app in Hl2. rewrite (proj2 (Z.ltb_ge _ _)) by lia.
    rewrite (bind_ok _ _ s m s) by (unfold checked; by rewrite Er). rewrite (bind_ok _ _ s (pulled b (zlen m), b_data b + zlen m) s) by (unfold checked; by rewrite Ep).
    exists (pulled b (zlen m)). split; [done|]. split; [done|]. split; [done|]. lia. }
  unfold bt_mesh_op_agg_decode_msg. destruct (Z.ltb_spec 127 (zlen m)) as [Hlong|Hshort].
  - change (length (le16 (2 * zlen m + 1))) with 2%nat in Hl. rewrite <-app_assoc in Hc. pose proof Hc as Hc0. unfold le16 in Hc0. cbn [app] in Hc0.
    destruct (pull_run buf 1 [u8 (2 * zlen m + 1)] _ Hw Hc0 eq_refl) as (Er & _). rewrite Er.
    rewrite (bind_ok _ _ s [u8 (2 * zlen m + 1)] s) by done. change ([u8 (2 * zlen m + 1)] !!! 0%nat) with (u8 (2 * zlen m + 1)).
    assert (Z.land (u8 (2 * zlen m + 1)) 1 =? 0 = false) as ->.
    { apply Z.eqb_neq. rewrite land_one. unfold u8. rewrite <-(Znumtheory.Zmod_div_mod 2 256) by (lia || by exists 128).
      by rewrite Z.add_comm, Z.mul_comm, Z.mod_add. }
    cbn [negb]. rewrite (proj2 (Z.ltb_ge _ _)) by lia.
    destruct (pull_le16_run buf (2 * zlen m + 1) (m ++ rest) Hw) as (b1 & E1 & Hw1 & Hc1); [unfold u16_ok; lia|done|].
    rewrite (bind_ok _ _ s (zlen m, b1) s); [apply Hrest; [done|done|]|].
    + pose proof (content_length b1 Hw1) as Hl1. rewrite Hc1, length_app in Hl1. lia.
    + rewrite (bind_ok _ _ s (2 * zlen m + 1, b1) s) by (unfold checked; by rewrite E1). by rewrite half_odd.
  - cbn [length] in Hl. cbn [app] in Hc.
    destruct (pull_run buf 1 [2 * zlen m] _ Hw Hc eq_refl) as (Er & _). rewrite Er.
    rewrite (bind_ok _ _ s [2 * zlen m] s) by done. change ([2 * zlen m] !!! 0%nat) with (2 * zlen m).
    assert (Z.land (2 * zlen m) 1 =? 0 = true) as ->.
    { apply Z.eqb_eq. rewrite land_one. by rewrite Z.mul_comm, Z.mod_mul. }
    cbn [negb]. rewrite (proj2 (Z.ltb_ge _ _)) by lia.
    destruct (pull_u8_ex buf (2 * zlen m) (m ++ rest) Hw) as (b1 & E1 & Hw1 & Hc1); [done|].
    rewrite (bind_ok _ _ s (zlen m, b1) s); [apply Hrest; [done|done|]|].
    + pose proof (content_length b1 Hw1) as Hl1. rewrite Hc1, length_app in Hl1. lia.
    + rewrite (bind_ok _ _ s (2 * zlen m, b1) s) by (unfold checked; by rewrite E1). by rewrite half_even.
Qed.

End Codec.

(** * The client packs its messages *)

Section Client.

Context {X W : Type} `{MeshCrypto W}.
Notation st := (access X W).
Implicit Types s : st.

(** The address of the element of a model. *)
Definition addr_of (c : bt_mesh_comp) (r : mod_ref) : Z := e_addr (elem_at (Z.to_nat (m_elem_idx (model_at r c))) c).

(** What models send while the client packs. *)
Definition queue : list (mod_ref * bt_buf_simple) -> M st unit := foreach (fun '(r, msg) => bt_mesh_op_agg_cli_send r msg).

(** The buffers of the client. *)
Definition packing (g : bt_mesh_op_agg_cli) (sdu srcs : list Z) : Prop :=
  wf (g_sdu (gc_ctx g)) /\ content (g_sdu (gc_ctx g)) = sdu /\ wf (gc_srcs g) /\ content (gc_srcs g) = srcs.
Definition sdu_room (g : bt_mesh_op_agg_cli) : Z := b_size (g_sdu (gc_ctx g)) - b_data (g_sdu (gc_ctx g)) - b_len (g_sdu (gc_ctx g)).
Definition srcs_room (g : bt_mesh_op_agg_cli) : Z := b_size (gc_srcs g) - b_data (gc_srcs g) - b_len (gc_srcs g).

Definition sources (c : bt_mesh_comp) (l : list (mod_ref * bt_buf_simple)) : list Z := concat (map (fun x => le16 (addr_of c x.1)) l).
Definition messages (l : list (mod_ref * bt_buf_simple)) : list (list Z) := map (fun x => content x.2) l.

(** Messages a client can pack. *)
Definition packable (c : bt_mesh_comp) (l : list (mod_ref * bt_buf_simple)) : Prop :=
  Forall (fun x => u16_ok (addr_of c x.1) /\ wf x.2 /\ b_len x.2 < 32768) l.

Lemma queue_run l s sdu srcs : packable (a_comp s) l -> packing (a_agg_cli s) sdu srcs ->
  zlen (agg_bytes (messages l)) <= sdu_room (a_agg_cli s) -> 2 * zlen l <= srcs_room (a_agg_cli s) ->
  exists g, queue l s = (Ok (), s <| a_agg_cli := g |>) /\
    packing g (sdu ++ agg_bytes (messages l)) (srcs ++ sources (a_comp s) l) /\
    gc_model g = gc_model (a_agg_cli s) /\ gc_ack g = gc_ack (a_agg_cli s) /\
    gc_ctx g = gc_ctx (a_agg_cli s) <| g_sdu := g_sdu (gc_ctx g) |>.
Proof.
  intros Hl. revert s sdu srcs Hl. induction l as [|[r msg] l IH]; intros s sdu srcs Hl Hp Hr1 Hr2.
  { exists (a_agg_cli s). split; [by destruct s|]. unfold agg_bytes, sources. cbn. rewrite !app_nil_r. split; [done|].
    split; [done|]. split; [done|]. by destruct (gc_ctx (a_agg_cli s)). }
  apply Forall_cons in Hl as [(Ha & Hm & Hlen) Hl]. destruct Hp as (Hw1 & Hc1 & Hw2 & Hc2). cbn in Ha, Hm, Hlen.
  unfold agg_bytes, messages in Hr1. cbn [map concat] in Hr1. rewrite length_app in Hr1. cbn [length] in Hr2.
  set (g := a_agg_cli s) in *. unfold sdu_room, srcs_room in *.
  destruct (add_le16_run (gc_srcs g) (addr_of (a_comp s) r)) as (srcs' & E1 & Hw3 & Hc3 & Hd3 & Hl3 & Hs3); [done|done|lia|].
  destruct (encode_msg_run msg (g_sdu (gc_ctx g)) (s <| a_agg_cli ::= (fun g => g <| gc_srcs := srcs' |>) |>))
    as (sdu' & E2 & Hw4 & Hc4 & Hd4 & Hs4 & Hl4); [done|done|done|cbn [snd] in *; lia|].
  set (g1 := g <| gc_srcs := srcs' |> <| gc_ctx ::= (fun c => c <| g_sdu := sdu' |>) |>).
  set (s1 := s <| a_agg_cli := g1 |>).
  assert (bt_mesh_op_agg_cli_send r msg s = (Ok (), s1)) as E.
  { unfold bt_mesh_op_agg_cli_send. rewrite (bind_ok _ _ s (addr_of (a_comp s) r) s) by done.
    rewrite (bind_ok _ _ s g s) by done. rewrite tailroom_wf by done. rewrite (proj2 (Z.ltb_ge _ _)) by lia.
    rewrite (bind_ok _ _ s srcs' s) by (unfold checked; by rewrite E1).
    erewrite bind_ok by done. erewrite bind_ok by exact E2. done. }
  destruct (IH s1 (sdu ++ agg_item (content msg)) (srcs ++ le16 (addr_of (a_comp s) r))) as (g' & E' & Hp' & Hm' & Hk' & Hx');
    [done|split_and!; [done|etrans; [exact Hc4|by rewrite Hc1]|done|etrans; [exact Hc3|by rewrite Hc2]]|..].
  { unfold sdu_room. cbn [s1 g1]. cbn. cbn in Hr1. unfold agg_bytes, messages. lia. }
  { unfold srcs_room. cbn. lia. }
  exists g'. unfold queue in *. cbn [foreach]. rewrite (bind_ok _ _ s () s1) by done. split; [exact E'|].
  unfold agg_bytes, messages, sources in *. cbn [map concat fst snd]. rewrite !app_assoc. split; [done|].
  split; [done|]. split; [done|]. exact Hx'.
Qed.

(** From the start of a sequence on. *)
Lemma packs_run l net app dst elem s : u16_ok elem -> BT_MESH_ADDR_IS_UNICAST elem = true -> g_initialized (gc_ctx (a_agg_cli s)) = false ->
  wf (g_sdu (gc_ctx (a_agg_cli s))) -> wf (gc_srcs (a_agg_cli s)) -> packable (a_comp s) l ->
  4 + zlen (agg_bytes (messages l)) <= b_size (g_sdu (gc_ctx (a_agg_cli s))) -> 2 * zlen l <= b_size (gc_srcs (a_agg_cli s)) ->
  exists g, (_ ← bt_mesh_op_agg_cli_seq_start net app dst elem; queue l) s = (Ok (), s <| a_agg_cli := g |>) /\
    packing g (opcode_bytes OP_OPCODES_AGGREGATOR_SEQUENCE ++ le16 elem ++ agg_bytes (messages l)) (sources (a_comp s) l) /\
    gc_model g = gc_model (a_agg_cli s) /\ gc_ack g = gc_ack (a_agg_cli s) /\
    gc_ctx g = mk_agg true net app dst (g_sdu (gc_ctx g)).
Proof.
  intros He Hu Hi Hw1 Hw2 Hl Hr1 Hr2.
  destruct (msg_init_run (g_sdu (gc_ctx (a_agg_cli s))) OP_OPCODES_AGGREGATOR_SEQUENCE) as (b1 & E1 & Hwb1 & Hcb1 & Hdb1 & Hsb1);
    [done|right; left; vm_compute; intuition congruence|change (zlen (opcode_bytes _)) with 2; lia|].
  pose proof (content_length b1 Hwb1) as Hlb1. rewrite Hcb1 in Hlb1. change (zlen (opcode_bytes _)) with 2 in Hlb1.
  destruct (add_le16_run b1 elem) as (b2 & E2 & Hwb2 & Hcb2 & Hdb2 & Hlb2 & Hsb2); [done|done|lia|].
  destruct (init_wf (gc_srcs (a_agg_cli s)) Hw2) as [Hws Hcs].
  set (g1 := a_agg_cli s <| gc_ctx := mk_agg true net app dst b2 |> <| gc_srcs ::= bt_buf_simple_init 0 |>).
  set (s1 := s <| a_agg_cli := g1 |>).
  assert (bt_mesh_op_agg_cli_seq_start net app dst elem s = (Ok (), s1)) as E.
  { unfold bt_mesh_op_agg_cli_seq_start. rewrite (bind_ok _ _ s (a_agg_cli s) s) by done. rewrite Hu, Hi. cbn [negb].
    rewrite (bind_ok _ _ s b1 s) by (unfold checked; by rewrite E1). rewrite (bind_ok _ _ s b2 s) by (unfold checked; by rewrite E2). done. }
  destruct (queue_run l s1 (opcode_bytes OP_OPCODES_AGGREGATOR_SEQUENCE ++ le16 elem) []) as (g & Eg & Hp & Hm & Hk & Hx);
    [done|split_and!; [done|etrans; [exact Hcb2|by rewrite Hcb1]|done|done]|unfold sdu_room; cbn; lia|unfold srcs_room; cbn; lia|].
  exists g. rewrite (bind_ok _ _ s () s1) by done. split; [exact Eg|]. rewrite <-app_assoc in Hp. split; [exact Hp|].
  split; [done|]. split; [done|]. exact Hx.
Qed.

End Client.

(** * The server takes them out and answers *)

Lemma item_len m : 1 <= zlen (agg_item m).
Proof. unfold agg_item. destruct (127 <? zlen m); rewrite length_app; cbn [length le16]; lia. Qed.

Lemma init_data_wf m : item_ok m -> wf (bt_buf_simple_init_with_data m (zlen m)) /\ content (bt_buf_simple_init_with_data m (zlen m)) = m.
Proof.
  intros [Hb Hl]. unfold bt_buf_simple_init_with_data. rewrite u16_id by lia. split.
  - split; cbn; try done; unfold UINT16_MAX; lia.
  - unfold content, slice. cbn. rewrite Nat2Z.id. by apply take_ge.
Qed.

Section Server.

Context {X W : Type} `{MeshCrypto W}.
Context (cfg : net_cfg) (tcfg : trans_cfg) (acfg : access_cfg) (env : trans_env).
Notation st := (access X W).
Context (app : app_ops st).
Implicit Types s : st.

Lemma parse_loop_run ms : Forall item_ok ms -> forall n buf s, wf buf -> content buf = agg_bytes ms -> b_len buf < Z.of_nat n ->
  parse_loop n buf s = (Ok (), s).
Proof.
  induction 1 as [|m ms Hm Hms IH]; intros n buf s Hw Hc Hn; pose proof (content_length buf Hw) as Hl; rewrite Hc in Hl;
    (destruct n as [|n]; [lia|]); cbn [parse_loop].
  { cbn in Hl. rewrite (proj2 (Z.leb_le _ _)) by lia. done. }
  unfold agg_bytes in Hc, Hl. cbn [map concat] in Hc, Hl. rewrite length_app in Hl. pose proof (item_len m).
  rewrite (proj2 (Z.leb_gt _ _)) by lia. destruct (decode_msg_run m buf _ s Hw Hm Hc) as (b & E & Hwb & Hcb & Hlb).
  rewrite (bind_ok _ _ _ _ _ E). apply IH; [done|done|lia].
Qed.

Definition srv_sdu s : bt_buf_simple := g_sdu (gs_ctx (a_agg_srv s)).
Definition with_sdu (b : bt_buf_simple) s : st := s <| a_agg_srv ::= (fun g => g <| gs_ctx ::= (fun c => c <| g_sdu := b |>) |>) |>.

(** The handlers serve [m]: with a reply that one of them sends, or without. *)
Definition served (ctx : bt_mesh_msg_ctx) (m : list Z) s (rep : option bt_buf_simple) (ctx' : bt_mesh_msg_ctx) s' : Prop :=
  let s0 := s <| a_agg_srv ::= (fun g => g <| gs_ack := false |> <| gs_rsp_err := 0 |>) |> in
  exists b s1, bt_mesh_model_recv acfg app ctx (bt_buf_simple_init_with_data m (zlen m)) s0 = (Ok (0, ctx', b), s1) /\
    gs_rsp_err (a_agg_srv s1) = 0 /\
    match rep with
    | Some msg => wf msg /\ b_len msg < 32768 /\ gs_ack (a_agg_srv s1) = true /\ s' = s1 /\
        exists sdu, bt_mesh_op_agg_encode_msg msg (srv_sdu s) s0 = (Ok sdu, s0) /\ gs_ctx (a_agg_srv s1) = gs_ctx (a_agg_srv s) <| g_sdu := sdu |>
    | None => gs_ack (a_agg_srv s1) = false /\ gs_ctx (a_agg_srv s1) = gs_ctx (a_agg_srv s) /\
        exists sdu, bt_buf_simple_add_u8 (srv_sdu s) 0 = Some sdu /\ s' = with_sdu sdu s1
    end.

(** One message after the other. *)
Inductive serves : bt_mesh_msg_ctx -> list (list Z) -> st -> list (option bt_buf_simple) -> bt_mesh_msg_ctx -> st -> Prop :=
| serves_nil ctx s : serves ctx [] s [] ctx s
| serves_cons ctx m ms s rep ctx1 s1 reps ctx2 s2 :
    served ctx m s rep ctx1 s1 -> serves ctx1 ms s1 reps ctx2 s2 -> serves ctx (m :: ms) s (rep :: reps) ctx2 s2.

(** The replies as items: an empty one where there is none. *)
Definition reply_items (reps : list (option bt_buf_simple)) : list (list Z) := map (fun rep => match rep with Some b => content b | None => [] end) reps.

Lemma served_sdu ctx m s rep ctx' s' : served ctx m s rep ctx' s' -> wf (srv_sdu s) ->
  let item := agg_item (match rep with Some b => content b | None => [] end) in
  b_data (srv_sdu s) + b_len (srv_sdu s) + zlen item <= b_size (srv_sdu s) ->
  wf (srv_sdu s') /\ content (srv_sdu s') = content (srv_sdu s) ++ item /\ b_data (srv_sdu s') = b_data (srv_sdu s) /\
  b_size (srv_sdu s') = b_size (srv_sdu s) /\ b_len (srv_sdu s') = b_len (srv_sdu s) + zlen item /\
  gs_ctx (a_agg_srv s') = gs_ctx (a_agg_srv s) <| g_sdu := srv_sdu s' |>.
Proof.
  intros (b & s1 & _ & _ & Hrep) Hw item Hroom. destruct rep as [msg|].
  - destruct Hrep as (Hm & Hlen & _ & -> & sdu & E & Ectx). unfold srv_sdu in *. rewrite Ectx. cbn.
    edestruct (encode_msg_run (X := X) (W := W) msg (g_sdu (gs_ctx (a_agg_srv s)))) as (b' & E' & H1 & H2 & H3 & H4 & H5);
      [done|done|done|exact Hroom|]. rewrite E' in E. injection E as <-. done.
  - destruct Hrep as (_ & Ectx & sdu & E & ->). change (zlen item) with 1 in Hroom. change (zlen item) with 1.
    destruct (add_u8_run (srv_sdu s) 0) as (b' & E' & H1 & H2 & H3 & H4 & H5); [done|unfold is_byte; lia|lia|].
    rewrite E' in E. injection E as <-. unfold srv_sdu, with_sdu in *. cbn. rewrite Ectx. done.
Qed.

Lemma serves_length ctx ms s reps ctx' s' : serves ctx ms s reps ctx' s' -> length ms = length reps.
Proof. induction 1; cbn; congruence. Qed.

Lemma serves_items ctx ms s reps ctx' s' : serves ctx ms s reps ctx' s' -> Forall item_ok (reply_items reps).
Proof.
  induction 1 as [|ctx m ms s rep ctx1 s1 reps ctx2 s2 (b & s1' & _ & _ & Hrep) _ IH]; [constructor|]. constructor; [|done].
  destruct rep as [msg|]; [|by split]. destruct Hrep as (Hm & Hlen & _). split; [by apply content_bytes|by rewrite content_length].
Qed.

Lemma serve_loop_run ctx ms s reps ctx' s' : serves ctx ms s reps ctx' s' -> Forall item_ok ms -> wf (srv_sdu s) ->
  b_data (srv_sdu s) + b_len (srv_sdu s) + zlen (agg_bytes (reply_items reps)) <= b_size (srv_sdu s) ->
  forall n buf, wf buf -> content buf = agg_bytes ms -> b_len buf < Z.of_nat n ->
  serve_loop acfg app n ctx buf s = (Ok (0, ctx'), s') /\ wf (srv_sdu s') /\
  content (srv_sdu s') = content (srv_sdu s) ++ agg_bytes (reply_items reps) /\
  gs_ctx (a_agg_srv s') = gs_ctx (a_agg_srv s) <| g_sdu := srv_sdu s' |>.
Proof.
  induction 1 as [ctx s|ctx m ms s rep ctx1 s1 reps ctx2 s2 H1 H2 IH]; intros Hms Hw Hroom n buf Hwb Hc Hn;
    pose proof (content_length buf Hwb) as Hl; rewrite Hc in Hl; (destruct n as [|n]; [lia|]); cbn [serve_loop].
  { cbn in Hl. rewrite (proj2 (Z.leb_le _ _)) by lia. split; [done|]. split; [done|]. split; [by rewrite app_nil_r|].
    unfold srv_sdu. by destruct (gs_ctx (a_agg_srv s)). }
  apply Forall_cons in Hms as [Hm Hms]. unfold agg_bytes in Hc, Hl, Hroom. cbn [map concat reply_items] in Hc, Hl, Hroom.
  rewrite length_app in Hl, Hroom. pose proof (item_len m).
  destruct (served_sdu _ _ _ _ _ _ H1 Hw) as (Hw1 & Hc1 & Hd1 & Hs1 & Hl1 & Hx1); [unfold agg_bytes, reply_items in Hroom; lia|].
  rewrite (proj2 (Z.leb_gt _ _)) by lia. destruct (decode_msg_run m buf _ s Hwb Hm Hc) as (b & E & Hwb' & Hcb & Hlb).
  rewrite (bind_ok _ _ _ _ _ E). erewrite bind_ok by done.
  destruct (IH Hms Hw1) with (n := n) (buf := b) as (E2 & Hw2 & Hc2 & Hx2); [unfold agg_bytes, reply_items; lia|done|done|lia|].
  destruct H1 as (b1 & s1' & Er & Herr & Hrep). rewrite (bind_ok _ _ _ _ _ Er). erewrite bind_ok by done. rewrite Herr. cbn [negb Z.eqb].
  split; [|split; [done|]; split].
  - destruct rep as [msg|].
    + destruct Hrep as (_ & _ & Hack & -> & _). rewrite Hack. by erewrite bind_ok by done.
    + destruct Hrep as (Hack & Ectx & sdu & Es & ->). rewrite Hack, Ectx.
      rewrite (bind_ok _ _ s1' () (with_sdu sdu s1')); [exact E2|].
      unfold srv_sdu in Es. rewrite Es. by erewrite bind_ok by done.
  - rewrite Hc2, Hc1, <-app_assoc. done.
  - rewrite Hx2, Hx1. done.
Qed.

(** The status message before any reply, and the server once it has begun. *)
Definition status_header (elem : Z) (b : bt_buf_simple) : option bt_buf_simple :=
  b ← bt_mesh_model_msg_init b OP_OPCODES_AGGREGATOR_STATUS; b ← bt_buf_simple_add_u8 b 0; bt_buf_simple_add_le16 b elem.
Definition opened (ctx : bt_mesh_msg_ctx) (sdu : bt_buf_simple) s : st :=
  s <| a_agg_srv ::= (fun g => g <| gs_ctx := mk_agg true (x_net_idx ctx) (x_app_idx ctx) (x_addr ctx) sdu |>) |>.
Definition closed s : st := s <| a_agg_srv ::= (fun g => g <| gs_ctx ::= (fun c => c <| g_initialized := false |>) |>) |>.

Lemma status_header_run elem b : u16_ok elem -> wf b -> 5 <= b_size b ->
  exists sdu, status_header elem b = Some sdu /\ wf sdu /\
    content sdu = opcode_bytes OP_OPCODES_AGGREGATOR_STATUS ++ [0] ++ le16 elem /\ b_data sdu = 0 /\ b_len sdu = 5 /\ b_size sdu = b_size b.
Proof.
  intros He Hw Hroom. destruct (msg_init_run b OP_OPCODES_AGGREGATOR_STATUS) as (b1 & E1 & Hw1 & Hc1 & Hd1 & Hs1);
    [done|right; left; vm_compute; intuition congruence|change (zlen (opcode_bytes _)) with 2; lia|].
  pose proof (content_length b1 Hw1) as Hl1. rewrite Hc1 in Hl1. change (zlen (opcode_bytes _)) with 2 in Hl1.
  destruct (add_u8_run b1 0) as (b2 & E2 & Hw2 & Hc2 & Hd2 & Hl2 & Hs2); [done|unfold is_byte; lia|lia|].
  destruct (add_le16_run b2 elem) as (b3 & E3 & Hw3 & Hc3 & Hd3 & Hl3 & Hs3); [done|done|lia|].
  exists b3. unfold status_header. rewrite E1. cbn [mbind option_bind]. rewrite E2. cbn [mbind option_bind]. rewrite E3.
  split; [done|]. split; [done|]. split; [by rewrite Hc3, Hc2, Hc1|lia].
Qed.

(** The answer to a sequence all of whose messages are served. *)
Lemma handle_sequence_run r ctx elem ms s sdu0 reps ctx' s' buf :
  u16_ok elem -> BT_MESH_ADDR_IS_UNICAST elem = true -> is_Some (bt_mesh_elem_find (a_comp s) elem) -> Forall item_ok ms ->
  wf buf -> content buf = le16 elem ++ agg_bytes ms -> wf (srv_sdu s) ->
  5 + zlen (agg_bytes (reply_items reps)) <= b_size (srv_sdu s) ->
  status_header elem (srv_sdu s) = Some sdu0 ->
  serves (ctx <| x_recv_dst := elem |>) ms (opened ctx sdu0 s) reps ctx' s' ->
  content (srv_sdu s') = opcode_bytes OP_OPCODES_AGGREGATOR_STATUS ++ [0] ++ le16 elem ++ agg_bytes (reply_items reps) /\
  wf (srv_sdu s') /\
  handle_sequence cfg tcfg acfg env app r ctx buf s =
    (e ← attempt (bt_mesh_model_send cfg tcfg acfg env r ctx' (srv_sdu s') None);
     mret (match e with inl _ => 0 | inr err => err end, ctx')) (closed s').
Proof.
  intros He Hu Hfind Hms Hwb Hc Hws Hroom Hhdr Hserves.
  destruct (status_header_run elem (srv_sdu s) He Hws) as (sdu & E & Hw0 & Hc0 & Hd0 & Hl0 & Hs0); [pose proof (Nat2Z.is_nonneg (length (agg_bytes (reply_items reps)))); lia|].
  rewrite Hhdr in E. injection E as <-.
  destruct (pull_le16_run buf elem (agg_bytes ms) Hwb He Hc) as (b & Eb & Hwb' & Hcb).
  pose proof (content_length b Hwb') as Hlb. 
  destruct (serve_loop_run _ _ _ _ _ _ Hserves Hms) with (n := S (Z.to_nat (b_len b))) (buf := b) as (Es & Hw' & Hc' & _);
    [done|change (srv_sdu (opened ctx sdu0 s)) with sdu0; lia|done|done|lia|].
  change (srv_sdu (opened ctx sdu0 s)) with sdu0 in Hc'. rewrite Hc0, <-!app_assoc in Hc'.
  split; [exact Hc'|]. split; [done|]. unfold handle_sequence.
  rewrite (bind_ok _ _ s (elem, b) s) by (unfold checked; by rewrite Eb).
  rewrite (bind_ok _ _ s (a_agg_srv s) s) by done.
  unfold status_header in Hhdr. apply bind_Some in Hhdr as (b1 & E1 & (b2 & E2 & E3)%bind_Some). unfold srv_sdu in E1.
  rewrite (bind_ok _ _ s b1 s) by (unfold checked; by rewrite E1). rewrite (bind_ok _ _ s b2 s) by (unfold checked; by rewrite E2).
  rewrite (bind_ok _ _ s sdu0 s) by (unfold checked; by rewrite E3).
  rewrite (bind_ok _ _ s () (opened ctx sdu0 s)) by done. rewrite Hu. cbn [negb].
  rewrite (bind_ok _ _ _ (inl ()) (opened ctx sdu0 s)) by (unfold attempt; rewrite (parse_loop_run ms) by (done || lia); done).
  rewrite (bind_ok _ _ _ (a_comp s) (opened ctx sdu0 s)) by done. destruct Hfind as [i Hi]. rewrite Hi.
  rewrite (bind_ok _ _ _ _ _ Es). rewrite (bind_ok _ _ s' () s') by done. rewrite (bind_ok _ _ s' () (closed s')) by done.
  rewrite (bind_ok _ _ (closed s') (a_agg_srv (closed s')) (closed s')) by done. done.
Qed.

End Server.

(** * The client hands the replies on *)

Section Replies.

Context {X W : Type} `{MeshCrypto W}.
Context (acfg : access_cfg).
Notation st := (access X W).
Context (app : app_ops st).
Implicit Types s : st.

(** The client is left open for another sequence when something goes wrong. *)
Definition reopen : M st unit := on_cli (fun g => g <| gc_ctx ::= (fun c => c <| g_initialized := true |>) |>).

(** Each reply goes to the models of the element that asked; an empty one to nobody. *)
Fixpoint deliver (l : list (Z * list Z)) (ctx : bt_mesh_msg_ctx) : M st (Z * bt_mesh_msg_ctx) :=
  match l with
  | [] => mret (0, ctx)
  | (addr, m) :: l =>
      _ ← on_cli (fun g => g <| gc_srcs ::= (fun b => pulled b 2) |>);
      if zlen m =? 0 then deliver l ctx
      else
        '(err, ctx, _) ← bt_mesh_model_recv acfg app (ctx <| x_recv_dst := addr |>) (bt_buf_simple_init_with_data m (zlen m));
        if negb (err =? 0) then _ ← reopen; mret (err, ctx) else deliver l ctx
  end.

(** The models that take the replies leave the list of the sources alone: no one starts
    another sequence with the client in between. *)
Fixpoint srcs_stay (l : list (Z * list Z)) (ctx : bt_mesh_msg_ctx) (s : st) : Prop :=
  match l with
  | [] => True
  | (addr, m) :: l =>
      let s1 := s <| a_agg_cli ::= (fun g => g <| gc_srcs ::= (fun b => pulled b 2) |>) |> in
      if zlen m =? 0 then srcs_stay l ctx s1
      else
        match bt_mesh_model_recv acfg app (ctx <| x_recv_dst := addr |>) (bt_buf_simple_init_with_data m (zlen m)) s1 with
        | (Ok (err, ctx, _), s2) => err <> 0 \/ (gc_srcs (a_agg_cli s2) = gc_srcs (a_agg_cli s1) /\ srcs_stay l ctx s2)
        | _ => True
        end
  end.

Lemma bind_ext_ok {A B} (m : M st A) (f g : A -> M st B) s : (forall a s', m s = (Ok a, s') -> f a s' = g a s') -> (m ≫= f) s = (m ≫= g) s.
Proof. intros Hfg. unfold mbind, M_bind. destruct (m s) as [[a|e|] s'] eqn:E; [by apply Hfg|done|done]. Qed.

Lemma status_loop_run l : Forall (fun x => u16_ok x.1 /\ item_ok x.2) l -> forall n ctx buf s, srcs_stay l ctx s ->
  wf buf -> content buf = agg_bytes (map snd l) -> b_len buf < Z.of_nat n ->
  wf (gc_srcs (a_agg_cli s)) -> content (gc_srcs (a_agg_cli s)) = concat (map (fun x => le16 x.1) l) ->
  status_loop acfg app n ctx buf s = deliver l ctx s.
Proof.
  intros Hl. induction Hl as [|[addr m] l [Ha Hm] Hl IH]; intros n ctx buf s Hkept Hw Hc Hn Hws Hcs;
    pose proof (content_length buf Hw) as Hlen; rewrite Hc in Hlen; (destruct n as [|n]; [lia|]); cbn [status_loop deliver].
  { cbn in Hlen. by rewrite (proj2 (Z.leb_le _ _)) by lia. }
  cbn [fst snd] in *. unfold agg_bytes in Hc, Hlen. cbn [map concat snd] in Hc, Hlen. cbn [map concat fst] in Hcs.
  rewrite length_app in Hlen. pose proof (item_len m). rewrite (proj2 (Z.leb_gt _ _)) by lia.
  destruct (decode_msg_run m buf _ s Hw Hm Hc) as (b & E & Hwb & Hcb & Hlb).
  rewrite (bind_ok _ _ s (inl (bt_buf_simple_init_with_data m (zlen m), b)) s) by (unfold attempt; by rewrite E).
  rewrite (bind_ok _ _ s (a_agg_cli s) s) by done.
  destruct (pull_run (gc_srcs (a_agg_cli s)) 2 (le16 addr) _ Hws Hcs eq_refl) as (_ & _ & Hws' & Hcs' & Hls').
  pose proof (content_length _ Hws) as Hlsrc. rewrite Hcs, length_app in Hlsrc. change (length (le16 addr)) with 2%nat in Hlsrc.
  rewrite (proj2 (Z.ltb_ge _ _)) by lia.
  assert (bt_buf_simple_pull_le16 (gc_srcs (a_agg_cli s)) = Some (addr, pulled (gc_srcs (a_agg_cli s)) 2)) as Ep.
  { unfold bt_buf_simple_pull_le16. rewrite (pull_get_run _ _ _ _ _ Hws Hcs eq_refl). by rewrite <-(app_nil_r (le16 addr)), le16_get. }
  rewrite (bind_ok _ _ s _ s) by (unfold checked; by rewrite Ep).
  set (s1 := s <| a_agg_cli ::= (fun g => g <| gc_srcs := pulled (gc_srcs (a_agg_cli s)) 2 |>) |>).
  rewrite (bind_ok _ _ s () s1) by done. rewrite (bind_ok _ _ s () s1) by done.
  destruct (init_data_wf m Hm) as [Hwm Hcm]. pose proof (content_length _ Hwm) as Hlm. rewrite Hcm in Hlm. rewrite <-Hlm.
  cbn [srcs_stay] in Hkept. destruct (zlen m =? 0); [by apply IH; [..|lia| |]|].
  apply bind_ext_ok. intros [[err ctx'] b'] s2 Er. destruct (Z.eqb_spec err 0) as [E0|E0]; [|done]. cbn [negb].
  change (s <| a_agg_cli ::= _ |>) with s1 in Hkept. rewrite Er in Hkept.
  destruct Hkept as [?|[Ek Hkept]]; [done|]. change (gc_srcs (a_agg_cli s1)) with (pulled (gc_srcs (a_agg_cli s)) 2) in Ek.
  apply IH; [done|done|done|lia|by rewrite Ek|by rewrite Ek].
Qed.

(** A status that is awaited. *)
Lemma handle_status_run l ctx buf status elem s : srcs_stay l ctx s -> Forall (fun x => u16_ok x.1 /\ item_ok x.2) l ->
  bt_mesh_msg_ack_ctx_match (gc_ack (a_agg_cli s)) OP_OPCODES_AGGREGATOR_STATUS (x_addr ctx) = true ->
  u16_ok elem -> wf buf -> content buf = status :: le16 elem ++ agg_bytes (map snd l) ->
  wf (gc_srcs (a_agg_cli s)) -> content (gc_srcs (a_agg_cli s)) = concat (map (fun x => le16 x.1) l) ->
  handle_status acfg app ctx buf s =
    ('(err, ctx) ← deliver l ctx;
     if negb (err =? 0) then mret (err, ctx) else _ ← on_cli (fun g => g <| gc_ack ::= bt_mesh_msg_ack_ctx_rx |>); mret (0, ctx)) s.
Proof.
  intros Hkept Hl Hack He Hw Hc Hws Hcs. unfold handle_status. rewrite (bind_ok _ _ s (a_agg_cli s) s) by done. rewrite Hack. cbn [negb].
  destruct (pull_u8_ex buf status _ Hw Hc) as (b1 & E1 & Hw1 & Hc1). rewrite (bind_ok _ _ s (status, b1) s) by (unfold checked; by rewrite E1).
  destruct (pull_le16_run b1 elem _ Hw1 He Hc1) as (b2 & E2 & Hw2 & Hc2). rewrite (bind_ok _ _ s (elem, b2) s) by (unfold checked; by rewrite E2).
  pose proof (content_length b2 Hw2) as Hlen.
  assert (status_loop acfg app (S (Z.to_nat (b_len b2))) ctx b2 s = deliver l ctx s) as E by (apply status_loop_run; [done..|lia|done|done]).
  unfold mbind, M_bind. by rewrite E.
Qed.

End Replies.

(** * An exchange *)

Section Exchange.

Context {X Y V W : Type} `{MeshCrypto V} `{MeshCrypto W}.
Context (acfg : access_cfg) (app : app_ops (access X V)).
Context (cfg' : net_cfg) (tcfg' : trans_cfg) (acfg' : access_cfg) (env' : trans_env) (app' : app_ops (access Y W)).

(** The content of the two messages. *)
Definition sequence_bytes (elem : Z) (requests : list (mod_ref * bt_buf_simple)) : list Z := le16 elem ++ agg_bytes (messages requests).
Definition status_bytes (elem : Z) (reps : list (option bt_buf_simple)) : list Z := [0] ++ le16 elem ++ agg_bytes (reply_items reps).

(** C29: The opcodes aggregator takes requests to a server and the replies back to the models
    that asked.  What models send after [bt_mesh_op_agg_cli_seq_start], if it fits, makes
    one Sequence.  A server that receives its content calls its models with just these
    messages, one after the other and each addressed to the element of the sequence; if
    they are served, [handle_sequence] sends one Status, with an item for every message:
    the reply, or nothing.  And a client that waits for it hands, in [handle_status], every
    reply that is not empty to the models of the element whose message it answers, in
    order, until one of them fails; if none does, the waiting thread is woken.  This last
    part is for models that, when they get their reply, do not themselves send with the
    client or otherwise change its list of sources ([srcs_stay]). *)
Theorem op_agg_exchange net app_idx dst elem requests (s : access X V) :
  u16_ok elem -> BT_MESH_ADDR_IS_UNICAST elem = true ->
  g_initialized (gc_ctx (a_agg_cli s)) = false -> wf (g_sdu (gc_ctx (a_agg_cli s))) -> wf (gc_srcs (a_agg_cli s)) ->
  packable (a_comp s) requests ->
  4 + zlen (agg_bytes (messages requests)) <= b_size (g_sdu (gc_ctx (a_agg_cli s))) ->
  2 * zlen requests <= b_size (gc_srcs (a_agg_cli s)) ->
  exists g,
    (_ ← bt_mesh_op_agg_cli_seq_start net app_idx dst elem; queue requests) s = (Ok (), s <| a_agg_cli := g |>) /\
    content (g_sdu (gc_ctx g)) = opcode_bytes OP_OPCODES_AGGREGATOR_SEQUENCE ++ sequence_bytes elem requests /\
    forall r ctx (t t' : access Y W) buf sdu0 reps ctx',
      wf buf -> content buf = sequence_bytes elem requests -> is_Some (bt_mesh_elem_find (a_comp t) elem) -> wf (srv_sdu t) ->
      5 + zlen (agg_bytes (reply_items reps)) <= b_size (srv_sdu t) -> status_header elem (srv_sdu t) = Some sdu0 ->
      serves acfg' app' (ctx <| x_recv_dst := elem |>) (messages requests) (opened ctx sdu0 t) reps ctx' t' ->
      content (srv_sdu t') = opcode_bytes OP_OPCODES_AGGREGATOR_STATUS ++ status_bytes elem reps /\
        handle_sequence cfg' tcfg' acfg' env' app' r ctx buf t =
          (e ← attempt (bt_mesh_model_send cfg' tcfg' acfg' env' r ctx' (srv_sdu t') None);
           mret (match e with inl _ => 0 | inr err => err end, ctx')) (closed t') /\
        forall ctx2 buf2 (s2 : access X V),
          srcs_stay acfg app (zip (map (fun x => addr_of (a_comp s) x.1) requests) (reply_items reps)) ctx2 s2 -> wf buf2 -> content buf2 = status_bytes elem reps ->
          gc_srcs (a_agg_cli s2) = gc_srcs g ->
          bt_mesh_msg_ack_ctx_match (gc_ack (a_agg_cli s2)) OP_OPCODES_AGGREGATOR_STATUS (x_addr ctx2) = true ->
          handle_status acfg app ctx2 buf2 s2 =
            ('(err, ctx) ← deliver acfg app (zip (map (fun x => addr_of (a_comp s) x.1) requests) (reply_items reps)) ctx2;
             if negb (err =? 0) then mret (err, ctx) else _ ← on_cli (fun g => g <| gc_ack ::= bt_mesh_msg_ack_ctx_rx |>); mret (0, ctx)) s2.
Proof.
  intros He Hu Hi Hw1 Hw2 Hl Hr1 Hr2.
  destruct (packs_run requests net app_idx dst elem s He Hu Hi Hw1 Hw2 Hl Hr1 Hr2) as (g & E & (Hwg & Hcg & Hwsrc & Hcsrc) & _ & _ & _).
  exists g. split; [exact E|]. split; [exact Hcg|].
  intros r ctx t t' buf sdu0 reps ctx' Hwb Hcb Hfind Hwt Hroom Hhdr Hserves.
  assert (Forall item_ok (messages requests)) as Hms.
  { apply Forall_map. eapply Forall_impl; [exact Hl|]. intros [r' msg] (_ & Hm & Hlen). cbn in *.
    split; [by apply content_bytes|]. rewrite content_length by done. done. }
  destruct (handle_sequence_run cfg' tcfg' acfg' env' app' r ctx elem (messages requests) t sdu0 reps ctx' t' buf) as (Hct & _ & Eh); try done.
  split; [exact Hct|]. split; [exact Eh|]. intros ctx2 buf2 s2 Hkept Hwb2 Hcb2 Esrc Hack.
  assert (length reps = length requests /\ Forall item_ok (reply_items reps)) as [Hlen Hreps].
  { pose proof (serves_length _ _ _ _ _ _ _ _ Hserves) as HL. unfold messages in HL. rewrite length_map in HL.
    split; [done|by eapply serves_items]. }
  set (addrs := map (fun x => addr_of (a_comp s) x.1) requests).
  assert (length addrs = length (reply_items reps)) as Hz by (unfold addrs, reply_items; by rewrite !length_map).
  apply (handle_status_run acfg app (zip addrs (reply_items reps)) ctx2 buf2 0 elem s2); try done.
  - apply Forall_forall. intros [a m] Hin. pose proof (elem_of_zip_l _ _ _ _ Hin) as Ha. pose proof (elem_of_zip_r _ _ _ _ Hin) as Hm. cbn. split.
    + unfold addrs in Ha. apply list_elem_of_In, in_map_iff in Ha as (x & <- & Hx%list_elem_of_In). by apply (proj1 (Forall_forall _ _) Hl) in Hx as (? & _).
    + by apply (proj1 (Forall_forall _ _) Hreps).
  - rewrite Hcb2. change (map snd ?l) with (l.*2). rewrite snd_zip by lia. done.
  - by rewrite Esrc.
  - rewrite Esrc, Hcsrc. unfold sources. rewrite <-(map_map fst le16). change (map fst ?l) with (l.*1). rewrite fst_zip by lia.
    unfold addrs. by rewrite map_map.
Qed.

End Exchange.
