(* ===== verification/OpAggSample.v ===== *)
(** The opcodes aggregator at work: an exchange between two nodes, and what it does with
    some messages. *)

From S2P Require Import Prelude Byteorder BufSimple MeshDefs CryptoIf Psa CryptoPsa Crypto Va Subnet NetIv Net.
From S2P Require Import NetSample AppKeys Transport TransRx TransTx TransSample Cycles Access AccessExt AccessFrame AccessRecv CompData CompPages AccessStore AccessSample.
From S2P Require Import OpAgg OpAggSpec.

#[local] Existing Instance net_sample_crypto.

Definition agg_buf (n : nat) : bt_buf_simple := mk_buf (replicate n 0) 0 0 (Z.of_nat n).

(** The node of [AccessSample.v] with an aggregator. *)
Definition agg_node : sample_state :=
  sample_access sample_comp
    <| a_agg_srv := mk_agg_srv 0 false (mk_agg false 0 0 0 (agg_buf 40)) |>
    <| a_agg_cli := mk_agg_cli (Some mA) (mk_ack 0 0 0 0) (agg_buf 10) (mk_agg false 0 0 0 (agg_buf 40)) |>.

Definition msg_buf (l : list Z) : bt_buf_simple := mk_buf l 0 (zlen l) (zlen l).

(** A server whose handler 7 replies, while the others note that they were called. *)
Definition reply : bt_buf_simple := msg_buf [0x82; 0x02; 9].
Definition reply_ops : app_ops sample_state :=
  mk_app_ops sample_state
    (fun f r ctx buf s =>
       if f =? 7 then match bt_mesh_op_agg_srv_send r reply s with (Ok _, s') => Some (0, ctx, buf, s') | (Err e, s') => Some (e, ctx, buf, s') | _ => None end
       else Some (0, ctx, buf, s <| a_app ::= (fun l => l ++ [(f, r)]) |>))
    (fun r s => Some (0, s)) (fun r s => Some (0, s)) (fun r v s => Some (0, s)) (fun r s => Some s)
    (fun op ctx buf s => Some (ctx, buf, s)).

(** Requests of two elements to the second element of the other node. *)
Definition requests : list (mod_ref * bt_buf_simple) := [(mA, msg_buf [0x82; 0x02; 1]); (mD, msg_buf [0x82; 0x03])].
Definition sequence : bt_buf_simple := msg_buf (sequence_bytes 2 requests).
Definition agg_ctx : bt_mesh_msg_ctx := mk_ctx 0 0 9 2 None 4 false false 5.

Definition opened_node : sample_state := opened agg_ctx (default (agg_buf 0) (status_header 2 (agg_buf 40))) agg_node.
Definition recv_request (m : list Z) (s : sample_state) : sample_state :=
  (bt_mesh_model_recv sample_acfg reply_ops agg_ctx (bt_buf_simple_init_with_data m (zlen m))
     (s <| a_agg_srv ::= (fun g => g <| gs_ack := false |> <| gs_rsp_err := 0 |>) |>)).2.
Definition served_node : sample_state :=
  let s := recv_request [0x82; 0x03] (recv_request [0x82; 0x02; 1] opened_node) in
  with_sdu (default (agg_buf 0) (bt_buf_simple_add_u8 (srv_sdu s) 0)) s.

Lemma msg_buf_wf l : forallb (fun b => (0 <=? b) && (b <? 256)) l = true -> zlen l < 1000 -> wf (msg_buf l).
Proof. intros Hb Hl. split; cbn; try (unfold UINT16_MAX; lia). by apply bytes_ok. Qed.
Lemma agg_buf_wf n : Z.of_nat n < 1000 -> wf (agg_buf n).
Proof. intros Hn. split; cbn; rewrite ?length_replicate; try (unfold UINT16_MAX; lia). apply Forall_replicate. unfold is_byte. lia. Qed.

Lemma requests_served : serves sample_acfg reply_ops agg_ctx (messages requests) opened_node [Some reply; None] agg_ctx served_node.
Proof.
  eapply serves_cons; [|eapply serves_cons; [|apply serves_nil]].
  - eexists _, (recv_request [0x82; 0x02; 1] opened_node). split; [vm_compute; reflexivity|]. split; [by vm_compute|].
    split; [by apply msg_buf_wf|]. split; [done|]. split; [by vm_compute|]. split; [done|].
    eexists. split; [vm_compute; reflexivity|by vm_compute].
  - eexists _, (recv_request [0x82; 0x03] (recv_request [0x82; 0x02; 1] opened_node)). split; [vm_compute; reflexivity|].
    split; [by vm_compute|]. split; [by vm_compute|]. split; [by vm_compute|]. eexists. split; [vm_compute; reflexivity|by vm_compute].
Qed.

(** On the client the reply is taken by a handler that unbinds another model. *)
Lemma sample_srcs_stay l : forall ctx (s : sample_state), srcs_stay sample_acfg unbinding_ops l ctx s.
Proof.
  induction l as [|[addr m] l IH]; intros ctx s; cbn [srcs_stay]; [done|]. destruct (zlen m =? 0); [apply IH|].
  set (s1 := s <| a_agg_cli ::= _ |>). pose proof (leaves_recv (fun s : sample_state => gc_srcs (a_agg_cli s))) as Hk.
  specialize (Hk ltac:(done) sample_acfg unbinding_ops ltac:(by intros fn r0 c b s0 e c' b' s1' [= <- <- <- <-]) ltac:(by intros op c b s0 c' b' s1' [= <- <- <-])
    (ctx <| x_recv_dst := addr |>) (bt_buf_simple_init_with_data m (zlen m)) s1).
  destruct (bt_mesh_model_recv _ _ _ _ s1) as [[[[err ctx'] b']|e|] s2]; [|done|done]. right. split; [exact Hk|apply IH].
Qed.

Lemma op_agg_exchange_witness : exists g,
  (_ ← bt_mesh_op_agg_cli_seq_start 0 0 9 2; queue requests) agg_node = (Ok (), agg_node <| a_agg_cli := g |>) /\
  exists (status : list Z), status = [0; 2; 0; 6; 0x82; 0x02; 9; 0] /\
  content (srv_sdu served_node) = opcode_bytes OP_OPCODES_AGGREGATOR_STATUS ++ status /\
  let waiting := agg_node <| a_agg_cli := g <| gc_ack := mk_ack 0 OP_OPCODES_AGGREGATOR_STATUS 9 0 |> |> in
  handle_status sample_acfg unbinding_ops agg_ctx (msg_buf status) waiting =
    ('(err, ctx) ← deliver sample_acfg unbinding_ops [(1, [0x82; 0x02; 9]); (2, [])] agg_ctx;
     if negb (err =? 0) then mret (err, ctx) else _ ← on_cli (fun g => g <| gc_ack ::= bt_mesh_msg_ack_ctx_rx |>); mret (0, ctx)) waiting.
Proof.
  destruct (op_agg_exchange (W := crypto_state psa_store) sample_acfg unbinding_ops plain_cfg sample_tcfg sample_acfg (tenv_of 9) reply_ops
    0 0 9 2 requests agg_node) as (g & E & Hc & Hserver).
  { unfold u16_ok. lia. } { done. } { done. } { apply (agg_buf_wf 40). lia. } { apply (agg_buf_wf 10). lia. }
  { apply Forall_cons_2; [|apply Forall_cons_2; [|by apply Forall_nil_2]]; (split; [split; vm_compute; congruence|]; split; [by apply msg_buf_wf|done]). }
  { by vm_compute. } { by vm_compute. }
  destruct (Hserver mA agg_ctx agg_node served_node sequence (default (agg_buf 0) (status_header 2 (agg_buf 40))) [Some reply; None] agg_ctx)
    as (Hs & _ & Hclient).
  { by apply msg_buf_wf. } { done. } { by exists 1%nat. } { apply (agg_buf_wf 40). lia. } { by vm_compute. } { by vm_compute. }
  { exact requests_served. }
  exists g. split; [exact E|]. exists (status_bytes 2 [Some reply; None]). split; [by vm_compute|]. split; [exact Hs|].
  apply Hclient; [apply sample_srcs_stay|by apply msg_buf_wf|done|done|by vm_compute].
Defined.

(** * What the program does with some messages *)

(** A sequence for a group is refused, but the server stays open: what is sent to that
    client from then on is not sent, but added to a status that nobody sends. *)
Example refused_stays_open :
  let '(r, s) := handle_sequence plain_cfg sample_tcfg sample_acfg (tenv_of 9) reply_ops mA agg_ctx
                   (msg_buf [0x01; 0xC0]) agg_node in
  (match r with Ok (err, _) => err | _ => 0 end) = - EINVAL /\
  let acfg := mk_acfg true false false true false true true false false false true false 4 4 in
  let '(r', s') := bt_mesh_model_send plain_cfg sample_tcfg acfg (tenv_of 9) mA agg_ctx reply None s in
  r' = Ok () /\ content (srv_sdu s') = [0x80; 0x73; 0; 0x01; 0xC0; 6; 0x82; 0x02; 9] /\ a_trans s' = a_trans agg_node.
Proof. by vm_compute. Qed.

(** A message that does not fit leaves its source in the list, so that the replies to later
    messages go to the wrong models. *)
Example source_without_message :
  let '(_, s) := bt_mesh_op_agg_cli_seq_start 0 0 9 2 agg_node in
  let '(r1, s1) := bt_mesh_op_agg_cli_send mD (msg_buf (replicate 60 1)) s in
  let '(r2, s2) := bt_mesh_op_agg_cli_send mA reply s1 in
  r1 = Err (- ENOMEM) /\ r2 = Ok () /\
  content (gc_srcs (a_agg_cli s2)) = [2; 0; 1; 0] /\ content (g_sdu (gc_ctx (a_agg_cli s2))) = [0x80; 0x72; 2; 0; 6; 0x82; 0x02; 9].
Proof. by vm_compute. Qed.

(** The empty item of a message without a reply is added without a look at the room. *)
Example no_room_for_nothing :
  let s := agg_node <| a_agg_srv := mk_agg_srv 0 false (mk_agg false 0 0 0 (agg_buf 9)) |> in
  (handle_sequence plain_cfg sample_tcfg sample_acfg (tenv_of 9) reply_ops mA agg_ctx sequence s).1 = Crash.
Proof. by vm_compute. Qed.
