(* ===== verification/CfgSrv.v ===== *)
(** The Configuration Server ([mesh/cfg_srv.c]), for the configuration of the models: which
    application keys are bound to a model, what it publishes, to which groups and labels it
    subscribes.

    A handler gets the model of the server, the context and the buffer of the message; it
    answers with an error or 0.  What it leaves of the buffer is not modelled, since the
    caller restores it.  A pointer to the bytes of the model identifier in the message is the
    buffer whose data begins there.  [CONFIG_BT_MESH_LABEL_COUNT] is the length of
    [virtual_addrs]; with none, releasing a label does nothing. *)

From S2P Require Import Prelude Byteorder BufSimple MeshDefs CryptoIf Crypto Va Subnet NetIv Net AppKeys AppOps Transport Access CompData.

(** * Opcodes and status codes ([mesh/foundation.h]) *)

Definition OP_MOD_PUB_SET : Z := BT_MESH_MODEL_OP_1 0x03.
Definition OP_MOD_PUB_GET : Z := BT_MESH_MODEL_OP_2 0x80 0x18.
Definition OP_MOD_PUB_STATUS : Z := BT_MESH_MODEL_OP_2 0x80 0x19.
Definition OP_MOD_PUB_VA_SET : Z := BT_MESH_MODEL_OP_2 0x80 0x1a.
Definition OP_MOD_SUB_ADD : Z := BT_MESH_MODEL_OP_2 0x80 0x1b.
Definition OP_MOD_SUB_DEL : Z := BT_MESH_MODEL_OP_2 0x80 0x1c.
Definition OP_MOD_SUB_DEL_ALL : Z := BT_MESH_MODEL_OP_2 0x80 0x1d.
Definition OP_MOD_SUB_OVERWRITE : Z := BT_MESH_MODEL_OP_2 0x80 0x1e.
Definition OP_MOD_SUB_STATUS : Z := BT_MESH_MODEL_OP_2 0x80 0x1f.
Definition OP_MOD_SUB_VA_ADD : Z := BT_MESH_MODEL_OP_2 0x80 0x20.
Definition OP_MOD_SUB_VA_DEL : Z := BT_MESH_MODEL_OP_2 0x80 0x21.
Definition OP_MOD_SUB_VA_OVERWRITE : Z := BT_MESH_MODEL_OP_2 0x80 0x22.
Definition OP_MOD_SUB_GET : Z := BT_MESH_MODEL_OP_2 0x80 0x29.
Definition OP_MOD_SUB_LIST : Z := BT_MESH_MODEL_OP_2 0x80 0x2a.
Definition OP_MOD_SUB_GET_VND : Z := BT_MESH_MODEL_OP_2 0x80 0x2b.
Definition OP_MOD_SUB_LIST_VND : Z := BT_MESH_MODEL_OP_2 0x80 0x2c.
Definition OP_MOD_APP_BIND : Z := BT_MESH_MODEL_OP_2 0x80 0x3d.
Definition OP_MOD_APP_STATUS : Z := BT_MESH_MODEL_OP_2 0x80 0x3e.
Definition OP_MOD_APP_UNBIND : Z := BT_MESH_MODEL_OP_2 0x80 0x3f.
Definition OP_SIG_MOD_APP_GET : Z := BT_MESH_MODEL_OP_2 0x80 0x4b.
Definition OP_SIG_MOD_APP_LIST : Z := BT_MESH_MODEL_OP_2 0x80 0x4c.
Definition OP_VND_MOD_APP_GET : Z := BT_MESH_MODEL_OP_2 0x80 0x4d.
Definition OP_VND_MOD_APP_LIST : Z := BT_MESH_MODEL_OP_2 0x80 0x4e.

Definition STATUS_INVALID_MODEL : Z := 0x02.
Definition STATUS_NVAL_PUB_PARAM : Z := 0x07.
Definition STATUS_CANNOT_BIND : Z := 0x0d.

(** The memory of a message: [BT_MESH_MODEL_BUF_LEN], [BT_MESH_MODEL_BUF_DEFINE]. *)
Definition BT_MESH_MODEL_BUF_LEN (op payload_len : Z) : Z := BT_MESH_MODEL_OP_LEN op + payload_len + BT_MESH_MIC_SHORT.
Definition buf_define (size : Z) : bt_buf_simple := mk_buf (replicate (Z.to_nat size) 0) 0 0 size.
Definition BT_MESH_MODEL_BUF_DEFINE (op payload_len : Z) : bt_buf_simple := buf_define (BT_MESH_MODEL_BUF_LEN op payload_len).

Definition key_idx_pack_pair (buf : bt_buf_simple) (idx1 idx2 : Z) : option bt_buf_simple :=
  buf ← bt_buf_simple_add_le16 buf (u16 (Z.lor idx1 (Z.shiftl (Z.land idx2 0x00f) 12)));
  bt_buf_simple_add_u8 buf (u8 (Z.shiftr idx2 4)).

(** The two indices, and what follows them. *)
Definition key_idx_unpack_pair (buf : bt_buf_simple) : option (Z * Z * bt_buf_simple) :=
  b ← mem_read (b_store buf) (b_data buf) 3;
  '(buf, _) ← bt_buf_simple_pull buf 3;
  Some (Z.land (sys_get_le16 (take 2 b)) 0xfff, Z.shiftr (sys_get_le16 (drop 1 b)) 4, buf).

(** The loop of [key_idx_pack_list]: [idx] is the index that waits for another. *)
Fixpoint pack_list_loop (l : list Z) (idx : option Z) (buf : bt_buf_simple) : option bt_buf_simple :=
  match l with
  | [] => match idx with Some i => bt_buf_simple_add_le16 buf i | None => Some buf end
  | k :: l =>
      if k =? BT_MESH_KEY_UNUSED then pack_list_loop l idx buf
      else
        match idx with
        | None => pack_list_loop l (Some k) buf
        | Some i => buf ← key_idx_pack_pair buf i k; pack_list_loop l None buf
        end
  end.
Definition key_idx_pack_list (buf : bt_buf_simple) (arr : list Z) : option bt_buf_simple := pack_list_loop arr None buf.

Section Server.

Context {X W : Type} `{MeshCrypto W}.
Context (cfg : net_cfg) (tcfg : trans_cfg) (acfg : access_cfg) (env : trans_env).
Notation st := (access X W).

(** A call of [Va.v]. *)
Definition in_va {A} (m : M (va_state W) A) : M st A := fun s =>
  let net := t_net (a_trans s) in
  let '(r, v) := m (mk_va_state (crypto (n_sub net)) (a_vas s) []) in
  (r, s <| a_trans ::= (fun t => t <| t_net ::= set_n_sub (set_crypto (va_crypto v) (n_sub net)) |>) |>
        <| a_vas := Va.virtual_addrs v |> <| a_ext ::= (fun l => l ++ map AccVa (va_ext v)) |>).

Definition va_add (uuid : list Z) : M st (Z * option nat) := in_va (bt_mesh_va_add (k_settings acfg) uuid).
Definition va_del (uuid : option nat) : M st unit := _ ← in_va (bt_mesh_va_del (k_settings acfg) uuid); mret ().
Definition va_at_slot (i : nat) : M st bt_mesh_va := gets (fun s => a_vas s !!! i).
Definition va_collision_check (addr : Z) : M st bool := vas ← gets a_vas; checked (bt_mesh_va_collision_check vas addr).

(** [if (IS_ENABLED(o)) m] *)
Definition when (o : bool) (m : M st unit) : M st unit := if o then m else mret ().

Definition app_key_exists (app_idx : Z) : bool := bt_mesh_app_key_exists app_idx (te_apps env).

(** The message is sent as a response; an error is only logged. *)
Definition respond (r : mod_ref) (ctx : bt_mesh_msg_ctx) (msg : bt_buf_simple) : M st Z :=
  _ ← attempt (bt_mesh_model_send cfg tcfg acfg env r ctx msg None); mret 0.

(** [memcpy(bt_buf_simple_add(&msg, n), data, n)] for a pointer [data] into a buffer. *)
Definition add_from (msg data : bt_buf_simple) (n : Z) : M st bt_buf_simple :=
  bytes ← checked (mem_read (b_store data) (b_data data) n); checked (bt_buf_simple_add_mem msg bytes).
Definition add_mod_id (msg : bt_buf_simple) (vnd : bool) (mod_id : bt_buf_simple) : M st bt_buf_simple :=
  add_from msg mod_id (if vnd then 4 else 2).

(** * Finding the model a message is about *)

(** The model, and whether it is a vendor model. *)
Definition get_model (elem : nat) (buf : bt_buf_simple) : M st (option mod_ref * bool) :=
  comp ← gets a_comp;
  if b_len buf <? 4 then
    '(id, _) ← checked (bt_buf_simple_pull_le16 buf);
    mret (mk_ref elem false <$> bt_mesh_model_find (elem_at elem comp) id, false)
  else
    '(company, buf) ← checked (bt_buf_simple_pull_le16 buf);
    '(id, _) ← checked (bt_buf_simple_pull_le16 buf);
    mret (mk_ref elem true <$> bt_mesh_model_find_vnd (elem_at elem comp) company id, true).

(** The lookups every handler begins with: the model or the status that is reported, and
    [vnd]. *)
Definition find_mod (elem_addr : Z) (buf : bt_buf_simple) : M st ((mod_ref + Z) * bool) :=
  comp ← gets a_comp;
  match bt_mesh_elem_find comp elem_addr with
  | None => mret (inr STATUS_INVALID_ADDRESS, b_len buf =? 4)
  | Some elem =>
      '(mod_, vnd) ← get_model elem buf;
      mret (match mod_ with Some m => inl m | None => inr STATUS_INVALID_MODEL end, vnd)
  end.

(** * Publication *)

Definition _mod_pub_set (r : mod_ref) (pub_addr : Z) (uuid : option nat) (app_idx cred_flag ttl period retransmit : Z)
    (store : bool) : M st Z :=
  m ← model r;
  match m_pub m with
  | None => mret STATUS_NVAL_PUB_PARAM
  | Some pub =>
      if negb (k_lpn acfg) && negb (cred_flag =? 0) then mret STATUS_FEAT_NOT_SUPP
      else if negb (p_update pub) && negb (period =? 0) then mret STATUS_NVAL_PUB_PARAM
      else if pub_addr =? BT_MESH_ADDR_UNASSIGNED then
        if p_addr pub =? BT_MESH_ADDR_UNASSIGNED then mret STATUS_SUCCESS
        else
          _ ← on_pub r (fun p => p <| p_addr := BT_MESH_ADDR_UNASSIGNED |> <| p_key := 0 |> <| p_cred := false |> <| p_ttl := 0 |>
                                   <| p_period := 0 |> <| p_retransmit := 0 |> <| p_count := 0 |> <| p_uuid := None |>);
          _ ← when (p_update pub) (on_pub r (fun p => p <| p_timer := None |>));
          _ ← when (k_settings acfg && store) (bt_mesh_model_pub_store r);
          mret STATUS_SUCCESS
      else if negb (app_key_exists app_idx) || negb (bt_mesh_model_has_key m app_idx) then mret STATUS_INVALID_APPKEY
      else
        _ ← when (BT_MESH_ADDR_IS_VIRTUAL (p_addr pub)) (va_del (p_uuid pub));
        _ ← on_pub r (fun p => p <| p_addr := pub_addr |> <| p_key := app_idx mod 2 ^ 12 |>
                                 <| p_cred := negb (cred_flag mod 2 =? 0) |> <| p_ttl := ttl |> <| p_period := period |>
                                 <| p_retransmit := retransmit |> <| p_uuid := uuid |>);
        _ ← when (p_update pub)
              (m ← model r;
               let period_ms := bt_mesh_model_pub_period_get m in
               if 0 <? period_ms then pub_reschedule r period_ms else on_pub r (fun p => p <| p_timer := None |>));
        _ ← when (k_settings acfg && store) (bt_mesh_model_pub_store r);
        mret STATUS_SUCCESS
  end.

Definition send_mod_pub_status (cfg_mod : mod_ref) (ctx : bt_mesh_msg_ctx) (elem_addr pub_addr : Z) (vnd : bool)
    (mod_ : option mod_ref) (status : Z) (mod_id : bt_buf_simple) : M st Z :=
  msg ← checked (bt_mesh_model_msg_init (BT_MESH_MODEL_BUF_DEFINE OP_MOD_PUB_STATUS 14) OP_MOD_PUB_STATUS);
  msg ← checked (bt_buf_simple_add_u8 msg status);
  msg ← checked (bt_buf_simple_add_le16 msg elem_addr);
  msg ← (if negb (status =? STATUS_SUCCESS) then checked (bt_buf_simple_add_mem msg (replicate 7 0))
         else
           r ← checked mod_;
           pub ← pub_of r;
           msg ← checked (bt_buf_simple_add_le16 msg pub_addr);
           msg ← checked (bt_buf_simple_add_le16 msg (u16 (Z.lor (p_key pub) (Z.shiftl (Z.b2z (p_cred pub)) 12))));
           msg ← checked (bt_buf_simple_add_u8 msg (p_ttl pub));
           msg ← checked (bt_buf_simple_add_u8 msg (p_period pub));
           checked (bt_buf_simple_add_u8 msg (p_retransmit pub)));
  msg ← add_mod_id msg vnd mod_id;
  respond cfg_mod ctx msg.

Definition some_mod (m : mod_ref + Z) : option mod_ref := match m with inl r => Some r | inr _ => None end.

Definition mod_pub_get (r : mod_ref) (ctx : bt_mesh_msg_ctx) (buf : bt_buf_simple) : M st Z :=
  if negb (b_len buf =? 4) && negb (b_len buf =? 6) then mret (- EMSGSIZE)
  else
    '(elem_addr, buf) ← checked (bt_buf_simple_pull_le16 buf);
    if negb (BT_MESH_ADDR_IS_UNICAST elem_addr) then mret (- EINVAL)
    else
      '(found, vnd) ← find_mod elem_addr buf;
      '(status, pub_addr) ← match found with
                            | inr status => mret (status, 0)
                            | inl mod_ =>
                                m ← model mod_;
                                mret (match m_pub m with
                                      | None => (STATUS_NVAL_PUB_PARAM, 0)
                                      | Some pub => (STATUS_SUCCESS, p_addr pub)
                                      end)
                            end;
      send_mod_pub_status r ctx elem_addr pub_addr vnd (some_mod found) status buf.

Definition pub_ttl_valid (ttl : Z) : bool := negb ((BT_MESH_TTL_MAX <? ttl) && negb (ttl =? BT_MESH_TTL_DEFAULT)).

Definition mod_pub_set (r : mod_ref) (ctx : bt_mesh_msg_ctx) (buf : bt_buf_simple) : M st Z :=
  if negb (b_len buf =? 11) && negb (b_len buf =? 13) then mret (- EMSGSIZE)
  else
    '(elem_addr, buf) ← checked (bt_buf_simple_pull_le16 buf);
    if negb (BT_MESH_ADDR_IS_UNICAST elem_addr) then mret (- EINVAL)
    else
      '(pub_addr, buf) ← checked (bt_buf_simple_pull_le16 buf);
      '(word, buf) ← checked (bt_buf_simple_pull_le16 buf);
      let cred_flag := Z.land (Z.shiftr word 12) (BIT_MASK 1) in
      let pub_app_idx := Z.land word (BIT_MASK 12) in
      '(pub_ttl, buf) ← checked (bt_buf_simple_pull_u8 buf);
      if negb (pub_ttl_valid pub_ttl) then mret (- EINVAL)
      else
        '(pub_period, buf) ← checked (bt_buf_simple_pull_u8 buf);
        '(retransmit, buf) ← checked (bt_buf_simple_pull_u8 buf);
        '(found, vnd) ← find_mod elem_addr buf;
        status ← match found with
                 | inr status => mret status
                 | inl mod_ => _mod_pub_set mod_ pub_addr None pub_app_idx cred_flag pub_ttl pub_period retransmit true
                 end;
        send_mod_pub_status r ctx elem_addr pub_addr vnd (some_mod found) status buf.

Definition mod_pub_va_set (r : mod_ref) (ctx : bt_mesh_msg_ctx) (buf : bt_buf_simple) : M st Z :=
  if negb (b_len buf =? 25) && negb (b_len buf =? 27) then mret (- EMSGSIZE)
  else
    '(elem_addr, buf) ← checked (bt_buf_simple_pull_le16 buf);
    if negb (BT_MESH_ADDR_IS_UNICAST elem_addr) then mret (- EINVAL)
    else
      '(uuid, buf) ← checked (pull_bytes 16 buf);
      '(word, buf) ← checked (bt_buf_simple_pull_le16 buf);
      let cred_flag := Z.land (Z.shiftr word 12) (BIT_MASK 1) in
      let pub_app_idx := Z.land word (BIT_MASK 12) in
      '(pub_ttl, buf) ← checked (bt_buf_simple_pull_u8 buf);
      if negb (pub_ttl_valid pub_ttl) then mret (- EINVAL)
      else
        '(pub_period, buf) ← checked (bt_buf_simple_pull_u8 buf);
        '(retransmit, buf) ← checked (bt_buf_simple_pull_u8 buf);
        '(found, vnd) ← find_mod elem_addr buf;
        '(status, pub_addr) ←
          match found with
          | inr status => mret (status, 0)
          | inl mod_ =>
              '(status, va) ← va_add uuid;
              if negb (status =? STATUS_SUCCESS) then mret (status, 0)
              else
                i ← checked va;
                va ← va_at_slot i;
                status ← _mod_pub_set mod_ (va_addr va) (Some i) pub_app_idx cred_flag pub_ttl pub_period retransmit true;
                _ ← when (negb (status =? STATUS_SUCCESS)) (va_del (Some i));
                mret (status, va_addr va)
          end;
        send_mod_pub_status r ctx elem_addr pub_addr vnd (some_mod found) status buf.

(** * Subscription *)

(** The number of groups that were cleared. *)
Definition mod_sub_list_clear (r : mod_ref) : M st Z :=
  m ← model r;
  _ ← on_model r (fun m => m <| m_groups ::= map (fun _ => BT_MESH_ADDR_UNASSIGNED) |>);
  _ ← foreach (fun i =>
        m ← model r;
        match m_uuids m !! i with
        | Some (Some uuid) => _ ← va_del (Some uuid); on_model r (fun m => m <| m_uuids ::= <[i := None]> |>)
        | _ => mret ()
        end) (List.seq 0 (length (m_uuids m)));
  mret (zlen (filter (fun g => g <> BT_MESH_ADDR_UNASSIGNED) (m_groups m))).

Definition mod_sub_clear_visitor (r : mod_ref) (a : unit) : M st (bool * unit) :=
  m ← model r;
  _ ← when (k_lpn acfg) (log (AccLpnGroupDel (m_groups m)));
  _ ← mod_sub_list_clear r;
  mret (false, a).

Definition send_mod_sub_status (r : mod_ref) (ctx : bt_mesh_msg_ctx) (status elem_addr sub_addr : Z) (mod_id : bt_buf_simple)
    (vnd : bool) : M st Z :=
  msg ← checked (bt_mesh_model_msg_init (BT_MESH_MODEL_BUF_DEFINE OP_MOD_SUB_STATUS 9) OP_MOD_SUB_STATUS);
  msg ← checked (bt_buf_simple_add_u8 msg status);
  msg ← checked (bt_buf_simple_add_le16 msg elem_addr);
  msg ← checked (bt_buf_simple_add_le16 msg sub_addr);
  msg ← add_mod_id msg vnd mod_id;
  respond r ctx msg.

(** [*entry = addr] for an entry of [groups] of [mod_]. *)
Definition set_group (mod_ : mod_ref) (k : nat) (addr : Z) : M st unit := on_model mod_ (fun m => m <| m_groups ::= <[k := addr]> |>).
Definition set_uuid (mod_ : mod_ref) (k : nat) (uuid : option nat) : M st unit := on_model mod_ (fun m => m <| m_uuids ::= <[k := uuid]> |>).

(** What [mod_sub_add], [mod_sub_del] and [mod_sub_overwrite] have in common: the parameters,
    the lookups, the check of the address, the status; [act] is what is in between. *)
Definition sub_group_handler (act : mod_ref -> Z -> M st Z) (r : mod_ref) (ctx : bt_mesh_msg_ctx) (buf : bt_buf_simple) : M st Z :=
  if negb (b_len buf =? 6) && negb (b_len buf =? 8) then mret (- EMSGSIZE)
  else
    '(elem_addr, buf) ← checked (bt_buf_simple_pull_le16 buf);
    if negb (BT_MESH_ADDR_IS_UNICAST elem_addr) then mret (- EINVAL)
    else
      '(sub_addr, buf) ← checked (bt_buf_simple_pull_le16 buf);
      '(found, vnd) ← find_mod elem_addr buf;
      status ← match found with
               | inr status => mret status
               | inl mod_ =>
                   if negb (BT_MESH_ADDR_IS_GROUP sub_addr) && negb (BT_MESH_ADDR_IS_FIXED_GROUP sub_addr)
                   then mret STATUS_INVALID_ADDRESS else act mod_ sub_addr
               end;
      send_mod_sub_status r ctx status elem_addr sub_addr buf vnd.

Definition sub_add_to (mod_ : mod_ref) (sub_addr : Z) : M st Z :=
  '(found, mod_) ← bt_mesh_model_find_group acfg mod_ sub_addr;
  match found with
  | Some _ => mret STATUS_SUCCESS
  | None =>
      '(entry, mod_) ← bt_mesh_model_find_group acfg mod_ BT_MESH_ADDR_UNASSIGNED;
      match entry with
      | None => mret STATUS_INSUFF_RESOURCES
      | Some k =>
          _ ← set_group mod_ k sub_addr;
          _ ← when (k_settings acfg) (bt_mesh_model_sub_store mod_);
          _ ← when (k_lpn acfg) (log (AccLpnGroupAdd sub_addr));
          mret STATUS_SUCCESS
      end
  end.
Definition mod_sub_add := sub_group_handler sub_add_to.

Definition sub_del_from (mod_ : mod_ref) (sub_addr : Z) : M st Z :=
  _ ← when (k_lpn acfg) (log (AccLpnGroupDel [sub_addr]));
  '(found, mod_) ← bt_mesh_model_find_group acfg mod_ sub_addr;
  match found with
  | None => mret STATUS_SUCCESS
  | Some k =>
      _ ← set_group mod_ k BT_MESH_ADDR_UNASSIGNED;
      _ ← when (k_settings acfg) (bt_mesh_model_sub_store mod_);
      mret STATUS_SUCCESS
  end.
Definition mod_sub_del := sub_group_handler sub_del_from.

Definition sub_overwrite_with (mod_ : mod_ref) (sub_addr : Z) : M st Z :=
  m ← model mod_;
  if 0 <? zlen (m_groups m) then
    _ ← bt_mesh_model_extensions_walk acfg mod_ mod_sub_clear_visitor ();
    _ ← set_group mod_ 0 sub_addr;
    _ ← when (k_settings acfg) (bt_mesh_model_sub_store mod_);
    _ ← when (k_lpn acfg) (log (AccLpnGroupAdd sub_addr));
    mret STATUS_SUCCESS
  else mret STATUS_INSUFF_RESOURCES.
Definition mod_sub_overwrite := sub_group_handler sub_overwrite_with.

Definition sub_clear (mod_ : mod_ref) : M st Z :=
  _ ← bt_mesh_model_extensions_walk acfg mod_ mod_sub_clear_visitor ();
  _ ← when (k_settings acfg) (bt_mesh_model_sub_store mod_);
  mret STATUS_SUCCESS.

Definition mod_sub_del_all (r : mod_ref) (ctx : bt_mesh_msg_ctx) (buf : bt_buf_simple) : M st Z :=
  if negb (b_len buf =? 4) && negb (b_len buf =? 6) then mret (- EMSGSIZE)
  else
    '(elem_addr, buf) ← checked (bt_buf_simple_pull_le16 buf);
    if negb (BT_MESH_ADDR_IS_UNICAST elem_addr) then mret (- EINVAL)
    else
      '(found, vnd) ← find_mod elem_addr buf;
      status ← match found with inr status => mret status | inl mod_ => sub_clear mod_ end;
      send_mod_sub_status r ctx status elem_addr BT_MESH_ADDR_UNASSIGNED buf vnd.

(** The loop of [mod_sub_list_visitor]: whether it stopped for want of room. *)
Fixpoint sub_list_loop (l : list Z) (msg : bt_buf_simple) : M st (bool * bt_buf_simple) :=
  match l with
  | [] => mret (false, msg)
  | g :: l =>
      if g =? BT_MESH_ADDR_UNASSIGNED then sub_list_loop l msg
      else if bt_buf_simple_tailroom msg <? 2 + BT_MESH_MIC_SHORT then mret (true, msg)
      else msg ← checked (bt_buf_simple_add_le16 msg g); sub_list_loop l msg
  end.

(** The visitor gets and gives the message. *)
Definition mod_sub_list_visitor (elem_idx : Z) (r : mod_ref) (msg : bt_buf_simple) : M st (bool * bt_buf_simple) :=
  m ← model r;
  if negb (m_elem_idx m =? elem_idx) then mret (false, msg) else sub_list_loop (m_groups m) msg.

(** The answer of [mod_sub_get] and [mod_sub_get_vnd], which differ in the identifier [id]
    of the model, given as the words that are added to the message. *)
Definition send_sub_list (op : Z) (r : mod_ref) (ctx : bt_mesh_msg_ctx) (addr : Z) (id : list Z) (mod_ : mod_ref + Z) : M st Z :=
  let add_all := foldl (fun msg x => msg ← msg; bt_buf_simple_add_le16 msg x) in
  msg ← checked (bt_mesh_model_msg_init (buf_define (BT_MESH_TX_SDU_MAX tcfg)) op);
  msg ← checked (bt_buf_simple_add_u8 msg (match mod_ with inr status => status | inl _ => STATUS_SUCCESS end));
  msg ← checked (add_all (bt_buf_simple_add_le16 msg addr) id);
  msg ← match mod_ with
        | inr _ => mret msg
        | inl m_ => m ← model m_; bt_mesh_model_extensions_walk acfg m_ (mod_sub_list_visitor (m_elem_idx m)) msg
        end;
  respond r ctx msg.

Definition mod_sub_get (r : mod_ref) (ctx : bt_mesh_msg_ctx) (buf : bt_buf_simple) : M st Z :=
  '(addr, buf) ← checked (bt_buf_simple_pull_le16 buf);
  if negb (BT_MESH_ADDR_IS_UNICAST addr) then mret (- EINVAL)
  else
    '(id, _) ← checked (bt_buf_simple_pull_le16 buf);
    comp ← gets a_comp;
    send_sub_list OP_MOD_SUB_LIST r ctx addr [id]
      (match bt_mesh_elem_find comp addr with
       | None => inr STATUS_INVALID_ADDRESS
       | Some elem =>
           match bt_mesh_model_find (elem_at elem comp) id with
           | None => inr STATUS_INVALID_MODEL
           | Some i => inl (mk_ref elem false i)
           end
       end).

Definition mod_sub_get_vnd (r : mod_ref) (ctx : bt_mesh_msg_ctx) (buf : bt_buf_simple) : M st Z :=
  '(addr, buf) ← checked (bt_buf_simple_pull_le16 buf);
  if negb (BT_MESH_ADDR_IS_UNICAST addr) then mret (- EINVAL)
  else
    '(company, buf) ← checked (bt_buf_simple_pull_le16 buf);
    '(id, _) ← checked (bt_buf_simple_pull_le16 buf);
    comp ← gets a_comp;
    send_sub_list OP_MOD_SUB_LIST_VND r ctx addr [company; id]
      (match bt_mesh_elem_find comp addr with
       | None => inr STATUS_INVALID_ADDRESS
       | Some elem =>
           match bt_mesh_model_find_vnd (elem_at elem comp) company id with
           | None => inr STATUS_INVALID_MODEL
           | Some i => inl (mk_ref elem true i)
           end
       end).

(** ** Labels *)

(** What [mod_sub_va_add], [mod_sub_va_del] and [mod_sub_va_overwrite] have in common; [act]
    gives the status and the virtual address. *)
Definition sub_va_handler (act : mod_ref -> list Z -> M st (Z * Z)) (r : mod_ref) (ctx : bt_mesh_msg_ctx) (buf : bt_buf_simple) : M st Z :=
  if negb (b_len buf =? 20) && negb (b_len buf =? 22) then mret (- EMSGSIZE)
  else
    '(elem_addr, buf) ← checked (bt_buf_simple_pull_le16 buf);
    if negb (BT_MESH_ADDR_IS_UNICAST elem_addr) then mret (- EINVAL)
    else
      '(uuid, buf) ← checked (pull_bytes 16 buf);
      '(found, vnd) ← find_mod elem_addr buf;
      '(status, sub_addr) ← match found with
                            | inr status => mret (status, BT_MESH_ADDR_UNASSIGNED)
                            | inl mod_ => act mod_ uuid
                            end;
      send_mod_sub_status r ctx status elem_addr sub_addr buf vnd.

(** [va->ref == 1 && !bt_mesh_va_collision_check(va->addr)], for a Low Power node. *)
Definition lpn_alone (va : bt_mesh_va) : M st bool :=
  if k_lpn acfg && (va_ref va =? 1) then c ← va_collision_check (va_addr va); mret (negb c) else mret false.

Definition sub_va_add_to (mod_ : mod_ref) (uuid : list Z) : M st (Z * Z) :=
  '(status, va) ← va_add uuid;
  if negb (status =? STATUS_SUCCESS) then mret (status, BT_MESH_ADDR_UNASSIGNED)
  else
    i ← checked va;
    va ← va_at_slot i;
    '(found, mod_) ← bt_mesh_model_find_uuid acfg mod_ (Some i);
    match found with
    | Some _ => _ ← va_del (Some i); mret (STATUS_SUCCESS, va_addr va)
    | None =>
        '(label_entry, mod_) ← bt_mesh_model_find_uuid acfg mod_ None;
        match label_entry with
        | None => _ ← va_del (Some i); mret (STATUS_INSUFF_RESOURCES, BT_MESH_ADDR_UNASSIGNED)
        | Some l =>
            m ← model mod_;
            match model_group_get m BT_MESH_ADDR_UNASSIGNED with
            | None => _ ← va_del (Some i); mret (STATUS_INSUFF_RESOURCES, BT_MESH_ADDR_UNASSIGNED)
            | Some g =>
                _ ← set_group mod_ g (va_addr va);
                _ ← set_uuid mod_ l (Some i);
                alone ← lpn_alone va;
                _ ← when alone (log (AccLpnGroupAdd (va_addr va)));
                _ ← when (k_settings acfg) (bt_mesh_model_sub_store mod_);
                mret (STATUS_SUCCESS, va_addr va)
            end
        end
    end.
Definition mod_sub_va_add := sub_va_handler sub_va_add_to.

Definition sub_va_del_from (mod_ : mod_ref) (uuid : list Z) : M st (Z * Z) :=
  vas ← gets a_vas;
  match bt_mesh_va_find vas uuid with
  | None => mret (STATUS_CANNOT_REMOVE, BT_MESH_ADDR_UNASSIGNED)
  | Some i =>
      va ← va_at_slot i;
      alone ← lpn_alone va;
      _ ← when alone (log (AccLpnGroupDel [va_addr va]));
      '(label_match, mod_) ← bt_mesh_model_find_uuid acfg mod_ (Some i);
      match label_match with
      | None => mret (STATUS_CANNOT_REMOVE, BT_MESH_ADDR_UNASSIGNED)
      | Some l =>
          m ← model mod_;
          _ ← match model_group_get m (va_addr va) with
              | Some g => set_group mod_ g BT_MESH_ADDR_UNASSIGNED
              | None => mret ()
              end;
          _ ← set_uuid mod_ l None;
          _ ← when (k_settings acfg) (bt_mesh_model_sub_store mod_);
          va ← va_at_slot i;
          _ ← va_del (Some i);
          mret (STATUS_SUCCESS, va_addr va)
      end
  end.
Definition mod_sub_va_del := sub_va_handler sub_va_del_from.

Definition sub_va_overwrite_with (mod_ : mod_ref) (uuid : list Z) : M st (Z * Z) :=
  m ← model mod_;
  vas ← gets a_vas;
  if (zlen vas =? 0) || (zlen (m_groups m) =? 0) then mret (STATUS_INSUFF_RESOURCES, BT_MESH_ADDR_UNASSIGNED)
  else
    '(status, va) ← va_add uuid;
    if negb (status =? STATUS_SUCCESS) then mret (status, BT_MESH_ADDR_UNASSIGNED)
    else
      i ← checked va;
      _ ← bt_mesh_model_extensions_walk acfg mod_ mod_sub_clear_visitor ();
      va ← va_at_slot i;
      _ ← set_group mod_ 0 (va_addr va);
      m ← model mod_;
      _ ← checked (assert (negb (zlen (m_uuids m) =? 0)));
      _ ← set_uuid mod_ 0 (Some i);
      _ ← when (k_settings acfg) (bt_mesh_model_sub_store mod_);
      alone ← lpn_alone va;
      _ ← when alone (log (AccLpnGroupAdd (va_addr va)));
      mret (STATUS_SUCCESS, va_addr va).
Definition mod_sub_va_overwrite := sub_va_handler sub_va_overwrite_with.

(** * Application keys of a model *)

Definition mod_bind (r : mod_ref) (key_idx : Z) : M st Z :=
  m ← model r;
  if negb (app_key_exists key_idx) then mret STATUS_INVALID_APPKEY
  else
    match scan (fun k => k =? key_idx) (m_keys m) 0 with
    | Some _ => mret STATUS_SUCCESS
    | None =>
        match scan (fun k => k =? BT_MESH_KEY_UNUSED) (m_keys m) 0 with
        | Some i =>
            _ ← on_model r (fun m => m <| m_keys ::= <[i := key_idx]> |>);
            _ ← when (k_settings acfg) (bt_mesh_model_bind_store r);
            mret STATUS_SUCCESS
        | None => mret STATUS_INSUFF_RESOURCES
        end
    end.

(** The body of the loop of [mod_unbind]. *)
Definition unbind_entry (r : mod_ref) (key_idx : Z) (store : bool) (i : nat) : M st unit :=
  m ← model r;
  if negb (m_keys m !!! i =? key_idx) then mret ()
  else
    _ ← on_model r (fun m => m <| m_keys ::= <[i := BT_MESH_KEY_UNUSED]> |>);
    _ ← when (k_settings acfg && store) (bt_mesh_model_bind_store r);
    match m_pub m with
    | Some pub =>
        if p_key pub =? key_idx then _ ← _mod_pub_set r BT_MESH_ADDR_UNASSIGNED None 0 0 0 0 0 store; mret () else mret ()
    | None => mret ()
    end.

Definition mod_unbind (r : mod_ref) (key_idx : Z) (store : bool) : M st Z :=
  m ← model r;
  if negb (app_key_exists key_idx) then mret STATUS_INVALID_APPKEY
  else _ ← foreach (unbind_entry r key_idx store) (List.seq 0 (length (m_keys m))); mret STATUS_SUCCESS.

(** [app_key_evt] of this file, which is called before the key is deleted. *)
Definition mod_app_key_del (app_idx : Z) (r : mod_ref) : M st unit := _ ← mod_unbind r app_idx true; mret ().
Definition cfg_app_key_evt (app_idx : Z) (deleted : bool) : M st unit := when deleted (bt_mesh_model_foreach (mod_app_key_del app_idx)).

Definition create_mod_app_status (msg : bt_buf_simple) (vnd : bool) (elem_addr app_idx status : Z) (mod_id : bt_buf_simple)
  : M st bt_buf_simple :=
  msg ← checked (bt_mesh_model_msg_init msg OP_MOD_APP_STATUS);
  msg ← checked (bt_buf_simple_add_u8 msg status);
  msg ← checked (bt_buf_simple_add_le16 msg elem_addr);
  msg ← checked (bt_buf_simple_add_le16 msg app_idx);
  add_mod_id msg vnd mod_id.

(** What [mod_app_bind] and [mod_app_unbind] have in common. *)
Definition app_bind_handler (act : mod_ref -> Z -> M st Z) (done : mod_ref -> Z -> access_ext) (r : mod_ref) (ctx : bt_mesh_msg_ctx)
    (buf : bt_buf_simple) : M st Z :=
  if negb (b_len buf =? 6) && negb (b_len buf =? 8) then mret (- EMSGSIZE)
  else
    '(elem_addr, buf) ← checked (bt_buf_simple_pull_le16 buf);
    if negb (BT_MESH_ADDR_IS_UNICAST elem_addr) then mret (- EINVAL)
    else
      '(key_app_idx, buf) ← checked (bt_buf_simple_pull_le16 buf);
      '(found, vnd) ← find_mod elem_addr buf;
      status ← match found with
               | inr status => mret status
               | inl mod_ =>
                   status ← act mod_ key_app_idx;
                   _ ← when (k_test acfg && (status =? STATUS_SUCCESS)) (log (done mod_ key_app_idx));
                   mret status
               end;
      msg ← create_mod_app_status (BT_MESH_MODEL_BUF_DEFINE OP_MOD_APP_STATUS 9) vnd elem_addr key_app_idx status buf;
      respond r ctx msg.

Definition bind_key (mod_ : mod_ref) (key_app_idx : Z) : M st Z :=
  m ← model mod_;
  if negb (Z.land (m_flags m) BT_MESH_MOD_DEVKEY_ONLY =? 0) then mret STATUS_CANNOT_BIND else mod_bind mod_ key_app_idx.
Definition mod_app_bind (r : mod_ref) (ctx : bt_mesh_msg_ctx) (buf : bt_buf_simple) : M st Z :=
  app_bind_handler bind_key (AccTestModelBound (x_addr ctx)) r ctx buf.
Definition mod_app_unbind (r : mod_ref) (ctx : bt_mesh_msg_ctx) (buf : bt_buf_simple) : M st Z :=
  app_bind_handler (fun mod_ key => mod_unbind mod_ key true) (AccTestModelUnbound (x_addr ctx)) r ctx buf.

Definition KEY_LIST_LEN : Z := MODEL_KEY_COUNT acfg * 2.

Definition mod_app_get (r : mod_ref) (ctx : bt_mesh_msg_ctx) (buf : bt_buf_simple) : M st Z :=
  if negb (b_len buf =? 4) && negb (b_len buf =? 6) then mret (- EMSGSIZE)
  else
    '(elem_addr, buf) ← checked (bt_buf_simple_pull_le16 buf);
    if negb (BT_MESH_ADDR_IS_UNICAST elem_addr) then mret (- EINVAL)
    else
      '(found, vnd) ← find_mod elem_addr buf;
      let status := match found with inr status => status | inl _ => STATUS_SUCCESS end in
      let size := Z.max (BT_MESH_MODEL_BUF_LEN OP_VND_MOD_APP_LIST (9 + KEY_LIST_LEN))
                        (BT_MESH_MODEL_BUF_LEN OP_SIG_MOD_APP_LIST (9 + KEY_LIST_LEN)) in
      msg ← checked (bt_mesh_model_msg_init (buf_define size) (if (vnd : bool) then OP_VND_MOD_APP_LIST else OP_SIG_MOD_APP_LIST));
      msg ← checked (bt_buf_simple_add_u8 msg status);
      msg ← checked (bt_buf_simple_add_le16 msg elem_addr);
      msg ← add_mod_id msg vnd buf;
      msg ← match found with
            | inl mod_ => m ← model mod_; checked (key_idx_pack_list msg (m_keys m))
            | inr _ => mret msg
            end;
      respond r ctx msg.

(** The part of [bt_mesh_cfg_srv_op] for these handlers: the opcodes, the lengths as
    [BT_MESH_LEN_MIN] and [BT_MESH_LEN_EXACT] write them, the handlers. *)
Definition handler : Type := mod_ref -> bt_mesh_msg_ctx -> bt_buf_simple -> M st Z.
Definition cfg_mod_op : list (Z * Z * handler) :=
  [(OP_MOD_PUB_GET, 4, mod_pub_get); (OP_MOD_PUB_SET, 11, mod_pub_set); (OP_MOD_PUB_VA_SET, 25, mod_pub_va_set);
   (OP_MOD_SUB_ADD, 6, mod_sub_add); (OP_MOD_SUB_VA_ADD, 20, mod_sub_va_add); (OP_MOD_SUB_DEL, 6, mod_sub_del);
   (OP_MOD_SUB_VA_DEL, 20, mod_sub_va_del); (OP_MOD_SUB_OVERWRITE, 6, mod_sub_overwrite);
   (OP_MOD_SUB_VA_OVERWRITE, 20, mod_sub_va_overwrite); (OP_MOD_SUB_DEL_ALL, 4, mod_sub_del_all);
   (OP_MOD_SUB_GET, -4, mod_sub_get); (OP_MOD_SUB_GET_VND, -6, mod_sub_get_vnd);
   (OP_MOD_APP_BIND, 6, mod_app_bind); (OP_MOD_APP_UNBIND, 6, mod_app_unbind);
   (OP_SIG_MOD_APP_GET, 4, mod_app_get); (OP_VND_MOD_APP_GET, 6, mod_app_get)].

(** * The server itself, and the reset of the models *)

Definition cfg_srv_init (r : mod_ref) : M st Z :=
  m ← model r;
  if negb (m_elem_idx m =? 0) then mret (- EINVAL)
  else
    _ ← checked (assert (negb (zlen (m_keys m) =? 0)));
    _ ← on_model r (fun m => m <| m_keys ::= <[0%nat := BT_MESH_KEY_DEV_LOCAL]> |> <| m_flags ::= (fun f => Z.lor f BT_MESH_MOD_DEVKEY_ONLY) |>);
    mret 0.

(** [reset] calls [mod->cb->reset] of a model, if it is set. *)
Definition mod_reset (reset : mod_ref -> M st unit) (r : mod_ref) : M st unit :=
  clear_count ← mod_sub_list_clear r;
  _ ← when (k_settings acfg && negb (clear_count =? 0)) (bt_mesh_model_sub_store r);
  reset r.
Definition bt_mesh_model_reset (reset : mod_ref -> M st unit) : M st unit := bt_mesh_model_foreach (mod_reset reset).

End Server.
