(* ===== verification/CfgSrvInv.v ===== *)
(** The invariant of the models of a node under the operations of the Configuration Server:
    the count of a label covers the models that use it, and the keys of a model are keys of
    the node.  A logic for operations that succeed, and what each action of [CfgSrv.v] on a
    model makes of the invariant; [CfgSrvSafe.v] has the messages. *)

From S2P Require Import Prelude Byteorder BufSimple MeshDefs CryptoIf Crypto Va Subnet Net AppKeys AppOps Transport.
From S2P Require Import Access AccessFrame AccessExt AccessRecv AccessStore CfgSrv.

(** * Users of labels *)

Definition is_label (i : nat) (u : option nat) : Z := if decide (u = Some i) then 1 else 0.
Definition labels_of (l : list (option nat)) (i : nat) : Z := foldr (fun u n => is_label i u + n) 0 l.

(** How often a model uses slot [i]: in its subscriptions and as what it publishes to. *)
Definition pub_use (p : option bt_mesh_model_pub) (i : nat) : Z :=
  match p with
  | Some p => if BT_MESH_ADDR_IS_VIRTUAL (p_addr p) then is_label i (p_uuid p) else 0
  | None => 0
  end.
Definition use (m : bt_mesh_model) (i : nat) : Z := labels_of (m_uuids m) i + pub_use (m_pub m) i.
Definition uses_in (l : list mod_ref) (c : bt_mesh_comp) (i : nat) : Z := foldr (fun r n => use (model_at r c) i + n) 0 l.
Definition uses (c : bt_mesh_comp) (i : nat) : Z := uses_in (comp_refs c) c i.

Lemma is_label_nonneg i u : 0 <= is_label i u.
Proof. unfold is_label. case_decide; lia. Qed.
Lemma labels_of_cons u l i : labels_of (u :: l) i = is_label i u + labels_of l i.
Proof. done. Qed.
Lemma uses_in_cons r l c i : uses_in (r :: l) c i = use (model_at r c) i + uses_in l c i.
Proof. done. Qed.

Lemma labels_of_nonneg l i : 0 <= labels_of l i.
Proof. induction l as [|u l IH]; [done|]. rewrite labels_of_cons. pose proof (is_label_nonneg i u). lia. Qed.
Lemma use_nonneg m i : 0 <= use m i.
Proof.
  unfold use, pub_use. pose proof (labels_of_nonneg (m_uuids m) i). destruct (m_pub m) as [p|]; [|lia].
  pose proof (is_label_nonneg i (p_uuid p)). destruct (BT_MESH_ADDR_IS_VIRTUAL _); lia.
Qed.

Lemma labels_of_insert l k old new i : l !! k = Some old -> labels_of (<[k := new]> l) i = labels_of l i - is_label i old + is_label i new.
Proof.
  revert k. induction l as [|u l IH]; intros k; [done|]. destruct k as [|k].
  - intros [= ->]. change (<[0%nat := new]> (old :: l)) with (new :: l). rewrite !labels_of_cons. lia.
  - intros Hk. change (<[S k := new]> (u :: l)) with (u :: <[k := new]> l). rewrite !labels_of_cons, (IH k) by done. lia.
Qed.
Lemma labels_of_insert_le l k new i : labels_of (<[k := new]> l) i <= labels_of l i + is_label i new.
Proof.
  destruct (l !! k) as [old|] eqn:E.
  - rewrite (labels_of_insert _ _ _ _ _ E). pose proof (is_label_nonneg i old). lia.
  - rewrite list_insert_ge by (by apply lookup_ge_None). pose proof (is_label_nonneg i new). lia.
Qed.

Lemma uses_in_same l c c' i : (forall r, r ∈ l -> model_at r c' = model_at r c) -> uses_in l c' i = uses_in l c i.
Proof.
  induction l as [|r l IH]; intros E; [done|]. rewrite !uses_in_cons, E by (by left). rewrite IH; [done|].
  intros r' Hr'. apply E. by right.
Qed.

Lemma set_outside r f c : r ∉ comp_refs c -> set_model r f c = c.
Proof.
  intros Hr. rewrite elem_of_comp_refs in Hr. unfold lookup_model in Hr. unfold set_model. destruct c as [a b d l]. unfold setter. cbn in *. f_equal.
  destruct (l !! r_elem r) as [e|] eqn:He; cbn in Hr.
  - apply list_eq. intros j. destruct (decide (j = r_elem r)) as [->|]; [|by rewrite list_lookup_alter_ne].
    rewrite list_lookup_alter_eq, He. cbn. f_equal.
    assert (alter f (r_idx r) (models_of (r_vnd r) e) = models_of (r_vnd r) e) as E.
    { apply list_eq. intros k. destruct (decide (k = r_idx r)) as [->|]; [|by rewrite list_lookup_alter_ne].
      rewrite list_lookup_alter_eq. destruct (models_of (r_vnd r) e !! r_idx r); [|done]. exfalso. by apply Hr. }
    destruct e as [x y ms vs]. unfold on_models, models_of in *. cbn in *. destruct (r_vnd r); unfold setter; cbn in *; by rewrite E.
  - apply list_eq. intros j. destruct (decide (j = r_elem r)) as [->|]; [|by rewrite list_lookup_alter_ne].
    by rewrite list_lookup_alter_eq, He.
Qed.

Lemma model_outside r c : r ∉ comp_refs c -> model_at r c = inhabitant.
Proof.
  intros Hr. rewrite elem_of_comp_refs in Hr. unfold lookup_model in Hr. unfold model_at, elem_at.
  destruct (co_elem c !! r_elem r) as [e|] eqn:He; cbn in Hr.
  - rewrite (list_lookup_total_correct _ _ _ He). rewrite list_lookup_total_alt. destruct (models_of _ e !! _); [|done]. exfalso. by apply Hr.
  - rewrite (list_lookup_total_alt (co_elem c)), He. cbn. by destruct (r_vnd r).
Qed.

Lemma uses_set c r f i : uses (set_model r f c) i <= uses c i - use (model_at r c) i + use (f (model_at r c)) i.
Proof.
  destruct (decide (r ∈ comp_refs c)) as [Hr|Hr].
  - unfold uses. rewrite comp_refs_set. pose proof (comp_refs_nodup c) as Hn. revert Hn.
    assert (forall r', model_at r' (set_model r f c) = if decide (r' = r) then f (model_at r' c) else model_at r' c) as Hat by (intros; by apply model_at_set).
    revert Hr. generalize (comp_refs c). induction l as [|x l IH]; intros Hr Hn; [by apply elem_of_nil in Hr|]. apply NoDup_cons in Hn as [Hx Hn].
    rewrite !uses_in_cons, Hat. apply elem_of_cons in Hr as [<-|Hr].
    + rewrite decide_True by done. rewrite (uses_in_same l c (set_model r f c)); [lia|].
      intros r' Hr'. rewrite Hat, decide_False; [done|]. by intros ->.
    + rewrite decide_False by (by intros ->). specialize (IH Hr Hn). lia.
  - rewrite set_outside by done. rewrite model_outside by done. pose proof (use_nonneg (f inhabitant) i). change (use inhabitant i) with 0. lia.
Qed.

(** * The invariant *)

Definition ref_of (v : list bt_mesh_va) (i : nat) : Z := va_ref (v !!! i).
Definition content_of (v : list bt_mesh_va) (i : nat) : list Z * Z := (va_uuid (v !!! i), va_addr (v !!! i)).

(** The counts of the labels cover their users and [x] more; no count is above [B]. *)
Definition covered (B : Z) (x : nat -> Z) (c : bt_mesh_comp) (v : list bt_mesh_va) : Prop :=
  forall i, 0 <= ref_of v i <= B /\ uses c i + x i <= ref_of v i /\ (0 < ref_of v i -> BT_MESH_ADDR_IS_VIRTUAL (va_addr (v !!! i)) = true).

(** The labels in use in [v0] are still the same. *)
Definition unchanged (v0 v : list bt_mesh_va) : Prop := forall i, 0 < ref_of v0 i -> content_of v i = content_of v0 i.

(** A key that a model may have: none, a device key, or one of the table. *)
Definition key_ok (l : list app_key) (k : Z) : Prop :=
  k = BT_MESH_KEY_UNUSED \/ BT_MESH_IS_DEV_KEY k = true \/ k = BT_MESH_KEY_DEV_ANY \/ bt_mesh_app_key_exists k l = true.

(** The keys of a model are good, and what it publishes with is one of them and an
    application key. *)
Definition keys_ok (l : list app_key) (m : bt_mesh_model) : Prop :=
  Forall (key_ok l) (m_keys m) /\
  (forall p, m_pub m = Some p -> p_addr p <> BT_MESH_ADDR_UNASSIGNED -> p_key p ∈ m_keys m /\ 0 <= p_key p < 2 ^ 12).

Lemma pub_key_exists l m p : keys_ok l m -> m_pub m = Some p -> p_addr p <> BT_MESH_ADDR_UNASSIGNED -> bt_mesh_app_key_exists (p_key p) l = true.
Proof.
  intros [Hk Hp] Em Ha. destruct (Hp p Em Ha) as [Hin Hr]. rewrite Forall_forall in Hk.
  assert (p_key p < 2 ^ 12) as Hlt by lia. clear Hr.
  destruct (Hk _ Hin) as [E|[E|[E|E]]]; [by rewrite E in Hlt| |by rewrite E in Hlt|done].
  unfold BT_MESH_IS_DEV_KEY in E. apply orb_true_iff in E as [E|E]; apply Z.eqb_eq in E; by rewrite E in Hlt.
Qed.

Section Triples.

Context {X W : Type} `{MeshCrypto W}.
Notation st := (access X W).
Implicit Types s : st.

(** What an operation that succeeds makes of the composition and the labels. *)
Definition hoare {A} (P : bt_mesh_comp -> list bt_mesh_va -> Prop) (m : M st A) (Q : A -> bt_mesh_comp -> list bt_mesh_va -> Prop) : Prop :=
  forall s a s', P (a_comp s) (a_vas s) -> m s = (Ok a, s') -> Q a (a_comp s') (a_vas s').

Definition parts s : bt_mesh_comp * list bt_mesh_va := (a_comp s, a_vas s).

Lemma hoare_seq {A B} P (m : M st A) Q (f : A -> M st B) R : hoare P m Q -> (forall a, hoare (Q a) (f a) R) -> hoare P (m ≫= f) R.
Proof.
  intros Hm Hf s b s' HP E. unfold mbind, M_bind in E. destruct (m s) as [[a|e|] s1] eqn:E1; [|done|done].
  eapply Hf; [|exact E]. by eapply Hm.
Qed.
Lemma hoare_conseq {A} P P' (m : M st A) Q Q' : hoare P m Q -> (forall c v, P' c v -> P c v) -> (forall a c v, Q a c v -> Q' a c v) -> hoare P' m Q'.
Proof. intros Hm HP HQ s a s' Hs E. eapply HQ, Hm; [by apply HP|exact E]. Qed.
Lemma hoare_pre {A} P P' (m : M st A) Q : hoare P m Q -> (forall c v, P' c v -> P c v) -> hoare P' m Q.
Proof. intros Hm HP. by eapply hoare_conseq. Qed.
Lemma hoare_done {A} (P : A -> _ -> _ -> Prop) (a : A) : hoare (P a) (mret a) P.
Proof. by intros s b s' HP [= <- <-]. Qed.
Lemma hoare_leaves {A} P (m : M st A) : leaves parts m -> hoare P m (fun _ => P).
Proof. intros Hl s a s' HP E. specialize (Hl s). rewrite E in Hl. injection Hl as Ec Ev. by rewrite Ec, Ev. Qed.
Lemma hoare_model P r : hoare P (model r) (fun m c v => P c v /\ model_at r c = m).
Proof. by intros s a s' HP [= <- <-]. Qed.
Lemma hoare_comp P : hoare P (gets a_comp) (fun c' c v => P c v /\ c = c').
Proof. by intros s a s' HP [= <- <-]. Qed.
Lemma hoare_vas P : hoare P (gets a_vas) (fun v' c v => P c v /\ v = v').
Proof. by intros s a s' HP [= <- <-]. Qed.
Lemma hoare_checked {A} P (o : option A) : hoare P (checked o) (fun a c v => P c v /\ o = Some a).
Proof. intros s a s' HP. unfold checked. destruct o; [by intros [= <- <-]|done]. Qed.
(** A fact about the state of before that is not about the state. *)
Lemma hoare_fact {A} P (F : Prop) (m : M st A) Q : (F -> hoare P m Q) -> hoare (fun c v => P c v /\ F) m Q.
Proof. intros Hm s a s' [HP HF]. by apply Hm. Qed.
Lemma hoare_when P (o : bool) (m : M st unit) Q : (o = true -> hoare P m Q) -> (o = false -> forall c v, P c v -> Q () c v) -> hoare P (when o m) Q.
Proof. intros Ht Hf. destruct o; [by apply Ht|]. intros s a s' HP [= <- <-]. by apply Hf. Qed.

End Triples.

(** * The operations on models and labels *)

Section Primitives.

Context {X W : Type} `{MeshCrypto W}.
Context (acfg : access_cfg).
Notation st := (access X W).
Implicit Types s : st.

(** The invariant during a message: [x] is what is owned, or if negative owed, beside the
    users, [v0] the labels of before, and [K] what is said of the keys of a model. *)
Record inv (B : Z) (x : nat -> Z) (v0 : list bt_mesh_va) (K : mod_ref -> bt_mesh_model -> Prop) (c : bt_mesh_comp) (v : list bt_mesh_va) : Prop := {
  inv_covered : covered B x c v;
  inv_labels : unchanged v0 v;
  inv_keys : forall r, r ∈ comp_refs c -> K r (model_at r c)
}.

Lemma inv_weaken B B' x x' v0 (K K' : mod_ref -> bt_mesh_model -> Prop) c v : B <= B' -> (forall i, x' i <= x i) ->
  (forall r, r ∈ comp_refs c -> K r (model_at r c) -> K' r (model_at r c)) -> inv B x v0 K c v -> inv B' x' v0 K' c v.
Proof.
  intros HB Hx HK [Hc Hl Hk]. split; [|done|auto]. intros i. destruct (Hc i) as (H1 & H2 & H3). specialize (Hx i). split_and!; [lia..|done].
Qed.

Lemma hoare_on_model B x x' v0 (K K' : mod_ref -> bt_mesh_model -> Prop) (G G' : bt_mesh_comp -> Prop) r f :
  (forall c, G c -> (forall i, x' i <= x i + use (model_at r c) i - use (f (model_at r c)) i) /\ (K r (model_at r c) -> K' r (f (model_at r c))) /\ G' (set_model r f c)) ->
  (forall r' m, r' <> r -> K r' m -> K' r' m) ->
  hoare (X := X) (W := W) (fun c v => inv B x v0 K c v /\ G c) (on_model r f) (fun _ c v => inv B x' v0 K' c v /\ G' c).
Proof.
  intros Hf Ho s a s' [[Hc Hl Hk] HG] [= <- <-].
  change (inv B x' v0 K' (set_model r f (a_comp s)) (a_vas s) /\ G' (set_model r f (a_comp s))).
  destruct (Hf _ HG) as (Hx & HK & HG'). split; [|done]. split; [|done|].
  - intros i. destruct (Hc i) as (H1 & H2 & H3). split_and!; [lia..| |done]. specialize (Hx i). pose proof (uses_set (a_comp s) r f i) as Hu. lia.
  - intros r' Hr'. rewrite comp_refs_set in Hr'. specialize (Hk r' Hr'). destruct (decide (r ∈ comp_refs (a_comp s))) as [Hr|Hr].
    + rewrite model_at_set by done. case_decide as Hd; [subst r'; by apply HK|by apply Ho].
    + rewrite set_outside by done. apply Ho; [by intros ->|done].
Qed.

(** The call, seen from the labels alone. *)
Lemma hoare_in_va {A} (P : bt_mesh_comp -> list bt_mesh_va -> Prop) (m : M (va_state W) A) (Q : A -> bt_mesh_comp -> list bt_mesh_va -> Prop) :
  (forall c w v a t, P c v -> m (mk_va_state w v []) = (Ok a, t) -> Q a c (Va.virtual_addrs t)) -> hoare (X := X) P (in_va m) Q.
Proof.
  intros Hm s a s' HP. unfold in_va. destruct (m _) as [o t] eqn:E. intros [= -> <-]. cbn. by eapply Hm.
Qed.

Definition credit (o : option nat) (i : nat) : Z := is_label i o.

Lemma va_alter (v : list bt_mesh_va) j f i : (j < length v)%nat -> alter f j v !!! i = if decide (i = j) then f (v !!! i) else v !!! i.
Proof.
  intros Hj. case_decide as Hd.
  - subst i. destruct (lookup_lt_is_Some_2 _ _ Hj) as [y Hy]. rewrite (list_lookup_total_correct _ _ _ Hy).
    apply list_lookup_total_correct. by rewrite list_lookup_alter_eq, Hy.
  - by apply list_lookup_total_alter_ne.
Qed.

Lemma hoare_va_del B x v0 K (G : bt_mesh_comp -> Prop) u : B < 2 ^ 15 ->
  hoare (X := X) (W := W) (fun c v => inv B x v0 K c v /\ G c) (va_del acfg u) (fun _ c v => inv B (fun i => x i - credit u i) v0 K c v /\ G c).
Proof.
  intros HB. unfold va_del. eapply hoare_seq; [apply hoare_in_va with (Q := fun _ c v => inv B (fun i => x i - credit u i) v0 K c v /\ G c)|intros a; apply (hoare_done (fun _ => _))].
  intros c w v a t [[Hc Hl Hk] HG]. unfold bt_mesh_va_del. unfold Va.gets, mbind, M_bind. cbn. unfold va_at. destruct u as [j|]; cbn.
  2: { intros [= _ <-]. split; [|done]. eapply (inv_weaken B B x _ _ K); [done| |done|by split]. intros i. unfold credit, is_label. rewrite decide_False by done. lia. }
  destruct (v !! j) as [va|] eqn:Ej; cbn; [destruct (Z.eqb_spec (va_ref va) 0) as [E0|E0]; cbn|].
  1,3: intros [= _ <-]; split; [|done]; eapply (inv_weaken B B x _ _ K); [done| |done|by split]; intros i; unfold credit; pose proof (is_label_nonneg i (Some j)); lia.
  unfold va_store, schedule. assert (va_ref (v !!! j) = va_ref va) as Er by (by rewrite (list_lookup_total_correct _ _ _ Ej)).
  intros E. assert (Va.virtual_addrs t = alter (fun va => va <| va_changed := true |>) j (alter (fun va => set_ref (va_ref va - 1) va) j v)) as ->.
  { destruct (k_settings acfg); injection E as _ <-; done. }
  assert (j < length v)%nat as Hj by (by eapply lookup_lt_Some).
  assert (forall i, alter (fun va => va <| va_changed := true |>) j (alter (fun va => set_ref (va_ref va - 1) va) j v) !!! i =
    if decide (i = j) then set_ref (va_ref (v !!! i) - 1) (v !!! i) <| va_changed := true |> else v !!! i) as Hv.
  { intros i. rewrite va_alter by (by rewrite length_alter). rewrite va_alter by done. by case_decide. }
  split; [|done]. destruct (Hc j) as (Hb & _ & _). unfold ref_of in Hb. split; [|intros i Hi; unfold content_of in *; rewrite Hv; case_decide; [subst|]; by apply Hl|done].
  intros i. destruct (Hc i) as (H1 & H2 & H3). unfold ref_of in *. rewrite Hv. unfold credit, is_label. case_decide as Hd; [subst i|].
  - rewrite decide_True by done. cbn. rewrite Z.mod_small by (rewrite Er in *; lia). rewrite Er in *. split_and!; [lia..|]. intros _. apply H3. lia.
  - rewrite decide_False by congruence. split_and!; [lia..|done].
Qed.

Lemma va_add_scan_at uuid : forall v i acc, match va_add_scan uuid v i acc with
  | inl j => (i <= j)%nat /\ exists va, v !! (j - i)%nat = Some va /\ va_ref va <> 0
  | inr (Some j) => acc = Some j \/ (i <= j)%nat /\ exists va, v !! (j - i)%nat = Some va /\ va_ref va = 0
  | inr None => True
  end.
Proof.
  induction v as [|y v IH]; intros i acc; cbn [va_add_scan]; [destruct acc; auto|].
  destruct (Z.eqb_spec (va_ref y) 0) as [E|E].
  - specialize (IH (S i) (match acc with None => Some i | _ => acc end)). destruct (va_add_scan uuid v (S i) _) as [j|[j|]]; [..|done].
    + destruct IH as [Hj (va & Ev & Hva)]. split; [lia|]. exists va. by replace (j - i)%nat with (S (j - S i)) by lia.
    + destruct IH as [Ea|[Hj (va & Ev & Hva)]].
      * destruct acc as [k|]; [by left|]. injection Ea as <-. right. split; [done|]. exists y. by rewrite Nat.sub_diag.
      * right. split; [lia|]. exists va. by replace (j - i)%nat with (S (j - S i)) by lia.
  - destruct (memcmp _ _ =? 0); [split; [done|]; exists y; by rewrite Nat.sub_diag|].
    specialize (IH (S i) acc). destruct (va_add_scan uuid v (S i) acc) as [j|[j|]]; [..|done].
    + destruct IH as [Hj (va & Ev & Hva)]. split; [lia|]. exists va. by replace (j - i)%nat with (S (j - S i)) by lia.
    + destruct IH as [Ea|[Hj (va & Ev & Hva)]]; [by left|]. right. split; [lia|]. exists va. by replace (j - i)%nat with (S (j - S i)) by lia.
Qed.

(** A slot that is replaced: its count goes up by one and its label stays, or it was free. *)
Lemma inv_replace B x v0 K c v v' j old new : B + 1 < 2 ^ 15 -> inv B x v0 K c v -> v !! j = Some old ->
  (forall i, v' !!! i = if decide (i = j) then new else v !!! i) ->
  (va_ref old <> 0 /\ va_ref new = va_ref old + 1 /\ va_uuid new = va_uuid old /\ va_addr new = va_addr old \/
   va_ref old = 0 /\ (va_ref new = 1 /\ BT_MESH_ADDR_IS_VIRTUAL (va_addr new) = true \/ va_ref new = 0) /\ ref_of v0 j <= 0) ->
  inv (B + 1) (fun i => x i + if decide (i = j) then va_ref new - va_ref old else 0) v0 K c v'.
Proof.
  intros HB [Hc Hl Hk] Ej Hv' Hnew. pose proof (list_lookup_total_correct _ _ _ Ej) as Eo.
  split; [|intros i Hi|done].
  - intros i. destruct (Hc i) as (H1 & H2 & H3). unfold ref_of in *. rewrite Hv'. case_decide as Hd; [subst i|split_and!; [lia..|done]].
    rewrite Eo in *. destruct Hnew as [(Hn & -> & _ & ->)|(E0 & [[-> Ha]| ->] & _)].
    + split_and!; [lia..|]. intros _. apply H3. lia.
    + rewrite E0 in *. split_and!; [lia..|done].
    + rewrite E0 in *. split_and!; [lia..|]. lia.
  - unfold content_of. rewrite Hv'. case_decide as Hd; [subst i|by apply Hl]. specialize (Hl j Hi). unfold content_of in Hl. rewrite Eo in Hl.
    destruct Hnew as [(_ & _ & -> & ->)|(_ & _ & Hv0)]; [done|lia].
Qed.

Lemma virtual_addr_virtual uuid (w w' : W) addr : bt_mesh_virtual_addr uuid w = (Ok addr, w') -> BT_MESH_ADDR_IS_VIRTUAL addr = true.
Proof.
  unfold bt_mesh_virtual_addr, mbind, M_bind. destruct (bt_mesh_s1_str _ w) as [[salt|e|] w1]; [|done..].
  destruct (bt_mesh_aes_cmac_one_raw_key _ _ w1) as [[tmp|e|] w2]; [|done..]. intros [= <- _].
  set (h := Z.land _ 0x3fff). assert (0 <= h < 2 ^ 14) as Hh by (unfold h; change 0x3fff with (Z.ones 14); rewrite Z.land_ones by lia; apply Z.mod_pos_bound; lia).
  assert (Z.lor h 0x8000 = h + 0x8000) as ->.
  { change 0x8000 with (Z.shiftl 2 14). rewrite Z.lor_comm, lor_shl_add by lia. change (Z.shiftl 2 14) with (2 * 2 ^ 14). lia. }
  unfold BT_MESH_ADDR_IS_VIRTUAL. apply andb_true_iff. split; [apply Z.leb_le|apply Z.ltb_lt]; lia.
Qed.

Lemma hoare_va_add B x v0 K (G : bt_mesh_comp -> Prop) uuid : B + 1 < 2 ^ 15 ->
  hoare (X := X) (W := W) (fun c v => (inv B x v0 K c v /\ v = v0) /\ G c) (va_add acfg uuid)
    (fun a c v => inv (B + 1) (fun i => x i + credit a.2 i) v0 K c v /\ G c).
Proof.
  intros HB. apply hoare_in_va. intros c w v [status entry] t [[Hi ->] HG]. pose proof (inv_covered _ _ _ _ _ _ Hi) as Hc.
  unfold bt_mesh_va_add. rewrite (bind_ok _ _ _ v0 (mk_va_state w v0 [])) by done. pose proof (va_add_scan_at uuid v0 0 None) as Hs.
  destruct (va_add_scan uuid v0 0 None) as [j|[j|]].
  - destruct Hs as (_ & old & Ej & Hold). rewrite Nat.sub_0_r in Ej. pose proof (list_lookup_total_correct _ _ _ Ej) as Eo.
    intros E. assert (Va.virtual_addrs t = alter (fun va => va <| va_changed := true |>) j (alter (fun va => set_ref (va_ref va + 1) va) j v0) /\ entry = Some j) as [-> ->].
    { unfold va_store, schedule in E. destruct (k_settings acfg); injection E as _ <- <-; done. }
    split; [|done]. destruct (Hc j) as (Hb & _). unfold ref_of in Hb. rewrite Eo in Hb. assert (j < length v0)%nat as Hj by (by eapply lookup_lt_Some).
    eapply inv_weaken; [done| |done|eapply (inv_replace B x v0 K c v0 _ j old (set_ref (va_ref old + 1) old <| va_changed := true |>)); [done..| |]].
    + intros i. cbn [snd]. unfold credit, is_label. case_decide as H1.
      * injection H1 as ->. rewrite decide_True by done. change (va_ref (set_ref (va_ref old + 1) old <| va_changed := true |>)) with ((va_ref old + 1) mod 2 ^ 15). rewrite Z.mod_small by lia. lia.
      * rewrite decide_False by congruence. lia.
    + intros i. rewrite va_alter by (by rewrite length_alter). rewrite va_alter by done. case_decide as Hd; [subst i|done]. by rewrite Eo.
    + left. split; [done|]. split; [|done]. change (va_ref (set_ref (va_ref old + 1) old <| va_changed := true |>)) with ((va_ref old + 1) mod 2 ^ 15). by rewrite Z.mod_small by lia.
  - destruct Hs as [?|(_ & old & Ej & Hold)]; [done|]. rewrite Nat.sub_0_r in Ej. pose proof (list_lookup_total_correct _ _ _ Ej) as Eo.
    assert (j < length v0)%nat as Hj by (by eapply lookup_lt_Some).
    rewrite (bind_ok _ _ _ () (mk_va_state w (alter (fun va => va <| va_uuid := uuid |>) j v0) [])) by done.
    unfold mbind at 1, M_bind at 1, attempt, Va.in_crypto. cbn [va_crypto]. destruct (bt_mesh_virtual_addr uuid w) as [[addr|e|] w'] eqn:Ea; [| |done].
    + intros E. assert (Va.virtual_addrs t = alter (fun va => va <| va_changed := true |>) j (alter (fun va => set_ref 1 (va <| va_addr := addr |>)) j (alter (fun va => va <| va_uuid := uuid |>) j v0)) /\ entry = Some j) as [-> ->].
      { unfold va_store, schedule in E. destruct (k_settings acfg); injection E as _ <- <-; done. }
      split; [|done]. eapply inv_weaken; [done| |done|eapply (inv_replace B x v0 K c v0 _ j old (mk_va 1 true addr uuid)); [done..| |]].
      * intros i. cbn [va_ref snd]. unfold credit, is_label. case_decide as H1; [injection H1 as ->; rewrite decide_True by done; lia|]. rewrite decide_False by congruence. lia.
      * intros i. rewrite va_alter by (by rewrite !length_alter). rewrite va_alter by (by rewrite length_alter). rewrite va_alter by done. by case_decide.
      * right. split; [done|]. split; [left; split; [done|by eapply virtual_addr_virtual]|]. unfold ref_of. rewrite Eo. lia.
    + intros E. assert (Va.virtual_addrs t = alter (fun va => va <| va_addr := BT_MESH_ADDR_UNASSIGNED |>) j (alter (fun va => va <| va_uuid := uuid |>) j v0) /\ entry = None) as [-> ->].
      { injection E as _ <- <-. done. }
      split; [|done]. eapply inv_weaken; [done| |done|eapply (inv_replace B x v0 K c v0 _ j old (mk_va 0 (va_changed old) 0 uuid)); [done..| |]].
      * intros i. cbn [va_ref snd]. unfold credit, is_label. rewrite Hold, decide_False by done. case_decide; lia.
      * intros i. rewrite va_alter by (by rewrite length_alter). rewrite va_alter by done. case_decide as Hd; [subst i|done]. rewrite Eo. destruct old as [r ch ad uu]. simpl in Hold. by subst r.
      * right. split; [done|]. split; [by right|]. unfold ref_of. rewrite Eo. lia.
  - intros [= _ <- <-]. split; [|done]. eapply (inv_weaken B _ x _ _ K); [lia| |done|done]. intros i. unfold credit, is_label. cbn [snd]. rewrite decide_False by done. lia.
Qed.

(** What [K] may look at. *)
Definition key_view (m : bt_mesh_model) : list Z * option (Z * Z) := (m_keys m, (fun p => (p_addr p, p_key p)) <$> m_pub m).
Definition label_view (m : bt_mesh_model) : list (option nat) * option (Z * option nat) :=
  (m_uuids m, (fun p => (p_addr p, p_uuid p)) <$> m_pub m).
Definition looks_at_keys (K : mod_ref -> bt_mesh_model -> Prop) : Prop := forall r m m', key_view m' = key_view m -> K r m -> K r m'.

Lemma use_view m m' i : label_view m' = label_view m -> use m' i = use m i.
Proof.
  unfold label_view, use, pub_use. intros [= -> Ep]. destruct (m_pub m) as [p|], (m_pub m') as [p'|]; cbn in Ep; try done.
  by injection Ep as -> ->.
Qed.

(** A change that concerns neither labels nor keys. *)
Definition neutral (f : bt_mesh_model -> bt_mesh_model) : Prop := forall m, label_view (f m) = label_view m /\ key_view (f m) = key_view m.

Lemma hoare_neutral B x v0 K (G : bt_mesh_comp -> Prop) r f : looks_at_keys K -> neutral f -> (forall c, G c -> G (set_model r f c)) ->
  hoare (X := X) (W := W) (fun c v => inv B x v0 K c v /\ G c) (on_model r f) (fun _ c v => inv B x v0 K c v /\ G c).
Proof.
  intros HK Hf HG. apply hoare_on_model; [|done]. intros c Hc. destruct (Hf (model_at r c)) as [Hl Hk].
  split; [intros i; rewrite (use_view _ _ i Hl); lia|]. split; [by apply HK|by apply HG].
Qed.

Lemma leaves_parts_log o : leaves (X := X) (W := W) parts (log o).
Proof. by apply leaves_log. Qed.

Lemma hoare_store B x v0 K (G : bt_mesh_comp -> Prop) r flag : looks_at_keys K ->
  (forall c f, G c -> G (set_model r (fun m => m <| m_flags ::= f |>) c)) ->
  hoare (X := X) (W := W) (fun c v => inv B x v0 K c v /\ G c) (mod_flag_store flag r) (fun _ c v => inv B x v0 K c v /\ G c).
Proof.
  intros HK HG. unfold mod_flag_store. eapply hoare_seq; [apply hoare_neutral; [exact HK|by intros m|intros c Hc; by apply HG]|].
  intros ?. apply hoare_leaves, leaves_parts_log.
Qed.

Lemma hoare_if_store B x v0 K (G : bt_mesh_comp -> Prop) r (b : bool) flag : looks_at_keys K ->
  (forall c f, G c -> G (set_model r (fun m => m <| m_flags ::= f |>) c)) ->
  hoare (X := X) (W := W) (fun c v => inv B x v0 K c v /\ G c) (when b (mod_flag_store flag r)) (fun _ c v => inv B x v0 K c v /\ G c).
Proof. intros HK HG. apply hoare_when; [|done]. intros _. by apply hoare_store. Qed.

Lemma hoare_foreach {A} P (f : A -> M st unit) l : (forall a, hoare P (f a) (fun _ => P)) -> hoare P (foreach f l) (fun _ => P).
Proof. intros Hf. induction l as [|a l IH]; [apply (hoare_done (fun _ => P))|]. cbn [foreach]. eapply hoare_seq; [apply Hf|]. intros ?. exact IH. Qed.

Lemma hoare_walk {A} (J : A -> bt_mesh_comp -> list bt_mesh_va -> Prop) (cb : mod_ref -> A -> M st (bool * A)) r a :
  (forall r a, hoare (J a) (cb r a) (fun res => J res.2)) -> hoare (J a) (bt_mesh_model_extensions_walk acfg r cb a) J.
Proof.
  intros Hcb. assert (forall start n it a, hoare (J a) (walk_loop cb start n it a) J) as Hloop.
  { intros start. induction n as [|n IH]; intros it a'; cbn [walk_loop]; [by intros s b s' _|].
    eapply hoare_seq; [apply hoare_leaves, leaves_checked|]. intros x. destruct (decide _); [apply hoare_done|].
    eapply hoare_seq; [apply Hcb|]. intros [stop a1]. cbn [snd]. destruct stop; [apply hoare_done|].
    eapply hoare_seq; [apply hoare_leaves, leaves_gets|]. intros m. apply IH. }
  unfold bt_mesh_model_extensions_walk. eapply hoare_seq; [apply Hcb|]. intros [stop a1]. cbn [snd]. destruct (negb _); [apply hoare_done|].
  eapply hoare_seq; [apply hoare_leaves, leaves_gets|]. intros m. destruct stop; [apply hoare_done|]. destruct (m_next m); [|apply hoare_done].
  eapply hoare_seq; [apply hoare_leaves, leaves_gets|]. intros c. apply Hloop.
Qed.

Lemma hoare_find P get r : hoare (X := X) (W := W) P (bt_mesh_model_extensions_walk acfg r (find_visitor get) (None, r))
  (fun res c v => P c v /\ forall k, res.1 = Some k -> get (model_at res.2 c) = Some k).
Proof.
  eapply hoare_pre; [eapply (hoare_walk (fun res c v => P c v /\ forall k, res.1 = Some k -> get (model_at res.2 c) = Some k))|by intros c v HP].
  intros x a. unfold find_visitor. eapply hoare_seq; [apply hoare_model|]. intros m. eapply hoare_seq; [apply hoare_leaves, leaves_gets|].
  intros m0. cbv beta. destruct (negb _).
  - eapply hoare_pre; [apply (hoare_done (fun res c v => P c v /\ _))|]. by intros c v [H1 _].
  - destruct (get m) as [k|] eqn:Eg.
    + eapply hoare_pre; [apply (hoare_done (fun res c v => P c v /\ _))|]. cbn. intros c v [[H1 _] <-]. split; [done|]. by intros k' [= <-].
    + eapply hoare_pre; [apply (hoare_done (fun res c v => P c v /\ _))|]. cbn. intros c v [[H1 _] _]. done.
Qed.

End Primitives.

(** * What is done with a model *)

Section Actions.

Context {X W : Type} `{MeshCrypto W}.
Context (acfg : access_cfg) (env : trans_env).
Notation st := (access X W).
(** The keys that the node has or has had. *)
Context (had : list app_key) (Hhad : forall k, bt_mesh_app_key_exists k (te_apps env) = true -> bt_mesh_app_key_exists k had = true).
Context (B : Z) (HB : B < 2 ^ 15) (v0 : list bt_mesh_va).

Definition good_keys (r : mod_ref) (m : bt_mesh_model) : Prop := keys_ok had m.
Definition zero (i : nat) : Z := 0.
Definition INV (x : nat -> Z) (G : bt_mesh_comp -> Prop) (c : bt_mesh_comp) (v : list bt_mesh_va) : Prop := inv B x v0 good_keys c v /\ G c.
Definition any (c : bt_mesh_comp) : Prop := True.

Lemma good_looks : looks_at_keys good_keys.
Proof.
  intros r m m' [= Ek Ep] [Hk Hp]. split; [by rewrite Ek|]. intros p' E' Ha. rewrite E' in Ep. destruct (m_pub m) as [p|] eqn:E; [|done].
  injection Ep as Ea Eq. rewrite Ek, Eq in *. apply Hp; [done|]. by rewrite <-Ea.
Qed.
Hint Resolve good_looks : core.

Lemma INV_more x x' G G' c v : (forall i, x' i <= x i) -> (forall c, G c -> G' c) -> INV x G c v -> INV x' G' c v.
Proof. intros Hx HG [Hi Hc]. split; [|by apply HG]. by eapply inv_weaken; [done|exact Hx| |exact Hi]. Qed.

Lemma do_store x G r b flag : (forall c f, G c -> G (set_model r (fun m => m <| m_flags ::= f |>) c)) ->
  hoare (X := X) (W := W) (INV x G) (when b (mod_flag_store flag r)) (fun _ => INV x G).
Proof. intros HG. by apply hoare_if_store. Qed.

Lemma do_log P b o : hoare (X := X) (W := W) P (when b (log o)) (fun _ => P).
Proof. apply hoare_leaves. destruct b; [apply leaves_parts_log|apply leaves_ret]. Qed.

Lemma do_group x (G : bt_mesh_comp -> Prop) r k a : (forall c, G c -> G (set_model r (fun m => m <| m_groups ::= <[k := a]> |>) c)) ->
  hoare (X := X) (W := W) (INV x G) (set_group r k a) (fun _ => INV x G).
Proof. intros HG. apply hoare_neutral; [done|by intros m|done]. Qed.

(** The label of an entry is dropped: the model no longer uses it. *)
Lemma do_drop x r k u : hoare (X := X) (W := W) (INV x (fun c => m_uuids (model_at r c) !! k = Some (Some u)))
  (set_uuid r k None) (fun _ => INV (fun i => x i + is_label i (Some u)) any).
Proof.
  apply hoare_on_model; [|done]. intros c Hk. split; [|split; [|done]].
  - intros i. unfold use. change (m_uuids (_ <| m_uuids ::= <[k := None]> |>)) with (<[k := None]> (m_uuids (model_at r c))).
    change (m_pub (_ <| m_uuids ::= <[k := None]> |>)) with (m_pub (model_at r c)). rewrite (labels_of_insert _ _ _ None i Hk).
    change (is_label i None) with 0. lia.
  - by apply good_looks.
Qed.

Lemma do_take x G r k u : hoare (X := X) (W := W) (INV (fun i => x i + is_label i u) G) (set_uuid r k u) (fun _ => INV x any).
Proof.
  apply hoare_on_model; [|done]. intros c Hk. split; [|split; [|done]].
  - intros i. unfold use. change (m_uuids (_ <| m_uuids ::= <[k := u]> |>)) with (<[k := u]> (m_uuids (model_at r c))).
    change (m_pub (_ <| m_uuids ::= <[k := u]> |>)) with (m_pub (model_at r c)). pose proof (labels_of_insert_le (m_uuids (model_at r c)) k u i). lia.
  - by apply good_looks.
Qed.

Lemma do_va_del x G u : hoare (X := X) (W := W) (INV x G) (va_del acfg u) (fun _ => INV (fun i => x i - is_label i u) G).
Proof. by apply hoare_va_del. Qed.

Lemma clear_ok x r : hoare (X := X) (W := W) (INV x any) (mod_sub_list_clear acfg r) (fun _ => INV x any).
Proof.
  unfold mod_sub_list_clear. eapply hoare_seq; [apply hoare_leaves, leaves_gets|]. intros m. cbv beta.
  eapply hoare_seq; [apply hoare_neutral; [done|by intros m'|done]|]. intros ?.
  eapply hoare_seq; [|intros ?; apply (hoare_done (fun _ => INV x any))]. apply hoare_foreach. intros k.
  eapply hoare_seq; [apply hoare_model|]. intros m'.
  destruct (m_uuids m' !! k) as [[u|]|] eqn:Ek; [|eapply hoare_pre; [apply (hoare_done (fun _ => INV x any))|by intros c v [? _]]..].
  eapply hoare_seq.
  - eapply hoare_pre; [apply (do_va_del x (fun c => m_uuids (model_at r c) !! k = Some (Some u)))|]. intros c v [[Hi _] <-]. by split.
  - intros ?. eapply hoare_conseq; [apply do_drop|done|]. intros ? c v. apply INV_more; [|done]. intros i. lia.
Qed.

Lemma clear_all_ok x r : hoare (X := X) (W := W) (INV x any) (bt_mesh_model_extensions_walk acfg r (mod_sub_clear_visitor acfg) ())
  (fun _ => INV x any).
Proof.
  apply (hoare_walk acfg (fun _ => INV x any)). intros y a. unfold mod_sub_clear_visitor. eapply hoare_seq; [apply hoare_leaves, leaves_gets|]. intros m.
  eapply hoare_seq; [apply do_log|]. intros ?. eapply hoare_seq; [apply clear_ok|]. intros ?. apply (hoare_done (fun _ => INV x any)).
Qed.

(** ** Subscriptions *)

Notation OK := (fun _ => INV zero any).

Lemma ret_ok {A} (a : A) P : (forall c v, P c v -> INV zero any c v) -> hoare (X := X) (W := W) P (mret a) OK.
Proof. intros HP. eapply hoare_pre; [apply (hoare_done OK)|done]. Qed.

Lemma find_group_ok P r addr : hoare (X := X) (W := W) P (bt_mesh_model_find_group acfg r addr) (fun _ => P).
Proof. eapply hoare_conseq; [apply hoare_find|done|]. by intros res c v [HP _]. Qed.

Lemma sub_add_to_ok r a : hoare (X := X) (W := W) (INV zero any) (sub_add_to acfg r a) OK.
Proof.
  unfold sub_add_to. eapply hoare_seq; [apply find_group_ok|]. intros [[k|] x]; [by apply ret_ok|].
  eapply hoare_seq; [apply find_group_ok|]. intros [[k|] y]; [|by apply ret_ok].
  eapply hoare_seq; [by apply do_group|]. intros ?. eapply hoare_seq; [by apply do_store|]. intros ?.
  eapply hoare_seq; [apply do_log|]. intros ?. by apply ret_ok.
Qed.

Lemma sub_del_from_ok r a : hoare (X := X) (W := W) (INV zero any) (sub_del_from acfg r a) OK.
Proof.
  unfold sub_del_from. eapply hoare_seq; [apply do_log|]. intros ?. eapply hoare_seq; [apply find_group_ok|]. intros [[k|] x]; [|by apply ret_ok].
  eapply hoare_seq; [by apply do_group|]. intros ?. eapply hoare_seq; [by apply do_store|]. intros ?. by apply ret_ok.
Qed.

Lemma sub_overwrite_ok r a : hoare (X := X) (W := W) (INV zero any) (sub_overwrite_with acfg r a) OK.
Proof.
  unfold sub_overwrite_with. eapply hoare_seq; [apply hoare_leaves, leaves_gets|]. intros m. destruct (0 <? _); [|by apply ret_ok].
  eapply hoare_seq; [apply clear_all_ok|]. intros ?. eapply hoare_seq; [by apply do_group|]. intros ?.
  eapply hoare_seq; [by apply do_store|]. intros ?. eapply hoare_seq; [apply do_log|]. intros ?. by apply ret_ok.
Qed.

Lemma sub_clear_ok r : hoare (X := X) (W := W) (INV zero any) (sub_clear acfg r) OK.
Proof.
  unfold sub_clear. eapply hoare_seq; [apply clear_all_ok|]. intros ?. eapply hoare_seq; [by apply do_store|]. intros ?. by apply ret_ok.
Qed.

(** A label that was added and is given back, or taken by a model. *)
Lemma give_back u : hoare (X := X) (W := W) (INV (fun i => zero i + credit u i) any) (va_del acfg u) OK.
Proof. eapply hoare_conseq; [apply do_va_del|done|]. intros ? c v. apply INV_more; [|done]. intros i. unfold credit. lia. Qed.

Lemma alone_ok P va : hoare (X := X) (W := W) P (lpn_alone acfg va) (fun _ => P).
Proof.
  apply hoare_leaves. unfold lpn_alone, va_collision_check. destruct (_ && _); [|apply leaves_ret].
  apply leaves_bind; [apply leaves_bind; [apply leaves_gets|intros ?; apply leaves_checked]|intros ?; apply leaves_ret].
Qed.

Lemma keep_more u c v : INV (fun i => zero i + credit u i) any c v -> INV zero any c v.
Proof. apply INV_more; [|done]. intros i. unfold credit. pose proof (is_label_nonneg i u). lia. Qed.

Lemma sub_va_del_ok r uuid : hoare (X := X) (W := W) (INV zero any) (sub_va_del_from acfg r uuid) OK.
Proof.
  unfold sub_va_del_from. eapply hoare_seq; [apply hoare_leaves, leaves_gets|]. intros vas. destruct (bt_mesh_va_find vas uuid) as [i|]; [|by apply ret_ok].
  eapply hoare_seq; [apply hoare_leaves, leaves_gets|]. intros va. eapply hoare_seq; [apply alone_ok|]. intros alone.
  eapply hoare_seq; [apply do_log|]. intros ?. eapply hoare_seq; [apply hoare_find|]. intros [[k|] x]; cbn [fst snd].
  2: { apply ret_ok. by intros c v [Hi _]. }
  eapply hoare_pre with (P := INV zero (fun c => m_uuids (model_at x c) !! k = Some (Some i))).
  2: { intros c v [[Hi _] Hk]. split; [done|]. specialize (Hk k eq_refl). unfold model_uuid_get in Hk.
       match type of Hk with scan ?g ?ll 0 = _ => pose proof (scan_spec g ll 0) as Hs end. rewrite Hk in Hs.
       destruct Hs as (j & u & -> & Hj & Hu). apply andb_true_iff in Hu as [Hu%bool_decide_eq_true _]. by rewrite Nat.add_0_l, Hj, Hu. }
  eapply hoare_seq; [apply hoare_leaves, leaves_gets|]. intros m.
  assert (forall g b c, m_uuids (model_at x c) !! k = Some (Some i) -> m_uuids (model_at x (set_model x (fun m => m <| m_groups ::= <[g := b]> |>) c)) !! k = Some (Some i)) as Hkeep.
  { intros g b c Hc. destruct (decide (x ∈ comp_refs c)) as [Hx|Hx]; [by rewrite model_at_set, decide_True by done|by rewrite set_outside]. }
  eapply hoare_seq with (Q := fun _ => INV zero (fun c => m_uuids (model_at x c) !! k = Some (Some i))).
  { destruct (model_group_get m (va_addr va)) as [g|]; [apply do_group; intros c; apply Hkeep|apply hoare_leaves, leaves_ret]. }
  intros ?. eapply hoare_seq; [apply do_drop|]. intros ?. eapply hoare_seq; [by apply do_store|]. intros ?.
  eapply hoare_seq; [apply hoare_leaves, leaves_gets|]. intros va'. eapply hoare_seq; [apply give_back|]. intros ?. by apply ret_ok.
Qed.

(** The start of a message, in which a label may be added. *)
Definition START (c : bt_mesh_comp) (v : list bt_mesh_va) : Prop := (inv (B - 1) zero v0 good_keys c v /\ v = v0) /\ any c.

Lemma start_INV c v : START c v -> INV zero any c v.
Proof. intros [[Hi _] _]. split; [|done]. by eapply (inv_weaken (B - 1)); [lia| | |exact Hi]. Qed.

Lemma do_va_add uuid : hoare (X := X) (W := W) START (va_add acfg uuid) (fun a => INV (fun i => zero i + credit a.2 i) any).
Proof.
  pose proof (hoare_va_add (X := X) acfg (B - 1) zero v0 good_keys any uuid ltac:(lia)) as Ha.
  eapply hoare_conseq; [exact Ha|done|]. intros a c v. by rewrite Z.sub_add.
Qed.

(** The slot a label is in. *)
Lemma take_slot (a : Z * option nat) : hoare (X := X) (W := W) (INV (fun i => zero i + credit a.2 i) any) (checked a.2)
  (fun i => INV (fun j => zero j + credit (Some i) j) any).
Proof. eapply hoare_conseq; [apply hoare_checked|done|]. intros i c v [Hi E]. by rewrite E in Hi. Qed.

Lemma status_ok (a : Z * option nat) {A} (x : A) : hoare (X := X) (W := W) (INV (fun i => zero i + credit a.2 i) any) (mret x) OK.
Proof. apply ret_ok. apply keep_more. Qed.

Lemma sub_va_add_ok r uuid : hoare (X := X) (W := W) START (sub_va_add_to acfg r uuid) OK.
Proof.
  unfold sub_va_add_to. eapply hoare_seq; [apply do_va_add|]. intros a. destruct a as [status entry] eqn:Ea. destruct (negb _); [apply (status_ok (status, entry))|].
  eapply hoare_seq; [apply (take_slot (status, entry))|]. intros i. eapply hoare_seq; [apply hoare_leaves, leaves_gets|]. intros va.
  eapply hoare_seq; [eapply hoare_conseq; [apply hoare_find|done|by intros res c v [Hi _]; exact Hi]|]. intros [[k|] x].
  { eapply hoare_seq; [apply give_back|]. intros ?. by apply ret_ok. }
  eapply hoare_seq; [eapply hoare_conseq; [apply hoare_find|done|by intros res c v [Hi _]; exact Hi]|]. intros [[k|] y].
  2: { eapply hoare_seq; [apply give_back|]. intros ?. by apply ret_ok. }
  eapply hoare_seq; [apply hoare_leaves, leaves_gets|]. intros m. destruct (model_group_get m _) as [g|].
  2: { eapply hoare_seq; [apply give_back|]. intros ?. by apply ret_ok. }
  eapply hoare_seq; [by apply do_group|]. intros ?. eapply hoare_seq; [apply do_take|]. intros ?.
  eapply hoare_seq; [apply alone_ok|]. intros alone. eapply hoare_seq; [apply do_log|]. intros ?.
  eapply hoare_seq; [by apply do_store|]. intros ?. by apply ret_ok.
Qed.

Lemma sub_va_overwrite_ok r uuid : hoare (X := X) (W := W) START (sub_va_overwrite_with acfg r uuid) OK.
Proof.
  unfold sub_va_overwrite_with. eapply hoare_seq; [apply hoare_leaves, leaves_gets|]. intros m.
  eapply hoare_seq; [apply hoare_leaves, leaves_gets|]. intros vas. destruct (_ || _); [apply ret_ok; apply start_INV|].
  eapply hoare_seq; [apply do_va_add|]. intros a. destruct a as [status entry] eqn:Ea. destruct (negb _); [apply (status_ok (status, entry))|].
  eapply hoare_seq; [apply (take_slot (status, entry))|]. intros i. eapply hoare_seq; [apply clear_all_ok|]. intros ?.
  eapply hoare_seq; [apply hoare_leaves, leaves_gets|]. intros va. eapply hoare_seq; [by apply do_group|]. intros ?.
  eapply hoare_seq; [apply hoare_leaves, leaves_gets|]. intros m'. eapply hoare_seq; [apply hoare_leaves, leaves_checked|]. intros ?.
  eapply hoare_seq; [apply do_take|]. intros ?. eapply hoare_seq; [by apply do_store|]. intros ?.
  eapply hoare_seq; [apply alone_ok|]. intros alone. eapply hoare_seq; [apply do_log|]. intros ?. by apply ret_ok.
Qed.

(** ** Publication *)

Lemma neutral_pub f : (forall p, p_addr (f p) = p_addr p /\ p_uuid (f p) = p_uuid p /\ p_key (f p) = p_key p) ->
  neutral (fun m => m <| m_pub ::= fmap f |>).
Proof.
  intros Hf m. unfold label_view, key_view. cbn. destruct (m_pub m) as [p|]; [|done]. cbn. by destruct (Hf p) as (-> & -> & ->).
Qed.

Lemma do_timer x r t : hoare (X := X) (W := W) (INV x any) (on_pub r (fun p => p <| p_timer := t |>)) (fun _ => INV x any).
Proof. apply hoare_neutral; [done|by apply neutral_pub|done]. Qed.

Lemma pub_store_ok x r (b : bool) : hoare (X := X) (W := W) (INV x any)
  (_ ← when b (bt_mesh_model_pub_store r); mret STATUS_SUCCESS) (fun _ => INV x any).
Proof. eapply hoare_seq; [by apply do_store|]. intros ?. apply (hoare_done (fun _ => INV x any)). Qed.

Definition unassigned (p : bt_mesh_model_pub) : bt_mesh_model_pub :=
  p <| p_addr := BT_MESH_ADDR_UNASSIGNED |> <| p_key := 0 |> <| p_cred := false |> <| p_ttl := 0 |>
    <| p_period := 0 |> <| p_retransmit := 0 |> <| p_count := 0 |> <| p_uuid := None |>.

Lemma use_unassigned m i : use (m <| m_pub ::= fmap unassigned |>) i <= use m i.
Proof.
  unfold use. change (m_uuids (m <| m_pub ::= fmap unassigned |>)) with (m_uuids m).
  change (m_pub (m <| m_pub ::= fmap unassigned |>)) with (unassigned <$> m_pub m). destruct (m_pub m) as [p|]; [|done].
  change (pub_use (unassigned <$> Some p) i) with 0. unfold pub_use. pose proof (is_label_nonneg i (p_uuid p)). destruct (BT_MESH_ADDR_IS_VIRTUAL _); lia.
Qed.

(** A key that is being unbound from [r]. *)
Definition losing (r : mod_ref) (key : Z) (r' : mod_ref) (m : bt_mesh_model) : Prop :=
  if decide (r' = r) then
    Forall (key_ok had) (m_keys m) /\
    forall p, m_pub m = Some p -> p_addr p <> BT_MESH_ADDR_UNASSIGNED -> (p_key p ∈ m_keys m \/ p_key p = key) /\ 0 <= p_key p < 2 ^ 12
  else good_keys r' m.

Lemma losing_looks r key : looks_at_keys (losing r key).
Proof.
  intros r' m m' E. unfold losing. case_decide; [|by apply good_looks]. unfold key_view in E. injection E as Ek Ep. intros [Hk Hp]. split; [by rewrite Ek|].
  intros p' E' Ha. rewrite E' in Ep. destruct (m_pub m) as [p|] eqn:E; [|done]. injection Ep as Ea Eq. rewrite Ek, Eq in *. apply Hp; [done|]. by rewrite <-Ea.
Qed.

Lemma lost r key m : losing r key r m -> (forall p, m_pub m = Some p -> p_addr p = BT_MESH_ADDR_UNASSIGNED \/ p_key p <> key) -> good_keys r m.
Proof.
  unfold losing. rewrite decide_True by done. intros [Hk Hp] Hm. split; [done|]. intros p Ep Ha. destruct (Hp p Ep Ha) as [[H1|H1] H2]; [done|].
  by destruct (Hm p Ep).
Qed.

Lemma do_unassign K r : (forall m, K r m -> Forall (key_ok had) (m_keys m)) -> (forall r' m, r' <> r -> K r' m -> good_keys r' m) ->
  hoare (X := X) (W := W) (fun c v => inv B zero v0 K c v /\ any c) (on_pub r unassigned) OK.
Proof.
  intros Hr Ho. apply hoare_on_model; [|done]. intros c _. split; [|split; [|done]].
  - intros i. unfold zero. pose proof (use_unassigned (model_at r c) i). lia.
  - intros HK. split; [exact (Hr _ HK)|]. intros p. cbn. destruct (m_pub (model_at r c)) as [q|]; [|done]. by intros [= <-] ?.
Qed.

Lemma if_timer_ok x r (b : bool) : hoare (X := X) (W := W) (INV x any) (when b (on_pub r (fun p => p <| p_timer := None |>))) (fun _ => INV x any).
Proof. apply hoare_when; [|done]. intros _. apply do_timer. Qed.

Lemma pub_unset_ok r key pub store : hoare (X := X) (W := W)
  (fun c v => inv B zero v0 (losing r key) c v /\ m_pub (model_at r c) = Some pub /\ p_key pub = key)
  (_mod_pub_set acfg env r BT_MESH_ADDR_UNASSIGNED None 0 0 0 0 0 store) OK.
Proof.
  unfold _mod_pub_set. eapply hoare_seq; [apply hoare_model|]. intros m. cbv beta.
  intros s a s' [(Hi & Hp & Hk) Em]. rewrite Em in Hp. rewrite Hp. change (negb (0 =? 0)) with false. rewrite !andb_false_r, Z.eqb_refl.
  destruct (Z.eqb_spec (p_addr pub) BT_MESH_ADDR_UNASSIGNED) as [E0|E0].
  - intros [= _ <-]. split; [|done]. eapply inv_weaken; [done|done| |exact Hi]. intros r' _ Hr'.
    destruct (decide (r' = r)) as [->|Hd]; [|unfold losing in Hr'; by rewrite decide_False in Hr'].
    eapply lost; [exact Hr'|]. intros p Ep. rewrite Em, Hp in Ep. injection Ep as <-. by left.
  - revert s a s' Hi Em. assert (hoare (X := X) (W := W) (fun c v => inv B zero v0 (losing r key) c v /\ any c)
      (_ ← on_pub r unassigned; _ ← when (p_update pub) (on_pub r (fun p => p <| p_timer := None |>)); _ ← when (k_settings acfg && store) (bt_mesh_model_pub_store r); mret STATUS_SUCCESS) OK) as Hh.
    { eapply hoare_seq.
      - apply do_unassign.
        + intros m'. unfold losing. rewrite decide_True by done. by intros [? _].
        + intros r' m' Hr'. unfold losing. by rewrite decide_False.
      - intros ?. eapply hoare_seq; [apply if_timer_ok|]. intros ?. apply pub_store_ok. }
    intros s a s' Hi Em. apply Hh. by split.
Qed.

Definition published (addr : Z) (uuid : option nat) (app_idx cred_flag ttl period retransmit : Z) (p : bt_mesh_model_pub) : bt_mesh_model_pub :=
  p <| p_addr := addr |> <| p_key := app_idx mod 2 ^ 12 |> <| p_cred := negb (cred_flag mod 2 =? 0) |> <| p_ttl := ttl |>
    <| p_period := period |> <| p_retransmit := retransmit |> <| p_uuid := uuid |>.

Lemma do_publish x r m addr uuid app_idx cred_flag ttl period retransmit : 0 <= app_idx < 2 ^ 12 -> bt_mesh_model_has_key m app_idx = true ->
  hoare (X := X) (W := W) (INV (fun i => x i + is_label i uuid - pub_use (m_pub m) i) (fun c => model_at r c = m))
    (on_pub r (published addr uuid app_idx cred_flag ttl period retransmit)) (fun _ => INV x any).
Proof.
  intros Ha Hk. apply hoare_on_model; [|done]. intros c ->. split; [|split; [|done]].
  - intros i. unfold use. change (m_uuids (m <| m_pub ::= fmap (published addr uuid app_idx cred_flag ttl period retransmit) |>)) with (m_uuids m).
    change (m_pub (m <| m_pub ::= fmap (published addr uuid app_idx cred_flag ttl period retransmit) |>))
      with (published addr uuid app_idx cred_flag ttl period retransmit <$> m_pub m).
    pose proof (is_label_nonneg i uuid). destruct (m_pub m) as [p|]; [|cbn [fmap option_fmap option_map pub_use]; lia].
    assert (pub_use (published addr uuid app_idx cred_flag ttl period retransmit <$> Some p) i <= is_label i uuid); [|lia].
    change (pub_use (published addr uuid app_idx cred_flag ttl period retransmit <$> Some p) i) with (if BT_MESH_ADDR_IS_VIRTUAL addr then is_label i uuid else 0).
    destruct (BT_MESH_ADDR_IS_VIRTUAL addr); lia.
  - intros [Hks Hp]. split; [exact Hks|]. intros q Eq _. change (published addr uuid app_idx cred_flag ttl period retransmit <$> m_pub m = Some q) in Eq.
    apply fmap_Some in Eq as (p & _ & ->). change (m_keys (_ <| m_pub ::= _ |>)) with (m_keys m).
    change (p_key (published addr uuid app_idx cred_flag ttl period retransmit p)) with (app_idx mod 2 ^ 12). rewrite Z.mod_small by done. split; [|done].
    apply has_key_spec in Hk as [Hk|[_ Hk]]; [done|]. exfalso. assert (app_idx < 2 ^ 12) as Hlt by lia. destruct Hk as [->| ->]; done.
Qed.

Lemma pub_set_ok r addr uuid app_idx cred_flag ttl period retransmit store : 0 <= app_idx < 2 ^ 12 ->
  hoare (X := X) (W := W) (INV (fun i => zero i + credit uuid i) any) (_mod_pub_set acfg env r addr uuid app_idx cred_flag ttl period retransmit store)
    (fun status => INV (fun i => zero i + if status =? STATUS_SUCCESS then 0 else credit uuid i) any).
Proof.
  intros Ha. unfold _mod_pub_set. eapply hoare_seq; [apply hoare_model|]. intros m. cbv beta.
  assert (forall status, status =? STATUS_SUCCESS = false -> hoare (X := X) (W := W) (fun c v => INV (fun i => zero i + credit uuid i) any c v /\ model_at r c = m) (mret status)
    (fun status => INV (fun i => zero i + if status =? STATUS_SUCCESS then 0 else credit uuid i) any)) as Hrefuse.
  { intros status Hs. eapply hoare_conseq; [apply (hoare_done (fun a c v => a =? STATUS_SUCCESS = false /\ INV (fun i => zero i + credit uuid i) any c v))| |].
    - intros c v [Hi _]. by split.
    - intros a c v [-> Hi]. done. }
  assert (hoare (X := X) (W := W) (INV zero any) (mret STATUS_SUCCESS) (fun status => INV (fun i => zero i + if status =? STATUS_SUCCESS then 0 else credit uuid i) any)) as Hok.
  { eapply hoare_conseq; [apply (hoare_done (fun a c v => a = STATUS_SUCCESS /\ INV zero any c v))|by intros c v Hi|].
    intros b c v [-> Hi]. eapply INV_more; [|done|exact Hi]. done. }
  destruct (m_pub m) as [pub|] eqn:Ep; [|by apply Hrefuse]. destruct (_ && _); [by apply Hrefuse|]. destruct (_ && _); [by apply Hrefuse|].
  destruct (addr =? BT_MESH_ADDR_UNASSIGNED).
  - destruct (p_addr pub =? BT_MESH_ADDR_UNASSIGNED).
    { eapply hoare_pre; [apply Hok|]. intros c v [Hi _]. by apply keep_more in Hi. }
    eapply hoare_pre; [|intros c v [Hi _]; exact (keep_more _ _ _ Hi)].
    eapply hoare_seq; [apply (do_unassign good_keys); [by intros m' [? _]|done]|]. intros ?.
    eapply hoare_seq; [apply if_timer_ok|]. intros ?. eapply hoare_seq; [by apply do_store|]. intros ?. exact Hok.
  - destruct (negb _ || negb _) eqn:Ek; [by apply Hrefuse|]. apply orb_false_iff in Ek as [_ Ek%negb_false_iff].
    eapply hoare_seq with (Q := fun _ => INV (fun i => zero i + is_label i uuid - pub_use (m_pub m) i) (fun c => model_at r c = m)).
    + eapply hoare_pre with (P := INV (fun i => zero i + is_label i uuid) (fun c => model_at r c = m)); [|by intros c v [[Hi _] Hm]; split].
      rewrite Ep. cbn [pub_use]. apply hoare_when; intros ->; [apply do_va_del|]. intros c v. apply INV_more; [|done]. intros i. lia.
    + intros ?. eapply hoare_seq; [by apply (do_publish zero r m addr uuid app_idx cred_flag ttl period retransmit)|]. intros ?.
      eapply hoare_seq with (Q := OK); [|intros ?; eapply hoare_seq; [by apply do_store|]; intros ?; exact Hok]. apply hoare_when; [|done]. intros _.
      eapply hoare_seq; [apply hoare_leaves, leaves_gets|]. intros m'. cbv zeta. destruct (0 <? _); apply do_timer.
Qed.

(** ** Keys *)

Lemma elem_insert {A} (l : list A) k old new x : x ∈ l -> l !! k = Some old -> x <> old -> x ∈ <[k := new]> l.
Proof.
  intros [j Hj]%list_elem_of_lookup_1 Hk Hx. apply (list_elem_of_lookup_2 _ j). rewrite list_lookup_insert_ne; [done|]. intros ->. congruence.
Qed.

Lemma mod_bind_ok r key : hoare (X := X) (W := W) (INV zero any) (mod_bind acfg env r key) OK.
Proof.
  unfold mod_bind. eapply hoare_seq; [apply hoare_model|]. intros m. unfold app_key_exists. destruct (negb _) eqn:Ek; [apply ret_ok; by intros c v [? _]|].
  apply negb_false_iff in Ek. destruct (scan _ (m_keys m) 0); [apply ret_ok; by intros c v [? _]|].
  pose proof (scan_spec (fun k => k =? BT_MESH_KEY_UNUSED) (m_keys m) 0) as Hs. destruct (scan _ (m_keys m) 0) as [k|]; [|apply ret_ok; by intros c v [? _]].
  destruct Hs as (j & old & -> & Hj & ->%Z.eqb_eq). rewrite Nat.add_0_l.
  eapply hoare_seq with (Q := OK); [|intros ?; eapply hoare_seq; [by apply do_store|]; intros ?; by apply ret_ok].
  eapply hoare_pre with (P := INV zero (fun c => model_at r c = m)); [|by intros c v [[Hi _] Hm]; split].
  apply hoare_on_model; [|done]. intros c ->. split; [intros i; change (0 <= 0 + use m i - use m i); lia|]. split; [|done].
  intros [Hks Hp]. split; [apply Forall_insert; [done|right; right; right; by apply Hhad]|]. intros p Hpm Hpa. destruct (Hp p Hpm Hpa) as [Hin Hr]. split; [|done].
  eapply elem_insert; [done|done|]. assert (p_key p < 2 ^ 12) as Hlt by lia. by intros E; rewrite E in Hlt.
Qed.

Lemma unbind_entry_ok r key store k : hoare (X := X) (W := W) (INV zero any) (unbind_entry acfg env r key store k) OK.
Proof.
  unfold unbind_entry. eapply hoare_seq; [apply hoare_model|]. intros m. cbv beta. destruct (Z.eqb_spec (m_keys m !!! k) key) as [Ek|Ek]; cbn [negb];
    [|apply ret_ok; by intros c v [? _]].
  eapply hoare_seq with (Q := fun _ c v => inv B zero v0 (losing r key) c v /\ m_pub (model_at r c) = m_pub m).
  { eapply hoare_pre with (P := fun c v => inv B zero v0 good_keys c v /\ model_at r c = m); [|by intros c v [[Hi _] Hm]; split].
    apply hoare_on_model.
    - intros c Em. split; [intros i; rewrite Em; change (0 <= 0 + use m i - use m i); lia|]. rewrite Em. split.
      + unfold losing. rewrite decide_True by done. intros [Hks Hp]. split; [apply Forall_insert; [done|by left]|].
        intros p Hpm Hpa. destruct (Hp p Hpm Hpa) as [Hin Hr]. split; [|done].
        destruct (decide (p_key p = key)) as [|Hne]; [by right|left]. change (m_keys (m <| m_keys ::= <[k:=BT_MESH_KEY_UNUSED]> |>)) with (<[k:=BT_MESH_KEY_UNUSED]> (m_keys m)).
        destruct (m_keys m !! k) as [old|] eqn:El; [|by rewrite list_insert_ge by (by apply lookup_ge_None)].
        eapply elem_insert; [done|done|]. rewrite (list_lookup_total_correct _ _ _ El) in Ek. congruence.
      + destruct (decide (r ∈ comp_refs c)) as [Hr|Hr]; [rewrite model_at_set, decide_True by done; by rewrite Em|by rewrite set_outside, Em].
    - intros r' m' Hr'. unfold losing. by rewrite decide_False. }
  intros ?. eapply hoare_seq.
  { apply (hoare_if_store B zero v0 (losing r key) (fun c => m_pub (model_at r c) = m_pub m)); [apply losing_looks|].
    intros c f Hc. destruct (decide (r ∈ comp_refs c)) as [Hr|Hr]; [by rewrite model_at_set, decide_True by done|by rewrite set_outside]. }
  intros ?. cbv beta. assert (forall P : Prop, (forall p, m_pub m = Some p -> p_addr p = BT_MESH_ADDR_UNASSIGNED \/ p_key p <> key) ->
    hoare (X := X) (W := W) (fun c v => inv B zero v0 (losing r key) c v /\ m_pub (model_at r c) = m_pub m) (mret ()) OK) as Hkeep.
  { intros _ Hm. apply ret_ok. intros c v [Hi Hp]. split; [|done]. eapply inv_weaken; [done|done| |exact Hi]. intros r' _ Hr'.
    destruct (decide (r' = r)) as [->|Hd]; [|unfold losing in Hr'; by rewrite decide_False in Hr']. eapply lost; [exact Hr'|]. by rewrite Hp. }
  destruct (m_pub m) as [pub|] eqn:Ep; [|by apply (Hkeep True)]. destruct (Z.eqb_spec (p_key pub) key) as [E|E].
  - eapply hoare_seq; [eapply hoare_pre; [apply (pub_unset_ok r key pub store)|]|intros ?; by apply ret_ok]. by intros c v [Hi Hp].
  - apply (Hkeep True). intros p [= <-]. by right.
Qed.

Lemma mod_unbind_ok r key store : hoare (X := X) (W := W) (INV zero any) (mod_unbind acfg env r key store) OK.
Proof.
  unfold mod_unbind. eapply hoare_seq; [apply hoare_leaves, leaves_gets|]. intros m. destruct (negb _); [by apply ret_ok|].
  eapply hoare_seq; [apply hoare_foreach; intros k; apply unbind_entry_ok|]. intros ?. by apply ret_ok.
Qed.

End Actions.
