(* ===== verification/CfgSrvSafe.v ===== *)
(** What holds of the models of a node whatever a Configuration Client sends: no model ever
    uses a label whose slot was released, and a model publishes only with a key that is
    bound to it and that the node has or has had. *)

From S2P Require Import Prelude Byteorder BufSimple MeshDefs CryptoIf Crypto Va Subnet Net AppKeys AppOps Transport.
From S2P Require Import Access AccessFrame AccessExt AccessRecv AccessStore CfgSrv CfgSrvInv.

(** * Messages *)

Section Messages.

Context {X W : Type} `{MeshCrypto W}.
Context (cfg : net_cfg) (tcfg : trans_cfg) (acfg : access_cfg) (env : trans_env).
Notation st := (access X W).
Context (had : list app_key) (Hhad : forall k, bt_mesh_app_key_exists k (te_apps env) = true -> bt_mesh_app_key_exists k had = true).
Context (B : Z) (HB : B < 2 ^ 15) (v0 : list bt_mesh_va).

Notation GOOD := (INV had B v0 zero any).
Notation START := (START had B v0).

Lemma leaves_respond r ctx msg : leaves (X := X) (W := W) parts (respond cfg tcfg acfg env r ctx msg).
Proof.
  apply leaves_bind; [|intros ?; apply leaves_ret]. apply leaves_attempt. by apply leaves_model_send.
Qed.

Lemma leaves_add_from msg data n : leaves (X := X) (W := W) parts (add_from msg data n).
Proof. apply leaves_bind; [apply leaves_checked|intros ?; apply leaves_checked]. Qed.

Lemma leaves_find_mod elem_addr buf : leaves (X := X) (W := W) parts (find_mod elem_addr buf).
Proof.
  unfold find_mod, get_model. apply leaves_bind; [apply leaves_gets|]. intros c. destruct (bt_mesh_elem_find c elem_addr); [|apply leaves_ret].
  apply leaves_bind; [|intros [? ?]; apply leaves_ret]. apply leaves_bind; [apply leaves_gets|]. intros c'. destruct (_ <? _).
  - apply leaves_bind; [apply leaves_checked|]. intros [id ?]. apply leaves_ret.
  - apply leaves_bind; [apply leaves_checked|]. intros [company b]. apply leaves_bind; [apply leaves_checked|]. intros [id ?]. apply leaves_ret.
Qed.

Lemma leaves_sub_status r ctx status elem addr id vnd : leaves (X := X) (W := W) parts (send_mod_sub_status cfg tcfg acfg env r ctx status elem addr id vnd).
Proof.
  unfold send_mod_sub_status, add_mod_id. repeat (apply leaves_bind; [apply leaves_checked || apply leaves_add_from|intros ?]). apply leaves_respond.
Qed.

Lemma leaves_pub_status r ctx elem addr vnd m status id : leaves (X := X) (W := W) parts (send_mod_pub_status cfg tcfg acfg env r ctx elem addr vnd m status id).
Proof.
  unfold send_mod_pub_status, add_mod_id, pub_of, model. do 3 (apply leaves_bind; [apply leaves_checked|intros ?]).
  apply leaves_bind; [|intros ?; apply leaves_bind; [apply leaves_add_from|intros ?; apply leaves_respond]].
  destruct (negb _); [apply leaves_checked|]. apply leaves_bind; [apply leaves_checked|]. intros x.
  apply leaves_bind; [apply leaves_bind; [apply leaves_gets|intros ?; apply leaves_checked]|]. intros ?.
  repeat (apply leaves_bind; [apply leaves_checked|intros ?]). apply leaves_checked.
Qed.

Lemma leaves_app_status msg vnd elem app status id : leaves (X := X) (W := W) parts (create_mod_app_status msg vnd elem app status id).
Proof. unfold create_mod_app_status, add_mod_id. do 4 (apply leaves_bind; [apply leaves_checked|intros ?]). apply leaves_add_from. Qed.

Lemma leaves_sub_list l msg : leaves (X := X) (W := W) parts (sub_list_loop l msg).
Proof.
  revert msg. induction l as [|g l IH]; intros msg; cbn [sub_list_loop]; [apply leaves_ret|]. destruct (_ =? _); [apply IH|].
  destruct (_ <? _); [apply leaves_ret|]. apply leaves_bind; [apply leaves_checked|]. intros b. apply IH.
Qed.

Lemma leaves_send_list op r ctx addr id m : leaves (X := X) (W := W) parts (send_sub_list cfg tcfg acfg env op r ctx addr id m).
Proof.
  unfold send_sub_list. cbv zeta. do 3 (apply leaves_bind; [apply leaves_checked|intros ?]). apply leaves_bind; [|intros ?; apply leaves_respond].
  destruct m as [x|]; [|apply leaves_ret]. apply leaves_bind; [apply leaves_gets|]. intros y. apply leaves_extensions. intros r' b.
  unfold mod_sub_list_visitor. apply leaves_bind; [apply leaves_gets|]. intros z. destruct (negb _); [apply leaves_ret|apply leaves_sub_list].
Qed.

(** A part that changes nothing here. *)
Ltac idle := eapply hoare_seq; [apply hoare_leaves; first [apply leaves_checked | apply leaves_gets | apply leaves_find_mod]|intros ?; cbv beta].

Lemma finish P (m : M st Z) : leaves parts m -> (forall c v, P c v -> GOOD c v) -> hoare P m (fun _ => GOOD).
Proof. intros Hm HP. eapply hoare_pre; [by apply hoare_leaves|done]. Qed.

Lemma sub_group_ok act r ctx buf : (forall m a, hoare (X := X) (W := W) GOOD (act m a) (fun _ => GOOD)) ->
  hoare (X := X) (W := W) START (sub_group_handler cfg tcfg acfg env act r ctx buf) (fun _ => GOOD).
Proof.
  intros Hact. eapply hoare_pre; [|apply start_INV; lia]. unfold sub_group_handler. destruct (_ && _); [by apply finish; [apply leaves_ret|]|].
  idle. destruct a as [elem b]. destruct (negb _); [by apply finish; [apply leaves_ret|]|]. idle. destruct a as [addr b']. idle. destruct a as [found vnd].
  eapply hoare_seq with (Q := fun _ => GOOD); [|intros ?; apply finish; [apply leaves_sub_status|done]].
  destruct found; [|by apply finish; [apply leaves_ret|]]. destruct (_ && _); [by apply finish; [apply leaves_ret|]|apply Hact].
Qed.

Lemma sub_va_ok act r ctx buf : (forall m u, hoare (X := X) (W := W) START (act m u) (fun _ => GOOD)) ->
  hoare (X := X) (W := W) START (sub_va_handler cfg tcfg acfg env act r ctx buf) (fun _ => GOOD).
Proof.
  intros Hact. unfold sub_va_handler. destruct (_ && _); [by apply finish; [apply leaves_ret|apply start_INV; lia]|].
  idle. destruct a as [elem b]. destruct (negb _); [by apply finish; [apply leaves_ret|apply start_INV; lia]|]. idle. destruct a as [uuid b']. idle. destruct a as [found vnd].
  eapply hoare_seq with (Q := fun _ => GOOD); [|intros [status addr]; apply finish; [apply leaves_sub_status|done]].
  destruct found; [apply Hact|]. eapply hoare_pre; [apply (hoare_done (fun _ => GOOD))|apply start_INV; lia].
Qed.

Lemma app_bind_ok act note r ctx buf : (forall m k, hoare (X := X) (W := W) GOOD (act m k) (fun _ => GOOD)) ->
  hoare (X := X) (W := W) START (app_bind_handler cfg tcfg acfg env act note r ctx buf) (fun _ => GOOD).
Proof.
  intros Hact. eapply hoare_pre; [|apply start_INV; lia]. unfold app_bind_handler. destruct (_ && _); [by apply finish; [apply leaves_ret|]|].
  idle. destruct a as [elem b]. destruct (negb _); [by apply finish; [apply leaves_ret|]|]. idle. destruct a as [key b']. idle. destruct a as [found vnd].
  eapply hoare_seq with (Q := fun _ => GOOD).
  - destruct found; [|by apply finish; [apply leaves_ret|]]. eapply hoare_seq; [apply Hact|]. intros status.
    eapply hoare_seq; [apply do_log|]. intros ?. by apply finish; [apply leaves_ret|].
  - intros status. eapply hoare_seq; [apply hoare_leaves, leaves_app_status|]. intros msg. apply finish; [apply leaves_respond|done].
Qed.

Lemma leaves_app_get r ctx buf : leaves (X := X) (W := W) parts (mod_app_get cfg tcfg acfg env r ctx buf).
Proof.
  unfold mod_app_get, add_mod_id. destruct (_ && _); [apply leaves_ret|]. apply leaves_bind; [apply leaves_checked|]. intros [elem b].
  destruct (negb _); [apply leaves_ret|]. apply leaves_bind; [apply leaves_find_mod|]. intros [found vnd]. cbv zeta.
  do 3 (apply leaves_bind; [apply leaves_checked|intros ?]). apply leaves_bind; [apply leaves_add_from|]. intros msg.
  apply leaves_bind; [|intros ?; apply leaves_respond]. destruct found; [|apply leaves_ret].
  apply leaves_bind; [apply leaves_gets|intros ?; apply leaves_checked].
Qed.

Lemma land_mask x n : 0 <= n -> 0 <= Z.land x (BIT_MASK n) < 2 ^ n.
Proof. intros Hn. unfold BIT_MASK. rewrite Z.land_ones by done. apply Z.mod_pos_bound. lia. Qed.

Lemma pub_set_msg_ok r ctx buf : hoare (X := X) (W := W) START (mod_pub_set cfg tcfg acfg env r ctx buf) (fun _ => GOOD).
Proof.
  eapply hoare_pre; [|apply start_INV; lia]. unfold mod_pub_set. destruct (_ && _); [by apply finish; [apply leaves_ret|]|].
  idle. destruct a as [elem b]. destruct (negb _); [by apply finish; [apply leaves_ret|]|]. idle. destruct a as [addr b1]. idle. destruct a as [word b2].
  cbv zeta. idle. destruct a as [ttl b3]. destruct (negb _); [by apply finish; [apply leaves_ret|]|]. idle. destruct a as [period b4].
  idle. destruct a as [retransmit b5]. idle. destruct a as [found vnd].
  eapply hoare_seq with (Q := fun _ => GOOD); [|intros ?; apply finish; [apply leaves_pub_status|done]].
  destruct found; [|by apply finish; [apply leaves_ret|]].
  eapply hoare_conseq; [apply (pub_set_ok acfg env had B HB v0 m addr None)| |].
  - apply land_mask. lia.
  - intros c v. by apply INV_more.
  - intros a c v. apply INV_more; [|done]. intros i. destruct (_ =? _); unfold zero, credit, is_label; rewrite ?decide_False by done; lia.
Qed.

Lemma pub_va_set_ok r ctx buf : hoare (X := X) (W := W) START (mod_pub_va_set cfg tcfg acfg env r ctx buf) (fun _ => GOOD).
Proof.
  assert (forall c v, START c v -> GOOD c v) as Hs by (apply start_INV; lia).
  unfold mod_pub_va_set. destruct (_ && _); [by apply finish; [apply leaves_ret|]|].
  idle. destruct a as [elem b]. destruct (negb _); [by apply finish; [apply leaves_ret|]|]. idle. destruct a as [uuid b1]. idle. destruct a as [word b2].
  cbv zeta. idle. destruct a as [ttl b3]. destruct (negb _); [by apply finish; [apply leaves_ret|]|]. idle. destruct a as [period b4].
  idle. destruct a as [retransmit b5]. idle. destruct a as [found vnd].
  eapply hoare_seq with (Q := fun _ => GOOD); [|intros [? ?]; apply finish; [apply leaves_pub_status|done]].
  destruct found as [m|]; [|by eapply hoare_pre; [apply (hoare_done (fun _ => GOOD))|]].
  eapply hoare_seq; [apply do_va_add; lia|]. intros [status entry]. destruct (negb _); [apply (status_ok had B v0 (status, entry))|].
  eapply hoare_seq; [apply (take_slot had B v0 (status, entry))|]. intros i. idle.
  eapply hoare_seq; [apply pub_set_ok; [done|apply land_mask; lia]|]. intros st'. cbv beta.
  eapply hoare_seq with (Q := fun _ => GOOD); [|intros ?; apply (hoare_done (fun _ => GOOD))].
  apply hoare_when; intros E.
  - apply negb_true_iff in E. rewrite E. by apply give_back.
  - apply negb_false_iff in E. rewrite E. intros c v. apply INV_more; [|done]. intros j. unfold zero. lia.
Qed.

(** Every handler keeps the invariant. *)
Lemma handler_ok op len h r ctx buf : (op, len, h) ∈ cfg_mod_op cfg tcfg acfg env ->
  hoare (X := X) (W := W) START (h r ctx buf) (fun _ => GOOD).
Proof.
  assert (forall m : M st Z, leaves parts m -> hoare START m (fun _ => GOOD)) as Hidle by (intros m Hm; apply finish; [done|apply start_INV; lia]).
  unfold cfg_mod_op. rewrite !elem_of_cons, elem_of_nil.
  intros [[= _ _ ->]|[[= _ _ ->]|[[= _ _ ->]|[[= _ _ ->]|[[= _ _ ->]|[[= _ _ ->]|[[= _ _ ->]|[[= _ _ ->]|[[= _ _ ->]|[[= _ _ ->]|[[= _ _ ->]|[[= _ _ ->]|[[= _ _ ->]|[[= _ _ ->]|[[= _ _ ->]|[[= _ _ ->]|[]]]]]]]]]]]]]]]]].
  - apply Hidle. unfold mod_pub_get. destruct (_ && _); [apply leaves_ret|]. apply leaves_bind; [apply leaves_checked|]. intros [elem b].
    destruct (negb _); [apply leaves_ret|]. apply leaves_bind; [apply leaves_find_mod|]. intros [found vnd]. apply leaves_bind; [|intros [? ?]; apply leaves_pub_status].
    destruct found; [|apply leaves_ret]. apply leaves_bind; [apply leaves_gets|intros ?; apply leaves_ret].
  - apply pub_set_msg_ok.
  - apply pub_va_set_ok.
  - apply sub_group_ok. intros m a. by apply sub_add_to_ok.
  - apply sub_va_ok. intros m u. by apply sub_va_add_ok.
  - apply sub_group_ok. intros m a. by apply sub_del_from_ok.
  - apply sub_va_ok. intros m u. eapply hoare_pre; [by apply sub_va_del_ok|apply start_INV; lia].
  - apply sub_group_ok. intros m a. by apply sub_overwrite_ok.
  - apply sub_va_ok. intros m u. by apply sub_va_overwrite_ok.
  - eapply hoare_pre; [|apply start_INV; lia]. unfold mod_sub_del_all. destruct (_ && _); [by apply finish; [apply leaves_ret|]|].
    idle. destruct a as [elem b]. destruct (negb _); [by apply finish; [apply leaves_ret|]|]. idle. destruct a as [found vnd].
    eapply hoare_seq with (Q := fun _ => GOOD); [|intros ?; apply finish; [apply leaves_sub_status|done]].
    destruct found; [by apply sub_clear_ok|by apply finish; [apply leaves_ret|]].
  - apply Hidle. unfold mod_sub_get. apply leaves_bind; [apply leaves_checked|]. intros [addr b]. destruct (negb _); [apply leaves_ret|].
    apply leaves_bind; [apply leaves_checked|]. intros [id b']. apply leaves_bind; [apply leaves_gets|]. intros c. apply leaves_send_list.
  - apply Hidle. unfold mod_sub_get_vnd. apply leaves_bind; [apply leaves_checked|]. intros [addr b]. destruct (negb _); [apply leaves_ret|].
    apply leaves_bind; [apply leaves_checked|]. intros [company b']. apply leaves_bind; [apply leaves_checked|]. intros [id b2].
    apply leaves_bind; [apply leaves_gets|]. intros c. apply leaves_send_list.
  - apply app_bind_ok. intros m k. unfold bind_key. idle. destruct (negb _); [by apply finish; [apply leaves_ret|]|by apply mod_bind_ok].
  - apply app_bind_ok. intros m k. by apply mod_unbind_ok.
  - apply Hidle. by apply leaves_app_get.
  - apply Hidle. by apply leaves_app_get.
Qed.

End Messages.

(** * A key that is deleted *)

Section Deleted.

Context {X W : Type} `{MeshCrypto W}.
Context (acfg : access_cfg) (env : trans_env).
Notation st := (access X W).

(** The keys of model [r]. *)
Definition keys_of (r : mod_ref) (s : st) : list Z := m_keys (model_at r (a_comp s)).

Lemma keys_of_set r r' f s : (r' = r -> forall m, m_keys (f m) = m_keys m) -> keys_of r' (s <| a_comp ::= set_model r f |>) = keys_of r' s.
Proof.
  intros Hf. unfold keys_of. change (a_comp (s <| a_comp ::= set_model r f |>)) with (set_model r f (a_comp s)).
  destruct (decide (r ∈ comp_refs (a_comp s))) as [Hr|Hr]; [|by rewrite set_outside]. rewrite model_at_set by done. case_decide; [by rewrite Hf|done].
Qed.

Lemma leaves_on_model r r' f : (r' = r -> forall m, m_keys (f m) = m_keys m) -> leaves (keys_of r') (on_model (X := X) (W := W) r f).
Proof. intros Hf s. by apply keys_of_set. Qed.

Lemma leaves_when {T} (g : st -> T) b (m : M st unit) : leaves g m -> leaves g (when b m).
Proof. intros Hm. destruct b; [done|apply leaves_ret]. Qed.

Lemma leaves_va_del r u : leaves (keys_of r) (va_del (X := X) (W := W) acfg u).
Proof.
  apply leaves_bind; [|intros ?; apply leaves_ret]. intros s. unfold in_va. by destruct (bt_mesh_va_del _ _ _) as [o t].
Qed.

Lemma leaves_keys_store r r' flag : leaves (keys_of r') (mod_flag_store (X := X) (W := W) flag r).
Proof. apply leaves_bind; [by apply leaves_on_model|intros ?; by apply leaves_log]. Qed.

(** What setting the publication of [r] leaves alone: what its callees leave alone. *)
Lemma leaves_pub_set {T} (g : st -> T) r addr uuid app_idx cred ttl period retransmit store :
  (forall f, leaves g (on_pub r f)) -> (forall u, leaves g (va_del acfg u)) -> leaves g (mod_flag_store BT_MESH_MOD_PUB_PENDING r) ->
  leaves g (_mod_pub_set (X := X) (W := W) acfg env r addr uuid app_idx cred ttl period retransmit store).
Proof.
  intros Hp Hv Hst. unfold _mod_pub_set. apply leaves_bind; [apply leaves_gets|]. intros m. destruct (m_pub m); [|apply leaves_ret].
  do 2 (destruct (_ && _); [apply leaves_ret|]). destruct (_ =? _).
  - destruct (_ =? _); [apply leaves_ret|]. apply leaves_bind; [apply Hp|]. intros ?.
    apply leaves_bind; [apply leaves_when, Hp|]. intros ?. apply leaves_bind; [apply leaves_when, Hst|intros ?; apply leaves_ret].
  - destruct (_ || _); [apply leaves_ret|]. apply leaves_bind; [apply leaves_when, Hv|]. intros ?.
    apply leaves_bind; [apply Hp|]. intros ?. apply leaves_bind.
    + apply leaves_when, leaves_bind; [apply leaves_gets|]. intros m'. cbv zeta. destruct (0 <? _); apply Hp.
    + intros ?. apply leaves_bind; [apply leaves_when, Hst|intros ?; apply leaves_ret].
Qed.

Lemma leaves_keys_pub r r' addr uuid app_idx cred ttl period retransmit store :
  leaves (keys_of r') (_mod_pub_set (X := X) (W := W) acfg env r addr uuid app_idx cred ttl period retransmit store).
Proof. apply leaves_pub_set; [intros f; by apply leaves_on_model|apply leaves_va_del|apply leaves_keys_store]. Qed.

(** The models themselves stay. *)
Definition refs_of (s : st) : list mod_ref := comp_refs (a_comp s).
Lemma leaves_refs r f : leaves refs_of (on_model (X := X) (W := W) r f).
Proof. intros s. apply comp_refs_set. Qed.

Lemma leaves_refs_unbind key r : leaves refs_of (mod_app_key_del (X := X) (W := W) acfg env key r).
Proof.
  assert (forall flag, leaves refs_of (mod_flag_store (X := X) (W := W) flag r)) as Hst.
  { intros flag. apply leaves_bind; [apply leaves_refs|intros ?; by apply leaves_log]. }
  apply leaves_bind; [|intros ?; apply leaves_ret]. apply leaves_bind; [apply leaves_gets|]. intros m. destruct (negb _); [apply leaves_ret|].
  apply leaves_bind; [|intros ?; apply leaves_ret]. generalize (List.seq 0 (length (m_keys m))). intros l.
  induction l as [|k l IH]; [apply leaves_ret|]. cbn [foreach]. apply leaves_bind; [|intros ?; exact IH].
  unfold unbind_entry. apply leaves_bind; [apply leaves_gets|]. intros m'. destruct (negb _); [apply leaves_ret|].
  apply leaves_bind; [apply leaves_refs|]. intros ?. apply leaves_bind; [apply leaves_when, Hst|]. intros ?.
  destruct (m_pub m'); [|apply leaves_ret]. destruct (_ =? _); [|apply leaves_ret]. apply leaves_bind; [|intros ?; apply leaves_ret].
  apply leaves_pub_set; [intros f; apply leaves_refs| |apply Hst]. intros u.
  apply leaves_bind; [|intros ?; apply leaves_ret]. intros s. unfold in_va. by destruct (bt_mesh_va_del _ _ _) as [o t].
Qed.

(** One entry. *)
Lemma unbind_entry_keys r key store k s a s' : unbind_entry (X := X) (W := W) acfg env r key store k s = (Ok a, s') ->
  (forall r', r' <> r -> keys_of r' s' = keys_of r' s) /\
  keys_of r s' = if keys_of r s !!! k =? key then <[k := BT_MESH_KEY_UNUSED]> (keys_of r s) else keys_of r s.
Proof.
  unfold unbind_entry. rewrite (bind_ok _ _ s (model_at r (a_comp s)) s) by done. change (m_keys (model_at r (a_comp s))) with (keys_of r s).
  destruct (Z.eqb_spec (keys_of r s !!! k) key) as [E|E]; cbn [negb]; [|by intros [= _ <-]].
  set (f := fun m => m <| m_keys ::= <[k := BT_MESH_KEY_UNUSED]> |>). rewrite (bind_ok _ _ s () (s <| a_comp ::= set_model r f |>)) by done.
  set (s1 := s <| a_comp ::= set_model r f |>). set (rest := _ ← when _ _; _). intros Er.
  assert (forall r', keys_of r' s' = keys_of r' s1) as Hrest.
  { intros r'. assert (leaves (keys_of r') rest) as Hl; [|specialize (Hl s1); by rewrite Er in Hl].
    apply leaves_bind; [apply leaves_when, leaves_keys_store|]. intros ?. destruct (m_pub _); [|apply leaves_ret]. destruct (_ =? _); [|apply leaves_ret].
    apply leaves_bind; [apply leaves_keys_pub|intros ?; apply leaves_ret]. }
  split; [intros r' Hr'; rewrite Hrest; by apply keys_of_set|]. rewrite Hrest. unfold s1, keys_of.
  change (a_comp (s <| a_comp ::= set_model r f |>)) with (set_model r f (a_comp s)).
  destruct (decide (r ∈ comp_refs (a_comp s))) as [Hr|Hr]; [by rewrite model_at_set, decide_True by done|]. rewrite set_outside, model_outside by done. done.
Qed.

(** No entry from [i] on is forgotten. *)
Lemma unbind_loop_keys r key store : key <> BT_MESH_KEY_UNUSED -> forall n i s a s',
  foreach (unbind_entry (X := X) (W := W) acfg env r key store) (List.seq i n) s = (Ok a, s') ->
  (forall r', r' <> r -> keys_of r' s' = keys_of r' s) /\ length (keys_of r s') = length (keys_of r s) /\
  (forall j x, keys_of r s' !! j = Some x -> x = BT_MESH_KEY_UNUSED \/ keys_of r s !! j = Some x /\ ((i <= j < i + n)%nat -> x <> key)).
Proof.
  intros Hkey. induction n as [|n IH]; intros i s a s'; cbn [foreach List.seq].
  { intros [= _ <-]. split; [done|]. split; [done|]. intros j x Hx. right. split; [done|lia]. }
  destruct (unbind_entry acfg env r key store i s) as [[[]|e|] s1] eqn:E1; [|unfold mbind, M_bind; by rewrite E1..].
  rewrite (bind_ok _ _ _ _ _ E1). intros E2. destruct (unbind_entry_keys _ _ _ _ _ _ _ E1) as [Ho1 H1].
  destruct (IH _ _ _ _ E2) as (Ho2 & Hl2 & H2). split; [intros r' Hr'; by rewrite Ho2, Ho1|]. split.
  { rewrite Hl2, H1. destruct (_ =? key); [apply length_insert|done]. }
  intros j x Hx. destruct (H2 j x Hx) as [?|[Hx1 Hn]]; [by left|]. rewrite H1 in Hx1.
  destruct (Z.eqb_spec (keys_of r s !!! i) key) as [Ek|Ek].
  - destruct (decide (j = i)) as [->|Hj].
    + left. destruct (decide (i < length (keys_of r s))%nat) as [Hi|Hi].
      * rewrite list_lookup_insert_eq in Hx1 by done. by injection Hx1.
      * rewrite lookup_ge_None_2 in Hx1 by (rewrite length_insert; lia). done.
    + rewrite list_lookup_insert_ne in Hx1 by done. right. split; [done|]. intros Hb. apply Hn. lia.
  - right. split; [done|]. intros Hb. destruct (decide (j = i)) as [->|Hj]; [|apply Hn; lia].
    rewrite (list_lookup_total_correct _ _ _ Hx1) in Ek. done.
Qed.

(** The handler of the event would unbind the key from every model; but no handler of the
    event is ever called (see the finding on [STRUCT_SECTION_FOREACH]). *)
Lemma deleted_everywhere key : key <> BT_MESH_KEY_UNUSED -> app_key_exists env key = true -> forall l s a s',
  foreach (mod_app_key_del (X := X) (W := W) acfg env key) l s = (Ok a, s') ->
  (forall r, r ∈ l -> key ∉ keys_of r s') /\ (forall r, key ∉ keys_of r s -> key ∉ keys_of r s') /\ refs_of s' = refs_of s.
Proof.
  intros Hkey Hex. induction l as [|r l IH]; intros s a s'; cbn [foreach].
  { intros [= _ <-]. split; [by intros r ?%elem_of_nil|done]. }
  intros E. apply bind_inv in E as ([] & s1 & E0 & E2). pose proof (leaves_refs_unbind key r s) as Hrefs. rewrite E0 in Hrefs. apply bind_inv in E0 as (status & s2 & E0 & [= ->]).
  unfold mod_unbind in E0. rewrite Hex in E0. cbn [negb] in E0. apply bind_inv in E0 as (m & s0 & [= <- <-] & E0).
  apply bind_inv in E0 as ([] & s3 & E1 & [= _ ->]). change (m_keys (model_at r (a_comp s))) with (keys_of r s) in E1.
  destruct (unbind_loop_keys _ _ _ Hkey _ _ _ _ _ E1) as (Ho & Hl & H1). destruct (IH _ _ _ E2) as (H2 & H3 & H4).
  assert (key ∉ keys_of r s1) as Hr.
  { intros [j Hj]%list_elem_of_lookup_1. destruct (H1 j key Hj) as [?|[Hj' Hn]]; [done|]. apply Hn; [|done]. pose proof (lookup_lt_Some _ _ _ Hj'). lia. }
  split; [|split; [|by rewrite H4]].
  - intros r' [->|Hr']%elem_of_cons; [by apply H3|by apply H2].
  - intros r' Hr'. apply H3. destruct (decide (r' = r)) as [->|Hd]; [done|by rewrite Ho].
Qed.

End Deleted.

(** * Runs *)

Section Runs.

Context {X W : Type} `{MeshCrypto W}.
Context (cfg : net_cfg) (tcfg : trans_cfg) (acfg : access_cfg).
Notation st := (access X W).

(** What happens on a node, with its application keys before and after: a message to the
    server, the reset of the models; and what other parts do, which leaves the models and
    labels alone and may add and delete keys.  That a key is deleted leaves the models alone
    too, as [app_key_evt] of [app_keys.c] calls nobody. *)
Inductive cfg_step : list app_key -> st -> list app_key -> st -> Prop :=
| cfg_message env op len h r ctx buf s err s' : (op, len, h) ∈ cfg_mod_op cfg tcfg acfg env -> h r ctx buf s = (Ok err, s') ->
    cfg_step (te_apps env) s (te_apps env) s'
| cfg_reset env reset s s' : (forall r, leaves parts (reset r)) -> bt_mesh_model_reset acfg reset s = (Ok (), s') ->
    cfg_step (te_apps env) s (te_apps env) s'
| cfg_other l l' s s' : parts s' = parts s -> cfg_step l s l' s'.

(** A run through the keys and states of a list. *)
Inductive cfg_run : list (list app_key * st) -> list app_key -> st -> list app_key -> st -> Prop :=
| cfg_run_end l s : cfg_run [(l, s)] l s l s
| cfg_run_step path l s l1 s1 l' s' : cfg_step l s l1 s1 -> cfg_run path l1 s1 l' s' -> cfg_run ((l, s) :: path) l s l' s'.

Definition sound (B : Z) (l : list app_key) (s : st) : Prop :=
  covered B zero (a_comp s) (a_vas s) /\ forall r, r ∈ comp_refs (a_comp s) -> keys_ok l (model_at r (a_comp s)).

Lemma key_ok_more l l' k : (bt_mesh_app_key_exists k l = true -> bt_mesh_app_key_exists k l' = true) -> key_ok l k -> key_ok l' k.
Proof. intros Hl [?|[?|[?|?]]]; [by left|by right; left|by right; right; left|right; right; right; by apply Hl]. Qed.
Lemma sound_more B l l' s : (forall k, bt_mesh_app_key_exists k l = true -> bt_mesh_app_key_exists k l' = true) -> sound B l s -> sound B l' s.
Proof.
  intros Hl [Hc Hk]. split; [done|]. intros r Hr. destruct (Hk r Hr) as [H1 H2]. split; [|done]. eapply Forall_impl; [exact H1|]. intros k. apply key_ok_more, Hl.
Qed.

(** An operation that starts with the invariant and keeps it. *)
Lemma sound_hoare {A} had B (m : M st A) s a s' : sound B had s ->
  hoare (X := X) (W := W) (START had (B + 1) (a_vas s)) m (fun _ => INV had (B + 1) (a_vas s) zero any) -> m s = (Ok a, s') ->
  sound (B + 1) had s' /\ unchanged (a_vas s) (a_vas s').
Proof.
  intros [Hc Hk] Hm E. destruct (Hm s a s') as [Hi _]; [|exact E|by destruct Hi].
  split; [split; [|done]|done]. rewrite Z.add_simpl_r. by split.
Qed.

(** The keys [had] are those of now, and more. *)
Lemma sound_step had B l s l' s' : B + 1 < 2 ^ 15 -> (forall k, bt_mesh_app_key_exists k l = true -> bt_mesh_app_key_exists k had = true) ->
  sound B had s -> cfg_step l s l' s' -> sound (B + 1) had s' /\ unchanged (a_vas s) (a_vas s').
Proof.
  intros HB Hhad Hs Hstep. destruct Hstep as [env op len h r ctx buf s err s' Hin E|env reset s s' Hr E|l l' s s' E].
  - eapply sound_hoare; [done|by eapply handler_ok|exact E].
  - eapply sound_hoare; [done| |exact E]. eapply hoare_pre; [|apply start_INV; lia]. eapply hoare_seq; [apply hoare_leaves, leaves_gets|]. intros c.
    apply hoare_foreach. intros r. unfold mod_reset. eapply hoare_seq; [by apply clear_ok|]. intros n. eapply hoare_seq; [by apply do_store|]. intros ?.
    by apply hoare_leaves.
  - injection E as Ec Ev. destruct Hs as [Hc Hk]. unfold sound. rewrite Ec, Ev. split; [|by intros i].
    split; [|done]. intros i. destruct (Hc i) as (H1 & H2 & H3). split_and!; [lia..|done].
Qed.

(** The keys of all the states of a run. *)
Definition had_in (path : list (list app_key * st)) : list app_key := concat (map fst path).
Lemma exists_app k l l' : bt_mesh_app_key_exists k (l ++ l') = bt_mesh_app_key_exists k l || bt_mesh_app_key_exists k l'.
Proof. apply existsb_app. Qed.
Lemma had_in_exists k path : bt_mesh_app_key_exists k (had_in path) = true -> exists t, t ∈ path /\ bt_mesh_app_key_exists k t.1 = true.
Proof.
  induction path as [|t path IH]; [done|]. unfold had_in. cbn [map concat]. rewrite exists_app. intros [?|Hk]%orb_true_iff; [exists t; split; [by left|done]|].
  destruct (IH Hk) as (u & Hu & ?). exists u. split; [by right|done].
Qed.

Lemma cfg_run_keeps path l s l' s' : cfg_run path l s l' s' -> forall B had, (forall k, bt_mesh_app_key_exists k (had_in path) = true -> bt_mesh_app_key_exists k had = true) ->
  sound B had s -> B + zlen path < 2 ^ 15 ->
  sound (B + zlen path) had s' /\
  forall i, (forall t, t ∈ path -> 0 < uses (a_comp t.2) i) -> content_of (a_vas s') i = content_of (a_vas s) i.
Proof.
  induction 1 as [l s|path l s l1 s1 l' s' Hstep _ IH]; intros B had Hhad Hs HB.
  - split; [|done]. destruct Hs as [Hc Hk]. split; [|done]. intros i. destruct (Hc i) as (H1 & H2 & H3). split_and!; [lia..|done].
  - assert (forall k, bt_mesh_app_key_exists k l = true -> bt_mesh_app_key_exists k had = true) as Hl.
    { intros k Hk. apply Hhad. unfold had_in. cbn [map concat fst]. by rewrite exists_app, Hk. }
    assert (forall k, bt_mesh_app_key_exists k (had_in path) = true -> bt_mesh_app_key_exists k had = true) as Hp.
    { intros k Hk. apply Hhad. unfold had_in in *. cbn [map concat fst]. by rewrite exists_app, Hk, orb_true_r. }
    rewrite length_cons, Nat2Z.inj_succ in HB |- *. destruct (sound_step had B _ _ _ _ ltac:(lia) Hl Hs Hstep) as [Hs1 Hu].
    destruct (IH (B + 1) had Hp Hs1) as [Hs' Hc]; [lia|]. split; [by replace (B + Z.succ (Z.of_nat (length path))) with (B + 1 + Z.of_nat (length path)) by lia|].
    intros i Hi. rewrite Hc by (intros t Ht; apply Hi; by right). apply Hu. destruct Hs as [Hcov _]. destruct (Hcov i) as (_ & H2 & _).
    specialize (Hi (l, s) ltac:(by left)). cbn in Hi. unfold zero in H2. lia.
Qed.


End Runs.
