(* ===== verification/CfgSrvSample.v ===== *)
(** The Configuration Server at work on a node: a run of its messages, to which the theorem of
    [CfgSrvSafe.v] applies, and what the program does on some inputs. *)

From S2P Require Import Prelude Byteorder BufSimple MeshDefs CryptoIf Psa CryptoPsa Crypto Va Subnet NetIv Net.
From S2P Require Import NetSample AppKeys AppOps Transport TransRx TransTx TransSample Cycles Access AccessFrame AccessExt AccessRecv CompData AccessStore AccessSample.
From S2P Require Import CfgSrv CfgSrvInv CfgSrvSafe.

#[local] Existing Instance net_sample_crypto.

Definition cfg_pub : bt_mesh_model_pub := mk_pub 0 None 0 false false false false 0 0 0 0 0 false 0 None false None.
Definition cfg_model (id idx : Z) : bt_mesh_model :=
  mk_model (SigId id) 0 idx 0 None (Some cfg_pub) [0xffff; 0xffff] [0; 0] [None; None] [] None None.
Definition cfg_comp : bt_mesh_comp := mk_comp 0x59 1 2 [mk_elem 9 0x100 [cfg_model 0x1000 0; cfg_model 0x1002 1] []].
Definition cfg_node : sample_state := (sample_access cfg_comp) <| a_vas := replicate 2 (mk_va 0 false 0 (replicate 16 0)) |>.

Definition request (l : list Z) : bt_buf_simple := mk_buf l 0 (zlen l) (zlen l).
Definition request_ctx : bt_mesh_msg_ctx := mk_ctx 0 0xfffd 3 9 None 4 false false 5.
Definition the_env : trans_env := tenv_of 9.

(** The handler for an opcode, called with a message. *)
Definition serve (op : Z) (l : list Z) (s : sample_state) : outcome Z * sample_state :=
  match list_find (fun e => op = e.1.1) (cfg_mod_op plain_cfg sample_tcfg sample_acfg the_env) with
  | Some (_, (_, _, h)) => h mA request_ctx (request l) s
  | None => (Crash, s)
  end.
Definition after (op : Z) (l : list Z) (s : sample_state) : sample_state := (serve op l s).2.

(** ** A run: a key is bound, a label subscribed to twice and published to, the first
    subscription removed, and then the key of the node is deleted. *)

Definition label1 : list Z := replicate 16 7.
Definition s1 := after OP_MOD_APP_BIND [9; 0; 0; 0; 0; 0x10] cfg_node.
Definition s2 := after OP_MOD_SUB_VA_ADD ([9; 0] ++ label1 ++ [0; 0x10]) s1.
Definition s3 := after OP_MOD_PUB_VA_SET ([9; 0] ++ label1 ++ [0; 0; 5; 0; 0; 0; 0x10]) s2.
Definition s4 := after OP_MOD_SUB_VA_ADD ([9; 0] ++ label1 ++ [0x02; 0x10]) s3.
Definition s5 := after OP_MOD_SUB_VA_DEL ([9; 0] ++ label1 ++ [0; 0x10]) s4.

Lemma cfg_refs : comp_refs cfg_comp = [mA; mB].
Proof. done. Qed.

Lemma cfg_node_sound : sound 0 sample_apps cfg_node.
Proof.
  split.
  - intros i. destruct i as [|[|i]]; [by vm_compute..|]. change (a_vas cfg_node) with (replicate 2 (mk_va 0 false 0 (replicate 16 0))).
    unfold ref_of. rewrite list_lookup_total_alt, lookup_ge_None_2 by (simpl; lia). by vm_compute.
  - intros r. change (comp_refs (a_comp cfg_node)) with [mA; mB]. rewrite !elem_of_cons, elem_of_nil.
    intros [->|[->|[]]]; (split; [by repeat constructor; left|by intros p [= <-]]).
Qed.

Lemma cfg_served op l s err s' : serve op l s = (Ok err, s') ->
  cfg_step plain_cfg sample_tcfg sample_acfg sample_apps s sample_apps s'.
Proof.
  unfold serve. destruct (list_find _ _) as [[i [[op' len] h]]|] eqn:E; [|done]. intros Hh.
  apply list_find_Some in E as (E & _). apply (cfg_message plain_cfg sample_tcfg sample_acfg the_env op' len h mA request_ctx (request l) s err s' (list_elem_of_lookup_2 _ _ _ E) Hh).
Qed.

Lemma answered op l s : match (serve op l s).1 with Ok _ => True | _ => False end ->
  cfg_step plain_cfg sample_tcfg sample_acfg sample_apps s sample_apps (after op l s).
Proof. unfold after. destruct (serve op l s) as [[err|e|] s'] eqn:E; [|done|done]. intros _. by eapply cfg_served. Qed.

Lemma answered1 : cfg_step plain_cfg sample_tcfg sample_acfg sample_apps cfg_node sample_apps s1.
Proof. apply answered. by vm_compute. Qed.
Lemma answered2 : cfg_step plain_cfg sample_tcfg sample_acfg sample_apps s1 sample_apps s2.
Proof. apply answered. by vm_compute. Qed.
Lemma answered3 : cfg_step plain_cfg sample_tcfg sample_acfg sample_apps s2 sample_apps s3.
Proof. apply answered. by vm_compute. Qed.
Lemma answered4 : cfg_step plain_cfg sample_tcfg sample_acfg sample_apps s3 sample_apps s4.
Proof. apply answered. by vm_compute. Qed.
Lemma answered5 : cfg_step plain_cfg sample_tcfg sample_acfg sample_apps s4 sample_apps s5.
Proof. apply answered. by vm_compute. Qed.

Lemma cfg_sample_run : cfg_run plain_cfg sample_tcfg sample_acfg (map (pair sample_apps) [cfg_node; s1; s2; s3; s4; s5] ++ [([], s5)]) sample_apps cfg_node [] s5.
Proof.
  eapply cfg_run_step; [exact answered1|]. eapply cfg_run_step; [exact answered2|]. eapply cfg_run_step; [exact answered3|].
  eapply cfg_run_step; [exact answered4|]. eapply cfg_run_step; [exact answered5|].
  eapply cfg_run_step; [by apply (cfg_other _ _ _ _ [])|]. constructor.
Qed.


(** The key is gone, the model still publishes with it; and a request to unbind it is
    refused, as there is no such key. *)
Example deleted_key_stays :
  option_map p_key (m_pub (model_at mA (a_comp s5))) = Some 0 /\ 0 ∈ m_keys (model_at mA (a_comp s5)) /\
  let env := mk_trans_env (env_of 9) (fun _ _ => false) (fun _ _ _ _ _ _ => true) (fun _ => false) false false 0 5 9
               [] (mk_dev_keys 1 None (fun _ => None)) [] 1000 in
  mod_unbind (X := list (Z * mod_ref)) (W := crypto_state psa_store) sample_acfg env mA 0 true s5 = (Ok STATUS_INVALID_APPKEY, s5).
Proof. split; [by vm_compute|]. split; [by vm_compute; left|by vm_compute]. Qed.

(** The slot of the label is used three times, then twice. *)
Example sample_uses : (uses (a_comp s4) 0, uses (a_comp s5) 0, map va_ref (a_vas s4), map va_ref (a_vas s5)) = (3, 2, [3; 0], [2; 0]).
Proof. by vm_compute. Qed.

(** * What the program does with some messages *)

(** Setting the publication to the unassigned address does not release the label: the
    reference stays, and the slot is lost. *)
Example unpublish_leaks_label :
  let s := after OP_MOD_PUB_VA_SET ([9; 0] ++ label1 ++ [0; 0; 5; 0; 0; 0; 0x10]) s1 in
  let s' := after OP_MOD_PUB_SET [9; 0; 0; 0; 0; 0; 0; 0; 0; 0; 0x10] s in
  (m_pub (model_at mA (a_comp s')), uses (a_comp s') 0, map va_ref (a_vas s')) = (Some cfg_pub, 0, [1; 0]).
Proof. by vm_compute. Qed.

(** The same when the key that a model publishes with is unbound. *)
Example unbind_leaks_label :
  let s := after OP_MOD_PUB_VA_SET ([9; 0] ++ label1 ++ [0; 0; 5; 0; 0; 0; 0x10]) s1 in
  let s' := after OP_MOD_APP_UNBIND [9; 0; 0; 0; 0; 0x10] s in
  (m_keys (model_at mA (a_comp s')), m_pub (model_at mA (a_comp s')), map va_ref (a_vas s')) = ([0xffff; 0xffff], Some cfg_pub, [1; 0]).
Proof. by vm_compute. Qed.

(** [mod_pub_set] takes a virtual address, for which it has no label. *)
Example publish_without_label :
  let s := after OP_MOD_PUB_SET [9; 0; 0x01; 0x80; 0; 0; 5; 0; 0; 0; 0x10] s1 in
  option_map (fun p => (p_addr p, p_uuid p)) (m_pub (model_at mA (a_comp s))) = Some (0x8001, None).
Proof. by vm_compute. Qed.

(** With a free slot in the table of the application keys, the index 0xFFFF of a request
    counts as a key that exists, and as one that the model has. *)
Example bind_no_key :
  let env := mk_trans_env (env_of 9) (fun _ _ => false) (fun _ _ _ _ _ _ => true) (fun _ => false) false false 0 5 9
               (sample_apps ++ [mk_app 0xffff 0xffff false (mk_app_cred 0 0) (mk_app_cred 0 0)]) (mk_dev_keys 1 None (fun _ => None)) [] 1000 in
  bind_key (X := list (Z * mod_ref)) (W := crypto_state psa_store) sample_acfg env mA 0xffff cfg_node = (Ok STATUS_SUCCESS, cfg_node) /\
  bind_key (X := list (Z * mod_ref)) (W := crypto_state psa_store) sample_acfg the_env mA 0xffff cfg_node = (Ok STATUS_INVALID_APPKEY, cfg_node).
Proof. by vm_compute. Qed.

(** A Low Power node forgets a group that another model still subscribes to. *)
Definition lpn_acfg : access_cfg := mk_acfg true true false true false true true false false false false false 4 4.
Example lpn_group_forgotten :
  let '(_, s) := (_ ← sub_add_to lpn_acfg mA 0xC001; _ ← sub_add_to lpn_acfg mB 0xC001; sub_del_from lpn_acfg mA 0xC001) cfg_node in
  m_groups (model_at mB (a_comp s)) = [0xC001; 0] /\ a_ext s !! (length (a_ext s) - 2)%nat = Some (AccLpnGroupDel [0xC001]).
Proof. by vm_compute. Qed.
Example lpn_label_forgotten :
  let '(r, s) := (_ ← sub_va_add_to lpn_acfg mB label1; sub_va_del_from lpn_acfg mA label1) cfg_node in
  r = Ok (STATUS_CANNOT_REMOVE, 0) /\ m_uuids (model_at mB (a_comp s)) = [Some 0%nat; None] /\
  last (a_ext s) = Some (AccLpnGroupDel [0xbdbf]).
Proof. by vm_compute. Qed.
