(* ===== verification/Lpn.v ===== *)
(** The Low Power node ([mesh/lpn.c], [mesh/lpn.h]): how a node finds a Friend, polls it,
    and keeps the Friend's subscription list like the groups of its own models.

    The operations run over the transport layer of [Transport.v], with which they send; what
    the lower layers ask of a Low Power node is what its state says ([at_lpn]).  The timer
    [lpn->timer] is an optional delay, in milliseconds; [lpn->sub] is the index of a subnet,
    [None] for [NULL], and to go through a null pointer is a [Crash].  The bit fields over
    the groups are lists of booleans; they are modelled for builds with up to 32 groups, as
    [group_popcount] returns nothing in the others.  A callback of a message that is handed
    to the advertiser is an operation of its own ([friend_req_send_end], [req_send_end],
    [friend_clear_sent]); for a message that stays in the node it runs at the end of the
    sending, as in the program. *)

From S2P Require Import Prelude Byteorder BufSimple MeshDefs CryptoIf Crypto Subnet NetIv Net AppKeys Transport.

(** * Data *)

Inductive lpn_state :=
| BT_MESH_LPN_DISABLED
| BT_MESH_LPN_CLEAR
| BT_MESH_LPN_TIMER
| BT_MESH_LPN_ENABLED
| BT_MESH_LPN_REQ_WAIT
| BT_MESH_LPN_WAIT_OFFER
| BT_MESH_LPN_ESTABLISHED
| BT_MESH_LPN_RECV_DELAY
| BT_MESH_LPN_WAIT_UPDATE.
#[export] Instance lpn_state_eq : EqDecision lpn_state.
Proof. solve_decision. Defined.

(** [struct bt_mesh_lpn] *)
Record bt_mesh_lpn := mk_lpn {
  lp_state : lpn_state;
  xact_next : Z;
  xact_pending : Z;
  sent_req : Z;
  lp_frnd : Z;
  recv_win : Z;
  req_attempts : Z;
  lp_poll_timeout : Z;
  groups_changed : bool;
  pending_poll : bool;
  lp_disable : bool;
  fsn : Z;
  established : bool;
  clear_success : bool;
  lp_queue_size : Z;
  frnd_counter : Z;
  lpn_counter : Z;
  old_friend : Z;
  adv_duration : Z;
  adv_start_time : Z;
  lp_timer : option Z;
  groups : list Z;
  lp_sub : option nat;
  cred0 : bt_mesh_net_cred;
  cred1 : bt_mesh_net_cred;
  added : list bool;
  pending : list bool;
  to_remove : list bool
}.
#[export] Instance eta_lpn : Eta bt_mesh_lpn := fun l =>
  mk_lpn (lp_state l) (xact_next l) (xact_pending l) (sent_req l) (lp_frnd l) (recv_win l) (req_attempts l)
    (lp_poll_timeout l) (groups_changed l) (pending_poll l) (lp_disable l) (fsn l) (established l) (clear_success l)
    (lp_queue_size l) (frnd_counter l) (lpn_counter l) (old_friend l) (adv_duration l) (adv_start_time l) (lp_timer l)
    (groups l) (lp_sub l) (cred0 l) (cred1 l) (added l) (pending l) (to_remove l).

(** Options; times as the options give them. *)
Record lpn_cfg := mk_lpn_cfg {
  k_establishment : bool;        (** [CONFIG_BT_MESH_LPN_ESTABLISHMENT] *)
  k_auto : bool;                 (** [CONFIG_BT_MESH_LPN_AUTO] *)
  k_adv_legacy : bool;           (** [CONFIG_BT_MESH_ADV_LEGACY] *)
  k_callbacks : bool;            (** the application has a [bt_mesh_lpn_cb] with all callbacks *)
  AUTO_TIMEOUT : Z;              (** [CONFIG_BT_MESH_LPN_AUTO_TIMEOUT] *)
  LPN_RECV_DELAY : Z;            (** [CONFIG_BT_MESH_LPN_RECV_DELAY] *)
  LPN_SCAN_LATENCY : Z;          (** [CONFIG_BT_MESH_LPN_SCAN_LATENCY] *)
  LPN_RETRY_TIMEOUT : Z;         (** [CONFIG_BT_MESH_LPN_RETRY_TIMEOUT] *)
  LPN_INIT_POLL_TIMEOUT : Z;     (** [CONFIG_BT_MESH_LPN_INIT_POLL_TIMEOUT] *)
  LPN_POLL_TIMEOUT : Z;          (** [CONFIG_BT_MESH_LPN_POLL_TIMEOUT] *)
  LPN_MIN_QUEUE_SIZE : Z;
  LPN_RSSI_FACTOR : Z;
  LPN_RECV_WIN_FACTOR : Z
}.

(** What the other modules answer. *)
Record lpn_env := mk_lpn_env {
  le_trans : trans_env;
  le_provisioned : bool;         (** [bt_mesh_is_provisioned] *)
  le_elem_count : Z;             (** [bt_mesh_comp_get()->elem_count] *)
  le_ivu_initiator : bool        (** [BT_MESH_IVU_INITIATOR] *)
}.

(** Calls that change nothing here, and the messages that were given to the transport layer:
    opcode, parameters, the error or 0, and whether the message stayed in the node. *)
Inductive lpn_out :=
| CtlSent (op : Z) (data : list Z) (err : Z) (local : bool)
| ScanEnable
| ScanDisable
| HbFeatureChanged
| BeaconIvuInitiator (enable : bool)
| LpnTerminated (net_idx frnd : Z)
| LpnPolled (net_idx frnd : Z) (retry : bool)
| LpnEstablished (net_idx frnd queue_size recv_win : Z).

Record lpn_node (W : Type) := mk_lpn_node {
  l_lpn : bt_mesh_lpn;
  l_trans : trans_node W;
  l_out : list lpn_out
}.
Arguments mk_lpn_node {W}.
Arguments l_lpn {W}.
Arguments l_trans {W}.
Arguments l_out {W}.
#[export] Instance eta_lpn_node {W} : Eta (lpn_node W) := fun s => mk_lpn_node (l_lpn s) (l_trans s) (l_out s).

Definition TRANS_CTL_OP_FRIEND_POLL : Z := 0x01.
Definition TRANS_CTL_OP_FRIEND_REQ : Z := 0x03.
Definition TRANS_CTL_OP_FRIEND_CLEAR : Z := 0x05.
Definition TRANS_CTL_OP_FRIEND_SUB_ADD : Z := 0x07.
Definition TRANS_CTL_OP_FRIEND_SUB_REM : Z := 0x08.

Definition FRIEND_REQ_WAIT : Z := 100.
Definition FRIEND_REQ_SCAN : Z := 1 * 1000.
Definition FRIEND_REQ_TIMEOUT : Z := FRIEND_REQ_WAIT + FRIEND_REQ_SCAN.
Definition POLL_RETRY_TIMEOUT : Z := 100.
Definition REQ_ATTEMPTS_MAX : Z := 6.
Definition CLEAR_ATTEMPTS : Z := 3.
Definition BT_MESH_TRANSMIT (count int_ms : Z) : Z := u8 (Z.lor count (Z.shiftl (int_ms / 10 - 1) 3)).
Definition POLL_XMIT : Z := BT_MESH_TRANSMIT 0 20.
(** The room for addresses in a [struct bt_mesh_ctl_friend_sub]. *)
Definition ADDR_LIST_SIZE : Z := 5.

(** The callbacks of the messages. *)
Definition friend_req_send_cb : send_cb := mk_cb 0 true true.
Definition req_send_cb : send_cb := mk_cb 1 true true.
Definition clear_sent_cb : send_cb := mk_cb 2 false true.

(** * Functions of the state *)

Section Timing.

Context (lcfg : lpn_cfg).

Definition RX_DELAY_CORRECTION (l : bt_mesh_lpn) : Z := if k_adv_legacy lcfg then adv_duration l else 0.
Definition LPN_AUTO_TIMEOUT : Z := if k_auto lcfg then AUTO_TIMEOUT lcfg * 1000 else 0.
Definition SCAN_LATENCY : Z := Z.min (LPN_SCAN_LATENCY lcfg) (LPN_RECV_DELAY lcfg).
Definition FRIEND_REQ_RETRY_TIMEOUT : Z := LPN_RETRY_TIMEOUT lcfg * 1000.
Definition REQ_RETRY_DURATION (l : bt_mesh_lpn) : Z := LPN_RECV_DELAY lcfg + adv_duration l + recv_win l + POLL_RETRY_TIMEOUT.
Definition POLL_TIMEOUT_INIT : Z := LPN_INIT_POLL_TIMEOUT lcfg * 100.
Definition POLL_TIMEOUT : Z := LPN_POLL_TIMEOUT lcfg * 100.
Definition REQ_ATTEMPTS (l : bt_mesh_lpn) : Z := Z.min REQ_ATTEMPTS_MAX (POLL_TIMEOUT / REQ_RETRY_DURATION l).
Definition POLL_TIMEOUT_MAX (l : bt_mesh_lpn) : Z := POLL_TIMEOUT - REQ_ATTEMPTS l * REQ_RETRY_DURATION l.
Definition LPN_CRITERIA : Z :=
  u8 (Z.lor (LPN_MIN_QUEUE_SIZE lcfg) (Z.lor (Z.shiftl (LPN_RSSI_FACTOR lcfg) 3) (Z.shiftl (LPN_RECV_WIN_FACTOR lcfg) 5))).
Definition LPN_POLL_TO : list Z :=
  let to := LPN_POLL_TIMEOUT lcfg in [u8 (Z.shiftr to 16); u8 (Z.shiftr to 8); u8 to].

(** The timeout, and the state after; [tx] is [bt_mesh_tx_in_progress()]. *)
Definition poll_timeout (tx : bool) (l : bt_mesh_lpn) : Z * bt_mesh_lpn :=
  if tx then (Z.min (POLL_TIMEOUT_MAX l) (1 * 1000), l)
  else
    let l := if lp_poll_timeout l <? POLL_TIMEOUT_MAX l
             then l <| lp_poll_timeout ::= (fun t => Z.min (t * 2) (POLL_TIMEOUT_MAX l)) |> else l in
    (lp_poll_timeout l, l).

End Timing.

Definition group_zero (l : list bool) : list bool := map (fun _ => false) l.
Definition group_set (target source : list bool) : list bool := zip_with orb target source.
Definition group_clear (target source : list bool) : list bool := zip_with (fun t s => t && negb s) target source.
Definition group_popcount (l : list bool) : Z := zlen (filter (fun b => b = true) l).

(** The first entry with a property. *)
Fixpoint first_at (p : Z -> bool) (l : list Z) (i : nat) : option nat :=
  match l with
  | [] => None
  | x :: l => if p x then Some i else first_at p l (S i)
  end.

Definition lpn_group_add (group : Z) (l : bt_mesh_lpn) : bt_mesh_lpn :=
  match first_at (fun g => g =? group) (groups l) 0 with
  | Some i => l <| to_remove ::= <[i := false]> |>
  | None =>
      match first_at (fun g => g =? BT_MESH_ADDR_UNASSIGNED) (groups l) 0 with
      | None => l
      | Some i => l <| groups ::= <[i := group]> |> <| groups_changed := true |>
      end
  end.

(** One round of the loop of [lpn_group_del]. *)
Definition group_del_at (group : Z) (l : bt_mesh_lpn) (i : nat) : bt_mesh_lpn :=
  if groups l !!! i =? group then
    if added l !!! i || pending l !!! i
    then l <| to_remove ::= <[i := true]> |> <| groups_changed := true |>
    else l <| groups ::= <[i := BT_MESH_ADDR_UNASSIGNED]> |>
  else l.
Definition lpn_group_del (group : Z) (l : bt_mesh_lpn) : bt_mesh_lpn :=
  foldl (group_del_at group) l (List.seq 0 (length (groups l))).

(** The entries that the loop of [sub_update] takes, of those of [idx]; [g] is the number of
    entries taken so far. *)
Fixpoint sub_pick (op : Z) (l : bt_mesh_lpn) (idx : list nat) (g : Z) : list nat :=
  match idx with
  | [] => []
  | i :: idx =>
      if groups l !!! i =? BT_MESH_ADDR_UNASSIGNED then sub_pick op l idx g
      else if (if op =? TRANS_CTL_OP_FRIEND_SUB_ADD then added l !!! i else negb (to_remove l !!! i))
      then sub_pick op l idx g
      else if lp_queue_size l <=? group_popcount (added l) + g then []
      else i :: (if g + 1 =? ADDR_LIST_SIZE then [] else sub_pick op l idx (g + 1))
  end.
Definition sub_entries (op : Z) (l : bt_mesh_lpn) : list nat := sub_pick op l (List.seq 0 (length (groups l))) 0.
Definition mark_bits (es : list nat) (l : list bool) : list bool := foldl (fun l i => <[i := true]> l) l es.

(** One round of the loop of [bt_mesh_lpn_friend_sub_cfm] for a removal. *)
Definition removed_at (l : bt_mesh_lpn) (i : nat) : bt_mesh_lpn :=
  let was_pending : bool := pending l !!! i in
  let l := l <| pending ::= <[i := false]> |> in
  if was_pending then
    let was_to_remove : bool := to_remove l !!! i in
    let l := l <| to_remove ::= <[i := false]> |> in
    if was_to_remove then l <| groups ::= <[i := BT_MESH_ADDR_UNASSIGNED]> |> else l
  else l.

(** * Operations *)

Section Operations.

Context {W : Type} `{MeshCrypto W}.
Context (cfg : net_cfg) (tcfg : trans_cfg) (lcfg : lpn_cfg) (env : lpn_env).
Notation st := (lpn_node W).

Definition gets {A} (f : st -> A) : M st A := fun s => (Ok (f s), s).
Definition upd (f : bt_mesh_lpn -> bt_mesh_lpn) : M st unit := fun s => (Ok (), s <| l_lpn ::= f |>).
Definition out (o : lpn_out) : M st unit := fun s => (Ok (), s <| l_out ::= (fun l => l ++ [o]) |>).
Definition when (b : bool) (m : M st unit) : M st unit := if b then m else mret ().

Definition lpn_set_state (x : lpn_state) : M st unit := upd (fun l => l <| lp_state := x |>).
(** [bt_work_reschedule] and [bt_work_cancel_delayable] of the timer. *)
Definition timer (ms : Z) : M st unit := upd (fun l => l <| lp_timer := Some ms |>).
Definition timer_cancel : M st unit := upd (fun l => l <| lp_timer := None |>).

(** The lower layers ask whether there is a friendship and for its credentials. *)
Definition at_lpn (l : bt_mesh_lpn) : trans_env :=
  let e := le_trans env in
  let n := te_net e in
  let creds := (cred0 l, cred1 l) in
  mk_trans_env
    (mk_node_env (fixed_group_match n) (has_addr n) (relay_get n) (gatt_proxy_get n) (priv_gatt_proxy_get n)
       (relay_retransmit_get n) (net_transmit_get n)
       (if lp_frnd l =? BT_MESH_ADDR_UNASSIGNED then None else Some creds)
       (if decide (lp_state l = BT_MESH_LPN_WAIT_UPDATE) then option_map (fun i => (i, creds)) (lp_sub l) else None)
       (frnd n) (adv_create n) (iv_env n))
    (friend_match e) (friend_queue_has_space e) (friend_enqueue_tx e) (established l)
    (bool_decide (lp_state l = BT_MESH_LPN_WAIT_UPDATE)) (lp_frnd l) (default_ttl e) (primary_addr e) (te_apps e)
    (te_dev_keys e) (virtual_addrs e) (uptime e).

Definition in_trans {A} (m : M (trans_node W) A) : M st A := fun s =>
  let '(r, t) := m (l_trans s) in (r, s <| l_trans := t |>).
Definition in_subnets {A} (m : M (subnet_state W) A) : M st A := in_trans (in_net (in_sub m)).
Definition subs (s : st) : subnet_state W := n_sub (t_net (l_trans s)).
Definition my_addr : Z := primary_addr (le_trans env).
Definition uptime_32 : Z := u32 (uptime (le_trans env)).

(** [bt_mesh_ctl_send]: an error or 0.  [finish] is what the callbacks do when the message
    stays in the node. *)
Definition ctl_send (tx : trans_tx) (op : Z) (data : list Z) (cb : send_cb) (finish : M st unit) : M st Z :=
  l ← gets l_lpn;
  n ← gets (fun s => length (t_out (l_trans s)));
  r ← attempt (in_trans (bt_mesh_ctl_send cfg tcfg (at_lpn l) tx op data (Some cb)));
  ended ← gets (fun s => existsb (fun o => match o with CbEnd c _ => cb_data c =? cb_data cb | _ => false end)
                           (drop n (t_out (l_trans s))));
  let err := match r with inl _ => 0 | inr err => err end in
  _ ← out (CtlSent op data err ended);
  _ ← when ended finish;
  mret err.

(** A message to [dst] in subnet [i]. *)
Definition tx_to (i : nat) (dst xmit : Z) (friend_cred : bool) (s : st) : trans_tx :=
  mk_trans_tx (mk_tx i my_addr dst 0 BT_MESH_KEY_UNUSED friend_cred) (net_idx (sub_at i (subs s))) None false xmit 0 0.

(** ** Clearing the friendship *)

(** [friend_clear_sent] without an error. *)
Definition clear_sent_ok : M st unit :=
  _ ← out ScanEnable;
  _ ← upd (fun l => l <| req_attempts ::= (fun n => u8 (n + 1)) |>);
  _ ← lpn_set_state BT_MESH_LPN_CLEAR;
  timer FRIEND_REQ_TIMEOUT.

Definition send_friend_clear : M st Z :=
  l ← gets l_lpn;
  i ← checked (lp_sub l);
  tx ← gets (tx_to i (lp_frnd l) (net_transmit_get (te_net (le_trans env))) false);
  ctl_send tx TRANS_CTL_OP_FRIEND_CLEAR (sys_put_be16 my_addr ++ sys_put_be16 (lpn_counter l)) clear_sent_cb clear_sent_ok.

(** [bt_mesh_friend_cred_destroy] for the credentials with a valid key. *)
Definition creds_destroy (i : nat) : M st unit :=
  s ← gets id;
  let sub := sub_at i (subs s) in
  let l := l_lpn s in
  _ ← when (valid (keys0 sub)) (in_subnets (bt_mesh_friend_cred_destroy (cred0 l)));
  when (valid (keys1 sub)) (in_subnets (bt_mesh_friend_cred_destroy (cred1 l))).

Definition clear_friendship (force disable : bool) : M st unit :=
  l ← gets l_lpn;
  i ← checked (lp_sub l);
  idx ← gets (fun s => net_idx (sub_at i (subs s)));
  if negb force && established l && negb (clear_success l) && (req_attempts l <? CLEAR_ATTEMPTS) then
    _ ← send_friend_clear;
    upd (fun l => l <| lp_disable := disable |>)
  else
    _ ← in_trans (bt_mesh_rx_reset cfg);
    _ ← lpn_set_state BT_MESH_LPN_DISABLED;
    _ ← timer_cancel;
    _ ← when (k_establishment lcfg) (out ScanDisable);
    _ ← upd (fun l => l <| old_friend := if clear_success l then BT_MESH_ADDR_UNASSIGNED else lp_frnd l |>);
    _ ← creds_destroy i;
    _ ← upd (fun l => l <| lp_frnd := BT_MESH_ADDR_UNASSIGNED |> <| fsn := 0 |> <| req_attempts := 0 |> <| recv_win := 0 |>
                        <| lp_queue_size := 0 |> <| lp_disable := false |> <| sent_req := 0 |> <| established := false |>
                        <| clear_success := false |> <| lp_sub := None |> <| added ::= group_zero |> <| pending ::= group_zero |>
                        <| to_remove ::= group_zero |> <| groups_changed := true |>);
    _ ← out HbFeatureChanged;
    _ ← when (negb disable)
          (_ ← lpn_set_state BT_MESH_LPN_ENABLED;
           _ ← timer (FRIEND_REQ_RETRY_TIMEOUT lcfg);
           when (negb (k_establishment lcfg)) (out ScanEnable));
    when (established l && k_callbacks lcfg) (out (LpnTerminated idx (lp_frnd l))).

Definition friend_clear_sent (err : Z) : M st unit :=
  if err =? 0 then clear_sent_ok
  else
    _ ← out ScanEnable;
    _ ← upd (fun l => l <| req_attempts ::= (fun n => u8 (n + 1)) |>);
    _ ← lpn_set_state BT_MESH_LPN_ENABLED;
    l ← gets l_lpn;
    clear_friendship false (lp_disable l).

(** ** Requests *)

Definition adv_ended : M st unit := upd (fun l => l <| adv_duration := u16 (u32 (uptime_32 - adv_start_time l)) |>).
Definition adv_started : M st unit := upd (fun l => l <| adv_start_time := uptime_32 |>).

Definition friend_req_send_end (err : Z) : M st unit :=
  l ← gets l_lpn;
  if negb (bool_decide (lp_state l = BT_MESH_LPN_ENABLED)) then mret ()
  else if negb (err =? 0) then mret ()
  else
    _ ← adv_ended;
    l ← gets l_lpn;
    if k_establishment lcfg then
      _ ← timer (FRIEND_REQ_WAIT - adv_duration l);
      lpn_set_state BT_MESH_LPN_REQ_WAIT
    else
      _ ← timer FRIEND_REQ_TIMEOUT;
      lpn_set_state BT_MESH_LPN_WAIT_OFFER.
Definition friend_req_send_start (err : Z) : M st unit :=
  _ ← adv_started; when (negb (err =? 0)) (friend_req_send_end err).

Definition send_friend_req : M st Z :=
  _ ← upd (fun l => l <| lpn_counter ::= (fun n => u16 (n + 1)) |>);
  l ← gets l_lpn;
  let req := [LPN_CRITERIA lcfg; u8 (LPN_RECV_DELAY lcfg)] ++ LPN_POLL_TO lcfg ++ sys_put_be16 (old_friend l)
             ++ [u8 (le_elem_count env)] ++ sys_put_be16 (lpn_counter l) in
  sub ← gets (fun s => bt_mesh_subnet_next None (subs s));
  _ ← upd (fun l => l <| lp_sub := sub |>);
  match sub with
  | None => mret (- ENOENT)
  | Some i =>
      tx ← gets (tx_to i BT_MESH_ADDR_FRIENDS POLL_XMIT false);
      ctl_send tx TRANS_CTL_OP_FRIEND_REQ req friend_req_send_cb (_ ← friend_req_send_start 0; friend_req_send_end 0)
  end.

Definition req_send_end (err : Z) : M st unit :=
  l ← gets l_lpn;
  if bool_decide (lp_state l = BT_MESH_LPN_DISABLED) then mret ()
  else
    _ ← adv_ended;
    if negb (err =? 0) then upd (fun l => l <| sent_req := 0 |> <| pending ::= group_zero |>)
    else
      l ← gets l_lpn;
      let retry := 0 <? req_attempts l in
      _ ← upd (fun l => l <| req_attempts ::= (fun n => u8 (n + 1)) |>);
      _ ← (if established l || k_establishment lcfg then
             _ ← lpn_set_state BT_MESH_LPN_RECV_DELAY;
             timer (LPN_RECV_DELAY lcfg - SCAN_LATENCY lcfg - RX_DELAY_CORRECTION lcfg l)
           else
             _ ← lpn_set_state BT_MESH_LPN_WAIT_UPDATE;
             timer (LPN_RECV_DELAY lcfg + recv_win l));
      when (k_callbacks lcfg)
        (i ← checked (lp_sub l);
         idx ← gets (fun s => net_idx (sub_at i (subs s)));
         out (LpnPolled idx (lp_frnd l) retry)).
Definition req_send_start (err : Z) : M st unit :=
  _ ← adv_started; when (negb (err =? 0)) (req_send_end err).
Definition req_sent : M st unit := _ ← req_send_start 0; req_send_end 0.

Definition send_friend_poll : M st Z :=
  l ← gets l_lpn;
  i ← checked (lp_sub l);
  tx ← gets (tx_to i (lp_frnd l) POLL_XMIT true);
  if negb (sent_req l =? 0) then
    _ ← when (negb (sent_req l =? TRANS_CTL_OP_FRIEND_POLL)) (upd (fun l => l <| pending_poll := true |>));
    mret 0
  else
    err ← ctl_send tx TRANS_CTL_OP_FRIEND_POLL [fsn l] req_send_cb req_sent;
    _ ← when (err =? 0) (upd (fun l => l <| pending_poll := false |> <| sent_req := TRANS_CTL_OP_FRIEND_POLL |>));
    mret err.

(** ** Turning the feature on and off *)

Definition bt_mesh_lpn_disable (force : bool) : M st unit :=
  l ← gets l_lpn;
  if bool_decide (lp_state l = BT_MESH_LPN_DISABLED) then mret () else clear_friendship force true.

Definition bt_mesh_lpn_set (enable : bool) : M st Z :=
  l ← gets l_lpn;
  let disabled := bool_decide (lp_state l = BT_MESH_LPN_DISABLED) in
  if (if enable then negb disabled else disabled) then mret 0
  else if negb (le_provisioned env) then
    _ ← lpn_set_state (if enable then BT_MESH_LPN_ENABLED else BT_MESH_LPN_DISABLED);
    mret 0
  else if enable then
    _ ← lpn_set_state BT_MESH_LPN_ENABLED;
    _ ← when (k_establishment lcfg) (out ScanDisable);
    _ ← send_friend_req;
    mret 0
  else if k_auto lcfg && bool_decide (lp_state l = BT_MESH_LPN_TIMER) then
    _ ← timer_cancel;
    _ ← lpn_set_state BT_MESH_LPN_DISABLED;
    mret 0
  else
    _ ← bt_mesh_lpn_disable false;
    mret 0.

Definition bt_mesh_lpn_friendship_end : M st unit :=
  l ← gets l_lpn;
  if negb (established l) then mret () else clear_friendship true false.

(** ** What the Friend sends *)

Definition friend_response_received : M st unit :=
  _ ← upd (fun l => if sent_req l =? TRANS_CTL_OP_FRIEND_POLL then l <| fsn ::= (fun n => (n + 1) mod 2) |> else l);
  _ ← lpn_set_state BT_MESH_LPN_ESTABLISHED;
  _ ← upd (fun l => l <| req_attempts := 0 |> <| sent_req := 0 |>);
  tx ← gets (fun s => bt_mesh_tx_in_progress (l_trans s));
  l ← gets l_lpn;
  let '(timeout, l) := poll_timeout lcfg tx l in
  _ ← upd (fun _ => l);
  _ ← timer timeout;
  out ScanDisable.

Definition bt_mesh_lpn_msg_received : M st unit :=
  l ← gets l_lpn;
  if bool_decide (lp_state l = BT_MESH_LPN_TIMER) then timer (LPN_AUTO_TIMEOUT lcfg)
  else if negb (bool_decide (lp_state l = BT_MESH_LPN_WAIT_UPDATE)) then mret ()
  else if negb (sent_req l =? TRANS_CTL_OP_FRIEND_POLL) then mret ()
  else
    _ ← friend_response_received;
    _ ← send_friend_poll;
    mret ().

Definition friend_cred_create (key : bt_mesh_key) : M st bt_mesh_net_cred :=
  l ← gets l_lpn;
  in_subnets (bt_mesh_friend_cred_create my_addr (lp_frnd l) (lpn_counter l) (frnd_counter l) key).

(** The loop of [bt_mesh_lpn_friend_offer]. *)
Definition creds_create (i : nat) : M st unit :=
  k0 ← gets (fun s => keys0 (sub_at i (subs s)));
  _ ← when (valid k0) (c ← friend_cred_create (net k0); upd (fun l => l <| cred0 := c |>));
  k1 ← gets (fun s => keys1 (sub_at i (subs s)));
  when (valid k1) (c ← friend_cred_create (net k1); upd (fun l => l <| cred1 := c |>)).

(** A message as the structure it is read as. *)
Definition read_msg (buf : bt_buf_simple) (n : Z) : M st (list Z) := checked (mem_read (b_store buf) (b_data buf) n).

Definition bt_mesh_lpn_friend_offer (rx : bt_mesh_net_rx) (buf : bt_buf_simple) : M st Z :=
  l ← gets l_lpn;
  if b_len buf <? 6 then mret (- EBADMSG)
  else if negb (bool_decide (lp_state l = BT_MESH_LPN_WAIT_OFFER)) then mret 0
  else
    msg ← read_msg buf 6;
    let win := msg !!! 0%nat in
    let queue := msg !!! 1%nat in
    if win =? 0 then mret (- EBADMSG)
    else
      _ ← upd (fun l => l <| frnd_counter := sys_get_be16 (drop 4 msg) |> <| lp_frnd := rx_addr rx |>);
      i ← checked (lp_sub l);
      r ← attempt (creds_create i);
      match r with
      | inr err => _ ← upd (fun l => l <| lp_frnd := BT_MESH_ADDR_UNASSIGNED |>); mret err
      | inl _ =>
          _ ← upd (fun l => l <| recv_win := win |> <| lp_queue_size := queue |>);
          err ← send_friend_poll;
          _ ← when (negb (err =? 0))
                (_ ← creds_destroy i;
                 upd (fun l => l <| lp_sub := None |> <| lp_frnd := BT_MESH_ADDR_UNASSIGNED |> <| recv_win := 0 |>
                                 <| lp_queue_size := 0 |>));
          mret 0
      end.

Definition bt_mesh_lpn_friend_clear_cfm (buf : bt_buf_simple) : M st Z :=
  l ← gets l_lpn;
  if b_len buf <? 4 then mret (- EBADMSG)
  else if negb (bool_decide (lp_state l = BT_MESH_LPN_CLEAR)) then mret 0
  else
    msg ← read_msg buf 4;
    if negb (sys_get_be16 (take 2 msg) =? my_addr) || negb (sys_get_be16 (drop 2 msg) =? lpn_counter l) then mret 0
    else
      _ ← upd (fun l => l <| clear_success := true |>);
      _ ← clear_friendship false (lp_disable l);
      mret 0.

(** ** The subscription list *)

Definition sub_update (op : Z) : M st bool :=
  l ← gets l_lpn;
  i ← checked (lp_sub l);
  tx ← gets (tx_to i (lp_frnd l) POLL_XMIT true);
  if negb (sent_req l =? 0) then mret false
  else
    let es := sub_entries op l in
    _ ← upd (fun l => l <| pending ::= mark_bits es |>);
    if (length es =? 0)%nat then _ ← upd (fun l => l <| pending ::= group_zero |>); mret false
    else
      let xact := xact_next l in
      _ ← upd (fun l => l <| xact_next ::= (fun x => u8 (x + 1)) |>);
      err ← ctl_send tx op (xact :: flat_map (fun i => sys_put_be16 (groups l !!! i)) es) req_send_cb req_sent;
      if err <? 0 then _ ← upd (fun l => l <| pending ::= group_zero |>); mret false
      else
        _ ← upd (fun l => l <| xact_pending := xact |> <| sent_req := op |>);
        mret true.

Definition bt_mesh_lpn_group_add (group : Z) : M st unit :=
  _ ← upd (lpn_group_add group);
  l ← gets l_lpn;
  if negb (established l) || negb (sent_req l =? 0) then mret ()
  else _ ← sub_update TRANS_CTL_OP_FRIEND_SUB_ADD; mret ().

Definition bt_mesh_lpn_group_del (l : list Z) : M st unit :=
  _ ← upd (fun lp => foldl (fun lp g => if negb (g =? BT_MESH_ADDR_UNASSIGNED) then lpn_group_del g lp else lp) lp l);
  l ← gets l_lpn;
  if negb (established l) || negb (sent_req l =? 0) then mret ()
  else _ ← sub_update TRANS_CTL_OP_FRIEND_SUB_REM; mret ().

(** What both messages with news of the Friend end with. *)
Definition groups_update : M st unit :=
  l ← gets l_lpn;
  when (groups_changed l)
    (_ ← sub_update TRANS_CTL_OP_FRIEND_SUB_ADD;
     _ ← sub_update TRANS_CTL_OP_FRIEND_SUB_REM;
     l ← gets l_lpn;
     when (sent_req l =? 0) (upd (fun l => l <| groups_changed := false |>))).

Definition bt_mesh_lpn_friend_sub_cfm (buf : bt_buf_simple) : M st Z :=
  l ← gets l_lpn;
  if b_len buf <? 1 then mret (- EBADMSG)
  else if sent_req l =? 0 then mret 0
  else
    msg ← read_msg buf 1;
    if negb (msg !!! 0%nat =? xact_pending l) then mret 0
    else
      let confirm :=
        if sent_req l =? TRANS_CTL_OP_FRIEND_SUB_ADD then
          Some (fun l => l <| added := group_set (added l) (pending l) |> <| pending ::= group_zero |>)
        else if sent_req l =? TRANS_CTL_OP_FRIEND_SUB_REM then
          Some (fun l => foldl removed_at (l <| added := group_clear (added l) (pending l) |>) (List.seq 0 (length (groups l))))
        else None in
      match confirm with
      | None => mret 0
      | Some f =>
          _ ← upd f;
          _ ← friend_response_received;
          _ ← groups_update;
          l ← gets l_lpn;
          _ ← when (pending_poll l) (_ ← send_friend_poll; mret ());
          mret 0
      end.

(** [bt_mesh_net_iv_update] *)
Definition iv_update (index : Z) (flag : bool) : M st unit := fun s =>
  let t := l_trans s in
  let n := t_net t in
  let e := iv_env (te_net (le_trans env)) in
  let e := mk_env (bt_mesh_tx_in_progress t) (has_primary e) (proxy_enabled e) in
  let '(_, iv) := bt_mesh_net_iv_update (c_settings cfg) (c_iv_update_test cfg) (c_friend cfg) (c_gatt_proxy cfg) (c_cdb cfg)
                    e index flag (n_iv n) in
  (Ok (), s <| l_trans := t <| t_net := set_n_iv iv n |> |>).

Definition bt_mesh_lpn_friend_update (V1d1 : bool) (rx : bt_mesh_net_rx) (buf : bt_buf_simple) : M st Z :=
  l ← gets l_lpn;
  if b_len buf <? 6 then mret (- EBADMSG)
  else if negb (sent_req l =? TRANS_CTL_OP_FRIEND_POLL) then mret 0
  else
    let i := Z.to_nat (rx_sub rx) in
    phase ← gets (fun s => kr_phase (sub_at i (subs s)));
    if (phase =? BT_MESH_KR_PHASE_2) && negb (rx_new_key rx) then mret 0
    else
      msg ← read_msg buf 6;
      let flags := msg !!! 0%nat in
      iv ← gets (fun s => n_iv (t_net (l_trans s)));
      _ ← when (le_ivu_initiator env && Bool.eqb (in_progress iv) (BT_MESH_IV_UPDATE flags)) (out (BeaconIvuInitiator false));
      if negb (established l) && negb (rx_friend_cred rx) then mret (- EINVAL)
      else
        _ ← when (negb (established l))
              (_ ← upd (fun l => l <| established := true |>);
               _ ← out HbFeatureChanged;
               upd (fun l => l <| lp_poll_timeout := Z.min (POLL_TIMEOUT_MAX lcfg l) (POLL_TIMEOUT_INIT lcfg) |>));
        _ ← friend_response_received;
        _ ← in_subnets (bt_mesh_kr_update (c_settings cfg) (c_gatt_proxy cfg) V1d1 i (BT_MESH_KEY_REFRESH flags) (rx_new_key rx));
        _ ← iv_update (sys_get_be32 (take 4 (drop 1 msg))) (BT_MESH_IV_UPDATE flags);
        _ ← groups_update;
        _ ← when (negb (msg !!! 5%nat =? 0)) (_ ← send_friend_poll; mret ());
        _ ← when (negb (established l) && k_callbacks lcfg)
              (l ← gets l_lpn;
               i ← checked (lp_sub l);
               idx ← gets (fun s => net_idx (sub_at i (subs s)));
               out (LpnEstablished idx (lp_frnd l) (lp_queue_size l) (recv_win l)));
        mret 0.

Definition bt_mesh_lpn_poll : M st Z :=
  l ← gets l_lpn;
  if negb (established l) then mret (- EAGAIN) else send_friend_poll.

(** ** The timer *)

Definition update_timeout : M st unit :=
  l ← gets l_lpn;
  if established l then
    _ ← lpn_set_state BT_MESH_LPN_ESTABLISHED;
    _ ← timer POLL_RETRY_TIMEOUT;
    out ScanDisable
  else
    _ ← when (k_establishment lcfg) (out ScanDisable);
    if req_attempts l <? REQ_ATTEMPTS lcfg l then
      _ ← upd (fun l => l <| sent_req := 0 |>);
      err ← send_friend_poll;
      if err =? 0 then mret () else clear_friendship false false
    else clear_friendship false false.

(** The work item: no longer scheduled, then run. *)
Definition lpn_timeout : M st unit :=
  _ ← timer_cancel;
  l ← gets l_lpn;
  match lp_state l with
  | BT_MESH_LPN_DISABLED => mret ()
  | BT_MESH_LPN_CLEAR => clear_friendship false (lp_disable l)
  | BT_MESH_LPN_TIMER =>
      _ ← lpn_set_state BT_MESH_LPN_ENABLED;
      _ ← when (k_establishment lcfg) (out ScanDisable);
      _ ← send_friend_req;
      mret ()
  | BT_MESH_LPN_ENABLED => _ ← send_friend_req; mret ()
  | BT_MESH_LPN_REQ_WAIT =>
      _ ← timer (adv_duration l + FRIEND_REQ_SCAN);
      _ ← lpn_set_state BT_MESH_LPN_WAIT_OFFER;
      out ScanEnable
  | BT_MESH_LPN_WAIT_OFFER =>
      _ ← lpn_set_state BT_MESH_LPN_ENABLED;
      _ ← upd (fun l => l <| sent_req := 0 |>);
      _ ← timer (FRIEND_REQ_RETRY_TIMEOUT lcfg);
      when (k_establishment lcfg) (out ScanDisable)
  | BT_MESH_LPN_ESTABLISHED =>
      if req_attempts l <? REQ_ATTEMPTS lcfg l then
        let req := sent_req l in
        _ ← upd (fun l => l <| sent_req := 0 |>);
        if (req =? 0) || (req =? TRANS_CTL_OP_FRIEND_POLL) then _ ← send_friend_poll; mret ()
        else _ ← sub_update req; mret ()
      else
        _ ← upd (fun l => l <| req_attempts := 0 |>);
        clear_friendship true false
  | BT_MESH_LPN_RECV_DELAY =>
      _ ← timer (SCAN_LATENCY lcfg + recv_win l + RX_DELAY_CORRECTION lcfg l);
      _ ← lpn_set_state BT_MESH_LPN_WAIT_UPDATE;
      out ScanEnable
  | BT_MESH_LPN_WAIT_UPDATE => update_timeout
  end.

(** ** Events and the start *)

Definition lpn_subnet_evt (i : nat) (evt : bt_mesh_key_evt) : M st unit :=
  l ← gets l_lpn;
  match evt with
  | BT_MESH_KEY_DELETED => when (bool_decide (lp_sub l = Some i)) (clear_friendship true false)
  | BT_MESH_KEY_UPDATED =>
      k1 ← gets (fun s => keys1 (sub_at i (subs s)));
      r ← attempt (friend_cred_create (net k1));
      match r with inl c => upd (fun l => l <| cred1 := c |>) | inr _ => mret () end
  | _ => mret ()
  end.

Definition bt_mesh_lpn_init : M st Z :=
  l ← gets l_lpn;
  if bool_decide (lp_state l = BT_MESH_LPN_ENABLED) then
    _ ← (if k_establishment lcfg then out ScanDisable else out ScanEnable);
    _ ← send_friend_req;
    mret 0
  else
    _ ← out ScanEnable;
    _ ← when (k_auto lcfg) (_ ← lpn_set_state BT_MESH_LPN_TIMER; timer (LPN_AUTO_TIMEOUT lcfg));
    mret 0.

End Operations.
