(* ===== verification/LpnSub.v ===== *)
(** The subscription list that a Friend keeps for a Low Power node ([mesh/friend.c]), and what
    the node knows about it: the invariant of the node's bit fields, of the messages it has
    sent and of the Friend's list, and that each operation of [Lpn.v] keeps it. *)

From S2P Require Import Prelude Byteorder BufSimple MeshDefs CryptoIf Crypto Subnet NetIv Net AppKeys Transport Lpn.

(** * The list of the Friend *)

(** The last entry that is free, in the loop of [friend_sub_add]. *)
Fixpoint last_empty (l : list Z) (i : nat) (empty_idx : option nat) : option nat :=
  match l with
  | [] => empty_idx
  | x :: l => last_empty l (S i) (if x =? BT_MESH_ADDR_UNASSIGNED then Some i else empty_idx)
  end.

Definition friend_sub_add (addr : Z) (sub_list : list Z) : list Z :=
  if existsb (fun x => x =? addr) sub_list then sub_list
  else match last_empty sub_list 0 None with Some i => <[i := addr]> sub_list | None => sub_list end.

Definition friend_sub_rem (addr : Z) (sub_list : list Z) : list Z :=
  match first_at (fun x => x =? addr) sub_list 0 with
  | Some i => <[i := BT_MESH_ADDR_UNASSIGNED]> sub_list
  | None => sub_list
  end.

(** [while (buf->len >= 2U)] of [bt_mesh_friend_sub_add] and [bt_mesh_friend_sub_rem], on the
    bytes of the buffer. *)
Fixpoint sub_loop (f : Z -> list Z -> list Z) (buf sub_list : list Z) : list Z :=
  match buf with
  | a :: b :: buf => sub_loop f buf (f (sys_get_be16 [a; b]) sub_list)
  | _ => sub_list
  end.
(** The message without its first byte, the transaction. *)
Definition bt_mesh_friend_sub (op : Z) (data sub_list : list Z) : list Z :=
  sub_loop (if op =? TRANS_CTL_OP_FRIEND_SUB_ADD then friend_sub_add else friend_sub_rem) (drop 1 data) sub_list.

(** The addresses in such a message. *)
Fixpoint words (buf : list Z) : list Z :=
  match buf with
  | a :: b :: buf => sys_get_be16 [a; b] :: words buf
  | _ => []
  end.
Definition addrs (data : list Z) : list Z := words (drop 1 data).
Definition free_entries (sub_list : list Z) : nat := length (filter (fun x => x = BT_MESH_ADDR_UNASSIGNED) sub_list).

Lemma sub_loop_words f b l : sub_loop f b l = foldl (fun l a => f a l) l (words b).
Proof.
  revert l. induction b as [b IH] using (induction_ltof1 _ (@length Z)). unfold ltof in IH.
  intros l. destruct b as [|a [|c b]]; [done..|]. cbn [sub_loop words foldl]. apply IH. cbn. lia.
Qed.

Lemma words_of gs : Forall (fun g => 0 <= g < 65536) gs -> words (flat_map sys_put_be16 gs) = gs.
Proof.
  induction 1 as [|g gs Hg _ IH]; [done|]. cbn [flat_map].
  assert (exists a b, sys_put_be16 g = [a; b]) as (a & b & E) by (by eexists _, _).
  rewrite E. cbn [app words]. f_equal; [|exact IH]. rewrite <-E.
  rewrite (codec_get_put (C := codec_be16)). apply Z.mod_small. exact Hg.
Qed.

(** ** What the Friend has *)

Lemma first_at_spec p l : forall i,
  match first_at p l i with
  | Some j => exists k x, j = (i + k)%nat /\ l !! k = Some x /\ p x = true
  | None => forall k x, l !! k = Some x -> p x = false
  end.
Proof.
  induction l as [|y l IH]; intros i; cbn [first_at]; [done|]. destruct (p y) eqn:E.
  - exists 0%nat, y. split; [lia|done].
  - specialize (IH (S i)). destruct (first_at p l (S i)) as [j|].
    + destruct IH as (k & x & -> & Hk & Hp). exists (S k), x. split; [lia|done].
    + intros [|k] x Hk; [by injection Hk as <-|by eapply IH].
Qed.

Lemma last_empty_spec l : forall i acc,
  match last_empty l i acc with
  | Some j => acc = Some j \/ exists k, j = (i + k)%nat /\ l !! k = Some BT_MESH_ADDR_UNASSIGNED
  | None => acc = None /\ free_entries l = 0%nat
  end.
Proof.
  induction l as [|x l IH]; intros i acc; cbn [last_empty].
  - destruct acc; [by left|done].
  - specialize (IH (S i) (if x =? BT_MESH_ADDR_UNASSIGNED then Some i else acc)). destruct (last_empty _ _ _) as [j|].
    + destruct IH as [E|(k & -> & Hk)].
      * destruct (Z.eqb_spec x BT_MESH_ADDR_UNASSIGNED) as [->|]; [|by left]. right. exists 0%nat. injection E as ->. split; [lia|done].
      * right. exists (S k). split; [lia|done].
    + destruct IH as [E Hf]. unfold free_entries in *. destruct (Z.eqb_spec x BT_MESH_ADDR_UNASSIGNED) as [->|Hx]; [done|].
      split; [done|]. by rewrite filter_cons_False.
Qed.

Lemma free_insert l i addr : (free_entries l <= S (free_entries (<[i := addr]> l)))%nat.
Proof.
  unfold free_entries. revert i. induction l as [|x l IH]; intros i; [cbn; lia|]. destruct i as [|i].
  - change (<[0%nat := addr]> (x :: l)) with (addr :: l). rewrite !filter_cons. repeat case_decide; cbn [length]; lia.
  - change (<[S i := addr]> (x :: l)) with (x :: <[i := addr]> l). rewrite !filter_cons. specialize (IH i). case_decide; cbn [length]; lia.
Qed.

Lemma friend_add_spec addr l : (0 < free_entries l)%nat ->
  addr ∈ friend_sub_add addr l /\ (forall x, x ∈ l -> x <> BT_MESH_ADDR_UNASSIGNED -> x ∈ friend_sub_add addr l) /\
  (free_entries l <= S (free_entries (friend_sub_add addr l)))%nat.
Proof.
  intros Hf. unfold friend_sub_add. destruct (existsb _ l) eqn:E.
  - apply existsb_exists in E as (x & Hx & ->%Z.eqb_eq). apply list_elem_of_In in Hx. split; [done|]. split; [done|lia].
  - pose proof (last_empty_spec l 0 None) as Hs. destruct (last_empty l 0 None) as [j|]; [|destruct Hs as [_ E0]; rewrite E0 in Hf; lia].
    destruct Hs as [?|(k & -> & Hk)]; [done|]. change (0 + k)%nat with k. pose proof (lookup_lt_Some _ _ _ Hk) as Hlt. split; [|split].
    + apply (list_elem_of_lookup_2 _ k). by apply list_lookup_insert_eq.
    + intros x [m Hm]%list_elem_of_lookup_1 Hx. destruct (decide (m = k)) as [->|Hd]; [congruence|].
      apply (list_elem_of_lookup_2 _ m). by rewrite list_lookup_insert_ne.
    + apply free_insert.
Qed.

Lemma friend_rem_keeps addr l x : x ∈ l -> x <> addr -> x ∈ friend_sub_rem addr l.
Proof.
  intros [m Hm]%list_elem_of_lookup_1 Hx. unfold friend_sub_rem. pose proof (first_at_spec (fun x => x =? addr) l 0) as Hs.
  destruct (first_at _ l 0) as [j|]; [|by eapply list_elem_of_lookup_2]. destruct Hs as (k & y & -> & Hk & ->%Z.eqb_eq).
  change (0 + k)%nat with k. apply (list_elem_of_lookup_2 _ m). rewrite list_lookup_insert_ne; [done|]. intros <-. congruence.
Qed.

(** A message to add: with room for its addresses the Friend has them, and what it had. *)
Lemma friend_adds d l : (length (addrs d) <= free_entries l)%nat ->
  (forall x, x ∈ addrs d -> x <> BT_MESH_ADDR_UNASSIGNED -> x ∈ bt_mesh_friend_sub TRANS_CTL_OP_FRIEND_SUB_ADD d l) /\
  (forall x, x ∈ l -> x <> BT_MESH_ADDR_UNASSIGNED -> x ∈ bt_mesh_friend_sub TRANS_CTL_OP_FRIEND_SUB_ADD d l).
Proof.
  unfold bt_mesh_friend_sub, addrs. change (TRANS_CTL_OP_FRIEND_SUB_ADD =? TRANS_CTL_OP_FRIEND_SUB_ADD) with true. cbn iota.
  rewrite sub_loop_words. generalize (words (drop 1 d)). clear d. intros ws. revert l.
  induction ws as [|w ws IH]; intros l Hf; [split; [by intros x ?%elem_of_nil|done]|]. cbn [foldl length] in *.
  destruct (friend_add_spec w l ltac:(lia)) as (H1 & H2 & H3). destruct (IH (friend_sub_add w l) ltac:(lia)) as [H4 H5]. split.
  - intros x [->|Hx]%elem_of_cons Hn; [by apply H5|by apply H4].
  - intros x Hx Hn. apply H5; [by apply H2|done].
Qed.
Lemma friend_removes op d l x : op <> TRANS_CTL_OP_FRIEND_SUB_ADD -> x ∈ l -> x ∉ addrs d -> x ∈ bt_mesh_friend_sub op d l.
Proof.
  unfold bt_mesh_friend_sub, addrs. intros Hop%Z.eqb_neq. rewrite Hop, sub_loop_words. generalize (words (drop 1 d)). clear d. intros ws. revert l.
  induction ws as [|w ws IH]; intros l Hx Hn; [done|]. cbn [foldl]. apply not_elem_of_cons in Hn as [Hw Hn]. apply IH; [|done].
  by apply friend_rem_keeps.
Qed.

(** * What the node knows *)

Notation ADD := TRANS_CTL_OP_FRIEND_SUB_ADD.
Notation REM := TRANS_CTL_OP_FRIEND_SUB_REM.
Notation POLL := TRANS_CTL_OP_FRIEND_POLL.

Definition bit (l : list bool) (i : nat) : Prop := l !! i = Some true.
Definition group_at (l : bt_mesh_lpn) (i : nat) (x : Z) : Prop := groups l !! i = Some x.

(** The messages about the list that the node has sent. *)
Definition sub_msg (e : lpn_out) : option (Z * list Z * Z) :=
  match e with
  | CtlSent op d err _ => if (op =? ADD) || (op =? REM) then Some (op, d, err) else None
  | _ => None
  end.
Definition sub_msgs (o : list lpn_out) : list (Z * list Z * Z) := omap sub_msg o.

(** The Friend: its list, the messages it has seen, the last one it got, and those whose
    confirmation is on its way. *)
Record friend_side := mk_side {
  f_list : list Z;
  f_seen : nat;
  f_last : option nat;
  f_cfms : list nat;
  f_xact : Z     (** the first transaction *)
}.

Definition in_contact (x : lpn_state) : Prop :=
  x = BT_MESH_LPN_ESTABLISHED \/ x = BT_MESH_LPN_RECV_DELAY \/ x = BT_MESH_LPN_WAIT_UPDATE \/ x = BT_MESH_LPN_CLEAR.

(** The node's tables. *)
Record shape (l : bt_mesh_lpn) : Prop := {
  sh_len : length (added l) = length (groups l) /\ length (pending l) = length (groups l) /\ length (to_remove l) = length (groups l);
  sh_u16 : Forall (fun x => 0 <= x < 65536) (groups l);
  sh_once : forall i j x, group_at l i x -> group_at l j x -> x <> BT_MESH_ADDR_UNASSIGNED -> i = j;
  sh_used : forall i, bit (added l) i \/ bit (pending l) i -> exists x, group_at l i x /\ x <> BT_MESH_ADDR_UNASSIGNED
}.

(** What holds in the middle of an operation as well. *)
Record base (f : friend_side) (l : bt_mesh_lpn) (o : list lpn_out) : Prop := {
  b_shape : shape l;
  b_req : sent_req l = 0 \/ sent_req l = POLL \/ sent_req l = ADD \/ sent_req l = REM;
  b_alone : established l = false -> (forall i, ~ bit (added l) i) /\ sent_req l <> ADD /\ sent_req l <> REM;
  b_state : established l = true -> in_contact (lp_state l);
  b_next : xact_next l = u8 (f_xact f + zlen (sub_msgs o));
  b_xact : forall j op d e, sub_msgs o !! j = Some (op, d, e) -> head d = Some (u8 (f_xact f + Z.of_nat j)) /\ (op = ADD \/ op = REM);
  b_list : forall i x, bit (added l) i -> group_at l i x -> bit (to_remove l) i \/ x ∈ f_list f;
  b_rem : forall j d e, (f_seen f <= j)%nat -> sub_msgs o !! j = Some (REM, d, e) ->
    forall i x, bit (added l) i -> group_at l i x -> x ∈ addrs d -> bit (to_remove l) i;
  b_seen : (f_seen f <= length (sub_msgs o))%nat;
  b_last : forall j, f_last f = Some j -> (j < f_seen f)%nat;
  b_cfms : forall j, j ∈ f_cfms f -> exists k, f_last f = Some k /\ (j <= k)%nat;
  b_done : forall j d e, f_last f = Some j -> S j = length (sub_msgs o) -> sub_msgs o !! j = Some (ADD, d, e) ->
    forall x, x ∈ addrs d -> x <> BT_MESH_ADDR_UNASSIGNED -> x ∈ f_list f
}.

(** What holds between operations: of the request that is under way. *)
Record settled (l : bt_mesh_lpn) (o : list lpn_out) : Prop := {
  s_quiet : sent_req l <> ADD -> sent_req l <> REM -> forall i, ~ bit (pending l) i;
  s_sent : sent_req l = ADD \/ sent_req l = REM -> exists d e, last (sub_msgs o) = Some (sent_req l, d, e) /\ head d = Some (xact_pending l);
  s_add : sent_req l = ADD -> exists d e, last (sub_msgs o) = Some (ADD, d, e) /\
    (forall i x, bit (pending l) i -> group_at l i x -> x ∈ addrs d) /\ forall i, bit (pending l) i -> i ∈ sub_entries ADD l
}.
Definition inv (f : friend_side) (l : bt_mesh_lpn) (o : list lpn_out) : Prop := base f l o /\ settled l o.

(** ** Bits *)

Lemma bit_dec l i : bit l i \/ ~ bit l i.
Proof. unfold bit. destruct (decide (l !! i = Some true)); [by left|by right]. Qed.

Lemma bit_at l i : (i < length l)%nat -> (l !!! i = true <-> bit l i).
Proof. intros Hi. unfold bit. destruct (lookup_lt_is_Some_2 _ _ Hi) as [b Hb]. rewrite (list_lookup_total_correct _ _ _ Hb), Hb. split; congruence. Qed.

Lemma bit_insert l k b i : bit (<[k := b]> l) i <-> if decide (i = k) then b = true /\ (k < length l)%nat else bit l i.
Proof.
  unfold bit. case_decide as Hd; [subst i|by rewrite list_lookup_insert_ne].
  destruct (decide (k < length l)%nat) as [Hk|Hk].
  - rewrite list_lookup_insert_eq by done. split; [intros [= ->]|intros [-> _]]; done.
  - rewrite lookup_ge_None_2 by (rewrite length_insert; lia). split; [done|lia].
Qed.

Lemma bit_zero l i : ~ bit (group_zero l) i.
Proof. unfold bit, group_zero. rewrite list_lookup_fmap. by destruct (l !! i). Qed.

Lemma bit_set a b i : length a = length b -> bit (group_set a b) i <-> bit a i \/ bit b i.
Proof.
  intros Hl. unfold bit, group_set. rewrite lookup_zip_with. destruct (a !! i) as [x|] eqn:Ea; cbn.
  - assert (is_Some (b !! i)) as [y Ey] by (apply lookup_lt_is_Some_2; rewrite <-Hl; by eapply lookup_lt_Some). rewrite Ey. cbn.
    destruct x, y; cbn; naive_solver.
  - assert (b !! i = None) as -> by (apply lookup_ge_None; rewrite <-Hl; by apply lookup_ge_None). naive_solver.
Qed.
Lemma bit_clear a b i : bit (group_clear a b) i -> bit a i /\ ~ bit b i.
Proof.
  unfold bit, group_clear. rewrite lookup_zip_with. destruct (a !! i) as [x|]; cbn; [|done]. destruct (b !! i) as [y|]; cbn; [|done].
  destruct x, y; cbn; naive_solver.
Qed.
Lemma bit_sets es l i : bit (mark_bits es l) i -> bit l i \/ i ∈ es.
Proof.
  unfold mark_bits. revert l. induction es as [|k es IH]; intros l Hb; [by left|]. cbn [foldl] in Hb. apply IH in Hb as [Hb|Hb]; [|right; by right].
  apply bit_insert in Hb. case_decide; [subst; right; by left|by left].
Qed.
Lemma length_sets es l : length (mark_bits es l) = length l.
Proof. unfold mark_bits. revert l. induction es as [|k es IH]; intros l; [done|]. cbn [foldl]. by rewrite IH, length_insert. Qed.

(** ** The entries a message takes *)

Lemma sub_pick_in op l idx : forall g i, i ∈ sub_pick op l idx g -> i ∈ idx /\ groups l !!! i <> BT_MESH_ADDR_UNASSIGNED /\
  (if op =? ADD then added l !!! i = false else to_remove l !!! i = true).
Proof.
  induction idx as [|k idx IH]; intros g i; cbn [sub_pick]; [by intros ?%elem_of_nil|].
  assert (forall g, i ∈ sub_pick op l idx g -> i ∈ k :: idx /\ groups l !!! i <> BT_MESH_ADDR_UNASSIGNED /\
    (if op =? ADD then added l !!! i = false else to_remove l !!! i = true)) as Hr.
  { intros g' Hi. destruct (IH _ _ Hi) as [H1 H2]. split; [by right|done]. }
  destruct (Z.eqb_spec (groups l !!! k) BT_MESH_ADDR_UNASSIGNED) as [E|E]; [apply Hr|].
  destruct (if op =? ADD then added l !!! k else negb (to_remove l !!! k)) eqn:Ek; [apply Hr|].
  destruct (_ <=? _); [by intros ?%elem_of_nil|]. intros [->|Hi]%elem_of_cons.
  - split; [by left|]. split; [done|]. destruct (op =? ADD); [done|by apply negb_false_iff].
  - destruct (_ =? ADDR_LIST_SIZE); [by apply elem_of_nil in Hi|by eapply Hr].
Qed.

Lemma sub_entries_in op l i : shape l -> i ∈ sub_entries op l ->
  exists x, group_at l i x /\ x <> BT_MESH_ADDR_UNASSIGNED /\ (op <> ADD -> bit (to_remove l) i).
Proof.
  intros [Hlen _ _ _] Hi. apply sub_pick_in in Hi as (Hi & Hx & Hb). apply elem_of_seq in Hi.
  assert (is_Some (groups l !! i)) as [x Ex] by (apply lookup_lt_is_Some_2; lia). rewrite (list_lookup_total_correct _ _ _ Ex) in Hx.
  exists x. split; [done|]. split; [done|]. intros Hop%Z.eqb_neq. rewrite Hop in Hb. apply bit_at; [lia|done].
Qed.

(** Entries stay entries while others become free. *)
Lemma sub_pick_mono l l' idx : added l' = added l -> lp_queue_size l' = lp_queue_size l ->
  (forall i, groups l' !!! i = groups l !!! i \/ groups l' !!! i = BT_MESH_ADDR_UNASSIGNED) ->
  forall g g' i, 0 <= g' <= g -> g <= 4 -> groups l' !!! i = groups l !!! i -> i ∈ sub_pick ADD l idx g -> i ∈ sub_pick ADD l' idx g'.
Proof.
  intros Ea Eq Hg. induction idx as [|k idx IH]; intros g g' i Hr Hr4 Ei; [done|]. cbn [sub_pick]. rewrite Ea, Eq.
  change (ADD =? ADD) with true. cbn iota.
  destruct (Z.eqb_spec (groups l !!! k) BT_MESH_ADDR_UNASSIGNED) as [E|E].
  { assert (groups l' !!! k = BT_MESH_ADDR_UNASSIGNED) as -> by (destruct (Hg k) as [->|]; done).
    rewrite Z.eqb_refl. by apply IH. }
  destruct (added l !!! k) eqn:Ek; [destruct (_ =? BT_MESH_ADDR_UNASSIGNED); by apply IH|].
  destruct (Z.leb_spec (lp_queue_size l) (group_popcount (added l) + g)) as [|Hq]; [by intros ?%elem_of_nil|].
  intros [->|Hi]%elem_of_cons.
  - rewrite Ei. destruct (Z.eqb_spec (groups l !!! k) BT_MESH_ADDR_UNASSIGNED); [done|].
    destruct (Z.leb_spec (lp_queue_size l) (group_popcount (added l) + g')); [lia|by left].
  - unfold ADDR_LIST_SIZE in *. destruct (Z.eqb_spec (g + 1) 5) as [|H5]; [by apply elem_of_nil in Hi|].
    destruct (_ =? BT_MESH_ADDR_UNASSIGNED); [eapply IH; [| |done|exact Hi]; lia|].
    destruct (Z.leb_spec (lp_queue_size l) (group_popcount (added l) + g')); [lia|]. right.
    destruct (Z.eqb_spec (g' + 1) 5); [lia|]. eapply IH; [| |done|exact Hi]; lia.
Qed.

(** ** What the invariant does not look at *)

Record same (l l' : bt_mesh_lpn) : Prop := {
  sa_groups : groups l' = groups l;
  sa_added : added l' = added l;
  sa_pending : pending l' = pending l;
  sa_to_remove : to_remove l' = to_remove l;
  sa_req : sent_req l' = sent_req l;
  sa_est : established l' = established l;
  sa_queue : lp_queue_size l' = lp_queue_size l;
  sa_next : xact_next l' = xact_next l;
  sa_xact : xact_pending l' = xact_pending l;
  sa_state : established l = true -> in_contact (lp_state l) -> in_contact (lp_state l')
}.

Lemma same_refl l : same l l.
Proof. by split. Qed.
Lemma same_trans l1 l2 l3 : same l1 l2 -> same l2 l3 -> same l1 l3.
Proof. intros [] []. split; try congruence. intros He Hc. apply sa_state1; [congruence|auto]. Qed.

(** Groups and removals may change where the Friend is not counted on. *)
Lemma base_change f l l' o : base f l o -> shape l' -> added l' = added l -> sent_req l' = sent_req l -> established l' = established l ->
  xact_next l' = xact_next l -> (established l = true -> in_contact (lp_state l) -> in_contact (lp_state l')) ->
  (forall i, bit (added l) i -> groups l' !! i = groups l !! i /\ (bit (to_remove l) i -> bit (to_remove l') i)) -> base f l' o.
Proof.
  intros [] Hs Ea Er Ee Ex Hc Hk. split; rewrite ?Ea, ?Er, ?Ee, ?Ex; try done.
  - intros He. apply Hc; auto.
  - intros i x Hi Hx. destruct (Hk i Hi) as [Eg Ht]. unfold group_at in *. rewrite Eg in Hx. destruct (b_list0 i x Hi Hx); [left; auto|by right].
  - intros j d e Hj Hm i x Hi Hx Hd. destruct (Hk i Hi) as [Eg Ht]. unfold group_at in *. rewrite Eg in Hx. apply Ht. eauto.
Qed.

Lemma shape_ext l l' : groups l' = groups l -> added l' = added l -> pending l' = pending l -> to_remove l' = to_remove l -> shape l -> shape l'.
Proof. intros Eg Ea Ep Et []. split; unfold group_at in *; rewrite ?Eg, ?Ea, ?Ep, ?Et; done. Qed.
Lemma shape_same l l' : same l l' -> shape l -> shape l'.
Proof. intros []. by apply shape_ext. Qed.

Lemma entries_ext op l l' : groups l' = groups l -> added l' = added l -> to_remove l' = to_remove l -> lp_queue_size l' = lp_queue_size l ->
  sub_entries op l' = sub_entries op l.
Proof.
  intros Eg Ea Et Eq. unfold sub_entries. rewrite Eg. generalize (List.seq 0 (length (groups l))), 0. intros idx.
  induction idx as [|k idx IH]; intros g; [done|]. cbn [sub_pick]. by rewrite Eg, Ea, Et, Eq, !IH.
Qed.
Lemma entries_same op l l' : same l l' -> sub_entries op l' = sub_entries op l.
Proof. intros []. by apply entries_ext. Qed.

Lemma base_msgs f l o o' : sub_msgs o' = sub_msgs o -> base f l o -> base f l o'.
Proof. intros E []. split; rewrite ?E; done. Qed.
Lemma settled_msgs l o o' : sub_msgs o' = sub_msgs o -> settled l o -> settled l o'.
Proof. intros E []. split; rewrite ?E; done. Qed.

Lemma base_same f l l' o : same l l' -> base f l o -> base f l' o.
Proof.
  intros Hs Hb. eapply base_change; [done|by eapply shape_same, b_shape|apply Hs..|]. intros i _. by destruct Hs as [-> _ _ ->].
Qed.
Lemma settled_same l l' o : same l l' -> settled l o -> settled l' o.
Proof.
  intros Hs []. pose proof (entries_same ADD _ _ Hs) as Ee. destruct Hs. split; rewrite ?sa_req0, ?sa_pending0, ?sa_xact0; [done..|].
  intros Ha. destruct (s_add0 Ha) as (d & e & H1 & H2 & H3). exists d, e. split; [done|]. unfold group_at in *. rewrite sa_groups0, Ee. done.
Qed.

(** ** Adding and removing groups *)

Lemma inv_group_add f l o g : 0 <= g < 65536 -> sent_req l <> ADD -> (forall i, group_at l i g -> ~ bit (to_remove l) i) ->
  inv f l o -> inv f (lpn_group_add g l) o.
Proof.
  intros Hg Hreq Hrem [Hb Hs]. pose proof (b_shape _ _ _ Hb) as Hsh. unfold lpn_group_add.
  pose proof (first_at_spec (fun x => x =? g) (groups l) 0) as Hf. destruct (first_at (fun x => x =? g) (groups l) 0) as [j|].
  - destruct Hf as (i & x & -> & Hi & ->%Z.eqb_eq). change (0 + i)%nat with i. split.
    + eapply base_change; [done| |done..|].
      * destruct Hsh. split; [cbn; by rewrite length_insert|done..].
      * intros k _. split; [done|]. intros Hk. apply bit_insert. case_decide; [subst; by destruct (Hrem i Hi)|done].
    + destruct Hs. split; [done..|]. intros Ha. by destruct Hreq.
  - pose proof (first_at_spec (fun x => x =? BT_MESH_ADDR_UNASSIGNED) (groups l) 0) as H0. destruct (first_at _ (groups l) 0) as [j|]; [|done].
    destruct H0 as (i & x & -> & Hi & ->%Z.eqb_eq). change (0 + i)%nat with i. pose proof (lookup_lt_Some _ _ _ Hi) as Hlt.
    assert (forall k, bit (added l) k \/ bit (pending l) k -> k <> i) as Hne.
    { intros k Hk ->. destruct (sh_used _ Hsh _ Hk) as (x & Hx & Hn). unfold group_at in Hx. congruence. }
    split.
    + eapply base_change; [done| |done..|].
      * destruct Hsh. split; change (groups (l <| groups ::= <[i := g]> |> <| groups_changed := true |>)) with (<[i := g]> (groups l)).
        -- by rewrite length_insert.
        -- by apply Forall_insert.
        -- intros a b x Ha Hb' Hx. unfold group_at in Ha, Hb'. cbn in Ha, Hb'. apply list_lookup_insert_Some in Ha, Hb'.
           destruct Ha as [(Ha1 & Ha2 & _)|[Hia Ha]], Hb' as [(Hb1 & Hb2 & _)|[Hib Hb']]; [congruence| | |by eapply sh_once0].
           ++ specialize (Hf b _ Hb'). apply Z.eqb_neq in Hf. congruence.
           ++ specialize (Hf a _ Ha). apply Z.eqb_neq in Hf. congruence.
        -- intros k Hk. destruct (sh_used0 k Hk) as (x & Hx & Hn). exists x. split; [|done]. unfold group_at. cbn.
           rewrite list_lookup_insert_ne; [done|]. intros <-. by apply (Hne i).
      * intros k Hk. split; [|done]. cbn. rewrite list_lookup_insert_ne; [done|]. intros <-. by apply (Hne i); [left|].
    + destruct Hs. split; [done..|]. intros Ha. by destruct Hreq.
Qed.

Lemma inv_group_del_at f l o g k : (k < length (groups l))%nat -> inv f l o -> inv f (group_del_at g l k) o.
Proof.
  intros Hk [Hb Hs]. pose proof (b_shape _ _ _ Hb) as Hsh. unfold group_del_at. destruct (_ =? g); [|by split].
  destruct (added l !!! k || pending l !!! k) eqn:E.
  - split.
    + eapply base_change; [done| |done..|].
      * destruct Hsh. split; [cbn; by rewrite length_insert|done..].
      * intros i _. split; [done|]. intros Hi. apply bit_insert. case_decide; [|done]. split; [done|]. destruct (sh_len _ Hsh). lia.
    + destruct Hs. split; [done..|]. intros Ha. destruct (s_add0 Ha) as (d & e & H1 & H2 & H3). exists d, e. split; [done|]. split; [done|].
      intros i Hi. specialize (H3 i Hi). unfold sub_entries in *. cbn [groups]. apply (sub_pick_mono l) with (g := 0); [done|done|by left|lia|lia|done|exact H3].
  - apply orb_false_iff in E as [Ea Ep]. destruct (sh_len _ Hsh) as (L1 & L2 & L3).
    assert (forall i, bit (added l) i \/ bit (pending l) i -> i <> k) as Hne.
    { intros i [Hi|Hi] ->; apply bit_at in Hi; (congruence || lia). }
    set (l' := l <| groups ::= <[k := BT_MESH_ADDR_UNASSIGNED]> |>).
    assert (forall i, i <> k -> groups l' !! i = groups l !! i) as Hg by (intros i Hi; by apply list_lookup_insert_ne).
    split.
    + eapply base_change; [done| |done..|].
      * destruct Hsh. split; change (groups l') with (<[k := BT_MESH_ADDR_UNASSIGNED]> (groups l)).
        -- by rewrite length_insert.
        -- by apply Forall_insert.
        -- intros a b x Ha Hb' Hx. unfold group_at in Ha, Hb'. cbn in Ha, Hb'. apply list_lookup_insert_Some in Ha, Hb'.
           destruct Ha as [(_ & Ha & _)|[_ Ha]]; [congruence|]. destruct Hb' as [(_ & Hb' & _)|[_ Hb']]; [congruence|by eapply sh_once0].
        -- intros i Hi. destruct (sh_used0 i Hi) as (x & Hx & Hn). exists x. split; [|done]. unfold group_at. rewrite Hg; [done|auto].
      * intros i Hi. split; [|done]. apply Hg. auto.
    + destruct Hs. split; [done..|]. intros Ha. destruct (s_add0 Ha) as (d & e & H1 & H2 & H3). exists d, e. split; [done|]. split.
      * intros i x Hi Hx. unfold group_at in Hx. rewrite Hg in Hx by auto. eauto.
      * intros i Hi. specialize (H3 i Hi). unfold sub_entries in *. change (groups l') with (<[k := BT_MESH_ADDR_UNASSIGNED]> (groups l)) at 1.
        rewrite length_insert. apply (sub_pick_mono l) with (g := 0); [done|done| |lia|lia| |exact H3].
        -- intros j. destruct (decide (j = k)) as [->|Hj].
           ++ right. apply list_lookup_total_correct. by apply list_lookup_insert_eq.
           ++ left. rewrite !list_lookup_total_alt, Hg by done. done.
        -- rewrite !list_lookup_total_alt, Hg by auto. done.
Qed.

Lemma length_group_del_at g l k : length (groups (group_del_at g l k)) = length (groups l).
Proof. unfold group_del_at. destruct (_ =? _); [|done]. destruct (_ || _); [done|apply length_insert]. Qed.

Lemma inv_group_del f l o g : inv f l o -> inv f (lpn_group_del g l) o.
Proof.
  intros Hi. unfold lpn_group_del. remember (length (groups l)) as n eqn:En. assert (forall k, k ∈ List.seq 0 n -> (k < n)%nat) as Hk.
  { intros k Hk. apply elem_of_seq in Hk. lia. }
  revert l Hi En Hk. generalize (List.seq 0 n). intros ks. induction ks as [|k ks IH]; intros l Hi En Hk; [done|]. cbn [foldl]. apply IH.
  - apply inv_group_del_at; [rewrite <-En; apply Hk; by left|done].
  - by rewrite length_group_del_at.
  - intros k' Hk'. apply Hk. by right.
Qed.

(** ** Confirmations *)

Definition nothing_pending (l : bt_mesh_lpn) : Prop := forall i, ~ bit (pending l) i.

(** The Friend has got the last message. *)
Definition up_to_date (f : friend_side) (o : list lpn_out) : Prop :=
  f_seen f = length (sub_msgs o) /\ exists j, f_last f = Some j /\ S j = length (sub_msgs o).

Lemma last_msg o j m : S j = length (sub_msgs o) -> last (sub_msgs o) = Some m -> sub_msgs o !! j = Some m.
Proof. rewrite last_lookup. intros <-. done. Qed.

Lemma b_connected f l o : base f l o -> sent_req l = ADD \/ sent_req l = REM -> established l = true.
Proof. intros Hb Hr. destruct (established l) eqn:E; [done|]. destruct (b_alone _ _ _ Hb E) as (_ & H1 & H2). by destruct Hr. Qed.

Lemma base_confirm_add f l o : inv f l o -> sent_req l = ADD -> up_to_date f o ->
  let l' := l <| added := group_set (added l) (pending l) |> <| pending ::= group_zero |> in base f l' o /\ nothing_pending l'.
Proof.
  intros [Hb Hs] Hr (Hseen & j & Hj & Hlen). cbv zeta. set (l' := setter _ _ _). split; [|intros i; apply bit_zero].
  destruct (sh_len _ (b_shape _ _ _ Hb)) as (L1 & L2 & L3).
  assert (forall i, bit (added l') i <-> bit (added l) i \/ bit (pending l) i) as Hadd by (intros i; apply bit_set; lia).
  destruct (s_add _ _ Hs Hr) as (d & e & Hm & Hd & _). apply (last_msg _ j) in Hm; [|done].
  assert (established l = true) as He by (eapply b_connected; eauto). pose proof (b_done _ _ _ Hb) as Hdone. destruct Hb. split; [|done|intros E; change (established l = false) in E; congruence|done|done|done| | |done|done|done|done].
  - destruct b_shape0. split; cbn; [|done|done|].
    + unfold group_set, group_zero. rewrite length_zip_with, length_map. lia.
    + intros i [Hi|Hi]; [exact (sh_used0 i (proj1 (Hadd i) Hi))|exfalso; eapply bit_zero; exact Hi].
  - intros i x Hi Hx. destruct (proj1 (Hadd i) Hi) as [Ha|Ha]; [by apply (b_list0 i)|]. right. change (group_at l i x) in Hx.
    destruct (sh_used _ b_shape0 i (or_intror Ha)) as (y & Hy & Hn). assert (y = x) as -> by (unfold group_at in *; congruence).
    eapply Hdone; eauto.
  - intros k d' e' Hk Hm'. apply lookup_lt_Some in Hm'. lia.
Qed.

(** The loop for a removal: what has been removed is no longer pending, and the Friend is
    not counted on for it. *)
Record removing (l0 : bt_mesh_lpn) (n : nat) (l : bt_mesh_lpn) : Prop := {
  rm_added : added l = group_clear (added l0) (pending l0);
  rm_len : length (groups l) = length (groups l0) /\ length (pending l) = length (pending l0) /\ length (to_remove l) = length (to_remove l0);
  rm_u16 : Forall (fun x => 0 <= x < 65536) (groups l);
  rm_once : forall i j x, group_at l i x -> group_at l j x -> x <> BT_MESH_ADDR_UNASSIGNED -> i = j;
  rm_pending : forall i, bit (pending l) i -> bit (pending l0) i /\ (n <= i)%nat;
  rm_rest : forall i, ~ bit (pending l0) i -> groups l !! i = groups l0 !! i /\ to_remove l !! i = to_remove l0 !! i;
  rm_same : sent_req l = sent_req l0 /\ established l = established l0 /\ xact_next l = xact_next l0 /\ lp_state l = lp_state l0
}.

Lemma removed_step l0 n l : shape l0 -> (n < length (groups l0))%nat -> removing l0 n l -> removing l0 (S n) (removed_at l n).
Proof.
  intros Hsh Hn []. destruct (sh_len _ Hsh) as (L1 & L2 & L3). destruct rm_len0 as (M1 & M2 & M3). unfold removed_at.
  assert (forall i, bit (<[n := false]> (pending l)) i -> bit (pending l0) i /\ (S n <= i)%nat) as Hp.
  { intros i Hi. apply bit_insert in Hi. case_decide as Hd; [by destruct Hi|]. destruct (rm_pending0 i Hi). split; [done|lia]. }
  destruct (pending l !!! n) eqn:E.
  - apply bit_at in E; [|lia]. destruct (rm_pending0 n E) as [Hn0 _].
    assert (forall i, ~ bit (pending l0) i -> i <> n) as Hne by (intros i Hi ->; done).
    destruct (to_remove l !!! n).
    + split; cbn; rewrite ?length_insert; [exact rm_added0|done|by apply Forall_insert| |exact Hp| |done].
      * intros a b x Ha Hb Hx. unfold group_at in Ha, Hb. cbn in Ha, Hb. apply list_lookup_insert_Some in Ha, Hb.
        destruct Ha as [(_ & Ha & _)|[_ Ha]]; [congruence|]. destruct Hb as [(_ & Hb & _)|[_ Hb]]; [congruence|by eapply rm_once0].
      * intros i Hi. specialize (Hne i Hi). rewrite !list_lookup_insert_ne by done. by apply rm_rest0.
    + split; cbn; rewrite ?length_insert; [exact rm_added0|done|done|exact rm_once0|exact Hp| |done].
      intros i Hi. specialize (Hne i Hi). rewrite !list_lookup_insert_ne by done. by apply rm_rest0.
  - split; cbn; rewrite ?length_insert; [exact rm_added0|done|done|exact rm_once0|exact Hp|exact rm_rest0|done].
Qed.

Lemma base_confirm_rem f l o : inv f l o -> sent_req l = REM -> up_to_date f o ->
  let l' := foldl removed_at (l <| added := group_clear (added l) (pending l) |>) (List.seq 0 (length (groups l))) in
  base f l' o /\ nothing_pending l'.
Proof.
  intros [Hb Hs] Hr (Hseen & _). cbv zeta. pose proof (b_shape _ _ _ Hb) as Hsh. destruct (sh_len _ Hsh) as (L1 & L2 & L3).
  assert (removing l (length (groups l)) (foldl removed_at (l <| added := group_clear (added l) (pending l) |>) (List.seq 0 (length (groups l))))) as Hrm.
  { assert (forall n k l', removing l k l' -> (k + n <= length (groups l))%nat -> removing l (k + n) (foldl removed_at l' (List.seq k n))) as Hloop.
    { induction n as [|n IH]; intros k l' Hl Hk; cbn [List.seq foldl]; [by replace (k + 0)%nat with k by lia|].
      replace (k + S n)%nat with (S k + n)%nat by lia. apply IH; [|lia]. apply removed_step; [done|lia|done]. }
    apply (Hloop (length (groups l)) 0%nat); [|lia]. split; cbn; [done..|apply Hsh|apply Hsh| |done|done]. intros i Hi. split; [done|lia]. }
  set (l' := foldl _ _ _) in *. clearbody l'. destruct Hrm. destruct rm_same0 as (E1 & E2 & E3 & E4).
  assert (nothing_pending l') as Hnp.
  { intros i Hi. destruct (rm_pending0 i Hi) as [Hi0 Hl]. apply lookup_lt_Some in Hi0. lia. }
  assert (forall i, bit (added l') i -> bit (added l) i /\ groups l' !! i = groups l !! i /\ to_remove l' !! i = to_remove l !! i) as Hadd.
  { intros i Hi. rewrite rm_added0 in Hi. apply bit_clear in Hi as [Hi Hp]. split; [done|]. by apply rm_rest0. }
  split; [|done]. destruct Hb. split; rewrite ?E1, ?E2, ?E3, ?E4; try done.
  - destruct rm_len0 as (M1 & M2 & M3). split; [rewrite rm_added0; unfold group_clear; rewrite length_zip_with; lia|done|done|].
    intros i [Hi|Hi]; [|by destruct (Hnp i)]. destruct (Hadd i Hi) as (Ha & Hg & _). destruct (sh_used _ Hsh i (or_introl Ha)) as (x & Hx & Hn).
    exists x. unfold group_at in *. by rewrite Hg.
  - intros He. destruct (b_alone0 He) as (H1 & H2 & H3). split; [|done]. intros i Hi. by destruct (Hadd i Hi) as [?%H1 _].
  - intros i x Hi Hx. destruct (Hadd i Hi) as (Ha & Hg & Ht). unfold group_at in *. rewrite Hg in Hx. unfold bit at 1. rewrite Ht. by apply (b_list0 i).
  - intros k d' e' Hk Hm'. apply lookup_lt_Some in Hm'. lia.
Qed.

(** A confirmation that fits the request under way is one for it. *)
Lemma confirm_fits f l o j d e op : inv f l o -> sent_req l = ADD \/ sent_req l = REM -> j ∈ f_cfms f -> sub_msgs o !! j = Some (op, d, e) ->
  (length (sub_msgs o) <= j + 256)%nat -> head d = Some (xact_pending l) -> up_to_date f o.
Proof.
  intros [Hb Hs] Hr Hj Hm Hnear Hx. destruct (s_sent _ _ Hs Hr) as (d' & e' & Hm' & Hx'). rewrite last_lookup in Hm'.
  destruct (b_xact _ _ _ Hb _ _ _ _ Hm) as [Hd _]. destruct (b_xact _ _ _ Hb _ _ _ _ Hm') as [Hd' _].
  pose proof (lookup_lt_Some _ _ _ Hm) as Hlt. assert (u8 (f_xact f + Z.of_nat j) = u8 (f_xact f + Z.of_nat (pred (length (sub_msgs o))))) as Eu by congruence.
  assert (j = pred (length (sub_msgs o))) as Ej.
  { unfold u8 in Eu. assert ((Z.of_nat (pred (length (sub_msgs o))) - Z.of_nat j) mod 256 = 0) as E0.
    { replace (Z.of_nat (pred (length (sub_msgs o))) - Z.of_nat j) with ((f_xact f + Z.of_nat (pred (length (sub_msgs o)))) - (f_xact f + Z.of_nat j)) by lia.
      rewrite Zminus_mod, Eu, Z.sub_diag. done. }
    rewrite Z.mod_small in E0 by lia. lia. }
  destruct (b_cfms _ _ _ Hb j Hj) as (k & Hk & Hjk). pose proof (b_last _ _ _ Hb k Hk). pose proof (b_seen _ _ _ Hb).
  split; [lia|]. exists k. split; [done|lia].
Qed.

(** ** Sending and clearing *)

Lemma base_set_req f l o v : v = 0 \/ v = POLL -> base f l o -> base f (l <| sent_req := v |>) o.
Proof.
  intros Hv []. split; try done.
  - by eapply shape_ext; [..|exact b_shape0].
  - destruct Hv as [->| ->]; [by left|by right; left].
  - intros He. destruct (b_alone0 He) as (H1 & _). split; [done|]. by destruct Hv as [->| ->].
Qed.
Lemma settled_set_req l o v : v = 0 \/ v = POLL -> nothing_pending l -> settled (l <| sent_req := v |>) o.
Proof. intros Hv Hn. split; cbn; [done|..]; destruct Hv as [->| ->]; by try intros [?|?]. Qed.

Lemma base_set_pending f l o p : base f l o -> length p = length (groups l) ->
  (forall i, bit p i -> exists x, group_at l i x /\ x <> BT_MESH_ADDR_UNASSIGNED) -> base f (l <| pending := p |>) o.
Proof.
  intros Hb Hl Hp. eapply base_change; [exact Hb| |done..]. destruct (b_shape _ _ _ Hb). split; [destruct sh_len0 as (? & ? & ?); done|done|done|].
  intros i [Hi|Hi]; [by apply sh_used0; left|by apply Hp].
Qed.

Lemma base_no_pending f l o : base f l o -> base f (l <| pending ::= group_zero |>) o.
Proof.
  intros Hb. change (base f (l <| pending := group_zero (pending l) |>) o). apply base_set_pending; [done| |].
  - unfold group_zero. rewrite length_map. by destruct (sh_len _ (b_shape _ _ _ Hb)) as (? & ? & ?).
  - intros i Hi. by apply bit_zero in Hi.
Qed.

Lemma sub_msgs_app o e : sub_msgs (o ++ [e]) = sub_msgs o ++ match sub_msg e with Some m => [m] | None => [] end.
Proof. unfold sub_msgs. rewrite omap_app. cbn [omap list_omap]. by destruct (sub_msg e). Qed.
Lemma sub_msgs_other o e : sub_msg e = None -> sub_msgs (o ++ [e]) = sub_msgs o.
Proof. intros E. rewrite sub_msgs_app, E. apply app_nil_r. Qed.

(** The request a message is for. *)
Definition request (l : bt_mesh_lpn) (op : Z) : list Z :=
  xact_next l :: flat_map (fun i => sys_put_be16 (groups l !!! i)) (sub_entries op l).
Definition sending (l : bt_mesh_lpn) (op : Z) : bt_mesh_lpn :=
  l <| pending ::= mark_bits (sub_entries op l) |> <| xact_next ::= (fun x => u8 (x + 1)) |>.

Lemma request_addrs l op : shape l -> addrs (request l op) = map (fun i => groups l !!! i) (sub_entries op l).
Proof.
  intros Hsh. unfold addrs, request. cbn [drop]. rewrite drop_0.
  replace (flat_map (fun i => sys_put_be16 (groups l !!! i)) (sub_entries op l))
    with (flat_map sys_put_be16 (map (fun i => groups l !!! i) (sub_entries op l))).
  - apply words_of. apply Forall_forall. intros x [i [-> Hi]]%list_elem_of_fmap. destruct (sub_entries_in _ _ _ Hsh Hi) as (y & Hy & _).
    rewrite (list_lookup_total_correct _ _ _ Hy). pose proof (sh_u16 _ Hsh) as Hu. rewrite Forall_lookup in Hu. by eapply Hu.
  - induction (sub_entries op l) as [|i es IH]; [done|]. cbn [map flat_map]. by rewrite IH.
Qed.

Lemma base_send f l o op err local : op = ADD \/ op = REM -> base f l o ->
  base f (sending l op) (o ++ [CtlSent op (request l op) err local]).
Proof.
  intros Hop Hb. pose proof (b_shape _ _ _ Hb) as Hsh.
  assert (base f (l <| pending := mark_bits (sub_entries op l) (pending l) |>) o) as Hb1.
  { apply base_set_pending; [done| |].
    - rewrite length_sets. by destruct (sh_len _ Hsh) as (? & ? & ?).
    - intros i [Hi|Hi]%bit_sets; [apply (sh_used _ Hsh); by right|]. destruct (sub_entries_in _ _ _ Hsh Hi) as (x & Hx & Hn & _). by exists x. }
  assert (sub_msgs (o ++ [CtlSent op (request l op) err local]) = sub_msgs o ++ [(op, request l op, err)]) as Em.
  { rewrite sub_msgs_app. cbn [sub_msg]. by destruct Hop as [->| ->]. }
  destruct Hb1. split; rewrite ?Em; try done.
  - by eapply shape_ext; [..|exact b_shape0].
  - rewrite length_app. cbn. cbn in b_next0. rewrite b_next0. unfold u8. rewrite Zplus_mod_idemp_l. f_equal. cbn. lia.
  - intros j op' d e Hm. apply lookup_app_Some in Hm as [Hm|[Hj Hm]]; [by eapply b_xact0|].
    apply list_lookup_singleton_Some in Hm as [Hj0 [= <- <- <-]]. split; [|done]. cbn. f_equal. cbn in b_next0. rewrite b_next0. f_equal. lia.
  - intros j d e Hj Hm i x Hi Hx Hd. apply lookup_app_Some in Hm as [Hm|[Hj' Hm]]; [by eapply b_rem0|].
    apply list_lookup_singleton_Some in Hm as [_ [= -> <- <-]]. rewrite request_addrs in Hd by done.
    apply list_elem_of_fmap in Hd as (i' & -> & Hi'). destruct (sub_entries_in _ _ _ Hsh Hi') as (y & Hy & Hn & Ht).
    rewrite (list_lookup_total_correct _ _ _ Hy) in Hx. assert (i = i') as -> by (by eapply (sh_once _ Hsh)). by apply Ht.
  - rewrite length_app. lia.
  - intros j d e Hj Hlen. rewrite length_app in Hlen. cbn in Hlen. specialize (b_last0 j Hj). lia.
Qed.

(** What was pending before is asked for again. *)
Definition asked_again (op : Z) (l : bt_mesh_lpn) : Prop := op = ADD -> forall i, bit (pending l) i -> i ∈ sub_entries op l.

Lemma settled_send l o op err local l1 : op = ADD \/ op = REM -> shape l -> asked_again op l -> same (sending l op) l1 ->
  settled (l1 <| xact_pending := xact_next l |> <| sent_req := op |>) (o ++ [CtlSent op (request l op) err local]).
Proof.
  intros Hop Hsh Hag Hs. pose proof (entries_same op _ _ Hs) as Ee.
  assert (sub_entries op (sending l op) = sub_entries op l) as E0.
  { by apply entries_ext. }
  assert (last (sub_msgs (o ++ [CtlSent op (request l op) err local])) = Some (op, request l op, err)) as Em.
  { assert (sub_msg (CtlSent op (request l op) err local) = Some (op, request l op, err)) as E by (by destruct Hop as [->| ->]).
    rewrite sub_msgs_app, E. apply last_snoc. }
  destruct Hs as [Eg _ Ep _ _ _ _ _ _ _]. split; cbn.
  - destruct Hop as [->| ->]; intros; done.
  - intros _. exists (request l op), err. split; [exact Em|done].
  - intros ->. exists (request l ADD), err. split; [exact Em|].
    assert (forall i, bit (pending l1) i -> i ∈ sub_entries ADD l) as Hp.
    { intros i Hi. rewrite Ep in Hi. apply bit_sets in Hi as [Hi|Hi]; [by apply Hag|done]. }
    split.
    + intros i x Hi Hx. unfold group_at in Hx. cbn in Hx. rewrite Eg in Hx. rewrite request_addrs by done. apply list_elem_of_fmap.
      exists i. split; [|by apply Hp]. by rewrite (list_lookup_total_correct _ _ _ Hx).
    + intros i Hi. change (i ∈ sub_entries ADD (l1 <| xact_pending := xact_next l |> <| sent_req := ADD |>)).
      rewrite (entries_ext ADD l1), Ee, E0 by done. by apply Hp.
Qed.

(** The end of a friendship. *)
Lemma inv_clear f l l' o : base f l o -> groups l' = groups l -> added l' = group_zero (added l) -> pending l' = group_zero (pending l) ->
  to_remove l' = group_zero (to_remove l) -> sent_req l' = 0 -> established l' = false -> xact_next l' = xact_next l -> inv f l' o.
Proof.
  intros Hb Eg Ea Ep Et Er Ee Ex. assert (forall i, ~ bit (added l') i) as Hna by (intros i; rewrite Ea; apply bit_zero).
  assert (nothing_pending l') as Hnp by (intros i; rewrite Ep; apply bit_zero). destruct Hb. split.
  - split; rewrite ?Er, ?Ee, ?Ex; try done.
    + destruct b_shape0. split; unfold group_at in *; rewrite ?Eg; [|done|done|].
      * rewrite Ea, Ep, Et. unfold group_zero. by rewrite !length_map.
      * intros i [Hi|Hi]; [by destruct (Hna i)|by destruct (Hnp i)].
    + by left.
    + intros i x Hi. by destruct (Hna i).
    + intros j d e _ _ i x Hi. by destruct (Hna i).
  - split; rewrite ?Er; [done| |done]. by intros [?|?].
Qed.

(** ** What the Friend does *)

(** It gets the [j]-th message, and none of those before that it has not seen; there is room
    in its list. *)
Definition friend_gets (j : nat) (op : Z) (d : list Z) (f : friend_side) : friend_side :=
  mk_side (bt_mesh_friend_sub op d (f_list f)) (S j) (Some j) (j :: f_cfms f) (f_xact f).

Lemma inv_friend_gets f l o j op d e : inv f l o -> (f_seen f <= j)%nat -> sub_msgs o !! j = Some (op, d, e) ->
  (op = ADD -> (length (addrs d) <= free_entries (f_list f))%nat) -> inv (friend_gets j op d f) l o.
Proof.
  intros [Hb Hs] Hj Hm Hroom. split; [|done]. pose proof (b_shape _ _ _ Hb) as Hsh. pose proof (lookup_lt_Some _ _ _ Hm) as Hlt. destruct Hb. split; try done.
  - intros i x Hi Hx. destruct (b_list0 i x Hi Hx) as [?|Hin]; [by left|].
    destruct (sh_used _ Hsh i (or_introl Hi)) as (y & Hy & Hn). assert (y = x) as -> by (unfold group_at in *; congruence). cbn.
    destruct (decide (op = ADD)) as [->|Hop]; [right; by apply (friend_adds _ _ (Hroom eq_refl))|].
    destruct (decide (x ∈ addrs d)) as [Hd|Hd]; [|right; by apply friend_removes]. left.
    destruct (b_xact0 _ _ _ _ Hm) as [_ [->| ->]]; [done|]. by eapply b_rem0.
  - intros k d' e' Hk. apply b_rem0. cbn in Hk. lia.
  - intros k [= <-]. cbn. lia.
  - intros k [->|Hk]%elem_of_cons; exists j; (split; [done|]); [lia|]. destruct (b_cfms0 k Hk) as (m & Hm' & Hle). specialize (b_last0 m Hm'). lia.
  - intros k d' e' [= <-] _ Hm' x Hx Hn. cbn. rewrite Hm in Hm'. injection Hm' as -> -> ->. exact (proj1 (friend_adds _ _ (Hroom eq_refl)) x Hx Hn).
Qed.

(** Without a friendship: another Friend, with any list, that has seen nothing of before. *)
Lemma inv_friend_new f l o F : inv f l o -> established l = false -> inv (mk_side F (length (sub_msgs o)) None [] (f_xact f)) l o.
Proof.
  intros [Hb Hs] He. split; [|done]. destruct (b_alone _ _ _ Hb He) as [Hna _]. destruct Hb. split; try done.
  - intros i x Hi. by destruct (Hna i).
  - intros j d e _ _ i x Hi. by destruct (Hna i).
  - by intros j ?%elem_of_nil.
Qed.

(** * Triples *)

Section Triples.

Context {W : Type} `{MeshCrypto W}.
Notation st := (lpn_node W).

(** What an operation that succeeds makes of the node and its log. *)
Definition triple {A} (P : bt_mesh_lpn -> list lpn_out -> Prop) (m : M st A) (Q : A -> bt_mesh_lpn -> list lpn_out -> Prop) : Prop :=
  forall s a s', P (l_lpn s) (l_out s) -> m s = (Ok a, s') -> Q a (l_lpn s') (l_out s').

Lemma ltriple_bind {A B} P (m : M st A) Q (f : A -> M st B) R : triple P m Q -> (forall a, triple (Q a) (f a) R) -> triple P (m ≫= f) R.
Proof. intros Hm Hf s b s' HP E. apply bind_inv in E as (a & s1 & E1 & E2). eapply Hf; [|exact E2]. by eapply Hm. Qed.
Lemma triple_weaken {A} (P P' : bt_mesh_lpn -> list lpn_out -> Prop) (m : M st A) (Q Q' : A -> bt_mesh_lpn -> list lpn_out -> Prop) :
  triple P m Q -> (forall l o, P' l o -> P l o) -> (forall a l o, Q a l o -> Q' a l o) -> triple P' m Q'.
Proof. intros Hm HP HQ s a s' Hs E. eapply HQ, Hm; [by apply HP|exact E]. Qed.
Lemma ltriple_ret {A} (P : A -> bt_mesh_lpn -> list lpn_out -> Prop) a : triple (P a) (mret a) P.
Proof. by intros s b s' HP [= <- <-]. Qed.
Lemma triple_lpn P : triple P (gets l_lpn) (fun a l o => P l o /\ a = l).
Proof. by intros s a s' HP [= <- <-]. Qed.
Lemma ltriple_gets {A} P (g : st -> A) : triple P (gets g) (fun _ => P).
Proof. by intros s a s' HP [= <- <-]. Qed.
Lemma ltriple_checked {A} P (x : option A) : triple P (checked x) (fun a l o => P l o /\ x = Some a).
Proof. intros s a s' HP. unfold checked. destruct x; [by intros [= <- <-]|done]. Qed.
Lemma triple_upd P Q g : (forall l o, P l o -> Q () (g l) o) -> triple P (upd g) Q.
Proof. intros Hg s a s' HP [= <- <-]. by apply Hg. Qed.
Lemma triple_out P Q e : (forall l o, P l o -> Q () l (o ++ [e])) -> triple P (out e) Q.
Proof. intros Hg s a s' HP [= <- <-]. by apply Hg. Qed.
Lemma triple_when P b m (Q : unit -> bt_mesh_lpn -> list lpn_out -> Prop) :
  (b = true -> triple P m Q) -> (b = false -> forall l o, P l o -> Q () l o) -> triple P (when b m) Q.
Proof. intros Ht Hf. destruct b; [by apply Ht|]. intros s a s' HP [= <- <-]. by apply Hf. Qed.
Lemma ltriple_fact {A} (P : bt_mesh_lpn -> list lpn_out -> Prop) (F : Prop) (m : M st A) Q : (F -> triple P m Q) -> triple (fun l o => P l o /\ F) m Q.
Proof. intros Hm s a s' [HP HF]. by apply Hm. Qed.

(** Operations of the lower layers. *)
Lemma triple_trans {A} P (m : M (trans_node W) A) : triple P (in_trans m) (fun _ => P).
Proof. intros s a s' HP. unfold in_trans. destruct (m _) as [r t]. by intros [= _ <-]. Qed.
Lemma ltriple_attempt {A} P (m : M st A) (Q : A + Z -> bt_mesh_lpn -> list lpn_out -> Prop) :
  (forall s r s', P (l_lpn s) (l_out s) -> m s = (r, s') -> match r with Ok a => Q (inl a) | Err e => Q (inr e) | Crash => fun _ _ => True end (l_lpn s') (l_out s')) ->
  triple P (attempt m) Q.
Proof.
  intros Hm s a s' HP. unfold attempt. destruct (m s) as [r s1] eqn:E. specialize (Hm s r s1 HP E).
  destruct r; cbn in *; intros [= <- <-]; exact Hm.
Qed.
Lemma triple_attempt_trans {A} P (m : M (trans_node W) A) : triple P (attempt (in_trans m)) (fun _ => P).
Proof.
  apply ltriple_attempt. intros s r s' HP. unfold in_trans. destruct (m _) as [r' t]. intros [= <- <-]. by destruct r'.
Qed.

End Triples.
