(* ===== verification/LpnKeeps.v ===== *)
(** Every operation of the Low Power node keeps the invariant of [LpnSub.v]. *)

From S2P Require Import Prelude Byteorder BufSimple MeshDefs CryptoIf Crypto Subnet NetIv Net AppKeys Transport Lpn LpnSub.

Section Keeps.

Context {W : Type} `{MeshCrypto W}.
Context (cfg : net_cfg) (tcfg : trans_cfg) (lcfg : lpn_cfg) (env : lpn_env).
Notation st := (lpn_node W).

(** * What changes nothing that matters *)

Definition calm {A} (m : M st A) : Prop := forall s, same (l_lpn s) (l_lpn (m s).2) /\ sub_msgs (l_out (m s).2) = sub_msgs (l_out s).
Definition stable (P : bt_mesh_lpn -> list lpn_out -> Prop) : Prop :=
  forall l l' o o', same l l' -> sub_msgs o' = sub_msgs o -> P l o -> P l' o'.

Lemma calm_triple {A} P (m : M st A) : stable P -> calm m -> triple P m (fun _ => P).
Proof. intros HP Hm s a s' Hs E. destruct (Hm s) as [Hs1 Hs2]. rewrite E in Hs1, Hs2. by eapply HP. Qed.

Lemma calm_bind {A B} (m : M st A) (g : A -> M st B) : calm m -> (forall a, calm (g a)) -> calm (m ≫= g).
Proof.
  intros Hm Hg s. specialize (Hm s). unfold mbind, M_bind. destruct (m s) as [[a|e|] s1]; [|done|done].
  destruct (Hg a s1) as [H1 H2], Hm as [H3 H4]. split; [by eapply same_trans|]. cbn in *. by rewrite H2.
Qed.
Lemma calm_ret {A} (a : A) : calm (mret a).
Proof. intros s. split; [apply same_refl|done]. Qed.
Lemma calm_gets {A} (g : st -> A) : calm (gets g).
Proof. intros s. split; [apply same_refl|done]. Qed.
Lemma calm_checked {A} (x : option A) : calm (checked x).
Proof. intros s. unfold checked. destruct x; split; try done; apply same_refl. Qed.
Lemma calm_upd g : (forall l, same l (g l)) -> calm (upd g).
Proof. intros Hg s. split; [apply Hg|done]. Qed.
Lemma calm_out e : sub_msg e = None -> calm (out e).
Proof. intros He s. split; [apply same_refl|]. by apply sub_msgs_other. Qed.
Lemma calm_when b m : calm m -> calm (when b m).
Proof. intros Hm. destruct b; [done|apply calm_ret]. Qed.
Lemma calm_in_trans {A} (m : M (trans_node W) A) : calm (in_trans m).
Proof. intros s. unfold in_trans. destruct (m _) as [r t]. split; [apply same_refl|done]. Qed.
Lemma calm_attempt {A} (m : M st A) : calm m -> calm (attempt m).
Proof. intros Hm s. specialize (Hm s). unfold attempt. by destruct (m s) as [[a|e|] s1]. Qed.
Lemma calm_iv index flag : calm (iv_update cfg env index flag).
Proof. intros s. unfold iv_update. destruct (bt_mesh_net_iv_update _ _ _ _ _ _ _ _ _) as [b iv]. split; [apply same_refl|done]. Qed.

(** The states of a friendship. *)
Lemma calm_state x : in_contact x -> calm (lpn_set_state x).
Proof. intros Hx. apply calm_upd. by split. Qed.

Ltac calm_tac :=
  lazymatch goal with
  | |- calm (_ ≫= _) => apply calm_bind; [calm_tac|intros ?; calm_tac]
  | |- calm (mret _) => apply calm_ret
  | |- calm (gets _) => apply calm_gets
  | |- calm (checked _) => apply calm_checked
  | |- calm (upd _) => apply calm_upd; intros ?; first [by split | apply same_refl | idtac]
  | |- calm (timer _) => apply calm_upd; intros ?; by split
  | |- calm timer_cancel => apply calm_upd; intros ?; by split
  | |- calm (out _) => apply calm_out; first [done | idtac]
  | |- calm (when _ _) => apply calm_when; calm_tac
  | |- calm (in_trans _) => apply calm_in_trans
  | |- calm (in_subnets _) => apply calm_in_trans
  | |- calm (attempt _) => apply calm_attempt; calm_tac
  | |- calm (lpn_set_state _) => apply calm_state; unfold in_contact; tauto
  | |- calm (read_msg _ _) => apply calm_checked
  | |- calm (if _ then _ else _) => case_match; calm_tac
  | |- _ => idtac
  end.

Lemma calm_ctl_send tx op d cb m : op <> ADD -> op <> REM -> calm m -> calm (ctl_send cfg tcfg env tx op d cb m).
Proof.
  intros H1%Z.eqb_neq H2%Z.eqb_neq Hm. unfold ctl_send. calm_tac; [|done]. cbn [sub_msg]. by rewrite H1, H2.
Qed.

Lemma calm_creds_destroy i : calm (creds_destroy (W := W) i).
Proof. unfold creds_destroy. calm_tac. Qed.
Lemma calm_cred_create key : calm (friend_cred_create env key).
Proof. unfold friend_cred_create. calm_tac. Qed.
Lemma calm_creds_create i : calm (creds_create env i).
Proof. unfold creds_create. calm_tac; apply calm_cred_create. Qed.
Lemma calm_clear_sent_ok : calm (clear_sent_ok (W := W)).
Proof. unfold clear_sent_ok. calm_tac. Qed.
Lemma calm_send_clear : calm (send_friend_clear cfg tcfg env).
Proof. unfold send_friend_clear. calm_tac. apply calm_ctl_send; [done|done|apply calm_clear_sent_ok]. Qed.
Lemma calm_adv_started : calm (adv_started (W := W) env).
Proof. unfold adv_started. calm_tac. Qed.
Lemma calm_req_sent_ok : calm (req_send_end (W := W) lcfg env 0).
Proof. unfold req_send_end, adv_ended. calm_tac. Qed.
Lemma calm_req_sent : calm (req_sent (W := W) lcfg env).
Proof. unfold req_sent, req_send_start. calm_tac; [apply calm_adv_started|apply calm_req_sent_ok..]. Qed.

Lemma base_stable f : stable (base f).
Proof. intros l l' o o' Hs Hm Hb. by eapply base_same, base_msgs. Qed.
Lemma settled_stable : stable settled.
Proof. intros l l' o o' Hs Hm Hb. by eapply settled_same, settled_msgs. Qed.
Lemma inv_stable f : stable (inv f).
Proof. intros l l' o o' Hs Hm [H1 H2]. split; [by eapply base_stable|by eapply settled_stable]. Qed.
Lemma and_stable P Q : stable P -> stable Q -> stable (fun l o => P l o /\ Q l o).
Proof. intros HP HQ l l' o o' Hs Hm [H1 H2]. split; [by eapply HP|by eapply HQ]. Qed.
Lemma est_stable b : stable (fun l _ => established l = b).
Proof. intros l l' o o' [] _ E. congruence. Qed.
Lemma req_stable r : stable (fun l _ => sent_req l = r).
Proof. intros l l' o o' [] _ E. congruence. Qed.
Lemma pending_stable : stable (fun l _ => nothing_pending l).
Proof. intros l l' o o' Hs _ E. unfold nothing_pending. by rewrite (sa_pending _ _ Hs). Qed.

(** Whatever the state is. *)
Definition base0 (f : friend_side) (l : bt_mesh_lpn) (o : list lpn_out) : Prop := base f (l <| lp_state := BT_MESH_LPN_ESTABLISHED |>) o.
Lemma base_base0 f l o : base f l o -> base0 f l o.
Proof. intros Hb. eapply base_same; [|exact Hb]. split; try done. intros _ _. by left. Qed.
Lemma base0_stable f : stable (base0 f).
Proof. intros l l' o o' Hs Hm Hb. unfold base0. eapply base_same; [|eapply base_msgs; [exact Hm|exact Hb]]. destruct Hs. split; try done. Qed.
Lemma base0_state f l o x : base0 f l o -> base0 f (l <| lp_state := x |>) o.
Proof. done. Qed.

(** ** Requests that fail or end *)

Definition keeps {A} (m : M st A) : Prop := forall f, triple (inv f) m (fun _ => inv f).

Lemma calm_keeps {A} (m : M st A) : calm m -> keeps m.
Proof. intros Hm f. apply calm_triple; [apply inv_stable|done]. Qed.
Lemma lpn_keeps_bind {A B} (m : M st A) (g : A -> M st B) : keeps m -> (forall a, keeps (g a)) -> keeps (m ≫= g).
Proof. intros Hm Hg f. eapply ltriple_bind; [apply Hm|intros a; apply Hg]. Qed.
Lemma keeps_when b m : (b = true -> keeps m) -> keeps (when b m).
Proof. intros Hm f. apply triple_when; [intros E; by apply Hm|done]. Qed.
Lemma lpn_keeps_ret {A} (a : A) : keeps (mret a).
Proof. apply calm_keeps, calm_ret. Qed.

(** With a look at the state first. *)
Lemma keeps_lpn {A} (g : bt_mesh_lpn -> M st A) : (forall l f, triple (fun l' o => inv f l' o /\ l = l') (g l) (fun _ => inv f)) -> keeps (gets l_lpn ≫= g).
Proof. intros Hg f. eapply ltriple_bind; [apply triple_lpn|intros l; exact (Hg l f)]. Qed.

Lemma inv_quiet f l o : inv f l o -> sent_req l <> ADD -> sent_req l <> REM -> nothing_pending l.
Proof. intros [_ Hs] H1 H2. exact (s_quiet _ _ Hs H1 H2). Qed.
Lemma inv_no_req f l o v : v = 0 \/ v = POLL -> base f l o -> nothing_pending l -> inv f (l <| sent_req := v |>) o.
Proof. intros Hv Hb Hn. split; [by apply base_set_req|by apply settled_set_req]. Qed.
Lemma inv_given_up f l o : base f l o -> inv f (l <| sent_req := 0 |> <| pending ::= group_zero |>) o.
Proof.
  intros Hb. assert (l <| sent_req := 0 |> <| pending ::= group_zero |> = l <| pending ::= group_zero |> <| sent_req := 0 |>) as -> by done.
  apply inv_no_req; [by left|by apply base_no_pending|intros i; apply bit_zero].
Qed.
Lemma inv_alone f l o : inv f l o -> established l = false -> sent_req l <> ADD /\ sent_req l <> REM /\ nothing_pending l.
Proof.
  intros Hi He. destruct (b_alone _ _ _ (proj1 Hi) He) as (_ & H1 & H2). split; [done|]. split; [done|]. by eapply inv_quiet.
Qed.
(** Without a friendship the state is free. *)
Lemma inv_state f l o x : inv f l o -> established l = false -> inv f (l <| lp_state := x |>) o.
Proof. intros Hi He. eapply inv_stable; [|done|exact Hi]. split; try done. congruence. Qed.
Lemma inv_not_in_contact f l o : inv f l o -> ~ in_contact (lp_state l) -> established l = false.
Proof. intros [Hb _] Hn. destruct (established l) eqn:E; [|done]. by destruct Hn; eapply b_state. Qed.

(** * Each operation *)

(** ** Clearing *)

Lemma keeps_clear force disable : keeps (clear_friendship cfg tcfg lcfg env force disable).
Proof.
  intros f. unfold clear_friendship. eapply ltriple_bind; [apply triple_lpn|]. intros l.
  eapply ltriple_bind; [apply ltriple_checked|]. intros i. apply ltriple_fact. intros _.
  eapply ltriple_bind; [apply ltriple_gets|]. intros idx. destruct (_ && _).
  - eapply triple_weaken; [|intros ? ? HP; exact (proj1 HP)|intros ? ? ? HQ; exact HQ]. apply calm_triple; [apply inv_stable|].
    calm_tac. apply calm_send_clear.
  - eapply triple_weaken with (P := base0 f); [|intros l' o [Hi _]; apply base_base0, Hi|intros ? ? ? HQ; exact HQ].
    eapply ltriple_bind; [apply triple_trans|]. intros ?. eapply ltriple_bind; [apply triple_upd with (Q := fun _ => base0 f); intros; by apply base0_state|]. intros ?.
    do 4 (eapply ltriple_bind; [apply calm_triple; [apply base0_stable|calm_tac; apply calm_creds_destroy]|intros ?]).
    eapply ltriple_bind; [apply triple_upd with (Q := fun _ l o => inv f l o /\ established l = false)|intros ?].
    { intros l' o Hb. split; [|done]. eapply inv_clear; [exact Hb|done..]. }
    eapply ltriple_bind; [apply calm_triple; [apply and_stable; [apply inv_stable|apply est_stable]|calm_tac]|intros ?].
    eapply ltriple_bind with (Q := fun _ => inv f).
    + apply triple_when; [intros _|by intros _ l' o [Hi _]].
      eapply ltriple_bind; [apply triple_upd with (Q := fun _ => inv f); intros l' o [Hi He]; by apply inv_state|]. intros ?.
      apply calm_triple; [apply inv_stable|calm_tac].
    + intros ?. apply calm_triple; [apply inv_stable|calm_tac].
Qed.

(** ** Requests *)

Lemma keeps_friend_req_end err : keeps (friend_req_send_end lcfg env err).
Proof.
  apply keeps_lpn. intros l f. destruct (bool_decide_reflect (lp_state l = BT_MESH_LPN_ENABLED)) as [E|E]; cbn [negb].
  2: { eapply triple_weaken; [apply (ltriple_ret (fun _ => inv f))|intros ? ? HP; exact (proj1 HP)|done]. }
  destruct (negb _); [eapply triple_weaken; [apply (ltriple_ret (fun _ => inv f))|intros ? ? HP; exact (proj1 HP)|done]|].
  eapply triple_weaken with (P := fun l o => inv f l o /\ established l = false); [| |intros ? ? ? HQ; exact HQ].
  2: { intros l' o [Hi <-]. split; [done|]. eapply inv_not_in_contact; [done|]. rewrite E. by intros [?|[?|[?|?]]]. }
  pose proof (and_stable _ _ (inv_stable f) (est_stable false)) as Hst.
  eapply ltriple_bind; [apply calm_triple; [exact Hst|unfold adv_ended; calm_tac]|intros ?].
  eapply ltriple_bind; [apply calm_triple; [exact Hst|calm_tac]|intros l'].
  destruct (k_establishment _); (eapply ltriple_bind; [apply calm_triple; [exact Hst|calm_tac]|intros ?]);
    apply triple_upd; intros l2 o [Hi He]; by apply inv_state.
Qed.
Lemma keeps_friend_req_start err : keeps (friend_req_send_start lcfg env err).
Proof. apply lpn_keeps_bind; [apply calm_keeps, calm_adv_started|intros ?; apply keeps_when; intros _; apply keeps_friend_req_end]. Qed.

(** The message is in the log, and the callbacks run if it stays in the node. *)
Lemma triple_ctl_send {P Q} tx op d cb m :
  (forall err local, triple (fun l o => exists o0, P l o0 /\ o = o0 ++ [CtlSent op d err local]) (when local m) (fun _ => Q err)) ->
  triple P (ctl_send cfg tcfg env tx op d cb m) Q.
Proof.
  intros Hm. unfold ctl_send. eapply ltriple_bind; [apply ltriple_gets|intros l]. eapply ltriple_bind; [apply ltriple_gets|intros n].
  eapply ltriple_bind; [apply triple_attempt_trans|intros r]. eapply ltriple_bind; [apply ltriple_gets|intros ended].
  set (err := match r with inl _ => 0 | inr err => err end).
  eapply ltriple_bind; [apply triple_out with (Q := fun _ l o => exists o0, P l o0 /\ o = o0 ++ [CtlSent op d err ended]); intros l' o HP; by exists o|intros ?].
  eapply ltriple_bind; [apply Hm|intros ?]. apply (ltriple_ret Q).
Qed.

Lemma inv_other_msg f l o op d err local : op <> ADD -> op <> REM -> inv f l o -> inv f l (o ++ [CtlSent op d err local]).
Proof.
  intros H1%Z.eqb_neq H2%Z.eqb_neq. apply inv_stable; [apply same_refl|]. apply sub_msgs_other. cbn [sub_msg]. by rewrite H1, H2.
Qed.

Lemma keeps_friend_req f : triple (fun l o => inv f l o /\ established l = false) (send_friend_req cfg tcfg lcfg env) (fun _ => inv f).
Proof.
  unfold send_friend_req. pose proof (and_stable _ _ (inv_stable f) (est_stable false)) as Hst.
  eapply ltriple_bind; [apply calm_triple; [exact Hst|calm_tac]|intros ?]. eapply ltriple_bind; [apply ltriple_gets|intros l].
  eapply ltriple_bind; [apply ltriple_gets|intros sub]. eapply ltriple_bind; [apply calm_triple; [exact Hst|calm_tac]|intros ?].
  destruct sub as [i|]; [|eapply triple_weaken; [apply (ltriple_ret (fun _ => inv f))|intros ? ? HP; exact (proj1 HP)|done]].
  eapply ltriple_bind; [apply ltriple_gets|intros tx]. apply triple_ctl_send. intros err local.
  eapply triple_weaken with (P := inv f); [| |intros ? ? ? HQ; exact HQ].
  - apply keeps_when. intros _. apply lpn_keeps_bind; [apply keeps_friend_req_start|intros ?; apply keeps_friend_req_end].
  - intros l' o (o0 & [Hi _] & ->). by apply inv_other_msg.
Qed.

Lemma keeps_req_end err : keeps (req_send_end (W := W) lcfg env err).
Proof.
  destruct (Z.eqb_spec err 0) as [->|Herr]; [apply calm_keeps, calm_req_sent_ok|]. apply lpn_keeps_bind; [apply calm_keeps, calm_gets|intros l].
  destruct (bool_decide _); [apply lpn_keeps_ret|]. apply lpn_keeps_bind; [apply calm_keeps; unfold adv_ended; calm_tac|intros ?].
  apply Z.eqb_neq in Herr. rewrite Herr. cbn [negb]. intros f. apply triple_upd. intros l' o [Hb _]. by apply inv_given_up.
Qed.
Lemma keeps_req_start err : keeps (req_send_start (W := W) lcfg env err).
Proof. apply lpn_keeps_bind; [apply calm_keeps, calm_adv_started|intros ?; apply keeps_when; intros _; apply keeps_req_end]. Qed.

Lemma triple_poll f b : triple (fun l o => inv f l o /\ established l = b) (send_friend_poll cfg tcfg lcfg env) (fun _ l o => inv f l o /\ established l = b).
Proof.
  pose proof (and_stable _ _ (inv_stable f) (est_stable b)) as Hst0. eapply ltriple_bind; [apply triple_lpn|]. intros l.
  eapply ltriple_bind; [apply ltriple_checked|]. intros i. apply ltriple_fact. intros _.
  eapply ltriple_bind; [apply ltriple_gets|]. intros tx. destruct (Z.eqb_spec (sent_req l) 0) as [E|E]; cbn [negb].
  - eapply triple_weaken with (P := fun l o => (inv f l o /\ established l = b) /\ sent_req l = 0); [|intros l' o [[Hi He] <-]; done|intros ? ? ? HQ; exact HQ].
    pose proof (and_stable _ _ Hst0 (req_stable 0)) as Hst.
    eapply ltriple_bind with (Q := fun _ l o => (inv f l o /\ established l = b) /\ sent_req l = 0).
    + apply triple_ctl_send. intros err local. eapply triple_weaken with (P := fun l o => (inv f l o /\ established l = b) /\ sent_req l = 0); [| |intros ? ? ? HQ; exact HQ].
      * apply calm_triple; [exact Hst|]. apply calm_when, calm_req_sent.
      * intros l' o (o0 & [[Hi He] Hr] & ->). split; [split; [by apply inv_other_msg|done]|done].
    + intros err. eapply ltriple_bind with (Q := fun _ l o => inv f l o /\ established l = b); [|intros ?; apply (ltriple_ret (fun _ l o => inv f l o /\ established l = b))].
      apply triple_when; [intros _|by intros _ l' o [Hi _]]. apply triple_upd. intros l' o [[Hi He] Hr]. split; [|exact He].
      assert (nothing_pending l') as Hn by (eapply inv_quiet; [exact Hi|by rewrite Hr..]).
      apply (inv_stable f (l' <| sent_req := POLL |>) _ o); [by split|done|]. apply inv_no_req; [by right|apply Hi|done].
  - eapply triple_weaken; [apply calm_triple; [exact Hst0|calm_tac]|intros ? ? HP; exact (proj1 HP)|done].
Qed.
Lemma keeps_poll : keeps (send_friend_poll cfg tcfg lcfg env).
Proof. intros f s a s' Hi E. by eapply (triple_poll f (established (l_lpn s))). Qed.

(** ** Responses *)

Lemma triple_response f : triple (fun l o => base0 f l o /\ nothing_pending l) (friend_response_received (W := W) lcfg) (fun _ => inv f).
Proof.
  unfold friend_response_received. pose proof (and_stable _ _ (base0_stable f) pending_stable) as Hst0.
  pose proof (and_stable _ _ (base_stable f) pending_stable) as Hst.
  eapply ltriple_bind; [apply calm_triple; [exact Hst0|calm_tac; case_match; by split]|intros ?].
  eapply ltriple_bind; [apply triple_upd with (Q := fun _ l o => base f l o /\ nothing_pending l); intros l o HP; exact HP|intros ?].
  eapply ltriple_bind; [apply triple_upd with (Q := fun _ => inv f)|intros ?].
  { intros l o [Hb Hn]. apply (inv_stable f (l <| sent_req := 0 |>) _ o); [by split|done|]. apply inv_no_req; [by left|done|done]. }
  eapply ltriple_bind; [apply ltriple_gets|intros tx]. eapply ltriple_bind; [apply triple_lpn|intros l].
  destruct (poll_timeout lcfg tx l) as [timeout l1] eqn:E.
  eapply ltriple_bind; [apply triple_upd with (Q := fun _ => inv f)|intros ?; apply calm_triple; [apply inv_stable|calm_tac]].
  intros l' o [Hi <-]. apply (inv_stable f l _ o); [|done|done]. unfold poll_timeout in E. destruct tx; [injection E as _ <-; apply same_refl|].
  injection E as _ <-. case_match; by split.
Qed.
Lemma keeps_msg_received : keeps (bt_mesh_lpn_msg_received cfg tcfg lcfg env).
Proof.
  apply keeps_lpn. intros l f. destruct (bool_decide _).
  { eapply triple_weaken; [apply calm_triple; [apply (inv_stable f)|calm_tac]|intros ? ? HP; exact (proj1 HP)|done]. }
  destruct (negb (bool_decide _)); [eapply triple_weaken; [apply (ltriple_ret (fun _ => inv f))|intros ? ? HP; exact (proj1 HP)|done]|].
  destruct (Z.eqb_spec (sent_req l) POLL) as [E|E]; cbn [negb].
  2: { eapply triple_weaken; [apply (ltriple_ret (fun _ => inv f))|intros ? ? HP; exact (proj1 HP)|done]. }
  eapply ltriple_bind with (Q := fun _ => inv f).
  - eapply triple_weaken; [apply (triple_response f)| |done]. intros l' o [Hi <-]. split; [apply base_base0, Hi|]. eapply inv_quiet; [exact Hi|by rewrite E..].
  - intros ?. apply lpn_keeps_bind; [apply keeps_poll|intros ?; apply lpn_keeps_ret].
Qed.

(** ** The subscription list *)

Lemma asked_again_stable op : stable (fun l _ => asked_again op l).
Proof. intros l l' o o' Hs _ Ha Hop i. rewrite (sa_pending _ _ Hs), (entries_same _ _ _ Hs). by apply Ha. Qed.

(** Nothing to wait for: the request may be a repetition. *)
Definition ready (f : friend_side) (op : Z) (l : bt_mesh_lpn) (o : list lpn_out) : Prop :=
  base f l o /\ established l = true /\ (sent_req l = 0 -> asked_again op l) /\ (sent_req l <> 0 -> settled l o).

Lemma inv_ready f op l o : inv f l o -> established l = true -> ready f op l o.
Proof.
  intros Hi He. split; [apply Hi|]. split; [done|]. split; [|intros _; apply Hi]. intros Hr _ i Hb. exfalso.
  eapply (inv_quiet _ _ _ Hi); [by rewrite Hr..|exact Hb].
Qed.

Lemma triple_sub_update f op : op = ADD \/ op = REM ->
  triple (ready f op) (sub_update cfg tcfg lcfg env op) (fun _ l o => inv f l o /\ established l = true).
Proof.
  intros Hop. unfold sub_update. eapply ltriple_bind; [apply triple_lpn|]. intros l. eapply ltriple_bind; [apply ltriple_checked|]. intros i.
  apply ltriple_fact. intros _. eapply ltriple_bind; [apply ltriple_gets|]. intros tx.
  destruct (Z.eqb_spec (sent_req l) 0) as [E|E]; cbn [negb].
  2: { eapply triple_weaken; [apply (ltriple_ret (fun _ l o => inv f l o /\ established l = true))| |done].
       intros l' o [(Hb & He & _ & Hs) <-]. split; [split; [done|by apply Hs]|done]. }
  eapply triple_weaken with (P := fun l' o => base f l o /\ established l = true /\ asked_again op l /\ l' = l);
    [|intros l' o [(Hb & He & Ha & _) <-]; split_and!; [done|done|by apply Ha|done]|intros ? ? ? HQ; exact HQ].
  eapply ltriple_bind; [apply triple_upd with (Q := fun _ l' o => base f l o /\ established l = true /\ asked_again op l /\
    l' = l <| pending ::= mark_bits (sub_entries op l) |>); by intros l' o (Hb & He & Ha & ->)|intros ?].
  destruct (length (sub_entries op l) =? 0)%nat eqn:En.
  { apply Nat.eqb_eq, length_zero_iff_nil in En. eapply ltriple_bind; [|intros ?; apply (ltriple_ret (fun _ l o => inv f l o /\ established l = true))].
    apply triple_upd. intros l' o (Hb & He & _ & ->). rewrite En. split; [|done].
    assert (nothing_pending (l <| pending ::= group_zero |>)) as Hn by (intros k; apply bit_zero).
    pose proof (inv_no_req f (l <| pending ::= group_zero |>) o 0 (or_introl eq_refl) (base_no_pending _ _ _ Hb) Hn) as Hi.
    eapply inv_stable; [|done|exact Hi]. by split. }
  eapply ltriple_bind; [apply triple_upd with (Q := fun _ l' o => base f l o /\ established l = true /\ asked_again op l /\ l' = sending l op);
    by intros l' o (Hb & He & Ha & ->)|intros ?].
  change (xact_next l :: flat_map (fun i => sys_put_be16 (groups l !!! i)) (sub_entries op l)) with (request l op).
  (* sent, and perhaps the callbacks ran *)
  eapply ltriple_bind with (Q := fun err l' o => exists o0 local, base f l o0 /\ established l = true /\ asked_again op l /\
    same (sending l op) l' /\ sub_msgs o = sub_msgs (o0 ++ [CtlSent op (request l op) err local])).
  { apply triple_ctl_send. intros err local. eapply triple_weaken with (P := fun l' o => exists o0 local, base f l o0 /\ established l = true /\
      asked_again op l /\ same (sending l op) l' /\ sub_msgs o = sub_msgs (o0 ++ [CtlSent op (request l op) err local])); [| |intros ? ? ? HQ; exact HQ].
    - apply calm_triple; [|apply calm_when, calm_req_sent]. intros l1 l2 o1 o2 Hs Hm (o0 & local' & Hb & He & Ha & Hs' & Hm').
      exists o0, local'. split_and!; [done..|by eapply same_trans|congruence].
    - intros l' o (o0 & (Hb & He & Ha & ->) & ->). exists o0, local. split_and!; [done..|apply same_refl|done]. }
  intros err. destruct (err <? 0).
  - eapply ltriple_bind; [|intros ?; apply (ltriple_ret (fun _ l o => inv f l o /\ established l = true))]. apply triple_upd.
    intros l' o (o0 & local & Hb & He & _ & Hs & Hm). split; [|rewrite <-He; apply Hs].
    assert (base f l' o) as Hb' by (eapply base_same; [exact Hs|]; eapply base_msgs; [exact Hm|]; by apply base_send).
    assert (nothing_pending (l' <| pending ::= group_zero |>)) as Hn by (intros k; apply bit_zero).
    pose proof (inv_no_req f (l' <| pending ::= group_zero |>) o 0 (or_introl eq_refl) (base_no_pending _ _ _ Hb') Hn) as Hi.
    refine (inv_stable f _ _ o o _ eq_refl Hi). pose proof (sa_req _ _ Hs) as Er. change (sent_req (sending l op)) with (sent_req l) in Er. rewrite E in Er. by split.
  - eapply ltriple_bind; [|intros ?; apply (ltriple_ret (fun _ l o => inv f l o /\ established l = true))]. apply triple_upd.
    intros l' o (o0 & local & Hb & He & Ha & Hs & Hm). split; [|cbn; rewrite <-He; apply Hs]. split.
    + assert (base f l' o) as Hb' by (eapply base_same; [exact Hs|]; eapply base_msgs; [exact Hm|]; by apply base_send).
      assert (established l' = true) as He' by (rewrite <-He; apply Hs). pose proof (b_shape _ _ _ Hb') as Hsh'. destruct Hb'. split; try done.
      * by eapply shape_ext; [..|exact Hsh'].
      * right; right. exact Hop.
      * intros He2. change (established l' = false) in He2. congruence.
    + eapply settled_msgs; [exact Hm|]. by apply settled_send; [|apply Hb|..].
Qed.

Lemma keeps_groups_update f : triple (fun l o => inv f l o /\ established l = true) (groups_update cfg tcfg lcfg env) (fun _ l o => inv f l o /\ established l = true).
Proof.
  pose proof (and_stable _ _ (inv_stable f) (est_stable true)) as Hst. unfold groups_update. eapply ltriple_bind; [apply ltriple_gets|intros l].
  apply triple_when; [intros _|done].
  eapply ltriple_bind; [eapply triple_weaken; [apply (triple_sub_update f ADD); by left|intros ? ? [? ?]; by apply inv_ready|intros ? ? ? HQ; exact HQ]|intros ?].
  eapply ltriple_bind; [eapply triple_weaken; [apply (triple_sub_update f REM); by right|intros ? ? [? ?]; by apply inv_ready|intros ? ? ? HQ; exact HQ]|intros ?].
  apply calm_triple; [exact Hst|calm_tac].
Qed.

(** A list message is sent when nothing is under way. *)
Lemma triple_sub_now f op : op = ADD \/ op = REM ->
  triple (inv f) (l ← gets l_lpn; if negb (established l) || negb (sent_req l =? 0) then mret () else _ ← sub_update cfg tcfg lcfg env op; mret ())
    (fun _ => inv f).
Proof.
  intros Hop. eapply ltriple_bind; [apply triple_lpn|intros l]. destruct (established l) eqn:E; cbn [negb orb].
  2: { eapply triple_weaken; [apply (ltriple_ret (fun _ => inv f))|intros ? ? HP; exact (proj1 HP)|done]. }
  destruct (negb _); [eapply triple_weaken; [apply (ltriple_ret (fun _ => inv f))|intros ? ? HP; exact (proj1 HP)|done]|].
  eapply ltriple_bind; [eapply triple_weaken; [by apply (triple_sub_update f op)| |intros ? ? ? HQ; exact HQ]|intros ?].
  - intros l' o [Hi <-]. by apply inv_ready.
  - eapply triple_weaken; [apply (ltriple_ret (fun _ => inv f))|intros ? ? HP; exact (proj1 HP)|done].
Qed.

(** A group that is not to be removed, while no message to add groups is under way. *)
Definition can_add (g : Z) (l : bt_mesh_lpn) : Prop := 0 <= g < 65536 /\ sent_req l <> ADD /\ forall i, group_at l i g -> ~ bit (to_remove l) i.

Lemma keeps_group_add f g : triple (fun l o => inv f l o /\ can_add g l) (bt_mesh_lpn_group_add cfg tcfg lcfg env g) (fun _ => inv f).
Proof.
  unfold bt_mesh_lpn_group_add. eapply ltriple_bind; [apply triple_upd with (Q := fun _ => inv f)|intros ?; apply triple_sub_now; by left].
  intros l o (Hi & Hg & Hr & Hn). by apply inv_group_add.
Qed.
Lemma keeps_group_del l : keeps (bt_mesh_lpn_group_del cfg tcfg lcfg env l).
Proof.
  intros f. unfold bt_mesh_lpn_group_del. eapply ltriple_bind; [apply triple_upd with (Q := fun _ => inv f)|intros ?; apply triple_sub_now; by right].
  intros lp o. revert lp. induction l as [|g l IH]; intros lp Hi; [done|]. cbn [foldl]. apply IH. case_match; [by apply inv_group_del|done].
Qed.
(** Nothing is left to do. *)
Lemma keeps_done {A} f (a : A) P : (forall l o, P l o -> inv f l o) -> triple (W := W) P (mret a) (fun _ => inv f).
Proof. intros HP. eapply triple_weaken; [apply (ltriple_ret (fun _ => inv f) a)|exact HP|done]. Qed.
Lemma keeps_calm {A} f (m : M st A) P : (forall l o, P l o -> inv f l o) -> calm m -> triple P m (fun _ => inv f).
Proof. intros HP Hm. eapply triple_weaken; [apply calm_triple; [apply (inv_stable f)|exact Hm]|exact HP|done]. Qed.

Lemma response_established (s : st) u s' : friend_response_received lcfg s = (Ok u, s') -> established (l_lpn s') = established (l_lpn s).
Proof.
  intros E. cbv [friend_response_received mbind M_bind upd lpn_set_state gets timer out] in E.
  destruct (poll_timeout _ _ _) as [t l] eqn:Ep. injection E as _ <-. cbn. unfold poll_timeout in Ep.
  destruct (bt_mesh_tx_in_progress _); injection Ep as _ <-; [|case_match]; cbn; by case_match.
Qed.

(** What every confirmation ends with. *)
Lemma keeps_confirmed f (g : bt_mesh_lpn -> bt_mesh_lpn) P : (forall l o, P l o -> established l = true /\ base f (g l) o /\ nothing_pending (g l) /\ established (g l) = established l) ->
  triple P (_ ← upd g; _ ← friend_response_received lcfg; _ ← groups_update cfg tcfg lcfg env; l ← gets l_lpn;
            _ ← when (pending_poll l) (_ ← send_friend_poll cfg tcfg lcfg env; mret ()); mret 0) (fun _ => inv f).
Proof.
  intros HP. eapply ltriple_bind; [apply triple_upd with (Q := fun _ l o => (base f l o /\ nothing_pending l) /\ established l = true)|intros ?].
  { intros l o Hl. destruct (HP l o Hl) as (He & Hb & Hn & Ee). split; [by split|congruence]. }
  eapply ltriple_bind with (Q := fun _ l o => inv f l o /\ established l = true).
  { intros s u s' [[Hb Hn] He] E. split; [eapply triple_response; [|exact E]; split; [by apply base_base0|done]|].
    by rewrite (response_established _ _ _ E). }
  intros ?. eapply ltriple_bind; [apply keeps_groups_update|intros ?].
  eapply triple_weaken with (P := inv f); [|by intros ? ? [? ?]|intros ? ? ? HQ; exact HQ].
  apply lpn_keeps_bind; [apply calm_keeps, calm_gets|intros l]. apply lpn_keeps_bind; [|intros ?; apply lpn_keeps_ret].
  apply keeps_when. intros _. apply lpn_keeps_bind; [apply keeps_poll|intros ?; apply lpn_keeps_ret].
Qed.

(** A confirmation of a message that the Friend has got, not older than 255 messages. *)
Definition confirms (f : friend_side) (buf : bt_buf_simple) (o : list lpn_out) : Prop :=
  exists j op d e x, j ∈ f_cfms f /\ sub_msgs o !! j = Some (op, d, e) /\ (length (sub_msgs o) <= j + 256)%nat /\
    mem_read (b_store buf) (b_data buf) 1 = Some [x] /\ head d = Some x.

Lemma established_removed ks l : established (foldl removed_at l ks) = established l.
Proof. revert l. induction ks as [|k ks IH]; intros l; [done|]. cbn [foldl]. rewrite IH. unfold removed_at. by repeat case_match. Qed.

Lemma keeps_sub_cfm f buf : triple (fun l o => inv f l o /\ confirms f buf o) (bt_mesh_lpn_friend_sub_cfm cfg tcfg lcfg env buf) (fun _ => inv f).
Proof.
  unfold bt_mesh_lpn_friend_sub_cfm. eapply ltriple_bind; [apply triple_lpn|intros l]. destruct (_ <? _); [apply keeps_done; by intros ? ? [[? ?] ?]|].
  destruct (Z.eqb_spec (sent_req l) 0) as [E0|E0]; [apply keeps_done; by intros ? ? [[? ?] ?]|].
  eapply ltriple_bind; [apply ltriple_checked|intros msg]. destruct (Z.eqb_spec (msg !!! 0%nat) (xact_pending l)) as [Ex|Ex]; cbn [negb].
  2: { apply keeps_done. by intros ? ? [[[? ?] ?] ?]. }
  assert (forall l' o, ((inv f l' o /\ confirms f buf o) /\ l = l') /\ mem_read (b_store buf) (b_data buf) 1 = Some msg ->
    sent_req l = ADD \/ sent_req l = REM -> inv f l o /\ l' = l /\ established l = true /\ up_to_date f o) as Hup.
  { intros l' o [[[Hi (j & op & d & e & x & Hj & Hm & Hn & Hb & Hd)] <-] Hb'] Hr. split; [done|]. split; [done|]. split; [eapply b_connected; [apply Hi|done]|].
    rewrite Hb in Hb'. injection Hb' as <-. eapply confirm_fits; eauto. by rewrite Hd, <-Ex. }
  destruct (Z.eqb_spec (sent_req l) ADD) as [Ea|Ea]; [|destruct (Z.eqb_spec (sent_req l) REM) as [Er|Er]].
  - apply keeps_confirmed. intros l' o HP. destruct (Hup l' o HP (or_introl Ea)) as (Hi & -> & He & Hu).
    destruct (base_confirm_add f l o Hi Ea Hu). done.
  - apply keeps_confirmed. intros l' o HP. destruct (Hup l' o HP (or_intror Er)) as (Hi & -> & He & Hu).
    destruct (base_confirm_rem f l o Hi Er Hu). split_and!; [done..|].
    by rewrite established_removed.
  - apply keeps_done. by intros ? ? [[[? ?] ?] ?].
Qed.
(** ** Offers, updates, the end *)

(** Without a friendship the size of the queue is free as well. *)
Lemma inv_queue f l l' o : inv f l o -> established l = false -> groups l' = groups l -> added l' = added l -> pending l' = pending l ->
  to_remove l' = to_remove l -> sent_req l' = sent_req l -> established l' = established l -> xact_next l' = xact_next l ->
  xact_pending l' = xact_pending l -> inv f l' o.
Proof.
  intros Hi He Eg Ea Ep Et Er Ee Ex Exp. destruct (inv_alone _ _ _ Hi He) as (H1 & H2 & Hn). destruct Hi as [Hb Hs]. split.
  - eapply base_change; [exact Hb|by eapply shape_ext; [..|apply Hb]|done..| |].
    + congruence.
    + intros i _. by rewrite Eg, Et.
  - destruct Hs. split; rewrite ?Er, ?Exp; [intros _ _ i; rewrite Ep; apply Hn|done|by intros ?].
Qed.

Lemma keeps_offer rx buf : keeps (bt_mesh_lpn_friend_offer cfg tcfg lcfg env rx buf).
Proof.
  apply keeps_lpn. intros l f. destruct (_ <? _); [apply keeps_done; by intros ? ? [? ?]|].
  destruct (bool_decide_reflect (lp_state l = BT_MESH_LPN_WAIT_OFFER)) as [E|E]; cbn [negb]; [|apply keeps_done; by intros ? ? [? ?]].
  pose proof (and_stable _ _ (inv_stable f) (est_stable false)) as Hst.
  eapply triple_weaken with (P := fun l o => inv f l o /\ established l = false); [| |intros ? ? ? HQ; exact HQ].
  2: { intros l' o [Hi <-]. split; [done|]. eapply inv_not_in_contact; [done|]. rewrite E. by intros [?|[?|[?|?]]]. }
  eapply ltriple_bind; [apply calm_triple; [exact Hst|calm_tac]|intros msg]. cbv zeta. destruct (_ =? 0); [apply keeps_done; by intros ? ? [? ?]|].
  eapply ltriple_bind; [apply calm_triple; [exact Hst|calm_tac]|intros ?]. eapply ltriple_bind; [apply calm_triple; [exact Hst|calm_tac]|intros i].
  eapply ltriple_bind; [apply calm_triple; [exact Hst|apply calm_attempt, calm_creds_create]|intros [[]|err]].
  - eapply ltriple_bind with (Q := fun _ l o => inv f l o /\ established l = false).
    { apply triple_upd. intros l' o [Hi He]. split; [by eapply inv_queue|done]. }
    intros ?. eapply ltriple_bind; [apply triple_poll|intros err]. eapply ltriple_bind with (Q := fun _ => inv f); [|intros ?; by apply keeps_done].
    apply triple_when; [intros _|by intros _ ? ? [? _]].
    eapply ltriple_bind; [apply calm_triple; [exact Hst|apply calm_creds_destroy]|intros ?]. apply triple_upd. intros l' o [Hi He]. by eapply inv_queue.
  - eapply triple_weaken with (P := inv f); [|by intros ? ? [? _]|intros ? ? ? HQ; exact HQ].
    apply lpn_keeps_bind; [apply calm_keeps; calm_tac|intros ?; apply lpn_keeps_ret].
Qed.

Lemma keeps_clear_cfm buf : keeps (bt_mesh_lpn_friend_clear_cfm cfg tcfg lcfg env buf).
Proof.
  apply lpn_keeps_bind; [apply calm_keeps, calm_gets|intros l]. destruct (_ <? _); [apply lpn_keeps_ret|]. destruct (negb _); [apply lpn_keeps_ret|].
  apply lpn_keeps_bind; [apply calm_keeps; calm_tac|intros msg]. destruct (_ || _); [apply lpn_keeps_ret|].
  apply lpn_keeps_bind; [apply calm_keeps; calm_tac|intros ?]. apply lpn_keeps_bind; [apply keeps_clear|intros ?; apply lpn_keeps_ret].
Qed.

Lemma keeps_update V1d1 rx buf : keeps (bt_mesh_lpn_friend_update cfg tcfg lcfg env V1d1 rx buf).
Proof.
  apply keeps_lpn. intros l f. destruct (_ <? _); [apply keeps_done; by intros ? ? [? ?]|].
  destruct (Z.eqb_spec (sent_req l) POLL) as [E|E]; cbn [negb]; [|apply keeps_done; by intros ? ? [? ?]]. cbv zeta.
  eapply triple_weaken with (P := fun l' o => inv f l' o /\ (nothing_pending l' /\ established l' = established l)); [| |intros ? ? ? HQ; exact HQ].
  2: { intros l' o [Hi <-]. split; [done|]. split; [|done]. eapply inv_quiet; [exact Hi|by rewrite E..]. }
  pose proof (and_stable _ _ (inv_stable f) (and_stable _ _ pending_stable (est_stable (established l)))) as Hst.
  eapply ltriple_bind; [apply calm_triple; [exact Hst|calm_tac]|intros phase]. destruct (_ && _); [apply keeps_done; by intros ? ? [? ?]|].
  eapply ltriple_bind; [apply calm_triple; [exact Hst|calm_tac]|intros msg]. eapply ltriple_bind; [apply calm_triple; [exact Hst|calm_tac]|intros iv].
  eapply ltriple_bind; [apply calm_triple; [exact Hst|calm_tac]|intros ?]. destruct (_ && _); [apply keeps_done; by intros ? ? [? ?]|].
  eapply ltriple_bind with (Q := fun _ l o => (base0 f l o /\ nothing_pending l) /\ established l = true).
  { apply triple_when.
    - intros He%negb_true_iff. eapply ltriple_bind; [apply triple_upd with (Q := fun _ l o => (base0 f l o /\ nothing_pending l) /\ established l = true)|intros ?].
      + intros l' o ([Hb _] & Hn & _). split; [|done]. split; [|done]. apply base_base0 in Hb. unfold base0 in *. pose proof (b_shape _ _ _ Hb) as Hsh.
        destruct Hb. split; try done; [by eapply shape_ext; [..|exact Hsh]|]. intros _. by left.
      + apply calm_triple; [apply and_stable; [apply and_stable; [apply base0_stable|apply pending_stable]|apply est_stable]|calm_tac].
    - intros He%negb_false_iff l' o ([Hb _] & Hn & Ee). split; [split; [by apply base_base0|done]|congruence]. }
  intros ?. eapply ltriple_bind with (Q := fun _ l o => inv f l o /\ established l = true).
  { intros s u s' [Hbn He] Es. split; [by eapply triple_response|]. by rewrite (response_established _ _ _ Es). }
  intros ?. pose proof (and_stable _ _ (inv_stable f) (est_stable true)) as Hst1.
  eapply ltriple_bind; [apply calm_triple; [exact Hst1|calm_tac]|intros ?]. eapply ltriple_bind; [apply calm_triple; [exact Hst1|apply calm_iv]|intros ?].
  eapply ltriple_bind; [apply keeps_groups_update|intros ?].
  eapply triple_weaken with (P := inv f); [|by intros ? ? [? _]|intros ? ? ? HQ; exact HQ].
  apply lpn_keeps_bind; [apply keeps_when; intros _; apply lpn_keeps_bind; [apply keeps_poll|intros ?; apply lpn_keeps_ret]|intros ?]. apply calm_keeps. calm_tac.
Qed.

Lemma keeps_poll_now : keeps (bt_mesh_lpn_poll cfg tcfg lcfg env).
Proof. apply lpn_keeps_bind; [apply calm_keeps, calm_gets|intros l]. destruct (negb _); [apply lpn_keeps_ret|apply keeps_poll]. Qed.
Lemma keeps_disable force : keeps (bt_mesh_lpn_disable cfg tcfg lcfg env force).
Proof. apply lpn_keeps_bind; [apply calm_keeps, calm_gets|intros l]. destruct (bool_decide _); [apply lpn_keeps_ret|apply keeps_clear]. Qed.
Lemma keeps_friendship_end : keeps (bt_mesh_lpn_friendship_end cfg tcfg lcfg env).
Proof. apply lpn_keeps_bind; [apply calm_keeps, calm_gets|intros l]. destruct (negb _); [apply lpn_keeps_ret|apply keeps_clear]. Qed.

(** ** The timer *)

Lemma keeps_update_timeout : keeps (update_timeout cfg tcfg lcfg env).
Proof.
  apply keeps_lpn. intros l f. destruct (established l) eqn:He.
  { apply keeps_calm; [by intros ? ? [? _]|calm_tac]. }
  eapply triple_weaken with (P := fun l o => inv f l o /\ established l = false); [|by intros l' o [Hi <-]|intros ? ? ? HQ; exact HQ].
  pose proof (and_stable _ _ (inv_stable f) (est_stable false)) as Hst.
  eapply ltriple_bind; [apply calm_triple; [exact Hst|calm_tac]|intros ?]. destruct (_ <? _).
  - eapply ltriple_bind with (Q := fun _ => inv f).
    + apply triple_upd. intros l' o [Hi He']. destruct (inv_alone _ _ _ Hi He') as (_ & _ & Hn). apply inv_no_req; [by left|apply Hi|done].
    + intros ?. apply lpn_keeps_bind; [apply keeps_poll|intros err]. destruct (_ =? 0); [apply lpn_keeps_ret|apply keeps_clear].
  - eapply triple_weaken; [apply keeps_clear|by intros ? ? [? _]|done].
Qed.

Lemma keeps_timeout : keeps (lpn_timeout cfg tcfg lcfg env).
Proof.
  apply lpn_keeps_bind; [apply calm_keeps; calm_tac|intros ?]. apply keeps_lpn. intros l f.
  assert (forall A (m : M st A), ~ in_contact (lp_state l) -> triple (fun l o => inv f l o /\ established l = false) m (fun _ => inv f) ->
    triple (fun l' o => inv f l' o /\ l = l') m (fun _ => inv f)) as Halone.
  { intros A m Hn Hm. eapply triple_weaken; [exact Hm| |done]. intros l' o [Hi <-]. split; [done|]. by eapply inv_not_in_contact. }
  assert (forall A (m : M st A), keeps m -> triple (fun l' o => inv f l' o /\ l = l') m (fun _ => inv f)) as Hall.
  { intros A m Hm. eapply triple_weaken; [apply Hm|by intros ? ? [? _]|done]. }
  pose proof (and_stable _ _ (inv_stable f) (est_stable false)) as Hst.
  assert (forall x, triple (fun l o => inv f l o /\ established l = false) (lpn_set_state (W := W) x) (fun _ l o => inv f l o /\ established l = false)) as Hset.
  { intros x. apply triple_upd. intros l' o [Hi He]. split; [by apply inv_state|done]. }
  destruct (lp_state l) eqn:E.
  - apply Hall, lpn_keeps_ret.
  - apply Hall, keeps_clear.
  - apply Halone; [by intros [?|[?|[?|?]]]|]. eapply ltriple_bind; [apply Hset|intros ?].
    eapply ltriple_bind; [apply calm_triple; [exact Hst|calm_tac]|intros ?]. eapply ltriple_bind; [apply keeps_friend_req|intros ?; apply lpn_keeps_ret].
  - apply Halone; [by intros [?|[?|[?|?]]]|]. eapply ltriple_bind; [apply keeps_friend_req|intros ?; apply lpn_keeps_ret].
  - apply Halone; [by intros [?|[?|[?|?]]]|]. eapply ltriple_bind; [apply calm_triple; [exact Hst|calm_tac]|intros ?].
    eapply ltriple_bind; [apply Hset|intros ?]. apply keeps_calm; [by intros ? ? [? _]|calm_tac].
  - apply Halone; [by intros [?|[?|[?|?]]]|]. eapply ltriple_bind; [apply Hset|intros ?].
    eapply ltriple_bind with (Q := fun _ => inv f); [|intros ?; apply calm_keeps; calm_tac].
    apply triple_upd. intros l' o [Hi He']. destruct (inv_alone _ _ _ Hi He') as (_ & _ & Hn). apply inv_no_req; [by left|apply Hi|done].
  - destruct (_ <? _).
    2: { apply Hall, lpn_keeps_bind; [apply calm_keeps; calm_tac|intros ?; apply keeps_clear]. }
    cbv zeta. destruct ((sent_req l =? 0) || (sent_req l =? POLL)) eqn:Er.
    + eapply ltriple_bind with (Q := fun _ => inv f).
      * apply triple_upd. intros l' o [Hi <-]. apply inv_no_req; [by left|apply Hi|]. apply orb_true_iff in Er as [Er|Er]; apply Z.eqb_eq in Er;
          (eapply inv_quiet; [exact Hi|by rewrite Er..]).
      * intros ?. apply lpn_keeps_bind; [apply keeps_poll|intros ?; apply lpn_keeps_ret].
    + apply orb_false_iff in Er as [E0%Z.eqb_neq E1%Z.eqb_neq].
      eapply ltriple_bind with (Q := fun _ l' o => ready f (sent_req l) l' o /\ (sent_req l = ADD \/ sent_req l = REM)).
      * apply triple_upd. intros l' o [Hi <-]. destruct (b_req _ _ _ (proj1 Hi)) as [?|[?|Hr]]; [done|done|]. split; [|done].
        split; [apply base_set_req; [by left|apply Hi]|]. split; [cbn; eapply b_connected; [apply Hi|done]|]. split; [|done].
        intros _ Ha i Hb. rewrite (entries_ext _ l) by done. destruct (s_add _ _ (proj2 Hi) Ha) as (d & e & _ & _ & Hp). rewrite Ha. by apply Hp.
      * intros ?. apply ltriple_fact. intros Hr. eapply ltriple_bind; [by apply triple_sub_update|intros ?; apply keeps_done; by intros ? ? [? _]].
  - apply keeps_calm; [by intros ? ? [? _]|calm_tac].
  - apply Hall, keeps_update_timeout.
Qed.

(** ** Turning on and off, events, the start *)

Lemma keeps_set enable : (enable = false -> le_provisioned env = true) -> keeps (bt_mesh_lpn_set cfg tcfg lcfg env enable).
Proof.
  intros Hprov. apply keeps_lpn. intros l f. cbv zeta. destruct enable.
  - destruct (bool_decide_reflect (lp_state l = BT_MESH_LPN_DISABLED)) as [E|E]; cbn [negb]; [|apply keeps_done; by intros ? ? [? ?]].
    eapply triple_weaken with (P := fun l o => inv f l o /\ established l = false); [| |intros ? ? ? HQ; exact HQ].
    2: { intros l' o [Hi <-]. split; [done|]. eapply inv_not_in_contact; [done|]. rewrite E. by intros [?|[?|[?|?]]]. }
    assert (triple (fun l o => inv f l o /\ established l = false) (lpn_set_state (W := W) BT_MESH_LPN_ENABLED) (fun _ l o => inv f l o /\ established l = false)) as Hset.
    { apply triple_upd. intros l' o [Hi He]. split; [by apply inv_state|done]. }
    destruct (negb _); [eapply ltriple_bind; [exact Hset|intros ?; apply keeps_done; by intros ? ? [? _]]|].
    eapply ltriple_bind; [exact Hset|intros ?]. eapply ltriple_bind; [apply calm_triple; [apply and_stable; [apply inv_stable|apply est_stable]|calm_tac]|intros ?].
    eapply ltriple_bind; [apply keeps_friend_req|intros ?; apply lpn_keeps_ret].
  - destruct (bool_decide _); [apply keeps_done; by intros ? ? [? ?]|]. rewrite Hprov by done. cbn [negb].
    destruct (k_auto lcfg && bool_decide (lp_state l = BT_MESH_LPN_TIMER)) eqn:E.
    + apply andb_true_iff in E as [_ E%bool_decide_eq_true].
      eapply triple_weaken with (P := fun l o => inv f l o /\ established l = false); [| |intros ? ? ? HQ; exact HQ].
      2: { intros l' o [Hi <-]. split; [done|]. eapply inv_not_in_contact; [done|]. rewrite E. by intros [?|[?|[?|?]]]. }
      eapply ltriple_bind; [apply calm_triple; [apply and_stable; [apply inv_stable|apply est_stable]|calm_tac]|intros ?].
      eapply ltriple_bind with (Q := fun _ => inv f); [apply triple_upd; intros l' o [Hi He]; by apply inv_state|intros ?; apply lpn_keeps_ret].
    + eapply triple_weaken with (P := inv f); [|by intros ? ? [? _]|intros ? ? ? HQ; exact HQ].
      apply lpn_keeps_bind; [apply keeps_disable|intros ?; apply lpn_keeps_ret].
Qed.

Lemma keeps_subnet_evt i evt : keeps (lpn_subnet_evt cfg tcfg lcfg env i evt).
Proof.
  apply lpn_keeps_bind; [apply calm_keeps, calm_gets|intros l]. destruct evt; [apply lpn_keeps_ret| | |apply lpn_keeps_ret..].
  - apply keeps_when. intros _. apply keeps_clear.
  - apply calm_keeps. apply calm_bind; [apply calm_gets|intros k1]. apply calm_bind; [apply calm_attempt, calm_cred_create|intros [c|e]]; calm_tac.
Qed.

Lemma keeps_init f : triple (fun l o => inv f l o /\ established l = false) (bt_mesh_lpn_init cfg tcfg lcfg env) (fun _ => inv f).
Proof.
  pose proof (and_stable _ _ (inv_stable f) (est_stable false)) as Hst. eapply ltriple_bind; [apply ltriple_gets|intros l]. destruct (bool_decide _).
  - eapply ltriple_bind; [apply calm_triple; [exact Hst|calm_tac]|intros ?]. eapply ltriple_bind; [apply keeps_friend_req|intros ?; apply lpn_keeps_ret].
  - eapply ltriple_bind; [apply calm_triple; [exact Hst|calm_tac]|intros ?]. eapply ltriple_bind with (Q := fun _ => inv f); [|intros ?; apply lpn_keeps_ret].
    apply triple_when; [intros _|by intros _ ? ? [? _]].
    eapply ltriple_bind with (Q := fun _ => inv f); [apply triple_upd; intros l' o [Hi He]; by apply inv_state|intros ?]. apply calm_keeps. calm_tac.
Qed.

Lemma keeps_clear_sent f err : triple (fun l o => inv f l o /\ (err = 0 \/ established l = false)) (friend_clear_sent cfg tcfg lcfg env err) (fun _ => inv f).
Proof.
  unfold friend_clear_sent. destruct (Z.eqb_spec err 0) as [E|E].
  - apply keeps_calm; [by intros ? ? [? _]|apply calm_clear_sent_ok].
  - eapply triple_weaken with (P := fun l o => inv f l o /\ established l = false); [|intros l o [Hi [?|?]]; done|intros ? ? ? HQ; exact HQ].
    pose proof (and_stable _ _ (inv_stable f) (est_stable false)) as Hst.
    do 2 (eapply ltriple_bind; [apply calm_triple; [exact Hst|calm_tac]|intros ?]).
    eapply ltriple_bind with (Q := fun _ => inv f); [apply triple_upd; intros l o [Hi He]; by apply inv_state|intros ?].
    apply lpn_keeps_bind; [apply calm_keeps, calm_gets|intros l]. apply keeps_clear.
Qed.

End Keeps.
