(* ===== verification/LpnRun.v ===== *)
(** A Low Power node and its Friend: what the node knows of the Friend's subscription list,
    over every run in which messages and confirmations may be lost. *)

From S2P Require Import Prelude Byteorder BufSimple MeshDefs CryptoIf Crypto Subnet NetIv Net AppKeys Transport Lpn LpnSub LpnKeeps.

(** The operations of a node, the confirmation of a list message apart. *)
Inductive lpn_op :=
| LTimeout
| LFriendReqStart (err : Z) | LFriendReqEnd (err : Z)
| LReqStart (err : Z) | LReqEnd (err : Z)
| LClearSent (err : Z)
| LSet (enable : bool) | LDisable (force : bool) | LFriendshipEnd
| LMsgReceived
| LOffer (rx : bt_mesh_net_rx) (buf : bt_buf_simple)
| LClearCfm (buf : bt_buf_simple)
| LUpdate (V1d1 : bool) (rx : bt_mesh_net_rx) (buf : bt_buf_simple)
| LGroupAdd (group : Z) | LGroupDel (groups : list Z)
| LPoll
| LSubnetEvt (sub : nat) (evt : bt_mesh_key_evt)
| LInit.

(** Static memory: the feature off, with room for [n] groups. *)
Definition lpn_start (n : nat) : bt_mesh_lpn :=
  mk_lpn BT_MESH_LPN_DISABLED 0 0 0 BT_MESH_ADDR_UNASSIGNED 0 0 0 false false false 0 false false 0 0 0 0 0 0 None
    (replicate n BT_MESH_ADDR_UNASSIGNED) None zero_cred zero_cred (replicate n false) (replicate n false) (replicate n false).

Section Runs.

Context {W : Type} `{MeshCrypto W}.
Context (cfg : net_cfg) (tcfg : trans_cfg) (lcfg : lpn_cfg).
Notation st := (lpn_node W).

Definition lpn_do (env : lpn_env) (op : lpn_op) : M st unit :=
  let ignore {A} (m : M st A) := _ ← m; mret () in
  match op with
  | LTimeout => lpn_timeout cfg tcfg lcfg env
  | LFriendReqStart err => friend_req_send_start lcfg env err
  | LFriendReqEnd err => friend_req_send_end lcfg env err
  | LReqStart err => req_send_start lcfg env err
  | LReqEnd err => req_send_end lcfg env err
  | LClearSent err => friend_clear_sent cfg tcfg lcfg env err
  | LSet enable => ignore (bt_mesh_lpn_set cfg tcfg lcfg env enable)
  | LDisable force => bt_mesh_lpn_disable cfg tcfg lcfg env force
  | LFriendshipEnd => bt_mesh_lpn_friendship_end cfg tcfg lcfg env
  | LMsgReceived => bt_mesh_lpn_msg_received cfg tcfg lcfg env
  | LOffer rx buf => ignore (bt_mesh_lpn_friend_offer cfg tcfg lcfg env rx buf)
  | LClearCfm buf => ignore (bt_mesh_lpn_friend_clear_cfm cfg tcfg lcfg env buf)
  | LUpdate V1d1 rx buf => ignore (bt_mesh_lpn_friend_update cfg tcfg lcfg env V1d1 rx buf)
  | LGroupAdd group => bt_mesh_lpn_group_add cfg tcfg lcfg env group
  | LGroupDel l => bt_mesh_lpn_group_del cfg tcfg lcfg env l
  | LPoll => ignore (bt_mesh_lpn_poll cfg tcfg lcfg env)
  | LSubnetEvt i evt => lpn_subnet_evt cfg tcfg lcfg env i evt
  | LInit => ignore (bt_mesh_lpn_init cfg tcfg lcfg env)
  end.

(** What the theorem leaves out: to add a group whose removal is under way, or while a
    message to add groups is; to turn the feature off on a node that has left the network, or
    start it again, in a friendship; a Friend Clear that cannot be sent. *)
Definition lpn_allowed (env : lpn_env) (op : lpn_op) (l : bt_mesh_lpn) : Prop :=
  match op with
  | LGroupAdd g => can_add g l
  | LSet false => le_provisioned env = true
  | LClearSent err => err = 0 \/ established l = false
  | LInit => established l = false
  | _ => True
  end.

(** A node and its Friend. *)
Inductive world_step : st * friend_side -> st * friend_side -> Prop :=
| ws_node env op s s' f : lpn_allowed env op (l_lpn s) -> lpn_do env op s = (Ok (), s') -> world_step (s, f) (s', f)
| ws_friend j op d err s f : (f_seen f <= j)%nat -> sub_msgs (l_out s) !! j = Some (op, d, err) ->
    (op = ADD -> (length (addrs d) <= free_entries (f_list f))%nat) -> world_step (s, f) (s, friend_gets j op d f)
| ws_confirm env buf s r s' f : confirms f buf (l_out s) -> bt_mesh_lpn_friend_sub_cfm cfg tcfg lcfg env buf s = (Ok r, s') ->
    world_step (s, f) (s', f)
| ws_new_friend F s f : established (l_lpn s) = false -> world_step (s, f) (s, mk_side F (length (sub_msgs (l_out s))) None [] (f_xact f))
| ws_other t s f : world_step (s, f) (s <| l_trans := t |>, f).

Lemma inv_start n F : inv (mk_side F 0 None [] 0) (lpn_start n) [].
Proof.
  assert (forall i, ~ bit (replicate n false) i) as Hb by (intros i Hi; unfold bit in Hi; by apply lookup_replicate in Hi as [? _]).
  split; split; cbn; try done.
  - split; cbn; rewrite ?length_replicate; [done|by apply Forall_replicate| |].
    + intros i j x Hi _ Hx. apply lookup_replicate in Hi as [-> _]. done.
    + intros i [Hi|Hi]; by destruct (Hb i).
  - by left.
  - intros i x Hi. by destruct (Hb i).
  - by intros j ?%elem_of_nil.
  - intros [?|?]; done.
Qed.

Lemma node_keeps env op f s s' : inv f (l_lpn s) (l_out s) -> lpn_allowed env op (l_lpn s) -> lpn_do env op s = (Ok (), s') ->
  inv f (l_lpn s') (l_out s').
Proof.
  intros Hi Ha E. assert (forall A (m : M st A), keeps m -> keeps (_ ← m; mret ())) as Hk by (intros A m Hm; apply lpn_keeps_bind; [done|intros ?; apply lpn_keeps_ret]).
  destruct op; cbn [lpn_do lpn_allowed] in *.
  - by eapply keeps_timeout.
  - by eapply keeps_friend_req_start.
  - by eapply keeps_friend_req_end.
  - by eapply keeps_req_start.
  - by eapply keeps_req_end.
  - by eapply keeps_clear_sent; [|exact E].
  - eapply Hk; [apply keeps_set|exact Hi|exact E]. by intros ->.
  - by eapply keeps_disable.
  - by eapply keeps_friendship_end.
  - by eapply keeps_msg_received.
  - eapply Hk; [apply keeps_offer|exact Hi|exact E].
  - eapply Hk; [apply keeps_clear_cfm|exact Hi|exact E].
  - eapply Hk; [apply keeps_update|exact Hi|exact E].
  - by eapply keeps_group_add; [|exact E].
  - by eapply keeps_group_del.
  - eapply Hk; [apply keeps_poll_now|exact Hi|exact E].
  - by eapply keeps_subnet_evt.
  - apply bind_inv in E as (r & s1 & E1 & [= <-]). by eapply keeps_init; [|exact E1].
Qed.

Lemma world_keeps s f s' f' : world_step (s, f) (s', f') -> inv f (l_lpn s) (l_out s) -> inv f' (l_lpn s') (l_out s').
Proof.
  intros Hstep Hi. inversion Hstep; subst.
  - by eapply node_keeps.
  - by eapply inv_friend_gets.
  - by eapply keeps_sub_cfm; [|eassumption].
  - by apply inv_friend_new.
  - done.
Qed.

Lemma world_run_keeps w w' : rtc world_step w w' -> inv w.2 (l_lpn w.1) (l_out w.1) -> inv w'.2 (l_lpn w'.1) (l_out w'.1).
Proof. induction 1 as [|[s1 f1] [s2 f2] w3 H12 _ IH]; [done|]. intros Hi. apply IH. by eapply world_keeps. Qed.


End Runs.
