(* ===== verification/LpnAwake.v ===== *)
(** What a Low Power node waits for: as long as its messages can be sent, it is
    turned off, or its timer runs, or a message of its own is still being sent, unless at
    some step before it had nothing to do. *)

From S2P Require Import Prelude Byteorder BufSimple MeshDefs CryptoIf Crypto Subnet NetIv Net AppKeys Transport Lpn LpnSub LpnKeeps LpnRun.

(** * Messages being sent *)

(** The callbacks that have run: of list messages and polls, of Friend Requests, of Friend
    Clears. *)
Record ended := mk_ended { e_req : nat; e_friend_req : nat; e_clear : nat }.

Definition is_req (op : Z) : bool := (op =? POLL) || (op =? ADD) || (op =? REM).
Definition is_friend_req (op : Z) : bool := op =? TRANS_CTL_OP_FRIEND_REQ.
Definition is_clear (op : Z) : bool := op =? TRANS_CTL_OP_FRIEND_CLEAR.

(** Given to the advertiser, so that the callback is called later. *)
Definition queued (p : Z -> bool) (e : lpn_out) : bool :=
  match e with CtlSent op _ err local => p op && (err =? 0) && negb local | _ => false end.
Definition count (p : Z -> bool) (o : list lpn_out) : nat := length (filter (fun e => queued p e = true) o).

(** No message failed. *)
Definition sent_ok (e : lpn_out) : Prop := match e with CtlSent _ _ err _ => err = 0 | _ => True end.

(** A message that the Friend has to answer, of those there are. *)
Definition req_ok (l : bt_mesh_lpn) : Prop := sent_req l = 0 \/ is_req (sent_req l) = true.

Definition accounted (e : ended) (l : bt_mesh_lpn) (o : list lpn_out) : Prop :=
  req_ok l /\ (e_req e <= count is_req o)%nat /\ (e_friend_req e <= count is_friend_req o)%nat /\ (e_clear e <= count is_clear o)%nat.

(** What the node waits for. *)
Definition waits (e : ended) (l : bt_mesh_lpn) (o : list lpn_out) : Prop :=
  lp_state l = BT_MESH_LPN_DISABLED \/ is_Some (lp_timer l) \/
  (e_req e < count is_req o)%nat \/ (e_clear e < count is_clear o)%nat \/
  (lp_state l = BT_MESH_LPN_ENABLED /\ (e_friend_req e < count is_friend_req o)%nat).

Definition awake (e : ended) (l : bt_mesh_lpn) (o : list lpn_out) : Prop := accounted e l o /\ (Forall sent_ok o -> waits e l o).

Lemma count_app p o o' : count p (o ++ o') = (count p o + count p o')%nat.
Proof. unfold count. by rewrite filter_app, length_app. Qed.

Lemma accounted_app e l l' o o' : (req_ok l -> req_ok l') -> accounted e l o -> accounted e l' (o ++ o').
Proof. unfold accounted. rewrite !count_app. intros Hr (H0 & H1). split; [by apply Hr|lia]. Qed.

Section Awake.

Context {W : Type} `{MeshCrypto W}.
Context (cfg : net_cfg) (tcfg : trans_cfg) (lcfg : lpn_cfg) (env : lpn_env).
Notation st := (lpn_node W).

(** * What leaves the timer and the state alone *)

Definition idle {A} (m : M st A) : Prop := forall s,
  lp_state (l_lpn (m s).2) = lp_state (l_lpn s) /\ lp_timer (l_lpn (m s).2) = lp_timer (l_lpn s) /\ (req_ok (l_lpn s) -> req_ok (l_lpn (m s).2)) /\
  exists o, l_out (m s).2 = l_out s ++ o.

Lemma idle_bind {A B} (m : M st A) (g : A -> M st B) : idle m -> (forall a, idle (g a)) -> idle (m ≫= g).
Proof.
  intros Hm Hg s. specialize (Hm s). unfold mbind, M_bind. destruct (m s) as [[a|e|] s1]; [|done|done].
  destruct (Hg a s1) as (H1 & H2 & Hr & o & H3), Hm as (H4 & H5 & Hr' & o' & H6). cbn in *. split; [congruence|]. split; [congruence|]. split; [tauto|].
  exists (o' ++ o). by rewrite H3, H6, app_assoc.
Qed.
Lemma idle_same {A} (m : M st A) : (forall s, l_out (m s).2 = l_out s /\ lp_state (l_lpn (m s).2) = lp_state (l_lpn s) /\ lp_timer (l_lpn (m s).2) = lp_timer (l_lpn s) /\ (req_ok (l_lpn s) -> req_ok (l_lpn (m s).2))) -> idle m.
Proof. intros Hm s. destruct (Hm s) as (H1 & H2 & H3 & Hr). split; [done|]. split; [done|]. split; [done|]. exists []. by rewrite app_nil_r. Qed.
Lemma idle_ret {A} (a : A) : idle (mret a).
Proof. by apply idle_same. Qed.
Lemma idle_gets {A} (g : st -> A) : idle (gets g).
Proof. by apply idle_same. Qed.
Lemma idle_checked {A} (x : option A) : idle (checked x).
Proof. apply idle_same. intros s. unfold checked. by destruct x. Qed.
Lemma idle_upd g : (forall l, lp_state (g l) = lp_state l /\ lp_timer (g l) = lp_timer l /\ (req_ok l -> req_ok (g l))) -> idle (upd g).
Proof. intros Hg. apply idle_same. intros s. split; [done|]. apply Hg. Qed.
Lemma idle_out e : idle (out e).
Proof. intros s. split; [done|]. split; [done|]. split; [done|]. by exists [e]. Qed.
Lemma idle_when b m : idle m -> idle (when b m).
Proof. intros Hm. destruct b; [done|apply idle_ret]. Qed.
Lemma idle_trans {A} (m : M (trans_node W) A) : idle (in_trans m).
Proof. apply idle_same. intros s. unfold in_trans. by destruct (m _) as [r t]. Qed.
Lemma idle_attempt {A} (m : M st A) : idle m -> idle (attempt m).
Proof. intros Hm s. specialize (Hm s). unfold attempt. by destruct (m s) as [[a|e|] s1]. Qed.
Lemma idle_iv index flag : idle (iv_update cfg env index flag).
Proof. apply idle_same. intros s. unfold iv_update. by destruct (bt_mesh_net_iv_update _ _ _ _ _ _ _ _ _) as [b iv]. Qed.

Ltac idle_tac :=
  lazymatch goal with
  | |- idle (_ ≫= _) => apply idle_bind; [idle_tac|intros ?; idle_tac]
  | |- idle (mret _) => apply idle_ret
  | |- idle (gets _) => apply idle_gets
  | |- idle (checked _) => apply idle_checked
  | |- idle (upd _) => apply idle_upd; intros ?; first [done | by (repeat split; left) | by (repeat split; right) | repeat case_match; done | idtac]
  | |- idle (out _) => apply idle_out
  | |- idle (when _ _) => apply idle_when; idle_tac
  | |- idle (in_trans _) => apply idle_trans
  | |- idle (in_subnets _) => apply idle_trans
  | |- idle (attempt _) => apply idle_attempt; idle_tac
  | |- idle (read_msg _ _) => apply idle_checked
  | |- idle (if _ then _ else _) => case_match; idle_tac
  | |- _ => idtac
  end.

Lemma idle_triple {A} P (m : M st A) : (forall l l' o o', lp_state l' = lp_state l -> lp_timer l' = lp_timer l -> (req_ok l -> req_ok l') -> P l o -> P l' (o ++ o')) -> idle m -> triple P m (fun _ => P).
Proof. intros HP Hm s a s' Hs E. destruct (Hm s) as (H1 & H2 & Hr & o & H3). rewrite E in H1, H2, H3, Hr. cbn in *. rewrite H3. by eapply HP. Qed.

Lemma awake_idle e l l' o o' : lp_state l' = lp_state l -> lp_timer l' = lp_timer l -> (req_ok l -> req_ok l') -> awake e l o -> awake e l' (o ++ o').
Proof.
  intros Es Et Hr [Ha Hw]. split; [by eapply accounted_app|]. intros [Ho _]%Forall_app. specialize (Hw Ho). unfold waits in *. rewrite Es, Et, !count_app.
  destruct Hw as [?|[?|[?|[?|[? ?]]]]]; [by left|by right; left|right; right; left; lia|right; right; right; left; lia|].
  right; right; right; right. split; [done|lia].
Qed.

(** Keeps the node awake; wakes it up, in a state. *)
Definition steady {A} (m : M st A) : Prop := forall e, triple (awake e) m (fun _ => awake e).
Definition wakes {A} (P : lpn_state -> Prop) (m : M st A) : Prop :=
  forall e, triple (fun l o => accounted e l o /\ P (lp_state l)) m (fun _ => awake e).
Definition anyhow (x : lpn_state) : Prop := True.
Definition on (x : lpn_state) : Prop := x <> BT_MESH_LPN_DISABLED.

Lemma idle_steady {A} (m : M st A) : idle m -> steady m.
Proof. intros Hm e. apply idle_triple; [apply awake_idle|done]. Qed.
Lemma idle_wakes {A B} P (m : M st A) (g : A -> M st B) : idle m -> (forall a, wakes P (g a)) -> wakes P (m ≫= g).
Proof.
  intros Hm Hg e. eapply ltriple_bind; [|intros a; apply Hg]. intros s a s' [Ha HP] E. destruct (Hm s) as (Es & _ & Hr & o & H3). rewrite E in Es, H3, Hr. cbn in *.
  rewrite H3, Es. split; [by eapply accounted_app|done].
Qed.
Lemma wakes_bind {A B} P (m : M st A) (g : A -> M st B) : wakes P m -> (forall a, steady (g a)) -> wakes P (m ≫= g).
Proof. intros Hm Hg e. eapply ltriple_bind; [apply Hm|intros a; apply Hg]. Qed.
Lemma steady_bind {A B} (m : M st A) (g : A -> M st B) : steady m -> (forall a, steady (g a)) -> steady (m ≫= g).
Proof. intros Hm Hg e. eapply ltriple_bind; [apply Hm|intros a; apply Hg]. Qed.
Lemma wakes_weaken {A} (P P' : lpn_state -> Prop) (m : M st A) : (forall x, P' x -> P x) -> wakes P m -> wakes P' m.
Proof. intros HP Hm e. eapply triple_weaken; [apply Hm|intros l o [Ha Hx]; by split; [|apply HP]|done]. Qed.
Lemma wakes_steady {A} (m : M st A) : wakes anyhow m -> steady m.
Proof. intros Hm e. eapply triple_weaken; [apply Hm|by intros l o [? _]|done]. Qed.
Lemma steady_ret {A} (a : A) : steady (mret a).
Proof. apply idle_steady, idle_ret. Qed.
Lemma steady_when b m : (b = true -> steady m) -> steady (when b m).
Proof. intros Hm e. apply triple_when; [intros E; by apply Hm|done]. Qed.

Lemma wakes_timer P t : wakes P (timer t).
Proof. intros e. apply triple_upd. intros l o [Ha _]. split; [done|]. intros _. right; left. by eexists. Qed.
Lemma wakes_off P : wakes P (lpn_set_state BT_MESH_LPN_DISABLED).
Proof. intros e. apply triple_upd. intros l o [Ha _]. split; [done|]. intros _. by left. Qed.
(** With the timer running the state is free. *)
Lemma steady_ticking e x : triple (fun l o => accounted e l o /\ is_Some (lp_timer l)) (lpn_set_state (W := W) x) (fun _ => awake e).
Proof. apply triple_upd. intros l o [Ha Ht]. split; [done|]. intros _. by right; left. Qed.
Lemma triple_tick P e t : triple (fun l o => accounted e l o /\ P (lp_state l)) (timer (W := W) t) (fun _ l o => accounted e l o /\ is_Some (lp_timer l)).
Proof. apply triple_upd. intros l o [Ha _]. split; [done|by eexists]. Qed.
Lemma wakes_then_state P t x : wakes P (_ ← timer t; lpn_set_state x).
Proof. intros e. eapply ltriple_bind; [apply triple_tick|intros ?; apply steady_ticking]. Qed.
Lemma wakes_then_states {A} P t x (m : M st A) : steady m -> wakes P (_ ← timer t; _ ← lpn_set_state x; m).
Proof. intros Hm e. eapply ltriple_bind; [apply triple_tick|intros ?; eapply ltriple_bind; [apply steady_ticking|intros ?; apply Hm]]. Qed.
Lemma wakes_state {A} P x (m : M st A) : wakes (eq x) m -> wakes P (_ ← lpn_set_state x; m).
Proof.
  intros Hm e. eapply ltriple_bind with (Q := fun _ l o => accounted e l o /\ x = lp_state l); [apply triple_upd; intros l o [Ha _]; by split|intros ?; apply Hm].
Qed.

Lemma wakes_cancel {A} P (m : M st A) : wakes P m -> wakes P (_ ← timer_cancel; m).
Proof. intros Hm e. eapply ltriple_bind; [apply triple_upd with (Q := fun _ l o => accounted e l o /\ P (lp_state l)); by intros l o|intros ?; apply Hm]. Qed.
(** Turned off, it need not wait. *)
Lemma wakes_idle_off {A} (m : M st A) : idle m -> wakes (eq BT_MESH_LPN_DISABLED) m.
Proof. intros Hm e. eapply triple_weaken; [apply (idle_steady m Hm e)|intros l o [Ha Hs]; split; [done|]; intros _; by left|done]. Qed.

(** ** Messages *)

Lemma steady_ctl_send tx op d cb m : steady m -> steady (ctl_send cfg tcfg env tx op d cb m).
Proof.
  intros Hm. unfold ctl_send. do 4 (apply steady_bind; [apply idle_steady; idle_tac|intros ?]).
  apply steady_bind; [apply idle_steady, idle_out|intros ?]. apply steady_bind; [by apply steady_when|intros ?; apply steady_ret].
Qed.

Lemma count_snoc p o op d err : p op = true -> err = 0 -> count p (o ++ [CtlSent op d err false]) = S (count p o).
Proof. intros Hp ->. rewrite count_app. unfold count at 2. rewrite filter_cons_True by (cbn; by rewrite Hp). cbn. lia. Qed.

(** A message that is sent wakes the node, later if it does not stay in the node. *)
Lemma wakes_ctl_send (P : lpn_state -> Prop) tx op d cb m : is_req op = true \/ is_clear op = true \/ (is_friend_req op = true /\ forall x, P x -> x = BT_MESH_LPN_ENABLED) ->
  wakes P m -> wakes P (ctl_send cfg tcfg env tx op d cb m).
Proof.
  intros Hop Hm e. apply triple_ctl_send. intros err local. destruct local.
  - eapply triple_weaken; [apply (Hm e)|intros l o (o0 & [Ha HP] & ->); split; [by eapply accounted_app; [|exact Ha]|done]|done].
  - intros s a s' (o0 & [Ha HP] & E) [= <- <-]. rewrite E. split; [by eapply accounted_app; [|exact Ha]|].
    intros [_ Ho]%Forall_app. apply Forall_cons_1 in Ho as [Herr _]. cbn in Herr. destruct Ha as (_ & H1 & H2 & H3).
    destruct Hop as [Hp|[Hp|[Hp Hx]]]; pose proof (count_snoc _ o0 op d err Hp Herr) as Ec.
    + right; right; left. rewrite Ec. lia.
    + right; right; right; left. rewrite Ec. lia.
    + right; right; right; right. rewrite Ec. split; [by apply Hx|lia].
Qed.

(** ** Clearing *)

Lemma idle_creds_destroy i : idle (creds_destroy (W := W) i).
Proof. unfold creds_destroy. idle_tac. Qed.
Lemma wakes_clear_sent P : wakes P (clear_sent_ok (W := W)).
Proof. unfold clear_sent_ok. do 2 (apply idle_wakes; [idle_tac|intros ?]). apply wakes_state, wakes_timer. Qed.
Lemma wakes_clear P force disable : wakes P (clear_friendship cfg tcfg lcfg env force disable).
Proof.
  unfold clear_friendship. do 3 (apply idle_wakes; [idle_tac|intros ?]). destruct (_ && _).
  - apply wakes_bind; [|intros ?; apply idle_steady; idle_tac]. unfold send_friend_clear. do 3 (apply idle_wakes; [idle_tac|intros ?]).
    apply wakes_ctl_send; [by right; left|apply wakes_clear_sent].
  - apply idle_wakes; [idle_tac|intros ?]. apply wakes_state, wakes_cancel. do 4 (apply idle_wakes; [idle_tac; apply idle_creds_destroy|intros ?]).
    apply idle_wakes; [idle_tac|intros ?]. apply wakes_bind; [|intros ?; apply idle_steady; idle_tac]. destruct disable; [apply wakes_idle_off, idle_ret|].
    apply wakes_state. apply wakes_bind; [apply wakes_timer|intros ?; apply idle_steady; idle_tac].
Qed.

(** ** Requests *)

Lemma wakes_lpn {A} P (g : bt_mesh_lpn -> M st A) : (forall l, wakes (fun x => P x /\ x = lp_state l) (g l)) -> wakes P (gets l_lpn ≫= g).
Proof. intros Hg e s a s' [Ha HP] E. apply (Hg (l_lpn s) e s a s'); [|exact E]. by split. Qed.
Lemma wakes_no {A} (P : lpn_state -> Prop) (m : M st A) : (forall x, ~ P x) -> wakes P m.
Proof. intros HP e s a s' [_ Hx]. by apply HP in Hx. Qed.

Lemma wakes_req_end P : wakes P (req_send_end (W := W) lcfg env 0).
Proof.
  apply wakes_lpn. intros l. case_bool_decide as Hx.
  - eapply wakes_weaken; [|apply wakes_idle_off, idle_ret]. intros x [_ ->]. by rewrite Hx.
  - cbn [Z.eqb negb]. apply idle_wakes; [unfold adv_ended; idle_tac|intros ?]. do 2 (apply idle_wakes; [idle_tac|intros ?]).
    apply wakes_bind; [|intros ?; apply idle_steady; idle_tac]. destruct (_ || _); apply wakes_state, wakes_timer.
Qed.
Lemma idle_adv_started : idle (adv_started (W := W) env).
Proof. unfold adv_started. idle_tac. Qed.
Lemma wakes_req_sent P : wakes P (req_sent (W := W) lcfg env).
Proof. unfold req_sent, req_send_start. apply idle_wakes; [|intros ?; apply wakes_req_end]. apply idle_bind; [apply idle_adv_started|intros ?; apply idle_ret]. Qed.
Lemma wakes_friend_req_end : wakes (eq BT_MESH_LPN_ENABLED) (friend_req_send_end (W := W) lcfg env 0).
Proof.
  apply wakes_lpn. intros l. case_bool_decide as Hx; cbn [Z.eqb negb]; [|apply wakes_no; intros x [<- Ex]; by symmetry in Ex].
  apply idle_wakes; [unfold adv_ended; idle_tac|intros ?]. apply idle_wakes; [idle_tac|intros l']. destruct (k_establishment lcfg); apply wakes_then_state.
Qed.

Lemma steady_poll : steady (send_friend_poll cfg tcfg lcfg env).
Proof.
  unfold send_friend_poll. do 3 (apply steady_bind; [apply idle_steady; idle_tac|intros ?]). destruct (negb _); [apply idle_steady; idle_tac|].
  apply steady_bind; [apply steady_ctl_send, wakes_steady, wakes_req_sent|intros ?; apply idle_steady; idle_tac].
Qed.
Lemma steady_sub_update op : is_req op = true -> steady (sub_update cfg tcfg lcfg env op).
Proof.
  intros Hop. unfold sub_update. do 3 (apply steady_bind; [apply idle_steady; idle_tac|intros ?]). destruct (negb _); [apply idle_steady; idle_tac|].
  apply steady_bind; [apply idle_steady; idle_tac|intros ?]. destruct (_ =? _)%nat; [apply idle_steady; idle_tac|].
  apply steady_bind; [apply idle_steady; idle_tac|intros ?].
  apply steady_bind; [apply steady_ctl_send, wakes_steady, wakes_req_sent|intros ?; apply idle_steady; idle_tac; by (repeat split; right)].
Qed.

(** Sent unless a request is under way. *)
Lemma wakes_run {A} (m : M st A) e s a s' : m s = (Ok a, s') -> accounted e (l_lpn s) (l_out s) -> wakes anyhow m -> awake e (l_lpn s') (l_out s').
Proof. intros E Ha Hm. by apply (Hm e s a s'). Qed.
Lemma wakes_poll e : triple (fun l o => accounted e l o /\ sent_req l = 0) (send_friend_poll cfg tcfg lcfg env) (fun _ => awake e).
Proof.
  unfold send_friend_poll. eapply ltriple_bind; [apply triple_lpn|intros l]. intros s a s' [[Ha Hr] ->]. rewrite Hr. intros E. eapply wakes_run; [exact E|done|].
  do 2 (apply idle_wakes; [idle_tac|intros ?]). cbn [Z.eqb negb].
  apply wakes_bind; [apply wakes_ctl_send; [by left|apply wakes_req_sent]|intros ?; apply idle_steady; idle_tac].
Qed.
Lemma wakes_sub_update op e : is_req op = true -> 
  triple (fun l o => accounted e l o /\ sent_req l = 0 /\ sub_entries op l <> []) (sub_update cfg tcfg lcfg env op) (fun _ => awake e).
Proof.
  intros Hop. unfold sub_update. eapply ltriple_bind; [apply triple_lpn|intros l]. intros s a s' [(Ha & Hr & Hs) ->]. rewrite Hr. intros E. eapply wakes_run; [exact E|done|].
  do 2 (apply idle_wakes; [idle_tac|intros ?]). cbn [Z.eqb negb]. apply idle_wakes; [idle_tac|intros ?].
  destruct (Nat.eqb_spec (length (sub_entries op (l_lpn s))) 0) as [E0%nil_length_inv|_]; [done|]. apply idle_wakes; [idle_tac|intros ?].
  apply wakes_bind; [apply wakes_ctl_send; [by left|apply wakes_req_sent]|intros ?; apply idle_steady; idle_tac; by (repeat split; right)].
Qed.

(** A Friend Request, in a node that has a subnet. *)
Lemma wakes_friend_req e s a s' : accounted e (l_lpn s) (l_out s) -> lp_state (l_lpn s) = BT_MESH_LPN_ENABLED -> is_Some (bt_mesh_subnet_next None (subs s)) ->
  send_friend_req cfg tcfg lcfg env s = (Ok a, s') -> awake e (l_lpn s') (l_out s').
Proof.
  intros Ha Hx [i Hi]. unfold send_friend_req. intros E. apply bind_inv in E as ([] & s1 & [= <-] & E). apply bind_inv in E as (l & s2 & [= _ <-] & E).
  apply bind_inv in E as (sub & s3 & [= Es <-] & E). change (bt_mesh_subnet_next None (subs s) = sub) in Es. rewrite Hi in Es. subst sub.
  apply bind_inv in E as ([] & s4 & [= <-] & E). apply bind_inv in E as (tx & s5 & [= _ <-] & E).
  eapply (wakes_ctl_send (eq BT_MESH_LPN_ENABLED)); [| | |exact E]; [right; right; split; [done|by intros ? <-]| |by split].
  unfold friend_req_send_start. apply idle_wakes; [|intros ?; apply wakes_friend_req_end]. apply idle_bind; [apply idle_adv_started|intros ?; apply idle_ret].
Qed.

(** ** What the Friend sends *)

Lemma poll_timeout_same tx l : lp_state (poll_timeout lcfg tx l).2 = lp_state l /\ sent_req (poll_timeout lcfg tx l).2 = sent_req l.
Proof. unfold poll_timeout. destruct tx; [done|]. by destruct (_ <? _). Qed.
Lemma wakes_response P : wakes P (friend_response_received (W := W) lcfg).
Proof.
  unfold friend_response_received. apply idle_wakes; [apply idle_upd; intros l; by destruct (sent_req l =? POLL)|intros ?]. apply wakes_state.
  apply idle_wakes; [idle_tac|intros ?]. apply idle_wakes; [idle_tac|intros tx]. intros e. eapply ltriple_bind; [apply triple_lpn|intros l].
  pose proof (poll_timeout_same tx l) as Hx. destruct (poll_timeout lcfg tx l) as [t l']. cbn in Hx. destruct Hx as [_ Hr].
  eapply ltriple_bind with (Q := fun _ l o => accounted e l o /\ anyhow (lp_state l)); [apply triple_upd|intros ?].
  - intros l0 o [[[Ho Ha] _] <-]. split; [|done]. split; [|done]. unfold req_ok. by rewrite Hr.
  - apply wakes_bind; [apply wakes_timer|intros ?; apply idle_steady; idle_tac].
Qed.
Lemma steady_response : steady (friend_response_received (W := W) lcfg).
Proof. apply wakes_steady, wakes_response. Qed.
Lemma steady_then {A B} (m : M st A) (b : B) : steady m -> steady (_ ← m; mret b).
Proof. intros Hm. apply steady_bind; [done|intros ?; apply steady_ret]. Qed.
Lemma steady_groups_update : steady (groups_update cfg tcfg lcfg env).
Proof.
  unfold groups_update. apply steady_bind; [apply idle_steady; idle_tac|intros ?]. apply steady_when. intros _.
  do 2 (apply steady_bind; [by apply steady_sub_update|intros ?]). apply idle_steady. idle_tac.
Qed.

Ltac steady_tac :=
  lazymatch goal with
  | |- steady (_ ≫= _) => apply steady_bind; [steady_tac|intros ?; steady_tac]
  | |- steady (when _ _) => apply steady_when; intros _; steady_tac
  | |- steady (timer _) => apply wakes_steady, wakes_timer
  | |- steady (send_friend_poll _ _ _ _) => apply steady_poll
  | |- steady (sub_update _ _ _ _ _) => by apply steady_sub_update
  | |- steady (groups_update _ _ _ _) => apply steady_groups_update
  | |- steady (friend_response_received _) => apply steady_response
  | |- steady (clear_friendship _ _ _ _ _ _) => apply wakes_steady, wakes_clear
  | |- steady (if _ then _ else _) => case_match; steady_tac
  | |- steady (match _ with _ => _ end) => case_match; steady_tac
  | |- _ => apply idle_steady; idle_tac
  end.

Lemma steady_disable force : steady (bt_mesh_lpn_disable cfg tcfg lcfg env force).
Proof. unfold bt_mesh_lpn_disable. steady_tac. Qed.
Lemma steady_friendship_end : steady (bt_mesh_lpn_friendship_end cfg tcfg lcfg env).
Proof. unfold bt_mesh_lpn_friendship_end. steady_tac. Qed.
Lemma steady_msg_received : steady (bt_mesh_lpn_msg_received cfg tcfg lcfg env).
Proof. unfold bt_mesh_lpn_msg_received. steady_tac. Qed.
Lemma idle_cred_create key : idle (friend_cred_create env key).
Proof. unfold friend_cred_create. idle_tac. Qed.
Lemma idle_creds_create i : idle (creds_create env i).
Proof. unfold creds_create. idle_tac; apply idle_cred_create. Qed.
Lemma steady_offer rx buf : steady (bt_mesh_lpn_friend_offer cfg tcfg lcfg env rx buf).
Proof. unfold bt_mesh_lpn_friend_offer. steady_tac; [apply idle_creds_create|apply idle_creds_destroy]. Qed.
Lemma steady_clear_cfm buf : steady (bt_mesh_lpn_friend_clear_cfm cfg tcfg lcfg env buf).
Proof. unfold bt_mesh_lpn_friend_clear_cfm. steady_tac. Qed.
Lemma steady_update V1d1 rx buf : steady (bt_mesh_lpn_friend_update cfg tcfg lcfg env V1d1 rx buf).
Proof. unfold bt_mesh_lpn_friend_update. steady_tac. apply idle_iv. Qed.
Lemma steady_lpn_poll : steady (bt_mesh_lpn_poll cfg tcfg lcfg env).
Proof. unfold bt_mesh_lpn_poll. steady_tac. Qed.
Lemma steady_subnet_evt i evt : steady (lpn_subnet_evt cfg tcfg lcfg env i evt).
Proof. unfold lpn_subnet_evt. steady_tac. apply idle_cred_create. Qed.

(** The list functions leave the state, the timer and the request alone. *)
Definition aside (f : bt_mesh_lpn -> bt_mesh_lpn) : Prop := forall l, lp_state (f l) = lp_state l /\ lp_timer (f l) = lp_timer l /\ sent_req (f l) = sent_req l.
Lemma aside_idle f : aside f -> idle (upd f).
Proof. intros Hf. apply idle_upd. intros l. destruct (Hf l) as (H1 & H2 & H3). unfold req_ok. by rewrite H1, H2, H3. Qed.
Lemma aside_foldl {A} (f : bt_mesh_lpn -> A -> bt_mesh_lpn) (xs : list A) : (forall x, aside (fun l => f l x)) -> aside (fun l => foldl f l xs).
Proof.
  intros Hf. induction xs as [|x xs IH]; intros l; [done|]. cbn [foldl]. destruct (IH (f l x)) as (H1 & H2 & H3), (Hf x l) as (H4 & H5 & H6).
  split; [congruence|]. split; congruence.
Qed.
Lemma aside_group_add g : aside (lpn_group_add g).
Proof. intros l. unfold lpn_group_add. by repeat case_match. Qed.
Lemma aside_group_del g : aside (lpn_group_del g).
Proof. intros l. unfold lpn_group_del. apply (aside_foldl (group_del_at g)). intros i l'. unfold group_del_at. by repeat case_match. Qed.
Lemma aside_removed i : aside (fun l => removed_at l i).
Proof. intros l. unfold removed_at. by repeat case_match. Qed.

Lemma steady_group_add g : steady (bt_mesh_lpn_group_add cfg tcfg lcfg env g).
Proof. unfold bt_mesh_lpn_group_add. apply steady_bind; [apply idle_steady, aside_idle, aside_group_add|intros ?]. steady_tac. Qed.
Lemma steady_group_del gs : steady (bt_mesh_lpn_group_del cfg tcfg lcfg env gs).
Proof.
  unfold bt_mesh_lpn_group_del. apply steady_bind; [apply idle_steady, aside_idle|intros ?; steady_tac].
  apply aside_foldl. intros g l. destruct (negb _); [apply aside_group_del|done].
Qed.
Lemma steady_sub_cfm buf : steady (bt_mesh_lpn_friend_sub_cfm cfg tcfg lcfg env buf).
Proof.
  unfold bt_mesh_lpn_friend_sub_cfm. apply steady_bind; [apply idle_steady; idle_tac|intros l]. destruct (_ <? _); [apply steady_ret|].
  destruct (_ =? 0); [apply steady_ret|]. apply steady_bind; [apply idle_steady; idle_tac|intros msg]. destruct (negb _); [apply steady_ret|].
  destruct (sent_req l =? ADD); [|destruct (sent_req l =? REM); [|apply steady_ret]];
    (apply steady_bind; [apply idle_steady|intros ?; steady_tac]); [by idle_tac|].
  apply aside_idle. intros l'.
  exact (aside_foldl removed_at (List.seq 0 (length (groups l'))) aside_removed (l' <| added := group_clear (added l') (pending l') |>)).
Qed.

(** ** The timer and the start *)

(** Given up and asked again. *)
Lemma wakes_poll_again {A} P (g : Z -> M st A) : (forall err, steady (g err)) ->
  wakes P (_ ← upd (fun l => l <| sent_req := 0 |>); err ← send_friend_poll cfg tcfg lcfg env; g err).
Proof.
  intros Hg e. eapply ltriple_bind with (Q := fun _ l o => accounted e l o /\ sent_req l = 0).
  - apply triple_upd. intros l o [[_ Ha] _]. split; [|done]. split; [by left|done].
  - intros ?. eapply ltriple_bind; [apply wakes_poll|intros err; apply Hg].
Qed.
Lemma wakes_update_timeout P : wakes P (update_timeout cfg tcfg lcfg env).
Proof.
  unfold update_timeout. apply idle_wakes; [idle_tac|intros l]. destruct (established l).
  - apply wakes_state, wakes_bind; [apply wakes_timer|intros ?; apply idle_steady; idle_tac].
  - apply idle_wakes; [idle_tac|intros ?]. destruct (_ <? _); [|apply wakes_clear]. apply wakes_poll_again. intros err. steady_tac.
Qed.

(** What the timer needs: a subnet to look for a Friend in, and something to say if it
    repeats a message about the subscription list. *)
Definition timer_ready (s : st) : Prop :=
  let l := l_lpn s in
  match lp_state l with
  | BT_MESH_LPN_TIMER | BT_MESH_LPN_ENABLED => is_Some (bt_mesh_subnet_next None (subs s))
  | BT_MESH_LPN_ESTABLISHED => sent_req l = 0 \/ sent_req l = POLL \/ sub_entries (sent_req l) l <> []
  | _ => True
  end.

(** The search for a Friend. *)
Lemma idle_run {A} (m : M st A) e s a s' : m s = (Ok a, s') -> accounted e (l_lpn s) (l_out s) -> idle m -> accounted e (l_lpn s') (l_out s').
Proof. intros E Ha Hm. destruct (Hm s) as (_ & _ & Hr & o & Ho). rewrite E in Hr, Ho. cbn in *. rewrite Ho. by eapply accounted_app. Qed.
Lemma search_awake {A} (b : A) e s a s' : accounted e (l_lpn s) (l_out s) -> lp_state (l_lpn s) = BT_MESH_LPN_ENABLED ->
  is_Some (bt_mesh_subnet_next None (subs s)) -> (_ ← send_friend_req cfg tcfg lcfg env; mret b) s = (Ok a, s') -> awake e (l_lpn s') (l_out s').
Proof. intros Ha Hx Hs E. apply bind_inv in E as (r & s1 & E1 & [= _ <-]). by eapply wakes_friend_req. Qed.
Lemma start_awake {A} (b : A) scan ev e s a s' : accounted e (l_lpn s) (l_out s) -> is_Some (bt_mesh_subnet_next None (subs s)) ->
  (_ ← lpn_set_state BT_MESH_LPN_ENABLED; _ ← when scan (out ev); _ ← send_friend_req cfg tcfg lcfg env; mret b) s = (Ok a, s') ->
  awake e (l_lpn s') (l_out s').
Proof.
  intros Ha Hs E. apply bind_inv in E as ([] & s1 & [= <-] & E). apply bind_inv in E as ([] & s2 & Ew & E).
  eapply search_awake; [| | |exact E].
  - eapply idle_run; [exact Ew|exact Ha|]. idle_tac.
  - destruct scan; by injection Ew as <-.
  - destruct scan; by injection Ew as <-.
Qed.

Lemma timeout_awake e s a s' : accounted e (l_lpn s) (l_out s) -> timer_ready s -> lpn_timeout cfg tcfg lcfg env s = (Ok a, s') -> awake e (l_lpn s') (l_out s').
Proof.
  intros Ha Hr E. apply bind_inv in E as ([] & s1 & [= <-] & E). apply bind_inv in E as (l & s2 & [= <- <-] & E).
  change (lp_state (l_lpn s <| lp_timer := None |>)) with (lp_state (l_lpn s)) in E. unfold timer_ready in Hr. destruct (lp_state (l_lpn s)) eqn:Hx.
  - injection E as _ <-. split; [exact Ha|]. intros _. by left.
  - eapply wakes_run; [exact E|exact Ha|]. apply wakes_clear.
  - eapply start_awake; [| |exact E]; [exact Ha|exact Hr].
  - eapply search_awake; [| | |exact E]; [exact Ha|exact Hx|exact Hr].
  - eapply wakes_run; [exact E|exact Ha|]. apply wakes_then_states. steady_tac.
  - eapply wakes_run; [exact E|exact Ha|]. apply wakes_state. apply idle_wakes; [idle_tac|intros ?].
    apply wakes_bind; [apply wakes_timer|intros ?; apply idle_steady; idle_tac].
  - destruct (_ <? _).
    + apply bind_inv in E as ([] & s3 & [= <-] & E).
      change (sent_req (l_lpn (s <| l_lpn ::= _ |>))) with (sent_req (l_lpn s)) in E.
      assert (accounted e (l_lpn s <| sent_req := 0 |>) (l_out s)) as Ha0 by (destruct Ha as [_ Ha]; split; [by left|done]).
      destruct (_ || _) eqn:Eq; apply bind_inv in E as (r & s4 & E & [= _ <-]).
      * eapply wakes_poll; [|exact E]. by split.
      * apply orb_false_iff in Eq as [H0%Z.eqb_neq H1%Z.eqb_neq]. eapply (wakes_sub_update (sent_req (l_lpn s))); [| |exact E].
        -- destruct Ha as [[Hc|Hc] _]; [contradiction (H0 Hc)|exact Hc].
        -- split; [exact Ha0|]. split; [done|]. destruct Hr as [Hc|[Hc|Hr]]; [contradiction (H0 Hc)|contradiction (H1 Hc)|by rewrite (entries_ext _ (l_lpn s))].
    + eapply wakes_run; [exact E|exact Ha|]. apply idle_wakes; [idle_tac|intros ?]. apply wakes_clear.
  - eapply wakes_run; [exact E|exact Ha|]. apply wakes_then_states. steady_tac.
  - eapply wakes_run; [exact E|exact Ha|]. apply wakes_update_timeout.
Qed.

(** * Runs *)

(** What an operation needs: the callbacks report no error (they would if a message failed),
    and there is something to do. *)
Definition awake_allowed (op : lpn_op) (s : st) : Prop :=
  match op with
  | LTimeout => timer_ready s
  | LFriendReqStart err | LReqStart err => err = 0
  | LFriendReqEnd _ | LReqEnd _ | LClearSent _ => False
  | LSet true => le_provisioned env = true /\ is_Some (bt_mesh_subnet_next None (subs s))
  | LInit => lp_state (l_lpn s) = BT_MESH_LPN_ENABLED -> is_Some (bt_mesh_subnet_next None (subs s))
  | _ => True
  end.

(** The callbacks report no error, and those at the end of a message are steps of their own. *)
Definition callback_ok (op : lpn_op) : Prop :=
  match op with
  | LFriendReqStart err | LReqStart err => err = 0
  | LFriendReqEnd _ | LReqEnd _ | LClearSent _ => False
  | _ => True
  end.
(** The node is to look for a Friend and is in no subnet, or not in a network yet; or it is
    to repeat a message about the subscription list and has nothing left to say. *)
Definition no_subnet (s : st) : bool := bool_decide (bt_mesh_subnet_next None (subs s) = None).
Definition nothing_to_do (op : lpn_op) (s : st) : bool :=
  let l := l_lpn s in
  match op with
  | LTimeout =>
      match lp_state l with
      | BT_MESH_LPN_TIMER | BT_MESH_LPN_ENABLED => no_subnet s
      | BT_MESH_LPN_ESTABLISHED => negb (sent_req l =? 0) && negb (sent_req l =? POLL) && bool_decide (sub_entries (sent_req l) l = [])
      | _ => false
      end
  | LSet true => negb (le_provisioned env) || no_subnet s
  | LInit => bool_decide (lp_state l = BT_MESH_LPN_ENABLED) && no_subnet s
  | _ => false
  end.
Lemma has_subnet s : no_subnet s = false -> is_Some (bt_mesh_subnet_next None (subs s)).
Proof. unfold no_subnet. intros Hs%bool_decide_eq_false. by apply not_eq_None_Some. Qed.
Lemma something_to_do op s : callback_ok op -> nothing_to_do op s = false -> awake_allowed op s.
Proof.
  intros Hok Hs. destruct op as [| | | | | |enable| | | | | | | | | | |]; cbn [nothing_to_do awake_allowed callback_ok] in *; try done.
  - unfold timer_ready. destruct (lp_state (l_lpn s)); try done; try by apply has_subnet.
    destruct (Z.eqb_spec (sent_req (l_lpn s)) 0); [by left|]. destruct (Z.eqb_spec (sent_req (l_lpn s)) POLL); [by right; left|].
    right; right. by apply bool_decide_eq_false in Hs.
  - destruct enable; [|done]. apply orb_false_iff in Hs as [Hp%negb_false_iff Hs]. split; [done|by apply has_subnet].
  - intros Hx. rewrite bool_decide_true in Hs by done. by apply has_subnet.
Qed.

Lemma steady_run {A} (m : M st A) e s a s' : m s = (Ok a, s') -> awake e (l_lpn s) (l_out s) -> steady m -> awake e (l_lpn s') (l_out s').
Proof. intros E Ha Hm. by apply (Hm e s a s'). Qed.

Lemma set_awake enable e s a s' : awake e (l_lpn s) (l_out s) -> awake_allowed (LSet enable) s ->
  bt_mesh_lpn_set cfg tcfg lcfg env enable s = (Ok a, s') -> awake e (l_lpn s') (l_out s').
Proof.
  intros Ha Hok E. apply bind_inv in E as (l & s1 & [= <- <-] & E).
  assert (steady (A := Z) (mret 0)) as H0 by apply steady_ret. cbv zeta in E. destruct enable.
  - destruct (negb (bool_decide _)); [by eapply steady_run; [exact E|exact Ha|]|]. destruct Hok as [Hp Hs]. rewrite Hp in E.
    eapply start_awake; [| |exact E]; [apply Ha|exact Hs].
  - destruct (bool_decide (lp_state _ = BT_MESH_LPN_DISABLED)); [by eapply steady_run; [exact E|exact Ha|]|].
    destruct (negb _); [eapply wakes_run; [exact E|apply Ha|]; apply wakes_state, wakes_idle_off, idle_ret|].
    destruct (_ && _); (eapply wakes_run; [exact E|apply Ha|]).
    + apply wakes_cancel, wakes_state, wakes_idle_off, idle_ret.
    + apply wakes_bind; [|intros ?; apply steady_ret]. unfold bt_mesh_lpn_disable. apply wakes_lpn. intros l. case_bool_decide as Hx; [|apply wakes_clear].
      eapply wakes_weaken; [|apply wakes_idle_off, idle_ret]. intros x [_ ->]. by rewrite Hx.
Qed.
Lemma init_awake e s a s' : awake e (l_lpn s) (l_out s) -> awake_allowed LInit s -> bt_mesh_lpn_init cfg tcfg lcfg env s = (Ok a, s') -> awake e (l_lpn s') (l_out s').
Proof.
  intros Ha Hok E. apply bind_inv in E as (l & s1 & [= <- <-] & E). case_bool_decide as Hx.
  - apply bind_inv in E as ([] & s1 & Ew & E). eapply search_awake; [| | |exact E].
    + eapply idle_run; [exact Ew|apply Ha|]. idle_tac.
    + destruct (k_establishment lcfg); by injection Ew as <-.
    + destruct (k_establishment lcfg); injection Ew as <-; by apply Hok.
  - eapply steady_run; [exact E|exact Ha|]. apply steady_bind; [apply idle_steady; idle_tac|intros ?]. apply steady_bind; [|intros ?; apply steady_ret].
    apply steady_when. intros _. apply wakes_steady, wakes_state, wakes_timer.
Qed.

Lemma op_awake op e s s' : awake e (l_lpn s) (l_out s) -> awake_allowed op s -> lpn_do cfg tcfg lcfg env op s = (Ok (), s') ->
  awake e (l_lpn s') (l_out s').
Proof.
  intros Ha Hok E. destruct op; cbn [awake_allowed] in Hok; try (by destruct Hok); cbn [lpn_do] in E;
    try (apply bind_inv in E as (r & s1 & E & [= <-])).
  - eapply timeout_awake; [|exact Hok|exact E]. apply Ha.
  - subst err. eapply steady_run; [exact E|exact Ha|]. unfold friend_req_send_start. apply idle_steady, idle_bind; [apply idle_adv_started|intros ?; apply idle_ret].
  - subst err. eapply steady_run; [exact E|exact Ha|]. unfold req_send_start. apply idle_steady, idle_bind; [apply idle_adv_started|intros ?; apply idle_ret].
  - by eapply set_awake; [|exact Hok|exact E].
  - eapply steady_run; [exact E|exact Ha|]. apply steady_disable.
  - eapply steady_run; [exact E|exact Ha|]. apply steady_friendship_end.
  - eapply steady_run; [exact E|exact Ha|]. apply steady_msg_received.
  - eapply steady_run; [exact E|exact Ha|]. apply steady_offer.
  - eapply steady_run; [exact E|exact Ha|]. apply steady_clear_cfm.
  - eapply steady_run; [exact E|exact Ha|]. apply steady_update.
  - eapply steady_run; [exact E|exact Ha|]. apply steady_group_add.
  - eapply steady_run; [exact E|exact Ha|]. apply steady_group_del.
  - eapply steady_run; [exact E|exact Ha|]. apply steady_lpn_poll.
  - eapply steady_run; [exact E|exact Ha|]. apply steady_subnet_evt.
  - by eapply init_awake; [|exact Hok|exact E].
Qed.

End Awake.

Section Runs.

Context {W : Type} `{MeshCrypto W}.
Context (cfg : net_cfg) (tcfg : trans_cfg) (lcfg : lpn_cfg).
Notation st := (lpn_node W).

(** The node, and the callbacks that have run: one for each message that was given to the
    advertiser; and whether it has had nothing to do where it had to do something. *)
Inductive awake_step : st * ended * bool -> st * ended * bool -> Prop :=
| as_op env op s s' e d : callback_ok op -> lpn_do cfg tcfg lcfg env op s = (Ok (), s') -> awake_step (s, e, d) (s', e, d || nothing_to_do env op s)
| as_cfm env buf s r s' e d : bt_mesh_lpn_friend_sub_cfm cfg tcfg lcfg env buf s = (Ok r, s') -> awake_step (s, e, d) (s', e, d)
| as_req_end env s s' e d : (e_req e < count is_req (l_out s))%nat -> lpn_do cfg tcfg lcfg env (LReqEnd 0) s = (Ok (), s') ->
    awake_step (s, e, d) (s', mk_ended (S (e_req e)) (e_friend_req e) (e_clear e), d)
| as_friend_req_end env s s' e d : (e_friend_req e < count is_friend_req (l_out s))%nat -> lpn_do cfg tcfg lcfg env (LFriendReqEnd 0) s = (Ok (), s') ->
    awake_step (s, e, d) (s', mk_ended (e_req e) (S (e_friend_req e)) (e_clear e), d)
| as_clear_sent env s s' e d : (e_clear e < count is_clear (l_out s))%nat -> lpn_do cfg tcfg lcfg env (LClearSent 0) s = (Ok (), s') ->
    awake_step (s, e, d) (s', mk_ended (e_req e) (e_friend_req e) (S (e_clear e)), d)
| as_other t s e d : awake_step (s, e, d) (s <| l_trans := t |>, e, d).

Lemma never_again w w' : rtc awake_step w w' -> w'.2 = false -> w.2 = false.
Proof.
  induction 1 as [|w1 w2 w3 H12 _ IH]; [done|]. intros Hd. specialize (IH Hd). inversion H12; subst; cbn in *; try done. by apply orb_false_iff in IH as [-> _].
Qed.
Lemma step_awake s e d s' e' : awake_step (s, e, d) (s', e', false) -> awake e (l_lpn s) (l_out s) -> d = false /\ awake e' (l_lpn s') (l_out s').
Proof.
  intros Hstep Ha. inversion Hstep as [env op ? ? ? ? Hok E|env buf ? r ? ? ? E|env ? ? ? ? Hlt E|env ? ? ? ? Hlt E|env ? ? ? ? Hlt E|t ? ? ?]; subst;
    [|split; [done|]..].
  - match goal with Hd : _ || _ = false |- _ => apply orb_false_iff in Hd as [-> Hd] end. split; [done|]. eapply op_awake; [done|by apply something_to_do|done].
  - eapply steady_run; [exact E|exact Ha|apply steady_sub_cfm].
  - eapply wakes_run; [exact E| |apply wakes_req_end]. destruct Ha as [(H0 & H1 & H2 & H3) _]. unfold accounted. cbn. split; [exact H0|lia].
  - assert (accounted (mk_ended (e_req e) (S (e_friend_req e)) (e_clear e)) (l_lpn s) (l_out s)) as Ha1.
    { destruct Ha as [(H0 & H1 & H2 & H3) _]. unfold accounted. cbn. split; [exact H0|lia]. }
    destruct (decide (lp_state (l_lpn s) = BT_MESH_LPN_ENABLED)) as [Hx|Hx].
    + by eapply (wakes_friend_req_end lcfg env _ s () s'); [|exact E].
    + cbn [lpn_do] in E. unfold friend_req_send_end in E. apply bind_inv in E as (l & s1 & [= <- <-] & E).
      rewrite bool_decide_eq_false_2 in E by done. injection E as <-. split; [exact Ha1|].
      intros Ho. destruct (proj2 Ha Ho) as [?|[?|[?|[?|[? ?]]]]]; [by left|by right; left|by right; right; left|by right; right; right; left|done].
  - eapply wakes_run; [exact E| |apply wakes_clear_sent]. destruct Ha as [(H0 & H1 & H2 & H3) _]. unfold accounted. cbn. split; [exact H0|lia].
  - exact Ha.
Qed.

(** C13: a Low Power node falls asleep for want of something to do only.  After any run in
    which its messages could be sent, whatever arrives or gets lost: the node is off, or its
    timer runs, or a list message, a poll or a Friend Clear of its own is still being sent, or
    it looks for a Friend and its Friend Request is still being sent; unless at some step it
    was to look for a Friend without being in a subnet or a network, or its timer fired when
    the message about the subscription list that it had to repeat had become empty
    ([nothing_to_do]).  Then it may wait for nothing ([LpnSample.deaf_asleep]). *)
Theorem lpn_awake n (s : st) s' e' d :
  l_lpn s = lpn_start n -> l_out s = [] -> rtc awake_step (s, mk_ended 0 0 0, false) (s', e', d) -> Forall sent_ok (l_out s') ->
  d = true \/ waits e' (l_lpn s') (l_out s').
Proof.
  intros El Eo Hrun Hsent. destruct d; [by left|]. right.
  assert (awake (mk_ended 0 0 0) (l_lpn s) (l_out s)) as Ha.
  { rewrite El, Eo. split; [|intros _; by left]. split; [by left|cbn; lia]. }
  assert (forall w w', rtc awake_step w w' -> w'.2 = false -> awake w.1.2 (l_lpn w.1.1) (l_out w.1.1) -> w.2 = false /\ awake w'.1.2 (l_lpn w'.1.1) (l_out w'.1.1)) as Hk.
  { induction 1 as [|[[s1 e1] d1] [[s2 e2] d2] w3 H12 Hrest IH]; [done|]. intros Hd Hi. cbn in *.
    assert (d2 = false) as -> by (by apply (never_again _ _ Hrest)).
    destruct (step_awake _ _ _ _ _ H12 Hi) as [-> Hi2]. split; [done|]. by apply IH. }
  by apply (Hk _ _ Hrun eq_refl Ha).
Qed.

End Runs.
