(* ===== verification/LpnSample.v ===== *)
(** A Low Power node at work: it finds a Friend, its groups get into the list of the Friend,
    and what the program does on some runs. *)

From S2P Require Import Prelude Byteorder BufSimple MeshDefs CryptoIf Psa CryptoPsa Crypto Subnet NetIv Net NetSample AppKeys Transport TransSample.
From S2P Require Import Lpn LpnSub LpnKeeps LpnRun LpnAwake.

#[local] Instance lpn_sample_crypto : MeshCrypto (crypto_state psa_store) := psa_crypto true 100 8.

(** The key of the subnet is key 3. *)
Definition lpn_world : crypto_state psa_store :=
  mk_crypto_state (<[3 := sample_key BT_MESH_KEY_TYPE_NET 5]> (<[1 := sample_key BT_MESH_KEY_TYPE_CCM 7]>
    {[2 := sample_key BT_MESH_KEY_TYPE_ECB 9]})) ∅ no_dh.
Definition sample_lcfg : lpn_cfg := mk_lpn_cfg true false true true 15 100 15 8 300 300 1 0 0.
Definition sample_lenv : lpn_env := mk_lpn_env (tenv_of 1) true 1 false.
Definition off_node : lpn_node (crypto_state psa_store) :=
  mk_lpn_node (lpn_start 8) (trans_of 77 <| t_net := set_n_sub (mk_state lpn_world [subnet0] [] []) (node_of 77) |>) [].

Definition lpn_after (op : lpn_op) (s : lpn_node (crypto_state psa_store)) : lpn_node (crypto_state psa_store) :=
  (lpn_do plain_cfg sample_tcfg sample_lcfg sample_lenv op s).2.
Definition lpn_result (op : lpn_op) (s : lpn_node (crypto_state psa_store)) : outcome unit :=
  (lpn_do plain_cfg sample_tcfg sample_lcfg sample_lenv op s).1.
Definition lpn_confirmed (x : Z) (s : lpn_node (crypto_state psa_store)) : lpn_node (crypto_state psa_store) :=
  (bt_mesh_lpn_friend_sub_cfm plain_cfg sample_tcfg sample_lcfg sample_lenv (mk_buf [x] 0 1 1) s).2.

(** ** A friendship, and a group *)

Definition offer : bt_buf_simple := mk_buf [200; 16; 5; 0; 0; 1] 0 6 6.
Definition update : bt_buf_simple := mk_buf [0; 0; 0; 0; 0; 0] 0 6 6.
Definition heard (friend_cred : bool) : bt_mesh_net_rx :=
  mk_rx 0 2 1 0 0 77 false false friend_cred true BT_MESH_NET_IF_ADV true false 255 65535.
Definition friend_node := lpn_after (LUpdate false (heard true) update) (lpn_after LTimeout (lpn_after (LReqEnd 0)
  (lpn_after (LOffer (heard false) offer) (lpn_after LTimeout (lpn_after (LFriendReqEnd 0) (lpn_after (LSet true) off_node)))))).
Definition asked := lpn_after LTimeout (lpn_after (LReqEnd 0) (lpn_after (LGroupAdd 0xC001) friend_node)).
Definition known := lpn_confirmed 0 asked.

Definition alone_side : friend_side := mk_side (replicate 5 0) 0 None [] 0.
Definition told_side : friend_side := friend_gets 0 ADD [0; 0xC0; 1] alone_side.

Notation lpn_step := (world_step plain_cfg sample_tcfg sample_lcfg).

Lemma lpn_runs op s f : lpn_allowed sample_lenv op (l_lpn s) -> match lpn_result op s with Ok _ => True | _ => False end ->
  lpn_step (s, f) (lpn_after op s, f).
Proof.
  intros Ha Hr. apply (ws_node _ _ _ sample_lenv op); [done|]. unfold lpn_result, lpn_after in *. by destruct (lpn_do _ _ _ _ op s) as [[[]| |] s'].
Qed.

Lemma friend_run : rtc lpn_step (off_node, alone_side) (friend_node, alone_side).
Proof.
  unfold friend_node. do 7 (eapply rtc_r; [|apply lpn_runs; [done|by vm_compute]]). apply rtc_refl.
Qed.
Lemma asked_run : rtc lpn_step (friend_node, alone_side) (asked, alone_side).
Proof.
  unfold asked. do 2 (eapply rtc_r; [|apply lpn_runs; [done|by vm_compute]]). apply rtc_once, lpn_runs; [|by vm_compute].
  split; [done|]. split; [by vm_compute|]. intros i _ Hi. unfold bit in Hi.
  change (to_remove (l_lpn friend_node)) with (replicate 8 false) in Hi. by apply lookup_replicate in Hi as [? _].
Qed.
Lemma known_run : rtc lpn_step (asked, alone_side) (known, told_side).
Proof.
  eapply rtc_l; [apply (ws_friend _ _ _ 0 ADD [0; 0xC0; 1] 0); [done|by vm_compute|by vm_compute; lia]|].
  apply rtc_once. apply (ws_confirm _ _ _ sample_lenv (mk_buf [0] 0 1 1) asked 0).
  - exists 0%nat, ADD, [0; 0xC0; 1], 0, 0. split_and!; [by left|by vm_compute|by vm_compute; lia|done..].
  - by vm_compute.
Qed.


(** ** The same node, and what it waits for *)

Notation lpn_waits := (awake_step plain_cfg sample_tcfg sample_lcfg).

Lemma waits_op op s e : callback_ok op -> nothing_to_do sample_lenv op s = false -> match lpn_result op s with Ok _ => True | _ => False end ->
  lpn_waits (s, e, false) (lpn_after op s, e, false).
Proof.
  intros Ha Hn Hr. pose proof (as_op plain_cfg sample_tcfg sample_lcfg sample_lenv op s (lpn_after op s) e false Ha) as Hs. rewrite Hn in Hs. apply Hs.
  unfold lpn_result, lpn_after in *. by destruct (lpn_do _ _ _ _ op s) as [[[]| |] s'].
Qed.
Lemma waits_friend_req s e : (e_friend_req e < count is_friend_req (l_out s))%nat -> match lpn_result (LFriendReqEnd 0) s with Ok _ => True | _ => False end ->
  lpn_waits (s, e, false) (lpn_after (LFriendReqEnd 0) s, mk_ended (e_req e) (S (e_friend_req e)) (e_clear e), false).
Proof.
  intros Hlt Hr. apply (as_friend_req_end _ _ _ sample_lenv); [done|]. unfold lpn_result, lpn_after in *. by destruct (lpn_do _ _ _ _ _ s) as [[[]| |] s'].
Qed.
Lemma waits_req s e : (e_req e < count is_req (l_out s))%nat -> match lpn_result (LReqEnd 0) s with Ok _ => True | _ => False end ->
  lpn_waits (s, e, false) (lpn_after (LReqEnd 0) s, mk_ended (S (e_req e)) (e_friend_req e) (e_clear e), false).
Proof.
  intros Hlt Hr. apply (as_req_end _ _ _ sample_lenv); [done|]. unfold lpn_result, lpn_after in *. by destruct (lpn_do _ _ _ _ _ s) as [[[]| |] s'].
Qed.

(** It polls when the timer has fired: the timer is off while the poll is being sent. *)
Definition polling := lpn_after LTimeout friend_node.
Lemma polling_run : rtc lpn_waits (off_node, mk_ended 0 0 0, false) (polling, mk_ended 1 1 0, false).
Proof.
  unfold polling, friend_node.
  eapply rtc_r; [|apply waits_op; [done|by vm_compute|by vm_compute]].
  eapply rtc_r; [|apply waits_op; [done|by vm_compute|by vm_compute]].
  eapply rtc_r; [|apply waits_op; [by vm_compute|by vm_compute|by vm_compute]].
  eapply rtc_r; [|apply (waits_req _ (mk_ended 0 1 0)); by vm_compute; lia].
  eapply rtc_r; [|apply waits_op; [done|by vm_compute|by vm_compute]].
  eapply rtc_r; [|apply waits_op; [by vm_compute|by vm_compute|by vm_compute]].
  eapply rtc_r; [|apply (waits_friend_req _ (mk_ended 0 0 0)); by vm_compute; lia].
  apply rtc_once, waits_op; [done|by vm_compute|by vm_compute].
Qed.
Lemma lpn_awake_witness : lp_timer (l_lpn polling) = None /\ waits (mk_ended 1 1 0) (l_lpn polling) (l_out polling).
Proof.
  split; [by vm_compute|].
  destruct (lpn_awake plain_cfg sample_tcfg sample_lcfg 8 off_node polling (mk_ended 1 1 0) false) as [Hd|Hw]; [done|done|exact polling_run| |done|exact Hw].
  change (Forall sent_ok [ScanDisable; CtlSent 3 [1; 100; 0; 1; 44; 0; 0; 1; 0; 1] 0 false; ScanEnable; CtlSent 1 [0] 0 false;
    LpnPolled 0 2 false; ScanEnable; HbFeatureChanged; ScanDisable; LpnEstablished 0 2 16 200; CtlSent 1 [1] 0 false]).
  repeat constructor.
Defined.

(** ** What the program does on other runs *)

(** To turn the feature off right after a friendship has ended goes through a null pointer. *)
Example off_after_end : lpn_result (LSet false) (lpn_after LFriendshipEnd friend_node) = Crash.
Proof. by vm_compute. Qed.

(** The removal of a group is under way, and the group is added back: the Friend removes it,
    and the node counts it as known to its Friend. *)
Definition readded := lpn_after (LGroupAdd 0xC001) (lpn_after (LGroupDel [0xC001]) known).
Example readded_unknown : bit (added (l_lpn readded)) 0 /\ group_at (l_lpn readded) 0 0xC001 /\ ~ bit (to_remove (l_lpn readded)) 0 /\
  sub_msgs (l_out readded) !! 1%nat = Some (REM, [1; 0xC0; 1], 0) /\ 0xC001 ∉ f_list (friend_gets 1 REM [1; 0xC0; 1] told_side).
Proof. split; [by vm_compute|]. split; [by vm_compute|]. split; [by vm_compute|]. split; [by vm_compute|]. by apply (bool_decide_unpack _); vm_compute. Qed.

(** Without a confirmation it has nothing to repeat then, and its timer stays off. *)
Definition deaf := lpn_after LTimeout (lpn_after LTimeout (lpn_after LTimeout (lpn_after (LReqEnd 0) readded))).
Example deaf_asleep : lp_state (l_lpn deaf) = BT_MESH_LPN_ESTABLISHED /\ lp_timer (l_lpn deaf) = None /\
  count is_req (l_out deaf) = e_req (mk_ended 3 1 0).
Proof. by vm_compute. Qed.

(** Five groups are asked for and the message is lost; a sixth one is added in a slot before
    theirs: the repeated message leaves out the last group, and its confirmation counts it. *)
Definition sixth_groups := fold_left (fun s g => lpn_after (LGroupAdd g) s) [0xC000; 0xC001; 0xC002; 0xC003; 0xC004; 0xC005] off_node.
Definition befriended (s : lpn_node (crypto_state psa_store)) := lpn_after (LUpdate false (heard true) update) (lpn_after LTimeout (lpn_after (LReqEnd 0)
  (lpn_after (LOffer (heard false) offer) (lpn_after LTimeout (lpn_after (LFriendReqEnd 0) (lpn_after (LSet true) s)))))).
Definition five_asked := befriended (lpn_after (LGroupDel [0xC000]) sixth_groups).
Definition repeated := lpn_after LTimeout (lpn_after LTimeout (lpn_after LTimeout (lpn_after (LReqEnd 0) (lpn_after (LGroupAdd 0xC000) five_asked)))).
Example repeated_counts : sub_msgs (l_out repeated) = [(ADD, [0; 0xC0; 1; 0xC0; 2; 0xC0; 3; 0xC0; 4; 0xC0; 5], 0); (ADD, [1; 0xC0; 0; 0xC0; 1; 0xC0; 2; 0xC0; 3; 0xC0; 4], 0)] /\
  group_at (l_lpn repeated) 5 0xC005 /\ bit (added (l_lpn (lpn_confirmed 1 repeated))) 5 /\
  0xC005 ∉ f_list (friend_gets 1 ADD [1; 0xC0; 0; 0xC0; 1; 0xC0; 2; 0xC0; 3; 0xC0; 4] alone_side).
Proof. split; [by vm_compute|]. split; [by vm_compute|]. split; [by vm_compute|]. by apply (bool_decide_unpack _); vm_compute. Qed.

(** A group is removed while it is asked for, and again when that failed: its slot is free,
    and still marked; the next group in the slot is asked for and removed again. *)
Definition marked := lpn_after (LGroupAdd 0xC002) (lpn_after (LGroupDel [0xC001]) (lpn_after (LReqEnd (- 5))
  (lpn_after (LGroupDel [0xC001]) (lpn_after (LGroupAdd 0xC001) friend_node)))).
Definition removed_again := lpn_confirmed 1 (lpn_after LTimeout (lpn_after (LReqEnd 0) marked)).
Example marked_removed : sub_msgs (l_out removed_again) = [(ADD, [0; 0xC0; 1], 0); (ADD, [1; 0xC0; 2], 0); (REM, [2; 0xC0; 2], 0)].
Proof. by vm_compute. Qed.
