(* ===== verification/BtBuf.v ===== *)
(** Reference-counted network buffers: [base/bt_buf.c] and the inline functions of
    [base/bt_buf.h] on [struct bt_buf].

    A buffer is known by its address, in units of the structures of its pool's array; its
    list node has the same address in a heap of [Slist.v].  A buffer of which nothing has
    been written yet has no entry in [s_bufs]; its memory has the arbitrary contents
    [noinit].  The data of a buffer, the row of its pool's array or memory of the caller, is
    the store of its [bt_buf_simple] while [__buf] points to it.  An operation is [None] when
    an assertion fails, when it goes through a null or unknown pointer, or when a walk over
    fragments does not end.

    Pools have fixed data, of the same size for every buffer: the other kinds of pools, whose
    data can be shared, are not compiled ([#if 0]).  What a wait for a buffer returns is an
    argument; what other threads do meanwhile are other operations. *)

From stdpp Require Import gmap.
From S2P Require Import Prelude Byteorder BufSimple Slist Queue.

(** * State *)

(** [struct bt_buf] *)
Record bt_buf := mk_bt_buf {
  bb_frags : ptr;
  bb_ref : Z;
  bb_flags : Z;
  bb_pool : nat;              (** [pool], an index of [s_pools] *)
  bb_ud_size : Z;
  bb_has_data : bool;         (** [__buf] is not [NULL] *)
  bb_b : bt_buf_simple;
  bb_user : list Z
}.
#[export] Instance eta_bt_buf : Eta bt_buf := fun b =>
  mk_bt_buf (bb_frags b) (bb_ref b) (bb_flags b) (bb_pool b) (bb_ud_size b) (bb_has_data b) (bb_b b) (bb_user b).

(** [struct bt_buf_pool], with its [struct bt_buf_data_alloc] *)
Record bt_buf_pool := mk_buf_pool {
  bp_free : bt_queue;
  bp_count : Z;
  bp_uninit : Z;
  bp_ud_size : Z;
  bp_destroy : bool;          (** there is a callback [destroy] *)
  bp_max : Z;                 (** [alloc->max_alloc_size] *)
  bp_bufs : Z;                (** the address of [__bufs] *)
  bp_data : list (list Z)     (** [data_pool], by rows *)
}.
#[export] Instance eta_bt_buf_pool : Eta bt_buf_pool := fun p =>
  mk_buf_pool (bp_free p) (bp_count p) (bp_uninit p) (bp_ud_size p) (bp_destroy p) (bp_max p) (bp_bufs p) (bp_data p).

Record buf_state := mk_buf_state {
  s_pools : list bt_buf_pool;
  s_bufs : gmap Z bt_buf;
  s_nodes : heap
}.
#[export] Instance eta_buf_state : Eta buf_state := fun s => mk_buf_state (s_pools s) (s_bufs s) (s_nodes s).

Definition BT_BUF_EXTERNAL_DATA : Z := BIT 0.

(** [BT_BUF_POOL_FIXED_DEFINE] *)
Definition BT_BUF_POOL_INITIALIZER (count data_size ud_size : Z) (destroy : bool) (bufs : Z) (data : list (list Z)) : bt_buf_pool :=
  mk_buf_pool empty_queue count count ud_size destroy data_size bufs data.

(** ** Steps *)

Definition BM (A : Type) : Type := buf_state -> option (A * buf_state).
#[export] Instance BM_ret : MRet BM := fun A a s => Some (a, s).
#[export] Instance BM_bind : MBind BM := fun A B f m s => match m s with Some (a, s) => f a s | None => None end.

Definition lift {A} (x : option A) : BM A := fun s => match x with Some a => Some (a, s) | None => None end.
(** [__ASSERT_NO_MSG] *)
Definition check (c : bool) : BM unit := lift (assert c).
Definition buf_at (a : Z) : BM bt_buf := fun s => match s_bufs s !! a with Some b => Some (b, s) | None => None end.
Definition put_buf (a : Z) (b : bt_buf) : BM unit := fun s => Some ((), s <| s_bufs ::= <[a := b]> |>).
Definition upd_buf (a : Z) (f : bt_buf -> bt_buf) : BM unit := b ← buf_at a; put_buf a (f b).
Definition pool_at (i : nat) : BM bt_buf_pool := fun s => match s_pools s !! i with Some p => Some (p, s) | None => None end.
Definition put_pool (i : nat) (p : bt_buf_pool) : BM unit := fun s => Some ((), s <| s_pools ::= <[i := p]> |>).
Definition upd_pool (i : nat) (f : bt_buf_pool -> bt_buf_pool) : BM unit := p ← pool_at i; put_pool i (f p).
Definition nodes : BM heap := fun s => Some (s_nodes s, s).
Definition put_nodes (h : heap) : BM unit := fun s => Some ((), s <| s_nodes := h |>).
(** More steps than a walk over fragments without a circle can take. *)
Definition walk_bound : BM nat := fun s => Some (S (size (s_bufs s)), s).

(** What an allocation returns: a buffer or [NULL]; or it has not returned yet. *)
Inductive alloc_result := Got (buf : ptr) | StillWaiting.

(** * Allocation *)

Section Operations.

Context (noinit : Z -> bt_buf).
(** The callback [destroy] of a pool. *)
Context (destroy : Z -> BM unit).

Definition bt_buf_id (a : Z) : BM Z := b ← buf_at a; p ← pool_at (bb_pool b); mret (a - bp_bufs p).

Definition pool_get_uninit (i : nat) (uninit_count : Z) : BM Z :=
  p ← pool_at i;
  let a := bp_bufs p + (bp_count p - uninit_count) in
  _ ← put_buf a (noinit a <| bb_pool := i |> <| bb_ud_size := bp_ud_size p |>);
  mret a.

Definition bt_buf_reset (a : Z) : BM unit :=
  b ← buf_at a;
  _ ← check (bb_flags b =? 0);
  _ ← check (bool_decide (bb_frags b = None));
  upd_buf a (fun b => b <| bb_b ::= bt_buf_simple_reset |>).

(** The memory and its size. *)
Definition fixed_data_alloc (a : Z) : BM (list Z * Z) :=
  b ← buf_at a;
  p ← pool_at (bb_pool b);
  id ← bt_buf_id a;
  row ← lift (bp_data p !! Z.to_nat id);
  mret (row, bp_max p).
(** Nothing to do: what the buffer holds is in its row. *)
Definition fixed_data_unref (a : Z) : BM unit :=
  b ← buf_at a;
  id ← bt_buf_id a;
  upd_pool (bb_pool b) (fun p => p <| bp_data ::= <[Z.to_nat id := b_store (bb_b b)]> |>).
Definition data_alloc (a : Z) : BM (list Z * Z) := fixed_data_alloc a.

(** [buf->__buf = data_alloc(...)] *)
Definition take_data (a : Z) : BM Z :=
  '(row, size) ← data_alloc a;
  _ ← upd_buf a (fun b => b <| bb_has_data := true |> <| bb_b ::= set_store row |>);
  mret size.
Definition no_data (b : bt_buf) : bt_buf := b <| bb_has_data := false |> <| bb_b ::= set_store [] |>.

(** [bt_queue_get(&pool->free, timeout)]; [wait] is what the wait returns, if it does. *)
Definition free_get (i : nat) (timeout : Z) (wait : option Z) : BM alloc_result :=
  p ← pool_at i;
  h ← nodes;
  r ← lift (bt_queue_get h (Some (bp_free p)) timeout (match wait with Some rc => [([], rc)] | None => [] end));
  match r with
  | Returned ret h (Some q) _ => _ ← put_nodes h; _ ← upd_pool i (fun p => p <| bp_free := q |>); mret (Got ret)
  | Returned ret h None _ => mret (Got ret)
  | Waiting h q => _ ← put_nodes h; _ ← upd_pool i (fun p => p <| bp_free := q |>); mret StillWaiting
  end.

(** [bt_buf_alloc_len] up to the label [success]. *)
Definition alloc_buf (i : nat) (timeout : Z) (wait : option Z) : BM alloc_result :=
  p ← pool_at i;
  if negb (bp_uninit p =? 0) then
    r ← (if bp_uninit p <? bp_count p then free_get i OS_TIMEOUT_NO_WAIT None else mret (Got None));
    match r with
    | Got (Some a) => mret r
    | _ =>
        _ ← upd_pool i (fun p => p <| bp_uninit ::= (fun n => u16 (n - 1)) |>);
        a ← pool_get_uninit i (bp_uninit p);
        mret (Got (Some a))
    end
  else free_get i timeout wait.

Definition bt_buf_alloc_len (i : nat) (size timeout : Z) (wait : option Z) : BM alloc_result :=
  r ← alloc_buf i timeout wait;
  match r with
  | Got (Some a) =>
      size' ← (if negb (size =? 0) then n ← take_data a; _ ← check (size <=? n); mret n
               else _ ← upd_buf a no_data; mret 0);
      _ ← upd_buf a (fun b => b <| bb_ref := 1 |> <| bb_flags := 0 |> <| bb_frags := None |>
                               <| bb_b ::= (fun x => mk_buf (b_store x) (b_data x) (b_len x) (u16 size')) |>
                               <| bb_user := replicate (Z.to_nat (bb_ud_size b)) 0 |>);
      _ ← bt_buf_reset a;
      mret r
  | _ => mret r
  end.

Definition bt_buf_alloc_fixed (i : nat) (timeout : Z) (wait : option Z) : BM alloc_result :=
  p ← pool_at i; bt_buf_alloc_len i (bp_max p) timeout wait.
Definition bt_buf_alloc (i : nat) (timeout : Z) (wait : option Z) : BM alloc_result := bt_buf_alloc_fixed i timeout wait.

Definition bt_buf_alloc_with_data (i : nat) (data : list Z) (size timeout : Z) (wait : option Z) : BM alloc_result :=
  r ← bt_buf_alloc_len i 0 timeout wait;
  match r with
  | Got (Some a) =>
      _ ← upd_buf a (fun b => b <| bb_has_data := true |> <| bb_b := bt_buf_simple_init_with_data data size |>);
      _ ← upd_buf a (fun b => b <| bb_flags := BT_BUF_EXTERNAL_DATA |>);
      mret r
  | _ => mret r
  end.

(** * References *)

Definition bt_buf_destroy (a : Z) : BM unit :=
  b ← buf_at a;
  _ ← (if bb_has_data b then
         _ ← (if Z.land (bb_flags b) BT_BUF_EXTERNAL_DATA =? 0 then fixed_data_unref a else mret ());
         upd_buf a no_data
       else mret ());
  p ← pool_at (bb_pool b);
  h ← nodes;
  '(h, q) ← lift (bt_queue_prepend h (Some (bp_free p)) (Some a));
  _ ← put_nodes h;
  q ← lift q;
  upd_pool (bb_pool b) (fun p => p <| bp_free := q |>).

Fixpoint unref_loop (fuel : nat) (buf : ptr) : BM unit :=
  match fuel with
  | O => fun _ => None
  | S fuel =>
      match buf with
      | None => mret ()
      | Some a =>
          b ← buf_at a;
          let frags := bb_frags b in
          _ ← check (negb (bb_ref b =? 0));
          let r := u8 (bb_ref b - 1) in
          _ ← upd_buf a (fun b => b <| bb_ref := r |>);
          if 0 <? r then mret ()
          else
            _ ← upd_buf a (fun b => b <| bb_b ::= set_data 0 |> <| bb_frags := None |>);
            p ← pool_at (bb_pool b);
            _ ← (if bp_destroy p then destroy a else bt_buf_destroy a);
            unref_loop fuel frags
      end
  end.
Definition bt_buf_unref (a : Z) : BM unit := n ← walk_bound; unref_loop n (Some a).

Definition bt_buf_ref (a : Z) : BM Z :=
  _ ← upd_buf a (fun b => b <| bb_ref ::= (fun r => u8 (r + 1)) |>); mret a.

Definition bt_buf_clone (a timeout : Z) (wait : option Z) : BM alloc_result :=
  b ← buf_at a;
  r ← bt_buf_alloc_len (bb_pool b) 0 timeout wait;
  match r with
  | Got (Some c) =>
      b ← buf_at a;
      size ← take_data c;
      if size <? b_size (bb_b b) then
        _ ← bt_buf_destroy c; mret (Got None)
      else
        bytes ← lift (mem_read (b_store (bb_b b)) (b_data (bb_b b)) (b_len (bb_b b)));
        x ← buf_at c;
        let y := mk_buf (b_store (bb_b x)) (bt_buf_simple_headroom (bb_b b)) (b_len (bb_b x)) (u16 size) in
        y ← lift (bt_buf_simple_add_mem y bytes);
        _ ← check (bb_ud_size b =? bb_ud_size x);
        _ ← put_buf c (x <| bb_b := y |> <| bb_user := bb_user b |>);
        mret r
  | _ => mret r
  end.

Definition bt_buf_user_data_copy (dst src : Z) : BM Z :=
  if dst =? src then mret 0
  else
    d ← buf_at dst;
    b ← buf_at src;
    if bb_ud_size d <? bb_ud_size b then mret (- EINVAL)
    else
      _ ← put_buf dst (d <| bb_user := bb_user b ++ drop (length (bb_user b)) (bb_user d) |>);
      mret 0.

(** ** Lists of buffers *)

Definition bt_buf_slist_put (l : bt_slist) (a : Z) : BM bt_slist :=
  h ← nodes; '(h, l) ← lift (bt_slist_append h l a); _ ← put_nodes h; mret l.
Definition bt_buf_slist_get (l : bt_slist) : BM (ptr * bt_slist) :=
  h ← nodes; '(p, h, l) ← lift (bt_slist_get h l); _ ← put_nodes h; mret (p, l).

(** * Fragments *)

Fixpoint last_loop (fuel : nat) (a : Z) : BM Z :=
  match fuel with
  | O => fun _ => None
  | S fuel => b ← buf_at a; match bb_frags b with None => mret a | Some f => last_loop fuel f end
  end.
Definition bt_buf_frag_last (a : Z) : BM Z := n ← walk_bound; last_loop n a.

Definition bt_buf_frag_insert (parent frag : Z) : BM unit :=
  b ← buf_at parent;
  _ ← (if bool_decide (is_Some (bb_frags b)) then
         last ← bt_buf_frag_last frag;
         upd_buf last (fun x => x <| bb_frags := bb_frags b |>)
       else mret ());
  upd_buf parent (fun x => x <| bb_frags := Some frag |>).

Definition bt_buf_frag_add (head : ptr) (frag : Z) : BM Z :=
  match head with
  | None => bt_buf_ref frag
  | Some h => last ← bt_buf_frag_last h; _ ← bt_buf_frag_insert last frag; mret h
  end.

Definition bt_buf_frag_del (parent : ptr) (frag : Z) : BM ptr :=
  _ ← match parent with
      | Some p =>
          x ← buf_at p;
          _ ← check (bool_decide (is_Some (bb_frags x)));
          _ ← check (bool_decide (bb_frags x = Some frag));
          f ← buf_at frag;
          upd_buf p (fun x => x <| bb_frags := bb_frags f |>)
      | None => mret ()
      end;
  f ← buf_at frag;
  let next_frag := bb_frags f in
  _ ← upd_buf frag (fun x => x <| bb_frags := None |>);
  _ ← bt_buf_unref frag;
  mret next_frag.

(** The fragment in which an offset is, and the offset in it. *)
Fixpoint find_frag (fuel : nat) (frag : ptr) (offset : Z) : BM (ptr * Z) :=
  match fuel with
  | O => fun _ => None
  | S fuel =>
      match frag with
      | None => mret (None, offset)
      | Some a =>
          b ← buf_at a;
          if b_len (bb_b b) <=? offset then find_frag fuel (bb_frags b) (offset - b_len (bb_b b))
          else mret (Some a, offset)
      end
  end.
Definition frag_read (b : bt_buf) (offset n : Z) : BM (list Z) := lift (mem_read (b_store (bb_b b)) (b_data (bb_b b) + offset) n).

(** The bytes that are copied to [dst]; their number is the result. *)
Fixpoint copy_loop (fuel : nat) (frag : ptr) (offset len : Z) : BM (list Z) :=
  match fuel with
  | O => fun _ => None
  | S fuel =>
      match frag with
      | Some a =>
          if 0 <? len then
            b ← buf_at a;
            let to_copy := Z.min len (b_len (bb_b b) - offset) in
            bytes ← frag_read b offset to_copy;
            rest ← copy_loop fuel (bb_frags b) 0 (len - to_copy);
            mret (bytes ++ rest)
          else mret []
      | None => mret []
      end
  end.
Definition bt_buf_linearize (dst_len : Z) (src : ptr) (offset len : Z) : BM (list Z) :=
  n ← walk_bound;
  '(frag, offset) ← find_frag n src offset;
  copy_loop n frag offset (Z.min len dst_len).

(** The loop of [bt_buf_append_bytes]: how much has been added, or [None] while it waits. *)
Fixpoint append_loop (fuel : nat) (allocate : Z -> BM alloc_result) (a frag : Z) (value : list Z) (added : Z) : BM (option Z) :=
  match fuel with
  | O => fun _ => None
  | S fuel =>
      b ← buf_at frag;
      let count := u16 (Z.min (zlen value) (bt_buf_simple_tailroom (bb_b b))) in
      x ← lift (bt_buf_simple_add_mem (bb_b b) (take (Z.to_nat count) value));
      _ ← put_buf frag (b <| bb_b := x |>);
      let value := drop (Z.to_nat count) value in
      let added := added + count in
      match value with
      | [] => mret (Some added)
      | _ =>
          r ← allocate (zlen value);
          match r with
          | Got (Some frag) => _ ← bt_buf_frag_add (Some a) frag; append_loop fuel allocate a frag value added
          | Got None => mret (Some added)
          | StillWaiting => mret None
          end
      end
  end.
(** Without [allocate_cb] from the pool of the buffer. *)
Definition from_pool (i : nat) (timeout : Z) (wait : option Z) (len : Z) : BM alloc_result :=
  p ← pool_at i; bt_buf_alloc_len i (if negb (bp_max p =? 0) then Z.min len (bp_max p) else len) timeout wait.
Definition bt_buf_append_bytes (a : Z) (value : list Z) (timeout : Z) (wait : option Z) (allocate_cb : option (BM alloc_result)) : BM (option Z) :=
  frag ← bt_buf_frag_last a;
  b ← buf_at a;
  append_loop (length value + 2) (match allocate_cb with Some cb => fun _ => cb | None => from_pool (bb_pool b) timeout wait end) a frag value 0.

(** The number of bytes from the start that are those of [data]: up to the first that is
    not; [None] where [data] has ended. *)
Fixpoint common (data bytes : list Z) : option nat :=
  match bytes, data with
  | [], _ => Some 0%nat
  | _, [] => None
  | y :: bytes, x :: data => if x =? y then S <$> common data bytes else Some 0%nat
  end.
Fixpoint match_loop (fuel : nat) (frag : ptr) (offset : Z) (data : list Z) (len : Z) : BM Z :=
  match fuel with
  | O => fun _ => None
  | S fuel =>
      match frag with
      | Some a =>
          if 0 <? len then
            b ← buf_at a;
            let to_compare := Z.min len (b_len (bb_b b) - offset) in
            bytes ← frag_read b offset to_compare;
            n ← lift (common data bytes);
            if Z.of_nat n <? to_compare then mret (Z.of_nat n)
            else rest ← match_loop fuel (bb_frags b) 0 (drop n data) (len - to_compare); mret (Z.of_nat n + rest)
          else mret 0
      | None => mret 0
      end
  end.
Definition bt_buf_data_match (buf : ptr) (offset : Z) (data : option (list Z)) (len : Z) : BM Z :=
  match buf, data with
  | Some a, Some data =>
      n ← walk_bound;
      '(frag, offset) ← find_frag n (Some a) offset;
      match_loop n frag offset data len
  | _, _ => mret 0
  end.

Fixpoint len_loop (fuel : nat) (buf : ptr) : BM Z :=
  match fuel with
  | O => fun _ => None
  | S fuel =>
      match buf with
      | None => mret 0
      | Some a => b ← buf_at a; rest ← len_loop fuel (bb_frags b); mret (b_len (bb_b b) + rest)
      end
  end.
Definition bt_buf_frags_len (buf : ptr) : BM Z := n ← walk_bound; x ← len_loop n buf; mret (u64 x).

(** ** The operations of [bt_buf_simple] on a buffer *)

Definition on_b (f : bt_buf_simple -> option bt_buf_simple) (a : Z) : BM unit :=
  b ← buf_at a; x ← lift (f (bb_b b)); put_buf a (b <| bb_b := x |>).
Definition on_b_ptr (f : bt_buf_simple -> option (bt_buf_simple * Z)) (a : Z) : BM Z :=
  b ← buf_at a; '(x, p) ← lift (f (bb_b b)); _ ← put_buf a (b <| bb_b := x |>); mret p.
Definition on_b_val (f : bt_buf_simple -> option (Z * bt_buf_simple)) (a : Z) : BM Z :=
  b ← buf_at a; '(v, x) ← lift (f (bb_b b)); _ ← put_buf a (b <| bb_b := x |>); mret v.

Definition bt_buf_reserve (reserve : Z) := on_b (fun b => bt_buf_simple_reserve b reserve).
Definition bt_buf_add (len : Z) := on_b_ptr (fun b => bt_buf_simple_add b len).
Definition bt_buf_add_mem (mem : list Z) := on_b (fun b => bt_buf_simple_add_mem b mem).
Definition bt_buf_remove_mem (len : Z) := on_b_ptr (fun b => bt_buf_simple_remove_mem b len).
Definition bt_buf_push (len : Z) := on_b_ptr (fun b => bt_buf_simple_push b len).
Definition bt_buf_push_mem (mem : list Z) := on_b (fun b => bt_buf_simple_push_mem b mem).
Definition bt_buf_pull (len : Z) := on_b_ptr (fun b => bt_buf_simple_pull b len).
Definition bt_buf_pull_mem (len : Z) := on_b_ptr (fun b => bt_buf_simple_pull_mem b len).
Definition bt_buf_add_u8 (val : Z) := on_b (fun b => bt_buf_simple_add_u8 b val).
Definition bt_buf_add_le16 (val : Z) := on_b (fun b => bt_buf_simple_add_le16 b val).
Definition bt_buf_add_be16 (val : Z) := on_b (fun b => bt_buf_simple_add_be16 b val).
Definition bt_buf_add_le24 (val : Z) := on_b (fun b => bt_buf_simple_add_le24 b val).
Definition bt_buf_add_be24 (val : Z) := on_b (fun b => bt_buf_simple_add_be24 b val).
Definition bt_buf_add_le32 (val : Z) := on_b (fun b => bt_buf_simple_add_le32 b val).
Definition bt_buf_add_be32 (val : Z) := on_b (fun b => bt_buf_simple_add_be32 b val).
Definition bt_buf_add_le40 (val : Z) := on_b (fun b => bt_buf_simple_add_le40 b val).
Definition bt_buf_add_be40 (val : Z) := on_b (fun b => bt_buf_simple_add_be40 b val).
Definition bt_buf_add_le48 (val : Z) := on_b (fun b => bt_buf_simple_add_le48 b val).
Definition bt_buf_add_be48 (val : Z) := on_b (fun b => bt_buf_simple_add_be48 b val).
Definition bt_buf_add_le64 (val : Z) := on_b (fun b => bt_buf_simple_add_le64 b val).
Definition bt_buf_add_be64 (val : Z) := on_b (fun b => bt_buf_simple_add_be64 b val).
Definition bt_buf_push_u8 (val : Z) := on_b (fun b => bt_buf_simple_push_u8 b val).
Definition bt_buf_push_le16 (val : Z) := on_b (fun b => bt_buf_simple_push_le16 b val).
Definition bt_buf_push_be16 (val : Z) := on_b (fun b => bt_buf_simple_push_be16 b val).
Definition bt_buf_push_le24 (val : Z) := on_b (fun b => bt_buf_simple_push_le24 b val).
Definition bt_buf_push_be24 (val : Z) := on_b (fun b => bt_buf_simple_push_be24 b val).
Definition bt_buf_push_le32 (val : Z) := on_b (fun b => bt_buf_simple_push_le32 b val).
Definition bt_buf_push_be32 (val : Z) := on_b (fun b => bt_buf_simple_push_be32 b val).
Definition bt_buf_push_le40 (val : Z) := on_b (fun b => bt_buf_simple_push_le40 b val).
Definition bt_buf_push_be40 (val : Z) := on_b (fun b => bt_buf_simple_push_be40 b val).
Definition bt_buf_push_le48 (val : Z) := on_b (fun b => bt_buf_simple_push_le48 b val).
Definition bt_buf_push_be48 (val : Z) := on_b (fun b => bt_buf_simple_push_be48 b val).
Definition bt_buf_push_le64 (val : Z) := on_b (fun b => bt_buf_simple_push_le64 b val).
Definition bt_buf_push_be64 (val : Z) := on_b (fun b => bt_buf_simple_push_be64 b val).
Definition bt_buf_remove_u8 := on_b_val bt_buf_simple_remove_u8.
Definition bt_buf_remove_le16 := on_b_val bt_buf_simple_remove_le16.
Definition bt_buf_remove_be16 := on_b_val bt_buf_simple_remove_be16.
Definition bt_buf_remove_le24 := on_b_val bt_buf_simple_remove_le24.
Definition bt_buf_remove_be24 := on_b_val bt_buf_simple_remove_be24.
Definition bt_buf_remove_le32 := on_b_val bt_buf_simple_remove_le32.
Definition bt_buf_remove_be32 := on_b_val bt_buf_simple_remove_be32.
Definition bt_buf_remove_le40 := on_b_val bt_buf_simple_remove_le40.
Definition bt_buf_remove_be40 := on_b_val bt_buf_simple_remove_be40.
Definition bt_buf_remove_le48 := on_b_val bt_buf_simple_remove_le48.
Definition bt_buf_remove_be48 := on_b_val bt_buf_simple_remove_be48.
Definition bt_buf_remove_le64 := on_b_val bt_buf_simple_remove_le64.
Definition bt_buf_remove_be64 := on_b_val bt_buf_simple_remove_be64.
Definition bt_buf_pull_u8 := on_b_val bt_buf_simple_pull_u8.
Definition bt_buf_pull_le16 := on_b_val bt_buf_simple_pull_le16.
Definition bt_buf_pull_be16 := on_b_val bt_buf_simple_pull_be16.
Definition bt_buf_pull_le24 := on_b_val bt_buf_simple_pull_le24.
Definition bt_buf_pull_be24 := on_b_val bt_buf_simple_pull_be24.
Definition bt_buf_pull_le32 := on_b_val bt_buf_simple_pull_le32.
Definition bt_buf_pull_be32 := on_b_val bt_buf_simple_pull_be32.
Definition bt_buf_pull_le40 := on_b_val bt_buf_simple_pull_le40.
Definition bt_buf_pull_be40 := on_b_val bt_buf_simple_pull_be40.
Definition bt_buf_pull_le48 := on_b_val bt_buf_simple_pull_le48.
Definition bt_buf_pull_be48 := on_b_val bt_buf_simple_pull_be48.
Definition bt_buf_pull_le64 := on_b_val bt_buf_simple_pull_le64.
Definition bt_buf_pull_be64 := on_b_val bt_buf_simple_pull_be64.
Definition bt_buf_tailroom (b : bt_buf) : Z := bt_buf_simple_tailroom (bb_b b).
Definition bt_buf_headroom (b : bt_buf) : Z := bt_buf_simple_headroom (bb_b b).
Definition bt_buf_max_len (b : bt_buf) : Z := bt_buf_simple_max_len (bb_b b).
Definition bt_buf_tail (b : bt_buf) : Z := bt_buf_simple_tail (bb_b b).
Definition bt_buf_user_data (b : bt_buf) : list Z := bb_user b.

(** [while (buf && len--)] *)
Fixpoint skip_loop (len : nat) (buf : ptr) : BM ptr :=
  match buf, len with
  | Some a, S len =>
      _ ← bt_buf_pull_u8 a;
      b ← buf_at a;
      buf ← (if b_len (bb_b b) =? 0 then bt_buf_frag_del None a else mret buf);
      skip_loop len buf
  | _, _ => mret buf
  end.
Definition bt_buf_skip (buf : ptr) (len : Z) : BM ptr := skip_loop (Z.to_nat len) buf.

End Operations.
