(* ===== verification/BtBufRefs.v ===== *)
(** Who holds references to buffers: a buffer lives as long as somebody holds a reference to
    it, and its count says how many.  References are held by the clients of the pools, and by
    buffers to their first fragment. *)

From stdpp Require Import gmap gmultiset.
From S2P Require Import Prelude Byteorder BufSimple Slist Queue BtBuf.

Notation bufs := (gmap Z bt_buf).
Notation handles := (gmultiset Z).

(** * References *)

Definition points_to (a : Z) (kb : Z * bt_buf) : Prop := bb_frags kb.2 = Some a.
#[export] Instance points_to_dec a kb : Decision (points_to a kb).
Proof. unfold points_to. apply _. Defined.
(** The buffers of which [a] is the first fragment. *)
Definition preds (m : bufs) (a : Z) : nat := size (filter (points_to a) m).
Definition refs (m : bufs) (H : handles) (a : Z) : nat := (multiplicity a H + preds m a)%nat.

(** The fragments from a pointer on. *)
Inductive path (m : bufs) : ptr -> list Z -> Prop :=
| path_nil : path m None []
| path_cons a b l : m !! a = Some b -> path m (bb_frags b) l -> path m (Some a) (a :: l).

Definition frag_of (p : ptr) (a : Z) : nat := if decide (p = Some a) then 1%nat else 0%nat.

Lemma preds_insert m k b b' a : m !! k = Some b -> (preds (<[k := b']> m) a + frag_of (bb_frags b) a = preds m a + frag_of (bb_frags b') a)%nat.
Proof.
  intros Hk. assert (preds (<[k := b']> m) a = (preds (delete k m) a + frag_of (bb_frags b') a)%nat) as E1.
  { unfold preds, frag_of. rewrite <-insert_delete_eq. rewrite map_filter_insert. unfold points_to at 1. cbn.
    destruct (decide _) as [Hd|Hd].
    - rewrite map_size_insert_None; [lia|]. apply map_lookup_filter_None_2. left. apply lookup_delete_eq.
    - rewrite delete_id; [lia|]. apply lookup_delete_eq. }
  assert (preds m a = (preds (delete k m) a + frag_of (bb_frags b) a)%nat) as E2.
  { unfold preds, frag_of. rewrite <-(insert_delete_id m k b) at 1 by done. rewrite map_filter_insert. unfold points_to at 1. cbn.
    destruct (decide _) as [Hd|Hd].
    - rewrite map_size_insert_None; [lia|]. apply map_lookup_filter_None_2. left. apply lookup_delete_eq.
    - rewrite delete_id; [lia|]. apply lookup_delete_eq. }
  lia.
Qed.
Lemma preds_new m k b a : m !! k = None -> preds (<[k := b]> m) a = (preds m a + frag_of (bb_frags b) a)%nat.
Proof.
  intros Hk. unfold preds, frag_of. rewrite map_filter_insert. unfold points_to at 1. cbn. destruct (decide _) as [Hd|Hd].
  - rewrite map_size_insert_None; [lia|]. apply map_lookup_filter_None_2. by left.
  - rewrite delete_id; [lia|]. done.
Qed.
Lemma preds_same m k b b' a : m !! k = Some b -> bb_frags b' = bb_frags b -> preds (<[k := b']> m) a = preds m a.
Proof. intros Hk E. pose proof (preds_insert m k b b' a Hk). rewrite E in *. lia. Qed.
Lemma preds_pos m k b a : m !! k = Some b -> bb_frags b = Some a -> (0 < preds m a)%nat.
Proof.
  intros Hk E. unfold preds. apply Nat.neq_0_lt_0. intros Hz%map_size_empty_inv.
  assert (filter (points_to a) m !! k = Some b) as Hf by (by apply map_lookup_filter_Some). by rewrite Hz in Hf.
Qed.
Lemma preds_some m a : (0 < preds m a)%nat -> exists k b, m !! k = Some b /\ bb_frags b = Some a.
Proof.
  intros Hp. unfold preds in Hp. destruct (map_choose (filter (points_to a) m)) as (k & b & [Hk Hb]%map_lookup_filter_Some); [|by exists k, b].
  intros Hz. rewrite Hz, map_size_empty in Hp. lia.
Qed.

Lemma path_fun m p l l' : path m p l -> path m p l' -> l = l'.
Proof.
  intros Hl. revert l'. induction Hl as [|a b l Ha _ IH]; intros l'; inversion 1; subst; [done|]. simplify_eq. f_equal. by apply IH.
Qed.
Lemma path_in m p l a : path m p l -> a ∈ l -> exists pre post, l = pre ++ a :: post /\ path m (Some a) (a :: post).
Proof.
  induction 1 as [|c b l Hc Hp IH]; [by intros ?%elem_of_nil|]. intros [->|Hin]%elem_of_cons.
  - exists [], l. split; [done|]. by econstructor.
  - destruct (IH Hin) as (pre & post & -> & Hpost). by exists (c :: pre), post.
Qed.
Lemma path_nodup m p l : path m p l -> NoDup l.
Proof.
  induction 1 as [|c b l Hc Hp IH]; constructor; [|done]. intros Hin.
  destruct (path_in _ _ _ _ Hp Hin) as (pre & post & -> & Hpost).
  assert (path m (Some c) (c :: pre ++ c :: post)) as Hlong by (by econstructor).
  pose proof (path_fun _ _ _ _ Hpost Hlong) as E. apply (f_equal length) in E. cbn in E. rewrite length_app in E. cbn in E. lia.
Qed.
(** What is on a path is its start, or a first fragment. *)
Lemma path_pred m p l a : path m p l -> a ∈ l -> p = Some a \/ (0 < preds m a)%nat.
Proof.
  induction 1 as [|c b l Hc Hp IH]; [by intros ?%elem_of_nil|]. intros [->|Hin]%elem_of_cons; [by left|]. right.
  destruct (IH Hin) as [E|?]; [by eapply preds_pos|done].
Qed.
Lemma path_dom m p l a : path m p l -> a ∈ l -> is_Some (m !! a).
Proof. intros Hp Hin. destruct (path_in _ _ _ _ Hp Hin) as (pre & post & _ & Hq). inversion Hq; subst. by eexists. Qed.
Lemma path_insert m k b' p l : k ∉ l -> path m p l -> path (<[k := b']> m) p l.
Proof.
  intros Hk Hp. induction Hp as [|c b l Hc Hp IH]; [constructor|]. apply not_elem_of_cons in Hk as [Hd Hk]. econstructor; [|by apply IH].
  by rewrite lookup_insert_ne.
Qed.
Lemma path_same m k b b' p l : m !! k = Some b -> bb_frags b' = bb_frags b -> path m p l -> path (<[k := b']> m) p l.
Proof.
  intros Hk E Hp. induction Hp as [|c x l Hc Hp IH]; [constructor|]. destruct (decide (c = k)) as [->|Hd].
  - simplify_eq. econstructor; [by rewrite lookup_insert_eq|by rewrite E].
  - econstructor; [by rewrite lookup_insert_ne|done].
Qed.
Lemma path_length m p l : path m p l -> (length l <= size m)%nat.
Proof.
  intros Hp. rewrite <-(size_list_to_set (C := gset Z) l) by (by eapply path_nodup). rewrite <-size_dom. apply subseteq_size.
  intros a Ha%elem_of_list_to_set. apply elem_of_dom. by eapply path_dom.
Qed.

(** * The counts *)

(** Of the buffers in [dead] nobody has a reference; the counts of the others are exact. *)
Record counted (m : bufs) (H : handles) (dead : gset Z) : Prop := {
  c_dead : forall a, a ∈ dead -> exists b, m !! a = Some b /\ refs m H a = 0%nat /\ bb_frags b = None;
  c_live : forall a b, m !! a = Some b -> a ∉ dead -> (0 < refs m H a)%nat /\ bb_ref b = Z.of_nat (refs m H a) /\ bb_ref b < 256;
  c_handle : forall a, a ∈ H -> is_Some (m !! a);
  c_path : forall a, is_Some (m !! a) -> exists l, path m (Some a) l
}.

Lemma counted_handle m H dead a : counted m H dead -> a ∈ H -> exists b, m !! a = Some b /\ a ∉ dead.
Proof.
  intros Hc Ha. destruct (c_handle _ _ _ Hc a Ha) as [b Hb]. exists b. split; [done|]. intros Hd.
  destruct (c_dead _ _ _ Hc a Hd) as (_ & _ & Hr & _). unfold refs in Hr. rewrite elem_of_multiplicity in Ha. lia.
Qed.
Lemma counted_frag m H dead a b f : counted m H dead -> m !! a = Some b -> bb_frags b = Some f -> exists b', m !! f = Some b' /\ f ∉ dead.
Proof.
  intros Hc Ha Hf. destruct (c_path _ _ _ Hc a) as [l Hl]; [by eexists|]. inversion Hl as [|? b0 l0 E0 Hl0]; subst. simplify_eq. rewrite Hf in Hl0.
  inversion Hl0 as [|? b1 l1 E1 _]; subst. exists b1. split; [done|]. intros Hd. destruct (c_dead _ _ _ Hc f Hd) as (_ & _ & Hr & _).
  pose proof (preds_pos _ _ _ _ Ha Hf). unfold refs in Hr. lia.
Qed.
(** The fragments of a live buffer live. *)
Lemma counted_path m H dead p l : counted m H dead -> path m p l -> (forall a, p = Some a -> a ∉ dead) -> forall a, a ∈ l -> a ∉ dead.
Proof.
  intros Hc Hp Hd a Ha. destruct (path_pred _ _ _ _ Hp Ha) as [->|Hpr]; [by apply Hd|]. intros Hdd.
  destruct (c_dead _ _ _ Hc a Hdd) as (_ & _ & Hr & _). unfold refs in Hr. lia.
Qed.

(** An update that changes neither count nor fragment. *)
Lemma counted_same m H dead k b b' : counted m H dead -> m !! k = Some b -> bb_frags b' = bb_frags b -> bb_ref b' = bb_ref b ->
  counted (<[k := b']> m) H dead.
Proof.
  intros [] Hk Ef Er. assert (forall a, refs (<[k := b']> m) H a = refs m H a) as E by (intros a; unfold refs; by rewrite (preds_same m k b)). split.
  - intros a Ha. destruct (c_dead0 a Ha) as (x & Hx & Hr & Hf). destruct (decide (a = k)) as [->|Hd].
    + simplify_eq. exists b'. rewrite lookup_insert_eq, E, Ef. done.
    + exists x. by rewrite lookup_insert_ne, E.
  - intros a x Hx Ha. rewrite E. destruct (decide (a = k)) as [->|Hd].
    + rewrite lookup_insert_eq in Hx. injection Hx as <-. rewrite Er. by apply c_live0.
    + rewrite lookup_insert_ne in Hx by done. by apply c_live0.
  - intros a Ha. apply lookup_insert_is_Some'. right. by apply c_handle0.
  - intros a Ha. apply lookup_insert_is_Some' in Ha. destruct (c_path0 a) as [l Hl]; [destruct Ha as [<-|?]; [by eexists|done]|].
    exists l. by eapply path_same.
Qed.

(** Another reference; one reference less, not the last. *)
Lemma counted_ref m H dead k b : counted m H dead -> m !! k = Some b -> k ∉ dead -> bb_ref b < 255 ->
  counted (<[k := b <| bb_ref := u8 (bb_ref b + 1) |>]> m) ({[+ k +]} ⊎ H) dead.
Proof.
  intros [] Hk Hd Hlt. destruct (c_live0 k b Hk Hd) as (Hp & Hr & _). set (b' := b <| bb_ref := _ |>).
  assert (forall a, refs (<[k := b']> m) ({[+ k +]} ⊎ H) a = (refs m H a + if decide (a = k) then 1 else 0)%nat) as E.
  { intros a. unfold refs. rewrite (preds_same m k b) by done. rewrite multiplicity_disj_union, multiplicity_singleton. lia. }
  split.
  - intros a Ha. destruct (c_dead0 a Ha) as (x & Hx & Hrx & Hf). assert (a <> k) as Hn by (intros ->; done).
    exists x. rewrite lookup_insert_ne, E, decide_False by done. split; [done|]. split; [lia|done].
  - intros a x Hx Ha. rewrite E. destruct (decide (a = k)) as [->|Hn].
    + rewrite lookup_insert_eq in Hx. injection Hx as <-. cbn. rewrite u8_id by lia. lia.
    + rewrite lookup_insert_ne in Hx by done. rewrite Nat.add_0_r. by apply c_live0.
  - intros a. rewrite gmultiset_elem_of_disj_union, gmultiset_elem_of_singleton. intros Ha. apply lookup_insert_is_Some'. destruct Ha as [->|Ha]; [by left|right; by apply c_handle0].
  - intros a Ha. apply lookup_insert_is_Some' in Ha. destruct (c_path0 a) as [l Hl]; [destruct Ha as [<-|?]; [by eexists|done]|].
    exists l. by eapply path_same.
Qed.
Lemma counted_unref m H dead k b : counted m ({[+ k +]} ⊎ H) dead -> m !! k = Some b -> bb_ref b <> 1 ->
  counted (<[k := b <| bb_ref := u8 (bb_ref b - 1) |>]> m) H dead.
Proof.
  intros Hc Hk H1. assert (k ∉ dead) as Hd.
  { destruct (counted_handle _ _ _ k Hc) as (b0 & _ & Hd); [|done]. rewrite gmultiset_elem_of_disj_union. left. by apply gmultiset_elem_of_singleton. }
  destruct Hc. destruct (c_live0 k b Hk Hd) as (Hp & Hr & Hlt). set (b' := b <| bb_ref := _ |>).
  assert (forall a, refs m ({[+ k +]} ⊎ H) a = (refs (<[k := b']> m) H a + if decide (a = k) then 1 else 0)%nat) as E.
  { intros a. unfold refs. rewrite (preds_same m k b) by done. rewrite multiplicity_disj_union, multiplicity_singleton. lia. }
  split.
  - intros a Ha. destruct (c_dead0 a Ha) as (x & Hx & Hrx & Hf). assert (a <> k) as Hn by (intros ->; done).
    exists x. rewrite lookup_insert_ne by done. rewrite E, decide_False in Hrx by done. split; [done|]. split; [lia|done].
  - intros a x Hx Ha. specialize (E a). destruct (decide (a = k)) as [->|Hn].
    + rewrite lookup_insert_eq in Hx. injection Hx as <-. cbn. rewrite u8_id by lia. lia.
    + rewrite lookup_insert_ne in Hx by done. destruct (c_live0 a x Hx Ha). lia.
  - intros a Ha. apply lookup_insert_is_Some'. right. apply c_handle0. rewrite gmultiset_elem_of_disj_union. by right.
  - intros a Ha. apply lookup_insert_is_Some' in Ha. destruct (c_path0 a) as [l Hl]; [destruct Ha as [<-|?]; [by eexists|done]|].
    exists l. by eapply path_same.
Qed.

(** A pointer as references. *)
Definition held (p : ptr) : handles := match p with Some a => {[+ a +]} | None => ∅ end.
Lemma held_mult p a : multiplicity a (held p) = frag_of p a.
Proof.
  unfold frag_of. destruct p as [x|]; cbn [held]; [|by rewrite multiplicity_empty, decide_False].
  rewrite multiplicity_singleton. destruct (decide (a = x)) as [->|Hn]; [by rewrite decide_True|by rewrite decide_False by congruence].
Qed.

(** The last reference goes: the buffer's reference to its fragment is one of its holder. *)
Lemma counted_free m H dead k b b' : counted m ({[+ k +]} ⊎ H) dead -> m !! k = Some b -> bb_ref b = 1 -> bb_frags b' = None ->
  counted (<[k := b']> m) (held (bb_frags b) ⊎ H) ({[k]} ∪ dead).
Proof.
  intros Hc Hk H1 Hf'. assert (k ∉ dead) as Hd.
  { destruct (counted_handle _ _ _ k Hc) as (b0 & _ & Hd); [|done]. rewrite gmultiset_elem_of_disj_union. left. by apply gmultiset_elem_of_singleton. }
  pose proof (fun f => counted_frag _ _ _ k b f Hc Hk) as Hfrag. destruct Hc. destruct (c_live0 k b Hk Hd) as (_ & Hr & _). rewrite H1 in Hr.
  assert (refs m H k = 0%nat) as H0.
  { unfold refs in *. rewrite multiplicity_disj_union, multiplicity_singleton, decide_True in Hr by done. lia. }
  assert (forall a, refs (<[k := b']> m) (held (bb_frags b) ⊎ H) a = refs m H a) as E.
  { intros a. unfold refs. rewrite multiplicity_disj_union, held_mult. pose proof (preds_insert m k b b' a Hk) as Hp. rewrite Hf' in Hp.
    unfold frag_of at 2 in Hp. rewrite (decide_False (P := None = Some a)) in Hp by done. lia. }
  assert (forall a, a <> k -> refs m ({[+ k +]} ⊎ H) a = refs m H a) as E'.
  { intros a Hn. unfold refs. rewrite multiplicity_disj_union, multiplicity_singleton, decide_False by done. lia. }
  split.
  - intros a [->%elem_of_singleton|Ha]%elem_of_union; [exists b'; rewrite lookup_insert_eq, E; done|].
    assert (a <> k) as Hn by (intros ->; done). destruct (c_dead0 a Ha) as (x & Hx & Hrx & Hf). exists x. rewrite lookup_insert_ne, E, <-E' by done. done.
  - intros a x Hx Ha. assert (a <> k) as Hn by (intros ->; set_solver). rewrite lookup_insert_ne in Hx by done. rewrite E, <-E' by done. apply c_live0; [done|set_solver].
  - intros a. rewrite gmultiset_elem_of_disj_union. intros Ha. apply lookup_insert_is_Some'. destruct (decide (k = a)) as [|Hn]; [by left|right]. destruct Ha as [Ha|Ha].
    + destruct (bb_frags b) as [f|] eqn:Ef; cbn in Ha; [|by apply gmultiset_elem_of_empty in Ha]. apply gmultiset_elem_of_singleton in Ha as ->.
      destruct (Hfrag f eq_refl) as (x & Hx & _). by eexists.
    + apply c_handle0. rewrite gmultiset_elem_of_disj_union. by right.
  - intros a Ha. destruct (decide (a = k)) as [->|Hn].
    + exists [k]. econstructor; [by rewrite lookup_insert_eq|rewrite Hf'; constructor].
    + apply lookup_insert_is_Some' in Ha as [?|Ha]; [done|]. destruct (c_path0 a Ha) as [l Hl]. exists l. apply path_insert; [|done].
      intros Hin. destruct (path_pred _ _ _ _ Hl Hin) as [[= ->]|Hp]; [done|]. unfold refs in H0. lia.
Qed.

(** A buffer that nobody has a reference to is given to a holder. *)
Lemma counted_alloc m H dead k b' : counted m H dead -> (m !! k = None \/ k ∈ dead) -> bb_frags b' = None -> bb_ref b' = 1 ->
  counted (<[k := b']> m) ({[+ k +]} ⊎ H) (dead ∖ {[k]}).
Proof.
  intros Hc Hk Hf' Hr'. pose proof Hc as [Hcd Hcl Hch Hcp].
  assert (refs m H k = 0%nat) as H0.
  { destruct Hk as [Hk|Hk]; [|by destruct (Hcd k Hk) as (_ & _ & ? & _)]. unfold refs.
    assert (multiplicity k H = 0%nat) as ->.
    { destruct (decide (k ∈ H)) as [Hin|Hin]; [destruct (Hch k Hin); congruence|]. rewrite elem_of_multiplicity in Hin. lia. }
    destruct (preds m k) eqn:Ep; [done|]. destruct (preds_some m k) as (c & x & Hx & Hf); [lia|].
    destruct (counted_frag _ _ _ c x k Hc Hx Hf) as (y & Hy & _). congruence. }
  assert (forall a, preds (<[k := b']> m) a = preds m a) as Ep.
  { intros a. destruct Hk as [Hk|Hk].
    - rewrite preds_new by done. unfold frag_of. rewrite Hf', decide_False by done. lia.
    - destruct (Hcd k Hk) as (x & Hx & _ & Hfx). apply (preds_same m k x); [done|congruence]. }
  assert (forall a, refs (<[k := b']> m) ({[+ k +]} ⊎ H) a = (refs m H a + if decide (a = k) then 1 else 0)%nat) as E.
  { intros a. unfold refs. rewrite Ep, multiplicity_disj_union, multiplicity_singleton. lia. }
  split.
  - intros a [Ha Hn]%elem_of_difference. assert (a <> k) by set_solver. destruct (Hcd a Ha) as (x & Hx & Hrx & Hf). exists x.
    rewrite lookup_insert_ne, E, decide_False by done. split; [done|]. split; [lia|done].
  - intros a x Hx Ha. rewrite E. destruct (decide (a = k)) as [->|Hn].
    + rewrite lookup_insert_eq in Hx. injection Hx as <-. rewrite Hr', H0. lia.
    + rewrite lookup_insert_ne in Hx by done. rewrite Nat.add_0_r. apply Hcl; [done|set_solver].
  - intros a. rewrite gmultiset_elem_of_disj_union, gmultiset_elem_of_singleton. intros Ha. apply lookup_insert_is_Some'. destruct Ha as [->|Ha]; [by left|right; by apply Hch].
  - intros a Ha. destruct (decide (a = k)) as [->|Hn].
    + exists [k]. econstructor; [by rewrite lookup_insert_eq|rewrite Hf'; constructor].
    + apply lookup_insert_is_Some' in Ha as [?|Ha]; [done|]. destruct (Hcp a Ha) as [l Hl]. exists l. apply path_insert; [|done].
      intros Hin. destruct (path_pred _ _ _ _ Hl Hin) as [[= ->]|Hp]; [done|]. unfold refs in H0. lia.
Qed.

(** A fragment is taken off its buffer: the reference goes to the holder. *)
Lemma counted_unlink m H dead k b : counted m H dead -> m !! k = Some b ->
  counted (<[k := b <| bb_frags := None |>]> m) (held (bb_frags b) ⊎ H) dead.
Proof.
  intros Hc Hk. pose proof (fun f => counted_frag _ _ _ k b f Hc Hk) as Hfrag. destruct Hc. set (b' := b <| bb_frags := None |>).
  assert (forall a, refs (<[k := b']> m) (held (bb_frags b) ⊎ H) a = refs m H a) as E.
  { intros a. unfold refs. rewrite multiplicity_disj_union, held_mult. pose proof (preds_insert m k b b' a Hk) as Hp. cbn [bb_frags b'] in Hp.
    unfold frag_of at 2 in Hp. rewrite (decide_False (P := None = Some a)) in Hp by done. lia. }
  split.
  - intros a Ha. destruct (c_dead0 a Ha) as (x & Hx & Hrx & Hf). rewrite E. destruct (decide (a = k)) as [->|Hn].
    + exists b'. by rewrite lookup_insert_eq.
    + exists x. by rewrite lookup_insert_ne.
  - intros a x Hx Ha. rewrite E. destruct (decide (a = k)) as [->|Hn].
    + rewrite lookup_insert_eq in Hx. injection Hx as <-. exact (c_live0 k b Hk Ha).
    + rewrite lookup_insert_ne in Hx by done. by apply c_live0.
  - intros a. rewrite gmultiset_elem_of_disj_union. intros Ha. apply lookup_insert_is_Some'. right. destruct Ha as [Ha|Ha]; [|by apply c_handle0].
    destruct (bb_frags b) as [f|] eqn:Ef; cbn in Ha; [|by apply gmultiset_elem_of_empty in Ha]. apply gmultiset_elem_of_singleton in Ha as ->.
    destruct (Hfrag f eq_refl) as (x & Hx & _). by eexists.
  - assert (forall p l, path m p l -> exists l', path (<[k := b']> m) p l') as Hp.
    { induction 1 as [|c x l Hx Hp [l' IH]]; [exists []; constructor|]. destruct (decide (c = k)) as [->|Hn].
      - exists [k]. econstructor; [by rewrite lookup_insert_eq|constructor].
      - exists (c :: l'). econstructor; [by rewrite lookup_insert_ne|done]. }
    intros a Ha. apply lookup_insert_is_Some' in Ha. destruct (c_path0 a) as [l Hl]; [destruct Ha as [<-|?]; [by eexists|done]|]. by eapply Hp.
Qed.

(** A buffer takes the reference to its fragments over, if it is not one of them. *)
Lemma counted_link m H dead k b f l : counted m (held f ⊎ H) dead -> m !! k = Some b -> k ∉ dead -> bb_frags b = None -> path m f l -> k ∉ l ->
  counted (<[k := b <| bb_frags := f |>]> m) H dead.
Proof.
  intros Hc Hk Hd Hf Hl Hkl. destruct Hc. set (b' := b <| bb_frags := f |>).
  assert (forall a, refs (<[k := b']> m) H a = refs m (held f ⊎ H) a) as E.
  { intros a. unfold refs. rewrite multiplicity_disj_union, held_mult. pose proof (preds_insert m k b b' a Hk) as Hp. rewrite Hf in Hp. cbn [bb_frags b'] in Hp.
    unfold frag_of at 1 in Hp. rewrite (decide_False (P := None = Some a)) in Hp by done. cbn in Hp. lia. }
  split.
  - intros a Ha. destruct (c_dead0 a Ha) as (x & Hx & Hrx & Hfx). assert (a <> k) as Hn by (intros ->; done). exists x. by rewrite E, lookup_insert_ne.
  - intros a x Hx Ha. rewrite E. destruct (decide (a = k)) as [->|Hn].
    + rewrite lookup_insert_eq in Hx. injection Hx as <-. exact (c_live0 k b Hk Ha).
    + rewrite lookup_insert_ne in Hx by done. by apply c_live0.
  - intros a Ha. apply lookup_insert_is_Some'. right. apply c_handle0. rewrite gmultiset_elem_of_disj_union. by right.
  - assert (forall p l, path m p l -> exists l', path (<[k := b']> m) p l') as Hp.
    { induction 1 as [|c x l' Hx Hp [l'' IH]]; [exists []; constructor|]. destruct (decide (c = k)) as [->|Hn].
      - exists (k :: l). econstructor; [by rewrite lookup_insert_eq|]. by apply path_insert.
      - exists (c :: l''). econstructor; [by rewrite lookup_insert_ne|done]. }
    intros a Ha. apply lookup_insert_is_Some' in Ha. destruct (c_path0 a) as [l' Hl']; [destruct Ha as [<-|?]; [by eexists|done]|]. by eapply Hp.
Qed.

(** * Steps *)

Lemma bm_bind {A B} (m : BM A) (f : A -> BM B) s a s1 : m s = Some (a, s1) -> (m ≫= f) s = f a s1.
Proof. unfold mbind, BM_bind. by intros ->. Qed.
(** Goes over a step whose result is known. *)
Ltac go E := rewrite (bm_bind _ _ _ _ _ E).

Lemma buf_at_run a b s : s_bufs s !! a = Some b -> buf_at a s = Some (b, s).
Proof. unfold buf_at. by intros ->. Qed.
Lemma pool_at_run i p s : s_pools s !! i = Some p -> pool_at i s = Some (p, s).
Proof. unfold pool_at. by intros ->. Qed.
Lemma upd_buf_run a f b s : s_bufs s !! a = Some b -> upd_buf a f s = Some ((), s <| s_bufs ::= <[a := f b]> |>).
Proof. intros E. unfold upd_buf. by go (buf_at_run a b s E). Qed.
Lemma upd_pool_run i f p s : s_pools s !! i = Some p -> upd_pool i f s = Some ((), s <| s_pools ::= <[i := f p]> |>).
Proof. intros E. unfold upd_pool. by go (pool_at_run i p s E). Qed.
Lemma lift_run {A} (x : option A) a s : x = Some a -> lift x s = Some (a, s).
Proof. by intros ->. Qed.
Lemma check_run c s : c = true -> check c s = Some ((), s).
Proof. by intros ->. Qed.

Lemma buf_id_run a b p s : s_bufs s !! a = Some b -> s_pools s !! bb_pool b = Some p -> bt_buf_id a s = Some (a - bp_bufs p, s).
Proof. intros Ha Hp. unfold bt_buf_id. go (buf_at_run a b s Ha). by go (pool_at_run _ _ s Hp). Qed.

Lemma state_eq s s' : s_pools s = s_pools s' -> s_bufs s = s_bufs s' -> s_nodes s = s_nodes s' -> s = s'.
Proof. destruct s, s'. cbn. congruence. Qed.

(** * Where buffers are *)

Definition in_range (p : bt_buf_pool) (a : Z) : Prop := bp_bufs p <= a < bp_bufs p + bp_count p.
Definition in_use (p : bt_buf_pool) (a : Z) : Prop := bp_bufs p <= a < bp_bufs p + (bp_count p - bp_uninit p).

Record pool_ok (p : bt_buf_pool) : Prop := {
  po_count : 0 <= bp_uninit p <= bp_count p /\ bp_count p <= UINT16_MAX;
  po_max : 0 <= bp_max p <= UINT16_MAX;
  po_rows : zlen (bp_data p) = bp_count p;
  po_row : Forall (fun row => zlen row = bp_max p /\ Forall is_byte row) (bp_data p)
}.

(** A buffer that has been handed out. *)
Record filled (p : bt_buf_pool) (b : bt_buf) : Prop := {
  fi_wf : wf (bb_b b);
  fi_row : bb_has_data b = true -> Z.land (bb_flags b) BT_BUF_EXTERNAL_DATA = 0 -> zlen (b_store (bb_b b)) = bp_max p
}.

(** The buffers in [dead] are in the lists of their pools; those in [raw] need not be filled. *)
Record placed (s : buf_state) (dead raw : gset Z) : Prop := {
  p_pool : forall i p, s_pools s !! i = Some p -> pool_ok p;
  p_disj : forall i j p q a, s_pools s !! i = Some p -> s_pools s !! j = Some q -> in_range p a -> in_range q a -> i = j;
  p_buf : forall a b, s_bufs s !! a = Some b -> exists p, s_pools s !! bb_pool b = Some p /\ in_use p a /\ bb_ud_size b = bp_ud_size p /\ (a ∉ raw -> filled p b);
  p_init : forall i p a, s_pools s !! i = Some p -> in_use p a -> exists b, s_bufs s !! a = Some b /\ bb_pool b = i;
  p_nodes : forall i p a, s_pools s !! i = Some p -> in_range p a -> is_Some (s_nodes s !! a);
  p_free : forall i p, s_pools s !! i = Some p ->
    exists l, queue_rep (s_nodes s) (bp_free p) l /\ forall a, a ∈ l <-> a ∈ dead /\ exists b, s_bufs s !! a = Some b /\ bb_pool b = i;
  p_dead : forall a, a ∈ dead -> is_Some (s_bufs s !! a)
}.

Lemma in_use_range p a : pool_ok p -> in_use p a -> in_range p a.
Proof. intros [] . unfold in_use, in_range. lia. Qed.

Lemma placed_buf s dead raw k b b' p raw' : placed s dead raw -> s_bufs s !! k = Some b -> s_pools s !! bb_pool b = Some p ->
  bb_pool b' = bb_pool b -> bb_ud_size b' = bb_ud_size b -> (k ∉ raw' -> filled p b') -> (forall a, a <> k -> a ∉ raw' -> a ∉ raw) ->
  placed (s <| s_bufs ::= <[k := b']> |>) dead raw'.
Proof.
  intros [] Hk Hp Ep Eu Hf Hr.
  assert (forall a i, (exists x, s_bufs s !! a = Some x /\ bb_pool x = i) <-> exists x, <[k := b']> (s_bufs s) !! a = Some x /\ bb_pool x = i) as Hiff.
  { intros a i. destruct (decide (a = k)) as [->|Hn]; [|by rewrite lookup_insert_ne]. rewrite lookup_insert_eq, Hk.
    split; intros (x & [= <-] & E); eexists; (split; [done|congruence]). }
  split; cbn.
  - done.
  - done.
  - intros a x Hx. destruct (decide (a = k)) as [->|Hn].
    + rewrite lookup_insert_eq in Hx. injection Hx as <-. destruct (p_buf0 k b Hk) as (q & Hq & Hu & Hud & _). exists q. rewrite Ep, Eu.
      split; [done|]. split; [done|]. split; [done|]. intros Hnr. assert (q = p) as -> by congruence. by apply Hf.
    + rewrite lookup_insert_ne in Hx by done. destruct (p_buf0 a x Hx) as (q & Hq & Hu & Hud & Hfx). exists q. split; [done|]. split; [done|]. split; [done|].
      intros Hnr. by apply Hfx, Hr.
  - intros i q a Hq Hu. apply Hiff. by eapply p_init0.
  - done.
  - intros i q Hq. destruct (p_free0 i q Hq) as (l & Hl & Hin). exists l. split; [done|]. intros a. rewrite Hin. by rewrite Hiff.
  - intros a Ha. apply lookup_insert_is_Some'. right. by apply p_dead0.
Qed.

Lemma queue_frame h h' q l : (forall a, a ∈ l -> h' !! a = h !! a) -> queue_rep h q l -> queue_rep h' q l.
Proof. intros Hh (H1 & H2 & H3). split; [by eapply seg_frame|done]. Qed.

(** A pool's row and queue change. *)
Lemma placed_row s dead raw i p k row : placed s dead raw -> s_pools s !! i = Some p -> zlen row = bp_max p -> Forall is_byte row ->
  placed (s <| s_pools ::= <[i := p <| bp_data ::= <[k := row]> |>]> |>) dead raw.
Proof.
  intros [] Hp Hlen Hrow. assert (i < length (s_pools s))%nat as Hi by (by eapply lookup_lt_Some).
  set (p' := p <| bp_data ::= <[k := row]> |>).
  assert (forall j q, <[i := p']> (s_pools s) !! j = Some q -> exists q0, s_pools s !! j = Some q0 /\ bp_bufs q = bp_bufs q0 /\ bp_count q = bp_count q0 /\
    bp_uninit q = bp_uninit q0 /\ bp_free q = bp_free q0 /\ bp_max q = bp_max q0 /\ bp_ud_size q = bp_ud_size q0 /\ pool_ok q) as Hl.
  { intros j q Hq. destruct (decide (j = i)) as [->|Hn].
    - rewrite list_lookup_insert_eq in Hq by done. injection Hq as <-. exists p. split_and!; try done. destruct (p_pool0 i p Hp). split; cbn; try done.
      + by rewrite length_insert.
      + by apply Forall_insert.
    - rewrite list_lookup_insert_ne in Hq by done. exists q. split_and!; try done. by eapply p_pool0. }
  split; cbn.
  - intros j q Hq. by destruct (Hl j q Hq) as (? & ? & ? & ? & ? & ? & ? & ? & ?).
  - intros j1 j2 q1 q2 a H1 H2. destruct (Hl j1 q1 H1) as (r1 & L1 & B1 & C1 & _), (Hl j2 q2 H2) as (r2 & L2 & B2 & C2 & _).
    unfold in_range. rewrite B1, B2, C1, C2. by apply (p_disj0 j1 j2 r1 r2 a).
  - intros a b Hb. destruct (p_buf0 a b Hb) as (q & Hq & Hu & Hud & Hf). destruct (decide (bb_pool b = i)) as [E|Hn].
    + exists p'. assert (q = p) as -> by congruence. rewrite E, list_lookup_insert_eq by done. split_and!; try done. intros Hr. by destruct (Hf Hr).
    + exists q. by rewrite list_lookup_insert_ne.
  - intros j q a Hq. destruct (Hl j q Hq) as (r & L & B1 & C1 & U1 & _). unfold in_use. rewrite B1, C1, U1. by apply p_init0.
  - intros j q a Hq. destruct (Hl j q Hq) as (r & L & B1 & C1 & _). unfold in_range. rewrite B1, C1. by apply (p_nodes0 j r).
  - intros j q Hq. destruct (Hl j q Hq) as (r & L & _ & _ & _ & F & _). rewrite F. by apply p_free0.
  - done.
Qed.

Lemma placed_queue s dead raw i p h' q' l' dead' : placed s dead raw -> s_pools s !! i = Some p -> dom h' = dom (s_nodes s) -> queue_rep h' q' l' ->
  (forall a, a ∈ l' <-> a ∈ dead' /\ exists b, s_bufs s !! a = Some b /\ bb_pool b = i) ->
  (forall a b, s_bufs s !! a = Some b -> bb_pool b <> i -> (a ∈ dead' <-> a ∈ dead) /\ h' !! a = s_nodes s !! a) ->
  (forall a, a ∈ dead' -> is_Some (s_bufs s !! a)) ->
  placed (s <| s_nodes := h' |> <| s_pools ::= <[i := p <| bp_free := q' |>]> |>) dead' raw.
Proof.
  intros [] Hp Hdom Hq Hl' Hother Hdd. assert (i < length (s_pools s))%nat as Hi by (by eapply lookup_lt_Some).
  set (p' := p <| bp_free := q' |>).
  assert (forall j q, <[i := p']> (s_pools s) !! j = Some q -> exists q0, s_pools s !! j = Some q0 /\ bp_bufs q = bp_bufs q0 /\ bp_count q = bp_count q0 /\
    bp_uninit q = bp_uninit q0 /\ pool_ok q /\ (j <> i -> q = q0) /\ (j = i -> q = p')) as Hl.
  { intros j q Hj. destruct (decide (j = i)) as [->|Hn].
    - rewrite list_lookup_insert_eq in Hj by done. injection Hj as <-. exists p. split_and!; try done. by destruct (p_pool0 i p Hp).
    - rewrite list_lookup_insert_ne in Hj by done. exists q. split_and!; try done. by eapply p_pool0. }
  split; cbn.
  - intros j q Hj. by destruct (Hl j q Hj) as (? & ? & ? & ? & ? & ? & ?).
  - intros j1 j2 q1 q2 a H1 H2. destruct (Hl j1 q1 H1) as (r1 & L1 & B1 & C1 & _), (Hl j2 q2 H2) as (r2 & L2 & B2 & C2 & _).
    unfold in_range. rewrite B1, B2, C1, C2. by apply (p_disj0 j1 j2 r1 r2 a).
  - intros a b Hb. destruct (p_buf0 a b Hb) as (q & Hqq & Hu & Hud & Hf). destruct (decide (bb_pool b = i)) as [E|Hn].
    + exists p'. assert (q = p) as -> by congruence. rewrite E, list_lookup_insert_eq by done. split_and!; try done. intros Hr. by destruct (Hf Hr).
    + exists q. by rewrite list_lookup_insert_ne.
  - intros j q a Hj. destruct (Hl j q Hj) as (r & L & B1 & C1 & U1 & _). unfold in_use. rewrite B1, C1, U1. by apply p_init0.
  - intros j q a Hj Hr. destruct (Hl j q Hj) as (r & L & B1 & C1 & _). apply elem_of_dom. rewrite Hdom. apply elem_of_dom.
    apply (p_nodes0 j r); [done|]. unfold in_range in *. by rewrite <-B1, <-C1.
  - intros j q Hj. destruct (Hl j q Hj) as (r & L & _ & _ & _ & _ & Hne & Heq). destruct (decide (j = i)) as [->|Hn].
    + rewrite Heq by done. by exists l'.
    + rewrite Hne by done. destruct (p_free0 j r L) as (l & Hrep & Hin). exists l.
      assert (forall a, a ∈ l -> exists b, s_bufs s !! a = Some b /\ bb_pool b <> i) as Hb.
      { intros a (_ & b & Hb & Eb)%Hin. exists b. split; [done|congruence]. }
      split; [eapply queue_frame; [|done]; intros a Ha; destruct (Hb a Ha) as (b & Hab & Hnb); by apply (Hother a b)|].
      intros a. rewrite Hin. split; intros (Hd & b & Hab & Eb); (split; [|by exists b]); apply (Hother a b Hab); congruence.
  - done.
Qed.

Lemma destroy_run s dead a b : placed s dead dead -> s_bufs s !! a = Some b -> a ∉ dead ->
  exists s', bt_buf_destroy a s = Some ((), s') /\ placed s' ({[a]} ∪ dead) ({[a]} ∪ dead) /\
    s_bufs s' = <[a := if bb_has_data b then no_data b else b]> (s_bufs s).
Proof.
  intros Hpl Ha Hd. destruct (p_buf _ _ _ Hpl a b Ha) as (p & Hp & Hu & Hud & Hfil). destruct (Hfil Hd) as [Hwf Hrow].
  unfold bt_buf_destroy. go (buf_at_run a b s Ha). set (b' := if bb_has_data b then no_data b else b).
  assert (exists s1, (if bb_has_data b then
      (_ ← (if Z.land (bb_flags b) BT_BUF_EXTERNAL_DATA =? 0 then fixed_data_unref a else mret ()); upd_buf a no_data) else mret ()) s = Some ((), s1) /\
      placed s1 dead ({[a]} ∪ dead) /\ s_bufs s1 = <[a := b']> (s_bufs s)) as (s1 & E1 & Hpl1 & Hb1).
  { subst b'. destruct (bb_has_data b) eqn:Eh.
    - assert (exists s0, (if Z.land (bb_flags b) BT_BUF_EXTERNAL_DATA =? 0 then fixed_data_unref a else mret ()) s = Some ((), s0) /\
        placed s0 dead dead /\ s_bufs s0 = s_bufs s) as (s0 & E0 & Hpl0 & Hb0).
      { destruct (Z.eqb_spec (Z.land (bb_flags b) BT_BUF_EXTERNAL_DATA) 0) as [Ef|]; [|by exists s].
        unfold fixed_data_unref. go (buf_at_run a b s Ha). go (buf_id_run a b p s Ha Hp). rewrite (upd_pool_run _ _ p) by done.
        eexists. split; [reflexivity|]. split; [|done]. apply placed_row; [done|done|by apply Hrow|by destruct Hwf]. }
      go E0. assert (s_bufs s0 !! a = Some b) as Ha0 by (by rewrite Hb0). rewrite (upd_buf_run a no_data b s0 Ha0). eexists. split; [done|].
      destruct (p_buf _ _ _ Hpl0 a b Ha0) as (p0 & Hp0 & _).
      split; [|cbn; by rewrite Hb0]. eapply placed_buf; [done..| |]; set_solver.
    - exists s. split; [done|]. split; [|by rewrite insert_id].
      destruct Hpl. split; try done. intros x y Hxy. destruct (p_buf0 x y Hxy) as (q & ? & ? & ? & Hf). exists q. split_and!; try done. intros Hr. apply Hf. set_solver. }
  go E1. assert (s_bufs s1 !! a = Some b') as Ha1 by (by rewrite Hb1, lookup_insert_eq). assert (bb_pool b' = bb_pool b) as Epool by (subst b'; by destruct (bb_has_data b)).
  destruct (p_buf _ _ _ Hpl1 a b' Ha1) as (p1 & Hp1 & Hu1 & _). rewrite Epool in Hp1. go (pool_at_run _ _ s1 Hp1).
  change (nodes s1) with (Some (s_nodes s1, s1)). erewrite bm_bind by reflexivity.
  destruct (p_free _ _ _ Hpl1 _ _ Hp1) as (l & Hl & Hin). assert (a ∉ l) as Hnl by (intros [? _]%Hin; done).
  assert (is_Some (s_nodes s1 !! a)) as Hnode by (eapply (p_nodes _ _ _ Hpl1); [done|]; apply in_use_range; [by eapply p_pool|done]).
  destruct (prepend_spec (s_nodes s1) (q_list (bp_free p1)) l a Hl Hnl Hnode) as [Epre Hrep].
  erewrite bm_bind by (apply lift_run; unfold bt_queue_prepend; rewrite Epre; reflexivity). cbn [fst snd].
  set (h' := <[a := head (q_list (bp_free p1))]> (s_nodes s1)) in *.
  erewrite bm_bind by reflexivity. erewrite bm_bind by (by apply lift_run). rewrite (upd_pool_run _ _ p1) by done.
  eexists. split; [reflexivity|]. split; [|exact Hb1].
  eapply (placed_queue s1 dead _ _ p1 h'); [done|done| | | | |].
  - subst h'. rewrite dom_insert_L. apply elem_of_dom in Hnode. set_solver.
  - exact Hrep.
  - intros x. rewrite elem_of_cons, Hin. split.
    + intros [->|[Hx Hex]]; [split; [set_solver|by exists b']|split; [set_solver|done]].
    + intros [Hx (y & Hy & Ey)]. apply elem_of_union in Hx as [->%elem_of_singleton|Hx]; [by left|]. right. split; [done|by exists y].
  - intros x y Hxy Hne. assert (x <> a) as Hxa by (intros ->; rewrite Ha1 in Hxy; congruence). split; [set_solver|]. subst h'. by rewrite lookup_insert_ne.
  - intros x [->%elem_of_singleton|Hx]%elem_of_union; [by eexists|]. by eapply p_dead.
Qed.

(** * Operations *)

Section Refs.

Context (destroy : Z -> BM unit).
(** What a callback [destroy] has to do. *)
Context (Hdestroy : forall a s, destroy a s = bt_buf_destroy a s).

(** The clients' references are [H]. *)
Definition owned (s : buf_state) (H : handles) : Prop := exists dead, counted (s_bufs s) H dead /\ placed s dead dead.

(** Buffers that are not given back stay as they are, but for their count. *)
Definition spared (s s' : buf_state) (dead' : gset Z) : Prop :=
  forall k b', s_bufs s' !! k = Some b' -> k ∉ dead' -> exists b, s_bufs s !! k = Some b /\ bb_b b' = bb_b b /\ bb_frags b' = bb_frags b.
Lemma spared_refl s dead : spared s s dead.
Proof. intros k b Hk _. by exists b. Qed.
Lemma spared_trans s1 s2 s3 d2 d3 : spared s1 s2 d2 -> spared s2 s3 d3 -> d2 ⊆ d3 -> spared s1 s3 d3.
Proof.
  intros H1 H2 Hd k b3 Hk Hn. destruct (H2 k b3 Hk Hn) as (b2 & Hb2 & E1 & E2). destruct (H1 k b2 Hb2) as (b1 & Hb1 & E3 & E4); [set_solver|].
  exists b1. split_and!; [done|congruence|congruence].
Qed.

(** Only the buffers in [l] change. *)
Definition confined (m m' : bufs) (dead dead' : gset Z) (l : list Z) : Prop := forall k, k ∉ l -> m' !! k = m !! k /\ (k ∈ dead' -> k ∈ dead).

Lemma unref_loop_run l : forall fuel p s H dead, path (s_bufs s) p l -> (length l < fuel)%nat -> counted (s_bufs s) (held p ⊎ H) dead -> placed s dead dead ->
  exists s' dead', unref_loop destroy fuel p s = Some ((), s') /\ counted (s_bufs s') H dead' /\ placed s' dead' dead' /\ dead ⊆ dead' /\ spared s s' dead' /\ confined (s_bufs s) (s_bufs s') dead dead' l.
Proof.
  induction l as [|a l IH]; intros fuel p s H dead Hp Hlen Hc Hpl; (destruct fuel as [|fuel]; [lia|]); inversion Hp as [|? b ? Ha Hp']; subst.
  { exists s, dead. split; [done|]. cbn [held] in Hc. rewrite (left_id_L ∅ (⊎)) in Hc. split_and!; try done. apply spared_refl. }
  cbn [held] in Hc. destruct (counted_handle _ _ _ a Hc) as (b0 & Hb0 & Hd).
  { apply gmultiset_elem_of_disj_union. left. by apply gmultiset_elem_of_singleton. }
  assert (b0 = b) as -> by congruence. destruct (c_live _ _ _ Hc a b Ha Hd) as (Hpos & Href & Hlt).
  destruct (p_buf _ _ _ Hpl a b Ha) as (q & Hq & Hu & Hud & Hfil). specialize (Hfil Hd).
  cbn [unref_loop]. go (buf_at_run a b s Ha). assert (negb (bb_ref b =? 0) = true) as E0 by (apply negb_true_iff, Z.eqb_neq; lia).
  go (check_run _ s E0). go (upd_buf_run a (fun b0 => b0 <| bb_ref := u8 (bb_ref b - 1) |>) b s Ha). rewrite u8_id by lia.
  destruct (Z.ltb_spec 0 (bb_ref b - 1)) as [Hr|Hr].
  - eexists _, dead. split; [done|]. split_and!; [|eapply placed_buf; [exact Hpl|exact Ha|exact Hq|done|done|intros _; destruct Hfil; by split|done]|done| |].
    + pose proof (counted_unref _ H dead a b Hc Ha ltac:(lia)) as Hc'. rewrite u8_id in Hc' by lia. exact Hc'.
    + intros k b' Hk _. cbn in Hk. destruct (decide (k = a)) as [->|Hn].
      * rewrite lookup_insert_eq in Hk. injection Hk as <-. by exists b.
      * rewrite lookup_insert_ne in Hk by done. by exists b'.
    + intros k Hk. split; [|done]. apply lookup_insert_ne. intros <-. apply Hk. by left.
  - set (s1 := s <| s_bufs ::= _ |>). set (b1 := b <| bb_ref := bb_ref b - 1 |>). assert (s_bufs s1 !! a = Some b1) as Ha1 by apply lookup_insert_eq.
    go (upd_buf_run a (fun b0 => b0 <| bb_b ::= set_data 0 |> <| bb_frags := None |>) b1 s1 Ha1).
    set (b2 := b1 <| bb_b ::= set_data 0 |> <| bb_frags := None |>). set (s2 := s1 <| s_bufs ::= _ |>).
    assert (s_bufs s2 = <[a := b2]> (s_bufs s)) as Eb2 by apply insert_insert_eq.
    assert (placed s2 dead dead) as Hpl2.
    { assert (s2 = s <| s_bufs ::= <[a := b2]> |>) as -> by (apply state_eq; [done|exact Eb2|done]).
      eapply placed_buf; [done|done|exact Hq|done|done| |done]. intros _. destruct Hfil as [[] ?]. split; [split; cbn; try done; lia|done]. }
    assert (s_bufs s2 !! a = Some b2) as Ha2 by (rewrite Eb2; apply lookup_insert_eq).
    assert (exists p2, s_pools s2 !! bb_pool b = Some p2) as [p2 Hp2] by (by exists q). go (pool_at_run _ _ s2 Hp2).
    destruct (destroy_run s2 dead a b2 Hpl2 Ha2 Hd) as (s3 & E3 & Hpl3 & Eb3).
    assert ((if bp_destroy p2 then destroy a else bt_buf_destroy a) s2 = Some ((), s3)) as Ed by (destruct (bp_destroy p2); by rewrite ?Hdestroy). go Ed.
    set (b3 := if bb_has_data b2 then no_data b2 else b2) in *. rewrite Eb2, insert_insert_eq in Eb3.
    assert (bb_frags b3 = None) as Ef3 by (subst b3; by destruct (bb_has_data b2)).
    pose proof (counted_free _ H dead a b b3 Hc Ha ltac:(lia) Ef3) as Hc3. rewrite <-Eb3 in Hc3.
    pose proof (path_nodup _ _ _ Hp) as [Hal _]%NoDup_cons.
    destruct (IH fuel (bb_frags b) s3 H ({[a]} ∪ dead)) as (s4 & dead4 & E4 & Hc4 & Hpl4 & Hsub & Hsp & Hco); [rewrite Eb3; by apply path_insert|cbn in Hlen; lia|done|done|].
    exists s4, dead4. split; [exact E4|]. split_and!; [done|done|set_solver| |].
    2: { intros k Hk. assert (k <> a /\ k ∉ l) as [Hka Hkl] by (by apply not_elem_of_cons). destruct (Hco k Hkl) as [E Hdk]. rewrite E, Eb3, lookup_insert_ne by done.
      split; [done|]. intros Hk4. specialize (Hdk Hk4). set_solver. }
    eapply spared_trans; [|exact Hsp|done]. intros k b' Hk Hkd. rewrite Eb3 in Hk. rewrite lookup_insert_ne in Hk by set_solver. by exists b'.
Qed.

Lemma unref_run a s H dead l : counted (s_bufs s) ({[+ a +]} ⊎ H) dead -> placed s dead dead -> path (s_bufs s) (Some a) l ->
  exists s' dead', bt_buf_unref destroy a s = Some ((), s') /\ counted (s_bufs s') H dead' /\ placed s' dead' dead' /\ dead ⊆ dead' /\ spared s s' dead' /\ confined (s_bufs s) (s_bufs s') dead dead' l.
Proof.
  intros Hc Hpl Hl. unfold bt_buf_unref. erewrite bm_bind by reflexivity.
  apply (unref_loop_run l); [done| |done|done]. pose proof (path_length _ _ _ Hl). lia.
Qed.

End Refs.

(** ** Allocation *)

Section Allocation.

Context (noinit : Z -> bt_buf).


Lemma wait_empty h q : head (q_list q) = None -> forall wait, exists fail : bool,
  wait_loop (match wait with Some rc => [([], rc)] | None => [] end) h q = Some (h, q, if fail then Some [] else None).
Proof.
  intros Hh wait. assert (bt_slist_is_empty (q_list q) = true) as He by (unfold bt_slist_is_empty; rewrite Hh; by apply bool_decide_eq_true).
  destruct wait as [rc|].
  - cbn [wait_loop]. rewrite He. cbn [negb run_slist]. cbn [mbind option_bind]. assert (with_list (q_list q) q = q) as Eq by (by destruct q). rewrite Eq.
    destruct (_ && _); [by exists true|]. exists false. cbn [wait_loop]. by rewrite He.
  - exists false. cbn [wait_loop]. by rewrite He.
Qed.

(** Nobody can be given a buffer of the pool. *)
Definition none_free (s : buf_state) (i : nat) (dead : gset Z) : Prop := forall a b, s_bufs s !! a = Some b -> bb_pool b = i -> a ∉ dead.

Lemma free_get_run i timeout wait s dead p : placed s dead dead -> s_pools s !! i = Some p ->
  exists r s' q', free_get i timeout wait s = Some (r, s') /\ s_bufs s' = s_bufs s /\ s_pools s' = <[i := p <| bp_free := q' |>]> (s_pools s) /\
    match r with
    | Got (Some a) => a ∈ dead /\ (exists b, s_bufs s !! a = Some b /\ bb_pool b = i) /\ placed s' (dead ∖ {[a]}) dead
    | _ => none_free s i dead /\ placed s' dead dead /\ (timeout = OS_TIMEOUT_NO_WAIT -> r = Got None)
    end.
Proof.
  intros Hpl Hp. destruct (p_free _ _ _ Hpl i p Hp) as (l & Hl & Hin).
  destruct (get_spec _ _ _ Hl) as (h' & l' & Eg & Hrep & Hout & Hdom & _).
  unfold free_get. go (pool_at_run i p s Hp). erewrite bm_bind by reflexivity.
  unfold bt_queue_get, pop_head_unlocked. rewrite Eg. cbn [mbind option_bind fst snd].
  assert (forall dead', (forall a, a ∈ List.tl l <-> a ∈ dead' /\ exists b, s_bufs s !! a = Some b /\ bb_pool b = i) ->
    (forall a, a ∈ dead' -> a ∈ dead) -> (forall a b, s_bufs s !! a = Some b -> bb_pool b <> i -> a ∈ dead -> a ∈ dead') ->
    placed (s <| s_nodes := h' |> <| s_pools ::= <[i := p <| bp_free := with_list l' (bp_free p) |>]> |>) dead' dead) as Hnew.
  { intros dead' H1 H2 H3. eapply (placed_queue s dead dead i p h'); [done|done|done|exact Hrep|exact H1| |].
    - intros a b Hab Hne. split; [split; [by apply H2|by eapply H3]|]. apply Hout. intros (_ & b' & Hab' & Eb)%Hin. congruence.
    - intros a Ha. by eapply p_dead, H2. }
  destruct l as [|a l]; cbn [List.hd_error List.tl] in *.
  - assert (placed (s <| s_nodes := h' |> <| s_pools ::= <[i := p <| bp_free := with_list l' (bp_free p) |>]> |>) dead dead) as Hpl1 by (by apply Hnew).
    assert (none_free s i dead) as Hnone. { intros a b Hab Eb Hd. assert (a ∈ []) as Hnil by (apply Hin; split; [done|by exists b]). by apply elem_of_nil in Hnil. }
    destruct (Z.eqb_spec timeout OS_TIMEOUT_NO_WAIT) as [Ht|Ht].
    + erewrite bm_bind by (by apply lift_run). cbn iota. erewrite bm_bind by reflexivity. erewrite bm_bind by (by apply upd_pool_run).
      eexists _, _, _. split; [reflexivity|]. split; [done|]. split; [reflexivity|]. by split.
    + destruct (wait_empty h' (with_list l' (bp_free p))) with (wait := wait) as [fail Ew]; [cbn; by rewrite (slist_rep_head _ _ _ Hrep)|].
      rewrite Ew. cbn [mbind option_bind fst snd]. destruct fail.
      * assert (Eg2 : bt_slist_get h' l' = Some (None, h', l')) by (unfold bt_slist_get; by rewrite (slist_rep_head _ _ _ Hrep)).
        cbn [q_list with_list]. rewrite Eg2. cbn [mbind option_bind fst snd]. erewrite bm_bind by (by apply lift_run). cbn iota. erewrite bm_bind by reflexivity. erewrite bm_bind by (by apply upd_pool_run).
        eexists _, _, _. split; [reflexivity|]. split; [done|]. split; [reflexivity|]. by split.
      * erewrite bm_bind by (by apply lift_run). cbn iota. erewrite bm_bind by reflexivity. erewrite bm_bind by (by apply upd_pool_run).
        eexists _, _, _. split; [reflexivity|]. split; [done|]. split; [reflexivity|]. by split.
  - erewrite bm_bind by (by apply lift_run). cbn iota. erewrite bm_bind by reflexivity. erewrite bm_bind by (by apply upd_pool_run).
    assert (a ∈ dead /\ exists b, s_bufs s !! a = Some b /\ bb_pool b = i) as [Ha Hb] by (apply Hin; left).
    eexists _, _, _. split; [reflexivity|]. split; [done|]. split; [reflexivity|]. split; [done|]. split; [done|]. apply Hnew.
    + destruct Hl as (_ & _ & [Hal _]%NoDup_cons). intros x. split.
      * intros Hx. assert (x ∈ a :: l) as Hx' by (by right). apply Hin in Hx' as [Hd Hex]. split; [|done]. apply elem_of_difference. split; [done|]. intros ->%elem_of_singleton. done.
      * intros [[Hd Hne]%elem_of_difference Hex]. assert (x ∈ a :: l) as [->|?]%elem_of_cons by (by apply Hin); [set_solver|done].
    + set_solver.
    + intros x b Hxb Hne Hx. apply elem_of_difference. split; [done|]. intros ->%elem_of_singleton. destruct Hb as (y & Hy & Ey). congruence.
Qed.

Lemma placed_new s dead raw i p b : placed s dead raw -> s_pools s !! i = Some p -> 0 < bp_uninit p -> bb_pool b = i -> bb_ud_size b = bp_ud_size p ->
  let a := bp_bufs p + (bp_count p - bp_uninit p) in
  s_bufs s !! a = None /\
  placed (s <| s_pools ::= <[i := p <| bp_uninit := bp_uninit p - 1 |>]> |> <| s_bufs ::= <[a := b]> |>) dead ({[a]} ∪ raw).
Proof.
  intros Hpl Hp Hu Eb Eud a. pose proof Hpl as []. assert (i < length (s_pools s))%nat as Hi by (by eapply lookup_lt_Some).
  pose proof (p_pool0 i p Hp) as Hok. destruct Hok as [Hcnt Hmax Hrows Hrow].
  assert (s_bufs s !! a = None) as Ha.
  { destruct (s_bufs s !! a) as [x|] eqn:Hx; [|done]. destruct (p_buf0 a x Hx) as (q & Hq & Huse & _).
    assert (bb_pool x = i) as E by (eapply (p_disj0 _ _ q p a); [done|done|by apply in_use_range; [by eapply p_pool0|]|unfold in_range; lia]).
    rewrite E in Hq. assert (q = p) as -> by congruence. unfold in_use in Huse. lia. }
  split; [done|]. set (p' := p <| bp_uninit := bp_uninit p - 1 |>).
  assert (forall j q, <[i := p']> (s_pools s) !! j = Some q -> exists q0, s_pools s !! j = Some q0 /\ bp_bufs q = bp_bufs q0 /\ bp_count q = bp_count q0 /\
    bp_free q = bp_free q0 /\ bp_ud_size q = bp_ud_size q0 /\ pool_ok q /\ (j <> i -> q = q0) /\ (j = i -> q = p')) as Hl.
  { intros j q Hj. destruct (decide (j = i)) as [->|Hn].
    - rewrite list_lookup_insert_eq in Hj by done. injection Hj as <-. exists p. split_and!; try done. split; cbn; try done. lia.
    - rewrite list_lookup_insert_ne in Hj by done. exists q. split_and!; try done. by eapply p_pool0. }
  split; cbn.
  - intros j q Hj. by destruct (Hl j q Hj) as (? & ? & ? & ? & ? & ? & ? & ?).
  - intros j1 j2 q1 q2 c H1 H2. destruct (Hl j1 q1 H1) as (r1 & L1 & B1 & C1 & _), (Hl j2 q2 H2) as (r2 & L2 & B2 & C2 & _).
    unfold in_range. rewrite B1, B2, C1, C2. by apply (p_disj0 j1 j2 r1 r2 c).
  - intros c x Hx. destruct (decide (c = a)) as [->|Hn].
    + rewrite lookup_insert_eq in Hx. injection Hx as <-. exists p'. rewrite Eb, list_lookup_insert_eq by done. split_and!; [done|unfold in_use; cbn; lia|done|set_solver].
    + rewrite lookup_insert_ne in Hx by done. destruct (p_buf0 c x Hx) as (q & Hq & Huse & Hud & Hf). destruct (decide (bb_pool x = i)) as [E|Hne].
      * exists p'. rewrite E in Hq |- *. assert (q = p) as -> by congruence. rewrite list_lookup_insert_eq by done. split_and!; [done|unfold in_use in *; cbn; lia|done|].
        intros Hr. destruct Hf; [set_solver|]. by split.
      * exists q. rewrite list_lookup_insert_ne by done. split_and!; try done. intros Hr. apply Hf. set_solver.
  - intros j q c Hj Huse. destruct (Hl j q Hj) as (r & L & B1 & C1 & _ & _ & _ & Hne & Heq). destruct (decide (c = a)) as [->|Hn].
    + exists b. rewrite lookup_insert_eq. split; [done|]. rewrite Eb. destruct (decide (j = i)) as [|Hd]; [done|]. rewrite Hne in Huse by done.
      eapply (p_disj0 _ _ p r a); [done|done|unfold in_range; lia|by apply in_use_range; [by eapply p_pool0|]].
    + rewrite lookup_insert_ne by done. apply (p_init0 j r c); [done|]. destruct (decide (j = i)) as [->|Hd]; [|by rewrite <-Hne].
      rewrite Heq in Huse by done. assert (r = p) as -> by congruence. unfold in_use in *. cbn in Huse. subst a. lia.
  - intros j q c Hj Hr. destruct (Hl j q Hj) as (r & L & B1 & C1 & _). apply (p_nodes0 j r); [done|]. unfold in_range in *. by rewrite <-B1, <-C1.
  - intros j q Hj. destruct (Hl j q Hj) as (r & L & _ & _ & Ef & _). rewrite Ef. destruct (p_free0 j r L) as (l & Hrep & Hin). exists l. split; [done|].
    intros c. rewrite Hin. destruct (decide (c = a)) as [->|Hn]; [|by rewrite lookup_insert_ne]. split; intros [Hd _]; destruct (p_dead0 a Hd); congruence.
  - intros c Hc. apply lookup_insert_is_Some'. right. by apply p_dead0.
Qed.

(** The pools have their fixed fields. *)
Definition alike (s s' : buf_state) : Prop := forall i p, s_pools s !! i = Some p -> exists p', s_pools s' !! i = Some p' /\ bp_max p' = bp_max p.
Lemma alike_trans s1 s2 s3 : alike s1 s2 -> alike s2 s3 -> alike s1 s3.
Proof. intros H1 H2 i p Hp. destruct (H1 i p Hp) as (p' & Hp' & E). destruct (H2 i p' Hp') as (p'' & Hp'' & E'). exists p''. split; [done|congruence]. Qed.
Lemma alike_insert s s' i p p' : s_pools s !! i = Some p -> s_pools s' = <[i := p']> (s_pools s) -> bp_max p' = bp_max p -> alike s s'.
Proof.
  intros Hp E Em j q Hq. rewrite E. destruct (decide (j = i)) as [->|Hn].
  - exists p'. rewrite list_lookup_insert_eq by (by eapply lookup_lt_Some). split; [done|congruence].
  - exists q. by rewrite list_lookup_insert_ne.
Qed.

(** What an allocation gives. *)
Definition given (s s' : buf_state) (i : nat) (dead : gset Z) (a : Z) : Prop :=
  alike s s' /\ exists b, (s_bufs s !! a = None \/ a ∈ dead) /\ s_bufs s' = <[a := b]> (s_bufs s) /\ bb_pool b = i /\ placed s' (dead ∖ {[a]}) ({[a]} ∪ dead).

Lemma fresh_run i s dead p : placed s dead dead -> s_pools s !! i = Some p -> bp_uninit p <> 0 ->
  exists a s', (_ ← upd_pool i (fun p => p <| bp_uninit ::= (fun n => u16 (n - 1)) |>); a ← pool_get_uninit noinit i (bp_uninit p); mret (Got (Some a))) s =
    Some (Got (Some a), s') /\ given s s' i dead a.
Proof.
  intros Hpl Hp Hu. pose proof (p_pool _ _ _ Hpl i p Hp) as [Hcnt _ _ _]. unfold UINT16_MAX in *.
  set (a := bp_bufs p + (bp_count p - bp_uninit p)). set (b := noinit a <| bb_pool := i |> <| bb_ud_size := bp_ud_size p |>).
  destruct (placed_new s dead dead i p b Hpl Hp) as [Hnone Hpn]; [lia|done|done|]. change (s_bufs s !! a = None) in Hnone.
  set (p' := p <| bp_uninit := bp_uninit p - 1 |>) in *.
  assert (p <| bp_uninit ::= (fun n => u16 (n - 1)) |> = p') as Ep by (transitivity (p <| bp_uninit := u16 (bp_uninit p - 1) |>); [by destruct p|by rewrite u16_id by lia]).
  go (upd_pool_run i (fun p => p <| bp_uninit ::= (fun n => u16 (n - 1)) |>) p s Hp). rewrite Ep. set (s2 := s <| s_pools ::= _ |>).
  assert (s_pools s2 !! i = Some p') as Hp2 by (apply list_lookup_insert_eq; by eapply lookup_lt_Some).
  unfold pool_get_uninit. erewrite bm_bind by (go (pool_at_run i _ s2 Hp2); erewrite bm_bind by reflexivity; reflexivity).
  exists a. eexists. split; [reflexivity|]. split; [by eapply (alike_insert s _ i p p')|]. exists b. split; [by left|]. split; [done|]. split; [done|].
  assert (dead ∖ {[a]} = dead) as ->; [|exact Hpn]. apply set_eq. intros x. split; [set_solver|]. intros Hx. apply elem_of_difference. split; [done|].
  intros ->%elem_of_singleton. destruct (p_dead _ _ _ Hpl a Hx). congruence.
Qed.

Lemma given_queue s s' i dead a : alike s s' -> a ∈ dead -> (exists b, s_bufs s !! a = Some b /\ bb_pool b = i) -> s_bufs s' = s_bufs s -> placed s' (dead ∖ {[a]}) dead ->
  given s s' i dead a.
Proof.
  intros Hal Ha (b & Hb & Epool) Eb []. split; [done|]. exists b. split; [by right|]. split; [by rewrite Eb, insert_id|]. split; [done|].
  split; try done. intros c x Hx. destruct (p_buf0 c x Hx) as (q & ? & ? & ? & Hf). exists q. split_and!; try done. intros Hr. apply Hf. set_solver.
Qed.

Lemma alloc_buf_run i timeout wait s dead p : placed s dead dead -> s_pools s !! i = Some p ->
  exists r s', alloc_buf noinit i timeout wait s = Some (r, s') /\
    match r with
    | Got (Some a) => given s s' i dead a
    | _ => s_bufs s' = s_bufs s /\ placed s' dead dead /\ bp_uninit p = 0 /\ none_free s i dead /\ alike s s'
    end.
Proof.
  intros Hpl Hp. assert (i < length (s_pools s))%nat as Hi by (by eapply lookup_lt_Some).
  unfold alloc_buf. go (pool_at_run i p s Hp). destruct (Z.eqb_spec (bp_uninit p) 0) as [Hu|Hu]; cbn [negb].
  - destruct (free_get_run i timeout wait s dead p Hpl Hp) as (r & s' & q' & E & Eb & Eps & Hr). exists r, s'. split; [done|].
    assert (alike s s') as Hal by (by eapply alike_insert). destruct r as [[a|]|]; destruct Hr as (? & ? & ?); [by apply given_queue|done..].
  - assert (exists r s1 q', (if bp_uninit p <? bp_count p then free_get i OS_TIMEOUT_NO_WAIT None else mret (Got None)) s = Some (r, s1) /\ s_bufs s1 = s_bufs s /\
      s_pools s1 = <[i := p <| bp_free := q' |>]> (s_pools s) /\ match r with Got (Some a) => given s s1 i dead a | _ => placed s1 dead dead end) as (r & s1 & q' & E & Eb & Eps & Hr).
    { destruct (_ <? _).
      - destruct (free_get_run i OS_TIMEOUT_NO_WAIT None s dead p Hpl Hp) as (r & s1 & q' & E & Eb & Eps & Hr). exists r, s1, q'. split_and!; [done|done|done|].
        assert (alike s s1) as Hal by (by eapply alike_insert). destruct r as [[a|]|]; destruct Hr as (? & ? & ?); [by apply given_queue|done..].
      - exists (Got None), s, (bp_free p). split_and!; [done|done| |done]. rewrite list_insert_id; [done|]. rewrite Hp. by destruct p. }
    go E. assert (forall s' a, given s1 s' i dead a -> given s s' i dead a) as Hsame.
    { intros s' a [Hal (b & Hb)]. split; [eapply alike_trans; [|exact Hal]; by eapply alike_insert|]. exists b. by rewrite <-Eb. }
    assert (placed s1 dead dead -> exists a s', (_ ← upd_pool i (fun p => p <| bp_uninit ::= (fun n => u16 (n - 1)) |>);
      a ← pool_get_uninit noinit i (bp_uninit p); mret (Got (Some a))) s1 = Some (Got (Some a), s') /\ given s s' i dead a) as Hfresh.
    { intros Hp1. destruct (fresh_run i s1 dead (p <| bp_free := q' |>) Hp1) as (a & s' & Ef & Hg); [by rewrite Eps, list_lookup_insert_eq|done|].
      exists a, s'. split; [exact Ef|]. by apply Hsame. }
    destruct r as [[a|]|]; [by eexists _, _|..]; destruct (Hfresh Hr) as (a & s' & Ef & Hg); by exists (Got (Some a)), s'.
Qed.

Lemma take_data_run a s b p dead raw : placed s dead raw -> s_bufs s !! a = Some b -> s_pools s !! bb_pool b = Some p ->
  exists row, zlen row = bp_max p /\ Forall is_byte row /\
    take_data a s = Some (bp_max p, s <| s_bufs ::= <[a := b <| bb_has_data := true |> <| bb_b ::= set_store row |>]> |>).
Proof.
  intros Hpl Ha Hp. destruct (p_pool _ _ _ Hpl _ p Hp) as [Hcnt Hmax Hrows Hrow].
  destruct (p_buf _ _ _ Hpl a b Ha) as (p0 & Hp0 & Hu & _). assert (p0 = p) as -> by congruence. unfold in_use in Hu.
  destruct (bp_data p !! Z.to_nat (a - bp_bufs p)) as [row|] eqn:Er; [|apply lookup_ge_None in Er; lia].
  pose proof (proj1 (Forall_lookup _ _) Hrow _ _ Er) as [Hlen Hby]. exists row. split; [done|]. split; [done|].
  unfold take_data, data_alloc. erewrite bm_bind.
  2: { unfold fixed_data_alloc. go (buf_at_run a b s Ha). go (pool_at_run _ _ s Hp). go (buf_id_run a b p s Ha Hp). go (lift_run _ _ s Er). reflexivity. }
  cbn iota. erewrite bm_bind by (by apply upd_buf_run). reflexivity.
Qed.

(** A new buffer. *)
Record fresh_buf (b : bt_buf) (i : nat) (size : Z) : Prop := {
  fb_frags : bb_frags b = None;
  fb_ref : bb_ref b = 1;
  fb_flags : bb_flags b = 0;
  fb_pool : bb_pool b = i;
  fb_window : b_data (bb_b b) = 0 /\ b_len (bb_b b) = 0 /\ b_size (bb_b b) = size
}.

Lemma fill_run size a s i b p dead : placed s (dead ∖ {[a]}) ({[a]} ∪ dead) -> s_bufs s !! a = Some b -> bb_pool b = i -> s_pools s !! i = Some p -> 0 <= size <= bp_max p ->
  exists b', fresh_buf b' i (if size =? 0 then 0 else bp_max p) /\
    (size' ← (if negb (size =? 0) then n ← take_data a; _ ← check (size <=? n); mret n else _ ← upd_buf a no_data; mret 0);
     _ ← upd_buf a (fun b => b <| bb_ref := 1 |> <| bb_flags := 0 |> <| bb_frags := None |>
                               <| bb_b ::= (fun x => mk_buf (b_store x) (b_data x) (b_len x) (u16 size')) |>
                               <| bb_user := replicate (Z.to_nat (bb_ud_size b)) 0 |>);
     bt_buf_reset a) s = Some ((), s <| s_bufs ::= <[a := b']> |>) /\
    placed (s <| s_bufs ::= <[a := b']> |>) (dead ∖ {[a]}) (dead ∖ {[a]}).
Proof.
  intros Hpl Ha <- Hp Hsz. destruct (p_pool _ _ _ Hpl _ p Hp) as [_ Hmax _ _]. unfold UINT16_MAX in *.
  assert (exists b1, (if negb (size =? 0) then n ← take_data a; _ ← check (size <=? n); mret n else _ ← upd_buf a no_data; mret 0) s =
      Some (if size =? 0 then 0 else bp_max p, s <| s_bufs ::= <[a := b1]> |>) /\ bb_pool b1 = bb_pool b /\ bb_ud_size b1 = bb_ud_size b /\ Forall is_byte (b_store (bb_b b1)) /\
      zlen (b_store (bb_b b1)) = (if size =? 0 then 0 else bp_max p) /\ bb_has_data b1 = negb (size =? 0)) as (b1 & E1 & Ep1 & Eu1 & Hby & Hlen & Hhas).
  { destruct (Z.eqb_spec size 0) as [->|Hne]; cbn [negb].
    - exists (no_data b). erewrite bm_bind by (by apply upd_buf_run). split_and!; done.
    - destruct (take_data_run a s b p _ _ Hpl Ha Hp) as (row & Hrl & Hrb & Et). exists (b <| bb_has_data := true |> <| bb_b ::= set_store row |>).
      go Et. erewrite bm_bind by (apply check_run; apply Z.leb_le; lia). done. }
  go E1. set (n := if size =? 0 then 0 else bp_max p) in *. set (s1 := s <| s_bufs ::= <[a := b1]> |>).
  assert (s_bufs s1 !! a = Some b1) as Ha1 by apply lookup_insert_eq.
  erewrite bm_bind by (by apply upd_buf_run). set (s2 := s1 <| s_bufs ::= _ |>).
  set (b2 := b1 <| bb_ref := 1 |> <| bb_flags := 0 |> <| bb_frags := None |> <| bb_b ::= (fun x => mk_buf (b_store x) (b_data x) (b_len x) (u16 n)) |>
                  <| bb_user := replicate (Z.to_nat (bb_ud_size b1)) 0 |>) in *.
  assert (s_bufs s2 !! a = Some b2) as Ha2 by apply lookup_insert_eq.
  unfold bt_buf_reset. go (buf_at_run a b2 s2 Ha2). do 2 erewrite bm_bind by (by apply check_run). rewrite (upd_buf_run a _ b2 s2 Ha2).
  set (b3 := b2 <| bb_b ::= bt_buf_simple_reset |>). exists b3.
  assert (0 <= n <= 65535) as Hn by (subst n; destruct (_ =? _); lia).
  assert (u16 n = n) as En by (apply u16_id; lia).
  assert (s2 <| s_bufs ::= <[a := b3]> |> = s <| s_bufs ::= <[a := b3]> |>) as Es by (apply state_eq; [done| |done]; cbn; by rewrite !insert_insert_eq).
  split; [|split; [by rewrite Es|]].
  - by split; cbn; rewrite ?En.
  - eapply placed_buf; [exact Hpl|exact Ha|exact Hp|done|done| |set_solver]. intros _. split.
    + split; cbn; rewrite ?En; unfold UINT16_MAX; try lia. exact Hby.
    + cbn. intros Hh _. rewrite Hlen. subst n. rewrite Hhas in Hh. by destruct (size =? 0).
Qed.

Lemma alloc_len_run i size timeout wait s H dead p : counted (s_bufs s) H dead -> placed s dead dead -> s_pools s !! i = Some p -> 0 <= size <= bp_max p ->
  exists r s', bt_buf_alloc_len noinit i size timeout wait s = Some (r, s') /\ alike s s' /\
    match r with
    | Got (Some a) => exists b, (s_bufs s !! a = None \/ a ∈ dead) /\ s_bufs s' = <[a := b]> (s_bufs s) /\ fresh_buf b i (if size =? 0 then 0 else bp_max p) /\
        counted (s_bufs s') ({[+ a +]} ⊎ H) (dead ∖ {[a]}) /\ placed s' (dead ∖ {[a]}) (dead ∖ {[a]})
    | _ => s_bufs s' = s_bufs s /\ placed s' dead dead /\ bp_uninit p = 0 /\ none_free s i dead
    end.
Proof.
  intros Hc Hpl Hp Hsz. destruct (alloc_buf_run i timeout wait s dead p Hpl Hp) as (r & s1 & E & Hr). unfold bt_buf_alloc_len. go E.
  destruct r as [[a|]|].
  2, 3: destruct Hr as (? & ? & ? & ? & ?); eexists _, s1; split; [reflexivity|]; split; [done|]; done.
  destruct Hr as (Hal & b & Ha & Eb & Epool & Hpl1). destruct (Hal i p Hp) as (p1 & Hp1 & Em).
  assert (s_bufs s1 !! a = Some b) as Hb by (by rewrite Eb, lookup_insert_eq).
  destruct (fill_run size a s1 i b p1 dead Hpl1 Hb Epool Hp1) as (b' & Hfb & Ef & Hpl2); [by rewrite Em|].
  exists (Got (Some a)), (s1 <| s_bufs ::= <[a := b']> |>). split.
  - revert Ef. unfold mbind, BM_bind. destruct (if negb (size =? 0) then _ else _) as [[n s2]|] at 1 2; [|done]. destruct (upd_buf _ _ s2) as [[u s3]|]; [|done]. by intros ->.
  - split; [done|]. exists b'. assert (s_bufs (s1 <| s_bufs ::= <[a := b']> |>) = <[a := b']> (s_bufs s)) as Eb' by (cbn; by rewrite Eb, insert_insert_eq).
    rewrite Eb'. split; [done|]. split; [done|]. split; [by rewrite <-Em|]. split; [|done]. apply counted_alloc; [done|done|apply Hfb|apply Hfb].
Qed.

End Allocation.
