(* ===== verification/BtBufOps.v ===== *)
(** The operations on reference-counted buffers keep the counts exact; and what they do to
    the bytes in a chain of fragments. *)

From stdpp Require Import gmap gmultiset.
From S2P Require Import Prelude Byteorder BufSimple Slist Queue BtBuf BtBufRefs.

(** * The bytes of a chain *)

Definition content_at (m : bufs) (a : Z) : list Z := match m !! a with Some b => content (bb_b b) | None => [] end.
Definition bytes_of (m : bufs) (l : list Z) : list Z := concat (map (content_at m) l).

Lemma bytes_app m l l' : bytes_of m (l ++ l') = bytes_of m l ++ bytes_of m l'.
Proof. unfold bytes_of. by rewrite map_app, concat_app. Qed.
Lemma bytes_of_cons m a l : bytes_of m (a :: l) = content_at m a ++ bytes_of m l.
Proof. done. Qed.
Lemma bytes_ext m m' l : (forall a, a ∈ l -> content_at m' a = content_at m a) -> bytes_of m' l = bytes_of m l.
Proof.
  intros Hm. induction l as [|a l IH]; [done|]. rewrite !bytes_of_cons, Hm by (by left). f_equal. apply IH. intros x Hx. apply Hm. by right.
Qed.
Lemma content_at_insert m k b' a : content_at (<[k := b']> m) a = if decide (a = k) then content (bb_b b') else content_at m a.
Proof. unfold content_at. destruct (decide (a = k)) as [->|Hn]; [by rewrite lookup_insert_eq|by rewrite lookup_insert_ne]. Qed.
Lemma bytes_insert m k b' l : k ∉ l -> bytes_of (<[k := b']> m) l = bytes_of m l.
Proof. intros Hk. apply bytes_ext. intros a Ha. rewrite content_at_insert, decide_False; [done|]. by intros ->. Qed.
(** The window of a buffer, whatever its other fields are. *)
Lemma bytes_same m k b b' l : m !! k = Some b -> bb_b b' = bb_b b -> bytes_of (<[k := b']> m) l = bytes_of m l.
Proof.
  intros Hk E. apply bytes_ext. intros a _. rewrite content_at_insert. destruct (decide (a = k)) as [->|]; [|done]. unfold content_at. by rewrite Hk, E.
Qed.

Section Ops.

Context (noinit : Z -> bt_buf).

Notation sound s H dead := (counted (s_bufs s) H dead /\ placed s dead dead).

Lemma live_filled s dead a b : placed s dead dead -> s_bufs s !! a = Some b -> a ∉ dead -> exists p, s_pools s !! bb_pool b = Some p /\ bb_ud_size b = bp_ud_size p /\ filled p b.
Proof. intros Hpl Ha Hd. destruct (p_buf _ _ _ Hpl a b Ha) as (p & Hp & _ & Hud & Hf). exists p. split; [done|]. split; [done|]. by apply Hf. Qed.
Lemma live_wf s dead a b : placed s dead dead -> s_bufs s !! a = Some b -> a ∉ dead -> wf (bb_b b).
Proof. intros Hpl Ha Hd. destruct (live_filled s dead a b Hpl Ha Hd) as (p & _ & _ & Hf). apply Hf. Qed.

(** A change of one buffer, of its fragment or of its window. *)
Lemma placed_frags s dead k b f : placed s dead dead -> s_bufs s !! k = Some b -> placed (s <| s_bufs ::= <[k := b <| bb_frags := f |>]> |>) dead dead.
Proof.
  intros Hpl Hk. destruct (p_buf _ _ _ Hpl k b Hk) as (p & Hp & Hu & Hud & Hf). eapply placed_buf; [exact Hpl|exact Hk|exact Hp|done|done| |done].
  intros Hd. by destruct (Hf Hd).
Qed.
Lemma sound_window s H dead k b x : sound s H dead -> s_bufs s !! k = Some b -> wf x -> length (b_store x) = length (b_store (bb_b b)) ->
  sound (s <| s_bufs ::= <[k := b <| bb_b := x |>]> |>) H dead.
Proof.
  intros [Hc Hpl] Hk Hw Hlen. split; [by eapply counted_same|]. destruct (p_buf _ _ _ Hpl k b Hk) as (p & Hp & Hu & Hud & Hf).
  eapply placed_buf; [exact Hpl|exact Hk|exact Hp|done|done| |done]. intros Hd. destruct (Hf Hd) as [_ Hrow]. split; [done|]. cbn. rewrite Hlen. exact Hrow.
Qed.

Lemma buf_add_mem_run x bs : wf x -> Forall is_byte bs -> zlen bs <= b_size x - b_data x - b_len x ->
  exists y, bt_buf_simple_add_mem x bs = Some y /\ wf y /\ content y = content x ++ bs /\ length (b_store y) = length (b_store x) /\
    b_data y = b_data x /\ b_len y = b_len x + zlen bs /\ b_size y = b_size x.
Proof.
  intros Hw Hbs Hroom. pose proof (add_refines x bs Hw Hbs) as Hr. unfold bt_buf_simple_add_mem. destruct ('(b, p) ← bt_buf_simple_add x (zlen bs); store_at b p bs) as [y|] eqn:E.
  - cbn in Hr. unfold view_add in Hr. cbn in Hr. rewrite (proj2 (Z.leb_le _ _)) in Hr by lia. destruct Hr as (_ & Hwy & Hv). unfold view_of in Hv. cbn in Hv.
    injection Hv as Hd Hcont Hrm. pose proof (content_length x Hw) as Hlx. pose proof (content_length y Hwy) as Hly. rewrite Hcont, length_app in Hly.
    assert (b_len y = b_len x + zlen bs) as Elen by lia.
    exists y. split_and!; [done|done|done| |done|done|lia]. unfold bt_buf_simple_add, store_at in E. destruct (assert _) as [[]|]; [|done]. cbn in E.
    destruct (mem_write _ _ _) as [mm|] eqn:Em; [|done]. injection E as <-. cbn. by rewrite (mem_write_length _ _ _ _ Em).
  - cbn in Hr. unfold view_add in Hr. cbn in Hr. by rewrite (proj2 (Z.leb_le _ _)) in Hr by lia.
Qed.

(** ** Copies *)

Lemma clone_run a timeout wait s H dead b : sound s H dead -> s_bufs s !! a = Some b -> a ∉ dead ->
  exists r s' dead', bt_buf_clone noinit a timeout wait s = Some (r, s') /\
    match r with
    | Got (Some c) => sound s' ({[+ c +]} ⊎ H) dead' /\ content_at (s_bufs s') c = content (bb_b b)
    | _ => sound s' H dead'
    end.
Proof.
  intros [Hc Hpl] Ha Hd. destruct (live_filled s dead a b Hpl Ha Hd) as (p & Hp & Hud & [Hwf _]). pose proof (p_pool _ _ _ Hpl _ p Hp) as [_ Hmax _ _].
  unfold bt_buf_clone. go (buf_at_run a b s Ha).
  destruct (alloc_len_run noinit (bb_pool b) 0 timeout wait s H dead p Hc Hpl Hp ltac:(lia)) as (r & s1 & E & Hal & Hr). go E.
  destruct r as [[c|]|].
  2, 3: destruct Hr as (Eb & Hpl1 & _); eexists _, s1, dead; split; [reflexivity|]; by rewrite Eb.
  destruct Hr as (x & Hnew & Eb & Hfx & Hc1 & Hpl1). set (d1 := dead ∖ {[c]}) in *.
  assert (c <> a) as Hca by (intros ->; destruct Hnew; [congruence|done]).
  assert (s_bufs s1 !! a = Some b) as Ha1 by (by rewrite Eb, lookup_insert_ne). assert (s_bufs s1 !! c = Some x) as Hx1 by (by rewrite Eb, lookup_insert_eq).
  go (buf_at_run a b s1 Ha1). destruct (Hal _ p Hp) as (p1 & Hp1 & Em). assert (s_pools s1 !! bb_pool x = Some p1) as Hp1x by (by rewrite (fb_pool _ _ _ Hfx)).
  destruct (take_data_run c s1 x p1 _ _ Hpl1 Hx1 Hp1x) as (row & Hrl & Hrb & Et). go Et. set (s2 := s1 <| s_bufs ::= _ |>).
  set (x2 := x <| bb_has_data := true |> <| bb_b ::= set_store row |>) in *. assert (s_bufs s2 !! c = Some x2) as Hx2 by apply lookup_insert_eq.
  destruct (fb_window _ _ _ Hfx) as (Ed & El & Esz). cbn in Esz.
  assert (c ∉ d1) as Hcd by (subst d1; set_solver).
  assert (sound s2 ({[+ c +]} ⊎ H) d1) as [Hc2 Hpl2].
  { split; [by eapply counted_same|]. eapply placed_buf; [exact Hpl1|exact Hx1|exact Hp1x|done|done| |done]. intros _. split; [|done].
    split; cbn; rewrite ?Ed, ?El, ?Esz; unfold UINT16_MAX; try lia. exact Hrb. }
  destruct (Z.ltb_spec (bp_max p1) (b_size (bb_b b))) as [Hlt|Hge].
  - destruct (destroy_run s2 d1 c x2 Hpl2 Hx2 Hcd) as (s3 & E3 & Hpl3 & Eb3). go E3. eexists _, s3, ({[c]} ∪ d1). split; [reflexivity|]. split; [|done].
    rewrite Eb3. pose proof (counted_free _ H d1 c x2 (if bb_has_data x2 then no_data x2 else x2) Hc2 Hx2) as Hfree. cbn in Hfree |- *.
    rewrite (fb_frags _ _ _ Hfx) in Hfree. cbn [held] in Hfree. rewrite (left_id_L ∅ (⊎)) in Hfree. apply Hfree; [apply (fb_ref _ _ _ Hfx)|done].
  - pose proof Hwf as []. unfold UINT16_MAX in *. assert (mem_read (b_store (bb_b b)) (b_data (bb_b b)) (b_len (bb_b b)) = Some (content (bb_b b))) as Er by (apply mem_read_some; lia).
    go (lift_run _ _ s2 Er). go (buf_at_run c x2 s2 Hx2). set (y := mk_buf _ _ _ _).
    assert (wf y) as Hwy.
    { subst y. rewrite headroom_wf by done. split; cbn; rewrite ?El; unfold UINT16_MAX; rewrite ?u16_id by lia; try lia. exact Hrb. }
    destruct (buf_add_mem_run y (content (bb_b b)) Hwy) as (z & Ez & Hwz & Hcz & Hlz & _); [by apply content_bytes| |].
    { rewrite content_length by done. subst y. cbn. rewrite headroom_wf, El, u16_id by (done || lia). lia. }
    go (lift_run _ _ s2 Ez). destruct (live_filled s1 d1 c x Hpl1 Hx1 Hcd) as (p2 & Hp2 & Eud & _).
    destruct (p_buf _ _ _ Hpl1 a b Ha1) as (p3 & Hp3 & _ & Eud3 & _).
    assert ((bb_ud_size b =? bb_ud_size x2) = true) as Echk.
    { apply Z.eqb_eq. cbn. rewrite Eud, Eud3. congruence. }
    go (check_run _ s2 Echk). erewrite bm_bind by reflexivity. eexists _, _, d1. split; [reflexivity|]. split; [split|].
    + cbn. by eapply counted_same.
    + eapply placed_buf; [exact Hpl2|exact Hx2|exact Hp1x|done|done| |done]. intros _. split; [done|]. cbn. intros _ _. rewrite Hlz. cbn. by rewrite <-Hrl.
    + cbn. rewrite content_at_insert, decide_True by done. cbn. rewrite Hcz. assert (content y = []) as ->; [|done].
      apply nil_length_inv. pose proof (content_length y Hwy) as Hly. cbn in Hly. rewrite El in Hly. lia.
Qed.

End Ops.
