(* ===== verification/BtBufChain.v ===== *)
(** Chains of fragments: a buffer, its first fragment, the first fragment of that, and so on.
    Linking, unlinking and reading them. *)

From stdpp Require Import gmap gmultiset.
From S2P Require Import Prelude Byteorder BufSimple Slist Queue BtBuf BtBufRefs BtBufOps.

Notation sound s H dead := (counted (s_bufs s) H dead /\ placed s dead dead).

(** * Links *)

Lemma path_some m a l : path m (Some a) l -> exists b l', m !! a = Some b /\ l = a :: l' /\ path m (bb_frags b) l'.
Proof. inversion 1; subst. by eexists _, _. Qed.
Lemma path_last m p l z : path m p l -> last l = Some z -> exists x, m !! z = Some x /\ bb_frags x = None.
Proof.
  induction 1 as [|a b l Ha Hp IH]; [done|]. destruct l as [|a' l]; [|exact IH]. intros [= <-]. exists b. split; [done|]. by inversion Hp.
Qed.
Lemma path_link m p l z x f lf : path m p l -> last l = Some z -> m !! z = Some x -> path m f lf -> z ∉ lf ->
  path (<[z := x <| bb_frags := f |>]> m) p (l ++ lf).
Proof.
  intros Hp. pose proof (path_nodup _ _ _ Hp) as Hnd. revert Hnd. induction Hp as [|a b l Ha Hp IH]; [done|]. intros [Hal Hnd]%NoDup_cons Hz Hx Hf Hzf.
  destruct l as [|a' l].
  - injection Hz as ->. econstructor; [by rewrite lookup_insert_eq|]. by apply path_insert.
  - econstructor; [|by apply IH]. rewrite lookup_insert_ne; [done|]. intros ->. apply Hal. by apply last_Some_elem_of.
Qed.
Lemma path_ext m m' p l : (forall a, a ∈ l -> m' !! a = m !! a) -> path m p l -> path m' p l.
Proof.
  intros Hm Hp. induction Hp as [|a b l Ha Hp IH]; [constructor|]. econstructor; [rewrite Hm; [done|by left]|]. apply IH. intros x Hx. apply Hm. by right.
Qed.

Lemma last_loop_run l : forall fuel a s z, path (s_bufs s) (Some a) l -> last l = Some z -> (length l < fuel)%nat -> last_loop fuel a s = Some (z, s).
Proof.
  induction l as [|a' l IH]; intros fuel a s z Hp Hz Hlen; [done|]. destruct fuel as [|fuel]; [lia|].
  destruct (path_some _ _ _ Hp) as (b & l' & Ha & [= -> <-] & Hl'). cbn [last_loop]. go (buf_at_run a b s Ha).
  inversion Hl' as [E|f x l'' Hf Hl'' E]; subst; [by injection Hz as ->|]. apply IH; [|done|cbn in *; lia]. by econstructor.
Qed.
Lemma frag_last_run s a l z : path (s_bufs s) (Some a) l -> last l = Some z -> bt_buf_frag_last a s = Some (z, s).
Proof.
  intros Hp Hz. unfold bt_buf_frag_last. erewrite bm_bind by reflexivity. eapply last_loop_run; [done|done|]. pose proof (path_length _ _ _ Hp). lia.
Qed.
Lemma path_has_last m a l : path m (Some a) l -> exists z, last l = Some z.
Proof. intros (b & l' & _ & -> & _)%path_some. destruct (last (a :: l')) eqn:E; [by eexists|]. by apply last_None in E. Qed.

(** The changes that linking makes: neither the pools nor the nodes, nor the windows. *)
Definition relinked (s s' : buf_state) : Prop := s_pools s' = s_pools s /\ s_nodes s' = s_nodes s /\ forall k, bb_b <$> s_bufs s' !! k = bb_b <$> s_bufs s !! k.
Lemma relinked_bytes s s' l : relinked s s' -> bytes_of (s_bufs s') l = bytes_of (s_bufs s) l.
Proof.
  intros (_ & _ & Hw). apply bytes_ext. intros a _. specialize (Hw a). unfold content_at.
  destruct (s_bufs s' !! a), (s_bufs s !! a); cbn in Hw; try done. injection Hw as ->. done.
Qed.
Lemma relinked_one s k b f : s_bufs s !! k = Some b -> relinked s (s <| s_bufs ::= <[k := b <| bb_frags := f |>]> |>).
Proof. intros Hk. split; [done|]. split; [done|]. intros c. cbn. destruct (decide (c = k)) as [->|Hn]; [by rewrite lookup_insert_eq, Hk|by rewrite lookup_insert_ne]. Qed.
Lemma relinked_trans s1 s2 s3 : relinked s1 s2 -> relinked s2 s3 -> relinked s1 s3.
Proof. intros (P1 & N1 & B1) (P2 & N2 & B2). split_and!; [congruence..|]. intros k. by rewrite B2, B1. Qed.

(** A chain goes between a buffer and what follows it. *)
Lemma counted_between m H dead k b old l z x frag lf : counted m ({[+ frag +]} ⊎ H) dead -> k ∉ dead -> z ∉ dead -> m !! k = Some b -> bb_frags b = Some old ->
  path m (Some old) l -> k ∉ l -> path m (Some frag) lf -> last lf = Some z -> m !! z = Some x -> bb_frags x = None -> (forall a, a ∈ k :: l -> a ∉ lf) ->
  let m' := <[k := b <| bb_frags := Some frag |>]> (<[z := x <| bb_frags := Some old |>]> m) in
  counted m' H dead /\ path m' (Some frag) (lf ++ l).
Proof.
  intros Hc Hkd Hzd Hb Eold Hl Hkl Hlf Hz Hx Hxf Hdis m'. assert (k ∉ lf) as Hkf by (apply Hdis; by left).
  assert (z ∈ lf) as Hzl by (by apply last_Some_elem_of). assert (z <> k) as Hzk by (by intros ->). assert (z ∉ l) as Hzn by (intros Hin; eapply Hdis; [right; exact Hin|done]).
  pose proof (counted_unlink _ _ _ k b Hc Hb) as Hc1. rewrite Eold in Hc1. set (m1 := <[k := b <| bb_frags := None |>]> m) in *.
  assert (m1 !! z = Some x) as Hx1 by (by apply lookup_insert_Some; right).
  assert (path m1 (Some old) l) as Hl1 by (by apply path_insert). assert (path m1 (Some frag) lf) as Hlf1 by (by apply path_insert).
  pose proof (counted_link _ _ _ z x _ _ Hc1 Hx1 Hzd Hxf Hl1 Hzn) as Hc2.
  pose proof (path_link _ _ _ _ _ _ _ Hlf1 Hz Hx1 Hl1 Hzn) as Hp2. set (m2 := <[z := x <| bb_frags := Some old |>]> m1) in *.
  assert (m2 !! k = Some (b <| bb_frags := None |>)) as Hb2 by (subst m2; rewrite lookup_insert_ne by done; apply lookup_insert_eq).
  assert (k ∉ lf ++ l) as Hk by (by intros [?|?]%elem_of_app).
  pose proof (counted_link _ _ _ k _ (Some frag) _ Hc2 Hb2 Hkd eq_refl Hp2 Hk) as Hc3.
  pose proof (path_insert _ k (b <| bb_frags := None |> <| bb_frags := Some frag |>) _ _ Hk Hp2) as Hp3.
  assert (<[k := b <| bb_frags := None |> <| bb_frags := Some frag |>]> m2 = m') as E; [|by rewrite E in Hc3, Hp3].
  subst m2 m1 m'. rewrite (insert_insert_ne m) by done. apply insert_insert_eq.
Qed.

Lemma insert_run s H dead parent frag lp lf : sound s ({[+ frag +]} ⊎ H) dead -> parent ∉ dead ->
  path (s_bufs s) (Some parent) (parent :: lp) -> path (s_bufs s) (Some frag) lf -> (forall a, a ∈ parent :: lp -> a ∉ lf) ->
  exists s', bt_buf_frag_insert parent frag s = Some ((), s') /\ sound s' H dead /\ relinked s s' /\
    path (s_bufs s') (Some parent) (parent :: lf ++ lp) /\
    (lp = [] -> exists b, s_bufs s !! parent = Some b /\ s_bufs s' = <[parent := b <| bb_frags := Some frag |>]> (s_bufs s)).
Proof.
  intros [Hc Hpl] Hd Hp Hf Hdis. destruct (path_some _ _ _ Hp) as (b & l' & Hb & [= <-] & Hlp).
  assert (parent ∉ lf) as Hpf by (apply Hdis; by left). pose proof (path_nodup _ _ _ Hp) as [Hpn _]%NoDup_cons.
  assert (frag ∉ dead) as Hfd by (destruct (counted_handle _ _ _ frag Hc) as (? & _ & ?); [apply gmultiset_elem_of_disj_union; left; by apply gmultiset_elem_of_singleton|done]).
  unfold bt_buf_frag_insert. go (buf_at_run parent b s Hb). destruct (bb_frags b) as [old|] eqn:Eold.
  - rewrite bool_decide_true by (by eexists). destruct (path_has_last _ _ _ Hf) as [z Hz]. destruct (path_last _ _ _ _ Hf Hz) as (x & Hx & Hxf).
    assert (z ∈ lf) as Hzl by (by apply last_Some_elem_of). assert (z <> parent) as Hzp by (by intros ->).
    assert (z ∉ dead) as Hzd by (eapply (counted_path _ _ _ _ _ Hc Hf); [by intros ? [= <-]|done]).
    erewrite bm_bind by (go (frag_last_run s frag lf z Hf Hz); by apply upd_buf_run). set (s1 := s <| s_bufs ::= _ |>).
    assert (s_bufs s1 !! parent = Some b) as Hb1 by (by apply lookup_insert_Some; right). rewrite (upd_buf_run parent _ b s1 Hb1).
    destruct (counted_between (s_bufs s) H dead parent b old lp z x frag lf) as [Hc' Hp']; try done. eexists. split; [reflexivity|].
    split; [split; [exact Hc'|apply placed_frags; [by apply placed_frags|done]]|]. split; [eapply relinked_trans; by apply relinked_one|]. split.
    + econstructor; [apply lookup_insert_eq|exact Hp'].
    + intros ->. by inversion Hlp.
  - inversion Hlp; subst. rewrite bool_decide_false by (by intros [? ?]). erewrite bm_bind by reflexivity. rewrite (upd_buf_run parent _ b s Hb). eexists. split; [reflexivity|].
    split; [split; [by eapply (counted_link _ _ _ parent b (Some frag) lf)|by apply placed_frags]|]. split; [by apply relinked_one|]. rewrite app_nil_r. split.
    + econstructor; [apply lookup_insert_eq|]. by apply path_insert.
    + intros _. by exists b.
Qed.

(** A chain goes to the end of another. *)
Lemma frag_add_run s H dead h frag lh lf : sound s ({[+ frag +]} ⊎ H) dead -> h ∉ dead ->
  path (s_bufs s) (Some h) lh -> path (s_bufs s) (Some frag) lf -> (forall a, a ∈ lh -> a ∉ lf) ->
  exists s', bt_buf_frag_add (Some h) frag s = Some (h, s') /\ sound s' H dead /\ relinked s s' /\ path (s_bufs s') (Some h) (lh ++ lf).
Proof.
  intros Hs Hd Hh Hf Hdis. destruct (path_has_last _ _ _ Hh) as [z Hz]. destruct (path_last _ _ _ _ Hh Hz) as (x & Hx & Hxf).
  assert (z ∈ lh) as Hzl by (by apply last_Some_elem_of).
  destruct (insert_run s H dead z frag [] lf Hs) as (s' & E & Hs' & Hre & _ & Hlink); [| |done| |].
  - destruct Hs as [Hc _]. eapply (counted_path _ _ _ _ _ Hc Hh); [by intros ? [= <-]|done].
  - econstructor; [done|]. rewrite Hxf. constructor.
  - intros a ->%list_elem_of_singleton. by apply Hdis.
  - unfold bt_buf_frag_add. go (frag_last_run s h lh z Hh Hz). go E. exists s'. split; [done|]. split; [done|]. split; [done|].
    destruct (Hlink eq_refl) as (b & Hb & ->). apply (path_link _ _ _ _ _ _ _ Hh); [done|done|done|by apply Hdis].
Qed.

Section Unlink.

Context (destroy : Z -> BM unit).
Context (Hdestroy : forall a s, destroy a s = bt_buf_destroy a s).

(** A buffer is given back; what followed it is its holder's. *)
Lemma del_head_run s H dead frag l : sound s ({[+ frag +]} ⊎ H) dead -> path (s_bufs s) (Some frag) (frag :: l) ->
  exists next s' dead', bt_buf_frag_del destroy None frag s = Some (next, s') /\ sound s' (held next ⊎ H) dead' /\ path (s_bufs s') next l /\
    (forall k, k <> frag -> s_bufs s' !! k = s_bufs s !! k /\ (k ∈ dead' -> k ∈ dead)).
Proof.
  intros [Hc Hpl] Hp. destruct (path_some _ _ _ Hp) as (b & l' & Hb & [= <-] & Hl). pose proof (path_nodup _ _ _ Hp) as [Hn _]%NoDup_cons.
  unfold bt_buf_frag_del. erewrite bm_bind by reflexivity. go (buf_at_run frag b s Hb). go (upd_buf_run frag (fun x => x <| bb_frags := None |>) b s Hb).
  set (s1 := s <| s_bufs ::= _ |>). pose proof (counted_unlink _ _ _ frag b Hc Hb) as Hc1. rewrite (assoc_L (⊎)), (comm_L (⊎) _ {[+ frag +]}), <-(assoc_L (⊎)) in Hc1.
  assert (placed s1 dead dead) as Hpl1 by by apply placed_frags.
  assert (path (s_bufs s1) (Some frag) [frag]) as Hp1 by (econstructor; [apply lookup_insert_eq|constructor]).
  destruct (unref_run destroy Hdestroy frag s1 _ dead _ Hc1 Hpl1 Hp1) as (s2 & d2 & E2 & Hc2 & Hpl2 & _ & _ & Hco). go E2.
  assert (forall k, k <> frag -> s_bufs s2 !! k = s_bufs s !! k /\ (k ∈ d2 -> k ∈ dead)) as Hsame.
  { intros k Hk. destruct (Hco k) as [E Hkd]; [by intros ->%list_elem_of_singleton|]. split; [|done]. rewrite E. by apply lookup_insert_ne. }
  exists (bb_frags b), s2, d2. split; [done|]. split; [done|]. split; [|done]. eapply path_ext; [|exact Hl]. intros a Ha. apply Hsame. by intros ->.
Qed.

(** The first fragment of a buffer is taken out and given back. *)
Lemma del_frag_run s H dead parent frag l : sound s H dead -> parent ∉ dead -> path (s_bufs s) (Some parent) (parent :: frag :: l) ->
  exists next s' dead', bt_buf_frag_del destroy (Some parent) frag s = Some (next, s') /\ sound s' H dead' /\ parent ∉ dead' /\
    path (s_bufs s') (Some parent) (parent :: l) /\ content_at (s_bufs s') parent = content_at (s_bufs s) parent /\
    (forall k, k <> frag -> k <> parent -> s_bufs s' !! k = s_bufs s !! k).
Proof.
  intros [Hc Hpl] Hd Hp. destruct (path_some _ _ _ Hp) as (b & l' & Hb & [= <-] & Hl). pose proof (path_nodup _ _ _ Hp) as [Hn [Hn' _]%NoDup_cons]%NoDup_cons.
  apply not_elem_of_cons in Hn as [Hne Hn]. inversion Hl as [|? x ? Hx Hlx E]; subst. symmetry in E.
  unfold bt_buf_frag_del. erewrite bm_bind.
  2: { go (buf_at_run parent b s Hb). go (check_run (bool_decide (is_Some (bb_frags b))) s ltac:(apply bool_decide_true; by eexists)).
    go (check_run (bool_decide (bb_frags b = Some frag)) s ltac:(by apply bool_decide_true)). go (buf_at_run frag x s Hx). by apply upd_buf_run. }
  set (s1 := s <| s_bufs ::= _ |>). assert (s_bufs s1 !! frag = Some x) as Hx1 by (by apply lookup_insert_Some; right).
  go (buf_at_run frag x s1 Hx1). go (upd_buf_run frag (fun x => x <| bb_frags := None |>) x s1 Hx1). set (s2 := s1 <| s_bufs ::= _ |>).
  assert (counted (s_bufs s2) ({[+ frag +]} ⊎ H) dead) as Hc2.
  { pose proof (counted_unlink _ _ _ parent b Hc Hb) as Hc1. rewrite E in Hc1. set (m1 := <[parent := _]> _) in Hc1.
    assert (m1 !! frag = Some x) as Hxm by (by apply lookup_insert_Some; right).
    pose proof (counted_unlink _ _ _ frag x Hc1 Hxm) as Hcu. set (m2 := <[frag := _]> _) in Hcu.
    assert (m2 !! parent = Some (b <| bb_frags := None |>)) as Hbm by (subst m2; rewrite lookup_insert_ne by done; apply lookup_insert_eq).
    assert (path m2 (bb_frags x) l) as Hlm by (apply path_insert; [done|by apply path_insert]).
    pose proof (counted_link _ _ _ parent _ _ _ Hcu Hbm Hd eq_refl Hlm Hn) as Hcl.
    assert (<[parent := b <| bb_frags := None |> <| bb_frags := bb_frags x |>]> m2 = s_bufs s2) as <-; [|exact Hcl].
    subst m2 m1. cbn. rewrite (insert_insert_ne _ parent frag) by done. by rewrite insert_insert_eq. }
  assert (placed s2 dead dead) as Hpl2 by (apply placed_frags; [by apply placed_frags|done]).
  assert (path (s_bufs s2) (Some frag) [frag]) as Hp2 by (econstructor; [apply lookup_insert_eq|constructor]).
  destruct (unref_run destroy Hdestroy frag s2 _ dead _ Hc2 Hpl2 Hp2) as (s3 & d3 & E3 & Hc3 & Hpl3 & _ & _ & Hco). go E3.
  assert (forall k, k <> frag -> s_bufs s3 !! k = s_bufs s1 !! k /\ (k ∈ d3 -> k ∈ dead)) as Hsame.
  { intros k Hk. destruct (Hco k) as [E' Hkd]; [by intros ->%list_elem_of_singleton|]. split; [|done]. rewrite E'. by apply lookup_insert_ne. }
  assert (s_bufs s3 !! parent = Some (b <| bb_frags := bb_frags x |>)) as Hb3 by (rewrite (proj1 (Hsame parent Hne)); apply lookup_insert_eq).
  exists (bb_frags x), s3, d3. split; [done|]. split; [done|]. split; [by intros ?%Hsame|]. split; [|split].
  - econstructor; [exact Hb3|]. cbn. eapply path_ext; [|exact Hlx]. intros a Ha. rewrite (proj1 (Hsame a ltac:(by intros ->))). apply lookup_insert_ne. by intros ->.
  - unfold content_at. by rewrite Hb3, Hb.
  - intros k Hk Hkp. rewrite (proj1 (Hsame k Hk)). by apply lookup_insert_ne.
Qed.

End Unlink.
