(* ===== verification/BtBufBytes.v ===== *)
(** Reading chains of fragments: their bytes are the bytes of the fragments one after the
    other. *)

From stdpp Require Import gmap gmultiset.
From S2P Require Import Prelude Byteorder BufSimple Slist Queue BtBuf BtBufRefs BtBufOps BtBufChain.

(** * Windows *)

(** No operation makes the store longer or shorter. *)
Lemma run_op_store o x r y : run_op o x = Some (r, y) -> length (b_store y) = length (b_store x).
Proof.
  assert (forall x p bs y, store_at x p bs = Some y -> length (b_store y) = length (b_store x)) as Hst.
  { intros x0 p bs y0. unfold store_at. destruct (mem_write _ _ _) eqn:E; [|done]. intros [= <-]. by eapply mem_write_length. }
  assert (forall n put x v y, add_put n put x v = Some y -> length (b_store y) = length (b_store x)) as Hadd.
  { intros n put x0 v y0. unfold add_put, bt_buf_simple_add. destruct (assert _); [|done]. cbn. by intros ->%Hst. }
  assert (forall n put x v y, push_put n put x v = Some y -> length (b_store y) = length (b_store x)) as Hpush.
  { intros n put x0 v y0. unfold push_put, bt_buf_simple_push. destruct (assert _); [|done]. cbn. by intros ->%Hst. }
  assert (forall n get x v y, pull_get n get x = Some (v, y) -> b_store y = b_store x) as Hpull.
  { intros n get x0 v y0. unfold pull_get, bt_buf_simple_pull. destruct (mem_read _ _ _); [|done]. cbn. destruct (assert _); [|done]. by intros [= _ <-]. }
  assert (forall n get x v y, remove_get n get x = Some (v, y) -> b_store y = b_store x) as Hrem.
  { intros n get x0 v y0. unfold remove_get, bt_buf_simple_remove_mem. destruct (assert _); [|done]. cbn. destruct (mem_read _ _ _); [|done]. by intros [= _ <-]. }
  unfold run_op, silent, value, block. destruct o.
  - by intros [= _ <-].
  - destruct (bt_buf_simple_add_mem x bs) eqn:E; [|done]. intros [= _ <-]. exact (Hadd _ (fun _ => bs) x 0 _ E).
  - destruct (bt_buf_simple_add_u8 x v) eqn:E; [|done]. intros [= _ <-]. exact (Hadd 1 (fun _ => [u8 v]) x 0 _ E).
  - destruct (add_int e w x v) eqn:E; [|done]. intros [= _ <-]. destruct e, w; by eapply Hadd.
  - destruct (bt_buf_simple_push_mem x bs) eqn:E; [|done]. intros [= _ <-]. exact (Hpush _ (fun _ => bs) x 0 _ E).
  - destruct (bt_buf_simple_push_u8 x v) eqn:E; [|done]. intros [= _ <-]. exact (Hpush 1 (fun _ => [u8 v]) x 0 _ E).
  - destruct (push_int e w x v) eqn:E; [|done]. intros [= _ <-]. destruct e, w; by eapply Hpush.
  - unfold bt_buf_simple_pull_mem. destruct (assert _); [|done]. cbn. by intros [= _ <-].
  - destruct (bt_buf_simple_pull_u8 x) as [[v y']|] eqn:E; [|done]. intros [= _ <-]. f_equal. exact (Hpull 1 (fun bs => bs !!! 0%nat) x v _ E).
  - destruct (pull_int e w x) as [[v y']|] eqn:E; [|done]. intros [= _ <-]. f_equal. destruct e, w; by eapply Hpull.
  - unfold bt_buf_simple_remove_mem. destruct (assert _); [|done]. cbn. by intros [= _ <-].
  - destruct (bt_buf_simple_remove_u8 x) as [[v y']|] eqn:E; [|done]. intros [= _ <-]. f_equal. exact (Hrem 1 (fun bs => bs !!! 0%nat) x v _ E).
  - destruct (remove_int e w x) as [[v y']|] eqn:E; [|done]. intros [= _ <-]. f_equal. destruct e, w; by eapply Hrem.
Qed.

(** * Walks *)

(** Fragments with a window each. *)
Definition good (s : buf_state) (l : list Z) : Prop := forall a, a ∈ l -> exists b, s_bufs s !! a = Some b /\ wf (bb_b b).
Lemma live_good s H dead p l : sound s H dead -> path (s_bufs s) p l -> (forall a, p = Some a -> a ∉ dead) -> good s l.
Proof.
  intros [Hc Hpl] Hp Hd a Ha. destruct (path_dom _ _ _ _ Hp Ha) as [b Hb]. exists b. split; [done|]. eapply live_wf; [done|done|].
  by eapply (counted_path _ _ _ _ _ Hc Hp).
Qed.
Lemma good_cons s a l : good s (a :: l) -> exists b, s_bufs s !! a = Some b /\ wf (bb_b b) /\ content_at (s_bufs s) a = content (bb_b b) /\ good s l.
Proof.
  intros Hg. destruct (Hg a) as (b & Hb & Hw); [by left|]. exists b. split_and!; [done|done|by unfold content_at; rewrite Hb|]. intros c Hc. apply Hg. by right.
Qed.

Lemma find_frag_run s l : forall fuel p off, path (s_bufs s) p l -> good s l -> (length l < fuel)%nat -> 0 <= off ->
  exists q off' l', find_frag fuel p off s = Some ((q, off'), s) /\ path (s_bufs s) q l' /\ good s l' /\ (length l' <= length l)%nat /\ 0 <= off' /\
    drop (Z.to_nat off) (bytes_of (s_bufs s) l) = drop (Z.to_nat off') (bytes_of (s_bufs s) l') /\
    match l' with a :: _ => off' < zlen (content_at (s_bufs s) a) | [] => True end.
Proof.
  induction l as [|a l IH]; intros fuel p off Hp Hg Hlen Hoff; (destruct fuel as [|fuel]; [lia|]); inversion Hp as [|? b ? Ha Hp']; subst; cbn [find_frag].
  - by exists None, off, [].
  - destruct (good_cons _ _ _ Hg) as (b' & Hb' & Hw & Ec & Hg'). assert (b' = b) as -> by congruence. go (buf_at_run a b s Ha).
    pose proof (content_length _ Hw) as Hcl. destruct (Z.leb_spec (b_len (bb_b b)) off) as [Hle|Hlt].
    + cbn [length] in Hlen. destruct (IH fuel (bb_frags b) (off - b_len (bb_b b)) Hp' Hg') as (q & off' & l' & E & Hq & Hgl & Hll & Ho & Hd & Hh); [lia|lia|].
      exists q, off', l'. split_and!; try done; [cbn; lia|]. rewrite <-Hd, bytes_of_cons, Ec, drop_app_ge by lia. f_equal. lia.
    + exists (Some a), off, (a :: l). split_and!; try done. rewrite Ec. lia.
Qed.

Lemma frag_read_run s b off n : wf (bb_b b) -> 0 <= off -> 0 <= n -> off + n <= b_len (bb_b b) ->
  frag_read b off n s = Some (take (Z.to_nat n) (drop (Z.to_nat off) (content (bb_b b))), s).
Proof.
  intros Hw Ho Hn Hl. pose proof Hw as []. unfold frag_read. apply lift_run. rewrite mem_read_some by lia. f_equal. unfold content. rewrite (slice_take _ _ n (b_len (bb_b b) - off)), slice_drop by lia. done.
Qed.

Lemma copy_loop_run s l : forall fuel p off len, path (s_bufs s) p l -> good s l -> (length l < fuel)%nat -> 0 <= off -> 0 <= len ->
  match l with a :: _ => off <= zlen (content_at (s_bufs s) a) | [] => True end ->
  copy_loop fuel p off len s = Some (take (Z.to_nat len) (drop (Z.to_nat off) (bytes_of (s_bufs s) l)), s).
Proof.
  induction l as [|a l IH]; intros fuel p off len Hp Hg Hlen Hoff Hl Hh; (destruct fuel as [|fuel]; [lia|]); inversion Hp as [|? b ? Ha Hp']; subst; cbn [copy_loop].
  - unfold bytes_of. cbn. by rewrite drop_nil, take_nil.
  - destruct (good_cons _ _ _ Hg) as (b' & Hb' & Hw & Ec & Hg'). assert (b' = b) as -> by congruence. rewrite Ec in Hh.
    pose proof (content_length _ Hw) as Hcl. destruct (Z.ltb_spec 0 len) as [Hpos|Hz]; [|by rewrite (proj1 (Z2Nat.inj_iff len 0 Hl ltac:(lia)) ltac:(lia))].
    go (buf_at_run a b s Ha). set (n := Z.min len (b_len (bb_b b) - off)). assert (0 <= n <= len) as Hn by lia.
    go (frag_read_run s b off n Hw Hoff ltac:(lia) ltac:(lia)). cbn [length] in Hlen.
    assert (match l with a :: _ => 0 <= zlen (content_at (s_bufs s) a) | [] => True end) as Hh' by (destruct l; [done|lia]).
    go (IH fuel (bb_frags b) 0 (len - n) Hp' Hg' ltac:(lia) ltac:(lia) ltac:(lia) Hh'). rewrite drop_0, bytes_of_cons, Ec, drop_app_le by lia.
    unfold mret, BM_ret. f_equal. f_equal. rewrite take_app, length_drop. f_equal; [|f_equal; lia].
    destruct (Z.leb_spec len (b_len (bb_b b) - off)); [f_equal; lia|]. rewrite !take_ge by (rewrite length_drop; lia). done.
Qed.
(** [bt_buf_linearize] copies the bytes from the offset on, as many as there is room for. *)
Lemma linearize_run s H dead dst_len src l off len : sound s H dead -> path (s_bufs s) src l -> (forall a, src = Some a -> a ∉ dead) -> 0 <= off -> 0 <= len -> 0 <= dst_len ->
  bt_buf_linearize dst_len src off len s = Some (take (Z.to_nat (Z.min len dst_len)) (drop (Z.to_nat off) (bytes_of (s_bufs s) l)), s).
Proof.
  intros Hs Hp Hd Ho Hl Hdl. pose proof (live_good _ _ _ _ _ Hs Hp Hd) as Hg. pose proof (path_length _ _ _ Hp) as Hpl.
  unfold bt_buf_linearize. erewrite bm_bind by reflexivity. destruct (find_frag_run s l (S (size (s_bufs s))) src off Hp Hg) as (q & off' & l' & E & Hq & Hg' & Hll & Ho' & Hdr & Hh); [lia|done|].
  go E. rewrite Hdr. apply copy_loop_run; [done|done|lia|done|lia|]. destruct l'; [done|lia].
Qed.

(** The length of the longest common prefix. *)
Fixpoint lcp (x y : list Z) : nat :=
  match x, y with a :: x, b :: y => if a =? b then S (lcp x y) else 0%nat | _, _ => 0%nat end.
Lemma lcp_le x y : (lcp x y <= length y)%nat.
Proof. revert y. induction x as [|a x IH]; intros [|b y]; cbn; try lia. destruct (_ =? _); [|lia]. specialize (IH y). lia. Qed.
Lemma common_lcp x y : (length y <= length x)%nat -> common x y = Some (lcp x y).
Proof.
  revert x. induction y as [|b y IH]; intros [|a x] Hl; cbn in *; try done; try lia. rewrite Z.eqb_sym. destruct (Z.eqb_spec a b); [|by rewrite (proj2 (Z.eqb_neq _ _)) by congruence].
  rewrite IH by lia. by rewrite (proj2 (Z.eqb_eq _ _)).
Qed.
Lemma lcp_app x y1 y2 : lcp x (y1 ++ y2) = if (lcp x y1 <? length y1)%nat then lcp x y1 else (length y1 + lcp (drop (length y1) x) y2)%nat.
Proof.
  revert x. induction y1 as [|b y1 IH]; intros [|a x]; cbn [lcp app length drop]; try done. destruct (_ =? _); [|done]. rewrite IH.
  change (S (lcp x y1) <? S (length y1))%nat with (lcp x y1 <? length y1)%nat. by destruct (_ <? _)%nat.
Qed.

Lemma match_loop_run s l : forall fuel p off data len, path (s_bufs s) p l -> good s l -> (length l < fuel)%nat -> 0 <= off -> 0 <= len <= zlen data ->
  match l with a :: _ => off <= zlen (content_at (s_bufs s) a) | [] => True end ->
  match_loop fuel p off data len s = Some (Z.of_nat (lcp data (take (Z.to_nat len) (drop (Z.to_nat off) (bytes_of (s_bufs s) l)))), s).
Proof.
  induction l as [|a l IH]; intros fuel p off data len Hp Hg Hlen Hoff Hl Hh; (destruct fuel as [|fuel]; [lia|]); inversion Hp as [|? b ? Ha Hp']; subst; cbn [match_loop].
  - unfold bytes_of. cbn. rewrite drop_nil, take_nil. by destruct data.
  - destruct (good_cons _ _ _ Hg) as (b' & Hb' & Hw & Ec & Hg'). assert (b' = b) as -> by congruence. rewrite Ec in Hh.
    pose proof (content_length _ Hw) as Hcl. destruct (Z.ltb_spec 0 len) as [Hpos|Hz]; [|assert (len = 0) as -> by lia; by destruct data].
    go (buf_at_run a b s Ha). set (n := Z.min len (b_len (bb_b b) - off)). assert (0 <= n <= len) as Hn by lia.
    go (frag_read_run s b off n Hw Hoff ltac:(lia) ltac:(lia)). cbn [length] in Hlen. set (bs := take _ _).
    assert (length bs = Z.to_nat n) as Hbs by (subst bs; rewrite length_take, length_drop; lia).
    go (lift_run _ _ s (common_lcp data bs ltac:(lia))). pose proof (lcp_le data bs).
    assert (take (Z.to_nat len) (drop (Z.to_nat off) (bytes_of (s_bufs s) (a :: l))) = bs ++ take (Z.to_nat (len - n)) (bytes_of (s_bufs s) l)) as ->.
    { rewrite bytes_of_cons, Ec, drop_app_le, take_app, length_drop by lia. f_equal; [|f_equal; lia]. subst bs.
      destruct (Z.leb_spec len (b_len (bb_b b) - off)); [f_equal; lia|]. rewrite !take_ge by (rewrite length_drop; lia). done. }
    rewrite lcp_app, Hbs. destruct (Z.ltb_spec (Z.of_nat (lcp data bs)) n) as [Hlt|Hge].
    + by rewrite (proj2 (Nat.ltb_lt _ _)) by lia.
    + rewrite (proj2 (Nat.ltb_ge _ _)) by lia. assert (lcp data bs = Z.to_nat n) as -> by lia.
      assert (match l with a :: _ => 0 <= zlen (content_at (s_bufs s) a) | [] => True end) as Hh' by (destruct l; [done|lia]).
      go (IH fuel (bb_frags b) 0 (drop (Z.to_nat n) data) (len - n) Hp' Hg' ltac:(lia) ltac:(lia) ltac:(rewrite length_drop; lia) Hh').
      rewrite drop_0. unfold mret, BM_ret. f_equal. f_equal. lia.
Qed.
(** [bt_buf_data_match] says how many bytes from the offset on are those of the data. *)
Lemma data_match_run s H dead a l off data len : sound s H dead -> path (s_bufs s) (Some a) l -> a ∉ dead -> 0 <= off -> 0 <= len <= zlen data ->
  bt_buf_data_match (Some a) off (Some data) len s = Some (Z.of_nat (lcp data (take (Z.to_nat len) (drop (Z.to_nat off) (bytes_of (s_bufs s) l)))), s).
Proof.
  intros Hs Hp Hd Ho Hl. pose proof (live_good _ _ _ _ _ Hs Hp ltac:(by intros ? [= <-])) as Hg. pose proof (path_length _ _ _ Hp) as Hpl.
  unfold bt_buf_data_match. erewrite bm_bind by reflexivity.
  destruct (find_frag_run s l (S (size (s_bufs s))) (Some a) off Hp Hg) as (q & off' & l' & E & Hq & Hg' & Hll & Ho' & Hdr & Hh); [lia|done|].
  go E. rewrite Hdr. apply match_loop_run; [done|done|lia|done|lia|]. destruct l'; [done|lia].
Qed.

Lemma frags_len_run s H dead p l : sound s H dead -> path (s_bufs s) p l -> (forall a, p = Some a -> a ∉ dead) ->
  bt_buf_frags_len p s = Some (u64 (zlen (bytes_of (s_bufs s) l)), s).
Proof.
  intros Hs Hp Hd. pose proof (live_good _ _ _ _ _ Hs Hp Hd) as Hg. pose proof (path_length _ _ _ Hp) as Hpl.
  unfold bt_buf_frags_len. erewrite bm_bind by reflexivity.
  assert (forall l fuel p, path (s_bufs s) p l -> good s l -> (length l < fuel)%nat -> len_loop fuel p s = Some (zlen (bytes_of (s_bufs s) l), s)) as Hrun; [|by go (Hrun l (S (size (s_bufs s))) p Hp Hg ltac:(lia))].
  clear. induction l as [|a l IH]; intros fuel p Hp Hg Hlen; (destruct fuel as [|fuel]; [lia|]); inversion Hp as [|? b ? Ha Hp']; subst; [done|]. cbn [len_loop].
  destruct (good_cons _ _ _ Hg) as (b' & Hb' & Hw & Ec & Hg'). assert (b' = b) as -> by congruence. go (buf_at_run a b s Ha). cbn [length] in Hlen.
  go (IH fuel (bb_frags b) Hp' Hg' ltac:(lia)). unfold mret, BM_ret. f_equal. f_equal. rewrite bytes_of_cons, Ec, length_app. pose proof (content_length _ Hw). lia.
Qed.
