(* ===== verification/BtBufGrow.v ===== *)
(** Writing chains of fragments: [bt_buf_skip] takes bytes from the start of a chain and
    gives empty buffers back; [bt_buf_append_bytes] writes behind its end, with new buffers. *)

From stdpp Require Import gmap gmultiset.
From S2P Require Import Prelude Byteorder BufSimple Slist Queue BtBuf BtBufRefs BtBufOps BtBufChain BtBufBytes.

Lemma buf_pull_u8_run x y rest : wf x -> content x = y :: rest ->
  exists x', bt_buf_simple_pull_u8 x = Some (y, x') /\ wf x' /\ content x' = rest /\ length (b_store x') = length (b_store x).
Proof.
  intros Hw Hc. pose proof (run_op_refines OPullU8 x Hw I) as Hr. cbn in Hr. unfold view_pull in Hr. cbn in Hr. rewrite Hc in Hr. cbn in Hr.
  rewrite (proj2 (Z.leb_le _ _)) in Hr by (cbn; lia). unfold value in Hr. destruct (bt_buf_simple_pull_u8 x) as [[v x']|] eqn:E; cbn in Hr; [|done].
  destruct Hr as (Hv & Hw' & Hview). injection Hv as ->. unfold view_of in Hview. injection Hview as _ Hcont _. exists x'. cbn in Hcont. rewrite drop_0 in Hcont.
  split_and!; [idtac|done|done|].
  - do 2 f_equal. lia.
  - apply (run_op_store OPullU8 x (OVal (y + 256 * 0))). cbn. by rewrite E.
Qed.

(** A chain in which one window is another. *)
Lemma sound_at s H dead k b x : sound s H dead -> s_bufs s !! k = Some b -> wf x -> length (b_store x) = length (b_store (bb_b b)) ->
  sound (s <| s_bufs ::= <[k := b <| bb_b := x |>]> |>) H dead /\ forall p l, path (s_bufs s) p l -> path (<[k := b <| bb_b := x |>]> (s_bufs s)) p l.
Proof. intros Hs Hk Hw Hl. split; [by apply sound_window|]. intros p l Hp. by eapply (path_same _ _ b). Qed.

(** ** Skipping *)

Section Skip.

Context (destroy : Z -> BM unit).
Context (Hdestroy : forall a s, destroy a s = bt_buf_destroy a s).

Definition nonempty (m : bufs) (l : list Z) : Prop := forall a, a ∈ l -> content_at m a <> [].

Lemma held_live s p H dead : counted (s_bufs s) (held p ⊎ H) dead -> forall a, p = Some a -> a ∉ dead.
Proof.
  intros Hc a ->. destruct (counted_handle _ _ _ a Hc) as (? & _ & ?); [|done]. apply gmultiset_elem_of_disj_union. left. by apply gmultiset_elem_of_singleton.
Qed.

Lemma skip_run n : forall p l s H dead, sound s (held p ⊎ H) dead -> path (s_bufs s) p l -> nonempty (s_bufs s) l ->
  exists p' s' dead' l', skip_loop destroy n p s = Some (p', s') /\ sound s' (held p' ⊎ H) dead' /\ path (s_bufs s') p' l' /\
    bytes_of (s_bufs s') l' = drop n (bytes_of (s_bufs s) l) /\ nonempty (s_bufs s') l'.
Proof.
  induction n as [|n IH]; intros p l s H dead Hs Hp Hne.
  { exists p, s, dead, l. split; [by destruct p|]. done. }
  destruct p as [a|]; [|inversion Hp; subst; by exists None, s, dead, []].
  destruct (path_some _ _ _ Hp) as (b & l' & Ha & -> & Hl'). destruct Hs as [Hc Hpl]. pose proof (held_live _ _ _ _ Hc a eq_refl) as Hd.
  pose proof (live_wf s dead a b Hpl Ha Hd) as Hw. assert (content_at (s_bufs s) a = content (bb_b b)) as Ec by (unfold content_at; by rewrite Ha).
  destruct (content (bb_b b)) as [|y rest] eqn:Econt; [by destruct (Hne a); [left|]|].
  destruct (buf_pull_u8_run _ _ _ Hw Econt) as (x & Ex & Hwx & Hcx & Hlx). cbn [skip_loop].
  set (s1 := s <| s_bufs ::= <[a := b <| bb_b := x |>]> |>).
  assert (bt_buf_pull_u8 a s = Some (y, s1)) as Epull by (unfold bt_buf_pull_u8, on_b_val; go (buf_at_run a b s Ha); go (lift_run _ _ s Ex); reflexivity).
  go Epull. assert (s_bufs s1 !! a = Some (b <| bb_b := x |>)) as Ha1 by apply lookup_insert_eq. go (buf_at_run a _ s1 Ha1).
  destruct (sound_at s _ dead a b x (conj Hc Hpl) Ha Hwx Hlx) as [Hs1 Hp1]. specialize (Hp1 _ _ Hp).
  pose proof (path_nodup _ _ _ Hp) as [Hal _]%NoDup_cons. rewrite bytes_of_cons, Ec. cbn [app drop]. pose proof (content_length x Hwx) as Hlen. rewrite Hcx in Hlen.
  assert (bytes_of (s_bufs s1) l' = bytes_of (s_bufs s) l') as Eb1 by by apply bytes_insert.
  assert (forall c, c ∈ l' -> content_at (s_bufs s1) c <> []) as Hne1.
  { intros c Hc'. cbn. rewrite content_at_insert, decide_False by (by intros ->). apply Hne. by right. }
  destruct (Z.eqb_spec (b_len (bb_b (b <| bb_b := x |>))) 0) as [Ez|Ez]; cbn in Ez.
  - assert (rest = []) as -> by (apply nil_length_inv; lia). destruct (del_head_run destroy Hdestroy s1 H dead a l' Hs1 Hp1) as (next & s2 & d2 & E2 & Hs2 & Hp2 & Hsame).
    go E2. assert (forall c, c ∈ l' -> content_at (s_bufs s2) c = content_at (s_bufs s1) c) as Hct.
    { intros c Hc'. unfold content_at. by rewrite (proj1 (Hsame c ltac:(by intros ->))). }
    destruct (IH next l' s2 H d2 Hs2 Hp2) as (p3 & s3 & d3 & l3 & E3 & Hs3 & Hp3 & Hb3 & Hn3); [intros c Hc'; rewrite Hct by done; by apply Hne1|].
    exists p3, s3, d3, l3. split; [exact E3|]. split; [done|]. split; [done|]. split; [|done]. rewrite Hb3, (bytes_ext _ _ _ Hct), Eb1. done.
  - erewrite bm_bind by reflexivity. assert (content_at (s_bufs s1) a = rest) as Ec1 by (unfold content_at; by rewrite Ha1).
    destruct (IH (Some a) (a :: l') s1 H dead Hs1 Hp1) as (p3 & s3 & d3 & l3 & E3 & Hs3 & Hp3 & Hb3 & Hn3).
    { intros c [->|Hc']%elem_of_cons; [|by apply Hne1]. rewrite Ec1. intros ->. cbn in Hlen. lia. }
    exists p3, s3, d3, l3. split; [exact E3|]. split; [done|]. split; [done|]. split; [|done]. by rewrite Hb3, bytes_of_cons, Ec1, Eb1.
Qed.

End Skip.

(** ** Appending *)

Section Append.

Context (noinit : Z -> bt_buf).

Lemma bytes_last m l z b' : NoDup l -> last l = Some z -> bytes_of (<[z := b']> m) l = bytes_of m (removelast l) ++ content (bb_b b').
Proof.
  intros Hnd (l' & ->)%last_Some. rewrite removelast_last, bytes_app. apply NoDup_app in Hnd as (_ & Hd & _). f_equal.
  - apply bytes_insert. intros Hin. apply (Hd z Hin). by left.
  - rewrite bytes_of_cons, content_at_insert, decide_True by done. apply app_nil_r.
Qed.
Lemma bytes_at_last m l z : last l = Some z -> bytes_of m l = bytes_of m (removelast l) ++ content_at m z.
Proof. intros (l' & ->)%last_Some. rewrite removelast_last, bytes_app, bytes_of_cons. f_equal. apply app_nil_r. Qed.

(** One round: as much as fits goes into the last buffer. *)
Lemma round_run s H dead a l z b value : sound s H dead -> path (s_bufs s) (Some a) l -> a ∉ dead -> last l = Some z -> s_bufs s !! z = Some b -> Forall is_byte value ->
  exists n x, let count := u16 (Z.min (zlen value) (bt_buf_simple_tailroom (bb_b b))) in let s' := s <| s_bufs ::= <[z := b <| bb_b := x |>]> |> in
    bt_buf_simple_add_mem (bb_b b) (take (Z.to_nat count) value) = Some x /\ count = Z.of_nat n /\ (n <= length value)%nat /\
    (bt_buf_simple_tailroom (bb_b b) <= 0 \/ value = [] \/ (0 < n)%nat) /\
    sound s' H dead /\ path (s_bufs s') (Some a) l /\ bytes_of (s_bufs s') l = bytes_of (s_bufs s) l ++ take n value.
Proof.
  intros Hs Hp Hd Hz Hb Hby. assert (z ∉ dead) as Hzd.
  { destruct Hs as [Hc _]. eapply (counted_path _ _ _ _ _ Hc Hp); [by intros ? [= <-]|by apply last_Some_elem_of]. }
  pose proof (live_wf s dead z b (proj2 Hs) Hb Hzd) as Hw. rewrite tailroom_wf by done. pose proof Hw as []. unfold UINT16_MAX in *.
  set (t := b_size (bb_b b) - b_data (bb_b b) - b_len (bb_b b)). assert (u16 (Z.min (zlen value) t) = Z.of_nat (Z.to_nat (Z.min (zlen value) t))) as Eu by (rewrite u16_id; lia).
  set (n := Z.to_nat (Z.min (zlen value) t)) in *. rewrite Eu, Nat2Z.id.
  destruct (buf_add_mem_run (bb_b b) (take n value) Hw) as (x & Ex & Hwx & Hcx & Hlx & _); [by apply Forall_take|rewrite length_take; lia|].
  exists n, x. cbn zeta. destruct (sound_at s H dead z b x Hs Hb Hwx Hlx) as [Hs1 Hp1]. split_and!; [done|done|lia| |apply Hs1|apply Hs1|by apply Hp1|].
  - destruct value; [right; by left|]. destruct (Z.leb_spec t 0); [by left|]. right. right. cbn [length] in n. lia.
  - cbn. rewrite (bytes_last _ _ _ _ (path_nodup _ _ _ Hp) Hz), (bytes_at_last _ l z Hz). cbn. rewrite Hcx, app_assoc. unfold content_at. by rewrite Hb.
Qed.

(** An allocation that [bt_buf_append_bytes] makes. *)
Lemma from_pool_run i timeout wait s H dead a l p len : sound s H dead -> path (s_bufs s) (Some a) l -> a ∉ dead -> s_pools s !! i = Some p -> 0 < bp_max p -> 0 < len ->
  exists r s', from_pool noinit i timeout wait len s = Some (r, s') /\
    match r with
    | Got (Some c) => exists s2 dead' b', bt_buf_frag_add (Some a) c s' = Some (a, s2) /\ sound s2 H dead' /\ a ∉ dead' /\ path (s_bufs s2) (Some a) (l ++ [c]) /\
        bytes_of (s_bufs s2) (l ++ [c]) = bytes_of (s_bufs s) l /\ s_bufs s2 !! c = Some b' /\ 0 < bt_buf_simple_tailroom (bb_b b') /\
        exists p', s_pools s2 !! i = Some p' /\ 0 < bp_max p'
    | _ => s_bufs s' = s_bufs s /\ placed s' dead dead /\ none_free s' i dead
    end.
Proof.
  intros [Hc Hpl] Hp Hd Hi Hmax Hlen. unfold from_pool. go (pool_at_run i p s Hi). rewrite (proj2 (Z.eqb_neq _ _)) by lia. cbn [negb].
  destruct (alloc_len_run noinit i (Z.min len (bp_max p)) timeout wait s H dead p Hc Hpl Hi ltac:(lia)) as (r & s1 & E & Hal & Hr).
  rewrite E. exists r, s1. split; [done|]. destruct r as [[c|]|].
  2, 3: destruct Hr as (Eb & Hpl1 & _ & Hnf); split_and!; [done|done|]; intros x y; rewrite Eb; apply Hnf.
  destruct Hr as (b & Hnew & Eb & Hfb & Hc1 & Hpl1). rewrite (proj2 (Z.eqb_neq _ _)) in Hfb by lia.
  assert (c ∉ l) as Hcl.
  { intros Hin. assert (c ∉ dead) by (eapply (counted_path _ _ _ _ _ Hc Hp); [by intros ? [= <-]|done]). destruct (path_dom _ _ _ _ Hp Hin). destruct Hnew; [congruence|done]. }
  assert (s_bufs s1 !! c = Some b) as Hcb by (by rewrite Eb, lookup_insert_eq). assert (a ∉ dead ∖ {[c]}) as Hd1 by set_solver.
  assert (path (s_bufs s1) (Some a) l) as Hp1 by (rewrite Eb; by apply path_insert).
  assert (path (s_bufs s1) (Some c) [c]) as Hpc by (econstructor; [done|]; rewrite (fb_frags _ _ _ Hfb); constructor).
  destruct (frag_add_run s1 H _ a c l [c] (conj Hc1 Hpl1) Hd1 Hp1 Hpc) as (s2 & E2 & Hs2 & Hre & Hp2); [by intros x Hx ->%list_elem_of_singleton|].
  pose proof Hre as (Eps & _ & Ebs). destruct (path_dom _ _ _ c Hp2) as [b2 Hb2]; [apply elem_of_app; right; by left|].
  exists s2, (dead ∖ {[c]}), b2. split_and!; [done|apply Hs2|apply Hs2|done|done| |done| |].
  - rewrite (relinked_bytes _ _ _ Hre), bytes_app, Eb, bytes_insert, bytes_of_cons, content_at_insert, decide_True by done. destruct (fb_window _ _ _ Hfb) as (_ & El & _).
    unfold content. rewrite El. unfold slice. cbn. rewrite take_0. by rewrite app_nil_r.
  - specialize (Ebs c). rewrite Hb2, Hcb in Ebs. injection Ebs as ->. assert (c ∉ dead ∖ {[c]}) as Hcd by set_solver.
    rewrite tailroom_wf by exact (live_wf _ _ _ _ Hpl1 Hcb Hcd). destruct (fb_window _ _ _ Hfb) as (-> & -> & ->). lia.
  - destruct (Hal i p Hi) as (p' & Hp' & Em). exists p'. by rewrite Eps, Em.
Qed.

Lemma append_loop_run fuel : forall timeout wait value added s H dead a l z b i p,
  sound s H dead -> path (s_bufs s) (Some a) l -> a ∉ dead -> last l = Some z -> s_bufs s !! z = Some b -> Forall is_byte value -> s_pools s !! i = Some p -> 0 < bp_max p ->
  (length value + (if decide (0 < bt_buf_simple_tailroom (bb_b b))%Z then 0 else 1) < fuel)%nat ->
  exists r s' dead' lz n, append_loop fuel (from_pool noinit i timeout wait) a z value added s = Some (r, s') /\ sound s' H dead' /\ a ∉ dead' /\
    path (s_bufs s') (Some a) (l ++ lz) /\ bytes_of (s_bufs s') (l ++ lz) = bytes_of (s_bufs s) l ++ take n value /\ (n <= length value)%nat /\
    match r with Some k => k = added + Z.of_nat n | None => True end /\ (n = length value \/ none_free s' i dead').
Proof.
  induction fuel as [|fuel IH]; intros timeout wait value added s H dead a l z b i p Hs Hp Hd Hz Hb Hby Hi Hmax Hf; [lia|].
  destruct (round_run s H dead a l z b value Hs Hp Hd Hz Hb Hby) as (n & x & Hround). cbn zeta in Hround. destruct Hround as (Ex & En & Hn & Hroom & Hs1 & Hp1 & Hb1).
  cbn [append_loop]. go (buf_at_run z b s Hb). cbn zeta. go (lift_run _ _ s Ex). erewrite bm_bind by reflexivity. rewrite En, Nat2Z.id.
  set (s1 := s <| s_bufs ::= <[z := b <| bb_b := x |>]> |>) in *. change (s <| s_bufs ::= _ |>) with s1.
  destruct (drop n value) as [|v rest] eqn:Edrop.
  { exists (Some (added + Z.of_nat n)), s1, dead, [], n. rewrite app_nil_r. assert (length (drop n value) = 0%nat) as El by (by rewrite Edrop). rewrite length_drop in El.
    split_and!; try done; [apply Hs1|apply Hs1|left; lia]. }
  assert (length (drop n value) = S (length rest)) as El by (by rewrite Edrop). rewrite length_drop in El. rewrite <-Edrop.
  destruct (from_pool_run i timeout wait s1 H dead a l p (zlen (drop n value)) Hs1 Hp1 Hd Hi Hmax ltac:(rewrite length_drop; lia)) as (r & s2 & E2 & Hr). go E2.
  destruct r as [[c|]|].
  2, 3: destruct Hr as (Eb2 & Hpl2 & Hnf); eexists _, s2, dead, [], n; split; [reflexivity|]; rewrite app_nil_r, Eb2; split_and!; try done; [apply Hs1|by right].
  destruct Hr as (s3 & d3 & b3 & E3 & Hs3 & Hd3 & Hp3 & Hb3 & Hc3 & Hroom3 & p3 & Hi3 & Hmax3). go E3.
  destruct (IH timeout wait (drop n value) (added + Z.of_nat n) s3 H d3 a (l ++ [c]) c b3 i p3) as (r & s4 & d4 & lz & k & E4 & Hs4 & Hd4 & Hp4 & Hb4 & Hk & Hres & Hall); try done.
  - by rewrite last_snoc.
  - by apply Forall_drop.
  - rewrite length_drop. destruct (decide (0 < bt_buf_simple_tailroom (bb_b b3))) as [_|]; [|done].
    destruct (decide (0 < bt_buf_simple_tailroom (bb_b b))) as [Ht|Ht]; [|lia]. destruct Hroom as [?|[->|?]]; [lia|cbn in El; lia|lia].
  - rewrite <-app_assoc in Hp4, Hb4. exists r, s4, d4, (c :: lz), (n + k)%nat. split; [exact E4|]. rewrite length_drop in Hk. split_and!; try done; [apply Hs4|apply Hs4| |lia| |].
    + change (l ++ c :: lz) with (l ++ [c] ++ lz). rewrite Hb4, Hb3, Hb1, <-app_assoc. f_equal. by rewrite take_take_drop.
    + destruct r; [lia|done].
    + destruct Hall as [Hall|?]; [left; rewrite Hall, length_drop; lia|by right].
Qed.

(** [bt_buf_append_bytes] writes the value behind the chain, all of it unless its pool has no
    free buffer. *)
Lemma append_bytes_run timeout wait value s H dead a b l p : sound s H dead -> path (s_bufs s) (Some a) l -> s_bufs s !! a = Some b -> a ∉ dead -> Forall is_byte value ->
  s_pools s !! bb_pool b = Some p -> 0 < bp_max p ->
  exists r s' dead' lz n, bt_buf_append_bytes noinit a value timeout wait None s = Some (r, s') /\ sound s' H dead' /\
    path (s_bufs s') (Some a) (l ++ lz) /\ bytes_of (s_bufs s') (l ++ lz) = bytes_of (s_bufs s) l ++ take n value /\ (n <= length value)%nat /\
    match r with Some k => k = Z.of_nat n | None => True end /\ (n = length value \/ none_free s' (bb_pool b) dead').
Proof.
  intros Hs Hp Hb Hd Hby Hi Hmax. destruct (path_has_last _ _ _ Hp) as [z Hz]. destruct (path_last _ _ _ _ Hp Hz) as (x & Hx & _).
  unfold bt_buf_append_bytes. go (frag_last_run s a l z Hp Hz). go (buf_at_run a b s Hb).
  destruct (append_loop_run (length value + 2) timeout wait value 0 s H dead a l z x (bb_pool b) p) as (r & s' & d' & lz & n & E & Hs' & _ & Hp' & Hb' & Hn & Hr & Hall); try done.
  { destruct (decide _); lia. }
  by exists r, s', d', lz, n.
Qed.

End Append.
