(* ===== verification/BtBufRun.v ===== *)
(** Clients of pools of buffers: whatever they do with the buffers that they have references
    to, the counts are exact, no assertion fails and no walk runs on. *)

From stdpp Require Import gmap gmultiset.
From S2P Require Import Prelude Byteorder BufSimple Slist Queue BtBuf BtBufRefs BtBufOps BtBufChain BtBufBytes BtBufGrow.

(** The operations, with their arguments. *)
Inductive client_op :=
| BAlloc (pool : nat) (size timeout : Z) (wait : option Z)
| BAllocData (pool : nat) (data : list Z) (size timeout : Z) (wait : option Z)
| BRef (buf : Z)
| BUnref (buf : Z)
| BClone (buf timeout : Z) (wait : option Z)
| BUserCopy (dst src : Z)
| BFragInsert (parent frag : Z)
| BFragAdd (head : ptr) (frag : Z)
| BFragDel (parent : ptr) (frag : Z)
| BSkip (buf : ptr) (len : Z)
| BAppend (buf : Z) (value : list Z) (timeout : Z) (wait : option Z)
| BReserve (buf reserve : Z)
| BWindow (buf : Z) (op : buf_op)
| BLinearize (dst_len : Z) (src : ptr) (offset len : Z)
| BMatch (buf : Z) (offset : Z) (data : list Z) (len : Z)
| BFragsLen (buf : ptr).

(** What they answer. *)
Inductive client_out := RNone | RAlloc (r : alloc_result) | RPtr (p : ptr) | RNum (n : Z) | RBytes (bs : list Z) | RAdded (n : option Z) | RWindow (o : buf_out).

Section Run.

Context (noinit : Z -> bt_buf) (destroy : Z -> BM unit).
Context (Hdestroy : forall a s, destroy a s = bt_buf_destroy a s).

Definition client_do (op : client_op) : BM client_out :=
  match op with
  | BAlloc i size timeout wait => r ← bt_buf_alloc_len noinit i size timeout wait; mret (RAlloc r)
  | BAllocData i data size timeout wait => r ← bt_buf_alloc_with_data noinit i data size timeout wait; mret (RAlloc r)
  | BRef a => r ← bt_buf_ref a; mret (RPtr (Some r))
  | BUnref a => _ ← bt_buf_unref destroy a; mret RNone
  | BClone a timeout wait => r ← bt_buf_clone noinit a timeout wait; mret (RAlloc r)
  | BUserCopy dst src => r ← bt_buf_user_data_copy dst src; mret (RNum r)
  | BFragInsert p f => _ ← bt_buf_frag_insert p f; mret RNone
  | BFragAdd h f => r ← bt_buf_frag_add h f; mret (RPtr (Some r))
  | BFragDel p f => r ← bt_buf_frag_del destroy p f; mret (RPtr r)
  | BSkip buf len => r ← bt_buf_skip destroy buf len; mret (RPtr r)
  | BAppend a value timeout wait => r ← bt_buf_append_bytes noinit a value timeout wait None; mret (RAdded r)
  | BReserve a n => _ ← bt_buf_reserve n a; mret RNone
  | BWindow a o => b ← buf_at a; '(r, x) ← lift (run_op o (bb_b b)); _ ← put_buf a (b <| bb_b := x |>); mret (RWindow r)
  | BLinearize dst_len src offset len => r ← bt_buf_linearize dst_len src offset len; mret (RBytes r)
  | BMatch a offset data len => r ← bt_buf_data_match (Some a) offset (Some data) len; mret (RNum r)
  | BFragsLen buf => r ← bt_buf_frags_len buf; mret (RNum r)
  end.

(** The references that the clients have afterwards. *)
Definition client_has (op : client_op) (out : client_out) (H : handles) : handles :=
  match op, out with
  | (BAlloc _ _ _ _ | BAllocData _ _ _ _ _ | BClone _ _ _), RAlloc (Got p) => held p ⊎ H
  | BRef a, _ | BFragAdd None a, _ => {[+ a +]} ⊎ H
  | BUnref a, _ | BFragInsert _ a, _ | BFragAdd (Some _) a, _ => H ∖ {[+ a +]}
  | BFragDel None f, RPtr p => held p ⊎ (H ∖ {[+ f +]})
  | BSkip buf _, RPtr p => held p ⊎ (H ∖ held buf)
  | _, _ => H
  end.

(** A client has a reference to the buffer, or to one that has it among its fragments. *)
Definition reaches (m : bufs) (H : handles) (a : Z) : Prop := exists h l, h ∈ H /\ path m (Some h) l /\ a ∈ l.
Definition chain_of (m : bufs) (p : ptr) (bs : list Z) : Prop := exists l, path m p l /\ bytes_of m l = bs.
Definition reaches_ptr (m : bufs) (H : handles) (p : ptr) : Prop := forall a, p = Some a -> reaches m H a.
Definition window_at (m : bufs) (a : Z) (P : bt_buf -> Prop) : Prop := exists b, m !! a = Some b /\ P b.
(** Two chains have no buffer in common. *)
Definition apart (m : bufs) (a b : Z) : Prop := forall la lb, path m (Some a) la -> path m (Some b) lb -> forall x, x ∈ la -> x ∉ lb.

(** What the clients have to see to. *)
Definition client_may (op : client_op) (s : buf_state) (H : handles) : Prop :=
  let m := s_bufs s in
  match op with
  | BAlloc i size _ _ => exists p, s_pools s !! i = Some p /\ 0 <= size <= bp_max p
  | BAllocData i data size _ _ => is_Some (s_pools s !! i) /\ Forall is_byte data /\ 0 <= size <= zlen data /\ size <= UINT16_MAX
  | BRef a => a ∈ H /\ window_at m a (fun b => bb_ref b < 255)
  | BUnref a => a ∈ H
  | BClone a _ _ => reaches m H a
  | BUserCopy dst src => reaches m H dst /\ reaches m H src
  | BFragInsert p f => f ∈ H /\ reaches m H p /\ apart m p f
  | BFragAdd None f => reaches m H f /\ window_at m f (fun b => bb_ref b < 255)
  | BFragAdd (Some h) f => f ∈ H /\ reaches m H h /\ apart m h f
  | BFragDel (Some p) f => reaches m H p /\ window_at m p (fun b => bb_frags b = Some f)
  | BFragDel None f => f ∈ H
  | BSkip buf len => (forall a, buf = Some a -> a ∈ H) /\ forall l, path m buf l -> nonempty m l
  | BAppend a value _ _ => reaches m H a /\ Forall is_byte value /\ window_at m a (fun b => exists p, s_pools s !! bb_pool b = Some p /\ 0 < bp_max p)
  | BReserve a n => reaches m H a /\ window_at m a (fun b => b_len (bb_b b) = 0 /\ 0 <= n <= b_size (bb_b b))
  | BWindow a o => reaches m H a /\ op_typed o /\ window_at m a (fun b => is_Some (run_op o (bb_b b)))
  | BLinearize dst_len src offset len => reaches_ptr m H src /\ 0 <= dst_len /\ 0 <= offset /\ 0 <= len
  | BMatch a offset data len => reaches m H a /\ 0 <= offset /\ 0 <= len <= zlen data
  | BFragsLen buf => reaches_ptr m H buf
  end.

(** Every buffer of the pool has been given out, and somebody has a reference to it. *)
Definition all_taken (s : buf_state) (H : handles) (i : nat) : Prop :=
  forall p a, s_pools s !! i = Some p -> in_range p a -> is_Some (s_bufs s !! a) /\ (0 < refs (s_bufs s) H a)%nat.

(** When a pool has nothing to give, and what the operations on chains do to their bytes. *)
Definition client_sees (op : client_op) (out : client_out) (s s' : buf_state) (H : handles) : Prop :=
  let m := s_bufs s in
  let m' := s_bufs s' in
  match op, out with
  | (BAlloc i _ _ _ | BAllocData i _ _ _ _), RAlloc r => match r with Got (Some a) => ~ reaches m H a | _ => all_taken s H i end
  | BClone a _ _, RAlloc (Got (Some c)) => content_at m' c = content_at m a
  | BFragInsert p f, RNone => forall bs fs, chain_of m (Some p) bs -> chain_of m (Some f) fs ->
      chain_of m' (Some p) (content_at m p ++ fs ++ drop (length (content_at m p)) bs)
  | BFragAdd (Some h) f, RPtr p => p = Some h /\ forall bs fs, chain_of m (Some h) bs -> chain_of m (Some f) fs -> chain_of m' p (bs ++ fs)
  | BFragDel None f, RPtr p => forall bs, chain_of m (Some f) bs -> chain_of m' p (drop (length (content_at m f)) bs)
  | BSkip buf len, RPtr p => forall bs, chain_of m buf bs -> chain_of m' p (drop (Z.to_nat len) bs)
  | BAppend a value _ _, RAdded r => forall bs, chain_of m (Some a) bs -> exists n, chain_of m' (Some a) (bs ++ take n value) /\ (n <= length value)%nat /\
      match r with Some k => k = Z.of_nat n | None => True end
  | BLinearize dst_len src offset len, RBytes r => forall bs, chain_of m src bs -> r = take (Z.to_nat (Z.min len dst_len)) (drop (Z.to_nat offset) bs)
  | BMatch a offset data len, RNum r => forall bs, chain_of m (Some a) bs -> r = Z.of_nat (lcp data (take (Z.to_nat len) (drop (Z.to_nat offset) bs)))
  | BFragsLen buf, RNum r => forall bs, chain_of m buf bs -> r = u64 (zlen bs)
  | _, _ => True
  end.

(** ** Each operation *)

Lemma take_handle (H : handles) a : a ∈ H -> {[+ a +]} ⊎ (H ∖ {[+ a +]}) = H.
Proof. intros Ha. rewrite <-gmultiset_disj_union_difference; [done|]. by apply gmultiset_singleton_subseteq_l. Qed.
Lemma reaches_live s H dead a : counted (s_bufs s) H dead -> reaches (s_bufs s) H a -> a ∉ dead.
Proof.
  intros Hc (h & l & Hh & Hl & Ha). destruct (counted_handle _ _ _ h Hc Hh) as (_ & _ & Hd).
  eapply (counted_path _ _ _ _ _ Hc Hl); [by intros ? [= <-]|done].
Qed.
Lemma reaches_path s H a : reaches (s_bufs s) H a -> exists b l, s_bufs s !! a = Some b /\ path (s_bufs s) (Some a) (a :: l).
Proof.
  intros (h & l & _ & Hl & Ha). destruct (path_in _ _ _ _ Hl Ha) as (pre & post & _ & Hp). destruct (path_some _ _ _ Hp) as (b & ? & Hb & _).
  by exists b, post.
Qed.
Lemma chain_fun m p l bs : path m p l -> chain_of m p bs -> bytes_of m l = bs.
Proof. intros Hl (l' & Hl' & <-). by rewrite (path_fun _ _ _ _ Hl Hl'). Qed.

(** An operation in a sound state. *)
Definition runs (op : client_op) (s : buf_state) (H : handles) : Prop :=
  exists out s' dead', client_do op s = Some (out, s') /\ sound s' (client_has op out H) dead' /\ client_sees op out s s' H.

Lemma all_taken_run s H dead i p : sound s H dead -> s_pools s !! i = Some p -> bp_uninit p = 0 -> none_free s i dead -> all_taken s H i.
Proof.
  intros [Hc Hpl] Hp Hu Hn q a Hq Hr. assert (q = p) as -> by congruence. destruct (p_init _ _ _ Hpl i p a Hp) as (b & Hb & Ei); [unfold in_use, in_range in *; lia|].
  split; [by eexists|]. by apply (c_live _ _ _ Hc a b Hb), (Hn a b).
Qed.
Lemma new_unreached s H dead a : sound s H dead -> s_bufs s !! a = None \/ a ∈ dead -> ~ reaches (s_bufs s) H a.
Proof.
  intros [Hc _] Hnew Hr. pose proof (reaches_live _ _ _ _ Hc Hr) as Hd. destruct (reaches_path _ _ _ Hr) as (b & _ & Hb & _). destruct Hnew; [congruence|done].
Qed.

Lemma alloc_runs i size timeout wait s H dead : sound s H dead -> client_may (BAlloc i size timeout wait) s H -> runs (BAlloc i size timeout wait) s H.
Proof.
  intros Hs (p & Hp & Hsz). destruct (alloc_len_run noinit i size timeout wait s H dead p (proj1 Hs) (proj2 Hs) Hp Hsz) as (r & s' & E & _ & Hr).
  exists (RAlloc r), s'. cbn [client_do client_has client_sees]. destruct r as [[a|]|].
  - destruct Hr as (b & Hnew & _ & _ & Hs'). exists (dead ∖ {[a]}). split; [by go E|]. split; [done|]. by eapply new_unreached.
  - destruct Hr as (Eb & Hpl' & Hu & Hn). exists dead. split; [by go E|]. cbn [held]. rewrite (left_id_L ∅ (⊎)), Eb. split; [by destruct Hs|]. by eapply all_taken_run.
  - destruct Hr as (Eb & Hpl' & Hu & Hn). exists dead. split; [by go E|]. rewrite Eb. split; [by destruct Hs|]. by eapply all_taken_run.
Qed.

Lemma alloc_data_runs i data size timeout wait s H dead : sound s H dead -> client_may (BAllocData i data size timeout wait) s H ->
  runs (BAllocData i data size timeout wait) s H.
Proof.
  intros Hs ((p & Hp) & Hby & Hsz & Hmax). pose proof Hs as [Hc Hpl]. pose proof (p_pool _ _ _ Hpl i p Hp) as [_ Hpm _ _].
  destruct (alloc_len_run noinit i 0 timeout wait s H dead p Hc Hpl Hp ltac:(lia)) as (r & s1 & E & Hal & Hr).
  unfold runs. cbn [client_do client_sees]. unfold bt_buf_alloc_with_data. destruct r as [[a|]|].
  2, 3: destruct Hr as (Eb & Hpl' & Hu & Hn); eexists _, s1, dead; split; [erewrite bm_bind by (go E; reflexivity); reflexivity|]; split;
    [cbn [client_has held]; rewrite ?(left_id_L ∅ (⊎)), Eb; done|by eapply all_taken_run].
  destruct Hr as (b & Hnew & Eb & Hfb & Hc1 & Hpl1). set (d1 := dead ∖ {[a]}) in *. assert (s_bufs s1 !! a = Some b) as Ha by (by rewrite Eb, lookup_insert_eq).
  set (b2 := b <| bb_has_data := true |> <| bb_b := bt_buf_simple_init_with_data data size |>). set (b3 := b2 <| bb_flags := BT_BUF_EXTERNAL_DATA |>).
  set (s2 := s1 <| s_bufs ::= <[a := b2]> |>). assert (s_bufs s2 !! a = Some b2) as Ha2 by apply lookup_insert_eq.
  eexists _, (s2 <| s_bufs ::= <[a := b3]> |>), d1. split.
  { erewrite bm_bind; [reflexivity|]. go E. cbv iota beta. erewrite bm_bind by (by apply upd_buf_run). erewrite bm_bind by (by apply (upd_buf_run a _ b2)). reflexivity. }
  split; [|by eapply new_unreached]. destruct (p_buf _ _ _ Hpl1 a b Ha) as (p1 & Hp1 & Hu & Hud & _).
  assert (s2 <| s_bufs ::= <[a := b3]> |> = s1 <| s_bufs ::= <[a := b3]> |>) as -> by (apply state_eq; [done|by apply insert_insert_eq|done]).
  split; [by eapply counted_same|]. eapply placed_buf; [exact Hpl1|exact Ha|exact Hp1|done|done| |done]. intros _. split; [|done].
  unfold UINT16_MAX in *. split; cbn; rewrite ?u16_id by lia; unfold UINT16_MAX; try lia. done.
Qed.

Lemma ref_sound a b s H dead : sound s H dead -> s_bufs s !! a = Some b -> a ∉ dead -> bb_ref b < 255 ->
  exists s', bt_buf_ref a s = Some (a, s') /\ sound s' ({[+ a +]} ⊎ H) dead.
Proof.
  intros [Hc Hpl] Ha Hd Hlt. destruct (p_buf _ _ _ Hpl a b Ha) as (p & Hp & _ & _ & Hf). unfold bt_buf_ref.
  erewrite bm_bind by (by apply upd_buf_run). eexists. split; [reflexivity|]. split; [exact (counted_ref _ _ _ _ _ Hc Ha Hd Hlt)|].
  eapply placed_buf; [exact Hpl|exact Ha|exact Hp|done|done| |done]. intros Hn. by destruct (Hf Hn).
Qed.
Lemma ref_runs a s H dead : sound s H dead -> client_may (BRef a) s H -> runs (BRef a) s H.
Proof.
  intros Hs (Ha & b & Hb & Hlt). destruct (counted_handle _ _ _ a (proj1 Hs) Ha) as (_ & _ & Hd).
  destruct (ref_sound a b s H dead Hs Hb Hd Hlt) as (s' & E & Hs'). exists (RPtr (Some a)), s', dead. split; [|done]. cbn [client_do]. by go E.
Qed.
Lemma unref_runs a s H dead : sound s H dead -> client_may (BUnref a) s H -> runs (BUnref a) s H.
Proof.
  intros [Hc Hpl] Ha. cbn in Ha. destruct (c_path _ _ _ Hc a (c_handle _ _ _ Hc a Ha)) as [l Hl]. rewrite <-(take_handle H a Ha) in Hc.
  destruct (unref_run destroy Hdestroy a s _ dead l Hc Hpl Hl) as (s' & d' & E & Hc' & Hpl' & _). exists RNone, s', d'. split; [|done]. cbn [client_do]. by go E.
Qed.
Lemma clone_runs a timeout wait s H dead : sound s H dead -> client_may (BClone a timeout wait) s H -> runs (BClone a timeout wait) s H.
Proof.
  intros Hs Ha. pose proof (reaches_live _ _ _ _ (proj1 Hs) Ha) as Hd. destruct (reaches_path _ _ _ Ha) as (b & l & Hb & _).
  destruct (clone_run noinit a timeout wait s H dead b Hs Hb Hd) as (r & s' & d' & E & Hr). exists (RAlloc r), s', d'.
  split; [cbn [client_do]; by go E|]. destruct r as [[c|]|]; cbn [client_has client_sees held] in *.
  - destruct Hr as [Hs' Hct]. split; [done|]. rewrite Hct. unfold content_at. by rewrite Hb.
  - rewrite (left_id_L ∅ (⊎)). done.
  - done.
Qed.
Lemma user_copy_runs dst src s H dead : sound s H dead -> client_may (BUserCopy dst src) s H -> runs (BUserCopy dst src) s H.
Proof.
  intros [Hc Hpl] [Hd Hsr]. destruct (reaches_path _ _ _ Hd) as (d & ? & Hdb & _). destruct (reaches_path _ _ _ Hsr) as (b & ? & Hb & _).
  unfold runs. cbn [client_do client_sees]. unfold bt_buf_user_data_copy. destruct (dst =? src); [by eexists _, s, dead|].
  destruct (bb_ud_size d <? bb_ud_size b) eqn:El.
  - eexists _, s, dead. split; [|done]. erewrite bm_bind by (go (buf_at_run dst d s Hdb); go (buf_at_run src b s Hb); rewrite El; reflexivity). reflexivity.
  - destruct (p_buf _ _ _ Hpl dst d Hdb) as (p & Hp & _ & _ & Hf).
    eexists _, (s <| s_bufs ::= <[dst := d <| bb_user := bb_user b ++ drop (length (bb_user b)) (bb_user d) |>]> |>), dead.
    split; [erewrite bm_bind by (go (buf_at_run dst d s Hdb); go (buf_at_run src b s Hb); rewrite El; reflexivity); reflexivity|]. split; [|done].
    split; [by eapply counted_same|]. eapply placed_buf; [exact Hpl|exact Hdb|exact Hp|done|done| |done]. intros Hn. by destruct (Hf Hn).
Qed.

(** ** Chains *)

Lemma frag_insert_runs p f s H dead : sound s H dead -> client_may (BFragInsert p f) s H -> runs (BFragInsert p f) s H.
Proof.
  intros Hs (Hf & Hp & Hap). pose proof (reaches_live _ _ _ _ (proj1 Hs) Hp) as Hd. destruct (reaches_path _ _ _ Hp) as (b & lp & Hb & Hlp).
  destruct (c_path _ _ _ (proj1 Hs) f (c_handle _ _ _ (proj1 Hs) f Hf)) as [lf Hlf]. rewrite <-(take_handle H f Hf) in Hs.
  destruct (insert_run s _ dead p f lp lf Hs Hd Hlp Hlf (Hap _ _ Hlp Hlf)) as (s' & E & Hs' & Hre & Hp' & _).
  exists RNone, s', dead. split; [cbn [client_do]; by go E|]. split; [done|]. intros bs fs Hbs Hfs. exists (p :: lf ++ lp). split; [done|].
  apply (chain_fun _ _ _ _ Hlp) in Hbs as <-. apply (chain_fun _ _ _ _ Hlf) in Hfs as <-.
  rewrite (relinked_bytes _ _ _ Hre), !bytes_of_cons, bytes_app, drop_app_length. done.
Qed.
Lemma frag_add_runs h f s H dead : sound s H dead -> client_may (BFragAdd h f) s H -> runs (BFragAdd h f) s H.
Proof.
  intros Hs Hmay. destruct h as [h|].
  - destruct Hmay as (Hf & Hh & Hap). pose proof (reaches_live _ _ _ _ (proj1 Hs) Hh) as Hd. destruct (reaches_path _ _ _ Hh) as (b & lh & Hb & Hlh).
    destruct (c_path _ _ _ (proj1 Hs) f (c_handle _ _ _ (proj1 Hs) f Hf)) as [lf Hlf]. rewrite <-(take_handle H f Hf) in Hs.
    destruct (frag_add_run s _ dead h f _ lf Hs Hd Hlh Hlf (Hap _ _ Hlh Hlf)) as (s' & E & Hs' & Hre & Hp').
    exists (RPtr (Some h)), s', dead. split; [cbn [client_do]; by go E|]. split; [done|]. split; [done|]. intros bs fs Hbs Hfs. eexists. split; [exact Hp'|].
    apply (chain_fun _ _ _ _ Hlh) in Hbs as <-. apply (chain_fun _ _ _ _ Hlf) in Hfs as <-. by rewrite (relinked_bytes _ _ _ Hre), bytes_app.
  - destruct Hmay as (Hf & b & Hb & Hlt). pose proof (reaches_live _ _ _ _ (proj1 Hs) Hf) as Hd.
    destruct (ref_sound f b s H dead Hs Hb Hd Hlt) as (s' & E & Hs'). exists (RPtr (Some f)), s', dead. split; [|done]. cbn [client_do bt_buf_frag_add]. by go E.
Qed.
Lemma frag_del_runs p f s H dead : sound s H dead -> client_may (BFragDel p f) s H -> runs (BFragDel p f) s H.
Proof.
  intros Hs Hmay. destruct p as [p|].
  - destruct Hmay as (Hp & b & Hb & Hf). pose proof (reaches_live _ _ _ _ (proj1 Hs) Hp) as Hd. destruct (reaches_path _ _ _ Hp) as (b' & lp & Hb' & Hlp).
    destruct (path_some _ _ _ Hlp) as (b0 & l0 & Hb0 & [= <-] & Hl0). assert (b0 = b) as -> by congruence. rewrite Hf in Hl0.
    destruct (path_some _ _ _ Hl0) as (x & l & _ & -> & _).
    destruct (del_frag_run destroy Hdestroy s H dead p f l Hs Hd Hlp) as (nx & s' & d' & E & Hs' & _). exists (RPtr nx), s', d'. split; [cbn [client_do]; by go E|done].
  - cbn in Hmay. destruct (c_path _ _ _ (proj1 Hs) f (c_handle _ _ _ (proj1 Hs) f Hmay)) as [lf Hlf]. destruct (path_some _ _ _ Hlf) as (x & l & Hx & -> & _).
    rewrite <-(take_handle H f Hmay) in Hs. destruct (del_head_run destroy Hdestroy s _ dead f l Hs Hlf) as (nx & s' & d' & E & Hs' & Hl & Hsame).
    exists (RPtr nx), s', d'. split; [cbn [client_do]; by go E|]. split; [done|]. intros bs Hbs. exists l. split; [done|].
    apply (chain_fun _ _ _ _ Hlf) in Hbs as <-. rewrite bytes_of_cons, drop_app_length. apply bytes_ext. intros a Ha. pose proof (path_nodup _ _ _ Hlf) as [Hn _]%NoDup_cons.
    unfold content_at. by rewrite (proj1 (Hsame a ltac:(by intros ->))).
Qed.
Lemma skip_runs p len s H dead : sound s H dead -> client_may (BSkip p len) s H -> runs (BSkip p len) s H.
Proof.
  intros Hs [Hp Hne]. assert (exists l, path (s_bufs s) p l) as [l Hl].
  { destruct p as [a|]; [|exists []; constructor]. apply (c_path _ _ _ (proj1 Hs)), (c_handle _ _ _ (proj1 Hs)). by apply Hp. }
  assert (held p ⊎ (H ∖ held p) = H) as EH by (destruct p as [a|]; [by apply take_handle, Hp|cbn [held]; multiset_solver]).
  rewrite <-EH in Hs. destruct (skip_run destroy Hdestroy (Z.to_nat len) p l s _ dead Hs Hl (Hne l Hl)) as (p' & s' & d' & l' & E & Hs' & Hp' & Hb & _).
  exists (RPtr p'), s', d'. split; [cbn [client_do]; unfold bt_buf_skip; by go E|]. split; [done|]. intros bs Hbs. exists l'. split; [done|].
  by apply (chain_fun _ _ _ _ Hl) in Hbs as <-.
Qed.
Lemma append_runs a value timeout wait s H dead : sound s H dead -> client_may (BAppend a value timeout wait) s H -> runs (BAppend a value timeout wait) s H.
Proof.
  intros Hs (Ha & Hby & b & Hb & p & Hp & Hmax). pose proof (reaches_live _ _ _ _ (proj1 Hs) Ha) as Hd. destruct (reaches_path _ _ _ Ha) as (b' & l & Hb' & Hl).
  destruct (append_bytes_run noinit timeout wait value s H dead a b (a :: l) p Hs Hl Hb Hd Hby Hp Hmax) as (r & s' & d' & lz & n & E & Hs' & Hp' & Hbs' & Hn & Hr & _).
  exists (RAdded r), s', d'. split; [cbn [client_do]; by go E|]. split; [done|]. intros bs Hbs. apply (chain_fun _ _ _ _ Hl) in Hbs as <-. exists n. split; [by eexists|done].
Qed.

(** ** Windows *)

Lemma reserve_runs a n s H dead : sound s H dead -> client_may (BReserve a n) s H -> runs (BReserve a n) s H.
Proof.
  intros Hs (Ha & b & Hb & Hl & Hn). pose proof (reaches_live _ _ _ _ (proj1 Hs) Ha) as Hd. pose proof (live_wf s dead a b (proj2 Hs) Hb Hd) as [].
  exists RNone. eexists. exists dead. split.
  { cbn [client_do]. unfold bt_buf_reserve, on_b. erewrite bm_bind; [reflexivity|]. go (buf_at_run a b s Hb). unfold bt_buf_simple_reserve. rewrite Hl. reflexivity. }
  split; [|done]. apply sound_window; [done|done| |done]. split; cbn; try done; lia.
Qed.
Lemma window_runs a o s H dead : sound s H dead -> client_may (BWindow a o) s H -> runs (BWindow a o) s H.
Proof.
  intros Hs (Ha & Ho & b & Hb & [r x] & Er). pose proof (reaches_live _ _ _ _ (proj1 Hs) Ha) as Hd. pose proof (live_wf s dead a b (proj2 Hs) Hb Hd) as Hw.
  pose proof (run_op_refines o (bb_b b) Hw Ho) as Hr. rewrite Er in Hr. unfold refines in Hr. destruct (view_op _ _) as [[? ?]|]; [|done]. destruct Hr as (_ & Hwx & _).
  exists (RWindow r). eexists. exists dead. split; [cbn [client_do]; go (buf_at_run a b s Hb); go (lift_run _ _ s Er); reflexivity|]. split; [|done].
  apply sound_window; [done|done|done|]. by eapply run_op_store.
Qed.

Lemma reaches_chain s H p : (forall a, p = Some a -> reaches (s_bufs s) H a) -> exists l, path (s_bufs s) p l.
Proof. intros Hp. destruct p as [a|]; [|exists []; constructor]. destruct (reaches_path s H a (Hp a eq_refl)) as (b & l & _ & Hl). by exists (a :: l). Qed.
Lemma reads_runs op s H dead : sound s H dead -> match op with BLinearize _ _ _ _ | BMatch _ _ _ _ | BFragsLen _ => True | _ => False end -> client_may op s H -> runs op s H.
Proof.
  intros Hs Hop Hmay. assert (forall p, reaches_ptr (s_bufs s) H p -> forall a, p = Some a -> a ∉ dead) as Hlive by (intros p Hp a Ea; by apply (reaches_live s H), Hp; [apply Hs|]).
  destruct op; try done.
  - destruct Hmay as (Hp & Hd & Ho & Hl). destruct (reaches_chain s H src Hp) as [l Hpl].
    pose proof (linearize_run s H dead dst_len src l offset len Hs Hpl (Hlive _ Hp) Ho Hl Hd) as E. eexists _, s, dead. split; [cbn [client_do]; go E; reflexivity|].
    split; [done|]. intros bs Hbs. by apply (chain_fun _ _ _ _ Hpl) in Hbs as <-.
  - destruct Hmay as (Hp & Ho & Hl). destruct (reaches_path _ _ _ Hp) as (b & l & _ & Hpl).
    pose proof (data_match_run s H dead buf (buf :: l) offset data len Hs Hpl (reaches_live _ _ _ _ (proj1 Hs) Hp) Ho Hl) as E. eexists _, s, dead.
    split; [cbn [client_do]; go E; reflexivity|]. split; [done|]. intros bs Hbs. by apply (chain_fun _ _ _ _ Hpl) in Hbs as <-.
  - destruct (reaches_chain s H buf Hmay) as [l Hpl]. pose proof (frags_len_run s H dead buf l Hs Hpl (Hlive _ Hmay)) as E. eexists _, s, dead.
    split; [cbn [client_do]; go E; reflexivity|]. split; [done|]. intros bs Hbs. by apply (chain_fun _ _ _ _ Hpl) in Hbs as <-.
Qed.

Lemma client_runs op s H dead : sound s H dead -> client_may op s H -> runs op s H.
Proof.
  intros Hs Hmay. destruct op; [by eapply alloc_runs|by eapply alloc_data_runs|by eapply ref_runs|by eapply unref_runs|by eapply clone_runs|by eapply user_copy_runs
    |by eapply frag_insert_runs|by eapply frag_add_runs|by eapply frag_del_runs|by eapply skip_runs|by eapply append_runs|by eapply reserve_runs|by eapply window_runs
    |by eapply reads_runs..].
Qed.

(** * Runs *)

(** Pools that are defined with [BT_BUF_POOL_FIXED_DEFINE], nothing given out yet. *)
Record fresh_pools (s : buf_state) : Prop := {
  fp_pool : forall i p, s_pools s !! i = Some p -> pool_ok p /\ bp_uninit p = bp_count p /\ bp_free p = empty_queue;
  fp_disj : forall i j p q a, s_pools s !! i = Some p -> s_pools s !! j = Some q -> in_range p a -> in_range q a -> i = j;
  fp_nodes : forall i p a, s_pools s !! i = Some p -> in_range p a -> is_Some (s_nodes s !! a);
  fp_bufs : s_bufs s = ∅
}.
Lemma fresh_sound s : fresh_pools s -> sound s (∅ : handles) ∅.
Proof.
  intros [Hp Hd Hn Hb]. rewrite Hb. split; split; cbn.
  - intros a Ha. set_solver.
  - intros a b Ha. by rewrite lookup_empty in Ha.
  - intros a Ha. multiset_solver.
  - intros a [b Ha]. by rewrite lookup_empty in Ha.
  - intros i p Hi. by apply (Hp i).
  - exact Hd.
  - intros a b Ha. rewrite Hb in Ha. by rewrite lookup_empty in Ha.
  - intros i p a Hi Hu. destruct (Hp i p Hi) as (_ & E & _). unfold in_use in Hu. lia.
  - exact Hn.
  - intros i p Hi. destruct (Hp i p Hi) as (_ & _ & ->). exists []. split; [split_and!; [done|done|constructor]|]. intros a. split; [by intros ?%elem_of_nil|set_solver].
  - set_solver.
Qed.

Inductive client_step : buf_state * handles -> buf_state * handles -> Prop :=
| client_does op out s H s' : client_may op s H -> client_do op s = Some (out, s') -> client_step (s, H) (s', client_has op out H).

Lemma run_sound w w' : rtc client_step w w' -> (exists dead, sound w.1 w.2 dead) -> exists dead, sound w'.1 w'.2 dead.
Proof.
  induction 1 as [|w1 w2 w3 H12 _ IH]; [done|]. intros [dead Hs]. apply IH. inversion H12 as [op out s H s' Hmay E]; subst.
  destruct (client_runs op s H dead Hs Hmay) as (out' & s1 & d' & E' & Hs' & _). rewrite E in E'. injection E' as <- <-. by exists d'.
Qed.

(** Whoever has a reference to a buffer has it from a client in the end. *)
Lemma live_reached m H dead : counted m H dead -> forall n a b l, m !! a = Some b -> a ∉ dead -> path m (Some a) l -> (size m - length l < n)%nat -> reaches m H a.
Proof.
  intros Hc. induction n as [|n IH]; intros a b l Ha Hd Hl Hn; [lia|]. destruct (c_live _ _ _ Hc a b Ha Hd) as (Hr & _). unfold refs in Hr.
  destruct (decide (a ∈ H)) as [Hin|Hin].
  - exists a, l. split; [done|]. split; [done|]. destruct (path_some _ _ _ Hl) as (? & ? & _ & -> & _). by left.
  - assert (0 < preds m a)%nat as Hp by (rewrite elem_of_multiplicity in Hin; lia). destruct (preds_some m a Hp) as (k & x & Hk & Hx).
    assert (path m (Some k) (k :: l)) as Hkl by (econstructor; [done|by rewrite Hx]).
    assert (k ∉ dead) as Hkd by (intros Hkd; destruct (c_dead _ _ _ Hc k Hkd) as (? & ? & _ & ?); congruence). pose proof (path_length _ _ _ Hkl) as Hlen. cbn [length] in Hlen.
    destruct (IH k x (k :: l) Hk Hkd Hkl) as (h & lh & Hh & Hlh & Hin'); [cbn; lia|]. exists h, lh. split; [done|]. split; [done|].
    destruct (path_in _ _ _ _ Hlh Hin') as (pre & post & -> & Hpost). rewrite (path_fun _ _ _ _ Hpost Hkl). apply elem_of_app. right. right.
    destruct (path_some _ _ _ Hl) as (? & ? & _ & -> & _). by left.
Qed.


End Run.
