(* ===== verification/BtBufSample.v ===== *)
(** A pool of four buffers of three bytes: a message over several fragments, and what happens
    outside the conditions that clients have to see to. *)

From stdpp Require Import gmap gmultiset.
From S2P Require Import Prelude Byteorder BufSimple Slist Queue BtBuf BtBufRefs BtBufOps BtBufChain BtBufBytes BtBufGrow BtBufRun.

Definition sample_noinit (a : Z) : bt_buf := mk_bt_buf None 77 77 9 0 false (mk_buf [] 0 77 77) [].
Definition buf_pool : bt_buf_pool := BT_BUF_POOL_INITIALIZER 4 3 1 false 100 (replicate 4 [0; 0; 0]).
Definition no_bufs : buf_state := mk_buf_state [buf_pool] ∅ (list_to_map (map (fun a => (a, None)) [100; 101; 102; 103])).

Notation sample_do := (client_do sample_noinit bt_buf_destroy).
Notation sample_step := (client_step sample_noinit bt_buf_destroy).

(** The answers of a sequence of operations, and the state and references after it. *)
Fixpoint sample_run (ops : list client_op) (s : buf_state) (H : handles) : option (list client_out * (buf_state * handles)) :=
  match ops with
  | [] => Some ([], (s, H))
  | op :: ops =>
      match sample_do op s with
      | Some (out, s') => r ← sample_run ops s' (client_has op out H); mret (out :: r.1, r.2)
      | None => None
      end
  end.
Definition answers (ops : list client_op) : option (list client_out) := fst <$> sample_run ops no_bufs ∅.
Definition state_after (ops : list client_op) : buf_state := from_option (fun r => r.2.1) no_bufs (sample_run ops no_bufs ∅).
Definition handles_after (ops : list client_op) : handles := from_option (fun r => r.2.2) ∅ (sample_run ops no_bufs ∅).

(** Eight bytes in three fragments, a second reference to the first, four bytes skipped. *)
Definition sample_ops : list client_op :=
  [BAlloc 0 3 0 None; BAppend 100 [1; 2; 3; 4; 5; 6; 7; 8] 0 None; BRef 100; BUnref 100; BSkip (Some 100) 4].
Example sample_answers : answers (sample_ops ++ [BLinearize 20 (Some 101) 0 20; BFragsLen (Some 101); BMatch 101 1 [6; 7; 9] 3; BAlloc 0 3 0 None; BAlloc 0 3 0 None; BAlloc 0 3 0 None]) =
  Some [RAlloc (Got (Some 100)); RAdded (Some 8); RPtr (Some 100); RNone; RPtr (Some 101);
        RBytes [5; 6; 7; 8]; RNum 4; RNum 2; RAlloc (Got (Some 100)); RAlloc (Got (Some 103)); RAlloc (Got None)].
Proof. vm_compute. reflexivity. Qed.

(** * What the conditions keep out *)

(** The count has eight bits: with the 256th reference it is 0, and the next [bt_buf_unref]
    fails its assertion while 256 references are held. *)
Example count_wraps : answers (BAlloc 0 3 0 None :: repeat (BRef 100) 255) = Some (RAlloc (Got (Some 100)) :: repeat (RPtr (Some 100)) 255) /\
  answers (BAlloc 0 3 0 None :: repeat (BRef 100) 255 ++ [BUnref 100]) = None.
Proof. split; vm_compute; reflexivity. Qed.

(** An empty fragment: [bt_buf_skip] reads a byte of it that is not there. *)
Example skip_empty_fragment : answers [BAlloc 0 3 0 None; BAppend 100 [7] 0 None; BAlloc 0 3 0 None; BFragInsert 101 100; BFragsLen (Some 101)] =
    Some [RAlloc (Got (Some 100)); RAdded (Some 1); RAlloc (Got (Some 101)); RNone; RNum 1] /\
  answers [BAlloc 0 3 0 None; BAppend 100 [7] 0 None; BAlloc 0 3 0 None; BFragInsert 101 100; BSkip (Some 101) 1] = None.
Proof. split; vm_compute; reflexivity. Qed.

(** A fragment that already is in the chain makes it a circle, and [bt_buf_frag_last] does
    not come to its end. *)
Example shared_end_circles : answers [BAlloc 0 3 0 None; BAlloc 0 3 0 None; BFragAdd (Some 100) 101; BRef 101; BFragInsert 101 100] <> None /\
  answers [BAlloc 0 3 0 None; BAlloc 0 3 0 None; BFragAdd (Some 100) 101; BRef 101; BFragInsert 101 100; BFragsLen (Some 100)] = None.
Proof. split; vm_compute; [discriminate|reflexivity]. Qed.

(** * A run *)

Fixpoint all_may (ops : list client_op) (s : buf_state) (H : handles) : Prop :=
  match ops with
  | [] => True
  | op :: ops => client_may op s H /\ match sample_do op s with Some (out, s') => all_may ops s' (client_has op out H) | None => False end
  end.
Lemma all_may_steps ops : forall s H outs w, all_may ops s H -> sample_run ops s H = Some (outs, w) -> rtc sample_step (s, H) w.
Proof.
  induction ops as [|op ops IH]; intros s H outs w Hmay Hrun; cbn in Hmay, Hrun; [injection Hrun as <- <-; apply rtc_refl|].
  destruct Hmay as [Hop Hmay]. destruct (sample_do op s) as [[out s']|] eqn:E; [|done].
  destruct (sample_run ops s' (client_has op out H)) as [[outs' w']|] eqn:Er; [|done]. injection Hrun as <- <-.
  eapply rtc_l; [by econstructor|]. by eapply IH.
Qed.

Ltac next_op := match goal with |- context [sample_do ?op ?s] => let r := eval vm_compute in (sample_do op s) in change (sample_do op s) with r; cbv iota beta end.
Ltac has_handle := apply (bool_decide_unpack _); vm_compute; exact I.
Ltac find_window := eexists; split; [vm_compute; reflexivity|].

Lemma sample_may : all_may sample_ops no_bufs ∅.
Proof.
  unfold sample_ops. split; [by exists buf_pool; split; [|cbn; lia]|]. next_op.
  assert (forall m H a b l, m !! a = Some b -> a ∈ H -> path m (bb_frags b) l -> reaches m H a) as Hr.
  { intros m H a b l Hb Ha Hl. exists a, (a :: l). split; [done|]. split; [by econstructor|by left]. }
  split.
  { split; [eapply (Hr _ _ _ _ []); [vm_compute; reflexivity|has_handle|constructor]|]. split; [by repeat constructor|]. find_window. eexists. split; [vm_compute; reflexivity|]. cbn. lia. }
  next_op. split; [split; [has_handle|find_window; vm_compute; done]|]. next_op. split; [cbn [client_may]; has_handle|]. next_op. split; [|by next_op].
  split; [intros a [= <-]; has_handle|]. intros l Hl.
  assert (path (s_bufs (state_after (take 2 sample_ops))) (Some 100) [100; 101; 102]) as Hp by (repeat (econstructor; [vm_compute; reflexivity|]); constructor).
  rewrite (path_fun _ _ _ _ Hl Hp). intros a Ha. repeat (apply elem_of_cons in Ha as [->|Ha]; [vm_compute; discriminate|]). by apply elem_of_nil in Ha.
Qed.

Lemma no_bufs_fresh : fresh_pools no_bufs.
Proof.
  assert (forall i p, s_pools no_bufs !! i = Some p -> i = 0%nat /\ p = buf_pool) as Hi by (intros [|[|i]] p Hp; [by injection Hp as <-|done|done]).
  split.
  - intros i p [-> ->]%Hi. split; [|done]. split; [by vm_compute|by vm_compute|done|]. by repeat (constructor; [by repeat constructor|]).
  - intros i j p q a [-> _]%Hi [-> _]%Hi. done.
  - intros i p a [_ ->]%Hi Ha. unfold in_range in Ha. cbn in Ha. assert (a = 100 \/ a = 101 \/ a = 102 \/ a = 103) as Ha' by lia.
    destruct Ha' as [->|[->|[->| ->]]]; by eexists.
  - done.
Qed.
Lemma sample_reached : rtc sample_step (no_bufs, ∅) (state_after sample_ops, handles_after sample_ops).
Proof. eapply all_may_steps; [apply sample_may|]. vm_compute. reflexivity. Qed.

(** The second fragment after the run. *)
Definition sample_frag : bt_buf := Eval vm_compute in default (sample_noinit 0) (s_bufs (state_after sample_ops) !! 101).
